(* ===== verification/_CoqProject ===== *)
-Q . S2P
Prelude.v
Protocol.v
Codec.v
Buffer.v
Utf8.v
Transport.v
Frame.v
Assembly.v
Operations.v
KwinEnvelope.v
KwinJobs.v
Result.v
Environ.v
Json.v
StateWire.v
Budgets.v
Lease.v
WindowState.v
Response.v
Authorize.v
Subscribe.v
Relay.v
RelaySystem.v
RelayChannel.v
Registry.v
Observe.v
Dispatch.v
Client.v
ClientCalls.v
Permissions.v
ClientLife.v
Session.v
Install.v
DisplayCalls.v
Capture.v
CaptureWorker.v
WorkerServe.v
SessionDaemon.v
Provider.v
ProviderConnections.v
ProviderEvents.v
KwinTranslate.v
KwinBus.v
KwinService.v
HyprJson.v
HyprText.v
Hypr.v
Outputs.v
Toplevels.v
HyprWindows.v
WlWindows.v
