(* ===== verification/Prelude.v ===== *)
(** * Verification of keysharp-desktop

    keysharp-desktop lets automation clients see and control the windows, the
    keyboard state, the clipboard and the screen of a desktop session through one
    local service that asks the user for consent.  This development models the C
    sources of the service under src/ (with the public header
    include/keysharp_desktop/client.h) and proves what makes them correct.

    ** The program

    - The client library (src/client.c) speaks a framed protocol over a UNIX
      socket: an RPC connection for requests, a lease connection for the
      permissions of an application and the events it subscribed to.
    - The authority (src/authorityd.c) admits connections to a worker pool,
      binds each to a lease, checks every request against the permission store
      and the granted scopes, and routes it to the session's desktop: to the
      KWin script over a relay, to a display worker, to a compositor's provider
      or to a capture worker.
    - The session daemon (src/session_backend.c, src/kwin_bus.c) registers the
      session with the authority, and keeps the queue of jobs the KWin script
      polls for and reports on (src/kwin_jobs.c, src/kwin_envelope.c).
    - Display and capture workers (src/capture_worker.c, src/x11, src/wayland)
      are processes of the user's session that the authority starts with a
      bootstrap message, and that call the libraries of the display.

    ** Modelling conventions

    A C function is a Coq function of its inputs that returns its outputs and the
    state it changes: an [option] for a [bool] with an output argument, a [bufop]
    for an append to a buffer, a pair for state passing.  Sizes are [Z] values
    with the wrap-around of their width ([u16], [u32], [u64], [i32]) where it can
    happen.  A C string is its bytes without the terminator.  Pointers appear
    where sharing matters: relays live in a heap, descriptors are numbers whose
    closing is recorded.  What the kernel, the permission library, the display
    libraries and the compositors answer is an argument: a script of system call
    outcomes, a type class with the library's documented laws, or a function.
    Threads interleave at the granularity of the sections under a mutex.
    Memory that runs out is an [Allocator]; a theorem that assumes it does not says
    so, with [AllocTotal].

    ** The files

    Foundations:
    - [Prelude]: bytes, machine integers, notations, tactics and list lemmas.
    - [Protocol]: the constants of src/protocol.h and client.h.
    - [Codec], [Buffer]: integers, cursors and the growing buffer
      (src/protocol_io.c); [reads_*] and [writes] are the contracts every reader
      and every append satisfies.
    - [Utf8]: ksd_utf8_valid (src/protocol_io.c).
    - [Transport]: the deadline loops of src/transport.c over outcome scripts.
    - [Frame]: headers and frames; [Assembly]: chunked requests
      (src/protocol_io.c, and the cutting of src/client.c).
    - [Operations]: src/operation_scope.c, src/kwin_lanes.c and the masks of
      src/backend.c; [Result]: src/operation_result.c.

    Session and desktop side:
    - [KwinEnvelope] (src/kwin_envelope.c, src/kwin_peer.c) and [KwinJobs]
      (src/kwin_jobs.c).
    - [Environ]: src/session_environ.c, the session facts of src/backend.c,
      src/provider_executable.h.
    - [Json], [StateWire]: src/state_wire.c.

    The authority (src/authorityd.c unless said otherwise):
    - [Budgets]: src/worker_pool.c and the counters of captures, assemblies and
      KWin calls.
    - [Lease], [WindowState], [Response]: the lease, the windows its client
      knows, and the answers.
    - [Authorize], [Permissions], [Subscribe]: permissions, their administration
      and the sources of events.
    - [Relay], [RelaySystem], [RelayChannel]: src/kwin_relay.c as locked
      sections, as a system of threads, and as the channel it implements.
    - [Registry], [Observe], [Dispatch]: registered backends and display workers,
      the acknowledgement of window operations, and execute_operation.
    - [Session]: handle_public_connection, the composition of the above.

    The client (src/client.c): [Client], the connection; [ClientLife], a connection
    over every sequence of calls; [ClientCalls], every call and its result.

    Processes and how they find each other:
    - [Install]: src/install_mode.c, the socket the authority makes or inherits
      (src/authorityd.c), and the one a session daemon trusts
      (src/session_backend.c), over a file system that maps paths to statuses.
    - [SessionDaemon]: ksd_daemon_main (src/session_backend.c) and the authority's
      side of its registration, handle_backend_connection (src/authorityd.c).
    - [DisplayCalls]: the requests of src/x11/x11_worker.c and
      src/wayland/wl_worker.c and the library calls they become, and the display
      of a session (src/x11/x11_display.c).
    - [Capture]: src/local_capture.c; [CaptureWorker], the authority's side of
      src/capture_worker.c, and [WorkerServe], the worker's.
    - [KwinTranslate], [KwinBus], [KwinService]: src/kwin_bus.c, the daemon's
      service between the relay and the KWin script: the translation of requests
      and answers, the callbacks of its main loop as functions on a bus, and what
      the whole promises.
    - [Provider], [ProviderConnections], [ProviderEvents]: src/provider.c, the
      calls of the shells' extensions and their replies, the shared connections
      as a system of callers, and the signals a watch passes on.

    The Wayland worker (src/wayland):
    - [HyprJson], [HyprText], [Hypr]: src/wayland/wl_hypr.c, the readers of
      Hyprland's JSON, what a document says as their specification, and the
      requests, dispatchers, opacities and events of its sockets.
    - [Outputs]: wl_outputs.c, wl_displays.c and the absolute pointer of
      wl_pointer.c.
    - [Toplevels]: the windows compositors announce (wl_windows.c,
      wl_cosmic_windows.c) and their handles (wl_connect.c).
    - [HyprWindows], [WlWindows]: wl_hypr_windows.c, and the views of windows with
      their listing, queries and actions (wl_windows.c, wl_wlr_windows.c,
      wl_cosmic_windows.c).

    ** What the theorems show

    - Wire formats: encoders and decoders are inverse and the decoders accept the
      wire form only (frames, assemblies, responses, state events, window
      records, KWin envelopes, UTF-8, JSON strings and numbers), whatever way the
      stream is cut into reads.
    - Permissions: an operation runs only for a lease that holds its scope before
      it starts and when its answer is given; scopes are granted by the store or
      by the user's consent only; an authorization that a revocation crossed
      grants nothing.
    - State: the windows a lease keeps are the ones its client deduces from the
      events it was sent; the budget tables represent exactly the holders; the
      queue of KWin jobs keeps its invariant and its lifecycle.
    - Concurrency: the relay refines a map from calls to answers under every
      interleaving, no waiting thread is left without one that wakes it, and the
      relay is freed with its last user; registrations hold their references.
    - Resources: memory, descriptors and budget units taken for a connection or
      an operation are given back on every path.
    - Composition: a connection serves requests one at a time and in order, each
      answered once; what a client sends is the call the service decodes, and the
      answer the client parses is the one the service built; what a client asks of
      a display reaches the library call of the same name.
    - Shells: what a client asks of a shell is the extension's method of the same
      name, whose reply the client reads; a call is made only over a connection
      whose other end is the registered shell, the connections are counted under
      every interleaving and every caller comes to its end; a watch passes on a
      whole snapshot and then every signal in order.
    - The KWin script: a request becomes the words of a job and a report its answer,
      nothing being lost between the two languages; every call of the script and
      every request of the authority is answered once, the table of requests is the
      live jobs of the queue, and no job waits beside a parked poll.
    - Wayland: the readers of Hyprland's JSON find the windows a document describes
      and end on any other; handles name one window at most under every event, what
      is listed is what is acted on, and an action concerns one window; a window is
      restored to its workspace and placed where it was asked to be; opacities
      survive their text; a process is signalled only while it owns the window.
    - Processes: a daemon and the authority agree on what was registered, and a
      registration ends with its connection; a worker serves only as the user it
      was started for; what it answers is what the authority receives; a capture is
      the image the compositor wrote, and descriptors and children are accounted
      for on every path.

    ** Fuel and bounds

    Loops that are not structural carry fuel and have a theorem that the fuel they
    are started with is enough: the length of the input for the parsers (every
    turn consumes a byte), the number of slots for the scans of tables, the length
    of the outcome script for the loops over system calls.  [None] of a script
    loop is a script that ends while the loop would still block; the theorems say
    when a script is long enough.  Tables and limits have their sizes from the
    source ([Protocol]); witnesses evaluate at these sizes or at small inputs.

    ** Not modelled

    - GLib's connections, main loop, timers and values, which src/provider.c and
      src/kwin_bus.c use: they are arguments, or events of the model; and the
      tests compiled into src/kwin_bus.c.
    - The calls of the X and Wayland libraries, the sources of events that run
      inside them, and generated protocol code: the workers take them as arguments,
      or as the events they deliver.  Of src/wayland, connecting and binding,
      capture, the clipboard, the keyboard, the relative pointer and the watches.
    - src/cli.c, src/main.c and src/enable_extension.c: argument handling, printing
      and file copying.
    - The exposure of KWin's executable to a capture worker, and the check of its
      inherited descriptors (src/capture_worker.c); in the client, connecting the
      socket and the init, clear and name functions (src/client.c). *)
From Stdlib Require Import ZArith Lia.
From Stdlib Require Import Strings.Byte Strings.String.
From stdpp Require Import base list option numbers tactics.
Local Open Scope Z_scope.

(** ** Bytes and machine integers

    A [uint8_t] is a [byte]; wider unsigned integers are [Z] values that the
    conversions below reduce to their width, as a C cast does. *)

#[export] Instance byte_eq_dec : EqDecision byte := Byte.byte_eq_dec.

Definition b2z (b : byte) : Z := Z.of_N (Byte.to_N b).

(** The cast [(uint8_t)z]. *)
Definition z2b (z : Z) : byte :=
  match Byte.of_N (Z.to_N (z mod 256)) with Some b => b | None => x00 end.

Definition u16 (z : Z) : Z := z mod 2 ^ 16.
Definition u32 (z : Z) : Z := z mod 2 ^ 32.
Definition u64 (z : Z) : Z := z mod 2 ^ 64.
(** The cast [(int32_t)z] of a two's complement target. *)
Definition i32 (z : Z) : Z := (z + 2 ^ 31) mod 2 ^ 32 - 2 ^ 31.

Definition UINT32_MAX : Z := 2 ^ 32 - 1.
Definition UINT64_MAX : Z := 2 ^ 64 - 1.
(** [size_t] is 64 bits wide, as on every platform the service is built for. *)
Definition SIZE_MAX : Z := 2 ^ 64 - 1.
Definition INT32_MIN : Z := - 2 ^ 31.
Definition INT32_MAX : Z := 2 ^ 31 - 1.

Definition is_u16 (z : Z) : Prop := 0 <= z < 2 ^ 16.
Definition is_u32 (z : Z) : Prop := 0 <= z < 2 ^ 32.
Definition is_u64 (z : Z) : Prop := 0 <= z < 2 ^ 64.
Definition is_i32 (z : Z) : Prop := - 2 ^ 31 <= z < 2 ^ 31.

Create HintDb ksd.
Create HintDb ksdw.

Lemma b2z_range b : 0 <= b2z b < 256.
Proof. unfold b2z. pose proof (Byte.to_N_bounded b). lia. Qed.

Lemma b2z_z2b z : b2z (z2b z) = z mod 256.
Proof.
  unfold z2b, b2z.
  pose proof (Z.mod_pos_bound z 256 ltac:(lia)).
  destruct (Byte.of_N _) as [b|] eqn:E.
  - apply Byte.to_of_N in E. rewrite E. lia.
  - apply Byte.of_N_None_iff in E. lia.
Qed.

Lemma b2z_inj a b : b2z a = b2z b -> a = b.
Proof.
  unfold b2z. intros H. apply N2Z.inj in H.
  pose proof (Byte.of_to_N a). pose proof (Byte.of_to_N b). congruence.
Qed.

Lemma z2b_b2z b : z2b (b2z b) = b.
Proof.
  apply b2z_inj. rewrite b2z_z2b. apply Z.mod_small, b2z_range.
Qed.

Lemma b2z_z2b_small z : 0 <= z < 256 -> b2z (z2b z) = z.
Proof. intros. rewrite b2z_z2b. apply Z.mod_small. done. Qed.

(** Every byte is one of 256 values: a property of bytes that computes to
    [true] on all of them holds. *)
Lemma byte_forall (P : byte -> bool) :
  forallb (fun n => P (z2b (Z.of_nat n))) (seq 0 256) = true -> forall b, P b = true.
Proof.
  intros H b. rewrite forallb_forall in H.
  specialize (H (Z.to_nat (b2z b))). pose proof (b2z_range b).
  rewrite Z2Nat.id in H by lia. rewrite z2b_b2z in H.
  apply H, in_seq. lia.
Qed.

(** ** Bit fields *)

Lemma u32_i32 v : is_u32 v -> u32 (i32 v) = v /\ is_i32 (i32 v).
Proof.
  unfold is_u32, u32, i32, is_i32. intros H. pose proof (Z.mod_pos_bound (v + 2 ^ 31) (2 ^ 32) ltac:(lia)).
  split; [|lia]. rewrite Zminus_mod_idemp_l. replace (v + 2 ^ 31 - 2 ^ 31) with v by lia. by apply Z.mod_small.
Qed.

Lemma lor_shiftl_add x y n : 0 <= n -> 0 <= x < 2 ^ n -> Z.lor x (Z.shiftl y n) = x + y * 2 ^ n.
Proof.
  intros Hn Hx.
  assert (Hland : Z.land x (Z.shiftl y n) = 0).
  { apply Z.bits_inj'. intros i Hi. rewrite Z.land_spec, Z.bits_0.
    destruct (Z.lt_ge_cases i n).
    - rewrite Z.shiftl_spec_low by lia. apply andb_false_r.
    - rewrite <- (Z.mod_small x (2 ^ n)) by lia.
      by rewrite Z.mod_pow2_bits_high by lia. }
  rewrite <- Z.shiftl_mul_pow2 by lia.
  rewrite Z.add_nocarry_lxor by done. by rewrite Z.lxor_lor.
Qed.

Lemma land_subset_l a b : 0 <= a -> 0 <= Z.land a b <= a.
Proof.
  intros Ha. split; [apply Z.land_nonneg; lia|].
  rewrite <- (Z.land_diag a) at 2.
  assert (Hs : a = Z.lor (Z.land a b) (Z.ldiff a b)).
  { apply Z.bits_inj'. intros i Hi.
    rewrite Z.lor_spec, Z.land_spec, Z.ldiff_spec.
    by destruct (Z.testbit a i), (Z.testbit b i). }
  assert (Hd : Z.land (Z.land a b) (Z.ldiff a b) = 0).
  { apply Z.bits_inj'. intros i Hi.
    rewrite !Z.land_spec, Z.ldiff_spec, Z.bits_0.
    by destruct (Z.testbit a i), (Z.testbit b i). }
  pose proof (Z.add_nocarry_lxor _ _ Hd) as Hadd.
  rewrite Z.lxor_lor in Hadd by done. rewrite <- Hs in Hadd.
  assert (0 <= Z.ldiff a b) by (apply Z.ldiff_nonneg; lia).
  rewrite Z.land_diag. lia.
Qed.

(** A disjunction stays within a power of two. *)
Lemma lor_pow2 n a b : 0 < n -> 0 <= a < 2 ^ n -> 0 <= b < 2 ^ n -> 0 <= Z.lor a b < 2 ^ n.
Proof.
  intros Hn Ha Hb. assert (0 <= Z.lor a b) by (apply Z.lor_nonneg; lia). split; [done|].
  destruct (Z.eq_dec (Z.lor a b) 0) as [->|Hne]; [lia|].
  apply Z.log2_lt_pow2; [lia|]. rewrite Z.log2_lor by lia.
  assert (Hl : forall z, 0 <= z < 2 ^ n -> Z.log2 z < n).
  { intros z Hz. destruct (Z.eq_dec z 0) as [->|]; [cbn; lia|]. apply Z.log2_lt_pow2; lia. }
  apply Z.max_lub_lt; by apply Hl.
Qed.

Lemma mod_pow2_land a n : 0 <= n -> a mod 2 ^ n = Z.land a (2 ^ n - 1).
Proof. intros. rewrite <- Z.land_ones, Z.ones_equiv by done. f_equal. Qed.

(** A mask with no bit outside [m], in the form the code tests it. *)
Lemma land_lnot_zero a m : Z.land a (Z.lnot m) = 0 <-> Z.land a m = a.
Proof.
  split; intros H; apply Z.bits_inj'; intros i Hi.
  - apply (f_equal (fun z => Z.testbit z i)) in H.
    rewrite Z.land_spec, Z.lnot_spec, Z.bits_0 in H by lia. rewrite Z.land_spec.
    by destruct (Z.testbit a i), (Z.testbit m i).
  - apply (f_equal (fun z => Z.testbit z i)) in H.
    rewrite Z.land_spec in H. rewrite Z.land_spec, Z.lnot_spec, Z.bits_0 by lia.
    by destruct (Z.testbit a i), (Z.testbit m i).
Qed.

(** ** Lists measured in [Z], as [size_t] lengths *)

Definition zlen {A} (l : list A) : Z := Z.of_nat (length l).
Definition ztake {A} (n : Z) (l : list A) : list A := take (Z.to_nat n) l.
Definition zdrop {A} (n : Z) (l : list A) : list A := drop (Z.to_nat n) l.

Section zlists.
Context {A : Type}.
Implicit Types l : list A.

Lemma zlen_nonneg l : 0 <= zlen l.
Proof. unfold zlen. lia. Qed.
Lemma zlen_nil : zlen (@nil A) = 0.
Proof. done. Qed.
Lemma zlen_cons x l : zlen (x :: l) = 1 + zlen l.
Proof. unfold zlen. simpl. lia. Qed.
Lemma zlen_app l k : zlen (l ++ k) = zlen l + zlen k.
Proof. unfold zlen. rewrite length_app. lia. Qed.
Lemma zlen_ztake n l : 0 <= n <= zlen l -> zlen (ztake n l) = n.
Proof. unfold zlen, ztake. intros. rewrite length_take. lia. Qed.
Lemma zlen_zdrop n l : 0 <= n <= zlen l -> zlen (zdrop n l) = zlen l - n.
Proof. unfold zlen, zdrop. intros. rewrite length_drop. lia. Qed.
Lemma ztake_zdrop n l : ztake n l ++ zdrop n l = l.
Proof. apply take_drop. Qed.
Lemma ztake_app_l l k : ztake (zlen l) (l ++ k) = l.
Proof. unfold ztake, zlen. rewrite Nat2Z.id. apply take_app_length. Qed.
Lemma zdrop_app_l l k : zdrop (zlen l) (l ++ k) = k.
Proof. unfold zdrop, zlen. rewrite Nat2Z.id. apply drop_app_length. Qed.
Lemma ztake_all n l : zlen l <= n -> ztake n l = l.
Proof. unfold zlen, ztake. intros. apply take_ge. lia. Qed.
Lemma ztake_0 l : ztake 0 l = [].
Proof. done. Qed.
Lemma zdrop_0 l : zdrop 0 l = l.
Proof. done. Qed.
Lemma zdrop_zdrop n m l : 0 <= n -> 0 <= m -> zdrop n (zdrop m l) = zdrop (m + n) l.
Proof. unfold zdrop. intros. rewrite drop_drop. f_equal. lia. Qed.
Lemma zdrop_all n l : zlen l <= n -> zdrop n l = [].
Proof. unfold zlen, zdrop. intros. apply drop_ge. lia. Qed.
End zlists.

#[export] Hint Resolve zlen_nonneg b2z_range : ksd.
(** Arithmetic side conditions of [auto with ksd]. *)
#[export] Hint Extern 5 (_ <= _) => lia : ksd.
#[export] Hint Extern 5 (_ < _) => lia : ksd.

(** ** Searches and updates of arrays *)

(** The loop that stops at the first element with a property. *)
Fixpoint find_index {A} (p : A -> bool) (l : list A) : option nat :=
  match l with
  | [] => None
  | x :: l => if p x then Some O else option_map S (find_index p l)
  end.

Lemma find_index_some {A} (p : A -> bool) l i :
  find_index p l = Some i -> exists x, l !! i = Some x /\ p x = true.
Proof.
  revert i. induction l as [|x l IH]; intros i; cbn [find_index]; [done|].
  destruct (p x) eqn:E; [intros [= <-]; eauto|].
  destruct (find_index p l) as [j|]; cbn; [|done]. intros [= <-]. by apply IH.
Qed.

Lemma find_index_none {A} (p : A -> bool) l i x : find_index p l = None -> l !! i = Some x -> p x = false.
Proof.
  revert i. induction l as [|y l IH]; intros i; cbn [find_index]; [done|].
  destruct (p y) eqn:E; [done|]. destruct (find_index p l) as [j|] eqn:Ej; [done|]. intros _.
  destruct i; cbn; [by intros [= <-]|]. by apply IH.
Qed.

Lemma zlen_perm {A} (l k : list A) : Permutation l k -> zlen l = zlen k.
Proof. intros H. unfold zlen. by rewrite (Permutation_length H). Qed.

(** Multisets of handles, compared by counting. *)
Lemma perm_count (l k : list Z) : l ≡ₚ k <-> forall x, count_occ Z.eq_dec l x = count_occ Z.eq_dec k x.
Proof. apply Permutation_count_occ. Qed.

(** What the elements of an array hold, when one of them is replaced. *)
Lemma concat_map_insert {A B} (f : A -> list B) (l : list A) i x y :
  l !! i = Some x -> concat (map f (<[i := y]> l)) ++ f x ≡ₚ concat (map f l) ++ f y.
Proof.
  revert i. induction l as [|z l IH]; intros [|i] Hi; cbn in *; [done..| |].
  - injection Hi as ->. rewrite (Permutation_app_comm _ (f x)), (Permutation_app_comm _ (f y)), !app_assoc.
    by rewrite (Permutation_app_comm (f x) (f y)).
  - by rewrite <- !app_assoc, (IH _ Hi).
Qed.

(** ** C strings *)

(** The bytes of a string literal, without its terminator. *)
Definition cstr (s : string) : list byte := String.list_byte_of_string s.

(** The C string at the start of a buffer. *)
Fixpoint until_nul (s : list byte) : list byte :=
  match s with
  | [] => []
  | b :: s => if b2z b =? 0 then [] else b :: until_nul s
  end.
Lemma until_nul_id s : Forall (fun b => b2z b <> 0) s -> until_nul s = s.
Proof. induction 1 as [|b s Hb _ IH]; cbn [until_nul]; [done|]. rewrite (proj2 (Z.eqb_neq _ _)) by done. by rewrite IH. Qed.

(** [memcmp(a, b, n) == 0] for buffers that hold exactly the compared bytes. *)
Definition bytes_eqb (a b : list byte) : bool := bool_decide (a = b).

(** ** Error results: C's out-parameter plus [bool] is an [option] *)

Declare Scope ksd_scope.
Delimit Scope ksd_scope with ksd.
Notation "'let*' x ':=' c 'in' k" := (match c with Some x => k | None => None end)
  (at level 200, x pattern, c at level 100, k at level 200, right associativity) : ksd_scope.
Notation "'guard*' c 'in' k" := (if (c : bool) then k else None)
  (at level 200, c at level 100, k at level 200, right associativity) : ksd_scope.

(** ** Tactics *)

(** Turn boolean tests in hypotheses and goal into propositions. *)
Ltac breflect :=
  repeat match goal with
  | H : context [andb _ _ = true] |- _ => rewrite andb_true_iff in H
  | H : context [orb _ _ = true] |- _ => rewrite orb_true_iff in H
  | H : context [negb _ = true] |- _ => rewrite negb_true_iff in H
  | H : context [negb _ = false] |- _ => rewrite negb_false_iff in H
  | H : context [andb _ _ = false] |- _ => rewrite andb_false_iff in H
  | H : context [orb _ _ = false] |- _ => rewrite orb_false_iff in H
  | H : context [Z.eqb _ _ = true] |- _ => rewrite Z.eqb_eq in H
  | H : context [Z.eqb _ _ = false] |- _ => rewrite Z.eqb_neq in H
  | H : context [Z.ltb _ _ = true] |- _ => rewrite Z.ltb_lt in H
  | H : context [Z.ltb _ _ = false] |- _ => rewrite Z.ltb_ge in H
  | H : context [Z.leb _ _ = true] |- _ => rewrite Z.leb_le in H
  | H : context [Z.leb _ _ = false] |- _ => rewrite Z.leb_gt in H
  | H : _ /\ _ |- _ => destruct H
  end.

(** Case on every [if] the goal or a hypothesis is stuck on. *)
Ltac case_if :=
  match goal with
  | |- context [if ?b then _ else _] => destruct b eqn:?
  | H : context [if ?b then _ else _] |- _ => destruct b eqn:?
  end.
Ltac case_ifs := repeat (case_if; simplify_eq/=).

(** Permutations of lists of handles that follow from others, by counting. *)
Ltac count_handles :=
  rewrite ?app_nil_r in *;
  repeat match goal with H : @Permutation Z _ _ |- _ => rewrite perm_count in H end;
  rewrite ?perm_count; intros;
  repeat match goal with H : forall x, count_occ _ _ x = count_occ _ _ x |- context [count_occ _ _ ?y] =>
    specialize (H y) end;
  do 3 (rewrite ?count_occ_app in *; cbn [count_occ] in *);
  repeat match goal with
         | |- context [if Z.eq_dec ?a ?b then _ else _] => destruct (Z.eq_dec a b)
         | H : context [if Z.eq_dec ?a ?b then _ else _] |- _ => destruct (Z.eq_dec a b)
         end; lia.
