(* ===== verification/Protocol.v ===== *)
(** * Protocol vocabulary

    The constants of [src/protocol.h] and [include/keysharp_desktop/client.h]
    under their own names: frame layout, flags, opcodes, statuses, roles,
    operation bits, permission scopes, state domains and the size limits.
    The [KSP_SCOPE_*] values belong to the permission library; [src/client.c]
    pins each of them to the public [KSD_SCOPE_*] value with a static assertion,
    and those equalities are the definitions at the end. *)
From Stdlib Require Import ZArith.
Local Open Scope Z_scope.

(** ** src/protocol.h *)

Definition KSD_ROLE_EVENT_STREAM : Z := 1.
Definition KSD_WINDOW_EVENT_CREATE : Z := 1.
Definition KSD_WINDOW_EVENT_CLOSE : Z := 2.
Definition KSD_WINDOW_EVENT_ACTIVE : Z := 3.
Definition KSD_WINDOW_EVENT_TITLE : Z := 4.
Definition KSD_WINDOW_EVENT_MINIMIZE : Z := 5.
Definition KSD_WINDOW_EVENT_RESTORE : Z := 6.
Definition KSD_WINDOW_EVENT_MOVE : Z := 7.
Definition KSD_WINDOW_EVENT_ACTIVE_STATE : Z := 8.
Definition KSD_WINDOW_EVENT_SHOW : Z := 9.
Definition KSD_WINDOW_EVENT_HIDE : Z := 10.
Definition KSD_WINDOW_EVENT_CHANGED : Z := 11.
Definition KSD_WATCH_REFRESH_BYTE : Z := 1.
Definition KSD_WATCH_SAMPLED_WINDOWS : Z := 1.
Definition KSD_PROTOCOL_MAJOR : Z := 3.
Definition KSD_PROTOCOL_MINOR : Z := 0.
Definition KSD_FRAME_HEADER_SIZE : Z := 24.
Definition KSD_FRAME_MAGIC_OFFSET : Z := 0.
Definition KSD_FRAME_MAJOR_OFFSET : Z := 4.
Definition KSD_FRAME_MINOR_OFFSET : Z := 6.
Definition KSD_FRAME_OPCODE_OFFSET : Z := 8.
Definition KSD_FRAME_FLAGS_OFFSET : Z := 10.
Definition KSD_FRAME_PAYLOAD_LENGTH_OFFSET : Z := 12.
Definition KSD_FRAME_REQUEST_ID_OFFSET : Z := 16.
Definition KSD_FRAME_MAGIC_0 : Z := 75.
Definition KSD_FRAME_MAGIC_1 : Z := 83.
Definition KSD_FRAME_MAGIC_2 : Z := 68.
Definition KSD_FRAME_MAGIC_3 : Z := 80.
Definition KSD_FLAG_RESPONSE : Z := 0x0001.
Definition KSD_FLAG_EVENT : Z := 0x0002.
Definition KSD_FLAG_MORE : Z := 0x0004.
Definition KSD_FLAG_ALL : Z := Z.lor (Z.lor (KSD_FLAG_RESPONSE) KSD_FLAG_EVENT) KSD_FLAG_MORE.
Definition KSD_OP_HELLO : Z := 0x0001.
Definition KSD_OP_AUTHORIZE : Z := 0x0002.
Definition KSD_OP_PING : Z := 0x0003.
Definition KSD_OP_PERMISSIONS_LIST : Z := 0x0004.
Definition KSD_OP_PERMISSIONS_REVOKE : Z := 0x0005.
Definition KSD_OP_SESSION_REVOKED : Z := 0x0006.
Definition KSD_OP_STATE_SUBSCRIBE : Z := 0x0007.
Definition KSD_OP_STATE_EVENT : Z := 0x0008.
Definition KSD_OP_CAPTURE_AREA : Z := 0x2000.
Definition KSD_OP_CAPTURE_WINDOW : Z := 0x2001.
Definition KSD_OP_CAPTURE_DESKTOP : Z := 0x2002.
Definition KSD_OP_WINDOW_LIST : Z := 0x2010.
Definition KSD_OP_WINDOW_ACTIVE : Z := 0x2011.
Definition KSD_OP_WINDOW_WATCH : Z := 0x2012.
Definition KSD_OP_WINDOW_HANDLES : Z := 0x2013.
Definition KSD_OP_WINDOW_FOCUS : Z := 0x2020.
Definition KSD_OP_WINDOW_RAISE : Z := 0x2021.
Definition KSD_OP_WINDOW_LOWER : Z := 0x2022.
Definition KSD_OP_WINDOW_CLOSE : Z := 0x2023.
Definition KSD_OP_WINDOW_KILL : Z := 0x2024.
Definition KSD_OP_WINDOW_MOVE_RESIZE : Z := 0x2025.
Definition KSD_OP_WINDOW_MOVE_RESIZE_XID : Z := 0x2026.
Definition KSD_OP_WINDOW_SET_STATE : Z := 0x2027.
Definition KSD_OP_WINDOW_SET_OPACITY : Z := 0x2028.
Definition KSD_OP_WINDOW_SET_ABOVE : Z := 0x2029.
Definition KSD_OP_WINDOW_SET_DECORATED : Z := 0x202a.
Definition KSD_OP_WINDOW_RESERVE : Z := 0x202b.
Definition KSD_OP_WINDOW_GET_RESERVED : Z := 0x202c.
Definition KSD_OP_WINDOW_SET_SKIP_TASKBAR : Z := 0x202d.
Definition KSD_OP_CLIPBOARD_MIMETYPES : Z := 0x2030.
Definition KSD_OP_CLIPBOARD_CONTENT : Z := 0x2031.
Definition KSD_OP_CLIPBOARD_TEXT : Z := 0x2032.
Definition KSD_OP_CLIPBOARD_WATCH : Z := 0x2033.
Definition KSD_OP_MOUSE_MOVE_ABSOLUTE : Z := 0x2040.
Definition KSD_OP_MOUSE_MOVE_RELATIVE : Z := 0x2041.
Definition KSD_OP_MOUSE_BUTTON : Z := 0x2042.
Definition KSD_OP_MOUSE_SCROLL : Z := 0x2043.
Definition KSD_OP_CURSOR_POSITION : Z := 0x2050.
Definition KSD_OP_WORK_AREA : Z := 0x2051.
Definition KSD_OP_CLIPBOARD_SET_CONTENT : Z := 0x2060.
Definition KSD_OP_WINDOW_QUERY : Z := 0x2014.
Definition KSD_OP_WINDOW_CHILDREN : Z := 0x2015.
Definition KSD_OP_WINDOW_AT_POINT : Z := 0x2016.
Definition KSD_OP_DISPLAY_LIST : Z := 0x2052.
Definition KSD_OP_KEYBOARD_STATE : Z := 0x2053.
Definition KSD_OP_WINDOW_SET_TITLE : Z := 0x2070.
Definition KSD_OP_WINDOW_SET_VISIBLE : Z := 0x2071.
Definition KSD_OP_WINDOW_REDRAW : Z := 0x2072.
Definition KSD_OP_WINDOW_CLICK : Z := 0x2073.
Definition KSD_OP_WINDOW_BUTTON : Z := 0x2074.
Definition KSD_OP_WINDOW_FOCUS_CHILD : Z := 0x2075.
Definition KSD_OP_WINDOW_EVENT : Z := 0x2110.
Definition KSD_OP_CLIPBOARD_EVENT : Z := 0x2130.
Definition KSD_CAPTURE_WINDOW_INCLUDE_DECORATION : Z := 0x00000001.
Definition KSD_MAX_REQUEST_PAYLOAD : Z := (4 * 1024).
Definition KSD_MAX_REQUEST_TOTAL_PAYLOAD : Z := (4 * 1024 * 1024).
Definition KSD_MAX_TEXT_BYTES : Z := (4 * 1024 * 1024).
Definition KSD_MAX_CAPTURE_BYTES : Z := (256 * 1024 * 1024).
Definition KSD_MAX_CAPTURE_TAIL : Z := (KSD_MAX_CAPTURE_BYTES + 20).
Definition KSD_MAX_CAPTURE_DIMENSION : Z := 32768.
Definition KSD_MAX_CAPTURE_PIXELS : Z := (64 * 1024 * 1024).
Definition KSD_MAX_MIMETYPE_BYTES : Z := 1024.
Definition KSD_MAX_MIMETYPES : Z := 4096.
Definition KSD_MAX_CLIPBOARD_WRITE_BYTES : Z := (KSD_MAX_REQUEST_TOTAL_PAYLOAD - KSD_MAX_MIMETYPE_BYTES - 8).
Definition KSD_MAX_MOUSE_SCROLL_DELTA : Z := 12000.

(** ** include/keysharp_desktop/client.h *)

Definition KSD_CLIENT_ABI_MAJOR : Z := 1.
Definition KSD_CLIENT_ABI_MINOR : Z := 0.
Definition KSD_ERROR_MESSAGE_CAPACITY : Z := 256.
Definition KSD_ERROR_DETAIL_NO_AUTHENTICATION_AGENT : Z := 0x00010000.
Definition KSD_PERMISSION_HASH_HEX_SIZE : Z := 65.
Definition KSD_EXECUTABLE_PATH_SIZE : Z := 4096.
Definition KSD_DEFAULT_REQUEST_TIMEOUT_MS : Z := 130000.
Definition KSD_MAX_WATCH_TIMEOUT_MS : Z := 60000.
Definition KSD_STATUS_OK : Z := 0.
Definition KSD_STATUS_DENIED : Z := 1.
Definition KSD_STATUS_UNSUPPORTED : Z := 2.
Definition KSD_STATUS_INVALID_REQUEST : Z := 3.
Definition KSD_STATUS_UNAVAILABLE : Z := 4.
Definition KSD_STATUS_BUSY : Z := 5.
Definition KSD_STATUS_NOT_FOUND : Z := 6.
Definition KSD_STATUS_RESOURCE_EXHAUSTED : Z := 7.
Definition KSD_STATUS_TIMEOUT : Z := 8.
Definition KSD_STATUS_CANCELLED : Z := 9.
Definition KSD_STATUS_REVOKED : Z := 10.
Definition KSD_STATUS_INTERNAL : Z := 255.
Definition KSD_AUTH_CHECK : Z := 0.
Definition KSD_AUTH_REQUEST : Z := 1.
Definition KSD_ROLE_RPC : Z := 0.
Definition KSD_ROLE_AUTHORIZATION_LEASE : Z := 3.
Definition KSD_SCOPE_INPUT_MONITORING : Z := 0x00000001.
Definition KSD_SCOPE_INPUT_CONTROL : Z := 0x00000002.
Definition KSD_SCOPE_WINDOW_MONITORING : Z := 0x00000004.
Definition KSD_SCOPE_WINDOW_CONTROL : Z := 0x00000008.
Definition KSD_SCOPE_SCREEN_CAPTURE : Z := 0x00000010.
Definition KSD_SCOPE_AUDIO_CAPTURE : Z := 0x00000020.
Definition KSD_SCOPE_CAMERA_CAPTURE : Z := 0x00000040.
Definition KSD_SCOPE_CLIPBOARD_MONITORING : Z := 0x00000080.
Definition KSD_SCOPE_ALL : Z := 0x000000ff.
Definition KSD_BACKEND_NONE : Z := 0.
Definition KSD_BACKEND_KWIN : Z := 1.
Definition KSD_BACKEND_GNOME : Z := 2.
Definition KSD_BACKEND_CINNAMON : Z := 3.
Definition KSD_BACKEND_GENERIC : Z := 4.
Definition KSD_BACKEND_X11 : Z := 5.
Definition KSD_OPERATION_CAPTURE_AREA : Z := 0x0000000000000001.
Definition KSD_OPERATION_CAPTURE_WINDOW : Z := 0x0000000000000002.
Definition KSD_OPERATION_WINDOW_LIST : Z := 0x0000000000000004.
Definition KSD_OPERATION_WINDOW_ACTIVE : Z := 0x0000000000000008.
Definition KSD_OPERATION_WINDOW_WATCH : Z := 0x0000000000000010.
Definition KSD_OPERATION_WINDOW_FOCUS : Z := 0x0000000000000020.
Definition KSD_OPERATION_WINDOW_RAISE : Z := 0x0000000000000040.
Definition KSD_OPERATION_WINDOW_LOWER : Z := 0x0000000000000080.
Definition KSD_OPERATION_WINDOW_CLOSE : Z := 0x0000000000000100.
Definition KSD_OPERATION_WINDOW_KILL : Z := 0x0000000000000200.
Definition KSD_OPERATION_WINDOW_MOVE_RESIZE : Z := 0x0000000000000400.
Definition KSD_OPERATION_WINDOW_MOVE_RESIZE_XID : Z := 0x0000000000000800.
Definition KSD_OPERATION_WINDOW_SET_STATE : Z := 0x0000000000001000.
Definition KSD_OPERATION_WINDOW_SET_OPACITY : Z := 0x0000000000002000.
Definition KSD_OPERATION_WINDOW_SET_ABOVE : Z := 0x0000000000004000.
Definition KSD_OPERATION_WINDOW_SET_DECORATED : Z := 0x0000000000008000.
Definition KSD_OPERATION_WINDOW_RESERVE : Z := 0x0000000000010000.
Definition KSD_OPERATION_WINDOW_GET_RESERVED : Z := 0x0000000000020000.
Definition KSD_OPERATION_CLIPBOARD_MIMETYPES : Z := 0x0000000000040000.
Definition KSD_OPERATION_CLIPBOARD_CONTENT : Z := 0x0000000000080000.
Definition KSD_OPERATION_CLIPBOARD_TEXT : Z := 0x0000000000100000.
Definition KSD_OPERATION_CLIPBOARD_WATCH : Z := 0x0000000000200000.
Definition KSD_OPERATION_MOUSE_MOVE_ABSOLUTE : Z := 0x0000000000400000.
Definition KSD_OPERATION_MOUSE_MOVE_RELATIVE : Z := 0x0000000000800000.
Definition KSD_OPERATION_MOUSE_BUTTON : Z := 0x0000000001000000.
Definition KSD_OPERATION_MOUSE_SCROLL : Z := 0x0000000002000000.
Definition KSD_OPERATION_CURSOR_POSITION : Z := 0x0000000004000000.
Definition KSD_OPERATION_WORK_AREA : Z := 0x0000000008000000.
Definition KSD_OPERATION_CLIPBOARD_SET_CONTENT : Z := 0x0000000010000000.
Definition KSD_OPERATION_WINDOW_HANDLES : Z := 0x0000000020000000.
Definition KSD_OPERATION_WINDOW_SET_SKIP_TASKBAR : Z := 0x0000000040000000.
Definition KSD_OPERATION_CAPTURE_DESKTOP : Z := 0x0000000080000000.
Definition KSD_OPERATION_WINDOW_QUERY : Z := 0x0000000100000000.
Definition KSD_OPERATION_WINDOW_CHILDREN : Z := 0x0000000200000000.
Definition KSD_OPERATION_WINDOW_AT_POINT : Z := 0x0000000400000000.
Definition KSD_OPERATION_DISPLAY_LIST : Z := 0x0000000800000000.
Definition KSD_OPERATION_KEYBOARD_STATE : Z := 0x0000001000000000.
Definition KSD_OPERATION_WINDOW_SET_TITLE : Z := 0x0000002000000000.
Definition KSD_OPERATION_WINDOW_SET_VISIBLE : Z := 0x0000004000000000.
Definition KSD_OPERATION_WINDOW_REDRAW : Z := 0x0000008000000000.
Definition KSD_OPERATION_WINDOW_CLICK : Z := 0x0000010000000000.
Definition KSD_OPERATION_WINDOW_BUTTON : Z := 0x0000020000000000.
Definition KSD_OPERATION_WINDOW_FOCUS_CHILD : Z := 0x0000040000000000.
Definition KSD_CAPTURE_FORMAT_PNG : Z := 1.
Definition KSD_CAPTURE_FORMAT_BGRA8_PREMULTIPLIED : Z := 2.
Definition KSD_PERMISSION_TARGET_HASH : Z := 1.
Definition KSD_PERMISSION_TARGET_PID : Z := 2.
Definition KSD_PERMISSION_TARGET_ALL : Z := 3.
Definition KSD_STATE_WINDOWS : Z := 1.
Definition KSD_STATE_KEYBOARD : Z := 2.
Definition KSD_STATE_DISPLAYS : Z := 4.
Definition KSD_STATE_CLIPBOARD : Z := 8.
Definition KSD_STATE_GRANTS : Z := 16.
Definition KSD_STATE_ALL : Z := 31.
Definition KSD_STATE_SNAPSHOT_BEGIN : Z := 1.
Definition KSD_STATE_SNAPSHOT_ITEM : Z := 2.
Definition KSD_STATE_SNAPSHOT_END : Z := 3.
Definition KSD_STATE_CREATE : Z := 4.
Definition KSD_STATE_DESTROY : Z := 5.
Definition KSD_STATE_SHOW : Z := 6.
Definition KSD_STATE_HIDE : Z := 7.
Definition KSD_STATE_GEOMETRY : Z := 8.
Definition KSD_STATE_TITLE : Z := 9.
Definition KSD_STATE_ACTIVE : Z := 10.
Definition KSD_STATE_CHANGED : Z := 11.
Definition KSD_STATE_GRANT_CHANGED : Z := 12.
Definition KSD_STATE_RESET : Z := 13.
Definition KSD_WINDOW_VISIBLE : Z := 1.
Definition KSD_WINDOW_ACTIVE : Z := 2.
Definition KSD_WINDOW_MINIMIZED : Z := 4.
Definition KSD_WINDOW_MAXIMIZED : Z := 8.
Definition KSD_WINDOW_ABOVE : Z := 16.
Definition KSD_WINDOW_DECORATED : Z := 32.
Definition KSD_WINDOW_CURRENT_WORKSPACE : Z := 64.
Definition KSD_WINDOW_TOPLEVEL : Z := 128.
Definition KSD_FIELD_ID : Z := 1.
Definition KSD_FIELD_TITLE : Z := 2.
Definition KSD_FIELD_APP_ID : Z := 4.
Definition KSD_FIELD_PID : Z := 8.
Definition KSD_FIELD_FRAME : Z := 16.
Definition KSD_FIELD_CLIENT : Z := 32.
Definition KSD_FIELD_VISIBLE : Z := 64.
Definition KSD_FIELD_ACTIVE : Z := 128.
Definition KSD_FIELD_MINIMIZED : Z := 256.
Definition KSD_FIELD_MAXIMIZED : Z := 512.
Definition KSD_FIELD_ABOVE : Z := 1024.
Definition KSD_FIELD_DECORATED : Z := 2048.
Definition KSD_FIELD_TRANSPARENCY : Z := 4096.
Definition KSD_FIELD_CURRENT_WORKSPACE : Z := 8192.
Definition KSD_FIELD_CAPTURE_ID : Z := 16384.
Definition KSD_FIELD_PARENT : Z := 32768.
Definition KSD_FIELD_SURFACE : Z := 65536.
Definition KSD_FIELD_BUFFER : Z := 131072.
Definition KSD_FIELD_COMPOSITOR_ID : Z := 262144.
Definition KSD_FIELD_STACKING_ORDER : Z := 524288.
Definition KSD_WINDOW_STATE_NORMAL : Z := 0.
Definition KSD_WINDOW_STATE_MINIMIZED : Z := 1.
Definition KSD_WINDOW_STATE_MAXIMIZED : Z := 2.
Definition KSD_WINDOW_STATE_UNMINIMIZED : Z := 3.

(** ** The permission library's scopes, as [src/client.c] asserts them *)

Definition KSP_SCOPE_INPUT_MONITORING : Z := KSD_SCOPE_INPUT_MONITORING.
Definition KSP_SCOPE_INPUT_CONTROL : Z := KSD_SCOPE_INPUT_CONTROL.
Definition KSP_SCOPE_WINDOW_MONITORING : Z := KSD_SCOPE_WINDOW_MONITORING.
Definition KSP_SCOPE_WINDOW_CONTROL : Z := KSD_SCOPE_WINDOW_CONTROL.
Definition KSP_SCOPE_SCREEN_CAPTURE : Z := KSD_SCOPE_SCREEN_CAPTURE.
Definition KSP_SCOPE_AUDIO_CAPTURE : Z := KSD_SCOPE_AUDIO_CAPTURE.
Definition KSP_SCOPE_CAMERA_CAPTURE : Z := KSD_SCOPE_CAMERA_CAPTURE.
Definition KSP_SCOPE_CLIPBOARD_MONITORING : Z := KSD_SCOPE_CLIPBOARD_MONITORING.

(** [src/permission_domain.h] *)
Definition KSD_DESKTOP_MANAGED_SCOPES : Z :=
  Z.lor (Z.lor (Z.lor (Z.lor (Z.lor (Z.lor KSP_SCOPE_INPUT_CONTROL
    KSP_SCOPE_WINDOW_MONITORING) KSP_SCOPE_WINDOW_CONTROL)
    KSP_SCOPE_SCREEN_CAPTURE) KSP_SCOPE_AUDIO_CAPTURE)
    KSP_SCOPE_CAMERA_CAPTURE) KSP_SCOPE_CLIPBOARD_MONITORING.
Definition KSD_DESKTOP_ACCEPTED_SCOPES : Z := KSD_DESKTOP_MANAGED_SCOPES.

(** [src/operation_result.h] *)
Definition KSD_DIAGNOSTIC_CAPACITY : Z := 1024.
