(* ===== verification/Codec.v ===== *)
(** * Integers, cursors and buffers on the wire (src/protocol_io.c)

    Little-endian integers, the bounds-checked read cursor [ksd_cursor] and the
    growing write buffer [ksd_buffer].  A C function that returns [bool] and
    fills an out-parameter becomes an [option]; a function that mutates a
    buffer and returns [bool] becomes a [bufop], and C's short-circuit [&&] of
    such calls is [;;;].  Allocation may fail: [Allocator] is the allocator's
    answer for a request of a given size, and every theorem quantifies over it. *)
From Stdlib Require Import ZArith Lia Strings.Byte.
From stdpp Require Import base list option numbers tactics.
From S2P Require Import Prelude.
From S2P Require Import Protocol.
Local Open Scope Z_scope.
Local Open Scope ksd_scope.

(** ** Integers *)

Definition byte_at (data : list byte) (i : nat) : Z := b2z (nth i data x00).

Definition ksd_decode_u16 (data : list byte) : Z :=
  u16 (Z.lor (byte_at data 0) (u16 (Z.shiftl (byte_at data 1) 8))).

Definition ksd_decode_u32 (data : list byte) : Z :=
  Z.lor (Z.lor (Z.lor (byte_at data 0)
    (u32 (Z.shiftl (byte_at data 1) 8)))
    (u32 (Z.shiftl (byte_at data 2) 16)))
    (u32 (Z.shiftl (byte_at data 3) 24)).

Definition ksd_decode_u64 (data : list byte) : Z :=
  Z.lor (ksd_decode_u32 data) (u64 (Z.shiftl (ksd_decode_u32 (zdrop 4 data)) 32)).

(** The encoders give the bytes stored at [data]. *)
Definition ksd_encode_u16 (value : Z) : list byte :=
  [z2b value; z2b (Z.shiftr value 8)].

Definition ksd_encode_u32 (value : Z) : list byte :=
  [z2b value; z2b (Z.shiftr value 8); z2b (Z.shiftr value 16); z2b (Z.shiftr value 24)].

Definition ksd_encode_u64 (value : Z) : list byte :=
  ksd_encode_u32 (u32 value) ++ ksd_encode_u32 (u32 (Z.shiftr value 32)).

(** The little-endian value of a byte string, the reference for the decoders. *)
Fixpoint le_value (data : list byte) : Z :=
  match data with [] => 0 | b :: rest => b2z b + 256 * le_value rest end.

Lemma le_value_range l : 0 <= le_value l < 256 ^ zlen l.
Proof.
  induction l as [|b l IH]; [by split|].
  rewrite zlen_cons, Z.pow_add_r by auto with ksd.
  pose proof (b2z_range b). cbn [le_value]. lia.
Qed.

Lemma le_value_app l k : le_value (l ++ k) = le_value l + 256 ^ zlen l * le_value k.
Proof.
  induction l as [|b l IH]; [change (256 ^ zlen []) with 1; cbn [app le_value]; lia|].
  rewrite zlen_cons, Z.pow_add_r by auto with ksd.
  cbn [le_value app]. rewrite IH. lia.
Qed.

Ltac byte_bounds :=
  repeat match goal with
  | b : byte |- _ =>
    lazymatch goal with
    | _ : 0 <= b2z b < 256 |- _ => fail
    | _ => pose proof (b2z_range b)
    end
  end.

Ltac decode_arith :=
  unfold byte_at, u16, u32, u64; cbn [nth zdrop drop Z.to_nat Pos.to_nat Pos.iter_op Nat.add];
  rewrite ?Z.shiftl_mul_pow2 by lia;
  repeat (rewrite Z.mod_small by lia).

Lemma decode_u16_le a b k : ksd_decode_u16 (a :: b :: k) = le_value [a; b].
Proof.
  unfold ksd_decode_u16. byte_bounds. unfold byte_at, u16. cbn [nth].
  rewrite (Z.mod_small (Z.shiftl _ _)) by (rewrite Z.shiftl_mul_pow2; lia).
  rewrite lor_shiftl_add, Z.mod_small by lia. cbn. lia.
Qed.

Lemma decode_u32_le a b c d k : ksd_decode_u32 (a :: b :: c :: d :: k) = le_value [a; b; c; d].
Proof.
  unfold ksd_decode_u32. byte_bounds. unfold byte_at, u32. cbn [nth].
  rewrite !(Z.mod_small (Z.shiftl _ _)) by (rewrite Z.shiftl_mul_pow2; lia).
  rewrite (lor_shiftl_add (b2z a)) by lia.
  rewrite (lor_shiftl_add (_ + _) (b2z c)) by lia.
  rewrite lor_shiftl_add by lia. cbn [le_value]. lia.
Qed.

Lemma decode_u64_le a b c d e f g h k :
  ksd_decode_u64 (a :: b :: c :: d :: e :: f :: g :: h :: k) = le_value [a; b; c; d; e; f; g; h].
Proof.
  unfold ksd_decode_u64. cbn [zdrop drop Z.to_nat Pos.to_nat Pos.iter_op Nat.add].
  change (zdrop 4 (a :: b :: c :: d :: e :: f :: g :: h :: k)) with (e :: f :: g :: h :: k).
  rewrite !decode_u32_le. change [a; b; c; d; e; f; g; h] with ([a; b; c; d] ++ [e; f; g; h]).
  pose proof (le_value_range [a; b; c; d]) as H1. pose proof (le_value_range [e; f; g; h]) as H2.
  rewrite le_value_app. unfold u64.
  change (256 ^ zlen _) with (2 ^ 32) in *. change (256 ^ zlen [e; f; g; h]) with (2 ^ 32) in *.
  rewrite (Z.mod_small (Z.shiftl _ _)) by (rewrite Z.shiftl_mul_pow2; lia).
  rewrite lor_shiftl_add by lia. lia.
Qed.

Lemma encode_u16_le v : le_value (ksd_encode_u16 v) = u16 v.
Proof.
  unfold ksd_encode_u16, u16. cbn [le_value]. rewrite !b2z_z2b, Z.shiftr_div_pow2 by lia.
  change (2 ^ 16) with (256 * 256). change (2 ^ 8) with 256.
  rewrite Z.rem_mul_r by lia. lia.
Qed.

Lemma encode_u32_le v : le_value (ksd_encode_u32 v) = u32 v.
Proof.
  unfold ksd_encode_u32, u32. cbn [le_value]. rewrite !b2z_z2b, !Z.shiftr_div_pow2 by lia.
  change (2 ^ 32) with (256 * (256 * (256 * 256))).
  change (2 ^ 24) with (256 * 256 * 256). change (2 ^ 16) with (256 * 256). change (2 ^ 8) with 256.
  rewrite !Z.rem_mul_r by lia. rewrite !Z.div_div by lia. lia.
Qed.

Lemma encode_u64_le v : le_value (ksd_encode_u64 v) = u64 v.
Proof.
  unfold ksd_encode_u64. rewrite le_value_app, !encode_u32_le. unfold u32, u64.
  change (256 ^ zlen (ksd_encode_u32 (v mod 2 ^ 32))) with (2 ^ 32).
  rewrite !Z.mod_mod, Z.shiftr_div_pow2 by lia.
  change (2 ^ 64) with (2 ^ 32 * 2 ^ 32). rewrite Z.rem_mul_r by lia. lia.
Qed.

Lemma decode_encode_u16 v k : ksd_decode_u16 (ksd_encode_u16 v ++ k) = u16 v.
Proof. cbn [ksd_encode_u16 app]. rewrite decode_u16_le. apply encode_u16_le. Qed.

Lemma decode_encode_u32 v k : ksd_decode_u32 (ksd_encode_u32 v ++ k) = u32 v.
Proof. cbn [ksd_encode_u32 app]. rewrite decode_u32_le. apply encode_u32_le. Qed.

Lemma decode_encode_u64 v k : ksd_decode_u64 (ksd_encode_u64 v ++ k) = u64 v.
Proof.
  unfold ksd_encode_u64, ksd_encode_u32. cbn [app]. rewrite decode_u64_le. apply encode_u64_le.
Qed.

Lemma zlen_encode_u16 v : zlen (ksd_encode_u16 v) = 2.
Proof. done. Qed.
Lemma zlen_encode_u32 v : zlen (ksd_encode_u32 v) = 4.
Proof. done. Qed.
Lemma zlen_encode_u64 v : zlen (ksd_encode_u64 v) = 8.
Proof. done. Qed.
#[export] Hint Rewrite zlen_encode_u16 zlen_encode_u32 zlen_encode_u64 @zlen_app @zlen_cons @zlen_nil : ksd.

Lemma le_value_inj l k : length l = length k -> le_value l = le_value k -> l = k.
Proof.
  revert k. induction l as [|a l IH]; intros [|b k] Hl He; try done.
  cbn in Hl, He. pose proof (b2z_range a). pose proof (b2z_range b).
  assert (b2z a = b2z b /\ le_value l = le_value k) as [H1 H2] by lia.
  apply b2z_inj in H1 as ->. f_equal. apply IH; [lia|done].
Qed.

Lemma u16_id v : is_u16 v -> u16 v = v.
Proof. apply Z.mod_small. Qed.
Lemma u32_id v : is_u32 v -> u32 v = v.
Proof. apply Z.mod_small. Qed.
Lemma u64_id v : is_u64 v -> u64 v = v.
Proof. apply Z.mod_small. Qed.

Lemma i32_u32 v : is_i32 v -> i32 (u32 v) = v.
Proof.
  unfold is_i32, i32, u32. intros H.
  rewrite Z.add_mod_idemp_l by lia. rewrite Z.mod_small; lia.
Qed.

(** ** The read cursor *)

Record ksd_cursor := mk_cursor {
  cur_data : list byte;
  cur_length : Z;
  cur_offset : Z;
}.

Definition ksd_cursor_init (data : list byte) (length : Z) : ksd_cursor :=
  mk_cursor data length 0.

Definition ksd_cursor_bytes (cursor : ksd_cursor) (length : Z)
    : option (list byte * ksd_cursor) :=
  if (cur_length cursor <? length) || (cur_length cursor - length <? cur_offset cursor)
  then None
  else Some (ztake length (zdrop (cur_offset cursor) (cur_data cursor)),
             mk_cursor (cur_data cursor) (cur_length cursor) (cur_offset cursor + length)).

Definition ksd_cursor_u16 (cursor : ksd_cursor) : option (Z * ksd_cursor) :=
  let* (data, cursor) := ksd_cursor_bytes cursor 2 in Some (ksd_decode_u16 data, cursor).

Definition ksd_cursor_u32 (cursor : ksd_cursor) : option (Z * ksd_cursor) :=
  let* (data, cursor) := ksd_cursor_bytes cursor 4 in Some (ksd_decode_u32 data, cursor).

Definition ksd_cursor_i32 (cursor : ksd_cursor) : option (Z * ksd_cursor) :=
  let* (encoded, cursor) := ksd_cursor_u32 cursor in Some (i32 encoded, cursor).

Definition ksd_cursor_u64 (cursor : ksd_cursor) : option (Z * ksd_cursor) :=
  let* (data, cursor) := ksd_cursor_bytes cursor 8 in Some (ksd_decode_u64 data, cursor).

Definition ksd_cursor_finished (cursor : ksd_cursor) : bool :=
  cur_offset cursor =? cur_length cursor.

(** A cursor over the whole of its data, the state every cursor the code
    creates is in, and what it has left to read. *)
Definition cursor_wf (c : ksd_cursor) : Prop :=
  cur_length c = zlen (cur_data c) /\ 0 <= cur_offset c <= cur_length c.
Definition cursor_rest (c : ksd_cursor) : list byte := zdrop (cur_offset c) (cur_data c).

Lemma cursor_init_wf l : cursor_wf (ksd_cursor_init l (zlen l)).
Proof. split; cbn; auto with ksd. Qed.

Lemma cursor_init_rest l n : cursor_rest (ksd_cursor_init l n) = l.
Proof. done. Qed.

Lemma zlen_cursor_rest c : cursor_wf c -> zlen (cursor_rest c) = cur_length c - cur_offset c.
Proof. intros [H ?]. unfold cursor_rest. rewrite zlen_zdrop; lia. Qed.

(** [ksd_cursor_bytes] is exactly "take [n] bytes off the front of what is
    left, or fail when fewer are left". *)
Lemma cursor_bytes_spec c n :
  cursor_wf c -> 0 <= n ->
  match ksd_cursor_bytes c n with
  | Some (bs, c') => cursor_rest c = bs ++ cursor_rest c' /\ zlen bs = n /\ cursor_wf c'
  | None => zlen (cursor_rest c) < n
  end.
Proof.
  intros Hwf Hn. pose proof (zlen_cursor_rest c Hwf) as Hr. destruct Hwf as [Hl Ho].
  unfold ksd_cursor_bytes. case_if; breflect.
  - lia.
  - split; [|split].
    + unfold cursor_rest; cbn [cur_data cur_offset].
      rewrite <- zdrop_zdrop by lia. by rewrite ztake_zdrop.
    + apply zlen_ztake. unfold cursor_rest in Hr. lia.
    + split; cbn; lia.
Qed.

(** The same as a rewriting rule on a known prefix. *)
Lemma cursor_bytes_app c bs k :
  cursor_wf c -> cursor_rest c = bs ++ k ->
  exists c', ksd_cursor_bytes c (zlen bs) = Some (bs, c') /\ cursor_wf c' /\ cursor_rest c' = k.
Proof.
  intros Hwf Hr. pose proof (cursor_bytes_spec c (zlen bs) Hwf ltac:(auto with ksd)) as H.
  destruct (ksd_cursor_bytes c (zlen bs)) as [[xs c']|].
  - destruct H as (Hr' & Hlen & Hwf'). rewrite Hr' in Hr.
    apply app_inj_1 in Hr as [E1 E2]; [subst xs; eauto|]. unfold zlen in Hlen. lia.
  - rewrite Hr, zlen_app in H. pose proof (zlen_nonneg k). lia.
Qed.

Lemma cursor_finished_rest c : cursor_wf c -> ksd_cursor_finished c = true <-> cursor_rest c = [].
Proof.
  intros Hwf. pose proof (zlen_cursor_rest c Hwf) as Hr. unfold ksd_cursor_finished.
  rewrite Z.eqb_eq. split; intros H.
  - destruct (cursor_rest c) as [|x l]; [done|]. rewrite zlen_cons in Hr. pose proof (zlen_nonneg l). lia.
  - rewrite H, zlen_nil in Hr. lia.
Qed.

(** A parser over a cursor reads an encoding: fed [bs ++ k] it yields [a] and
    leaves [k].  Parsers of this kind compose, which is how the record
    decoders below are proved. *)
Definition reads {A} (p : ksd_cursor -> option (A * ksd_cursor)) (bs : list byte) (a : A) : Prop :=
  forall c k, cursor_wf c -> cursor_rest c = bs ++ k ->
  exists c', p c = Some (a, c') /\ cursor_wf c' /\ cursor_rest c' = k.

(** A parser is exact: whatever it accepts, it consumed the encoding of. *)
Definition consumes {A} (p : ksd_cursor -> option (A * ksd_cursor)) (enc : A -> list byte) : Prop :=
  forall c a c', cursor_wf c -> p c = Some (a, c') ->
  cursor_wf c' /\ cursor_rest c = enc a ++ cursor_rest c'.

Lemma reads_u16 v : is_u16 v -> reads ksd_cursor_u16 (ksd_encode_u16 v) v.
Proof.
  intros Hv c k Hwf Hr. destruct (cursor_bytes_app c _ _ Hwf Hr) as (c' & E & ? & ?).
  exists c'. unfold ksd_cursor_u16. rewrite zlen_encode_u16 in E. rewrite E.
  rewrite <- (app_nil_r (ksd_encode_u16 v)), decode_encode_u16, u16_id by done. done.
Qed.

Lemma reads_u32 v : is_u32 v -> reads ksd_cursor_u32 (ksd_encode_u32 v) v.
Proof.
  intros Hv c k Hwf Hr. destruct (cursor_bytes_app c _ _ Hwf Hr) as (c' & E & ? & ?).
  exists c'. unfold ksd_cursor_u32. rewrite zlen_encode_u32 in E. rewrite E.
  rewrite <- (app_nil_r (ksd_encode_u32 v)), decode_encode_u32, u32_id by done. done.
Qed.

Lemma reads_u64 v : is_u64 v -> reads ksd_cursor_u64 (ksd_encode_u64 v) v.
Proof.
  intros Hv c k Hwf Hr. destruct (cursor_bytes_app c _ _ Hwf Hr) as (c' & E & ? & ?).
  exists c'. unfold ksd_cursor_u64. rewrite zlen_encode_u64 in E. rewrite E.
  rewrite <- (app_nil_r (ksd_encode_u64 v)), decode_encode_u64, u64_id by done. done.
Qed.
#[export] Hint Resolve reads_u16 reads_u32 reads_u64 : ksdw.

Lemma u16_list bs : zlen bs = 2 -> ksd_encode_u16 (ksd_decode_u16 bs) = bs /\ is_u16 (ksd_decode_u16 bs).
Proof.
  destruct bs as [|a [|b [|? ?]]]; intros H; try done; [|unfold zlen in H; simpl in H; lia].
  rewrite decode_u16_le. pose proof (le_value_range [a; b]) as R.
  split; [|apply R]. apply le_value_inj; [done|].
  rewrite encode_u16_le. apply u16_id, R.
Qed.

Lemma u32_list bs : zlen bs = 4 -> ksd_encode_u32 (ksd_decode_u32 bs) = bs /\ is_u32 (ksd_decode_u32 bs).
Proof.
  destruct bs as [|a [|b [|c [|d [|? ?]]]]]; intros H; try done; [|unfold zlen in H; simpl in H; lia].
  rewrite decode_u32_le. pose proof (le_value_range [a; b; c; d]) as R.
  split; [|apply R]. apply le_value_inj; [done|].
  rewrite encode_u32_le. apply u32_id, R.
Qed.

Lemma u64_list bs : zlen bs = 8 -> ksd_encode_u64 (ksd_decode_u64 bs) = bs /\ is_u64 (ksd_decode_u64 bs).
Proof.
  destruct bs as [|a [|b [|c [|d [|e [|f [|g [|h [|? ?]]]]]]]]]; intros H; try done;
    [|unfold zlen in H; simpl in H; lia].
  rewrite decode_u64_le. pose proof (le_value_range [a; b; c; d; e; f; g; h]) as R.
  split; [|apply R]. apply le_value_inj; [done|].
  rewrite encode_u64_le. apply u64_id, R.
Qed.

Lemma consumes_u16 : consumes ksd_cursor_u16 ksd_encode_u16.
Proof.
  intros c a c' Hwf. unfold ksd_cursor_u16. pose proof (cursor_bytes_spec c 2 Hwf ltac:(lia)) as H.
  destruct (ksd_cursor_bytes c 2) as [[bs c1]|]; intros E; simplify_eq.
  destruct H as (-> & Hl & ?). by rewrite (proj1 (u16_list bs Hl)).
Qed.

Lemma consumes_u32 : consumes ksd_cursor_u32 ksd_encode_u32.
Proof.
  intros c a c' Hwf. unfold ksd_cursor_u32. pose proof (cursor_bytes_spec c 4 Hwf ltac:(lia)) as H.
  destruct (ksd_cursor_bytes c 4) as [[bs c1]|]; intros E; simplify_eq.
  destruct H as (-> & Hl & ?). by rewrite (proj1 (u32_list bs Hl)).
Qed.

Lemma consumes_u64 : consumes ksd_cursor_u64 ksd_encode_u64.
Proof.
  intros c a c' Hwf. unfold ksd_cursor_u64. pose proof (cursor_bytes_spec c 8 Hwf ltac:(lia)) as H.
  destruct (ksd_cursor_bytes c 8) as [[bs c1]|]; intros E; simplify_eq.
  destruct H as (-> & Hl & ?). by rewrite (proj1 (u64_list bs Hl)).
Qed.

Lemma cursor_u32_range c v c' : cursor_wf c -> ksd_cursor_u32 c = Some (v, c') -> is_u32 v.
Proof.
  intros Hwf. unfold ksd_cursor_u32. pose proof (cursor_bytes_spec c 4 Hwf ltac:(lia)) as H.
  destruct (ksd_cursor_bytes c 4) as [[bs c1]|]; intros E; simplify_eq.
  destruct H as (_ & Hl & _). apply u32_list, Hl.
Qed.

Lemma cursor_u64_range c v c' : cursor_wf c -> ksd_cursor_u64 c = Some (v, c') -> is_u64 v.
Proof.
  intros Hwf. unfold ksd_cursor_u64. pose proof (cursor_bytes_spec c 8 Hwf ltac:(lia)) as H.
  destruct (ksd_cursor_bytes c 8) as [[bs c1]|]; intros E; simplify_eq.
  destruct H as (_ & Hl & _). apply u64_list, Hl.
Qed.
