(* ===== verification/Buffer.v ===== *)
(** * The growing write buffer (src/protocol_io.c)

    [ksd_buffer] with its capacity growth loop, the append operations and the
    two formatters built on them.  The state keeps the bytes written so far,
    the allocated capacity and the maximum; the data pointer is NULL exactly
    when the capacity is 0.  [writes op bs] is the contract every append
    satisfies: on success it appended exactly [bs], on failure a prefix of it,
    and it fails only for lack of room or of memory. *)
From Stdlib Require Import ZArith Lia Strings.Byte Strings.String.
From stdpp Require Import base list option numbers tactics.
From S2P Require Import Prelude.
From S2P Require Import Protocol.
From S2P Require Import Codec.
Local Open Scope Z_scope.

(** Whether an allocation of a given size succeeds. *)
Class Allocator := alloc_ok : Z -> bool.
(** An allocator that never fails. *)
Class AllocTotal (A : Allocator) : Prop := alloc_total : forall n, @alloc_ok A n = true.

(** The allocator of the concrete examples. *)
Definition infinite_memory : Allocator := fun _ => true.
#[export] Instance infinite_memory_total : AllocTotal infinite_memory.
Proof. done. Qed.

Record ksd_buffer := mk_buffer {
  buf_bytes : list byte;
  buf_capacity : Z;
  buf_maximum : Z;
}.

Definition buf_length (b : ksd_buffer) : Z := zlen (buf_bytes b).

Definition ksd_buffer_init (maximum : Z) : ksd_buffer := mk_buffer [] 0 maximum.

Definition ksd_buffer_clear (buffer : ksd_buffer) : ksd_buffer := mk_buffer [] 0 0.

(** The doubling loop of [buffer_reserve]: [None] is an exhausted fuel. *)
Fixpoint grow_capacity (fuel : nat) (capacity needed maximum : Z) : option Z :=
  if capacity <? needed then
    match fuel with
    | O => None
    | S fuel =>
      if maximum / 2 <? capacity then Some maximum
      else grow_capacity fuel (capacity * 2) needed maximum
    end
  else Some capacity.

Definition bufop := ksd_buffer -> bool * ksd_buffer.

(** C's [f(b) && g(b)]. *)
Definition andthen (f g : bufop) : bufop := fun b =>
  let '(ok, b) := f b in if ok then g b else (false, b).
Notation "f ;;; g" := (andthen f g) (at level 60, right associativity).

Section buffer.
Context {AL : Allocator}.

Definition buffer_reserve (extra : Z) : bufop := fun buffer =>
  if (buf_maximum buffer <? extra) || (buf_maximum buffer - extra <? buf_length buffer)
  then (false, buffer)
  else
    let needed := buf_length buffer + extra in
    if needed <=? buf_capacity buffer then (true, buffer)
    else
      let start := if buf_capacity buffer =? 0 then 64 else buf_capacity buffer in
      match grow_capacity 65 start needed (buf_maximum buffer) with
      | None => (false, buffer)
      | Some capacity =>
        if alloc_ok capacity
        then (true, mk_buffer (buf_bytes buffer) capacity (buf_maximum buffer))
        else (false, buffer)
      end.

(** [data] is [None] for a NULL pointer; [length] bytes of it are copied. *)
Definition ksd_buffer_bytes (data : option (list byte)) (length : Z) : bufop := fun buffer =>
  match data with
  | None =>
    if negb (length =? 0) then (false, buffer) else buffer_reserve length buffer
  | Some data =>
    let '(ok, buffer) := buffer_reserve length buffer in
    if ok
    then (true, mk_buffer (buf_bytes buffer ++ ztake length data)
                  (buf_capacity buffer) (buf_maximum buffer))
    else (false, buffer)
  end.

Definition ksd_buffer_u16 (value : Z) : bufop :=
  ksd_buffer_bytes (Some (ksd_encode_u16 value)) 2.
Definition ksd_buffer_u32 (value : Z) : bufop :=
  ksd_buffer_bytes (Some (ksd_encode_u32 value)) 4.
Definition ksd_buffer_u64 (value : Z) : bufop :=
  ksd_buffer_bytes (Some (ksd_encode_u64 value)) 8.

(** A literal or an array appended whole. *)
Definition put (bs : list byte) : bufop := ksd_buffer_bytes (Some bs) (zlen bs).

Definition hexadecimal : list byte := cstr "0123456789abcdef".

(** The bytes [escaped[0 .. count)] the loop body builds for one byte. *)
Definition json_escape (latin1 : bool) (byte : byte) : list Byte.byte :=
  let z := b2z byte in
  if (z =? 0x22) || (z =? 0x5c) then [z2b 0x5c; byte]
  else if (z <? 0x20) || (z =? 0x7f) || (latin1 && (0x80 <=? z)) then
    cstr "\u00" ++ [nth (Z.to_nat (Z.shiftr z 4)) hexadecimal x00;
                    nth (Z.to_nat (Z.land z 0x0f)) hexadecimal x00]
  else [byte].

Fixpoint json_string_loop (value : list byte) (latin1 : bool) : bufop :=
  match value with
  | [] => put [z2b 0x22]
  | byte :: rest => put (json_escape latin1 byte) ;;; json_string_loop rest latin1
  end.

Definition ksd_buffer_json_string (value : list byte) (latin1 : bool) : bufop :=
  put [z2b 0x22] ;;; json_string_loop value latin1.

Definition ksd_buffer_frame_text (maximum_payload : Z) : bufop := fun buffer =>
  if (maximum_payload <? buf_length buffer) || (UINT32_MAX <? buf_length buffer)
     || (SIZE_MAX - 4 <? maximum_payload)
  then (false, buffer)
  else
    let length := buf_length buffer in
    let buffer := mk_buffer (buf_bytes buffer) (buf_capacity buffer) (maximum_payload + 4) in
    let '(ok, buffer) := buffer_reserve 4 buffer in
    if ok
    then (true, mk_buffer (ksd_encode_u32 (u32 length) ++ buf_bytes buffer)
                  (buf_capacity buffer) (buf_maximum buffer))
    else (false, buffer).

(** ** The buffer invariant *)

(** Everything written fits the allocation and the maximum: no [memcpy]
    leaves the block, and the sizes are representable. *)
Definition buffer_wf (b : ksd_buffer) : Prop :=
  buf_length b <= buf_capacity b /\ buf_length b <= buf_maximum b /\
  0 <= buf_maximum b <= SIZE_MAX.

Lemma buffer_init_wf m : 0 <= m <= SIZE_MAX -> buffer_wf (ksd_buffer_init m).
Proof. unfold buffer_wf, buf_length, zlen; simpl. lia. Qed.

(** The growth loop ends within its fuel, with room for what is needed, and
    never doubles past [SIZE_MAX]. *)
Lemma grow_capacity_total fuel c n m :
  1 <= c -> n <= m <= SIZE_MAX -> 2 ^ 64 <= c * 2 ^ Z.of_nat fuel ->
  exists r, grow_capacity fuel c n m = Some r /\ n <= r /\ (r = c \/ r <= m).
Proof.
  revert c. induction fuel as [|fuel IH]; intros c Hc Hm Hf; cbn [grow_capacity].
  - change (2 ^ Z.of_nat 0) with 1 in Hf. unfold SIZE_MAX in Hm.
    destruct (Z.ltb_spec c n); [lia|]. eauto with lia.
  - rewrite Nat2Z.inj_succ, Z.pow_succ_r in Hf by lia.
    destruct (Z.ltb_spec c n); [|eauto with lia].
    destruct (Z.ltb_spec (m / 2) c); [eauto with lia|].
    destruct (IH (c * 2)) as (r & -> & Hr & Hr'); [lia..|].
    exists r. split; [done|]. pose proof (Z.mul_div_le m 2 ltac:(lia)). lia.
Qed.

Lemma buffer_reserve_spec b extra :
  buffer_wf b -> 0 <= extra ->
  let '(ok, b') := buffer_reserve extra b in
  buffer_wf b' /\ buf_bytes b' = buf_bytes b /\ buf_maximum b' = buf_maximum b /\
  (ok = true -> buf_length b + extra <= buf_capacity b' /\ buf_length b + extra <= buf_maximum b) /\
  (AllocTotal AL -> buf_length b + extra <= buf_maximum b -> ok = true).
Proof.
  intros (Hc & Hm & HM) He. unfold buffer_reserve.
  assert (Hlen : 0 <= buf_length b) by apply zlen_nonneg.
  case_if; breflect; [by repeat split; intros; first [done | lia | exfalso; lia]|].
  case_if; breflect; [by repeat split; intros; first [done | lia]|].
  destruct (grow_capacity_total 65 (if buf_capacity b =? 0 then 64 else buf_capacity b)
              (buf_length b + extra) (buf_maximum b)) as (r & -> & Hr & _).
  { case_if; breflect; lia. } { lia. }
  { change (2 ^ Z.of_nat 65) with (2 * 2 ^ 64). case_if; breflect; lia. }
  case_if; repeat split; cbn; intros; unfold buf_length in *; cbn in *; try done; try lia.
  by rewrite alloc_total in *.
Qed.

Definition writes (op : bufop) (bs : list byte) : Prop :=
  forall b, buffer_wf b ->
  let '(ok, b') := op b in
  buffer_wf b' /\ buf_maximum b' = buf_maximum b /\
  (exists n, buf_bytes b' = buf_bytes b ++ take n bs) /\
  (ok = true -> buf_bytes b' = buf_bytes b ++ bs) /\
  (AllocTotal AL -> buf_length b + zlen bs <= buf_maximum b -> ok = true).

Lemma put_writes bs : writes (put bs) bs.
Proof.
  intros b Hwf. unfold put, ksd_buffer_bytes.
  pose proof (buffer_reserve_spec b (zlen bs) Hwf ltac:(auto with ksd)) as H.
  destruct (buffer_reserve (zlen bs) b) as [[] b'];
    destruct H as (Hwf' & Hb & Hm & Hok & Ht); cbn [buf_bytes buf_maximum].
  - destruct (Hok eq_refl) as [? ?].
    rewrite ztake_all, Hb by done.
    repeat split; try done.
    + unfold buf_length in *; cbn. rewrite zlen_app. lia.
    + unfold buf_length in *; cbn. rewrite zlen_app. lia.
    + cbn. rewrite Hm. apply Hwf.
    + cbn. rewrite Hm. apply Hwf.
    + exists (length bs). by rewrite firstn_all.
  - split; [done|]. split; [done|]. split; [|done].
    exists 0%nat. by rewrite Hb, take_0, app_nil_r.
Qed.

Lemma bytes_writes data n :
  n = zlen (default [] data) -> writes (ksd_buffer_bytes data n) (default [] data).
Proof.
  destruct data as [bs|]; cbn; intros ->; [apply put_writes|].
  intros b Hwf. pose proof (buffer_reserve_spec b 0 Hwf ltac:(lia)) as H.
  change (zlen []) with 0. cbn [Z.eqb negb ksd_buffer_bytes].
  destruct (buffer_reserve 0 b) as [ok b']. destruct H as (? & Hb & ? & Hok & ?).
  split; [done|]. split; [done|]. rewrite app_nil_r.
  split; [by exists 0%nat; rewrite take_nil, app_nil_r|]. split; [done|].
  intros ? Hroom. by rewrite Z.add_0_r in *; auto.
Qed.

Lemma u16_writes v : writes (ksd_buffer_u16 v) (ksd_encode_u16 v).
Proof. apply (put_writes (ksd_encode_u16 v)). Qed.
Lemma u32_writes v : writes (ksd_buffer_u32 v) (ksd_encode_u32 v).
Proof. apply (put_writes (ksd_encode_u32 v)). Qed.
Lemma u64_writes v : writes (ksd_buffer_u64 v) (ksd_encode_u64 v).
Proof. apply (put_writes (ksd_encode_u64 v)). Qed.

Lemma andthen_writes f g x y : writes f x -> writes g y -> writes (f ;;; g) (x ++ y).
Proof.
  intros Hf Hg b Hwf. specialize (Hf b Hwf). unfold andthen.
  destruct (f b) as [[] b1]; destruct Hf as (Hwf1 & Hm1 & [n Hp1] & Hok1 & Ht1).
  - specialize (Hg b1 Hwf1). rewrite (Hok1 eq_refl) in Hg.
    destruct (g b1) as [ok b2]. destruct Hg as (Hwf2 & Hm2 & [k Hp2] & Hok2 & Ht2).
    split; [done|]. split; [congruence|]. split; [|split].
    + exists (length x + k)%nat. rewrite Hp2, take_app_add. by rewrite app_assoc.
    + intros ->. rewrite Hok2, app_assoc; done.
    + intros HA Hroom. apply Ht2; [done|]. rewrite Hm1.
      unfold buf_length in *. rewrite Hok1, !zlen_app in * by done. lia.
  - split; [done|]. split; [done|]. split; [|split].
    + exists (n `min` length x)%nat. rewrite Hp1, take_app_le by lia.
      by rewrite <- take_take, (firstn_all x).
    + done.
    + intros HA Hroom. rewrite zlen_app in Hroom. pose proof (zlen_nonneg y).
      apply Ht1; [done|lia].
Qed.

(** *** Running out of memory *)

(** An allocation of at most [limit] bytes fails. *)
Definition out_of_memory (limit : Z) : Prop := exists n, 0 < n <= limit /\ alloc_ok n = false.

(** An operation with room for what it writes fails only for want of memory. *)
Definition fails_for_memory (op : bufop) (bs : list byte) : Prop :=
  forall b, buffer_wf b -> buf_length b + zlen bs <= buf_maximum b -> fst (op b) = false ->
  out_of_memory (Z.max 64 (buf_maximum b)).

Lemma reserve_fails_for_memory b extra :
  buffer_wf b -> 0 <= extra -> buf_length b + extra <= buf_maximum b -> fst (buffer_reserve extra b) = false ->
  out_of_memory (Z.max 64 (buf_maximum b)).
Proof.
  intros (Hc & Hm & HM) He Hroom. unfold buffer_reserve. pose proof (zlen_nonneg (buf_bytes b)) as Hlen. fold (buf_length b) in Hlen.
  case_if; breflect; [lia|]. case_if; breflect; [done|].
  destruct (grow_capacity_total 65 (if buf_capacity b =? 0 then 64 else buf_capacity b)
              (buf_length b + extra) (buf_maximum b)) as (r & -> & Hr & Hc').
  { case_if; breflect; lia. } { lia. }
  { change (2 ^ Z.of_nat 65) with (2 * 2 ^ 64). case_if; breflect; lia. }
  destruct (alloc_ok r) eqn:Ea; [done|]. intros _. exists r. split; [|done].
  destruct (Z.eqb_spec (buf_capacity b) 0); lia.
Qed.

Lemma put_fails_for_memory bs : fails_for_memory (put bs) bs.
Proof.
  intros b Hwf Hroom. unfold put, ksd_buffer_bytes. pose proof (zlen_nonneg bs) as Hz.
  pose proof (reserve_fails_for_memory b (zlen bs) Hwf Hz Hroom) as H.
  destruct (buffer_reserve (zlen bs) b) as [[] b']; [done|exact H].
Qed.

Lemma andthen_fails_for_memory f g x y :
  writes f x -> fails_for_memory f x -> fails_for_memory g y -> fails_for_memory (f ;;; g) (x ++ y).
Proof.
  intros Hw Hf Hg b Hwf Hroom. rewrite zlen_app in Hroom. pose proof (zlen_nonneg x). pose proof (zlen_nonneg y).
  specialize (Hw b Hwf). specialize (Hf b Hwf ltac:(lia)). unfold andthen.
  destruct (f b) as [[] b1]; [|exact Hf]. destruct Hw as (Hwf1 & Hm1 & _ & Hok & _). rewrite <- Hm1. apply Hg; [done|].
  unfold buf_length in *. rewrite Hok, zlen_app, Hm1 by done. lia.
Qed.
(** *** The formatters *)

(** The JSON string literal for [value]. *)
Definition json_literal (value : list byte) (latin1 : bool) : list byte :=
  [z2b 0x22] ++ concat (map (json_escape latin1) value) ++ [z2b 0x22].

Lemma json_string_writes value latin1 :
  writes (ksd_buffer_json_string value latin1) (json_literal value latin1).
Proof.
  unfold ksd_buffer_json_string, json_literal. apply andthen_writes; [apply put_writes|].
  induction value as [|c value IH]; cbn [json_string_loop map concat].
  - apply put_writes.
  - rewrite <- app_assoc. apply andthen_writes; [apply put_writes|apply IH].
Qed.

(** [ksd_buffer_frame_text] prefixes the contents with their length, and
    refuses contents over the limit. *)
Lemma frame_text_spec b m :
  buffer_wf b -> 0 <= m ->
  let '(ok, b') := ksd_buffer_frame_text m b in
  buffer_wf b' /\
  (ok = true -> buf_bytes b' = ksd_encode_u32 (buf_length b) ++ buf_bytes b /\
                buf_length b <= m /\ buf_length b' = buf_length b + 4) /\
  (m < buf_length b -> ok = false) /\
  (AllocTotal AL -> buf_length b <= m <= UINT32_MAX -> ok = true).
Proof.
  intros Hwf Hm. unfold ksd_buffer_frame_text.
  assert (Hlen : 0 <= buf_length b) by apply zlen_nonneg.
  case_if; breflect.
  { split; [done|]. split; [done|]. split; [done|]. unfold UINT32_MAX, SIZE_MAX in *. lia. }
  set (b1 := mk_buffer _ _ _).
  assert (Hwf1 : buffer_wf b1).
  { unfold buffer_wf, b1, buf_length, SIZE_MAX in *; cbn. lia. }
  pose proof (buffer_reserve_spec b1 4 Hwf1 ltac:(lia)) as Hr.
  destruct (buffer_reserve 4 b1) as [[] b2]; destruct Hr as (Hwf2 & Hb & Hmx & Hok & Ht).
  - destruct (Hok eq_refl) as [Hroom1 Hroom2].
    assert (Hl : buf_length b1 = buf_length b) by done.
    assert (Hz : zlen (ksd_encode_u32 (u32 (buf_length b)) ++ buf_bytes b2) = buf_length b + 4).
    { rewrite zlen_app, Hb, zlen_encode_u32. unfold buf_length, b1; cbn. lia. }
    split; [|split; [|split]]; [|intros _|lia|done].
    + unfold buffer_wf. change (buf_length (mk_buffer ?x _ _)) with (zlen x). rewrite Hz.
      cbn [buf_capacity buf_maximum]. rewrite Hmx. unfold b1 in *; cbn in *. lia.
    + split; [|split; [lia|exact Hz]]. cbn [buf_bytes]. rewrite Hb, u32_id; [done|].
      unfold is_u32, UINT32_MAX in *. lia.
  - split; [done|]. split; [done|]. split; [done|]. intros HA Hroom.
    apply Ht; [done|]. unfold buf_length, b1 in *; cbn. lia.
Qed.
End buffer.
#[export] Hint Resolve put_writes u16_writes u32_writes u64_writes andthen_writes json_string_writes : ksdw.
