(* ===== verification/Utf8.v ===== *)
(** * UTF-8 validation (src/protocol_io.c, ksd_utf8_valid)

    The validator every text field on the wire goes through, against the
    encoder the JSON reader of src/state_wire.c uses: a byte string is
    accepted exactly when it is the concatenation of the encodings of Unicode
    scalar values (without NUL unless it is allowed). *)
From Stdlib Require Import ZArith Lia Strings.Byte.
From stdpp Require Import base list option numbers tactics.
From S2P Require Import Prelude.
Local Open Scope Z_scope.
Local Open Scope ksd_scope.
Local Ltac Zify.zify_post_hook ::= Z.to_euclidean_division_equations.

(** The lead byte of a multi-byte sequence: payload bits, number of
    continuation bytes and least code point of that length. *)
Definition utf8_lead (first : Z) : option (Z * nat * Z) :=
  if (0xc2 <=? first) && (first <=? 0xdf) then Some (Z.land first 0x1f, 1%nat, 0x80)
  else if (0xe0 <=? first) && (first <=? 0xef) then Some (Z.land first 0x0f, 2%nat, 0x800)
  else if (0xf0 <=? first) && (first <=? 0xf4) then Some (Z.land first 0x07, 3%nat, 0x10000)
  else None.

(** The continuation loop. *)
Fixpoint utf8_tail (continuation : nat) (value : Z) (data : list byte) : option (Z * list byte) :=
  match continuation, data with
  | O, _ => Some (value, data)
  | S n, next :: rest =>
    if negb (Z.land (b2z next) 0xc0 =? 0x80) then None
    else utf8_tail n (Z.lor (u32 (Z.shiftl value 6)) (Z.land (b2z next) 0x3f)) rest
  | S _, [] => None
  end.

(** One turn of the outer loop on non-empty data: the code point read and the
    data after it. *)
Definition utf8_step (first : byte) (data : list byte) (allow_nul : bool) : option (Z * list byte) :=
  let f := b2z first in
  if f <? 0x80 then
    if (f =? 0) && negb allow_nul then None else Some (f, data)
  else
    let* (value, continuation, minimum) := utf8_lead f in
    if (zlen data <? Z.of_nat continuation) then None else
    let* (value, data) := utf8_tail continuation value data in
    if (value <? minimum) || (0x10ffff <? value) || ((0xd800 <=? value) && (value <=? 0xdfff))
    then None else Some (value, data).

Fixpoint utf8_loop (fuel : nat) (data : list byte) (allow_nul : bool) : bool :=
  match data, fuel with
  | [], _ => true
  | first :: rest, S fuel =>
    match utf8_step first rest allow_nul with
    | None => false
    | Some (_, rest) => utf8_loop fuel rest allow_nul
    end
  | _ :: _, O => false
  end.

(** Each turn consumes at least one byte, so the length is fuel enough. *)
Definition ksd_utf8_valid (data : list byte) (allow_nul : bool) : bool :=
  utf8_loop (length data) data allow_nul.

(** The encoder of src/state_wire.c, [text]. *)
Definition encode_code_point (code : Z) : list byte :=
  if code <? 0x80 then [z2b code]
  else if code <? 0x800 then
    [z2b (Z.lor 0xc0 (Z.shiftr code 6)); z2b (Z.lor 0x80 (Z.land code 63))]
  else if code <? 0x10000 then
    [z2b (Z.lor 0xe0 (Z.shiftr code 12)); z2b (Z.lor 0x80 (Z.land (Z.shiftr code 6) 63));
     z2b (Z.lor 0x80 (Z.land code 63))]
  else
    [z2b (Z.lor 0xf0 (Z.shiftr code 18)); z2b (Z.lor 0x80 (Z.land (Z.shiftr code 12) 63));
     z2b (Z.lor 0x80 (Z.land (Z.shiftr code 6) 63)); z2b (Z.lor 0x80 (Z.land code 63))].

(** Unicode scalar values. *)
Definition scalar_value (code : Z) : Prop :=
  0 <= code <= 0x10ffff /\ ~ (0xd800 <= code <= 0xdfff).

(** A text is a list of scalar values; NUL only where it is allowed. *)
Definition utf8_text (allow_nul : bool) (codes : list Z) : Prop :=
  Forall (fun c => scalar_value c /\ (allow_nul = true \/ c <> 0)) codes.
Definition utf8_encode (codes : list Z) : list byte := concat (map encode_code_point codes).

(** ** Bits to arithmetic *)

Lemma continuation_bits b :
  (Z.land (b2z b) 0xc0 =? 0x80) = (0x80 <=? b2z b) && (b2z b <? 0xc0) /\
  Z.land (b2z b) 0x3f = b2z b mod 64.
Proof.
  assert (H : (Bool.eqb (Z.land (b2z b) 0xc0 =? 0x80) ((0x80 <=? b2z b) && (b2z b <? 0xc0))
               && (Z.land (b2z b) 0x3f =? b2z b mod 64)) = true).
  { revert b. apply byte_forall. vm_compute. reflexivity. }
  rewrite andb_true_iff, Z.eqb_eq in H. destruct H as [H ?].
  split; [by apply Bool.eqb_prop|done].
Qed.

Lemma shift_in_continuation value b :
  0 <= value < 2 ^ 24 -> 0x80 <= b2z b < 0xc0 ->
  Z.lor (u32 (Z.shiftl value 6)) (Z.land (b2z b) 0x3f) = value * 64 + (b2z b - 0x80).
Proof.
  intros Hv Hb. destruct (continuation_bits b) as [_ ->]. unfold u32.
  rewrite Z.mod_small by (rewrite Z.shiftl_mul_pow2; lia).
  rewrite Z.lor_comm, lor_shiftl_add by lia. lia.
Qed.

(** The tail reads [n] continuation bytes in base 64. *)
Fixpoint tail_value (value : Z) (bs : list byte) : Z :=
  match bs with [] => value | b :: bs => tail_value (value * 64 + (b2z b - 0x80)) bs end.
Definition continuations (bs : list byte) : Prop := Forall (fun b => 0x80 <= b2z b < 0xc0) bs.

Lemma utf8_tail_spec n value data r rest :
  0 <= value < 64 -> (n <= 3)%nat ->
  utf8_tail n value data = Some (r, rest) <->
  exists bs, length bs = n /\ continuations bs /\ data = bs ++ rest /\ r = tail_value value bs.
Proof.
  intros Hv Hn. assert (H : 0 <= value < 2 ^ (24 - 6 * Z.of_nat n)).
  { assert (2 ^ 6 <= 2 ^ (24 - 6 * Z.of_nat n)) by (apply Z.pow_le_mono_r; lia). lia. }
  clear Hv. revert value data H. induction n as [|n IH]; intros value data Hv; cbn [utf8_tail].
  - split.
    + intros [= <- <-]. exists []. repeat split. constructor.
    + intros ([|] & ? & ? & ? & ?); by simplify_eq/=.
  - destruct data as [|b data].
    { split; [done|]. by intros ([|] & ? & ? & ? & ?). }
    destruct (continuation_bits b) as [-> _].
    destruct (decide (0x80 <= b2z b < 0xc0)) as [Hb|Hb].
    + replace ((0x80 <=? b2z b) && (b2z b <? 0xc0)) with true by lia. cbn [negb].
      assert (Hp : 2 ^ (24 - 6 * Z.of_nat n) = 64 * 2 ^ (24 - 6 * Z.of_nat (S n))).
      { change 64 with (2 ^ 6). rewrite <- Z.pow_add_r by lia. f_equal. lia. }
      assert (2 ^ (24 - 6 * Z.of_nat (S n)) <= 2 ^ 24) by (apply Z.pow_le_mono_r; lia).
      rewrite shift_in_continuation by lia. rewrite IH; [|lia|lia].
      split.
      * intros (bs & ? & ? & -> & ->). exists (b :: bs). cbn. repeat split; auto. by constructor.
      * intros ([|b' bs] & ? & Hc & ? & ->); simplify_eq/=. inversion Hc; subst. exists bs. auto.
    + replace ((0x80 <=? b2z b) && (b2z b <? 0xc0)) with false by lia. cbn [negb].
      split; [done|]. intros ([|b' bs] & ? & Hc & ? & ->); simplify_eq/=. by inversion Hc.
Qed.

Lemma lead_bits b :
  utf8_lead (b2z b) =
  if (0xc2 <=? b2z b) && (b2z b <=? 0xdf) then Some (b2z b - 0xc0, 1%nat, 0x80)
  else if (0xe0 <=? b2z b) && (b2z b <=? 0xef) then Some (b2z b - 0xe0, 2%nat, 0x800)
  else if (0xf0 <=? b2z b) && (b2z b <=? 0xf4) then Some (b2z b - 0xf0, 3%nat, 0x10000)
  else None.
Proof.
  apply (bool_decide_eq_true_1 _). revert b. apply byte_forall. vm_compute. reflexivity.
Qed.

Lemma lor_tag tag n y t : 0 <= n -> t = Z.shiftl tag n -> 0 <= y < 2 ^ n -> Z.lor t y = t + y.
Proof.
  intros Hn -> Hy. rewrite Z.lor_comm, lor_shiftl_add by done.
  rewrite Z.shiftl_mul_pow2 by done. lia.
Qed.

Lemma encode_code_point_arith code :
  0 <= code <= 0x10ffff ->
  encode_code_point code =
  if code <? 0x80 then [z2b code]
  else if code <? 0x800 then [z2b (0xc0 + code / 64); z2b (0x80 + code mod 64)]
  else if code <? 0x10000 then
    [z2b (0xe0 + code / 4096); z2b (0x80 + code / 64 mod 64); z2b (0x80 + code mod 64)]
  else [z2b (0xf0 + code / 262144); z2b (0x80 + code / 4096 mod 64);
        z2b (0x80 + code / 64 mod 64); z2b (0x80 + code mod 64)].
Proof.
  intros Hc. unfold encode_code_point. change 63 with (2 ^ 6 - 1).
  rewrite <- !mod_pow2_land, !Z.shiftr_div_pow2 by lia. change (2 ^ 6) with 64.
  change (2 ^ 12) with 4096. change (2 ^ 18) with 262144.
  assert (Ht : forall x, Z.lor 0x80 (x mod 64) = 0x80 + x mod 64)
    by (intros; apply (lor_tag 2 6); first [done | lia]).
  rewrite !Ht. case_ifs; breflect; [done|..]; repeat f_equal.
  - apply (lor_tag 3 6); first [done | lia].
  - apply (lor_tag 14 4); first [done | lia].
  - apply (lor_tag 30 3); first [done | lia].
Qed.

Ltac list_inv :=
  repeat match goal with
  | H : length (_ :: _) = _ |- _ => simpl in H
  | H : length ?l = 0%nat |- _ => apply nil_length_inv in H; subst l
  | H : S _ = S _ |- _ => injection H as H
  | H : length ?l = S _ |- _ => destruct l as [|? l]; [discriminate H|simpl in H]
  | H : continuations (_ :: _) |- _ => inversion H; subst; clear H; fold continuations in *
  | H : Forall _ (_ :: _) |- _ => inversion H; subst; clear H
  | H : Forall _ [] |- _ => clear H
  | H : continuations [] |- _ => clear H
  end.

Lemma utf8_step_sound first data allow code rest :
  utf8_step first data allow = Some (code, rest) ->
  first :: data = encode_code_point code ++ rest /\ scalar_value code /\ (allow = true \/ code <> 0).
Proof.
  unfold utf8_step. rewrite lead_bits. pose proof (b2z_range first).
  destruct (Z.ltb_spec (b2z first) 0x80).
  { case_if; [done|]. intros [= <- <-]. rewrite encode_code_point_arith by lia.
    replace (b2z first <? 128) with true by lia. rewrite z2b_b2z.
    split; [done|]. split; [unfold scalar_value; lia|].
    destruct allow; [by left|right]. rewrite andb_true_r in *. lia. }
  assert (Hgen : forall v n m, 0 <= v < 64 -> (n <= 3)%nat ->
    (if zlen data <? Z.of_nat n then None else
       match utf8_tail n v data with
       | Some (value, data) =>
         if (value <? m) || (0x10ffff <? value) || ((0xd800 <=? value) && (value <=? 0xdfff))
         then None else Some (value, data)
       | None => None end) = Some (code, rest) ->
    exists bs, length bs = n /\ continuations bs /\ data = bs ++ rest /\ code = tail_value v bs /\
      m <= code <= 0x10ffff /\ ~ (0xd800 <= code <= 0xdfff)).
  { intros v n m Hv Hn. case_if; [done|].
    destruct (utf8_tail n v data) as [[r rest']|] eqn:E; [|done].
    case_if; [done|]. intros [= <- <-]. apply utf8_tail_spec in E as (bs & ? & ? & ? & ?); [|done..].
    exists bs. repeat split; auto; lia. }
  destruct ((0xc2 <=? _) && _) eqn:?; [|destruct ((0xe0 <=? _) && _) eqn:?;
    [|destruct ((0xf0 <=? _) && _) eqn:?; [|done]]].
  all: breflect; intros Hs; apply Hgen in Hs as (bs & Hl & Hc & -> & Hv & ? & ?); try lia.
  all: list_inv; cbn [tail_value] in *.
  all: unfold scalar_value; split; [|lia]; rewrite encode_code_point_arith by lia.
  all: case_ifs; breflect; try lia; cbn [app]; repeat f_equal; apply b2z_inj; rewrite b2z_z2b; lia.
Qed.

Lemma utf8_step_complete code rest allow :
  scalar_value code -> allow = true \/ code <> 0 ->
  exists first data, encode_code_point code ++ rest = first :: data /\
    utf8_step first data allow = Some (code, rest).
Proof.
  intros [Hr Hs] Ha. rewrite encode_code_point_arith by done.
  assert (Hz : forall z, 0 <= z < 256 -> b2z (z2b z) = z) by apply b2z_z2b_small.
  assert (Hgen : forall v n m bs, 0 <= v < 64 -> (n <= 3)%nat -> length bs = n -> continuations bs ->
    code = tail_value v bs -> m <= code ->
    (if zlen (bs ++ rest) <? Z.of_nat n then None else
       match utf8_tail n v (bs ++ rest) with
       | Some (value, data) =>
         if (value <? m) || (0x10ffff <? value) || ((0xd800 <=? value) && (value <=? 0xdfff))
         then None else Some (value, data)
       | None => None end) = Some (code, rest)).
  { intros v n m bs Hv Hn Hl Hc He Hm. rewrite zlen_app. pose proof (zlen_nonneg rest).
    replace (zlen bs + zlen rest <? Z.of_nat n) with false by (unfold zlen in *; lia).
    replace (utf8_tail n v (bs ++ rest)) with (Some (code, rest))
      by (symmetry; apply utf8_tail_spec; eauto 10).
    case_if; [lia|done]. }
  case_ifs; breflect; cbn [app]; do 2 eexists; (split; [reflexivity|]); unfold utf8_step;
    rewrite lead_bits, Hz by lia.
  - replace (code <? 128) with true by lia.
    destruct Ha as [->|]; [by rewrite andb_false_r|]. by replace (code =? 0) with false by lia.
  - replace (_ <? 128) with false by lia. replace (_ && _) with true by lia.
    apply (Hgen _ 1%nat _ [_]); rewrite ?Hz; cbn [tail_value]; rewrite ?Hz; try done; try lia.
    repeat constructor; rewrite Hz; lia.
  - replace (_ <? 128) with false by lia. replace ((194 <=? _) && _) with false by lia.
    replace (_ && _) with true by lia.
    apply (Hgen _ 2%nat _ [_; _]); cbn [tail_value]; rewrite ?Hz; try done; try lia.
    repeat constructor; rewrite Hz; lia.
  - replace (_ <? 128) with false by lia. replace ((194 <=? _) && _) with false by lia.
    replace ((224 <=? _) && _) with false by lia. replace (_ && _) with true by lia.
    apply (Hgen _ 3%nat _ [_; _; _]); cbn [tail_value]; rewrite ?Hz; try done; try lia.
    repeat constructor; rewrite Hz; lia.
Qed.

(** ** The validator decides well-formed UTF-8 *)

Lemma encode_code_point_length code : (1 <= length (encode_code_point code) <= 4)%nat.
Proof. unfold encode_code_point. case_ifs; lia. Qed.

Lemma utf8_loop_iff fuel data allow :
  (length data <= fuel)%nat ->
  utf8_loop fuel data allow = true <-> exists codes, utf8_text allow codes /\ data = utf8_encode codes.
Proof.
  revert data. induction fuel as [|fuel IH]; intros data Hf.
  - destruct data; [|simpl in Hf; lia]. split; [intros _; exists []; split; [constructor|done]|done].
  - destruct data as [|b data]; cbn [utf8_loop].
    { split; [intros _; exists []; split; [constructor|done]|done]. }
    split.
    + destruct (utf8_step b data allow) as [[c rest]|] eqn:E; [|done]. intros Hv.
      apply utf8_step_sound in E as (He & Hs & Ha).
      assert (Hl : (length rest < length (b :: data))%nat).
      { rewrite He, length_app. pose proof (encode_code_point_length c). lia. }
      apply IH in Hv as (codes & Ht & ->); [|simpl in *; lia].
      exists (c :: codes). split; [by constructor|done].
    + intros ([|c codes] & Ht & He); [done|].
      unfold utf8_text in Ht. apply Forall_cons_1 in Ht as [[Hs Ha] Ht].
      change (utf8_encode (c :: codes)) with (encode_code_point c ++ utf8_encode codes) in He.
      destruct (utf8_step_complete c (utf8_encode codes) allow Hs Ha) as (b' & data' & He' & Hstep).
      rewrite He' in He. injection He as -> ->. rewrite Hstep. apply IH; [|eauto].
      assert (Hl : length (b' :: data') = length (encode_code_point c ++ utf8_encode codes)) by by rewrite He'.
      rewrite length_app in Hl. pose proof (encode_code_point_length c). simpl in *. lia.
Qed.

Lemma utf8_valid_encoding data allow :
  ksd_utf8_valid data allow = true <-> exists codes, utf8_text allow codes /\ data = utf8_encode codes.
Proof. apply utf8_loop_iff. done. Qed.

(** No two texts share an encoding. *)
Lemma utf8_encode_inj allow a b :
  utf8_text allow a -> utf8_text allow b -> utf8_encode a = utf8_encode b -> a = b.
Proof.
  unfold utf8_text. revert b. induction a as [|x a IH]; intros [|y b] Ha Hb He; try done.
  - pose proof (encode_code_point_length y). apply (f_equal length) in He.
    unfold utf8_encode in He; simpl in He; rewrite length_app in He. lia.
  - pose proof (encode_code_point_length x). apply (f_equal length) in He.
    unfold utf8_encode in He; simpl in He; rewrite length_app in He. lia.
  - apply Forall_cons_1 in Ha as [[Hs Hn] Ha]. apply Forall_cons_1 in Hb as [[Hs' Hn'] Hb].
    destruct (utf8_step_complete x (utf8_encode a) allow Hs Hn) as (f & d & Hfd & Hx).
    destruct (utf8_step_complete y (utf8_encode b) allow Hs' Hn') as (f' & d' & Hfd' & Hy).
    assert (f :: d = f' :: d') by (rewrite <- Hfd, <- Hfd'; apply He).
    simplify_eq. f_equal. by apply IH.
Qed.

(** [ksd_utf8_valid] accepts a byte string exactly when it is the UTF-8
    encoding of a sequence of Unicode scalar values, none of them NUL unless
    the caller allows it, and that sequence is then the only one: overlong
    forms, surrogates, values past U+10FFFF, truncated sequences and stray
    bytes are all refused, and nothing well-formed is. *)
Theorem utf8_valid_iff (data : list byte) (allow_nul : bool) :
  ksd_utf8_valid data allow_nul = true <->
  exists! codes, utf8_text allow_nul codes /\ data = utf8_encode codes.
Proof.
  rewrite utf8_valid_encoding. split.
  - intros (codes & Ht & ->). exists codes. split; [done|].
    intros codes' [Ht' He]. by eapply utf8_encode_inj.
  - intros (codes & H & _). eauto.
Qed.

Lemma utf8_encode_app a b : utf8_encode (a ++ b) = utf8_encode a ++ utf8_encode b.
Proof. unfold utf8_encode. by rewrite map_app, concat_app. Qed.

Lemma utf8_valid_app a b allow :
  ksd_utf8_valid a allow = true -> ksd_utf8_valid b allow = true -> ksd_utf8_valid (a ++ b) allow = true.
Proof.
  rewrite !utf8_valid_encoding. intros (x & ? & ->) (y & ? & ->).
  exists (x ++ y). rewrite utf8_encode_app. split; [by apply Forall_app|done].
Qed.

Lemma utf8_valid_nil allow : ksd_utf8_valid [] allow = true.
Proof. done. Qed.

(** A valid text cut anywhere is valid again once at most three more bytes are
    dropped. *)
Lemma utf8_valid_prefix data allow n :
  ksd_utf8_valid data allow = true -> (n <= length data)%nat ->
  exists k, (k <= n < k + 4)%nat /\ ksd_utf8_valid (take k data) allow = true.
Proof.
  rewrite utf8_valid_encoding. intros (codes & Ht & ->). revert n.
  induction codes as [|c codes IH] using rev_ind; intros n Hn.
  { exists 0%nat. simpl in Hn. split; [lia|done]. }
  unfold utf8_text in Ht. apply Forall_app in Ht as [Ht Hc]. rewrite utf8_encode_app in *.
  assert (He : utf8_encode [c] = encode_code_point c) by apply app_nil_r.
  rewrite He, length_app in Hn. pose proof (encode_code_point_length c).
  destruct (decide (n <= length (utf8_encode codes))%nat) as [Hle|Hgt].
  - destruct (IH Ht n Hle) as (k & Hk & Hv). exists k. split; [done|].
    rewrite take_app_le by lia. done.
  - destruct (decide (n = length (utf8_encode codes) + length (encode_code_point c))%nat) as [->|Hne].
    + exists (length (utf8_encode codes) + length (encode_code_point c))%nat.
      split; [lia|]. rewrite take_ge by (rewrite length_app, He; lia).
      apply utf8_valid_encoding. exists (codes ++ [c]). rewrite utf8_encode_app.
      split; [by apply Forall_app|done].
    + exists (length (utf8_encode codes)). split; [lia|].
      rewrite take_app_length. apply utf8_valid_encoding. eauto.
Qed.

(** A text of characters is valid. *)
Lemma ascii_valid text : Forall (fun b => 0 < b2z b < 0x80) text -> ksd_utf8_valid text false = true.
Proof.
  unfold ksd_utf8_valid. induction 1 as [|b text Hb _ IH]; [done|]. cbn [length utf8_loop]. unfold utf8_step.
  rewrite (proj2 (Z.ltb_lt _ _)), (proj2 (Z.eqb_neq _ _)) by lia. done.
Qed.
