(* ===== verification/Transport.v ===== *)
(** * Bounded socket I/O (src/transport.c)

    The deadline loops over poll, recv and send, and the two receivers of a
    passed descriptor.  The kernel is the environment: a descriptor is the
    bytes still to arrive together with a script of what each system call of
    the loop answers (interrupted, timed out, how many bytes, end of file).
    The definitions run on any script; a script that ends while the loop would
    still block gives [None]. *)
From Stdlib Require Import ZArith Lia Strings.Byte Strings.String.
From stdpp Require Import base list option numbers tactics.
From S2P Require Import Prelude.
Local Open Scope Z_scope.
Local Open Scope ksd_scope.

(** Linux's poll event bits. *)
Definition POLLIN : Z := 0x0001.
Definition POLLOUT : Z := 0x0004.
Definition POLLERR : Z := 0x0008.
Definition POLLHUP : Z := 0x0010.
Definition POLLNVAL : Z := 0x0020.
Definition POLLRDHUP : Z := 0x2000.
Definition INT_MAX : Z := 2 ^ 31 - 1.

(** ** Waiting *)

Inductive poll_outcome :=
| PollIntr
| PollFailed
| PollTimedOut
| PollReady (revents : Z).

(** One turn of the waiting loop: the clock reading and poll's answer. *)
Record wait_step := mk_wait { ws_now : Z; ws_poll : poll_outcome }.

(** [false] is split by the [errno] it leaves behind. *)
Inductive wait_result := WaitOk | WaitTimeout | WaitFailed.

(** The timeout handed to poll; -1 waits for ever. *)
Definition poll_timeout (deadline_ms now : Z) : Z :=
  if deadline_ms =? UINT64_MAX then -1
  else let remaining := deadline_ms - now in
    if INT_MAX <? remaining then INT_MAX else remaining.

Fixpoint ksd_wait_until (events deadline_ms : Z) (steps : list wait_step) : option wait_result :=
  match steps with
  | [] => None
  | step :: steps =>
    let now := ws_now step in
    if negb (deadline_ms =? UINT64_MAX) && ((now =? 0) || (deadline_ms <=? now))
    then Some WaitTimeout
    else
      match ws_poll step with
      | PollIntr => ksd_wait_until events deadline_ms steps
      | PollFailed => Some WaitFailed
      | PollTimedOut => Some WaitTimeout
      | PollReady revents =>
        if negb (Z.land revents (Z.lor POLLERR POLLNVAL) =? 0) then Some WaitFailed
        else if negb (Z.land revents (Z.lor (Z.lor events POLLHUP) POLLRDHUP) =? 0)
        then Some WaitOk else Some WaitFailed
      end
  end.

(** ** Transfers *)

(** What recv or send answers once the descriptor is ready: an interruption or
    would-block, up to [n] bytes, end of file, or an error. *)
Inductive io_outcome := IoAgain | IoBytes (n : positive) | IoEof | IoError.

(** One turn of a transfer loop. *)
Record io_turn := mk_turn { turn_wait : list wait_step; turn_io : io_outcome }.

Inductive transfer_result :=
| TransferDone (bytes : list byte)
| TransferEof
| TransferTimeout
| TransferFailed.

(** The receive direction of [ksd_transfer_until]: [got] is what is already in
    the buffer, [stream] the bytes the peer has sent and the kernel holds; a
    turn that would deliver from an empty stream finds nothing and retries. *)
Fixpoint transfer_recv (deadline_ms length : Z) (turns : list io_turn)
    (stream got : list byte) : option (transfer_result * list byte * list io_turn) :=
  if zlen got <? length then
    match turns with
    | [] => None
    | turn :: turns =>
      match ksd_wait_until POLLIN deadline_ms (turn_wait turn) with
      | None => None
      | Some WaitTimeout => Some (TransferTimeout, stream, turns)
      | Some WaitFailed => Some (TransferFailed, stream, turns)
      | Some WaitOk =>
        match turn_io turn with
        | IoAgain => transfer_recv deadline_ms length turns stream got
        | IoBytes n =>
          let count := Z.min (Z.min (Zpos n) (length - zlen got)) (zlen stream) in
          if count =? 0 then transfer_recv deadline_ms length turns stream got
          else transfer_recv deadline_ms length turns (zdrop count stream)
                 (got ++ ztake count stream)
        | IoEof => Some (if zlen got =? 0 then TransferEof else TransferFailed, stream, turns)
        | IoError => Some (TransferFailed, stream, turns)
        end
      end
    end
  else Some (TransferDone got, stream, turns).

(** The send direction: [sent] is what the peer has received so far. *)
Fixpoint transfer_send (deadline_ms : Z) (turns : list io_turn)
    (data sent : list byte) : option (bool * list byte * list io_turn) :=
  match data with
  | [] => Some (true, sent, turns)
  | _ :: _ =>
    match turns with
    | [] => None
    | turn :: turns =>
      match ksd_wait_until POLLOUT deadline_ms (turn_wait turn) with
      | None => None
      | Some WaitOk =>
        match turn_io turn with
        | IoAgain => transfer_send deadline_ms turns data sent
        | IoBytes n =>
          let count := Z.min (Zpos n) (zlen data) in
          transfer_send deadline_ms turns (zdrop count data) (sent ++ ztake count data)
        | IoEof | IoError => Some (false, sent, turns)
        end
      | Some _ => Some (false, sent, turns)
      end
    end
  end.

Lemma poll_timeout_bound deadline now :
  deadline <> UINT64_MAX -> 0 < now < deadline ->
  0 < poll_timeout deadline now <= deadline - now /\ poll_timeout deadline now <= INT_MAX.
Proof.
  intros Hd Hn. unfold poll_timeout, INT_MAX. replace (deadline =? UINT64_MAX) with false by lia.
  case_if; lia.
Qed.

(** Whatever the interruptions and however the stream is cut into reads, a
    completed receive is the first [length] bytes of it and leaves the rest. *)
Lemma transfer_recv_done dl len turns stream got bs stream' turns' :
  zlen got <= len ->
  transfer_recv dl len turns stream got = Some (TransferDone bs, stream', turns') ->
  bs = ztake len (got ++ stream) /\ stream' = zdrop len (got ++ stream) /\ zlen bs = len.
Proof.
  revert stream got. induction turns as [|t turns IH]; intros stream got Hg; cbn [transfer_recv].
  all: destruct (Z.ltb_spec (zlen got) len) as [Hlt|]; try done.
  1, 3: intros [= <- <- <-]; assert (len = zlen got) as -> by lia;
        by rewrite ztake_app_l, zdrop_app_l.
  destruct (ksd_wait_until _ _ _) as [[]|]; try done. destruct (turn_io t) as [|n| |]; try done; auto.
  - case_if; [by auto|]. breflect.
    set (count := Z.min _ _) in *. pose proof (zlen_nonneg stream).
    assert (0 < count <= zlen stream) by lia.
    intros H'. apply IH in H'; [|rewrite zlen_app, zlen_ztake; lia].
    by rewrite <- app_assoc, ztake_zdrop in H'.
  - by case_if.
Qed.

(** The number of turns of a script that move at least one byte. *)
Definition progress (t : io_turn) : bool := match turn_io t with IoBytes _ => true | _ => false end.
(** A script on which the peer keeps delivering: waits succeed and no call fails. *)
Definition delivering (dl events : Z) (turns : list io_turn) : Prop :=
  Forall (fun t => ksd_wait_until events dl (turn_wait t) = Some WaitOk /\
                   (turn_io t = IoAgain \/ progress t = true)) turns.

(** Enough delivering turns complete the receive, and each byte uses up at
    most one of them. *)
Lemma transfer_recv_completes dl len turns stream got :
  delivering dl POLLIN turns -> zlen got <= len <= zlen got + zlen stream ->
  len - zlen got <= zlen (filter (fun t => progress t = true) turns) ->
  exists turns', transfer_recv dl len turns stream got =
    Some (TransferDone (ztake len (got ++ stream)), zdrop len (got ++ stream), turns') /\
    delivering dl POLLIN turns' /\
    zlen (filter (fun t => progress t = true) turns) - (len - zlen got) <=
    zlen (filter (fun t => progress t = true) turns').
Proof.
  intros Hd. revert stream got. induction turns as [|t turns IH]; intros stream got Hlen Hp;
    cbn [transfer_recv].
  - destruct (Z.ltb_spec (zlen got) len); [unfold zlen at 2 in Hp; cbn in Hp; lia|].
    assert (len = zlen got) as -> by lia. rewrite ztake_app_l, zdrop_app_l. eauto with lia.
  - destruct (Z.ltb_spec (zlen got) len).
    2:{ assert (len = zlen got) as -> by lia. rewrite ztake_app_l, zdrop_app_l. eauto with lia. }
    apply Forall_cons_1 in Hd as [[-> Ht] Hd].
    destruct Ht as [Ht|Ht]; unfold progress in Hp, Ht |- *; rewrite filter_cons in Hp |- *.
    + rewrite Ht in *. apply IH; auto.
    + destruct (turn_io t) as [|n| |] eqn:Hio; try done.
      rewrite decide_True, zlen_cons in Hp |- * by done.
      set (count := Z.min _ _). assert (0 < count <= zlen stream) by lia.
      replace (count =? 0) with false by lia.
      destruct (IH Hd (zdrop count stream) (got ++ ztake count stream)) as (turns' & -> & Hd' & Hn).
      * rewrite zlen_app, zlen_ztake, zlen_zdrop; lia.
      * rewrite zlen_app, zlen_ztake by lia. unfold progress. lia.
      * rewrite <- app_assoc, ztake_zdrop. exists turns'. split; [done|]. split; [done|].
        rewrite zlen_app, zlen_ztake in Hn by lia. unfold progress in Hn. lia.
Qed.

(** The same from an empty buffer. *)
Lemma transfer_recv_split dl len turns stream :
  delivering dl POLLIN turns -> 0 <= len <= zlen stream ->
  len <= zlen (filter (fun t => progress t = true) turns) ->
  exists turns', transfer_recv dl len turns stream [] =
    Some (TransferDone (ztake len stream), zdrop len stream, turns') /\
    delivering dl POLLIN turns' /\
    zlen (filter (fun t => progress t = true) turns) - len <=
    zlen (filter (fun t => progress t = true) turns').
Proof.
  intros Hd Hl Hn. destruct (transfer_recv_completes dl len turns stream [] Hd) as (t & E & ? & H);
    rewrite ?zlen_nil in *; try lia. exists t. rewrite E. auto with lia.
Qed.

(** A send that reports success delivered exactly its data; one that fails
    delivered a prefix. *)
Lemma transfer_send_spec dl turns data sent ok sent' turns' :
  transfer_send dl turns data sent = Some (ok, sent', turns') ->
  exists n, sent' = sent ++ take n data /\ (ok = true -> sent' = sent ++ data).
Proof.
  assert (Hnil : forall ds, exists n, sent = sent ++ take n ds /\ (false = true -> sent = sent ++ ds)).
  { intros ds. exists 0%nat. by rewrite take_0, app_nil_r. }
  revert data sent Hnil. induction turns as [|t turns IH]; intros data sent Hnil; cbn [transfer_send];
    (destruct data as [|b data]; [intros [= <- <- <-]; exists 0%nat; by rewrite !app_nil_r|]); [done|].
  destruct (ksd_wait_until _ _ _) as [[]|]; try done; try (intros [= <- <- <-]; apply Hnil).
  destruct (turn_io t) as [|n| |]; auto; try (intros [= <- <- <-]; apply Hnil).
  intros H. set (count := Z.min _ _) in *.
  apply IH in H as (k & -> & Hok).
  2:{ intros ds. exists 0%nat. by rewrite take_0, app_nil_r. }
  exists (Z.to_nat count + k)%nat. split.
  - rewrite <- app_assoc. f_equal. unfold ztake, zdrop. by rewrite take_take_drop.
  - intros Ho. by rewrite (Hok Ho), <- app_assoc, ztake_zdrop.
Qed.

(** ** Plain transfers *)

(** One call of write or read: interrupted, [n] bytes moved, or the answer
    that ends the loop. *)
Inductive plain_outcome := PlainIntr | PlainBytes (n : positive) | PlainEnd.

(** [sent] is what has reached the descriptor. *)
Fixpoint ksd_write_all (calls : list plain_outcome) (data sent : list byte)
    : option (bool * list byte) :=
  match data with
  | [] => Some (true, sent)
  | _ :: _ =>
    match calls with
    | [] => None
    | PlainIntr :: calls => ksd_write_all calls data sent
    | PlainEnd :: _ => Some (false, sent)
    | PlainBytes n :: calls =>
      let count := Z.min (Zpos n) (zlen data) in
      ksd_write_all calls (zdrop count data) (sent ++ ztake count data)
    end
  end.

Lemma write_all_spec calls data sent ok sent' :
  ksd_write_all calls data sent = Some (ok, sent') ->
  exists n, sent' = sent ++ take n data /\ (ok = true -> sent' = sent ++ data).
Proof.
  revert data sent. induction calls as [|call calls IH]; intros data sent; cbn [ksd_write_all];
    (destruct data as [|b data]; [intros [= <- <-]; exists 0%nat; by rewrite !app_nil_r|]); [done|].
  destruct call as [|n|]; auto.
  - intros H. set (count := Z.min _ _) in *. apply IH in H as (k & -> & Hok).
    exists (Z.to_nat count + k)%nat. split.
    + rewrite <- app_assoc. f_equal. unfold ztake, zdrop. by rewrite take_take_drop.
    + intros Ho. by rewrite (Hok Ho), <- app_assoc, ztake_zdrop.
  - intros [= <- <-]. exists 0%nat. by rewrite take_0, app_nil_r.
Qed.

(** [got] is what is in the buffer already; the bytes, or [None] on a failure, with
    the stream and the calls that are left. *)
Fixpoint ksd_read_all (calls : list plain_outcome) (length : Z) (stream got : list byte)
    : option (option (list byte) * list byte * list plain_outcome) :=
  if zlen got <? length then
    match calls with
    | [] => None
    | PlainIntr :: calls => ksd_read_all calls length stream got
    | PlainEnd :: calls => Some (None, stream, calls)
    | PlainBytes n :: calls =>
      let count := Z.min (Z.min (Zpos n) (length - zlen got)) (zlen stream) in
      ksd_read_all calls length (zdrop count stream) (got ++ ztake count stream)
    end
  else Some (Some got, stream, calls).

Lemma read_all_done calls length stream got bs stream' calls' :
  zlen got <= length -> ksd_read_all calls length stream got = Some (Some bs, stream', calls') ->
  bs = ztake length (got ++ stream) /\ stream' = zdrop length (got ++ stream) /\ zlen bs = length.
Proof.
  revert stream got. induction calls as [|call calls IH]; intros stream got Hg; cbn [ksd_read_all].
  all: destruct (Z.ltb_spec (zlen got) length); try done.
  1, 3: intros [= <- <- <-]; assert (length = zlen got) as -> by lia; by rewrite ztake_app_l, zdrop_app_l.
  destruct call as [|n|]; [auto| |done]. set (count := Z.min _ _). pose proof (zlen_nonneg stream).
  intros H'. apply IH in H'; [|rewrite zlen_app, zlen_ztake; lia].
  by rewrite <- app_assoc, ztake_zdrop in H'.
Qed.

(** The calls that give bytes. *)
Definition moves (call : plain_outcome) : bool := match call with PlainBytes _ => true | _ => false end.
Definition flowing (calls : list plain_outcome) : Prop := Forall (fun call => call <> PlainEnd) calls.

(** With no call that fails and one call that gives bytes for each byte, a read of
    what the stream holds completes. *)
Lemma read_all_completes calls length stream got :
  flowing calls -> zlen got <= length <= zlen got + zlen stream ->
  length - zlen got <= zlen (List.filter moves calls) ->
  exists calls', ksd_read_all calls length stream got =
    Some (Some (ztake length (got ++ stream)), zdrop length (got ++ stream), calls') /\ flowing calls' /\
    zlen (List.filter moves calls) - (length - zlen got) <= zlen (List.filter moves calls').
Proof.
  intros Hf. revert stream got. induction Hf as [|call calls Hc Hf IH]; intros stream got Hl Hn; cbn [ksd_read_all].
  - destruct (Z.ltb_spec (zlen got) length); [unfold zlen at 2 in Hn; cbn in Hn; lia|].
    assert (length = zlen got) as -> by lia. rewrite ztake_app_l, zdrop_app_l.
    exists []. split; [done|]. split; [constructor|unfold zlen; cbn; lia].
  - destruct (Z.ltb_spec (zlen got) length).
    2:{ assert (length = zlen got) as -> by lia. rewrite ztake_app_l, zdrop_app_l.
        exists (call :: calls). split; [done|]. split; [by constructor|lia]. }
    destruct call as [|n|]; [by apply IH| |done]. cbn [List.filter moves] in *. rewrite zlen_cons in *.
    set (count := Z.min _ _). assert (1 <= count <= zlen stream) by lia.
    destruct (IH (zdrop count stream) (got ++ ztake count stream)) as (calls' & -> & ? & Hn').
    + rewrite zlen_app, zlen_ztake, zlen_zdrop; lia.
    + rewrite zlen_app, zlen_ztake by lia. lia.
    + rewrite <- app_assoc, ztake_zdrop. exists calls'. split; [done|]. split; [done|].
      rewrite zlen_app, zlen_ztake in Hn' by lia. lia.
Qed.

(** The answers of sendmsg, [None] for an interruption, and then those of write: the
    bytes that reached the socket, the descriptor with the first of them. *)
Fixpoint ksd_send_with_fd (descriptor : Z) (sends : list (option Z)) (calls : list plain_outcome) (data : list byte) (passed_fd : Z)
    : option (bool * list byte) :=
  if (descriptor <? 0) || (zlen data =? 0) || (passed_fd <? 0) then Some (false, [])
  else
    match sends with
    | [] => None
    | None :: sends => ksd_send_with_fd descriptor sends calls data passed_fd
    | Some count :: _ =>
      if (count <=? 0) || (zlen data <? count) then Some (false, [])
      else if count =? zlen data then Some (true, data)
      else ksd_write_all calls (zdrop count data) (ztake count data)
    end.

Lemma send_with_fd_sent descriptor sends calls data fd out :
  ksd_send_with_fd descriptor sends calls data fd = Some (true, out) -> out = data /\ 0 <= fd.
Proof.
  induction sends as [|[count|] sends IH]; cbn [ksd_send_with_fd]; case_if; try done; auto.
  breflect. case_if; [done|]. breflect. case_if; [intros [= <-]; auto with lia|].
  intros Hw. apply write_all_spec in Hw as (k & _ & Hok). rewrite (Hok eq_refl), ztake_zdrop. auto with lia.
Qed.

(** ** Passed descriptors *)

Definition SOL_SOCKET : Z := 1.
Definition SCM_RIGHTS : Z := 1.
(** [CMSG_LEN(0)]: the size of a control message header on 64-bit Linux. *)
Definition CMSG_LEN0 : Z := 16.

(** A control message: its header and the descriptors its data holds. *)
Record cmsg := mk_cmsg { cmsg_level : Z; cmsg_type : Z; cmsg_len : Z; cmsg_fds : list Z }.

(** What the kernel hands over with SCM_RIGHTS: whole descriptors, all open. *)
Definition cmsg_rights (m : cmsg) : Prop :=
  cmsg_level m = SOL_SOCKET /\ cmsg_type m = SCM_RIGHTS /\
  cmsg_len m = CMSG_LEN0 + 4 * zlen (cmsg_fds m) /\ Forall (fun fd => 0 <= fd) (cmsg_fds m).

(** The receiver's bookkeeping: the first descriptor, how many came, whether a
    control message was malformed, and the descriptors closed so far. *)
Record fd_scan := mk_scan {
  scan_first : Z; scan_count : Z; scan_malformed : bool; scan_closed : list Z }.

Definition scan_fd (s : fd_scan) (value : Z) : fd_scan :=
  if scan_count s =? 0
  then mk_scan value (scan_count s + 1) (scan_malformed s) (scan_closed s)
  else mk_scan (scan_first s) (scan_count s + 1) (scan_malformed s) (scan_closed s ++ [value]).

(** The body of the loop over control messages, common to both receivers. *)
Definition scan_cmsg (s : fd_scan) (header : cmsg) : fd_scan :=
  let malformed := mk_scan (scan_first s) (scan_count s) true (scan_closed s) in
  if negb (cmsg_level header =? SOL_SOCKET) || negb (cmsg_type header =? SCM_RIGHTS)
     || (cmsg_len header <? CMSG_LEN0)
  then malformed
  else
    let payload := cmsg_len header - CMSG_LEN0 in
    if negb (payload mod 4 =? 0) then malformed
    else fold_left scan_fd (ztake (payload / 4) (cmsg_fds header)) s.

Definition scan_start : fd_scan := mk_scan (-1) 0 false [].

(** [close] of the kept descriptor on a failure. *)
Definition scan_abandon (s : fd_scan) : list Z :=
  scan_closed s ++ (if 0 <=? scan_first s then [scan_first s] else []).

(** What one recvmsg answers: an error, or bytes with the truncation flags and
    the control messages. *)
Inductive recvmsg_outcome :=
| MsgAgain
| MsgError
| MsgData (bytes : list byte) (truncated : bool) (control : list cmsg).

(** A receiver's outcome: the bytes and the descriptor kept (-1 for none), or
    a failure; with the descriptors it closed. *)
Record fd_received := mk_received { rcv_result : option (list byte * Z); rcv_closed : list Z }.

(** The answer of the first recvmsg that is not interrupted; a failed call
    leaves the zeroed control buffer in place, which scans as one malformed
    header. *)
Definition ksd_receive_optional_fd (length : Z) (outcome : recvmsg_outcome) : fd_received :=
  let '(bytes, count, truncated, control) :=
    match outcome with
    | MsgAgain | MsgError => ([], -1, false, [mk_cmsg 0 0 0 []])
    | MsgData bytes truncated control => (bytes, zlen bytes, truncated, control)
    end in
  let s := fold_left scan_cmsg control scan_start in
  if negb (count =? length) || truncated || scan_malformed s || (1 <? scan_count s)
  then mk_received None (scan_abandon s)
  else mk_received (Some (bytes, if scan_count s =? 1 then scan_first s else -1)) (scan_closed s).

(** One turn of [ksd_receive_fd_until]. *)
Record recv_turn := mk_recv { rt_wait : list wait_step; rt_msg : recvmsg_outcome }.

Fixpoint receive_fd_loop (length deadline_ms : Z) (turns : list recv_turn)
    (got : list byte) (s : fd_scan) : option fd_received :=
  if zlen got <? length then
    match turns with
    | [] => None
    | turn :: turns =>
      match ksd_wait_until POLLIN deadline_ms (rt_wait turn) with
      | None => None
      | Some WaitTimeout | Some WaitFailed => Some (mk_received None (scan_abandon s))
      | Some WaitOk =>
        match rt_msg turn with
        | MsgAgain => receive_fd_loop length deadline_ms turns got s
        | MsgError => Some (mk_received None (scan_abandon s))
        | MsgData bytes truncated control =>
          let bytes := ztake (length - zlen got) bytes in
          let malformed := (zlen bytes <=? 0) || truncated in
          let s := mk_scan (scan_first s) (scan_count s) malformed (scan_closed s) in
          let s := if 0 <? zlen bytes then fold_left scan_cmsg control s else s in
          if scan_malformed s || (1 <? scan_count s)
          then Some (mk_received None (scan_abandon s))
          else receive_fd_loop length deadline_ms turns (got ++ bytes) s
        end
      end
    end
  else Some (mk_received (Some (got, scan_first s)) (scan_closed s)).

Definition ksd_receive_fd_until (length deadline_ms : Z) (turns : list recv_turn)
    : option fd_received :=
  receive_fd_loop length deadline_ms turns [] scan_start.

(** *** No descriptor is lost, and none is closed twice *)

(** The scan has seen [fds]: it keeps the first and closed the others. *)
Definition scan_inv (fds : list Z) (s : fd_scan) : Prop :=
  scan_count s = zlen fds /\
  match fds with
  | [] => scan_first s = -1 /\ scan_closed s = []
  | fd :: rest => scan_first s = fd /\ scan_closed s = rest
  end.

Lemma scan_fd_inv fds s fd : scan_inv fds s -> scan_inv (fds ++ [fd]) (scan_fd s fd).
Proof.
  intros [Hc Hf]. unfold scan_fd, scan_inv. rewrite Hc, zlen_app.
  destruct fds as [|x fds]; cbn -[Z.add].
  - by destruct Hf as [? ->].
  - destruct Hf as [-> ->]. replace (zlen (x :: fds) =? 0) with false; [done|].
    rewrite zlen_cons. pose proof (zlen_nonneg fds). lia.
Qed.

Lemma scan_fds_inv new fds s :
  scan_inv fds s -> scan_inv (fds ++ new) (fold_left scan_fd new s) /\
                    scan_malformed (fold_left scan_fd new s) = scan_malformed s.
Proof.
  revert fds s. induction new as [|fd new IH]; intros fds s Hs; cbn.
  - by rewrite app_nil_r.
  - rewrite (cons_middle fd fds new), app_assoc.
    destruct (IH _ _ (scan_fd_inv _ _ fd Hs)) as [H ->]. split; [done|].
    unfold scan_fd. by case_if.
Qed.

Lemma scan_cmsgs_inv control fds s :
  Forall cmsg_rights control -> scan_inv fds s ->
  scan_inv (fds ++ concat (map cmsg_fds control)) (fold_left scan_cmsg control s) /\
  scan_malformed (fold_left scan_cmsg control s) = scan_malformed s.
Proof.
  revert fds s. induction control as [|m control IH]; intros fds s Hc Hs; cbn.
  - by rewrite app_nil_r.
  - apply Forall_cons_1 in Hc as [(Hl & Ht & Hlen & _) Hc].
    assert (scan_cmsg s m = fold_left scan_fd (cmsg_fds m) s) as ->.
    { unfold scan_cmsg. rewrite Hl, Ht, Hlen. pose proof (zlen_nonneg (cmsg_fds m)).
      replace (_ + _ <? _) with false by lia. cbn [negb orb Z.eqb SOL_SOCKET SCM_RIGHTS Pos.eqb].
      replace (CMSG_LEN0 + 4 * zlen (cmsg_fds m) - CMSG_LEN0) with (zlen (cmsg_fds m) * 4) by lia.
      rewrite Z.mod_mul, Z.div_mul, ztake_all by lia. done. }
    destruct (scan_fds_inv (cmsg_fds m) fds s Hs) as [Hs' Hm].
    rewrite app_assoc. destruct (IH _ _ Hc Hs') as [? ->]. done.
Qed.

Lemma scan_abandon_inv fds s :
  scan_inv fds s -> Forall (fun fd => 0 <= fd) fds -> scan_abandon s ≡ₚ fds.
Proof.
  intros [_ Hs] Hp. unfold scan_abandon. destruct fds as [|fd fds].
  - by destruct Hs as [-> ->].
  - destruct Hs as [-> ->]. apply Forall_cons_1 in Hp as [? _].
    replace (0 <=? fd) with true by lia. by rewrite Permutation_app_comm.
Qed.

(** The descriptors an outcome accounts for: those closed and the one kept. *)
Definition accounted (r : fd_received) : list Z :=
  rcv_closed r ++ match rcv_result r with Some (_, fd) => if fd =? -1 then [] else [fd] | None => [] end.

Definition cmsgs_fds (control : list cmsg) : list Z := concat (map cmsg_fds control).

Lemma cmsgs_fds_open control : Forall cmsg_rights control -> Forall (fun fd => 0 <= fd) (cmsgs_fds control).
Proof.
  induction 1 as [|m control Hm _ IH]; [constructor|].
  unfold cmsgs_fds; cbn. apply Forall_app. split; [apply Hm|done].
Qed.

(** A finished scan of at most one descriptor accounts for it. *)
Lemma scan_kept_inv fds s bytes :
  scan_inv fds s -> Forall (fun fd => 0 <= fd) fds -> scan_count s <= 1 ->
  accounted (mk_received (Some (bytes, scan_first s)) (scan_closed s)) ≡ₚ fds.
Proof.
  intros [Hc Hs] Hp Hle. unfold accounted; cbn. destruct fds as [|fd [|fd' fds]].
  - by destruct Hs as [-> ->].
  - destruct Hs as [-> ->]. apply Forall_cons_1 in Hp as [? _].
    by replace (fd =? -1) with false by lia.
  - rewrite Hc, !zlen_cons in Hle. pose proof (zlen_nonneg fds). lia.
Qed.

(** The descriptors a run of turns delivers to the loop. *)
Definition turn_fds (t : recv_turn) : list Z :=
  match rt_msg t with MsgData _ _ control => cmsgs_fds control | _ => [] end.
(** A turn as the kernel produces it: control messages carry descriptors, and
    only together with data. *)
Definition kernel_turn (t : recv_turn) : Prop :=
  match rt_msg t with
  | MsgData bytes _ control => Forall cmsg_rights control /\ (bytes = [] -> control = [])
  | _ => True
  end.

Lemma receive_fd_loop_accounts length dl turns got s fds r :
  0 <= length -> Forall kernel_turn turns -> scan_inv fds s -> scan_count s <= 1 ->
  Forall (fun fd => 0 <= fd) fds ->
  receive_fd_loop length dl turns got s = Some r ->
  exists used rest, turns = used ++ rest /\ accounted r ≡ₚ fds ++ concat (map turn_fds used) /\
    (forall bytes fd, rcv_result r = Some (bytes, fd) -> length <= zlen bytes).
Proof.
  intros Hl Hk. revert got s fds. induction turns as [|t turns IH]; intros got s fds Hs Hc Hp;
    cbn [receive_fd_loop]; destruct (Z.ltb_spec (zlen got) length).
  - done.
  - intros [= <-]. exists [], []. cbn [map concat]. rewrite (app_nil_r fds). split; [done|].
    split; [by apply scan_kept_inv|]. by intros ? ? [= <- _].
  - apply Forall_cons_1 in Hk as [Ht Hk].
    assert (Hfail : forall s1 fds1, scan_inv fds1 s1 -> Forall (fun fd => 0 <= fd) fds1 ->
      accounted (mk_received None (scan_abandon s1)) ≡ₚ fds1).
    { intros s1 fds1 H1 H2. unfold accounted; cbn. rewrite app_nil_r. by apply scan_abandon_inv. }
    assert (Hstop : Some (mk_received None (scan_abandon s)) = Some r ->
      exists used rest, t :: turns = used ++ rest /\ accounted r ≡ₚ fds ++ concat (map turn_fds used) /\
      (forall bytes fd, rcv_result r = Some (bytes, fd) -> length <= zlen bytes)).
    { intros [= <-]. exists [], (t :: turns). cbn [map concat]. rewrite (app_nil_r fds). split; [done|].
      split; [by apply Hfail|done]. }
    destruct (ksd_wait_until _ _ _) as [[]|]; [|exact Hstop|exact Hstop|done].
    unfold kernel_turn in Ht. destruct (rt_msg t) as [| |bytes truncated control] eqn:Hm;
      [|exact Hstop|].
    + intros H'. destruct (IH Hk _ _ _ Hs Hc Hp H') as (used & rest & -> & Hacc & Hlen).
      exists (t :: used), rest. cbn [map concat]. unfold turn_fds at 1. by rewrite Hm.
    + destruct Ht as [Hcm Hempty].
      set (s1 := mk_scan _ _ _ _). set (bs := ztake (length - zlen got) bytes).
      set (s2 := if 0 <? zlen bs then _ else s1).
      assert (Hs1 : scan_inv fds s1) by exact Hs.
      assert (Hs2 : scan_inv (fds ++ cmsgs_fds control) s2).
      { unfold s2. destruct (Z.ltb_spec 0 (zlen bs)).
        - by apply (proj1 (scan_cmsgs_inv control fds s1 Hcm Hs1)).
        - rewrite Hempty; [by rewrite app_nil_r|]. destruct bytes as [|b bytes]; [done|].
          unfold bs in *. destruct (Z.to_nat (length - zlen got)) eqn:E; [lia|].
          unfold ztake in *. rewrite E in *. cbn in *. rewrite zlen_cons in *.
          pose proof (zlen_nonneg (take n bytes)). lia. }
      assert (Hp2 : Forall (fun fd => 0 <= fd) (fds ++ cmsgs_fds control))
        by (apply Forall_app; eauto using cmsgs_fds_open).
      case_if; breflect.
      * intros [= <-]. exists [t], turns. split; [done|]. cbn [map concat]. unfold turn_fds. rewrite Hm, app_nil_r.
        split; [by apply Hfail|done].
      * intros H'. destruct (IH Hk _ _ _ Hs2 ltac:(lia) Hp2 H') as (used & rest & -> & Hacc & Hlen).
        exists (t :: used), rest. cbn [map concat]. unfold turn_fds at 1. rewrite Hm, app_assoc. done.
  - intros [= <-]. exists [], (t :: turns). cbn [map concat]. rewrite (app_nil_r fds). split; [done|].
    split; [by apply scan_kept_inv|]. by intros ? ? [= <- _].
Qed.

(** Descriptor conservation of [ksd_receive_fd_until].  On turns as the
    kernel produces them, every descriptor the consumed turns delivered is
    either the one returned or was closed, each exactly once; and a success
    returns the whole message. *)
Theorem receive_fd_until_conserves length dl turns r :
  0 < length -> Forall kernel_turn turns ->
  ksd_receive_fd_until length dl turns = Some r ->
  exists used rest, turns = used ++ rest /\ accounted r ≡ₚ concat (map turn_fds used) /\
    (forall bytes fd, rcv_result r = Some (bytes, fd) -> length <= zlen bytes).
Proof.
  intros Hl Hk H. apply (receive_fd_loop_accounts _ _ _ _ _ []) in H; [exact H|lia|done|by split|cbn; lia|constructor].
Qed.

Lemma receive_fd_until_conserves_witness :
  exists used rest, [mk_recv [mk_wait 1 (PollReady POLLIN)] (MsgData (cstr "ab"%string) false [mk_cmsg 1 1 20 [7]])]
    = used ++ rest /\ accounted (mk_received (Some (cstr "ab"%string, 7)) []) ≡ₚ concat (map turn_fds used) /\
    (forall bytes fd, rcv_result (mk_received (Some (cstr "ab"%string, 7)) []) = Some (bytes, fd) -> 2 <= zlen bytes).
Proof.
  apply (receive_fd_until_conserves 2 100); [lia| |vm_compute; reflexivity].
  repeat constructor; cbn; try lia. discriminate.
Defined.

Lemma receive_optional_fd_accounts length outcome :
  match outcome with MsgData _ _ control => Forall cmsg_rights control | _ => True end ->
  accounted (ksd_receive_optional_fd length outcome) ≡ₚ
    match outcome with MsgData _ _ control => cmsgs_fds control | _ => [] end.
Proof.
  intros Hc. destruct outcome as [| |bytes truncated control].
  1, 2: by unfold ksd_receive_optional_fd; destruct (negb (-1 =? length)).
  destruct (scan_cmsgs_inv control [] scan_start Hc ltac:(done)) as [Hs Hm].
  unfold ksd_receive_optional_fd. cbn [app] in Hs. set (s := fold_left _ _ _) in *.
  pose proof (cmsgs_fds_open control Hc) as Hp. case_if; breflect.
  - unfold accounted; cbn. rewrite app_nil_r. by apply scan_abandon_inv.
  - assert ((if scan_count s =? 1 then scan_first s else -1) = scan_first s) as ->.
    { destruct Hs as [Hcount Hf]. case_if; breflect; [done|].
      destruct (concat _) as [|fd l]; [by destruct Hf|]. rewrite zlen_cons in Hcount.
      pose proof (zlen_nonneg l). lia. }
    by apply scan_kept_inv.
Qed.
