(* ===== verification/Frame.v ===== *)
(** * Protocol frames (src/protocol_io.c)

    The 24-byte header with its encoder and decoder, the header rules, packing
    a frame into a buffer and unpacking it, and reading and writing frames over
    a descriptor.  [frame_bytes] is the wire form; the theorems say that the
    readers accept exactly the wire forms of acceptable frames, however the
    stream is cut, and give the frame back. *)
From Stdlib Require Import ZArith Lia Strings.Byte Strings.String.
From stdpp Require Import base list option numbers tactics.
From S2P Require Import Prelude.
From S2P Require Import Protocol.
From S2P Require Import Codec.
From S2P Require Import Buffer.
From S2P Require Import Transport.
Local Open Scope Z_scope.
Local Open Scope ksd_scope.

Record ksd_frame := mk_frame {
  fr_magic : list byte;
  fr_major : Z;
  fr_minor : Z;
  fr_opcode : Z;
  fr_flags : Z;
  fr_payload_length : Z;
  fr_request_id : Z;
  fr_payload : option (list byte);
}.

(** A field width violated by no C value, and a payload pointer that is NULL
    exactly when the length is 0. *)
Definition header_wf (f : ksd_frame) : Prop :=
  zlen (fr_magic f) = 4 /\ is_u16 (fr_major f) /\ is_u16 (fr_minor f) /\
  is_u16 (fr_opcode f) /\ is_u16 (fr_flags f) /\ is_u32 (fr_payload_length f) /\
  is_u64 (fr_request_id f).
Definition frame_wf (f : ksd_frame) : Prop :=
  header_wf f /\ fr_payload_length f = zlen (default [] (fr_payload f)) /\
  (fr_payload f = None <-> fr_payload_length f = 0).

Definition with_payload (f : ksd_frame) (payload : option (list byte)) : ksd_frame :=
  mk_frame (fr_magic f) (fr_major f) (fr_minor f) (fr_opcode f) (fr_flags f)
    (fr_payload_length f) (fr_request_id f) payload.

(** The frame [memset] leaves: all fields zero. *)
Definition ksd_frame_zero : ksd_frame := mk_frame [x00; x00; x00; x00] 0 0 0 0 0 0 None.
Definition ksd_frame_clear (frame : ksd_frame) : ksd_frame := ksd_frame_zero.

Definition has_flag (frame : ksd_frame) (flag : Z) : bool := negb (Z.land (fr_flags frame) flag =? 0).

Definition valid_public_header (frame : ksd_frame) : bool :=
  let response := has_flag frame KSD_FLAG_RESPONSE in
  let event := has_flag frame KSD_FLAG_EVENT in
  let more := has_flag frame KSD_FLAG_MORE in
  if negb (Z.land (fr_flags frame) (Z.lnot KSD_FLAG_ALL) =? 0)
     || (response && event) || (more && event)
  then false
  else if event then fr_request_id frame =? 0
  else if response then negb (fr_request_id frame =? 0)
  else negb (fr_request_id frame =? 0)
       || ((fr_opcode frame =? KSD_OP_PING) && (fr_flags frame =? 0)).

(** A store of [bs] at [offset] of an array. *)
Definition store (offset : Z) (bs array : list byte) : list byte :=
  ztake offset array ++ bs ++ zdrop (offset + zlen bs) array.

Definition encode_frame_header (frame : ksd_frame) : list byte :=
  let header := repeat x00 (Z.to_nat KSD_FRAME_HEADER_SIZE) in
  let header := store KSD_FRAME_MAGIC_OFFSET (fr_magic frame) header in
  let header := store KSD_FRAME_MAJOR_OFFSET (ksd_encode_u16 (fr_major frame)) header in
  let header := store KSD_FRAME_MINOR_OFFSET (ksd_encode_u16 (fr_minor frame)) header in
  let header := store KSD_FRAME_OPCODE_OFFSET (ksd_encode_u16 (fr_opcode frame)) header in
  let header := store KSD_FRAME_FLAGS_OFFSET (ksd_encode_u16 (fr_flags frame)) header in
  let header := store KSD_FRAME_PAYLOAD_LENGTH_OFFSET
                  (ksd_encode_u32 (fr_payload_length frame)) header in
  store KSD_FRAME_REQUEST_ID_OFFSET (ksd_encode_u64 (fr_request_id frame)) header.

Definition decode_frame_header (header : list byte) : ksd_frame :=
  mk_frame (ztake 4 (zdrop KSD_FRAME_MAGIC_OFFSET header))
    (ksd_decode_u16 (zdrop KSD_FRAME_MAJOR_OFFSET header))
    (ksd_decode_u16 (zdrop KSD_FRAME_MINOR_OFFSET header))
    (ksd_decode_u16 (zdrop KSD_FRAME_OPCODE_OFFSET header))
    (ksd_decode_u16 (zdrop KSD_FRAME_FLAGS_OFFSET header))
    (ksd_decode_u32 (zdrop KSD_FRAME_PAYLOAD_LENGTH_OFFSET header))
    (ksd_decode_u64 (zdrop KSD_FRAME_REQUEST_ID_OFFSET header)) None.

(** What a reader insists on, the parameters the readers share. *)
Record frame_rules := mk_rules {
  rule_magic : list byte;
  rule_major : Z;
  rule_minor : Z;
  rule_maximum_payload : Z;
  rule_public : bool;
}.

Definition frame_header_acceptable (rules : frame_rules) (frame : ksd_frame) : bool :=
  bytes_eqb (fr_magic frame) (rule_magic rules)
  && (fr_major frame =? rule_major rules) && (fr_minor frame =? rule_minor rules)
  && (fr_payload_length frame <=? rule_maximum_payload rules)
  && (negb (rule_public rules) || valid_public_header frame).

Definition ksd_frame_is_request (frame : ksd_frame) : bool :=
  Z.land (fr_flags frame) (Z.lor KSD_FLAG_RESPONSE KSD_FLAG_EVENT) =? 0.

(** [socket_deadline]: the receive or send timeout in seconds and microseconds
    ([None] when getsockopt fails), made absolute against the clock. *)
Definition socket_deadline (timeout : option (Z * Z)) (now : Z) : Z :=
  match timeout with
  | None => UINT64_MAX
  | Some (tv_sec, tv_usec) =>
    if (tv_sec =? 0) && (tv_usec =? 0) then UINT64_MAX
    else
      let duration := u64 (u64 (tv_sec * 1000) + (tv_usec + 999) / 1000) in
      if UINT64_MAX - duration <? now then UINT64_MAX else now + duration
  end.

Inductive frame_read_result := ReadEof | ReadError | ReadFrame (frame : ksd_frame).

Section frames.
Context {AL : Allocator}.

Definition ksd_frame_pack (frame : ksd_frame) : bufop := fun buffer =>
  if negb (fr_payload_length frame =? 0) && bool_decide (fr_payload frame = None)
  then (false, buffer)
  else (put (encode_frame_header frame) ;;;
        ksd_buffer_bytes (fr_payload frame) (fr_payload_length frame)) buffer.

Definition ksd_frame_unpack (rules : frame_rules) (data : list byte) : option ksd_frame :=
  guard* KSD_FRAME_HEADER_SIZE <=? zlen data in
  let frame := decode_frame_header data in
  guard* frame_header_acceptable rules frame
         && (zlen data =? KSD_FRAME_HEADER_SIZE + fr_payload_length frame) in
  if fr_payload_length frame =? 0 then Some frame
  else
    guard* alloc_ok (fr_payload_length frame) in
    Some (with_payload frame
            (Some (ztake (fr_payload_length frame) (zdrop KSD_FRAME_HEADER_SIZE data)))).

Definition ksd_frame_read (rules : frame_rules) (deadline : Z) (turns : list io_turn)
    (stream : list byte) : option (frame_read_result * list byte * list io_turn) :=
  let* (header, stream, turns) := transfer_recv deadline KSD_FRAME_HEADER_SIZE turns stream [] in
  match header with
  | TransferEof => Some (ReadEof, stream, turns)
  | TransferTimeout | TransferFailed => Some (ReadError, stream, turns)
  | TransferDone header =>
    let frame := decode_frame_header header in
    if negb (frame_header_acceptable rules frame) then Some (ReadError, stream, turns)
    else if fr_payload_length frame =? 0 then Some (ReadFrame frame, stream, turns)
    else if negb (alloc_ok (fr_payload_length frame)) then Some (ReadError, stream, turns)
    else
      let* (payload, stream, turns) :=
        transfer_recv deadline (fr_payload_length frame) turns stream [] in
      match payload with
      | TransferDone payload => Some (ReadFrame (with_payload frame (Some payload)), stream, turns)
      | _ => Some (ReadError, stream, turns)
      end
  end.

(** The reader of a frame that may carry a descriptor: the header by one
    recvmsg, the payload by the transfer loop; [None] among the outcomes is
    -1.  The last component is what was closed. *)
Definition ksd_frame_read_fd (rules : frame_rules) (deadline : Z)
    (outcome : recvmsg_outcome) (turns : list io_turn) (stream : list byte)
    : option (option (ksd_frame * Z) * list Z) :=
  let received := ksd_receive_optional_fd KSD_FRAME_HEADER_SIZE outcome in
  match rcv_result received with
  | None => Some (None, rcv_closed received)
  | Some (header, fd) =>
    let close_received := rcv_closed received ++ (if 0 <=? fd then [fd] else []) in
    let frame := decode_frame_header header in
    if negb (frame_header_acceptable rules frame) then Some (None, close_received)
    else if fr_payload_length frame =? 0 then Some (Some (frame, fd), rcv_closed received)
    else if negb (alloc_ok (fr_payload_length frame)) then Some (None, close_received)
    else
      let* (payload, _, _) := transfer_recv deadline (fr_payload_length frame) turns stream [] in
      match payload with
      | TransferDone payload =>
        Some (Some (with_payload frame (Some payload), fd), rcv_closed received)
      | _ => Some (None, close_received)
      end
  end.
End frames.

Definition ksd_frame_write (frame : ksd_frame) (deadline : Z) (turns : list io_turn)
    (sent : list byte) : option (bool * list byte) :=
  if negb (fr_payload_length frame =? 0) && bool_decide (fr_payload frame = None)
  then Some (false, sent)
  else
    let* (ok, sent, turns) := transfer_send deadline turns (encode_frame_header frame) sent in
    if negb ok then Some (false, sent)
    else if fr_payload_length frame =? 0 then Some (true, sent)
    else
      let* (ok, sent, _) := transfer_send deadline turns
        (ztake (fr_payload_length frame) (default [] (fr_payload frame))) sent in
      Some (ok, sent).

(** ** The wire form *)

(** The header as a concatenation of its fields. *)
Definition header_fields (f : ksd_frame) : list byte :=
  fr_magic f ++ ksd_encode_u16 (fr_major f) ++ ksd_encode_u16 (fr_minor f) ++
  ksd_encode_u16 (fr_opcode f) ++ ksd_encode_u16 (fr_flags f) ++
  ksd_encode_u32 (fr_payload_length f) ++ ksd_encode_u64 (fr_request_id f).

Definition frame_bytes (f : ksd_frame) : list byte :=
  encode_frame_header f ++ default [] (fr_payload f).

Lemma zlen_4 {A} (l : list A) : zlen l = 4 -> exists a b c d, l = [a; b; c; d].
Proof.
  destruct l as [|a [|b [|c [|d [|? ?]]]]]; intros H; unfold zlen in H; simpl in H; try lia. eauto.
Qed.

Lemma encode_header_fields f : zlen (fr_magic f) = 4 -> encode_frame_header f = header_fields f.
Proof. intros (a & b & c & d & E)%zlen_4. unfold encode_frame_header, header_fields. by rewrite E. Qed.

Lemma zlen_header f : zlen (fr_magic f) = 4 -> zlen (encode_frame_header f) = KSD_FRAME_HEADER_SIZE.
Proof. intros H. rewrite encode_header_fields by done. unfold header_fields. by rewrite zlen_app, H. Qed.

Lemma decode_encode_header f k :
  header_wf f -> decode_frame_header (encode_frame_header f ++ k) = with_payload f None.
Proof.
  intros (Hm & ? & ? & ? & ? & ? & ?). rewrite encode_header_fields by done.
  apply zlen_4 in Hm as (a & b & c & d & E). unfold header_fields, with_payload. rewrite E.
  unfold decode_frame_header. rewrite <- !app_assoc.
  change (zdrop KSD_FRAME_MAGIC_OFFSET ?x) with x.
  repeat match goal with
  | |- context [zdrop ?o (?l ++ ?r)] =>
    let y := eval cbv beta delta [zdrop] in (drop (Z.to_nat o) (l ++ r)) in
    progress change (zdrop o (l ++ r)) with y
  end.
  cbn [drop app Z.to_nat Pos.to_nat Pos.iter_op Nat.add KSD_FRAME_MAJOR_OFFSET KSD_FRAME_MINOR_OFFSET
    KSD_FRAME_OPCODE_OFFSET KSD_FRAME_FLAGS_OFFSET KSD_FRAME_PAYLOAD_LENGTH_OFFSET
    KSD_FRAME_REQUEST_ID_OFFSET ksd_encode_u16 ksd_encode_u32].
  f_equal.
  all: try (etransitivity; [apply decode_encode_u16|by apply u16_id]).
  - etransitivity; [apply decode_encode_u32|by apply u32_id].
  - etransitivity; [apply decode_encode_u64|by apply u64_id].
Qed.


(** A list of known length as its elements. *)
Lemma length_S {A} n (l : list A) : length l = S n -> exists x k, l = x :: k /\ length k = n.
Proof. destruct l as [|x k]; cbn; intros [=]; eauto. Qed.
Ltac explode H :=
  repeat (let x := fresh "b" in apply length_S in H as (x & ? & -> & H));
  apply nil_length_inv in H; subst.

(** Decoding loses nothing of the header: it is re-encoded bit for bit. *)
Lemma encode_decode_header header :
  zlen header = KSD_FRAME_HEADER_SIZE ->
  encode_frame_header (decode_frame_header header) = header /\ header_wf (decode_frame_header header).
Proof.
  intros H. unfold zlen in H. apply (Nat2Z.inj _ 24) in H. explode H.
  match goal with |- context [decode_frame_header [?b0; ?b1; ?b2; ?b3; ?b4; ?b5; ?b6; ?b7; ?b8; ?b9;
    ?b10; ?b11; ?b12; ?b13; ?b14; ?b15; ?b16; ?b17; ?b18; ?b19; ?b20; ?b21; ?b22; ?b23]] =>
    set (l := [b0; b1; b2; b3; b4; b5; b6; b7; b8; b9; b10; b11; b12; b13; b14; b15; b16; b17; b18;
               b19; b20; b21; b22; b23]) in *;
    assert (decode_frame_header l = mk_frame [b0; b1; b2; b3] (ksd_decode_u16 [b4; b5])
      (ksd_decode_u16 [b6; b7]) (ksd_decode_u16 [b8; b9]) (ksd_decode_u16 [b10; b11])
      (ksd_decode_u32 [b12; b13; b14; b15])
      (ksd_decode_u64 [b16; b17; b18; b19; b20; b21; b22; b23]) None) as -> by reflexivity;
    destruct (u16_list [b4; b5]), (u16_list [b6; b7]), (u16_list [b8; b9]), (u16_list [b10; b11]),
      (u32_list [b12; b13; b14; b15]), (u64_list [b16; b17; b18; b19; b20; b21; b22; b23]); try done
  end.
  rewrite encode_header_fields by done. unfold header_fields. cbn [fr_magic fr_major fr_minor fr_opcode
    fr_flags fr_payload_length fr_request_id]. split; [|done].
  repeat match goal with E : _ (_ _) = _ |- _ => rewrite E; clear E end. reflexivity.
Qed.

Lemma decode_header_prefix header k :
  zlen header = KSD_FRAME_HEADER_SIZE -> decode_frame_header (header ++ k) = decode_frame_header header.
Proof.
  intros H. unfold zlen in H. apply (Nat2Z.inj _ 24) in H. explode H. reflexivity.
Qed.

Lemma with_payload_id f : with_payload (with_payload f None) (fr_payload f) = f.
Proof. by destruct f. Qed.
Lemma acceptable_payload rules f p :
  frame_header_acceptable rules (with_payload f p) = frame_header_acceptable rules f.
Proof. done. Qed.
Lemma encode_header_payload f p : encode_frame_header (with_payload f p) = encode_frame_header f.
Proof. done. Qed.
Lemma frame_payload_none f : frame_wf f -> fr_payload_length f = 0 -> fr_payload f = None.
Proof. intros (_ & _ & H). apply H. Qed.
Lemma frame_payload_some f :
  frame_wf f -> fr_payload_length f <> 0 -> exists p, fr_payload f = Some p /\ zlen p = fr_payload_length f.
Proof.
  intros (_ & Hl & H) Hne. destruct (fr_payload f) as [p|]; [eauto|]. by destruct Hne, H.
Qed.

Section frame_theorems.
Context {AL : Allocator}.

Lemma pack_writes f : frame_wf f -> writes (ksd_frame_pack f) (frame_bytes f).
Proof.
  intros (Hh & Hl & Hn) b Hb. unfold ksd_frame_pack.
  replace (negb (fr_payload_length f =? 0) && bool_decide (fr_payload f = None)) with false.
  - apply (andthen_writes (put (encode_frame_header f))); [apply put_writes|by apply bytes_writes|done].
  - case_bool_decide as E; [|by rewrite andb_false_r]. apply Hn in E. rewrite E. done.
Qed.

(** Whatever unpack accepts is the wire form of the frame it returns. *)
Lemma unpack_sound rules data f :
  ksd_frame_unpack rules data = Some f ->
  data = frame_bytes f /\ frame_wf f /\ frame_header_acceptable rules f = true.
Proof.
  unfold ksd_frame_unpack. case_if; [|done]. breflect.
  assert (Hd : data = ztake KSD_FRAME_HEADER_SIZE data ++ zdrop KSD_FRAME_HEADER_SIZE data)
    by (symmetry; apply ztake_zdrop).
  assert (Hh : zlen (ztake KSD_FRAME_HEADER_SIZE data) = KSD_FRAME_HEADER_SIZE)
    by (apply zlen_ztake; unfold KSD_FRAME_HEADER_SIZE in *; lia).
  set (h := ztake _ data) in *. set (p := zdrop _ data) in *. rewrite Hd.
  rewrite !decode_header_prefix, zlen_app, Hh by done. case_if; [|done]. breflect.
  destruct (encode_decode_header h Hh) as [He Hwf].
  assert (Hp : zlen p = fr_payload_length (decode_frame_header h)) by lia.
  case_if; breflect.
  - intros [= <-]. unfold frame_bytes. rewrite He. cbn [fr_payload decode_frame_header default].
    split; [|split; [|done]].
    + f_equal. destruct p; [done|]. rewrite zlen_cons in Hp. pose proof (zlen_nonneg p). lia.
    + split; [done|]. by cbn [fr_payload decode_frame_header default] in *; rewrite zlen_nil.
  - case_if; [|done]. intros [= <-].
    change (ksd_decode_u32 _) with (fr_payload_length (decode_frame_header h)).
    rewrite ztake_all by lia. unfold frame_bytes. rewrite encode_header_payload, He.
    split; [done|]. split; [|done]. split; [done|]. split; [by cbn -[decode_frame_header]|].
    split; [done|]. by cbn -[decode_frame_header].
Qed.

Lemma unpack_complete rules f :
  AllocTotal AL -> frame_wf f -> frame_header_acceptable rules f = true ->
  ksd_frame_unpack rules (frame_bytes f) = Some f.
Proof.
  intros HA Hwf Hacc. pose proof Hwf as (Hh & Hl & Hn). unfold ksd_frame_unpack, frame_bytes.
  rewrite decode_encode_header, zlen_app, zlen_header, acceptable_payload, Hacc by (done || apply Hh).
  cbn [with_payload fr_payload_length].
  rewrite <- Hl. pose proof (zlen_nonneg (default [] (fr_payload f))) as Hnn. rewrite <- Hl in Hnn.
  replace (KSD_FRAME_HEADER_SIZE <=? _) with true by lia. rewrite Z.eqb_refl. cbn [andb].
  case_if; breflect; cycle 1; [rewrite alloc_total|].
  - destruct (frame_payload_some f Hwf) as (p & E & Hp); [done|]. rewrite E. cbn [default from_option id].
    replace KSD_FRAME_HEADER_SIZE with (zlen (encode_frame_header f)) by (apply zlen_header, Hh).
    rewrite zdrop_app_l, ztake_all by lia. f_equal. rewrite <- E. apply with_payload_id.
  - f_equal. rewrite <- (with_payload_id f) at 2. by rewrite frame_payload_none.
Qed.

(** A frame survives the wire.  Packing a well-formed frame into a buffer
    with room appends bytes that unpack, under rules the frame satisfies, to
    the same frame. *)
Theorem frame_pack_unpack rules f b :
  AllocTotal AL -> frame_wf f -> frame_header_acceptable rules f = true ->
  buffer_wf b -> buf_length b + KSD_FRAME_HEADER_SIZE + fr_payload_length f <= buf_maximum b ->
  exists b' wire, ksd_frame_pack f b = (true, b') /\ buf_bytes b' = buf_bytes b ++ wire /\
    ksd_frame_unpack rules wire = Some f.
Proof.
  intros HA Hwf Hacc Hb Hroom. pose proof (pack_writes f Hwf b Hb) as Hw.
  destruct (ksd_frame_pack f b) as [ok b']. destruct Hw as (_ & _ & _ & Hok & Ht).
  assert (ok = true) as ->.
  { apply Ht; [done|]. destruct Hwf as ((Hm & _) & Hl & _). unfold frame_bytes.
    rewrite zlen_app, zlen_header, <- Hl by done. lia. }
  exists b', (frame_bytes f). auto using unpack_complete.
Qed.

(** ** Reading from a stream *)

(** A read that returns a frame consumed exactly its wire form. *)
Lemma frame_read_sound rules dl turns stream f stream' turns' :
  ksd_frame_read rules dl turns stream = Some (ReadFrame f, stream', turns') ->
  stream = frame_bytes f ++ stream' /\ frame_wf f /\ frame_header_acceptable rules f = true.
Proof.
  unfold ksd_frame_read.
  destruct (transfer_recv _ _ _ stream []) as [[[r s1] t1]|] eqn:E1; [|done].
  destruct r as [h| | |]; try done.
  apply transfer_recv_done in E1 as (Hh & Hs1 & Hlen); [|by rewrite zlen_nil].
  cbn [app] in *. destruct (encode_decode_header h Hlen) as [He Hwf].
  assert (Hs : stream = h ++ s1) by (subst; by rewrite ztake_zdrop). rewrite Hs.
  case_if; [done|]. breflect. case_if; breflect.
  - intros [= <- <- <-]. unfold frame_bytes. rewrite He. cbn [fr_payload decode_frame_header default from_option].
    rewrite app_nil_r. split; [done|]. split; [|done]. split; [done|].
    by cbn [fr_payload decode_frame_header default from_option] in *; rewrite zlen_nil.
  - case_if; [done|]. destruct (transfer_recv _ _ _ s1 []) as [[[r s2] t2]|] eqn:E2; [|done].
    destruct r as [p| | |]; try done. intros [= <- <- <-].
    apply transfer_recv_done in E2 as (Hp & Hs2 & Hpl); [|apply Hwf]. cbn [app] in *.
    unfold frame_bytes. rewrite encode_header_payload, He. cbn [fr_payload with_payload default from_option id].
    assert (s1 = p ++ s2) as -> by (subst p s2; by rewrite ztake_zdrop).
    rewrite app_assoc. split; [done|]. split; [|done].
    split; [done|]. split; [by cbn -[decode_frame_header]|].
    split; [done|]. by cbn -[decode_frame_header].
Qed.

(** However the kernel cuts the stream into reads and whatever
    interruptions occur, reading a frame from a stream that begins with the
    wire form of an acceptable frame yields that frame and leaves the rest of
    the stream, once enough deliveries have happened. *)
Theorem frame_read_delivers rules dl turns f rest :
  AllocTotal AL -> frame_wf f -> frame_header_acceptable rules f = true ->
  delivering dl POLLIN turns -> zlen (frame_bytes f) <= zlen (filter (fun t => progress t = true) turns) ->
  exists turns', ksd_frame_read rules dl turns (frame_bytes f ++ rest) = Some (ReadFrame f, rest, turns').
Proof.
  intros HA Hwf Hacc Hd Hn. pose proof Hwf as (Hh & Hl & Hno). unfold ksd_frame_read.
  set (h := encode_frame_header f) in *.
  assert (Hhl : zlen h = KSD_FRAME_HEADER_SIZE) by (apply zlen_header, Hh).
  unfold frame_bytes in *. fold h. fold h in Hn. rewrite zlen_app, <- Hl in Hn. rewrite <- app_assoc.
  set (p := default [] (fr_payload f)) in *. assert (0 <= zlen p) by auto with ksd.
  assert (0 <= zlen rest) by auto with ksd. assert (0 <= zlen h) by auto with ksd.
  destruct (transfer_recv_split dl KSD_FRAME_HEADER_SIZE turns (h ++ p ++ rest)) as (t1 & -> & Hd1 & Hn1);
    [done|rewrite !zlen_app; lia|lia|]. rewrite <- Hhl, ztake_app_l, zdrop_app_l.
  rewrite <- (app_nil_r h). unfold h. rewrite decode_encode_header, acceptable_payload, Hacc by done.
  cbn [with_payload fr_payload_length negb]. case_if; breflect.
  - exists t1. assert (p = []) as ->.
    { unfold p. by rewrite frame_payload_none. }
    cbn. do 3 f_equal. rewrite <- (with_payload_id f) at 2. by rewrite frame_payload_none.
  - rewrite alloc_total. cbn [negb].
    destruct (transfer_recv_split dl (fr_payload_length f) t1 (p ++ rest)) as (t2 & -> & _);
      [done|rewrite zlen_app; lia|lia|]. exists t2.
    rewrite Hl, ztake_app_l, zdrop_app_l. destruct (frame_payload_some f Hwf) as (q & E & Hq); [done|].
    unfold p. rewrite E. cbn. do 4 f_equal. rewrite <- E. apply with_payload_id.
Qed.
End frame_theorems.

(** Concrete frames for the witnesses. *)
Definition ksd_public_magic : list byte :=
  [z2b KSD_FRAME_MAGIC_0; z2b KSD_FRAME_MAGIC_1; z2b KSD_FRAME_MAGIC_2; z2b KSD_FRAME_MAGIC_3].
Definition public_rules (maximum_payload : Z) : frame_rules :=
  mk_rules ksd_public_magic KSD_PROTOCOL_MAJOR KSD_PROTOCOL_MINOR maximum_payload true.
Definition sample_frame : ksd_frame :=
  mk_frame ksd_public_magic KSD_PROTOCOL_MAJOR KSD_PROTOCOL_MINOR KSD_OP_PING 0 3 7 (Some (cstr "abc"%string)).
Lemma sample_frame_wf : frame_wf sample_frame.
Proof. unfold frame_wf, header_wf, is_u16, is_u32, is_u64. cbn. by repeat split; try lia. Qed.
#[local] Existing Instance infinite_memory.

Lemma frame_pack_unpack_witness :
  exists b' wire, ksd_frame_pack sample_frame (ksd_buffer_init 64) = (true, b') /\
    buf_bytes b' = [] ++ wire /\ ksd_frame_unpack (public_rules 4096) wire = Some sample_frame.
Proof.
  apply (frame_pack_unpack (public_rules 4096) sample_frame (ksd_buffer_init 64)).
  - apply infinite_memory_total.
  - apply sample_frame_wf.
  - vm_compute. reflexivity.
  - apply buffer_init_wf. vm_compute. split; discriminate.
  - vm_compute. discriminate.
Defined.

Definition sample_turn : io_turn := mk_turn [mk_wait 1 PollIntr; mk_wait 2 (PollReady POLLIN)] (IoBytes 5).

Lemma frame_read_delivers_witness :
  exists turns', ksd_frame_read (public_rules 4096) 1000 (repeat sample_turn 27)
    (frame_bytes sample_frame ++ [x01; x02]) = Some (ReadFrame sample_frame, [x01; x02], turns').
Proof.
  apply (frame_read_delivers (public_rules 4096) 1000 (repeat sample_turn 27) sample_frame [x01; x02]).
  - apply infinite_memory_total.
  - apply sample_frame_wf.
  - vm_compute. reflexivity.
  - repeat (constructor; [split; [reflexivity|right; reflexivity]|]). constructor.
  - vm_compute. discriminate.
Defined.
