(* ===== verification/Assembly.v ===== *)
(** * Reassembly of chunked requests (src/protocol_io.c)

    [ksd_request_assembly] as a state machine over the frames of a connection,
    its invariant, and its abstract specification: feeding it a request cut
    into chunks gives the request back, and nothing else completes. *)
From Stdlib Require Import ZArith Lia Strings.Byte Strings.String.
From stdpp Require Import base list option numbers tactics.
From S2P Require Import Prelude.
From S2P Require Import Protocol.
From S2P Require Import Codec.
From S2P Require Import Buffer.
From S2P Require Import Frame.
Local Open Scope Z_scope.
Local Open Scope ksd_scope.

Inductive ksd_assembly_result := KSD_ASSEMBLY_INVALID | KSD_ASSEMBLY_PENDING | KSD_ASSEMBLY_COMPLETE.

Record ksd_request_assembly := mk_assembly {
  as_payload : ksd_buffer;
  as_request_id : Z;
  as_opcode : Z;
  as_active : bool;
  as_complete : bool;
}.

Definition ksd_request_assembly_init : ksd_request_assembly :=
  mk_assembly (ksd_buffer_init KSD_MAX_REQUEST_TOTAL_PAYLOAD) 0 0 false false.

Definition ksd_request_assembly_clear (assembly : ksd_request_assembly) : ksd_request_assembly :=
  mk_assembly (ksd_buffer_init KSD_MAX_REQUEST_TOTAL_PAYLOAD) 0 0 false false.

Definition ksd_request_assembly_active (assembly : ksd_request_assembly) : bool := as_active assembly.

Section assembly.
Context {AL : Allocator}.

Definition ksd_request_assembly_accept (assembly : ksd_request_assembly) (frame : ksd_frame)
    : ksd_assembly_result * ksd_request_assembly :=
  match fr_payload frame with
  | None => (KSD_ASSEMBLY_INVALID, assembly)
  | Some payload =>
    if negb (ksd_frame_is_request frame) || (fr_request_id frame =? 0)
       || (fr_payload_length frame =? 0) || (KSD_MAX_REQUEST_PAYLOAD <? fr_payload_length frame)
    then (KSD_ASSEMBLY_INVALID, assembly)
    else
      let more := has_flag frame KSD_FLAG_MORE in
      if negb (fr_flags frame =? (if more then KSD_FLAG_MORE else 0))
         || (more && negb (fr_payload_length frame =? KSD_MAX_REQUEST_PAYLOAD))
      then (KSD_ASSEMBLY_INVALID, assembly)
      else
        let append := ksd_buffer_bytes (Some payload) (fr_payload_length frame) in
        let with_buffer b := mk_assembly b (as_request_id assembly) (as_opcode assembly)
                               (as_active assembly) (as_complete assembly) in
        if negb (as_active assembly) then
          if negb more then (KSD_ASSEMBLY_INVALID, assembly)
          else
            let '(ok, buffer) := append (as_payload assembly) in
            if negb ok then (KSD_ASSEMBLY_INVALID, with_buffer buffer)
            else (KSD_ASSEMBLY_PENDING,
                  mk_assembly buffer (fr_request_id frame) (fr_opcode frame) true false)
        else if negb (fr_opcode frame =? as_opcode assembly)
                || negb (fr_request_id frame =? as_request_id assembly)
        then (KSD_ASSEMBLY_INVALID, assembly)
        else
          let '(ok, buffer) := append (as_payload assembly) in
          if negb ok then (KSD_ASSEMBLY_INVALID, with_buffer buffer)
          else (if more then KSD_ASSEMBLY_PENDING else KSD_ASSEMBLY_COMPLETE,
                mk_assembly buffer (as_request_id assembly) (as_opcode assembly) true (negb more))
  end.

(** The payload's data pointer is NULL exactly when nothing was allocated. *)
Definition ksd_request_assembly_take (assembly : ksd_request_assembly)
    : option (ksd_frame * ksd_request_assembly) :=
  let payload := as_payload assembly in
  guard* as_active assembly && as_complete assembly && negb (buf_capacity payload =? 0)
         && negb (buf_length payload =? 0)
         && (buf_length payload <=? KSD_MAX_REQUEST_TOTAL_PAYLOAD) in
  Some (mk_frame ksd_public_magic KSD_PROTOCOL_MAJOR KSD_PROTOCOL_MINOR (as_opcode assembly) 0
          (u32 (buf_length payload)) (as_request_id assembly) (Some (buf_bytes payload)),
        ksd_request_assembly_clear assembly).

(** Feeding frames in order: the results, and the state after them. *)
Fixpoint assembly_feed (assembly : ksd_request_assembly) (frames : list ksd_frame)
    : list ksd_assembly_result * ksd_request_assembly :=
  match frames with
  | [] => ([], assembly)
  | frame :: frames =>
    let '(result, assembly) := ksd_request_assembly_accept assembly frame in
    let '(results, assembly) := assembly_feed assembly frames in
    (result :: results, assembly)
  end.
End assembly.

(** The request frames the client library cuts a payload into (src/client.c,
    [write_request]); [payload] is [None] for a NULL pointer. *)
Fixpoint request_chunks (fuel : nat) (opcode request_id payload_length offset : Z)
    (payload : option (list byte)) : option (list ksd_frame) :=
  match fuel with
  | O => None
  | S fuel =>
    let remaining := payload_length - offset in
    let more := KSD_MAX_REQUEST_PAYLOAD <? remaining in
    let length := if more then KSD_MAX_REQUEST_PAYLOAD else remaining in
    let request := mk_frame ksd_public_magic KSD_PROTOCOL_MAJOR KSD_PROTOCOL_MINOR opcode
      (if more then KSD_FLAG_MORE else 0) length request_id
      (option_map (fun p => ztake length (zdrop offset p)) payload) in
    if offset + length <? payload_length then
      let* rest := request_chunks fuel opcode request_id payload_length (offset + length) payload in
      Some (request :: rest)
    else Some [request]
  end.

Definition request_fuel : nat := Z.to_nat (KSD_MAX_REQUEST_TOTAL_PAYLOAD / KSD_MAX_REQUEST_PAYLOAD + 1).

Definition write_request (opcode request_id payload_length : Z) (payload : option (list byte))
    : option (list ksd_frame) :=
  guard* (payload_length <=? KSD_MAX_REQUEST_TOTAL_PAYLOAD)
         && ((payload_length =? 0) || bool_decide (payload <> None)) in
  request_chunks request_fuel opcode request_id payload_length 0 payload.

(** ** The invariant of an assembly *)

Definition fr_data (f : ksd_frame) : list byte := default [] (fr_payload f).
Definition fr_more (f : ksd_frame) : bool := has_flag f KSD_FLAG_MORE.

Section assembly_theorems.
Context {AL : Allocator}.

(** What an accepted frame of the exchange ([opcode], [id]) satisfies. *)
Definition chunk_ok (opcode id : Z) (f : ksd_frame) : Prop :=
  fr_opcode f = opcode /\ fr_request_id f = id /\ id <> 0 /\
  0 < zlen (fr_data f) <= KSD_MAX_REQUEST_PAYLOAD /\
  (fr_more f = true -> zlen (fr_data f) = KSD_MAX_REQUEST_PAYLOAD).

(** The assembly [a] holds the frames [fs], accepted in this order. *)
Definition assembly_holds (fs : list ksd_frame) (a : ksd_request_assembly) : Prop :=
  buffer_wf (as_payload a) /\ buf_maximum (as_payload a) = KSD_MAX_REQUEST_TOTAL_PAYLOAD /\
  buf_bytes (as_payload a) = concat (map fr_data fs) /\
  Forall (chunk_ok (as_opcode a) (as_request_id a)) fs /\
  as_active a = negb (bool_decide (fs = [])) /\
  as_complete a = match list.last fs with Some f => negb (fr_more f) | None => false end.

Lemma assembly_init_holds : assembly_holds [] ksd_request_assembly_init.
Proof. by split; [apply buffer_init_wf; vm_compute|]. Qed.

(** One accepted frame extends what the assembly holds. *)
Lemma accept_extends fs a f :
  assembly_holds fs a -> frame_wf f ->
  let '(r, a') := ksd_request_assembly_accept a f in
  match r with
  | KSD_ASSEMBLY_INVALID => True
  | KSD_ASSEMBLY_PENDING => assembly_holds (fs ++ [f]) a' /\ fr_more f = true
  | KSD_ASSEMBLY_COMPLETE => assembly_holds (fs ++ [f]) a' /\ fr_more f = false /\ fs <> []
  end.
Proof.
  intros (Hb & Hm & Hd & Hall & Hact & Hcomp) (Hh & Hl & Hn). unfold ksd_request_assembly_accept.
  destruct (fr_payload f) as [p|] eqn:Hp; [|done].
  case_if; [done|]. case_if; [done|]. breflect. cbn [from_option default id] in Hl.
  assert (Hfd : fr_data f = p) by (unfold fr_data; by rewrite Hp).
  pose proof (put_writes p (as_payload a) Hb) as Hw. unfold put in Hw. rewrite <- Hl in Hw.
  destruct (ksd_buffer_bytes _ _ _) as [[] b']; destruct Hw as (Hb' & Hm' & _ & Hok & _);
    [specialize (Hok eq_refl)|by case_ifs].
  assert (Hnew : forall op id, fr_opcode f = op -> fr_request_id f = id -> id <> 0 ->
    Forall (chunk_ok op id) fs ->
    assembly_holds (fs ++ [f]) (mk_assembly b' id op true (negb (fr_more f)))).
  { intros op id Hop Hid Hid0 Hfs. pose proof (zlen_nonneg p). split; [done|]. split; [cbn; congruence|].
    split; [|split; [|split]]; cbn [as_payload as_opcode as_request_id as_active as_complete].
    - rewrite map_app, concat_app. cbn. rewrite app_nil_r, Hfd. congruence.
    - apply Forall_app. split; [done|]. constructor; [|done]. split; [done|]. split; [done|].
      split; [done|]. rewrite Hfd, <- Hl. split; [lia|]. unfold fr_more. intros E. rewrite E in *.
      by destruct H0.
    - by destruct fs.
    - by rewrite last_snoc. }
  fold (fr_more f). destruct (as_active a) eqn:Ha; cbn [negb].
  - case_if; [done|]. breflect. specialize (Hnew _ _ H5 H6 ltac:(congruence) Hall).
    destruct (fr_more f); split; try done. split; [done|]. by destruct fs.
  - destruct fs as [|g fs]; [|done]. destruct (fr_more f) eqn:Hmf; cbn [negb]; [|done].
    split; [|done]. by apply Hnew.
Qed.

(** Frames that were all pending before the last, which completed. *)
Definition completed_run (frames : list ksd_frame) (a : ksd_request_assembly) : Prop :=
  assembly_feed ksd_request_assembly_init frames =
  (repeat KSD_ASSEMBLY_PENDING (length frames - 1) ++ [KSD_ASSEMBLY_COMPLETE], a).

Definition result_of (f : ksd_frame) : ksd_assembly_result :=
  if fr_more f then KSD_ASSEMBLY_PENDING else KSD_ASSEMBLY_COMPLETE.

Lemma feed_holds frames fs a rs a' :
  Forall frame_wf frames -> assembly_holds fs a -> assembly_feed a frames = (rs, a') ->
  KSD_ASSEMBLY_INVALID ∉ rs ->
  assembly_holds (fs ++ frames) a' /\ rs = map result_of frames.
Proof.
  revert fs a rs. induction frames as [|f frames IH]; intros fs a rs Hw Ha; cbn [assembly_feed].
  - intros [= <- <-] _. by rewrite app_nil_r.
  - apply Forall_cons_1 in Hw as [Hf Hw]. pose proof (accept_extends fs a f Ha Hf) as Hacc.
    destruct (ksd_request_assembly_accept a f) as [r a1].
    destruct (assembly_feed a1 frames) as [rs1 a2] eqn:E. intros [= <- <-] Hin.
    apply not_elem_of_cons in Hin as [Hr Hin]. rewrite (cons_middle f fs frames), app_assoc.
    destruct r; [done| |].
    + destruct Hacc as [Ha1 Hm]. destruct (IH _ _ _ Hw Ha1 E Hin) as [H ->]. split; [done|].
      cbn. unfold result_of at 2. by rewrite Hm.
    + destruct Hacc as (Ha1 & Hm & _). destruct (IH _ _ _ Hw Ha1 E Hin) as [H ->]. split; [done|].
      cbn. unfold result_of at 2. by rewrite Hm.
Qed.

(** The payload length of a sequence of chunks, all full but the last. *)
Lemma chunks_length op id fs :
  Forall (chunk_ok op id) fs -> Forall (fun f => fr_more f = true) fs ->
  zlen (concat (map fr_data fs)) = zlen fs * KSD_MAX_REQUEST_PAYLOAD.
Proof.
  induction 1 as [|f fs (_ & _ & _ & _ & Hf) _ IH]; intros Hm; [done|].
  apply Forall_cons_1 in Hm as [Hmf Hm]. cbn [map concat]. rewrite zlen_app, zlen_cons, IH, Hf by done. lia.
Qed.

(** What taking a completed run gives. *)
Lemma assembly_take_spec frames a :
  Forall frame_wf frames -> completed_run frames a ->
  exists f, ksd_request_assembly_take a = Some (f, ksd_request_assembly_init) /\
    fr_payload f = Some (concat (map fr_data frames)) /\ fr_flags f = 0 /\ fr_request_id f <> 0 /\
    fr_payload_length f = zlen (fr_data f) /\
    Forall (fun g => fr_opcode g = fr_opcode f /\ fr_request_id g = fr_request_id f) frames /\
    (zlen frames - 1) * KSD_MAX_REQUEST_PAYLOAD < fr_payload_length f
      <= Z.min (zlen frames * KSD_MAX_REQUEST_PAYLOAD) KSD_MAX_REQUEST_TOTAL_PAYLOAD.
Proof.
  intros Hw Hrun. unfold completed_run in Hrun.
  apply (feed_holds _ [] _ _ _ Hw assembly_init_holds) in Hrun as [(Hb & Hmx & Hd & Hall & Hact & Hcomp) Hrs].
  2:{ intros [H|H]%elem_of_app; [by apply list_elem_of_In, repeat_spec in H|]. by apply list_elem_of_singleton in H. }
  cbn [app] in *. destruct (exists_last (l := frames)) as (fs & f & ->).
  { intros ->. done. }
  rewrite length_app, map_app in Hrs. cbn [length map] in Hrs.
  replace (length fs + 1 - 1)%nat with (length (map result_of fs)) in Hrs by (rewrite length_map; lia).
  apply app_inj_1 in Hrs as [Hrs Hlast]; [|by rewrite repeat_length].
  assert (Hmf : fr_more f = false).
  { unfold result_of in Hlast. by destruct (fr_more f). }
  assert (Hms : Forall (fun g => fr_more g = true) fs).
  { apply Forall_forall. intros g Hg. destruct (fr_more g) eqn:E; [done|].
    assert (In KSD_ASSEMBLY_COMPLETE (map result_of fs)) as Hin.
    { apply in_map_iff. exists g. split; [unfold result_of; by rewrite E|done]. }
    rewrite <- Hrs in Hin. by apply repeat_spec in Hin. }
  assert (Hactive : as_active a = true) by (rewrite Hact; by destruct fs).
  assert (Hc : as_complete a = true) by (rewrite Hcomp, last_snoc, Hmf; done).
  pose proof Hall as Hall2. apply Forall_app in Hall2 as [Hfs Hf]. apply Forall_cons_1 in Hf as [Hf _].
  pose proof Hf as (_ & _ & Hid & Hfl & _).
  assert (Hlen : buf_length (as_payload a) = zlen fs * KSD_MAX_REQUEST_PAYLOAD + zlen (fr_data f)).
  { unfold buf_length. rewrite Hd, map_app, concat_app, zlen_app. cbn. rewrite app_nil_r.
    by rewrite (chunks_length _ _ fs Hfs Hms). }
  pose proof (zlen_nonneg fs). destruct Hb as (Hcap & Hmax & _). rewrite Hmx in Hmax.
  assert (Hu : u32 (buf_length (as_payload a)) = buf_length (as_payload a)).
  { apply u32_id. unfold is_u32, KSD_MAX_REQUEST_TOTAL_PAYLOAD, KSD_MAX_REQUEST_PAYLOAD in *. lia. }
  unfold KSD_MAX_REQUEST_PAYLOAD in Hlen.
  unfold ksd_request_assembly_take. rewrite Hactive, Hc. cbn [andb].
  replace (buf_capacity (as_payload a) =? 0) with false by lia.
  replace (buf_length (as_payload a) =? 0) with false by lia.
  replace (buf_length (as_payload a) <=? _) with true by lia. cbn [negb andb].
  eexists. split; [reflexivity|]. cbn [fr_payload fr_flags fr_request_id fr_payload_length fr_opcode].
  rewrite Hu, Hd. unfold KSD_MAX_REQUEST_PAYLOAD in *. assert (Hz : zlen (fs ++ [f]) = zlen fs + 1) by (rewrite zlen_app; done).
  repeat split; try done; try lia.
  - unfold buf_length. by rewrite Hd.
  - eapply Forall_impl; [|exact Hall]. cbn beta. intros g (? & ? & _). done.
Qed.

(** C28: Soundness of reassembly.  When a sequence of well-formed frames is
    accepted as pending until the last one completes it, taking the assembly
    gives one request whose payload is the concatenation of the chunks, with
    the opcode and nonzero request id that every chunk carried and no flags;
    every chunk but the last was exactly [KSD_MAX_REQUEST_PAYLOAD] bytes, the
    total is at most [KSD_MAX_REQUEST_TOTAL_PAYLOAD], and the assembly is left
    empty. *)
Theorem assembly_sound frames a :
  Forall frame_wf frames -> completed_run frames a ->
  exists f, ksd_request_assembly_take a = Some (f, ksd_request_assembly_init) /\
    fr_payload f = Some (concat (map fr_data frames)) /\ fr_flags f = 0 /\ fr_request_id f <> 0 /\
    fr_payload_length f = zlen (fr_data f) /\
    Forall (fun g => fr_opcode g = fr_opcode f /\ fr_request_id g = fr_request_id f) frames /\
    (zlen frames - 1) * KSD_MAX_REQUEST_PAYLOAD < fr_payload_length f
      <= Z.min (zlen frames * KSD_MAX_REQUEST_PAYLOAD) KSD_MAX_REQUEST_TOTAL_PAYLOAD.
Proof. apply assembly_take_spec. Qed.

(** ** The client's chunks *)

Definition chunk_frame (opcode id : Z) (more : bool) (p : list byte) : ksd_frame :=
  mk_frame ksd_public_magic KSD_PROTOCOL_MAJOR KSD_PROTOCOL_MINOR opcode
    (if more then KSD_FLAG_MORE else 0) (zlen p) id (Some p).

Lemma chunk_frame_wf opcode id more p :
  is_u16 opcode -> is_u64 id -> 0 < zlen p <= KSD_MAX_REQUEST_PAYLOAD ->
  frame_wf (chunk_frame opcode id more p).
Proof.
  intros ? ? Hp. unfold KSD_MAX_REQUEST_PAYLOAD in Hp.
  split; [|split; [done|cbn; split; [done|lia]]].
  split; [done|]. split; [by vm_compute|]. split; [by vm_compute|]. split; [done|].
  split; [by destruct more; vm_compute|]. split; [cbn; unfold is_u32; lia|done].
Qed.

(** A chunk in sequence, with room for it, is accepted. *)
Lemma accept_chunk fs a opcode id more p :
  AllocTotal AL -> assembly_holds fs a -> id <> 0 -> 0 < zlen p <= KSD_MAX_REQUEST_PAYLOAD ->
  (more = true -> zlen p = KSD_MAX_REQUEST_PAYLOAD) -> (fs = [] -> more = true) ->
  (fs <> [] -> as_opcode a = opcode /\ as_request_id a = id) ->
  buf_length (as_payload a) + zlen p <= KSD_MAX_REQUEST_TOTAL_PAYLOAD ->
  exists b', ksd_request_assembly_accept a (chunk_frame opcode id more p) =
    (if more then KSD_ASSEMBLY_PENDING else KSD_ASSEMBLY_COMPLETE,
     mk_assembly b' id opcode true (negb more)).
Proof.
  intros HA (Hb & Hm & _ & _ & Hact & _) Hid Hp Hfull Hfirst Hsame Hroom.
  unfold ksd_request_assembly_accept.
  cbn [chunk_frame fr_payload fr_request_id fr_payload_length fr_flags fr_opcode].
  assert (ksd_frame_is_request (chunk_frame opcode id more p) = true) as -> by (by destruct more).
  assert (has_flag (chunk_frame opcode id more p) KSD_FLAG_MORE = more) as -> by (by destruct more).
  replace (id =? 0) with false by lia. replace (zlen p =? 0) with false by lia.
  replace (KSD_MAX_REQUEST_PAYLOAD <? zlen p) with false by lia. cbn [negb orb].
  rewrite Z.eqb_refl. cbn [negb orb].
  replace (more && negb (zlen p =? KSD_MAX_REQUEST_PAYLOAD)) with false
    by (destruct more; [rewrite Hfull, Z.eqb_refl|]; done).
  pose proof (put_writes p (as_payload a) Hb) as Hw. unfold put in Hw.
  destruct (ksd_buffer_bytes _ _ _) as [ok b']. destruct Hw as (_ & _ & _ & _ & Ht).
  rewrite (Ht HA) by (by rewrite Hm). rewrite Hact. case_bool_decide as Hfs; cbn [negb].
  - rewrite (Hfirst Hfs). cbn. eauto.
  - destruct (Hsame Hfs) as [-> ->]. rewrite !Z.eqb_refl. cbn. eauto.
Qed.

Lemma chunks_feed opcode id payload fuel : forall offset fs a,
  AllocTotal AL -> is_u16 opcode -> is_u64 id -> id <> 0 ->
  zlen payload <= KSD_MAX_REQUEST_TOTAL_PAYLOAD ->
  assembly_holds fs a -> 0 <= offset < zlen payload ->
  buf_bytes (as_payload a) = ztake offset payload ->
  (fs = [] -> KSD_MAX_REQUEST_PAYLOAD < zlen payload - offset) ->
  (fs <> [] -> as_opcode a = opcode /\ as_request_id a = id) ->
  zlen payload - offset <= Z.of_nat fuel * KSD_MAX_REQUEST_PAYLOAD ->
  exists frames a', request_chunks fuel opcode id (zlen payload) offset (Some payload) = Some frames /\
    assembly_feed a frames = (repeat KSD_ASSEMBLY_PENDING (length frames - 1) ++ [KSD_ASSEMBLY_COMPLETE], a') /\
    frames <> [] /\
    Forall (fun f => exists more p, f = chunk_frame opcode id more p /\
                     0 < zlen p <= KSD_MAX_REQUEST_PAYLOAD) frames /\
    concat (map fr_data frames) = zdrop offset payload.
Proof.
  induction fuel as [|fuel IH]; intros offset fs a HA Hop Hidr Hid Hlen Ha Ho Hd Hfirst Hsame Hfuel;
    cbn [request_chunks]; [lia|].
  set (more := KSD_MAX_REQUEST_PAYLOAD <? zlen payload - offset).
  set (n := if more then KSD_MAX_REQUEST_PAYLOAD else zlen payload - offset).
  set (p := ztake n (zdrop offset payload)).
  assert (Hn : 0 < n <= KSD_MAX_REQUEST_PAYLOAD /\ n <= zlen payload - offset /\
               (more = true -> n = KSD_MAX_REQUEST_PAYLOAD) /\
               (offset + n <? zlen payload) = more).
  { unfold n, more. case_if; breflect; unfold KSD_MAX_REQUEST_PAYLOAD in *; repeat split; lia. }
  destruct Hn as (Hn & Hnr & Hfull & Hcont).
  assert (Hp : zlen p = n) by (unfold p; rewrite zlen_ztake; [done|rewrite zlen_zdrop; lia]).
  assert (Hb : buf_length (as_payload a) = offset) by (unfold buf_length; rewrite Hd, zlen_ztake; lia).
  destruct (accept_chunk fs a opcode id more p) as (b' & Hacc); try done;
    [lia|intros; rewrite Hp; auto|intros E; specialize (Hfirst E); unfold more; lia|lia|].
  cbn [option_map]. fold p. rewrite <- Hp. fold (chunk_frame opcode id more p). rewrite Hp, Hcont.
  pose proof (accept_extends fs a _ Ha (chunk_frame_wf opcode id more p Hop Hidr ltac:(lia))) as Hext.
  rewrite Hacc in Hext.
  destruct more eqn:Hmore.
  - destruct Hext as [Ha1 _].
    set (a1 := mk_assembly b' id opcode true (negb true)) in *.
    assert (Hb1 : buf_bytes (as_payload a1) = ztake (offset + n) payload).
    { destruct Ha as (_ & _ & Hd0 & _). destruct Ha1 as (_ & _ & -> & _).
      rewrite map_app, concat_app, <- Hd0, Hd. cbn. rewrite app_nil_r. unfold p, ztake, zdrop.
      rewrite Z2Nat.inj_add by lia. symmetry. by rewrite <- take_take_drop. }
    destruct (IH (offset + n) (fs ++ [chunk_frame opcode id true p]) a1)
      as (frames & a' & -> & Hfeed & Hne & Hall & Hcat); try done; try lia.
    { intros E. by destruct fs. }
    exists (chunk_frame opcode id true p :: frames), a'. split; [done|].
    split; [|split; [done|split]].
    + cbn [assembly_feed length]. rewrite Hacc, Hfeed. destruct frames as [|g frames]; [done|].
      cbn [length]. by replace (S (S (length frames)) - 1)%nat with (S (S (length frames) - 1)) by lia.
    + constructor; [|done]. exists true, p. split; [done|lia].
    + cbn [map concat]. rewrite Hcat. unfold fr_data at 1; cbn [chunk_frame fr_payload default from_option Datatypes.id].
      unfold p. rewrite <- zdrop_zdrop by lia. apply ztake_zdrop.
  - destruct Hext as (Ha1 & _). eexists [_], _. split; [reflexivity|].
    split; [|split; [done|split]].
    + cbn [assembly_feed]. by rewrite Hacc.
    + constructor; [|done]. exists false, p. split; [done|lia].
    + cbn [map concat]. rewrite app_nil_r. unfold fr_data; cbn [chunk_frame fr_payload default from_option Datatypes.id].
      unfold p. apply ztake_all. rewrite zlen_zdrop by lia. unfold n in *. lia.
Qed.

(** A large request survives chunking.  For every payload longer than one
    frame and within the total limit, the client cuts it into frames that are
    well formed and acceptable to the service's public rules; feeding them to
    an empty assembly is pending until the last completes it, and taking it
    gives back one frame with the request's opcode, id and exact payload. *)
Theorem write_request_assembles opcode id payload :
  AllocTotal AL -> is_u16 opcode -> is_u64 id -> id <> 0 ->
  KSD_MAX_REQUEST_PAYLOAD < zlen payload <= KSD_MAX_REQUEST_TOTAL_PAYLOAD ->
  exists frames a f, write_request opcode id (zlen payload) (Some payload) = Some frames /\
    Forall (fun g => frame_wf g /\
              frame_header_acceptable (public_rules KSD_MAX_REQUEST_PAYLOAD) g = true) frames /\
    completed_run frames a /\ ksd_request_assembly_take a = Some (f, ksd_request_assembly_init) /\
    fr_opcode f = opcode /\ fr_request_id f = id /\ fr_payload f = Some payload.
Proof.
  intros HA Hop Hidr Hid Hlen.
  destruct (chunks_feed opcode id payload request_fuel 0 [] ksd_request_assembly_init)
    as (frames & a & Hch & Hfeed & Hne & Hall & Hcat); try done; try lia.
  { unfold KSD_MAX_REQUEST_PAYLOAD in *. lia. }
  { change (Z.of_nat request_fuel) with 1025. unfold KSD_MAX_REQUEST_PAYLOAD, KSD_MAX_REQUEST_TOTAL_PAYLOAD in *. lia. }
  assert (Hwf : Forall frame_wf frames).
  { eapply Forall_impl; [|exact Hall]. cbn beta. intros g (m & p & -> & ?). by apply chunk_frame_wf. }
  destruct (assembly_take_spec frames a Hwf Hfeed) as (f & Htake & Hpay & _ & _ & _ & Hsame & _).
  rewrite Hcat in Hpay.
  exists frames, a, f. split.
  { unfold write_request. replace (zlen payload <=? _) with true by lia. cbn [andb].
    by rewrite orb_true_r. }
  split; [|split; [done|split; [done|]]].
  - eapply Forall_impl; [|exact Hall]. cbn beta.
    intros g (m & p & -> & Hp). split; [by apply chunk_frame_wf|].
    unfold frame_header_acceptable, valid_public_header, chunk_frame, has_flag.
    cbn [fr_magic fr_major fr_minor fr_payload_length fr_request_id fr_flags public_rules rule_magic rule_major
         rule_minor rule_maximum_payload rule_public].
    replace (zlen p <=? KSD_MAX_REQUEST_PAYLOAD) with true by lia.
    replace (id =? 0) with false by lia. by destruct m.
  - destruct frames as [|g frames]; [done|]. apply Forall_cons_1 in Hall as [(m & p & -> & _) _].
    apply Forall_cons_1 in Hsame as [[Ho Hi] _]. cbn in Ho, Hi. done.
Qed.
End assembly_theorems.

Section assembly_witnesses.
#[local] Existing Instance infinite_memory.

Definition two_chunks : list ksd_frame :=
  [chunk_frame 64 9 true (repeat x01 4096); chunk_frame 64 9 false [x02; x03]].

Lemma assembly_sound_witness :
  let a := snd (assembly_feed ksd_request_assembly_init two_chunks) in
  exists f, ksd_request_assembly_take a = Some (f, ksd_request_assembly_init) /\
    fr_payload f = Some (concat (map fr_data two_chunks)) /\ fr_flags f = 0 /\ fr_request_id f <> 0 /\
    fr_payload_length f = zlen (fr_data f) /\
    Forall (fun g => fr_opcode g = fr_opcode f /\ fr_request_id g = fr_request_id f) two_chunks /\
    (zlen two_chunks - 1) * KSD_MAX_REQUEST_PAYLOAD < fr_payload_length f
      <= Z.min (zlen two_chunks * KSD_MAX_REQUEST_PAYLOAD) KSD_MAX_REQUEST_TOTAL_PAYLOAD.
Proof.
  apply (assembly_sound two_chunks).
  - repeat constructor; try (by vm_compute); try done.
  - vm_compute. reflexivity.
Defined.

Lemma write_request_assembles_witness :
  exists frames a f, write_request 64 9 (zlen (repeat x01 5000)) (Some (repeat x01 5000)) = Some frames /\
    Forall (fun g => frame_wf g /\
              frame_header_acceptable (public_rules KSD_MAX_REQUEST_PAYLOAD) g = true) frames /\
    completed_run frames a /\ ksd_request_assembly_take a = Some (f, ksd_request_assembly_init) /\
    fr_opcode f = 64 /\ fr_request_id f = 9 /\ fr_payload f = Some (repeat x01 5000).
Proof.
  apply (write_request_assembles 64 9 (repeat x01 5000)).
  - apply infinite_memory_total.
  - by vm_compute.
  - by vm_compute.
  - done.
  - by vm_compute.
Defined.
End assembly_witnesses.
