(* ===== verification/Operations.v ===== *)
(** * Operations, scopes and backend masks (src/operation_scope.c, src/backend.c, src/kwin_lanes.c)

    Which permission an opcode needs, which availability bit it has, what each
    backend can serve at most, how a session daemon's registration narrows that
    and how the acknowledgement reports it, and which KWin script lane a verb
    takes.  A C switch is a table searched in order, [switch]. *)
From Stdlib Require Import ZArith Lia Strings.Byte Strings.String.
From stdpp Require Import base list option numbers tactics.
From S2P Require Import Prelude.
From S2P Require Import Protocol.
From S2P Require Import Codec.
From S2P Require Import Frame.
Local Open Scope Z_scope.
Local Open Scope ksd_scope.

(** The first case of a switch that matches, or the default. *)
Fixpoint switch {A} (value : Z) (cases : list (Z * A)) (default : A) : A :=
  match cases with
  | [] => default
  | (case, result) :: cases => if value =? case then result else switch value cases default
  end.

Definition any_of (value : Z) (values : list Z) : bool := existsb (Z.eqb value) values.

(** The disjunction of flags. *)
Definition flags (l : list Z) : Z := fold_left Z.lor l 0.

(** ** Scopes *)

Definition ksd_operation_scope (opcode : Z) : Z :=
  if any_of opcode [KSD_OP_CAPTURE_AREA; KSD_OP_CAPTURE_WINDOW; KSD_OP_CAPTURE_DESKTOP]
  then KSP_SCOPE_SCREEN_CAPTURE
  else if any_of opcode [KSD_OP_WINDOW_LIST; KSD_OP_WINDOW_ACTIVE; KSD_OP_WINDOW_WATCH;
                         KSD_OP_WINDOW_QUERY; KSD_OP_WINDOW_CHILDREN; KSD_OP_WINDOW_AT_POINT]
  then KSP_SCOPE_WINDOW_MONITORING
  else if ((KSD_OP_WINDOW_FOCUS <=? opcode) && (opcode <=? KSD_OP_WINDOW_SET_SKIP_TASKBAR))
          || any_of opcode [KSD_OP_WINDOW_SET_TITLE; KSD_OP_WINDOW_SET_VISIBLE; KSD_OP_WINDOW_REDRAW;
                            KSD_OP_WINDOW_CLICK; KSD_OP_WINDOW_BUTTON; KSD_OP_WINDOW_FOCUS_CHILD]
  then KSP_SCOPE_WINDOW_CONTROL
  else if (KSD_OP_CLIPBOARD_MIMETYPES <=? opcode) && (opcode <=? KSD_OP_CLIPBOARD_WATCH)
  then KSP_SCOPE_CLIPBOARD_MONITORING
  else if (KSD_OP_MOUSE_MOVE_ABSOLUTE <=? opcode) && (opcode <=? KSD_OP_MOUSE_SCROLL)
  then KSP_SCOPE_INPUT_CONTROL
  else 0.

Definition ksd_operation_scope_free (opcode : Z) : bool :=
  any_of opcode [KSD_OP_CURSOR_POSITION; KSD_OP_WORK_AREA; KSD_OP_CLIPBOARD_SET_CONTENT;
                 KSD_OP_WINDOW_HANDLES; KSD_OP_DISPLAY_LIST; KSD_OP_KEYBOARD_STATE].

Definition ksd_operation_chunkable (opcode : Z) : bool := opcode =? KSD_OP_CLIPBOARD_SET_CONTENT.

Definition ksd_request_chunk_admissible (opcode flags request_id : Z) : bool :=
  negb (request_id =? 0) && (Z.land flags (Z.lor KSD_FLAG_RESPONSE KSD_FLAG_EVENT) =? 0)
  && ksd_operation_chunkable opcode.

Definition operation_cases : list (Z * Z) :=
  [(KSD_OP_CAPTURE_AREA, KSD_OPERATION_CAPTURE_AREA);
   (KSD_OP_CAPTURE_WINDOW, KSD_OPERATION_CAPTURE_WINDOW);
   (KSD_OP_CAPTURE_DESKTOP, KSD_OPERATION_CAPTURE_DESKTOP);
   (KSD_OP_WINDOW_LIST, KSD_OPERATION_WINDOW_LIST);
   (KSD_OP_WINDOW_HANDLES, KSD_OPERATION_WINDOW_HANDLES);
   (KSD_OP_WINDOW_ACTIVE, KSD_OPERATION_WINDOW_ACTIVE);
   (KSD_OP_WINDOW_WATCH, KSD_OPERATION_WINDOW_WATCH);
   (KSD_OP_WINDOW_FOCUS, KSD_OPERATION_WINDOW_FOCUS);
   (KSD_OP_WINDOW_RAISE, KSD_OPERATION_WINDOW_RAISE);
   (KSD_OP_WINDOW_LOWER, KSD_OPERATION_WINDOW_LOWER);
   (KSD_OP_WINDOW_CLOSE, KSD_OPERATION_WINDOW_CLOSE);
   (KSD_OP_WINDOW_KILL, KSD_OPERATION_WINDOW_KILL);
   (KSD_OP_WINDOW_MOVE_RESIZE, KSD_OPERATION_WINDOW_MOVE_RESIZE);
   (KSD_OP_WINDOW_MOVE_RESIZE_XID, KSD_OPERATION_WINDOW_MOVE_RESIZE_XID);
   (KSD_OP_WINDOW_SET_STATE, KSD_OPERATION_WINDOW_SET_STATE);
   (KSD_OP_WINDOW_SET_OPACITY, KSD_OPERATION_WINDOW_SET_OPACITY);
   (KSD_OP_WINDOW_SET_ABOVE, KSD_OPERATION_WINDOW_SET_ABOVE);
   (KSD_OP_WINDOW_SET_DECORATED, KSD_OPERATION_WINDOW_SET_DECORATED);
   (KSD_OP_WINDOW_RESERVE, KSD_OPERATION_WINDOW_RESERVE);
   (KSD_OP_WINDOW_GET_RESERVED, KSD_OPERATION_WINDOW_GET_RESERVED);
   (KSD_OP_WINDOW_SET_SKIP_TASKBAR, KSD_OPERATION_WINDOW_SET_SKIP_TASKBAR);
   (KSD_OP_CLIPBOARD_MIMETYPES, KSD_OPERATION_CLIPBOARD_MIMETYPES);
   (KSD_OP_CLIPBOARD_CONTENT, KSD_OPERATION_CLIPBOARD_CONTENT);
   (KSD_OP_CLIPBOARD_TEXT, KSD_OPERATION_CLIPBOARD_TEXT);
   (KSD_OP_CLIPBOARD_WATCH, KSD_OPERATION_CLIPBOARD_WATCH);
   (KSD_OP_CLIPBOARD_SET_CONTENT, KSD_OPERATION_CLIPBOARD_SET_CONTENT);
   (KSD_OP_MOUSE_MOVE_ABSOLUTE, KSD_OPERATION_MOUSE_MOVE_ABSOLUTE);
   (KSD_OP_MOUSE_MOVE_RELATIVE, KSD_OPERATION_MOUSE_MOVE_RELATIVE);
   (KSD_OP_MOUSE_BUTTON, KSD_OPERATION_MOUSE_BUTTON);
   (KSD_OP_MOUSE_SCROLL, KSD_OPERATION_MOUSE_SCROLL);
   (KSD_OP_CURSOR_POSITION, KSD_OPERATION_CURSOR_POSITION);
   (KSD_OP_WORK_AREA, KSD_OPERATION_WORK_AREA);
   (KSD_OP_WINDOW_QUERY, KSD_OPERATION_WINDOW_QUERY);
   (KSD_OP_WINDOW_CHILDREN, KSD_OPERATION_WINDOW_CHILDREN);
   (KSD_OP_WINDOW_AT_POINT, KSD_OPERATION_WINDOW_AT_POINT);
   (KSD_OP_DISPLAY_LIST, KSD_OPERATION_DISPLAY_LIST);
   (KSD_OP_KEYBOARD_STATE, KSD_OPERATION_KEYBOARD_STATE);
   (KSD_OP_WINDOW_SET_TITLE, KSD_OPERATION_WINDOW_SET_TITLE);
   (KSD_OP_WINDOW_SET_VISIBLE, KSD_OPERATION_WINDOW_SET_VISIBLE);
   (KSD_OP_WINDOW_REDRAW, KSD_OPERATION_WINDOW_REDRAW);
   (KSD_OP_WINDOW_CLICK, KSD_OPERATION_WINDOW_CLICK);
   (KSD_OP_WINDOW_BUTTON, KSD_OPERATION_WINDOW_BUTTON);
   (KSD_OP_WINDOW_FOCUS_CHILD, KSD_OPERATION_WINDOW_FOCUS_CHILD)].

Definition ksd_operation_bit (opcode : Z) : Z := switch opcode operation_cases 0.

(** [ksd_state_mutates_windows] (src/state_wire.c): the operations that answer
    with a state sequence number. *)
Definition ksd_state_mutates_windows (opcode : Z) : bool :=
  ((KSD_OP_WINDOW_FOCUS <=? opcode) && (opcode <=? KSD_OP_WINDOW_SET_SKIP_TASKBAR)
   && negb (opcode =? KSD_OP_WINDOW_GET_RESERVED) && negb (opcode =? KSD_OP_WINDOW_RESERVE))
  || any_of opcode [KSD_OP_WINDOW_SET_TITLE; KSD_OP_WINDOW_SET_VISIBLE; KSD_OP_WINDOW_FOCUS_CHILD].

(** ** Backend masks *)

Definition KSD_X11_COORDINATE_OPERATIONS : Z := flags
   [KSD_OPERATION_WINDOW_LIST; KSD_OPERATION_WINDOW_ACTIVE; KSD_OPERATION_WINDOW_HANDLES;
    KSD_OPERATION_CURSOR_POSITION; KSD_OPERATION_WORK_AREA].
Definition KSD_X11_CAPTURE_OPERATIONS : Z := flags
   [KSD_OPERATION_CAPTURE_AREA; KSD_OPERATION_CAPTURE_WINDOW].
Definition KSD_X11_CLIPBOARD_OPERATIONS : Z := flags
   [KSD_OPERATION_CLIPBOARD_MIMETYPES; KSD_OPERATION_CLIPBOARD_CONTENT; KSD_OPERATION_CLIPBOARD_TEXT].
Definition KSD_X11_CONTROL_OPERATIONS : Z := flags
   [KSD_OPERATION_WINDOW_FOCUS; KSD_OPERATION_WINDOW_RAISE; KSD_OPERATION_WINDOW_LOWER;
    KSD_OPERATION_WINDOW_CLOSE; KSD_OPERATION_WINDOW_KILL; KSD_OPERATION_WINDOW_MOVE_RESIZE;
    KSD_OPERATION_WINDOW_SET_STATE; KSD_OPERATION_WINDOW_SET_OPACITY; KSD_OPERATION_WINDOW_SET_ABOVE;
    KSD_OPERATION_WINDOW_SET_DECORATED].
Definition KSD_X11_OPERATIONS : Z := flags
   [KSD_X11_COORDINATE_OPERATIONS; KSD_X11_CAPTURE_OPERATIONS; KSD_X11_CLIPBOARD_OPERATIONS;
    KSD_X11_CONTROL_OPERATIONS; KSD_OPERATION_MOUSE_MOVE_ABSOLUTE; KSD_OPERATION_WINDOW_QUERY;
    KSD_OPERATION_WINDOW_WATCH; KSD_OPERATION_WINDOW_CHILDREN; KSD_OPERATION_WINDOW_AT_POINT;
    KSD_OPERATION_DISPLAY_LIST; KSD_OPERATION_KEYBOARD_STATE; KSD_OPERATION_WINDOW_SET_TITLE;
    KSD_OPERATION_WINDOW_SET_VISIBLE; KSD_OPERATION_WINDOW_REDRAW; KSD_OPERATION_WINDOW_CLICK;
    KSD_OPERATION_WINDOW_BUTTON; KSD_OPERATION_WINDOW_FOCUS_CHILD].
Definition KSD_GENERIC_OPERATIONS : Z := flags
   [KSD_OPERATION_CAPTURE_AREA; KSD_OPERATION_CAPTURE_DESKTOP; KSD_OPERATION_CAPTURE_WINDOW;
    KSD_OPERATION_WINDOW_QUERY; KSD_OPERATION_KEYBOARD_STATE; KSD_OPERATION_MOUSE_MOVE_ABSOLUTE;
    KSD_OPERATION_CURSOR_POSITION; KSD_OPERATION_WINDOW_LIST; KSD_OPERATION_WINDOW_HANDLES;
    KSD_OPERATION_WINDOW_ACTIVE; KSD_OPERATION_WINDOW_FOCUS; KSD_OPERATION_WINDOW_CLOSE;
    KSD_OPERATION_WINDOW_SET_STATE; KSD_OPERATION_WINDOW_MOVE_RESIZE; KSD_OPERATION_WINDOW_RAISE;
    KSD_OPERATION_WINDOW_LOWER; KSD_OPERATION_WINDOW_AT_POINT; KSD_OPERATION_WINDOW_KILL;
    KSD_OPERATION_WINDOW_SET_OPACITY; KSD_OPERATION_WINDOW_SET_ABOVE; KSD_OPERATION_WINDOW_WATCH;
    KSD_OPERATION_DISPLAY_LIST; KSD_OPERATION_WORK_AREA; KSD_OPERATION_CLIPBOARD_MIMETYPES;
    KSD_OPERATION_CLIPBOARD_CONTENT; KSD_OPERATION_CLIPBOARD_TEXT].
Definition KSD_KWIN_OPERATIONS : Z := flags
   [KSD_OPERATION_CAPTURE_AREA; KSD_OPERATION_CAPTURE_WINDOW; KSD_OPERATION_KEYBOARD_STATE;
    KSD_OPERATION_WINDOW_LIST; KSD_OPERATION_WINDOW_ACTIVE; KSD_OPERATION_WINDOW_HANDLES;
    KSD_OPERATION_WINDOW_QUERY; KSD_OPERATION_WINDOW_FOCUS; KSD_OPERATION_WINDOW_RAISE;
    KSD_OPERATION_WINDOW_LOWER; KSD_OPERATION_WINDOW_CLOSE; KSD_OPERATION_WINDOW_MOVE_RESIZE;
    KSD_OPERATION_WINDOW_SET_STATE; KSD_OPERATION_WINDOW_SET_OPACITY; KSD_OPERATION_WINDOW_SET_ABOVE;
    KSD_OPERATION_WINDOW_SET_DECORATED; KSD_OPERATION_WINDOW_SET_SKIP_TASKBAR; KSD_OPERATION_CURSOR_POSITION;
    KSD_OPERATION_WORK_AREA].

Definition ksd_backend_operations (backend : Z) : Z :=
  if backend =? KSD_BACKEND_GENERIC then KSD_GENERIC_OPERATIONS
  else if backend =? KSD_BACKEND_X11 then KSD_X11_OPERATIONS
  else if backend =? KSD_BACKEND_KWIN then KSD_KWIN_OPERATIONS
  else if negb (backend =? KSD_BACKEND_GNOME) && negb (backend =? KSD_BACKEND_CINNAMON) then 0
  else
    let operations := flags
   [KSD_OPERATION_WINDOW_LIST; KSD_OPERATION_WINDOW_QUERY; KSD_OPERATION_KEYBOARD_STATE;
    KSD_OPERATION_WINDOW_ACTIVE; KSD_OPERATION_WINDOW_WATCH; KSD_OPERATION_WINDOW_FOCUS;
    KSD_OPERATION_WINDOW_RAISE; KSD_OPERATION_WINDOW_LOWER; KSD_OPERATION_WINDOW_CLOSE;
    KSD_OPERATION_WINDOW_KILL; KSD_OPERATION_WINDOW_MOVE_RESIZE; KSD_OPERATION_WINDOW_MOVE_RESIZE_XID;
    KSD_OPERATION_WINDOW_SET_STATE; KSD_OPERATION_WINDOW_SET_OPACITY; KSD_OPERATION_WINDOW_SET_ABOVE;
    KSD_OPERATION_WINDOW_SET_DECORATED; KSD_OPERATION_WINDOW_RESERVE; KSD_OPERATION_WINDOW_GET_RESERVED;
    KSD_OPERATION_CLIPBOARD_MIMETYPES; KSD_OPERATION_CLIPBOARD_CONTENT; KSD_OPERATION_CLIPBOARD_TEXT;
    KSD_OPERATION_CLIPBOARD_WATCH; KSD_OPERATION_CLIPBOARD_SET_CONTENT; KSD_OPERATION_MOUSE_MOVE_ABSOLUTE;
    KSD_OPERATION_MOUSE_MOVE_RELATIVE; KSD_OPERATION_MOUSE_BUTTON; KSD_OPERATION_MOUSE_SCROLL;
    KSD_OPERATION_CURSOR_POSITION; KSD_OPERATION_WORK_AREA] in
    let operations := Z.lor operations (Z.lor KSD_OPERATION_CAPTURE_WINDOW KSD_OPERATION_CAPTURE_AREA) in
    if backend =? KSD_BACKEND_CINNAMON
    then Z.land operations (Z.lnot KSD_OPERATION_WINDOW_SET_DECORATED)
    else operations.

Definition ksd_backend_x11_route (backend : Z) (x11_session : bool) : Z :=
  if negb x11_session then 0
  else if negb (backend =? KSD_BACKEND_X11) then 0
  else Z.land KSD_X11_OPERATIONS (ksd_backend_operations backend).

Definition ksd_backend_reported_operations (backend : Z) (registered : bool) (advertised : Z) : Z :=
  let supported := ksd_backend_operations backend in
  if registered then Z.land advertised supported else supported.

Definition KSD_BACKEND_REGISTRATION_SIZE : Z := 32.
Definition KSD_BACKEND_REGISTRATION_VERSION : Z := 2.
Definition KSD_BACKEND_FLAG_PROVIDER_FD : Z := 0x0001.
Definition KSD_BACKEND_FLAGS_ALL : Z := KSD_BACKEND_FLAG_PROVIDER_FD.
Definition KSD_BACKEND_ACK_ACCEPTED : Z := 0.
Definition KSD_BACKEND_ACK_REJECTED : Z := 1.
Definition ksd_backend_registration_magic : list byte := cstr "KSDB".
Definition ksd_backend_ack_magic : list byte := cstr "KSDA".

Definition ksd_backend_registration_mask (backend version flags requested : Z) : option Z :=
  guard* (version =? KSD_BACKEND_REGISTRATION_VERSION)
         && (Z.land flags (u16 (Z.lnot KSD_BACKEND_FLAGS_ALL)) =? 0) in
  guard* negb (negb (Z.land flags KSD_BACKEND_FLAG_PROVIDER_FD =? 0)
               && negb (backend =? KSD_BACKEND_KWIN)) in
  Some (Z.land requested (ksd_backend_operations backend)).

Definition ksd_backend_ack_encode (status backend accepted : Z) : list byte :=
  let reply := repeat x00 (Z.to_nat KSD_BACKEND_REGISTRATION_SIZE) in
  let reply := store 0 ksd_backend_ack_magic reply in
  let reply := store 4 (ksd_encode_u16 KSD_BACKEND_REGISTRATION_VERSION) reply in
  let reply := store 6 (ksd_encode_u16 status) reply in
  let reply := store 8 (ksd_encode_u32 backend) reply in
  if status =? KSD_BACKEND_ACK_ACCEPTED then store 16 (ksd_encode_u64 accepted) reply else reply.

Definition ksd_backend_ack_parse (reply : list byte) (expected_backend requested : Z) : option Z :=
  guard* negb (negb (bytes_eqb (ztake 4 reply) ksd_backend_ack_magic)
    || negb (ksd_decode_u16 (zdrop 4 reply) =? KSD_BACKEND_REGISTRATION_VERSION)
    || negb (ksd_decode_u16 (zdrop 6 reply) =? KSD_BACKEND_ACK_ACCEPTED)
    || negb (ksd_decode_u32 (zdrop 8 reply) =? expected_backend)
    || negb (ksd_decode_u32 (zdrop 12 reply) =? 0)
    || negb (ksd_decode_u64 (zdrop 24 reply) =? 0)) in
  let stored := ksd_decode_u64 (zdrop 16 reply) in
  guard* Z.land stored (u64 (Z.lnot requested)) =? 0 in
  Some stored.

(** ** KWin lanes *)

Inductive ksd_kwin_lane := KSD_KWIN_LANE_FAST | KSD_KWIN_LANE_SLOW | KSD_KWIN_LANE_NONE.
Inductive ksd_kwin_cost := KSD_KWIN_COST_BOUNDED | KSD_KWIN_COST_UNBOUNDED | KSD_KWIN_COST_NONE.

Definition ksd_kwin_lane_for (opcode : Z) : ksd_kwin_lane :=
  if any_of opcode [KSD_OP_WINDOW_ACTIVE; KSD_OP_WINDOW_QUERY; KSD_OP_WINDOW_FOCUS; KSD_OP_WINDOW_RAISE;
                    KSD_OP_WINDOW_LOWER; KSD_OP_WINDOW_CLOSE; KSD_OP_WINDOW_MOVE_RESIZE;
                    KSD_OP_WINDOW_MOVE_RESIZE_XID; KSD_OP_WINDOW_SET_STATE; KSD_OP_WINDOW_SET_OPACITY;
                    KSD_OP_WINDOW_SET_ABOVE; KSD_OP_WINDOW_SET_DECORATED;
                    KSD_OP_WINDOW_SET_SKIP_TASKBAR; KSD_OP_CURSOR_POSITION; KSD_OP_WORK_AREA]
  then KSD_KWIN_LANE_FAST
  else if any_of opcode [KSD_OP_WINDOW_LIST; KSD_OP_WINDOW_HANDLES] then KSD_KWIN_LANE_SLOW
  else KSD_KWIN_LANE_NONE.

Definition ksd_kwin_script_cost (opcode : Z) : ksd_kwin_cost :=
  match ksd_kwin_lane_for opcode with
  | KSD_KWIN_LANE_FAST => KSD_KWIN_COST_BOUNDED
  | KSD_KWIN_LANE_SLOW => KSD_KWIN_COST_UNBOUNDED
  | KSD_KWIN_LANE_NONE => KSD_KWIN_COST_NONE
  end.

(** ** Facts about the tables *)

Lemma switch_in {A} value (cases : list (Z * A)) d r :
  switch value cases d = r -> r <> d -> In (value, r) cases.
Proof.
  induction cases as [|[c x] cases IH]; cbn; [congruence|].
  case_if; breflect; intros H Hd; [left; congruence|right; auto].
Qed.

(** A check over every opcode with a bit. *)
Definition check_operations (P : Z -> Z -> bool) : bool :=
  forallb (fun c => P (fst c) (snd c)) operation_cases.

Lemma operations_forall P opcode :
  check_operations P = true -> ksd_operation_bit opcode <> 0 -> P opcode (ksd_operation_bit opcode) = true.
Proof.
  intros H Hb. unfold check_operations in H. rewrite forallb_forall in H.
  exact (H (opcode, ksd_operation_bit opcode) (switch_in opcode operation_cases 0 _ eq_refl Hb)).
Qed.

Lemma any_of_in v l : any_of v l = true <-> In v l.
Proof.
  unfold any_of. rewrite existsb_exists. split; [intros (x & Hx & E%Z.eqb_eq); by subst|].
  intros H. exists v. by rewrite Z.eqb_refl.
Qed.

(** Every operation a client can invoke is gated.  An opcode with an
    availability bit either is one of the scope-free operations and carries no
    scope, or carries exactly one scope, which the desktop service manages and
    accepts; and every operation that changes a window needs the window control
    scope. *)
Theorem operation_gated opcode :
  ksd_operation_bit opcode <> 0 ->
  (if ksd_operation_scope_free opcode then ksd_operation_scope opcode = 0
   else (exists k, 0 <= k < 32 /\ ksd_operation_scope opcode = 2 ^ k) /\
        Z.land (ksd_operation_scope opcode) KSD_DESKTOP_ACCEPTED_SCOPES = ksd_operation_scope opcode) /\
  (ksd_state_mutates_windows opcode = true -> ksd_operation_scope opcode = KSP_SCOPE_WINDOW_CONTROL).
Proof.
  intros Hb.
  pose proof (operations_forall (fun o _ =>
    (if ksd_operation_scope_free o then ksd_operation_scope o =? 0
     else existsb (fun k => ksd_operation_scope o =? 2 ^ Z.of_nat k) (seq 0 32) &&
          (Z.land (ksd_operation_scope o) KSD_DESKTOP_ACCEPTED_SCOPES =? ksd_operation_scope o)) &&
    (negb (ksd_state_mutates_windows o) || (ksd_operation_scope o =? KSP_SCOPE_WINDOW_CONTROL)))
    opcode eq_refl Hb) as H.
  cbn beta in H. apply andb_true_iff in H as [H Hm]. split.
  - destruct (ksd_operation_scope_free opcode); [by apply Z.eqb_eq|].
    apply andb_true_iff in H as [Hk Hs]. split; [|by apply Z.eqb_eq].
    apply existsb_exists in Hk as (k & Hin & Hk). apply in_seq in Hin. apply Z.eqb_eq in Hk.
    exists (Z.of_nat k). split; [lia|done].
  - intros Hmut. rewrite Hmut in Hm. by apply Z.eqb_eq.
Qed.

Lemma operation_gated_witness :
  (if ksd_operation_scope_free KSD_OP_WINDOW_SET_TITLE then ksd_operation_scope KSD_OP_WINDOW_SET_TITLE = 0
   else (exists k, 0 <= k < 32 /\ ksd_operation_scope KSD_OP_WINDOW_SET_TITLE = 2 ^ k) /\
        Z.land (ksd_operation_scope KSD_OP_WINDOW_SET_TITLE) KSD_DESKTOP_ACCEPTED_SCOPES
          = ksd_operation_scope KSD_OP_WINDOW_SET_TITLE) /\
  (ksd_state_mutates_windows KSD_OP_WINDOW_SET_TITLE = true ->
   ksd_operation_scope KSD_OP_WINDOW_SET_TITLE = KSP_SCOPE_WINDOW_CONTROL).
Proof. apply (operation_gated KSD_OP_WINDOW_SET_TITLE). discriminate. Defined.

(** Distinct opcodes have distinct single bits. *)
Lemma operation_bit_inj o1 o2 :
  ksd_operation_bit o1 <> 0 -> ksd_operation_bit o1 = ksd_operation_bit o2 -> o1 = o2.
Proof.
  intros H1 Heq. assert (H2 : ksd_operation_bit o2 <> 0) by congruence.
  pose proof (operations_forall (fun o b => forallb (fun c => negb (snd c =? b) || (fst c =? o)) operation_cases)
    o1 eq_refl H1) as H. cbn beta in H. rewrite forallb_forall in H.
  specialize (H _ (switch_in o2 operation_cases 0 _ eq_refl H2)). cbn [fst snd] in H.
  change (switch o2 operation_cases 0) with (ksd_operation_bit o2) in H.
  rewrite Heq, Z.eqb_refl in H. by apply Z.eqb_eq in H.
Qed.

Definition all_operations : Z := flags (map snd operation_cases).

Lemma backend_operations_known backend :
  Z.land (ksd_backend_operations backend) all_operations = ksd_backend_operations backend /\
  is_u64 (ksd_backend_operations backend).
Proof.
  unfold ksd_backend_operations. repeat case_if; split; try reflexivity; by vm_compute.
Qed.

Lemma land_sub_trans a b c : Z.land a b = a -> Z.land b c = b -> Z.land a c = a.
Proof. intros H1 H2. by rewrite <- H1, <- Z.land_assoc, H2. Qed.
Lemma land_sub_l a b : Z.land (Z.land a b) a = Z.land a b.
Proof. rewrite Z.land_comm, Z.land_assoc, Z.land_diag. done. Qed.
Lemma land_sub_r a b : Z.land (Z.land a b) b = Z.land a b.
Proof. by rewrite <- Z.land_assoc, Z.land_diag. Qed.

(** The decoders see a store of their own field in a 32-byte record. *)
Lemma ack_fields status backend accepted :
  let reply := ksd_backend_ack_encode status backend accepted in
  ztake 4 reply = ksd_backend_ack_magic /\
  ksd_decode_u16 (zdrop 4 reply) = KSD_BACKEND_REGISTRATION_VERSION /\
  ksd_decode_u16 (zdrop 6 reply) = u16 status /\ ksd_decode_u32 (zdrop 8 reply) = u32 backend /\
  ksd_decode_u32 (zdrop 12 reply) = 0 /\ ksd_decode_u64 (zdrop 24 reply) = 0 /\
  (status = KSD_BACKEND_ACK_ACCEPTED -> ksd_decode_u64 (zdrop 16 reply) = u64 accepted) /\
  zlen reply = KSD_BACKEND_REGISTRATION_SIZE.
Proof.
  unfold ksd_backend_ack_encode. case_if; breflect.
  - repeat split; try reflexivity.
    + rewrite Heqb. reflexivity.
    + exact (decode_encode_u32 backend _).
    + intros _. exact (decode_encode_u64 accepted _).
  - repeat split; try reflexivity; try done.
    + exact (decode_encode_u16 status _).
    + exact (decode_encode_u32 backend _).
Qed.

Lemma land_u64_lnot a m : is_u64 a -> Z.land a (u64 (Z.lnot m)) = 0 <-> Z.land a m = a.
Proof.
  intros Ha. rewrite <- land_lnot_zero. unfold u64. rewrite mod_pow2_land by lia.
  rewrite (Z.land_comm (Z.lnot m)), Z.land_assoc, <- mod_pow2_land by lia.
  by rewrite Z.mod_small.
Qed.

(** Registration is withhold-only at both ends.  Whatever a session daemon
    requests, the stored mask is a subset of the request and of what its backend
    statically supports, a callback socket is taken from a KWin daemon only, and
    the acknowledgement of an accepted registration parses, at a daemon that
    asked for that mask, to exactly the stored mask; a rejection never parses. *)
Theorem registration_withholds backend version fl requested stored :
  is_u32 backend -> is_u64 requested ->
  ksd_backend_registration_mask backend version fl requested = Some stored ->
  Z.land stored requested = stored /\
  Z.land stored (ksd_backend_operations backend) = stored /\
  (backend <> KSD_BACKEND_KWIN -> Z.land fl KSD_BACKEND_FLAG_PROVIDER_FD = 0) /\
  ksd_backend_ack_parse (ksd_backend_ack_encode KSD_BACKEND_ACK_ACCEPTED backend stored) backend requested
    = Some stored /\
  ksd_backend_ack_parse (ksd_backend_ack_encode KSD_BACKEND_ACK_REJECTED backend stored) backend requested
    = None.
Proof.
  intros Hb Hr H. unfold ksd_backend_registration_mask in H.
  destruct (_ && _) eqn:H1; [|done]. destruct (negb (_ && _)) eqn:H2; [|done].
  injection H as <-. breflect. set (stored := Z.land requested (ksd_backend_operations backend)).
  assert (Hs : is_u64 stored).
  { pose proof (land_subset_l requested (ksd_backend_operations backend) ltac:(apply Hr)).
    fold stored in H1. unfold is_u64 in *. lia. }
  split; [apply land_sub_l|]. split; [apply land_sub_r|]. split.
  { intros ?. destruct H2 as [H2|H2]; breflect; [done|congruence]. }
  unfold ksd_backend_ack_parse.
  destruct (ack_fields KSD_BACKEND_ACK_ACCEPTED backend stored) as (-> & -> & -> & -> & -> & -> & Hacc & _).
  destruct (ack_fields KSD_BACKEND_ACK_REJECTED backend stored) as (-> & -> & -> & _).
  rewrite (Hacc eq_refl), u64_id, u32_id, !Z.eqb_refl by done.
  assert (Z.land stored (u64 (Z.lnot requested)) = 0) as ->.
  { apply land_u64_lnot; [done|]. apply land_sub_l. }
  split; reflexivity.
Qed.

Lemma registration_withholds_witness :
  let requested := Z.lor KSD_OPERATION_WINDOW_LIST KSD_OPERATION_WINDOW_KILL in
  let stored := KSD_OPERATION_WINDOW_LIST in
  Z.land stored requested = stored /\
  Z.land stored (ksd_backend_operations KSD_BACKEND_KWIN) = stored /\
  (KSD_BACKEND_KWIN <> KSD_BACKEND_KWIN -> Z.land 1 KSD_BACKEND_FLAG_PROVIDER_FD = 0) /\
  ksd_backend_ack_parse (ksd_backend_ack_encode KSD_BACKEND_ACK_ACCEPTED KSD_BACKEND_KWIN stored)
    KSD_BACKEND_KWIN requested = Some stored /\
  ksd_backend_ack_parse (ksd_backend_ack_encode KSD_BACKEND_ACK_REJECTED KSD_BACKEND_KWIN stored)
    KSD_BACKEND_KWIN requested = None.
Proof.
  apply (registration_withholds KSD_BACKEND_KWIN 2 1); [by vm_compute|by vm_compute|reflexivity].
Defined.

(** The KWin table agrees with the lanes.  Every operation a KWin backend
    can report, other than the captures and the keyboard query that run in the
    forked worker, takes a script lane, and it is in the fast lane exactly when
    its cost inside the script is bounded. *)
Theorem kwin_operations_have_lanes opcode :
  Z.land (ksd_operation_bit opcode) (ksd_backend_operations KSD_BACKEND_KWIN) <> 0 ->
  any_of opcode [KSD_OP_CAPTURE_AREA; KSD_OP_CAPTURE_WINDOW; KSD_OP_CAPTURE_DESKTOP;
                 KSD_OP_KEYBOARD_STATE] = false ->
  ksd_kwin_lane_for opcode <> KSD_KWIN_LANE_NONE /\
  (ksd_kwin_lane_for opcode = KSD_KWIN_LANE_FAST <-> ksd_kwin_script_cost opcode = KSD_KWIN_COST_BOUNDED).
Proof.
  intros Hk Hn. assert (Hb : ksd_operation_bit opcode <> 0) by (intros E; by rewrite E in Hk).
  split; [|unfold ksd_kwin_script_cost; by destruct (ksd_kwin_lane_for opcode)].
  pose proof (operations_forall (fun o b =>
    (Z.land b (ksd_backend_operations KSD_BACKEND_KWIN) =? 0)
    || any_of o [KSD_OP_CAPTURE_AREA; KSD_OP_CAPTURE_WINDOW; KSD_OP_CAPTURE_DESKTOP; KSD_OP_KEYBOARD_STATE]
    || match ksd_kwin_lane_for o with KSD_KWIN_LANE_NONE => false | _ => true end) opcode eq_refl Hb) as H.
  cbn beta in H. rewrite Hn, orb_false_r in H. apply Z.eqb_neq in Hk. rewrite Hk in H.
  by destruct (ksd_kwin_lane_for opcode).
Qed.

Lemma kwin_operations_have_lanes_witness :
  ksd_kwin_lane_for KSD_OP_WINDOW_LIST <> KSD_KWIN_LANE_NONE /\
  (ksd_kwin_lane_for KSD_OP_WINDOW_LIST = KSD_KWIN_LANE_FAST <->
   ksd_kwin_script_cost KSD_OP_WINDOW_LIST = KSD_KWIN_COST_BOUNDED).
Proof. apply (kwin_operations_have_lanes KSD_OP_WINDOW_LIST); [discriminate|reflexivity]. Defined.
