(* ===== verification/KwinEnvelope.v ===== *)
(** * The KWin envelope (src/kwin_envelope.c, src/kwin_peer.c, src/kwin_wire.h)

    The line-oriented text the KWin script and the session daemon exchange: the
    scanner, the poll and report parsers, the two serialisers, and the check of
    the peer a message came from.  A scanner position is the list of bytes it
    has left.  The parsing loops carry fuel; every line consumes at least its
    newline, so the length of the input is enough ([poll_loop_fuel],
    [report_loop_fuel]). *)
From Stdlib Require Import ZArith Lia Strings.Byte Strings.String.
From stdpp Require Import base list option numbers tactics.
From S2P Require Import Prelude.
From S2P Require Import Protocol.
From S2P Require Import Codec.
From S2P Require Import Buffer.
From S2P Require Import Operations.
Local Open Scope Z_scope.
Local Open Scope ksd_scope.

Definition KSD_KWIN_GENERATION_HEX : Z := 32.
Definition KSD_KWIN_SEQ_HEX : Z := 16.
Definition KSD_KWIN_OP_DEADLINE_MS : Z := 2000.
Definition KSD_KWIN_IDLE_REPLY_MS : Z := 8000.
Definition KSD_KWIN_LANES : Z := 2.
Definition KSD_KWIN_JOBS_PER_REPLY_FAST : Z := 8.
Definition KSD_KWIN_JOBS_PER_REPLY_SLOW : Z := 1.
Definition KSD_KWIN_MAX_DONE_PER_REPORT : Z := 9.
Definition KSD_KWIN_MAX_HEADER_BYTES : Z := 8192.

Record ksd_kwin_poll := mk_poll {
  poll_generation : list byte;
  poll_lane : ksd_kwin_lane;
  poll_round_trip_ms : Z;
  poll_lost : Z;
}.

Record ksd_kwin_done := mk_done {
  done_sequence : list byte;
  done_status : Z;
  done_body : list byte;
  done_body_length : Z;
}.

Record ksd_kwin_report := mk_report {
  report_generation : list byte;
  report_done : list ksd_kwin_done;
}.

(** A job on its way out; [None] is a NULL body. *)
Record ksd_kwin_dispatch := mk_dispatch {
  dispatch_sequence : list byte;
  dispatch_opcode : Z;
  dispatch_budget_ms : Z;
  dispatch_body : option (list byte);
  dispatch_body_length : Z;
}.

(** ** The scanner *)

(** The bytes up to the next newline, and what follows it. *)
Fixpoint line (scan : list byte) : option (list byte * list byte) :=
  match scan with
  | [] => None
  | b :: scan =>
    if b2z b =? 10 then Some ([], scan)
    else let* (l, rest) := line scan in Some (b :: l, rest)
  end.

Fixpoint until_space (l : list byte) : list byte * list byte :=
  match l with
  | [] => ([], [])
  | b :: l' => if b2z b =? 32 then ([], l) else let '(w, rest) := until_space l' in (b :: w, rest)
  end.

(** A word and the cursor after it, one separating space skipped. *)
Definition token (cursor : list byte) : option (list byte * list byte) :=
  match cursor with
  | [] => None
  | b :: _ =>
    if b2z b =? 32 then None
    else
      let '(word, rest) := until_space cursor in
      Some (word, match rest with [] => [] | _ :: rest => rest end)
  end.

Definition keyword_is (start : list byte) (name : string) : bool := bytes_eqb start (cstr name).

Fixpoint decimal_loop (digits : list byte) (parsed : Z) : option Z :=
  match digits with
  | [] => Some parsed
  | b :: digits =>
    let d := b2z b in
    guard* negb ((d <? 48) || (57 <? d)) in
    guard* negb ((UINT32_MAX - (d - 48)) / 10 <? parsed) in
    decimal_loop digits (u32 (parsed * 10 + (d - 48)))
  end.

Definition decimal (start : list byte) (limit : Z) : option Z :=
  guard* negb ((zlen start =? 0) || (10 <? zlen start)) in
  guard* negb ((1 <? zlen start) && (byte_at start 0 =? 48)) in
  let* parsed := decimal_loop start 0 in
  guard* negb (limit <? parsed) in
  Some parsed.

Definition hex_digit (b : byte) : bool :=
  ((48 <=? b2z b) && (b2z b <=? 57)) || ((97 <=? b2z b) && (b2z b <=? 102)).

Definition hex (start : list byte) (expected : Z) : option (list byte) :=
  guard* zlen start =? expected in
  guard* forallb hex_digit start in
  Some start.

Definition magic_ok (scan : list byte) : option (list byte) :=
  let* (l, rest) := line scan in
  guard* keyword_is l "KSK1" in Some rest.

(** ** The parsers *)

(** The fields a poll has shown so far; [None] is not yet. *)
Record poll_fields := mk_poll_fields {
  pf_generation : option (list byte);
  pf_lane : option ksd_kwin_lane;
  pf_round_trip : option Z;
  pf_lost : option Z;
}.

(** The keyword line [word value] of a poll. *)
Definition poll_field (f : poll_fields) (word value : list byte) : option poll_fields :=
  if keyword_is word "gen" then
    guard* bool_decide (pf_generation f = None) in
    let* generation := hex value KSD_KWIN_GENERATION_HEX in
    Some (mk_poll_fields (Some generation) (pf_lane f) (pf_round_trip f) (pf_lost f))
  else if keyword_is word "lane" then
    guard* match pf_lane f with None => true | _ => false end in
    let* lane := if keyword_is value "fast" then Some KSD_KWIN_LANE_FAST
                 else if keyword_is value "slow" then Some KSD_KWIN_LANE_SLOW else None in
    Some (mk_poll_fields (pf_generation f) (Some lane) (pf_round_trip f) (pf_lost f))
  else if keyword_is word "rtt" then
    guard* bool_decide (pf_round_trip f = None) in
    let* rtt := decimal value 600000 in
    Some (mk_poll_fields (pf_generation f) (pf_lane f) (Some rtt) (pf_lost f))
  else if keyword_is word "lost" then
    guard* bool_decide (pf_lost f = None) in
    let* lost := decimal value 65535 in
    Some (mk_poll_fields (pf_generation f) (pf_lane f) (pf_round_trip f) (Some lost))
  else None.

Fixpoint poll_loop (fuel : nat) (scan : list byte) (f : poll_fields) : option ksd_kwin_poll :=
  match fuel with
  | O => None
  | S fuel =>
    let* (l, scan) := line scan in
    let* (word, cursor) := token l in
    if keyword_is word "end" then
      guard* bytes_eqb cursor [] && bytes_eqb scan [] in
      let* generation := pf_generation f in
      let* lane := pf_lane f in
      let* round_trip := pf_round_trip f in
      let* lost := pf_lost f in
      Some (mk_poll generation lane round_trip lost)
    else
      let* (value, cursor) := token cursor in
      guard* bytes_eqb cursor [] in
      let* f := poll_field f word value in
      poll_loop fuel scan f
  end.

Definition ksd_kwin_parse_poll (data : list byte) : option ksd_kwin_poll :=
  guard* negb (KSD_KWIN_MAX_HEADER_BYTES <? zlen data) in
  let* scan := magic_ok data in
  poll_loop (length data) scan (mk_poll_fields None None None None).

(** The bodies follow the header in the order of their lines. *)
Fixpoint attach_bodies (done : list ksd_kwin_done) (bodies : list byte) : list ksd_kwin_done :=
  match done with
  | [] => []
  | d :: done =>
    mk_done (done_sequence d) (done_status d) (ztake (done_body_length d) bodies) (done_body_length d)
      :: attach_bodies done (zdrop (done_body_length d) bodies)
  end.

(** [length] is the whole message's, so [length - zlen scan] is the offset. *)
Fixpoint report_loop (fuel : nat) (length : Z) (scan : list byte) (generation : option (list byte))
    (done : list ksd_kwin_done) (declared : Z) : option ksd_kwin_report :=
  match fuel with
  | O => None
  | S fuel =>
    let* (l, scan) := line scan in
    guard* negb (KSD_KWIN_MAX_HEADER_BYTES <? length - zlen scan) in
    let* (word, cursor) := token l in
    if keyword_is word "end" then
      guard* bytes_eqb cursor [] && negb (zlen done =? 0) && (declared =? zlen scan) in
      let* generation := generation in
      Some (mk_report generation (attach_bodies done scan))
    else if keyword_is word "gen" then
      let* (value, cursor) := token cursor in
      guard* bytes_eqb cursor [] && bool_decide (generation = None) in
      let* generation := hex value KSD_KWIN_GENERATION_HEX in
      report_loop fuel length scan (Some generation) done declared
    else
      guard* keyword_is word "done" in
      guard* negb (zlen done =? KSD_KWIN_MAX_DONE_PER_REPORT) in
      let* (value, cursor) := token cursor in
      let* sequence := hex value KSD_KWIN_SEQ_HEX in
      let* (value, cursor) := token cursor in
      let* status := decimal value 255 in
      let* (value, cursor) := token cursor in
      let* body_length := decimal value KSD_MAX_TEXT_BYTES in
      guard* bytes_eqb cursor [] in
      let declared := declared + body_length in
      guard* negb (KSD_MAX_TEXT_BYTES <? declared) in
      report_loop fuel length scan generation (done ++ [mk_done sequence status [] body_length]) declared
  end.

Definition ksd_kwin_parse_report (data : list byte) : option ksd_kwin_report :=
  let* scan := magic_ok data in
  report_loop (length data) (zlen data) scan None [] 0.

(** ** The serialisers *)

Fixpoint hex_text (digits : nat) (value : Z) : list byte :=
  match digits with
  | O => []
  | S digits => nth (Z.to_nat (Z.land (Z.shiftr value (4 * Z.of_nat digits)) 0xf)) hexadecimal x00
                  :: hex_text digits value
  end.

(** The digits of [append_decimal]'s loop, least significant first; the array
    has room for 16. *)
Fixpoint decimal_digits (room : nat) (value : Z) : list byte * Z :=
  match room with
  | O => ([], value)
  | S room =>
    if value =? 0 then ([], 0)
    else let '(text, remaining) := decimal_digits room (value / 10) in
      (z2b (48 + value mod 10) :: text, remaining)
  end.

Definition decimal_text (value : Z) : list byte :=
  if value =? 0 then cstr "0" else rev (fst (decimal_digits 16 value)).

Definition valid_hex_string (digits : Z) (s : list byte) : bool :=
  forallb hex_digit (ztake digits s) && (zlen s =? digits).
Definition valid_generation (generation : list byte) : bool :=
  valid_hex_string KSD_KWIN_GENERATION_HEX generation.
Definition valid_sequence (sequence : list byte) : bool := valid_hex_string KSD_KWIN_SEQ_HEX sequence.

Section serialisers.
Context {AL : Allocator}.

Definition append_hex (value : Z) (digits : nat) : bufop := fun out =>
  if 16 <? Z.of_nat digits then (false, out) else put (hex_text digits value) out.

Definition append_decimal (value : Z) : bufop := fun out =>
  if value =? 0 then put (cstr "0") out
  else
    let '(text, remaining) := decimal_digits 16 value in
    if negb (remaining =? 0) then (false, out) else put (rev text) out.

Fixpoint append_job_lines (jobs : list ksd_kwin_dispatch) : bufop := fun out =>
  match jobs with
  | [] => (true, out)
  | job :: jobs =>
    (put (cstr "job ") ;;; put (ztake KSD_KWIN_SEQ_HEX (dispatch_sequence job)) ;;; put (cstr " ")
     ;;; append_hex (dispatch_opcode job) 4 ;;; put (cstr " ") ;;; append_decimal (dispatch_budget_ms job)
     ;;; put (cstr " ") ;;; append_decimal (dispatch_body_length job) ;;; put [z2b 10]
     ;;; append_job_lines jobs) out
  end.

Fixpoint append_job_bodies (jobs : list ksd_kwin_dispatch) : bufop := fun out =>
  match jobs with
  | [] => (true, out)
  | job :: jobs =>
    if dispatch_body_length job =? 0 then append_job_bodies jobs out
    else (ksd_buffer_bytes (dispatch_body job) (dispatch_body_length job) ;;; append_job_bodies jobs) out
  end.

Definition ksd_kwin_format_poll_reply (generation : list byte) (lane : ksd_kwin_lane) (idle_ms : Z)
    (jobs : list ksd_kwin_dispatch) : bufop := fun out =>
  let lane_name := match lane with KSD_KWIN_LANE_FAST => "fast"%string | _ => "slow"%string end in
  let limit := match lane with
               | KSD_KWIN_LANE_FAST => KSD_KWIN_JOBS_PER_REPLY_FAST
               | _ => KSD_KWIN_JOBS_PER_REPLY_SLOW
               end in
  if negb (valid_generation generation)
     || match lane with KSD_KWIN_LANE_NONE => true | _ => false end
     || (limit <? zlen jobs)
     || negb (forallb (fun job => valid_sequence (dispatch_sequence job)
                         && negb (negb (dispatch_body_length job =? 0)
                                  && bool_decide (dispatch_body job = None))) jobs)
  then (false, out)
  else
    (put (cstr "KSK1" ++ [z2b 10]) ;;; put (cstr "gen ")
     ;;; put (ztake KSD_KWIN_GENERATION_HEX generation) ;;; put [z2b 10]
     ;;; put (cstr "lane ") ;;; put (cstr lane_name) ;;; put [z2b 10]
     ;;; put (cstr "idle ") ;;; append_decimal idle_ms ;;; put [z2b 10]
     ;;; append_job_lines jobs ;;; put (cstr "end" ++ [z2b 10]) ;;; append_job_bodies jobs) out.

Definition ksd_kwin_format_report_ack (generation : list byte) : bufop := fun out =>
  if negb (valid_generation generation) then (false, out)
  else (put (cstr "KSK1" ++ [z2b 10]) ;;; put (cstr "gen ")
        ;;; put (ztake KSD_KWIN_GENERATION_HEX generation)
        ;;; put ([z2b 10] ++ cstr "ack" ++ [z2b 10] ++ cstr "end" ++ [z2b 10])) out.
End serialisers.

(** ** The peer check (src/kwin_peer.c) *)

Fixpoint unique_name_loop (name : list byte) (digits groups : Z) : bool :=
  match name with
  | [] => (1 <=? groups) && (0 <? digits)
  | c :: name =>
    if b2z c =? 46 then
      if digits =? 0 then false else unique_name_loop name 0 (groups + 1)
    else if (48 <=? b2z c) && (b2z c <=? 57) then unique_name_loop name (digits + 1) groups
    else false
  end.

Definition unique_name_valid (name : list byte) : bool :=
  match name with
  | [] => false
  | c :: name => (b2z c =? 58) && unique_name_loop name 0 0
  end.

(** [None] is a NULL string. *)
Definition ksd_kwin_peer_allowed (expected_unique sender_unique : option (list byte))
    (expected_uid sender_uid : Z) (expected_generation sender_generation : option (list byte)) : bool :=
  match expected_unique, sender_unique, expected_generation, sender_generation with
  | Some eu, Some su, Some eg, Some sg =>
    unique_name_valid eu && unique_name_valid su && valid_generation eg && valid_generation sg
    && (expected_uid =? sender_uid) && bytes_eqb eu su
    && bytes_eqb (ztake KSD_KWIN_GENERATION_HEX eg) (ztake KSD_KWIN_GENERATION_HEX sg)
  | _, _, _, _ => false
  end.

(** ** Scanner lemmas *)

(** No byte of [l] is [z]. *)
Definition avoids (z : Z) (l : list byte) : Prop := Forall (fun b => b2z b <> z) l.

Lemma avoids_app z l k : avoids z (l ++ k) <-> avoids z l /\ avoids z k.
Proof. apply Forall_app. Qed.

Lemma avoids_forallb z (P : byte -> bool) l :
  (forall b, P b = true -> b2z b <> z) -> forallb P l = true -> avoids z l.
Proof.
  intros HP H. rewrite forallb_forall in H. apply List.Forall_forall. intros b Hb. auto.
Qed.

Lemma line_app l rest : avoids 10 l -> line (l ++ z2b 10 :: rest) = Some (l, rest).
Proof.
  induction 1 as [|b l Hb _ IH]; [done|]. cbn. rewrite IH. by replace (b2z b =? 10) with false by lia.
Qed.

Lemma line_sound s l rest : line s = Some (l, rest) -> s = l ++ z2b 10 :: rest /\ avoids 10 l.
Proof.
  revert l. induction s as [|b s IH]; intros l; cbn; [done|]. case_if; breflect.
  - intros [= <- <-]. split; [|constructor]. cbn. f_equal. rewrite <- (z2b_b2z b). by f_equal.
  - destruct (line s) as [[l' r]|]; [|done]. intros [= <- <-].
    destruct (IH _ eq_refl) as [-> ?]. split; [done|by constructor].
Qed.

Lemma line_shorter s l rest : line s = Some (l, rest) -> (length rest < length s)%nat.
Proof. intros [-> _]%line_sound. rewrite length_app. cbn. lia. Qed.

Lemma until_space_word w rest : avoids 32 w -> until_space (w ++ z2b 32 :: rest) = (w, z2b 32 :: rest).
Proof.
  induction 1 as [|b w Hb _ IH]; [done|]. cbn. by rewrite IH, (proj2 (Z.eqb_neq _ _) Hb).
Qed.
Lemma until_space_end w : avoids 32 w -> until_space w = (w, []).
Proof. induction 1 as [|b w Hb _ IH]; [done|]. cbn. by rewrite IH, (proj2 (Z.eqb_neq _ _) Hb). Qed.

Lemma token_word w rest : w <> [] -> avoids 32 w -> token (w ++ z2b 32 :: rest) = Some (w, rest).
Proof.
  intros Hne Hw. unfold token. rewrite until_space_word by done. destruct w as [|b w]; [done|].
  apply Forall_cons_1 in Hw as [Hb _]. cbn. by rewrite (proj2 (Z.eqb_neq _ _) Hb).
Qed.
Lemma token_end w : w <> [] -> avoids 32 w -> token w = Some (w, []).
Proof.
  intros Hne Hw. unfold token. rewrite until_space_end by done. destruct w as [|b w]; [done|].
  apply Forall_cons_1 in Hw as [Hb _]. by rewrite (proj2 (Z.eqb_neq _ _) Hb).
Qed.

Lemma hex_digit_avoids z l : (z < 48) -> forallb hex_digit l = true -> avoids z l.
Proof.
  intros Hz. apply avoids_forallb. intros b. unfold hex_digit. rewrite orb_true_iff, !andb_true_iff, !Z.leb_le. lia.
Qed.

Lemma hex_spec s n r : hex s n = Some r <-> r = s /\ zlen s = n /\ forallb hex_digit s = true.
Proof.
  unfold hex. case_if; breflect; [|split; [done|by intros (_ & ? & _)]].
  destruct (forallb hex_digit s);
    (split; [by intros [= <-]|by intros (-> & _ & ?)]).
Qed.

(** ** Decimal numbers have one spelling *)

Definition digit_byte (b : byte) : bool := (48 <=? b2z b) && (b2z b <=? 57).
(** The value of digits after [p]. *)
Definition dval (p : Z) (l : list byte) : Z := fold_left (fun p b => p * 10 + (b2z b - 48)) l p.

Lemma dval_snoc p l b : dval p (l ++ [b]) = dval p l * 10 + (b2z b - 48).
Proof. unfold dval. by rewrite fold_left_app. Qed.

Lemma digit_byte_range b : digit_byte b = true <-> 48 <= b2z b <= 57.
Proof. unfold digit_byte. rewrite andb_true_iff, !Z.leb_le. lia. Qed.

Lemma dval_ge p l : 0 <= p -> forallb digit_byte l = true -> p <= dval p l.
Proof.
  revert p. induction l as [|b l IH]; intros p Hp; cbn; [lia|]. rewrite andb_true_iff, digit_byte_range.
  intros [Hb Hl]. specialize (IH (p * 10 + (b2z b - 48)) ltac:(lia) Hl). unfold dval in IH. lia.
Qed.

Lemma decimal_loop_spec l p v :
  0 <= p <= UINT32_MAX ->
  decimal_loop l p = Some v <-> forallb digit_byte l = true /\ v = dval p l /\ v <= UINT32_MAX.
Proof.
  revert p. induction l as [|b l IH]; intros p Hp; cbn [decimal_loop forallb].
  - unfold dval; cbn. split; [intros [= <-]; lia|intros (_ & -> & _); done].
  - case_if; breflect; cycle 1.
    { split; [done|]. rewrite andb_true_iff, digit_byte_range. intros ((Hb & _) & _). exfalso.
      destruct Heqb0; lia. }
    assert (Hd : digit_byte b = true) by (apply digit_byte_range; lia).
    assert (Hq : 0 <= UINT32_MAX - (b2z b - 48)) by (unfold UINT32_MAX; lia).
    rewrite Hd. cbn [andb]. change (dval p (b :: l)) with (dval (p * 10 + (b2z b - 48)) l).
    pose proof (Z.mul_div_le (UINT32_MAX - (b2z b - 48)) 10 ltac:(lia)).
    pose proof (Z.mul_succ_div_gt (UINT32_MAX - (b2z b - 48)) 10 ltac:(lia)).
    case_if; breflect.
    + rewrite u32_id by (unfold is_u32, UINT32_MAX in *; lia). apply IH. lia.
    + split; [done|]. intros (Hl & -> & Hv). exfalso.
      pose proof (dval_ge (p * 10 + (b2z b - 48)) l ltac:(lia) Hl). lia.
Qed.

(** A spelling of a positive number: digits, the first not a zero. *)
Definition canonical_digits (s : list byte) : Prop :=
  forallb digit_byte s = true /\ exists b k, s = b :: k /\ b2z b <> 48.

Lemma decimal_digits_0 room : decimal_digits room 0 = ([], 0).
Proof. by destruct room. Qed.

Lemma dval_pos s : canonical_digits s -> 0 < dval 0 s.
Proof.
  intros (Hd & b & k & -> & Hb). cbn in Hd. apply andb_true_iff in Hd as [Hd Hk].
  apply digit_byte_range in Hd. change (dval 0 (b :: k)) with (dval (0 * 10 + (b2z b - 48)) k).
  pose proof (dval_ge (0 * 10 + (b2z b - 48)) k ltac:(lia) Hk). lia.
Qed.

Lemma canonical_snoc s b : canonical_digits s -> digit_byte b = true -> canonical_digits (s ++ [b]).
Proof.
  intros (Hd & c & k & -> & Hc) Hb. split; [rewrite forallb_app, Hd; cbn; by rewrite Hb|].
  by exists c, (k ++ [b]).
Qed.

Lemma div_mod_10 q d : 0 <= d < 10 -> (q * 10 + d) / 10 = q /\ (q * 10 + d) mod 10 = d.
Proof.
  intros Hd. rewrite Z.div_add_l, Z.div_small, Z.add_0_r by lia. split; [done|].
  rewrite Z.add_comm, Z.mod_add, Z.mod_small by lia. done.
Qed.

(** The serialiser's loop gives back the digits of a canonical spelling. *)
Lemma decimal_digits_canonical s : forall room,
  canonical_digits s -> (length s <= room)%nat -> decimal_digits room (dval 0 s) = (rev s, 0).
Proof.
  induction s as [|b s IH] using rev_ind; intros room Hc Hl; [by destruct Hc as (_ & ? & ? & [=] & _)|].
  pose proof (dval_pos _ Hc) as Hpos. destruct room as [|room]; [rewrite length_app in Hl; cbn in Hl; lia|].
  destruct Hc as (Hd & c & k & Heq & Hc0). rewrite forallb_app in Hd. apply andb_true_iff in Hd as [Hds Hb].
  cbn in Hb. rewrite andb_true_r in Hb. pose proof Hb as Hbr. apply digit_byte_range in Hbr.
  cbn [decimal_digits]. replace (dval 0 (s ++ [b]) =? 0) with false by lia.
  rewrite dval_snoc. destruct (div_mod_10 (dval 0 s) (b2z b - 48)) as [-> ->]; [lia|].
  rewrite rev_app_distr. cbn [rev app].
  replace (48 + (b2z b - 48)) with (b2z b) by lia. rewrite z2b_b2z.
  destruct s as [|c' s].
  - by rewrite decimal_digits_0.
  - injection Heq as <- _. rewrite IH; [done| |rewrite length_app in Hl; cbn in *; lia].
    split; [done|]. eauto.
Qed.

(** Every positive number that fits has a canonical spelling. *)
Lemma canonical_exists room v :
  0 < v < 10 ^ Z.of_nat room -> exists s, canonical_digits s /\ (length s <= room)%nat /\ dval 0 s = v.
Proof.
  revert v. induction room as [|room IH]; intros v Hv; [change (10 ^ Z.of_nat 0) with 1 in Hv; lia|].
  rewrite Nat2Z.inj_succ, Z.pow_succ_r in Hv by lia.
  pose proof (Z.mod_pos_bound v 10 ltac:(lia)). pose proof (Z.div_mod v 10 ltac:(lia)).
  assert (Hb : b2z (z2b (48 + v mod 10)) = 48 + v mod 10) by (apply b2z_z2b_small; lia).
  assert (Hd : digit_byte (z2b (48 + v mod 10)) = true) by (apply digit_byte_range; lia).
  destruct (decide (v / 10 = 0)) as [E|E].
  - exists [z2b (48 + v mod 10)]. split; [|split; [cbn; lia|unfold dval; cbn [fold_left]; lia]].
    split; [cbn; by rewrite Hd|]. eexists _, _. split; [reflexivity|lia].
  - destruct (IH (v / 10)) as (s & Hc & Hl & Hval).
    { split; [pose proof (Z.div_pos v 10 ltac:(lia) ltac:(lia)); lia|].
      apply Z.div_lt_upper_bound; lia. }
    exists (s ++ [z2b (48 + v mod 10)]). split; [by apply canonical_snoc|].
    split; [rewrite length_app; cbn; lia|]. rewrite dval_snoc, Hval, Hb. lia.
Qed.

Lemma decimal_text_canonical v :
  0 < v <= UINT32_MAX -> canonical_digits (decimal_text v) /\ dval 0 (decimal_text v) = v /\
  (length (decimal_text v) <= 10)%nat.
Proof.
  intros Hv. destruct (canonical_exists 10 v) as (s & Hc & Hl & Hval); [unfold UINT32_MAX in *; lia|].
  unfold decimal_text. replace (v =? 0) with false by lia. rewrite <- Hval.
  rewrite decimal_digits_canonical by (done || lia). cbn [fst]. by rewrite rev_involutive.
Qed.

(** What the decimal scanner accepts. *)
Lemma decimal_iff s limit v :
  0 <= limit <= UINT32_MAX ->
  decimal s limit = Some v <-> s = decimal_text v /\ 0 <= v <= limit.
Proof.
  intros Hlim. split.
  - unfold decimal. case_if; [|done]. case_if; [|done].
    destruct (decimal_loop s 0) as [p|] eqn:E; [|done]. case_if; [|done]. intros [= ->]. breflect.
    apply decimal_loop_spec in E as (Hd & -> & Hv); [|unfold UINT32_MAX; lia].
    pose proof (dval_ge 0 s ltac:(lia) Hd). split; [|lia].
    destruct s as [|b s]; [done|]. destruct (decide (b2z b = 48)) as [E48|Hne].
    + destruct Heqb0 as [Hlen|Hb]; [|unfold byte_at in Hb; cbn in Hb; lia].
      destruct s as [|? s]; [|rewrite !zlen_cons in Hlen; pose proof (zlen_nonneg s); lia].
      assert (b = z2b 48) as -> by (by apply b2z_inj). reflexivity.
    + assert (Hc : canonical_digits (b :: s)) by (split; [done|eauto]).
      pose proof (dval_pos _ Hc). unfold decimal_text. replace (dval 0 (b :: s) =? 0) with false by lia.
      rewrite decimal_digits_canonical; [cbn [fst]; by rewrite rev_involutive|done|].
      unfold zlen in *. lia.
  - intros [-> Hv]. destruct (decide (v = 0)) as [->|Hne].
    { change (decimal (decimal_text 0) limit) with (if negb (limit <? 0) then Some 0 else None).
      by replace (limit <? 0) with false by lia. }
    destruct (decimal_text_canonical v) as (Hc & Hval & Hl); [lia|].
    destruct Hc as (Hd & b & k & Hbk & Hb). unfold decimal.
    assert (Hz : zlen (decimal_text v) <= 10) by (unfold zlen; lia).
    assert (Hz1 : 1 <= zlen (decimal_text v)) by (rewrite Hbk, zlen_cons; pose proof (zlen_nonneg k); lia).
    replace (zlen (decimal_text v) =? 0) with false by lia.
    replace (10 <? zlen (decimal_text v)) with false by lia. cbn [orb negb].
    replace (byte_at (decimal_text v) 0 =? 48) with false
      by (rewrite Hbk; unfold byte_at; cbn; lia).
    rewrite andb_false_r. cbn [negb].
    rewrite (proj2 (decimal_loop_spec (decimal_text v) 0 v ltac:(unfold UINT32_MAX; lia))).
    + by replace (limit <? v) with false by lia.
    + split; [done|]. split; [done|lia].
Qed.

(** A decimal token has exactly one spelling.  For every limit the parsers
    use, a token is accepted as the number [v] exactly when it is the text the
    serialiser writes for [v] and [v] is within the limit. *)
Theorem decimal_unique_spelling s limit v :
  0 <= limit <= UINT32_MAX ->
  decimal s limit = Some v <-> s = decimal_text v /\ 0 <= v <= limit.
Proof. apply decimal_iff. Qed.

Lemma decimal_unique_spelling_witness :
  decimal (cstr "4096") 65535 = Some 4096 <-> cstr "4096" = decimal_text 4096 /\ 0 <= 4096 <= 65535.
Proof. apply (decimal_unique_spelling (cstr "4096") 65535 4096). unfold UINT32_MAX. lia. Defined.

(** ** Reports *)

(** The text of a report, the reference printer for the parser. *)
Definition done_line (d : ksd_kwin_done) : list byte :=
  cstr "done " ++ done_sequence d ++ cstr " " ++ decimal_text (done_status d) ++ cstr " "
  ++ decimal_text (done_body_length d).
Definition terminated (l : list byte) : list byte := l ++ [z2b 10].
Definition report_header (r : ksd_kwin_report) : list byte :=
  terminated (cstr "KSK1") ++ terminated (cstr "gen " ++ report_generation r)
  ++ concat (map (fun d => terminated (done_line d)) (report_done r)) ++ terminated (cstr "end").
Definition report_text (r : ksd_kwin_report) : list byte :=
  report_header r ++ concat (map done_body (report_done r)).

(** What a report can express. *)
Definition done_ok (d : ksd_kwin_done) : Prop :=
  zlen (done_sequence d) = KSD_KWIN_SEQ_HEX /\ forallb hex_digit (done_sequence d) = true /\
  0 <= done_status d <= 255 /\ done_body_length d = zlen (done_body d).
Definition report_ok (r : ksd_kwin_report) : Prop :=
  zlen (report_generation r) = KSD_KWIN_GENERATION_HEX /\ forallb hex_digit (report_generation r) = true /\
  1 <= zlen (report_done r) <= KSD_KWIN_MAX_DONE_PER_REPORT /\ Forall done_ok (report_done r) /\
  zlen (concat (map done_body (report_done r))) <= KSD_MAX_TEXT_BYTES.

Definition body_lengths (ds : list ksd_kwin_done) : Z := fold_right Z.add 0 (map done_body_length ds).

Lemma body_lengths_app a b : body_lengths (a ++ b) = body_lengths a + body_lengths b.
Proof. unfold body_lengths. rewrite map_app. induction (map done_body_length a); cbn in *; lia. Qed.

(** [hex_sequence d] etc. for an entry before its body is attached. *)
Definition entry_ok (d : ksd_kwin_done) : Prop :=
  zlen (done_sequence d) = KSD_KWIN_SEQ_HEX /\ forallb hex_digit (done_sequence d) = true /\
  0 <= done_status d <= 255 /\ 0 <= done_body_length d.

Lemma attach_bodies_ok ds bodies :
  Forall entry_ok ds -> body_lengths ds = zlen bodies ->
  let r := attach_bodies ds bodies in
  Forall done_ok r /\ concat (map done_body r) = bodies /\ length r = length ds /\
  map (fun d => (done_sequence d, done_status d, done_body_length d)) r =
  map (fun d => (done_sequence d, done_status d, done_body_length d)) ds.
Proof.
  cbn. intros Hok. revert bodies. induction Hok as [|d ds (Hs & Hx & Hst & Hl) Hok IH]; intros bodies Hlen.
  - cbn in *. destruct bodies; [done|]. unfold body_lengths in Hlen; cbn in Hlen. rewrite zlen_cons in Hlen.
    pose proof (zlen_nonneg bodies). lia.
  - change (body_lengths (d :: ds)) with (done_body_length d + body_lengths ds) in Hlen.
    assert (Hnn : 0 <= body_lengths ds).
    { clear -Hok. induction Hok as [|e l (_ & _ & _ & He) _ IH]; [done|].
      change (body_lengths (e :: l)) with (done_body_length e + body_lengths l). lia. }
    destruct (IH (zdrop (done_body_length d) bodies)) as (IH1 & IH2 & IH3 & IH4).
    { rewrite zlen_zdrop; lia. }
    cbn. rewrite IH2, ztake_zdrop, IH3, IH4. split; [|done]. constructor; [|done].
    repeat split; cbn; try done; try lia. symmetry. apply zlen_ztake. lia.
Qed.

(** Everything the loop accepts from a scanner position. *)
Lemma report_loop_sound fuel : forall len scan generation ds declared r,
  Forall entry_ok ds -> declared = body_lengths ds -> declared <= KSD_MAX_TEXT_BYTES ->
  zlen ds <= KSD_KWIN_MAX_DONE_PER_REPORT ->
  (forall g, generation = Some g -> zlen g = KSD_KWIN_GENERATION_HEX /\ forallb hex_digit g = true) ->
  report_loop fuel len scan generation ds declared = Some r ->
  report_ok r /\ exists header, scan = header ++ concat (map done_body (report_done r)) /\
    len - zlen (concat (map done_body (report_done r))) <= KSD_KWIN_MAX_HEADER_BYTES.
Proof.
  induction fuel as [|fuel IH]; intros len scan generation ds declared r Hok Hdecl Hmax Hcount Hgen; cbn [report_loop];
    [done|].
  destruct (line scan) as [[l rest]|] eqn:El; [|done]. apply line_sound in El as [-> _].
  case_if; [|done]. breflect. destruct (token l) as [[word cursor]|]; [|done].
  assert (Hstep : forall g' ds' declared', Forall entry_ok ds' -> declared' = body_lengths ds' ->
    declared' <= KSD_MAX_TEXT_BYTES -> zlen ds' <= KSD_KWIN_MAX_DONE_PER_REPORT ->
    (forall g, g' = Some g -> zlen g = KSD_KWIN_GENERATION_HEX /\ forallb hex_digit g = true) ->
    report_loop fuel len rest g' ds' declared' = Some r ->
    report_ok r /\ exists header, l ++ z2b 10 :: rest = header ++ concat (map done_body (report_done r)) /\
      len - zlen (concat (map done_body (report_done r))) <= KSD_KWIN_MAX_HEADER_BYTES).
  { intros g' ds' declared' H1 H2 H3 H4 H5 H6.
    destruct (IH _ _ _ _ _ _ H1 H2 H3 H4 H5 H6) as (Hr & header & -> & Hh). split; [done|].
    exists (l ++ z2b 10 :: header). split; [|done]. by rewrite <- app_assoc. }
  destruct (keyword_is word "end").
  { case_if; [|done]. breflect. destruct generation as [g|]; [|done]. intros [= <-].
    destruct (Hgen g eq_refl) as [Hg1 Hg2]. rewrite Hdecl in *.
    destruct (attach_bodies_ok ds rest Hok) as (Hd & Hcat & Hlen & _); [done|].
    cbn [report_done report_generation]. rewrite Hcat. split.
    - repeat split; cbn [report_done report_generation]; try done; rewrite ?Hcat; unfold zlen in *; lia.
    - exists (l ++ [z2b 10]). split; [by rewrite <- app_assoc|lia]. }
  destruct (keyword_is word "gen").
  { destruct (token cursor) as [[value cursor']|]; [|done]. case_if; [|done].
    destruct (hex value _) as [g|] eqn:Eg; [|done]. apply hex_spec in Eg as (-> & ? & ?).
    apply Hstep; try done. by intros ? [= <-]. }
  destruct (keyword_is word "done"); [|done]. case_if; [|done]. breflect.
  destruct (token cursor) as [[v1 c1]|]; [|done].
  destruct (hex v1 _) as [sq|] eqn:Es; [|done]. apply hex_spec in Es as (-> & ? & ?).
  destruct (token c1) as [[v2 c2]|]; [|done]. destruct (decimal v2 255) as [st|] eqn:Est; [|done].
  apply decimal_iff in Est as [_ ?]; [|unfold UINT32_MAX; lia].
  destruct (token c2) as [[v3 c3]|]; [|done]. destruct (decimal v3 _) as [bl|] eqn:Ebl; [|done].
  apply decimal_iff in Ebl as [_ ?]; [|unfold UINT32_MAX, KSD_MAX_TEXT_BYTES; lia].
  case_if; [|done]. case_if; [|done]. breflect.
  apply Hstep; [|rewrite body_lengths_app, Hdecl; unfold body_lengths; cbn; lia|lia| |done].
  - apply Forall_app. split; [done|]. repeat constructor; cbn; (lia || done).
  - rewrite zlen_app, zlen_cons, zlen_nil. unfold KSD_KWIN_MAX_DONE_PER_REPORT in *. lia.
Qed.

(** Two lines keep a generation and a terminator apart. *)
Lemma keyword_ne w name : w <> cstr name -> keyword_is w name = false.
Proof. intros H. unfold keyword_is, bytes_eqb. by apply bool_decide_eq_false. Qed.
Lemma keyword_eq name : keyword_is (cstr name) name = true.
Proof. unfold keyword_is, bytes_eqb. by apply bool_decide_eq_true. Qed.

Lemma decimal_text_avoids z v : z < 48 -> 0 <= v <= UINT32_MAX -> avoids z (decimal_text v) /\ decimal_text v <> [].
Proof.
  intros Hz Hv. destruct (decide (v = 0)) as [->|Hne].
  - split; [|done]. repeat constructor. cbn. lia.
  - destruct (decimal_text_canonical v) as ((Hd & b & k & E & _) & _ & _); [lia|].
    split; [|by rewrite E]. eapply avoids_forallb; [|exact Hd].
    intros c Hc. apply digit_byte_range in Hc. lia.
Qed.

(** A step of the loop over the text of one entry. *)
Lemma report_loop_done fuel len rest generation ds declared d :
  done_ok d -> zlen ds < KSD_KWIN_MAX_DONE_PER_REPORT ->
  declared + done_body_length d <= KSD_MAX_TEXT_BYTES -> 0 <= declared ->
  len - zlen rest <= KSD_KWIN_MAX_HEADER_BYTES ->
  report_loop (S fuel) len (terminated (done_line d) ++ rest) generation ds declared =
  report_loop fuel len rest generation
    (ds ++ [mk_done (done_sequence d) (done_status d) [] (done_body_length d)])
    (declared + done_body_length d).
Proof.
  intros (Hs & Hx & Hst & Hl) Hc Hd Hd0 Hh. pose proof (zlen_nonneg (done_body d)) as Hb0.
  assert (Hblen : 0 <= done_body_length d <= UINT32_MAX) by (unfold UINT32_MAX, KSD_MAX_TEXT_BYTES in *; lia).
  destruct (decimal_text_avoids 10 (done_status d)) as [Hst10 Hstne]; [lia|unfold UINT32_MAX; lia|].
  destruct (decimal_text_avoids 32 (done_status d)) as [Hst32 _]; [lia|unfold UINT32_MAX; lia|].
  destruct (decimal_text_avoids 10 (done_body_length d)) as [Hbl10 Hblne]; [lia|done|].
  destruct (decimal_text_avoids 32 (done_body_length d)) as [Hbl32 _]; [lia|done|].
  assert (Hline : avoids 10 (done_line d)).
  { unfold done_line. rewrite !avoids_app. split; [repeat constructor; cbn; lia|].
    split; [apply hex_digit_avoids; [lia|done]|]. repeat (split; [first [done | by repeat constructor; cbn; lia]|]). done. }
  cbn [report_loop]. unfold terminated. rewrite <- app_assoc. cbn [app]. rewrite line_app by done.
  replace (KSD_KWIN_MAX_HEADER_BYTES <? len - zlen rest) with false by lia. cbn [negb].
  unfold done_line. change (cstr "done ") with (cstr "done" ++ [z2b 32]). change (cstr " ") with [z2b 32].
  rewrite <- !app_assoc. cbn [app]. rewrite token_word by (done || (repeat constructor; cbn; lia)).
  rewrite (keyword_ne (cstr "done") "end"), (keyword_ne (cstr "done") "gen"), keyword_eq by done.
  replace (zlen ds =? KSD_KWIN_MAX_DONE_PER_REPORT) with false by lia. cbn [negb].
  rewrite token_word; [|by destruct (done_sequence d)|apply hex_digit_avoids; [lia|done]].
  rewrite (proj2 (hex_spec (done_sequence d) KSD_KWIN_SEQ_HEX _)) by done.
  rewrite token_word by done. rewrite (proj2 (decimal_iff _ 255 (done_status d) ltac:(unfold UINT32_MAX; lia))) by done.
  rewrite token_end by done.
  rewrite (proj2 (decimal_iff _ KSD_MAX_TEXT_BYTES (done_body_length d)
    ltac:(unfold UINT32_MAX, KSD_MAX_TEXT_BYTES; lia))) by (split; [done|lia]).
  change (bytes_eqb [] []) with true. cbv beta iota zeta.
  by replace (KSD_MAX_TEXT_BYTES <? declared + done_body_length d) with false by lia.
Qed.

Lemma report_loop_entries ds0 : forall fuel len rest generation ds,
  Forall done_ok ds0 -> zlen ds + zlen ds0 <= KSD_KWIN_MAX_DONE_PER_REPORT ->
  Forall entry_ok ds -> body_lengths ds + body_lengths ds0 <= KSD_MAX_TEXT_BYTES ->
  len - zlen rest <= KSD_KWIN_MAX_HEADER_BYTES ->
  report_loop (length ds0 + fuel) len (concat (map (fun d => terminated (done_line d)) ds0) ++ rest)
    generation ds (body_lengths ds) =
  report_loop fuel len rest generation
    (ds ++ map (fun d => mk_done (done_sequence d) (done_status d) [] (done_body_length d)) ds0)
    (body_lengths ds + body_lengths ds0).
Proof.
  induction ds0 as [|d ds0 IH]; intros fuel len rest generation ds Hd Hc He Hb Hh.
  - cbn. by rewrite app_nil_r, Z.add_0_r.
  - apply Forall_cons_1 in Hd as [Hd Hds]. rewrite zlen_cons in Hc.
    change (body_lengths (d :: ds0)) with (done_body_length d + body_lengths ds0) in Hb |- *.
    assert (Hnn : forall l, Forall entry_ok l -> 0 <= body_lengths l).
    { clear. induction 1 as [|e l (_ & _ & _ & H) _ IH]; [done|].
      change (body_lengths (e :: l)) with (done_body_length e + body_lengths l). lia. }
    assert (Hdok : Forall entry_ok ds0).
    { eapply Forall_impl; [|exact Hds]. intros e (? & ? & ? & Hl).
      pose proof (zlen_nonneg (done_body e)). repeat split; try done; lia. }
    pose proof (Hnn ds He). pose proof (Hnn ds0 Hdok). pose proof (zlen_nonneg ds0).
    cbn [map concat length Nat.add]. rewrite <- app_assoc.
    assert (Hrest : zlen rest <= zlen (concat (map (fun d => terminated (done_line d)) ds0) ++ rest)).
    { rewrite zlen_app. pose proof (zlen_nonneg (concat (map (fun d => terminated (done_line d)) ds0))). lia. }
    rewrite report_loop_done by (done || lia).
    pose proof Hd as (? & ? & ? & Hbl). pose proof (zlen_nonneg (done_body d)).
    set (e := mk_done _ _ [] _).
    assert (Hdec : body_lengths ds + done_body_length d = body_lengths (ds ++ [e])).
    { rewrite body_lengths_app. unfold body_lengths at 3; cbn. lia. }
    rewrite Hdec, IH; try done; try lia.
    + rewrite <- app_assoc. cbn [app]. f_equal. lia.
    + rewrite zlen_app, zlen_cons, zlen_nil. lia.
    + apply Forall_app. split; [done|]. constructor; [|done]. repeat split; cbn; (done || lia).
Qed.

Lemma attach_bodies_map ds :
  Forall done_ok ds ->
  attach_bodies (map (fun d => mk_done (done_sequence d) (done_status d) [] (done_body_length d)) ds)
    (concat (map done_body ds)) = ds.
Proof.
  induction 1 as [|d ds (_ & _ & _ & Hl) _ IH]; [done|]. cbn. rewrite Hl, ztake_app_l, zdrop_app_l, IH.
  f_equal. rewrite <- Hl. by destruct d.
Qed.

Lemma body_lengths_zlen ds :
  Forall done_ok ds -> body_lengths ds = zlen (concat (map done_body ds)).
Proof.
  induction 1 as [|d ds (_ & _ & _ & Hl) _ IH]; [done|].
  change (body_lengths (d :: ds)) with (done_body_length d + body_lengths ds).
  cbn. rewrite zlen_app. lia.
Qed.

Lemma done_line_length d : done_ok d -> done_body_length d <= KSD_MAX_TEXT_BYTES -> zlen (terminated (done_line d)) <= 44.
Proof.
  intros (Hs & _ & Hst & Hl) Hb. unfold terminated, done_line. rewrite !zlen_app, Hs.
  assert (H10 : forall v, 0 <= v <= UINT32_MAX -> zlen (decimal_text v) <= 10).
  { intros v Hv. destruct (decide (v = 0)) as [->|]; [by vm_compute|].
    destruct (decimal_text_canonical v) as (_ & _ & H); [lia|]. unfold zlen. lia. }
  pose proof (H10 (done_status d) ltac:(unfold UINT32_MAX; lia)).
  pose proof (zlen_nonneg (done_body d)).
  pose proof (H10 (done_body_length d) ltac:(unfold UINT32_MAX, KSD_MAX_TEXT_BYTES in *; lia)).
  change (zlen (cstr "done ")) with 5. change (zlen (cstr " ")) with 1. change (zlen [z2b 10]) with 1.
  unfold KSD_KWIN_SEQ_HEX. lia.
Qed.

Lemma concat_zlen_le {A B} (f : A -> list B) n l :
  (forall x, In x l -> zlen (f x) <= n) -> zlen (concat (map f l)) <= zlen l * n.
Proof.
  induction l as [|x l IH]; intros H; [done|]. cbn [map concat]. rewrite zlen_app, zlen_cons.
  pose proof (H x ltac:(by left)). specialize (IH (fun y Hy => H y (or_intror Hy))). lia.
Qed.

(** The entry lines are short, and there are at least as many bytes as lines. *)
Lemma report_lines_bound ds :
  Forall done_ok ds -> zlen (concat (map done_body ds)) <= KSD_MAX_TEXT_BYTES ->
  zlen (concat (map (fun d => terminated (done_line d)) ds)) <= zlen ds * 44 /\
  zlen ds <= zlen (concat (map (fun d => terminated (done_line d)) ds)).
Proof.
  intros Hd Hb. split.
  - apply concat_zlen_le. intros d Hin. rewrite List.Forall_forall in Hd.
    apply done_line_length; [auto|]. destruct (Hd d Hin) as (_ & _ & _ & ->).
    apply in_split in Hin as (l1 & l2 & ->). rewrite map_app, concat_app, zlen_app in Hb.
    cbn in Hb. rewrite zlen_app in Hb.
    pose proof (zlen_nonneg (concat (map done_body l1))). pose proof (zlen_nonneg (concat (map done_body l2))). lia.
  - clear. induction ds as [|d l IH]; [done|]. cbn [map concat].
    unfold terminated at 1. rewrite !zlen_app, !zlen_cons, zlen_nil.
    pose proof (zlen_nonneg (done_line d)). lia.
Qed.

(** An expressible report parses back from its text. *)
Lemma parse_report_text r : report_ok r -> ksd_kwin_parse_report (report_text r) = Some r.
Proof.
  intros (Hg & Hgx & Hn & Hd & Hb).
  set (bodies := concat (map done_body (report_done r))) in *.
  set (lines := concat (map (fun d => terminated (done_line d)) (report_done r))).
  pose proof (report_lines_bound (report_done r) Hd Hb) as [Hlines Hmany]. fold lines in Hlines, Hmany.
  unfold ksd_kwin_parse_report, magic_ok, report_text, report_header. fold bodies. fold lines.
  set (tail := terminated (cstr "end") ++ bodies).
  set (genline := cstr "gen " ++ report_generation r).
  assert (Htext : (terminated (cstr "KSK1") ++ terminated genline ++ lines ++ terminated (cstr "end")) ++ bodies
                  = cstr "KSK1" ++ z2b 10 :: genline ++ z2b 10 :: lines ++ tail).
  { unfold terminated, tail. by rewrite <- !app_assoc. }
  rewrite Htext. set (text := cstr "KSK1" ++ _).
  assert (Htl : zlen text = 5 + 37 + zlen lines + 4 + zlen bodies).
  { unfold text, genline, tail, terminated. rewrite !zlen_app, !zlen_cons, !zlen_app, zlen_cons, !zlen_app, Hg.
    change (zlen (cstr "KSK1")) with 4. change (zlen (cstr "gen ")) with 4.
    change (zlen (cstr "end")) with 3. change (zlen [z2b 10]) with 1. unfold KSD_KWIN_GENERATION_HEX. lia. }
  unfold text at 1. rewrite line_app by (repeat constructor; cbn; lia). rewrite keyword_eq.
  assert (Hfuel : exists fuel, length text = S (length (report_done r) + S fuel)).
  { exists (length text - length (report_done r) - 2)%nat.
    assert (zlen (report_done r) + 2 <= zlen text); [|unfold zlen in *; lia].
    pose proof (zlen_nonneg bodies). lia. }
  destruct Hfuel as (fuel & ->). cbn [report_loop].
  assert (Hgl : avoids 10 genline).
  { unfold genline. rewrite avoids_app. split; [repeat constructor; cbn; lia|]. apply hex_digit_avoids; [lia|done]. }
  rewrite line_app by done.
  assert (Hzt : zlen (lines ++ tail) = zlen lines + 4 + zlen bodies).
  { unfold tail, terminated. rewrite !zlen_app. change (zlen (cstr "end")) with 3. change (zlen [z2b 10]) with 1. lia. }
  unfold KSD_KWIN_MAX_DONE_PER_REPORT in Hn.
  replace (KSD_KWIN_MAX_HEADER_BYTES <? zlen text - zlen (lines ++ tail)) with false
    by (unfold KSD_KWIN_MAX_HEADER_BYTES; lia).
  cbn [negb]. unfold genline. change (cstr "gen ") with (cstr "gen" ++ [z2b 32]). rewrite <- app_assoc. cbn [app].
  rewrite token_word by (done || (repeat constructor; cbn; lia)).
  rewrite (keyword_ne (cstr "gen") "end"), keyword_eq by done.
  rewrite token_end; [|by destruct (report_generation r)|apply hex_digit_avoids; [lia|done]].
  rewrite (proj2 (hex_spec (report_generation r) KSD_KWIN_GENERATION_HEX _)) by done.
  change (bytes_eqb [] [] && bool_decide (None = None)) with true. cbv beta iota zeta.
  pose proof (report_loop_entries (report_done r) (S fuel) (zlen text) tail (Some (report_generation r)) [] Hd)
    as Hloop.
  change (body_lengths []) with 0 in Hloop. fold lines in Hloop. rewrite Hloop; clear Hloop.
  + cbn [report_loop]. unfold tail, terminated. rewrite <- app_assoc. cbn [app].
    rewrite line_app by (repeat constructor; cbn; lia).
    replace (KSD_KWIN_MAX_HEADER_BYTES <? zlen text - zlen bodies) with false
      by (unfold KSD_KWIN_MAX_HEADER_BYTES; lia).
    cbn [negb]. rewrite token_end by (done || (repeat constructor; cbn; lia)). rewrite keyword_eq.
    change (bytes_eqb [] []) with true. cbn [andb].
    assert (Hzm : zlen (map (fun d => mk_done (done_sequence d) (done_status d) [] (done_body_length d)) (report_done r))
                  = zlen (report_done r)) by (unfold zlen; by rewrite length_map).
    rewrite Hzm. replace (zlen (report_done r) =? 0) with false by lia. cbn [negb andb].
    rewrite Z.add_0_l, body_lengths_zlen by done. fold bodies. rewrite Z.eqb_refl. f_equal.
    unfold bodies. rewrite attach_bodies_map by done. by destruct r.
  + rewrite zlen_nil. unfold KSD_KWIN_MAX_DONE_PER_REPORT. lia.
  + constructor.
  + rewrite body_lengths_zlen by done. fold bodies. lia.
  + rewrite zlen_app in Hzt. unfold KSD_KWIN_MAX_HEADER_BYTES. lia.
Qed.

(** What is accepted is a header and exactly the bodies. *)
Lemma parse_report_sound data r :
  ksd_kwin_parse_report data = Some r ->
  report_ok r /\ exists header, data = header ++ concat (map done_body (report_done r)) /\
    zlen header <= KSD_KWIN_MAX_HEADER_BYTES.
Proof.
  unfold ksd_kwin_parse_report, magic_ok.
  destruct (line data) as [[l scan]|] eqn:El; [|done]. apply line_sound in El as [-> _].
  case_if; [|done]. intros H.
  apply report_loop_sound in H as (Hr & header & -> & Hh); try done; try (unfold KSD_MAX_TEXT_BYTES; lia).
  split; [done|]. exists (l ++ z2b 10 :: header). split; [by rewrite <- app_assoc|].
  rewrite !zlen_app, !zlen_cons, !zlen_app in Hh. rewrite !zlen_app, !zlen_cons. lia.
Qed.

(** Reports round trip and nothing is smuggled.  Every expressible report
    parses back from its text, bodies included; and whatever the parser accepts,
    the report it returns is expressible (a 32-digit generation, one to nine
    entries with 16-digit sequences, statuses of one byte and at most
    [KSD_MAX_TEXT_BYTES] of bodies) and the message is a header of at most 8192
    bytes followed by exactly the bodies, with no byte left over. *)
Theorem kwin_report_exact :
  (forall r, report_ok r -> ksd_kwin_parse_report (report_text r) = Some r) /\
  (forall data r, ksd_kwin_parse_report data = Some r ->
     report_ok r /\ exists header, data = header ++ concat (map done_body (report_done r)) /\
       zlen header <= KSD_KWIN_MAX_HEADER_BYTES).
Proof. split; [exact parse_report_text|exact parse_report_sound]. Qed.

(** ** Fuel *)

(** The loops never run out of the fuel the parsers give them: any larger
    amount gives the same answer. *)
Lemma report_loop_fuel fuel fuel' : forall len scan generation ds declared,
  (length scan < fuel)%nat -> (length scan < fuel')%nat ->
  report_loop fuel len scan generation ds declared = report_loop fuel' len scan generation ds declared.
Proof.
  revert fuel'. induction fuel as [|fuel IH]; intros [|fuel'] len scan generation ds declared H H'; try lia.
  cbn [report_loop]. destruct (line scan) as [[l rest]|] eqn:El; [|done]. apply line_shorter in El.
  repeat (case_match; try done); apply IH; lia.
Qed.

Lemma poll_loop_fuel fuel fuel' : forall scan f,
  (length scan < fuel)%nat -> (length scan < fuel')%nat -> poll_loop fuel scan f = poll_loop fuel' scan f.
Proof.
  revert fuel'. induction fuel as [|fuel IH]; intros [|fuel'] scan f H H'; try lia.
  cbn [poll_loop]. destruct (line scan) as [[l rest]|] eqn:El; [|done]. apply line_shorter in El.
  repeat (case_match; try done); apply IH; lia.
Qed.

(** ** Polls *)

Definition lane_name (lane : ksd_kwin_lane) : string :=
  match lane with KSD_KWIN_LANE_FAST => "fast" | _ => "slow" end.

Definition poll_text (p : ksd_kwin_poll) : list byte :=
  terminated (cstr "KSK1") ++ terminated (cstr "gen " ++ poll_generation p)
  ++ terminated (cstr "lane " ++ cstr (lane_name (poll_lane p)))
  ++ terminated (cstr "rtt " ++ decimal_text (poll_round_trip_ms p))
  ++ terminated (cstr "lost " ++ decimal_text (poll_lost p)) ++ terminated (cstr "end").

Definition poll_ok (p : ksd_kwin_poll) : Prop :=
  zlen (poll_generation p) = KSD_KWIN_GENERATION_HEX /\ forallb hex_digit (poll_generation p) = true /\
  poll_lane p <> KSD_KWIN_LANE_NONE /\ 0 <= poll_round_trip_ms p <= 600000 /\ 0 <= poll_lost p <= 65535.

Definition fields_ok (f : poll_fields) : Prop :=
  (forall g, pf_generation f = Some g -> zlen g = KSD_KWIN_GENERATION_HEX /\ forallb hex_digit g = true) /\
  (forall l, pf_lane f = Some l -> l <> KSD_KWIN_LANE_NONE) /\
  (forall v, pf_round_trip f = Some v -> 0 <= v <= 600000) /\
  (forall v, pf_lost f = Some v -> 0 <= v <= 65535).

Lemma poll_field_ok f word value f' : fields_ok f -> poll_field f word value = Some f' -> fields_ok f'.
Proof.
  intros (Hg & Hl & Hr & Hlo). unfold poll_field. destruct (keyword_is word "gen").
  { case_if; [|done]. destruct (hex value _) as [g|] eqn:Eg; [|done]. apply hex_spec in Eg as (-> & ? & ?).
    intros [= <-]. refine (conj _ (conj _ (conj _ _))); cbn; auto. by intros ? [= <-]. }
  destruct (keyword_is word "lane").
  { case_if; [|done]. destruct (keyword_is value "fast"); [|destruct (keyword_is value "slow"); [|done]];
      (intros [= <-]; refine (conj _ (conj _ (conj _ _))); cbn; auto; by intros ? [= <-]). }
  destruct (keyword_is word "rtt").
  { case_if; [|done]. destruct (decimal value _) as [v|] eqn:Ev; [|done].
    apply decimal_iff in Ev as [_ ?]; [|unfold UINT32_MAX; lia]. intros [= <-].
    refine (conj _ (conj _ (conj _ _))); cbn; auto. by intros ? [= <-]. }
  destruct (keyword_is word "lost"); [|done].
  case_if; [|done]. destruct (decimal value _) as [v|] eqn:Ev; [|done].
  apply decimal_iff in Ev as [_ ?]; [|unfold UINT32_MAX; lia]. intros [= <-].
  refine (conj _ (conj _ (conj _ _))); cbn; auto. by intros ? [= <-].
Qed.

Lemma poll_loop_sound fuel : forall scan f p, fields_ok f -> poll_loop fuel scan f = Some p -> poll_ok p.
Proof.
  induction fuel as [|fuel IH]; intros scan f p Hf; cbn [poll_loop]; [done|].
  destruct (line scan) as [[l rest]|]; [|done]. destruct (token l) as [[word cursor]|]; [|done].
  destruct (keyword_is word "end").
  { destruct Hf as (Hg & Hl & Hr & Hlo). case_if; [|done].
    destruct (pf_generation f), (pf_lane f), (pf_round_trip f), (pf_lost f); try done.
    intros [= <-]. repeat split; cbn; try (by apply Hg); try (by apply Hl); try (by apply Hr); by apply Hlo. }
  destruct (token cursor) as [[value cursor']|]; [|done]. case_if; [|done].
  destruct (poll_field f word value) as [f'|] eqn:Ef; [|done]. apply IH. by eapply poll_field_ok.
Qed.

(** A step of the loop over one keyword line. *)
Lemma poll_loop_step fuel name value rest f f' :
  name <> [] -> avoids 10 name -> avoids 32 name -> name <> cstr "end" ->
  value <> [] -> avoids 10 value -> avoids 32 value -> poll_field f name value = Some f' ->
  poll_loop (S fuel) (terminated (name ++ z2b 32 :: value) ++ rest) f = poll_loop fuel rest f'.
Proof.
  intros Hn Hn10 Hn32 Hend Hv Hv10 Hv32 Hf. cbn [poll_loop]. unfold terminated.
  rewrite <- app_assoc. cbn [app]. rewrite line_app.
  - rewrite token_word, keyword_ne, token_end by done. change (bytes_eqb [] []) with true. by rewrite Hf.
  - rewrite avoids_app. split; [done|]. by constructor.
Qed.

Lemma zlen_decimal_text v : 0 <= v <= UINT32_MAX -> zlen (decimal_text v) <= 10.
Proof.
  intros Hv. destruct (decide (v = 0)) as [->|]; [by vm_compute|].
  destruct (decimal_text_canonical v) as (_ & _ & H); [lia|]. unfold zlen. lia.
Qed.

Ltac plain_word := repeat constructor; cbn; lia.

Lemma parse_poll_text p : poll_ok p -> ksd_kwin_parse_poll (poll_text p) = Some p.
Proof.
  destruct p as [g lane rtt lost]. intros (Hg & Hgx & Hlane & Hrtt & Hlost).
  cbn [poll_generation poll_lane poll_round_trip_ms poll_lost] in *.
  assert (Hr : 0 <= rtt <= UINT32_MAX) by (unfold UINT32_MAX; lia).
  assert (Hl : 0 <= lost <= UINT32_MAX) by (unfold UINT32_MAX; lia).
  destruct (decimal_text_avoids 10 rtt) as [Hr10 Hrne], (decimal_text_avoids 32 rtt) as [Hr32 _],
    (decimal_text_avoids 10 lost) as [Hl10 Hlne], (decimal_text_avoids 32 lost) as [Hl32 _]; try done.
  pose proof (zlen_decimal_text rtt Hr). pose proof (zlen_decimal_text lost Hl).
  pose proof (hex_digit_avoids 10 g eq_refl Hgx). pose proof (hex_digit_avoids 32 g eq_refl Hgx).
  unfold ksd_kwin_parse_poll, poll_text, magic_ok.
  cbn [poll_generation poll_lane poll_round_trip_ms poll_lost].
  set (text := terminated (cstr "KSK1") ++ _).
  assert (Hz : 5 <= zlen text <= KSD_KWIN_MAX_HEADER_BYTES).
  { unfold text, terminated. rewrite !zlen_app, Hg. unfold KSD_KWIN_MAX_HEADER_BYTES, KSD_KWIN_GENERATION_HEX.
    assert (zlen (cstr (lane_name lane)) = 4) as -> by (by destruct lane).
    repeat match goal with |- context [zlen (cstr ?s)] =>
      let n := eval vm_compute in (zlen (cstr s)) in change (zlen (cstr s)) with n end.
    change (zlen [z2b 10]) with 1. pose proof (zlen_nonneg (decimal_text rtt)).
    pose proof (zlen_nonneg (decimal_text lost)). lia. }
  replace (KSD_KWIN_MAX_HEADER_BYTES <? zlen text) with false by lia. cbn [negb].
  unfold text at 1. unfold terminated at 1. rewrite <- app_assoc. cbn [app]. rewrite line_app by plain_word.
  rewrite keyword_eq. assert (Hfuel : exists fuel, length text = S (S (S (S (S fuel))))).
  { exists (length text - 5)%nat. unfold zlen in Hz. lia. }
  destruct Hfuel as (fuel & ->).
  rewrite (poll_loop_step _ (cstr "gen") g _ _ (mk_poll_fields (Some g) None None None));
    [|done|plain_word|plain_word|done|by destruct g|done|done|].
  2:{ unfold poll_field. by rewrite keyword_eq, (proj2 (hex_spec g KSD_KWIN_GENERATION_HEX g)). }
  rewrite (poll_loop_step _ (cstr "lane") (cstr (lane_name lane)) _ _ (mk_poll_fields (Some g) (Some lane) None None));
    [|done|plain_word|plain_word|done|by destruct lane|destruct lane; plain_word|destruct lane; plain_word|by destruct lane].
  rewrite (poll_loop_step _ (cstr "rtt") (decimal_text rtt) _ _ (mk_poll_fields (Some g) (Some lane) (Some rtt) None));
    [|done|plain_word|plain_word|done|done|done|done|].
  2:{ unfold poll_field. rewrite !keyword_ne, keyword_eq by done.
      by rewrite (proj2 (decimal_iff _ 600000 rtt ltac:(unfold UINT32_MAX; lia))). }
  rewrite (poll_loop_step _ (cstr "lost") (decimal_text lost) _ _ (mk_poll_fields (Some g) (Some lane) (Some rtt) (Some lost)));
    [reflexivity|done|plain_word|plain_word|done|done|done|done|].
  unfold poll_field. rewrite !keyword_ne, keyword_eq by done.
  by rewrite (proj2 (decimal_iff _ 65535 lost ltac:(unfold UINT32_MAX; lia))).
Qed.

Lemma parse_poll_sound data p :
  ksd_kwin_parse_poll data = Some p -> poll_ok p /\ zlen data <= KSD_KWIN_MAX_HEADER_BYTES.
Proof.
  unfold ksd_kwin_parse_poll. case_if; [|done]. breflect.
  destruct (magic_ok data); [|done]. intros H. split; [|done]. by eapply poll_loop_sound in H.
Qed.

(** Polls round trip.  The text of every poll with a well-formed generation
    and values in range parses back to it, and whatever the parser accepts is
    such a poll of at most [KSD_KWIN_MAX_HEADER_BYTES] bytes. *)
Theorem kwin_poll_exact :
  (forall p, poll_ok p -> ksd_kwin_parse_poll (poll_text p) = Some p) /\
  (forall data p, ksd_kwin_parse_poll data = Some p -> poll_ok p /\ zlen data <= KSD_KWIN_MAX_HEADER_BYTES).
Proof. split; [exact parse_poll_text|exact parse_poll_sound]. Qed.

(** ** A second spelling *)

(** The token scanner skips one space after a word even at the end of a
    line, so a message with such a trailing space is accepted as the same poll as
    the message without it. *)
Theorem kwin_poll_trailing_space :
  exists p, ksd_kwin_parse_poll (poll_text p) = Some p /\
    exists data, data <> poll_text p /\ ksd_kwin_parse_poll data = Some p.
Proof.
  set (p := mk_poll (repeat (z2b 97) 32) KSD_KWIN_LANE_FAST 7 0).
  exists p. split; [reflexivity|].
  exists (terminated (cstr "KSK1") ++ terminated (cstr "gen " ++ repeat (z2b 97) 32) ++ terminated (cstr "lane fast ")
          ++ terminated (cstr "rtt 7 ") ++ terminated (cstr "lost 0") ++ terminated (cstr "end ")).
  split; [vm_compute; discriminate|reflexivity].
Qed.

(** ** The serialisers' output *)

Definition job_line (job : ksd_kwin_dispatch) : list byte :=
  cstr "job " ++ dispatch_sequence job ++ cstr " " ++ hex_text 4 (dispatch_opcode job) ++ cstr " "
  ++ decimal_text (dispatch_budget_ms job) ++ cstr " " ++ decimal_text (dispatch_body_length job).

Definition dispatch_data (job : ksd_kwin_dispatch) : list byte := default [] (dispatch_body job).

Definition poll_reply_text (generation : list byte) (lane : ksd_kwin_lane) (idle_ms : Z)
    (jobs : list ksd_kwin_dispatch) : list byte :=
  terminated (cstr "KSK1") ++ terminated (cstr "gen " ++ generation)
  ++ terminated (cstr "lane " ++ cstr (lane_name lane)) ++ terminated (cstr "idle " ++ decimal_text idle_ms)
  ++ concat (map (fun job => terminated (job_line job)) jobs) ++ terminated (cstr "end")
  ++ concat (map dispatch_data jobs).

(** A dispatch as the queue builds it. *)
Definition dispatch_ok (job : ksd_kwin_dispatch) : Prop :=
  valid_sequence (dispatch_sequence job) = true /\ is_u16 (dispatch_opcode job) /\
  is_u32 (dispatch_budget_ms job) /\ is_u32 (dispatch_body_length job) /\
  dispatch_body_length job = zlen (dispatch_data job).

Lemma valid_hex_string_full n s : valid_hex_string n s = true -> ztake n s = s /\ zlen s = n.
Proof. unfold valid_hex_string. rewrite andb_true_iff, Z.eqb_eq. intros [_ <-]. by rewrite ztake_all. Qed.

Section serialiser_theorems.
Context {AL : Allocator}.

Lemma writes_ext (f g : bufop) x : (forall b, f b = g b) -> writes f x -> writes g x.
Proof. intros E H b Hb. specialize (H b Hb). by rewrite E in H. Qed.

Lemma append_decimal_writes v : 0 <= v <= UINT32_MAX -> writes (append_decimal v) (decimal_text v).
Proof.
  intros Hv. unfold append_decimal, decimal_text. destruct (Z.eqb_spec v 0); [apply put_writes|].
  destruct (canonical_exists 10 v) as (s & Hc & Hl & <-); [unfold UINT32_MAX in Hv; lia|].
  rewrite decimal_digits_canonical by (done || lia). apply put_writes.
Qed.

Lemma append_hex_writes v n : (n <= 16)%nat -> writes (append_hex v n) (hex_text n v).
Proof.
  intros Hn. unfold append_hex. replace (16 <? Z.of_nat n) with false by lia. apply put_writes.
Qed.

Lemma nothing_writes : writes (fun b => (true, b)) [].
Proof.
  intros b Hb. split; [done|]. split; [done|]. rewrite app_nil_r.
  split; [exists 0%nat; by rewrite take_nil, app_nil_r|done].
Qed.

Lemma append_job_lines_writes jobs :
  Forall dispatch_ok jobs ->
  writes (append_job_lines jobs) (concat (map (fun job => terminated (job_line job)) jobs)).
Proof.
  induction 1 as [|job jobs (Hs & _ & Hb & Hl & _) _ IH]; [apply nothing_writes|].
  cbn [map concat]. unfold terminated, job_line. rewrite <- !app_assoc.
  apply valid_hex_string_full in Hs as [Hs _]. cbn [append_job_lines]. rewrite Hs.
  apply (andthen_writes (put (cstr "job "))); [auto with ksdw|].
  repeat first [ exact IH | apply append_hex_writes; lia
               | apply append_decimal_writes; unfold is_u32, UINT32_MAX in *; lia
               | apply put_writes | apply andthen_writes ].
Qed.

Lemma append_job_bodies_writes jobs :
  Forall dispatch_ok jobs -> writes (append_job_bodies jobs) (concat (map dispatch_data jobs)).
Proof.
  induction 1 as [|job jobs (_ & _ & _ & _ & Hl) _ IH]; [apply nothing_writes|].
  cbn [append_job_bodies map concat]. destruct (Z.eqb_spec (dispatch_body_length job) 0) as [E|E].
  - rewrite E in Hl. destruct (dispatch_data job) as [|b l]; [exact IH|].
    rewrite zlen_cons in Hl. pose proof (zlen_nonneg l). lia.
  - apply andthen_writes; [|exact IH]. apply bytes_writes, Hl.
Qed.

(** The poll reply.  For a well-formed generation, a lane that takes jobs
    and at most that lane's cap of well-formed jobs, the serialiser appends
    exactly the header lines, the job lines in order and the terminator,
    followed by the job bodies in the same order and nothing else, so the
    declared body lengths sum to exactly what follows the header; it succeeds
    whenever the reply fits the buffer. *)
Theorem poll_reply_writes generation lane idle_ms jobs :
  valid_generation generation = true -> lane <> KSD_KWIN_LANE_NONE -> is_u32 idle_ms ->
  zlen jobs <= (match lane with KSD_KWIN_LANE_FAST => KSD_KWIN_JOBS_PER_REPLY_FAST
                              | _ => KSD_KWIN_JOBS_PER_REPLY_SLOW end) ->
  Forall dispatch_ok jobs ->
  writes (ksd_kwin_format_poll_reply generation lane idle_ms jobs)
    (poll_reply_text generation lane idle_ms jobs) /\
  zlen (concat (map dispatch_data jobs)) = fold_right Z.add 0 (map dispatch_body_length jobs).
Proof.
  intros Hg Hlane Hidle Hn Hj. split.
  - eapply writes_ext; [intros b; unfold ksd_kwin_format_poll_reply; rewrite Hg; cbn [negb orb];
      replace (match lane with KSD_KWIN_LANE_NONE => true | _ => false end) with false by (by destruct lane);
      match goal with |- context [?l <? zlen jobs] => replace (l <? zlen jobs) with false by (destruct lane; lia) end;
      rewrite (proj2 (forallb_forall _ jobs)); [reflexivity|]|].
    { intros job Hin. rewrite List.Forall_forall in Hj. destruct (Hj job Hin) as (-> & _ & _ & _ & Hl).
      unfold dispatch_data in Hl. destruct (dispatch_body job) as [d|]; cbn in Hl.
      - rewrite (bool_decide_eq_false_2 (Some d = None)) by done. by rewrite andb_false_r.
      - by rewrite Hl. }
    apply valid_hex_string_full in Hg as [-> _].
    unfold poll_reply_text, terminated. rewrite <- !app_assoc. change (cstr "KSK1" ++ [z2b 10] ++ ?x) with
      ((cstr "KSK1" ++ [z2b 10]) ++ x). rewrite (app_assoc (cstr "end")).
    apply (andthen_writes (put (cstr "KSK1" ++ [z2b 10]))); [apply put_writes|].
    repeat first [ apply append_job_lines_writes; done | apply append_job_bodies_writes; done
                 | apply append_decimal_writes; unfold is_u32, UINT32_MAX in *; lia
                 | apply put_writes | apply andthen_writes ].
  - clear -Hj. induction Hj as [|job jobs (_ & _ & _ & _ & Hl) _ IH]; [done|].
    cbn. rewrite zlen_app. lia.
Qed.

Lemma report_ack_writes generation :
  valid_generation generation = true ->
  writes (ksd_kwin_format_report_ack generation)
    (terminated (cstr "KSK1") ++ terminated (cstr "gen " ++ generation) ++ terminated (cstr "ack")
     ++ terminated (cstr "end")).
Proof.
  intros Hg. eapply writes_ext; [intros b; unfold ksd_kwin_format_report_ack; rewrite Hg; reflexivity|].
  apply valid_hex_string_full in Hg as [-> _].
  unfold terminated. rewrite <- !app_assoc. change (cstr "KSK1" ++ [z2b 10] ++ ?x) with
    ((cstr "KSK1" ++ [z2b 10]) ++ x).
  apply (andthen_writes (put (cstr "KSK1" ++ [z2b 10]))); [apply put_writes|].
  repeat first [apply put_writes | apply andthen_writes].
Qed.
End serialiser_theorems.

Lemma poll_reply_writes_witness :
  let jobs := [mk_dispatch (hex_text 16 5) KSD_OP_WINDOW_CLOSE 2000 (Some (cstr "xy")) 2] in
  writes (AL := infinite_memory) (ksd_kwin_format_poll_reply (AL := infinite_memory) (hex_text 32 77) KSD_KWIN_LANE_FAST 0 jobs)
    (poll_reply_text (hex_text 32 77) KSD_KWIN_LANE_FAST 0 jobs) /\
  zlen (concat (map dispatch_data jobs)) = fold_right Z.add 0 (map dispatch_body_length jobs).
Proof.
  apply (poll_reply_writes (AL := infinite_memory)).
  - reflexivity.
  - discriminate.
  - vm_compute. split; [discriminate|reflexivity].
  - vm_compute. discriminate.
  - constructor; [|constructor]. repeat split; vm_compute; (reflexivity || discriminate).
Defined.

(** A peer is let in exactly when it is the expected one: same well-formed
    unique name, same user, same well-formed generation. *)
Lemma peer_allowed_iff eu su euid suid eg sg :
  ksd_kwin_peer_allowed eu su euid suid eg sg = true <->
  exists u g, eu = Some u /\ su = Some u /\ eg = Some g /\ sg = Some g /\ euid = suid /\
    unique_name_valid u = true /\ valid_generation g = true.
Proof.
  unfold ksd_kwin_peer_allowed. split.
  - destruct eu as [eu|], su as [su|], eg as [eg|], sg as [sg|]; try done. rewrite !andb_true_iff, Z.eqb_eq.
    intros ((((((Hu & _) & Hg) & Hg') & Huid) & Heq) & Hgen). unfold bytes_eqb in *.
    apply bool_decide_eq_true in Heq, Hgen. subst.
    pose proof (valid_hex_string_full _ _ Hg) as [E1 _]. pose proof (valid_hex_string_full _ _ Hg') as [E2 _].
    exists su, sg. rewrite E1, E2 in Hgen. subst. done.
  - intros (u & g & -> & -> & -> & -> & -> & -> & ->). rewrite Z.eqb_refl. unfold bytes_eqb.
    by rewrite !bool_decide_eq_true_2.
Qed.
