(* ===== verification/KwinJobs.v ===== *)
(** * The KWin job queue (src/kwin_jobs.c)

    The daemon side of the KWin channel: a fixed array of job slots, each free,
    queued, dispatched to the script, or done.  The array is a list of
    [KSD_KWIN_MAX_JOBS] slots updated by index; a scan of the array is
    [find_slot].  [queue_wf] is the queue's invariant and [job_moves] the
    lifecycle of a slot; the theorems say that every operation keeps the first
    and follows the second. *)
From Stdlib Require Import ZArith Lia Strings.Byte Strings.String Sorting.Sorted.
From stdpp Require Import base list option numbers tactics.
From S2P Require Import Prelude.
From S2P Require Import Protocol.
From S2P Require Import Codec.
From S2P Require Import Buffer.
From S2P Require Import Operations.
From S2P Require Import KwinEnvelope.
Local Open Scope Z_scope.
Local Open Scope ksd_scope.

(** [KSD_MAX_AUTHORITY_WORKERS] of src/worker_pool.h. *)
Definition KSD_MAX_AUTHORITY_WORKERS : Z := 128.
Definition KSD_KWIN_MAX_JOBS : Z := KSD_MAX_AUTHORITY_WORKERS.

Inductive ksd_kwin_job_state :=
| KSD_KWIN_JOB_FREE
| KSD_KWIN_JOB_QUEUED
| KSD_KWIN_JOB_DISPATCHED
| KSD_KWIN_JOB_DONE.
#[export] Instance job_state_eq_dec : EqDecision ksd_kwin_job_state.
Proof. solve_decision. Defined.
#[export] Instance lane_eq_dec : EqDecision ksd_kwin_lane.
Proof. solve_decision. Defined.

Inductive ksd_kwin_poll_outcome := KSD_KWIN_POLL_ANSWERED | KSD_KWIN_POLL_PARKED | KSD_KWIN_POLL_REFUSED.

Record ksd_kwin_job := mk_job {
  job_sequence : list byte;
  job_opcode : Z;
  job_lane : ksd_kwin_lane;
  job_state : ksd_kwin_job_state;
  job_deadline_ms : Z;
  job_ticket : Z;
  job_status : Z;
  job_body : option (list byte);
  job_body_length : Z;
  job_reply : option (list byte);
  job_reply_length : Z;
}.

Record ksd_kwin_queue := mk_queue {
  q_jobs : list ksd_kwin_job;
  q_generation : list byte;
  q_next_sequence : Z;
  q_next_ticket : Z;
  q_parked_fast : bool;
  q_parked_slow : bool;
}.

Definition with_jobs (q : ksd_kwin_queue) (jobs : list ksd_kwin_job) : ksd_kwin_queue :=
  mk_queue jobs (q_generation q) (q_next_sequence q) (q_next_ticket q) (q_parked_fast q) (q_parked_slow q).

Definition with_state (job : ksd_kwin_job) (state : ksd_kwin_job_state) : ksd_kwin_job :=
  mk_job (job_sequence job) (job_opcode job) (job_lane job) state (job_deadline_ms job) (job_ticket job)
    (job_status job) (job_body job) (job_body_length job) (job_reply job) (job_reply_length job).

Definition lane_capacity (lane : ksd_kwin_lane) : Z :=
  match lane with
  | KSD_KWIN_LANE_FAST => KSD_KWIN_JOBS_PER_REPLY_FAST
  | KSD_KWIN_LANE_SLOW => KSD_KWIN_JOBS_PER_REPLY_SLOW
  | KSD_KWIN_LANE_NONE => 0
  end.

Definition format_sequence (value : Z) : list byte := hex_text 16 value.

(** The slot [memset] leaves; the enumerations' zero values are the first
    constructors. *)
Definition free_job : ksd_kwin_job :=
  mk_job [] 0 KSD_KWIN_LANE_FAST KSD_KWIN_JOB_FREE 0 0 0 None 0 None 0.
Definition release_slot (job : ksd_kwin_job) : ksd_kwin_job := free_job.

Definition ksd_kwin_queue_init (generation : list byte) : option ksd_kwin_queue :=
  guard* valid_generation generation in
  Some (mk_queue (repeat free_job (Z.to_nat KSD_KWIN_MAX_JOBS)) generation 1 1 false false).

(** The first slot a scan of the array stops at. *)
Fixpoint find_slot (p : ksd_kwin_job -> bool) (jobs : list ksd_kwin_job) : option (nat * ksd_kwin_job) :=
  match jobs with
  | [] => None
  | job :: jobs =>
    if p job then Some (O, job)
    else let* (i, found) := find_slot p jobs in Some (S i, found)
  end.

Definition is_state (state : ksd_kwin_job_state) (job : ksd_kwin_job) : bool :=
  bool_decide (job_state job = state).
Definition live (job : ksd_kwin_job) : bool := negb (is_state KSD_KWIN_JOB_FREE job).
Definition named (sequence : list byte) (job : ksd_kwin_job) : bool :=
  live job && bytes_eqb (job_sequence job) sequence.

Section queue.
Context {AL : Allocator}.

(** [body] is [None] for NULL; the sequence is returned on success. *)
Definition ksd_kwin_queue_submit (queue : ksd_kwin_queue) (opcode : Z) (body : option (list byte))
    (body_length now_ms : Z) : option (list byte) * ksd_kwin_queue :=
  if negb (body_length =? 0) && bool_decide (body = None) then (None, queue)
  else
    let lane := ksd_kwin_lane_for opcode in
    if bool_decide (lane = KSD_KWIN_LANE_NONE) then (None, queue)
    else
      match find_slot (is_state KSD_KWIN_JOB_FREE) (q_jobs queue) with
      | None => (None, queue)
      | Some (index, _) =>
        let sequence := format_sequence (q_next_sequence queue) in
        let finish job := mk_queue (<[index := job]> (q_jobs queue)) (q_generation queue)
          (u64 (q_next_sequence queue + 1)) (u64 (q_next_ticket queue + 1))
          (q_parked_fast queue) (q_parked_slow queue) in
        let job body body_length := mk_job sequence opcode lane KSD_KWIN_JOB_QUEUED
          (u64 (now_ms + KSD_KWIN_OP_DEADLINE_MS)) (q_next_ticket queue) 0 body body_length None 0 in
        if body_length =? 0 then (Some sequence, finish (job None 0))
        else if alloc_ok body_length
        then (Some sequence, finish (job (option_map (ztake body_length) body) body_length))
        else (None, finish free_job)
      end.

Definition ksd_kwin_queue_find (queue : ksd_kwin_queue) (sequence : list byte) : option (nat * ksd_kwin_job) :=
  find_slot (named sequence) (q_jobs queue).

(** The scan for the oldest queued job of a lane. *)
Fixpoint oldest_from (lane : ksd_kwin_lane) (index : nat) (jobs : list ksd_kwin_job)
    (oldest : option (nat * ksd_kwin_job)) : option (nat * ksd_kwin_job) :=
  match jobs with
  | [] => oldest
  | job :: jobs =>
    let oldest :=
      if negb (is_state KSD_KWIN_JOB_QUEUED job) || negb (bool_decide (job_lane job = lane)) then oldest
      else match oldest with
           | None => Some (index, job)
           | Some (_, best) => if job_ticket job <? job_ticket best then Some (index, job) else oldest
           end in
    oldest_from lane (S index) jobs oldest
  end.

Fixpoint take_loop (limit : nat) (lane : ksd_kwin_lane) (jobs : list ksd_kwin_job)
    : list ksd_kwin_job * list ksd_kwin_job :=
  match limit with
  | O => ([], jobs)
  | S limit =>
    match oldest_from lane 0 jobs None with
    | None => ([], jobs)
    | Some (index, oldest) =>
      let oldest := with_state oldest KSD_KWIN_JOB_DISPATCHED in
      let '(batch, jobs) := take_loop limit lane (<[index := oldest]> jobs) in
      (oldest :: batch, jobs)
    end
  end.

Definition ksd_kwin_queue_take (queue : ksd_kwin_queue) (lane : ksd_kwin_lane) (capacity : Z)
    : list ksd_kwin_job * ksd_kwin_queue :=
  let limit := lane_capacity lane in
  let limit := if capacity <? limit then capacity else limit in
  let '(batch, jobs) := take_loop (Z.to_nat limit) lane (q_jobs queue) in
  (batch, with_jobs queue jobs).

Definition dispatch_of (now_ms : Z) (job : ksd_kwin_job) : ksd_kwin_dispatch :=
  mk_dispatch (job_sequence job) (job_opcode job)
    (if now_ms <? job_deadline_ms job then u32 (job_deadline_ms job - now_ms) else 0)
    (job_body job) (job_body_length job).

Definition dispatch_jobs (queue : ksd_kwin_queue) (lane : ksd_kwin_lane) (now_ms : Z)
    : list ksd_kwin_dispatch * ksd_kwin_queue :=
  let '(batch, queue) := ksd_kwin_queue_take queue lane KSD_KWIN_JOBS_PER_REPLY_FAST in
  (map (dispatch_of now_ms) batch, queue).

Definition ksd_kwin_queue_hello (queue : ksd_kwin_queue) : bufop :=
  ksd_kwin_format_report_ack (q_generation queue).

Definition set_parked (queue : ksd_kwin_queue) (lane : ksd_kwin_lane) (parked : bool) : ksd_kwin_queue :=
  mk_queue (q_jobs queue) (q_generation queue) (q_next_sequence queue) (q_next_ticket queue)
    (match lane with KSD_KWIN_LANE_FAST => parked | _ => q_parked_fast queue end)
    (match lane with KSD_KWIN_LANE_FAST => q_parked_slow queue | _ => parked end).

Definition ksd_kwin_queue_poll (queue : ksd_kwin_queue) (envelope : list byte) (now_ms : Z)
    (reply : ksd_buffer) : ksd_kwin_poll_outcome * ksd_kwin_queue * ksd_buffer :=
  match ksd_kwin_parse_poll envelope with
  | None => (KSD_KWIN_POLL_REFUSED, queue, reply)
  | Some poll =>
    if negb (bytes_eqb (poll_generation poll) (q_generation queue))
    then (KSD_KWIN_POLL_REFUSED, queue, reply)
    else
      let '(dispatch, queue) := dispatch_jobs queue (poll_lane poll) now_ms in
      match dispatch with
      | [] => (KSD_KWIN_POLL_PARKED, set_parked queue (poll_lane poll) true, reply)
      | _ :: _ =>
        let queue := set_parked queue (poll_lane poll) false in
        let '(ok, reply) :=
          ksd_kwin_format_poll_reply (q_generation queue) (poll_lane poll) 0 dispatch reply in
        (if ok then KSD_KWIN_POLL_ANSWERED else KSD_KWIN_POLL_REFUSED, queue, reply)
      end
  end.

Definition ksd_kwin_queue_poll_parked (queue : ksd_kwin_queue) (lane : ksd_kwin_lane) (now_ms : Z)
    (reply : ksd_buffer) : bool * ksd_kwin_queue * ksd_buffer :=
  if bool_decide (lane = KSD_KWIN_LANE_NONE) then (false, queue, reply)
  else
    let queue := set_parked queue lane false in
    let '(dispatch, queue) := dispatch_jobs queue lane now_ms in
    let idle_ms := match dispatch with [] => KSD_KWIN_IDLE_REPLY_MS | _ => 0 end in
    let '(ok, reply) := ksd_kwin_format_poll_reply (q_generation queue) lane idle_ms dispatch reply in
    (ok, queue, reply).

Definition ksd_kwin_queue_complete (queue : ksd_kwin_queue) (generation sequence : list byte)
    (status : Z) (reply : option (list byte)) (reply_length : Z) : bool * ksd_kwin_queue :=
  if negb (valid_generation generation)
     || negb (bytes_eqb (ztake KSD_KWIN_GENERATION_HEX generation)
                (ztake KSD_KWIN_GENERATION_HEX (q_generation queue)))
  then (false, queue)
  else
    match find_slot (named sequence) (q_jobs queue) with
    | None => (false, queue)
    | Some (index, job) =>
      if negb (is_state KSD_KWIN_JOB_DISPATCHED job) then (false, queue)
      else if negb (reply_length =? 0) && bool_decide (reply = None) then (false, queue)
      else if negb (reply_length =? 0) && negb (alloc_ok reply_length) then (false, queue)
      else
        let '(new_reply, new_length) :=
          if negb (reply_length =? 0) then (option_map (ztake reply_length) reply, reply_length)
          else (job_reply job, job_reply_length job) in
        let job := mk_job (job_sequence job) (job_opcode job) (job_lane job) KSD_KWIN_JOB_DONE
          (job_deadline_ms job) (job_ticket job) status (job_body job) (job_body_length job)
          new_reply new_length in
        (true, with_jobs queue (<[index := job]> (q_jobs queue)))
    end.

(** The second loop of [ksd_kwin_queue_report]: completes until one fails. *)
Fixpoint complete_all (queue : ksd_kwin_queue) (done : list ksd_kwin_done) : bool * ksd_kwin_queue :=
  match done with
  | [] => (true, queue)
  | d :: done =>
    let '(ok, queue) := ksd_kwin_queue_complete queue (q_generation queue) (done_sequence d)
      (done_status d) (Some (done_body d)) (done_body_length d) in
    if ok then complete_all queue done else (false, queue)
  end.

Definition report_matches (queue : ksd_kwin_queue) (d : ksd_kwin_done) : bool :=
  match ksd_kwin_queue_find queue (done_sequence d) with
  | None => false
  | Some (_, job) => is_state KSD_KWIN_JOB_DISPATCHED job
  end.

(** What a parsed report does to the queue, before the acknowledgement. *)
Definition apply_report (queue : ksd_kwin_queue) (report : ksd_kwin_report) : bool * ksd_kwin_queue :=
  if negb (bytes_eqb (report_generation report) (q_generation queue)) then (false, queue)
  else if negb (forallb (report_matches queue) (report_done report)) then (false, queue)
  else complete_all queue (report_done report).

Definition ksd_kwin_queue_report (queue : ksd_kwin_queue) (envelope : list byte) (reply : ksd_buffer)
    : bool * ksd_kwin_queue * ksd_buffer :=
  match ksd_kwin_parse_report envelope with
  | None => (false, queue, reply)
  | Some report =>
    let '(ok, queue) := apply_report queue report in
    if negb ok then (false, queue, reply)
    else
      let '(ok, reply) := ksd_kwin_format_report_ack (q_generation queue) reply in
      (ok, queue, reply)
  end.

Definition ksd_kwin_queue_parked (queue : ksd_kwin_queue) (lane : ksd_kwin_lane) : bool :=
  match lane with
  | KSD_KWIN_LANE_FAST => q_parked_fast queue
  | KSD_KWIN_LANE_SLOW => q_parked_slow queue
  | KSD_KWIN_LANE_NONE => false
  end.

Definition ksd_kwin_queue_result (queue : ksd_kwin_queue) (sequence : list byte)
    : option (Z * option (list byte) * Z) :=
  let* (_, job) := ksd_kwin_queue_find queue sequence in
  guard* is_state KSD_KWIN_JOB_DONE job in
  Some (job_status job, job_reply job, job_reply_length job).

Definition expired (now_ms : Z) (job : ksd_kwin_job) : bool :=
  is_state KSD_KWIN_JOB_QUEUED job && (job_deadline_ms job <=? now_ms).

Definition ksd_kwin_queue_expire (queue : ksd_kwin_queue) (now_ms : Z) : Z * ksd_kwin_queue :=
  (zlen (filter (fun job => expired now_ms job = true) (q_jobs queue)),
   with_jobs queue (map (fun job => if expired now_ms job then release_slot job else job) (q_jobs queue))).

Definition ksd_kwin_queue_count (queue : ksd_kwin_queue) (state : ksd_kwin_job_state) : Z :=
  zlen (filter (fun job => job_state job = state) (q_jobs queue)).

Definition ksd_kwin_queue_release (queue : ksd_kwin_queue) (sequence : list byte) : ksd_kwin_queue :=
  match find_slot (named sequence) (q_jobs queue) with
  | None => queue
  | Some (index, job) => with_jobs queue (<[index := release_slot job]> (q_jobs queue))
  end.
End queue.

(** ** Scans *)

Lemma find_slot_some p l i x :
  find_slot p l = Some (i, x) ->
  l !! i = Some x /\ p x = true /\ (forall k y, (k < i)%nat -> l !! k = Some y -> p y = false).
Proof.
  revert i. induction l as [|a l IH]; intros i; cbn; [done|]. destruct (p a) eqn:Ha.
  - intros [= <- <-]. split; [done|]. split; [done|]. lia.
  - destruct (find_slot p l) as [[j y]|]; [|done]. intros [= <- <-].
    destruct (IH j eq_refl) as (? & ? & Hk). split; [done|]. split; [done|].
    intros [|k] z Hlt Hz; cbn in Hz; [congruence|]. apply (Hk k); [lia|done].
Qed.

Lemma find_slot_none p l : find_slot p l = None -> forall i x, l !! i = Some x -> p x = false.
Proof.
  induction l as [|a l IH]; cbn; [done|]. destruct (p a) eqn:Ha; [done|].
  destruct (find_slot p l) as [[j y]|]; [done|]. intros _ [|i] x Hx; cbn in Hx; [congruence|].
  by eapply IH.
Qed.

(** A scan for a property at most one slot has finds that slot. *)
Lemma find_slot_unique p l i x :
  l !! i = Some x -> p x = true -> (forall k y, l !! k = Some y -> p y = true -> k = i) ->
  find_slot p l = Some (i, x).
Proof.
  intros Hi Hp Hu. destruct (find_slot p l) as [[j y]|] eqn:E.
  - apply find_slot_some in E as (Hj & Hpy & _). assert (j = i) by eauto. subst. congruence.
  - pose proof (find_slot_none _ _ E _ _ Hi). congruence.
Qed.

Definition queued_in (lane : ksd_kwin_lane) (job : ksd_kwin_job) : Prop :=
  job_state job = KSD_KWIN_JOB_QUEUED /\ job_lane job = lane.

(** The scan for the oldest finds a queued job of the lane with the smallest
    ticket of all, and fails only when the lane has none queued. *)
Lemma oldest_from_spec lane jobs : forall pre oldest,
  match oldest with
  | None => forall i x, pre !! i = Some x -> ~ queued_in lane x
  | Some (i, x) => pre !! i = Some x /\ queued_in lane x /\
      forall k y, pre !! k = Some y -> queued_in lane y -> job_ticket x <= job_ticket y
  end ->
  match oldest_from lane (length pre) jobs oldest with
  | None => forall i x, (pre ++ jobs) !! i = Some x -> ~ queued_in lane x
  | Some (i, x) => (pre ++ jobs) !! i = Some x /\ queued_in lane x /\
      forall k y, (pre ++ jobs) !! k = Some y -> queued_in lane y -> job_ticket x <= job_ticket y
  end.
Proof.
  induction jobs as [|job jobs IH]; intros pre oldest Hpre; cbn [oldest_from].
  - by rewrite app_nil_r.
  - rewrite (cons_middle job pre jobs), app_assoc.
    replace (S (length pre)) with (length (pre ++ [job])) by (rewrite length_app; cbn; lia).
    apply IH. unfold is_state.
    assert (Hsplit : forall k y, (pre ++ [job]) !! k = Some y -> pre !! k = Some y \/ y = job /\ k = length pre).
    { intros k y [Hk|[Hk Hj]]%lookup_app_Some; [by left|right].
      apply list_lookup_singleton_Some in Hj as [? ?]. split; [done|lia]. }
    assert (Hl : forall k y, pre !! k = Some y -> (pre ++ [job]) !! k = Some y) by (intros; by apply lookup_app_l_Some).
    assert (Hend : (pre ++ [job]) !! length pre = Some job) by (by apply list_lookup_middle).
    destruct (decide (queued_in lane job)) as [[Hq Hlane]|Hn].
    + rewrite !bool_decide_eq_true_2 by done. cbn [negb orb]. destruct oldest as [[i x]|].
      * destruct Hpre as (Hi & Hx & Hmin). case_if; breflect.
        -- split; [done|]. split; [done|]. intros k y [Hk|[-> ->]]%Hsplit Hy; [|lia].
           specialize (Hmin k y Hk Hy). lia.
        -- split; [auto|]. split; [done|]. intros k y [Hk|[-> ->]]%Hsplit Hy; [eauto|lia].
      * split; [done|]. split; [done|]. intros k y [Hk|[-> ->]]%Hsplit Hy; [|lia]. by destruct (Hpre k y).
    + assert (negb (bool_decide (job_state job = KSD_KWIN_JOB_QUEUED)) || negb (bool_decide (job_lane job = lane)) = true) as ->.
      { destruct (decide (job_state job = KSD_KWIN_JOB_QUEUED)); [|by rewrite bool_decide_eq_false_2].
        rewrite (bool_decide_eq_false_2 (job_lane job = lane)); [by rewrite orb_true_r|]. intros ?. by apply Hn. }
      destruct oldest as [[i x]|].
      * destruct Hpre as (Hi & Hx & Hmin). split; [auto|]. split; [done|].
        intros k y [Hk|[-> ->]]%Hsplit Hy; [eauto|done].
      * intros i x [Hi|[-> ->]]%Hsplit; [by apply (Hpre i)|done].
Qed.

Lemma oldest_spec lane jobs :
  match oldest_from lane 0 jobs None with
  | None => forall i x, jobs !! i = Some x -> ~ queued_in lane x
  | Some (i, x) => jobs !! i = Some x /\ queued_in lane x /\
      forall k y, jobs !! k = Some y -> queued_in lane y -> job_ticket x <= job_ticket y
  end.
Proof. apply (oldest_from_spec lane jobs [] None). done. Qed.

(** ** The invariant *)

(** What a slot holds: nothing, or a job with a sequence and a ticket already
    issued, in the lane of its opcode, owning a body of the stated length. *)
Definition job_wf (next_sequence next_ticket : Z) (job : ksd_kwin_job) : Prop :=
  if live job then
    (exists n, 1 <= n < next_sequence /\ job_sequence job = format_sequence n) /\
    1 <= job_ticket job < next_ticket /\ job_lane job = ksd_kwin_lane_for (job_opcode job) /\
    job_lane job <> KSD_KWIN_LANE_NONE /\ job_body_length job = zlen (default [] (job_body job)) /\
    (job_state job <> KSD_KWIN_JOB_DONE -> job_reply job = None /\ job_reply_length job = 0)
  else job = free_job.

(** No two live slots share [f]. *)
Definition live_unique {B} (f : ksd_kwin_job -> B) (jobs : list ksd_kwin_job) : Prop :=
  forall i j a b, jobs !! i = Some a -> jobs !! j = Some b -> live a = true -> live b = true -> f a = f b -> i = j.

Definition queue_wf (q : ksd_kwin_queue) : Prop :=
  zlen (q_jobs q) = KSD_KWIN_MAX_JOBS /\ valid_generation (q_generation q) = true /\
  Forall (job_wf (q_next_sequence q) (q_next_ticket q)) (q_jobs q) /\
  live_unique job_sequence (q_jobs q) /\ live_unique job_ticket (q_jobs q) /\
  1 <= q_next_sequence q < 2 ^ 64 /\ 1 <= q_next_ticket q < 2 ^ 64.

(** The parts of a job that identify it. *)
Definition same_identity (a b : ksd_kwin_job) : Prop :=
  job_sequence a = job_sequence b /\ job_opcode a = job_opcode b /\ job_lane a = job_lane b /\
  job_ticket a = job_ticket b /\ job_deadline_ms a = job_deadline_ms b /\
  job_body a = job_body b /\ job_body_length a = job_body_length b.

Lemma live_unique_insert {B} (f : ksd_kwin_job -> B) jobs i old new :
  live_unique f jobs -> jobs !! i = Some old ->
  (live new = true -> (live old = true /\ f new = f old) \/
     forall j b, jobs !! j = Some b -> live b = true -> f b <> f new) ->
  live_unique f (<[i := new]> jobs).
Proof.
  intros Hu Hi Hnew j k a b Hj Hk La Lb Hab.
  assert (Hlen : (i < length jobs)%nat) by (by eapply lookup_lt_Some).
  destruct (decide (i = j)) as [->|Hij], (decide (j = k)) as [->|Hjk]; try done.
  - rewrite list_lookup_insert_eq in Hj by done. rewrite list_lookup_insert_ne in Hk by done. simplify_eq.
    destruct (Hnew La) as [[Lo Ho]|Hf]; [|by destruct (Hf k b)].
    eapply Hu; [exact Hi|exact Hk|done|done|congruence].
  - rewrite list_lookup_insert_ne in Hj by done.
    destruct (decide (i = k)) as [->|Hik].
    + rewrite list_lookup_insert_eq in Hk by done. simplify_eq.
      destruct (Hnew Lb) as [[Lo Ho]|Hf]; [|by destruct (Hf j a)].
      eapply Hu; [exact Hj|exact Hi|done|done|congruence].
    + rewrite list_lookup_insert_ne in Hk by done. by eapply Hu.
Qed.

(** A slot may be replaced by the same job in a later state, or be freed. *)
Lemma queue_wf_update q i old new :
  queue_wf q -> q_jobs q !! i = Some old ->
  new = free_job \/ (live old = true /\ live new = true /\ same_identity new old /\
    (job_state new <> KSD_KWIN_JOB_DONE -> job_reply new = None /\ job_reply_length new = 0)) ->
  queue_wf (with_jobs q (<[i := new]> (q_jobs q))).
Proof.
  intros (Hlen & Hg & Hall & Hs & Ht & Hn) Hi Hnew.
  assert (Hw : job_wf (q_next_sequence q) (q_next_ticket q) new).
  { destruct Hnew as [->|(Lo & Ln & (E1 & E2 & E3 & E4 & E5 & E6 & E7) & Hr)]; [done|].
    pose proof (Forall_lookup_1 _ _ _ _ Hall Hi) as Hold. unfold job_wf in *. rewrite Lo in Hold. rewrite Ln.
    rewrite E1, E2, E3, E4, E6, E7. destruct Hold as (? & ? & ? & ? & ? & _). done. }
  split; [|split; [done|split; [|split; [|split; [|done]]]]]; cbn.
  - unfold zlen in *. by rewrite length_insert.
  - by apply Forall_insert.
  - eapply live_unique_insert; [done|done|]. intros Ln. left.
    destruct Hnew as [->|(? & ? & (? & _) & _)]; [done|]. done.
  - eapply live_unique_insert; [done|done|]. intros Ln. left.
    destruct Hnew as [->|(? & ? & (? & ? & ? & ? & _) & _)]; [done|]. done.
Qed.

Lemma with_jobs_twice q a b : with_jobs (with_jobs q a) b = with_jobs q b.
Proof. done. Qed.

Lemma init_wf g q : ksd_kwin_queue_init g = Some q -> queue_wf q.
Proof.
  unfold ksd_kwin_queue_init. case_if; [|done]. intros [= <-].
  assert (Hfree : forall i a, repeat free_job (Z.to_nat KSD_KWIN_MAX_JOBS) !! i = Some a -> a = free_job).
  { intros i a Ha. apply list_elem_of_lookup_2, list_elem_of_In, repeat_spec in Ha. done. }
  split; [done|]. split; [done|]. split; [|split; [|split; [|cbn; lia]]]; cbn.
  - apply Forall_lookup. intros i a Ha%Hfree. by subst.
  - intros i j a b Ha%Hfree _ La. by subst.
  - intros i j a b Ha%Hfree _ La. by subst.
Qed.

(** Sequences name jobs uniquely: the sequence of a number tells the number. *)
Lemma hex_text_length n v : length (hex_text n v) = n.
Proof. induction n; cbn; auto. Qed.

Definition hex_value (b : byte) : Z := if b2z b <? 97 then b2z b - 48 else b2z b - 87.
Lemma hexadecimal_value k : 0 <= k < 16 -> hex_value (nth (Z.to_nat k) hexadecimal x00) = k /\
  hex_digit (nth (Z.to_nat k) hexadecimal x00) = true.
Proof.
  intros Hk. assert (H : forallb (fun n => (hex_value (nth n hexadecimal x00) =? Z.of_nat n) &&
    hex_digit (nth n hexadecimal x00)) (seq 0 16) = true) by reflexivity.
  rewrite forallb_forall in H. specialize (H (Z.to_nat k) ltac:(apply in_seq; lia)).
  apply andb_true_iff in H as [H ?]. apply Z.eqb_eq in H. split; [lia|done].
Qed.

Lemma hex_text_inj n v w :
  hex_text n v = hex_text n w -> v mod 16 ^ Z.of_nat n = w mod 16 ^ Z.of_nat n.
Proof.
  induction n as [|n IH]; cbn [hex_text]; [intros _; by rewrite !Z.mod_1_r|]. intros H.
  pose proof (f_equal (fun l => nth 0 l x00) H) as Hd. cbn beta in Hd.
  pose proof (f_equal (@tl byte) H) as Ht. cbn [tl] in Ht. clear H.
  change (nth 0 (?x :: _) x00) with x in Hd.
  assert (Hland : forall x, Z.land (Z.shiftr x (4 * Z.of_nat n)) 0xf = x / 16 ^ Z.of_nat n mod 16).
  { intros x. rewrite Z.shiftr_div_pow2 by lia. rewrite (Z.pow_mul_r 2 4) by lia.
    change 0xf with (2 ^ 4 - 1). by rewrite <- mod_pow2_land by lia. }
  rewrite !Hland in Hd. apply (f_equal hex_value) in Hd.
  rewrite !(proj1 (hexadecimal_value _ (Z.mod_pos_bound _ 16 ltac:(lia)))) in Hd.
  specialize (IH Ht). rewrite Nat2Z.inj_succ, Z.pow_succ_r, (Z.mul_comm 16) by lia.
  assert (0 < 16 ^ Z.of_nat n) by lia. rewrite !Z.rem_mul_r by lia. rewrite IH, Hd. done.
Qed.

Lemma format_sequence_inj v w : is_u64 v -> is_u64 w -> format_sequence v = format_sequence w -> v = w.
Proof.
  intros Hv Hw H. apply hex_text_inj in H. change (16 ^ Z.of_nat 16) with (2 ^ 64) in H.
  by rewrite !Z.mod_small in H.
Qed.

Lemma format_sequence_valid v : valid_sequence (format_sequence v) = true.
Proof.
  unfold valid_sequence, valid_hex_string, format_sequence. rewrite ztake_all.
  2:{ unfold zlen. by rewrite hex_text_length. }
  assert (H : forall n, forallb hex_digit (hex_text n v) = true).
  { induction n; cbn [hex_text forallb]; [done|]. rewrite IHn, andb_true_r.
    apply hexadecimal_value. change 0xf with (2 ^ 4 - 1). rewrite <- mod_pow2_land by lia.
    apply Z.mod_pos_bound. lia. }
  rewrite H. unfold zlen. by rewrite hex_text_length.
Qed.

(** ** The lifecycle of a slot *)

Definition queues (opcode now_ms : Z) (a b : ksd_kwin_job) : Prop :=
  a = free_job /\ job_state b = KSD_KWIN_JOB_QUEUED /\ job_opcode b = opcode /\
  job_deadline_ms b = u64 (now_ms + KSD_KWIN_OP_DEADLINE_MS).
Definition dispatches (lane : ksd_kwin_lane) (a b : ksd_kwin_job) : Prop :=
  queued_in lane a /\ b = with_state a KSD_KWIN_JOB_DISPATCHED.
Definition completes (a b : ksd_kwin_job) : Prop :=
  job_state a = KSD_KWIN_JOB_DISPATCHED /\ job_state b = KSD_KWIN_JOB_DONE /\ same_identity b a.
(** The dispatched job that a completion names is done with the status and the body
    that it carried. *)
Definition completes_by (d : ksd_kwin_done) (a b : ksd_kwin_job) : Prop :=
  completes a b /\ named (done_sequence d) a = true /\ job_status b = done_status d /\
  job_reply b = (if done_body_length d =? 0 then None else Some (ztake (done_body_length d) (done_body d))) /\
  job_reply_length b = done_body_length d.
Definition expires (now_ms : Z) (a b : ksd_kwin_job) : Prop := expired now_ms a = true /\ b = free_job.
Definition releases (sequence : list byte) (a b : ksd_kwin_job) : Prop := named sequence a = true /\ b = free_job.

(** An operation kept the invariant and the generation, and each slot it
    changed moved by [R]. *)
Definition keeps (R : ksd_kwin_job -> ksd_kwin_job -> Prop) (q q' : ksd_kwin_queue) : Prop :=
  queue_wf q' /\ q_generation q' = q_generation q /\
  Forall2 (fun a b => a = b \/ R a b) (q_jobs q) (q_jobs q').

(** A relation that never applies twice in a row to a slot. *)
Definition once (R : ksd_kwin_job -> ksd_kwin_job -> Prop) : Prop := forall a b c, R a b -> R b c -> False.

Lemma keeps_refl R q : queue_wf q -> keeps R q q.
Proof. intros Hq. split; [done|]. split; [done|]. apply Forall_Forall2_diag, Forall_true. by left. Qed.

Lemma keeps_mono (R R' : ksd_kwin_job -> ksd_kwin_job -> Prop) q q' :
  (forall a b, R a b -> R' a b) -> keeps R q q' -> keeps R' q q'.
Proof.
  intros HR (Hw & Hg & H). split; [done|]. split; [done|]. eapply Forall2_impl; [|exact H].
  intros a b [->|Hab]; [by left|right; auto].
Qed.

Lemma keeps_trans R q1 q2 q3 : once R -> keeps R q1 q2 -> keeps R q2 q3 -> keeps R q1 q3.
Proof.
  intros HR (_ & Hg1 & H1) (Hw & Hg2 & H2). split; [done|]. split; [congruence|].
  eapply Forall2_trans; [|exact H1|exact H2].
  intros a b c [->|Hab] [<-|Hbc]; eauto. by destruct (HR a b c).
Qed.

Lemma Forall2_insert_r {A} (R : A -> A -> Prop) l i old new :
  l !! i = Some old -> R old new -> Forall2 (fun a b => a = b \/ R a b) l (<[i := new]> l).
Proof.
  intros Hi HR. rewrite <- (list_insert_id l i old) at 1 by done.
  apply Forall2_insert; [|by right]. apply Forall_Forall2_diag, Forall_true. by left.
Qed.

Lemma keeps_update (R : ksd_kwin_job -> ksd_kwin_job -> Prop) q i old new :
  queue_wf q -> q_jobs q !! i = Some old -> R old new ->
  new = free_job \/ (live old = true /\ live new = true /\ same_identity new old /\
    (job_state new <> KSD_KWIN_JOB_DONE -> job_reply new = None /\ job_reply_length new = 0)) ->
  keeps R q (with_jobs q (<[i := new]> (q_jobs q))).
Proof.
  intros Hq Hi HR Hnew. split; [by eapply queue_wf_update|]. split; [done|]. cbn.
  by eapply Forall2_insert_r.
Qed.

Lemma live_state a : live a = true <-> job_state a <> KSD_KWIN_JOB_FREE.
Proof. unfold live, is_state. rewrite negb_true_iff. apply bool_decide_eq_false. Qed.

Lemma wf_lookup q i a : queue_wf q -> q_jobs q !! i = Some a -> job_wf (q_next_sequence q) (q_next_ticket q) a.
Proof. intros (_ & _ & H & _) Hi. by eapply Forall_lookup_1 in H. Qed.

Lemma wf_no_reply q i a :
  queue_wf q -> q_jobs q !! i = Some a -> live a = true -> job_state a <> KSD_KWIN_JOB_DONE ->
  job_reply a = None /\ job_reply_length a = 0.
Proof.
  intros Hq Hi La Hs. pose proof (wf_lookup _ _ _ Hq Hi) as Hw. unfold job_wf in Hw. rewrite La in Hw.
  by apply Hw.
Qed.

Lemma dispatches_once lane : once (dispatches lane).
Proof. intros a b c [_ ->] [[Hq _] _]. done. Qed.
Lemma completes_by_once (ds : list ksd_kwin_done) : once (fun a b => exists d, d ∈ ds /\ completes_by d a b).
Proof. intros a b c (d & _ & (_ & Hb & _) & _) (d' & _ & (Hb' & _) & _). congruence. Qed.

Lemma take_loop_keeps lane limit : forall q,
  queue_wf q -> keeps (dispatches lane) q (with_jobs q (snd (take_loop limit lane (q_jobs q)))).
Proof.
  induction limit as [|limit IH]; intros q Hq; cbn [take_loop].
  - destruct q; by apply keeps_refl.
  - pose proof (oldest_spec lane (q_jobs q)) as Ho.
    destruct (oldest_from lane 0 (q_jobs q) None) as [[i job]|]; [|destruct q; by apply keeps_refl].
    destruct Ho as (Hi & [Hst Hlane] & _).
    assert (Hlive : live job = true) by (apply live_state; congruence).
    pose proof (wf_no_reply q i job Hq Hi Hlive ltac:(congruence)) as [Hr1 Hr2].
    set (job' := with_state job KSD_KWIN_JOB_DISPATCHED).
    assert (H1 : keeps (dispatches lane) q (with_jobs q (<[i := job']> (q_jobs q)))).
    { eapply keeps_update; [done|done|by repeat split|]. right. by repeat split. }
    specialize (IH _ (proj1 H1)). cbn [q_jobs with_jobs] in IH.
    destruct (take_loop limit lane (<[i := job']> (q_jobs q))) as [batch jobs]. cbn [snd] in *.
    eapply keeps_trans; [apply dispatches_once|exact H1|exact IH].
Qed.

Section queue_theorems.
Context {AL : Allocator}.

Lemma take_keeps q lane capacity :
  queue_wf q -> keeps (dispatches lane) q (snd (ksd_kwin_queue_take q lane capacity)).
Proof.
  intros Hq. unfold ksd_kwin_queue_take.
  pose proof (take_loop_keeps lane (Z.to_nat (if capacity <? lane_capacity lane then capacity else lane_capacity lane)) q Hq) as H.
  destruct (take_loop _ _ _) as [batch jobs]. done.
Qed.

Lemma dispatch_jobs_keeps q lane now_ms :
  queue_wf q -> keeps (dispatches lane) q (snd (dispatch_jobs q lane now_ms)).
Proof.
  intros Hq. unfold dispatch_jobs. pose proof (take_keeps q lane KSD_KWIN_JOBS_PER_REPLY_FAST Hq) as H.
  destruct (ksd_kwin_queue_take _ _ _) as [batch q']. done.
Qed.

Lemma set_parked_keeps R q q' lane b : keeps R q q' -> keeps R q (set_parked q' lane b).
Proof. done. Qed.

Lemma poll_keeps q envelope now_ms reply :
  queue_wf q ->
  keeps (fun a b => exists p, ksd_kwin_parse_poll envelope = Some p /\ poll_generation p = q_generation q /\
           dispatches (poll_lane p) a b) q (snd (fst (ksd_kwin_queue_poll q envelope now_ms reply))).
Proof.
  intros Hq. unfold ksd_kwin_queue_poll.
  destruct (ksd_kwin_parse_poll envelope) as [p|]; [|by apply keeps_refl].
  case_if; [by apply keeps_refl|]. rewrite negb_false_iff in Heqb. apply bool_decide_eq_true in Heqb.
  pose proof (dispatch_jobs_keeps q (poll_lane p) now_ms Hq) as H.
  eapply (keeps_mono _ (fun a b => exists p0, Some p = Some p0 /\ poll_generation p0 = q_generation q /\
    dispatches (poll_lane p0) a b)) in H; [|by intros a b Hab; exists p].
  destruct (dispatch_jobs _ _ _) as [[|d ds] q']; cbn [fst snd] in *; [done|].
  destruct (ksd_kwin_format_poll_reply _ _ _ _ _) as [ok reply']. done.
Qed.

Lemma poll_parked_keeps q lane now_ms reply :
  queue_wf q -> keeps (dispatches lane) q (snd (fst (ksd_kwin_queue_poll_parked q lane now_ms reply))).
Proof.
  intros Hq. unfold ksd_kwin_queue_poll_parked. case_if; [by apply keeps_refl|].
  assert (Hq' : queue_wf (set_parked q lane false)) by done.
  pose proof (dispatch_jobs_keeps _ lane now_ms Hq') as H.
  destruct (dispatch_jobs _ _ _) as [ds q'].
  destruct (ksd_kwin_format_poll_reply _ _ _ _ _) as [ok reply']. done.
Qed.

(** What a completion does: refused without change, or the dispatched job it
    names becomes done with the status and reply it carried. *)
Lemma complete_keeps q g d :
  queue_wf q ->
  let r := ksd_kwin_queue_complete q g (done_sequence d) (done_status d) (Some (done_body d)) (done_body_length d) in
  keeps (completes_by d) q (snd r) /\ (fst r = false -> snd r = q).
Proof.
  intros Hq. cbv zeta. unfold ksd_kwin_queue_complete. case_if; [split; [by apply keeps_refl|done]|].
  destruct (find_slot _ _) as [[i job]|] eqn:E; [|split; [by apply keeps_refl|done]].
  apply find_slot_some in E as (Hi & Hn & _).
  case_if; [split; [by apply keeps_refl|done]|]. case_if; [split; [by apply keeps_refl|done]|].
  case_if; [split; [by apply keeps_refl|done]|].
  unfold is_state in Heqb0. rewrite negb_false_iff, bool_decide_eq_true in Heqb0.
  assert (Hlive : live job = true) by (apply live_state; congruence).
  pose proof (wf_no_reply q i job Hq Hi Hlive ltac:(congruence)) as [Hr1 Hr2].
  destruct (if negb (done_body_length d =? 0) then _ else _) as [rp rl] eqn:Er. split; [|done]. cbn [snd].
  eapply keeps_update; [done|done| |right; split; [done|]; split; [done|]; by repeat split].
  split; [by repeat split|]. split; [done|]. split; [done|]. cbn [job_reply job_reply_length].
  destruct (Z.eqb_spec (done_body_length d) 0) as [Hz|Hz]; cbn [negb option_map] in Er; injection Er as <- <-; [|done].
  split; [done|lia].
Qed.

Lemma complete_all_keeps ds : forall q, queue_wf q ->
  keeps (fun a b => exists d, d ∈ ds /\ completes_by d a b) q (snd (complete_all q ds)).
Proof.
  induction ds as [|d ds IH]; intros q Hq; cbn [complete_all]; [by apply keeps_refl|].
  destruct (complete_keeps q (q_generation q) d Hq) as [H _].
  eapply (keeps_mono _ (fun a b => exists d0, d0 ∈ d :: ds /\ completes_by d0 a b)) in H;
    [|intros a b Hab; exists d; split; [by left|done]].
  destruct (ksd_kwin_queue_complete _ _ _ _ _ _) as [[] q1]; [|done]. cbn [snd] in H.
  eapply keeps_trans; [apply completes_by_once|exact H|].
  eapply keeps_mono; [|apply IH, H]. intros a b (d' & Hd & Hab). exists d'. split; [by right|done].
Qed.

Lemma report_keeps q envelope reply :
  queue_wf q ->
  keeps (fun a b => exists r d, ksd_kwin_parse_report envelope = Some r /\ report_generation r = q_generation q /\
           d ∈ report_done r /\ completes_by d a b) q (snd (fst (ksd_kwin_queue_report q envelope reply))).
Proof.
  intros Hq. unfold ksd_kwin_queue_report. destruct (ksd_kwin_parse_report envelope) as [r|];
    [|by apply keeps_refl].
  match goal with |- keeps ?R _ _ => assert (H : keeps R q (snd (apply_report q r))) end.
  { unfold apply_report. case_if; [by apply keeps_refl|]. rewrite negb_false_iff in Heqb. apply bool_decide_eq_true in Heqb.
    case_if; [by apply keeps_refl|]. eapply keeps_mono; [|by apply complete_all_keeps].
    intros a b (d & Hd & Hab). by exists r, d. }
  destruct (apply_report q r) as [[] q']; cbn [negb]; [|done].
  destruct (ksd_kwin_format_report_ack _ _) as [ok reply']. done.
Qed.

Lemma release_keeps q sq : queue_wf q -> keeps (releases sq) q (ksd_kwin_queue_release q sq).
Proof.
  intros Hq. unfold ksd_kwin_queue_release. destruct (find_slot _ _) as [[i job]|] eqn:E; [|by apply keeps_refl].
  apply find_slot_some in E as (Hi & Hn & _). eapply keeps_update; [done|done|done|by left].
Qed.

Lemma expire_keeps q now_ms : queue_wf q -> keeps (expires now_ms) q (snd (ksd_kwin_queue_expire q now_ms)).
Proof.
  intros (Hlen & Hg & Hall & Hs & Ht & Hn). cbn. set (f := fun job => if expired now_ms job then release_slot job else job).
  assert (Hf : forall i a, map f (q_jobs q) !! i = Some a -> live a = true -> q_jobs q !! i = Some a).
  { intros i a Ha La. rewrite list_lookup_fmap in Ha. destruct (q_jobs q !! i) as [b|]; [|done].
    cbn in Ha. injection Ha as <-. unfold f in *. destruct (expired now_ms b); [done|done]. }
  split; [split; [|split; [done|split; [|split; [|split; [|done]]]]]|split; [done|]]; cbn.
  - unfold zlen in *. by rewrite length_map.
  - apply Forall_fmap. eapply Forall_impl; [|exact Hall]. intros a Ha. cbn. unfold f. by case_if.
  - intros i j a b Ha Hb La Lb. eapply Hs; eauto.
  - intros i j a b Ha Hb La Lb. eapply Ht; eauto.
  - apply Forall2_fmap_r, Forall_Forall2_diag, Forall_true. intros a. cbn. unfold f.
    destruct (expired now_ms a) eqn:E; [right|left]; done.
Qed.
End queue_theorems.

Lemma job_wf_mono ns nt ns' nt' job : ns <= ns' -> nt <= nt' -> job_wf ns nt job -> job_wf ns' nt' job.
Proof.
  intros H1 H2. unfold job_wf. destruct (live job); [|done].
  intros ((n & Hn & E) & Ht & Hrest). split; [exists n; split; [lia|done]|]. split; [lia|done].
Qed.

(** A sequence not issued yet is no live slot's, nor is a ticket. *)
Lemma fresh_sequence q j b :
  queue_wf q -> q_jobs q !! j = Some b -> live b = true ->
  job_sequence b <> format_sequence (q_next_sequence q) /\ job_ticket b <> q_next_ticket q.
Proof.
  intros Hq Hj Lb. pose proof (wf_lookup _ _ _ Hq Hj) as Hw. unfold job_wf in Hw. rewrite Lb in Hw.
  destruct Hw as ((n & Hn & ->) & Ht & _). destruct Hq as (_ & _ & _ & _ & _ & Hs & _).
  split; [|lia]. intros E. apply format_sequence_inj in E; unfold is_u64; lia.
Qed.

Section submit.
Context {AL : Allocator}.

Lemma submit_update_wf q i new :
  queue_wf q -> q_next_sequence q + 1 < 2 ^ 64 -> q_next_ticket q + 1 < 2 ^ 64 ->
  q_jobs q !! i = Some free_job ->
  new = free_job \/ (live new = true /\ job_sequence new = format_sequence (q_next_sequence q) /\
     job_ticket new = q_next_ticket q /\ job_lane new = ksd_kwin_lane_for (job_opcode new) /\
     job_lane new <> KSD_KWIN_LANE_NONE /\ job_body_length new = zlen (default [] (job_body new)) /\
     job_reply new = None /\ job_reply_length new = 0) ->
  queue_wf (mk_queue (<[i := new]> (q_jobs q)) (q_generation q) (u64 (q_next_sequence q + 1))
              (u64 (q_next_ticket q + 1)) (q_parked_fast q) (q_parked_slow q)).
Proof.
  intros Hq Hns Hnt Hi Hnew. pose proof Hq as (Hlen & Hg & Hall & Hs & Ht & Hn1 & Hn2).
  rewrite !u64_id by (unfold is_u64; lia).
  split; [cbn; unfold zlen in *; by rewrite length_insert|]. split; [done|].
  split; [|split; [|split; [|cbn; lia]]]; cbn.
  - apply Forall_insert.
    + eapply Forall_impl; [|exact Hall]. intros a. apply job_wf_mono; lia.
    + destruct Hnew as [->|(L & Hseq & Htk & Hl & Hl' & Hb & Hr)]; [done|]. unfold job_wf. rewrite L.
      split; [exists (q_next_sequence q); split; [lia|done]|]. split; [lia|]. done.
  - eapply live_unique_insert; [done|done|]. intros L. right. intros j b Hj Lb.
    destruct Hnew as [->|(_ & -> & _)]; [done|]. by apply (fresh_sequence q j b).
  - eapply live_unique_insert; [done|done|]. intros L. right. intros j b Hj Lb.
    destruct Hnew as [->|(_ & _ & -> & _)]; [done|]. by apply (fresh_sequence q j b).
Qed.

(** What a submission does: a success fills one free slot with a queued job
    under the sequence it returns, and a failure leaves every slot alone. *)
Lemma submit_spec q opcode body n now_ms :
  queue_wf q -> q_next_sequence q + 1 < 2 ^ 64 -> q_next_ticket q + 1 < 2 ^ 64 ->
  n = zlen (default [] body) ->
  let '(r, q') := ksd_kwin_queue_submit q opcode body n now_ms in
  keeps (queues opcode now_ms) q q' /\
  match r with
  | None => q_jobs q' = q_jobs q
  | Some sq => ksd_kwin_lane_for opcode <> KSD_KWIN_LANE_NONE /\ sq = format_sequence (q_next_sequence q) /\
      exists i job, q_jobs q !! i = Some free_job /\ q_jobs q' = <[i := job]> (q_jobs q) /\
        named sq job = true /\ job_state job = KSD_KWIN_JOB_QUEUED /\ job_opcode job = opcode /\
        job_lane job = ksd_kwin_lane_for opcode /\ job_ticket job = q_next_ticket q /\
        default [] (job_body job) = default [] body
  end /\
  q_next_sequence q <= q_next_sequence q' <= q_next_sequence q + 1 /\
  q_next_ticket q <= q_next_ticket q' <= q_next_ticket q + 1.
Proof.
  intros Hq Hns Hnt Hn. pose proof Hq as (_ & _ & _ & _ & _ & Hn1 & Hn2). unfold ksd_kwin_queue_submit.
  assert (Hrefl : keeps (queues opcode now_ms) q q) by (by apply keeps_refl).
  case_if; [split; [done|split; [done|lia]]|].
  destruct (decide (ksd_kwin_lane_for opcode = KSD_KWIN_LANE_NONE)) as [El|El];
    [rewrite bool_decide_eq_true_2 by done; split; [done|split; [done|lia]]|
     rewrite bool_decide_eq_false_2 by done].
  destruct (find_slot _ _) as [[i a]|] eqn:E; [|split; [done|split; [done|lia]]].
  apply find_slot_some in E as (Hi & Ha & _). unfold is_state in Ha. apply bool_decide_eq_true in Ha.
  assert (a = free_job) as ->.
  { pose proof (wf_lookup _ _ _ Hq Hi) as Hw. unfold job_wf in Hw.
    destruct (live a) eqn:La; [apply live_state in La; by destruct La|done]. }
  set (sq := format_sequence (q_next_sequence q)).
  assert (Hnxt : u64 (q_next_sequence q + 1) = q_next_sequence q + 1 /\ u64 (q_next_ticket q + 1) = q_next_ticket q + 1)
    by (rewrite !u64_id by (unfold is_u64; lia); done).
  set (job b bl := mk_job sq opcode (ksd_kwin_lane_for opcode) KSD_KWIN_JOB_QUEUED
    (u64 (now_ms + KSD_KWIN_OP_DEADLINE_MS)) (q_next_ticket q) 0 b bl None 0).
  assert (Hdone : forall b bl, bl = zlen (default [] b) -> default [] b = default [] body ->
    let q' := mk_queue (<[i := job b bl]> (q_jobs q)) (q_generation q) (u64 (q_next_sequence q + 1))
                (u64 (q_next_ticket q + 1)) (q_parked_fast q) (q_parked_slow q) in
    keeps (queues opcode now_ms) q q' /\
    (ksd_kwin_lane_for opcode <> KSD_KWIN_LANE_NONE /\ sq = format_sequence (q_next_sequence q) /\
      exists i job, q_jobs q !! i = Some free_job /\ q_jobs q' = <[i := job]> (q_jobs q) /\
        named sq job = true /\ job_state job = KSD_KWIN_JOB_QUEUED /\ job_opcode job = opcode /\
        job_lane job = ksd_kwin_lane_for opcode /\ job_ticket job = q_next_ticket q /\
        default [] (job_body job) = default [] body) /\
    q_next_sequence q <= q_next_sequence q' <= q_next_sequence q + 1 /\
    q_next_ticket q <= q_next_ticket q' <= q_next_ticket q + 1).
  { intros b bl Hbl Hb q'. split; [split; [|split; [done|]]|split; [|cbn; lia]].
    - apply submit_update_wf; try done. right. by repeat split.
    - by apply Forall2_insert_r with free_job.
    - split; [done|]. split; [done|]. exists i, (job b bl). repeat split; try done.
      unfold named. rewrite andb_true_iff. split; [done|]. unfold bytes_eqb. by rewrite bool_decide_eq_true_2. }
  case_if; breflect.
  - apply Hdone; [done|]. rewrite Heqb0 in Hn. destruct (default [] body) as [|x l]; [done|].
    rewrite zlen_cons in Hn. pose proof (zlen_nonneg l). lia.
  - destruct Heqb as [Heqb|Heqb]; [done|].
    destruct body as [d|]; [|done]. cbn [option_map default from_option id] in *.
    case_if.
    + apply Hdone; rewrite ztake_all; cbn; (done || lia).
    + split; [split; [|split; [done|]]|split; [|cbn; lia]].
      * apply submit_update_wf; try done. by left.
      * cbn. rewrite list_insert_id by done. apply Forall_Forall2_diag, Forall_true. by left.
      * cbn. by apply list_insert_id.
Qed.
End submit.

(** ** The queue under every operation *)

Inductive queue_event :=
| QueueSubmit (opcode : Z) (body : option (list byte)) (body_length now_ms : Z)
| QueuePoll (envelope : list byte) (now_ms : Z)
| QueuePollParked (lane : ksd_kwin_lane) (now_ms : Z)
| QueueReport (envelope : list byte)
| QueueExpire (now_ms : Z)
| QueueRelease (sequence : list byte).

(** How a slot of a queue of the generation may change under an event: a poll or a
    report is read as the program reads it, and must name the generation. *)
Definition event_move (generation : list byte) (e : queue_event) (a b : ksd_kwin_job) : Prop :=
  match e with
  | QueueSubmit opcode _ _ now_ms => queues opcode now_ms a b
  | QueuePoll envelope _ =>
    exists p, ksd_kwin_parse_poll envelope = Some p /\ poll_generation p = generation /\ dispatches (poll_lane p) a b
  | QueuePollParked lane _ => dispatches lane a b
  | QueueReport envelope =>
    exists r d, ksd_kwin_parse_report envelope = Some r /\ report_generation r = generation /\
      d ∈ report_done r /\ completes_by d a b
  | QueueExpire now_ms => expires now_ms a b
  | QueueRelease sequence => releases sequence a b
  end.

Section events.
Context {AL : Allocator}.

(** The queue after an event; the reply goes to the buffer given. *)
Definition queue_step (reply : ksd_buffer) (q : ksd_kwin_queue) (e : queue_event) : ksd_kwin_queue :=
  match e with
  | QueueSubmit opcode body n now_ms => snd (ksd_kwin_queue_submit q opcode body n now_ms)
  | QueuePoll envelope now_ms => snd (fst (ksd_kwin_queue_poll q envelope now_ms reply))
  | QueuePollParked lane now_ms => snd (fst (ksd_kwin_queue_poll_parked q lane now_ms reply))
  | QueueReport envelope => snd (fst (ksd_kwin_queue_report q envelope reply))
  | QueueExpire now_ms => snd (ksd_kwin_queue_expire q now_ms)
  | QueueRelease sequence => ksd_kwin_queue_release q sequence
  end.

Definition event_ok (e : queue_event) : Prop :=
  match e with QueueSubmit _ body n _ => n = zlen (default [] body) | _ => True end.

Definition counters (q : ksd_kwin_queue) : Z * Z := (q_next_sequence q, q_next_ticket q).

Lemma complete_counters q g sq st rp n : counters (snd (ksd_kwin_queue_complete q g sq st rp n)) = counters q.
Proof.
  unfold ksd_kwin_queue_complete. repeat (case_if; [done|]).
  destruct (find_slot _ _) as [[i job]|]; [|done]. repeat (case_if; [done|]).
  done.
Qed.

Lemma complete_all_counters ds : forall q, counters (snd (complete_all q ds)) = counters q.
Proof.
  induction ds as [|d ds IH]; intros q; cbn [complete_all]; [done|].
  pose proof (complete_counters q (q_generation q) (done_sequence d) (done_status d) (Some (done_body d))
    (done_body_length d)) as H.
  destruct (ksd_kwin_queue_complete _ _ _ _ _ _) as [[] q1]; cbn [snd] in *; [by rewrite IH|done].
Qed.

Lemma dispatch_counters q lane now_ms : counters (snd (dispatch_jobs q lane now_ms)) = counters q.
Proof. unfold dispatch_jobs, ksd_kwin_queue_take. by destruct (take_loop _ _ _). Qed.

Lemma step_counters reply q e :
  match e with QueueSubmit _ _ _ _ => True | _ => counters (queue_step reply q e) = counters q end.
Proof.
  destruct e as [| envelope now_ms | lane now_ms | envelope | now_ms | sequence]; cbn [queue_step]; try done.
  - unfold ksd_kwin_queue_poll. destruct (ksd_kwin_parse_poll envelope) as [p|]; [|done]. case_if; [done|].
    pose proof (dispatch_counters q (poll_lane p) now_ms) as H.
    destruct (dispatch_jobs _ _ _) as [[|d ds] q']; cbn [snd fst] in *; [done|].
    by destruct (ksd_kwin_format_poll_reply _ _ _ _ _).
  - unfold ksd_kwin_queue_poll_parked. case_if; [done|].
    pose proof (dispatch_counters (set_parked q lane false) lane now_ms) as H.
    destruct (dispatch_jobs _ _ _) as [ds q']. by destruct (ksd_kwin_format_poll_reply _ _ _ _ _).
  - unfold ksd_kwin_queue_report. destruct (ksd_kwin_parse_report envelope) as [r|]; [|done].
    assert (H : counters (snd (apply_report q r)) = counters q).
    { unfold apply_report. repeat (case_if; [done|]). apply complete_all_counters. }
    destruct (apply_report q r) as [[] q']; cbn [negb]; [|done].
    by destruct (ksd_kwin_format_report_ack _ _).
  - unfold ksd_kwin_queue_release. by destruct (find_slot _ _) as [[i job]|].
Qed.

Lemma step_keeps reply q e :
  queue_wf q -> event_ok e -> q_next_sequence q + 1 < 2 ^ 64 -> q_next_ticket q + 1 < 2 ^ 64 ->
  keeps (event_move (q_generation q) e) q (queue_step reply q e) /\
  q_next_sequence (queue_step reply q e) <= q_next_sequence q + 1 /\
  q_next_ticket (queue_step reply q e) <= q_next_ticket q + 1.
Proof.
  intros Hq He Hs Ht. pose proof (step_counters reply q e) as Hc.
  destruct e as [opcode body n now_ms | envelope now_ms | lane now_ms | envelope | now_ms | sequence];
    [|(split; [|pose proof (f_equal fst Hc) as Hc1; pose proof (f_equal snd Hc) as Hc2;
      unfold counters in Hc1, Hc2; cbn [fst snd] in Hc1, Hc2; lia])..]; cbn [queue_step event_move].
  - pose proof (submit_spec q opcode body n now_ms Hq Hs Ht He) as H.
    destruct (ksd_kwin_queue_submit _ _ _ _ _) as [r q']. cbn [snd]. destruct H as (H & _ & ? & ?).
    split; [exact H|lia].
  - by apply poll_keeps.
  - by apply poll_parked_keeps.
  - by apply report_keeps.
  - by apply expire_keeps.
  - by apply release_keeps.
Qed.

(** C8: The job lifecycle.  In a well-formed queue every operation keeps the
    invariant and the generation, and changes a slot only the way it may: a
    submission fills a free slot with a queued job, a poll dispatches queued
    jobs of the lane its envelope names, when the envelope names the queue's
    generation, and alters nothing else in them, a report of this generation turns
    dispatched jobs that it names into done ones with the status and the body that
    it carries for them, without touching their identity, expiry frees only
    queued jobs whose deadline has passed (never a dispatched one), and a
    release frees only the job it names. *)
Theorem kwin_job_lifecycle reply q e i a :
  queue_wf q -> event_ok e -> q_next_sequence q + 1 < 2 ^ 64 -> q_next_ticket q + 1 < 2 ^ 64 ->
  q_jobs q !! i = Some a ->
  queue_wf (queue_step reply q e) /\ q_generation (queue_step reply q e) = q_generation q /\
  exists b, q_jobs (queue_step reply q e) !! i = Some b /\ (a = b \/ event_move (q_generation q) e a b).
Proof.
  intros Hq He Hs Ht Hi. destruct (step_keeps reply q e Hq He Hs Ht) as ((Hw & Hg & H2) & _).
  split; [done|]. split; [done|]. by eapply Forall2_lookup_l in H2.
Qed.

(** Reachable queues are well formed. *)
Lemma reachable_wf reply g q0 events :
  ksd_kwin_queue_init g = Some q0 -> Forall event_ok events -> zlen events < 2 ^ 64 - 1 ->
  queue_wf (fold_left (queue_step reply) events q0).
Proof.
  intros Hinit He Hn. assert (Hq : queue_wf q0) by (by eapply init_wf).
  assert (Hc : q_next_sequence q0 = 1 /\ q_next_ticket q0 = 1).
  { unfold ksd_kwin_queue_init in Hinit. case_if; [|done]. by injection Hinit as <-. }
  assert (Hb : q_next_sequence q0 + zlen events < 2 ^ 64 /\ q_next_ticket q0 + zlen events < 2 ^ 64) by lia.
  clear Hinit Hc Hn. revert q0 Hq Hb. induction He as [|e events He _ IH]; intros q0 Hq Hb; [done|].
  rewrite zlen_cons in Hb. pose proof (zlen_nonneg events). cbn [fold_left].
  destruct (step_keeps reply q0 e Hq He) as ((Hw & _ & _) & Hs & Ht); [lia..|].
  apply IH; [exact Hw|lia].
Qed.

(** Every reachable queue is well formed.  From a freshly created queue,
    after any sequence of fewer than 2^64 - 1 operations, there are exactly
    [KSD_KWIN_MAX_JOBS] slots, live slots hold pairwise distinct sequences and
    tickets that were issued by this queue, and every job is in the lane of its
    opcode. *)
Theorem kwin_queue_reachable_wf reply g q0 events :
  ksd_kwin_queue_init g = Some q0 -> Forall event_ok events -> zlen events < 2 ^ 64 - 1 ->
  queue_wf (fold_left (queue_step reply) events q0).
Proof. apply reachable_wf. Qed.
End events.

(** ** Oldest first *)

Definition before (a b : ksd_kwin_job) : Prop := job_ticket a < job_ticket b.

Lemma take_loop_spec lane limit : forall q,
  queue_wf q ->
  let '(batch, jobs) := take_loop limit lane (q_jobs q) in
  (length batch <= limit)%nat /\ StronglySorted before batch /\
  Forall (fun b => exists i a, q_jobs q !! i = Some a /\ queued_in lane a /\
                   b = with_state a KSD_KWIN_JOB_DISPATCHED /\ jobs !! i = Some b) batch /\
  (forall i x, jobs !! i = Some x -> queued_in lane x ->
     length batch = limit /\ Forall (fun b => before b x) batch /\ q_jobs q !! i = Some x).
Proof.
  induction limit as [|limit IH]; intros q Hq; cbn [take_loop].
  { split; [done|]. split; [constructor|]. split; [constructor|]. done. }
  pose proof (oldest_spec lane (q_jobs q)) as Ho.
  destruct (oldest_from lane 0 (q_jobs q) None) as [[i job]|].
  2:{ split; [cbn; lia|]. split; [constructor|]. split; [constructor|]. intros j x Hj Hx. by destruct (Ho j x). }
  destruct Ho as (Hi & [Hst Hlane] & Hmin).
  assert (Hlive : live job = true) by (apply live_state; congruence).
  pose proof (wf_no_reply q i job Hq Hi Hlive ltac:(congruence)) as [Hr1 Hr2].
  set (job' := with_state job KSD_KWIN_JOB_DISPATCHED).
  assert (Hilen : (i < length (q_jobs q))%nat) by (by eapply lookup_lt_Some).
  set (q1 := with_jobs q (<[i := job']> (q_jobs q))).
  assert (Hq1 : queue_wf q1).
  { eapply queue_wf_update; [done|done|]. right. by repeat split. }
  pose proof Hq as (_ & _ & _ & _ & Htk & _).
  (* a job still queued after the first was taken was queued before, and younger *)
  assert (Hold : forall k x, q_jobs q1 !! k = Some x -> queued_in lane x ->
            q_jobs q !! k = Some x /\ before job' x).
  { intros k x Hk Hx. destruct (decide (i = k)) as [<-|Hne].
    - cbn in Hk. rewrite list_lookup_insert_eq in Hk by done. injection Hk as <-. by destruct Hx.
    - cbn in Hk. rewrite list_lookup_insert_ne in Hk by done. split; [done|].
      specialize (Hmin k x Hk Hx). unfold before. cbn. 
      assert (job_ticket job <> job_ticket x); [|lia]. intros E. apply Hne.
      eapply Htk; [exact Hi|exact Hk|done| |done]. apply live_state. by rewrite (proj1 Hx). }
  specialize (IH q1 Hq1). change (q_jobs q1) with (<[i := job']> (q_jobs q)) in IH at 1.
  destruct (take_loop limit lane (<[i := job']> (q_jobs q))) as [batch jobs] eqn:Etl.
  destruct IH as (Hlen & Hsort & Hb & Hrest).
  assert (Hkeep : jobs !! i = Some job').
  { pose proof (take_loop_keeps lane limit q1 Hq1) as (_ & _ & H2). change (q_jobs q1) with (<[i := job']> (q_jobs q)) in H2.
    rewrite Etl in H2. cbn [snd q_jobs with_jobs] in H2.
    destruct (Forall2_lookup_l _ _ _ i job' H2) as (b & Hjb & [<-|[[Hbad _] _]]); try done.
    by apply list_lookup_insert_eq. }
  split; [cbn; lia|]. split; [|split].
  - constructor; [done|]. eapply Forall_impl; [|exact Hb].
    intros b (k & a & Hk & Ha & -> & _). by destruct (Hold k a Hk Ha).
  - constructor; [by exists i, job|]. eapply Forall_impl; [|exact Hb].
    intros b (k & a & Hk & Ha & -> & Hj). exists k, a. by destruct (Hold k a Hk Ha).
  - intros k x Hk Hx. destruct (Hrest k x Hk Hx) as (Hl & Hbx & Hq1k).
    destruct (Hold k x Hq1k Hx) as [Hqk Hjx]. split; [cbn; lia|]. split; [by constructor|done].
Qed.

Section order.
Context {AL : Allocator}.

(** A reply batch is the oldest of its lane.  What a poll of a lane takes
    is at most the lane's cap (eight fast, one slow) and the caller's room, in
    strictly increasing submission order; every job in it was queued in that
    lane and is now dispatched in its slot; and a job of the lane that stays
    queued is younger than everything taken, and only stays because the batch
    was full. *)
Theorem kwin_take_oldest q lane capacity :
  queue_wf q -> 0 <= capacity ->
  let '(batch, q') := ksd_kwin_queue_take q lane capacity in
  zlen batch <= Z.min capacity (lane_capacity lane) /\ StronglySorted before batch /\
  Forall (fun b => exists i a, q_jobs q !! i = Some a /\ queued_in lane a /\
                   b = with_state a KSD_KWIN_JOB_DISPATCHED /\ q_jobs q' !! i = Some b) batch /\
  (forall i x, q_jobs q' !! i = Some x -> queued_in lane x ->
     zlen batch = Z.min capacity (lane_capacity lane) /\ Forall (fun b => before b x) batch).
Proof.
  intros Hq Hc. unfold ksd_kwin_queue_take.
  set (limit := if capacity <? lane_capacity lane then capacity else lane_capacity lane).
  assert (Hlim : limit = Z.min capacity (lane_capacity lane)) by (unfold limit; case_if; breflect; lia).
  assert (Hcap : 0 <= lane_capacity lane) by (destruct lane; vm_compute; discriminate).
  pose proof (take_loop_spec lane (Z.to_nat limit) q Hq) as H.
  destruct (take_loop _ _ _) as [batch jobs]. destruct H as (Hl & Hs & Hb & Hr).
  split; [unfold zlen; lia|]. split; [done|]. split; [done|].
  intros i x Hi Hx. destruct (Hr i x Hi Hx) as (Hfull & Hbx & _). split; [unfold zlen; lia|done].
Qed.
End order.

(** ** Reports *)

Lemma find_slot_insert_hit p l i old new :
  find_slot p l = Some (i, old) -> p new = true -> find_slot p (<[i := new]> l) = Some (i, new).
Proof.
  revert i. induction l as [|a l IH]; intros i; cbn; [done|]. destruct (p a) eqn:Ha.
  - intros [= <- <-] Hn. cbn. by rewrite Hn.
  - destruct (find_slot p l) as [[j y]|]; [|done]. intros [= <- <-] Hn. change (<[S j := new]> (a :: l)) with (a :: <[j := new]> l).
    cbn [find_slot]. rewrite Ha. by rewrite (IH j).
Qed.

Lemma find_slot_insert_miss p l i old new :
  l !! i = Some old -> p old = false -> p new = false -> find_slot p (<[i := new]> l) = find_slot p l.
Proof.
  revert i. induction l as [|a l IH]; intros [|i] Hi Ho Hn; try done; cbn in Hi; simplify_eq; [cbn; by rewrite Ho, Hn|].
  change (<[S i := new]> (a :: l)) with (a :: <[i := new]> l). cbn [find_slot]. by rewrite (IH i).
Qed.

Lemma named_iff s job : named s job = true <-> live job = true /\ job_sequence job = s.
Proof. unfold named, bytes_eqb. by rewrite andb_true_iff, bool_decide_eq_true. Qed.

(** A job of a parsed report has its body in the message. *)
Definition result_of_done (d : ksd_kwin_done) : Z * option (list byte) * Z :=
  (done_status d, if done_body_length d =? 0 then None else Some (done_body d), done_body_length d).

Section reports.
Context {AL : Allocator}.

Lemma complete_dispatched q i job sq status reply :
  AllocTotal AL -> queue_wf q -> ksd_kwin_queue_find q sq = Some (i, job) ->
  job_state job = KSD_KWIN_JOB_DISPATCHED ->
  let q' := snd (ksd_kwin_queue_complete q (q_generation q) sq status (Some reply) (zlen reply)) in
  fst (ksd_kwin_queue_complete q (q_generation q) sq status (Some reply) (zlen reply)) = true /\
  queue_wf q' /\ q_generation q' = q_generation q /\
  ksd_kwin_queue_result q' sq = Some (status, if zlen reply =? 0 then None else Some reply, zlen reply) /\
  (forall s, s <> sq -> ksd_kwin_queue_find q' s = ksd_kwin_queue_find q s) /\
  exists job', ksd_kwin_queue_find q' sq = Some (i, job') /\ job_state job' = KSD_KWIN_JOB_DONE.
Proof.
  intros HA Hq Hf Hst. pose proof Hf as Hf'. unfold ksd_kwin_queue_find in Hf'.
  apply find_slot_some in Hf' as (Hi & Hn & _). apply named_iff in Hn as [Hlive Hseq].
  pose proof (wf_no_reply q i job Hq Hi Hlive ltac:(congruence)) as [Hr1 Hr2].
  destruct (complete_keeps q (q_generation q) (mk_done sq status reply (zlen reply)) Hq) as [(Hw & Hg & _) _].
  cbn [done_sequence done_status done_body done_body_length] in Hw, Hg.
  set (new := (if zlen reply =? 0 then None else Some reply) : option (list byte)).
  set (job' := mk_job (job_sequence job) (job_opcode job) (job_lane job) KSD_KWIN_JOB_DONE (job_deadline_ms job)
    (job_ticket job) status (job_body job) (job_body_length job) new (zlen reply)).
  assert (Heq : ksd_kwin_queue_complete q (q_generation q) sq status (Some reply) (zlen reply) =
                (true, with_jobs q (<[i := job']> (q_jobs q)))).
  { unfold ksd_kwin_queue_complete. pose proof Hq as (_ & Hgen & _).
    rewrite Hgen. unfold bytes_eqb. rewrite bool_decide_eq_true_2 by done. cbn [negb orb].
    unfold ksd_kwin_queue_find in Hf. rewrite Hf. unfold is_state. rewrite bool_decide_eq_true_2 by done.
    rewrite (bool_decide_eq_false_2 (Some reply = None)) by done. rewrite alloc_total, !andb_false_r. cbn [negb].
    unfold job', new. destruct (Z.eqb_spec (zlen reply) 0) as [E|E]; cbn [negb option_map].
    - by rewrite Hr1, Hr2, E.
    - by rewrite ztake_all. }
  rewrite Heq in *. cbn [fst snd] in *.
  assert (Hn' : named sq job' = true) by (by apply named_iff).
  pose proof (find_slot_insert_hit (named sq) (q_jobs q) i job job' Hf Hn') as Hhit.
  split; [done|]. split; [done|]. split; [done|]. split; [|split; [|by exists job']].
  - unfold ksd_kwin_queue_result, ksd_kwin_queue_find. cbn [q_jobs with_jobs]. by rewrite Hhit.
  - intros s Hs. apply (find_slot_insert_miss _ _ _ job); [done| |].
    + apply not_true_iff_false. rewrite named_iff. intros [_ ?]. congruence.
    + apply not_true_iff_false. rewrite named_iff. intros [_ ?]. cbn in *. congruence.
Qed.

(** Completing entries with distinct sequences, all dispatched. *)
Lemma complete_all_spec ds : forall q,
  AllocTotal AL -> queue_wf q -> Forall done_ok ds -> NoDup (map done_sequence ds) ->
  forallb (report_matches q) ds = true ->
  fst (complete_all q ds) = true /\
  (forall d, In d ds -> ksd_kwin_queue_result (snd (complete_all q ds)) (done_sequence d) = Some (result_of_done d)) /\
  (forall s, s ∉ map done_sequence ds ->
     ksd_kwin_queue_find (snd (complete_all q ds)) s = ksd_kwin_queue_find q s).
Proof.
  induction ds as [|d ds IH]; intros q HA Hq Hok Hnd Hm; cbn [complete_all]; [done|].
  cbn [forallb] in Hm. apply andb_true_iff in Hm as [Hd Hm]. cbn [map] in Hnd.
  apply list.NoDup_cons in Hnd as [Hnotin Hnd]. apply Forall_cons_1 in Hok as [(_ & _ & _ & Hlen) Hok].
  unfold report_matches in Hd. destruct (ksd_kwin_queue_find q (done_sequence d)) as [[i job]|] eqn:Hf; [|done].
  unfold is_state in Hd. apply bool_decide_eq_true in Hd.
  destruct (complete_dispatched q i job (done_sequence d) (done_status d) (done_body d) HA Hq Hf Hd)
    as (Hfst & Hw & _ & Hres & Hother & _). rewrite <- Hlen in *.
  destruct (ksd_kwin_queue_complete _ _ _ _ _ _) as [ok q1]. cbn [fst snd] in *. subst ok.
  assert (Hne : forall e, In e ds -> done_sequence e <> done_sequence d).
  { intros e He E. apply Hnotin. rewrite <- E. apply list_elem_of_In, in_map, He. }
  destruct (IH q1) as (H1 & H2 & H3); try done.
  { rewrite forallb_forall in Hm |- *. intros e He. specialize (Hm e He). unfold report_matches in *.
    by rewrite Hother by (by apply Hne). }
  split; [done|]. split.
  - intros e [<-|He]; [|by apply H2]. unfold ksd_kwin_queue_result in *. by rewrite H3.
  - intros s Hs. cbn [map] in Hs. apply not_elem_of_cons in Hs as [Hs1 Hs2].
    rewrite H3 by done. by apply Hother.
Qed.

(** A report without repeated sequences is all or nothing.  Given memory,
    applying a parsed report whose entries name distinct sequences either
    leaves the queue exactly as it was and fails, or succeeds with every entry
    readable as the result of its sequence: its status and its body. *)
Theorem kwin_report_atomic q r :
  AllocTotal AL -> queue_wf q -> report_ok r -> NoDup (map done_sequence (report_done r)) ->
  let '(ok, q') := apply_report q r in
  if ok then forall d, In d (report_done r) ->
               ksd_kwin_queue_result q' (done_sequence d) = Some (result_of_done d)
  else q' = q.
Proof.
  intros HA Hq (_ & _ & _ & Hok & _) Hnd. unfold apply_report. case_if; [done|].
  destruct (forallb (report_matches q) (report_done r)) eqn:Hm; cbn [negb]; [|done].
  destruct (complete_all_spec (report_done r) q HA Hq Hok Hnd Hm) as (H1 & H2 & _).
  destruct (complete_all q (report_done r)) as [ok q']. cbn [fst snd] in *. by subst ok.
Qed.

(** A report that repeats a sequence is not atomic.  When a report names
    one dispatched job twice, it is refused, and yet the job has been
    completed with the first entry's status and reply: the queue changed. *)
Theorem kwin_report_duplicate_changes q i job d1 d2 :
  AllocTotal AL -> queue_wf q -> done_ok d1 -> done_ok d2 -> done_sequence d2 = done_sequence d1 ->
  ksd_kwin_queue_find q (done_sequence d1) = Some (i, job) -> job_state job = KSD_KWIN_JOB_DISPATCHED ->
  let '(ok, q') := apply_report q (mk_report (q_generation q) [d1; d2]) in
  ok = false /\ ksd_kwin_queue_result q (done_sequence d1) = None /\
  ksd_kwin_queue_result q' (done_sequence d1) = Some (result_of_done d1).
Proof.
  intros HA Hq (_ & _ & _ & Hl1) (_ & _ & _ & Hl2) Hsame Hf Hst. unfold apply_report.
  cbn [report_generation report_done]. unfold bytes_eqb at 1. rewrite bool_decide_eq_true_2 by done. cbn [negb].
  assert (Hm : report_matches q d1 = true /\ report_matches q d2 = true).
  { unfold report_matches. rewrite Hsame, Hf. unfold is_state. by rewrite bool_decide_eq_true_2. }
  cbn [forallb]. rewrite (proj1 Hm), (proj2 Hm). cbn [andb negb complete_all].
  destruct (complete_dispatched q i job (done_sequence d1) (done_status d1) (done_body d1) HA Hq Hf Hst)
    as (Hfst & Hw & Hg & Hres & _ & job' & Hf' & Hst'). rewrite <- Hl1 in *.
  destruct (ksd_kwin_queue_complete _ _ (done_sequence d1) _ _ _) as [ok q1]. cbn [fst snd] in *. subst ok.
  assert (H2 : ksd_kwin_queue_complete q1 (q_generation q1) (done_sequence d2) (done_status d2)
    (Some (done_body d2)) (done_body_length d2) = (false, q1)).
  { unfold ksd_kwin_queue_complete. case_if; [done|]. unfold ksd_kwin_queue_find in Hf'. rewrite Hsame, Hf'.
    unfold is_state. by rewrite bool_decide_eq_false_2 by congruence. }
  rewrite H2. split; [done|]. split; [|done]. unfold ksd_kwin_queue_result. rewrite Hf.
  unfold is_state. by rewrite bool_decide_eq_false_2 by congruence.
Qed.
End reports.

(** ** A concrete run *)

Section job_witnesses.
#[local] Existing Instance infinite_memory.

Definition sample_generation : list byte := hex_text 32 0xfeed.
Definition sample_queue : ksd_kwin_queue := default
  (mk_queue [] [] 0 0 false false) (ksd_kwin_queue_init sample_generation).
Definition sample_poll : list byte := poll_text (mk_poll sample_generation KSD_KWIN_LANE_FAST 12 0).
Definition sample_events : list queue_event :=
  [QueueSubmit KSD_OP_WINDOW_FOCUS (Some (cstr "ab")) 2 100; QueueSubmit KSD_OP_WINDOW_LIST None 0 100;
   QueueSubmit KSD_OP_WINDOW_CLOSE None 0 101].
Definition sample_reply : ksd_buffer := ksd_buffer_init 4096.
Definition queued_queue : ksd_kwin_queue := fold_left (queue_step sample_reply) sample_events sample_queue.
Definition dispatched_queue : ksd_kwin_queue := queue_step sample_reply queued_queue (QueuePoll sample_poll 150).

Lemma queued_queue_wf : queue_wf queued_queue.
Proof.
  apply (reachable_wf sample_reply sample_generation); [reflexivity| |reflexivity].
  repeat constructor.
Qed.

Lemma dispatched_queue_wf : queue_wf dispatched_queue.
Proof.
  apply (step_keeps sample_reply queued_queue (QueuePoll sample_poll 150)).
  - apply queued_queue_wf.
  - exact I.
  - vm_compute. reflexivity.
  - vm_compute. reflexivity.
Qed.

Definition sample_done (n : Z) : ksd_kwin_done := mk_done (format_sequence n) 0 (cstr "ok") 2.

Lemma sample_done_ok n : done_ok (sample_done n).
Proof.
  pose proof (format_sequence_valid n) as H. unfold valid_sequence, valid_hex_string in H.
  apply andb_true_iff in H as [H Hz]. apply Z.eqb_eq in Hz. rewrite ztake_all in H by lia.
  repeat split; cbn; (done || lia).
Qed.

Lemma kwin_job_lifecycle_witness :
  let e := QueuePoll sample_poll 150 in
  queue_wf (queue_step sample_reply queued_queue e) /\
  q_generation (queue_step sample_reply queued_queue e) = q_generation queued_queue /\
  exists b, q_jobs (queue_step sample_reply queued_queue e) !! 0%nat = Some b /\
    (nth 0 (q_jobs queued_queue) free_job = b \/ event_move (q_generation queued_queue) e (nth 0 (q_jobs queued_queue) free_job) b).
Proof.
  apply (kwin_job_lifecycle sample_reply queued_queue (QueuePoll sample_poll 150)).
  - apply queued_queue_wf.
  - exact I.
  - vm_compute. reflexivity.
  - vm_compute. reflexivity.
  - vm_compute. reflexivity.
Defined.

Lemma kwin_queue_reachable_wf_witness :
  queue_wf (fold_left (queue_step sample_reply) sample_events sample_queue).
Proof.
  apply (kwin_queue_reachable_wf sample_reply sample_generation); [reflexivity| |reflexivity].
  repeat constructor.
Defined.

Lemma kwin_take_oldest_witness :
  let '(batch, q') := ksd_kwin_queue_take queued_queue KSD_KWIN_LANE_FAST 8 in
  zlen batch <= Z.min 8 (lane_capacity KSD_KWIN_LANE_FAST) /\ StronglySorted before batch /\
  Forall (fun b => exists i a, q_jobs queued_queue !! i = Some a /\ queued_in KSD_KWIN_LANE_FAST a /\
                   b = with_state a KSD_KWIN_JOB_DISPATCHED /\ q_jobs q' !! i = Some b) batch /\
  (forall i x, q_jobs q' !! i = Some x -> queued_in KSD_KWIN_LANE_FAST x ->
     zlen batch = Z.min 8 (lane_capacity KSD_KWIN_LANE_FAST) /\ Forall (fun b => before b x) batch).
Proof. apply (kwin_take_oldest queued_queue KSD_KWIN_LANE_FAST 8); [apply queued_queue_wf|lia]. Defined.

Lemma kwin_report_atomic_witness :
  let '(ok, q') := apply_report dispatched_queue
    (mk_report sample_generation [sample_done 1; sample_done 3]) in
  if ok then forall d, In d [sample_done 1; sample_done 3] ->
               ksd_kwin_queue_result q' (done_sequence d) = Some (result_of_done d)
  else q' = dispatched_queue.
Proof.
  apply (kwin_report_atomic dispatched_queue (mk_report sample_generation [sample_done 1; sample_done 3])).
  - apply infinite_memory_total.
  - apply dispatched_queue_wf.
  - split; [reflexivity|]. split; [reflexivity|]. split; [vm_compute; split; discriminate|].
    split; [|vm_compute; discriminate]. repeat constructor; apply sample_done_ok.
  - apply (bool_decide_eq_true_1 (NoDup _)). vm_compute. reflexivity.
Defined.

Lemma kwin_report_duplicate_changes_witness :
  let '(ok, q') := apply_report dispatched_queue
    (mk_report (q_generation dispatched_queue) [sample_done 1; sample_done 1]) in
  ok = false /\ ksd_kwin_queue_result dispatched_queue (done_sequence (sample_done 1)) = None /\
  ksd_kwin_queue_result q' (done_sequence (sample_done 1)) = Some (result_of_done (sample_done 1)).
Proof.
  apply (kwin_report_duplicate_changes dispatched_queue 0%nat (nth 0 (q_jobs dispatched_queue) free_job)
           (sample_done 1) (sample_done 1)).
  - apply infinite_memory_total.
  - apply dispatched_queue_wf.
  - apply sample_done_ok.
  - apply sample_done_ok.
  - reflexivity.
  - vm_compute. reflexivity.
  - vm_compute. reflexivity.
Defined.
End job_witnesses.
