(* ===== verification/Result.v ===== *)
(** * Operation results (src/operation_result.c)

    The value an operation leaves for its response: a status and either a tail,
    a sealed descriptor, or neither.  The model records which descriptors an
    operation closes, so the theorems can say that every descriptor handed to a
    result is owned by it or closed, once. *)
From Stdlib Require Import ZArith Lia Strings.Byte Strings.String.
From stdpp Require Import base list option numbers tactics.
From S2P Require Import Prelude.
From S2P Require Import Protocol.
From S2P Require Import Codec.
From S2P Require Import Buffer.
From S2P Require Import Utf8.
Local Open Scope Z_scope.
Local Open Scope ksd_scope.

(** [res_diagnostic] is the C string in the array, without its terminator. *)
Record ksd_operation_result := mk_result {
  res_status : Z;
  res_detail : Z;
  res_diagnostic : list byte;
  res_tail : option (list byte);
  res_tail_length : Z;
  res_payload_fd : Z;
}.

Definition ksd_result_init : ksd_operation_result := mk_result KSD_STATUS_INTERNAL 0 [] None 0 (-1).

(** What [release_payload_fd] closes. *)
Definition release_payload_fd (result : ksd_operation_result) : list Z :=
  if 0 <=? res_payload_fd result then [res_payload_fd result] else [].

(** The operations return the new result and the descriptors they closed. *)
Definition ksd_result_clear (result : ksd_operation_result) : ksd_operation_result * list Z :=
  (ksd_result_init, release_payload_fd result).

(** The loop that shortens the diagnostic until it is valid UTF-8. *)
Fixpoint trim_utf8 (length : nat) (diagnostic : list byte) : nat :=
  match length with
  | O => O
  | S n => if ksd_utf8_valid (take (S n) diagnostic) false then S n else trim_utf8 n diagnostic
  end.

(** [diagnostic] is [None] for NULL, and otherwise a C string. *)
Definition ksd_result_error (result : ksd_operation_result) (status detail : Z)
    (diagnostic : option (list byte)) : ksd_operation_result * list Z :=
  let closed := release_payload_fd result in
  let text :=
    match diagnostic with
    | None => []
    | Some diagnostic =>
      let source_length := zlen diagnostic in
      let length := if source_length <? KSD_DIAGNOSTIC_CAPACITY - 1 then source_length
                    else KSD_DIAGNOSTIC_CAPACITY - 1 in
      take (trim_utf8 (Z.to_nat length) diagnostic) diagnostic
    end in
  (mk_result status detail text None 0 (-1), closed).

Definition ksd_result_take (result : ksd_operation_result) (tail : option (list byte)) (tail_length : Z)
    : bool * ksd_operation_result * list Z :=
  if negb (tail_length =? 0) && bool_decide (tail = None) then (false, result, [])
  else (true, mk_result KSD_STATUS_OK 0 [] tail tail_length (-1), release_payload_fd result).

Definition ksd_result_take_fd (result : ksd_operation_result) (payload_fd tail_length : Z)
    : bool * ksd_operation_result * list Z :=
  if (payload_fd <? 0) || (tail_length =? 0)
  then (false, result, if 0 <=? payload_fd then [payload_fd] else [])
  else (true, mk_result KSD_STATUS_OK 0 [] None tail_length payload_fd, release_payload_fd result).

Section results.
Context {AL : Allocator}.

Definition ksd_result_copy (result : ksd_operation_result) (tail : option (list byte)) (tail_length : Z)
    : bool * ksd_operation_result * list Z :=
  if tail_length =? 0 then ksd_result_take result None 0
  else match tail with
       | None => (false, result, [])
       | Some tail =>
         if alloc_ok tail_length then ksd_result_take result (Some (ztake tail_length tail)) tail_length
         else (false, result, [])
       end.

(** The buffer is consumed either way. *)
Definition ksd_result_take_framed_text (buffer : ksd_buffer) (result : ksd_operation_result)
    (failure_status : Z) (diagnostic : option (list byte)) : bool * ksd_operation_result * list Z :=
  let '(ok, buffer) := ksd_buffer_frame_text KSD_MAX_TEXT_BYTES buffer in
  let '(ok, result, closed) :=
    if ok then ksd_result_take result (Some (buf_bytes buffer)) (u32 (buf_length buffer))
    else (false, result, []) in
  if ok then (true, result, closed)
  else
    let '(result, closed') := ksd_result_error result failure_status 0 diagnostic in
    (false, result, closed ++ closed').
End results.

(** ** Ownership *)

(** A result holds a tail or a descriptor, never both, and the tail it
    describes. *)
Definition result_wf (r : ksd_operation_result) : Prop :=
  (res_tail r = None \/ res_payload_fd r = -1) /\ -1 <= res_payload_fd r /\
  (res_payload_fd r = -1 -> res_tail_length r = zlen (default [] (res_tail r))) /\
  (0 <= res_payload_fd r -> 0 < res_tail_length r) /\
  (res_status r <> KSD_STATUS_OK -> res_tail r = None /\ res_payload_fd r = -1) /\
  ksd_utf8_valid (res_diagnostic r) false = true /\ zlen (res_diagnostic r) < KSD_DIAGNOSTIC_CAPACITY.

(** The descriptors a result owns. *)
Definition owned (r : ksd_operation_result) : list Z := release_payload_fd r.

Ltac result_fields :=
  unfold result_wf; cbn [res_status res_detail res_diagnostic res_tail res_tail_length res_payload_fd
                         default from_option id].
Ltac result_solve :=
  pose proof (utf8_valid_nil false); change (zlen (@nil byte)) with 0;
  unfold KSD_DIAGNOSTIC_CAPACITY, KSD_STATUS_INTERNAL, KSD_STATUS_OK in *; intuition (auto; lia).

Lemma init_result_wf : result_wf ksd_result_init.
Proof.
  unfold ksd_result_init, KSD_DIAGNOSTIC_CAPACITY. result_fields. change (zlen []) with 0.
  result_solve.
Qed.

(** The trimmed length is the longest valid prefix within the limit. *)
Lemma trim_utf8_spec n d :
  (trim_utf8 n d <= n)%nat /\ ksd_utf8_valid (take (trim_utf8 n d) d) false = true /\
  forall m, (m <= n)%nat -> ksd_utf8_valid (take m d) false = true -> (m <= trim_utf8 n d)%nat.
Proof.
  induction n as [|n (IH1 & IH2 & IH3)]; cbn [trim_utf8].
  - split; [done|]. split; [by rewrite take_0|]. lia.
  - case_if; [split; [done|split; [done|lia]]|].
    split; [lia|]. split; [done|]. intros m Hm Hv.
    destruct (decide (m = S n)) as [->|]; [congruence|]. apply IH3; [lia|done].
Qed.

(** Error diagnostics.  Setting an error drops any tail, releases any
    descriptor once, and keeps as diagnostic the longest prefix of the given
    text that fits the array and is valid UTF-8, so the whole text when it is
    valid and shorter than 1024 bytes, and at most three bytes short of the
    limit when a valid text is longer. *)
Theorem result_error_diagnostic r status detail d :
  result_wf r ->
  let '(r', closed) := ksd_result_error r status detail (Some d) in
  result_wf r' /\ closed = owned r /\ owned r' = [] /\ res_status r' = status /\ res_tail r' = None /\
  (exists n, res_diagnostic r' = take n d) /\
  (forall n, (n < Z.to_nat KSD_DIAGNOSTIC_CAPACITY)%nat -> ksd_utf8_valid (take n d) false = true ->
     (length (take n d) <= length (res_diagnostic r'))%nat) /\
  (ksd_utf8_valid d false = true ->
     if zlen d <? KSD_DIAGNOSTIC_CAPACITY then res_diagnostic r' = d
     else KSD_DIAGNOSTIC_CAPACITY - 4 <= zlen (res_diagnostic r')).
Proof.
  intros _. unfold ksd_result_error.
  set (limit := if zlen d <? KSD_DIAGNOSTIC_CAPACITY - 1 then zlen d else KSD_DIAGNOSTIC_CAPACITY - 1).
  assert (Hlim : limit = Z.min (zlen d) 1023).
  { unfold limit, KSD_DIAGNOSTIC_CAPACITY. case_if; breflect; lia. }
  pose proof (zlen_nonneg d) as Hd. destruct (trim_utf8_spec (Z.to_nat limit) d) as (H1 & H2 & H3).
  set (n := trim_utf8 (Z.to_nat limit) d) in *.
  assert (Hlen : length (take n d) = n) by (rewrite length_take; unfold zlen in *; lia).
  assert (Hbest : forall m, (m < 1024)%nat -> ksd_utf8_valid (take m d) false = true ->
            (length (take m d) <= n)%nat).
  { intros m Hm Hv. rewrite length_take. apply H3; [unfold zlen in *; lia|].
    destruct (Nat.min_spec m (length d)) as [[? ->]|[? ->]]; [done|].
    rewrite take_ge in Hv by done. by rewrite firstn_all. }
  split; [|split; [done|split; [done|split; [done|split; [done|split; [by exists n|split]]]]]].
  - result_fields. unfold zlen. rewrite Hlen. change (length []) with 0%nat.
    unfold KSD_DIAGNOSTIC_CAPACITY. result_solve.
  - cbn [res_diagnostic]. rewrite Hlen. exact Hbest.
  - intros Hv. cbn [res_diagnostic]. unfold KSD_DIAGNOSTIC_CAPACITY. case_if; breflect.
    + pose proof (H3 (length d) ltac:(unfold zlen in *; lia) ltac:(by rewrite firstn_all)).
      apply take_ge. done.
    + destruct (utf8_valid_prefix d false 1023 Hv) as (k & Hk & Hkv); [unfold zlen in *; lia|].
      pose proof (Hbest k ltac:(lia) Hkv) as Hb. rewrite length_take in Hb. unfold zlen in *. lia.
Qed.

(** What an operation that may close descriptors does with those it is given:
    the result owned [before] plus the ones handed in are the ones owned after
    plus the ones closed. *)
Definition conserves (before : list Z) (after : ksd_operation_result) (closed : list Z) : Prop :=
  before ≡ₚ owned after ++ closed.

Lemma owned_fd fd : 0 <= fd -> (if 0 <=? fd then [fd] else []) = [fd].
Proof. intros. by replace (0 <=? fd) with true by lia. Qed.

Lemma result_take_spec r tail n :
  result_wf r -> n = zlen (default [] tail) ->
  let '(ok, r', closed) := ksd_result_take r tail n in
  result_wf r' /\ conserves (owned r) r' closed /\ ok = true /\ res_tail r' = tail.
Proof.
  intros Hr ->. unfold ksd_result_take. case_if.
  - destruct tail as [t|]; [|done]. by rewrite andb_false_r in Heqb.
  - split; [|by split; [unfold conserves; rewrite app_nil_l|]].
    result_fields. change (zlen []) with 0. unfold KSD_DIAGNOSTIC_CAPACITY.
    result_solve.
Qed.

(** Descriptor ownership of [ksd_result_take_fd].  Whether it accepts a
    descriptor or not, the descriptors the result owned and the one offered are
    exactly those owned afterwards and those closed, each once; it succeeds
    exactly on an open descriptor with a nonempty tail, then holds that
    descriptor and no tail. *)
Theorem result_take_fd_conserves r fd n :
  result_wf r -> 0 <= n ->
  let '(ok, r', closed) := ksd_result_take_fd r fd n in
  result_wf r' /\ conserves (owned r ++ (if 0 <=? fd then [fd] else [])) r' closed /\
  (ok = true <-> 0 <= fd /\ n <> 0) /\
  (if ok then res_payload_fd r' = fd /\ res_tail r' = None /\ res_tail_length r' = n else r' = r).
Proof.
  intros Hr Hn. unfold ksd_result_take_fd, conserves. case_if; breflect.
  - split; [done|]. split; [done|]. split; [|done]. split; [done|]. intros [? ?]. lia.
  - split; [|split; [|split; [|done]]].
    + result_fields. unfold KSD_DIAGNOSTIC_CAPACITY. change (zlen []) with 0. result_solve.
    + unfold owned at 2, release_payload_fd at 1. cbn [res_payload_fd]. rewrite !owned_fd by lia.
      apply Permutation_app_comm.
    + split; [|done]. intros _. lia.
Qed.

Section framed.
Context {AL : Allocator}.

Lemma result_copy_spec r tail n :
  result_wf r -> n = zlen (default [] tail) ->
  let '(ok, r', closed) := ksd_result_copy r tail n in
  result_wf r' /\ conserves (owned r) r' closed /\ (ok = false -> r' = r) /\ (AllocTotal AL -> ok = true).
Proof.
  intros Hr Hn. unfold ksd_result_copy.
  case_if; breflect.
  - pose proof (result_take_spec r None 0 Hr eq_refl) as Htake.
    destruct (ksd_result_take r None 0) as [[ok r'] closed]. destruct Htake as (? & ? & -> & _). done.
  - destruct tail as [t|]; [|by cbn in Hn]. cbn in Hn. case_if.
    + rewrite ztake_all by lia. pose proof (result_take_spec r (Some t) n Hr Hn) as Htake.
      destruct (ksd_result_take r (Some t) n) as [[ok r'] closed]. destruct Htake as (? & ? & -> & _). done.
    + split; [done|]. split; [unfold conserves; by rewrite app_nil_r|]. split; [done|].
      intros HA. by rewrite alloc_total in Heqb0.
Qed.

(** Framed text results.  Handing a text buffer to a result either makes
    the result successful with a tail that is the text's length followed by
    the text, or turns it into the failure given; a text over the limit is
    always a failure, a text within it succeeds when memory does not run out;
    and no descriptor is lost. *)
Theorem result_framed_text b r failure d :
  result_wf r -> buffer_wf b ->
  let '(ok, r', closed) := ksd_result_take_framed_text b r failure (Some d) in
  conserves (owned r) r' closed /\
  (if ok then res_status r' = KSD_STATUS_OK /\
              res_tail r' = Some (ksd_encode_u32 (buf_length b) ++ buf_bytes b) /\
              buf_length b <= KSD_MAX_TEXT_BYTES
   else res_status r' = failure /\ res_tail r' = None) /\
  (AllocTotal AL -> ok = (buf_length b <=? KSD_MAX_TEXT_BYTES)).
Proof.
  intros Hr Hb. unfold ksd_result_take_framed_text.
  pose proof (frame_text_spec b KSD_MAX_TEXT_BYTES Hb ltac:(by vm_compute)) as H.
  destruct (ksd_buffer_frame_text _ _) as [[] b']; destruct H as (Hwf & Hok & Hover & Ht).
  - destruct (Hok eq_refl) as (Hbytes & Hle & Hlen).
    assert (Hlb : 0 <= buf_length b) by apply zlen_nonneg.
    rewrite u32_id by (unfold is_u32, KSD_MAX_TEXT_BYTES in *; lia).
    unfold ksd_result_take. rewrite (bool_decide_eq_false_2 (Some _ = None)), andb_false_r by done.
    split; [unfold conserves; reflexivity|]. split; [by rewrite Hbytes|]. intros _. symmetry. lia.
  - cbn [ksd_result_error fst snd]. unfold ksd_result_error. split; [unfold conserves; reflexivity|]. split; [done|].
    intros HA. destruct (Z.leb_spec (buf_length b) KSD_MAX_TEXT_BYTES); [|done].
    apply Ht; [done|]. split; [done|]. by vm_compute.
Qed.
End framed.

Section result_witnesses.
#[local] Existing Instance infinite_memory.
Definition held : ksd_operation_result := mk_result KSD_STATUS_OK 0 [] None 20 9.
Lemma held_wf : result_wf held.
Proof. unfold held. result_fields. unfold KSD_DIAGNOSTIC_CAPACITY. result_solve. Qed.

Lemma result_error_diagnostic_witness :
  let '(r', closed) := ksd_result_error held 5 0 (Some (cstr "busy"%string)) in
  result_wf r' /\ closed = owned held /\ owned r' = [] /\ res_status r' = 5 /\ res_tail r' = None /\
  (exists n, res_diagnostic r' = take n (cstr "busy"%string)) /\
  (forall n, (n < Z.to_nat KSD_DIAGNOSTIC_CAPACITY)%nat ->
     ksd_utf8_valid (take n (cstr "busy"%string)) false = true ->
     (length (take n (cstr "busy"%string)) <= length (res_diagnostic r'))%nat) /\
  (ksd_utf8_valid (cstr "busy"%string) false = true ->
     if zlen (cstr "busy"%string) <? KSD_DIAGNOSTIC_CAPACITY then res_diagnostic r' = cstr "busy"%string
     else KSD_DIAGNOSTIC_CAPACITY - 4 <= zlen (res_diagnostic r')).
Proof. apply (result_error_diagnostic held 5 0 (cstr "busy"%string)). apply held_wf. Defined.

Lemma result_take_fd_conserves_witness :
  let '(ok, r', closed) := ksd_result_take_fd held 11 40 in
  result_wf r' /\ conserves (owned held ++ [11]) r' closed /\
  (ok = true <-> 0 <= 11 /\ 40 <> 0) /\
  (if ok then res_payload_fd r' = 11 /\ res_tail r' = None /\ res_tail_length r' = 40 else r' = held).
Proof. apply (result_take_fd_conserves held 11 40); [apply held_wf|lia]. Defined.

Lemma result_framed_text_witness :
  let b := mk_buffer (cstr "text"%string) 64 64 in
  let '(ok, r', closed) := ksd_result_take_framed_text b held 7 (Some (cstr "full"%string)) in
  conserves (owned held) r' closed /\
  (if ok then res_status r' = KSD_STATUS_OK /\
              res_tail r' = Some (ksd_encode_u32 (buf_length b) ++ buf_bytes b) /\
              buf_length b <= KSD_MAX_TEXT_BYTES
   else res_status r' = 7 /\ res_tail r' = None) /\
  (AllocTotal infinite_memory -> ok = (buf_length b <=? KSD_MAX_TEXT_BYTES)).
Proof.
  apply (result_framed_text (mk_buffer (cstr "text"%string) 64 64) held 7 (cstr "full"%string)).
  - apply held_wf.
  - unfold buffer_wf. split; [vm_compute; discriminate|]. split; [vm_compute; discriminate|].
    split; vm_compute; discriminate.
Defined.
End result_witnesses.
