(* ===== verification/Environ.v ===== *)
(** * Session environments (src/session_environ.c, src/backend.c, src/provider_executable.h)

    Reading variables out of /proc/<pid>/environ, deciding from them which
    compositor and session type a process sits in, adopting the user manager's
    environment, and recognising a provider's executable.  A C string is its
    bytes without the terminator; [read_environ] is the bounded read loop and
    [cut_entry] the next entry of a block. *)
From Stdlib Require Import ZArith Lia Strings.Byte Strings.String.
From stdpp Require Import base list option numbers tactics.
From S2P Require Import Prelude.
From S2P Require Import Protocol.
From S2P Require Import Transport.
Local Open Scope Z_scope.
Local Open Scope ksd_scope.

Definition KSD_ENVIRON_LIMIT : Z := 64 * 1024.

(** The read loop shared by the readers of an environ file: [file] is what the
    file still holds; it stops at the limit, at the end of the file or on an
    error, and gives what was read and what is left in the file. *)
Fixpoint read_environ (calls : list plain_outcome) (file got : list byte) : list byte * list byte :=
  if KSD_ENVIRON_LIMIT <=? zlen got then (got, file)
  else
    match calls with
    | [] => (got, file)
    | PlainIntr :: calls => read_environ calls file got
    | PlainEnd :: _ => (got, file)
    | PlainBytes n :: calls =>
      let count := Z.min (Z.min (Zpos n) (KSD_ENVIRON_LIMIT - zlen got)) (zlen file) in
      if count =? 0 then (got, file)
      else read_environ calls (zdrop count file) (got ++ ztake count file)
    end.

(** The entry at the start of a block and what follows its terminator; [None]
    when no terminator is left. *)
Fixpoint cut_entry (data : list byte) : option (list byte * list byte) :=
  match data with
  | [] => None
  | b :: data =>
    if b2z b =? 0 then Some ([], data)
    else let* (entry, rest) := cut_entry data in Some (b :: entry, rest)
  end.

(** [entry] is "name=value". *)
Definition entry_names (name entry : list byte) : bool :=
  (zlen name <? zlen entry) && (b2z (nth (length name) entry x00) =? 61)
  && bytes_eqb (ztake (zlen name) entry) name.
Definition entry_rest (name entry : list byte) : list byte := zdrop (zlen name + 1) entry.

Fixpoint environ_value_loop (fuel : nat) (data name : list byte) (capacity : Z) : option (list byte) :=
  match data, fuel with
  | [], _ | _, O => None
  | _ :: _, S fuel =>
    let* (entry, rest) := cut_entry data in
    if entry_names name entry then
      let value := entry_rest name entry in
      guard* negb ((zlen value =? 0) || (capacity <=? zlen value)) in
      Some value
    else environ_value_loop fuel rest name capacity
  end.

(** [file] is [None] when the file cannot be opened. *)
Definition ksd_session_environ_value (pid : Z) (file : option (list byte)) (calls : list plain_outcome)
    (name : list byte) (capacity : Z) : option (list byte) :=
  guard* negb (pid <=? 0) in
  let* file := file in
  let environment := fst (read_environ calls file []) in
  environ_value_loop (length environment) environment name capacity.

(** The inner loop over the names, for one entry. *)
Fixpoint environ_store (entry : list byte) (capacity : Z) (names destinations : list (list byte))
    : list (list byte) :=
  match names, destinations with
  | name :: names, destination :: destinations =>
    if entry_names name entry then
      let value := entry_rest name entry in
      (if negb (zlen value =? 0) && (zlen value <? capacity) then value else destination) :: destinations
    else destination :: environ_store entry capacity names destinations
  | _, _ => destinations
  end.

Fixpoint environ_values_loop (fuel : nat) (data : list byte) (names destinations : list (list byte))
    (capacity : Z) : option (list (list byte)) :=
  match data, fuel with
  | [], _ => Some destinations
  | _, O => None
  | _ :: _, S fuel =>
    let* (entry, rest) := cut_entry data in
    environ_values_loop fuel rest names (environ_store entry capacity names destinations) capacity
  end.

Definition ksd_session_environ_values (pid : Z) (file : option (list byte)) (calls : list plain_outcome)
    (names : list (list byte)) (capacity : Z) : option (list (list byte)) :=
  guard* negb ((pid <=? 0) || bool_decide (names = []) || (capacity =? 0)) in
  let* file := file in
  let environment := fst (read_environ calls file []) in
  environ_values_loop (length environment) environment names (map (fun _ => []) names) capacity.

(** ** Session facts (src/backend.c) *)

Definition lower (b : byte) : byte :=
  if (65 <=? b2z b) && (b2z b <=? 90) then z2b (b2z b + 32) else b.
Definition strcase_eqb (a b : list byte) : bool := bytes_eqb (map lower a) (map lower b).
Fixpoint strcasestr (haystack needle : list byte) : bool :=
  bytes_eqb (map lower (take (length needle) haystack)) (map lower needle)
  || match haystack with [] => false | _ :: haystack => strcasestr haystack needle end.

Record session_facts := mk_facts {
  facts_compositor : Z;
  facts_session_type_x11 : bool;
  facts_wayland_display : bool;
}.

Definition entry_value (entry prefix : list byte) : option (list byte) :=
  guard* bytes_eqb (ztake (zlen prefix) entry) prefix in Some (zdrop (zlen prefix) entry).

(** [None] is a NULL value. *)
Definition compositor_from_desktop (value : option (list byte)) : Z :=
  match value with
  | None => KSD_BACKEND_NONE
  | Some value =>
    if strcasestr value (cstr "KDE") then KSD_BACKEND_KWIN
    else if strcasestr value (cstr "Cinnamon") then KSD_BACKEND_CINNAMON
    else if strcasestr value (cstr "GNOME") then KSD_BACKEND_GNOME
    else KSD_BACKEND_NONE
  end.

Definition read_own_session_facts (getenv : list byte -> option (list byte)) : session_facts :=
  mk_facts (compositor_from_desktop (getenv (cstr "XDG_CURRENT_DESKTOP")))
    (match getenv (cstr "XDG_SESSION_TYPE") with Some t => strcase_eqb t (cstr "x11") | None => false end)
    (match getenv (cstr "WAYLAND_DISPLAY") with Some d => negb (zlen d =? 0) | None => false end).

(** What one entry of the block changes. *)
Definition facts_entry (facts : session_facts) (entry : list byte) : session_facts :=
  let facts :=
    match entry_value entry (cstr "XDG_CURRENT_DESKTOP=") with
    | Some value =>
      if facts_compositor facts =? KSD_BACKEND_NONE
      then mk_facts (compositor_from_desktop (Some value)) (facts_session_type_x11 facts) (facts_wayland_display facts)
      else facts
    | None => facts
    end in
  let facts :=
    match entry_value entry (cstr "XDG_SESSION_TYPE=") with
    | Some value => mk_facts (facts_compositor facts) (strcase_eqb value (cstr "x11")) (facts_wayland_display facts)
    | None => facts
    end in
  match entry_value entry (cstr "WAYLAND_DISPLAY=") with
  | Some value => mk_facts (facts_compositor facts) (facts_session_type_x11 facts) (negb (zlen value =? 0))
  | None => facts
  end.

Fixpoint facts_loop (fuel : nat) (data : list byte) (facts : session_facts) : option session_facts :=
  match data, fuel with
  | [], _ => Some facts
  | _, O => None
  | _ :: _, S fuel =>
    let* (entry, rest) := cut_entry data in
    facts_loop fuel rest (facts_entry facts entry)
  end.

(** Reading another process's facts; a file longer than the limit is refused. *)
Definition read_session_facts (pid own_pid : Z) (getenv : list byte -> option (list byte))
    (file : option (list byte)) (calls : list plain_outcome) : option session_facts :=
  if pid =? own_pid then Some (read_own_session_facts getenv)
  else
    guard* negb (pid <=? 0) in
    let* file := file in
    let '(environment, left_over) := read_environ calls file [] in
    guard* bytes_eqb left_over [] in
    facts_loop (length environment) environment (mk_facts KSD_BACKEND_NONE false false).

Definition ksd_backend_resolve_process (facts : option session_facts) : Z :=
  match facts with
  | None => KSD_BACKEND_NONE
  | Some facts =>
    if facts_session_type_x11 facts && negb (facts_wayland_display facts) then KSD_BACKEND_X11
    else facts_compositor facts
  end.

Definition ksd_session_is_x11_process (facts : option session_facts) : bool :=
  match facts with
  | None => false
  | Some facts => facts_session_type_x11 facts && negb (facts_wayland_display facts)
  end.

Definition ksd_session_is_wayland_process (facts : option session_facts) : bool :=
  match facts with None => false | Some facts => facts_wayland_display facts end.

(** [name_has_owner] is the session bus's answer for a name. *)
Definition ksd_backend_resolve (own : session_facts) (name_has_owner : list byte -> bool) : Z :=
  if ksd_session_is_x11_process (Some own) then KSD_BACKEND_X11
  else if (ksd_backend_resolve_process (Some own) =? KSD_BACKEND_KWIN)
          && ksd_session_is_wayland_process (Some own) && name_has_owner (cstr "org.kde.KWin")
  then KSD_BACKEND_KWIN
  else if name_has_owner (cstr "io.github.keysharp.GnomeShell") then KSD_BACKEND_GNOME
  else if name_has_owner (cstr "io.github.keysharp.CinnamonShell") then KSD_BACKEND_CINNAMON
  else KSD_BACKEND_NONE.

Definition ksd_backend_session_unsupported (own : session_facts) : bool :=
  ksd_backend_resolve_process (Some own) =? KSD_BACKEND_NONE.

(** ** Adopting the user manager's environment *)

(** The first entry for [name]; an empty value counts as absent. *)
Fixpoint environment_value (environment : list (list byte)) (name : list byte) : option (list byte) :=
  match environment with
  | [] => None
  | entry :: environment =>
    if bytes_eqb (ztake (zlen name) entry) name && (b2z (nth (length name) entry x00) =? 61)
    then let value := entry_rest name entry in if zlen value =? 0 then None else Some value
    else environment_value environment name
  end.

Definition session_variable_names : list (list byte) :=
  [cstr "XDG_CURRENT_DESKTOP"; cstr "XDG_SESSION_TYPE"; cstr "WAYLAND_DISPLAY"; cstr "DISPLAY"; cstr "XAUTHORITY";
   cstr "HYPRLAND_INSTANCE_SIGNATURE"; cstr "XDG_STATE_HOME"].

(** A process environment, and setenv and unsetenv on it. *)
Definition process_environment := list byte -> option (list byte).
Definition assign (env : process_environment) (name : list byte) (value : option (list byte)) : process_environment :=
  fun n => if bytes_eqb n name then value else env n.

(** The loop over the names; [setenv_ok] tells which assignments the C library
    has memory for. *)
Fixpoint apply_names (setenv_ok : list byte -> bool) (block names : list (list byte)) (env : process_environment)
    : bool * process_environment :=
  match names with
  | [] => (true, env)
  | name :: names =>
    if setenv_ok name
    then apply_names setenv_ok block names (assign env name (environment_value block name))
    else (false, env)
  end.

Definition ksd_backend_apply_session_environment (setenv_ok : list byte -> bool) (block : list (list byte))
    (env : process_environment) : bool * process_environment :=
  match environment_value block (cstr "WAYLAND_DISPLAY"), environment_value block (cstr "DISPLAY") with
  | None, None => (false, env)
  | _, _ => apply_names setenv_ok block session_variable_names env
  end.

(** ** Provider executables (src/provider_executable.h) *)

(** The path after its last slash. *)
Definition has_slash (path : list byte) : bool := existsb (fun c => b2z c =? 47) path.
Fixpoint basename (path : list byte) : list byte :=
  match path with
  | [] => []
  | b :: rest => if has_slash rest then basename rest else if b2z b =? 47 then rest else path
  end.

Definition ksd_provider_executable_matches (path expected : list byte) : bool :=
  let name := basename path in
  bytes_eqb name expected
  || (bytes_eqb (ztake 11 path) (cstr "/nix/store/")
      && (b2z (nth 0 name x00) =? 46)
      && bytes_eqb (take (length expected) (drop 1 name)) expected
      && bytes_eqb (drop (length expected) (drop 1 name)) (cstr "-wrapped")).

(** ** Blocks *)

(** A block is its entries, each followed by a NUL. *)
Definition nul_free (e : list byte) : Prop := Forall (fun b => b2z b <> 0) e.
Definition block (es : list (list byte)) : list byte := concat (map (fun e => e ++ [x00]) es).

Lemma nul_free_dec e : forallb (fun b => negb (b2z b =? 0)) e = true -> nul_free e.
Proof.
  intros H. apply List.Forall_forall. intros b Hb. rewrite forallb_forall in H. specialize (H b Hb). breflect. done.
Qed.

Lemma nul_free_all es : forallb (forallb (fun b => negb (b2z b =? 0))) es = true -> Forall nul_free es.
Proof.
  intros H. apply List.Forall_forall. intros e He. rewrite forallb_forall in H. by apply nul_free_dec, H.
Qed.

Lemma cut_entry_app e rest : nul_free e -> cut_entry (e ++ x00 :: rest) = Some (e, rest).
Proof.
  induction 1 as [|b e Hb _ IH]; [done|]. cbn. rewrite IH. by rewrite (proj2 (Z.eqb_neq _ _) Hb).
Qed.

Lemma cut_entry_sound data e rest : cut_entry data = Some (e, rest) -> data = e ++ x00 :: rest /\ nul_free e.
Proof.
  revert e. induction data as [|b data IH]; intros e; cbn; [done|]. case_if; breflect.
  - intros [= <- <-]. split; [|constructor]. cbn. f_equal. by apply b2z_inj.
  - destruct (cut_entry data) as [[e' r]|]; [|done]. intros [= <- <-].
    destruct (IH _ eq_refl) as [-> ?]. split; [done|by constructor].
Qed.

Lemma block_cons e es : block (e :: es) = e ++ x00 :: block es.
Proof. unfold block; cbn. by rewrite <- app_assoc. Qed.

Lemma block_nonempty e es : exists b l, block (e :: es) = b :: l.
Proof. rewrite block_cons. destruct e; cbn; eauto. Qed.

(** The loops walk a block entry by entry. *)
Lemma facts_loop_block es : forall fuel facts,
  Forall nul_free es -> (length (block es) <= fuel)%nat ->
  facts_loop fuel (block es) facts = Some (fold_left facts_entry es facts).
Proof.
  induction es as [|e es IH]; intros fuel facts Hes Hf; [by destruct fuel|].
  apply Forall_cons_1 in Hes as [He Hes]. destruct (block_nonempty e es) as (b & l & Hbl).
  destruct fuel as [|fuel]; [rewrite Hbl in Hf; cbn in Hf; lia|].
  rewrite block_cons in Hf. rewrite length_app in Hf. cbn [length] in Hf.
  cbn [facts_loop]. rewrite Hbl, <- Hbl, block_cons, cut_entry_app by done. apply IH; [done|lia].
Qed.

Lemma environ_values_block names cap es : forall fuel dst,
  Forall nul_free es -> (length (block es) <= fuel)%nat ->
  environ_values_loop fuel (block es) names dst cap =
  Some (fold_left (fun d e => environ_store e cap names d) es dst).
Proof.
  induction es as [|e es IH]; intros fuel dst Hes Hf; [by destruct fuel|].
  apply Forall_cons_1 in Hes as [He Hes]. destruct (block_nonempty e es) as (b & l & Hbl).
  destruct fuel as [|fuel]; [rewrite Hbl in Hf; cbn in Hf; lia|].
  rewrite block_cons in Hf. rewrite length_app in Hf. cbn [length] in Hf.
  cbn [environ_values_loop]. rewrite Hbl, <- Hbl, block_cons, cut_entry_app by done. apply IH; [done|lia].
Qed.

(** The value the single-variable reader gives: that of the first entry naming
    the variable, unless it is empty or too long. *)
Definition first_value (name : list byte) (cap : Z) (es : list (list byte)) : option (list byte) :=
  match List.find (entry_names name) es with
  | None => None
  | Some e => let v := entry_rest name e in if (zlen v =? 0) || (cap <=? zlen v) then None else Some v
  end.

Lemma environ_value_block name cap es : forall fuel,
  Forall nul_free es -> (length (block es) <= fuel)%nat ->
  environ_value_loop fuel (block es) name cap = first_value name cap es.
Proof.
  induction es as [|e es IH]; intros fuel Hes Hf; [by destruct fuel|].
  apply Forall_cons_1 in Hes as [He Hes]. destruct (block_nonempty e es) as (b & l & Hbl).
  destruct fuel as [|fuel]; [rewrite Hbl in Hf; cbn in Hf; lia|].
  rewrite block_cons in Hf. rewrite length_app in Hf. cbn [length] in Hf.
  cbn [environ_value_loop]. rewrite Hbl, <- Hbl, block_cons, cut_entry_app by done.
  unfold first_value; cbn [List.find]. destruct (entry_names name e).
  - by destruct ((zlen (entry_rest name e) =? 0) || (cap <=? zlen (entry_rest name e))).
  - apply IH; [done|lia].
Qed.

(** The read loop gives a prefix of the file, within the limit. *)
Lemma read_environ_spec calls : forall file got,
  zlen got <= KSD_ENVIRON_LIMIT ->
  let '(data, rest) := read_environ calls file got in data ++ rest = got ++ file /\ zlen data <= KSD_ENVIRON_LIMIT.
Proof.
  induction calls as [|call calls IH]; intros file got Hg; cbn [read_environ];
    (destruct (Z.leb_spec KSD_ENVIRON_LIMIT (zlen got)); [done|]); [done|].
  destruct call as [|n|]; [by apply IH| |done]. set (count := Z.min _ _). case_if; [done|]. breflect.
  pose proof (zlen_nonneg file). specialize (IH (zdrop count file) (got ++ ztake count file)).
  rewrite zlen_app, zlen_ztake in IH by lia.
  destruct (read_environ calls _ _) as [data rest]. destruct IH as [IH1 IH2]; [lia|].
  split; [|done]. by rewrite IH1, <- app_assoc, ztake_zdrop.
Qed.

(** The reads deliver a whole file: enough of them, none an end or an error
    before it is exhausted. *)
Definition reads_whole (calls : list plain_outcome) (file : list byte) : Prop :=
  read_environ calls file [] = (file, []).

(** The two readers agree on well-formed environments.  When the whole
    block was read and every variable is assigned at most once, the reader of
    several variables gives for each name exactly what the reader of one gives,
    the empty string standing for absence. *)
Theorem environ_readers_agree pid es calls name cap :
  0 < pid -> 0 < cap -> Forall nul_free es -> reads_whole calls (block es) ->
  zlen (List.filter (entry_names name) es) <= 1 ->
  ksd_session_environ_values pid (Some (block es)) calls [name] cap =
  Some [default [] (ksd_session_environ_value pid (Some (block es)) calls name cap)].
Proof.
  intros Hpid Hcap Hes Hr Hu. unfold ksd_session_environ_values, ksd_session_environ_value.
  replace (pid <=? 0) with false by lia. replace (cap =? 0) with false by lia.
  rewrite (bool_decide_eq_false_2 ([name] = [])) by done. cbn [negb orb]. rewrite Hr. cbn [fst map].
  rewrite environ_values_block, environ_value_block by done. f_equal. unfold first_value. clear Hr Hes.
  assert (Hskip : forall l d, List.filter (entry_names name) l = [] ->
            fold_left (fun d e => environ_store e cap [name] d) l [d] = [d]).
  { induction l as [|e l IH]; intros d Hl; [done|]. cbn in Hl |- *. destruct (entry_names name e); [done|]. by apply IH. }
  induction es as [|e es IH]; [done|]. cbn [List.filter List.find fold_left environ_store] in *.
  destruct (entry_names name e) eqn:En; [|by apply IH].
  rewrite zlen_cons in Hu. rewrite Hskip.
  2:{ destruct (List.filter _ es) as [|x l]; [done|]. rewrite zlen_cons in Hu. pose proof (zlen_nonneg l). lia. }
  f_equal. destruct (Z.eqb_spec (zlen (entry_rest name e)) 0); cbn [negb andb orb]; [done|].
  destruct (Z.ltb_spec (zlen (entry_rest name e)) cap), (Z.leb_spec cap (zlen (entry_rest name e))); (done || lia).
Qed.

(** A repeated variable separates them: the reader of one takes the first
    assignment, the reader of several the last acceptable one. *)
Theorem environ_readers_differ :
  exists es calls name v w, v <> w /\ reads_whole calls (block es) /\
    ksd_session_environ_value 7 (Some (block es)) calls name 100 = Some v /\
    ksd_session_environ_values 7 (Some (block es)) calls [name] 100 = Some [w].
Proof.
  exists [cstr "DISPLAY=:0"; cstr "DISPLAY=:1"], [PlainBytes 100], (cstr "DISPLAY"), (cstr ":0"), (cstr ":1").
  repeat split; try reflexivity. discriminate.
Qed.

(** A truncated environment is not always refused.  A file longer than the
    64 KiB the reader takes is accepted when an entry happens to end at the
    limit: the reader of several variables succeeds and reports a variable that
    the file assigns as absent. *)
Theorem environ_truncation_undetected :
  exists file calls, KSD_ENVIRON_LIMIT < zlen file /\
    (exists es, Forall nul_free es /\ file = block es /\
       first_value (cstr "DISPLAY") 100 es = Some (cstr ":0")) /\
    ksd_session_environ_values 7 (Some file) calls [cstr "DISPLAY"] 100 = Some [[]].
Proof.
  set (pad := repeat (z2b 97) (Z.to_nat (KSD_ENVIRON_LIMIT - 1))).
  assert (Hpad : nul_free pad).
  { unfold pad, nul_free. apply List.Forall_forall. intros b Hb. apply repeat_spec in Hb. by subst. }
  assert (Hzp : zlen (block [pad]) = KSD_ENVIRON_LIMIT).
  { assert (zlen pad = KSD_ENVIRON_LIMIT - 1) as Hz.
    { unfold zlen, pad. rewrite repeat_length. unfold KSD_ENVIRON_LIMIT. lia. }
    rewrite block_cons, zlen_app, zlen_cons, Hz. change (zlen (block [])) with 0. lia. }
  assert (Hen : entry_names (cstr "DISPLAY") pad = false).
  { unfold entry_names. apply andb_false_iff. left. apply andb_false_iff. right.
    unfold pad. change (length (cstr "DISPLAY")) with 7%nat.
    rewrite nth_repeat_lt by (unfold KSD_ENVIRON_LIMIT; lia). reflexivity. }
  clearbody pad.
  assert (Hall : Forall nul_free [pad; cstr "DISPLAY=:0"]).
  { constructor; [done|]. constructor; [|constructor]. by apply nul_free_dec. }
  assert (Hsplit : block [pad; cstr "DISPLAY=:0"] = block [pad] ++ block [cstr "DISPLAY=:0"]).
  { rewrite !block_cons, <- app_assoc. reflexivity. }
  exists (block [pad; cstr "DISPLAY=:0"]), [PlainBytes 65536]. split; [|split].
  - rewrite Hsplit, zlen_app, Hzp. change (zlen (block [cstr "DISPLAY=:0"])) with 11. lia.
  - exists [pad; cstr "DISPLAY=:0"]. split; [done|]. split; [done|]. unfold first_value. cbn [List.find].
    by rewrite Hen.
  - unfold ksd_session_environ_values. change (negb _) with true. cbv iota beta.
    assert (Hr : read_environ [PlainBytes 65536] (block [pad; cstr "DISPLAY=:0"]) [] =
                 (block [pad], block [cstr "DISPLAY=:0"])).
    { cbn [read_environ]. change (zlen []) with 0. change (KSD_ENVIRON_LIMIT <=? 0) with false. cbv iota.
      rewrite Hsplit, zlen_app, Hzp. change (zlen (block [cstr "DISPLAY=:0"])) with 11.
      change (Z.min _ _) with KSD_ENVIRON_LIMIT. change (KSD_ENVIRON_LIMIT =? 0) with false. cbv iota.
      rewrite <- Hzp. rewrite ztake_app_l, zdrop_app_l. cbn [read_environ app]. rewrite Hzp.
      change (KSD_ENVIRON_LIMIT <=? KSD_ENVIRON_LIMIT) with true. done. }
    rewrite Hr. cbn [fst map]. rewrite environ_values_block; [|by constructor|exact (le_n _)].
    cbn [fold_left environ_store].
    by rewrite Hen.
Qed.

(** ** Session facts *)

(** The entries the facts are read from. *)
Definition facts_prefixes : list (list byte) :=
  [cstr "XDG_CURRENT_DESKTOP="; cstr "XDG_SESSION_TYPE="; cstr "WAYLAND_DISPLAY="].
Definition facts_entry_relevant (entry : list byte) : bool :=
  existsb (fun p => bytes_eqb (ztake (zlen p) entry) p) facts_prefixes.

Lemma facts_entry_irrelevant facts e : facts_entry_relevant e = false -> facts_entry facts e = facts.
Proof.
  unfold facts_entry_relevant, facts_prefixes. cbn [existsb]. intros H.
  apply orb_false_iff in H as [H1 H]. apply orb_false_iff in H as [H2 H]. apply orb_false_iff in H as [H3 _].
  unfold facts_entry, entry_value. by rewrite H1, H2, H3.
Qed.

Lemma facts_fold_filter es : forall facts,
  fold_left facts_entry es facts = fold_left facts_entry (List.filter facts_entry_relevant es) facts.
Proof.
  induction es as [|e es IH]; intros facts; [done|]. cbn [fold_left List.filter].
  destruct (facts_entry_relevant e) eqn:E; [apply IH|]. by rewrite facts_entry_irrelevant.
Qed.

(** Only the three session variables decide a process's backend.  For a
    process other than this one, two environments that were read whole and agree
    on their XDG_CURRENT_DESKTOP, XDG_SESSION_TYPE and WAYLAND_DISPLAY entries
    give the same facts, and facts are always obtained: no other entry, DISPLAY
    among them, makes a process X11. *)
Theorem environ_facts_relevant pid own getenv es es' calls calls' :
  0 < pid -> pid <> own -> Forall nul_free es -> Forall nul_free es' ->
  reads_whole calls (block es) -> reads_whole calls' (block es') ->
  List.filter facts_entry_relevant es = List.filter facts_entry_relevant es' ->
  exists facts, read_session_facts pid own getenv (Some (block es)) calls = Some facts /\
    read_session_facts pid own getenv (Some (block es')) calls' = Some facts.
Proof.
  intros Hp Ho He He' Hr Hr' Hf.
  assert (Hread : forall es calls, Forall nul_free es -> reads_whole calls (block es) ->
    read_session_facts pid own getenv (Some (block es)) calls =
    Some (fold_left facts_entry (List.filter facts_entry_relevant es) (mk_facts KSD_BACKEND_NONE false false))).
  { intros l cs Hl Hc. unfold read_session_facts.
    replace (pid =? own) with false by lia. replace (pid <=? 0) with false by lia. cbn [negb]. rewrite Hc.
    cbn. rewrite facts_loop_block by done. by rewrite facts_fold_filter. }
  eexists. split; [by apply Hread|]. rewrite Hf. by apply Hread.
Qed.

(** Adopting the user manager's environment is exact: a block with neither
    display is refused with nothing changed; otherwise, when the assignments
    succeed, each of the seven session variables has exactly the block's value,
    or is unset when the block has none, and every other variable is as it was. *)
Theorem environ_apply_exact setenv_ok blk env :
  let result := ksd_backend_apply_session_environment setenv_ok blk env in
  if bool_decide (environment_value blk (cstr "WAYLAND_DISPLAY") = None /\
                  environment_value blk (cstr "DISPLAY") = None)
  then result = (false, env)
  else (forall n, In n session_variable_names -> setenv_ok n = true) ->
    fst result = true /\
    (forall n, In n session_variable_names -> snd result n = environment_value blk n) /\
    (forall n, ~ In n session_variable_names -> snd result n = env n).
Proof.
  assert (Hloop : forall names e, (forall n, In n names -> setenv_ok n = true) ->
    fst (apply_names setenv_ok blk names e) = true /\
    (forall n, snd (apply_names setenv_ok blk names e) n = environment_value blk n \/
               (~ In n names /\ snd (apply_names setenv_ok blk names e) n = e n)) /\
    (forall n, ~ In n names -> snd (apply_names setenv_ok blk names e) n = e n) ).
  { induction names as [|name names IH]; intros e Hok; cbn [apply_names].
    - split; [done|]. split; [intros n; right; split; [intros []|done]|done].
    - rewrite Hok by (by left). destruct (IH (assign e name (environment_value blk name))) as (H1 & H2 & H3).
      { intros n Hn. apply Hok. by right. }
      split; [done|]. split.
      + intros n. destruct (H2 n) as [H|[H H']]; [by left|]. rewrite H'. unfold assign, bytes_eqb.
        destruct (decide (n = name)) as [->|Hne]; [left; by rewrite bool_decide_true|].
        right. rewrite bool_decide_false by done. split; [|done]. intros [?|?]; [by subst|done].
      + intros n Hn. rewrite H3 by (intros ?; apply Hn; by right). unfold assign, bytes_eqb.
        rewrite bool_decide_false; [done|]. intros ->. apply Hn. by left. }
  cbv zeta. unfold ksd_backend_apply_session_environment.
  destruct (environment_value blk (cstr "WAYLAND_DISPLAY")) as [w|],
           (environment_value blk (cstr "DISPLAY")) as [d|]; cbn beta iota.
  4: by rewrite bool_decide_true.
  all: rewrite bool_decide_false by (intros [? ?]; done); intros Hok;
    destruct (Hloop session_variable_names env Hok) as (H1 & H2 & H3); split; [done|]; split; [|done];
    intros n Hn; destruct (H2 n) as [H|[H _]]; [done|by destruct H].
Qed.

(** ** Provider executables *)

Lemma basename_no_slash path : has_slash path = false -> basename path = path.
Proof.
  destruct path as [|b path]; [done|]. unfold has_slash; cbn [existsb basename]. intros H.
  apply orb_false_iff in H as [Hb H]. fold (has_slash path) in H. by rewrite H, Hb.
Qed.

Lemma basename_slash dir name : has_slash name = false -> basename (dir ++ cstr "/" ++ name) = name.
Proof.
  intros H. induction dir as [|b dir IH].
  - cbn [app basename]. change (cstr "/" ++ name) with (z2b 47 :: name). cbn [basename]. by rewrite H.
  - cbn [app basename]. rewrite IH. assert (has_slash (dir ++ cstr "/" ++ name) = true) as ->; [|done].
    unfold has_slash. rewrite !existsb_app. cbn. by rewrite orb_true_r.
Qed.

Lemma basename_spec path : has_slash (basename path) = false /\
  (basename path = path \/ exists dir, path = dir ++ cstr "/" ++ basename path).
Proof.
  induction path as [|b path [IH1 IH2]]; [split; [done|by left]|]. cbn [basename].
  destruct (has_slash path) eqn:E.
  - split; [done|]. right. destruct IH2 as [IH2|[dir IH2]]; [by rewrite IH2, E in IH1|].
    exists (b :: dir). cbn [app]. by rewrite <- IH2.
  - destruct (Z.eqb_spec (b2z b) 47) as [H47|H47].
    + split; [done|]. right. exists []. cbn. f_equal. apply b2z_inj. rewrite H47. reflexivity.
    + split; [|by left]. unfold has_slash. cbn [existsb]. rewrite (proj2 (Z.eqb_neq _ _) H47). done.
Qed.

(** A provider's executable is recognised exactly by its name: a path
    matches when its last component is the expected name, or when it lies in the
    Nix store and its last component is the hidden "."name"-wrapped" of that
    store's wrappers; nothing else is accepted. *)
Theorem provider_executable_exact path expected :
  ksd_provider_executable_matches path expected = true <->
  basename path = expected \/
  ((exists rest, path = cstr "/nix/store/" ++ rest) /\
   basename path = cstr "." ++ expected ++ cstr "-wrapped").
Proof.
  unfold ksd_provider_executable_matches, bytes_eqb. rewrite orb_true_iff, bool_decide_eq_true.
  rewrite !andb_true_iff, !bool_decide_eq_true, Z.eqb_eq. split; intros [H|H]; [by left|right|by left|right].
  - destruct H as (((H1 & H2) & H3) & H4). split.
    + exists (zdrop 11 path). by rewrite <- H1, ztake_zdrop.
    + destruct (basename path) as [|b name]; [done|]. change (drop 1 (b :: name)) with name in *. cbn [nth] in *.
      change (cstr "." ++ expected ++ cstr "-wrapped") with (z2b 46 :: expected ++ cstr "-wrapped").
      f_equal; [apply b2z_inj; rewrite H2; reflexivity|].
      rewrite <- (take_drop (length expected) name). by rewrite H3, H4.
  - destruct H as [[rest ->] H]. rewrite H.
    change (cstr "." ++ expected ++ cstr "-wrapped") with (z2b 46 :: expected ++ cstr "-wrapped").
    change (drop 1 (z2b 46 :: expected ++ cstr "-wrapped")) with (expected ++ cstr "-wrapped").
    cbn [nth]. rewrite take_app_length, drop_app_length. split; [|done]. split; [|done].
    split; [|done]. apply (ztake_app_l (cstr "/nix/store/")).
Qed.

(** ** Witnesses *)

Lemma environ_readers_agree_witness :
  ksd_session_environ_values 42 (Some (block [cstr "HOME=/r"; cstr "DISPLAY=:1"])) [PlainBytes 5; PlainIntr; PlainBytes 100]
    [cstr "DISPLAY"] 64 = Some [cstr ":1"].
Proof.
  refine (eq_trans (environ_readers_agree 42 [cstr "HOME=/r"; cstr "DISPLAY=:1"]
    [PlainBytes 5; PlainIntr; PlainBytes 100] (cstr "DISPLAY") 64 _ _ _ _ _) _).
  - reflexivity.
  - reflexivity.
  - apply nul_free_all. reflexivity.
  - vm_compute. reflexivity.
  - vm_compute. discriminate.
  - vm_compute. reflexivity.
Defined.

Lemma environ_facts_relevant_witness :
  exists facts,
    read_session_facts 42 7 (fun _ => None) (Some (block [cstr "XDG_SESSION_TYPE=wayland"; cstr "DISPLAY=:1"]))
      [PlainBytes 100] = Some facts /\
    read_session_facts 42 7 (fun _ => None) (Some (block [cstr "XDG_SESSION_TYPE=wayland"])) [PlainBytes 100] =
      Some facts.
Proof.
  apply (environ_facts_relevant 42 7 (fun _ => None) [cstr "XDG_SESSION_TYPE=wayland"; cstr "DISPLAY=:1"]
    [cstr "XDG_SESSION_TYPE=wayland"] [PlainBytes 100] [PlainBytes 100]).
  - reflexivity.
  - discriminate.
  - apply nul_free_all. reflexivity.
  - apply nul_free_all. reflexivity.
  - vm_compute. reflexivity.
  - vm_compute. reflexivity.
  - vm_compute. reflexivity.
Defined.

Lemma environ_apply_exact_witness :
  let result := ksd_backend_apply_session_environment (fun _ => true) [cstr "DISPLAY=:1"] (fun _ => Some (cstr "old")) in
  fst result = true /\
  (forall n, In n session_variable_names -> snd result n = environment_value [cstr "DISPLAY=:1"] n) /\
  (forall n, ~ In n session_variable_names -> snd result n = Some (cstr "old")).
Proof.
  exact (environ_apply_exact (fun _ => true) [cstr "DISPLAY=:1"] (fun _ => Some (cstr "old")) (fun _ _ => eq_refl)).
Defined.
