(* ===== verification/Json.v ===== *)
(** * The JSON reader (src/state_wire.c)

    The span scanner the service reads compositor JSON with: [value_span] cuts
    one value off the front of the data, [field] finds a member of an object,
    and [number], [coordinate], [truth] and [text] interpret a value.  A
    [json_span] is the bytes it covers; a scanner returns the value's bytes and
    the data after it.  The theorems relate it to the JSON string writer of
    [Buffer] and to decimal notation. *)
From Stdlib Require Import ZArith Lia Strings.Byte Strings.String.
From stdpp Require Import base list option numbers tactics.
From S2P Require Import Prelude.
From S2P Require Import Protocol.
From S2P Require Import Codec.
From S2P Require Import Buffer.
From S2P Require Import Utf8.
Local Open Scope Z_scope.
Local Open Scope ksd_scope.

Definition json_span := list byte.

Definition quote : byte := z2b 34.
Definition backslash : byte := z2b 92.
Definition is_byte (c : Z) (b : byte) : bool := b2z b =? c.
Definition is_space (b : byte) : bool := is_byte 32 b || is_byte 10 b || is_byte 13 b || is_byte 9 b.

Fixpoint skip_space (s : json_span) : json_span :=
  match s with
  | [] => []
  | b :: rest => if is_space b then skip_space rest else s
  end.

(** The data after a string whose opening quote has been read. *)
Fixpoint string_end (s : json_span) : option json_span :=
  match s with
  | [] => None
  | b :: rest =>
    if is_byte 34 b then Some rest
    else if b2z b <? 32 then None
    else if is_byte 92 b then match rest with [] => None | _ :: rest => string_end rest end
    else string_end rest
  end.

Definition ends_token (b : byte) : bool := is_byte 44 b || is_byte 125 b || is_byte 93 b || is_space b.
Fixpoint token_end (s : json_span) : json_span :=
  match s with
  | [] => []
  | b :: rest => if ends_token b then s else token_end rest
  end.

Definition starts_with (c : Z) (s : json_span) : bool := match s with [] => false | b :: _ => is_byte c b end.

(** The bytes from [start] up to [rest], what is left of it. *)
Definition span_of (start rest : json_span) : json_span := ztake (zlen start - zlen rest) start.

(** [value_end] leaves the data after the value at the front of [s] (white
    space already skipped by its caller [value_span]); [members_end] is the loop
    over the members of an object or a list closed by [stop]. *)
Fixpoint value_end (fuel : nat) (depth : Z) (s : json_span) {struct fuel} : option json_span :=
  match fuel, s with
  | O, _ | _, [] => None
  | S fuel, b :: rest =>
    if is_byte 34 b then string_end rest
    else if is_byte 123 b || is_byte 91 b then
      let object := is_byte 123 b in
      members_end fuel depth object (if object then 125 else 93) (skip_space rest)
    else
      let rest := token_end s in
      guard* negb (zlen rest =? zlen s) in Some rest
  end
with members_end (fuel : nat) (depth : Z) (object : bool) (stop : Z) (s : json_span) {struct fuel} : option json_span :=
  match fuel, s with
  | O, _ | _, [] => None
  | S fuel, b :: rest =>
    if is_byte stop b then Some rest
    else
      guard* depth + 1 <=? 64 in
      let start := skip_space s in
      let* s := value_end fuel (depth + 1) start in
      let* s :=
        if object then
          let s := skip_space s in
          guard* starts_with 34 start && starts_with 58 s in
          value_end fuel (depth + 1) (skip_space (zdrop 1 s))
        else Some s in
      match skip_space s with
      | [] => None
      | c :: rest =>
        if is_byte stop c then Some rest
        else
          guard* is_byte 44 c in
          let s := skip_space rest in
          guard* negb ((zlen s =? 0) || starts_with stop s) in
          members_end fuel depth object stop s
      end
  end.

(** Every turn of either function reads at least one byte or hands it to the
    other, so twice the length is fuel enough. *)
Definition span_fuel (s : json_span) : nat := 2 * length s + 1.

Definition value_span (s : json_span) (depth : Z) : option (json_span * json_span) :=
  guard* depth <=? 64 in
  let start := skip_space s in
  let* rest := value_end (span_fuel start) depth start in
  Some (span_of start rest, rest).

Fixpoint field_loop (fuel : nat) (object : json_span) (name : list byte) : option json_span :=
  match fuel with
  | O => None
  | S fuel =>
    let* (key, object) := value_span object 0 in
    let object := skip_space object in
    guard* starts_with 58 object in
    let* (value, object) := value_span (zdrop 1 object) 0 in
    if (zlen key =? zlen name + 2) && starts_with 34 key && bytes_eqb (ztake (zlen name) (zdrop 1 key)) name
    then Some value
    else
      let object := skip_space object in
      guard* starts_with 44 object in
      field_loop fuel (zdrop 1 object) name
  end.

Definition field (object : json_span) (name : list byte) : option json_span :=
  let object := skip_space object in
  guard* negb ((zlen object <? 2) || negb (starts_with 123 object)) in
  field_loop (length object) (zdrop 1 object) name.

Fixpoint number_loop (s : json_span) (result : Z) : option Z :=
  match s with
  | [] => Some result
  | b :: s =>
    guard* negb ((b2z b <? 48) || (57 <? b2z b)) in
    let digit := b2z b - 48 in
    guard* negb ((UINT64_MAX - digit) / 10 <? result) in
    number_loop s (result * 10 + digit)
  end.

Definition number (s : json_span) : option Z :=
  let s := if (2 <=? zlen s) && starts_with 34 s then ztake (zlen s - 2) (zdrop 1 s) else s in
  guard* negb ((zlen s =? 0) || (20 <? zlen s)) in
  number_loop s 0.

(** C's [(void)number(value, &result)] leaves 0 when it fails. *)
Definition integer (object : json_span) (name : list byte) : Z :=
  match field object name with
  | None => 0
  | Some value => default 0 (number value)
  end.

Definition coordinate (object : json_span) (name : list byte) : Z :=
  match field object name with
  | None => 0
  | Some value =>
    let negative := starts_with 45 value in
    let value := if negative then zdrop 1 value else value in
    match number value with
    | None => 0
    | Some result =>
      if (if negative then 2147483648 else INT32_MAX) <? result then 0
      else if negative then i32 (- result) else i32 result
    end
  end.

Definition truth (object : json_span) (name : list byte) : bool :=
  match field object name with
  | None => false
  | Some value => bytes_eqb value (cstr "true")
  end.

Definition hex (b : byte) : Z :=
  let b := b2z b in
  if (48 <=? b) && (b <=? 57) then b - 48
  else if (97 <=? b) && (b <=? 102) then b - 97 + 10
  else if (65 <=? b) && (b <=? 70) then b - 65 + 10
  else -1.

Fixpoint unicode_loop (count : nat) (value : json_span) (code : Z) : option (Z * json_span) :=
  match count, value with
  | O, _ => Some (code, value)
  | S _, [] => None
  | S count, b :: value =>
    let digit := hex b in
    guard* negb (digit <? 0) in
    unicode_loop count value (code * 16 + digit)
  end.
Definition unicode (value : json_span) : option (Z * json_span) := unicode_loop 4 value 0.

(** The code point of an escape whose "\u" has been read. *)
Definition unicode_escape (value : json_span) : option (Z * json_span) :=
  let* (code, value) := unicode value in
  if (0xd800 <=? code) && (code <=? 0xdbff) then
    guard* negb ((zlen value <? 6) || negb (starts_with 92 value) || negb (starts_with 117 (zdrop 1 value))) in
    let* (low, value) := unicode (zdrop 2 value) in
    guard* negb ((low <? 0xdc00) || (0xdfff <? low)) in
    Some (0x10000 + Z.shiftl (code - 0xd800) 10 + low - 0xdc00, value)
  else if (0xdc00 <=? code) && (code <=? 0xdfff) then None
  else Some (code, value).

Definition simple_escape (b : byte) : option byte :=
  let z := b2z b in
  if z =? 110 then Some (z2b 10) else if z =? 114 then Some (z2b 13) else if z =? 116 then Some (z2b 9)
  else if z =? 98 then Some (z2b 8) else if z =? 102 then Some (z2b 12)
  else if (z =? 34) || (z =? 92) || (z =? 47) then Some b else None.

(** One turn of the loop: what is appended and what is left. *)
Definition text_item (b : byte) (value : json_span) : option (list byte * json_span) :=
  if is_byte 92 b then
    match value with
    | [] => None
    | b :: value =>
      if is_byte 117 b then
        let* (code, value) := unicode_escape value in Some (encode_code_point code, value)
      else let* b := simple_escape b in Some ([b], value)
    end
  else Some ([b], value).

Section text.
Context {AL : Allocator}.

Fixpoint text_loop (fuel : nat) (value : json_span) (bytes : ksd_buffer) : option ksd_buffer :=
  match value, fuel with
  | [], _ => Some bytes
  | _ :: _, O => None
  | b :: value, S fuel =>
    let* (item, value) := text_item b value in
    let '(ok, bytes) := put item bytes in
    guard* ok in text_loop fuel value bytes
  end.

Definition text (value : json_span) : option (list byte) :=
  guard* negb ((zlen value <? 2) || negb (starts_with 34 value)
               || negb (is_byte 34 (nth (Z.to_nat (zlen value - 1)) value x00))) in
  let value := ztake (zlen value - 2) (zdrop 1 value) in
  let* bytes := text_loop (length value) value (ksd_buffer_init KSD_MAX_TEXT_BYTES) in
  guard* ksd_utf8_valid (buf_bytes bytes) false in
  let '(ok, bytes) := put [x00] bytes in
  guard* ok in Some (ztake (buf_length bytes - 1) (buf_bytes bytes)).
End text.

(** ** Spans are pieces of the data *)

Lemma skip_space_suffix s : exists w, s = w ++ skip_space s /\ Forall (fun b => is_space b = true) w.
Proof.
  induction s as [|b s (w & Hs & Hw)]; [by exists []|]. cbn. destruct (is_space b) eqn:E.
  - exists (b :: w). cbn. rewrite <- Hs. split; [done|by constructor].
  - exists []. by split; [|constructor].
Qed.

Lemma skip_space_length s : (length (skip_space s) <= length s)%nat.
Proof. destruct (skip_space_suffix s) as (w & Hs & _). rewrite Hs at 2. rewrite length_app. lia. Qed.

Lemma string_end_suffix s : forall rest, string_end s = Some rest -> exists p, s = p ++ rest /\ p <> [].
Proof.
  induction s as [s IH] using (induction_ltof1 _ (@length byte)); intros rest. destruct s as [|b s]; [done|].
  cbn [string_end]. case_if; [intros [= <-]; by exists [b]|]. case_if; [done|]. case_if.
  - destruct s as [|c s]; [done|]. intros H. destruct (IH s) with (rest := rest) as (p & -> & _);
      [unfold ltof; cbn; lia|done|]. by exists (b :: c :: p).
  - intros H. destruct (IH s) with (rest := rest) as (p & -> & _); [unfold ltof; cbn; lia|done|]. by exists (b :: p).
Qed.

Lemma token_end_suffix s : exists p, s = p ++ token_end s.
Proof.
  induction s as [|b s [p Hp]]; [by exists []|]. cbn. case_if; [by exists []|].
  exists (b :: p). cbn. by rewrite <- Hp.
Qed.

(** What a scanner leaves is a proper suffix of the data it was given. *)
Definition proper_suffix (rest s : json_span) : Prop := exists p, s = p ++ rest /\ p <> [].

Lemma proper_suffix_length rest s : proper_suffix rest s -> (length rest < length s)%nat.
Proof. intros (p & -> & Hp). rewrite length_app. destruct p; [done|cbn; lia]. Qed.
Lemma proper_suffix_trans a b c : proper_suffix a b -> proper_suffix b c -> proper_suffix a c.
Proof.
  intros (p & -> & Hp) (q & -> & Hq). exists (q ++ p). split; [by rewrite app_assoc|]. by destruct q.
Qed.
Lemma proper_suffix_cons b s : proper_suffix s (b :: s).
Proof. by exists [b]. Qed.
Lemma proper_suffix_skip a s : proper_suffix a (skip_space s) -> proper_suffix a s.
Proof.
  intros (p & Hs & Hp). destruct (skip_space_suffix s) as (w & Hw & _). exists (w ++ p).
  split; [by rewrite Hw, Hs at 1; rewrite app_assoc|]. destruct w; [by cbn|done].
Qed.
Lemma skip_space_proper a s : proper_suffix s a -> proper_suffix (skip_space s) a.
Proof.
  intros (p & -> & Hp). destruct (skip_space_suffix s) as (w & Hw & _). exists (p ++ w).
  split; [by rewrite Hw at 1; rewrite app_assoc|]. by destruct p.
Qed.

Lemma span_end_suffix fuel :
  (forall depth s rest, value_end fuel depth s = Some rest -> proper_suffix rest s) /\
  (forall depth object stop s rest, members_end fuel depth object stop s = Some rest -> proper_suffix rest s).
Proof.
  induction fuel as [|fuel [IHv IHm]]; [by split|]. split.
  - intros depth [|b s] rest; [done|]. cbn [value_end]. case_if; [|case_if].
    + intros H. apply string_end_suffix in H as (p & -> & _). by exists (b :: p).
    + intros H. apply IHm, proper_suffix_skip in H. eapply proper_suffix_trans; [exact H|apply proper_suffix_cons].
    + case_if; [|done]. intros [= <-]. breflect. destruct (token_end_suffix (b :: s)) as [p Hp].
      exists p. split; [done|]. intros ->. cbn [app] in Hp. by rewrite <- Hp in *.
  - intros depth object stop [|b s] rest; [done|]. cbn [members_end].
    case_if; [intros [= <-]; apply proper_suffix_cons|]. case_if; [|done].
    destruct (value_end fuel (depth + 1) _) as [s1|] eqn:E1; [|done]. apply IHv, proper_suffix_skip in E1.
    assert (Hm : forall s2, proper_suffix s2 (b :: s) ->
      match skip_space s2 with
      | [] => None
      | c :: rest =>
        if is_byte stop c then Some rest
        else if is_byte 44 c
             then if negb ((zlen (skip_space rest) =? 0) || starts_with stop (skip_space rest))
                  then members_end fuel depth object stop (skip_space rest) else None
             else None
      end = Some rest -> proper_suffix rest (b :: s)).
    { intros s2 H2. apply skip_space_proper in H2. destruct (skip_space s2) as [|c s3]; [done|].
      pose proof (proper_suffix_trans _ _ _ (proper_suffix_cons c s3) H2) as H3.
      case_if; [by intros [= <-]|]. case_if; [|done]. case_if; [|done]. intros H. apply IHm, proper_suffix_skip in H.
      eapply proper_suffix_trans; [exact H|exact H3]. }
    destruct object; [|by apply Hm].
    destruct (starts_with 34 (skip_space (b :: s)) && starts_with 58 (skip_space s1)) eqn:E2; [|done].
    apply andb_true_iff in E2 as [_ E2].
    destruct (value_end fuel (depth + 1) (skip_space (zdrop 1 (skip_space s1)))) as [s2|] eqn:E3; [|done].
    apply Hm. apply IHv, proper_suffix_skip in E3. apply skip_space_proper in E1.
    destruct (skip_space s1) as [|c s3]; [done|]. change (zdrop 1 (c :: s3)) with s3 in E3.
    eapply proper_suffix_trans; [exact E3|]. eapply proper_suffix_trans; [apply proper_suffix_cons|exact E1].
Qed.

Lemma span_of_app p rest : span_of (p ++ rest) rest = p.
Proof. unfold span_of. rewrite zlen_app, Z.add_simpl_r. apply ztake_app_l. Qed.

(** A value span is a non-empty piece of the data that follows the white space
    it skipped, and what is left follows it. *)
Lemma value_span_sound s depth v rest :
  value_span s depth = Some (v, rest) -> skip_space s = v ++ rest /\ v <> [] /\ depth <= 64.
Proof.
  unfold value_span. case_if; [|done]. destruct (value_end _ _ _) as [r|] eqn:E; [|done].
  intros [= <- <-]. apply span_end_suffix in E as (p & -> & Hp). rewrite span_of_app. breflect. done.
Qed.

(** More fuel than the bound changes nothing. *)
Lemma span_end_fuel f1 : forall f2,
  (forall depth s, (2 * length s + 1 <= f1)%nat -> (2 * length s + 1 <= f2)%nat ->
     value_end f1 depth s = value_end f2 depth s) /\
  (forall depth object stop s, (2 * length s + 2 <= f1)%nat -> (2 * length s + 2 <= f2)%nat ->
     members_end f1 depth object stop s = members_end f2 depth object stop s).
Proof.
  induction f1 as [|f1 IH]; intros f2; [split; intros; lia|].
  destruct f2 as [|f2]; [split; intros; lia|]. destruct (IH f2) as [IHv IHm]. split.
  - intros depth [|b s] H1 H2; [done|]. cbn [value_end length] in *. case_if; [done|]. case_if; [|done].
    pose proof (skip_space_length s). apply IHm; lia.
  - intros depth object stop [|b s] H1 H2; [done|]. cbn [members_end]. case_if; [done|]. case_if; [|done].
    pose proof (skip_space_length (b :: s)) as Hs.
    rewrite (IHv (depth + 1) (skip_space (b :: s))) by lia.
    destruct (value_end f2 (depth + 1) (skip_space (b :: s))) as [s1|] eqn:E1; [|done].
    assert (Hl1 : (length s1 < length (b :: s))%nat).
    { apply span_end_suffix, proper_suffix_length in E1. lia. }
    assert (Hm : forall s2, (length s2 < length (b :: s))%nat ->
      match skip_space s2 with
      | [] => None
      | c :: rest =>
        if is_byte stop c then Some rest
        else if is_byte 44 c
             then if negb ((zlen (skip_space rest) =? 0) || starts_with stop (skip_space rest))
                  then members_end f1 depth object stop (skip_space rest) else None
             else None
      end = match skip_space s2 with
      | [] => None
      | c :: rest =>
        if is_byte stop c then Some rest
        else if is_byte 44 c
             then if negb ((zlen (skip_space rest) =? 0) || starts_with stop (skip_space rest))
                  then members_end f2 depth object stop (skip_space rest) else None
             else None
      end).
    { intros s2 Hl2. pose proof (skip_space_length s2) as Hs2. destruct (skip_space s2) as [|c s3]; [done|].
      case_if; [done|]. case_if; [|done]. case_if; [|done]. pose proof (skip_space_length s3).
      cbn [length] in *. apply IHm; lia. }
    destruct object; [|by apply Hm]. case_if; [|done].
    pose proof (skip_space_length s1). unfold zdrop. change (Z.to_nat 1) with 1%nat.
    pose proof (skip_space_length (drop 1 (skip_space s1))) as Hd. rewrite length_drop in Hd.
    rewrite (IHv (depth + 1) (skip_space (drop 1 (skip_space s1)))) by lia.
    destruct (value_end f2 _ (skip_space (drop 1 _))) as [s2|] eqn:E3; [|done].
    apply Hm. apply span_end_suffix, proper_suffix_length in E3. lia.
Qed.

(** [value_span] may be run with any sufficient fuel. *)
Lemma value_span_fuel fuel s depth :
  (span_fuel (skip_space s) <= fuel)%nat ->
  value_span s depth =
  (guard* depth <=? 64 in
   let* rest := value_end fuel depth (skip_space s) in Some (span_of (skip_space s) rest, rest)).
Proof.
  intros H. unfold value_span, span_fuel in *. rewrite (proj1 (span_end_fuel _ fuel)) by lia. done.
Qed.

(** ** What the writer produces *)

Lemma string_end_escape latin1 b rest : string_end (json_escape latin1 b ++ rest) = string_end rest.
Proof. destruct latin1, b; reflexivity. Qed.

Lemma string_end_escapes latin1 v rest :
  string_end (concat (map (json_escape latin1) v) ++ quote :: rest) = Some rest.
Proof.
  induction v as [|b v IH]; [done|]. cbn [map concat]. rewrite <- app_assoc, string_end_escape. apply IH.
Qed.

Lemma json_literal_cons v latin1 rest :
  json_literal v latin1 ++ rest = quote :: concat (map (json_escape latin1) v) ++ quote :: rest.
Proof. unfold json_literal. cbn [app]. by rewrite <- app_assoc. Qed.

Lemma skip_space_literal v latin1 rest : skip_space (json_literal v latin1 ++ rest) = json_literal v latin1 ++ rest.
Proof. by rewrite json_literal_cons. Qed.

(** A string literal is cut off as one value, whatever follows it. *)
Lemma value_end_literal fuel depth v latin1 rest :
  value_end (S fuel) depth (json_literal v latin1 ++ rest) = Some rest.
Proof. rewrite json_literal_cons. cbn [value_end]. change (is_byte 34 quote) with true. apply string_end_escapes. Qed.

Lemma value_span_literal v latin1 rest depth :
  depth <= 64 -> value_span (json_literal v latin1 ++ rest) depth = Some (json_literal v latin1, rest).
Proof.
  intros H. unfold value_span. rewrite skip_space_literal. rewrite (proj2 (Z.leb_le _ _)) by done.
  unfold span_fuel. rewrite Nat.add_1_r, value_end_literal. by rewrite span_of_app.
Qed.

(** *** Text *)

(** What a writer's literal stands for: a byte over 0x7f of a Latin-1 source is
    that code point, any other byte itself. *)
Definition literal_text (latin1 : bool) (v : list byte) : list byte :=
  concat (map (fun b => if latin1 && (0x80 <=? b2z b) then encode_code_point (b2z b) else [b]) v).

Lemma literal_text_utf8 v : literal_text false v = v.
Proof. unfold literal_text. induction v as [|b v IH]; [done|]. cbn in *. by rewrite IH. Qed.

Lemma literal_text_latin1 v : literal_text true v = utf8_encode (map b2z v).
Proof.
  unfold literal_text, utf8_encode. rewrite map_map. f_equal. apply map_ext. intros b. cbn [andb].
  destruct (Z.leb_spec 0x80 (b2z b)); [done|]. unfold encode_code_point.
  rewrite (proj2 (Z.ltb_lt _ _)) by lia. by rewrite z2b_b2z.
Qed.

Lemma text_item_escape latin1 b rest :
  exists c tl, json_escape latin1 b = c :: tl /\ text_item c (tl ++ rest) = Some (literal_text latin1 [b], rest).
Proof. destruct latin1, b; do 2 eexists; (split; [reflexivity|]); reflexivity. Qed.

Section text_roundtrip.
Context {AL : Allocator} {AT : AllocTotal AL}.

Lemma put_room bs b :
  buffer_wf b -> buf_length b + zlen bs <= buf_maximum b ->
  exists b', put bs b = (true, b') /\ buffer_wf b' /\ buf_bytes b' = buf_bytes b ++ bs /\
             buf_maximum b' = buf_maximum b.
Proof.
  intros Hwf Hroom. pose proof (put_writes bs b Hwf) as H. destruct (put bs b) as [ok b'].
  destruct H as (Hwf' & Hm & _ & Hok & Ht). specialize (Ht AT Hroom) as ->. exists b'. auto.
Qed.

Lemma text_loop_escapes latin1 v : forall fuel b,
  buffer_wf b -> (length (concat (map (json_escape latin1) v)) <= fuel)%nat ->
  buf_length b + zlen (literal_text latin1 v) <= buf_maximum b ->
  exists b', text_loop fuel (concat (map (json_escape latin1) v)) b = Some b' /\ buffer_wf b' /\
             buf_bytes b' = buf_bytes b ++ literal_text latin1 v /\ buf_maximum b' = buf_maximum b.
Proof.
  induction v as [|c v IH]; intros fuel b Hwf Hf Hroom; cbn [map concat] in *.
  { exists b. destruct fuel; cbn; by rewrite app_nil_r. }
  assert (Hl : literal_text latin1 (c :: v) = literal_text latin1 [c] ++ literal_text latin1 v).
  { unfold literal_text. cbn [map concat]. by rewrite app_nil_r. }
  rewrite Hl, zlen_app in *.
  destruct (text_item_escape latin1 c (concat (map (json_escape latin1) v))) as (d & tl & He & Hi).
  rewrite He in *. cbn [app length] in *. destruct fuel as [|fuel]; [lia|].
  cbn [text_loop]. rewrite Hi.
  pose proof (zlen_nonneg (literal_text latin1 v)).
  destruct (put_room (literal_text latin1 [c]) b Hwf ltac:(lia)) as (b1 & -> & Hwf1 & Hb1 & Hm1).
  rewrite length_app in Hf. destruct (IH fuel b1) as (b2 & -> & Hwf2 & Hb2 & Hm2); [done|lia| |].
  - unfold buf_length in *. rewrite Hb1, Hm1, zlen_app. lia.
  - exists b2. rewrite Hb2, Hb1, Hm2, Hm1, app_assoc. done.
Qed.

Lemma text_literal latin1 v :
  ksd_utf8_valid (literal_text latin1 v) false = true ->
  zlen (literal_text latin1 v) < KSD_MAX_TEXT_BYTES ->
  text (json_literal v latin1) = Some (literal_text latin1 v).
Proof.
  intros Hu Hlen. set (inner := concat (map (json_escape latin1) v)).
  assert (Hj : json_literal v latin1 = quote :: inner ++ [quote]) by done.
  assert (Hz : zlen (json_literal v latin1) = zlen inner + 2).
  { rewrite Hj, zlen_cons, zlen_app, zlen_cons. change (zlen []) with 0. lia. }
  assert (Hn : nth (Z.to_nat (zlen (json_literal v latin1) - 1)) (json_literal v latin1) x00 = quote).
  { rewrite Hz, Hj. unfold zlen. replace (Z.to_nat _) with (S (length inner)) by lia. cbn [nth].
    by rewrite app_nth2, Nat.sub_diag by lia. }
  unfold text. rewrite Hn, Hz. pose proof (zlen_nonneg inner).
  rewrite (proj2 (Z.ltb_ge _ _)) by lia. rewrite Hj.
  change (zdrop 1 (quote :: inner ++ [quote])) with (inner ++ [quote]).
  rewrite Z.add_simpl_r, ztake_app_l. cbn [starts_with].
  change (is_byte 34 quote) with true. cbn [negb orb].
  pose proof (buffer_init_wf KSD_MAX_TEXT_BYTES ltac:(unfold KSD_MAX_TEXT_BYTES, SIZE_MAX; lia)) as Hwf.
  destruct (text_loop_escapes latin1 v (length inner) _ Hwf (le_n _)) as (b & Hb & Hwf' & Hbb & Hm).
  { change (buf_length (ksd_buffer_init KSD_MAX_TEXT_BYTES)) with 0.
    change (buf_maximum (ksd_buffer_init KSD_MAX_TEXT_BYTES)) with KSD_MAX_TEXT_BYTES. lia. }
  fold inner in Hb. rewrite Hb. cbn in Hbb. rewrite Hbb, Hu.
  destruct (put_room [x00] b Hwf') as (b' & -> & _ & Hb' & _).
  { unfold buf_length. rewrite Hbb, Hm. change (zlen [x00]) with 1.
    change (buf_maximum (ksd_buffer_init KSD_MAX_TEXT_BYTES)) with KSD_MAX_TEXT_BYTES. lia. }
  unfold buf_length. rewrite Hb', Hbb, zlen_app. change (zlen [x00]) with 1. by rewrite Z.add_simpl_r, ztake_app_l.
Qed.
End text_roundtrip.

(** JSON text round trip.  What [ksd_buffer_json_string] writes, the reader
    cuts off as one value from whatever follows it and decodes to the text it
    came from: valid UTF-8 without NUL to itself, and a Latin-1 byte string
    without NUL to the UTF-8 of the code points its bytes stand for. *)
Theorem json_text_roundtrip {AL : Allocator} {AT : AllocTotal AL} v latin1 rest depth :
  depth <= 64 -> zlen (literal_text latin1 v) < KSD_MAX_TEXT_BYTES ->
  (if latin1 then Forall (fun b => b2z b <> 0) v else ksd_utf8_valid v false = true) ->
  exists literal,
    writes (ksd_buffer_json_string v latin1) literal /\
    value_span (literal ++ rest) depth = Some (literal, rest) /\
    text literal = Some (if latin1 then utf8_encode (map b2z v) else v).
Proof.
  intros Hd Hlen Hv. exists (json_literal v latin1). split; [apply json_string_writes|].
  split; [by apply value_span_literal|]. destruct latin1.
  - rewrite <- literal_text_latin1. apply text_literal; [|done]. rewrite literal_text_latin1.
    apply utf8_valid_encoding. exists (map b2z v). split; [|done]. unfold utf8_text.
    apply List.Forall_map. eapply Forall_impl; [|exact Hv]. cbn beta. intros b Hb. pose proof (b2z_range b).
    split; [|by right]. unfold scalar_value. lia.
  - rewrite <- (literal_text_utf8 v) at 2. apply text_literal; [|done]. by rewrite literal_text_utf8.
Qed.

(** A decoded text is valid UTF-8 without NUL and leaves room for its
    terminator. *)
Lemma text_loop_wf {AL : Allocator} fuel : forall value b b',
  buffer_wf b -> text_loop fuel value b = Some b' -> buffer_wf b' /\ buf_maximum b' = buf_maximum b.
Proof.
  induction fuel as [|fuel IH]; intros [|c value] b b' Hwf H0; [by injection H0 as <-|done|by injection H0 as <-|].
  revert H0. cbn [text_loop].
  destruct (text_item c value) as [[item value']|]; [|done].
  pose proof (put_writes item b Hwf) as H. destruct (put item b) as [[] b1]; [|done].
  destruct H as (Hwf1 & Hm & _). intros E. apply IH in E as [? ?]; [|done]. split; [done|]. by rewrite <- Hm.
Qed.

Lemma text_sound {AL : Allocator} value t :
  text value = Some t -> ksd_utf8_valid t false = true /\ zlen t < KSD_MAX_TEXT_BYTES.
Proof.
  unfold text. case_if; [|done].
  pose proof (buffer_init_wf KSD_MAX_TEXT_BYTES ltac:(unfold KSD_MAX_TEXT_BYTES, SIZE_MAX; lia)) as Hwf.
  destruct (text_loop _ _ _) as [b|] eqn:E; [|done]. apply text_loop_wf in E as [Hwf' Hm]; [|done].
  destruct (ksd_utf8_valid (buf_bytes b) false) eqn:Hu; [|done].
  pose proof (put_writes [x00] b Hwf') as H. destruct (put [x00] b) as [[] b1]; [|done].
  destruct H as ((_ & Hlen & _) & Hm1 & _ & Hok & _). specialize (Hok eq_refl).
  unfold buf_length in *. rewrite Hok, zlen_app in *. change (zlen [x00]) with 1 in *.
  rewrite Z.add_simpl_r, ztake_app_l. intros [= <-]. split; [done|]. rewrite Hm1, Hm in Hlen.
  change (buf_maximum (ksd_buffer_init KSD_MAX_TEXT_BYTES)) with KSD_MAX_TEXT_BYTES in Hlen. lia.
Qed.

(** *** Members *)

(** A value that is cut off at the comma or brace after it. *)
Definition delimited (v : json_span) : Prop :=
  forall rest, starts_with 44 rest = true \/ starts_with 125 rest = true ->
  value_span (v ++ rest) 0 = Some (v, rest).

Lemma literal_delimited v latin1 : delimited (json_literal v latin1).
Proof. intros rest _. by apply value_span_literal. Qed.

Lemma token_end_app v rest :
  forallb (fun b => negb (ends_token b)) v = true -> (exists b r, rest = b :: r /\ ends_token b = true) ->
  token_end (v ++ rest) = rest.
Proof.
  intros Hv (b & r & -> & Hb). induction v as [|c v IH]; cbn [app token_end].
  - by rewrite Hb.
  - cbn [forallb] in Hv. apply andb_true_iff in Hv as [Hc Hv]. apply negb_true_iff in Hc. by rewrite Hc, IH.
Qed.

(** A bare token: a number, [true], [false] or [null]. *)
Lemma token_delimited b v :
  forallb (fun c => negb (ends_token c)) (b :: v) = true ->
  is_byte 34 b = false -> is_byte 123 b = false -> is_byte 91 b = false -> delimited (b :: v).
Proof.
  intros Hv H1 H2 H3 rest Hrest. unfold value_span. cbn [Z.leb Z.compare].
  assert (Hs : is_space b = false).
  { cbn [forallb] in Hv. apply andb_true_iff in Hv as [Hc _]. apply negb_true_iff in Hc.
    unfold ends_token in Hc. by apply orb_false_iff in Hc as [_ Hc]. }
  assert (Hk : skip_space ((b :: v) ++ rest) = b :: v ++ rest) by (cbn; by rewrite Hs).
  rewrite Hk. unfold span_fuel. rewrite Nat.add_1_r. cbn [value_end]. rewrite H1, H2, H3. cbn [orb].
  change (b :: v ++ rest) with ((b :: v) ++ rest). rewrite token_end_app; [|done|].
  - rewrite zlen_app, zlen_cons. pose proof (zlen_nonneg v).
    rewrite (proj2 (Z.eqb_neq _ _)) by lia. cbn [negb]. by rewrite span_of_app.
  - destruct rest as [|c r]; [by destruct Hrest|]. exists c, r. split; [done|]. unfold ends_token, starts_with in *.
    destruct Hrest as [-> | ->]; [done|]. by rewrite orb_true_r.
Qed.

(** An object as it is usually written: no spaces, each name one that needs no
    escaping. *)
Definition plain_name (name : list byte) : Prop := concat (map (json_escape false) name) = name.
Fixpoint members_text (ms : list (list byte * json_span)) : list byte :=
  match ms with
  | [] => cstr "}"
  | (name, v) :: [] => json_literal name false ++ cstr ":" ++ v ++ cstr "}"
  | (name, v) :: ms => json_literal name false ++ cstr ":" ++ v ++ cstr "," ++ members_text ms
  end.
Definition object_text (ms : list (list byte * json_span)) : list byte := cstr "{" ++ members_text ms.
Fixpoint member (ms : list (list byte * json_span)) (name : list byte) : option json_span :=
  match ms with
  | [] => None
  | (n, v) :: ms => if bytes_eqb n name then Some v else member ms name
  end.

Lemma plain_key_matches n name :
  plain_name n ->
  (zlen (json_literal n false) =? zlen name + 2) && starts_with 34 (json_literal n false)
  && bytes_eqb (ztake (zlen name) (zdrop 1 (json_literal n false))) name = bytes_eqb n name.
Proof.
  intros Hn. unfold json_literal. rewrite Hn. cbn [app]. cbn [starts_with].
  change (is_byte 34 (z2b 34)) with true. rewrite andb_true_r, zlen_cons, zlen_app.
  change (zdrop 1 (z2b 34 :: n ++ [z2b 34])) with (n ++ [z2b 34]). change (zlen [z2b 34]) with 1.
  destruct (Z.eqb_spec (1 + (zlen n + 1)) (zlen name + 2)) as [E|E]; cbn [andb].
  - replace (zlen name) with (zlen n) by lia. by rewrite ztake_app_l.
  - unfold bytes_eqb. symmetry. apply bool_decide_eq_false. intros ->. lia.
Qed.

Lemma field_loop_members ms name : forall fuel,
  ms <> [] -> (length (members_text ms) < fuel)%nat ->
  Forall (fun m => plain_name (fst m) /\ delimited (snd m)) ms ->
  field_loop fuel (members_text ms) name = member ms name.
Proof.
  induction ms as [|[n v] ms IH]; intros fuel Hne Hf Hms; [done|].
  apply Forall_cons_1 in Hms as [[Hn Hv] Hms]. cbn [fst snd] in Hn, Hv.
  destruct fuel as [|fuel]; [lia|].
  assert (Htl : exists tl, members_text ((n, v) :: ms) = json_literal n false ++ z2b 58 :: v ++ tl /\
            match ms with [] => tl = cstr "}" | _ => tl = z2b 44 :: members_text ms end).
  { destruct ms; [exists (cstr "}")|eexists]; by split. }
  destruct Htl as (tl & Ht & Htl). rewrite Ht. cbn [field_loop].
  rewrite value_span_literal by lia. change (skip_space (z2b 58 :: v ++ tl)) with (z2b 58 :: v ++ tl).
  cbn [starts_with]. change (is_byte 58 (z2b 58)) with true. cbv iota.
  change (zdrop 1 (z2b 58 :: v ++ tl)) with (v ++ tl).
  rewrite Hv by (destruct ms; subst tl; [by right|by left]). rewrite plain_key_matches by done.
  cbn [member]. destruct (bytes_eqb n name); [done|]. destruct ms as [|m ms]; subst tl; [done|].
  change (skip_space (z2b 44 :: members_text (m :: ms))) with (z2b 44 :: members_text (m :: ms)).
  cbn [starts_with]. change (is_byte 44 (z2b 44)) with true. cbv iota.
  change (zdrop 1 (z2b 44 :: members_text (m :: ms))) with (members_text (m :: ms)).
  apply IH; [done| |done]. rewrite Ht, !length_app in Hf. cbn [length] in Hf. rewrite length_app in Hf.
  cbn [length] in Hf. lia.
Qed.

(** Member lookup.  In an object whose names need no escaping and whose
    values are texts or bare tokens (or anything else cut off at the comma or
    brace after it), [field] gives the value of the first member of that name,
    byte for byte, and fails exactly when there is none; names that merely share
    a prefix, and names inside values, are never confused with it. *)
Theorem json_field_lookup ms name :
  Forall (fun m => plain_name (fst m) /\ delimited (snd m)) ms ->
  field (object_text ms) name = member ms name.
Proof.
  intros Hms. destruct ms as [|m ms]; [reflexivity|].
  unfold field, object_text. change (cstr "{" ++ members_text (m :: ms)) with (z2b 123 :: members_text (m :: ms)).
  change (skip_space (z2b 123 :: members_text (m :: ms))) with (z2b 123 :: members_text (m :: ms)).
  assert (Hlen : 1 <= zlen (members_text (m :: ms))).
  { destruct m as [n v], ms; cbn [members_text]; unfold json_literal; cbn [app]; rewrite zlen_cons;
      match goal with |- context [1 + zlen ?l] => pose proof (zlen_nonneg l) end; lia. }
  rewrite zlen_cons. rewrite (proj2 (Z.ltb_ge _ _)) by lia. cbn [starts_with].
  change (is_byte 123 (z2b 123)) with true. cbn [negb orb].
  change (zdrop 1 (z2b 123 :: members_text (m :: ms))) with (members_text (m :: ms)).
  apply field_loop_members; [done|cbn [length]; lia|done].
Qed.

(** ** Numbers *)

Definition decimal_digit (b : byte) : Prop := 48 <= b2z b <= 57.
Definition decimal_value (s : list byte) : Z := fold_left (fun r b => r * 10 + (b2z b - 48)) s 0.

Lemma number_loop_spec s : forall r n, 0 <= r ->
  number_loop s r = Some n <->
  Forall decimal_digit s /\ n = fold_left (fun r b => r * 10 + (b2z b - 48)) s r /\ (s <> [] -> n <= UINT64_MAX).
Proof.
  induction s as [|b s IH]; intros r n Hr; cbn [number_loop fold_left].
  - split; [intros [= <-]; by split|by intros (_ & -> & _)].
  - assert (Hmono : forall l q, Forall decimal_digit l -> 0 <= q ->
              q <= fold_left (fun r b => r * 10 + (b2z b - 48)) l q).
    { induction l as [|c l IHl]; intros q Hl Hq; cbn [fold_left]; [lia|].
      apply Forall_cons_1 in Hl as [Hc Hl]. unfold decimal_digit in Hc.
      specialize (IHl (q * 10 + (b2z c - 48)) Hl). lia. }
    unfold decimal_digit in *. case_if; breflect.
    + case_if; breflect.
      * rewrite IH by lia. split.
        -- intros (Hs & -> & Hn). split; [by constructor; [lia|]|]. split; [done|]. intros _.
           destruct s as [|c s]; [|by apply Hn]. cbn [fold_left].
           pose proof (Z.mul_div_le (UINT64_MAX - (b2z b - 48)) 10). lia.
        -- intros (Hs & -> & Hn). apply Forall_cons_1 in Hs as [_ Hs]. split; [done|]. split; [done|].
           intros _. by apply Hn.
      * split; [done|]. intros (Hs & -> & Hn). specialize (Hn ltac:(done)). apply Forall_cons_1 in Hs as [_ Hs].
        specialize (Hmono s (r * 10 + (b2z b - 48)) Hs ltac:(lia)).
        pose proof (Z.mul_succ_div_gt (UINT64_MAX - (b2z b - 48)) 10 ltac:(lia)). lia.
    + split; [done|]. intros (Hs & _). apply Forall_cons_1 in Hs as [Hb _].
      lia.
Qed.

(** The digits of a number: the value itself, or what a quoted value holds. *)
Definition number_digits (v : json_span) : list byte :=
  if (2 <=? zlen v) && starts_with 34 v then ztake (zlen v - 2) (zdrop 1 v) else v.

(** A number is read exactly: [number] yields [n] when the value (without
    its quotes, if it has them) is one to twenty decimal digits whose value is [n]
    and fits 64 bits; nothing else is accepted and no value wraps around. *)
Theorem json_number_exact v n :
  number v = Some n <->
  let digits := number_digits v in
  1 <= zlen digits <= 20 /\ Forall decimal_digit digits /\ n = decimal_value digits /\ n <= UINT64_MAX.
Proof.
  unfold number, number_digits. set (digits := if (2 <=? zlen v) && starts_with 34 v then _ else _).
  cbv zeta. pose proof (zlen_nonneg digits) as Hz.
  destruct (negb ((zlen digits =? 0) || (20 <? zlen digits))) eqn:E; breflect.
  - rewrite number_loop_spec by lia. fold (decimal_value digits). split.
    + intros (H1 & H2 & H3). split; [lia|]. split; [done|]. split; [done|]. apply H3.
      intros ->. change (zlen []) with 0 in *. lia.
    + intros (_ & H1 & H2 & H3). auto.
  - split; [done|]. intros ([H1 H2] & _). lia.
Qed.

Lemma number_range v n : number v = Some n -> is_u64 n.
Proof.
  unfold number. set (digits := if (2 <=? zlen v) && starts_with 34 v then _ else _). case_if; [|done]. intros H.
  assert (Hpos : forall l r, 0 <= r -> number_loop l r = Some n -> 0 <= n).
  { induction l as [|b l IH]; intros r Hr; cbn [number_loop]; [by intros [= <-]|].
    case_if; [|done]. case_if; [|done]. breflect. apply IH. lia. }
  pose proof (Hpos _ 0 ltac:(lia) H). apply number_loop_spec in H as (_ & _ & H); [|lia].
  unfold is_u64, UINT64_MAX in *. destruct digits as [|b l]; [by breflect|]. specialize (H ltac:(done)). lia.
Qed.

Lemma integer_range object name : is_u64 (integer object name).
Proof.
  unfold integer. destruct (field object name) as [v|]; [|unfold is_u64; lia].
  destruct (number v) as [n|] eqn:E; cbn [default from_option]; [by eapply number_range|unfold is_u64; lia].
Qed.

Lemma coordinate_range object name : is_i32 (coordinate object name).
Proof.
  unfold coordinate. destruct (field object name) as [v|]; [|unfold is_i32; lia]. cbv zeta.
  destruct (number _) as [n|] eqn:E; [|unfold is_i32; lia].
  assert (Hi : forall z, is_i32 (i32 z)).
  { intros z. unfold is_i32, i32. pose proof (Z.mod_pos_bound (z + 2 ^ 31) (2 ^ 32) ltac:(lia)). lia. }
  case_if; [unfold is_i32; lia|]. case_if; apply Hi.
Qed.

(** ** Nesting *)

(** [n] lists, each the only item of the one around it. *)
Fixpoint nest (n : nat) (rest : json_span) : json_span :=
  match n with O => rest | S n => z2b 91 :: nest n (z2b 93 :: rest) end.

Lemma nest_length n rest : length (nest n rest) = (2 * n + length rest)%nat.
Proof. revert rest. induction n as [|n IH]; intros rest; [done|]. cbn [nest length]. rewrite IH. cbn [length]. lia. Qed.

Lemma skip_space_nest n rest : skip_space (nest (S n) rest) = nest (S n) rest.
Proof. done. Qed.

Lemma value_end_nest n : forall fuel depth rest, (2 * n + 2 <= fuel)%nat ->
  value_end fuel depth (nest (S n) rest) = if depth + Z.of_nat n <=? 64 then Some rest
                                           else if (n =? 0)%nat then Some rest else None.
Proof.
  induction n as [|n IH]; intros fuel depth rest Hf; (destruct fuel as [|[|fuel]]; [lia..|]).
  - transitivity (Some rest); [reflexivity|]. by destruct (depth + Z.of_nat 0 <=? 64).
  - cbn [nest value_end]. change (is_byte 34 (z2b 91)) with false. change (is_byte 123 (z2b 91)) with false.
    change (is_byte 91 (z2b 91)) with true. cbn [orb]. cbv iota zeta.
    rewrite (skip_space_nest n (z2b 93 :: rest) : skip_space (z2b 91 :: nest n (z2b 93 :: z2b 93 :: rest)) = _).
    cbn [nest members_end]. change (is_byte 93 (z2b 91)) with false. cbv iota.
    rewrite (skip_space_nest n (z2b 93 :: rest) : skip_space (z2b 91 :: nest n (z2b 93 :: z2b 93 :: rest)) = _).
    rewrite IH by lia.
    destruct (Z.leb_spec (depth + 1) 64).
    + replace (depth + Z.of_nat (S n)) with (depth + 1 + Z.of_nat n) by lia.
      destruct (Z.leb_spec (depth + 1 + Z.of_nat n) 64); [by cbn|].
      destruct n as [|n]; [lia|]. by cbn.
    + rewrite (proj2 (Z.leb_gt _ _)) by lia. done.
Qed.

(** Nesting is bounded: a value of [n] nested lists is accepted, whole and
    whatever follows it, exactly when [n] is at most 65, so a hostile document
    cannot drive the recursive scanner deeper than that. *)
Theorem json_nesting_bound n rest :
  (1 <= n)%nat ->
  value_span (nest n rest) 0 = (if (n <=? 65)%nat then Some (nest n [], rest) else None).
Proof.
  intros Hn. destruct n as [|n]; [lia|]. unfold value_span. cbn [Z.leb Z.compare]. rewrite skip_space_nest.
  unfold span_fuel. rewrite value_end_nest by (rewrite nest_length; lia).
  assert (Happ : forall m r, nest m r = nest m [] ++ r).
  { induction m as [|m IH]; intros r; [done|]. cbn [nest app]. f_equal.
    rewrite IH, (IH [z2b 93]), <- app_assoc. done. }
  destruct (Nat.leb_spec (S n) 65).
  - rewrite (proj2 (Z.leb_le _ _)) by lia. by rewrite (Happ (S n) rest), span_of_app.
  - rewrite (proj2 (Z.leb_gt _ _)) by lia. destruct n; [lia|done].
Qed.

(** ** Witnesses *)

#[local] Existing Instance infinite_memory.

Lemma json_text_roundtrip_witness :
  exists literal,
    writes (ksd_buffer_json_string [z2b 65; z2b 34; z2b 233] true) literal /\
    value_span (literal ++ cstr ",1") 3 = Some (literal, cstr ",1") /\
    text literal = Some (utf8_encode [65; 34; 233]).
Proof.
  apply (json_text_roundtrip [z2b 65; z2b 34; z2b 233] true (cstr ",1") 3).
  - discriminate.
  - vm_compute. reflexivity.
  - repeat (apply Forall_cons_2; [vm_compute; discriminate|]). constructor.
Defined.

Lemma json_field_lookup_witness :
  field (object_text [(cstr "identity", json_literal (cstr "id") false); (cstr "id", cstr "7")]) (cstr "id") =
  Some (cstr "7").
Proof.
  refine (eq_trans (json_field_lookup
    [(cstr "identity", json_literal (cstr "id") false); (cstr "id", cstr "7")] (cstr "id") _) _).
  - apply Forall_cons_2; [split; [reflexivity|apply literal_delimited]|].
    apply Forall_cons_2; [split; [reflexivity|by apply token_delimited]|constructor].
  - vm_compute. reflexivity.
Defined.

Lemma json_nesting_bound_witness :
  value_span (nest 2 (cstr "x")) 0 = Some (nest 2 [], cstr "x") /\ value_span (nest 66 []) 0 = None.
Proof.
  split.
  - refine (eq_trans (json_nesting_bound 2 (cstr "x") _) _); [apply le_S, le_n|reflexivity].
  - refine (eq_trans (json_nesting_bound 66 [] _) _); [apply (proj1 (Nat.leb_le 1 66)); reflexivity|reflexivity].
Defined.
