(* ===== verification/StateWire.v ===== *)
(** * Window records and state events (src/state_wire.c)

    The window record a compositor reports and clients receive: reading one out
    of JSON, listing the windows of a reply in stacking order, and the wire form
    of the state events that carry it.  A [ksd_string] is [None] while its
    pointer is NULL; a record's four rectangles are the fourteen words the wire
    form copies as an array. *)
From Stdlib Require Import ZArith Lia Strings.Byte Strings.String.
From stdpp Require Import base list option numbers tactics.
From S2P Require Import Prelude.
From S2P Require Import Protocol.
From S2P Require Import Codec.
From S2P Require Import Buffer.
From S2P Require Import Utf8.
From S2P Require Import Json.
Local Open Scope Z_scope.
Local Open Scope ksd_scope.

Definition ksd_string := option (list byte).
Definition string_bytes (s : ksd_string) : list byte := default [] s.

Record rect := mk_rect { rect_x : Z; rect_y : Z; rect_width : Z; rect_height : Z }.
Definition rect_zero : rect := mk_rect 0 0 0 0.

Record ksd_window_record := mk_window {
  win_flags : Z;
  win_valid_fields : Z;
  win_handle : Z;
  win_parent : Z;
  win_pid : Z;
  win_transparency : Z;
  win_frame : rect;
  win_client : rect;
  win_surface : rect;
  win_buffer_width : Z;
  win_buffer_height : Z;
  win_title : ksd_string;
  win_app_id : ksd_string;
  win_capture_id : ksd_string;
  win_compositor_id : ksd_string;
  win_stacking_order : Z;
}.

Record ksd_state_event := mk_event {
  ev_kind : Z;
  ev_domain : Z;
  ev_epoch : Z;
  ev_sequence : Z;
  ev_window : ksd_window_record;
  ev_data : ksd_string;
  ev_granted_scopes : Z;
  ev_revoked_scopes : Z;
}.

Definition ksd_window_record_init : ksd_window_record :=
  mk_window 0 0 0 0 0 0 rect_zero rect_zero rect_zero 0 0 None None None None 0.
Definition ksd_state_event_init : ksd_state_event := mk_event 0 0 0 0 ksd_window_record_init None 0 0.

(** ** Windows in JSON *)

(** The member names of the valid-field bits, from bit 0. *)
Definition window_names : list (list byte) :=
  [cstr "id"; cstr "title"; cstr "appId"; cstr "pid"; cstr "frame"; cstr "client"; cstr "visible"; cstr "active";
   cstr "minimized"; cstr "maximized"; cstr "alwaysOnTop"; cstr "decorated"; cstr "transparency";
   cstr "onCurrentWorkspace"; cstr "captureId"; cstr "parent"; cstr "surface"; cstr "buffer"; cstr "compositorId"].
Definition window_flag_names : list (list byte) :=
  [cstr "visible"; cstr "active"; cstr "minimized"; cstr "maximized"; cstr "alwaysOnTop"; cstr "decorated";
   cstr "onCurrentWorkspace"; cstr "topLevel"].

(** The walk over the names a "validFields" list holds. *)
Fixpoint valid_field_listed (fuel : nat) (l : json_span) (name : list byte) (valid : bool) : bool :=
  match fuel with
  | O => valid
  | S fuel =>
    match value_span l 0 with
    | None => valid
    | Some (value, l) =>
      let valid := if (zlen value =? zlen name + 2) && bytes_eqb (ztake (zlen name) (zdrop 1 value)) name
                   then true else valid in
      let l := skip_space l in
      if (zlen l =? 0) || negb (starts_with 44 l) then valid
      else valid_field_listed fuel (zdrop 1 l) name valid
    end
  end.

(** The bits of the names from bit [i] on. *)
Fixpoint window_valid_fields (object : json_span) (fields : option json_span) (i : Z) (names : list (list byte))
    (valid_fields : Z) : Z :=
  match names with
  | [] => valid_fields
  | name :: names =>
    let valid_fields :=
      match field object name with
      | None => valid_fields
      | Some _ =>
        let valid := bool_decide (fields = None) in
        let valid := match fields with
                     | Some l => if 2 <=? zlen l then valid_field_listed (length l) (zdrop 1 l) name valid else valid
                     | None => valid
                     end in
        if valid then Z.lor valid_fields (u64 (Z.shiftl 1 i)) else valid_fields
      end in
    window_valid_fields object fields (i + 1) names valid_fields
  end.

Fixpoint window_flags (object : json_span) (i : Z) (names : list (list byte)) (fl : Z) : Z :=
  match names with
  | [] => fl
  | name :: names =>
    window_flags object (i + 1) names (if truth object name then Z.lor fl (u32 (Z.shiftl 1 i)) else fl)
  end.

(** A rectangle member; absent, it stays zero. *)
Definition rect_of (value : json_span) : rect :=
  mk_rect (coordinate value (cstr "x")) (coordinate value (cstr "y"))
    (u32 (integer value (cstr "width"))) (u32 (integer value (cstr "height"))).
Definition window_rect (object : json_span) (name : list byte) : rect :=
  match field object name with None => rect_zero | Some value => rect_of value end.

(** The window itself, or the "window" member an event wraps it in. *)
Definition window_object (object : json_span) : json_span :=
  match field object (cstr "id") with
  | Some _ => object
  | None => match field object (cstr "window") with Some value => value | None => object end
  end.

Section windows.
Context {AL : Allocator}.

(** A text member: absent it stays NULL, present it must be a text. *)
Definition window_text (object : json_span) (name : list byte) : option ksd_string :=
  match field object name with
  | None => Some None
  | Some value => let* t := text value in Some (Some t)
  end.

Definition ksd_state_window_json (data : list byte) : option ksd_window_record :=
  let object := window_object data in
  let* id := field object (cstr "id") in
  let* handle := number id in
  guard* negb (handle =? 0) in
  let valid_fields := window_valid_fields object (field object (cstr "validFields")) 1 (drop 1 window_names)
                        KSD_FIELD_ID in
  let* title := window_text object (cstr "title") in
  let* app_id := window_text object (cstr "appId") in
  let* capture_id := window_text object (cstr "captureId") in
  let* compositor_id := window_text object (cstr "compositorId") in
  let pid := u32 (integer object (cstr "pid")) in
  let parent := integer object (cstr "parent") in
  let transparency := u32 (integer object (cstr "transparency")) in
  let frame := window_rect object (cstr "frame") in
  let client := window_rect object (cstr "client") in
  let surface := window_rect object (cstr "surface") in
  let '(buffer_width, buffer_height) :=
    match field object (cstr "buffer") with
    | None => (0, 0)
    | Some value => (u32 (integer value (cstr "width")), u32 (integer value (cstr "height")))
    end in
  let '(surface, valid_fields) :=
    match field object (cstr "surface"), field object (cstr "buffer") with
    | None, Some value =>
      if Z.land valid_fields KSD_FIELD_BUFFER =? 0 then (surface, valid_fields)
      else (rect_of value, Z.lor valid_fields KSD_FIELD_SURFACE)
    | _, _ => (surface, valid_fields)
    end in
  Some (mk_window (window_flags object 0 window_flag_names 0) valid_fields handle parent pid transparency
          frame client surface buffer_width buffer_height title app_id capture_id compositor_id 0).

Definition ksd_state_window_is_child_json (data : list byte) : bool :=
  let object := window_object data in
  let top := integer object (cstr "topLevel") in
  let id := integer object (cstr "id") in
  negb (id =? 0) && negb (top =? 0) && negb (id =? top).

Definition place_window (window : ksd_window_record) (order : Z) : ksd_window_record :=
  mk_window (win_flags window) (Z.lor (win_valid_fields window) KSD_FIELD_STACKING_ORDER) (win_handle window)
    (win_parent window) (win_pid window) (win_transparency window) (win_frame window) (win_client window)
    (win_surface window) (win_buffer_width window) (win_buffer_height window) (win_title window)
    (win_app_id window) (win_capture_id window) (win_compositor_id window) order.

(** [callback] takes a window and the context, and tells whether to go on. *)
Fixpoint windows_loop {C} (callback : ksd_window_record -> C -> bool * C) (fuel : nat) (windows : json_span)
    (order : Z) (context : C) : bool * C :=
  match fuel, windows with
  | O, _ | _, [] => (false, context)
  | S fuel, _ :: _ =>
    if starts_with 93 windows then (true, context)
    else
      match value_span windows 0 with
      | None => (false, context)
      | Some (value, windows) =>
        match ksd_state_window_json value with
        | None => (false, context)
        | Some window =>
          let '(ok, context) := callback (place_window window order) context in
          if negb ok then (false, context)
          else
            let windows := skip_space windows in
            if zlen windows =? 0 then (false, context)
            else if starts_with 93 windows then (true, context)
            else if starts_with 44 windows then windows_loop callback fuel (zdrop 1 windows) (u64 (order + 1)) context
            else (false, context)
        end
      end
  end.

Definition ksd_state_windows_json {C} (data : list byte) (callback : ksd_window_record -> C -> bool * C)
    (context : C) : bool * C :=
  match field data (cstr "windows") with
  | None => (false, context)
  | Some windows =>
    if (zlen windows <? 2) || negb (starts_with 91 windows) then (false, context)
    else windows_loop callback (length windows) (skip_space (zdrop 1 windows)) 0 context
  end.

(** ** The wire form *)

Definition refuse : bufop := fun buffer => (false, buffer).

Definition encode_text (s : ksd_string) : bufop :=
  if KSD_MAX_TEXT_BYTES <? zlen (string_bytes s) then refuse
  else ksd_buffer_u32 (u32 (zlen (string_bytes s))) ;;; ksd_buffer_bytes s (zlen (string_bytes s)).

Fixpoint encode_u32s (values : list Z) : bufop :=
  match values with
  | [] => fun buffer => (true, buffer)
  | v :: values => ksd_buffer_u32 v ;;; encode_u32s values
  end.

(** The fourteen words from [frame_x] on, seen as [uint32_t]. *)
Definition rect_words (r : rect) : list Z := [u32 (rect_x r); u32 (rect_y r); rect_width r; rect_height r].
Definition window_words (w : ksd_window_record) : list Z :=
  rect_words (win_frame w) ++ rect_words (win_client w) ++ rect_words (win_surface w)
  ++ [win_buffer_width w; win_buffer_height w].

Definition ksd_state_event_encode (event : ksd_state_event) : bufop :=
  let w := ev_window event in
  ksd_buffer_u32 (ev_kind event) ;;; ksd_buffer_u32 (ev_domain event) ;;;
  ksd_buffer_u64 (ev_epoch event) ;;; ksd_buffer_u64 (ev_sequence event) ;;;
  ksd_buffer_u32 (ev_granted_scopes event) ;;; ksd_buffer_u32 (ev_revoked_scopes event) ;;;
  ksd_buffer_u32 (win_flags w) ;;; ksd_buffer_u64 (win_valid_fields w) ;;;
  ksd_buffer_u64 (win_handle w) ;;; ksd_buffer_u64 (win_parent w) ;;;
  ksd_buffer_u32 (win_pid w) ;;; ksd_buffer_u32 (win_transparency w) ;;;
  encode_u32s (window_words w) ;;;
  ksd_buffer_u64 (win_stacking_order w) ;;; encode_text (win_title w) ;;; encode_text (win_app_id w) ;;;
  encode_text (win_capture_id w) ;;; encode_text (win_compositor_id w) ;;; encode_text (ev_data event).

Definition decode_text (cursor : ksd_cursor) : option (ksd_string * ksd_cursor) :=
  let* (length, cursor) := ksd_cursor_u32 cursor in
  guard* length <=? KSD_MAX_TEXT_BYTES in
  let* (data, cursor) := ksd_cursor_bytes cursor length in
  guard* ksd_utf8_valid data false in
  if length =? 0 then Some (None, cursor)
  else guard* alloc_ok (length + 1) in Some (Some data, cursor).

Definition decode_rect (cursor : ksd_cursor) : option (rect * ksd_cursor) :=
  let* (x, cursor) := ksd_cursor_u32 cursor in
  let* (y, cursor) := ksd_cursor_u32 cursor in
  let* (width, cursor) := ksd_cursor_u32 cursor in
  let* (height, cursor) := ksd_cursor_u32 cursor in
  Some (mk_rect (i32 x) (i32 y) width height, cursor).

Definition decode_window (cursor : ksd_cursor) : option (ksd_window_record * ksd_cursor) :=
  let* (fl, cursor) := ksd_cursor_u32 cursor in
  let* (valid_fields, cursor) := ksd_cursor_u64 cursor in
  let* (handle, cursor) := ksd_cursor_u64 cursor in
  let* (parent, cursor) := ksd_cursor_u64 cursor in
  let* (pid, cursor) := ksd_cursor_u32 cursor in
  let* (transparency, cursor) := ksd_cursor_u32 cursor in
  let* (frame, cursor) := decode_rect cursor in
  let* (client, cursor) := decode_rect cursor in
  let* (surface, cursor) := decode_rect cursor in
  let* (buffer_width, cursor) := ksd_cursor_u32 cursor in
  let* (buffer_height, cursor) := ksd_cursor_u32 cursor in
  let* (stacking_order, cursor) := ksd_cursor_u64 cursor in
  let* (title, cursor) := decode_text cursor in
  let* (app_id, cursor) := decode_text cursor in
  let* (capture_id, cursor) := decode_text cursor in
  let* (compositor_id, cursor) := decode_text cursor in
  Some (mk_window fl valid_fields handle parent pid transparency frame client surface buffer_width buffer_height
          title app_id capture_id compositor_id stacking_order, cursor).

Definition ksd_state_event_decode (data : list byte) : option ksd_state_event :=
  let cursor := ksd_cursor_init data (zlen data) in
  let* (kind, cursor) := ksd_cursor_u32 cursor in
  let* (domain, cursor) := ksd_cursor_u32 cursor in
  let* (epoch, cursor) := ksd_cursor_u64 cursor in
  let* (sequence, cursor) := ksd_cursor_u64 cursor in
  let* (granted_scopes, cursor) := ksd_cursor_u32 cursor in
  let* (revoked_scopes, cursor) := ksd_cursor_u32 cursor in
  let* (window, cursor) := decode_window cursor in
  let* (data, cursor) := decode_text cursor in
  guard* ksd_cursor_finished cursor && (KSD_STATE_SNAPSHOT_BEGIN <=? kind) && (kind <=? KSD_STATE_RESET)
         && negb (domain =? 0) && (Z.land domain (domain - 1) =? 0)
         && (Z.land domain (u32 (Z.lnot KSD_STATE_ALL)) =? 0) in
  Some (mk_event kind domain epoch sequence window data granted_scopes revoked_scopes).

(** ** Comparing and copying windows *)

(** The bytes from [flags] to [title], and the texts. *)
Definition window_scalars (w : ksd_window_record) : list Z :=
  [win_flags w; win_valid_fields w; win_handle w; win_parent w; win_pid w; win_transparency w] ++ window_words w.

Definition ksd_state_window_equal (a b : ksd_window_record) : bool :=
  if bool_decide (window_scalars a <> window_scalars b) then false
  else if negb (win_stacking_order a =? win_stacking_order b) then false
  else forallb (fun '(l, r) => (zlen (string_bytes l) =? zlen (string_bytes r))
                               && ((zlen (string_bytes l) =? 0) || bytes_eqb (string_bytes l) (string_bytes r)))
         [(win_title a, win_title b); (win_app_id a, win_app_id b); (win_capture_id a, win_capture_id b);
          (win_compositor_id a, win_compositor_id b)].

Definition ksd_state_window_copy (window : ksd_window_record) : option ksd_window_record :=
  let event := mk_event KSD_STATE_CHANGED KSD_STATE_WINDOWS 0 0 window None 0 0 in
  let '(ok, bytes) := ksd_state_event_encode event (ksd_buffer_init KSD_MAX_TEXT_BYTES) in
  guard* ok in
  let* copy := ksd_state_event_decode (buf_bytes bytes) in
  Some (ev_window copy).
End windows.

(** ** Codecs

    A parser, the encoding of its values and the values it can yield: it accepts
    exactly the encodings. *)
Class Codec {A} (p : ksd_cursor -> option (A * ksd_cursor)) (enc : A -> list byte) (ok : A -> Prop) : Prop := {
  codec_sound : forall c a c', cursor_wf c -> p c = Some (a, c') ->
    cursor_wf c' /\ cursor_rest c = enc a ++ cursor_rest c' /\ ok a;
  codec_complete : forall c a k, cursor_wf c -> cursor_rest c = enc a ++ k -> ok a ->
    exists c', p c = Some (a, c') /\ cursor_wf c' /\ cursor_rest c' = k;
}.

#[export] Instance codec_u32 : Codec ksd_cursor_u32 ksd_encode_u32 is_u32.
Proof.
  split.
  - intros c a c' Hwf H. pose proof (consumes_u32 c a c' Hwf H) as [? ?].
    split; [done|]. split; [done|]. exact (cursor_u32_range c a c' Hwf H).
  - intros c a k Hwf Hr Ha. by apply (reads_u32 a Ha).
Qed.

#[export] Instance codec_u64 : Codec ksd_cursor_u64 ksd_encode_u64 is_u64.
Proof.
  split.
  - intros c a c' Hwf H. pose proof (consumes_u64 c a c' Hwf H) as [? ?].
    split; [done|]. split; [done|]. exact (cursor_u64_range c a c' Hwf H).
  - intros c a k Hwf Hr Ha. by apply (reads_u64 a Ha).
Qed.

(** Step over the next parser of a chain: [decode_step] in the hypothesis that
    the chain succeeded, [encode_step] in the goal that it does. *)
Ltac decode_step :=
  match goal with
  | Hwf : cursor_wf ?c, H : match ?p ?c with Some _ => _ | None => None end = Some _ |- _ =>
    let E := fresh "E" in let x := fresh "x" in let c' := fresh "c" in
    destruct (p c) as [[x c']|] eqn:E; [|discriminate H];
    apply (codec_sound _ _ _ Hwf) in E; clear Hwf;
    let Hw := fresh "Hwf" in let Hr := fresh "Hrest" in let Ho := fresh "Hok" in
    destruct E as (Hw & Hr & Ho)
  end.
Ltac encode_step :=
  match goal with
  | Hwf : cursor_wf ?c, Hr : cursor_rest ?c = ?e ++ ?k |- context [match ?p ?c with Some _ => _ | None => None end] =>
    let c' := fresh "c" in let Hw := fresh "Hwf" in let Hr' := fresh "Hrest" in
    let HC := fresh "HC" in pose proof (codec_complete (p := p)) as HC;
    edestruct (HC c _ k Hwf Hr) as (c' & -> & Hw & Hr'); [assumption|]; clear Hwf Hr HC
  end.

(** Rewrite along the chain of remainders the steps leave. *)
Ltac rest_chain :=
  repeat match goal with H : cursor_rest ?c = _ |- context [cursor_rest ?c] => rewrite H; clear H end; done.
Tactic Notation "window_fields" :=
  cbn [win_flags win_valid_fields win_handle win_parent win_pid win_transparency
    win_frame win_client win_surface win_buffer_width win_buffer_height win_title win_app_id win_capture_id
    win_compositor_id win_stacking_order].
Tactic Notation "window_fields" "in" hyp(H) :=
  cbn [win_flags win_valid_fields win_handle win_parent win_pid win_transparency
    win_frame win_client win_surface win_buffer_width win_buffer_height win_title win_app_id win_capture_id
    win_compositor_id win_stacking_order] in H.

Definition rect_ok (r : rect) : Prop :=
  is_i32 (rect_x r) /\ is_i32 (rect_y r) /\ is_u32 (rect_width r) /\ is_u32 (rect_height r).
Definition rect_bytes (r : rect) : list byte :=
  ksd_encode_u32 (u32 (rect_x r)) ++ ksd_encode_u32 (u32 (rect_y r))
  ++ ksd_encode_u32 (rect_width r) ++ ksd_encode_u32 (rect_height r).

Lemma u32_range v : is_u32 (u32 v).
Proof. apply Z.mod_pos_bound. lia. Qed.

#[export] Instance codec_rect : Codec decode_rect rect_bytes rect_ok.
Proof.
  split.
  - intros c a c' Hwf H. unfold decode_rect in H. repeat decode_step. injection H as <- <-.
    unfold rect_bytes, rect_ok; cbn [rect_x rect_y rect_width rect_height].
    rewrite (proj1 (u32_i32 x Hok)), (proj1 (u32_i32 x0 Hok0)). rewrite Hrest, Hrest0, Hrest1, Hrest2, <- !app_assoc.
    split; [done|]. split; [done|]. split; [by apply u32_i32|]. split; [by apply u32_i32|done].
  - intros c [x y w h] k Hwf Hr (Hx & Hy & Hw & Hh). cbn [rect_x rect_y rect_width rect_height] in *.
    unfold rect_bytes in Hr; cbn [rect_x rect_y rect_width rect_height] in Hr. rewrite <- !app_assoc in Hr.
    pose proof (u32_range x). pose proof (u32_range y). unfold decode_rect. repeat encode_step.
    rewrite !i32_u32 by done. eauto.
Qed.

(** A text on the wire: NULL stands for the empty one. *)
Definition text_ok (s : ksd_string) : Prop :=
  zlen (string_bytes s) <= KSD_MAX_TEXT_BYTES /\ ksd_utf8_valid (string_bytes s) false = true /\ s <> Some [].
Definition text_bytes (s : ksd_string) : list byte :=
  ksd_encode_u32 (zlen (string_bytes s)) ++ string_bytes s.

Section event_codec.
Context {AL : Allocator} {AT : AllocTotal AL}.

#[local] Instance codec_text : Codec decode_text text_bytes text_ok.
Proof.
  split.
  - intros c a c' Hwf H. unfold decode_text in H. decode_step.
    destruct (Z.leb_spec x KSD_MAX_TEXT_BYTES) as [Hl|]; [|done].
    pose proof (cursor_bytes_spec c0 x Hwf ltac:(unfold is_u32 in *; lia)) as Hb.
    destruct (ksd_cursor_bytes c0 x) as [[bs c1]|]; [|done]. destruct Hb as (Hr1 & Hz & Hwf1).
    destruct (ksd_utf8_valid bs false) eqn:Hu; [|done]. rewrite Hrest, Hr1, app_assoc.
    destruct (Z.eqb_spec x 0) as [->|Hx].
    + injection H as <- <-. destruct bs; [|rewrite zlen_cons in Hz; pose proof (zlen_nonneg bs); lia].
      split; [done|]. split; [done|]. split; [|done]. unfold string_bytes; cbn. change (zlen []) with 0. lia.
    + destruct (alloc_ok (x + 1)); [|done]. injection H as <- <-. unfold text_ok, text_bytes, string_bytes. cbn [default from_option id].
      rewrite Hz. split; [done|]. split; [done|]. split; [lia|]. split; [done|]. intros [= ->].
      by change (zlen []) with 0 in Hz.
  - intros c a k Hwf Hr (Hl & Hu & Hn). unfold text_bytes in Hr. rewrite <- app_assoc in Hr.
    assert (Hz : is_u32 (zlen (string_bytes a))).
    { unfold is_u32, KSD_MAX_TEXT_BYTES in *. pose proof (zlen_nonneg (string_bytes a)). lia. }
    unfold decode_text. encode_step. rewrite (proj2 (Z.leb_le _ _)) by done.
    destruct (cursor_bytes_app c0 _ _ Hwf0 Hrest) as (c1 & -> & Hwf1 & Hr1). rewrite Hu.
    unfold string_bytes in *. destruct a as [[|b bs]|]; cbn [default from_option id] in *; [done| |].
    + rewrite (proj2 (Z.eqb_neq _ _)) by (rewrite zlen_cons; pose proof (zlen_nonneg bs); lia).
      rewrite alloc_total. eauto.
    + eauto.
Qed.

Definition window_ok (w : ksd_window_record) : Prop :=
  is_u32 (win_flags w) /\ is_u64 (win_valid_fields w) /\ is_u64 (win_handle w) /\ is_u64 (win_parent w) /\
  is_u32 (win_pid w) /\ is_u32 (win_transparency w) /\ rect_ok (win_frame w) /\ rect_ok (win_client w) /\
  rect_ok (win_surface w) /\ is_u32 (win_buffer_width w) /\ is_u32 (win_buffer_height w) /\
  is_u64 (win_stacking_order w) /\ text_ok (win_title w) /\ text_ok (win_app_id w) /\
  text_ok (win_capture_id w) /\ text_ok (win_compositor_id w).
Definition window_bytes (w : ksd_window_record) : list byte :=
  ksd_encode_u32 (win_flags w) ++ ksd_encode_u64 (win_valid_fields w) ++ ksd_encode_u64 (win_handle w)
  ++ ksd_encode_u64 (win_parent w) ++ ksd_encode_u32 (win_pid w) ++ ksd_encode_u32 (win_transparency w)
  ++ rect_bytes (win_frame w) ++ rect_bytes (win_client w) ++ rect_bytes (win_surface w)
  ++ ksd_encode_u32 (win_buffer_width w) ++ ksd_encode_u32 (win_buffer_height w)
  ++ ksd_encode_u64 (win_stacking_order w) ++ text_bytes (win_title w) ++ text_bytes (win_app_id w)
  ++ text_bytes (win_capture_id w) ++ text_bytes (win_compositor_id w).

#[local] Instance codec_window : Codec decode_window window_bytes window_ok.
Proof.
  split.
  - intros c a c' Hwf H. unfold decode_window in H. repeat decode_step. injection H as <- <-.
    split; [done|]. split; [|repeat (split; [assumption|]); assumption].
    unfold window_bytes; window_fields. rewrite <- !app_assoc. rest_chain.
  - intros c a k Hwf Hr Ha. destruct a; unfold window_ok in Ha; cbn in Ha.
    repeat match goal with H : _ /\ _ |- _ => destruct H end.
    unfold window_bytes in Hr; window_fields in Hr.
    rewrite <- !app_assoc in Hr. unfold decode_window. repeat encode_step. eauto.
Qed.

(** A domain is one bit of the known ones. *)
Definition domain_ok (domain : Z) : bool :=
  negb (domain =? 0) && (Z.land domain (domain - 1) =? 0) && (Z.land domain (u32 (Z.lnot KSD_STATE_ALL)) =? 0).
Definition event_ok (e : ksd_state_event) : Prop :=
  KSD_STATE_SNAPSHOT_BEGIN <= ev_kind e <= KSD_STATE_RESET /\ is_u32 (ev_domain e) /\
  domain_ok (ev_domain e) = true /\ is_u64 (ev_epoch e) /\ is_u64 (ev_sequence e) /\
  is_u32 (ev_granted_scopes e) /\ is_u32 (ev_revoked_scopes e) /\ window_ok (ev_window e) /\ text_ok (ev_data e).
Definition event_bytes (e : ksd_state_event) : list byte :=
  ksd_encode_u32 (ev_kind e) ++ ksd_encode_u32 (ev_domain e) ++ ksd_encode_u64 (ev_epoch e)
  ++ ksd_encode_u64 (ev_sequence e) ++ ksd_encode_u32 (ev_granted_scopes e) ++ ksd_encode_u32 (ev_revoked_scopes e)
  ++ window_bytes (ev_window e) ++ text_bytes (ev_data e).

Lemma event_decode_sound data e : ksd_state_event_decode data = Some e -> event_ok e /\ data = event_bytes e.
Proof.
  unfold ksd_state_event_decode. intros H. pose proof (cursor_init_wf data) as Hwf.
  pose proof (cursor_init_rest data (zlen data)) as Hdata. cbv zeta in H.
  set (c0 := ksd_cursor_init data (zlen data)) in *. repeat decode_step.
  destruct (ksd_cursor_finished _ && _ && _ && _ && _ && _) eqn:Ec; [|done]. injection H as <-. breflect.
  unfold event_ok, event_bytes, domain_ok; cbn [ev_kind ev_domain ev_epoch ev_sequence ev_window ev_data
    ev_granted_scopes ev_revoked_scopes]. split.
  - split; [lia|]. split; [done|]. split; [|repeat (split; [assumption|]); assumption].
    rewrite !andb_true_iff, negb_true_iff, !Z.eqb_eq, Z.eqb_neq. done.
  - rewrite <- Hdata. match goal with H : ksd_cursor_finished ?c = true, Hwf : cursor_wf ?c |- _ =>
      apply (cursor_finished_rest c Hwf) in H; rename H into Hend end.
    rewrite <- (app_nil_r (text_bytes x6)), <- Hend. clear Hend Hdata. rest_chain.
Qed.

Lemma event_decode_complete e : event_ok e -> ksd_state_event_decode (event_bytes e) = Some e.
Proof.
  intros He. destruct e as [kind domain epoch sequence window data granted revoked].
  unfold event_ok in He; cbn [ev_kind ev_domain ev_epoch ev_sequence ev_window ev_data
    ev_granted_scopes ev_revoked_scopes] in He.
  destruct He as (Hk & Hd & Hdo & He & Hs & Hg & Hr & Hw & Ht).
  assert (Hk' : is_u32 kind) by (unfold is_u32, KSD_STATE_RESET, KSD_STATE_SNAPSHOT_BEGIN in *; lia).
  set (bytes := event_bytes _). pose proof (cursor_init_wf bytes) as Hwf.
  pose proof (cursor_init_rest bytes (zlen bytes)) as Hrest. unfold ksd_state_event_decode. cbv zeta.
  set (c0 := ksd_cursor_init bytes (zlen bytes)) in *. clearbody c0. unfold bytes, event_bytes in Hrest.
  cbn [ev_kind ev_domain ev_epoch ev_sequence ev_window ev_data ev_granted_scopes ev_revoked_scopes] in Hrest.
  rewrite <- (app_nil_r (text_bytes data)) in Hrest. repeat encode_step.
  match goal with Hwf : cursor_wf ?c, Hr : cursor_rest ?c = [] |- _ =>
    rewrite (proj2 (cursor_finished_rest c Hwf) Hr) end.
  unfold domain_ok in Hdo. breflect.
  rewrite (proj2 (Z.leb_le _ kind)), (proj2 (Z.leb_le kind _)) by lia.
  rewrite (proj2 (Z.eqb_neq _ _)), !(proj2 (Z.eqb_eq _ _)) by done. done.
Qed.
End event_codec.

Lemma writes_nil {AL : Allocator} : writes (fun buffer => (true, buffer)) [].
Proof.
  intros b Hwf. split; [done|]. split; [done|]. rewrite app_nil_r. split; [by exists 0%nat; rewrite take_nil, app_nil_r|].
  done.
Qed.

Lemma encode_u32s_writes {AL : Allocator} vs : writes (encode_u32s vs) (concat (map ksd_encode_u32 vs)).
Proof. induction vs as [|v vs IH]; [apply writes_nil|]. cbn [encode_u32s map concat]. auto with ksdw. Qed.

Lemma encode_text_writes {AL : Allocator} s :
  zlen (string_bytes s) <= KSD_MAX_TEXT_BYTES -> writes (encode_text s) (text_bytes s).
Proof.
  intros H. unfold encode_text, text_bytes. rewrite (proj2 (Z.ltb_ge _ _)) by done.
  apply andthen_writes.
  - rewrite u32_id; [apply u32_writes|]. unfold is_u32, KSD_MAX_TEXT_BYTES in *.
    pose proof (zlen_nonneg (string_bytes s)). lia.
  - by apply (bytes_writes s).
Qed.

(** Every text within the limit: all the encoder asks for. *)
Definition texts_fit (e : ksd_state_event) : Prop :=
  Forall (fun s => zlen (string_bytes s) <= KSD_MAX_TEXT_BYTES)
    [win_title (ev_window e); win_app_id (ev_window e); win_capture_id (ev_window e); win_compositor_id (ev_window e);
     ev_data e].

Lemma event_ok_texts e : event_ok e -> texts_fit e.
Proof.
  intros (_ & _ & _ & _ & _ & _ & _ & Hw & [Hd _]). unfold window_ok in Hw.
  destruct Hw as (_ & _ & _ & _ & _ & _ & _ & _ & _ & _ & _ & _ & [Ht _] & [Ha _] & [Hc _] & [Hp _]).
  repeat (apply Forall_cons_2; [assumption|]). constructor.
Qed.

Lemma event_encode_writes {AL : Allocator} e : texts_fit e -> writes (ksd_state_event_encode e) (event_bytes e).
Proof.
  intros Hfit. unfold texts_fit in Hfit.
  apply Forall_cons_1 in Hfit as [Ht Hfit]. apply Forall_cons_1 in Hfit as [Ha Hfit].
  apply Forall_cons_1 in Hfit as [Hc Hfit]. apply Forall_cons_1 in Hfit as [Hp Hfit].
  apply Forall_cons_1 in Hfit as [Hd _].
  assert (Hwords : window_bytes (ev_window e) ++ text_bytes (ev_data e) =
    ksd_encode_u32 (win_flags (ev_window e)) ++ ksd_encode_u64 (win_valid_fields (ev_window e))
    ++ ksd_encode_u64 (win_handle (ev_window e)) ++ ksd_encode_u64 (win_parent (ev_window e))
    ++ ksd_encode_u32 (win_pid (ev_window e)) ++ ksd_encode_u32 (win_transparency (ev_window e))
    ++ concat (map ksd_encode_u32 (window_words (ev_window e)))
    ++ ksd_encode_u64 (win_stacking_order (ev_window e)) ++ text_bytes (win_title (ev_window e))
    ++ text_bytes (win_app_id (ev_window e)) ++ text_bytes (win_capture_id (ev_window e))
    ++ text_bytes (win_compositor_id (ev_window e)) ++ text_bytes (ev_data e)).
  { unfold window_bytes, window_words, rect_words, rect_bytes. cbn [map app concat].
    rewrite <- !app_assoc. done. }
  unfold event_bytes. rewrite Hwords. unfold ksd_state_event_encode. cbv zeta.
  repeat (apply andthen_writes; [eauto using u32_writes, u64_writes, encode_u32s_writes, encode_text_writes|]).
  by apply encode_text_writes.
Qed.

(** State events are decoded exactly.  A byte string decodes to an event if
    and only if the event is acceptable (a known kind, one known domain, every
    text valid UTF-8 and within the limit) and the bytes are what the encoder
    writes for it, so no two messages mean the same event, none is accepted with
    bytes left over, and encoding then decoding is the identity. *)
Theorem state_event_exact {AL : Allocator} {AT : AllocTotal AL} data e :
  ksd_state_event_decode data = Some e <->
  event_ok e /\ data = event_bytes e /\ writes (ksd_state_event_encode e) data.
Proof.
  split.
  - intros H. apply event_decode_sound in H as [H1 ->]. eauto using event_encode_writes, event_ok_texts.
  - intros (H & -> & _). by apply event_decode_complete.
Qed.

(** What is decoded where memory may run out is what is decoded where it does not. *)
Section memory.
Context (L R : Allocator) {RT : AllocTotal R}.

Lemma decode_text_more c r : @decode_text L c = Some r -> @decode_text R c = Some r.
Proof.
  unfold decode_text. destruct (ksd_cursor_u32 c) as [[n c1]|]; [|done]. cbn [from_option]. destruct (n <=? _); [|done].
  destruct (ksd_cursor_bytes c1 n) as [[data c2]|]; [|done]. destruct (ksd_utf8_valid data false); [|done].
  destruct (n =? 0); [done|]. rewrite (@alloc_total R RT). by destruct (@alloc_ok L (n + 1)).
Qed.

Lemma decode_window_more c r : @decode_window L c = Some r -> @decode_window R c = Some r.
Proof.
  unfold decode_window. intros H.
  repeat match type of H with
  | context [match @decode_text L ?c with _ => _ end] =>
    let E := fresh "E" in destruct (@decode_text L c) as [[? ?]|] eqn:E; [apply decode_text_more in E; rewrite E|done]
  | context [match ?p with Some _ => _ | None => None end] => destruct p as [[? ?]|]; [|done]
  end. exact H.
Qed.

Lemma event_decode_more data e : @ksd_state_event_decode L data = Some e -> @ksd_state_event_decode R data = Some e.
Proof.
  unfold ksd_state_event_decode. intros H. cbv zeta in *.
  repeat match type of H with
  | context [match @decode_text L ?c with _ => _ end] =>
    let E := fresh "E" in destruct (@decode_text L c) as [[? ?]|] eqn:E; [apply decode_text_more in E; rewrite E|done]
  | context [match @decode_window L ?c with _ => _ end] =>
    let E := fresh "E" in destruct (@decode_window L c) as [[? ?]|] eqn:E; [apply decode_window_more in E; rewrite E|done]
  | context [match ?p with Some _ => _ | None => None end] => destruct p as [[? ?]|]; [|done]
  end. exact H.
Qed.
End memory.

(** ** Copying and comparing *)

(** What a text, a window or an event is after crossing the wire: an allocated
    empty text becomes NULL. *)
Definition norm_string (s : ksd_string) : ksd_string := match s with Some [] => None | _ => s end.
Definition norm_window (w : ksd_window_record) : ksd_window_record :=
  mk_window (win_flags w) (win_valid_fields w) (win_handle w) (win_parent w) (win_pid w) (win_transparency w)
    (win_frame w) (win_client w) (win_surface w) (win_buffer_width w) (win_buffer_height w)
    (norm_string (win_title w)) (norm_string (win_app_id w)) (norm_string (win_capture_id w))
    (norm_string (win_compositor_id w)) (win_stacking_order w).
Definition norm_event (e : ksd_state_event) : ksd_state_event :=
  mk_event (ev_kind e) (ev_domain e) (ev_epoch e) (ev_sequence e) (norm_window (ev_window e)) (norm_string (ev_data e))
    (ev_granted_scopes e) (ev_revoked_scopes e).

Lemma norm_string_bytes s : string_bytes (norm_string s) = string_bytes s.
Proof. by destruct s as [[|b s]|]. Qed.

Lemma norm_string_id s : text_ok s -> norm_string s = s.
Proof. intros (_ & _ & H). by destruct s as [[|b s]|]. Qed.

Lemma norm_window_id w : window_ok w -> norm_window w = w.
Proof.
  intros Hw. unfold window_ok in Hw. destruct Hw as (_ & _ & _ & _ & _ & _ & _ & _ & _ & _ & _ & _ & ? & ? & ? & ?).
  unfold norm_window. rewrite !norm_string_id by done. by destruct w.
Qed.

Lemma norm_event_bytes e : event_bytes (norm_event e) = event_bytes e.
Proof. unfold event_bytes, norm_event, window_bytes, norm_window, text_bytes; cbn [ev_kind ev_domain ev_epoch ev_sequence
  ev_window ev_data ev_granted_scopes ev_revoked_scopes]; window_fields. by rewrite !norm_string_bytes. Qed.

Lemma norm_event_texts e : texts_fit (norm_event e) -> texts_fit e.
Proof.
  unfold texts_fit, norm_event, norm_window; cbn [ev_window ev_data]; window_fields.
  rewrite !List.Forall_cons_iff. cbn beta. by rewrite !norm_string_bytes.
Qed.

(** An event that the encoder wrote is read back normalised. *)
Lemma event_decode_norm {AL : Allocator} {AT : AllocTotal AL} e :
  event_ok (norm_event e) -> ksd_state_event_decode (event_bytes e) = Some (norm_event e).
Proof. intros H. rewrite <- norm_event_bytes. by apply event_decode_complete. Qed.

Lemma zlen_text_bytes s : zlen (text_bytes s) = 4 + zlen (string_bytes s).
Proof. unfold text_bytes. rewrite zlen_app, zlen_encode_u32. done. Qed.

Definition window_texts_length (w : ksd_window_record) : Z :=
  zlen (string_bytes (win_title w)) + zlen (string_bytes (win_app_id w)) + zlen (string_bytes (win_capture_id w))
  + zlen (string_bytes (win_compositor_id w)).

Lemma zlen_event_bytes e :
  zlen (event_bytes e) = 152 + window_texts_length (ev_window e) + zlen (string_bytes (ev_data e)).
Proof.
  unfold event_bytes, window_bytes, rect_bytes, window_texts_length.
  rewrite !zlen_app, !zlen_text_bytes, !zlen_encode_u32, !zlen_encode_u64. lia.
Qed.

(** Encoding into a fresh buffer: the bytes, exactly when they fit. *)
Lemma event_encode_fresh {AL : Allocator} {AT : AllocTotal AL} e maximum :
  texts_fit e -> 0 <= maximum <= SIZE_MAX ->
  let '(ok, bytes) := ksd_state_event_encode e (ksd_buffer_init maximum) in
  ok = (zlen (event_bytes e) <=? maximum) /\ (ok = true -> buf_bytes bytes = event_bytes e).
Proof.
  intros Hfit Hm. pose proof (event_encode_writes e Hfit (ksd_buffer_init maximum) (buffer_init_wf _ Hm)) as H.
  destruct (ksd_state_event_encode e _) as [ok b]. destruct H as ((_ & Hwf & _) & Hmax & _ & Hok & Ht).
  change (buf_length (ksd_buffer_init maximum)) with 0 in Ht.
  change (buf_maximum (ksd_buffer_init maximum)) with maximum in *.
  change (buf_bytes (ksd_buffer_init maximum)) with (@nil byte) in Hok. cbn [app] in Hok.
  split; [|done]. destruct (Z.leb_spec (zlen (event_bytes e)) maximum) as [Hl|Hl].
  - apply Ht; [done|lia].
  - destruct ok; [|done]. unfold buf_length in Hwf. rewrite Hok, Hmax in Hwf by done. lia.
Qed.

Definition copy_event (w : ksd_window_record) : ksd_state_event :=
  mk_event KSD_STATE_CHANGED KSD_STATE_WINDOWS 0 0 w None 0 0.

Lemma copy_event_ok w : window_ok w -> event_ok (copy_event w).
Proof.
  intros Hw. unfold event_ok, copy_event, is_u32, is_u64, KSD_STATE_SNAPSHOT_BEGIN, KSD_STATE_CHANGED, KSD_STATE_RESET,
    KSD_STATE_WINDOWS; cbn [ev_kind ev_domain ev_epoch ev_sequence ev_window ev_data ev_granted_scopes ev_revoked_scopes].
  repeat (split; [first [assumption|lia|reflexivity]|]). by split.
Qed.

Lemma window_copy_spec {AL : Allocator} {AT : AllocTotal AL} w :
  window_ok (norm_window w) ->
  ksd_state_window_copy w =
  if window_texts_length w <=? KSD_MAX_TEXT_BYTES - 152 then Some (norm_window w) else None.
Proof.
  intros Hw. unfold ksd_state_window_copy. fold (copy_event w).
  assert (He : event_ok (norm_event (copy_event w))) by exact (copy_event_ok _ Hw).
  pose proof (event_encode_fresh (copy_event w) KSD_MAX_TEXT_BYTES (norm_event_texts _ (event_ok_texts _ He))
    ltac:(unfold KSD_MAX_TEXT_BYTES, SIZE_MAX; lia)) as H.
  destruct (ksd_state_event_encode (copy_event w) _) as [ok b]. destruct H as [Hok Hb].
  rewrite zlen_event_bytes in Hok. change (ev_window (copy_event w)) with w in Hok.
  change (zlen (string_bytes (ev_data (copy_event w)))) with 0 in Hok.
  destruct (Z.leb_spec (window_texts_length w) (KSD_MAX_TEXT_BYTES - 152)).
  - rewrite (proj2 (Z.leb_le _ _)) in Hok by lia. subst ok. rewrite Hb by done. by rewrite event_decode_norm.
  - rewrite (proj2 (Z.leb_gt _ _)) in Hok by lia. by subst ok.
Qed.

(** A copy that is had is the window, however little memory there is. *)
Lemma window_copy_sound {AL : Allocator} w copy :
  window_ok (norm_window w) -> ksd_state_window_copy w = Some copy -> copy = norm_window w.
Proof.
  intros Hw. unfold ksd_state_window_copy. fold (copy_event w).
  assert (He : event_ok (norm_event (copy_event w))) by exact (copy_event_ok _ Hw).
  pose proof (event_encode_writes (copy_event w) (norm_event_texts _ (event_ok_texts _ He)) (ksd_buffer_init KSD_MAX_TEXT_BYTES)
    (buffer_init_wf KSD_MAX_TEXT_BYTES ltac:(unfold KSD_MAX_TEXT_BYTES, SIZE_MAX; lia))) as H.
  destruct (ksd_state_event_encode (copy_event w) _) as [[] b]; [|done]. destruct H as (_ & _ & _ & Hb & _).
  rewrite (Hb eq_refl). change (buf_bytes (ksd_buffer_init KSD_MAX_TEXT_BYTES)) with (@nil byte). cbn [app].
  destruct (ksd_state_event_decode (event_bytes (copy_event w))) as [e|] eqn:E; [|done]. intros [= <-].
  apply (event_decode_more AL infinite_memory) in E. by rewrite event_decode_norm in E by done; injection E as <-.
Qed.

(** Copying a window gives that window or nothing: the copy goes through the
    wire form in a buffer of KSD_MAX_TEXT_BYTES, so it gives the window itself (an
    allocated empty text becoming NULL) when its four texts have together at most
    that many bytes less 152, and fails on every longer one, although each text
    alone may be that long. *)
Theorem state_window_copy_exact {AL : Allocator} {AT : AllocTotal AL} w :
  window_ok (norm_window w) ->
  (ksd_state_window_copy w = Some (norm_window w) <-> window_texts_length w <= KSD_MAX_TEXT_BYTES - 152) /\
  (ksd_state_window_copy w = None <-> KSD_MAX_TEXT_BYTES - 152 < window_texts_length w).
Proof.
  intros Hw. rewrite window_copy_spec by done.
  destruct (Z.leb_spec (window_texts_length w) (KSD_MAX_TEXT_BYTES - 152)); split; split; (done || lia).
Qed.

Lemma text_equal a b :
  a <> Some [] -> b <> Some [] ->
  (zlen (string_bytes a) =? zlen (string_bytes b))
  && ((zlen (string_bytes a) =? 0) || bytes_eqb (string_bytes a) (string_bytes b)) = true <-> a = b.
Proof.
  intros Ha Hb. unfold bytes_eqb, string_bytes.
  rewrite andb_true_iff, orb_true_iff, !Z.eqb_eq, bool_decide_eq_true. split.
  - destruct a as [[|x a]|], b as [[|y b]|]; cbn [default from_option id]; rewrite ?zlen_cons; try done.
    + intros [_ [H|H]]; [pose proof (zlen_nonneg a); lia|congruence].
    + change (zlen []) with 0. pose proof (zlen_nonneg a). lia.
    + change (zlen []) with 0. pose proof (zlen_nonneg b). lia.
  - intros ->. auto.
Qed.

Lemma rect_words_inj a b : rect_ok a -> rect_ok b -> rect_words a = rect_words b -> a = b.
Proof.
  intros (Hx & Hy & _) (Hx' & Hy' & _). destruct a, b. unfold rect_words.
  cbn [rect_x rect_y rect_width rect_height] in *. intros H. injection H as H1 H2 -> ->.
  apply (f_equal i32) in H1, H2. rewrite !i32_u32 in H1, H2 by done. by subst.
Qed.

(** The comparison the service suppresses unchanged windows with is
    equality: on windows as they are kept, it is true exactly of equal records,
    texts and stacking order included. *)
Theorem state_window_equal_exact a b :
  window_ok a -> window_ok b -> ksd_state_window_equal a b = true <-> a = b.
Proof.
  intros Ha Hb. unfold window_ok in Ha, Hb.
  destruct Ha as (_ & _ & _ & _ & _ & _ & Ha1 & Ha2 & Ha3 & _ & _ & _ & [_ [_ At]] & [_ [_ Aa]] & [_ [_ Ac]] & [_ [_ Ap]]).
  destruct Hb as (_ & _ & _ & _ & _ & _ & Hb1 & Hb2 & Hb3 & _ & _ & _ & [_ [_ Bt]] & [_ [_ Ba]] & [_ [_ Bc]] & [_ [_ Bp]]).
  unfold ksd_state_window_equal. case_bool_decide as Hs.
  { split; [done|]. by intros ->. }
  destruct (Z.eqb_spec (win_stacking_order a) (win_stacking_order b)) as [Ho|Ho]; cbn [negb].
  2: { split; [done|]. by intros ->. }
  cbn [forallb]. rewrite !andb_true_r.
  rewrite andb_true_iff, (andb_true_iff ((_ =? _) && _) _), (andb_true_iff ((_ =? _) && _) ((_ =? _) && _)), !text_equal by done.
  split; [|by intros ->]. intros (H1 & H2 & H3 & H4).
  unfold window_scalars, window_words in Hs. destruct a, b. window_fields in Hs. window_fields in Ho.
  window_fields in H1. window_fields in H2. window_fields in H3. window_fields in H4.
  window_fields in Ha1. window_fields in Ha2. window_fields in Ha3.
  window_fields in Hb1. window_fields in Hb2. window_fields in Hb3.
  injection Hs as -> -> -> -> -> -> Hs. 
  f_equal; try done; apply rect_words_inj; try done; unfold rect_words; congruence.
Qed.

(** ** Listing windows *)

(** Handing a list of windows to a callback until it refuses one. *)
Fixpoint feed {C} (callback : ksd_window_record -> C -> bool * C) (ws : list ksd_window_record) (context : C) : bool * C :=
  match ws with
  | [] => (true, context)
  | w :: ws => let '(ok, context) := callback w context in if ok then feed callback ws context else (false, context)
  end.

Section listing.
Context {AL : Allocator}.

Lemma window_json_handle data w :
  ksd_state_window_json data = Some w -> win_handle w <> 0 /\ Z.testbit (win_valid_fields w) 0 = true.
Proof.
  assert (Hbit : forall object fields names i v, Z.testbit v 0 = true ->
            Z.testbit (window_valid_fields object fields i names v) 0 = true).
  { intros object fields. induction names as [|name names IH]; intros i v Hv; [done|]. cbn [window_valid_fields].
    apply IH. destruct (field object name); [|done]. cbv zeta.
    destruct (match fields with Some _ => _ | None => _ end); [|done]. by rewrite Z.lor_spec, Hv. }
  unfold ksd_state_window_json. cbv zeta. set (object := window_object data).
  destruct (field object (cstr "id")) as [v|]; [|done]. destruct (number v) as [h|]; [|done].
  destruct (Z.eqb_spec h 0); [done|]. cbn [negb].
  pose proof (Hbit object (field object (cstr "validFields")) (drop 1 window_names) 1 KSD_FIELD_ID eq_refl) as Hb.
  set (vf := window_valid_fields _ _ _ _ _) in *. clearbody vf.
  do 4 (destruct (window_text object _) as [?|]; [|done]).
  destruct (field object (cstr "buffer")) as [bv|], (field object (cstr "surface")) as [sv|];
    try (intros H; injection H as <-; by split).
  destruct (Z.land vf KSD_FIELD_BUFFER =? 0); intros H; injection H as <-; (split; [done|]); window_fields; [done|].
  by rewrite Z.lor_spec, Hb.
Qed.

(** A delivered window: numbered, identified, and marked so; and one that was read. *)
Definition placed (i : nat) (w : ksd_window_record) : Prop :=
  win_stacking_order w = u64 (Z.of_nat i) /\ win_handle w <> 0 /\
  Z.testbit (win_valid_fields w) 0 = true /\ Z.testbit (win_valid_fields w) 19 = true /\
  exists data read, ksd_state_window_json data = Some read /\ w = place_window read (u64 (Z.of_nat i)).

Lemma windows_loop_feed fuel : forall windows i, exists complete ws,
  (forall j w, ws !! j = Some w -> placed (i + j) w) /\
  forall C (callback : ksd_window_record -> C -> bool * C) context,
    windows_loop callback fuel windows (u64 (Z.of_nat i)) context =
    (let '(ok, context) := feed callback ws context in (ok && complete, context)).
Proof.
  induction fuel as [|fuel IH]; intros windows i; [by exists false, []|].
  destruct windows as [|b l]; [by exists false, []|].
  destruct (starts_with 93 (b :: l)) eqn:E0.
  { exists true, []. split; [done|]. intros. cbn [windows_loop]. by rewrite E0. }
  destruct (value_span (b :: l) 0) as [[v rest]|] eqn:E1.
  2: { exists false, []. split; [done|]. intros. cbn [windows_loop]. by rewrite E0, E1. }
  destruct (ksd_state_window_json v) as [w|] eqn:E2.
  2: { exists false, []. split; [done|]. intros. cbn [windows_loop]. by rewrite E0, E1, E2. }
  assert (Hw : placed i (place_window w (u64 (Z.of_nat i)))).
  { destruct (window_json_handle v w E2) as [Hh Hb]. unfold placed, place_window. window_fields.
    rewrite !Z.lor_spec, Hb. rewrite orb_true_r. do 4 (split; [done|]). by exists v, w. }
  assert (Hone : forall complete,
    (forall C (callback : ksd_window_record -> C -> bool * C) context,
      windows_loop callback (S fuel) (b :: l) (u64 (Z.of_nat i)) context =
      (let '(ok, context) := callback (place_window w (u64 (Z.of_nat i))) context in (ok && complete, context))) ->
    exists complete ws, (forall j w, ws !! j = Some w -> placed (i + j) w) /\
    forall C (callback : ksd_window_record -> C -> bool * C) context,
      windows_loop callback (S fuel) (b :: l) (u64 (Z.of_nat i)) context =
      (let '(ok, context) := feed callback ws context in (ok && complete, context))).
  { intros complete Hc. exists complete, [place_window w (u64 (Z.of_nat i))]. split.
    - intros [|j] w' Hj; [|done]. injection Hj as <-. by rewrite Nat.add_0_r.
    - intros. rewrite Hc. cbn [feed]. by destruct (callback _ context) as [[] ?]. }
  destruct (skip_space rest) as [|c rest'] eqn:E3.
  { apply (Hone false). intros. cbn [windows_loop]. rewrite E0, E1, E2, E3. change (zlen [] =? 0) with true.
    by destruct (callback _ context) as [[] ?]. }
  assert (Hz : (zlen (c :: rest') =? 0) = false).
  { apply Z.eqb_neq. rewrite zlen_cons. pose proof (zlen_nonneg rest'). lia. }
  destruct (starts_with 93 (c :: rest')) eqn:E4.
  { apply (Hone true). intros. cbn [windows_loop]. rewrite E0, E1, E2, E3, Hz, E4.
    by destruct (callback _ context) as [[] ?]. }
  destruct (starts_with 44 (c :: rest')) eqn:E5.
  2: { apply (Hone false). intros. cbn [windows_loop]. rewrite E0, E1, E2, E3, Hz, E4, E5.
       by destruct (callback _ context) as [[] ?]. }
  destruct (IH rest' (S i)) as (complete & ws & Hws & Hf).
  exists complete, (place_window w (u64 (Z.of_nat i)) :: ws). split.
  - intros [|j] w' Hj; [injection Hj as <-; by rewrite Nat.add_0_r|].
    rewrite <- Nat.add_succ_comm. by apply Hws.
  - intros. cbn [windows_loop feed]. rewrite E0, E1, E2, E3, Hz, E4, E5.
    destruct (callback _ context) as [[] ctx]; cbn [negb]; [|done].
    change (zdrop 1 (c :: rest')) with rest'.
    assert (Hi : u64 (u64 (Z.of_nat i) + 1) = u64 (Z.of_nat (S i))).
    { unfold u64. rewrite Nat2Z.inj_succ, Z.add_mod_idemp_l by lia. done. }
    rewrite Hi. apply Hf.
Qed.
End listing.

(** Listing a reply's windows.  Any reply determines one list of windows,
    whatever the callback does: each has a non-zero handle, is marked as
    identified and ordered, and is numbered by its position.  The callback is
    given them in that order, each once, until it refuses one, and the call
    succeeds exactly when every window was taken and the reply was well formed to
    the end of its list. *)
Theorem windows_json_delivery {AL : Allocator} data :
  exists complete ws,
    (forall i w, ws !! i = Some w -> placed i w) /\
    forall C (callback : ksd_window_record -> C -> bool * C) context,
      ksd_state_windows_json data callback context =
      (let '(ok, context) := feed callback ws context in (ok && complete, context)).
Proof.
  unfold ksd_state_windows_json. destruct (field data (cstr "windows")) as [l|]; [|by exists false, []].
  destruct ((zlen l <? 2) || negb (starts_with 91 l)); [by exists false, []|].
  apply (windows_loop_feed _ _ 0).
Qed.

(** ** Windows read from JSON are well formed *)

Lemma lor_u64 a b : is_u64 a -> is_u64 b -> is_u64 (Z.lor a b).
Proof. apply lor_pow2; lia. Qed.

Lemma lor_u32 a b : is_u32 a -> is_u32 b -> is_u32 (Z.lor a b).
Proof. apply lor_pow2; lia. Qed.

Lemma u64_range v : is_u64 (u64 v).
Proof. apply Z.mod_pos_bound. lia. Qed.

Lemma window_valid_fields_range object fields names : forall i v,
  is_u64 v -> is_u64 (window_valid_fields object fields i names v).
Proof.
  induction names as [|name names IH]; intros i v Hv; [done|]. cbn [window_valid_fields]. apply IH.
  destruct (field object name); [|done]. cbv zeta.
  destruct (match fields with Some _ => _ | None => _ end); [|done]. apply lor_u64; [done|apply u64_range].
Qed.

Lemma window_flags_range object names : forall i v, is_u32 v -> is_u32 (window_flags object i names v).
Proof.
  induction names as [|name names IH]; intros i v Hv; [done|]. cbn [window_flags]. apply IH.
  destruct (truth object name); [|done]. apply lor_u32; [done|apply u32_range].
Qed.

Lemma window_rect_ok value : rect_ok (rect_of value).
Proof.
  unfold rect_ok, rect_of; cbn [rect_x rect_y rect_width rect_height].
  split; [apply coordinate_range|]. split; [apply coordinate_range|]. split; apply u32_range.
Qed.

Lemma rect_zero_ok : rect_ok rect_zero.
Proof. unfold rect_ok, rect_zero, is_i32, is_u32; cbn. lia. Qed.

Lemma window_text_ok {AL : Allocator} object name s : window_text object name = Some s -> text_ok (norm_string s).
Proof.
  unfold window_text, text_ok. rewrite norm_string_bytes. destruct (field object name) as [v|].
  - destruct (text v) as [t|] eqn:E; [|done]. intros [= <-]. apply text_sound in E as [? ?].
    split; [cbn; lia|]. split; [done|]. by destruct t.
  - intros [= <-]. split; [by unfold KSD_MAX_TEXT_BYTES|done].
Qed.

Lemma window_json_ok {AL : Allocator} data w : ksd_state_window_json data = Some w -> window_ok (norm_window w).
Proof.
  unfold ksd_state_window_json. cbv zeta. set (object := window_object data).
  destruct (field object (cstr "id")) as [v|]; [|done]. destruct (number v) as [h|] eqn:Eh; [|done].
  apply number_range in Eh. destruct (negb (h =? 0)); [|done].
  pose proof (window_valid_fields_range object (field object (cstr "validFields")) (drop 1 window_names) 1 KSD_FIELD_ID
    ltac:(unfold is_u64, KSD_FIELD_ID; lia)) as Hvf. set (vf := window_valid_fields _ _ _ _ _) in *. clearbody vf.
  destruct (window_text object (cstr "title")) as [t|] eqn:Et; [|done]. apply window_text_ok in Et.
  destruct (window_text object (cstr "appId")) as [a|] eqn:Ea; [|done]. apply window_text_ok in Ea.
  destruct (window_text object (cstr "captureId")) as [c|] eqn:Ec; [|done]. apply window_text_ok in Ec.
  destruct (window_text object (cstr "compositorId")) as [p|] eqn:Ep; [|done]. apply window_text_ok in Ep.
  assert (Hr : forall name, rect_ok (window_rect object name)).
  { intros name. unfold window_rect. destruct (field object name); [apply window_rect_ok|apply rect_zero_ok]. }
  pose proof (window_flags_range object window_flag_names 0 0 ltac:(unfold is_u32; lia)) as Hfl.
  pose proof (integer_range object (cstr "parent")) as Hparent.
  set (buf := match field object (cstr "buffer") with Some _ => _ | None => (0, 0) end).
  assert (Hbuf : is_u32 (fst buf) /\ is_u32 (snd buf)).
  { unfold buf. destruct (field object (cstr "buffer")); [split; apply u32_range|unfold is_u32; cbn; lia]. }
  clearbody buf. destruct buf as [bw bh]. cbn [fst snd] in Hbuf. destruct Hbuf as [Hbw Hbh].
  set (sv := match field object (cstr "surface") with Some _ => _ | None => _ end).
  assert (Hsv : rect_ok (fst sv) /\ is_u64 (snd sv)).
  { unfold sv. destruct (field object (cstr "surface")), (field object (cstr "buffer")); try (split; [apply Hr|done]).
    case_if; (split; [|try done]); [apply Hr|apply window_rect_ok|].
    apply lor_u64; [done|]. unfold is_u64, KSD_FIELD_SURFACE. lia. }
  clearbody sv. destruct sv as [surface valid]. cbn [fst snd] in Hsv. destruct Hsv as [Hs Hvalid].
  intros [= <-]. unfold window_ok, norm_window; window_fields.
  repeat (split; [first [assumption|apply u32_range|apply Hr|unfold is_u64; lia]|]). assumption.
Qed.

(** ** Witnesses *)

#[local] Existing Instance infinite_memory.

Definition sample_window : ksd_window_record :=
  mk_window 3 7 42 0 1000 255 (mk_rect (-5) 10 640 480) rect_zero rect_zero 640 480 (Some (cstr "Title")) None None None 2.

Lemma text_ok_dec s :
  (zlen (string_bytes s) <=? KSD_MAX_TEXT_BYTES) && ksd_utf8_valid (string_bytes s) false
  && negb (bool_decide (s = Some [])) = true -> text_ok s.
Proof. intros H. breflect. apply bool_decide_eq_false in H0. done. Qed.

Lemma sample_window_ok : window_ok sample_window.
Proof.
  unfold window_ok, sample_window, rect_ok, rect_zero, is_u32, is_u64, is_i32; window_fields.
  cbn [rect_x rect_y rect_width rect_height].
  repeat (split; [first [lia|by apply text_ok_dec|repeat (split; [lia|]); lia]|]). by apply text_ok_dec.
Qed.

Lemma state_event_exact_witness :
  ksd_state_event_decode (event_bytes (copy_event sample_window)) = Some (copy_event sample_window).
Proof.
  apply (state_event_exact (event_bytes (copy_event sample_window)) (copy_event sample_window)).
  split; [apply copy_event_ok, sample_window_ok|]. split; [reflexivity|].
  apply event_encode_writes, event_ok_texts, copy_event_ok, sample_window_ok.
Defined.

Lemma state_window_copy_exact_witness : ksd_state_window_copy sample_window = Some sample_window.
Proof.
  apply (proj2 (proj1 (state_window_copy_exact sample_window sample_window_ok))). vm_compute. discriminate.
Defined.

Lemma state_window_equal_exact_witness :
  ksd_state_window_equal sample_window sample_window = true.
Proof.
  apply (state_window_equal_exact sample_window sample_window sample_window_ok sample_window_ok). reflexivity.
Defined.

(** JSON written with single quotes. *)
Definition requote (s : string) : list byte := map (fun b => if is_byte 39 b then quote else b) (cstr s).

Example windows_json_example :
  ksd_state_windows_json (requote "{'ok':true, 'windows': [{'id':7,'title':'A'}, {'window':{'id':'9'}}]}")
    (fun w l => (true, l ++ [(win_handle w, win_title w, win_stacking_order w)])) [] =
  (true, [(7, Some (cstr "A"), 0); (9, None, 1)]).
Proof. vm_compute. reflexivity. Qed.
