(* ===== verification/Budgets.v ===== *)
(** * Admission and budgets (src/worker_pool.c, src/authorityd.c)

    The authority's shared counters: which connections it admits to its worker
    pool, and the reservations that bound captures, chunked requests and KWin
    calls in flight.  The counters are modelled as the code keeps them, tables
    of [usage_slot] searched linearly; each operation runs under the authority's
    mutex, so a run of the authority is a sequence of them, [step], in any order
    the threads take the mutex.  The ghost part of a state lists who holds what;
    the invariant says that the tables represent exactly these holders, which
    makes the admission rules exact statements about them. *)
From Stdlib Require Import ZArith Lia Permutation Relations Strings.Byte Strings.String.
From stdpp Require Import base list option numbers tactics.
From S2P Require Import Prelude.
From S2P Require Import Protocol.
From S2P Require Import Operations.
Local Open Scope Z_scope.
Local Open Scope ksd_scope.

Definition KSD_MAX_AUTHORITY_WORKERS : Z := 128.
Definition KSD_MAX_AUTHORITY_WORKERS_PER_UID : Z := 32.
Definition KSD_AUTHORITY_REGISTRATION_RESERVE : Z := 8.
Definition KSD_MAX_KWIN_INFLIGHT_PER_PID : Z := 4.
Definition KSD_MAX_CONCURRENT_CAPTURES : Z := 4.
Definition KSD_MAX_CAPTURES_PER_UID : Z := 2.
Definition KSD_MAX_CAPTURES_PER_PID : Z := 1.
Definition KSD_MAX_AUTHORITY_INFLIGHT_BYTES : Z :=
  KSD_MAX_CONCURRENT_CAPTURES * KSD_MAX_CAPTURE_BYTES + 16 * 1024 * 1024.
Definition KSD_MAX_AUTHORITY_ASSEMBLY_BYTES : Z := 64 * 1024 * 1024.
Definition KSD_MAX_ASSEMBLIES_PER_UID : Z := 4.

(** ** Admission rules (src/worker_pool.c) *)

(** The answer and [*from_reserve]. *)
Definition ksd_authority_admit_worker (workers uid_workers : Z) : bool * bool :=
  let general := KSD_MAX_AUTHORITY_WORKERS - KSD_AUTHORITY_REGISTRATION_RESERVE in
  if KSD_MAX_AUTHORITY_WORKERS <=? workers then (false, false)
  else if (workers <? general) && (uid_workers <? KSD_MAX_AUTHORITY_WORKERS_PER_UID) then (true, false)
  else (true, true).

Definition ksd_authority_admit_kwin (pid_inflight : Z) : bool := pid_inflight <? KSD_MAX_KWIN_INFLIGHT_PER_PID.

Definition ksd_authority_worker_keeps_slot (from_reserve is_registration : bool) : bool :=
  negb from_reserve || is_registration.

(** ** Usage tables *)

Record usage_slot := mk_slot { slot_key : Z; slot_count : Z }.

(** The index of the slot found, [None] for NULL. *)
Fixpoint find_usage_loop (slots : list usage_slot) (key : Z) (index : nat) (empty : option nat) : option nat :=
  match slots with
  | [] => empty
  | slot :: slots =>
    if negb (slot_count slot =? 0) && (slot_key slot =? key) then Some index
    else find_usage_loop slots key (S index)
           (match empty with None => if slot_count slot =? 0 then Some index else None | Some _ => empty end)
  end.
Definition find_usage_slot (slots : list usage_slot) (key : Z) : option nat := find_usage_loop slots key 0 None.

Definition slot_at (slots : list usage_slot) (index : nat) : usage_slot := nth index slots (mk_slot 0 0).

Definition add_usage (slots : list usage_slot) (index : nat) (key : Z) : list usage_slot :=
  <[index := mk_slot key (slot_count (slot_at slots index) + 1)]> slots.

Definition release_usage (slots : list usage_slot) (key : Z) : list usage_slot :=
  match find_usage_slot slots key with
  | None => slots
  | Some index =>
    let slot := slot_at slots index in
    if negb (slot_count slot =? 0) && (slot_key slot =? key)
    then <[index := mk_slot (slot_key slot) (slot_count slot - 1)]> slots
    else slots
  end.

(** ** The authority's counters *)

Record authority_budgets := mk_budgets {
  workers : Z;
  inflight_bytes : Z;
  assembly_bytes : Z;
  worker_usage : list usage_slot;
  assembly_usage : list usage_slot;
  capture_usage : list usage_slot;
  capture_pid_usage : list usage_slot;
  kwin_inflight : list usage_slot;
}.

Definition empty_usage : list usage_slot := repeat (mk_slot 0 0) (Z.to_nat KSD_MAX_AUTHORITY_WORKERS).
Definition initial_budgets : authority_budgets :=
  mk_budgets 0 0 0 empty_usage empty_usage empty_usage empty_usage empty_usage.

(** [None] when refused, nothing then having changed; a worker also learns
    [*from_reserve]. *)
Definition reserve_worker (state : authority_budgets) (uid : Z) : option (bool * authority_budgets) :=
  let* slot := find_usage_slot (worker_usage state) uid in
  let '(admitted, from_reserve) :=
    ksd_authority_admit_worker (workers state) (slot_count (slot_at (worker_usage state) slot)) in
  guard* admitted in
  Some (from_reserve, mk_budgets (workers state + 1) (inflight_bytes state) (assembly_bytes state)
    (add_usage (worker_usage state) slot uid) (assembly_usage state) (capture_usage state)
    (capture_pid_usage state) (kwin_inflight state)).

(** The end of [connection_worker]. *)
Definition release_worker (state : authority_budgets) (uid : Z) : authority_budgets :=
  mk_budgets (workers state - 1) (inflight_bytes state) (assembly_bytes state)
    (release_usage (worker_usage state) uid) (assembly_usage state) (capture_usage state)
    (capture_pid_usage state) (kwin_inflight state).

Definition reserve_kwin_slot (state : authority_budgets) (pid : Z) : option authority_budgets :=
  let* slot := find_usage_slot (kwin_inflight state) pid in
  guard* ksd_authority_admit_kwin (slot_count (slot_at (kwin_inflight state) slot)) in
  Some (mk_budgets (workers state) (inflight_bytes state) (assembly_bytes state) (worker_usage state)
    (assembly_usage state) (capture_usage state) (capture_pid_usage state) (add_usage (kwin_inflight state) slot pid)).

Definition release_kwin_slot (state : authority_budgets) (pid : Z) : authority_budgets :=
  mk_budgets (workers state) (inflight_bytes state) (assembly_bytes state) (worker_usage state)
    (assembly_usage state) (capture_usage state) (capture_pid_usage state) (release_usage (kwin_inflight state) pid).

Definition reserve_capture_memory (state : authority_budgets) (uid pid : Z) : option authority_budgets :=
  let uid_slot := find_usage_slot (capture_usage state) uid in
  let pid_slot := find_usage_slot (capture_pid_usage state) pid in
  guard* inflight_bytes state <=? KSD_MAX_AUTHORITY_INFLIGHT_BYTES - KSD_MAX_CAPTURE_BYTES in
  let* uid_slot := uid_slot in
  let* pid_slot := pid_slot in
  guard* (slot_count (slot_at (capture_usage state) uid_slot) <? KSD_MAX_CAPTURES_PER_UID)
         && (slot_count (slot_at (capture_pid_usage state) pid_slot) <? KSD_MAX_CAPTURES_PER_PID) in
  Some (mk_budgets (workers state) (inflight_bytes state + KSD_MAX_CAPTURE_BYTES) (assembly_bytes state)
    (worker_usage state) (assembly_usage state) (add_usage (capture_usage state) uid_slot uid)
    (add_usage (capture_pid_usage state) pid_slot pid) (kwin_inflight state)).

Definition release_capture_memory (state : authority_budgets) (uid pid : Z) : authority_budgets :=
  mk_budgets (workers state)
    (if KSD_MAX_CAPTURE_BYTES <=? inflight_bytes state then inflight_bytes state - KSD_MAX_CAPTURE_BYTES
     else inflight_bytes state)
    (assembly_bytes state) (worker_usage state) (assembly_usage state)
    (release_usage (capture_usage state) uid) (release_usage (capture_pid_usage state) pid) (kwin_inflight state).

Definition reserve_assembly_memory (state : authority_budgets) (uid : Z) : option authority_budgets :=
  let slot := find_usage_slot (assembly_usage state) uid in
  guard* assembly_bytes state <=? KSD_MAX_AUTHORITY_ASSEMBLY_BYTES - KSD_MAX_REQUEST_TOTAL_PAYLOAD in
  let* slot := slot in
  guard* slot_count (slot_at (assembly_usage state) slot) <? KSD_MAX_ASSEMBLIES_PER_UID in
  Some (mk_budgets (workers state) (inflight_bytes state) (assembly_bytes state + KSD_MAX_REQUEST_TOTAL_PAYLOAD)
    (worker_usage state) (add_usage (assembly_usage state) slot uid) (capture_usage state)
    (capture_pid_usage state) (kwin_inflight state)).

Definition release_assembly_memory (state : authority_budgets) (uid : Z) : authority_budgets :=
  mk_budgets (workers state) (inflight_bytes state)
    (if KSD_MAX_REQUEST_TOTAL_PAYLOAD <=? assembly_bytes state
     then assembly_bytes state - KSD_MAX_REQUEST_TOTAL_PAYLOAD else assembly_bytes state)
    (worker_usage state) (release_usage (assembly_usage state) uid) (capture_usage state)
    (capture_pid_usage state) (kwin_inflight state).

(** What [connection_worker] makes of a connection once its magic is known;
    [None] when it is closed unserved. *)
Inductive connection_kind := Registration | Ordinary.
Definition public_magic : list byte :=
  [z2b KSD_FRAME_MAGIC_0; z2b KSD_FRAME_MAGIC_1; z2b KSD_FRAME_MAGIC_2; z2b KSD_FRAME_MAGIC_3].
Definition connection_class (from_reserve : bool) (magic : list byte) : option connection_kind :=
  let registration := bytes_eqb magic ksd_backend_registration_magic in
  if negb (ksd_authority_worker_keeps_slot from_reserve registration) then None
  else if registration then Some Registration
  else if bytes_eqb magic public_magic then Some Ordinary
  else None.

(** ** Tables represent holders *)

Definition contribution (key : Z) (slot : usage_slot) : Z := if slot_key slot =? key then slot_count slot else 0.
Fixpoint usage (slots : list usage_slot) (key : Z) : Z :=
  match slots with [] => 0 | slot :: slots => contribution key slot + usage slots key end.

(** How many of the holders have a key. *)
Definition held (live : list Z) (key : Z) : Z := Z.of_nat (count_occ Z.eq_dec live key).

(** A slot in use, and a table no key of which is in use twice. *)
Definition in_use (slot : usage_slot) : Prop := slot_count slot <> 0.
Definition table_wf (slots : list usage_slot) : Prop :=
  zlen slots = KSD_MAX_AUTHORITY_WORKERS /\ Forall (fun s => 0 <= slot_count s) slots /\
  forall i j a b, slots !! i = Some a -> slots !! j = Some b -> in_use a -> in_use b ->
    slot_key a = slot_key b -> i = j.
Definition represents (slots : list usage_slot) (live : list Z) : Prop :=
  table_wf slots /\ forall key, usage slots key = held live key.

Section tables.
Implicit Types slots : list usage_slot.

Lemma find_usage_loop_spec slots key : forall index empty,
  match find_usage_loop slots key index empty with
  | Some n =>
    (exists s j, n = (index + j)%nat /\ slots !! j = Some s /\ in_use s /\ slot_key s = key) \/
    (Forall (fun s => in_use s -> slot_key s <> key) slots /\
     (empty = Some n \/
      empty = None /\ exists s j, n = (index + j)%nat /\ slots !! j = Some s /\ slot_count s = 0))
  | None => empty = None /\ Forall (fun s => in_use s /\ slot_key s <> key) slots
  end.
Proof.
  induction slots as [|s slots IH]; intros index empty; cbn [find_usage_loop].
  { destruct empty as [n|]; [right; by split; [constructor|left]|by split; [|constructor]]. }
  destruct (Z.eqb_spec (slot_count s) 0) as [Hc|Hc]; cbn [negb andb].
  - specialize (IH (S index) (match empty with None => Some index | _ => empty end)).
    destruct (find_usage_loop slots key _ _) as [n|].
    + destruct IH as [(s' & j & -> & Hj & Hu)|[Hf He]]; [left; exists s', (S j); split; [lia|done]|].
      right. split; [constructor; [done|exact Hf]|]. destruct empty as [m|].
      * destruct He as [He|[He _]]; [by left|done].
      * right. split; [done|]. destruct He as [[= <-]|[He _]]; [|done]. exists s, 0%nat. split; [lia|done].
    + destruct IH as [He _]. by destruct empty.
  - destruct (Z.eqb_spec (slot_key s) key) as [Hk|Hk].
    { left. exists s, 0%nat. split; [lia|done]. }
    specialize (IH (S index) empty). replace (match empty with Some _ => empty | None => None end) with empty by by destruct empty.
    destruct (find_usage_loop slots key _ _) as [n|].
    + destruct IH as [(s' & j & -> & Hj & Hu)|[Hf He]]; [left; exists s', (S j); split; [lia|done]|].
      right. split; [by constructor|]. destruct He as [He|[He (s' & j & -> & Hj & Hs)]]; [by left|].
      right. split; [done|]. exists s', (S j). split; [lia|done].
    + destruct IH as [He Hf]. split; [done|]. by constructor.
Qed.

Lemma find_usage_spec slots key :
  match find_usage_slot slots key with
  | Some n => exists s, slots !! n = Some s /\ slot_at slots n = s /\
      ((in_use s /\ slot_key s = key) \/
       (slot_count s = 0 /\ Forall (fun s => in_use s -> slot_key s <> key) slots))
  | None => Forall (fun s => in_use s /\ slot_key s <> key) slots
  end.
Proof.
  unfold find_usage_slot. pose proof (find_usage_loop_spec slots key 0 None) as H.
  destruct (find_usage_loop slots key 0 None) as [n|]; [|by destruct H].
  assert (Hat : forall s, slots !! n = Some s -> slot_at slots n = s).
  { intros s Hs. unfold slot_at. rewrite nth_lookup, Hs. done. }
  destruct H as [(s & j & -> & Hj & Hu)|[Hf [?|[_ (s & j & -> & Hj & Hs)]]]]; [|done|];
    exists s; (split; [done|]); (split; [by apply Hat|]); [by left|by right].
Qed.

Lemma usage_insert slots i s s' key :
  slots !! i = Some s -> usage (<[i := s']> slots) key = usage slots key - contribution key s + contribution key s'.
Proof.
  revert i. induction slots as [|a slots IH]; intros [|i] Hi; [done|done| |].
  - injection Hi as ->. change (<[0%nat := s']> (s :: slots)) with (s' :: slots). cbn [usage]. lia.
  - change (<[S i := s']> (a :: slots)) with (a :: <[i := s']> slots). cbn [usage].
    change ((a :: slots) !! S i) with (slots !! i) in Hi. rewrite (IH i) by done. lia.
Qed.

Lemma usage_absent slots key : Forall (fun s => in_use s -> slot_key s <> key) slots -> usage slots key = 0.
Proof.
  induction 1 as [|s slots Hs _ IH]; [done|]. cbn [usage]. rewrite IH. unfold contribution, in_use in *.
  destruct (Z.eqb_spec (slot_key s) key); [|lia]. destruct (Z.eq_dec (slot_count s) 0); [lia|]. by destruct Hs.
Qed.

Lemma usage_in_use slots i s :
  table_wf slots -> slots !! i = Some s -> in_use s -> usage slots (slot_key s) = slot_count s.
Proof.
  intros (_ & _ & Hu) Hi Hs.
  assert (H0 : usage (<[i := mk_slot (slot_key s) 0]> slots) (slot_key s) = 0).
  { apply usage_absent, List.Forall_forall. intros a Ha Hin Hk. apply list_elem_of_In, list_elem_of_lookup in Ha as [j Hj].
    destruct (decide (i = j)) as [<-|Hne].
    - rewrite list_lookup_insert_eq in Hj by (by eapply lookup_lt_Some). injection Hj as <-. by apply Hin.
    - rewrite list_lookup_insert_ne in Hj by done. by apply Hne, (Hu i j s a). }
  rewrite (usage_insert _ _ s) in H0 by done. unfold contribution in H0. rewrite Z.eqb_refl in H0.
  cbn [slot_key slot_count] in H0. rewrite Z.eqb_refl in H0. lia.
Qed.

Lemma held_cons live a key : held (a :: live) key = held live key + (if a =? key then 1 else 0).
Proof.
  unfold held. cbn [count_occ]. destruct (Z.eq_dec a key) as [->|Hne].
  - rewrite Z.eqb_refl. lia.
  - rewrite (proj2 (Z.eqb_neq _ _)) by done. lia.
Qed.

Lemma held_perm l k key : Permutation l k -> held l key = held k key.
Proof. intros H. unfold held. by rewrite (proj1 (Permutation_count_occ Z.eq_dec l k) H). Qed.

Lemma held_nonneg live key : 0 <= held live key.
Proof. unfold held. lia. Qed.

Lemma held_length live key : held live key <= zlen live.
Proof. unfold held, zlen. pose proof (count_occ_bound Z.eq_dec key live). lia. Qed.

Lemma represents_perm slots l k : Permutation l k -> represents slots l -> represents slots k.
Proof. intros Hp [Hw Hu]. split; [done|]. intros key. by rewrite Hu, (held_perm l k). Qed.

(** Changing the count of the slot a search found. *)
Lemma table_wf_insert slots i s key count :
  table_wf slots -> slots !! i = Some s -> 0 <= count ->
  (in_use s /\ slot_key s = key) \/ (slot_count s = 0 /\ Forall (fun s => in_use s -> slot_key s <> key) slots) ->
  table_wf (<[i := mk_slot key count]> slots).
Proof.
  intros (Hl & Hn & Hu) Hi Hc Hs. pose proof (lookup_lt_Some _ _ _ Hi) as Hlt. split; [|split].
  - unfold zlen in *. by rewrite length_insert.
  - by apply Forall_insert.
  - assert (Hone : forall j b, i <> j -> slots !! j = Some b -> in_use b -> slot_key b <> key).
    { intros j b Hne Hj Hb Hk. destruct Hs as [[Hs Hks]|[_ Hs]].
      - apply Hne, (Hu i j s b); congruence.
      - apply List.Forall_forall with (x := b) in Hs; [by apply Hs|]. by eapply list_elem_of_In, list_elem_of_lookup_2. }
    intros j k a b Hj Hk Ha Hb He.
    destruct (decide (i = j)) as [<-|Hij], (decide (i = k)) as [<-|Hik]; [done| | |].
    + rewrite list_lookup_insert_eq in Hj by done. injection Hj as <-.
      rewrite list_lookup_insert_ne in Hk by done. by destruct (Hone k b Hik Hk Hb).
    + rewrite list_lookup_insert_eq in Hk by done. injection Hk as <-.
      rewrite list_lookup_insert_ne in Hj by done. by destruct (Hone j a Hij Hj Ha).
    + rewrite list_lookup_insert_ne in Hj, Hk by done. by apply (Hu j k a b).
Qed.

(** The count a search finds is the number of holders. *)
Lemma found_count slots live key n :
  represents slots live -> find_usage_slot slots key = Some n -> slot_count (slot_at slots n) = held live key.
Proof.
  intros [Hw Hu] Hf. pose proof (find_usage_spec slots key) as H. rewrite Hf in H.
  destruct H as (s & Hn & -> & [[Hs Hk]|[Hs Ha]]); rewrite <- Hu.
  - by rewrite <- Hk, (usage_in_use slots n s).
  - by rewrite Hs, usage_absent.
Qed.

Lemma represents_add slots live key n :
  represents slots live -> find_usage_slot slots key = Some n -> represents (add_usage slots n key) (key :: live).
Proof.
  intros [Hw Hu] Hf. pose proof (find_usage_spec slots key) as H. rewrite Hf in H.
  destruct H as (s & Hn & Hat & Hs). unfold add_usage. rewrite Hat.
  assert (0 <= slot_count s).
  { destruct Hw as (_ & Hw & _). exact (Forall_lookup_1 _ _ _ _ Hw Hn). }
  split; [eapply table_wf_insert; (done || lia)|]. intros k.
  rewrite (usage_insert _ _ s), Hu, held_cons by done. unfold contribution. cbn [slot_key slot_count].
  destruct Hs as [[_ ->]|[-> _]]; repeat case_if; lia.
Qed.

Lemma represents_release slots live key :
  represents slots (key :: live) -> represents (release_usage slots key) live.
Proof.
  intros [Hw Hu]. pose proof (find_usage_spec slots key) as H. unfold release_usage.
  assert (Hpos : 1 <= usage slots key).
  { rewrite Hu, held_cons, Z.eqb_refl. pose proof (held_nonneg live key). lia. }
  destruct (find_usage_slot slots key) as [n|].
  2: { rewrite usage_absent in Hpos; [lia|]. eapply Forall_impl; [|exact H]. cbn beta. by intros ? [_ ?] _. }
  destruct H as (s & Hn & -> & Hs). destruct Hs as [[Hs Hk]|[_ Hs]]; [|rewrite usage_absent in Hpos; [lia|done]].
  rewrite (proj2 (Z.eqb_neq _ _)) by done. rewrite Hk, Z.eqb_refl. cbn [negb andb].
  pose proof (usage_in_use slots n s Hw Hn Hs) as Hc. rewrite Hk in Hc.
  split; [eapply table_wf_insert; [done|done|lia|by left]|]. intros k.
  rewrite (usage_insert _ _ s), Hu, held_cons by done. unfold contribution. cbn [slot_key slot_count].
  rewrite Hk. case_if; lia.
Qed.

(** The table has a slot for every key unless every slot is in use by another. *)
Lemma represents_room slots live key :
  represents slots live -> find_usage_slot slots key = None -> KSD_MAX_AUTHORITY_WORKERS <= zlen live.
Proof.
  intros [Hw Hu] Hf. pose proof (find_usage_spec slots key) as H. rewrite Hf in H.
  assert (Hnd : List.NoDup (map slot_key slots)).
  { apply NoDup_ListNoDup, NoDup_alt. intros i j k Hi Hj.
    apply list_lookup_fmap_Some in Hi as (a & -> & Hi). apply list_lookup_fmap_Some in Hj as (b & Hk & Hj).
    pose proof (Forall_lookup_1 _ _ _ _ H Hi) as [Ha _]. pose proof (Forall_lookup_1 _ _ _ _ H Hj) as [Hb _].
    destruct Hw as (_ & _ & Huq). by apply (Huq i j a b). }
  assert (Hincl : incl (map slot_key slots) live).
  { intros k Hk. apply in_map_iff in Hk as (s & <- & Hs). apply list_elem_of_In, list_elem_of_lookup in Hs as [i Hi].
    pose proof (Forall_lookup_1 _ _ _ _ H Hi) as [Hs _].
    pose proof (usage_in_use slots i s Hw Hi Hs) as Hc. rewrite Hu in Hc.
    apply (count_occ_In Z.eq_dec). unfold held, in_use in *. lia. }
  pose proof (NoDup_incl_length Hnd Hincl) as Hl. rewrite length_map in Hl. destruct Hw as (Hz & _). unfold zlen in *. lia.
Qed.
End tables.

Lemma empty_usage_represents : represents empty_usage [].
Proof.
  unfold empty_usage. split; [split; [|split]|].
  - unfold zlen. rewrite repeat_length. unfold KSD_MAX_AUTHORITY_WORKERS. lia.
  - apply List.Forall_forall. intros s Hs. apply repeat_spec in Hs as ->. done.
  - intros i j a b Hi _ Ha. apply list_elem_of_lookup_2, list_elem_of_In, repeat_spec in Hi as ->. by destruct Ha.
  - intros key. rewrite usage_absent; [done|]. apply List.Forall_forall. intros s Hs.
    apply repeat_spec in Hs as ->. by intros [].
Qed.

(** ** Runs of the authority *)

(** A connection being served: whose it is, whether it came in on the reserve,
    and what it turned out to be, once its magic is known. *)
Record served := mk_served { sv_uid : Z; sv_reserve : bool; sv_kind : option connection_kind }.

(** The holders of each budget: served connections, (uid, pid) of captures, uids
    of chunked requests, pids of KWin calls. *)
Record holders := mk_holders {
  h_served : list served;
  h_captures : list (Z * Z);
  h_assemblies : list Z;
  h_kwin : list Z;
}.

Definition authority_run := (authority_budgets * holders)%type.
Definition initial_run : authority_run := (initial_budgets, mk_holders [] [] [] []).

Inductive step : authority_run -> authority_run -> Prop :=
  | step_admit b h uid from_reserve b' :
      reserve_worker b uid = Some (from_reserve, b') ->
      step (b, h) (b', mk_holders (mk_served uid from_reserve None :: h_served h) (h_captures h) (h_assemblies h) (h_kwin h))
  | step_classify b h uid from_reserve magic kind rest :
      Permutation (h_served h) (mk_served uid from_reserve None :: rest) ->
      connection_class from_reserve magic = Some kind ->
      step (b, h) (b, mk_holders (mk_served uid from_reserve (Some kind) :: rest) (h_captures h) (h_assemblies h) (h_kwin h))
  | step_close b h w rest :
      Permutation (h_served h) (w :: rest) ->
      step (b, h) (release_worker b (sv_uid w), mk_holders rest (h_captures h) (h_assemblies h) (h_kwin h))
  | step_capture b h uid pid b' :
      reserve_capture_memory b uid pid = Some b' ->
      step (b, h) (b', mk_holders (h_served h) ((uid, pid) :: h_captures h) (h_assemblies h) (h_kwin h))
  | step_capture_done b h uid pid rest :
      Permutation (h_captures h) ((uid, pid) :: rest) ->
      step (b, h) (release_capture_memory b uid pid, mk_holders (h_served h) rest (h_assemblies h) (h_kwin h))
  | step_assembly b h uid b' :
      reserve_assembly_memory b uid = Some b' ->
      step (b, h) (b', mk_holders (h_served h) (h_captures h) (uid :: h_assemblies h) (h_kwin h))
  | step_assembly_done b h uid rest :
      Permutation (h_assemblies h) (uid :: rest) ->
      step (b, h) (release_assembly_memory b uid, mk_holders (h_served h) (h_captures h) rest (h_kwin h))
  | step_kwin b h pid b' :
      reserve_kwin_slot b pid = Some b' ->
      step (b, h) (b', mk_holders (h_served h) (h_captures h) (h_assemblies h) (pid :: h_kwin h))
  | step_kwin_done b h pid rest :
      Permutation (h_kwin h) (pid :: rest) ->
      step (b, h) (release_kwin_slot b pid, mk_holders (h_served h) (h_captures h) (h_assemblies h) rest).

Definition reachable (r : authority_run) : Prop := clos_refl_trans _ step initial_run r.

(** The connections on general slots. *)
Definition general (l : list served) : list served := List.filter (fun w => negb (sv_reserve w)) l.
Definition is_ordinary (w : served) : bool := match sv_kind w with Some Ordinary => true | _ => false end.

Definition workers_inv (b : authority_budgets) (l : list served) : Prop :=
  workers b = zlen l /\ zlen l <= KSD_MAX_AUTHORITY_WORKERS /\ represents (worker_usage b) (map sv_uid l) /\
  zlen (general l) <= KSD_MAX_AUTHORITY_WORKERS - KSD_AUTHORITY_REGISTRATION_RESERVE /\
  (forall uid, held (map sv_uid (general l)) uid <= KSD_MAX_AUTHORITY_WORKERS_PER_UID) /\
  Forall (fun w => is_ordinary w = true -> sv_reserve w = false) l.
Definition captures_inv (b : authority_budgets) (l : list (Z * Z)) : Prop :=
  inflight_bytes b = KSD_MAX_CAPTURE_BYTES * zlen l /\ zlen l <= KSD_MAX_CONCURRENT_CAPTURES /\
  represents (capture_usage b) (map fst l) /\ represents (capture_pid_usage b) (map snd l) /\
  (forall uid, held (map fst l) uid <= KSD_MAX_CAPTURES_PER_UID) /\
  (forall pid, held (map snd l) pid <= KSD_MAX_CAPTURES_PER_PID).
Definition assemblies_inv (b : authority_budgets) (l : list Z) : Prop :=
  assembly_bytes b = KSD_MAX_REQUEST_TOTAL_PAYLOAD * zlen l /\
  assembly_bytes b <= KSD_MAX_AUTHORITY_ASSEMBLY_BYTES /\ represents (assembly_usage b) l /\
  (forall uid, held l uid <= KSD_MAX_ASSEMBLIES_PER_UID).
Definition kwin_inv (b : authority_budgets) (l : list Z) : Prop :=
  represents (kwin_inflight b) l /\ (forall pid, held l pid <= KSD_MAX_KWIN_INFLIGHT_PER_PID).

Definition run_inv (r : authority_run) : Prop :=
  let '(b, h) := r in
  workers_inv b (h_served h) /\ captures_inv b (h_captures h) /\ assemblies_inv b (h_assemblies h) /\
  kwin_inv b (h_kwin h).

(** Holders in another order, or one fewer, keep a cap. *)
Lemma held_cap_perm l k cap : Permutation l k -> (forall a, held l a <= cap) -> forall a, held k a <= cap.
Proof. intros Hp H a. rewrite <- (held_perm l k) by done. apply H. Qed.
Lemma held_cap_tail x l cap : (forall a, held (x :: l) a <= cap) -> forall a, held l a <= cap.
Proof. intros H a. specialize (H a). rewrite held_cons in H. case_if; lia. Qed.
Lemma held_cap_cons x l cap : (forall a, held l a <= cap) -> held l x < cap -> forall a, held (x :: l) a <= cap.
Proof. intros H Hx a. rewrite held_cons. destruct (Z.eqb_spec x a) as [->|]; [lia|]. specialize (H a). lia. Qed.
Lemma general_perm l k : Permutation l k -> Permutation (general l) (general k).
Proof.
  intros H. unfold general. induction H; cbn.
  - done.
  - case_if; [by constructor|done].
  - repeat case_if; try done. apply perm_swap.
  - by eapply Permutation_trans.
Qed.

Lemma workers_inv_perm b l k : Permutation l k -> workers_inv b l -> workers_inv b k.
Proof.
  intros Hp (H1 & H2 & H3 & H4 & H5 & H6). pose proof (general_perm _ _ Hp) as Hg.
  rewrite (zlen_perm _ _ Hp) in H1, H2. rewrite (zlen_perm _ _ Hg) in H4.
  split; [done|]. split; [done|]. split; [by eapply represents_perm; [apply Permutation_map|]|]. split; [done|].
  split; [by eapply held_cap_perm; [apply Permutation_map|]|]. by eapply Permutation_Forall.
Qed.

Lemma captures_inv_perm b l k : Permutation l k -> captures_inv b l -> captures_inv b k.
Proof.
  intros Hp (H1 & H2 & H3 & H4 & H5 & H6). rewrite (zlen_perm _ _ Hp) in H1, H2.
  split; [done|]. split; [done|]. split; [by eapply represents_perm; [apply Permutation_map|]|].
  split; [by eapply represents_perm; [apply Permutation_map|]|].
  split; by eapply held_cap_perm; [apply Permutation_map|].
Qed.

Lemma assemblies_inv_perm b l k : Permutation l k -> assemblies_inv b l -> assemblies_inv b k.
Proof.
  intros Hp (H1 & H2 & H3 & H4). rewrite (zlen_perm _ _ Hp) in H1.
  split; [done|]. split; [done|]. split; [by eapply represents_perm|by eapply held_cap_perm].
Qed.

Lemma kwin_inv_perm b l k : Permutation l k -> kwin_inv b l -> kwin_inv b k.
Proof. intros Hp (H1 & H2). split; [by eapply represents_perm|by eapply held_cap_perm]. Qed.

Lemma general_cons w l : general (w :: l) = if sv_reserve w then general l else w :: general l.
Proof. unfold general. cbn [List.filter]. by destruct (sv_reserve w). Qed.
Lemma held_general l uid : held (map sv_uid (general l)) uid <= held (map sv_uid l) uid.
Proof.
  induction l as [|w l IH]; [done|]. rewrite general_cons. cbn [map]. rewrite held_cons.
  destruct (sv_reserve w); [|cbn [map]; rewrite held_cons]; case_if; lia.
Qed.
Lemma zlen_general l : zlen (general l) <= zlen l.
Proof.
  induction l as [|w l IH]; [done|]. rewrite general_cons, zlen_cons. destruct (sv_reserve w); rewrite ?zlen_cons; lia.
Qed.

(** *** Each budget's operations *)

Lemma reserve_worker_inv b l uid from_reserve b' :
  workers_inv b l -> reserve_worker b uid = Some (from_reserve, b') ->
  workers_inv b' (mk_served uid from_reserve None :: l).
Proof.
  intros (H1 & H2 & H3 & H4 & H5 & H6). unfold reserve_worker.
  destruct (find_usage_slot (worker_usage b) uid) as [n|] eqn:Ef; [|done].
  rewrite (found_count _ _ _ _ H3 Ef), H1. unfold ksd_authority_admit_worker.
  pose proof (held_general l uid) as Hgh. pose proof (zlen_general l) as Hgl.
  assert (Hrep : represents (add_usage (worker_usage b) n uid) (uid :: map sv_uid l)) by by apply represents_add.
  case_if; [done|]. case_if; breflect; intros [= <- <-]; unfold workers_inv; rewrite general_cons; cbn [workers worker_usage sv_reserve map sv_uid];
    rewrite zlen_cons.
  - rewrite zlen_cons.
    split; [lia|]. split; [lia|]. split; [done|]. split; [lia|]. split; [|by constructor].
    apply held_cap_cons; [done|lia].
  - split; [lia|]. split; [lia|]. split; [done|]. split; [done|]. split; [done|]. by constructor.
Qed.

Lemma release_worker_inv b w l : workers_inv b (w :: l) -> workers_inv (release_worker b (sv_uid w)) l.
Proof.
  intros (H1 & H2 & H3 & H4 & H5 & H6). unfold workers_inv; cbn [workers worker_usage].
  rewrite zlen_cons in H1, H2. apply Forall_cons_1 in H6 as [_ H6].
  split; [cbn; lia|]. split; [lia|]. split; [by apply represents_release|].
  rewrite general_cons in H4, H5. destruct (sv_reserve w); [done|]. rewrite zlen_cons in H4.
  split; [lia|]. split; [|done]. cbn [map] in H5. by eapply held_cap_tail.
Qed.

Lemma classify_inv b l uid from_reserve magic kind :
  workers_inv b (mk_served uid from_reserve None :: l) -> connection_class from_reserve magic = Some kind ->
  workers_inv b (mk_served uid from_reserve (Some kind) :: l).
Proof.
  intros (H1 & H2 & H3 & H4 & H5 & H6) Hc. apply Forall_cons_1 in H6 as [_ H6].
  rewrite general_cons in H4, H5; cbn [sv_reserve] in H4, H5.
  split; [done|]. split; [done|]. split; [done|]. rewrite general_cons; cbn [sv_reserve].
  split; [by destruct from_reserve|]. split; [by destruct from_reserve|].
  constructor; [|done]. unfold is_ordinary; cbn [sv_kind sv_reserve]. destruct kind; [done|]. intros _.
  unfold connection_class, ksd_authority_worker_keeps_slot in Hc. destruct from_reserve; [|done].
  cbn [negb orb] in Hc. by destruct (bytes_eqb magic ksd_backend_registration_magic).
Qed.

Lemma reserve_capture_inv b l uid pid b' :
  captures_inv b l -> reserve_capture_memory b uid pid = Some b' -> captures_inv b' ((uid, pid) :: l).
Proof.
  intros (H1 & H2 & H3 & H4 & H5 & H6). unfold reserve_capture_memory. case_if; [|done].
  destruct (find_usage_slot (capture_usage b) uid) as [n|] eqn:En; [|done].
  destruct (find_usage_slot (capture_pid_usage b) pid) as [m|] eqn:Em; [|done].
  rewrite (found_count _ _ _ _ H3 En), (found_count _ _ _ _ H4 Em). case_if; [|done]. intros [= <-]. breflect.
  unfold captures_inv; cbn [inflight_bytes capture_usage capture_pid_usage map fst snd]. rewrite zlen_cons.
  unfold KSD_MAX_AUTHORITY_INFLIGHT_BYTES, KSD_MAX_CONCURRENT_CAPTURES, KSD_MAX_CAPTURE_BYTES in *.
  split; [lia|]. split; [lia|]. split; [by apply represents_add|]. split; [by apply represents_add|].
  split; apply held_cap_cons; (done || lia).
Qed.

Lemma release_capture_inv b l uid pid :
  captures_inv b ((uid, pid) :: l) -> captures_inv (release_capture_memory b uid pid) l.
Proof.
  intros (H1 & H2 & H3 & H4 & H5 & H6). rewrite zlen_cons in H1, H2. cbn [map fst snd] in H3, H4, H5, H6.
  unfold captures_inv; cbn [inflight_bytes capture_usage capture_pid_usage release_capture_memory].
  pose proof (zlen_nonneg l).
  split. { unfold KSD_MAX_CAPTURE_BYTES in *. case_if; breflect; lia. }
  split; [lia|]. split; [by apply represents_release|]. split; [by apply represents_release|].
  split; by eapply held_cap_tail.
Qed.

Lemma reserve_assembly_inv b l uid b' :
  assemblies_inv b l -> reserve_assembly_memory b uid = Some b' -> assemblies_inv b' (uid :: l).
Proof.
  intros (H1 & H2 & H3 & H4). unfold reserve_assembly_memory. case_if; [|done].
  destruct (find_usage_slot (assembly_usage b) uid) as [n|] eqn:En; [|done].
  rewrite (found_count _ _ _ _ H3 En). case_if; [|done]. intros [= <-]. breflect.
  unfold assemblies_inv; cbn [assembly_bytes assembly_usage]. rewrite zlen_cons.
  unfold KSD_MAX_REQUEST_TOTAL_PAYLOAD, KSD_MAX_AUTHORITY_ASSEMBLY_BYTES in *.
  split; [lia|]. split; [lia|]. split; [by apply represents_add|]. apply held_cap_cons; (done || lia).
Qed.

Lemma release_assembly_inv b l uid : assemblies_inv b (uid :: l) -> assemblies_inv (release_assembly_memory b uid) l.
Proof.
  intros (H1 & H2 & H3 & H4). rewrite zlen_cons in H1. unfold assemblies_inv; cbn [assembly_bytes assembly_usage release_assembly_memory].
  pose proof (zlen_nonneg l). unfold KSD_MAX_REQUEST_TOTAL_PAYLOAD in *.
  split; [case_if; breflect; lia|]. split; [case_if; breflect; lia|]. split; [by apply represents_release|].
  by eapply held_cap_tail.
Qed.

Lemma reserve_kwin_inv b l pid b' : kwin_inv b l -> reserve_kwin_slot b pid = Some b' -> kwin_inv b' (pid :: l).
Proof.
  intros (H1 & H2). unfold reserve_kwin_slot.
  destruct (find_usage_slot (kwin_inflight b) pid) as [n|] eqn:En; [|done].
  rewrite (found_count _ _ _ _ H1 En). unfold ksd_authority_admit_kwin. case_if; [|done]. intros [= <-]. breflect.
  split; [by apply represents_add|]. by apply held_cap_cons.
Qed.

Lemma release_kwin_inv b l pid : kwin_inv b (pid :: l) -> kwin_inv (release_kwin_slot b pid) l.
Proof. intros (H1 & H2). split; [by apply represents_release|]. by eapply held_cap_tail. Qed.

Lemma initial_run_inv : run_inv initial_run.
Proof.
  pose proof empty_usage_represents as He.
  split; [|split; [|split]].
  - split; [done|]. split; [done|]. split; [exact He|]. split; [done|]. split; [done|constructor].
  - split; [done|]. split; [done|]. split; [exact He|]. split; [exact He|]. done.
  - split; [done|]. split; [done|]. split; [exact He|]. done.
  - split; [exact He|]. done.
Qed.

Ltac reserve_cases E :=
  unfold reserve_worker, reserve_capture_memory, reserve_assembly_memory, reserve_kwin_slot in E; cbv zeta in E;
  repeat match type of E with
  | context [match ?x with Some _ => _ | None => _ end] => destruct x; [|discriminate E]
  | context [let '(_, _) := ?x in _] => destruct x
  | context [if ?x then _ else _] => destruct x; [|discriminate E]
  end; simplify_eq.

Lemma step_inv r r' : step r r' -> run_inv r -> run_inv r'.
Proof.
  intros Hs. destruct Hs as [b h uid fr b' E|b h uid fr magic kind rest Hp E|b h w rest Hp|b h uid pid b' E
    |b h uid pid rest Hp|b h uid b' E|b h uid rest Hp|b h pid b' E|b h pid rest Hp]; intros (Hw & Hc & Ha & Hk);
    unfold run_inv; cbn [h_served h_captures h_assemblies h_kwin].
  - pose proof (reserve_worker_inv _ _ _ _ _ Hw E). split; [done|]. reserve_cases E; done.
  - split; [|done]. eapply classify_inv; [by eapply workers_inv_perm|exact E].
  - split; [|done]. apply release_worker_inv. by eapply workers_inv_perm.
  - pose proof (reserve_capture_inv _ _ _ _ _ Hc E). split; [|split; [done|]]; reserve_cases E; done.
  - split; [done|]. split; [|done]. apply release_capture_inv. by eapply captures_inv_perm.
  - pose proof (reserve_assembly_inv _ _ _ _ Ha E). split; [|split; [|split; [done|]]]; reserve_cases E; done.
  - split; [done|]. split; [done|]. split; [|done]. apply release_assembly_inv. by eapply assemblies_inv_perm.
  - pose proof (reserve_kwin_inv _ _ _ _ Hk E). split; [|split; [|split; [|done]]]; reserve_cases E; done.
  - split; [done|]. split; [done|]. split; [done|]. apply release_kwin_inv. by eapply kwin_inv_perm.
Qed.

Lemma reachable_inv r : reachable r -> run_inv r.
Proof.
  intros H. apply clos_rt_rtn1 in H. induction H as [|r r' Hs _ IH]; [apply initial_run_inv|by eapply step_inv].
Qed.

(** ** What the authority promises *)

Lemma ordinary_general l :
  Forall (fun w => is_ordinary w = true -> sv_reserve w = false) l ->
  zlen (List.filter is_ordinary l) <= zlen (general l) /\
  forall uid, held (map sv_uid (List.filter is_ordinary l)) uid <= held (map sv_uid (general l)) uid.
Proof.
  induction 1 as [|w l Hw _ [IH1 IH2]]; [by split|]. rewrite general_cons. cbn [List.filter].
  destruct (is_ordinary w).
  - rewrite Hw by done. rewrite !zlen_cons. split; [lia|]. intros uid. cbn [map]. rewrite !held_cons. specialize (IH2 uid). lia.
  - destruct (sv_reserve w); [done|]. rewrite zlen_cons. split; [lia|]. intros uid. cbn [map]. rewrite held_cons.
    specialize (IH2 uid). case_if; lia.
Qed.

(** C29: The authority's budgets hold in every reachable state, whatever order
    its threads reserve and release in: at most 128 connections are served, at
    most 120 of them ordinary ones and at most 32 of those of one user, so eight
    places are left to registrations however busy applications are; at most four
    captures run, two of one user and one of one process; chunked requests hold at
    most 64 MiB, four of one user; a process has at most four KWin calls in
    flight.  The counters count exactly the holders, none lost and none leaked. *)
Theorem budgets_invariant b h :
  reachable (b, h) ->
  (workers b = zlen (h_served h) /\ zlen (h_served h) <= 128 /\
   zlen (List.filter is_ordinary (h_served h)) <= 120 /\
   forall uid, held (map sv_uid (List.filter is_ordinary (h_served h))) uid <= 32 /\
               usage (worker_usage b) uid = held (map sv_uid (h_served h)) uid) /\
  (inflight_bytes b = KSD_MAX_CAPTURE_BYTES * zlen (h_captures h) /\ zlen (h_captures h) <= 4 /\
   forall key, held (map fst (h_captures h)) key <= 2 /\ held (map snd (h_captures h)) key <= 1 /\
               usage (capture_usage b) key = held (map fst (h_captures h)) key /\
               usage (capture_pid_usage b) key = held (map snd (h_captures h)) key) /\
  (assembly_bytes b = KSD_MAX_REQUEST_TOTAL_PAYLOAD * zlen (h_assemblies h) /\
   assembly_bytes b <= KSD_MAX_AUTHORITY_ASSEMBLY_BYTES /\
   forall uid, held (h_assemblies h) uid <= 4 /\ usage (assembly_usage b) uid = held (h_assemblies h) uid) /\
  (forall pid, held (h_kwin h) pid <= 4 /\ usage (kwin_inflight b) pid = held (h_kwin h) pid).
Proof.
  intros H. apply reachable_inv in H as ((Hw & Hw1 & Hw2 & Hw3 & Hw4 & Hw5) & (Hc & Hc1 & Hc2 & Hc3 & Hc4 & Hc5) &
    (Ha & Ha1 & Ha2 & Ha3) & (Hk & Hk1)).
  destruct (ordinary_general _ Hw5) as [Ho1 Ho2].
  unfold KSD_MAX_AUTHORITY_WORKERS, KSD_AUTHORITY_REGISTRATION_RESERVE, KSD_MAX_CONCURRENT_CAPTURES in *.
  split; [|split; [|split]].
  - split; [done|]. split; [done|]. split; [lia|]. intros uid. split; [|apply Hw2].
    specialize (Ho2 uid). specialize (Hw4 uid). unfold KSD_MAX_AUTHORITY_WORKERS_PER_UID in *. lia.
  - split; [done|]. split; [done|]. intros key. split; [apply Hc4|]. split; [apply Hc5|]. split; [apply Hc2|apply Hc3].
  - split; [done|]. split; [done|]. intros uid. split; [apply Ha3|apply Ha2].
  - intros pid. split; [apply Hk1|apply Hk].
Qed.

(** Connections are admitted exactly while fewer than 128 are served, from
    the general pool exactly while fewer than 120 are and their user has fewer
    than 32; on a reserved place a registration is served and an application's
    connection never is, whatever it sends. *)
Theorem worker_admission_exact b h uid magic :
  reachable (b, h) ->
  match reserve_worker b uid with
  | None => zlen (h_served h) = 128
  | Some (from_reserve, _) =>
    zlen (h_served h) < 128 /\
    (from_reserve = false <-> zlen (h_served h) < 120 /\ held (map sv_uid (h_served h)) uid < 32) /\
    connection_class from_reserve ksd_backend_registration_magic = Some Registration /\
    (from_reserve = true -> connection_class from_reserve magic <> Some Ordinary)
  end.
Proof.
  intros H. apply reachable_inv in H as ((Hw & Hw1 & Hw2 & _) & _). unfold reserve_worker.
  unfold KSD_MAX_AUTHORITY_WORKERS in *.
  destruct (find_usage_slot (worker_usage b) uid) as [n|] eqn:E.
  2: { apply (represents_room _ _ _ Hw2) in E. unfold zlen in *. rewrite length_map in E. unfold KSD_MAX_AUTHORITY_WORKERS in E. lia. }
  rewrite (found_count _ _ _ _ Hw2 E), Hw. unfold ksd_authority_admit_worker.
  unfold KSD_MAX_AUTHORITY_WORKERS, KSD_AUTHORITY_REGISTRATION_RESERVE, KSD_MAX_AUTHORITY_WORKERS_PER_UID.
  destruct (Z.leb_spec 128 (zlen (h_served h))); [lia|].
  destruct ((zlen (h_served h) <? 128 - 8) && _) eqn:Ea; cbn beta iota; (split; [done|]).
  - breflect. split; [split; [lia|done]|]. split; done.
  - split; [split; [done|intros [? ?]; breflect; lia]|]. split; [done|]. intros _.
    unfold connection_class, ksd_authority_worker_keeps_slot. cbn [negb orb].
    by destruct (bytes_eqb magic ksd_backend_registration_magic).
Qed.

(** A reservation is granted exactly when its bounds hold. *)
Ltac granted :=
  split; [first [by intros [] | intros _; lia] | intros; breflect; first [done | lia]].

(** Reservations are refused exactly at the caps, never spuriously: a capture
    is granted if and only if fewer than four run, the user has fewer than two and
    the process none; a chunked request if and only if fewer than sixteen are being
    assembled and the user has fewer than four; a KWin call if and only if the
    process has fewer than four, while fewer than 128 are in flight. *)
Theorem reservations_exact b h uid pid :
  reachable (b, h) ->
  (reserve_capture_memory b uid pid <> None <->
   zlen (h_captures h) < 4 /\ held (map fst (h_captures h)) uid < 2 /\ held (map snd (h_captures h)) pid < 1) /\
  (reserve_assembly_memory b uid <> None <-> zlen (h_assemblies h) < 16 /\ held (h_assemblies h) uid < 4) /\
  (zlen (h_kwin h) < 128 -> reserve_kwin_slot b pid <> None <-> held (h_kwin h) pid < 4).
Proof.
  intros H. apply reachable_inv in H as (_ & (Hc & Hc1 & Hc2 & Hc3 & _) & (Ha & Ha1 & Ha2 & _) & (Hk & _)).
  split; [|split].
  - unfold reserve_capture_memory, KSD_MAX_AUTHORITY_INFLIGHT_BYTES, KSD_MAX_CONCURRENT_CAPTURES, KSD_MAX_CAPTURE_BYTES in *.
    destruct (find_usage_slot (capture_usage b) uid) as [n|] eqn:En.
    2: { apply (represents_room _ _ _ Hc2) in En. unfold KSD_MAX_AUTHORITY_WORKERS, zlen in *. rewrite length_map in En. lia. }
    destruct (find_usage_slot (capture_pid_usage b) pid) as [m|] eqn:Em.
    2: { apply (represents_room _ _ _ Hc3) in Em. unfold KSD_MAX_AUTHORITY_WORKERS, zlen in *. rewrite length_map in Em. lia. }
    rewrite (found_count _ _ _ _ Hc2 En), (found_count _ _ _ _ Hc3 Em).
    unfold KSD_MAX_CAPTURES_PER_UID, KSD_MAX_CAPTURES_PER_PID. cbv zeta.
    case_if; [case_if|]; breflect; granted.
  - unfold reserve_assembly_memory, KSD_MAX_AUTHORITY_ASSEMBLY_BYTES, KSD_MAX_REQUEST_TOTAL_PAYLOAD in *.
    destruct (find_usage_slot (assembly_usage b) uid) as [n|] eqn:En.
    2: { apply (represents_room _ _ _ Ha2) in En. unfold KSD_MAX_AUTHORITY_WORKERS in *. lia. }
    rewrite (found_count _ _ _ _ Ha2 En). unfold KSD_MAX_ASSEMBLIES_PER_UID. cbv zeta.
    case_if; [case_if|]; breflect; granted.
  - intros Hroom. unfold reserve_kwin_slot, ksd_authority_admit_kwin, KSD_MAX_KWIN_INFLIGHT_PER_PID.
    destruct (find_usage_slot (kwin_inflight b) pid) as [n|] eqn:En.
    2: { apply (represents_room _ _ _ Hk) in En. unfold KSD_MAX_AUTHORITY_WORKERS in *. lia. }
    rewrite (found_count _ _ _ _ Hk En). case_if; breflect; granted.
Qed.

(** No user can keep another from capturing: while one user holds every
    capture there is, any other user's process can still start one. *)
Theorem second_user_captures b h hog uid pid :
  reachable (b, h) -> uid <> hog ->
  Forall (fun c => fst c = hog /\ snd c <> pid) (h_captures h) ->
  reserve_capture_memory b uid pid <> None.
Proof.
  intros H Hne Hall. apply reachable_inv in H as (_ & (Hc & Hc1 & Hc2 & Hc3 & Hc4 & Hc5) & _).
  assert (Hcount : held (map fst (h_captures h)) hog = zlen (h_captures h) /\
                   held (map fst (h_captures h)) uid = 0 /\ held (map snd (h_captures h)) pid = 0).
  { clear - Hne Hall. induction Hall as [|[u p] l [Hu Hp] _ (IH1 & IH2 & IH3)]; [done|]. cbn [fst snd] in Hu, Hp.
    cbn [map fst snd]. rewrite !held_cons, zlen_cons, IH1, IH2, IH3. subst u.
    rewrite Z.eqb_refl, !(proj2 (Z.eqb_neq _ _)) by congruence. lia. }
  destruct Hcount as (Hh & Hu & Hp). specialize (Hc4 hog). rewrite Hh in Hc4.
  unfold reserve_capture_memory, KSD_MAX_AUTHORITY_INFLIGHT_BYTES, KSD_MAX_CONCURRENT_CAPTURES, KSD_MAX_CAPTURE_BYTES,
    KSD_MAX_CAPTURES_PER_UID, KSD_MAX_CAPTURES_PER_PID in *.
  destruct (find_usage_slot (capture_usage b) uid) as [n|] eqn:En.
  2: { apply (represents_room _ _ _ Hc2) in En. unfold KSD_MAX_AUTHORITY_WORKERS, zlen in *. rewrite length_map in En. lia. }
  destruct (find_usage_slot (capture_pid_usage b) pid) as [m|] eqn:Em.
  2: { apply (represents_room _ _ _ Hc3) in Em. unfold KSD_MAX_AUTHORITY_WORKERS, zlen in *. rewrite length_map in Em. lia. }
  rewrite (found_count _ _ _ _ Hc2 En), (found_count _ _ _ _ Hc3 Em), Hu, Hp. cbv zeta.
  case_if; [done|]. breflect. lia.
Qed.

(** ** Witnesses *)

Definition sample_run : authority_run :=
  (default initial_budgets (reserve_capture_memory initial_budgets 1000 7), mk_holders [] [(1000, 7)] [] []).
Lemma sample_run_reachable : reachable sample_run.
Proof.
  apply rt_step. apply (step_capture initial_budgets (mk_holders [] [] [] []) 1000 7).
  vm_compute. reflexivity.
Qed.

Lemma budgets_invariant_witness : inflight_bytes (fst sample_run) = KSD_MAX_CAPTURE_BYTES.
Proof. exact (proj1 (proj1 (proj2 (budgets_invariant (fst sample_run) (snd sample_run) sample_run_reachable)))). Defined.

Definition sample_admitted : authority_budgets :=
  match reserve_worker initial_budgets 1000 with Some (_, b) => b | None => initial_budgets end.
Lemma sample_admitted_eq : reserve_worker initial_budgets 1000 = Some (false, sample_admitted).
Proof. vm_compute. reflexivity. Qed.

Lemma worker_admission_exact_witness : connection_class false ksd_backend_registration_magic = Some Registration.
Proof.
  pose proof (worker_admission_exact initial_budgets (mk_holders [] [] [] []) 1000 [] (rt_refl _ _ _)) as H.
  rewrite sample_admitted_eq in H. exact (proj1 (proj2 (proj2 H))).
Defined.

Lemma reservations_exact_witness :
  reserve_capture_memory (fst sample_run) 1000 7 = None /\ reserve_capture_memory (fst sample_run) 1000 8 <> None.
Proof.
  split.
  - pose proof (proj1 (proj1 (reservations_exact (fst sample_run) (snd sample_run) 1000 7 sample_run_reachable))) as H.
    destruct (reserve_capture_memory (fst sample_run) 1000 7) as [b'|]; [|reflexivity].
    destruct (H ltac:(discriminate)) as (_ & _ & Hp). discriminate Hp.
  - apply (proj2 (proj1 (reservations_exact (fst sample_run) (snd sample_run) 1000 8 sample_run_reachable))).
    split; [reflexivity|]. split; reflexivity.
Defined.

Lemma second_user_captures_witness : reserve_capture_memory (fst sample_run) 1001 9 <> None.
Proof.
  apply (second_user_captures (fst sample_run) (snd sample_run) 1000 1001 9 sample_run_reachable).
  - discriminate.
  - constructor; [split; [reflexivity|discriminate]|constructor].
Defined.
