(* ===== verification/Lease.v ===== *)
(** * Authorization leases (src/authorityd.c)

    A lease is what an application holds from the authority: its identity, the
    scopes it asked for and was granted, the state domains it subscribed to and
    the windows it is kept informed of.  Here are the lease, the frames written
    to its socket, and the list of leases that requests are bound to; the window
    state is in [WindowState] and the permissions in [Authorize].  A thread
    holds the lease's mutex around each operation, so each is one function on
    the lease.  An emission takes the outcomes of its send calls and returns what
    reached the socket; [None] is a list of outcomes that ends before the call
    does. *)
From Stdlib Require Import ZArith Lia Strings.Byte Strings.String.
From stdpp Require Import base list option numbers tactics.
From S2P Require Import Prelude.
From S2P Require Import Protocol.
From S2P Require Import Codec.
From S2P Require Import Buffer.
From S2P Require Import Transport.
From S2P Require Import Frame.
From S2P Require Import StateWire.
Local Open Scope Z_scope.
Local Open Scope ksd_scope.

(** The parts of a process identity the authority looks at. *)
Record ksp_identity := mk_identity {
  id_uid : Z;
  id_pid : Z;
  id_start_time : Z;
  id_hash : list byte;
}.

Definition same_identity (left right : ksp_identity) : bool :=
  (id_uid left =? id_uid right) && (id_pid left =? id_pid right)
  && (id_start_time left =? id_start_time right) && bytes_eqb (id_hash left) (id_hash right).

Record authority_lease := mk_lease {
  lease_id : Z;
  lease_epoch : Z;
  lease_sequences : list Z;
  lease_references : Z;
  lease_active : bool;
  lease_identity : ksp_identity;
  lease_requested_scopes : Z;
  lease_granted_scopes : Z;
  lease_domains : Z;
  lease_generation : Z;
  lease_windows : list ksd_window_record;
  lease_snapshot_windows : list ksd_window_record;
  lease_snapshot_pending : bool;
}.

Definition with_scopes (l : authority_lease) (active : bool) (requested granted domains generation : Z) : authority_lease :=
  mk_lease (lease_id l) (lease_epoch l) (lease_sequences l) (lease_references l) active (lease_identity l) requested
    granted domains generation (lease_windows l) (lease_snapshot_windows l) (lease_snapshot_pending l).
Definition with_sequences (l : authority_lease) (sequences : list Z) : authority_lease :=
  mk_lease (lease_id l) (lease_epoch l) sequences (lease_references l) (lease_active l) (lease_identity l)
    (lease_requested_scopes l) (lease_granted_scopes l) (lease_domains l) (lease_generation l) (lease_windows l)
    (lease_snapshot_windows l) (lease_snapshot_pending l).
Definition with_windows (l : authority_lease) (windows snapshot : list ksd_window_record) (pending : bool)
    : authority_lease :=
  mk_lease (lease_id l) (lease_epoch l) (lease_sequences l) (lease_references l) (lease_active l) (lease_identity l)
    (lease_requested_scopes l) (lease_granted_scopes l) (lease_domains l) (lease_generation l) windows snapshot pending.
Definition with_references (l : authority_lease) (references : Z) : authority_lease :=
  mk_lease (lease_id l) (lease_epoch l) (lease_sequences l) references (lease_active l) (lease_identity l)
    (lease_requested_scopes l) (lease_granted_scopes l) (lease_domains l) (lease_generation l) (lease_windows l)
    (lease_snapshot_windows l) (lease_snapshot_pending l).

(** A lease that failed to be written to is dead: nothing is granted any more. *)
Definition deactivate (l : authority_lease) : authority_lease :=
  with_scopes l false (lease_requested_scopes l) 0 (lease_domains l) (lease_generation l).

(** The loop counts the shifts; a domain fits 32 bits. *)
Fixpoint domain_index_loop (fuel : nat) (domain index : Z) : Z :=
  match fuel with
  | O => index
  | S fuel =>
    let domain := Z.shiftr domain 1 in
    if domain =? 0 then index else domain_index_loop fuel domain (index + 1)
  end.
Definition domain_index (domain : Z) : Z := domain_index_loop 32 domain 0.

Definition sequence_of (l : authority_lease) (index : Z) : Z := nth (Z.to_nat index) (lease_sequences l) 0.
Definition next_sequence (l : authority_lease) (index : Z) : authority_lease :=
  with_sequences l (<[Z.to_nat index := u64 (sequence_of l index + 1)]> (lease_sequences l)).

Definition stamp (e : ksd_state_event) (epoch sequence : Z) : ksd_state_event :=
  mk_event (ev_kind e) (ev_domain e) epoch sequence (ev_window e) (ev_data e) (ev_granted_scopes e) (ev_revoked_scopes e).

(** The frame an event is sent in. *)
Definition event_frame (payload : list byte) : ksd_frame :=
  mk_frame ksd_public_magic KSD_PROTOCOL_MAJOR KSD_PROTOCOL_MINOR KSD_OP_STATE_EVENT KSD_FLAG_EVENT
    (u32 (zlen payload)) 0 (match payload with [] => None | _ => Some payload end).

Section emission.
Context {AL : Allocator}.

Definition write_lease_frame (calls : list plain_outcome) (frame : ksd_frame) : option (bool * list byte) :=
  let '(ok, packed) := ksd_frame_pack frame (ksd_buffer_init (KSD_MAX_TEXT_BYTES + 512)) in
  if ok then ksd_write_all calls (buf_bytes packed) [] else Some (false, []).

(** The answer, the lease, and the bytes that reached its socket. *)
Definition lease_emit (calls : list plain_outcome) (lease : authority_lease) (event : ksd_state_event)
    : option (bool * authority_lease * list byte) :=
  if negb (lease_active lease) then Some (false, lease, [])
  else
    let event := stamp event (lease_epoch lease) (sequence_of lease (domain_index (ev_domain event))) in
    let '(ok, payload) := ksd_state_event_encode event (ksd_buffer_init (KSD_MAX_TEXT_BYTES + 256)) in
    if ok then
      let* (ok, out) := write_lease_frame calls (event_frame (buf_bytes payload)) in
      if ok then Some (true, lease, out) else Some (false, deactivate lease, out)
    else Some (false, deactivate lease, []).
End emission.

(** ** The list of leases *)

Definition lease_create (leases : list authority_lease) (id epoch : Z) (identity : ksp_identity)
    (requested granted generation : Z) : option (list authority_lease) :=
  guard* negb ((id =? 0) || (epoch =? 0)) in
  Some (mk_lease id epoch (repeat 0 5) 1 true identity requested granted 0 generation [] [] false :: leases).

(** The first lease the request may use: the right id, alive, and of the very
    process the request comes from. *)
Definition lease_matches (id uid pid : Z) (l : authority_lease) : bool :=
  (lease_id l =? id) && lease_active l && (id_uid (lease_identity l) =? uid) && (id_pid (lease_identity l) =? pid).
Fixpoint lease_bind (leases : list authority_lease) (id uid pid : Z) : option (authority_lease * list authority_lease) :=
  match leases with
  | [] => None
  | l :: leases =>
    if lease_matches id uid pid l
    then let l := with_references l (lease_references l + 1) in Some (l, l :: leases)
    else let* (found, leases) := lease_bind leases id uid pid in Some (found, l :: leases)
  end.

(** Dropping one reference to the lease at a position of the list; the last one
    unlinks and frees it. *)
Definition lease_release (leases : list authority_lease) (index : nat) : list authority_lease :=
  match leases !! index with
  | None => leases
  | Some l =>
    let references := lease_references l - 1 in
    if references =? 0 then take index leases ++ drop (S index) leases
    else <[index := with_references l references]> leases
  end.

(** ** Emission *)

Definition lease_ok (l : authority_lease) : Prop :=
  is_u64 (lease_epoch l) /\ length (lease_sequences l) = 5%nat /\ Forall is_u64 (lease_sequences l).

Lemma sequence_of_ok l i : lease_ok l -> is_u64 (sequence_of l i).
Proof.
  intros (_ & _ & H). unfold sequence_of.
  destruct (nth_in_or_default (Z.to_nat i) (lease_sequences l) 0) as [Hin| ->].
  - rewrite List.Forall_forall in H. by apply H.
  - unfold is_u64. lia.
Qed.

Lemma next_sequence_ok l i : lease_ok l -> lease_ok (next_sequence l i).
Proof.
  intros (H1 & H2 & H3). split; [done|]. cbn [next_sequence with_sequences lease_sequences].
  split; [by rewrite length_insert|]. apply Forall_insert; [done|apply u64_range].
Qed.

Lemma next_sequence_of l i :
  lease_ok l -> 0 <= i < 5 -> sequence_of (next_sequence l i) i = u64 (sequence_of l i + 1).
Proof.
  intros (_ & Hl & _) Hi. unfold sequence_of at 1. cbn [next_sequence with_sequences lease_sequences].
  rewrite nth_lookup, list_lookup_insert_eq; [done|]. rewrite Hl. lia.
Qed.

Lemma event_bytes_nonempty e : event_bytes e <> [].
Proof. by unfold event_bytes, ksd_encode_u32. Qed.

Lemma event_frame_wf payload : payload <> [] -> zlen payload < 2 ^ 32 -> frame_wf (event_frame payload).
Proof.
  intros Hne Hl. pose proof (zlen_nonneg payload) as Hnn. unfold frame_wf, header_wf, event_frame.
  assert (Hu : u32 (zlen payload) = zlen payload) by (apply u32_id; unfold is_u32; lia).
  assert (Hp : 0 < zlen payload) by (destruct payload; [done|rewrite zlen_cons; pose proof (zlen_nonneg payload); lia]).
  cbn [fr_magic fr_major fr_minor fr_opcode fr_flags fr_payload_length fr_request_id fr_payload]. rewrite Hu.
  unfold is_u16, is_u32, is_u64, KSD_PROTOCOL_MAJOR, KSD_PROTOCOL_MINOR, KSD_OP_STATE_EVENT, KSD_FLAG_EVENT.
  split; [repeat (split; [first [done|lia]|]); lia|]. destruct payload as [|b l]; [done|]. split; [done|]. split; [done|].
  intros H. lia.
Qed.

Lemma event_frame_acceptable payload maximum :
  zlen payload <= maximum -> zlen payload < 2 ^ 32 ->
  frame_header_acceptable (public_rules maximum) (event_frame payload) = true.
Proof.
  intros Hm Hl. pose proof (zlen_nonneg payload). unfold frame_header_acceptable, event_frame, public_rules.
  cbn [fr_magic fr_major fr_minor fr_payload_length rule_magic rule_major rule_minor rule_maximum_payload rule_public].
  rewrite u32_id by (unfold is_u32; lia). rewrite (proj2 (Z.leb_le _ _)) by done.
  unfold bytes_eqb. rewrite bool_decide_true by done. rewrite !Z.eqb_refl. done.
Qed.

(** What a successful emission put on the socket: one frame with the stamped
    event, which every reader of public frames accepts and decodes. *)
Definition emitted (l : authority_lease) (e : ksd_state_event) : ksd_state_event :=
  norm_event (stamp e (lease_epoch l) (sequence_of l (domain_index (ev_domain e)))).

(** The buffers an emission fills. *)
Lemma text_buffer_wf n : 0 <= n <= 4096 -> buffer_wf (ksd_buffer_init (KSD_MAX_TEXT_BYTES + n)).
Proof. intros H. apply buffer_init_wf. unfold KSD_MAX_TEXT_BYTES, SIZE_MAX. lia. Qed.

Lemma lease_emit_sound {AL : Allocator} calls l e l' out :
  event_ok (emitted l e) -> lease_emit calls l e = Some (true, l', out) ->
  lease_active l = true /\ l' = l /\ out = frame_bytes (event_frame (event_bytes (emitted l e))) /\
  zlen (event_bytes (emitted l e)) <= KSD_MAX_TEXT_BYTES + 256.
Proof.
  intros He. unfold lease_emit. destruct (lease_active l); [|done]. cbn [negb]. cbv zeta.
  set (s := stamp _ _ _) in *.
  assert (Hfit : texts_fit s) by exact (norm_event_texts _ (event_ok_texts _ He)).
  pose proof (event_encode_writes s Hfit (ksd_buffer_init (KSD_MAX_TEXT_BYTES + 256))
    (text_buffer_wf 256 ltac:(lia))) as Hw.
  destruct (ksd_state_event_encode s _) as [[] payload]; [|done].
  destruct Hw as ((_ & Hlen & _) & Hmax & _ & Hok & _). specialize (Hok eq_refl).
  change (buf_bytes (ksd_buffer_init (KSD_MAX_TEXT_BYTES + 256))) with (@nil byte) in Hok. cbn [app] in Hok.
  change (buf_maximum (ksd_buffer_init (KSD_MAX_TEXT_BYTES + 256))) with (KSD_MAX_TEXT_BYTES + 256) in Hmax.
  unfold buf_length in Hlen. rewrite Hmax, Hok in Hlen. rewrite Hok.
  unfold write_lease_frame. change (emitted l e) with (norm_event s). rewrite norm_event_bytes.
  assert (Hf : frame_wf (event_frame (event_bytes s))).
  { apply event_frame_wf; [apply event_bytes_nonempty|unfold KSD_MAX_TEXT_BYTES in *; lia]. }
  pose proof (pack_writes _ Hf (ksd_buffer_init (KSD_MAX_TEXT_BYTES + 512))
    (text_buffer_wf 512 ltac:(lia))) as Hp.
  destruct (ksd_frame_pack _ _) as [[] packed]; [|done]. destruct Hp as (_ & _ & _ & Hpk & _).
  specialize (Hpk eq_refl). destruct (ksd_write_all calls (buf_bytes packed) []) as [[[] sent]|] eqn:Es; [|done..].
  intros [= <- <-]. apply write_all_spec in Es as (_ & _ & Hs). rewrite (Hs eq_refl), Hpk. done.
Qed.

(** One that fails leaves a part of the frame on the socket, if anything. *)
Lemma lease_emit_part {AL : Allocator} calls l e l' out :
  event_ok (emitted l e) -> lease_emit calls l e = Some (false, l', out) ->
  exists n, out = take n (frame_bytes (event_frame (event_bytes (emitted l e)))).
Proof.
  intros He. unfold lease_emit. destruct (lease_active l); [|intros [= _ <-]; by exists 0%nat]. cbn [negb]. cbv zeta.
  set (s := stamp _ _ _) in *.
  assert (Hfit : texts_fit s) by exact (norm_event_texts _ (event_ok_texts _ He)).
  pose proof (event_encode_writes s Hfit (ksd_buffer_init (KSD_MAX_TEXT_BYTES + 256))
    (text_buffer_wf 256 ltac:(lia))) as Hw.
  destruct (ksd_state_event_encode s _) as [[] payload]; [|intros [= _ <-]; by exists 0%nat].
  destruct Hw as ((_ & Hlen & _) & Hmax & _ & Hok & _). specialize (Hok eq_refl).
  change (buf_bytes (ksd_buffer_init (KSD_MAX_TEXT_BYTES + 256))) with (@nil byte) in Hok. cbn [app] in Hok.
  change (buf_maximum (ksd_buffer_init (KSD_MAX_TEXT_BYTES + 256))) with (KSD_MAX_TEXT_BYTES + 256) in Hmax.
  unfold buf_length in Hlen. rewrite Hmax, Hok in Hlen. rewrite Hok.
  unfold write_lease_frame. change (emitted l e) with (norm_event s). rewrite norm_event_bytes.
  assert (Hf : frame_wf (event_frame (event_bytes s))).
  { apply event_frame_wf; [apply event_bytes_nonempty|unfold KSD_MAX_TEXT_BYTES in *; lia]. }
  pose proof (pack_writes _ Hf (ksd_buffer_init (KSD_MAX_TEXT_BYTES + 512))
    (text_buffer_wf 512 ltac:(lia))) as Hp.
  destruct (ksd_frame_pack _ _) as [[] packed]; [|intros [= _ <-]; by exists 0%nat]. destruct Hp as (_ & _ & _ & Hpk & _).
  specialize (Hpk eq_refl). destruct (ksd_write_all calls (buf_bytes packed) []) as [[[] sent]|] eqn:Es; [done| |done].
  intros [= _ <-]. apply write_all_spec in Es as (n & Hs & _). exists n. rewrite Hs, Hpk. done.
Qed.

(** An emission succeeds when the event fits and the socket takes what is sent. *)
Lemma lease_emit_complete {AL : Allocator} {AT : AllocTotal AL} calls l e :
  lease_active l = true -> event_ok (emitted l e) -> zlen (event_bytes (emitted l e)) <= KSD_MAX_TEXT_BYTES + 256 ->
  (forall data, zlen data <= KSD_MAX_TEXT_BYTES + 512 -> ksd_write_all calls data [] = Some (true, data)) ->
  lease_emit calls l e = Some (true, l, frame_bytes (event_frame (event_bytes (emitted l e)))).
Proof.
  intros Ha He Hz Hw. unfold lease_emit. rewrite Ha. cbn [negb]. cbv zeta. revert He Hz. unfold emitted.
  set (s := stamp _ _ _). rewrite norm_event_bytes. intros He Hz.
  pose proof (event_encode_fresh s (KSD_MAX_TEXT_BYTES + 256) (norm_event_texts _ (event_ok_texts _ He))
    ltac:(unfold KSD_MAX_TEXT_BYTES, SIZE_MAX; lia)) as H.
  destruct (ksd_state_event_encode s _) as [ok payload]. destruct H as [Hok Hb].
  rewrite (proj2 (Z.leb_le _ _)) in Hok by done. subst ok. rewrite Hb by done. unfold write_lease_frame.
  assert (Hf : frame_wf (event_frame (event_bytes s)))
    by (apply event_frame_wf; [apply event_bytes_nonempty|unfold KSD_MAX_TEXT_BYTES in *; lia]).
  assert (Hlen : zlen (frame_bytes (event_frame (event_bytes s))) = KSD_FRAME_HEADER_SIZE + zlen (event_bytes s)).
  { unfold frame_bytes. rewrite zlen_app, zlen_header by apply Hf. by destruct (event_bytes s). }
  pose proof (pack_writes _ Hf (ksd_buffer_init (KSD_MAX_TEXT_BYTES + 512)) (text_buffer_wf 512 ltac:(lia))) as Hp.
  destruct (ksd_frame_pack _ _) as [pok packed]. destruct Hp as (_ & _ & _ & Hpk & Ht).
  change (buf_length (ksd_buffer_init (KSD_MAX_TEXT_BYTES + 512))) with 0 in Ht.
  change (buf_maximum (ksd_buffer_init (KSD_MAX_TEXT_BYTES + 512))) with (KSD_MAX_TEXT_BYTES + 512) in Ht.
  change (buf_bytes (ksd_buffer_init (KSD_MAX_TEXT_BYTES + 512))) with (@nil byte) in Hpk. cbn [app] in Hpk.
  unfold KSD_FRAME_HEADER_SIZE in *. rewrite Ht in * by (done || lia). rewrite Hpk, Hw by (done || lia). done.
Qed.

(** A failed emission leaves a lease that was alive dead, with nothing granted;
    the windows it records are as they were. *)
Lemma lease_emit_failed {AL : Allocator} calls l e l' out :
  lease_emit calls l e = Some (false, l', out) ->
  lease_active l' = false /\ (lease_active l = true -> l' = deactivate l) /\ (lease_active l = false -> l' = l /\ out = []).
Proof.
  unfold lease_emit. destruct (lease_active l) eqn:E; cbn [negb]; cbv zeta; [|by intros [= <- <-]].
  destruct (ksd_state_event_encode _ _) as [[] payload]; [|by intros [= <- <-]].
  destruct (write_lease_frame _ _) as [[[] o]|]; [done| |done]. by intros [= <- <-].
Qed.

Lemma lease_emit_ok {AL : Allocator} calls l e l' out :
  lease_emit calls l e = Some (true, l', out) -> l' = l /\ lease_active l = true.
Proof.
  unfold lease_emit. destruct (lease_active l); [|done]. cbn [negb]; cbv zeta.
  destruct (ksd_state_event_encode _ _) as [[] payload]; [|done].
  destruct (write_lease_frame _ _) as [[[] o]|]; [|done..]. by intros [= <- _].
Qed.

(** ** Binding *)

(** A request is served under a lease only of its own process: binding finds
    a lease exactly when one with that id is alive and belongs to the peer's user
    and pid, takes one reference to it and changes no other; releasing that
    reference gives back the list as it was. *)
Theorem lease_bind_exact leases id uid pid :
  (lease_bind leases id uid pid = None <-> Forall (fun l => lease_matches id uid pid l = false) leases) /\
  (forall l leases', lease_bind leases id uid pid = Some (l, leases') ->
     exists i l0, leases !! i = Some l0 /\ lease_matches id uid pid l0 = true /\
       l = with_references l0 (lease_references l0 + 1) /\ leases' = <[i := l]> leases /\
       (1 <= lease_references l0 -> lease_release leases' i = leases)).
Proof.
  split.
  - induction leases as [|l leases IH]; [by split; [constructor|]|]. cbn [lease_bind].
    destruct (lease_matches id uid pid l) eqn:E.
    + split; [done|]. intros H. apply Forall_cons_1 in H as [H _]. congruence.
    + rewrite List.Forall_cons_iff, <- IH. destruct (lease_bind leases id uid pid) as [[? ?]|]; [|done].
      split; [done|]. by intros [_ ?].
  - intros l leases' H.
    assert (Hloop : exists i l0, leases !! i = Some l0 /\ lease_matches id uid pid l0 = true /\
              l = with_references l0 (lease_references l0 + 1) /\ leases' = <[i := l]> leases).
    { revert l leases' H. induction leases as [|a leases IH]; intros l leases'; cbn [lease_bind]; [done|].
      destruct (lease_matches id uid pid a) eqn:E; [intros [= <- <-]; by exists 0%nat, a|].
      destruct (lease_bind leases id uid pid) as [[l1 ls]|]; [|done]. intros [= <- <-].
      destruct (IH _ _ eq_refl) as (i & l0 & Hi & Hm & Hl & ->). by exists (S i), l0. }
    destruct Hloop as (i & l0 & Hi & Hm & -> & ->). exists i, l0. do 4 (split; [done|]). intros Href.
    unfold lease_release. rewrite list_lookup_insert_eq by (by eapply lookup_lt_Some).
    cbn [with_references lease_references]. rewrite (proj2 (Z.eqb_neq _ _)) by lia.
    rewrite list_insert_insert. rewrite decide_True by done. rewrite Z.add_simpl_r.
    apply list_insert_id. by rewrite Hi; destruct l0.
Qed.
