(* ===== verification/WindowState.v ===== *)
(** * The window state of a lease (src/authorityd.c)

    A lease keeps the windows its client has been told of, so that a report of a
    compositor is sent only when it changes something, numbered and classified.
    The list of [state_window] nodes is a list of records in the order of the
    nodes; a [state_window **] slot is found by handle, and a slot that is not
    found is the end of the list.  The compositor watches that produce the
    events are outside; what a client makes of the frames is [mirror]. *)
From Stdlib Require Import ZArith Lia Strings.Byte Strings.String.
From stdpp Require Import base list option numbers tactics gmap.
From S2P Require Import Prelude.
From S2P Require Import Protocol.
From S2P Require Import Codec.
From S2P Require Import Buffer.
From S2P Require Import Transport.
From S2P Require Import Frame.
From S2P Require Import StateWire.
From S2P Require Import Lease.
Local Open Scope Z_scope.
Local Open Scope ksd_scope.

(** ** The list of windows *)

(** What the slot of a handle holds. *)
Fixpoint window_slot (windows : list ksd_window_record) (handle : Z) : option ksd_window_record :=
  match windows with
  | [] => None
  | w :: windows => if win_handle w =? handle then Some w else window_slot windows handle
  end.

(** Writing a record at the slot of a handle; a new node when it is the end. *)
Fixpoint window_store (windows : list ksd_window_record) (handle : Z) (value : ksd_window_record)
    : list ksd_window_record :=
  match windows with
  | [] => [value]
  | w :: windows => if win_handle w =? handle then value :: windows else w :: window_store windows handle value
  end.

(** Unlinking the slot of a handle. *)
Fixpoint window_remove (windows : list ksd_window_record) (handle : Z) : list ksd_window_record :=
  match windows with
  | [] => []
  | w :: windows => if win_handle w =? handle then windows else w :: window_remove windows handle
  end.

(** ** One event *)

Definition with_stacking (w : ksd_window_record) (order : Z) : ksd_window_record :=
  mk_window (win_flags w) (Z.lor (win_valid_fields w) KSD_FIELD_STACKING_ORDER) (win_handle w) (win_parent w)
    (win_pid w) (win_transparency w) (win_frame w) (win_client w) (win_surface w) (win_buffer_width w)
    (win_buffer_height w) (win_title w) (win_app_id w) (win_capture_id w) (win_compositor_id w) order.

(** One above every window the lease has. *)
Definition order_above (windows : list ksd_window_record) (order : Z) : Z :=
  fold_left (fun order w => if order <=? win_stacking_order w then u64 (win_stacking_order w + 1) else order)
    windows order.

Definition stack_window (windows : list ksd_window_record) (slot : option ksd_window_record) (w : ksd_window_record)
    : ksd_window_record :=
  if Z.land (win_valid_fields w) KSD_FIELD_STACKING_ORDER =? 0
  then with_stacking w (match slot with
                        | Some old => win_stacking_order old
                        | None => order_above windows (win_stacking_order w)
                        end)
  else w.

(** What a report of a window the lease knows, or does not know, is announced as. *)
Definition change_kind (slot : option ksd_window_record) (w : ksd_window_record) : Z :=
  match slot with
  | None => KSD_STATE_CREATE
  | Some old =>
    let changed := Z.lxor (win_flags old) (win_flags w) in
    if negb (Z.land changed KSD_WINDOW_VISIBLE =? 0)
    then if negb (Z.land (win_flags w) KSD_WINDOW_VISIBLE =? 0) then KSD_STATE_SHOW else KSD_STATE_HIDE
    else if negb (Z.land changed KSD_WINDOW_ACTIVE =? 0) then KSD_STATE_ACTIVE
    else if bool_decide (rect_words (win_frame old) ++ rect_words (win_client old) ++ rect_words (win_surface old)
                         <> rect_words (win_frame w) ++ rect_words (win_client w) ++ rect_words (win_surface w))
    then KSD_STATE_GEOMETRY
    else if negb (zlen (string_bytes (win_title old)) =? zlen (string_bytes (win_title w)))
            || (negb (zlen (string_bytes (win_title old)) =? 0)
                && negb (bytes_eqb (string_bytes (win_title old)) (string_bytes (win_title w))))
    then KSD_STATE_TITLE
    else KSD_STATE_CHANGED
  end.

Definition with_event (e : ksd_state_event) (kind : Z) (w : ksd_window_record) : ksd_state_event :=
  mk_event kind (ev_domain e) (ev_epoch e) (ev_sequence e) w (ev_data e) (ev_granted_scopes e) (ev_revoked_scopes e).

Definition set_windows (l : authority_lease) (item : bool) (windows : list ksd_window_record) : authority_lease :=
  if item then with_windows l (lease_windows l) windows (lease_snapshot_pending l)
  else with_windows l windows (lease_snapshot_windows l) (lease_snapshot_pending l).

Section apply.
Context {AL : Allocator}.

Definition size_of_state_window : Z := 280.

(** The answer, the lease, and what reached its socket. *)
Definition state_window_apply (calls : list plain_outcome) (lease : authority_lease) (event : ksd_state_event)
    : option (bool * authority_lease * list byte) :=
  if ev_kind event =? KSD_STATE_SNAPSHOT_BEGIN then
    lease_emit calls (with_windows (next_sequence lease 0) (lease_windows lease) [] true) event
  else if ev_kind event =? KSD_STATE_SNAPSHOT_END then
    if negb (lease_snapshot_pending lease) then Some (false, lease, [])
    else lease_emit calls (with_windows lease (lease_snapshot_windows lease) [] false) event
  else
    let item := ev_kind event =? KSD_STATE_SNAPSHOT_ITEM in
    if item && negb (lease_snapshot_pending lease) then Some (false, lease, [])
    else
      let windows := if item then lease_snapshot_windows lease else lease_windows lease in
      let handle := win_handle (ev_window event) in
      let slot := window_slot windows handle in
      if ev_kind event =? KSD_STATE_DESTROY then
        match slot with
        | None => Some (true, lease, [])
        | Some _ => lease_emit calls (next_sequence (set_windows lease item (window_remove windows handle)) 0) event
        end
      else
        let window := stack_window (lease_windows lease) slot (ev_window event) in
        if match slot with Some old => negb item && ksd_state_window_equal old window | None => false end
        then Some (true, lease, [])
        else if match slot with None => negb (alloc_ok size_of_state_window) | Some _ => false end
        then Some (false, lease, [])
        else
          let event := with_event event (if item then ev_kind event else change_kind slot window) window in
          match ksd_state_window_copy window with
          | None => Some (false, set_windows lease item (window_store windows handle ksd_window_record_init), [])
          | Some copy =>
            let lease := set_windows lease item (window_store windows handle copy) in
            lease_emit calls (if item then lease else next_sequence lease 0) event
          end.
End apply.

(** ** The windows as a map *)

Definition window_view (windows : list ksd_window_record) : gmap Z ksd_window_record :=
  list_to_map (map (fun w => (win_handle w, w)) windows).

Definition windows_ok (windows : list ksd_window_record) : Prop :=
  NoDup (map win_handle windows) /\ Forall window_ok windows.

Lemma window_slot_view ws h : window_slot ws h = window_view ws !! h.
Proof.
  unfold window_view. induction ws as [|w ws IH]; cbn; [by rewrite lookup_empty|].
  destruct (Z.eqb_spec (win_handle w) h) as [->|Hne]; [by rewrite lookup_insert_eq|by rewrite lookup_insert_ne].
Qed.

Lemma window_store_view ws h v : win_handle v = h -> window_view (window_store ws h v) = <[h := v]> (window_view ws).
Proof.
  intros <-. unfold window_view. induction ws as [|w ws IH]; cbn; [done|].
  destruct (Z.eqb_spec (win_handle w) (win_handle v)) as [Heq|Hne]; cbn.
  - by rewrite Heq, insert_insert_eq.
  - rewrite IH. by rewrite insert_insert_ne.
Qed.

Lemma window_slot_none ws h : window_slot ws h = None -> h ∉ map win_handle ws.
Proof.
  induction ws as [|w ws IH]; cbn; [by intros _ ?%elem_of_nil|].
  destruct (Z.eqb_spec (win_handle w) h) as [->|Hne]; [done|]. intros H. apply not_elem_of_cons. auto.
Qed.

Lemma window_slot_in ws h v : window_slot ws h = Some v -> h ∈ map win_handle ws.
Proof.
  induction ws as [|w ws IH]; cbn; [done|]. destruct (Z.eqb_spec (win_handle w) h) as [->|]; [by left|right; auto].
Qed.

Lemma window_slot_ok ws h v : windows_ok ws -> window_slot ws h = Some v -> window_ok v /\ win_handle v = h.
Proof.
  intros [_ Hok]. induction Hok as [|w ws Hw Hok IH]; cbn; [done|].
  destruct (Z.eqb_spec (win_handle w) h); [by intros [= <-]|done].
Qed.

Lemma window_remove_view ws h : NoDup (map win_handle ws) -> window_view (window_remove ws h) = delete h (window_view ws).
Proof.
  unfold window_view. induction ws as [|w ws IH]; cbn; intros Hnd; [by rewrite delete_empty|].
  apply NoDup_cons in Hnd as [Hni Hnd]. destruct (Z.eqb_spec (win_handle w) h) as [<-|Hne]; cbn.
  - rewrite delete_insert_eq, delete_id; [done|]. fold (window_view ws). rewrite <- window_slot_view.
    destruct (window_slot ws _) eqn:E; [|done]. exfalso. by apply Hni, (window_slot_in _ _ _ E).
  - by rewrite delete_insert_ne, IH.
Qed.

Lemma window_remove_incl ws h (P : ksd_window_record -> Prop) : Forall P ws -> Forall P (window_remove ws h).
Proof.
  induction 1 as [|w ws Hw Hws IH]; cbn; [constructor|]. destruct (win_handle w =? h); [done|by constructor].
Qed.

Lemma window_remove_handles ws h x : x ∈ map win_handle (window_remove ws h) -> x ∈ map win_handle ws.
Proof.
  induction ws as [|w ws IH]; cbn; [done|]. destruct (win_handle w =? h); cbn; [by right|].
  rewrite !elem_of_cons. intuition.
Qed.

Lemma window_remove_ok ws h : windows_ok ws -> windows_ok (window_remove ws h).
Proof.
  intros [Hnd Hok]. split; [|by apply window_remove_incl]. clear Hok.
  induction ws as [|w ws IH]; cbn; [done|]. cbn in Hnd. apply NoDup_cons in Hnd as [Hni Hnd].
  destruct (win_handle w =? h); [done|]. cbn. apply NoDup_cons. split; [|auto].
  intros Hin. by apply Hni, (window_remove_handles _ h).
Qed.

Lemma window_store_handles ws h v x :
  win_handle v = h -> x ∈ map win_handle (window_store ws h v) -> x = h \/ x ∈ map win_handle ws.
Proof.
  intros Hv. induction ws as [|w ws IH]; cbn.
  - rewrite elem_of_cons, elem_of_nil. intuition congruence.
  - destruct (win_handle w =? h); cbn; rewrite !elem_of_cons; intuition congruence.
Qed.

Lemma window_store_ok ws h v : win_handle v = h -> window_ok v -> windows_ok ws -> windows_ok (window_store ws h v).
Proof.
  intros Hv Hvok [Hnd Hok]. split.
  - clear Hok. induction ws as [|w ws IH]; cbn; [apply NoDup_cons; split; [by intros ?%elem_of_nil|constructor]|].
    cbn in Hnd. apply NoDup_cons in Hnd as [Hni Hnd]. destruct (Z.eqb_spec (win_handle w) h) as [He|Hne]; cbn.
    + apply NoDup_cons. split; [congruence|done].
    + apply NoDup_cons. split; [|auto]. intros Hin. destruct (window_store_handles _ _ _ _ Hv Hin); [done|by apply Hni].
  - clear Hnd. induction Hok as [|w ws Hw Hok IH]; cbn; [constructor; [done|constructor]|].
    destruct (win_handle w =? h); by constructor.
Qed.

(** ** What a client keeps *)

(** The client's windows and the snapshot it is receiving. *)
Record mirror := mk_mirror { mi_windows : gmap Z ksd_window_record; mi_snapshot : gmap Z ksd_window_record }.

Definition mirror_step (m : mirror) (e : ksd_state_event) : mirror :=
  let w := ev_window e in
  if ev_kind e =? KSD_STATE_SNAPSHOT_BEGIN then mk_mirror (mi_windows m) ∅
  else if ev_kind e =? KSD_STATE_SNAPSHOT_END then mk_mirror (mi_snapshot m) ∅
  else if ev_kind e =? KSD_STATE_SNAPSHOT_ITEM then mk_mirror (mi_windows m) (<[win_handle w := w]> (mi_snapshot m))
  else if ev_kind e =? KSD_STATE_DESTROY then mk_mirror (delete (win_handle w) (mi_windows m)) (mi_snapshot m)
  else mk_mirror (<[win_handle w := w]> (mi_windows m)) (mi_snapshot m).

Definition lease_mirror (l : authority_lease) : mirror :=
  mk_mirror (window_view (lease_windows l)) (window_view (lease_snapshot_windows l)).

(** What an event that is not part of a snapshot does: it changes the windows.  A
    snapshot stands for itself, whatever it holds. *)
Definition snapshot_event (kind : Z) : bool :=
  (kind =? KSD_STATE_SNAPSHOT_BEGIN) || (kind =? KSD_STATE_SNAPSHOT_ITEM) || (kind =? KSD_STATE_SNAPSHOT_END).
Definition changes (m : mirror) (e : ksd_state_event) : Prop := snapshot_event (ev_kind e) = true \/ mirror_step m e <> m.
Fixpoint each_changes (m : mirror) (es : list ksd_state_event) : Prop :=
  match es with [] => True | e :: es => changes m e /\ each_changes (mirror_step m e) es end.

(** The events that take a new number. *)
Definition numbered (kind : Z) : bool :=
  negb ((kind =? KSD_STATE_SNAPSHOT_ITEM) || (kind =? KSD_STATE_SNAPSHOT_END)).
Definition follows (last : Z) (e : ksd_state_event) : Z := if numbered (ev_kind e) then u64 (last + 1) else last.

Definition state_ok (l : authority_lease) : Prop :=
  lease_ok l /\ windows_ok (lease_windows l) /\ windows_ok (lease_snapshot_windows l).

(** An event that reaches the client of the lease, as a frame of its own that a
    reader of public frames accepts and decodes; the memory is the reader's. *)
Definition deliverable {RL : Allocator} (epoch : Z) (e : ksd_state_event) : Prop :=
  ev_domain e = KSD_STATE_WINDOWS /\ ev_epoch e = epoch /\ frame_wf (event_frame (event_bytes e)) /\
  frame_header_acceptable (public_rules (KSD_MAX_TEXT_BYTES + 256)) (event_frame (event_bytes e)) = true /\
  ksd_state_event_decode (event_bytes e) = Some e.

Definition event_wire (e : ksd_state_event) : list byte := frame_bytes (event_frame (event_bytes e)).

Lemma order_above_range ws o : is_u64 o -> is_u64 (order_above ws o).
Proof.
  unfold order_above. revert o. induction ws as [|w ws IH]; intros o Ho; cbn [fold_left]; [done|].
  apply IH. case_match; [apply u64_range|done].
Qed.

Lemma with_stacking_ok w o :
  window_ok (norm_window w) -> is_u64 o -> window_ok (norm_window (with_stacking w o)).
Proof.
  unfold window_ok, norm_window, with_stacking; window_fields. intros H Ho.
  repeat match goal with H : _ /\ _ |- _ => destruct H end.
  repeat (split; [first [assumption|apply lor_u64; [assumption|unfold is_u64, KSD_FIELD_STACKING_ORDER; lia]]|]). done.
Qed.

Lemma stack_window_ok all slot w :
  (forall old, slot = Some old -> window_ok old) -> window_ok (norm_window w) ->
  window_ok (norm_window (stack_window all slot w)).
Proof.
  intros Hold Hw. unfold stack_window. case_match; [|done]. apply with_stacking_ok; [done|].
  destruct slot as [old|]; [pose proof (Hold old eq_refl) as H1; unfold window_ok in *; tauto|].
  apply order_above_range. unfold window_ok, norm_window in Hw. revert Hw; window_fields. tauto.
Qed.

Lemma stack_window_handle all slot w : win_handle (stack_window all slot w) = win_handle w.
Proof. unfold stack_window. by case_match. Qed.

Lemma change_kind_delta slot w :
  KSD_STATE_CREATE <= change_kind slot w <= KSD_STATE_CHANGED /\ change_kind slot w <> KSD_STATE_DESTROY.
Proof. unfold change_kind. repeat case_match; split; (done || by split). Qed.

Lemma with_event_ok e kind w :
  event_ok (norm_event e) -> KSD_STATE_SNAPSHOT_BEGIN <= kind <= KSD_STATE_RESET -> window_ok (norm_window w) ->
  event_ok (norm_event (with_event e kind w)).
Proof.
  unfold event_ok, norm_event, with_event; cbn [ev_kind ev_domain ev_epoch ev_sequence ev_window ev_data
    ev_granted_scopes ev_revoked_scopes]. tauto.
Qed.

Lemma window_equal_norm a b : ksd_state_window_equal a (norm_window b) = ksd_state_window_equal a b.
Proof.
  unfold ksd_state_window_equal. change (window_scalars (norm_window b)) with (window_scalars b).
  change (win_stacking_order (norm_window b)) with (win_stacking_order b). cbn [forallb norm_window win_title win_app_id win_capture_id win_compositor_id].
  by rewrite !norm_string_bytes.
Qed.

(** The authority's memory may run out; the reader's does not. *)
Section events.
Context {AL : Allocator} {RL : Allocator} {RT : AllocTotal RL}.

(** A successful emission delivers the event, numbered by the lease. *)
Lemma emit_delivers calls l e l' out :
  state_ok l -> event_ok (norm_event e) -> ev_domain e = KSD_STATE_WINDOWS ->
  lease_emit calls l e = Some (true, l', out) ->
  l' = l /\ exists e', out = event_wire e' /\ deliverable (RL := RL) (lease_epoch l) e' /\ ev_kind e' = ev_kind e /\
    ev_window e' = norm_window (ev_window e) /\ ev_sequence e' = sequence_of l 0.
Proof.
  intros (Hl & _) He Hd H. pose proof (sequence_of_ok l 0 Hl) as Hs.
  assert (Hok : event_ok (emitted l e)).
  { unfold emitted. rewrite Hd. change (domain_index KSD_STATE_WINDOWS) with 0. revert He Hs.
    unfold event_ok, norm_event, stamp; cbn [ev_kind ev_domain ev_epoch ev_sequence ev_window ev_data
      ev_granted_scopes ev_revoked_scopes]. destruct Hl as (Hep & _). tauto. }
  destruct (lease_emit_sound _ _ _ _ _ Hok H) as (_ & -> & -> & Hz). split; [done|]. exists (emitted l e).
  split; [done|]. split.
  - split; [exact Hd|]. split; [done|].
    split; [|split; [|by apply event_decode_complete]].
    + apply event_frame_wf; [apply event_bytes_nonempty|unfold KSD_MAX_TEXT_BYTES in Hz; lia].
    + apply event_frame_acceptable; [done|unfold KSD_MAX_TEXT_BYTES in Hz; lia].
  - split; [done|]. split; [done|]. unfold emitted, norm_event, stamp; cbn [ev_sequence]. by rewrite Hd.
Qed.

(** One that fails leaves a part of one such frame, if anything. *)
Definition part_of_frame (l : authority_lease) (out : list byte) : Prop :=
  out = [] \/ exists e n, out = take n (event_wire e) /\ ev_domain e = KSD_STATE_WINDOWS /\
    ev_epoch e = lease_epoch l /\ ev_sequence e = follows (sequence_of l 0) e /\ changes (lease_mirror l) e.

Lemma emit_fails calls l e l' out :
  state_ok l -> event_ok (norm_event e) -> ev_domain e = KSD_STATE_WINDOWS ->
  lease_emit calls l e = Some (false, l', out) ->
  exists e' n, out = take n (event_wire e') /\ ev_domain e' = KSD_STATE_WINDOWS /\ ev_epoch e' = lease_epoch l /\
    ev_kind e' = ev_kind e /\ ev_window e' = norm_window (ev_window e) /\ ev_sequence e' = sequence_of l 0.
Proof.
  intros (Hl & _) He Hd H. pose proof (sequence_of_ok l 0 Hl) as Hs.
  assert (Hok : event_ok (emitted l e)).
  { unfold emitted. rewrite Hd. change (domain_index KSD_STATE_WINDOWS) with 0. revert He Hs.
    unfold event_ok, norm_event, stamp; cbn [ev_kind ev_domain ev_epoch ev_sequence ev_window ev_data
      ev_granted_scopes ev_revoked_scopes]. destruct Hl as (Hep & _). tauto. }
  destruct (lease_emit_part _ _ _ _ _ Hok H) as (n & ->). exists (emitted l e), n.
  split; [done|]. split; [exact Hd|]. split; [done|]. split; [done|]. split; [done|].
  unfold emitted, norm_event, stamp; cbn [ev_sequence]. by rewrite Hd.
Qed.

(** What one report of a source comes to for the lease and its client. *)
Definition delivers (ok : bool) (l l' : authority_lease) (out : list byte) : Prop :=
  if ok then
    state_ok l' /\ lease_epoch l' = lease_epoch l /\
    (l' = l /\ out = [] \/
     exists e, out = event_wire e /\ deliverable (RL := RL) (lease_epoch l) e /\ changes (lease_mirror l) e /\
       ev_sequence e = follows (sequence_of l 0) e /\
       sequence_of l' 0 = ev_sequence e /\ lease_mirror l' = mirror_step (lease_mirror l) e)
  else part_of_frame l out.

Lemma delivers_emit calls l l1 e ok l' out :
  state_ok l1 -> event_ok (norm_event e) -> ev_domain e = KSD_STATE_WINDOWS ->
  lease_emit calls l1 e = Some (ok, l', out) -> lease_epoch l1 = lease_epoch l ->
  sequence_of l1 0 = (if numbered (ev_kind e) then u64 (sequence_of l 0 + 1) else sequence_of l 0) ->
  (forall e', ev_kind e' = ev_kind e -> ev_window e' = norm_window (ev_window e) ->
     changes (lease_mirror l) e' /\ lease_mirror l1 = mirror_step (lease_mirror l) e') ->
  delivers ok l l' out.
Proof.
  intros Hl1 He Hd H Hep Hseq Hm. destruct ok.
  - destruct (emit_delivers _ _ _ _ _ Hl1 He Hd H) as (-> & e' & -> & Hdel & Hk & Hw & Hs).
    split; [done|]. split; [done|]. right. exists e'. rewrite <- Hep. split; [done|]. split; [done|].
    destruct (Hm e' Hk Hw) as [Hch Hmir]. split; [done|]. split; [|by split]. unfold follows. by rewrite Hk, Hs.
  - destruct (emit_fails _ _ _ _ _ Hl1 He Hd H) as (e' & n & -> & Hdom & Hepo & Hk & Hw & Hs). right. exists e', n.
    destruct (Hm e' Hk Hw) as [Hch _]. rewrite <- Hep. do 3 (split; [done|]). split; [|done].
    unfold follows. by rewrite Hk, Hs.
Qed.

Lemma begin_ok l : state_ok l -> state_ok (with_windows (next_sequence l 0) (lease_windows l) [] true).
Proof.
  intros (Hl & Hw & _). split; [exact (next_sequence_ok l 0 Hl)|]. split; [done|]. split; constructor.
Qed.

Lemma set_windows_ok l item ws : state_ok l -> windows_ok ws -> state_ok (set_windows l item ws).
Proof. intros (Hl & Hw & Hs) H. destruct item; (split; [exact Hl|]; by split). Qed.

Lemma next_ok l : state_ok l -> state_ok (next_sequence l 0).
Proof. intros (Hl & Hw & Hs). split; [by apply next_sequence_ok|by split]. Qed.

Lemma next_of l : state_ok l -> sequence_of (next_sequence l 0) 0 = u64 (sequence_of l 0 + 1).
Proof. intros (Hl & _). by apply next_sequence_of. Qed.

(** Storing or unlinking a window in the list of the lease or of the snapshot. *)
Lemma store_delivers calls l e ok l' out window (item := ev_kind e =? KSD_STATE_SNAPSHOT_ITEM)
    (windows := if item then lease_snapshot_windows l else lease_windows l) (slot := window_slot windows (win_handle window)) :
  state_ok l -> event_ok (norm_event e) -> ev_domain e = KSD_STATE_WINDOWS ->
  window_ok (norm_window window) -> ev_kind e <> KSD_STATE_SNAPSHOT_BEGIN -> ev_kind e <> KSD_STATE_SNAPSHOT_END ->
  match slot with Some old => negb item && ksd_state_window_equal old window = false | None => True end ->
  (let l1 := set_windows l item (window_store windows (win_handle window) (norm_window window)) in
   lease_emit calls (if item then l1 else next_sequence l1 0)
     (with_event e (if item then ev_kind e else change_kind slot window) window)) = Some (ok, l', out) ->
  delivers ok l l' out.
Proof.
  intros Hl He Hd Hw Hb Hn Hne H. cbv zeta in H. set (l1 := set_windows l item _) in H.
  assert (Hws : windows_ok windows) by (destruct Hl as (_ & H1 & H2); unfold windows; by case_match).
  assert (Hl1 : state_ok l1) by (apply set_windows_ok; [done|by apply window_store_ok]).
  pose proof (change_kind_delta slot window) as [Hck Hcd]. destruct item eqn:Ei.
  - apply Z.eqb_eq in Ei. refine (delivers_emit calls l l1 _ ok l' out Hl1 _ _ H _ _ _); [|done|done| |].
    + apply with_event_ok; [done|rewrite Ei; by vm_compute|done].
    + cbn [with_event ev_kind]. by rewrite Ei.
    + intros e' Hk Hw'. cbn [with_event ev_kind ev_window] in Hk, Hw'. split; [left; by rewrite Hk, Ei|]. unfold mirror_step. rewrite Hk, Ei, Hw'. cbn -[window_view].
      unfold lease_mirror, l1. cbn -[window_view]. by rewrite window_store_view.
  - refine (delivers_emit calls l (next_sequence l1 0) _ ok l' out _ _ _ H _ _ _); [by apply next_ok| |done|done| |].
    + apply with_event_ok; [done| |done]. unfold KSD_STATE_CREATE, KSD_STATE_CHANGED, KSD_STATE_SNAPSHOT_BEGIN,
        KSD_STATE_RESET in *. lia.
    + cbn [with_event ev_kind]. rewrite next_of by done. unfold numbered.
      rewrite !(proj2 (Z.eqb_neq _ _)); [done|..]; unfold KSD_STATE_CREATE, KSD_STATE_CHANGED,
        KSD_STATE_SNAPSHOT_ITEM, KSD_STATE_SNAPSHOT_END in *; lia.
    + intros e' Hk Hw'. cbn [with_event ev_kind ev_window] in Hk, Hw'.
      assert (Hstep : mirror_step (lease_mirror l) e'
        = mk_mirror (<[win_handle window := norm_window window]> (window_view (lease_windows l))) (window_view (lease_snapshot_windows l))).
      { unfold mirror_step. rewrite Hk, Hw'.
        rewrite !(proj2 (Z.eqb_neq _ _)); [done|unfold KSD_STATE_CREATE, KSD_STATE_CHANGED, KSD_STATE_SNAPSHOT_ITEM,
          KSD_STATE_SNAPSHOT_END, KSD_STATE_SNAPSHOT_BEGIN in *; (done || lia)..]. }
      split.
      * right. rewrite Hstep. intros [= E]. apply (f_equal (lookup (win_handle window))) in E.
        rewrite lookup_insert_eq, <- window_slot_view in E. unfold slot, windows in *. rewrite <- E in Hne. cbn [negb andb] in Hne.
        rewrite <- window_equal_norm, (proj2 (state_window_equal_exact _ _ Hw Hw)) in Hne; done.
      * rewrite Hstep. unfold lease_mirror, l1. cbn -[window_view]. by rewrite window_store_view.
Qed.

Lemma apply_delivers calls l e ok l' out :
  state_ok l -> event_ok (norm_event e) -> ev_domain e = KSD_STATE_WINDOWS ->
  state_window_apply calls l e = Some (ok, l', out) -> delivers ok l l' out.
Proof.
  intros Hl He Hd. unfold state_window_apply.
  assert (Hquiet : delivers true l l []) by (split; [done|]; split; [done|]; by left).
  assert (Hrefused : forall l1, delivers false l l1 []) by by left.
  destruct (Z.eqb_spec (ev_kind e) KSD_STATE_SNAPSHOT_BEGIN) as [Hb|Hb].
  { intros H. eapply delivers_emit; [by apply begin_ok|done..|by rewrite Hb; apply (next_of l)|].
    intros e' Hk _. split; [left; by rewrite Hk, Hb|]. unfold mirror_step. by rewrite Hk, Hb. }
  destruct (Z.eqb_spec (ev_kind e) KSD_STATE_SNAPSHOT_END) as [Hn|Hn].
  { destruct (lease_snapshot_pending l); [|by intros [= <- <- <-]]. cbn [negb]. intros H.
    eapply delivers_emit; [|done..| |]; [|by rewrite Hn|intros e' Hk _; split; [left; by rewrite Hk, Hn|]; unfold mirror_step; by rewrite Hk, Hn].
    destruct Hl as (Hok & _ & Hs). split; [done|]. split; [done|]. split; constructor. }
  cbv zeta. set (item := ev_kind e =? KSD_STATE_SNAPSHOT_ITEM). destruct (item && _); [by intros [= <- <- <-]|].
  set (windows := if item then _ else _). set (slot := window_slot _ _).
  assert (Hws : windows_ok windows) by (destruct Hl as (_ & H1 & H2); unfold windows; by case_match).
  destruct (Z.eqb_spec (ev_kind e) KSD_STATE_DESTROY) as [Hdes|Hdes].
  { assert (Hi : item = false) by (unfold item; by rewrite Hdes). unfold slot, windows in *. clear slot windows.
    rewrite Hi in *. destruct (window_slot _ _) eqn:Eslot; [|by intros [= <- <- <-]]. intros H.
    assert (Hl1 : state_ok (set_windows l false (window_remove (lease_windows l) (win_handle (ev_window e)))))
      by by apply set_windows_ok, window_remove_ok.
    eapply delivers_emit; [by apply next_ok|done..| |].
    - rewrite Hdes. by rewrite next_of.
    - intros e' Hk Hw. assert (Hstep : mirror_step (lease_mirror l) e'
        = mk_mirror (delete (win_handle (ev_window e)) (window_view (lease_windows l))) (window_view (lease_snapshot_windows l))).
      { unfold mirror_step. by rewrite Hk, Hw, Hdes. }
      split.
      + right. rewrite Hstep. intros [= E]. apply (f_equal (lookup (win_handle (ev_window e)))) in E.
        by rewrite lookup_delete_eq, <- window_slot_view, Eslot in E.
      + rewrite Hstep. unfold lease_mirror; cbn -[window_view]. by rewrite window_remove_view by apply Hws. }
  match goal with |- (if ?b then _ else _) = _ -> _ => destruct b eqn:Enew end; [by intros [= <- <- <-]|].
  match goal with |- (if ?b then _ else _) = _ -> _ => destruct b end; [by intros [= <- <- <-]|]. set (window := stack_window _ _ _) in *.
  assert (Hw : window_ok (norm_window window)).
  { apply stack_window_ok; [|unfold event_ok in He; tauto]. intros old Hold. by eapply window_slot_ok. }
  assert (Hh : win_handle (ev_window e) = win_handle window) by (symmetry; apply stack_window_handle).
  destruct (ksd_state_window_copy window) as [copy|] eqn:Ecopy; [|by intros [= <- <- <-]]. apply window_copy_sound in Ecopy as ->; [|done].
  unfold slot in *. rewrite Hh in *. intros H'. eapply (store_delivers calls l e ok l' out window); try done.
  fold item windows. by destruct (window_slot windows (win_handle window)).
Qed.
End events.

(** ** What the client sees *)

(** The reports of a source, each with the outcomes of the sends it caused; the
    source stops at one that is not taken. *)
Fixpoint state_run {AL : Allocator} (l : authority_lease) (reports : list (list plain_outcome * ksd_state_event))
    : option (authority_lease * list byte) :=
  match reports with
  | [] => Some (l, [])
  | (calls, e) :: reports =>
    let* (r, out) := state_window_apply calls l e in
    let '(ok, l) := r in
    if ok : bool then let* (l, rest) := state_run l reports in Some (l, out ++ rest) else None
  end.

Fixpoint numbering (last : Z) (es : list ksd_state_event) : Prop :=
  match es with
  | [] => True
  | e :: es => ev_sequence e = follows last e /\ numbering (ev_sequence e) es
  end.

(** Every source hands over events it decoded, or windows it read out of JSON. *)
Definition source_event (e : ksd_state_event) : Prop :=
  event_ok (norm_event e) /\ ev_domain e = KSD_STATE_WINDOWS.

(** The client's picture of the windows is the lease's. *)
Lemma state_run_mirrors {AL : Allocator} {AT : AllocTotal AL} reports : forall l l' out,
  state_ok l -> Forall (fun r => source_event (snd r)) reports -> state_run l reports = Some (l', out) ->
  state_ok l' /\
  exists es, out = concat (map event_wire es) /\ Forall (deliverable (lease_epoch l)) es /\
    numbering (sequence_of l 0) es /\ fold_left follows es (sequence_of l 0) = sequence_of l' 0 /\
    fold_left mirror_step es (lease_mirror l) = lease_mirror l'.
Proof.
  induction reports as [|[calls e] reports IH]; intros l l' out Hl Hr; cbn [state_run].
  - intros [= <- <-]. split; [done|]. by exists [].
  - apply Forall_cons_1 in Hr as [[He Hd] Hr].
    destruct (state_window_apply calls l e) as [[[ok l1] out1]|] eqn:Ea; [|done]. cbn [from_option].
    destruct ok; [|done]. destruct (apply_delivers (RL := AL) calls l e true l1 out1 Hl He Hd Ea) as (Hl1 & Hep & Hstep).
    destruct (state_run l1 reports) as [[l2 rest]|] eqn:Er; [|done]. intros [= <- <-].
    destruct (IH l1 l2 rest Hl1 Hr Er) as (Hl2 & es & -> & Hdel & Hnum & Hlast & Hmir). split; [done|].
    destruct Hstep as [[-> ->]|(e1 & -> & Hd1 & _ & Hs1 & Hs2 & Hm1)]; [by exists es|].
    exists (e1 :: es). cbn [map concat numbering fold_left]. rewrite Hep in Hdel. rewrite <- Hs1, <- Hs2, <- Hm1.
    rewrite Hs2. split; [done|]. split; [by constructor|]. rewrite Hs2 in Hnum, Hlast. done.
Qed.

(** The same run, whatever happens: whether every report was taken, the lease as
    the reports that were taken left it, and what reached the socket. *)
Fixpoint state_reports {AL : Allocator} (l : authority_lease) (reports : list (list plain_outcome * ksd_state_event))
    : option (bool * authority_lease * list byte) :=
  match reports with
  | [] => Some (true, l, [])
  | (calls, e) :: reports =>
    let* (r, out) := state_window_apply calls l e in
    let '(ok, l') := r in
    if ok : bool then let* (r, rest) := state_reports l' reports in Some (r, out ++ rest) else Some (false, l, out)
  end.

(** C2: The client's picture of the windows is the lease's: whatever a source
    reports, in any order, with memory and the socket failing at any point, what
    reaches the client's socket is a sequence of whole frames, each accepted and
    decoded by a reader of public frames that has memory, stamped with the lease's
    epoch and numbered without a gap (the items and the end of a snapshot share
    the number of its beginning), and a client that starts from the lease's windows
    and applies them (a snapshot replaces, a destruction deletes, anything else
    stores) has exactly the windows the reports that were taken left in the lease.
    A report that changes nothing sends nothing: each frame, but those of a
    snapshot, changes the picture.  After the whole frames comes a part of one more
    only when a report was not taken, which ends the source.  No handle is ever
    listed twice. *)
Theorem window_state_mirrors {AL RL : Allocator} {RT : AllocTotal RL} reports : forall l ok l' out,
  state_ok l -> Forall (fun r => source_event (snd r)) reports -> state_reports l reports = Some (ok, l', out) ->
  state_ok l' /\
  exists es part, out = concat (map event_wire es) ++ part /\ (if ok : bool then part = [] else part_of_frame l' part) /\
    Forall (deliverable (RL := RL) (lease_epoch l)) es /\ lease_epoch l' = lease_epoch l /\
    numbering (sequence_of l 0) es /\ fold_left follows es (sequence_of l 0) = sequence_of l' 0 /\
    each_changes (lease_mirror l) es /\ fold_left mirror_step es (lease_mirror l) = lease_mirror l'.
Proof.
  induction reports as [|[calls e] reports IH]; intros l ok l' out Hl Hr; cbn [state_reports].
  - intros [= <- <- <-]. split; [done|]. by exists [], [].
  - apply Forall_cons_1 in Hr as [[He Hd] Hr].
    destruct (state_window_apply calls l e) as [[[ok1 l1] out1]|] eqn:Ea; [|done]. cbn [from_option].
    pose proof (apply_delivers (RL := RL) calls l e ok1 l1 out1 Hl He Hd Ea) as Hdel1.
    destruct ok1; [|intros [= <- <- <-]; split; [done|]; by exists [], out1].
    destruct Hdel1 as (Hl1 & Hep & Hstep).
    destruct (state_reports l1 reports) as [[[ok2 l2] rest]|] eqn:Er; [|done]. intros [= <- <- <-].
    destruct (IH l1 ok2 l2 rest Hl1 Hr Er) as (Hl2 & es & part & -> & Hpart & Hdel & Hep2 & Hnum & Hlast & Hch & Hmir).
    split; [done|]. rewrite Hep in *.
    destruct Hstep as [[-> ->]|(e1 & -> & Hd1 & Hc1 & Hs1 & Hs2 & Hm1)]; [by exists es, part|].
    exists (e1 :: es), part. cbn [map concat numbering fold_left each_changes]. rewrite <- Hs1, <- Hm1, Hs2 in *.
    rewrite <- app_assoc. split; [done|]. split; [done|]. split; [by constructor|]. done.
Qed.

Lemma emit_taken {AL : Allocator} {AT : AllocTotal AL} calls l e kind w :
  state_ok l -> lease_active l = true -> event_ok (norm_event e) -> window_ok (norm_window w) ->
  KSD_STATE_SNAPSHOT_BEGIN <= kind <= KSD_STATE_RESET ->
  window_texts_length w + zlen (string_bytes (ev_data e)) <= KSD_MAX_TEXT_BYTES ->
  (forall data, zlen data <= KSD_MAX_TEXT_BYTES + 512 -> ksd_write_all calls data [] = Some (true, data)) ->
  exists l' out, lease_emit calls l (with_event e kind w) = Some (true, l', out) /\ lease_active l' = true.
Proof.
  intros Hl Ha He Hok Hk Hlen Hw. eexists _, _. split; [apply lease_emit_complete; [done| | |done]|done].
  - unfold emitted, norm_event, stamp, with_event, event_ok; cbn [ev_kind ev_domain ev_epoch ev_sequence ev_window
      ev_data ev_granted_scopes ev_revoked_scopes].
    pose proof (sequence_of_ok l (domain_index (ev_domain e)) (proj1 Hl)) as Hs. destruct Hl as ((Hep & _) & _).
    unfold event_ok in He. cbn [norm_event ev_kind ev_domain ev_epoch ev_sequence ev_window ev_data
      ev_granted_scopes ev_revoked_scopes] in He. tauto.
  - unfold emitted. rewrite norm_event_bytes, zlen_event_bytes. cbn [stamp with_event ev_window ev_data]. lia.
Qed.

(** A report is refused only for what it is: with memory and a socket that
    takes what is sent, a live lease takes every report that fits, except an item
    or an end of a snapshot that was not begun, which is refused and leaves the
    lease and the socket as they were. *)
Theorem window_report_accepted {AL : Allocator} {AT : AllocTotal AL} calls l e :
  state_ok l -> lease_active l = true -> source_event e ->
  window_texts_length (ev_window e) + zlen (string_bytes (ev_data e)) <= KSD_MAX_TEXT_BYTES - 152 ->
  (forall data, zlen data <= KSD_MAX_TEXT_BYTES + 512 -> ksd_write_all calls data [] = Some (true, data)) ->
  if negb (lease_snapshot_pending l)
     && ((ev_kind e =? KSD_STATE_SNAPSHOT_ITEM) || (ev_kind e =? KSD_STATE_SNAPSHOT_END))
  then state_window_apply calls l e = Some (false, l, [])
  else exists l' out, state_window_apply calls l e = Some (true, l', out) /\ lease_active l' = true.
Proof.
  intros Hl Ha [He Hd] Hz Hw.
  assert (Hemit : forall l1 kind w, state_ok l1 -> lease_active l1 = true -> window_ok (norm_window w) ->
            KSD_STATE_SNAPSHOT_BEGIN <= kind <= KSD_STATE_RESET ->
            window_texts_length w = window_texts_length (ev_window e) ->
            exists l' out, lease_emit calls l1 (with_event e kind w) = Some (true, l', out) /\ lease_active l' = true)
    by (intros; apply emit_taken; (done || lia)).
  assert (Hk : KSD_STATE_SNAPSHOT_BEGIN <= ev_kind e <= KSD_STATE_RESET) by apply He.
  assert (Hwin : window_ok (norm_window (ev_window e))) by (unfold event_ok in He; tauto).
  assert (Hsame : with_event e (ev_kind e) (ev_window e) = e) by by destruct e.
  assert (Hplain : forall l1, state_ok l1 -> lease_active l1 = true ->
            exists l' out, lease_emit calls l1 e = Some (true, l', out) /\ lease_active l' = true)
    by (intros l1 H1 H2; rewrite <- Hsame; by apply Hemit).
  unfold state_window_apply. destruct (Z.eqb_spec (ev_kind e) KSD_STATE_SNAPSHOT_BEGIN) as [Hb|Hb].
  { rewrite Hb, andb_false_r. by apply Hplain; [apply begin_ok|]. }
  destruct (Z.eqb_spec (ev_kind e) KSD_STATE_SNAPSHOT_END) as [Hn|Hn].
  { rewrite orb_true_r, andb_true_r. destruct (lease_snapshot_pending l); [|done]. cbn [negb]. apply Hplain; [|done].
    destruct Hl as (Hok & _ & Hs). split; [done|]. split; [done|]. split; constructor. }
  rewrite orb_false_r, andb_comm. cbv zeta. set (item := ev_kind e =? KSD_STATE_SNAPSHOT_ITEM).
  destruct (item && _); [done|]. set (windows := if item then _ else _). set (slot := window_slot _ _).
  assert (Hws : windows_ok windows) by (destruct Hl as (_ & H1 & H2); unfold windows; by case_match).
  destruct (ev_kind e =? KSD_STATE_DESTROY).
  { destruct slot; [|by exists l, []]. apply Hplain; [|by destruct item].
    by apply next_ok, set_windows_ok, window_remove_ok. }
  match goal with |- context [if ?b then Some (true, l, []) else _] => destruct b end; [by exists l, []|].
  rewrite (@alloc_total AL AT). change (negb true) with false. replace (match slot with Some _ => false | None => false end)
    with false by by destruct slot. set (window := stack_window _ _ _).
  assert (Hw' : window_ok (norm_window window)).
  { apply stack_window_ok; [|done]. intros old Hold. by eapply window_slot_ok. }
  assert (Ht : window_texts_length window = window_texts_length (ev_window e))
    by (unfold window, stack_window; by case_match).
  pose proof (zlen_nonneg (string_bytes (ev_data e))).
  rewrite window_copy_spec, Ht, (proj2 (Z.leb_le _ _)) by (done || lia).
  assert (Hl1 : state_ok (set_windows l item (window_store windows (win_handle (ev_window e)) (norm_window window)))).
  { apply set_windows_ok; [done|]. apply window_store_ok; [apply (stack_window_handle (lease_windows l) slot)|done..]. }
  pose proof (change_kind_delta slot window) as [Hck _]. apply Hemit; [|by destruct item|done| |done].
  - destruct item; [done|by apply next_ok].
  - destruct item; [done|]. unfold KSD_STATE_CREATE, KSD_STATE_CHANGED, KSD_STATE_SNAPSHOT_BEGIN, KSD_STATE_RESET in *. lia.
Qed.

(** ** Witnesses *)

Definition sample_identity : ksp_identity := mk_identity 1000 4242 77 [x01; x02].
Definition sample_lease : authority_lease :=
  mk_lease 9 5 (repeat 0 5) 1 true sample_identity 3 3 1 1 [] [] false.
Definition sample_report (kind : Z) (w : ksd_window_record) : ksd_state_event :=
  mk_event kind KSD_STATE_WINDOWS 0 0 w None 0 0.
(** A send that is interrupted, one that takes seven bytes, and one that takes the rest. *)
Definition sample_sends : list plain_outcome := [PlainIntr; PlainBytes 7; PlainBytes 4194816].
Definition sample_reports : list (list plain_outcome * ksd_state_event) :=
  map (fun e => (sample_sends, e))
    [sample_report KSD_STATE_SNAPSHOT_BEGIN ksd_window_record_init; sample_report KSD_STATE_SNAPSHOT_ITEM sample_window;
     sample_report KSD_STATE_SNAPSHOT_END ksd_window_record_init; sample_report KSD_STATE_CHANGED sample_window;
     sample_report KSD_STATE_CHANGED (with_stacking sample_window 12); sample_report KSD_STATE_DESTROY sample_window].
(** The last report of the run is one whose send fails after five bytes. *)
Definition failing_reports : list (list plain_outcome * ksd_state_event) :=
  sample_reports ++ [([PlainBytes 5; PlainEnd], sample_report KSD_STATE_CHANGED sample_window)].
Definition sample_run : bool * authority_lease * list byte :=
  default (true, sample_lease, []) (state_reports (AL := infinite_memory) sample_lease failing_reports).

Lemma sample_lease_ok : state_ok sample_lease.
Proof.
  split; [|split; split; constructor]. split; [by vm_compute|]. split; [done|].
  cbn. repeat (constructor; [by vm_compute|]). constructor.
Qed.

Lemma sample_report_ok kind w :
  KSD_STATE_SNAPSHOT_BEGIN <= kind <= KSD_STATE_RESET -> window_ok (norm_window w) -> source_event (sample_report kind w).
Proof.
  intros Hk Hw. split; [|done]. unfold event_ok, is_u32, is_u64, sample_report, norm_event, KSD_STATE_WINDOWS;
    cbn [ev_kind ev_domain ev_epoch ev_sequence ev_window ev_data ev_granted_scopes ev_revoked_scopes].
  repeat (split; [first [assumption|lia|reflexivity]|]). by split.
Qed.

Lemma init_window_ok : window_ok (norm_window ksd_window_record_init).
Proof.
  unfold window_ok, norm_window, ksd_window_record_init; window_fields.
  repeat (split; [first [by vm_compute|apply rect_zero_ok|by apply text_ok_dec]|]). by apply text_ok_dec.
Qed.

Lemma window_state_mirrors_witness :
  fst (fst sample_run) = false /\ state_ok (snd (fst sample_run)) /\
  exists es part, snd sample_run = concat (map event_wire es) ++ part /\
    (if fst (fst sample_run) then part = [] else part_of_frame (snd (fst sample_run)) part) /\
    Forall (deliverable (RL := infinite_memory) (lease_epoch sample_lease)) es /\
    lease_epoch (snd (fst sample_run)) = lease_epoch sample_lease /\
    numbering (sequence_of sample_lease 0) es /\
    fold_left follows es (sequence_of sample_lease 0) = sequence_of (snd (fst sample_run)) 0 /\
    each_changes (lease_mirror sample_lease) es /\
    fold_left mirror_step es (lease_mirror sample_lease) = lease_mirror (snd (fst sample_run)).
Proof.
  split; [vm_compute; reflexivity|].
  apply (window_state_mirrors (AL := infinite_memory) (RL := infinite_memory) failing_reports sample_lease _ _ _);
    [apply sample_lease_ok| |].
  - pose proof sample_window_ok as Hw. pose proof init_window_ok as Hi.
    assert (Hn : window_ok (norm_window sample_window)) by by rewrite (norm_window_id _ Hw).
    repeat (constructor; [apply sample_report_ok; [by vm_compute|try assumption; by apply with_stacking_ok]|]).
    constructor.
  - vm_compute. reflexivity.
Defined.

Lemma one_send_taken data n : zlen data <= Zpos n -> ksd_write_all [PlainBytes n] data [] = Some (true, data).
Proof.
  intros H. destruct data as [|b l]; [done|]. cbn [ksd_write_all]. rewrite Z.min_r by done.
  by rewrite ztake_all, zdrop_all by lia.
Qed.

Lemma window_report_accepted_witness :
  exists l' out, state_window_apply (AL := infinite_memory) [PlainBytes 4194816] sample_lease
    (sample_report KSD_STATE_CHANGED sample_window) = Some (true, l', out) /\ lease_active l' = true.
Proof.
  apply (window_report_accepted (AL := infinite_memory) [PlainBytes 4194816] sample_lease
    (sample_report KSD_STATE_CHANGED sample_window)).
  - apply sample_lease_ok.
  - reflexivity.
  - apply sample_report_ok; [vm_compute; split; discriminate|]. rewrite (norm_window_id _ sample_window_ok).
    apply sample_window_ok.
  - vm_compute. discriminate.
  - intros data Hd. apply one_send_taken. exact Hd.
Defined.
