(* ===== verification/Response.v ===== *)
(** * Responses (src/authorityd.c, src/client.c)

    The answer to a request as the authority builds and sends it, and as the
    client library parses it.  A session is here what the sending looks at: its
    role, its lease and the sequence it last observed; the client is its
    connection's granted scopes and sequence.  Messages are C strings without
    their terminator. *)
From Stdlib Require Import ZArith Lia Strings.Byte Strings.String.
From stdpp Require Import base list option numbers tactics.
From S2P Require Import Prelude.
From S2P Require Import Protocol.
From S2P Require Import Codec.
From S2P Require Import Buffer.
From S2P Require Import Utf8.
From S2P Require Import Transport.
From S2P Require Import Frame.
From S2P Require Import Operations.
From S2P Require Import Result.
From S2P Require Import StateWire.
From S2P Require Import Lease.
Local Open Scope Z_scope.
Local Open Scope ksd_scope.

(** ** The authority's side *)
Section responses.
Context {AL : Allocator}.

(** What is kept of a diagnostic. *)
Definition diagnostic_text (diagnostic : option (list byte)) : list byte :=
  match diagnostic with
  | None => []
  | Some text =>
    let length := if KSD_ERROR_MESSAGE_CAPACITY <=? zlen text then KSD_ERROR_MESSAGE_CAPACITY - 1 else zlen text in
    take (trim_utf8 (Z.to_nat length) text) text
  end.

(** The payload of a response: each step is taken only while all before it succeeded. *)
Definition keep : bufop := fun payload => (true, payload).
Definition write_response (status detail : Z) (diagnostic : option (list byte)) (text : list byte)
    (tail : option (list byte)) (tail_length : Z) : bufop :=
  (ksd_buffer_u32 status ;;; ksd_buffer_u32 detail) ;;;
  (if negb (status =? KSD_STATUS_OK) && negb (bool_decide (diagnostic = None))
   then ksd_buffer_u32 (u32 (zlen text)) ;;; ksd_buffer_bytes (Some text) (zlen text) else keep) ;;;
  (if status =? KSD_STATUS_OK then ksd_buffer_bytes tail tail_length else keep).

Definition build_response (request : ksd_frame) (status detail : Z) (diagnostic tail : option (list byte))
    (tail_length : Z) (more : bool) : option ksd_frame :=
  let text := diagnostic_text diagnostic in
  guard* negb ((fr_request_id request =? 0)
               || ((status =? KSD_STATUS_OK) && negb (zlen text =? 0))
               || (negb (tail_length =? 0) && bool_decide (tail = None))) in
  let '(ok, payload) := write_response status detail diagnostic text tail tail_length
                          (ksd_buffer_init (KSD_MAX_CAPTURE_BYTES + 64)) in
  guard* negb (negb ok || (UINT32_MAX <? buf_length payload)) in
  Some (mk_frame ksd_public_magic KSD_PROTOCOL_MAJOR KSD_PROTOCOL_MINOR (fr_opcode request)
          (u16 (Z.lor KSD_FLAG_RESPONSE (if more then KSD_FLAG_MORE else 0))) (u32 (buf_length payload))
          (fr_request_id request) (Some (buf_bytes payload))).

(** Where a frame goes: the lease's own connection writes without waiting and a
    failure ends the lease; any other connection waits. *)
Record forward_calls := mk_calls { fc_sends : list plain_outcome; fc_deadline : Z; fc_turns : list io_turn }.

Definition forward_public (calls : forward_calls) (role : Z) (lease : option authority_lease) (frame : ksd_frame)
    : option (bool * option authority_lease * list byte) :=
  match lease with
  | Some l =>
    if role =? KSD_ROLE_AUTHORIZATION_LEASE
    then let* (ok, out) := write_lease_frame (fc_sends calls) frame in
         Some (ok, Some (if ok : bool then l else deactivate l), out)
    else let* (ok, out) := ksd_frame_write frame (fc_deadline calls) (fc_turns calls) [] in Some (ok, lease, out)
  | None => let* (ok, out) := ksd_frame_write frame (fc_deadline calls) (fc_turns calls) [] in Some (ok, lease, out)
  end.

(** The tail of a successful window mutation is followed by the sequence. *)
Definition sequenced_tail (opcode status effective_sequence : Z) (tail : option (list byte)) (tail_length : Z)
    : option (option (list byte) * Z) :=
  if (status =? KSD_STATUS_OK) && ksd_state_mutates_windows opcode then
    let '(ok, sequenced) := (ksd_buffer_bytes tail tail_length ;;; ksd_buffer_u64 effective_sequence)
                              (ksd_buffer_init (KSD_MAX_CAPTURE_BYTES + 64)) in
    guard* ok in Some (Some (buf_bytes sequenced), u32 (buf_length sequenced))
  else Some (tail, tail_length).

(** The response of a request, [None] when it cannot be built. *)
Definition response_frame (effective_sequence : Z) (request : ksd_frame) (status detail : Z)
    (diagnostic tail : option (list byte)) (tail_length : Z) (more : bool) : option ksd_frame :=
  let* (tail, tail_length) := sequenced_tail (fr_opcode request) status effective_sequence tail tail_length in
  build_response request status detail diagnostic tail tail_length more.

Definition forward_response (calls : forward_calls) (role : Z) (lease : option authority_lease)
    (effective_sequence : Z) (request : ksd_frame) (status detail : Z) (diagnostic tail : option (list byte))
    (tail_length : Z) (more : bool) : option (bool * option authority_lease * list byte) :=
  match response_frame effective_sequence request status detail diagnostic tail tail_length more with
  | Some response => forward_public calls role lease response
  | None => Some (false, lease, [])
  end.

Definition event_message (opcode : Z) (payload : list byte) : ksd_frame :=
  mk_frame ksd_public_magic KSD_PROTOCOL_MAJOR KSD_PROTOCOL_MINOR opcode KSD_FLAG_EVENT (zlen payload) 0 (Some payload).
Definition forward_event (calls : forward_calls) (role : Z) (lease : option authority_lease) (opcode : Z)
    (payload : list byte) : option (bool * option authority_lease * list byte) :=
  forward_public calls role lease (event_message opcode payload).

Definition send_revoked (calls : forward_calls) (role : Z) (lease : option authority_lease) (scopes : Z)
    : option (bool * option authority_lease * list byte) :=
  if scopes =? 0 then Some (true, lease, [])
  else forward_event calls role lease KSD_OP_SESSION_REVOKED (ksd_encode_u32 scopes ++ ksd_encode_u32 0).
End responses.

(** ** The client's side *)

Record ksd_client_response := mk_response { rs_status : Z; rs_detail : Z; rs_tail : list byte }.
(** [ksd_error] as [set_error] leaves it. *)
Record ksd_error := mk_error { er_detail : Z; er_system_error : Z; er_message : list byte }.
Definition no_error : ksd_error := mk_error 0 0 [].

(** [snprintf] into the array of [KSD_ERROR_MESSAGE_CAPACITY] bytes. *)
Definition set_error (detail system_error : Z) (message : option (list byte)) : ksd_error :=
  mk_error detail system_error (ztake (KSD_ERROR_MESSAGE_CAPACITY - 1) (until_nul (default [] message))).

Definition valid_status (status : Z) : bool := (status <=? KSD_STATUS_REVOKED) || (status =? KSD_STATUS_INTERNAL).

(** The optional message of a failure. *)
Definition parse_message (cursor : ksd_cursor) : option (option (list byte)) :=
  if ksd_cursor_finished cursor then Some None
  else
    let* (length, cursor) := ksd_cursor_u32 cursor in
    guard* negb (KSD_ERROR_MESSAGE_CAPACITY <=? length) in
    let* (bytes, cursor) := ksd_cursor_bytes cursor length in
    guard* ksd_cursor_finished cursor && ksd_utf8_valid bytes false in
    Some (Some bytes).

Definition parse_response (frame : ksd_frame) (opcode request_id : Z) : option (ksd_client_response * ksd_error) :=
  guard* negb (negb (fr_opcode frame =? opcode) || negb (fr_request_id frame =? request_id)
               || (Z.land (fr_flags frame) KSD_FLAG_RESPONSE =? 0)
               || negb (Z.land (fr_flags frame) KSD_FLAG_EVENT =? 0) || (fr_payload_length frame <? 8)) in
  let cursor := ksd_cursor_init (default [] (fr_payload frame)) (fr_payload_length frame) in
  let* (status, cursor) := ksd_cursor_u32 cursor in
  let* (detail, cursor) := ksd_cursor_u32 cursor in
  guard* valid_status status in
  if status =? KSD_STATUS_OK then Some (mk_response status detail (cursor_rest cursor), no_error)
  else
    guard* negb (negb (Z.land (fr_flags frame) KSD_FLAG_MORE =? 0)) in
    let* message := parse_message cursor in
    Some (mk_response status detail [], set_error detail 0 message).

(** What [read_response] makes of a response frame: a successful window mutation
    ends with the sequence, which the connection keeps. *)
Definition take_response (frame : ksd_frame) (opcode request_id sequence : Z)
    : option (ksd_client_response * ksd_error * Z) :=
  let* (response, error) := parse_response frame opcode request_id in
  if (rs_status response =? KSD_STATUS_OK) && ksd_state_mutates_windows opcode then
    guard* negb (zlen (rs_tail response) <? 8) in
    let length := zlen (rs_tail response) - 8 in
    Some (mk_response (rs_status response) (rs_detail response) (ztake length (rs_tail response)), error,
          ksd_decode_u64 (zdrop length (rs_tail response)))
  else Some (response, error, sequence).

(** The scopes a connection has left after a revocation event. *)
Definition apply_revoked_event (granted_scopes : Z) (frame : ksd_frame) : option (Z * Z) :=
  let payload := default [] (fr_payload frame) in
  guard* negb (negb (fr_opcode frame =? KSD_OP_SESSION_REVOKED) || negb (fr_flags frame =? KSD_FLAG_EVENT)
               || negb (fr_request_id frame =? 0) || negb (fr_payload_length frame =? 8)
               || negb (ksd_decode_u32 (zdrop 4 payload) =? 0)) in
  let revoked := ksd_decode_u32 payload in
  guard* negb (revoked =? 0) in
  Some (Z.land granted_scopes (Z.lnot revoked), revoked).

(** ** What the client reads *)

Section roundtrip.
Context {AL : Allocator} {AT : AllocTotal AL}.

(** With memory, an operation writes whatever fits. *)
Lemma writes_total op bs b :
  writes op bs -> buffer_wf b -> buf_length b + zlen bs <= buf_maximum b ->
  exists b', op b = (true, b') /\ buffer_wf b' /\ buf_maximum b' = buf_maximum b /\ buf_bytes b' = buf_bytes b ++ bs.
Proof.
  intros Hw Hb Hl. specialize (Hw b Hb). destruct (op b) as [ok b']. destruct Hw as (H1 & H2 & _ & H3 & H4).
  assert (ok = true) as -> by by apply H4. exists b'. auto.
Qed.

Definition response_limit : Z := KSD_MAX_CAPTURE_BYTES + 64.

Definition response_payload (status detail : Z) (diagnostic : option (list byte)) (tail : list byte) : list byte :=
  ksd_encode_u32 status ++ ksd_encode_u32 detail ++
  (if status =? KSD_STATUS_OK then tail
   else match diagnostic with
        | None => []
        | Some _ => ksd_encode_u32 (zlen (diagnostic_text diagnostic)) ++ diagnostic_text diagnostic
        end).

Definition response_of (request : ksd_frame) (more : bool) (payload : list byte) : ksd_frame :=
  mk_frame ksd_public_magic KSD_PROTOCOL_MAJOR KSD_PROTOCOL_MINOR (fr_opcode request)
    (if more then 5 else 1) (zlen payload) (fr_request_id request) (Some payload).

Lemma diagnostic_text_short d : zlen (diagnostic_text d) < KSD_ERROR_MESSAGE_CAPACITY.
Proof.
  unfold diagnostic_text, KSD_ERROR_MESSAGE_CAPACITY. destruct d as [d|]; [|by vm_compute].
  set (n := if _ <=? _ then _ else _). pose proof (zlen_nonneg d).
  assert (Hn : 0 <= n <= 255) by (unfold n; case_match; lia).
  destruct (trim_utf8_spec (Z.to_nat n) d) as (H1 & _). unfold zlen. rewrite length_take. lia.
Qed.

Lemma diagnostic_text_valid d : ksd_utf8_valid (diagnostic_text d) false = true.
Proof. destruct d as [d|]; [|apply utf8_valid_nil]. unfold diagnostic_text. apply trim_utf8_spec. Qed.

Lemma write_response_writes status detail diagnostic tail :
  writes (write_response status detail diagnostic (diagnostic_text diagnostic) (Some tail) (zlen tail))
    (response_payload status detail diagnostic tail).
Proof.
  unfold write_response, response_payload. rewrite app_assoc.
  apply andthen_writes; [apply andthen_writes; apply u32_writes|].
  assert (Hkeep : writes keep []) by apply writes_nil.
  pose proof (diagnostic_text_short diagnostic) as Hs. pose proof (zlen_nonneg (diagnostic_text diagnostic)).
  rewrite (u32_id (zlen _)) by (unfold is_u32, KSD_ERROR_MESSAGE_CAPACITY in *; lia).
  destruct (status =? KSD_STATUS_OK); cbn [negb andb].
  - apply (andthen_writes keep _ []); [done|]. by apply (bytes_writes (Some tail)).
  - rewrite <- (app_nil_r (match diagnostic with None => _ | Some _ => _ end)). apply andthen_writes; [|done].
    destruct diagnostic as [d|]; [|by rewrite bool_decide_true].
    rewrite bool_decide_false by done. cbn [negb]. apply andthen_writes; [apply u32_writes|].
    by apply (bytes_writes (Some _)).
Qed.

Lemma zlen_response_payload status detail diagnostic tail :
  zlen tail + 8 <= response_limit ->
  8 <= zlen (response_payload status detail diagnostic tail) <= response_limit.
Proof.
  intros Ht. unfold response_payload. rewrite !zlen_app, !zlen_encode_u32. pose proof (zlen_nonneg tail).
  pose proof (diagnostic_text_short diagnostic). pose proof (zlen_nonneg (diagnostic_text diagnostic)).
  unfold response_limit, KSD_MAX_CAPTURE_BYTES, KSD_ERROR_MESSAGE_CAPACITY in *. case_match; [lia|].
  destruct diagnostic; rewrite ?zlen_app, ?zlen_encode_u32; [lia|]. change (zlen []) with 0. lia.
Qed.

Lemma build_response_spec request status detail diagnostic tail more :
  fr_request_id request <> 0 -> (status = KSD_STATUS_OK -> diagnostic_text diagnostic = []) ->
  zlen tail + 8 <= response_limit ->
  build_response request status detail diagnostic (Some tail) (zlen tail) more =
  Some (response_of request more (response_payload status detail diagnostic tail)).
Proof.
  intros Hid Hd Ht. unfold build_response. rewrite (proj2 (Z.eqb_neq _ _) Hid).
  rewrite (bool_decide_eq_false_2 (Some tail = None)), andb_false_r by done.
  replace ((status =? KSD_STATUS_OK) && negb (zlen (diagnostic_text diagnostic) =? 0)) with false.
  2:{ destruct (Z.eqb_spec status KSD_STATUS_OK) as [E|]; [|done]. by rewrite (Hd E). }
  cbn [orb negb]. pose proof (zlen_response_payload status detail diagnostic tail Ht) as Hz.
  destruct (writes_total _ _ (ksd_buffer_init (KSD_MAX_CAPTURE_BYTES + 64))
    (write_response_writes status detail diagnostic tail)) as (b & -> & Hb & Hm & Hbs).
  { apply buffer_init_wf. by vm_compute. }
  { apply Hz. }
  change (buf_bytes (ksd_buffer_init _)) with (@nil byte) in Hbs. cbn [app] in Hbs.
  unfold buf_length. rewrite Hbs. unfold response_limit, KSD_MAX_CAPTURE_BYTES in Hz.
  rewrite (proj2 (Z.ltb_ge _ _)) by (unfold UINT32_MAX; lia). cbn [negb orb].
  rewrite u32_id by (unfold is_u32; lia). by destruct more.
Qed.

Lemma response_of_wf request more payload :
  frame_wf request -> fr_request_id request <> 0 -> 0 < zlen payload <= response_limit ->
  frame_wf (response_of request more payload) /\
  frame_header_acceptable (public_rules response_limit) (response_of request more payload) = true.
Proof.
  intros ((_ & _ & _ & Hop & _ & _ & Hid) & _) Hne Hz. split.
  - unfold frame_wf, header_wf, response_of; cbn [fr_magic fr_major fr_minor fr_opcode fr_flags fr_payload_length
      fr_request_id fr_payload]. unfold is_u16, is_u32, is_u64, KSD_PROTOCOL_MAJOR, KSD_PROTOCOL_MINOR, response_limit,
      KSD_MAX_CAPTURE_BYTES in *. split; [|split; [done|split; [done|lia]]].
    split; [done|]. split; [lia|]. split; [lia|]. split; [done|]. split; [destruct more; lia|]. split; [lia|done].
  - unfold frame_header_acceptable, response_of, public_rules; cbn [fr_magic fr_major fr_minor fr_payload_length
      rule_magic rule_major rule_minor rule_maximum_payload rule_public negb orb].
    rewrite (proj2 (Z.leb_le _ _)) by lia. unfold bytes_eqb. rewrite bool_decide_true, !Z.eqb_refl by done.
    unfold valid_public_header, has_flag; cbn [fr_flags fr_request_id fr_opcode]. rewrite (proj2 (Z.eqb_neq _ _) Hne).
    by destruct more.
Qed.

Lemma set_error_diagnostic detail d :
  Forall (fun b => b2z b <> 0) (default [] d) ->
  set_error detail 0 (option_map (fun _ => diagnostic_text d) d) = mk_error detail 0 (diagnostic_text d).
Proof.
  intros H. unfold set_error. f_equal. pose proof (diagnostic_text_short d) as Hs. destruct d as [d|]; [|done].
  cbn [option_map default from_option id]. rewrite until_nul_id.
  - apply ztake_all. unfold KSD_ERROR_MESSAGE_CAPACITY in *. lia.
  - unfold diagnostic_text. apply Forall_take. exact H.
Qed.

(** Reading the payload of a failure. *)
Lemma parse_message_spec c d :
  cursor_wf c ->
  cursor_rest c = match d with None => [] | Some _ => ksd_encode_u32 (zlen (diagnostic_text d)) ++ diagnostic_text d end ->
  parse_message c = Some (option_map (fun _ => diagnostic_text d) d).
Proof.
  intros Hwf Hr. unfold parse_message. pose proof (cursor_finished_rest c Hwf) as Hf. destruct d as [d|].
  2:{ by rewrite (proj2 Hf Hr). }
  destruct (ksd_cursor_finished c); [pose proof (proj1 Hf eq_refl) as E; by rewrite E in Hr|]. clear Hf.
  pose proof (diagnostic_text_short (Some d)) as Hs. pose proof (zlen_nonneg (diagnostic_text (Some d))) as Hn.
  unfold KSD_ERROR_MESSAGE_CAPACITY in *.
  destruct (reads_u32 (zlen (diagnostic_text (Some d))) ltac:(unfold is_u32; lia) c (diagnostic_text (Some d)) Hwf Hr)
    as (c1 & -> & Hwf1 & Hr1).
  rewrite (proj2 (Z.leb_gt _ _)) by lia. cbn [negb]. rewrite <- (app_nil_r (diagnostic_text (Some d))) in Hr1.
  destruct (cursor_bytes_app c1 _ [] Hwf1 Hr1) as (c2 & -> & Hwf2 & Hr2).
  rewrite (proj2 (cursor_finished_rest c2 Hwf2) Hr2), diagnostic_text_valid. done.
Qed.

Lemma parse_response_spec request status detail diagnostic tail more :
  is_u32 status -> valid_status status = true -> is_u32 detail -> zlen tail + 8 <= response_limit ->
  (status <> KSD_STATUS_OK -> more = false) -> Forall (fun b => b2z b <> 0) (default [] diagnostic) ->
  parse_response (response_of request more (response_payload status detail diagnostic tail))
    (fr_opcode request) (fr_request_id request) =
  Some (if status =? KSD_STATUS_OK then (mk_response status detail tail, no_error)
        else (mk_response status detail [], mk_error detail 0 (diagnostic_text diagnostic))).
Proof.
  intros Hs Hv Hd Ht Hm Hnul. unfold parse_response. pose proof (zlen_response_payload status detail diagnostic tail Ht) as Hz.
  set (payload := response_payload _ _ _ _) in *. cbn [response_of fr_opcode fr_request_id fr_flags fr_payload_length fr_payload].
  rewrite !Z.eqb_refl, (proj2 (Z.ltb_ge _ _)) by lia. replace (Z.land (if more then 5 else 1) KSD_FLAG_RESPONSE =? 0)
    with false by by destruct more. replace (Z.land (if more then 5 else 1) KSD_FLAG_EVENT =? 0) with true by by destruct more.
  cbn [negb orb default from_option id]. cbv zeta. pose proof (cursor_init_wf payload) as Hwf.
  pose proof (cursor_init_rest payload (zlen payload)) as Hr. unfold payload at 3, response_payload in Hr.
  destruct (reads_u32 status Hs _ _ Hwf Hr) as (c1 & -> & Hwf1 & Hr1).
  destruct (reads_u32 detail Hd _ _ Hwf1 Hr1) as (c2 & -> & Hwf2 & Hr2). rewrite Hv.
  destruct (Z.eqb_spec status KSD_STATUS_OK) as [E|E]; [by rewrite Hr2|]. rewrite (Hm E).
  change (negb (negb (Z.land 1 KSD_FLAG_MORE =? 0))) with true. rewrite (parse_message_spec _ _ Hwf2 Hr2).
  by rewrite set_error_diagnostic.
Qed.

(** The tail as it is sent. *)
Definition full_tail (opcode status effective_sequence : Z) (tail : list byte) : list byte :=
  if (status =? KSD_STATUS_OK) && ksd_state_mutates_windows opcode
  then tail ++ ksd_encode_u64 effective_sequence else tail.

Lemma zlen_full_tail opcode status n tail : zlen tail <= zlen (full_tail opcode status n tail) <= zlen tail + 8.
Proof. unfold full_tail. case_match; rewrite ?zlen_app, ?zlen_encode_u64; lia. Qed.

Lemma sequenced_tail_spec opcode status n tail (t := full_tail opcode status n tail) :
  zlen tail + 16 <= response_limit -> sequenced_tail opcode status n (Some tail) (zlen tail) = Some (Some t, zlen t).
Proof.
  intros Ht. unfold sequenced_tail, t, full_tail. case_match; [|done].
  destruct (writes_total _ _ (ksd_buffer_init (KSD_MAX_CAPTURE_BYTES + 64))
    (andthen_writes _ _ _ _ (bytes_writes (Some tail) (zlen tail) eq_refl) (u64_writes n))) as (b & -> & _ & _ & Hb).
  { apply buffer_init_wf. by vm_compute. }
  { change (buf_length _) with 0. cbn [default from_option id]. rewrite zlen_app, zlen_encode_u64.
    unfold response_limit in Ht. cbn [ksd_buffer_init buf_maximum]. lia. }
  change (buf_bytes (ksd_buffer_init _)) with (@nil byte) in Hb. cbn [app default from_option id] in Hb.
  unfold buf_length. rewrite Hb. pose proof (zlen_nonneg tail). rewrite u32_id; [done|].
  rewrite zlen_app, zlen_encode_u64. unfold is_u32, response_limit, KSD_MAX_CAPTURE_BYTES in *. lia.
Qed.

Lemma response_frame_spec n request status detail diagnostic tail more
    (r := response_of request more (response_payload status detail diagnostic (full_tail (fr_opcode request) status n tail))) :
  frame_wf request -> fr_request_id request <> 0 -> zlen tail + 16 <= response_limit ->
  (status = KSD_STATUS_OK -> diagnostic_text diagnostic = []) ->
  response_frame n request status detail diagnostic (Some tail) (zlen tail) more = Some r /\
  frame_wf r /\ frame_header_acceptable (public_rules response_limit) r = true.
Proof.
  intros Hwf Hid Ht Hok. pose proof (zlen_full_tail (fr_opcode request) status n tail) as Hf.
  unfold response_frame. rewrite sequenced_tail_spec by done. rewrite build_response_spec by (done || lia).
  split; [done|]. apply response_of_wf; [done..|].
  pose proof (zlen_response_payload status detail diagnostic (full_tail (fr_opcode request) status n tail)). lia.
Qed.

Lemma take_response_spec n m request status detail diagnostic tail more (success := status =? KSD_STATUS_OK) :
  is_u32 status -> valid_status status = true -> is_u32 detail -> is_u64 n -> zlen tail + 16 <= response_limit ->
  (status <> KSD_STATUS_OK -> more = false) -> Forall (fun b => b2z b <> 0) (default [] diagnostic) ->
  take_response
    (response_of request more (response_payload status detail diagnostic (full_tail (fr_opcode request) status n tail)))
    (fr_opcode request) (fr_request_id request) m =
  Some (mk_response status detail (if success then tail else []),
        if success then no_error else mk_error detail 0 (diagnostic_text diagnostic),
        if success && ksd_state_mutates_windows (fr_opcode request) then n else m).
Proof.
  intros Hs Hv Hd Hn Ht Hm Hnul. pose proof (zlen_full_tail (fr_opcode request) status n tail) as Hf.
  unfold take_response. rewrite parse_response_spec by (done || lia). unfold full_tail, success in *. clear success.
  destruct (status =? KSD_STATUS_OK) eqn:Es; cbn [rs_status rs_detail rs_tail]; rewrite Es; cbn [andb] in *; [|done].
  destruct (ksd_state_mutates_windows (fr_opcode request)); [|done]. pose proof (zlen_nonneg tail).
  rewrite zlen_app, zlen_encode_u64, (proj2 (Z.ltb_ge _ _)) by lia. cbn [negb]. rewrite Z.add_simpl_r.
  rewrite ztake_app_l, zdrop_app_l, <- (app_nil_r (ksd_encode_u64 _)), decode_encode_u64. by rewrite u64_id.
Qed.

(** A response says to the client what the authority meant: for every
    request with an id, the frame built for a status the protocol names is one
    the client's reader accepts and its parser reads back as that status and
    detail, with the tail of a success and the message of a failure; a successful
    window mutation also carries the sequence the connection then keeps, and its
    caller's tail is as given.  A diagnostic that is valid UTF-8 and fits the
    client's buffer arrives whole, any other as a valid prefix. *)
Theorem response_roundtrip effective_sequence sequence request status detail diagnostic tail more :
  frame_wf request -> fr_request_id request <> 0 -> is_u32 status -> valid_status status = true -> is_u32 detail ->
  is_u64 effective_sequence -> zlen tail + 16 <= response_limit -> (status = KSD_STATUS_OK -> diagnostic = None) ->
  (status <> KSD_STATUS_OK -> more = false) -> Forall (fun b => b2z b <> 0) (default [] diagnostic) ->
  let success := status =? KSD_STATUS_OK in
  (exists response,
     response_frame effective_sequence request status detail diagnostic (Some tail) (zlen tail) more = Some response /\
     frame_wf response /\ frame_header_acceptable (public_rules response_limit) response = true /\
     take_response response (fr_opcode request) (fr_request_id request) sequence =
     Some (mk_response status detail (if success then tail else []),
           if success then no_error else mk_error detail 0 (diagnostic_text diagnostic),
           if success && ksd_state_mutates_windows (fr_opcode request) then effective_sequence else sequence)) /\
  (forall d, diagnostic = Some d ->
     (exists n, diagnostic_text diagnostic = take n d) /\ ksd_utf8_valid (diagnostic_text diagnostic) false = true /\
     (ksd_utf8_valid d false = true -> zlen d < KSD_ERROR_MESSAGE_CAPACITY -> diagnostic_text diagnostic = d)).
Proof.
  intros Hwf Hid Hs Hv Hd Hseq Ht Hok Hm Hnul success. split.
  - destruct (response_frame_spec effective_sequence request status detail diagnostic tail more Hwf Hid Ht) as (H1 & H2 & H3);
      [intros E; by rewrite (Hok E)|]. eexists. split; [exact H1|]. split; [exact H2|]. split; [exact H3|].
    by apply take_response_spec.
  - intros d ->. split; [|split; [apply diagnostic_text_valid|]]; unfold diagnostic_text; [by eexists|]. intros Hvd Hl.
    rewrite (proj2 (Z.leb_gt _ _)) by lia. destruct (trim_utf8_spec (Z.to_nat (zlen d)) d) as (_ & _ & H).
    specialize (H (length d) ltac:(unfold zlen; lia) ltac:(by rewrite firstn_all)). apply take_ge. done.
Qed.
End roundtrip.

(** A revocation reaches the client as it was sent: an authority that revokes
    scopes from a connection without a lease's socket writes one frame, and the
    client drops exactly those scopes and no others. *)
Theorem revocation_roundtrip granted scopes :
  is_u32 granted -> is_u32 scopes -> scopes <> 0 ->
  let frame := event_message KSD_OP_SESSION_REVOKED (ksd_encode_u32 scopes ++ ksd_encode_u32 0) in
  frame_wf frame /\ frame_header_acceptable (public_rules response_limit) frame = true /\
  exists left, apply_revoked_event granted frame = Some (left, scopes) /\
    forall i, 0 <= i -> Z.testbit left i = Z.testbit granted i && negb (Z.testbit scopes i).
Proof.
  intros Hg Hs Hne frame. assert (Hz : zlen (ksd_encode_u32 scopes ++ ksd_encode_u32 0) = 8)
    by by rewrite zlen_app, !zlen_encode_u32.
  split; [|split].
  - unfold frame_wf, header_wf, frame, event_message; cbn [fr_magic fr_major fr_minor fr_opcode fr_flags
      fr_payload_length fr_request_id fr_payload default from_option id]. rewrite Hz. by vm_compute.
  - unfold frame_header_acceptable, frame, event_message; cbn [fr_magic fr_major fr_minor fr_payload_length]. by rewrite Hz.
  - unfold apply_revoked_event, frame, event_message; cbn [fr_opcode fr_flags fr_request_id fr_payload_length fr_payload
      default from_option id]. rewrite Hz, <- (zlen_encode_u32 scopes), zdrop_app_l, decode_encode_u32.
    replace (ksd_decode_u32 (ksd_encode_u32 0)) with 0 by by vm_compute. rewrite u32_id by done.
    rewrite (proj2 (Z.eqb_neq _ _) Hne). cbn. eexists. split; [done|]. intros i Hi.
    by rewrite Z.land_spec, Z.lnot_spec.
Qed.

(** ** Witnesses *)

Definition sample_request : ksd_frame :=
  mk_frame ksd_public_magic KSD_PROTOCOL_MAJOR KSD_PROTOCOL_MINOR KSD_OP_WINDOW_SET_TITLE 0 0 7 None.

Lemma response_roundtrip_witness :
  exists response,
    response_frame (AL := infinite_memory) 41 sample_request KSD_STATUS_OK 0 None (Some [x0a; x0b]) 2 false = Some response /\
    take_response response KSD_OP_WINDOW_SET_TITLE 7 3 = Some (mk_response KSD_STATUS_OK 0 [x0a; x0b], no_error, 41).
Proof.
  destruct (response_roundtrip (AL := infinite_memory) 41 3 sample_request KSD_STATUS_OK 0 None [x0a; x0b] false)
    as [(response & H1 & _ & _ & H2) _].
  - vm_compute. intuition discriminate.
  - discriminate.
  - vm_compute. intuition discriminate.
  - reflexivity.
  - vm_compute. intuition discriminate.
  - vm_compute. intuition discriminate.
  - vm_compute. discriminate.
  - reflexivity.
  - intros H. exfalso. apply H. reflexivity.
  - constructor.
  - exists response. split; [exact H1|exact H2].
Defined.

Lemma revocation_roundtrip_witness :
  apply_revoked_event 0x85 (event_message KSD_OP_SESSION_REVOKED (ksd_encode_u32 4 ++ ksd_encode_u32 0)) = Some (0x81, 4) /\
  exists left,
    apply_revoked_event 0x85 (event_message KSD_OP_SESSION_REVOKED (ksd_encode_u32 4 ++ ksd_encode_u32 0)) = Some (left, 4).
Proof.
  split; [vm_compute; reflexivity|].
  destruct (revocation_roundtrip 0x85 4) as (_ & _ & left & H & _).
  - vm_compute. intuition discriminate.
  - vm_compute. intuition discriminate.
  - discriminate.
  - exists left. exact H.
Defined.
