(* ===== verification/Authorize.v ===== *)
(** * Permissions of a session (src/authorityd.c)

    How scopes are granted to an application, kept in line with the permission
    store, and taken away.  The store, process identities and the consent of the
    user belong to the keysharp-permissions library, whose functions are the
    members of [PermissionStore] and the answers in the arguments; between two
    calls anyone may have changed the store, so each call has its own.  A call
    with an output argument takes the value it had and gives the one it leaves,
    with whether the call succeeded. *)
From Stdlib Require Import ZArith Lia Strings.Byte Strings.String.
From stdpp Require Import base list option numbers tactics.
From S2P Require Import Prelude.
From S2P Require Import Protocol.
From S2P Require Import Codec.
From S2P Require Import Buffer.
From S2P Require Import Transport.
From S2P Require Import Frame.
From S2P Require Import StateWire.
From S2P Require Import Lease.
From S2P Require Import Response.
Local Open Scope Z_scope.
Local Open Scope ksd_scope.

(** The store: [ksp_store_generation] and [ksp_store_check_at_generation] of a
    user, and [ksp_store_grant_if_generation], 0 on success. *)
Class PermissionStore (S : Type) := {
  ksp_store_generation : S -> Z -> Z -> bool * Z;
  ksp_store_check_at_generation : S -> Z -> list byte -> Z -> Z -> Z -> bool * Z * Z;
  ksp_store_grant_if_generation : S -> ksp_identity -> Z -> Z -> Z * S;
}.

(** What docs/permission-store.md promises of it: a check tells the generation it
    was made at, and generation fencing, so a grant made for an older generation
    than the store's does nothing. *)
Class StoreLaws (S : Type) {PS : PermissionStore S} : Prop := {
  check_generation : forall s uid hash scopes g0 n0 granted n,
    ksp_store_check_at_generation s uid hash scopes g0 n0 = (true, granted, n) ->
    forall n1, ksp_store_generation s uid n1 = (true, n);
  grant_fenced : forall s id scopes n s',
    ksp_store_grant_if_generation s id scopes n = (0, s') -> forall n1, ksp_store_generation s (id_uid id) n1 = (true, n);
  grant_refused : forall s id scopes n r s',
    ksp_store_grant_if_generation s id scopes n = (r, s') -> r <> 0 -> s' = s;
}.

Inductive ksp_polkit_result :=
  PolkitGranted | PolkitDenied | PolkitCancelled | PolkitIdentityChanged | PolkitNoAgent | PolkitUnavailable.

(** The part of a session the permissions are kept in; when its identity was last
    checked, which decides only how often it is checked again, is left out. *)
Record authority_session := mk_session {
  se_identity : ksp_identity;
  se_requested_scopes : Z;
  se_granted_scopes : Z;
  se_generation : Z;
}.

(** A verified identity that is still the one the session or lease has. *)
Definition still (identity : ksp_identity) (verified : option ksp_identity) : bool :=
  match verified with Some v => same_identity identity v | None => false end.

Definition grant_event (kind granted revoked : Z) : ksd_state_event :=
  mk_event kind KSD_STATE_GRANTS 0 0 ksd_window_record_init None granted revoked.

(** Losing a scope ends the subscriptions that need it. *)
Definition remaining_domains (domains revoked : Z) : Z :=
  let domains := if Z.land revoked KSD_SCOPE_WINDOW_MONITORING =? 0 then domains
                 else Z.land domains (u32 (Z.lnot KSD_STATE_WINDOWS)) in
  if Z.land revoked KSD_SCOPE_CLIPBOARD_MONITORING =? 0 then domains
  else Z.land domains (u32 (Z.lnot KSD_STATE_CLIPBOARD)).
Definition with_domains (l : authority_lease) (domains : Z) : authority_lease :=
  with_scopes l (lease_active l) (lease_requested_scopes l) (lease_granted_scopes l) domains (lease_generation l).

Section permissions.
Context {AL : Allocator} {S : Type} {PS : PermissionStore S}.

(** ** Keeping up with the store *)

(** The permissions of a lease as the store has them now: whether they could be
    established, the scopes, the generation and whether that moved. *)
Definition refreshed_grant (s : S) (verified : option ksp_identity) (force_identity : bool) (lease : authority_lease)
    : bool * Z * Z * bool :=
  let uid := id_uid (lease_identity lease) in
  let '(ok, generation) := if lease_active lease then ksp_store_generation s uid (lease_generation lease)
                           else (false, lease_generation lease) in
  let ok := if ok && force_identity then still (lease_identity lease) verified else ok in
  let changed := negb (generation =? lease_generation lease) in
  let '(ok, granted, generation) :=
    if ok && changed && negb (lease_requested_scopes lease =? 0)
    then ksp_store_check_at_generation s uid (id_hash (lease_identity lease)) (lease_requested_scopes lease)
           (lease_granted_scopes lease) generation
    else (ok, lease_granted_scopes lease, generation) in
  (ok, if ok then granted else 0, generation, changed).

(** [session_refresh] of a session with a lease: the answer, the session, the
    lease, whether the generation changed and what the client is sent. *)
Definition session_refresh (calls : list plain_outcome) (s : S) (verified : option ksp_identity)
    (force_identity notify : bool) (lease : authority_lease)
    : option (bool * authority_session * authority_lease * bool * list byte) :=
  let '(ok, granted, generation, changed) := refreshed_grant s verified force_identity lease in
  let revoked := Z.land (lease_granted_scopes lease) (u32 (Z.lnot granted)) in
  let grants_changed := negb (lease_granted_scopes lease =? granted) in
  let lease := with_scopes lease (lease_active lease) (lease_requested_scopes lease) granted (lease_domains lease)
                 generation in
  let session := mk_session (lease_identity lease) (lease_requested_scopes lease) granted generation in
  if grants_changed && notify then
    let* (r, out) := lease_emit calls (next_sequence lease 4) (grant_event KSD_STATE_GRANT_CHANGED granted revoked) in
    let '(sent, lease) := r in
    Some (sent && ok, session, with_domains lease (remaining_domains (lease_domains lease) revoked), changed, out)
  else Some (ok, session, lease, changed, []).

(** A session that has no lease: its identity, checked again. *)
Definition session_identity_refresh (verified : option ksp_identity) (session : authority_session)
    : option authority_session :=
  match verified with
  | Some v =>
    if same_identity (se_identity session) v
    then Some (mk_session v (se_requested_scopes session) (se_granted_scopes session) (se_generation session)) else None
  | None => None
  end.

(** What a refresh of such a session comes to before anything is sent: the session
    it leaves, the scopes revoked, whether the generation changed. *)
Definition refreshed_session (s : S) (verified : option ksp_identity) (force_identity : bool) (session : authority_session)
    : bool * authority_session * Z * bool :=
  let failed session :=
    (false, mk_session (se_identity session) (se_requested_scopes session) 0 (se_generation session),
     se_granted_scopes session, false) in
  let '(ok, generation) := ksp_store_generation s (id_uid (se_identity session)) 0 in
  if negb ok then failed session
  else
    let moved := negb (generation =? se_generation session) in
    match (if force_identity || moved then session_identity_refresh verified session else Some session) with
    | None => failed session
    | Some session =>
      let '(ok, allowed, generation) :=
        if moved
        then ksp_store_check_at_generation s (id_uid (se_identity session)) (id_hash (se_identity session))
               (se_requested_scopes session) (se_granted_scopes session) generation
        else (true, se_granted_scopes session, generation) in
      if negb ok then failed session
      else
        (true, mk_session (se_identity session) (se_requested_scopes session) allowed generation,
         Z.land (se_granted_scopes session) (u32 (Z.lnot allowed)), negb (generation =? se_generation session))
    end.

(** [session_refresh] without a lease. *)
Definition session_refresh_unleased (calls : forward_calls) (role : Z) (s : S) (verified : option ksp_identity)
    (force_identity notify : bool) (session : authority_session)
    : option (bool * authority_session * bool * list byte) :=
  if se_requested_scopes session =? 0 then
    if negb force_identity then Some (true, session, false, [])
    else
      match session_identity_refresh verified session with
      | Some session => Some (true, session, false, [])
      | None => Some (false, session, false, [])
      end
  else
    let '(ok, session, revoked, changed) := refreshed_session s verified force_identity session in
    if notify then
      let* r := send_revoked calls role None revoked in
      let '(sent, _, out) := r in
      Some (ok && sent, session, changed, out)
    else Some (ok, session, changed, []).

(** ** Asking for scopes *)

(** What happens around [authorize_scopes], in its order: the store at the first
    check; whether the prompt lock was taken, or the client had gone; the
    identity and the store under the lock; the user's decision; the identity
    and the store at the grant; and what others do before the last check. *)
Record authorize_world := mk_world {
  aw_first : S;
  aw_lock : bool;
  aw_disconnected : bool;
  aw_verified : option ksp_identity;
  aw_locked : S;
  aw_decision : ksp_polkit_result;
  aw_reverified : option ksp_identity;
  aw_granting : S;
  aw_meanwhile : S -> S;
}.

(** Besides the results: the scopes the user was asked for, the store after the
    grant if one was attempted. *)
Record authorize_outcome := mk_outcome {
  ao_status : Z;
  ao_detail : Z;
  ao_granted : Z;
  ao_session : authority_session;
  ao_asked : option Z;
  ao_store : option S;
}.

Definition with_grant (session : authority_session) (identity : ksp_identity) (granted generation : Z) : authority_session :=
  mk_session identity (se_requested_scopes session) granted generation.

(** After the user consented to [missing]. *)
Definition grant_missing (w : authorize_world) (session : authority_session) (requested missing generation : Z)
    : authorize_outcome :=
  let failed status store :=
    mk_outcome status 0 (se_granted_scopes session) session (Some missing) store in
  match aw_reverified w with
  | None => failed KSD_STATUS_CANCELLED None
  | Some verified =>
    if negb (same_identity (se_identity session) verified) then failed KSD_STATUS_CANCELLED None
    else
      let '(added, store) := ksp_store_grant_if_generation (aw_granting w) verified missing generation in
      if negb (added =? 0)
      then failed (if 0 <? added then KSD_STATUS_REVOKED else KSD_STATUS_INTERNAL) (Some store)
      else
        let '(ok, allowed, generation) :=
          ksp_store_check_at_generation (aw_meanwhile w store) (id_uid verified) (id_hash verified)
            (se_requested_scopes session) (se_granted_scopes session) (se_generation session) in
        if negb ok
        then mk_outcome KSD_STATUS_INTERNAL 0 (se_granted_scopes session)
               (with_grant session verified (se_granted_scopes session) generation) (Some missing) (Some store)
        else
          mk_outcome (if Z.land allowed requested =? requested then KSD_STATUS_OK else KSD_STATUS_REVOKED) 0 allowed
            (with_grant session verified allowed generation) (Some missing) (Some store)
  end.

(** Under the prompt lock. *)
Definition prompt_for_scopes (w : authorize_world) (session : authority_session) (requested : Z) : authorize_outcome :=
  let stop status session := mk_outcome status 0 (se_granted_scopes session) session None None in
  match aw_verified w with
  | None => stop KSD_STATUS_CANCELLED session
  | Some verified =>
    if negb (same_identity (se_identity session) verified) then stop KSD_STATUS_CANCELLED session
    else
      let '(ok, allowed, generation) :=
        ksp_store_check_at_generation (aw_locked w) (id_uid verified) (id_hash verified) (se_requested_scopes session)
          (se_granted_scopes session) (se_generation session) in
      if negb ok then stop KSD_STATUS_INTERNAL (with_grant session verified (se_granted_scopes session) (se_generation session))
      else
        let session := with_grant session verified allowed generation in
        let missing := Z.land requested (u32 (Z.lnot allowed)) in
        if missing =? 0 then stop KSD_STATUS_OK session
        else
          let refused status detail := mk_outcome status detail (se_granted_scopes session) session (Some missing) None in
          match aw_decision w with
          | PolkitGranted => grant_missing w session requested missing generation
          | PolkitDenied => refused KSD_STATUS_DENIED 0
          | PolkitCancelled | PolkitIdentityChanged => refused KSD_STATUS_CANCELLED 0
          | PolkitNoAgent => refused KSD_STATUS_UNAVAILABLE KSD_ERROR_DETAIL_NO_AUTHENTICATION_AGENT
          | PolkitUnavailable => refused KSD_STATUS_UNAVAILABLE 0
          end
  end.

Definition authorize_scopes (w : authorize_world) (session : authority_session) (requested auth_mode : Z)
    : authorize_outcome :=
  let stop status granted session := mk_outcome status 0 granted session None None in
  if (requested =? 0) || negb (Z.land requested (u32 (Z.lnot KSD_DESKTOP_ACCEPTED_SCOPES)) =? 0)
     || (negb (auth_mode =? KSD_AUTH_CHECK) && negb (auth_mode =? KSD_AUTH_REQUEST))
  then stop KSD_STATUS_INVALID_REQUEST (se_granted_scopes session) session
  else
    let asked := mk_session (se_identity session) (Z.lor (se_requested_scopes session) requested)
                   (se_granted_scopes session) (se_generation session) in
    let '(ok, allowed, generation) :=
      ksp_store_check_at_generation (aw_first w) (id_uid (se_identity session)) (id_hash (se_identity session))
        (se_requested_scopes asked) 0 0 in
    if negb ok then stop KSD_STATUS_INTERNAL (se_granted_scopes session) asked
    else
      let known := with_grant asked (se_identity session) allowed generation in
      if Z.land allowed requested =? requested then stop KSD_STATUS_OK allowed known
      else if auth_mode =? KSD_AUTH_CHECK then stop KSD_STATUS_DENIED allowed known
      else if negb (aw_lock w)
      then stop (if aw_disconnected w then KSD_STATUS_CANCELLED else KSD_STATUS_INTERNAL) (se_granted_scopes session) known
      else prompt_for_scopes w known requested.

(** ** After asking *)

(** The lease takes over what was decided, as the store has it by then. *)
Definition completed_grant (s : S) (verified : option ksp_identity) (lease : authority_lease) (requested_scopes : Z)
    : bool * Z * Z :=
  if lease_active lease && still (lease_identity lease) verified then
    if requested_scopes =? 0 then
      let '(current, generation) := ksp_store_generation s (id_uid (lease_identity lease)) (lease_generation lease) in
      (current, 0, generation)
    else
      ksp_store_check_at_generation s (id_uid (lease_identity lease)) (id_hash (lease_identity lease)) requested_scopes 0
        (lease_generation lease)
  else (false, 0, lease_generation lease).

Definition inactive (l : authority_lease) : authority_lease :=
  with_scopes l false (lease_requested_scopes l) (lease_granted_scopes l) (lease_domains l) (lease_generation l).

(** The answer, the status to report, the session, the lease and what is sent. *)
Definition complete_authorization (calls : list plain_outcome) (s : S) (verified : option ksp_identity)
    (session : authority_session) (lease : authority_lease) (requested status : Z)
    : option (bool * Z * authority_session * authority_lease * list byte) :=
  let requested_scopes := Z.lor (lease_requested_scopes lease) (se_requested_scopes session) in
  let '(current, granted, generation) := completed_grant s verified lease requested_scopes in
  let revoked := Z.land (lease_granted_scopes lease) (u32 (Z.lnot granted)) in
  let changed := negb (lease_granted_scopes lease =? granted) in
  let lease := with_scopes lease (lease_active lease) requested_scopes granted
                 (remaining_domains (lease_domains lease) revoked) generation in
  let session := mk_session (se_identity session) requested_scopes granted generation in
  let* (r, out) :=
    if changed
    then lease_emit calls (next_sequence lease 4) (grant_event KSD_STATE_GRANT_CHANGED granted revoked)
    else Some (true, lease, []) in
  let '(sent, lease) := r in
  let status := if (status =? KSD_STATUS_OK) && negb (Z.land granted requested =? requested)
                then KSD_STATUS_REVOKED else status in
  Some (current && sent, status, session, if current : bool then lease else inactive lease, out).

(** ** The request *)

(** The AUTHORIZE payload: a mode and the scopes. *)
Definition parse_authorize (payload : list byte) : option (Z * Z) :=
  guard* zlen payload =? 16 in
  let cursor := ksd_cursor_init payload (zlen payload) in
  let* (mode, cursor) := ksd_cursor_u16 cursor in
  let* (reserved0, cursor) := ksd_cursor_u16 cursor in
  let* (scopes, cursor) := ksd_cursor_u32 cursor in
  let* (reserved1, cursor) := ksd_cursor_u64 cursor in
  guard* ksd_cursor_finished cursor && (reserved0 =? 0) && (reserved1 =? 0) in
  Some (mode, scopes).

Definition no_authentication_agent : list byte :=
  cstr "No polkit authentication agent is available for this session. Install and start your desktop authentication agent, then retry.".

Definition authorize_diagnostic (status detail : Z) : list byte :=
  if detail =? KSD_ERROR_DETAIL_NO_AUTHENTICATION_AGENT then no_authentication_agent
  else if status =? KSD_STATUS_DENIED then cstr "permission is not granted"
  else if status =? KSD_STATUS_CANCELLED then cstr "authorization was cancelled"
  else if status =? KSD_STATUS_REVOKED then cstr "permission changed during authorization"
  else if status =? KSD_STATUS_INVALID_REQUEST then cstr "invalid authorization scope or mode"
  else cstr "authorization service unavailable".

(** What surrounds one AUTHORIZE request: the store and the identity when the
    session is refreshed and when the authorization is completed, and the sends
    of the two grant events. *)
Record request_world := mk_request_world {
  rw_refresh_store : S;
  rw_refresh_verified : option ksp_identity;
  rw_refresh_sends : list plain_outcome;
  rw_authorize : authorize_world;
  rw_complete_store : S;
  rw_complete_verified : option ksp_identity;
  rw_complete_sends : list plain_outcome;
}.

(** A response to be forwarded: status, detail, diagnostic and tail. *)
Record reply := mk_reply { rp_status : Z; rp_detail : Z; rp_diagnostic : option (list byte); rp_tail : list byte }.

(** The reply to an AUTHORIZE request, [None] when the connection ends without
    one; the session, the lease, and the events its client was sent. *)
Definition handle_authorize (w : request_world) (role : Z) (session : authority_session) (lease : authority_lease)
    (payload : list byte) : option (option reply * authority_session * authority_lease * list byte) :=
  match parse_authorize payload with
  | None =>
    Some (Some (mk_reply KSD_STATUS_INVALID_REQUEST 0 (Some (cstr "invalid AUTHORIZE payload")) []), session, lease, [])
  | Some (mode, scopes) =>
    if negb (role =? KSD_ROLE_AUTHORIZATION_LEASE) then
      Some (Some (mk_reply KSD_STATUS_INVALID_REQUEST 0
                    (Some (cstr "authorization belongs to the lease connection")) []), session, lease, [])
    else
      let* r := session_refresh (rw_refresh_sends w) (rw_refresh_store w) (rw_refresh_verified w) true true lease in
      let '(ok, session, lease, _, out) := r in
      if negb ok then Some (None, session, lease, out)
      else
        let o := authorize_scopes (rw_authorize w) session scopes mode in
        let* r := complete_authorization (rw_complete_sends w) (rw_complete_store w) (rw_complete_verified w)
                    (ao_session o) lease scopes (ao_status o) in
        let '(ok, status, session, lease, out') := r in
        let detail := ao_detail o in
        let reply :=
          if negb (status =? KSD_STATUS_OK) then mk_reply status detail (Some (authorize_diagnostic status detail)) []
          else mk_reply KSD_STATUS_OK 0 None (ksd_encode_u32 (se_granted_scopes session) ++ ksd_encode_u32 0) in
        Some (if ok : bool then Some reply else None, session, lease, out ++ out')
  end.
End permissions.

(** ** Bits of scopes and domains *)

Lemma has_bit x i : 0 <= i -> negb (Z.land x (2 ^ i) =? 0) = Z.testbit x i.
Proof.
  intros Hi. destruct (Z.testbit x i) eqn:E.
  - apply negb_true_iff, Z.eqb_neq. intros H. apply (f_equal (fun z => Z.testbit z i)) in H.
    rewrite Z.land_spec, Z.pow2_bits_true, Z.bits_0, E in H by done. done.
  - apply negb_false_iff, Z.eqb_eq. apply Z.bits_inj'. intros j Hj.
    rewrite Z.land_spec, Z.pow2_bits_eqb, Z.bits_0 by done. destruct (Z.eqb_spec i j) as [<-|]; [by rewrite E|].
    apply andb_false_r.
Qed.

Lemma mask_bit m i : 0 <= i < 32 -> Z.testbit (u32 (Z.lnot m)) i = negb (Z.testbit m i).
Proof. intros Hi. unfold u32. rewrite Z.mod_pow2_bits_low by lia. rewrite Z.lnot_spec by lia. done. Qed.

(** A subscription that needs a scope has it, while the lease lives. *)
Definition domains_granted (l : authority_lease) : Prop :=
  lease_active l = true ->
  (negb (Z.land (lease_domains l) KSD_STATE_WINDOWS =? 0) = true ->
   negb (Z.land (lease_granted_scopes l) KSD_SCOPE_WINDOW_MONITORING =? 0) = true) /\
  (negb (Z.land (lease_domains l) KSD_STATE_CLIPBOARD =? 0) = true ->
   negb (Z.land (lease_granted_scopes l) KSD_SCOPE_CLIPBOARD_MONITORING =? 0) = true).

Definition domain_scopes : list (Z * Z) := [(0, 2); (3, 7)].

(** Dropping the domains of the scopes that went away. *)
Lemma remaining_domains_bits domains old granted (revoked := Z.land old (u32 (Z.lnot granted))) :
  Forall (fun '(d, s) => Z.testbit (remaining_domains domains revoked) d =
                         Z.testbit domains d && (negb (Z.testbit old s) || Z.testbit granted s)) domain_scopes.
Proof.
  assert (Hr : forall s, 0 <= s < 32 -> negb (Z.land revoked (2 ^ s) =? 0) = Z.testbit old s && negb (Z.testbit granted s)).
  { intros s Hs. rewrite has_bit by lia. unfold revoked. by rewrite Z.land_spec, mask_bit. }
  pose proof (Hr 2 ltac:(lia)) as H2. pose proof (Hr 7 ltac:(lia)) as H7. unfold remaining_domains.
  change KSD_SCOPE_WINDOW_MONITORING with (2 ^ 2). change KSD_SCOPE_CLIPBOARD_MONITORING with (2 ^ 7).
  apply (f_equal negb) in H2, H7. rewrite negb_involutive in H2, H7. rewrite H2, H7.
  repeat constructor.
  - destruct (Z.testbit old 2), (Z.testbit granted 2), (Z.testbit old 7), (Z.testbit granted 7); cbn [andb negb orb];
      rewrite ?Z.land_spec, ?mask_bit by lia; cbn; by rewrite ?andb_true_r, ?andb_false_r.
  - destruct (Z.testbit old 2), (Z.testbit granted 2), (Z.testbit old 7), (Z.testbit granted 7); cbn [andb negb orb];
      rewrite ?Z.land_spec, ?mask_bit by lia; cbn; by rewrite ?andb_true_r, ?andb_false_r.
Qed.

Lemma domains_granted_bits l :
  domains_granted l <->
  (lease_active l = true ->
   Forall (fun '(d, s) => Z.testbit (lease_domains l) d = true -> Z.testbit (lease_granted_scopes l) s = true) domain_scopes).
Proof.
  unfold domains_granted. change KSD_STATE_WINDOWS with (2 ^ 0). change KSD_STATE_CLIPBOARD with (2 ^ 3).
  change KSD_SCOPE_WINDOW_MONITORING with (2 ^ 2). change KSD_SCOPE_CLIPBOARD_MONITORING with (2 ^ 7).
  rewrite !has_bit by lia. unfold domain_scopes. rewrite !List.Forall_cons_iff. cbn beta. split; intros H Ha; specialize (H Ha).
  - destruct H. split; [done|]. split; [done|constructor].
  - tauto.
Qed.

Lemma domains_kept l l' granted :
  lease_domains l' = remaining_domains (lease_domains l) (Z.land (lease_granted_scopes l) (u32 (Z.lnot granted))) ->
  lease_granted_scopes l' = granted -> (lease_active l' = true -> lease_active l = true) ->
  domains_granted l -> domains_granted l'.
Proof.
  rewrite !domains_granted_bits. intros Hdom -> Ha Hd Ha'. specialize (Hd (Ha Ha')). rewrite Hdom.
  pose proof (remaining_domains_bits (lease_domains l) (lease_granted_scopes l) granted) as Hb.
  clear -Hd Hb. unfold domain_scopes in *. rewrite !List.Forall_cons_iff in *. cbn beta in *.
  destruct Hd as (H1 & H2 & _), Hb as (Hb1 & Hb2 & _). rewrite Hb1, Hb2.
  split; [|split; [|constructor]]; rewrite andb_true_iff, orb_true_iff, negb_true_iff;
    intros [Hx Hy]; destruct Hy; [rewrite H1 in * by done|done|rewrite H2 in * by done|done]; done.
Qed.

(** ** Refreshing *)

Section theorems.
Context {AL : Allocator} {S : Type} {PS : PermissionStore S}.

(** What an emission about the grants leaves of the lease. *)
Lemma emit_kept calls l e ok l' out :
  lease_emit calls (next_sequence l 4) e = Some (ok, l', out) ->
  lease_identity l' = lease_identity l /\ lease_windows l' = lease_windows l /\
  (if ok then l' = next_sequence l 4 else lease_active l' = false).
Proof.
  intros H. destruct ok; [by apply lease_emit_ok in H as [-> _]|].
  apply lease_emit_failed in H as (Ha & Hd & Hl). destruct (lease_active (next_sequence l 4)).
  - by rewrite Hd.
  - by destruct (Hl eq_refl) as [-> _].
Qed.

Lemma emit_grants calls l e ok l' out domains :
  lease_emit calls (next_sequence l 4) e = Some (ok, l', out) ->
  lease_active l = true ->
  let l1 := with_domains l' domains in
  lease_windows l1 = lease_windows l /\ lease_identity l1 = lease_identity l /\
  lease_requested_scopes l1 = lease_requested_scopes l /\ lease_generation l1 = lease_generation l /\
  lease_active l1 = ok /\ lease_granted_scopes l1 = (if ok then lease_granted_scopes l else 0).
Proof.
  intros H Ha. destruct ok.
  - apply lease_emit_ok in H as [-> _]. by rewrite Ha || done.
  - apply lease_emit_failed in H as (_ & Hd & _). rewrite Hd by exact Ha. done.
Qed.

(** The scopes a refresh establishes. *)
Definition established (s : S) (verified : option ksp_identity) (force : bool) (l : authority_lease)
    (granted generation : Z) : Prop :=
  lease_active l = true /\ (force = true -> still (lease_identity l) verified = true) /\
  exists now, ksp_store_generation s (id_uid (lease_identity l)) (lease_generation l) = (true, now) /\
    (if (now =? lease_generation l) || (lease_requested_scopes l =? 0)
     then granted = lease_granted_scopes l /\ generation = now
     else ksp_store_check_at_generation s (id_uid (lease_identity l)) (id_hash (lease_identity l))
            (lease_requested_scopes l) (lease_granted_scopes l) now = (true, granted, generation)).

Lemma refreshed_grant_spec s verified force l ok granted generation changed :
  refreshed_grant s verified force l = (ok, granted, generation, changed) ->
  if ok then established s verified force l granted generation else granted = 0.
Proof.
  unfold refreshed_grant, established. destruct (lease_active l); [|by intros [= <- <- <- <-]].
  destruct (ksp_store_generation _ _ _) as [ok1 now] eqn:Eg. destruct ok1; cbn [andb].
  2:{ by intros [= <- <- <- <-]. }
  destruct force; cbn [andb];
    [destruct (still (lease_identity l) verified); cbn [andb]; [|by intros [= <- <- <- <-]]|];
    (destruct (now =? lease_generation l) eqn:En, (lease_requested_scopes l =? 0) eqn:Er; cbn [negb andb orb];
      [intros [= <- <- <- <-]; split; [done|]; split; [done|]; by exists now; rewrite En, ?Er..|];
     destruct (ksp_store_check_at_generation _ _ _ _ _ _) as [[[] g] n] eqn:Ec; intros [= <- <- <- <-]; [|done];
     split; [done|]; split; [done|]; exists now; by rewrite En).
Qed.

(** What a refresh leaves. *)
Definition refreshed (s : S) (verified : option ksp_identity) (force notify ok : bool) (l l' : authority_lease)
    (session : authority_session) : Prop :=
  lease_identity l' = lease_identity l /\ lease_requested_scopes l' = lease_requested_scopes l /\
  lease_windows l' = lease_windows l /\ (lease_active l' = true -> lease_active l = true) /\
  (if ok then
     established s verified force l (lease_granted_scopes l') (lease_generation l') /\ lease_active l' = true /\
     session = mk_session (lease_identity l) (lease_requested_scopes l) (lease_granted_scopes l') (lease_generation l')
   else lease_granted_scopes l' = 0) /\
  (notify = true -> domains_granted l -> domains_granted l').

Lemma session_refresh_spec calls s verified force notify l ok session l' changed out :
  session_refresh calls s verified force notify l = Some (ok, session, l', changed, out) ->
  refreshed s verified force notify ok l l' session.
Proof.
  unfold session_refresh, refreshed. destruct (refreshed_grant s verified force l) as [[[ok1 granted] generation] ch] eqn:E.
  apply refreshed_grant_spec in E. set (revoked := Z.land _ _).
  set (l1 := with_scopes l _ _ _ _ _). intros H.
  destruct (negb (lease_granted_scopes l =? granted) && notify) eqn:En.
  - destruct (lease_emit _ _ _) as [[[sent l2] out2]|] eqn:Em; [|done]. cbn [from_option] in H.
    injection H as <- <- <- <- <-.
    destruct (lease_active l) eqn:Ha.
    + destruct (emit_grants calls l1 _ sent l2 out2 (remaining_domains (lease_domains l2) revoked) Em eq_refl)
        as (Hw & Hi & Hr & Hg & Hact & Hs).
      split; [done|]. split; [done|]. split; [done|]. split; [done|]. rewrite Hg, Hact, Hs. split.
      * destruct sent; cbn [andb]; [|done]. destruct ok1; [by split|done].
      * intros _ Hd. destruct sent; [|unfold domains_granted; rewrite Hact; congruence].
        apply lease_emit_ok in Em as [-> _]. by apply (domains_kept l _ granted).
    + unfold lease_emit in Em. cbn in Em. injection Em as <- <- <-.
      assert (ok1 = false) as -> by (destruct ok1; [destruct E; congruence|done]). cbn [andb].
      split; [done|]. split; [done|]. split; [done|]. split; [done|]. split; [done|].
      intros _ _. unfold domains_granted. cbn. congruence.
  - injection H as <- <- <- <- <-. split; [done|]. split; [done|]. split; [done|]. split; [done|]. split.
    + destruct ok1; [|done]. split; [done|]. split; [apply E|done].
    + intros -> Hd. rewrite andb_true_r in En. apply negb_false_iff, Z.eqb_eq in En.
      unfold domains_granted in *. cbn. by rewrite <- En.
Qed.

(** A lease never keeps a permission the store took back: a refresh that
    succeeds leaves a live lease, of the very process it was made for when the
    identity is checked, with the scopes it had if the store has not moved and
    otherwise with those the store gives it now; one that fails, for whatever
    reason, leaves it none.  The session sees what the lease has, the windows and
    what was asked for are as they were, and a subscription whose scope went away
    is gone when the client is notified. *)
Theorem session_refresh_exact calls s verified force notify l ok session l' changed out :
  session_refresh calls s verified force notify l = Some (ok, session, l', changed, out) ->
  lease_identity l' = lease_identity l /\ lease_requested_scopes l' = lease_requested_scopes l /\
  lease_windows l' = lease_windows l /\ (lease_active l' = true -> lease_active l = true) /\
  (if ok then
     established s verified force l (lease_granted_scopes l') (lease_generation l') /\ lease_active l' = true /\
     session = mk_session (lease_identity l) (lease_requested_scopes l) (lease_granted_scopes l') (lease_generation l')
   else lease_granted_scopes l' = 0) /\
  (notify = true -> domains_granted l -> domains_granted l').
Proof. apply session_refresh_spec. Qed.

(** Without a lease it is the same: a refresh that succeeds leaves what the session
    had, or what the store gives it now; one that fails for want of the store or
    the identity leaves it nothing, and announces the loss. *)
Lemma refreshed_session_spec s verified force session ok session' revoked changed :
  refreshed_session s verified force session = (ok, session', revoked, changed) ->
  se_requested_scopes session' = se_requested_scopes session /\
  (if ok then
     (force = true -> still (se_identity session) verified = true) /\
     revoked = Z.land (se_granted_scopes session) (u32 (Z.lnot (se_granted_scopes session'))) /\
     exists now, ksp_store_generation s (id_uid (se_identity session)) 0 = (true, now) /\
       (if now =? se_generation session then se_granted_scopes session' = se_granted_scopes session
        else exists g0 n0, ksp_store_check_at_generation s (id_uid (se_identity session')) (id_hash (se_identity session'))
               (se_requested_scopes session) g0 n0 = (true, se_granted_scopes session', se_generation session'))
   else se_granted_scopes session' = 0 /\ revoked = se_granted_scopes session).
Proof.
  unfold refreshed_session. destruct (ksp_store_generation _ _ _) as [ok1 now] eqn:Eg.
  destruct ok1; cbn [negb]; [|by intros [= <- <- <- <-]].
  set (moved := negb (now =? se_generation session)).
  assert (Hid : match (if force || moved then session_identity_refresh verified session else Some session) with
                | Some s1 => se_requested_scopes s1 = se_requested_scopes session /\
                    se_granted_scopes s1 = se_granted_scopes session /\
                    (force = true -> still (se_identity session) verified = true)
                | None => True
                end).
  { unfold session_identity_refresh, still. destruct force; cbn [orb].
    - destruct verified as [v|]; [|done]. by destruct (same_identity _ v).
    - destruct moved; [|done]. destruct verified as [v|]; [|done]. by destruct (same_identity _ v). }
  destruct (if force || moved then _ else _) as [s1|]; [|by intros [= <- <- <- <-]]. destruct Hid as (Hr & Hg & Hf).
  unfold moved. destruct (now =? se_generation session) eqn:En; cbn [negb].
  - intros [= <- <- <- <-]. split; [done|]. rewrite Hg. split; [done|]. split; [done|]. exists now. by rewrite En.
  - destruct (ksp_store_check_at_generation _ _ _ _ _ _) as [[[] allowed] n] eqn:Ec; cbn [negb]; intros [= <- <- <- <-].
    + split; [done|]. rewrite Hg. split; [done|]. split; [done|]. exists now. rewrite En. split; [done|].
      rewrite Hr in Ec. by eexists _, _.
    + split; [done|]. by rewrite Hg.
Qed.

(** ** Asking *)

Lemma same_identity_refl id : same_identity id id = true.
Proof. unfold same_identity, bytes_eqb. by rewrite !Z.eqb_refl, bool_decide_true. Qed.

Lemma same_identity_trans a b c : same_identity a b = true -> same_identity b c = true -> same_identity a c = true.
Proof.
  unfold same_identity, bytes_eqb. rewrite !andb_true_iff, !Z.eqb_eq, !bool_decide_eq_true. intuition congruence.
Qed.

Lemma same_identity_keys a b : same_identity a b = true -> id_uid a = id_uid b /\ id_hash a = id_hash b.
Proof. unfold same_identity, bytes_eqb. rewrite !andb_true_iff, !Z.eqb_eq, !bool_decide_eq_true. intuition. Qed.

Lemma land_u32_lnot a m : is_u32 a -> Z.land a (u32 (Z.lnot m)) = 0 <-> Z.land m a = a.
Proof.
  intros Ha. rewrite (Z.land_comm m), <- land_lnot_zero. unfold u32. rewrite mod_pow2_land by lia.
  rewrite (Z.land_comm (Z.lnot m)), Z.land_assoc, <- mod_pow2_land by lia. by rewrite Z.mod_small.
Qed.

(** A session the store gave its scopes to, for what it asked in all. *)
Definition granted_by (s : S) (session : authority_session) : Prop :=
  exists g0 n0, ksp_store_check_at_generation s (id_uid (se_identity session)) (id_hash (se_identity session))
    (se_requested_scopes session) g0 n0 = (true, se_granted_scopes session, se_generation session).

(** The scopes granted to a session suffice for a request. *)
Definition suffices (session : authority_session) (requested : Z) : Prop :=
  Z.land (se_granted_scopes session) requested = requested.

Definition consulted (w : authorize_world) (o : authorize_outcome) (s : S) : Prop :=
  s = aw_first w \/ s = aw_locked w \/ exists st, ao_store o = Some st /\ s = aw_meanwhile w st.

(** A successful outcome for the process [identity]. *)
Definition rightly_granted (w : authorize_world) (o : authorize_outcome) (session : authority_session) (requested : Z) : Prop :=
  suffices (ao_session o) requested /\ ao_granted o = se_granted_scopes (ao_session o) /\
  same_identity (se_identity session) (se_identity (ao_session o)) = true /\
  se_requested_scopes (ao_session o) = se_requested_scopes session /\
  exists s, consulted w o s /\ granted_by s (ao_session o).

Lemma grant_missing_ok w session requested missing generation :
  ao_status (grant_missing w session requested missing generation) = KSD_STATUS_OK ->
  rightly_granted w (grant_missing w session requested missing generation) session requested.
Proof.
  unfold grant_missing. destruct (aw_reverified w) as [verified|]; [|done].
  destruct (same_identity (se_identity session) verified) eqn:Ei; cbn [negb]; [|done].
  destruct (ksp_store_grant_if_generation _ _ _ _) as [added st]. destruct (added =? 0); cbn [negb]; [|by case_match].
  destruct (ksp_store_check_at_generation _ _ _ _ _ _) as [[[] allowed] n] eqn:Ec; cbn [negb]; [|done].
  cbn [ao_status]. destruct (Z.eqb_spec (Z.land allowed requested) requested) as [Hs|]; [|done]. intros _.
  split; [exact Hs|]. split; [done|]. split; [exact Ei|]. split; [done|]. exists (aw_meanwhile w st).
  split; [right; right; by exists st|]. by eexists _, _.
Qed.

Lemma grant_missing_store w session requested missing generation (o := grant_missing w session requested missing generation) :
  ao_asked o = Some missing /\
  (ao_store o <> None -> exists verified, aw_reverified w = Some verified /\
     same_identity (se_identity session) verified = true /\
     ao_store o = Some (snd (ksp_store_grant_if_generation (aw_granting w) verified missing generation))).
Proof.
  unfold o, grant_missing. destruct (aw_reverified w) as [verified|]; [|done].
  destruct (same_identity (se_identity session) verified) eqn:Ei; cbn [negb]; [|done].
  destruct (ksp_store_grant_if_generation _ _ _ _) as [added st] eqn:Eg. destruct (added =? 0); cbn [negb].
  - destruct (ksp_store_check_at_generation _ _ _ _ _ _) as [[[] allowed] n]; cbn [negb ao_asked ao_store];
      (split; [done|]; intros _; exists verified; by rewrite Eg).
  - cbn [ao_asked ao_store]. split; [done|]. intros _. exists verified. by rewrite Eg.
Qed.

Lemma prompt_ok w session requested :
  is_u32 requested -> ao_status (prompt_for_scopes w session requested) = KSD_STATUS_OK ->
  rightly_granted w (prompt_for_scopes w session requested) session requested.
Proof.
  intros Hr. unfold prompt_for_scopes. destruct (aw_verified w) as [verified|]; [|done].
  destruct (same_identity (se_identity session) verified) eqn:Ei; cbn [negb]; [|done].
  destruct (ksp_store_check_at_generation _ _ _ _ _ _) as [[[] allowed] n] eqn:Ec; cbn [negb]; [|done]. cbv zeta.
  destruct (Z.eqb_spec (Z.land requested (u32 (Z.lnot allowed))) 0) as [Hm|].
  - intros _. split; [by apply (land_u32_lnot requested allowed Hr)|]. split; [done|]. split; [exact Ei|]. split; [done|].
    exists (aw_locked w). split; [right; by left|]. by eexists _, _.
  - destruct (aw_decision w); try done. intros H. apply grant_missing_ok in H as (H1 & H2 & H3 & H4 & H5).
    split; [done|]. split; [done|]. split; [by apply (same_identity_trans _ verified)|by split].
Qed.

(** A scope is reported as granted only when the store grants it: a
    successful authorization was asked for known scopes, leaves the session with
    exactly the scopes the store gave, at the store's last answer, to this very
    process for everything it asked in all, and those include what was requested. *)
Theorem authorize_ok_sound w session requested mode :
  is_u32 requested -> let o := authorize_scopes w session requested mode in
  ao_status o = KSD_STATUS_OK ->
  requested <> 0 /\ Z.land KSD_DESKTOP_ACCEPTED_SCOPES requested = requested /\
  rightly_granted w o (mk_session (se_identity session) (Z.lor (se_requested_scopes session) requested)
                         (se_granted_scopes session) (se_generation session)) requested.
Proof.
  intros Hr o. unfold o, authorize_scopes. destruct (Z.eqb_spec requested 0) as [|Hne]; [done|]. cbn [orb].
  destruct (Z.eqb_spec (Z.land requested (u32 (Z.lnot KSD_DESKTOP_ACCEPTED_SCOPES))) 0) as [Ha|]; [|done]. cbn [orb negb].
  destruct (negb (mode =? KSD_AUTH_CHECK) && negb (mode =? KSD_AUTH_REQUEST)); [done|]. cbv zeta.
  destruct (ksp_store_check_at_generation _ _ _ _ _ _) as [[[] allowed] n] eqn:Ec; cbn [negb]; [|done].
  intros H. split; [done|]. split; [by apply land_u32_lnot|]. revert H.
  destruct (Z.eqb_spec (Z.land allowed requested) requested) as [Hs|].
  - intros _. split; [exact Hs|]. split; [done|]. split; [apply same_identity_refl|]. split; [done|].
    exists (aw_first w). split; [by left|]. by eexists _, _.
  - destruct (mode =? KSD_AUTH_CHECK); [done|]. destruct (aw_lock w); cbn [negb]; [|by case_match].
    intros H. by apply prompt_ok in H.
Qed.

(** The user was asked, or nothing was written. *)
Lemma authorize_asked w session requested mode (o := authorize_scopes w session requested mode) :
  (ao_asked o = None /\ ao_store o = None) \/
  exists verified allowed generation s (missing := Z.land requested (u32 (Z.lnot allowed))),
    mode = KSD_AUTH_REQUEST /\ aw_lock w = true /\ aw_verified w = Some verified /\
    same_identity (se_identity session) verified = true /\ se_identity s = verified /\
    (exists g0 n0, ksp_store_check_at_generation (aw_locked w) (id_uid (se_identity session))
       (id_hash (se_identity session)) (Z.lor (se_requested_scopes session) requested) g0 n0 = (true, allowed, generation)) /\
    missing <> 0 /\ ao_asked o = Some missing /\
    (aw_decision w = PolkitGranted /\ o = grant_missing w s requested missing generation \/
     ao_store o = None /\ ao_status o <> KSD_STATUS_OK).
Proof.
  unfold o, authorize_scopes. destruct (_ || _ || _) eqn:Eb; [by left|]. apply orb_false_iff in Eb as [_ Hmode].
  destruct (ksp_store_check_at_generation (aw_first w) _ _ _ _ _) as [[[] allowed0] n0]; cbn [negb]; [|by left].
  destruct (Z.land allowed0 requested =? requested); [by left|].
  destruct (Z.eqb_spec mode KSD_AUTH_CHECK) as [|Hcheck]; [by left|].
  cbn [negb andb] in Hmode. apply negb_false_iff, Z.eqb_eq in Hmode.
  destruct (aw_lock w); cbn [negb]; [|by left]. unfold prompt_for_scopes.
  destruct (aw_verified w) as [v|]; [|by left]. cbn [with_grant se_identity se_requested_scopes se_granted_scopes se_generation].
  destruct (same_identity (se_identity session) v) eqn:Ei; cbn [negb]; [|by left].
  destruct (same_identity_keys _ _ Ei) as [<- <-].
  destruct (ksp_store_check_at_generation (aw_locked w) _ _ _ _ _) as [[[] allowed] n] eqn:Ec; cbn [negb]; [|by left].
  cbv zeta. destruct (Z.eqb_spec (Z.land requested (u32 (Z.lnot allowed))) 0) as [|Hm]; [by left|]. right.
  exists v, allowed, n, (with_grant (mk_session v (Z.lor (se_requested_scopes session) requested) allowed n) v allowed n).
  do 5 (split; [done|]). split; [by exists allowed0, n0|]. split; [done|].
  destruct (aw_decision w) eqn:Ed; cbn [ao_asked ao_store ao_status];
    [split; [by apply grant_missing_store|left; by split]|by split; [done|right]..].
Qed.

(** C6: Permissions are given only by the user: whatever the outcome, the user is
    asked only in request mode, under the prompt lock, for a process that is
    still the session's, and for the scopes requested that the store does not
    already give, of which there are some; and the store is written only when
    the user agreed to exactly those, for the process that is still there, with
    the generation the store was at when they were found missing. *)
Theorem authorize_consent w session requested mode :
  let o := authorize_scopes w session requested mode in
  match ao_asked o with
  | None => ao_store o = None
  | Some missing =>
    mode = KSD_AUTH_REQUEST /\ aw_lock w = true /\ still (se_identity session) (aw_verified w) = true /\
    exists g0 n0 allowed generation,
      ksp_store_check_at_generation (aw_locked w) (id_uid (se_identity session)) (id_hash (se_identity session))
        (Z.lor (se_requested_scopes session) requested) g0 n0 = (true, allowed, generation) /\
      missing = Z.land requested (u32 (Z.lnot allowed)) /\ missing <> 0 /\
      (ao_store o <> None ->
         aw_decision w = PolkitGranted /\ exists verified, aw_reverified w = Some verified /\
           same_identity (se_identity session) verified = true /\
           ao_store o = Some (snd (ksp_store_grant_if_generation (aw_granting w) verified missing generation)))
  end.
Proof.
  cbv zeta. destruct (authorize_asked w session requested mode)
    as [[-> ->]|(v & allowed & n & s & Hm & Hl & Hv & Hi & Hs & (g0 & n0 & Hc) & Hne & -> & Hrest)]; [done|].
  unfold still. rewrite Hv. do 3 (split; [done|]). exists g0, n0, allowed, n. do 3 (split; [done|]). intros Hst.
  destruct Hrest as [[Hd Ho]|[Ho _]]; [|done]. split; [done|]. rewrite Ho in *.
  destruct (grant_missing_store w s requested (Z.land requested (u32 (Z.lnot allowed))) n) as [_ H].
  destruct (H Hst) as (v2 & Hv2 & Hi2 & Ho2). exists v2. split; [done|]. split; [|done].
  rewrite Hs in Hi2. by apply (same_identity_trans _ v).
Qed.

(** A revocation during the prompt wins: when the store's generation at the
    grant is not the one found under the prompt lock, as after any revocation,
    nothing is written and a request that asked the user does not succeed. *)
Theorem authorize_fenced {SL : StoreLaws S} w session requested mode n1 n2 :
  let uid := id_uid (se_identity session) in
  ksp_store_generation (aw_locked w) uid n1 <> ksp_store_generation (aw_granting w) uid n2 ->
  let o := authorize_scopes w session requested mode in
  (ao_store o = None \/ ao_store o = Some (aw_granting w)) /\ (ao_asked o <> None -> ao_status o <> KSD_STATUS_OK).
Proof.
  intros uid Hgen. cbv zeta. destruct (authorize_asked w session requested mode)
    as [[-> ->]|(v & allowed & n & s & Hm & Hl & Hv & Hi & Hs & (g0 & n0 & Hc) & Hne & _ & Hrest)]; [by split; [left|]|].
  destruct Hrest as [[_ ->]|[-> Hstatus]]; [|by split; [left|]]. unfold grant_missing.
  destruct (aw_reverified w) as [v2|]; [|by split; [left|]].
  destruct (same_identity (se_identity s) v2) eqn:Ei; cbn [negb]; [|by split; [left|]].
  destruct (ksp_store_grant_if_generation _ _ _ _) as [added st] eqn:Eg.
  destruct (Z.eqb_spec added 0) as [->|Hadd]; cbn [negb].
  - exfalso. rewrite Hs in Ei. apply Hgen. unfold uid. rewrite (check_generation _ _ _ _ _ _ _ _ Hc n1).
    destruct (same_identity_keys _ _ (same_identity_trans _ _ _ Hi Ei)) as [-> _].
    by rewrite (grant_fenced _ _ _ _ _ Eg n2).
  - cbn [ao_store ao_status]. rewrite (grant_refused _ _ _ _ _ _ Eg Hadd). split; [by right|]. intros _. by case_match.
Qed.

(** ** Completing *)

(** The scopes of a lease as the store gives them to its process now. *)
Definition current_grant (s : S) (verified : option ksp_identity) (l : authority_lease) (requested granted generation : Z)
    : Prop :=
  lease_active l = true /\ still (lease_identity l) verified = true /\
  (if requested =? 0
   then granted = 0 /\ ksp_store_generation s (id_uid (lease_identity l)) (lease_generation l) = (true, generation)
   else ksp_store_check_at_generation s (id_uid (lease_identity l)) (id_hash (lease_identity l)) requested 0
          (lease_generation l) = (true, granted, generation)).

Lemma completed_grant_spec s verified l requested granted generation :
  completed_grant s verified l requested = (true, granted, generation) ->
  current_grant s verified l requested granted generation.
Proof.
  unfold completed_grant, current_grant. destruct (lease_active l), (still (lease_identity l) verified); cbn [andb]; try done.
  destruct (requested =? 0); [|done]. destruct (ksp_store_generation _ _ _) as [ok n]. by intros [= -> <- ->].
Qed.

Lemma complete_authorization_spec calls s verified session l requested status ok status' session' l' out :
  complete_authorization calls s verified session l requested status = Some (ok, status', session', l', out) ->
  lease_identity l' = lease_identity l /\ lease_windows l' = lease_windows l /\
  (if ok then
     lease_active l' = true /\ current_grant s verified l (lease_requested_scopes l') (lease_granted_scopes l') (lease_generation l') /\
     lease_requested_scopes l' = Z.lor (lease_requested_scopes l) (se_requested_scopes session) /\
     session' = mk_session (se_identity session) (lease_requested_scopes l') (lease_granted_scopes l') (lease_generation l') /\
     status' = (if (status =? KSD_STATUS_OK) && negb (Z.land (lease_granted_scopes l') requested =? requested)
                then KSD_STATUS_REVOKED else status) /\
     (domains_granted l -> domains_granted l')
   else lease_active l' = false).
Proof.
  unfold complete_authorization. set (req := Z.lor _ _).
  destruct (completed_grant s verified l req) as [[current granted] generation] eqn:E.
  set (l1 := with_scopes l _ _ _ _ _). intros H.
  assert (Hdom : domains_granted l -> domains_granted l1) by by apply (domains_kept l l1 granted).
  assert (Hcase : exists sent l2, lease_identity l2 = lease_identity l /\ lease_windows l2 = lease_windows l /\
            (if sent : bool then l2 = l1 \/ l2 = next_sequence l1 4 else lease_active l2 = false) /\
            ok = current && sent /\ l' = (if current then l2 else inactive l2)).
  { destruct (negb (lease_granted_scopes l =? granted)).
    - destruct (lease_emit _ _ _) as [[[sent l2] o]|] eqn:Em; [|done]. cbn [from_option] in H. injection H as <- _ _ <- _.
      exists sent, l2. destruct (emit_kept _ _ _ _ _ _ Em) as (Hi & Hw & Hs). destruct sent; auto 6.
    - injection H as <- _ _ <- _. exists true, l1. auto 6. }
  assert (Hout : status' = (if (status =? KSD_STATUS_OK) && negb (Z.land granted requested =? requested)
                            then KSD_STATUS_REVOKED else status) /\
                 session' = mk_session (se_identity session) req granted generation).
  { destruct (if negb (lease_granted_scopes l =? granted) then _ else _) as [[[sent l2] o]|]; [|done]. by injection H. }
  clear H. destruct Hcase as (sent & l2 & Hi & Hw & Hs & -> & ->), Hout as [-> ->].
  destruct current; cbn [andb]; [|done]. split; [done|]. split; [done|].
  destruct sent; [|done]. apply completed_grant_spec in E. destruct Hs as [->| ->]; (split; [apply E|]; by do 4 (split; [done|])).
Qed.

(** C5: What an application is told it may do is what the store lets it do: the
    reply to an AUTHORIZE request is a success only on the lease's own
    connection and for a well-formed request, and it then names the scopes of a
    live lease, which include all that was requested and are those the store gives
    at the end to the lease's process, whose identity was checked again; when the
    connection ends without a reply the lease is dead or has nothing.  No
    subscription is left without its scope. *)
Theorem handle_authorize_sound w role session lease payload answer session' lease' out :
  handle_authorize w role session lease payload = Some (answer, session', lease', out) ->
  lease_identity lease' = lease_identity lease /\ (domains_granted lease -> domains_granted lease') /\
  match answer with
  | None => lease_active lease' = false \/ lease_granted_scopes lease' = 0
  | Some r =>
    rp_status r = KSD_STATUS_OK ->
    role = KSD_ROLE_AUTHORIZATION_LEASE /\ lease_active lease' = true /\
    rp_tail r = ksd_encode_u32 (lease_granted_scopes lease') ++ ksd_encode_u32 0 /\
    exists mode scopes l, parse_authorize payload = Some (mode, scopes) /\
      Z.land (lease_granted_scopes lease') scopes = scopes /\ lease_identity l = lease_identity lease /\
      current_grant (rw_complete_store w) (rw_complete_verified w) l (lease_requested_scopes lease')
        (lease_granted_scopes lease') (lease_generation lease')
  end.
Proof.
  unfold handle_authorize. destruct (parse_authorize payload) as [[mode scopes]|]; [|by intros [= <- <- <- <-]].
  destruct (Z.eqb_spec role KSD_ROLE_AUTHORIZATION_LEASE) as [Hrole|]; cbn [negb]; [|by intros [= <- <- <- <-]].
  destruct (session_refresh _ _ _ _ _ _) as [[[[[ok1 s1] l1] ch] o1]|] eqn:Er; [|done]. cbn [from_option].
  apply session_refresh_spec in Er as (Hi1 & _ & _ & _ & Hok1 & Hd1). specialize (Hd1 eq_refl).
  destruct ok1; cbn [negb]; [|intros [= <- <- <- <-]; split; [done|]; split; [done|]; by right].
  set (o := authorize_scopes _ _ _ _).
  destruct (complete_authorization _ _ _ _ _ _ _) as [[[[[ok2 st2] s2] l2] o2]|] eqn:Ec; [|done]. cbn [from_option].
  apply complete_authorization_spec in Ec as (Hi2 & _ & Hok2). intros [= <- <- <- <-].
  split; [congruence|]. destruct ok2.
  2:{ split; [|by left]. intros _. unfold domains_granted. congruence. }
  destruct Hok2 as (Ha & Hcur & Hreq & -> & -> & Hdom). split; [auto|].
  destruct (Z.eqb_spec (ao_status o) KSD_STATUS_OK) as [Hst|Hst]; cbn [andb].
  - destruct (Z.eqb_spec (Z.land (lease_granted_scopes l2) scopes) scopes) as [Hsuf|]; cbn [negb]; [|done].
    rewrite Hst. cbn [Z.eqb negb KSD_STATUS_OK rp_status rp_tail se_granted_scopes]. intros _. do 3 (split; [done|]).
    exists mode, scopes, l1. auto.
  - rewrite (proj2 (Z.eqb_neq _ _)) by done. by cbn.
Qed.
End theorems.

(** ** Witnesses *)

(** A store with one generation, whose grants are scopes of executables. *)
Record sample_store := mk_store { st_generation : Z; st_grants : list (Z * list byte * Z) }.

Definition stored_scopes (s : sample_store) (uid : Z) (hash : list byte) : Z :=
  fold_right Z.lor 0 (map snd (filter (fun g => fst g = (uid, hash)) (st_grants s))).

#[local] Instance sample_permissions : PermissionStore sample_store := {
  ksp_store_generation := fun s _ _ => (true, st_generation s);
  ksp_store_check_at_generation := fun s uid hash scopes _ _ =>
    (true, Z.land (stored_scopes s uid hash) scopes, st_generation s);
  ksp_store_grant_if_generation := fun s id scopes n =>
    if n =? st_generation s
    then (0, mk_store (st_generation s) ((id_uid id, id_hash id, scopes) :: st_grants s)) else (1, s);
}.

#[local] Instance sample_store_laws : StoreLaws sample_store.
Proof.
  split; cbn.
  - by intros s uid hash scopes g0 n0 granted n [= _ ->].
  - intros s id scopes n s'. by destruct (Z.eqb_spec n (st_generation s)) as [->|].
  - intros s id scopes n r s'. destruct (n =? st_generation s); by intros [= <- <-].
Qed.

#[local] Existing Instance infinite_memory.
Definition app_identity : ksp_identity := mk_identity 1000 4242 77 [x01; x02].
Definition store_before : sample_store := mk_store 6 [(1000, [x01; x02], 4)].
Definition held_lease : authority_lease :=
  mk_lease 9 5 (repeat 0 5) 1 true app_identity 0x84 0x84 9 5 [] [] false.
Definition all_sent : list plain_outcome := [PlainBytes 4194816].

(** The user agreed to clipboard monitoring. *)
Definition agreeing_world : authorize_world (S := sample_store) :=
  mk_world store_before true false (Some app_identity) store_before PolkitGranted (Some app_identity) store_before (fun s => s).
Definition fresh_session : authority_session := mk_session app_identity 4 4 6.
(** Another revocation came while the user was asked. *)
Definition overtaken_world : authorize_world (S := sample_store) :=
  mk_world store_before true false (Some app_identity) store_before PolkitGranted (Some app_identity) (mk_store 7 []) (fun s => s).

Lemma session_refresh_exact_witness :
  match session_refresh all_sent store_before (Some app_identity) true true held_lease with
  | Some (ok, session, l', changed, out) =>
    ok = true /\ lease_granted_scopes l' = 4 /\ lease_domains l' = 1 /\
    refreshed store_before (Some app_identity) true true ok held_lease l' session
  | None => False
  end.
Proof.
  destruct (session_refresh all_sent store_before (Some app_identity) true true held_lease)
    as [[[[[ok session] l'] changed] out]|] eqn:E.
  - pose proof (session_refresh_exact _ _ _ _ _ _ _ _ _ _ _ E) as H. vm_compute in E. injection E as <- <- <- <- <-.
    split; [reflexivity|]. split; [reflexivity|]. split; [reflexivity|]. exact H.
  - vm_compute in E. discriminate E.
Defined.

Lemma authorize_ok_sound_witness :
  ao_status (authorize_scopes agreeing_world fresh_session 0x80 KSD_AUTH_REQUEST) = KSD_STATUS_OK /\
  Z.land KSD_DESKTOP_ACCEPTED_SCOPES 0x80 = 0x80.
Proof.
  split; [vm_compute; reflexivity|].
  apply (authorize_ok_sound agreeing_world fresh_session 0x80 KSD_AUTH_REQUEST).
  - split; vm_compute; [discriminate|reflexivity].
  - vm_compute. reflexivity.
Defined.

Lemma authorize_fenced_witness :
  ao_asked (authorize_scopes overtaken_world fresh_session 0x80 KSD_AUTH_REQUEST) = Some 0x80 /\
  ao_status (authorize_scopes overtaken_world fresh_session 0x80 KSD_AUTH_REQUEST) <> KSD_STATUS_OK.
Proof.
  split; [vm_compute; reflexivity|].
  apply (authorize_fenced overtaken_world fresh_session 0x80 KSD_AUTH_REQUEST 0 0).
  - vm_compute. discriminate.
  - vm_compute. discriminate.
Defined.

Definition sample_request_world : request_world (S := sample_store) :=
  mk_request_world store_before (Some app_identity) all_sent agreeing_world
    (mk_store 6 [(1000, [x01; x02], 0x80); (1000, [x01; x02], 4)]) (Some app_identity) all_sent.
Definition sample_payload : list byte :=
  ksd_encode_u16 KSD_AUTH_REQUEST ++ ksd_encode_u16 0 ++ ksd_encode_u32 0x80 ++ ksd_encode_u64 0.

Lemma handle_authorize_sound_witness :
  match handle_authorize sample_request_world KSD_ROLE_AUTHORIZATION_LEASE fresh_session held_lease sample_payload with
  | Some (answer, session', lease', out) =>
    (exists r, answer = Some r /\ rp_status r = KSD_STATUS_OK) /\
    lease_identity lease' = lease_identity held_lease /\ lease_granted_scopes lease' = 0x84
  | None => False
  end.
Proof.
  destruct (handle_authorize sample_request_world KSD_ROLE_AUTHORIZATION_LEASE fresh_session held_lease sample_payload)
    as [[[[answer session'] lease'] out]|] eqn:E.
  - pose proof (handle_authorize_sound _ _ _ _ _ _ _ _ _ E) as [H _]. vm_compute in E. injection E as <- <- <- <-.
    split; [by eexists|]. split; [exact H|reflexivity].
  - vm_compute in E. discriminate E.
Defined.
