(* ===== verification/Subscribe.v ===== *)
(** * State subscriptions (src/authorityd.c)

    What a lease connection does with the frames of its sources: the watches of
    windows, displays, keyboard and clipboard that run beside it and write to a
    socket pair.  Every frame is decoded, refused unless the client subscribed to
    its domain and holds the scope, numbered and sent; a source that ends resets
    its domains.  The threads of the sources and the messages their start depends
    on are outside; whether one starts is an argument. *)
From Stdlib Require Import ZArith Lia Strings.Byte Strings.String.
From stdpp Require Import base list option numbers tactics.
From S2P Require Import Prelude.
From S2P Require Import Protocol.
From S2P Require Import Codec.
From S2P Require Import Buffer.
From S2P Require Import Transport.
From S2P Require Import Frame.
From S2P Require Import StateWire.
From S2P Require Import Lease.
From S2P Require Import WindowState.
From S2P Require Import Response.
From S2P Require Import Authorize.
Local Open Scope Z_scope.
Local Open Scope ksd_scope.

Section sources.
Context {AL : Allocator} {S : Type} {PS : PermissionStore S}.

(** ** The frame of a source *)

(** The mimetypes of a clipboard, as the elements of a JSON array. *)
Fixpoint clipboard_types (count : nat) (first : bool) (cursor : ksd_cursor) (json : ksd_buffer)
    : option (ksd_cursor * ksd_buffer) :=
  match count with
  | O => Some (cursor, json)
  | Datatypes.S count =>
    let* (length, cursor) := ksd_cursor_u32 cursor in
    let* (text, cursor) := ksd_cursor_bytes cursor length in
    let '(ok, json) := ((if first then keep else put (cstr ",")) ;;; ksd_buffer_json_string text false) json in
    guard* ok in clipboard_types count false cursor json
  end.

Definition clipboard_head : list byte := [z2b 123; z2b 34] ++ cstr "text" ++ [z2b 34; z2b 58].
Definition clipboard_middle : list byte := [z2b 44; z2b 34] ++ cstr "mimetypes" ++ [z2b 34; z2b 58; z2b 91].

(** The JSON of a clipboard event: its text and its mimetypes. *)
Definition clipboard_json (payload : list byte) : option (list byte) :=
  let cursor := ksd_cursor_init payload (zlen payload) in
  let* (length, cursor) := ksd_cursor_u32 cursor in
  let* (count, cursor) := ksd_cursor_u32 cursor in
  let* (text, cursor) := ksd_cursor_bytes cursor length in
  let '(ok, json) := (put clipboard_head ;;; ksd_buffer_json_string text false ;;; put clipboard_middle)
                       (ksd_buffer_init KSD_MAX_TEXT_BYTES) in
  guard* ok in
  let* (cursor, json) := clipboard_types (Z.to_nat count) true cursor json in
  guard* ksd_cursor_finished cursor in
  let '(ok, json) := put [z2b 93; z2b 125] json in
  guard* ok in Some (buf_bytes json).

(** The event a source's frame carries. *)
Definition source_frame_event (frame : ksd_frame) : option ksd_state_event :=
  let payload := default [] (fr_payload frame) in
  let length := fr_payload_length frame in
  let init := ksd_state_event_init in
  if fr_opcode frame =? KSD_OP_STATE_EVENT then ksd_state_event_decode payload
  else if fr_opcode frame =? KSD_OP_WINDOW_EVENT then
    guard* negb ((length <? 8) || negb (ksd_decode_u32 (zdrop 4 payload) =? length - 8)) in
    let* window := ksd_state_window_json (zdrop 8 payload) in
    let kind := if ksd_decode_u16 payload =? KSD_WINDOW_EVENT_CLOSE then KSD_STATE_DESTROY else KSD_STATE_CHANGED in
    Some (mk_event kind KSD_STATE_WINDOWS 0 0 window None 0 0)
  else if fr_opcode frame =? KSD_OP_CLIPBOARD_EVENT then
    let* json := clipboard_json payload in
    Some (mk_event KSD_STATE_CHANGED KSD_STATE_CLIPBOARD 0 0 ksd_window_record_init (Some json) 0 0)
  else None.

(** ** Passing it on *)

(** Whether the client gets the events of a domain. *)
Definition domain_enabled (l : authority_lease) (domain : Z) : bool :=
  negb (Z.land (lease_domains l) domain =? 0)
  && (if domain =? KSD_STATE_WINDOWS then negb (Z.land (lease_granted_scopes l) KSD_SCOPE_WINDOW_MONITORING =? 0) else true)
  && (if domain =? KSD_STATE_CLIPBOARD then negb (Z.land (lease_granted_scopes l) KSD_SCOPE_CLIPBOARD_MONITORING =? 0)
      else true).

Definition snapshot_kind (kind : Z) : bool :=
  (kind =? KSD_STATE_SNAPSHOT_BEGIN) || (kind =? KSD_STATE_SNAPSHOT_ITEM) || (kind =? KSD_STATE_SNAPSHOT_END).

Definition pass_event (calls : list plain_outcome) (l : authority_lease) (e : ksd_state_event)
    : option (bool * authority_lease * list byte) :=
  if domain_enabled l (ev_domain e) then
    if ev_domain e =? KSD_STATE_WINDOWS then state_window_apply calls l e
    else lease_emit calls (if snapshot_kind (ev_kind e) then l else next_sequence l (domain_index (ev_domain e))) e
  else Some (true, l, []).

(** The store and the identity at the refresh, and the sends of its event and of
    the source's. *)
Record source_world := mk_source_world {
  sw_store : S;
  sw_verified : option ksp_identity;
  sw_refresh_sends : list plain_outcome;
  sw_sends : list plain_outcome;
}.

(** The answer, the session, the lease, what the refresh sent and what the event did. *)
Definition state_source_event (w : source_world) (lease : authority_lease) (frame : ksd_frame)
    : option (bool * authority_session * authority_lease * list byte * list byte) :=
  let* r := session_refresh (sw_refresh_sends w) (sw_store w) (sw_verified w) true true lease in
  let '(ok, session, lease, _, refresh_out) := r in
  let stop ok := Some (ok, session, lease, refresh_out, []) in
  if negb ok then stop false
  else if fr_flags frame =? KSD_FLAG_RESPONSE then stop true
  else if negb (fr_flags frame =? KSD_FLAG_EVENT) then stop false
  else
    match source_frame_event frame with
    | None => stop false
    | Some e =>
      let* r := pass_event (sw_sends w) lease e in
      let '(ok, lease, out) := r in
      Some (ok, session, lease, refresh_out, out)
    end.

(** A source that ended: each domain it served, of those subscribed to, is reset;
    [lane] 0 is the main source, 1 the clipboard's, 2 the generic one beside it. *)
Definition reset_domains : list Z := [KSD_STATE_WINDOWS; KSD_STATE_KEYBOARD; KSD_STATE_DISPLAYS; KSD_STATE_CLIPBOARD].
Definition lane_serves (lane domain : Z) : bool :=
  negb (negb (Bool.eqb (lane =? 1) (domain =? KSD_STATE_CLIPBOARD)) || ((lane =? 2) && (domain =? KSD_STATE_WINDOWS))).
Definition reset_event (domain : Z) : ksd_state_event :=
  mk_event KSD_STATE_RESET domain 0 0 ksd_window_record_init None 0 0.

Fixpoint reset_lane (calls : list (list plain_outcome)) (lane : Z) (domains : list Z) (l : authority_lease)
    : option (bool * authority_lease * list byte) :=
  match domains with
  | [] => Some (true, l, [])
  | domain :: domains =>
    if (Z.land (lease_domains l) domain =? 0) || negb (lane_serves lane domain) then reset_lane calls lane domains l
    else
      match calls with
      | [] => None
      | c :: calls =>
        let* r := lease_emit c (next_sequence l (domain_index domain)) (reset_event domain) in
        let '(ok, l, out) := r in
        let* r := reset_lane calls lane domains l in
        let '(rest, l, out') := r in
        Some (ok && rest, l, out ++ out')
      end
  end.

(** ** Subscribing *)

Definition watch_uses_display_worker (backend : Z) : bool :=
  (backend =? KSD_BACKEND_X11) || (backend =? KSD_BACKEND_GENERIC).

Definition auxiliary_domains : Z := Z.lor KSD_STATE_KEYBOARD KSD_STATE_DISPLAYS.

(** The sources a subscription starts, in order, until one fails: whether all
    started, and those that did. *)
Definition start_sources (native : bool) (domains : Z) (start : Z -> bool) : bool * list Z :=
  let main := if Z.land domains (Z.lor KSD_STATE_WINDOWS (if native then auxiliary_domains else 0)) =? 0 then [] else [0] in
  let generic := if negb native && negb (Z.land domains auxiliary_domains =? 0) then [2] else [] in
  let clipboard := if negb (Z.land domains KSD_STATE_CLIPBOARD =? 0) then [1] else [] in
  (fix run (lanes : list Z) : bool * list Z :=
     match lanes with
     | [] => (true, [])
     | lane :: lanes =>
       if start lane then let '(ok, started) := run lanes in (ok, lane :: started) else (false, [])
     end) (main ++ generic ++ clipboard).

(** The snapshot of the grants: three events with one number. *)
Fixpoint emit_each (calls : list (list plain_outcome)) (l : authority_lease) (events : list ksd_state_event)
    {struct events} : option (bool * authority_lease * list byte) :=
  match events, calls with
  | [], _ => Some (true, l, [])
  | e :: events, c :: calls =>
    let* r := lease_emit c l e in
    let '(ok, l, out) := r in
    let* r := emit_each calls l events in
    let '(rest, l, out') := r in
    Some (ok && rest, l, out ++ out')
  | _ :: _, [] => None
  end.
Definition grants_snapshot (granted : Z) : list ksd_state_event :=
  map (fun kind => grant_event kind granted 0) [KSD_STATE_SNAPSHOT_BEGIN; KSD_STATE_SNAPSHOT_ITEM; KSD_STATE_SNAPSHOT_END].

Record subscribe_world := mk_subscribe_world {
  bw_store : S;
  bw_verified : option ksp_identity;
  bw_refresh_sends : list plain_outcome;
  bw_backend : Z;
  bw_start : Z -> bool;
  bw_reply_sent : bool;
  bw_grant_sends : list (list plain_outcome);
}.

(** What comes of a STATE_SUBSCRIBE request: the answer, the reply given if any,
    the session if it was refreshed, the lease and the sources running.  The reply goes out before
    the grants; [bw_reply_sent] is whether it could be, and a lease it could not
    be written to is dead. *)
Record subscribed := mk_subscribed {
  sb_ok : bool;
  sb_reply : option reply;
  sb_session : option authority_session;
  sb_lease : authority_lease;
  sb_sources : list Z;
  sb_events : list byte;
}.

Definition denied_scopes (domains granted : Z) : bool :=
  (negb (Z.land domains KSD_STATE_WINDOWS =? 0) && (Z.land granted KSD_SCOPE_WINDOW_MONITORING =? 0))
  || (negb (Z.land domains KSD_STATE_CLIPBOARD =? 0) && (Z.land granted KSD_SCOPE_CLIPBOARD_MONITORING =? 0)).

Definition subscribe_lease (l : authority_lease) (domains : Z) : authority_lease :=
  let l := with_domains l domains in
  with_windows l (lease_windows l) (lease_snapshot_windows l) (negb (Z.land domains KSD_STATE_WINDOWS =? 0)).

(** Once the domains are allowed. *)
Definition subscribe_domains (w : subscribe_world) (session : authority_session) (lease : authority_lease) (domains : Z) (out : list byte)
    : option subscribed :=
  let lease := subscribe_lease lease domains in
  let '(ok, started) := start_sources (watch_uses_display_worker (bw_backend w)) domains (bw_start w) in
  let answer := if ok then mk_reply KSD_STATUS_OK 0 None []
                else mk_reply KSD_STATUS_UNAVAILABLE 0 (Some (cstr "desktop push state is unavailable")) [] in
  if negb (bw_reply_sent w) then Some (mk_subscribed false (Some answer) (Some session) (deactivate lease) started out)
  else if negb (Z.land domains KSD_STATE_GRANTS =? 0) then
    let* r := emit_each (bw_grant_sends w) lease (grants_snapshot (lease_granted_scopes lease)) in
    let '(emitted, lease, out') := r in
    Some (mk_subscribed (emitted && ok) (Some answer) (Some session) lease started (out ++ out'))
  else Some (mk_subscribed ok (Some answer) (Some session) lease started out).

Definition handle_state_subscribe (w : subscribe_world) (role : Z) (lease : authority_lease) (sources : list Z)
    (payload : list byte) : option subscribed :=
  let reply status diagnostic := mk_reply status 0 diagnostic [] in
  let sent lease := if bw_reply_sent w then lease else if role =? KSD_ROLE_AUTHORIZATION_LEASE then deactivate lease else lease in
  if negb (role =? KSD_ROLE_AUTHORIZATION_LEASE) || negb (zlen payload =? 4) then
    Some (mk_subscribed (bw_reply_sent w)
            (Some (reply KSD_STATUS_INVALID_REQUEST (Some (cstr "state subscriptions require a lease")))) None (sent lease) sources [])
  else
    let domains := ksd_decode_u32 payload in
    if negb (Z.land domains (u32 (Z.lnot KSD_STATE_ALL)) =? 0) then Some (mk_subscribed false None None lease sources [])
    else
      let* r := session_refresh (bw_refresh_sends w) (bw_store w) (bw_verified w) true true lease in
      let '(ok, session, lease, _, out) := r in
      if negb ok then Some (mk_subscribed false None (Some session) lease sources out)
      else if denied_scopes domains (se_granted_scopes session) then
        Some (mk_subscribed (bw_reply_sent w)
                (Some (reply KSD_STATUS_DENIED (Some (cstr "state domain permission is not granted")))) (Some session) (sent lease) sources out)
      else
        subscribe_domains w session lease domains out.
End sources.

(** ** What gets through *)

Section theorems.
Context {AL : Allocator} {AT : AllocTotal AL} {S : Type} {PS : PermissionStore S}.

Lemma window_event_ok kind w :
  KSD_STATE_SNAPSHOT_BEGIN <= kind <= KSD_STATE_RESET -> window_ok (norm_window w) ->
  source_event (mk_event kind KSD_STATE_WINDOWS 0 0 w None 0 0).
Proof.
  intros Hk Hw. split; [|done]. unfold event_ok, is_u32, is_u64, norm_event, KSD_STATE_WINDOWS;
    cbn [ev_kind ev_domain ev_epoch ev_sequence ev_window ev_data ev_granted_scopes ev_revoked_scopes].
  repeat (split; [first [assumption|lia|reflexivity]|]). by split.
Qed.

(** Every window event a source's frame can carry is one a lease can keep. *)
Lemma source_frame_event_ok frame e :
  source_frame_event frame = Some e -> ev_domain e = KSD_STATE_WINDOWS -> source_event e.
Proof.
  unfold source_frame_event. case_match; [|case_match; [|case_match; [|done]]].
  - intros Hdec Hd. apply event_decode_sound in Hdec as [Hok _]. split; [|done].
    unfold event_ok in *. cbn [norm_event ev_kind ev_domain ev_epoch ev_sequence ev_window ev_data
      ev_granted_scopes ev_revoked_scopes]. destruct Hok as (? & ? & ? & ? & ? & ? & ? & Hw & Ht).
    rewrite (norm_window_id _ Hw), (norm_string_id _ Ht). tauto.
  - destruct (negb _); [|done]. destruct (ksd_state_window_json _) as [w|] eqn:E; [|done]. intros [= <-] _.
    apply window_json_ok in E. apply window_event_ok; [|done]. case_match; unfold KSD_STATE_SNAPSHOT_BEGIN,
      KSD_STATE_RESET, KSD_STATE_DESTROY, KSD_STATE_CHANGED; lia.
  - destruct (clipboard_json _); [|done]. by intros [= <-].
Qed.

Lemma pass_event_spec calls l e ok l' out :
  pass_event calls l e = Some (ok, l', out) ->
  (out <> [] -> domain_enabled l (ev_domain e) = true) /\
  (state_ok l -> ok = true -> (ev_domain e = KSD_STATE_WINDOWS -> source_event e) ->
   state_ok l' /\ lease_epoch l' = lease_epoch l /\
   if ev_domain e =? KSD_STATE_WINDOWS then domain_enabled l (ev_domain e) = true -> delivers (RL := AL) true l l' out
   else lease_mirror l' = lease_mirror l).
Proof.
  unfold pass_event. destruct (domain_enabled l (ev_domain e)).
  2:{ intros [= <- <- <-]. split; [done|]. intros Hl _ _. split; [done|]. split; [done|]. by case_match. }
  destruct (Z.eqb_spec (ev_domain e) KSD_STATE_WINDOWS) as [Hd|Hd]; intros H; (split; [done|]); intros Hl -> He.
  - destruct (He Hd) as [Hok _]. pose proof (apply_delivers (RL := AL) _ _ _ _ _ _ Hl Hok Hd H) as Hdel.
    split; [apply Hdel|]. split; [apply Hdel|done].
  - apply lease_emit_ok in H as [-> _]. case_match; [done|]. split; [|done]. destruct Hl as (Hlo & Hw).
    split; [by apply next_sequence_ok|done].
Qed.

(** A refresh leaves the windows and the numbering of them alone. *)
Lemma session_refresh_state calls s verified force notify l ok session l' changed out :
  session_refresh calls s verified force notify l = Some (ok, session, l', changed, out) ->
  state_ok l -> state_ok l' /\ lease_mirror l' = lease_mirror l.
Proof.
  unfold session_refresh. destruct (refreshed_grant s verified force l) as [[[ok1 granted] generation] ch].
  set (l1 := with_scopes l _ _ _ _ _). intros H Hl. assert (Hn : state_ok (next_sequence l1 4)).
  { destruct Hl as (Hlo & Hw). split; [by apply (next_sequence_ok l)|done]. }
  destruct (_ && notify).
  - destruct (lease_emit _ _ _) as [[[sent l2] o]|] eqn:Em; [|done]. cbn [from_option] in H.
    injection H as <- <- <- <- <-. destruct sent; [apply lease_emit_ok in Em as [-> _]; by split|].
    apply lease_emit_failed in Em as (_ & Hd & Hi). destruct (lease_active (next_sequence l1 4)).
    + by rewrite Hd.
    + by destruct (Hi eq_refl) as [-> _].
  - injection H as <- <- <- <- <-. by split.
Qed.

(** C32: A source's frame reaches the client only with a live permission: bytes of
    an event are sent only when the frame is an event that decodes, the lease was
    just refreshed from the store and lives, the client subscribed to the event's
    domain, and it then still holds window monitoring for windows and clipboard
    monitoring for the clipboard; and taking a frame keeps the lease well formed,
    moves the client's picture of the windows exactly as the lease's, and leaves
    it alone for the other domains. *)
Theorem source_event_gated w lease frame ok session lease' refresh_out out :
  state_ok lease -> state_source_event w lease frame = Some (ok, session, lease', refresh_out, out) ->
  (out <> [] -> exists l e,
     refreshed (sw_store w) (sw_verified w) true true true lease l session /\ source_frame_event frame = Some e /\
     fr_flags frame = KSD_FLAG_EVENT /\ lease_active l = true /\ domain_enabled l (ev_domain e) = true) /\
  (ok = true -> exists l,
     refreshed (sw_store w) (sw_verified w) true true true lease l session /\ state_ok lease' /\
     (forall e, fr_flags frame = KSD_FLAG_EVENT -> source_frame_event frame = Some e ->
        if ev_domain e =? KSD_STATE_WINDOWS then domain_enabled l (ev_domain e) = true -> delivers (RL := AL) true l lease' out
        else lease_mirror lease' = lease_mirror lease)).
Proof.
  intros Hl. unfold state_source_event.
  destruct (session_refresh _ _ _ _ _ _) as [[[[[ok1 s1] l1] ch] o1]|] eqn:Er; [|done]. cbn [from_option].
  pose proof (session_refresh_state _ _ _ _ _ _ _ _ _ _ _ Er Hl) as [Hl1 Hm1].
  apply session_refresh_spec in Er. destruct ok1; cbn [negb]; [|by intros [= <- <- <- <- <-]].
  destruct (Z.eqb_spec (fr_flags frame) KSD_FLAG_RESPONSE) as [Hf|Hf].
  { intros [= <- <- <- <- <-]. split; [done|]. intros _. exists l1. split; [done|]. split; [done|].
    intros e Hf'. rewrite Hf in Hf'. done. }
  destruct (Z.eqb_spec (fr_flags frame) KSD_FLAG_EVENT) as [Hfe|]; cbn [negb]; [|by intros [= <- <- <- <- <-]].
  destruct (source_frame_event frame) as [e|] eqn:Ee; [|by intros [= <- <- <- <- <-]].
  destruct (pass_event _ _ _) as [[[ok2 l2] o2]|] eqn:Ep; [|done]. cbn [from_option]. intros [= <- <- <- <- <-].
  destruct (pass_event_spec _ _ _ _ _ _ Ep) as [Hout Hok]. split.
  - intros Hne. exists l1, e. do 3 (split; [done|]). split; [apply Er|by apply Hout].
  - intros ->. destruct (Hok Hl1 eq_refl (source_frame_event_ok _ _ Ee)) as (H1 & _ & H3). exists l1.
    split; [done|]. split; [done|]. intros e' _ [= <-]. case_match; [done|congruence].
Qed.

(** An emission either leaves the lease as it is or ends it. *)
Lemma lease_emit_kept calls l e ok l' out :
  lease_emit calls l e = Some (ok, l', out) ->
  lease_domains l' = lease_domains l /\ (if ok then l' = l else lease_active l' = false).
Proof.
  destruct ok; intros H; [by apply lease_emit_ok in H as [-> _]|].
  apply lease_emit_failed in H as (Ha & Hd & Hl). split; [|done]. destruct (lease_active l); [by rewrite Hd|].
  by destruct (Hl eq_refl) as [-> _].
Qed.

Lemma emit_each_kept events : forall calls l ok l' out,
  emit_each calls l events = Some (ok, l', out) ->
  lease_domains l' = lease_domains l /\ (lease_active l' = true -> l' = l).
Proof.
  induction events as [|e events IH]; intros calls l ok l' out; cbn [emit_each]; [by intros [= <- <- <-]|].
  destruct calls as [|c calls]; [done|]. destruct (lease_emit c l e) as [[[ok1 l1] o1]|] eqn:E; [|done]. cbn [from_option].
  destruct (emit_each calls l1 events) as [[[rest l2] o2]|] eqn:E2; [|done]. cbn [from_option]. intros [= <- <- <-].
  apply lease_emit_kept in E as [Hd1 H1]. destruct (IH _ _ _ _ _ E2) as [Hd2 H2]. split; [congruence|].
  intros Ha. specialize (H2 Ha). subst l2. destruct ok1; [done|congruence].
Qed.

Lemma deactivate_granted l : domains_granted (deactivate l).
Proof. done. Qed.

Lemma subscribe_granted l domains : denied_scopes domains (lease_granted_scopes l) = false -> domains_granted (subscribe_lease l domains).
Proof.
  unfold denied_scopes, domains_granted. rewrite orb_false_iff, !andb_false_iff, !negb_false_iff, !Z.eqb_eq, !Z.eqb_neq.
  intros [H1 H2] _. cbn [subscribe_lease with_windows with_domains with_scopes lease_domains lease_granted_scopes].
  rewrite !negb_true_iff, !Z.eqb_neq. intuition.
Qed.

Lemma subscribe_domains_spec (w : subscribe_world (S := S)) session l domains out r :
  denied_scopes domains (lease_granted_scopes l) = false -> subscribe_domains w session l domains out = Some r ->
  lease_domains (sb_lease r) = domains /\ domains_granted (sb_lease r) /\
  exists answer, sb_reply r = Some answer /\
    (rp_status answer = KSD_STATUS_OK /\
     start_sources (watch_uses_display_worker (bw_backend w)) domains (bw_start w) = (true, sb_sources r) \/
     rp_status answer = KSD_STATUS_UNAVAILABLE).
Proof.
  intros Hden. pose proof (subscribe_granted l domains Hden) as Hsub. unfold subscribe_domains.
  destruct (start_sources _ _ _) as [ok started].
  set (answer := if ok then _ else _). assert (Hanswer : rp_status answer = KSD_STATUS_OK /\ (ok, started) = (true, started)
    \/ rp_status answer = KSD_STATUS_UNAVAILABLE) by (unfold answer; destruct ok; [by left|by right]).
  destruct (bw_reply_sent w); cbn [negb]; [|intros [= <-]; split; [done|]; split; [apply deactivate_granted|by exists answer]].
  destruct (Z.land domains KSD_STATE_GRANTS =? 0); cbn [negb]; [intros [= <-]; split; [done|]; split; [done|by exists answer]|].
  destruct (emit_each _ _ _) as [[[em l2] o]|] eqn:E; [|done]. cbn [from_option]. intros [= <-].
  apply emit_each_kept in E as [Hd Hl2]. split; [done|]. split; [|by exists answer].
  cbn [sb_lease]. intros Ha. pose proof (Hl2 Ha) as ->. by apply Hsub.
Qed.

(** A subscription is taken only as far as the permissions go: a success
    means that the request came on the lease's own connection, named known
    domains only, that the scopes the lease had after being refreshed from the
    store include those the domains need, and that every source they need
    started; the lease is then subscribed to exactly those domains.  A denied or
    malformed request leaves the subscriptions and the sources as they were, but
    for what the refresh took away, and no request leaves a live lease subscribed
    to a domain without its scope. *)
Theorem subscribe_exact (w : subscribe_world (S := S)) role lease sources payload r :
  handle_state_subscribe w role lease sources payload = Some r ->
  let domains := ksd_decode_u32 payload in
  (domains_granted lease -> domains_granted (sb_lease r)) /\
  (forall answer, sb_reply r = Some answer -> rp_status answer = KSD_STATUS_OK ->
     role = KSD_ROLE_AUTHORIZATION_LEASE /\ zlen payload = 4 /\ Z.land KSD_STATE_ALL domains = domains /\
     lease_domains (sb_lease r) = domains /\
     start_sources (watch_uses_display_worker (bw_backend w)) domains (bw_start w) = (true, sb_sources r) /\
     exists l session, refreshed (bw_store w) (bw_verified w) true true true lease l session /\
       denied_scopes domains (lease_granted_scopes l) = false) /\
  (forall answer, sb_reply r = Some answer ->
     rp_status answer = KSD_STATUS_DENIED \/ rp_status answer = KSD_STATUS_INVALID_REQUEST ->
     sb_sources r = sources /\
     (lease_domains (sb_lease r) = lease_domains lease \/
      exists l session, refreshed (bw_store w) (bw_verified w) true true true lease l session /\
        lease_domains (sb_lease r) = lease_domains l)).
Proof.
  intros H domains. revert H. unfold handle_state_subscribe. fold domains.
  destruct (Z.eqb_spec role KSD_ROLE_AUTHORIZATION_LEASE) as [Hrole|Hrole]; cbn [negb orb].
  2:{ intros [= <-]. cbn. destruct (bw_reply_sent w); (split; [done|]; split; [by intros a [= <-]|]; intros a _ _; split; [done|by left]). }
  destruct (Z.eqb_spec (zlen payload) 4) as [Hz|Hz]; cbn [negb].
  2:{ intros [= <-]. cbn. destruct (bw_reply_sent w); (split; [done|]; split; [by intros a [= <-]|]; intros a _ _; split; [done|by left]). }
  destruct (Z.eqb_spec (Z.land domains (u32 (Z.lnot KSD_STATE_ALL))) 0) as [Hall|]; cbn [negb]; [|by intros [= <-]].
  destruct (session_refresh _ _ _ _ _ _) as [[[[[ok1 s1] l1] ch] o1]|] eqn:Er; [|done]. cbn [from_option].
  apply session_refresh_spec in Er. pose proof Er as (_ & _ & _ & _ & Hok1 & Hd1). specialize (Hd1 eq_refl).
  destruct ok1; cbn [negb]; [|by intros [= <-]]. destruct Hok1 as (_ & _ & ->). cbn [se_granted_scopes].
  destruct (denied_scopes domains (lease_granted_scopes l1)) eqn:Eden.
  { intros [= <-]. cbn. split; [destruct (bw_reply_sent w); [done|intros _; apply deactivate_granted]|].
    split; [by intros a [= <-]|]. intros a _ _. split; [done|]. right. eexists l1, _. split; [exact Er|].
    by destruct (bw_reply_sent w). }
  intros Hs. destruct (subscribe_domains_spec _ _ _ _ _ _ Eden Hs) as (Hdom & Hg & answer & Ha & Hst). split; [done|].
  rewrite Ha. split; intros a [= <-].
  - intros Hok. destruct Hst as [[_ Hst]|Hst]; [|by rewrite Hst in Hok]. do 2 (split; [done|]).
    split; [apply land_u32_lnot; [by apply u32_list|done]|]. do 2 (split; [done|]). by eexists l1, _.
  - intros Hbad. exfalso. destruct Hst as [[Hst _]|Hst]; rewrite Hst in Hbad; by destruct Hbad.
Qed.
End theorems.

(** ** Witnesses *)

#[local] Existing Instance infinite_memory.
#[local] Existing Instance sample_permissions.

Definition sample_source_world : source_world (S := sample_store) :=
  mk_source_world store_before (Some app_identity) all_sent all_sent.
Definition sample_source_frame : ksd_frame :=
  event_message KSD_OP_STATE_EVENT (event_bytes (sample_report KSD_STATE_CHANGED sample_window)).
Definition sample_subscribe_world : subscribe_world (S := sample_store) :=
  mk_subscribe_world store_before (Some app_identity) all_sent KSD_BACKEND_X11 (fun _ => true) true [all_sent; all_sent; all_sent].

Lemma held_lease_ok : state_ok held_lease.
Proof.
  split; [|split; split; constructor]. split; [by vm_compute|]. split; [done|].
  cbn. repeat (constructor; [by vm_compute|]). constructor.
Qed.

Lemma source_event_gated_witness :
  match state_source_event sample_source_world held_lease sample_source_frame with
  | Some (ok, session, lease', refresh_out, out) =>
    ok = true /\ out <> [] /\ lease_granted_scopes lease' = 4 /\
    exists l e, source_frame_event sample_source_frame = Some e /\ domain_enabled l (ev_domain e) = true
  | None => False
  end.
Proof.
  destruct (state_source_event sample_source_world held_lease sample_source_frame)
    as [[[[[ok session] lease'] refresh_out] out]|] eqn:E.
  - destruct (source_event_gated _ _ _ _ _ _ _ _ held_lease_ok E) as [H _]. vm_compute in E. injection E as <- <- <- <- <-.
    split; [reflexivity|]. split; [discriminate|]. split; [reflexivity|].
    destruct H as (l & e & _ & He & _ & _ & Hd); [discriminate|]. exists l, e. split; [exact He|exact Hd].
  - vm_compute in E. discriminate E.
Defined.

Lemma subscribe_exact_witness :
  match handle_state_subscribe sample_subscribe_world KSD_ROLE_AUTHORIZATION_LEASE held_lease [0] (ksd_encode_u32 21) with
  | Some r =>
    sb_ok r = true /\ lease_domains (sb_lease r) = 21 /\ sb_sources r = [0] /\
    exists answer, sb_reply r = Some answer /\ rp_status answer = KSD_STATUS_OK
  | None => False
  end.
Proof.
  destruct (handle_state_subscribe sample_subscribe_world KSD_ROLE_AUTHORIZATION_LEASE held_lease [0] (ksd_encode_u32 21))
    as [r|] eqn:E.
  - destruct (subscribe_exact sample_subscribe_world KSD_ROLE_AUTHORIZATION_LEASE held_lease [0] (ksd_encode_u32 21) r E)
      as (_ & H & _).
    vm_compute in E. injection E as <-. split; [reflexivity|].
    destruct (H _ eq_refl eq_refl) as (_ & _ & _ & Hd & _). split; [exact Hd|]. split; [reflexivity|]. by eexists.
  - vm_compute in E. discriminate E.
Defined.
