(* ===== verification/Relay.v ===== *)
(** * The relay of a registered daemon (src/kwin_relay.c)

    One socket to a session daemon shared by every connection thread of the
    authority: requests are told apart by an id of the relay's own, and there is
    no reader thread, a caller that finds no reader reads for all.  First the
    sections each thread runs under the relay's mutex, as functions on the relay;
    then the calls that interleave them, as a step relation over the relay and
    the phase every call is in; then what the whole promises, which is a map from
    ids to answers ([channel]). *)
From Stdlib Require Import ZArith Lia Strings.Byte Strings.String.
From stdpp Require Import base list option numbers tactics gmap.
From S2P Require Import Prelude.
From S2P Require Import Protocol.
From S2P Require Import Codec.
From S2P Require Import Buffer.
From S2P Require Import Transport.
From S2P Require Import Frame.
From S2P Require Import Result.
Local Open Scope Z_scope.
Local Open Scope ksd_scope.

Definition KSD_RELAY_CAPTURE_FD : Z := 0x8000.
Definition KSD_KWIN_RELAY_PENDING : Z := 128.
Definition relay_magic : list byte := ksd_public_magic.

Record relay_pending := mk_pending {
  pd_active : bool;
  pd_done : bool;
  pd_request_id : Z;
  pd_status : Z;
  pd_detail : Z;
  pd_tail : option (list byte);
  pd_tail_length : Z;
  pd_payload_fd : Z;
  pd_opcode : Z;
}.
Definition free_slot : relay_pending := mk_pending false false 0 0 0 None 0 (-1) 0.

Record ksd_kwin_relay := mk_relay {
  rl_descriptor : Z;
  rl_writing : bool;
  rl_reading : bool;
  rl_broken : bool;
  rl_refs : Z;
  rl_next_request_id : Z;
  rl_pending : list relay_pending;
}.

Definition with_flags (r : ksd_kwin_relay) (writing reading broken : bool) : ksd_kwin_relay :=
  mk_relay (rl_descriptor r) writing reading broken (rl_refs r) (rl_next_request_id r) (rl_pending r).
Definition with_pending (r : ksd_kwin_relay) (next : Z) (pending : list relay_pending) : ksd_kwin_relay :=
  mk_relay (rl_descriptor r) (rl_writing r) (rl_reading r) (rl_broken r) (rl_refs r) next pending.
Definition with_refs (r : ksd_kwin_relay) (refs : Z) : ksd_kwin_relay :=
  mk_relay (rl_descriptor r) (rl_writing r) (rl_reading r) (rl_broken r) refs (rl_next_request_id r) (rl_pending r).

(** ** The relay's life *)

Definition ksd_kwin_relay_create (descriptor : Z) : option ksd_kwin_relay :=
  guard* negb (descriptor <? 0) in
  Some (mk_relay descriptor false false false 1 1 (repeat free_slot (Z.to_nat KSD_KWIN_RELAY_PENDING))).

Definition ksd_kwin_relay_acquire (relay : ksd_kwin_relay) : ksd_kwin_relay :=
  with_refs relay (u32 (rl_refs relay + 1)).

(** The descriptor a slot holds. *)
Definition slot_fds (slot : relay_pending) : list Z := if 0 <=? pd_payload_fd slot then [pd_payload_fd slot] else [].

(** The relay left, [None] once it is freed, and the descriptors closed. *)
Definition ksd_kwin_relay_release (relay : ksd_kwin_relay) : option ksd_kwin_relay * list Z :=
  let relay := with_refs relay (u32 (rl_refs relay - 1)) in
  if rl_refs relay =? 0
  then (None, concat (map slot_fds (rl_pending relay)) ++ (if 0 <=? rl_descriptor relay then [rl_descriptor relay] else []))
  else (Some relay, []).

(** The section of [ksd_kwin_relay_retire] under its lock, and the whole of it. *)
Definition retire_broken (relay : ksd_kwin_relay) : ksd_kwin_relay :=
  with_flags relay (rl_writing relay) (rl_reading relay) true.
Definition ksd_kwin_relay_retire (relay : ksd_kwin_relay) : option ksd_kwin_relay * list Z :=
  ksd_kwin_relay_release (retire_broken relay).

Definition ksd_kwin_relay_is_broken (relay : option ksd_kwin_relay) : bool :=
  match relay with None => true | Some relay => rl_broken relay end.

(** ** Reading an answer *)

(** What [fstat] and [fcntl] say of a received file; -1 are the failures. *)
Record file_info := mk_info { fi_regular : bool; fi_size : Z; fi_seals : Z }.
Definition KSD_CAPTURE_SEALS : Z := 15.

(** An answer: a tail in the frame, or a file of a length. *)
Record relay_answer := mk_answer {
  an_request_id : Z;
  an_status : Z;
  an_detail : Z;
  an_tail : list byte;
  an_tail_length : Z;
  an_file : bool;
}.

(** The checks on a header: the length of the body and whether a file comes. *)
Definition relay_header (header : list byte) (payload_fd : Z) : option (Z * bool) :=
  let payload_length := ksd_decode_u32 (zdrop KSD_FRAME_PAYLOAD_LENGTH_OFFSET header) in
  let flags := ksd_decode_u16 (zdrop KSD_FRAME_FLAGS_OFFSET header) in
  let file_response := flags =? KSD_RELAY_CAPTURE_FD in
  guard* negb (negb (bytes_eqb (ztake 4 header) relay_magic)
    || negb (ksd_decode_u16 (zdrop KSD_FRAME_MAJOR_OFFSET header) =? KSD_PROTOCOL_MAJOR)
    || negb (ksd_decode_u16 (zdrop KSD_FRAME_MINOR_OFFSET header) =? KSD_PROTOCOL_MINOR)
    || (negb (flags =? 0) && negb file_response) || negb (Bool.eqb file_response (0 <=? payload_fd))
    || (payload_length <? 8) || (KSD_MAX_TEXT_BYTES + 8 <? payload_length)
    || (file_response && negb (payload_length =? 12))) in
  Some (payload_length, file_response).

(** The checks on a body. *)
Definition relay_body (header body : list byte) (file_response : bool) (info : file_info) : option relay_answer :=
  let status := ksd_decode_u32 body in
  let tail_length := if file_response then ksd_decode_u32 (zdrop 8 body) else zlen body - 8 in
  guard* negb (file_response
    && (negb (status =? KSD_STATUS_OK) || (tail_length <? 20) || (KSD_MAX_CAPTURE_TAIL <? tail_length)
        || negb (fi_regular info) || negb (fi_size info =? tail_length) || (fi_seals info <? 0)
        || negb (Z.land (fi_seals info) KSD_CAPTURE_SEALS =? KSD_CAPTURE_SEALS))) in
  Some (mk_answer (ksd_decode_u64 (zdrop KSD_FRAME_REQUEST_ID_OFFSET header)) status
          (ksd_decode_u32 (zdrop 4 body)) (zdrop 8 body) tail_length file_response).

Section relay.
Context {AL : Allocator}.

(** What a reader comes back with: nothing before its deadline, a broken
    channel with the descriptors closed, or an answer and its descriptor. *)
Inductive read_outcome := ReadQuiet | ReadBroken (closed : list Z) | ReadAnswer (answer : relay_answer) (payload_fd : Z) (closed : list Z).

Definition close_fd (fd : Z) : list Z := if 0 <=? fd then [fd] else [].

(** Whether [errno] is ETIMEDOUT after a wait that failed: [poll] sets it when it
    fails or is interrupted, and leaves it as it was, [timedout], when it reports
    an error of the socket. *)
Definition errno_timedout (timedout : bool) (wait : list wait_step) : bool :=
  match wait with
  | step :: _ => match ws_poll step with PollReady _ => timedout | _ => false end
  | [] => timedout
  end.

(** The reading half of [read_one], with the [errno] it finds; [stream] is what
    the daemon sent after the header, which arrives in [headers] with its
    descriptors. *)
Definition read_answer (timedout : bool) (deadline_ms : Z) (wait : list wait_step) (headers : list recv_turn) (bodies : list io_turn)
    (stream : list byte) (info : file_info) : option read_outcome :=
  match ksd_wait_until POLLIN deadline_ms wait with
  | None => None
  | Some WaitTimeout => Some ReadQuiet
  | Some WaitFailed => Some (if errno_timedout timedout wait then ReadQuiet else ReadBroken [])
  | Some WaitOk =>
    let* received := ksd_receive_fd_until KSD_FRAME_HEADER_SIZE deadline_ms headers in
    match rcv_result received with
    | None => Some (ReadBroken (rcv_closed received))
    | Some (header, payload_fd) =>
      let malformed := Some (ReadBroken (rcv_closed received ++ close_fd payload_fd)) in
      match relay_header header payload_fd with
      | None => malformed
      | Some (payload_length, file_response) =>
        if negb (alloc_ok payload_length) then malformed
        else
          let* (got, stream, turns) := transfer_recv deadline_ms payload_length bodies stream [] in
          match got with
          | TransferDone body =>
            match relay_body header body file_response info with
            | None => malformed
            | Some answer => Some (ReadAnswer answer payload_fd (rcv_closed received))
            end
          | _ => malformed
          end
      end
    end
  end.

Definition is_capture (opcode : Z) : bool :=
  (opcode =? KSD_OP_CAPTURE_AREA) || (opcode =? KSD_OP_CAPTURE_WINDOW) || (opcode =? KSD_OP_CAPTURE_DESKTOP).

(** The slot that waits for an answer. *)
Definition awaits (request_id : Z) (slot : relay_pending) : bool :=
  pd_active slot && negb (pd_done slot) && (pd_request_id slot =? request_id).

(** What an answer makes of its slot. *)
Definition answered_slot (slot : relay_pending) (a : relay_answer) (payload_fd : Z) : relay_pending :=
  if an_file a then
    mk_pending (pd_active slot) true (pd_request_id slot) (an_status a) (an_detail a) (pd_tail slot) (an_tail_length a)
      payload_fd (pd_opcode slot)
  else if negb (an_tail_length a =? 0) then
    if alloc_ok (an_tail_length a + 1)
    then mk_pending (pd_active slot) true (pd_request_id slot) (an_status a) (an_detail a) (Some (an_tail a))
           (an_tail_length a) (pd_payload_fd slot) (pd_opcode slot)
    else mk_pending (pd_active slot) true (pd_request_id slot) KSD_STATUS_RESOURCE_EXHAUSTED (an_detail a) (pd_tail slot)
           (pd_tail_length slot) (pd_payload_fd slot) (pd_opcode slot)
  else mk_pending (pd_active slot) true (pd_request_id slot) (an_status a) (an_detail a) (pd_tail slot)
         (pd_tail_length slot) (pd_payload_fd slot) (pd_opcode slot).

(** A file for a request that asked for none breaks the channel. *)
Definition refused_slot (slot : relay_pending) (a : relay_answer) : relay_pending :=
  mk_pending (pd_active slot) (pd_done slot) (pd_request_id slot) (an_status a) (an_detail a) (pd_tail slot)
    (pd_tail_length slot) (pd_payload_fd slot) (pd_opcode slot).

(** The delivering half of [read_one]: whether the channel holds, the relay, and
    the descriptors closed. *)
Definition deliver (relay : ksd_kwin_relay) (a : relay_answer) (payload_fd : Z) : bool * ksd_kwin_relay * list Z :=
  match find_index (awaits (an_request_id a)) (rl_pending relay) with
  | None => (true, relay, close_fd payload_fd)
  | Some i =>
    let slot := nth i (rl_pending relay) free_slot in
    if an_file a && negb (is_capture (pd_opcode slot))
    then (false, with_pending relay (rl_next_request_id relay) (<[i := refused_slot slot a]> (rl_pending relay)),
          close_fd payload_fd)
    else (true, with_pending relay (rl_next_request_id relay) (<[i := answered_slot slot a payload_fd]> (rl_pending relay)),
          if an_file a then [] else close_fd payload_fd)
  end.

(** ** The sections of a call *)

Inductive call_begun := CallClosed | CallBusy | CallBegun (slot : nat) (request_id : Z) (relay : ksd_kwin_relay).

Definition call_begin (relay : ksd_kwin_relay) (opcode : Z) : call_begun :=
  if rl_broken relay then CallClosed
  else
    match find_index (fun slot => negb (pd_active slot)) (rl_pending relay) with
    | None => CallBusy
    | Some i =>
      let request_id := rl_next_request_id relay in
      CallBegun i request_id
        (with_pending relay (u64 (request_id + 1))
           (<[i := mk_pending true false request_id 0 0 None 0 (-1) opcode]> (rl_pending relay)))
    end.

(** The request as it is sent: the caller's, under the relay's id. *)
Definition call_pack (request : ksd_frame) (request_id : Z) : option (list byte) :=
  let outgoing := mk_frame (fr_magic request) (fr_major request) (fr_minor request) (fr_opcode request)
                    (fr_flags request) (fr_payload_length request) request_id (fr_payload request) in
  let '(sent, packed) := ksd_frame_pack outgoing
                           (ksd_buffer_init (KSD_FRAME_HEADER_SIZE + fr_payload_length request + 16)) in
  guard* sent in Some (buf_bytes packed).

(** A caller goes on waiting for the writer's role. *)
Definition must_wait_to_write (relay : ksd_kwin_relay) : bool := rl_writing relay && negb (rl_broken relay).
(** It takes the role at [now], unless it is too late. *)
Definition write_admit (relay : ksd_kwin_relay) (deadline_ms now : Z) : option ksd_kwin_relay :=
  guard* negb (rl_writing relay) && negb (rl_broken relay) && negb (now =? 0) && (now <? deadline_ms) in
  Some (with_flags relay true (rl_reading relay) (rl_broken relay)).
Definition write_done (relay : ksd_kwin_relay) (sent : bool) : ksd_kwin_relay :=
  with_flags relay false (rl_reading relay) (if sent then rl_broken relay else true).

(** What a caller that has sent its request does next. *)
Inductive call_turn := TurnStop | TurnRead (relay : ksd_kwin_relay) | TurnSleep.
Definition call_next (relay : ksd_kwin_relay) (slot : nat) (deadline_ms now : Z) : call_turn :=
  if pd_done (nth slot (rl_pending relay) free_slot) || rl_broken relay then TurnStop
  else if (now =? 0) || (deadline_ms <=? now) then TurnStop
  else if negb (rl_reading relay) then TurnRead (with_flags relay (rl_writing relay) true (rl_broken relay))
  else TurnSleep.
Definition read_done (relay : ksd_kwin_relay) (ok : bool) : ksd_kwin_relay :=
  with_flags relay (rl_writing relay) false (if ok then rl_broken relay else true).

Definition refusal_text : list byte := cstr "the compositor refused the operation".

(** The answer of the slot, if it has one, and what is closed. *)
Definition slot_result (slot : relay_pending) (result : ksd_operation_result) : bool * ksd_operation_result * list Z :=
  if negb (pd_done slot) then (false, result, slot_fds slot)
  else if (pd_status slot =? KSD_STATUS_OK) && (0 <=? pd_payload_fd slot)
  then ksd_result_take_fd result (pd_payload_fd slot) (pd_tail_length slot)
  else if (pd_status slot =? KSD_STATUS_OK) && negb (pd_tail_length slot =? 0)
  then let '(ok, result, closed) := ksd_result_take result (pd_tail slot) (pd_tail_length slot) in
       (ok, result, closed ++ slot_fds slot)
  else if pd_status slot =? KSD_STATUS_OK
  then let '(ok, result, closed) := ksd_result_take result None 0 in (ok, result, closed ++ slot_fds slot)
  else let '(result, closed) := ksd_result_error result (pd_status slot) (pd_detail slot)
         (Some (if negb (pd_tail_length slot =? 0) then until_nul (default [] (pd_tail slot)) else refusal_text)) in
       (true, result, closed ++ slot_fds slot).

Definition free_pending (relay : ksd_kwin_relay) (slot : nat) : ksd_kwin_relay :=
  with_pending relay (rl_next_request_id relay) (<[slot := free_slot]> (rl_pending relay)).

(** The end of a call: what it returns, the relay without its slot, and the
    descriptors closed. *)
Definition call_finish (relay : ksd_kwin_relay) (slot : nat) (sent attempted : bool) (result : ksd_operation_result)
    : ksd_operation_result * ksd_kwin_relay * list Z :=
  let '(answered, result, closed) := slot_result (nth slot (rl_pending relay) free_slot) result in
  let relay := free_pending relay slot in
  if answered then (result, relay, closed)
  else
    let '(result, closed') :=
      if negb sent && negb attempted
      then ksd_result_error result KSD_STATUS_BUSY 0 (Some (cstr "could not reach the compositor"))
      else ksd_result_error result KSD_STATUS_TIMEOUT 0 (Some (cstr "the compositor did not answer in time")) in
    (result, relay, closed ++ closed').

Definition call_refused (begun : call_begun) (result : ksd_operation_result) : ksd_operation_result * list Z :=
  match begun with
  | CallClosed => ksd_result_error result KSD_STATUS_UNAVAILABLE 0 (Some (cstr "the compositor channel is closed"))
  | _ => ksd_result_error result KSD_STATUS_BUSY 0 (Some (cstr "too many requests in flight for this compositor"))
  end.
End relay.
