(* ===== verification/RelaySystem.v ===== *)
(** * Concurrent calls over one relay (src/kwin_relay.c)

    The threads of the authority inside [ksd_kwin_relay_call] at once, each step
    one section under the relay's mutex, interleaved in any order, with the
    registration that may be retired at any moment.  The invariant says who holds
    the two roles and which call owns which slot; the refinement says that the
    table of slots behaves as a map from calls to their answers; the other
    theorems are that nobody sleeps without a thread that will wake him, that the
    relay is freed when its last user leaves and no earlier, and that no
    descriptor is lost or closed twice. *)
From Stdlib Require Import ZArith Lia Strings.Byte Strings.String.
From stdpp Require Import base list option numbers tactics gmap fin_maps.
From S2P Require Import Prelude.
From S2P Require Import Protocol.
From S2P Require Import Codec.
From S2P Require Import Buffer.
From S2P Require Import Transport.
From S2P Require Import Frame.
From S2P Require Import Result.
From S2P Require Import Relay.
Local Open Scope Z_scope.
Local Open Scope ksd_scope.

(** ** Calls and their phases *)

(** Where a thread stands between two sections: before its request is written,
    maybe asleep; writing it; waiting for its answer, maybe asleep; reading for
    all; back from reading; or with nothing to wait for. *)
Inductive phase :=
| PEnter (asleep : bool)
| PWriting
| PWait (asleep : bool)
| PReading
| PRead (ok : bool)
| PUnsent (attempted : bool).

Record call := mk_call { cl_slot : nat; cl_id : Z; cl_opcode : Z; cl_deadline : Z; cl_phase : phase }.
Definition with_phase (c : call) (p : phase) : call := mk_call (cl_slot c) (cl_id c) (cl_opcode c) (cl_deadline c) p.

(** A thread with a reference to the relay, and the call it makes, if any. *)
Inductive caller := Holding | Inside (c : call).

Definition is_writing (p : phase) : bool := match p with PWriting => true | _ => false end.
Definition is_reading (p : phase) : bool := match p with PReading | PRead _ => true | _ => false end.
Definition asleep (p : phase) : bool := match p with PEnter a | PWait a => a | _ => false end.
Definition sent (p : phase) : bool := match p with PWait _ => true | _ => false end.
Definition attempted (p : phase) : bool :=
  match p with PEnter _ => false | PUnsent attempted => attempted | _ => true end.
Definition awake (p : phase) : phase := match p with PEnter _ => PEnter false | PWait _ => PWait false | p => p end.

(** [pthread_cond_broadcast] *)
Definition wake (c : caller) : caller :=
  match c with Holding => Holding | Inside c => Inside (with_phase c (awake (cl_phase c))) end.

(** A request that cannot be packed is never sent. *)
Definition packed_phase (packed : option (list byte)) : phase :=
  match packed with Some _ => PEnter false | None => PUnsent false end.

Record system := mk_system {
  sy_relay : option ksd_kwin_relay;
  sy_callers : gmap nat caller;
  sy_retired : bool;
  sy_issued : Z;
}.
Definition start (relay : ksd_kwin_relay) : system := mk_system (Some relay) ∅ false 0.

(** What a step does: requests begun, written, answered and returned, which are
    seen outside; a step of thread [t] that is not; and a sleeper woken by nobody,
    as a condition variable may. *)
Inductive event :=
| EvInternal (t : nat)
| EvWoken (t : nat)
| EvBegin (t : nat) (request_id opcode : Z)
| EvRefused (t : nat) (result : ksd_operation_result)
| EvAttempt (t : nat)
| EvAnswer (a : relay_answer) (payload_fd : Z)
| EvReturn (t : nat) (result : ksd_operation_result).

Section system.
Context {AL : Allocator}.

(** The result of a call starts empty. *)
Definition finish (r : ksd_kwin_relay) (c : call) : ksd_operation_result * ksd_kwin_relay * list Z :=
  call_finish r (cl_slot c) (sent (cl_phase c)) (attempted (cl_phase c)) ksd_result_init.

(** One section: from a system to the next, with the thread and what is seen of
    it, the descriptors that came in and those that were closed.  Whoever retires
    the relay holds the registration's reference from then on, and gives it up
    as any other. *)
Inductive step : system -> event -> list Z -> list Z -> system -> Prop :=
| StepAcquire r cs issued t :
    cs !! t = None -> Z.of_nat (size cs) + 2 < UINT32_MAX ->
    step (mk_system (Some r) cs false issued) (EvInternal t) [] []
         (mk_system (Some (ksd_kwin_relay_acquire r)) (<[t := Holding]> cs) false issued)
| StepRetire r cs issued t :
    cs !! t = None ->
    step (mk_system (Some r) cs false issued) (EvInternal t) [] []
         (mk_system (Some (retire_broken r)) (<[t := Holding]> (wake <$> cs)) true issued)
| StepLeave r r' cs retired issued t closed :
    cs !! t = Some Holding -> ksd_kwin_relay_release r = (r', closed) ->
    step (mk_system (Some r) cs retired issued) (EvInternal t) [] closed (mk_system r' (delete t cs) retired issued)
| StepRefused r cs retired issued t opcode begun result closed :
    cs !! t = Some Holding -> call_begin r opcode = begun -> begun = CallClosed \/ begun = CallBusy ->
    call_refused begun ksd_result_init = (result, closed) ->
    step (mk_system (Some r) cs retired issued) (EvRefused t result) [] closed (mk_system (Some r) cs retired issued)
| StepBegin r r' cs retired issued t request i id deadline :
    cs !! t = Some Holding -> call_begin r (fr_opcode request) = CallBegun i id r' ->
    step (mk_system (Some r) cs retired issued) (EvBegin t id (fr_opcode request)) [] []
         (mk_system (Some r')
            (<[t := Inside (mk_call i id (fr_opcode request) deadline (packed_phase (call_pack request id)))]> cs)
            retired (issued + 1))
| StepWaitToWrite r cs retired issued t c :
    cs !! t = Some (Inside c) -> cl_phase c = PEnter false -> must_wait_to_write r = true ->
    step (mk_system (Some r) cs retired issued) (EvInternal t) [] []
         (mk_system (Some r) (<[t := Inside (with_phase c (PEnter true))]> cs) retired issued)
| StepWake r cs retired issued t c :
    cs !! t = Some (Inside c) -> asleep (cl_phase c) = true ->
    step (mk_system (Some r) cs retired issued) (EvWoken t) [] []
         (mk_system (Some r) (<[t := Inside (with_phase c (awake (cl_phase c)))]> cs) retired issued)
| StepAttempt r r' cs retired issued t c a now :
    cs !! t = Some (Inside c) -> cl_phase c = PEnter a -> write_admit r (cl_deadline c) now = Some r' ->
    step (mk_system (Some r) cs retired issued) (EvAttempt t) [] []
         (mk_system (Some r') (<[t := Inside (with_phase c PWriting)]> cs) retired issued)
| StepGiveUp r cs retired issued t c a now :
    cs !! t = Some (Inside c) -> cl_phase c = PEnter a -> write_admit r (cl_deadline c) now = None ->
    (a = true /\ cl_deadline c <> UINT64_MAX) \/ must_wait_to_write r = false ->
    step (mk_system (Some r) cs retired issued) (EvInternal t) [] []
         (mk_system (Some r) (<[t := Inside (with_phase c (PUnsent false))]> cs) retired issued)
| StepWritten r cs retired issued t c ok :
    cs !! t = Some (Inside c) -> cl_phase c = PWriting ->
    step (mk_system (Some r) cs retired issued) (EvInternal t) [] []
         (mk_system (Some (write_done r ok))
            (<[t := Inside (with_phase c (if ok : bool then PWait false else PUnsent true))]> (wake <$> cs)) retired issued)
| StepSleep r cs retired issued t c now :
    cs !! t = Some (Inside c) -> cl_phase c = PWait false -> call_next r (cl_slot c) (cl_deadline c) now = TurnSleep ->
    step (mk_system (Some r) cs retired issued) (EvInternal t) [] []
         (mk_system (Some r) (<[t := Inside (with_phase c (PWait true))]> cs) retired issued)
| StepTakeRole r r' cs retired issued t c now :
    cs !! t = Some (Inside c) -> cl_phase c = PWait false ->
    call_next r (cl_slot c) (cl_deadline c) now = TurnRead r' ->
    step (mk_system (Some r) cs retired issued) (EvInternal t) [] []
         (mk_system (Some r') (<[t := Inside (with_phase c PReading)]> cs) retired issued)
| StepQuiet r cs retired issued t c timedout wait headers bodies stream info :
    cs !! t = Some (Inside c) -> cl_phase c = PReading ->
    read_answer timedout (cl_deadline c) wait headers bodies stream info = Some ReadQuiet ->
    step (mk_system (Some r) cs retired issued) (EvInternal t) [] []
         (mk_system (Some r) (<[t := Inside (with_phase c (PRead true))]> cs) retired issued)
| StepBroken r cs retired issued t c timedout wait headers bodies stream info closed :
    cs !! t = Some (Inside c) -> cl_phase c = PReading ->
    read_answer timedout (cl_deadline c) wait headers bodies stream info = Some (ReadBroken closed) ->
    step (mk_system (Some r) cs retired issued) (EvInternal t) closed closed
         (mk_system (Some r) (<[t := Inside (with_phase c (PRead false))]> cs) retired issued)
| StepAnswer r r' cs retired issued t c timedout wait headers bodies stream info a payload_fd closed ok closed' :
    cs !! t = Some (Inside c) -> cl_phase c = PReading ->
    read_answer timedout (cl_deadline c) wait headers bodies stream info = Some (ReadAnswer a payload_fd closed) ->
    deliver r a payload_fd = (ok, r', closed') ->
    step (mk_system (Some r) cs retired issued) (EvAnswer a payload_fd) (closed ++ close_fd payload_fd) (closed ++ closed')
         (mk_system (Some r') (<[t := Inside (with_phase c (PRead ok))]> cs) retired issued)
| StepReadDone r cs retired issued t c ok :
    cs !! t = Some (Inside c) -> cl_phase c = PRead ok ->
    step (mk_system (Some r) cs retired issued) (EvInternal t) [] []
         (mk_system (Some (read_done r ok)) (<[t := Inside (with_phase c (PWait false))]> (wake <$> cs)) retired issued)
| StepReturn r r' cs retired issued t c now result closed :
    cs !! t = Some (Inside c) ->
    (cl_phase c = PWait true /\ cl_deadline c <> UINT64_MAX)
      \/ (cl_phase c = PWait false /\ call_next r (cl_slot c) (cl_deadline c) now = TurnStop)
      \/ (exists attempted, cl_phase c = PUnsent attempted) ->
    finish r c = (result, r', closed) ->
    step (mk_system (Some r) cs retired issued) (EvReturn t result) [] closed
         (mk_system (Some r') (<[t := Holding]> (wake <$> cs)) retired issued).

(** Steps in a row: what was seen, what came in and what was closed. *)
Inductive run (s : system) : list event -> list Z -> list Z -> system -> Prop :=
| RunStart : run s [] [] [] s
| RunStep tr ins closed s1 ev ins' closed' s2 :
    run s tr ins closed s1 -> step s1 ev ins' closed' s2 -> run s (tr ++ [ev]) (ins ++ ins') (closed ++ closed') s2.
End system.

(** ** What holds between steps *)

(** The slot, the id and the operation of a caller's call. *)
Definition key_of (o : option caller) : option (nat * Z * Z) :=
  match o with Some (Inside c) => Some (cl_slot c, cl_id c, cl_opcode c) | _ => None end.
Definition key (cs : gmap nat caller) (t : nat) : option (nat * Z * Z) := key_of (cs !! t).
Definition holds_of (has : phase -> bool) (o : option caller) : bool :=
  match o with Some (Inside c) => has (cl_phase c) | _ => false end.
Definition holds (has : phase -> bool) (cs : gmap nat caller) (t : nat) : bool := holds_of has (cs !! t).

(** A role is held by one caller when its flag is set, and by none otherwise. *)
Definition role (flag : bool) (has : phase -> bool) (cs : gmap nat caller) : Prop :=
  (flag = true <-> exists t, holds has cs t = true) /\
  forall t u, holds has cs t = true -> holds has cs u = true -> t = u.

(** A free slot is blank, and a slot without an answer holds nothing. *)
Definition slot_ok (slot : relay_pending) : Prop :=
  (pd_active slot = false -> slot = free_slot) /\
  (pd_done slot = false -> pd_tail slot = None /\ pd_tail_length slot = 0 /\ pd_payload_fd slot = -1).

(** Slots in use and calls correspond one to one. *)
Record owns (slots : list relay_pending) (cs : gmap nat caller) : Prop := mk_owns {
  ow_slot : forall t i id op, key cs t = Some (i, id, op) ->
    exists slot, slots !! i = Some slot /\ pd_active slot = true /\ pd_request_id slot = id /\ pd_opcode slot = op;
  ow_one : forall t u i id op id' op', key cs t = Some (i, id, op) -> key cs u = Some (i, id', op') -> t = u;
  ow_owned : forall i slot, slots !! i = Some slot -> pd_active slot = true -> exists t id op, key cs t = Some (i, id, op);
  ow_ok : forall i slot, slots !! i = Some slot -> slot_ok slot;
}.

(** Calls have ids of their own, for as long as the counter has not wrapped. *)
Definition ids_ok (issued : Z) (cs : gmap nat caller) : Prop :=
  issued < UINT64_MAX ->
  (forall t i id op, key cs t = Some (i, id, op) -> 1 <= id <= issued) /\
  (forall t u i j id op op', key cs t = Some (i, id, op) -> key cs u = Some (j, id, op') -> t = u).

Definition sleeps_to_write (p : phase) : bool := match p with PEnter a => a | _ => false end.
Definition sleeps_to_read (p : phase) : bool := match p with PWait a => a | _ => false end.

(** Whoever sleeps waits for someone with a role, on a channel that holds. *)
Definition sleepers (r : ksd_kwin_relay) (cs : gmap nat caller) : Prop :=
  forall t, (holds sleeps_to_write cs t = true -> rl_writing r = true /\ rl_broken r = false) /\
            (holds sleeps_to_read cs t = true -> rl_reading r = true /\ rl_broken r = false).

Record live (r : ksd_kwin_relay) (cs : gmap nat caller) (retired : bool) (issued : Z) : Prop := mk_live {
  lv_length : length (rl_pending r) = Z.to_nat KSD_KWIN_RELAY_PENDING;
  lv_owns : owns (rl_pending r) cs;
  lv_next : 0 <= issued /\ rl_next_request_id r = u64 (1 + issued);
  lv_ids : ids_ok issued cs;
  lv_writer : role (rl_writing r) is_writing cs;
  lv_reader : role (rl_reading r) is_reading cs;
  lv_sleepers : sleepers r cs;
  lv_refs : rl_refs r = (if retired then 0 else 1) + Z.of_nat (size cs) /\ 0 < rl_refs r < UINT32_MAX;
  lv_retired : retired = true -> rl_broken r = true;
}.

(** A relay that is gone is retired and nobody uses it. *)
Definition relay_inv (s : system) : Prop :=
  match sy_relay s with
  | None => sy_retired s = true /\ sy_callers s = ∅
  | Some r => live r (sy_callers s) (sy_retired s) (sy_issued s)
  end.

(** *** Changing one caller *)

Lemma key_insert cs t x u : key (<[t := x]> cs) u = if decide (u = t) then key_of (Some x) else key cs u.
Proof. unfold key. destruct (decide (u = t)) as [->|]; [by rewrite lookup_insert_eq|by rewrite lookup_insert_ne]. Qed.
Lemma key_delete cs t u : key (delete t cs) u = if decide (u = t) then None else key cs u.
Proof. unfold key. destruct (decide (u = t)) as [->|]; [by rewrite lookup_delete_eq|by rewrite lookup_delete_ne]. Qed.
Lemma key_wake cs u : key (wake <$> cs) u = key cs u.
Proof. unfold key. rewrite lookup_fmap. by destruct (cs !! u) as [[|c]|]. Qed.
Lemma holds_insert has cs t x u :
  holds has (<[t := x]> cs) u = if decide (u = t) then holds_of has (Some x) else holds has cs u.
Proof. unfold holds. destruct (decide (u = t)) as [->|]; [by rewrite lookup_insert_eq|by rewrite lookup_insert_ne]. Qed.
Lemma holds_delete has cs t u : holds has (delete t cs) u = if decide (u = t) then false else holds has cs u.
Proof. unfold holds. destruct (decide (u = t)) as [->|]; [by rewrite lookup_delete_eq|by rewrite lookup_delete_ne]. Qed.

(** Waking everyone changes no role and leaves nobody asleep. *)
Lemma holds_wake has cs u : (forall p, has (awake p) = has p) -> holds has (wake <$> cs) u = holds has cs u.
Proof. intros H. unfold holds. rewrite lookup_fmap. destruct (cs !! u) as [[|c]|]; cbn; by rewrite ?H. Qed.
Lemma writing_wake cs u : holds is_writing (wake <$> cs) u = holds is_writing cs u.
Proof. apply holds_wake. by intros []. Qed.
Lemma reading_wake cs u : holds is_reading (wake <$> cs) u = holds is_reading cs u.
Proof. apply holds_wake. by intros []. Qed.
Lemma awake_wake cs u :
  holds sleeps_to_write (wake <$> cs) u = false /\ holds sleeps_to_read (wake <$> cs) u = false.
Proof. unfold holds. rewrite lookup_fmap. destruct (cs !! u) as [[|c]|]; cbn; [done|by destruct (cl_phase c)|done]. Qed.

(** A call is read off its caller. *)
Lemma key_inside cs t c : cs !! t = Some (Inside c) -> key cs t = Some (cl_slot c, cl_id c, cl_opcode c).
Proof. unfold key. by intros ->. Qed.
Lemma key_holding cs t : cs !! t = Some Holding -> key cs t = None.
Proof. unfold key. by intros ->. Qed.
Lemma holds_inside has cs t c : cs !! t = Some (Inside c) -> holds has cs t = has (cl_phase c).
Proof. unfold holds. by intros ->. Qed.
Lemma holds_holding has cs t : cs !! t = Some Holding -> holds has cs t = false.
Proof. unfold holds. by intros ->. Qed.
Lemma holds_absent has cs t : cs !! t = None -> holds has cs t = false.
Proof. unfold holds. by intros ->. Qed.
Lemma key_absent cs t : cs !! t = None -> key cs t = None.
Proof. unfold key. by intros ->. Qed.

Lemma role_keep flag has cs cs' : (forall t, holds has cs' t = holds has cs t) -> role flag has cs -> role flag has cs'.
Proof.
  intros H [H1 H2]. split.
  - rewrite H1. by setoid_rewrite H.
  - intros t u. rewrite !H. apply H2.
Qed.

Lemma role_take has cs cs' t :
  (forall u, u <> t -> holds has cs' u = holds has cs u) -> holds has cs' t = true -> role false has cs -> role true has cs'.
Proof.
  intros H Ht [H1 H2].
  assert (Hu : forall u, holds has cs' u = true -> u = t).
  { intros u Hu. destruct (decide (u = t)) as [|n]; [done|]. rewrite H in Hu by done.
    assert (false = true) by (apply H1; eauto). done. }
  split; [split; eauto|]. intros u v ?%Hu ?%Hu. congruence.
Qed.

Lemma role_drop flag has cs cs' t :
  (forall u, u <> t -> holds has cs' u = holds has cs u) -> holds has cs t = true -> holds has cs' t = false ->
  role flag has cs -> role false has cs'.
Proof.
  intros H Ht Ht' [H1 H2].
  assert (Hu : forall u, holds has cs' u = true -> False).
  { intros u Hu. destruct (decide (u = t)) as [->|n]; [congruence|]. rewrite H in Hu by done.
    apply n. by apply H2. }
  split; [split; [done|intros [u Hu']; by destruct (Hu u)]|]. intros u v ?%Hu. done.
Qed.

Lemma owns_keep slots cs cs' : (forall t, key cs' t = key cs t) -> owns slots cs -> owns slots cs'.
Proof.
  intros H [H1 H2 H3 H4]. constructor; [| | |done].
  - intros t i id op. rewrite H. apply H1.
  - intros t u i id op id' op'. rewrite !H. apply H2.
  - intros i slot Hs Ha. setoid_rewrite H. by eapply H3.
Qed.

Lemma ids_keep issued cs cs' : (forall t, key cs' t = key cs t) -> ids_ok issued cs -> ids_ok issued cs'.
Proof.
  intros H Hi Hlt. destruct (Hi Hlt) as [H1 H2]. split.
  - intros t i id op. rewrite H. apply H1.
  - intros t u i j id op op'. rewrite !H. apply H2.
Qed.

(** A step that moves callers between phases and leaves the slots alone. *)
Lemma live_move r r' cs cs' retired issued :
  live r cs retired issued ->
  rl_pending r' = rl_pending r -> rl_next_request_id r' = rl_next_request_id r -> rl_refs r' = rl_refs r ->
  (rl_broken r = true -> rl_broken r' = true) ->
  (forall t, key cs' t = key cs t) -> size cs' = size cs ->
  role (rl_writing r') is_writing cs' -> role (rl_reading r') is_reading cs' -> sleepers r' cs' ->
  live r' cs' retired issued.
Proof.
  intros [L1 L2 L3 L4 L5 L6 L7 L8 L9] Hp Hn Hr Hb Hk Hs Hw Hrd Hsl.
  constructor; rewrite ?Hp, ?Hn, ?Hr, ?Hs; auto.
  - by eapply owns_keep.
  - by eapply ids_keep.
Qed.

(** *** Changing one slot *)

Lemma nth_slot slots i slot : slots !! i = Some slot -> nth i slots free_slot = slot.
Proof. intros H. rewrite nth_lookup. by rewrite H. Qed.

Definition fresh_slot (id op : Z) : relay_pending := mk_pending true false id 0 0 None 0 (-1) op.

Lemma owns_begin slots cs cs' t i id op slot :
  owns slots cs -> slots !! i = Some slot -> pd_active slot = false -> key cs t = None ->
  key cs' t = Some (i, id, op) -> (forall u, u <> t -> key cs' u = key cs u) ->
  owns (<[i := fresh_slot id op]> slots) cs'.
Proof.
  intros [H1 H2 H3 H4] Hi Ha Hk Hk' Hu.
  assert (Hi' : forall u id' op', key cs u = Some (i, id', op') -> False).
  { intros u id' op' Hku. destruct (H1 _ _ _ _ Hku) as (s & Hs & Hsa & _). congruence. }
  assert (Hlt : (i < length slots)%nat) by by eapply lookup_lt_Some.
  constructor.
  - intros u j id' op' Hku. destruct (decide (u = t)) as [->|].
    + rewrite Hk' in Hku. injection Hku as <- <- <-. exists (fresh_slot id op). by rewrite list_lookup_insert_eq.
    + rewrite Hu in Hku by done. destruct (H1 _ _ _ _ Hku) as (s & Hs & ?). exists s.
      rewrite list_lookup_insert_ne; [done|]. intros <-. by eapply Hi'.
  - intros u v j ia oa ib ob Hku Hkv. destruct (decide (u = t)) as [->|], (decide (v = t)) as [->|]; [done| | |].
    + rewrite Hk' in Hku. rewrite Hu in Hkv by done. injection Hku as <- <- <-. by destruct (Hi' _ _ _ Hkv).
    + rewrite Hk' in Hkv. rewrite Hu in Hku by done. injection Hkv as <- <- <-. by destruct (Hi' _ _ _ Hku).
    + rewrite Hu in Hku, Hkv by done. by eapply H2.
  - intros j s Hs Hsa. destruct (decide (j = i)) as [->|].
    + exists t, id, op. done.
    + rewrite list_lookup_insert_ne in Hs by done. destruct (H3 _ _ Hs Hsa) as (u & id' & op' & Hku).
      exists u, id', op'. rewrite Hu; [done|]. intros ->. congruence.
  - intros j s Hs. destruct (decide (j = i)) as [->|].
    + rewrite list_lookup_insert_eq in Hs by done. injection Hs as <-. by split.
    + rewrite list_lookup_insert_ne in Hs by done. by eapply H4.
Qed.

Lemma owns_update slots cs i slot slot' :
  owns slots cs -> slots !! i = Some slot -> slot_ok slot' -> pd_active slot' = pd_active slot ->
  pd_request_id slot' = pd_request_id slot -> pd_opcode slot' = pd_opcode slot ->
  owns (<[i := slot']> slots) cs.
Proof.
  intros [H1 H2 H3 H4] Hi Hok Ha Hid Hop.
  assert (Hlt : (i < length slots)%nat) by by eapply lookup_lt_Some.
  constructor; [| |intros j s Hs|intros j s Hs].
  - intros t j id op Hk. destruct (H1 _ _ _ _ Hk) as (s & Hs & Hsa & Hsi & Hso).
    destruct (decide (j = i)) as [->|].
    + exists slot'. rewrite list_lookup_insert_eq by done. simplify_eq. by rewrite Ha, Hid, Hop.
    + exists s. by rewrite list_lookup_insert_ne.
  - done.
  - intros Hsa. destruct (decide (j = i)) as [->|].
    + rewrite list_lookup_insert_eq in Hs by done. injection Hs as <-. eapply (H3 i slot); congruence.
    + rewrite list_lookup_insert_ne in Hs by done. by eapply H3.
  - destruct (decide (j = i)) as [->|].
    + rewrite list_lookup_insert_eq in Hs by done. by injection Hs as <-.
    + rewrite list_lookup_insert_ne in Hs by done. by eapply H4.
Qed.

Lemma owns_free slots cs cs' t i id op :
  owns slots cs -> key cs t = Some (i, id, op) -> key cs' t = None -> (forall u, u <> t -> key cs' u = key cs u) ->
  owns (<[i := free_slot]> slots) cs'.
Proof.
  intros [H1 H2 H3 H4] Hk Hk' Hu.
  destruct (H1 _ _ _ _ Hk) as (s0 & Hs0 & _). assert (Hlt : (i < length slots)%nat) by by eapply lookup_lt_Some.
  constructor.
  - intros u j id' op' Hku. destruct (decide (u = t)) as [->|]; [congruence|]. rewrite Hu in Hku by done.
    destruct (H1 _ _ _ _ Hku) as (s & Hs & ?). exists s.
    rewrite list_lookup_insert_ne; [done|]. intros <-. by destruct n; eapply H2.
  - intros u v j ia oa ib ob Hku Hkv. destruct (decide (u = t)) as [->|], (decide (v = t)) as [->|]; try congruence.
    rewrite Hu in Hku, Hkv by done. by eapply H2.
  - intros j s Hs Hsa. destruct (decide (j = i)) as [->|].
    + rewrite list_lookup_insert_eq in Hs by done. injection Hs as <-. done.
    + rewrite list_lookup_insert_ne in Hs by done. destruct (H3 _ _ Hs Hsa) as (u & id' & op' & Hku).
      exists u, id', op'. rewrite Hu; [done|]. intros ->. congruence.
  - intros j s Hs. destruct (decide (j = i)) as [->|].
    + rewrite list_lookup_insert_eq in Hs by done. injection Hs as <-. by split.
    + rewrite list_lookup_insert_ne in Hs by done. by eapply H4.
Qed.

Section invariant.
Context {AL : Allocator}.

(** What delivering does to the slots: one that waits for this id, or none. *)
Lemma deliver_cases r a fd ok r' closed :
  deliver r a fd = (ok, r', closed) ->
  (r' = r /\ ok = true /\ closed = close_fd fd /\
   forall i slot, rl_pending r !! i = Some slot -> awaits (an_request_id a) slot = false) \/
  exists i slot slot', rl_pending r !! i = Some slot /\ awaits (an_request_id a) slot = true /\
    r' = with_pending r (rl_next_request_id r) (<[i := slot']> (rl_pending r)) /\
    ((ok = false /\ an_file a = true /\ is_capture (pd_opcode slot) = false /\ slot' = refused_slot slot a
      /\ closed = close_fd fd) \/
     (ok = true /\ (an_file a = true -> is_capture (pd_opcode slot) = true) /\ slot' = answered_slot slot a fd
      /\ closed = if an_file a then [] else close_fd fd)).
Proof.
  unfold deliver. destruct (find_index _ _) as [i|] eqn:E.
  - destruct (find_index_some _ _ _ E) as (slot & Hs & Ha). rewrite (nth_slot _ _ _ Hs).
    destruct (an_file a && negb (is_capture (pd_opcode slot))) eqn:Ec; intros [= <- <- <-]; right;
      exists i, slot; eexists; repeat split; try done.
    + left. breflect. done.
    + right. split; [done|]. split; [|done]. intros Hf. rewrite Hf in Ec. cbn in Ec. by breflect.
  - intros [= <- <- <-]. left. repeat split. intros i slot. by apply find_index_none.
Qed.

Lemma answered_slot_ok slot a fd : awaits (an_request_id a) slot = true -> slot_ok slot -> slot_ok (answered_slot slot a fd).
Proof.
  unfold awaits. intros Ha%andb_true_iff _. destruct Ha as [Ha%andb_true_iff _]. destruct Ha as [Ha _].
  unfold slot_ok, answered_slot. case_ifs; cbn; rewrite ?Ha; naive_solver.
Qed.
Lemma refused_slot_ok slot a : awaits (an_request_id a) slot = true -> slot_ok slot -> slot_ok (refused_slot slot a).
Proof.
  unfold awaits. intros Ha%andb_true_iff H. destruct Ha as [Ha%andb_true_iff _]. destruct Ha as [Ha _].
  unfold slot_ok, refused_slot in *. cbn. rewrite Ha. intuition congruence.
Qed.
Lemma answered_slot_same slot a fd :
  pd_active (answered_slot slot a fd) = pd_active slot /\ pd_request_id (answered_slot slot a fd) = pd_request_id slot /\
  pd_opcode (answered_slot slot a fd) = pd_opcode slot.
Proof. unfold answered_slot. by case_ifs. Qed.

(** Delivering keeps everything of the relay but its slots, and their owners. *)
Lemma deliver_owns r a fd ok r' closed cs :
  deliver r a fd = (ok, r', closed) -> owns (rl_pending r) cs ->
  owns (rl_pending r') cs /\ length (rl_pending r') = length (rl_pending r) /\
  r' = with_pending r (rl_next_request_id r) (rl_pending r').
Proof.
  intros Hd Ho. destruct (deliver_cases _ _ _ _ _ _ Hd) as [(-> & _)|(i & slot & slot' & Hs & Ha & -> & Hc)].
  - by destruct r.
  - cbn. rewrite length_insert. split; [|done].
    assert (slot_ok slot) by by eapply ow_ok.
    destruct Hc as [(_ & _ & _ & -> & _)|(_ & _ & -> & _)]; eapply owns_update; try done.
    + by apply refused_slot_ok.
    + by apply answered_slot_ok.
    + by destruct (answered_slot_same slot a fd).
    + by destruct (answered_slot_same slot a fd) as (_ & ? & _).
    + by destruct (answered_slot_same slot a fd) as (_ & _ & ?).
Qed.

Lemma finish_relay r c result r' closed : finish r c = (result, r', closed) -> r' = free_pending r (cl_slot c).
Proof.
  unfold finish, call_finish. destruct (slot_result _ _) as [[[] res] cl]; [by intros [= _ <- _]|].
  destruct (if _ : bool then _ else _) as [res' cl']. by intros [= _ <- _].
Qed.

Lemma release_cases r r' closed :
  ksd_kwin_relay_release r = (r', closed) ->
  (u32 (rl_refs r - 1) = 0 /\ r' = None) \/ (u32 (rl_refs r - 1) <> 0 /\ r' = Some (with_refs r (u32 (rl_refs r - 1))) /\ closed = []).
Proof.
  unfold ksd_kwin_relay_release. cbn [rl_refs with_refs]. destruct (Z.eqb_spec (u32 (rl_refs r - 1)) 0); intros [= <- <-]; auto.
Qed.
End invariant.

(** *** Steps that move one call *)

(** A flag follows the phase of the call that moves. *)
Definition role_moves (flag flag' : bool) (has : phase -> bool) (p p' : phase) : Prop :=
  (flag' = flag /\ has p' = has p) \/ (flag = false /\ flag' = true /\ has p' = true)
  \/ (has p = true /\ has p' = false /\ flag' = false).

Definition woken (w : bool) (cs : gmap nat caller) : gmap nat caller := if w then wake <$> cs else cs.

Lemma key_woken w cs u : key (woken w cs) u = key cs u.
Proof. destruct w; [apply key_wake|done]. Qed.
Lemma size_woken w cs : size (woken w cs) = size cs.
Proof. destruct w; [apply map_size_fmap|done]. Qed.
Lemma woken_lookup w cs t c : cs !! t = Some (Inside c) -> is_Some (woken w cs !! t).
Proof. intros H. destruct w; cbn; [rewrite lookup_fmap|]; rewrite H; eauto. Qed.
Lemma holds_woken (has : phase -> bool) w cs u :
  (forall p, has (awake p) = has p) -> holds has (woken w cs) u = holds has cs u.
Proof. intros. destruct w; [by apply holds_wake|done]. Qed.

Lemma role_move flag flag' (has : phase -> bool) w cs t c p :
  (forall p, has (awake p) = has p) -> cs !! t = Some (Inside c) -> role flag has cs ->
  role_moves flag flag' has (cl_phase c) p -> role flag' has (<[t := Inside (with_phase c p)]> (woken w cs)).
Proof.
  intros Hw Hc Hr [[-> Hp]|[(-> & -> & Hp)|(Hp & Hp' & ->)]].
  - eapply role_keep; [|exact Hr]. intros u. rewrite holds_insert, holds_woken by done.
    destruct (decide (u = t)) as [->|]; [|done]. cbn. by rewrite (holds_inside _ _ _ _ Hc).
  - eapply role_take with (t := t); [..|exact Hr].
    + intros u Hu. rewrite holds_insert, holds_woken by done. by rewrite decide_False.
    + rewrite holds_insert. by rewrite decide_True.
  - eapply role_drop with (t := t); [..|exact Hr].
    + intros u Hu. rewrite holds_insert, holds_woken by done. by rewrite decide_False.
    + by rewrite (holds_inside _ _ _ _ Hc).
    + rewrite holds_insert. by rewrite decide_True.
Qed.

Lemma live_phase w r r' cs retired issued t c p :
  live r cs retired issued -> cs !! t = Some (Inside c) ->
  rl_pending r' = rl_pending r -> rl_next_request_id r' = rl_next_request_id r -> rl_refs r' = rl_refs r ->
  (rl_broken r = true -> rl_broken r' = true) ->
  role_moves (rl_writing r) (rl_writing r') is_writing (cl_phase c) p ->
  role_moves (rl_reading r) (rl_reading r') is_reading (cl_phase c) p ->
  (w = true \/ (rl_broken r' = rl_broken r /\ (rl_writing r = true -> rl_writing r' = true)
                /\ (rl_reading r = true -> rl_reading r' = true))) ->
  (sleeps_to_write p = true -> rl_writing r' = true /\ rl_broken r' = false) ->
  (sleeps_to_read p = true -> rl_reading r' = true /\ rl_broken r' = false) ->
  live r' (<[t := Inside (with_phase c p)]> (woken w cs)) retired issued.
Proof.
  intros L Hc Hp Hn Hr Hb Hwm Hrm Hw Hsw Hsr. eapply live_move; try done.
  - intros u. rewrite key_insert, key_woken. destruct (decide (u = t)) as [->|]; [|done].
    by rewrite (key_inside _ _ _ Hc).
  - rewrite map_size_insert_Some by by eapply woken_lookup. apply size_woken.
  - eapply role_move; [by intros []|done|by apply lv_writer in L|done].
  - eapply role_move; [by intros []|done|by apply lv_reader in L|done].
  - intros u. rewrite !holds_insert. destruct (decide (u = t)) as [->|]; [by split|].
    destruct w; cbn [woken]; [by rewrite (proj1 (awake_wake cs u)), (proj2 (awake_wake cs u))|].
    destruct Hw as [[=]|(Hb' & Hw1 & Hw2)]. rewrite Hb'.
    destruct (lv_sleepers _ _ _ _ L u) as [H1 H2]. by split; intros Hx; [destruct (H1 Hx)|destruct (H2 Hx)]; auto.
Qed.

Section steps.
Context {AL : Allocator}.

Lemma live_start fd r : ksd_kwin_relay_create fd = Some r -> live r ∅ false 0.
Proof.
  unfold ksd_kwin_relay_create. destruct (negb _); [|done].
  assert (Hf : forall i slot, repeat free_slot (Z.to_nat KSD_KWIN_RELAY_PENDING) !! i = Some slot -> slot = free_slot).
  { intros i slot Hs%list_elem_of_lookup_2%list_elem_of_In. by apply repeat_spec in Hs. }
  pose proof (repeat_length free_slot (Z.to_nat KSD_KWIN_RELAY_PENDING)) as Hl.
  remember (repeat free_slot _) as slots. intros E. injection E as <-.
  constructor; cbn [rl_pending rl_writing rl_reading rl_broken rl_refs rl_next_request_id].
  - done.
  - constructor; try done; intros i slot Hs; by rewrite (Hf _ _ Hs).
  - done.
  - by intros _.
  - split; [split; [done|by intros [t Ht]]|done].
  - split; [split; [done|by intros [t Ht]]|done].
  - by intros t.
  - rewrite map_size_empty. unfold UINT32_MAX. lia.
  - done.
Qed.

(** References.  [u32] never wraps while threads are fewer than 2^32. *)
Lemma live_release r cs retired issued t r' closed :
  live r cs retired issued -> cs !! t = Some Holding -> ksd_kwin_relay_release r = (r', closed) ->
  relay_inv (mk_system r' (delete t cs) retired issued).
Proof.
  intros L Hc Hrel. assert (Hs : size (delete t cs) = Nat.pred (size cs)) by (apply map_size_delete_Some; eauto). destruct L as [L1 L2 L3 L4 L5 L6 L7 [L8 L8'] L9].
  assert (0 < size cs)%nat.
  { destruct (decide (size cs = 0%nat)) as [E|]; [|lia]. apply map_size_empty_inv in E. subst. by rewrite lookup_empty in Hc. }
  assert (Hu : u32 (rl_refs r - 1) = rl_refs r - 1) by (apply Z.mod_small; unfold UINT32_MAX in *; lia).
  assert (Hk : forall u, key (delete t cs) u = key cs u).
  { intros u. rewrite key_delete. destruct (decide (u = t)) as [->|]; [|done]. by rewrite key_holding. }
  assert (Hh : forall (has : phase -> bool) u, holds has (delete t cs) u = holds has cs u).
  { intros has u. rewrite holds_delete. destruct (decide (u = t)) as [->|]; [|done]. by rewrite holds_holding. }
  destruct (release_cases _ _ _ Hrel) as [[H0 ->]|(H0 & -> & _)]; unfold relay_inv;
    cbn [sy_relay sy_callers sy_retired sy_issued].
  - rewrite Hu in H0. destruct retired; [|lia]. split; [done|]. apply map_size_empty_inv. lia.
  - constructor; try done.
    + by eapply owns_keep.
    + by eapply ids_keep.
    + eapply role_keep; [|done]. apply Hh.
    + eapply role_keep; [|done]. apply Hh.
    + intros u. rewrite !Hh. apply L7.
    + cbn [with_refs rl_refs]. rewrite Hu in *. destruct retired; lia.
Qed.

(** The registration's reference becomes the retiring thread's. *)
Lemma live_retire r cs issued t :
  live r cs false issued -> cs !! t = None -> live (retire_broken r) (<[t := Holding]> (wake <$> cs)) true issued.
Proof.
  intros [L1 L2 L3 L4 L5 L6 L7 [L8 L8'] L9] Hc.
  assert (Hc' : (wake <$> cs) !! t = None) by by rewrite lookup_fmap, Hc.
  assert (Hk : forall u, key (<[t := Holding]> (wake <$> cs)) u = key cs u).
  { intros u. rewrite key_insert, key_wake. destruct (decide (u = t)) as [->|]; [|done]. by rewrite key_absent. }
  assert (Hh : forall (has : phase -> bool) u, holds has (<[t := Holding]> (wake <$> cs)) u = holds has (wake <$> cs) u).
  { intros has u. rewrite holds_insert. destruct (decide (u = t)) as [->|]; [|done]. by rewrite holds_absent. }
  constructor; cbn [retire_broken with_flags rl_refs rl_pending rl_writing rl_reading rl_broken rl_next_request_id]; try done.
  - by eapply owns_keep.
  - by eapply ids_keep.
  - eapply role_keep; [|done]. intros u. by rewrite Hh, writing_wake.
  - eapply role_keep; [|done]. intros u. by rewrite Hh, reading_wake.
  - intros u. rewrite !Hh. by rewrite (proj1 (awake_wake cs u)), (proj2 (awake_wake cs u)).
  - rewrite map_size_insert_None, map_size_fmap by done. lia.
Qed.

Lemma live_acquire r cs issued t :
  live r cs false issued -> cs !! t = None -> Z.of_nat (size cs) + 2 < UINT32_MAX ->
  live (ksd_kwin_relay_acquire r) (<[t := Holding]> cs) false issued.
Proof.
  intros [L1 L2 L3 L4 L5 L6 L7 [L8 L8'] L9] Hc Hlt. unfold ksd_kwin_relay_acquire.
  assert (Hu : u32 (rl_refs r + 1) = rl_refs r + 1) by (apply Z.mod_small; unfold UINT32_MAX in *; lia).
  assert (Hk : forall u, key (<[t := Holding]> cs) u = key cs u).
  { intros u. rewrite key_insert. destruct (decide (u = t)) as [->|]; [|done]. by rewrite key_absent. }
  assert (Hh : forall (has : phase -> bool) u, holds has (<[t := Holding]> cs) u = holds has cs u).
  { intros has u. rewrite holds_insert. destruct (decide (u = t)) as [->|]; [|done]. by rewrite holds_absent. }
  rewrite Hu. constructor; cbn [with_refs rl_refs rl_pending rl_writing rl_reading rl_broken rl_next_request_id]; try done.
  - by eapply owns_keep.
  - by eapply ids_keep.
  - eapply role_keep; [|done]. apply Hh.
  - eapply role_keep; [|done]. apply Hh.
  - intros u. rewrite !Hh. apply L7.
  - rewrite map_size_insert_None by done. lia.
Qed.
End steps.

(** *** Steps that change a slot *)

Section slots.
Context {AL : Allocator}.

Lemma live_deliver r a fd ok r' closed cs retired issued :
  deliver r a fd = (ok, r', closed) -> live r cs retired issued -> live r' cs retired issued.
Proof.
  intros Hd [L1 L2 L3 L4 L5 L6 L7 L8 L9]. destruct (deliver_owns _ _ _ _ _ _ _ Hd L2) as (Ho & Hl & ->).
  constructor; cbn [with_pending rl_pending rl_writing rl_reading rl_broken rl_refs rl_next_request_id] in *; try done.
  by rewrite Hl.
Qed.

Lemma live_begin r cs retired issued opcode i id r' t deadline p :
  live r cs retired issued -> cs !! t = Some Holding -> call_begin r opcode = CallBegun i id r' ->
  is_writing p = false -> is_reading p = false -> asleep p = false ->
  live r' (<[t := Inside (mk_call i id opcode deadline p)]> cs) retired (issued + 1).
Proof.
  intros [L1 L2 [L3 L3'] L4 L5 L6 L7 L8 L9] Hc. unfold call_begin.
  destruct (rl_broken r) eqn:Eb; [done|]. destruct (find_index _ _) as [j|] eqn:Ef; [|done].
  destruct (find_index_some _ _ _ Ef) as (slot & Hs & Ha%negb_true_iff). intros E Hw Hr Hsl. injection E as -> <- <-.
  assert (Hh : forall (has : phase -> bool) u, has p = false ->
    holds has (<[t := Inside (mk_call i (rl_next_request_id r) opcode deadline p)]> cs) u = holds has cs u).
  { intros has u Hp. rewrite holds_insert. destruct (decide (u = t)) as [->|]; [|done]. cbn. by rewrite holds_holding. }
  assert (Hk : forall u, u <> t ->
    key (<[t := Inside (mk_call i (rl_next_request_id r) opcode deadline p)]> cs) u = key cs u).
  { intros u Hu. rewrite key_insert. by rewrite decide_False. }
  constructor; cbn [with_pending rl_pending rl_writing rl_reading rl_broken rl_refs rl_next_request_id].
  - by rewrite length_insert.
  - eapply owns_begin; [done|done|done|by apply key_holding| |exact Hk]. rewrite key_insert. by rewrite decide_True.
  - split; [lia|]. rewrite L3'. unfold u64. rewrite Zplus_mod_idemp_l. f_equal. lia.
  - intros Hlt. destruct (L4 ltac:(lia)) as [L41 L42].
    assert (Hn : rl_next_request_id r = 1 + issued) by (rewrite L3'; apply Z.mod_small; unfold UINT64_MAX in *; lia).
    split.
    + intros u j id op. rewrite key_insert. destruct (decide (u = t)); cbn; [intros [= <- <- <-]; lia|].
      intros Hu%L41. lia.
    + intros u v j k id op op'. rewrite !key_insert.
      destruct (decide (u = t)) as [->|], (decide (v = t)) as [->|]; cbn; [done| | |by apply L42].
      * intros [= <- <- <-] Hv%L41. lia.
      * intros Hv%L41 [= <- <- <-]. lia.
  - eapply role_keep; [|exact L5]. intros. by apply Hh.
  - eapply role_keep; [|exact L6]. intros. by apply Hh.
  - intros u. rewrite !Hh by (by destruct p). apply L7.
  - by rewrite map_size_insert_Some by eauto.
  - intros Hrt. by specialize (L9 Hrt).
Qed.

Lemma live_return r cs retired issued t c result r' closed :
  live r cs retired issued -> cs !! t = Some (Inside c) ->
  is_writing (cl_phase c) = false -> is_reading (cl_phase c) = false -> finish r c = (result, r', closed) ->
  live r' (<[t := Holding]> (wake <$> cs)) retired issued.
Proof.
  intros [L1 L2 L3 L4 L5 L6 L7 L8 L9] Hc Hw Hr Hf. rewrite (finish_relay _ _ _ _ _ Hf).
  assert (Hk : key (<[t := Holding]> (wake <$> cs)) t = None) by (rewrite key_insert; by rewrite decide_True).
  assert (Hk' : forall u, u <> t -> key (<[t := Holding]> (wake <$> cs)) u = key cs u).
  { intros u Hu. rewrite key_insert, key_wake. by rewrite decide_False. }
  assert (Hh : forall (has : phase -> bool) u, (forall p, has (awake p) = has p) -> has (cl_phase c) = false ->
    holds has (<[t := Holding]> (wake <$> cs)) u = holds has cs u).
  { intros has u Ha Hp. rewrite holds_insert, (holds_wake _ _ _ Ha). destruct (decide (u = t)) as [->|]; [|done].
    cbn. by rewrite (holds_inside _ _ _ _ Hc). }
  constructor; cbn [free_pending with_pending rl_pending rl_writing rl_reading rl_broken rl_refs rl_next_request_id].
  - by rewrite length_insert.
  - eapply owns_free; [done|by apply key_inside|done|done].
  - done.
  - intros Hlt. destruct (L4 Hlt) as [L41 L42]. split.
    + intros u i id op. destruct (decide (u = t)) as [->|]; [congruence|]. rewrite Hk' by done. apply L41.
    + intros u v i j id op op'. destruct (decide (u = t)) as [->|]; [congruence|].
      destruct (decide (v = t)) as [->|]; [congruence|]. rewrite !Hk' by done. apply L42.
  - eapply role_keep; [|exact L5]. intros u. by apply Hh; [intros []|].
  - eapply role_keep; [|exact L6]. intros u. by apply Hh; [intros []|].
  - intros u. rewrite !holds_insert. destruct (decide (u = t)); [done|].
    by rewrite (proj1 (awake_wake cs u)), (proj2 (awake_wake cs u)).
  - rewrite map_size_insert_Some, map_size_fmap; [done|]. rewrite lookup_fmap, Hc. eauto.
  - done.
Qed.

Lemma call_next_cases r i deadline now :
  match call_next r i deadline now with
  | TurnRead r' => rl_reading r = false /\ rl_broken r = false /\ r' = with_flags r (rl_writing r) true (rl_broken r)
  | TurnSleep => rl_reading r = true /\ rl_broken r = false
  | TurnStop => pd_done (nth i (rl_pending r) free_slot) = true \/ rl_broken r = true \/ now = 0 \/ deadline <= now
  end.
Proof.
  unfold call_next. destruct (pd_done _) eqn:Ed; cbn [orb]; [by left|]. destruct (rl_broken r) eqn:Eb; [by right; left|].
  destruct (_ || _) eqn:En; [|by destruct (rl_reading r)].
  do 2 right. apply orb_true_iff in En as [En|En]; [left; lia|right; lia].
Qed.

Lemma write_admit_cases r deadline now r' :
  write_admit r deadline now = Some r' ->
  rl_writing r = false /\ rl_broken r = false /\ now <> 0 /\ now < deadline /\ r' = with_flags r true (rl_reading r) (rl_broken r).
Proof.
  unfold write_admit. destruct (_ && _) eqn:E; [|done]. intros [= <-]. breflect. auto.
Qed.

(** The side conditions of [live_phase], at a known phase. *)
Ltac moved E := try done; rewrite ?E; cbn; unfold role_moves; first [done|naive_solver].

(** Every step keeps the invariant. *)
Lemma relay_step_inv s ev ins closed s' : relay_inv s -> step s ev ins closed s' -> relay_inv s'.
Proof.
  intros Hi Hs. destruct Hs; unfold relay_inv in Hi |- *; cbn [sy_relay sy_callers sy_retired sy_issued] in *.
  - by apply live_acquire.
  - by eapply live_retire.
  - by eapply live_release.
  - done.
  - by eapply live_begin; [| |done|destruct (call_pack _ _)..].
  - eapply (live_phase false r r); unfold must_wait_to_write in *; breflect; moved H0.
  - eapply (live_phase false r r); destruct (cl_phase c); moved H0.
  - destruct (write_admit_cases _ _ _ _ H1) as (Ew & Eb & _ & _ & ->).
    eapply (live_phase false r); moved H0.
  - eapply (live_phase false r r); moved H0.
  - eapply (live_phase true r); destruct ok; moved H0.
  - pose proof (call_next_cases r (cl_slot c) (cl_deadline c) now) as Hn. rewrite H1 in Hn.
    eapply (live_phase false r r); moved H0.
  - pose proof (call_next_cases r (cl_slot c) (cl_deadline c) now) as Hn. rewrite H1 in Hn. destruct Hn as (Er & Eb & ->).
    eapply (live_phase false r); moved H0.
  - eapply (live_phase false r r); moved H0.
  - eapply (live_phase false r r); moved H0.
  - eapply (live_phase false r' r'); try (by eapply live_deliver); moved H0.
  - eapply (live_phase true r); destruct ok; moved H0.
  - destruct H0 as [[E _]|[[E _]|[x E]]]; eapply live_return; try done; by rewrite E.
Qed.

Lemma run_inv s tr ins closed s' : run s tr ins closed s' -> relay_inv s -> relay_inv s'.
Proof. induction 1; [done|]. intros. eapply relay_step_inv; [|done]. by apply IHrun. Qed.
End slots.
