(* ===== verification/RelayChannel.v ===== *)
(** * What the relay promises its callers (src/kwin_relay.c)

    To its callers the relay is a map from calls to their answers ([channel]):
    each call has an id of its own, is answered once by a frame with that id, and
    returns that answer, or else whether its request was ever written.  The slots,
    the two roles and the threads of [RelaySystem] implement it. *)
From Stdlib Require Import ZArith Lia Strings.Byte Strings.String.
From stdpp Require Import base list option numbers tactics gmap fin_maps.
From S2P Require Import Prelude.
From S2P Require Import Protocol.
From S2P Require Import Codec.
From S2P Require Import Buffer.
From S2P Require Import Transport.
From S2P Require Import Frame.
From S2P Require Import Result.
From S2P Require Import Relay.
From S2P Require Import RelaySystem.
Local Open Scope Z_scope.
Local Open Scope ksd_scope.

(** ** The channel *)

Record pending_request := mk_request {
  rq_id : Z;
  rq_opcode : Z;
  rq_attempted : bool;
  rq_answer : option (relay_answer * Z);
}.
Notation channel := (gmap nat pending_request).

Definition attempt (rq : pending_request) : pending_request :=
  mk_request (rq_id rq) (rq_opcode rq) true (rq_answer rq).
Definition answer (rq : pending_request) (a : relay_answer) (fd : Z) : pending_request :=
  mk_request (rq_id rq) (rq_opcode rq) (rq_attempted rq) (Some (a, fd)).

Section channel.
Context {AL : Allocator}.

Definition error_result (status detail : Z) (text : list byte) : ksd_operation_result :=
  fst (ksd_result_error ksd_result_init status detail (Some text)).

(** What an answer is to the caller. *)
Definition reply_result (a : relay_answer) (fd : Z) : ksd_operation_result :=
  let kept := (an_tail_length a =? 0) || alloc_ok (an_tail_length a + 1) in
  let text := if (an_tail_length a =? 0) || negb kept then refusal_text else until_nul (an_tail a) in
  if an_file a then mk_result KSD_STATUS_OK 0 [] None (an_tail_length a) fd
  else if negb kept then error_result KSD_STATUS_RESOURCE_EXHAUSTED (an_detail a) text
  else if an_status a =? KSD_STATUS_OK
       then mk_result KSD_STATUS_OK 0 [] (if an_tail_length a =? 0 then None else Some (an_tail a)) (an_tail_length a) (-1)
       else error_result (an_status a) (an_detail a) text.

Definition unwritten_result : ksd_operation_result := error_result KSD_STATUS_BUSY 0 (cstr "could not reach the compositor").
Definition unanswered_result : ksd_operation_result :=
  error_result KSD_STATUS_TIMEOUT 0 (cstr "the compositor did not answer in time").

Definition outcome (rq : pending_request) : ksd_operation_result :=
  match rq_answer rq with
  | Some (a, fd) => reply_result a fd
  | None => if rq_attempted rq then unanswered_result else unwritten_result
  end.

Definition takes (rq : pending_request) (a : relay_answer) : Prop :=
  rq_id rq = an_request_id a /\ rq_answer rq = None /\ (an_file a = true -> is_capture (rq_opcode rq) = true).

Inductive channel_step : channel -> event -> channel -> Prop :=
| ChInternal ch t : channel_step ch (EvInternal t) ch
| ChWoken ch t : channel_step ch (EvWoken t) ch
| ChRefused ch t result : ch !! t = None -> channel_step ch (EvRefused t result) ch
| ChBegin ch t id opcode :
    ch !! t = None -> (forall u rq, ch !! u = Some rq -> rq_id rq <> id) ->
    channel_step ch (EvBegin t id opcode) (<[t := mk_request id opcode false None]> ch)
| ChAttempt ch t rq :
    ch !! t = Some rq -> rq_attempted rq = false -> channel_step ch (EvAttempt t) (<[t := attempt rq]> ch)
| ChAnswer ch t rq a fd :
    ch !! t = Some rq -> takes rq a -> channel_step ch (EvAnswer a fd) (<[t := answer rq a fd]> ch)
| ChDropped ch a fd :
    (forall t rq, ch !! t = Some rq -> ~ takes rq a) -> channel_step ch (EvAnswer a fd) ch
| ChReturn ch t rq :
    ch !! t = Some rq -> channel_step ch (EvReturn t (outcome rq)) (delete t ch).

Inductive channel_run : list event -> channel -> Prop :=
| ChStart : channel_run [] ∅
| ChMore tr ch ev ch' : channel_run tr ch -> channel_step ch ev ch' -> channel_run (tr ++ [ev]) ch'.

(** ** The slots implement the channel *)

(** What the checks on a frame leave of an answer. *)
Definition answer_wf (a : relay_answer) (fd : Z) : Prop :=
  if an_file a then an_status a = KSD_STATUS_OK /\ 20 <= an_tail_length a <= KSD_MAX_CAPTURE_TAIL /\ 0 <= fd
  else fd < 0.

Definition answered_by (slot : relay_pending) (answer : option (relay_answer * Z)) : Prop :=
  match answer with
  | None => pd_done slot = false
  | Some (a, fd) => answer_wf a fd /\ exists s0, slot_ok s0 /\ pd_done s0 = false /\ slot = answered_slot s0 a fd
  end.

Definition implements (slots : list relay_pending) (c : call) (rq : pending_request) : Prop :=
  rq_id rq = cl_id c /\ rq_opcode rq = cl_opcode c /\ rq_attempted rq = attempted (cl_phase c) /\
  exists slot, slots !! cl_slot c = Some slot /\ answered_by slot (rq_answer rq).

Definition call_of (o : option caller) : option call := match o with Some (Inside c) => Some c | _ => None end.
Definition simulates (slots : list relay_pending) (cs : gmap nat caller) (ch : channel) : Prop :=
  forall t, option_Forall2 (implements slots) (call_of (cs !! t)) (ch !! t).

Definition system_simulates (s : system) (ch : channel) : Prop :=
  match sy_relay s with Some r => simulates (rl_pending r) (sy_callers s) ch | None => ch = ∅ end.

Lemma simulates_inside slots cs ch t c :
  simulates slots cs ch -> cs !! t = Some (Inside c) -> exists rq, ch !! t = Some rq /\ implements slots c rq.
Proof. intros H Hc. specialize (H t). rewrite Hc in H. cbn in H. inversion H as [x y Hxy E1 E2|]. eauto. Qed.

Lemma simulates_request slots cs ch t rq :
  simulates slots cs ch -> ch !! t = Some rq -> exists c, cs !! t = Some (Inside c) /\ implements slots c rq.
Proof.
  intros H Hr. specialize (H t). rewrite Hr in H. destruct (cs !! t) as [[|c]|]; cbn in H; inversion H. eauto.
Qed.

Lemma simulates_none slots cs ch t : simulates slots cs ch -> call_of (cs !! t) = None -> ch !! t = None.
Proof. intros H Hc. specialize (H t). rewrite Hc in H. by inversion H. Qed.

(** Callers that are elsewhere, or changed only in their sleep. *)
Lemma implements_phase slots c rq p :
  attempted p = attempted (cl_phase c) -> implements slots c rq -> implements slots (with_phase c p) rq.
Proof. intros Ha (H1 & H2 & H3 & H4). unfold implements. cbn. rewrite Ha. auto. Qed.

Lemma simulates_woken slots w cs ch : simulates slots cs ch -> simulates slots (woken w cs) ch.
Proof.
  destruct w; [|done]. intros H t. specialize (H t). cbn. rewrite lookup_fmap.
  destruct (cs !! t) as [[|c]|]; cbn in *; inversion H; constructor.
  apply implements_phase; [by destruct (cl_phase c)|done].
Qed.

Lemma simulates_insert slots cs ch t c rq :
  simulates slots cs ch -> implements slots c rq -> simulates slots (<[t := Inside c]> cs) (<[t := rq]> ch).
Proof.
  intros H Hi u. destruct (decide (u = t)) as [->|].
  - rewrite !lookup_insert_eq. by constructor.
  - rewrite !lookup_insert_ne by done. apply H.
Qed.

(** A call that only changes its phase. *)
Lemma simulates_phase slots cs ch t c w p :
  simulates slots cs ch -> cs !! t = Some (Inside c) -> attempted p = attempted (cl_phase c) ->
  simulates slots (<[t := Inside (with_phase c p)]> (woken w cs)) ch.
Proof.
  intros H Hc Hp. destruct (simulates_inside _ _ _ _ _ H Hc) as (rq & Hr & Hi).
  rewrite <- (insert_id ch t rq Hr). apply simulates_insert; [by apply simulates_woken|]. by apply implements_phase.
Qed.

(** A slot that changes for its own call alone. *)
Lemma simulates_slot slots cs ch i slot' t :
  (forall u c, u <> t -> cs !! u = Some (Inside c) -> cl_slot c <> i) ->
  (forall u, u <> t -> option_Forall2 (implements slots) (call_of (cs !! u)) (ch !! u)) ->
  option_Forall2 (implements (<[i := slot']> slots)) (call_of (cs !! t)) (ch !! t) ->
  simulates (<[i := slot']> slots) cs ch.
Proof.
  intros Ho H Ht u. destruct (decide (u = t)) as [->|Hu]; [done|]. specialize (H u Hu).
  destruct (cs !! u) as [[|c]|] eqn:Ec; cbn in *; inversion H; constructor.
  destruct H2 as (? & ? & ? & slot & Hs & ?). do 3 (split; [done|]). exists slot.
  rewrite list_lookup_insert_ne; [done|]. intros E. by eapply Ho.
Qed.
End channel.

Section refinement.
Context {AL : Allocator}.

(** The result of an answered slot. *)
Lemma slot_result_answered s0 a fd :
  answer_wf a fd -> slot_ok s0 -> pd_done s0 = false ->
  slot_result (answered_slot s0 a fd) ksd_result_init = (true, reply_result a fd, []).
Proof.
  intros Hw [_ H0] Hd. destruct (H0 Hd) as (Ht & Hl & Hf). unfold answer_wf in Hw.
  unfold answered_slot, slot_result, reply_result. destruct (an_file a) eqn:Ef.
  - destruct Hw as (Hs & Hlen & Hfd). cbn. rewrite Hs. cbn. rewrite (proj2 (Z.leb_le _ _) Hfd). cbn.
    unfold ksd_result_take_fd. rewrite (proj2 (Z.ltb_ge _ _)) by lia. by rewrite (proj2 (Z.eqb_neq _ _)) by lia.
  - destruct (Z.eqb_spec (an_tail_length a) 0) as [E|E]; cbn; [|destruct (alloc_ok _) eqn:Ea; cbn]; rewrite ?Hf, ?Hl, ?Ht, ?E; cbn.
    + rewrite andb_false_r. by destruct (an_status a =? KSD_STATUS_OK).
    + rewrite andb_false_r, (proj2 (Z.eqb_neq _ _) E), andb_true_r. cbn.
      destruct (an_status a =? KSD_STATUS_OK); [|done].
      unfold ksd_result_take. by rewrite (proj2 (Z.eqb_neq _ _) E).
    + done.
Qed.

Lemma finish_answered r c slot s0 a fd :
  rl_pending r !! cl_slot c = Some slot -> slot = answered_slot s0 a fd ->
  answer_wf a fd -> slot_ok s0 -> pd_done s0 = false ->
  finish r c = (reply_result a fd, free_pending r (cl_slot c), []).
Proof.
  intros Hs -> Hw H0 Hd. unfold finish, call_finish. rewrite (nth_slot _ _ _ Hs).
  by rewrite slot_result_answered.
Qed.

Lemma finish_unanswered r c slot :
  rl_pending r !! cl_slot c = Some slot -> pd_done slot = false -> slot_ok slot ->
  finish r c = (if attempted (cl_phase c) then unanswered_result else unwritten_result, free_pending r (cl_slot c), []).
Proof.
  intros Hs Hd [_ Hok]. destruct (Hok Hd) as (_ & _ & Hf). unfold finish, call_finish. rewrite (nth_slot _ _ _ Hs).
  unfold slot_result, slot_fds. rewrite Hd, Hf. cbn [negb].
  replace (negb (sent (cl_phase c)) && negb (attempted (cl_phase c))) with (negb (attempted (cl_phase c))).
  - by destruct (attempted (cl_phase c)).
  - destruct (cl_phase c) as [| | | | |[]]; done.
Qed.

(** An answer is as the checks on its frame want it. *)
Lemma read_answer_wf timedout deadline wait headers bodies stream info a fd closed :
  read_answer timedout deadline wait headers bodies stream info = Some (ReadAnswer a fd closed) -> answer_wf a fd.
Proof.
  unfold read_answer. destruct (ksd_wait_until _ _ _) as [[]|]; try done; [|by destruct (errno_timedout _ _)].
  destruct (ksd_receive_fd_until _ _ _) as [received|]; [|done].
  destruct (rcv_result received) as [[header payload_fd]|]; [|done].
  destruct (relay_header header payload_fd) as [[n file]|] eqn:Eh; [|done].
  destruct (negb (alloc_ok n)); [done|]. destruct (transfer_recv _ _ _ _ _) as [[[got ?] ?]|]; [|done].
  destruct got as [body| | |]; try done. destruct (relay_body _ _ _ _) as [a'|] eqn:Eb; [|done].
  intros [= -> -> _]. unfold relay_header in Eh. destruct (negb _) eqn:En in Eh; [|done]. injection Eh as <- <-.
  unfold relay_body in Eb. destruct (negb _) eqn:En' in Eb; [|done]. injection Eb as <-. unfold answer_wf. cbn.
  breflect. match goal with H : Bool.eqb _ _ = true |- _ => apply eqb_prop in H; rename H into Hf end.
  destruct (Z.eqb_spec (ksd_decode_u16 (zdrop KSD_FRAME_FLAGS_OFFSET header)) KSD_RELAY_CAPTURE_FD); symmetry in Hf;
    [apply Z.leb_le in Hf|apply Z.leb_gt in Hf; done].
  destruct En' as [?|En']; [done|]. by destruct En' as [[[[[[? ?] ?] _] _] _] _].
Qed.

Lemma deliver_answered r a fd ok r' closed cs ch issued retired :
  deliver r a fd = (ok, r', closed) -> answer_wf a fd -> live r cs retired issued -> issued < UINT64_MAX ->
  simulates (rl_pending r) cs ch ->
  exists ch', channel_step ch (EvAnswer a fd) ch' /\ simulates (rl_pending r') cs ch'.
Proof.
  intros Hd Hw L Hlt Hsim. destruct (lv_ids _ _ _ _ L Hlt) as [_ Hids]. pose proof (lv_owns _ _ _ _ L) as Ho.
  assert (Hsame : forall u v c d, cs !! u = Some (Inside c) -> cs !! v = Some (Inside d) -> cl_id c = cl_id d -> u = v).
  { intros u v c d Hu Hv E. eapply Hids; [by apply key_inside|]. rewrite E. by apply key_inside. }
  destruct (deliver_cases _ _ _ _ _ _ Hd) as [(-> & _ & _ & Hno)|(i & slot & slot' & Hs & Ha & -> & Hc)].
  - exists ch. split; [|done]. apply ChDropped. intros t rq Hrq (Hid & Hnone & _).
    destruct (simulates_request _ _ _ _ _ Hsim Hrq) as (c & Hcs & (Hi & _ & _ & s & Hsl & Hans)).
    rewrite Hnone in Hans. cbn in Hans. specialize (Hno _ _ Hsl). unfold awaits in Hno.
    destruct (ow_slot _ _ Ho _ _ _ _ (key_inside _ _ _ Hcs)) as (s' & Hs' & Hact & Hrid & _). simplify_eq.
    rewrite Hact, Hans in Hno. cbn in Hno. apply Z.eqb_neq in Hno. congruence.
  - unfold awaits in Ha. breflect. rename H into Hact. rename H1 into Hdone. rename H0 into Hrid.
    destruct (ow_owned _ _ Ho _ _ Hs Hact) as (t & id & op & Hk).
    destruct (ow_slot _ _ Ho _ _ _ _ Hk) as (s1 & Hs1 & _ & Hid1 & Hop1). simplify_eq.
    unfold key, key_of in Hk. destruct (cs !! t) as [[|c]|] eqn:Hcs; try done. injection Hk as Hk1 Hk2 Hk3.
    destruct (simulates_inside _ _ _ _ _ Hsim Hcs) as (rq & Hrq & Hi1 & Hi2 & Hi3 & s2 & Hs2 & Hans).
    rewrite Hk1 in Hs2. simplify_eq.
    assert (Hnone : rq_answer rq = None).
    { destruct (rq_answer rq) as [[a0 fd0]|]; [|done]. destruct Hans as (_ & s0 & _ & _ & ->).
      unfold answered_slot in Hdone. by case_ifs. }
    assert (Hlt' : (cl_slot c < length (rl_pending r))%nat) by by eapply lookup_lt_Some.
    assert (Hone : forall u d, cs !! u = Some (Inside d) -> cl_slot d = cl_slot c -> u = t).
    { intros u d Hu E. eapply (ow_one _ _ Ho); [by apply key_inside|]. rewrite E. by apply key_inside. }
    cbn [with_pending rl_pending]. destruct Hc as [(-> & Hfile & Hcap & -> & ->)|(-> & Hcap & -> & ->)].
    + exists ch. split.
      * apply ChDropped. intros u rq' Hrq' (Hid' & _ & Hcap'). specialize (Hcap' Hfile).
        destruct (simulates_request _ _ _ _ _ Hsim Hrq') as (d & Hd' & (Hj & Hj' & _)).
        assert (u = t) as -> by (eapply Hsame; [done..|]; congruence). simplify_eq. congruence.
      * eapply (simulates_slot _ _ _ _ _ t); [naive_solver|done|]. rewrite Hcs, Hrq. constructor. unfold implements.
        do 3 (split; [done|]). exists (refused_slot slot a). rewrite list_lookup_insert_eq by done.
        rewrite Hnone. by split.
    + exists (<[t := answer rq a fd]> ch). split.
      * apply ChAnswer; [done|]. split; [congruence|]. split; [done|]. intros Hf. rewrite Hi2, Hk3. by apply Hcap.
      * eapply (simulates_slot _ _ _ _ _ t); [naive_solver| |].
        -- intros u Hu. rewrite lookup_insert_ne by done. apply Hsim.
        -- rewrite Hcs, lookup_insert_eq. constructor. do 3 (split; [done|]). exists (answered_slot slot a fd).
           rewrite list_lookup_insert_eq by done. split; [done|]. split; [done|]. exists slot. split; [|done].
           by eapply ow_ok.
Qed.

Lemma begin_simulated r cs ch issued retired t opcode i id r' deadline packed :
  live r cs retired issued -> issued + 1 < UINT64_MAX -> cs !! t = Some Holding -> simulates (rl_pending r) cs ch ->
  call_begin r opcode = CallBegun i id r' ->
  exists ch', channel_step ch (EvBegin t id opcode) ch' /\
    simulates (rl_pending r')
      (<[t := Inside (mk_call i id opcode deadline (packed_phase packed))]> cs) ch'.
Proof.
  intros L Hlt Hc Hsim. pose proof (lv_owns _ _ _ _ L) as Ho. pose proof (lv_next _ _ _ _ L) as [Hz Hn].
  destruct (lv_ids _ _ _ _ L ltac:(lia)) as [Hids _].
  unfold call_begin. destruct (rl_broken r); [done|]. destruct (find_index _ _) as [j|] eqn:Ef; [|done].
  destruct (find_index_some _ _ _ Ef) as (slot & Hs & Ha%negb_true_iff). intros [= -> <- <-].
  assert (Hnone : ch !! t = None) by (eapply simulates_none; [done|]; by rewrite Hc).
  assert (Hn' : rl_next_request_id r = 1 + issued) by (rewrite Hn; apply Z.mod_small; unfold UINT64_MAX in *; lia).
  exists (<[t := mk_request (rl_next_request_id r) opcode false None]> ch). split.
  - apply ChBegin; [done|]. intros u rq Hrq. destruct (simulates_request _ _ _ _ _ Hsim Hrq) as (c & Hcs & Hid & _).
    pose proof (Hids _ _ _ _ (key_inside _ _ _ Hcs)). lia.
  - cbn [with_pending rl_pending]. eapply (simulates_slot _ _ _ _ _ t).
    + intros u c Hu. rewrite lookup_insert_ne by done. intros Hcs E.
      destruct (ow_slot _ _ Ho _ _ _ _ (key_inside _ _ _ Hcs)) as (s' & Hs' & Hact & _). rewrite E in Hs'. congruence.
    + intros u Hu. rewrite !lookup_insert_ne by done. apply Hsim.
    + rewrite !lookup_insert_eq. constructor. unfold implements. cbn.
      do 2 (split; [done|]). split; [by destruct packed|]. eexists.
      rewrite list_lookup_insert_eq by by eapply lookup_lt_Some. by split.
Qed.

Lemma return_simulated r cs ch issued retired t c result r' closed :
  live r cs retired issued -> cs !! t = Some (Inside c) -> simulates (rl_pending r) cs ch ->
  finish r c = (result, r', closed) ->
  exists ch', channel_step ch (EvReturn t result) ch' /\ simulates (rl_pending r') (<[t := Holding]> (wake <$> cs)) ch'.
Proof.
  intros L Hc Hsim Hf. pose proof (lv_owns _ _ _ _ L) as Ho.
  destruct (simulates_inside _ _ _ _ _ Hsim Hc) as (rq & Hrq & _ & _ & Hatt & slot & Hs & Hans).
  assert (result = outcome rq) as ->.
  { unfold outcome. destruct (rq_answer rq) as [[a fd]|]; cbn in Hans.
    - destruct Hans as (Hw & s0 & H0 & Hd & E).
      rewrite (finish_answered _ _ _ _ _ _ Hs E Hw H0 Hd) in Hf. by injection Hf as <-.
    - rewrite (finish_unanswered _ _ _ Hs Hans) in Hf by by eapply ow_ok. injection Hf as <- _ _. by rewrite Hatt. }
  exists (delete t ch). split; [by constructor|]. rewrite (finish_relay _ _ _ _ _ Hf).
  cbn [free_pending with_pending rl_pending]. pose proof (simulates_woken _ true _ _ Hsim) as Hsim'.
  eapply (simulates_slot _ _ _ _ _ t).
  - intros u d Hu. rewrite lookup_insert_ne, lookup_fmap by done. destruct (cs !! u) as [[|d']|] eqn:Hd; try done.
    cbn. intros [= <-] E. cbn in E. destruct Hu. eapply (ow_one _ _ Ho); [by apply key_inside|].
    rewrite E. by apply key_inside.
  - intros u Hu. rewrite lookup_insert_ne, lookup_delete_ne by done. apply Hsim'.
  - rewrite lookup_insert_eq, lookup_delete_eq. constructor.
Qed.

(** Threads that hold a reference make no request. *)
Lemma simulates_calls slots cs cs' ch :
  (forall u, call_of (cs' !! u) = call_of (cs !! u)) -> simulates slots cs ch -> simulates slots cs' ch.
Proof. intros H Hsim u. rewrite H. apply Hsim. Qed.

Lemma simulates_empty slots ch : simulates slots ∅ ch -> ch = ∅.
Proof. intros H. apply map_eq. intros t. rewrite lookup_empty. eapply simulates_none; [done|]. by rewrite lookup_empty. Qed.

Lemma release_simulated r r' cs retired issued closed ch :
  ksd_kwin_relay_release r = (r', closed) -> simulates (rl_pending r) cs ch ->
  relay_inv (mk_system r' cs retired issued) -> system_simulates (mk_system r' cs retired issued) ch.
Proof.
  intros Hr Hsim Hi. unfold system_simulates, relay_inv in *. cbn in *.
  destruct (release_cases _ _ _ Hr) as [[_ ->]|(_ & -> & _)]; [|done].
  destruct Hi as [_ ->]. by eapply simulates_empty.
Qed.

Ltac unseen := eexists; split; [constructor|].

(** Every step of the threads is a step of the channel. *)
Lemma step_simulated s ev ins closed s' ch :
  relay_inv s -> sy_issued s' < UINT64_MAX -> step s ev ins closed s' -> system_simulates s ch ->
  exists ch', channel_step ch ev ch' /\ system_simulates s' ch'.
Proof.
  intros Hi Hlt Hs Hsim. pose proof (relay_step_inv _ _ _ _ _ Hi Hs) as Hi'.
  destruct Hs; unfold relay_inv in Hi; cbn [sy_relay sy_callers sy_retired sy_issued] in *;
    change (simulates (rl_pending r) cs ch) in Hsim.
  - unseen. unfold system_simulates; cbn [sy_relay sy_callers]. eapply simulates_calls; [|exact Hsim].
    intros u. destruct (decide (u = t)) as [->|].
    + by rewrite lookup_insert_eq, H.
    + by rewrite lookup_insert_ne.
  - unseen. unfold system_simulates; cbn [sy_relay sy_callers].
    eapply simulates_calls; [|apply (simulates_woken _ true), Hsim]. intros u.
    destruct (decide (u = t)) as [->|].
    + by rewrite lookup_insert_eq; cbn; rewrite lookup_fmap, H.
    + by rewrite lookup_insert_ne.
  - unseen. eapply release_simulated; [done| |done]. eapply simulates_calls; [|exact Hsim]. intros u.
    destruct (decide (u = t)) as [->|].
    + by rewrite lookup_delete_eq, H.
    + by rewrite lookup_delete_ne.
  - exists ch. split; [|done]. constructor. eapply simulates_none; [done|]. by rewrite H.
  - by eapply begin_simulated.
  - unseen. eapply (simulates_phase _ _ _ _ _ false); [done|done|by rewrite H0].
  - unseen. eapply (simulates_phase _ _ _ _ _ false); [done|done|by destruct (cl_phase c)].
  - destruct (write_admit_cases _ _ _ _ H1) as (_ & _ & _ & _ & ->).
    destruct (simulates_inside _ _ _ _ _ Hsim H) as (rq & Hrq & Hi1 & Hi2 & Hi3 & Hi4). rewrite H0 in Hi3.
    exists (<[t := attempt rq]> ch). split; [by constructor|]. by apply simulates_insert.
  - unseen. eapply (simulates_phase _ _ _ _ _ false); [done|done|by rewrite H0].
  - unseen. eapply (simulates_phase _ _ _ _ _ true); [done|done|by rewrite H0; destruct ok].
  - unseen. eapply (simulates_phase _ _ _ _ _ false); [done|done|by rewrite H0].
  - pose proof (call_next_cases r (cl_slot c) (cl_deadline c) now) as Hn. rewrite H1 in Hn. destruct Hn as (_ & _ & ->).
    unseen. eapply (simulates_phase _ _ _ _ _ false); [done|done|by rewrite H0].
  - unseen. eapply (simulates_phase _ _ _ _ _ false); [done|done|by rewrite H0].
  - unseen. eapply (simulates_phase _ _ _ _ _ false); [done|done|by rewrite H0].
  - destruct (deliver_answered _ _ _ _ _ _ _ _ _ _ H2 (read_answer_wf _ _ _ _ _ _ _ _ _ _ H1) Hi Hlt Hsim)
      as (ch' & Hst & Hsim'). exists ch'. split; [done|].
    eapply (simulates_phase _ _ _ _ _ false); [done|done|by rewrite H0].
  - unseen. eapply (simulates_phase _ _ _ _ _ true); [done|done|by rewrite H0].
  - by eapply return_simulated.
Qed.

Lemma run_simulated fd r tr ins closed s :
  ksd_kwin_relay_create fd = Some r -> run (start r) tr ins closed s -> sy_issued s < UINT64_MAX ->
  relay_inv s /\ exists ch, channel_run tr ch /\ system_simulates s ch.
Proof.
  intros Hc Hr. assert (H0 : relay_inv (start r)) by by eapply live_start.
  induction Hr as [|tr ins closed s1 ev ins' closed' s2 Hr IH Hs]; intros Hlt.
  - split; [done|]. exists ∅. split; [constructor|]. intros t. rewrite !lookup_empty. constructor.
  - assert (Hle : sy_issued s1 <= sy_issued s2) by (destruct Hs; cbn; lia).
    destruct (IH ltac:(lia)) as (Hi & ch & Hch & Hsim). split; [by eapply relay_step_inv|].
    destruct (step_simulated _ _ _ _ _ _ Hi Hlt Hs Hsim) as (ch' & Hst & Hsim'). exists ch'. split; [|done].
    by econstructor.
Qed.

(** ** What the channel remembers *)

Lemma channel_ids tr ch :
  channel_run tr ch -> forall t u rq rq', ch !! t = Some rq -> ch !! u = Some rq' -> rq_id rq = rq_id rq' -> t = u.
Proof.
  induction 1 as [|tr ch ev ch' _ IH Hs]; [intros ????; by rewrite lookup_empty|].
  destruct Hs as [| | |ch t id op Hn Hf|ch t rq Hrq _|ch t rq a fd Hrq _| |ch t rq _]; intros v w x y; try by apply IH.
  - rewrite !lookup_insert_Some. intros [[<- <-]|[? Hv]] [[<- <-]|[? Hw]]; cbn; intros E; try done; try by eapply IH.
    + by destruct (Hf _ _ Hw).
    + by destruct (Hf _ _ Hv).
  - rewrite !lookup_insert_Some. intros [[<- <-]|[? Hv]] [[<- <-]|[? Hw]]; cbn; intros E; try done; by eapply IH.
  - rewrite !lookup_insert_Some. intros [[<- <-]|[? Hv]] [[<- <-]|[? Hw]]; cbn; intros E; try done; by eapply IH.
  - rewrite !lookup_delete_Some. intros [_ Hv] [_ Hw]. by eapply IH.
Qed.

(** What was seen of a request since it began. *)
Record history (t : nat) (rq : pending_request) (tr : list event) : Prop := mk_history {
  hs_open : forall result, EvReturn t result ∉ tr;
  hs_attempt : EvAttempt t ∈ tr <-> rq_attempted rq = true;
  hs_answer : match rq_answer rq with
    | Some (a, fd) => EvAnswer a fd ∈ tr /\ an_request_id a = rq_id rq /\ (an_file a = true -> is_capture (rq_opcode rq) = true)
    | None => forall a fd, EvAnswer a fd ∈ tr -> an_request_id a = rq_id rq ->
                an_file a = true /\ is_capture (rq_opcode rq) = false
    end;
}.

Lemma history_other t rq tr ev :
  history t rq tr -> (forall result, ev <> EvReturn t result) -> ev <> EvAttempt t ->
  (rq_answer rq = None -> forall a fd, ev = EvAnswer a fd -> an_request_id a = rq_id rq ->
     an_file a = true /\ is_capture (rq_opcode rq) = false) ->
  history t rq (tr ++ [ev]).
Proof.
  intros [H1 H2 H3] Hr Ha Hn. constructor.
  - intros result. rewrite elem_of_app, list_elem_of_singleton. intros [H|H]; [by eapply H1|by eapply Hr].
  - rewrite elem_of_app, list_elem_of_singleton, <- H2. split; [intros [?|E]; [done|by destruct Ha]|auto].
  - destruct (rq_answer rq) as [[a fd]|].
    + rewrite elem_of_app. destruct H3 as (? & ? & ?). auto.
    + intros a fd. rewrite elem_of_app, list_elem_of_singleton. intros [H|H]; [by apply H3 with fd|].
      by eapply Hn.
Qed.

Lemma history_attempt t rq tr : history t rq tr -> history t (attempt rq) (tr ++ [EvAttempt t]).
Proof.
  intros [H1 H2 H3]. constructor; cbn.
  - intros result. rewrite elem_of_app, list_elem_of_singleton. intros [H|H]; [by eapply H1|done].
  - rewrite elem_of_app, list_elem_of_singleton. split; auto.
  - destruct (rq_answer rq) as [[a fd]|]; [rewrite elem_of_app; destruct H3 as (? & ? & ?); auto|].
    intros a fd. rewrite elem_of_app, list_elem_of_singleton. intros [H|H]; [by apply H3 with fd|done].
Qed.

Lemma history_answer t rq tr a fd :
  history t rq tr -> rq_id rq = an_request_id a -> (an_file a = true -> is_capture (rq_opcode rq) = true) ->
  history t (answer rq a fd) (tr ++ [EvAnswer a fd]).
Proof.
  intros [H1 H2 H3] Hid Hcap. constructor; cbn.
  - intros result. rewrite elem_of_app, list_elem_of_singleton. intros [H|H]; [by eapply H1|done].
  - rewrite elem_of_app, list_elem_of_singleton, <- H2. split; [intros [?|?]; done|auto].
  - rewrite elem_of_app, list_elem_of_singleton. auto.
Qed.

Lemma channel_history tr ch :
  channel_run tr ch -> forall t rq, ch !! t = Some rq ->
  exists tr1 tr2, tr = tr1 ++ EvBegin t (rq_id rq) (rq_opcode rq) :: tr2 /\ history t rq tr2.
Proof.
  induction 1 as [|tr ch ev ch' Hrun IH Hs]; [intros ??; by rewrite lookup_empty|]. intros v x Hx.
  assert (Hmore : forall v x rq, (exists tr1 tr2, tr = tr1 ++ EvBegin v (rq_id x) (rq_opcode x) :: tr2 /\ history v rq tr2) ->
    rq_id rq = rq_id x -> rq_opcode rq = rq_opcode x ->
    (forall tr2, history v rq tr2 -> history v x (tr2 ++ [ev])) ->
    exists tr1 tr2, tr ++ [ev] = tr1 ++ EvBegin v (rq_id x) (rq_opcode x) :: tr2 /\ history v x tr2).
  { intros v' x' rq' (tr1 & tr2 & -> & Hh) _ _ Hnext. exists tr1, (tr2 ++ [ev]). split; [|by apply Hnext].
    by rewrite <- app_assoc. }
  destruct Hs as [ch t|ch t|ch t result Hn|ch t id op Hn Hf|ch t rq Hrq Hat|ch t rq a fd Hrq (Hid & Hnone & Hcap)|ch a fd Hno|ch t rq Hrq].
  - apply (Hmore v x x); [by apply IH|done..|]. intros tr2 Hh. by apply history_other.
  - apply (Hmore v x x); [by apply IH|done..|]. intros tr2 Hh. by apply history_other.
  - apply (Hmore v x x); [by apply IH|done..|]. intros tr2 Hh. by apply history_other.
  - apply lookup_insert_Some in Hx as [[<- <-]|[Hne Hx]].
    + exists tr, []. split; [done|]. constructor; cbn; [by intros ? ?%not_elem_of_nil|split; [by intros ?%not_elem_of_nil|done]|].
      by intros ? ? ?%not_elem_of_nil.
    + apply (Hmore v x x); [by apply IH|done..|]. intros tr2 Hh. by apply history_other.
  - apply lookup_insert_Some in Hx as [[<- <-]|[Hne Hx]].
    + apply (Hmore _ _ rq); [exact (IH _ _ Hrq)|done..|]. apply history_attempt.
    + apply (Hmore v x x); [by apply IH|done..|]. intros tr2 Hh. apply history_other; naive_solver.
  - apply lookup_insert_Some in Hx as [[<- <-]|[Hne Hx]].
    + apply (Hmore _ _ rq); [exact (IH _ _ Hrq)|done..|]. intros tr2 Hh. by apply history_answer.
    + apply (Hmore v x x); [by apply IH|done..|]. intros tr2 Hh. apply history_other; [done..|].
      intros _ a' fd' [= <- <-] E. destruct Hne. eapply (channel_ids _ _ Hrun); [done..|]. congruence.
  - apply (Hmore v x x); [by apply IH|done..|]. intros tr2 Hh. apply history_other; [done..|].
    intros Hn a' fd' [= <- <-] E. destruct (an_file a) eqn:Ef, (is_capture (rq_opcode x)) eqn:Ec; try done;
      destruct (Hno _ _ Hx); (split; [done|]); (split; [done|]); congruence.
  - apply lookup_delete_Some in Hx as [Hne Hx]. apply (Hmore v x x); [by apply IH|done..|].
    intros tr2 Hh. apply history_other; naive_solver.
Qed.

(** ** Descriptors *)

Definition relay_fds (r : option ksd_kwin_relay) : list Z :=
  match r with
  | None => []
  | Some r => concat (map slot_fds (rl_pending r)) ++ close_fd (rl_descriptor r)
  end.
(** What leaves with a result. *)
Definition handed (ev : event) : list Z :=
  match ev with EvRefused _ result | EvReturn _ result => owned result | _ => [] end.

Lemma slot_result_conserves slot ok result closed :
  slot_result slot ksd_result_init = (ok, result, closed) -> slot_fds slot ≡ₚ closed ++ owned result.
Proof.
  unfold slot_result, slot_fds. destruct (pd_done slot); cbn [negb]; [|by intros [= _ <- <-]; rewrite app_nil_r].
  destruct (pd_status slot =? KSD_STATUS_OK); cbn [andb].
  - destruct (Z.leb_spec 0 (pd_payload_fd slot)); cbn.
    + unfold ksd_result_take_fd. rewrite (proj2 (Z.ltb_ge _ _)) by done. cbn.
      rewrite (proj2 (Z.leb_le _ _)) by done. destruct (pd_tail_length slot =? 0); intros [= _ <- <-]; cbn; [done|].
      unfold owned, release_payload_fd. cbn. by rewrite (proj2 (Z.leb_le _ _)).
    + destruct (pd_tail_length slot =? 0) eqn:El; cbn; [by intros [= _ <- <-]|].
      unfold ksd_result_take. rewrite El. cbn. destruct (bool_decide _); by intros [= _ <- <-].
  - destruct (ksd_result_error _ _ _ _) as [res cl] eqn:Er. injection Er as <- <-. intros [= _ <- <-].
    unfold owned, release_payload_fd. cbn. by rewrite app_nil_r.
Qed.

Lemma finish_conserves r c result r' closed slot :
  rl_pending r !! cl_slot c = Some slot -> finish r c = (result, r', closed) ->
  relay_fds (Some r) ≡ₚ relay_fds (Some r') ++ closed ++ owned result.
Proof.
  intros Hs Hf. assert (Hc : slot_fds slot ≡ₚ closed ++ owned result).
  { unfold finish, call_finish in Hf. rewrite (nth_slot _ _ _ Hs) in Hf.
    destruct (slot_result slot ksd_result_init) as [[ok res] cl] eqn:E. apply slot_result_conserves in E. rewrite E.
    destruct ok; [by injection Hf as <- _ <-|].
    destruct (negb _ && negb _); injection Hf as <- _ <-; unfold owned, release_payload_fd at 2; cbn;
      by rewrite app_nil_r. }
  rewrite (finish_relay _ _ _ _ _ Hf). unfold relay_fds. cbn [free_pending with_pending rl_pending rl_descriptor].
  pose proof (concat_map_insert slot_fds _ _ _ free_slot Hs) as Hp. change (slot_fds free_slot) with (@nil Z) in Hp. count_handles.
Qed.

Lemma deliver_conserves r a fd ok r' closed cs :
  owns (rl_pending r) cs -> deliver r a fd = (ok, r', closed) ->
  relay_fds (Some r) ++ close_fd fd ≡ₚ relay_fds (Some r') ++ closed.
Proof.
  intros Ho Hd. destruct (deliver_cases _ _ _ _ _ _ Hd) as [(-> & _ & -> & _)|(i & slot & slot' & Hs & Ha & -> & Hc)]; [done|].
  unfold relay_fds. cbn [with_pending rl_pending rl_descriptor].
  destruct (ow_ok _ _ Ho _ _ Hs) as [_ Hok]. unfold awaits in Ha. breflect. destruct (Hok H1) as (_ & _ & Hf).
  pose proof (concat_map_insert slot_fds _ _ _ slot' Hs) as Hp.
  assert (Hold : slot_fds slot = []) by (unfold slot_fds; by rewrite Hf). rewrite Hold, app_nil_r in Hp.
  assert (Hx : slot_fds slot' ++ closed ≡ₚ close_fd fd).
  { destruct Hc as [(_ & _ & _ & -> & ->)|(_ & _ & -> & ->)].
    - unfold slot_fds, refused_slot. cbn. by rewrite Hf.
    - unfold answered_slot. case_ifs; unfold slot_fds, close_fd; cbn; by rewrite ?Hf, ?app_nil_r. }
  clear Hd Hc. count_handles.
Qed.

Lemma release_conserves r r' closed :
  ksd_kwin_relay_release r = (r', closed) -> relay_fds (Some r) ≡ₚ relay_fds r' ++ closed.
Proof.
  unfold ksd_kwin_relay_release. cbn [with_refs rl_refs]. destruct (_ =? 0); intros [= <- <-]; [done|].
  by rewrite app_nil_r.
Qed.

Lemma refused_owns r opcode begun result closed :
  call_begin r opcode = begun -> call_refused begun ksd_result_init = (result, closed) ->
  owned result = [] /\ closed = [].
Proof. intros _. unfold call_refused. by destruct begun; intros [= <- <-]. Qed.

Lemma begin_conserves r opcode i id r' :
  (forall i slot, rl_pending r !! i = Some slot -> slot_ok slot) ->
  call_begin r opcode = CallBegun i id r' -> relay_fds (Some r') ≡ₚ relay_fds (Some r).
Proof.
  intros Hok. unfold call_begin. destruct (rl_broken r); [done|].
  destruct (find_index _ _) as [j|] eqn:Ef; [|done]. intros [= -> <- <-].
  destruct (find_index_some _ _ _ Ef) as (slot & Hs & Ha%negb_true_iff). destruct (Hok _ _ Hs) as [Hfree _].
  unfold relay_fds. cbn [with_pending rl_pending rl_descriptor]. apply Permutation_app_tail.
  pose proof (concat_map_insert slot_fds _ _ _ (fresh_slot (rl_next_request_id r) opcode) Hs) as Hp.
  rewrite (Hfree Ha) in Hp. cbn in Hp. by rewrite !app_nil_r in Hp.
Qed.

Lemma step_conserves s ev ins closed s' :
  relay_inv s -> step s ev ins closed s' ->
  relay_fds (sy_relay s) ++ ins ≡ₚ relay_fds (sy_relay s') ++ closed ++ handed ev.
Proof.
  intros Hi Hs. destruct Hs; unfold relay_inv in Hi; cbn [sy_relay sy_callers sy_retired sy_issued handed] in *;
    rewrite ?app_nil_r; try done.
  - by apply (release_conserves _ _ _ H0).
  - destruct (refused_owns _ _ _ _ _ H0 H2) as [-> ->]. by rewrite app_nil_r.
  - symmetry. eapply begin_conserves; [|done]. intros j slot Hj. eapply ow_ok; [by eapply lv_owns|done].
  - by destruct (write_admit_cases _ _ _ _ H1) as (_ & _ & _ & _ & ->).
  - pose proof (call_next_cases r (cl_slot c) (cl_deadline c) now) as Hn. rewrite H1 in Hn. by destruct Hn as (_ & _ & ->).
  - pose proof (deliver_conserves _ _ _ _ _ _ _ (lv_owns _ _ _ _ Hi) H2). count_handles.
  - destruct (ow_slot _ _ (lv_owns _ _ _ _ Hi) _ _ _ _ (key_inside _ _ _ H)) as (slot & Hsl & _).
    by eapply finish_conserves.
Qed.

Lemma run_conserves r tr ins closed s :
  relay_inv (start r) -> run (start r) tr ins closed s ->
  relay_fds (Some r) ++ ins ≡ₚ relay_fds (sy_relay s) ++ closed ++ concat (map handed tr).
Proof.
  intros H0. induction 1 as [|tr ins closed s1 ev ins' closed' s2 Hr IH Hs]; [by rewrite !app_nil_r|].
  assert (Hi : relay_inv s1) by by eapply run_inv.
  rewrite map_app, concat_app. cbn [map concat].
  pose proof (step_conserves _ _ _ _ _ Hi Hs) as Hc.
  count_handles.
Qed.

End refinement.

(** ** Nobody depends on another *)

Section progress.
Context {AL : Allocator}.









(** The writer's or the reader's role. *)
Definition has_role (p : phase) : bool := is_writing p || is_reading p.

(** The thread a sleeper waits for, and the step of its that wakes him. *)
Lemma sleeper_has_waker r cs retired issued t c :
  live r cs retired issued -> cs !! t = Some (Inside c) -> asleep (cl_phase c) = true ->
  exists u d, u <> t /\ cs !! u = Some (Inside d) /\ asleep (cl_phase d) = false /\
    has_role (cl_phase d) = true.
Proof.
  intros L Hc Ha. destruct (lv_sleepers _ _ _ _ L t) as [Hw Hr]. rewrite (holds_inside _ _ _ _ Hc) in Hw. rewrite (holds_inside _ _ _ _ Hc) in Hr.
  assert (Hf : exists u, holds is_writing cs u = true \/ holds is_reading cs u = true).
  { destruct (cl_phase c) as [a| |a| | |]; try done; cbn in Ha; subst a.
    - destruct (Hw eq_refl) as [Hw' _]. destruct (proj1 (proj1 (lv_writer _ _ _ _ L)) Hw') as [u Hu]. eauto.
    - destruct (Hr eq_refl) as [Hr' _]. destruct (proj1 (proj1 (lv_reader _ _ _ _ L)) Hr') as [u Hu]. eauto. }
  destruct Hf as [u Hu]. unfold holds, holds_of in Hu. destruct (cs !! u) as [[|d]|] eqn:Hd; try by destruct Hu.
  exists u, d. split; [|split; [done|]].
  - intros ->. rewrite Hc in Hd. injection Hd as <-. destruct (cl_phase c), Hu; done.
  - unfold has_role. destruct (cl_phase d), Hu; done.
Qed.

(** Giving a role up wakes everyone. *)
Lemma role_given_up s ev ins closed s' t c u :
  step s ev ins closed s' -> sy_callers s !! t = Some (Inside c) -> asleep (cl_phase c) = true ->
  holds has_role (sy_callers s) u = true -> holds has_role (sy_callers s') u = false ->
  exists c', sy_callers s' !! t = Some (Inside c') /\ asleep (cl_phase c') = false.
Proof.
  intros Hs Hc Ha H1 H2.
  assert (Hu : u <> t).
  { intros ->. rewrite (holds_inside _ _ _ _ Hc) in H1. by destruct (cl_phase c). }
  assert (Hwoken : forall x (cs : gmap nat caller), cs !! t = Some (Inside c) ->
    exists c', <[u := x]> (wake <$> cs) !! t = Some (Inside c') /\ asleep (cl_phase c') = false).
  { intros x cs E. exists (with_phase c (awake (cl_phase c))). rewrite lookup_insert_ne, lookup_fmap, E by done.
    split; [done|]. by destruct (cl_phase c). }
  assert (Haw : forall p, has_role (awake p) = has_role p) by by intros [].
  destruct Hs; cbn [sy_callers] in *; rewrite ?holds_insert, ?holds_delete, ?(holds_wake has_role _ _ Haw) in H2; try congruence;
    match type of H2 with context [decide (u = ?v)] => destruct (decide (u = v)) as [<-|]; [|congruence] end;
    try (by apply Hwoken);
    try (by rewrite (holds_absent _ _ _ H) in H1); try (by rewrite (holds_holding _ _ _ H) in H1);
    rewrite (holds_inside _ _ _ _ H) in H1; cbn in H2;
    repeat match goal with E : cl_phase _ = _ |- _ => rewrite E in *; clear E end; try done.
  by destruct (cl_phase c0).
Qed.

(** Retiring wakes everyone. *)
Lemma retired_wakes s ev ins closed s' t c :
  sy_callers s !! t = Some (Inside c) -> step s ev ins closed s' -> sy_retired s = false -> sy_retired s' = true ->
  exists c', sy_callers s' !! t = Some (Inside c') /\ asleep (cl_phase c') = false.
Proof.
  intros Hc Hs. destruct Hs; cbn [sy_callers sy_retired] in *; try congruence. intros _ _.
  rewrite lookup_insert_ne, lookup_fmap, Hc by congruence. eexists. split; [done|]. by destruct (cl_phase c).
Qed.
End progress.

Lemma create_fds fd r : ksd_kwin_relay_create fd = Some r -> relay_fds (Some r) = [fd].
Proof.
  unfold ksd_kwin_relay_create, relay_fds, close_fd. destruct (Z.ltb_spec fd 0); [done|]. intros [= <-]. cbn.
  by rewrite (proj2 (Z.leb_le _ _)).
Qed.

(** ** The relay's promises *)

Section promises.
Context {AL : Allocator}.
Variables (fd : Z) (r : ksd_kwin_relay).
Hypothesis created : ksd_kwin_relay_create fd = Some r.

(** C1: Refinement.  In any interleaving of the threads' sections, with the
    registration retired at any moment, the relay does what the channel does:
    what is seen of the threads is a run of the channel, and at its end every
    call is a request of the channel, whose id, operation, progress and answer
    its slot holds.  While ids have not wrapped, which takes 2^64 requests. *)
Theorem relay_refines_channel tr ins closed s :
  run (start r) tr ins closed s -> sy_issued s < UINT64_MAX ->
  exists ch, channel_run tr ch /\ system_simulates s ch.
Proof using AL created. intros Hr Hlt. by destruct (run_simulated _ _ _ _ _ _ created Hr Hlt). Qed.

(** A call returns its own answer.  What a call returns is the answer of a
    frame that named its id and arrived since it began, a file only when it asked
    for a capture; without one it returns TIMEOUT when its request was attempted
    and BUSY when it was not, and then no such frame arrived. *)
Theorem relay_answers_own tr ins closed s t result :
  run (start r) (tr ++ [EvReturn t result]) ins closed s -> sy_issued s < UINT64_MAX ->
  exists tr1 id opcode tr2, tr = tr1 ++ EvBegin t id opcode :: tr2 /\ (forall other, EvReturn t other ∉ tr2) /\
    ((exists a payload_fd, EvAnswer a payload_fd ∈ tr2 /\ an_request_id a = id /\
        (an_file a = true -> is_capture opcode = true) /\ result = reply_result a payload_fd) \/
     ((forall a payload_fd, EvAnswer a payload_fd ∈ tr2 -> an_request_id a = id ->
         an_file a = true /\ is_capture opcode = false) /\
      ((EvAttempt t ∈ tr2 /\ result = unanswered_result) \/ (EvAttempt t ∉ tr2 /\ result = unwritten_result)))).
Proof using AL created.
  intros Hr Hlt. destruct (run_simulated _ _ _ _ _ _ created Hr Hlt) as (_ & ch & Hch & _).
  inversion Hch as [E|tr' ch0 ev ch1 Hrun Hst E1 E2]; [by destruct tr|].
  apply app_inj_tail in E1 as [-> ->]. inversion Hst as [| | | | | | |ch2 t' rq Hrq E3 E4 E5]. subst.
  destruct (channel_history _ _ Hrun _ _ Hrq) as (tr1 & tr2 & -> & [H1 H2 H3]).
  exists tr1, (rq_id rq), (rq_opcode rq), tr2. split; [done|]. split; [done|]. unfold outcome.
  destruct (rq_answer rq) as [[a pfd]|]; [left; exists a, pfd; destruct H3 as (? & ? & ?); auto|]. right. split; [done|].
  destruct (rq_attempted rq); [left; by rewrite H2|right; by rewrite H2].
Qed.

(** The invariant of the relay.  At any moment at most one thread writes and
    at most one reads, and then the relay says so; the slots in use are those of
    the calls inside, one each, with their ids and operations; the references
    are those of the threads and of the registration, and the relay is freed when
    the last of them goes and no earlier. *)
Theorem relay_invariant tr ins closed s :
  run (start r) tr ins closed s ->
  match sy_relay s with
  | None => sy_retired s = true /\ sy_callers s = ∅
  | Some relay =>
      role (rl_writing relay) is_writing (sy_callers s) /\ role (rl_reading relay) is_reading (sy_callers s) /\
      owns (rl_pending relay) (sy_callers s) /\
      rl_refs relay = (if sy_retired s then 0 else 1) + Z.of_nat (size (sy_callers s)) /\ 0 < rl_refs relay /\
      (sy_retired s = true -> rl_broken relay = true)
  end.
Proof using AL created.
  intros Hr. pose proof (run_inv _ _ _ _ _ Hr (live_start _ _ created)) as Hi. unfold relay_inv in Hi.
  destruct (sy_relay s); [|done]. destruct Hi as [_ L2 _ _ L5 L6 _ [L8 [L8' _]] L9]. auto 10.
Qed.


(** C34: No wake-up is lost.  Whoever sleeps, with a deadline or without, waits
    for a thread that is awake in one of the two roles; and whenever any thread
    that writes or reads gives its role up, whoever slept is awake, as is
    whoever slept when the relay is found retired. *)
Theorem relay_sleeper_woken tr ins closed s t c :
  run (start r) tr ins closed s -> sy_callers s !! t = Some (Inside c) -> asleep (cl_phase c) = true ->
  (exists u d, u <> t /\ sy_callers s !! u = Some (Inside d) /\ asleep (cl_phase d) = false /\
     has_role (cl_phase d) = true) /\
  (forall u ev ins' closed' s', holds has_role (sy_callers s) u = true -> step s ev ins' closed' s' ->
     holds has_role (sy_callers s') u = false ->
     exists c', sy_callers s' !! t = Some (Inside c') /\ asleep (cl_phase c') = false) /\
  (forall ev ins' closed' s', step s ev ins' closed' s' -> sy_retired s = false -> sy_retired s' = true ->
     exists c', sy_callers s' !! t = Some (Inside c') /\ asleep (cl_phase c') = false).
Proof using AL created.
  intros Hr Hc Ha. pose proof (run_inv _ _ _ _ _ Hr (live_start _ _ created)) as Hi. unfold relay_inv in Hi.
  destruct s as [[relay|] cs retired issued]; cbn in *; [|destruct Hi as [_ ->]; by rewrite lookup_empty in Hc].
  split; [by eapply sleeper_has_waker|]. split.
  - intros u ev ins' closed' s' H1 Hs H2. by eapply role_given_up.
  - intros ev ins' closed' s' Hs. by refine (retired_wakes _ _ _ _ _ _ _ _ Hs).
Qed.

(** Descriptors are conserved.  The relay's own descriptor and every one
    that came with a frame is in the relay, was closed, or was handed to a
    caller, each exactly once; so once the relay is freed all were closed or
    handed over. *)
Theorem relay_descriptors tr ins closed s :
  run (start r) tr ins closed s -> fd :: ins ≡ₚ relay_fds (sy_relay s) ++ closed ++ concat (map handed tr).
Proof using AL created.
  intros Hr. rewrite <- (run_conserves _ _ _ _ _ (live_start _ _ created) Hr). by rewrite (create_fds _ _ created).
Qed.
End promises.

(** ** A run *)

#[local] Existing Instance infinite_memory.
Definition sample_relay : ksd_kwin_relay := default (mk_relay 7 false false false 1 1 []) (ksd_kwin_relay_create 7).
Definition ready : list wait_step := [mk_wait 1 (PollReady POLLIN)].
(** The daemon's answer to the first request: OK, detail 0 and the tail "hi". *)
Definition sample_body : list byte := ksd_encode_u32 KSD_STATUS_OK ++ ksd_encode_u32 0 ++ cstr "hi".
Definition sample_header : list byte :=
  ztake KSD_FRAME_HEADER_SIZE
    (buf_bytes (snd (ksd_frame_pack
       (mk_frame relay_magic KSD_PROTOCOL_MAJOR KSD_PROTOCOL_MINOR 0 0 10 1 (Some sample_body)) (ksd_buffer_init 100)))).
Definition sample_request : ksd_frame := mk_frame relay_magic KSD_PROTOCOL_MAJOR KSD_PROTOCOL_MINOR 3 0 0 9 None.
Definition sample_answer : relay_answer := mk_answer 1 KSD_STATUS_OK 0 (cstr "hi") 2 false.

Definition sample_events : list event :=
  [EvInternal 0; EvInternal 1; EvBegin 0 1 3; EvBegin 1 2 3; EvAttempt 0; EvInternal 0; EvAttempt 1; EvInternal 1;
   EvInternal 1; EvInternal 0; EvAnswer sample_answer (-1); EvInternal 1].

Lemma sample_created : ksd_kwin_relay_create 7 = Some sample_relay.
Proof. reflexivity. Qed.

(** Two calls; one sleeps while the other reads for both, and then returns. *)
Lemma sample_runs : exists s c s',
  run (start sample_relay) (take 10 sample_events) [] [] s /\ sy_callers s !! 0%nat = Some (Inside c) /\
  asleep (cl_phase c) = true /\ cl_deadline c = 1000 /\
  run (start sample_relay) (sample_events ++ [EvReturn 0 (reply_result sample_answer (-1))]) [] [] s' /\ sy_issued s' = 2 /\
  holds has_role (sy_callers s) 1%nat = true.
Proof.
  pose proof (RunStart (start sample_relay)) as R.
  eapply RunStep in R; [|eapply (StepAcquire _ _ _ 0); (vm_compute; reflexivity)].
  eapply RunStep in R; [|eapply (StepAcquire _ _ _ 1); (vm_compute; reflexivity)].
  eapply RunStep in R; [|eapply (StepBegin _ _ _ _ _ 0 sample_request _ _ 1000); (vm_compute; reflexivity)].
  eapply RunStep in R; [|eapply (StepBegin _ _ _ _ _ 1 sample_request _ _ 1000); (vm_compute; reflexivity)].
  eapply RunStep in R; [|eapply (StepAttempt _ _ _ _ _ 0 _ _ 5); (vm_compute; reflexivity)].
  eapply RunStep in R; [|eapply (StepWritten _ _ _ _ 0 _ true); (vm_compute; reflexivity)].
  eapply RunStep in R; [|eapply (StepAttempt _ _ _ _ _ 1 _ _ 6); (vm_compute; reflexivity)].
  eapply RunStep in R; [|eapply (StepWritten _ _ _ _ 1 _ true); (vm_compute; reflexivity)].
  eapply RunStep in R; [|eapply (StepTakeRole _ _ _ _ _ 1 _ 7); (vm_compute; reflexivity)].
  eapply RunStep in R; [|eapply (StepSleep _ _ _ _ 0 _ 8); (vm_compute; reflexivity)].
  pose proof R as R10.
  eapply RunStep in R; [|eapply (StepAnswer _ _ _ _ _ 1 _ false ready [mk_recv ready (MsgData sample_header false [])]
    [mk_turn ready (IoBytes 10)] sample_body (mk_info false 0 0) sample_answer (-1) []); [vm_compute; reflexivity|vm_compute; reflexivity|vm_compute; reflexivity|unfold deliver; vm_compute; reflexivity]].
  eapply RunStep in R; [|eapply (StepReadDone _ _ _ _ 1 _ true); (vm_compute; reflexivity)].
  eapply RunStep in R; [|eapply (StepReturn _ _ _ _ _ 0 _ 9); [vm_compute; reflexivity|right; left; vm_compute; auto|unfold finish; vm_compute; reflexivity]].
  do 3 eexists. split; [exact R10|]. split; [vm_compute; reflexivity|]. split; [reflexivity|]. split; [reflexivity|].
  split; [exact R|]. by split.
Qed.

(** *** On the sample run *)

Lemma relay_refines_channel_witness : exists s ch,
  run (start sample_relay) (sample_events ++ [EvReturn 0 (reply_result sample_answer (-1))]) [] [] s /\
  channel_run (sample_events ++ [EvReturn 0 (reply_result sample_answer (-1))]) ch /\ system_simulates s ch.
Proof.
  destruct sample_runs as (s10 & c & s & _ & _ & _ & _ & R & Hi & _).
  destruct (relay_refines_channel _ _ sample_created _ _ _ _ R) as (ch & Hch & Hs); [rewrite Hi; reflexivity|].
  exists s, ch. auto.
Defined.

Lemma relay_answers_own_witness : exists tr1 id opcode tr2,
  sample_events = tr1 ++ EvBegin 0 id opcode :: tr2 /\ (forall other, EvReturn 0 other ∉ tr2).
Proof.
  destruct sample_runs as (s10 & c & s & _ & _ & _ & _ & R & Hi & _).
  destruct (relay_answers_own _ _ sample_created _ _ _ _ _ _ R) as (tr1 & id & op & tr2 & E & Ho & _);
    [rewrite Hi; reflexivity|]. exists tr1, id, op, tr2. auto.
Defined.

Lemma relay_invariant_witness : exists s,
  run (start sample_relay) (take 10 sample_events) [] [] s /\
  match sy_relay s with None => sy_retired s = true | Some relay => 0 < rl_refs relay end.
Proof.
  destruct sample_runs as (s & c & _ & R & _). exists s. split; [exact R|].
  pose proof (relay_invariant _ _ sample_created _ _ _ _ R) as H. destruct (sy_relay s); apply H.
Defined.


(** Thread 0 sleeps while thread 1 reads, and whatever step thread 1 stops
    reading with, thread 0 is awake after it. *)
Lemma relay_sleeper_woken_witness : exists s,
  asleep (default (PEnter false) (cl_phase <$> call_of (sy_callers s !! 0%nat))) = true /\
  holds has_role (sy_callers s) 1%nat = true /\
  (forall ev ins' closed' s', step s ev ins' closed' s' -> holds has_role (sy_callers s') 1%nat = false ->
     exists c', sy_callers s' !! 0%nat = Some (Inside c') /\ asleep (cl_phase c') = false).
Proof.
  destruct sample_runs as (s & c & s' & R & Hc & Ha & _ & _ & _ & H1).
  destruct (relay_sleeper_woken _ _ sample_created _ _ _ _ _ _ R Hc Ha) as (_ & Hgives & _).
  exists s. split; [by rewrite Hc|]. split; [exact H1|].
  intros ev ins' closed' s'' Hs. exact (Hgives _ _ _ _ _ H1 Hs).
Defined.

Lemma relay_descriptors_witness : exists s,
  run (start sample_relay) (take 10 sample_events) [] [] s /\ [7] ≡ₚ relay_fds (sy_relay s).
Proof.
  destruct sample_runs as (s & c & _ & R & _). exists s. split; [exact R|].
  pose proof (relay_descriptors _ _ sample_created _ _ _ _ R) as H. by rewrite app_nil_r in H.
Defined.
