(* ===== verification/Registry.v ===== *)
(** * Registered backends (src/authorityd.c)

    The session daemons that registered, one per user, and the relays to them:
    the one a KWin daemon handed over, and those of the display workers, which
    the authority starts on demand in two lanes, queries and captures.  Requests
    work on a snapshot of a registration and hold a reference to its relay, so a
    registration may end at any moment.  Relays live in a heap, named by their
    address; every function here is one section under the state's mutex, and the
    step relation at the end interleaves them. *)
From Stdlib Require Import ZArith Lia Strings.Byte Strings.String.
From stdpp Require Import base list option numbers tactics gmap fin_maps.
From S2P Require Import Prelude.
From S2P Require Import Protocol.
From S2P Require Import Operations.
From S2P Require Import Lease.
From S2P Require Import Relay.
Local Open Scope Z_scope.
Local Open Scope ksd_scope.

Definition KSD_MAX_BACKEND_REGISTRATIONS : Z := 128.

(** ** Relays in memory *)

Notation heap := (gmap Z ksd_kwin_relay).

Definition relay_acquire (h : heap) (p : Z) : heap :=
  match h !! p with Some r => <[p := ksd_kwin_relay_acquire r]> h | None => h end.
(** The heap after a reference is dropped by [drop], and the descriptors closed. *)
Definition relay_drop (drop : ksd_kwin_relay -> option ksd_kwin_relay * list Z) (h : heap) (p : Z) : heap * list Z :=
  match h !! p with
  | None => (h, [])
  | Some r =>
    match drop r with
    | (Some r, closed) => (<[p := r]> h, closed)
    | (None, closed) => (delete p h, closed)
    end
  end.
Definition relay_release : heap -> Z -> heap * list Z := relay_drop ksd_kwin_relay_release.
Definition relay_retire : heap -> Z -> heap * list Z := relay_drop ksd_kwin_relay_retire.

(** The calls accept NULL, here [None]. *)
Definition acquire_opt (h : heap) (p : option Z) : heap := match p with Some p => relay_acquire h p | None => h end.
Definition release_opt (h : heap) (p : option Z) : heap * list Z :=
  match p with Some p => relay_release h p | None => (h, []) end.
Definition retire_opt (h : heap) (p : option Z) : heap * list Z :=
  match p with Some p => relay_retire h p | None => (h, []) end.

(** ** Registrations *)

Record display_lane := mk_lane { dl_relay : option Z; dl_uid : Z; dl_gid : Z }.

Record registration := mk_registration {
  rg_active : bool;
  rg_uid : Z;
  rg_descriptor : Z;
  rg_backend : Z;
  rg_advertised : Z;
  rg_provider_fd : Z;
  rg_relay : option Z;
  rg_query : display_lane;
  rg_capture : display_lane;
  rg_identity : ksp_identity;
  rg_provider_identity : ksp_identity;
}.

Definition no_identity : ksp_identity := mk_identity 0 0 0 [].
Definition no_lane : display_lane := mk_lane None 0 0.
(** A slot as [memset] leaves it, with its two descriptors. *)
Definition blank (descriptor provider_fd : Z) : registration :=
  mk_registration false 0 descriptor 0 0 provider_fd None no_lane no_lane no_identity no_identity.

Record registry := mk_registry { rs_slots : list registration; rs_heap : heap }.
Definition initial_registry : registry :=
  mk_registry (repeat (blank 0 0) (Z.to_nat KSD_MAX_BACKEND_REGISTRATIONS)) ∅.

(** The registration of a user. *)
Definition of_user (uid : Z) (r : registration) : bool := rg_active r && (rg_uid r =? uid).
Definition slot_of (slots : list registration) (i : nat) : registration := nth i slots (blank 0 0).

Definition registered_operations (state : registry) (uid backend : Z) : Z :=
  match find_index (of_user uid) (rs_slots state) with
  | Some i => ksd_backend_reported_operations backend true (rg_advertised (slot_of (rs_slots state) i))
  | None => ksd_backend_reported_operations backend false 0
  end.

(** [fresh] is where a relay would be allocated, if there is memory for it. *)
Definition register_backend (state : registry) (descriptor uid backend : Z) (identity : ksp_identity)
    (provider_identity : option ksp_identity) (advertised provider_fd : Z) (fresh : option Z) : bool * registry :=
  match find_index (of_user uid) (rs_slots state) with
  | Some _ => (false, state)
  | None =>
    match find_index (fun r => negb (rg_active r)) (rs_slots state) with
    | None => (false, state)
    | Some i =>
      let '(relay, h) :=
        match fresh, ksd_kwin_relay_create provider_fd with
        | Some p, Some r => (Some p, <[p := r]> (rs_heap state))
        | _, _ => (None, rs_heap state)
        end in
      let old := slot_of (rs_slots state) i in
      (true, mk_registry
               (<[i := mk_registration true uid descriptor backend advertised provider_fd relay (rg_query old)
                         (rg_capture old) identity (default (rg_provider_identity old) provider_identity)]>
                  (rs_slots state)) h)
    end
  end.

Definition close_descriptor (fd : Z) : list Z := if 0 <=? fd then [fd] else [].

Definition unregister_backend (state : registry) (uid descriptor : Z) : registry * list Z :=
  match find_index (fun r => of_user uid r && (rg_descriptor r =? descriptor)) (rs_slots state) with
  | None => (state, [])
  | Some i =>
    let r := slot_of (rs_slots state) i in
    let '(h, closed) :=
      match rg_relay r with
      | Some p => relay_retire (rs_heap state) p
      | None => (rs_heap state, close_descriptor (rg_provider_fd r))
      end in
    let '(h, closed0) := retire_opt h (dl_relay (rg_query r)) in
    let '(h, closed1) := retire_opt h (dl_relay (rg_capture r)) in
    (mk_registry (<[i := blank (-1) (-1)]> (rs_slots state)) h, closed ++ closed0 ++ closed1)
  end.

(** ** Snapshots *)

Record backend_snapshot := mk_snapshot {
  sn_uid : Z;
  sn_descriptor : Z;
  sn_backend : Z;
  sn_advertised : Z;
  sn_identity : ksp_identity;
  sn_provider_identity : ksp_identity;
  sn_relay : option Z;
}.

Definition snapshot_of (uid : Z) (r : registration) : backend_snapshot :=
  mk_snapshot uid (rg_descriptor r) (rg_backend r) (rg_advertised r) (rg_identity r) (rg_provider_identity r) (rg_relay r).

Definition take_backend_snapshot (state : registry) (uid : Z) : option (backend_snapshot * registry) :=
  let* i := find_index (of_user uid) (rs_slots state) in
  let r := slot_of (rs_slots state) i in
  Some (snapshot_of uid r, mk_registry (rs_slots state) (acquire_opt (rs_heap state) (rg_relay r))).

(** Whether the registration a snapshot was taken of is still the same. *)
Definition still_registered (snapshot : backend_snapshot) (r : registration) : bool :=
  of_user (sn_uid snapshot) r && (rg_descriptor r =? sn_descriptor snapshot) && (rg_backend r =? sn_backend snapshot)
  && (rg_advertised r =? sn_advertised snapshot) && same_identity (rg_identity r) (sn_identity snapshot)
  && same_identity (rg_provider_identity r) (sn_provider_identity snapshot).
Definition backend_snapshot_current (state : registry) (snapshot : backend_snapshot) : bool :=
  match find_index (still_registered snapshot) (rs_slots state) with Some _ => true | None => false end.

(** An identity that was captured and verified again. *)
Definition verified_as (identity : ksp_identity) (verified : option ksp_identity) : bool :=
  match verified with Some v => same_identity identity v | None => false end.

Definition backend_snapshot_valid (state : registry) (verified : option ksp_identity) (snapshot : backend_snapshot) : bool :=
  (0 <=? sn_descriptor snapshot) && negb (sn_backend snapshot =? KSD_BACKEND_NONE)
  && verified_as (sn_identity snapshot) verified && backend_snapshot_current state snapshot.

Definition backend_snapshot_provider_valid (verified : option ksp_identity) (snapshot : backend_snapshot) : bool :=
  (0 <? id_pid (sn_provider_identity snapshot)) && verified_as (sn_provider_identity snapshot) verified.

Definition release_backend_snapshot (state : registry) (snapshot : backend_snapshot) : registry * list Z :=
  let '(h, closed) := release_opt (rs_heap state) (sn_relay snapshot) in (mk_registry (rs_slots state) h, closed).

(** The validity is checked after the lock is given up, in the state it finds then. *)
Definition registered_backend (state later : registry) (verified : option ksp_identity) (uid : Z) : Z :=
  match take_backend_snapshot state uid with
  | Some (snapshot, _) => if backend_snapshot_valid later verified snapshot then sn_backend snapshot else KSD_BACKEND_NONE
  | None => KSD_BACKEND_NONE
  end.

(** ** Display workers *)

Definition lane_of (capture : bool) (r : registration) : display_lane := if capture then rg_capture r else rg_query r.
Definition with_lanes (r : registration) (query capture : display_lane) : registration :=
  mk_registration (rg_active r) (rg_uid r) (rg_descriptor r) (rg_backend r) (rg_advertised r) (rg_provider_fd r)
    (rg_relay r) query capture (rg_identity r) (rg_provider_identity r).
Definition with_lane (capture : bool) (r : registration) (lane : display_lane) : registration :=
  if capture then with_lanes r (rg_query r) lane else with_lanes r lane (rg_capture r).

(** The first section of [display_relay_for]: a worker, referenced, or none for
    this client, or the slot and the identity a worker is to be started for. *)
Inductive display_found := DisplayNone | DisplayRelay (p : option Z) | DisplayStart (slot : nat) (identity : ksp_identity).

Definition display_matches (uid backend session_pid : Z) (r : registration) : bool :=
  of_user uid r && (rg_backend r =? backend) && (id_pid (rg_identity r) =? session_pid).

Definition display_find (state : registry) (uid gid session_pid backend : Z) (capture : bool) : display_found * registry :=
  match find_index (display_matches uid backend session_pid) (rs_slots state) with
  | None => (DisplayNone, state)
  | Some i =>
    let r := slot_of (rs_slots state) i in
    let lane := lane_of capture r in
    match dl_relay lane with
    | Some p =>
      if (dl_uid lane =? uid) && (dl_gid lane =? gid)
      then (DisplayRelay (Some p), mk_registry (rs_slots state) (relay_acquire (rs_heap state) p))
      else (DisplayRelay None, state)
    | None => (DisplayStart i (rg_identity r), state)
    end
  end.

(** The second section, with the relay [p] of the worker started meanwhile. *)
Definition display_install (state : registry) (slot : nat) (identity : ksp_identity) (uid gid : Z) (capture : bool) (p : Z)
    : option Z * registry * list Z :=
  let r := slot_of (rs_slots state) slot in
  let lane := lane_of capture r in
  if negb (rg_active r) || negb (rg_uid r =? uid) || negb (same_identity (rg_identity r) identity) then
    let '(h, closed) := relay_retire (rs_heap state) p in (None, mk_registry (rs_slots state) h, closed)
  else
    match dl_relay lane with
    | Some winner =>
      let '(h, closed) := relay_retire (relay_acquire (rs_heap state) winner) p in
      (Some winner, mk_registry (rs_slots state) h, closed)
    | None =>
      (Some p, mk_registry (<[slot := with_lane capture r (mk_lane (Some p) uid gid)]> (rs_slots state))
                 (relay_acquire (rs_heap state) p), [])
    end.

(** A worker that stopped answering is taken out of the lanes it is in. *)
Definition lane_is (p : Z) (lane : display_lane) : bool := bool_decide (dl_relay lane = Some p).
Definition forget_lane (p : Z) (lane : display_lane) : display_lane :=
  if lane_is p lane then mk_lane None (dl_uid lane) (dl_gid lane) else lane.
Definition forget_display_relay (state : registry) (uid p : Z) : registry * list Z :=
  match find_index (fun r => of_user uid r && (lane_is p (rg_query r) || lane_is p (rg_capture r))) (rs_slots state) with
  | None => (state, [])
  | Some i =>
    let r := slot_of (rs_slots state) i in
    let '(h, closed) := relay_retire (rs_heap state) p in
    (mk_registry (<[i := with_lanes r (forget_lane p (rg_query r)) (forget_lane p (rg_capture r))]> (rs_slots state)) h,
     closed)
  end.

(** ** References *)

(** The relays a registration refers to. *)
Definition reg_relays (r : registration) : list Z :=
  option_list (rg_relay r) ++ option_list (dl_relay (rg_query r)) ++ option_list (dl_relay (rg_capture r)).
Definition slot_relays (slots : list registration) : list Z := concat (map reg_relays slots).

(** A relay is in the heap with as many references as it has owners. *)
Definition refcounted (h : heap) (owners : list Z) : Prop :=
  forall p, match h !! p with
            | Some r => rl_refs r = Z.of_nat (count_occ Z.eq_dec owners p) /\ 0 < rl_refs r < UINT32_MAX
            | None => count_occ Z.eq_dec owners p = 0%nat
            end.

Lemma refcounted_perm h o o' : o ≡ₚ o' -> refcounted h o -> refcounted h o'.
Proof. intros Hp H p. specialize (H p). by rewrite <- (proj1 (perm_count _ _) Hp p). Qed.

Lemma refcounted_new h o p r :
  refcounted h o -> h !! p = None -> rl_refs r = 1 -> refcounted (<[p := r]> h) (p :: o).
Proof.
  intros H Hn Hr q. destruct (decide (q = p)) as [->|Hne].
  - rewrite lookup_insert_eq, count_occ_cons_eq by done. specialize (H p). rewrite Hn in H. unfold UINT32_MAX. lia.
  - rewrite lookup_insert_ne, count_occ_cons_neq by done. apply H.
Qed.

Lemma refcounted_owned h o p : refcounted h o -> p ∈ o -> is_Some (h !! p).
Proof.
  intros H Hp%list_elem_of_In%(count_occ_In Z.eq_dec). specialize (H p). destruct (h !! p); [eauto|lia].
Qed.

Lemma refcounted_acquire h o p :
  refcounted h o -> p ∈ o -> Z.of_nat (length o) + 1 < UINT32_MAX -> refcounted (relay_acquire h p) (p :: o).
Proof.
  intros H Hp Hl. destruct (refcounted_owned _ _ _ H Hp) as [r Hr]. unfold relay_acquire. rewrite Hr. intros q.
  destruct (decide (q = p)) as [->|Hne].
  - rewrite lookup_insert_eq, count_occ_cons_eq by done. specialize (H p). rewrite Hr in H.
    pose proof (count_occ_bound Z.eq_dec p o). unfold ksd_kwin_relay_acquire. cbn [with_refs rl_refs].
    assert (u32 (rl_refs r + 1) = rl_refs r + 1) as -> by (apply Z.mod_small; unfold UINT32_MAX in *; lia). lia.
  - rewrite lookup_insert_ne, count_occ_cons_neq by done. apply H.
Qed.

(** What dropping a reference does to a relay. *)
Definition drops (d : ksd_kwin_relay -> option ksd_kwin_relay * list Z) : Prop :=
  forall r, match fst (d r) with
            | Some r' => rl_refs r' = u32 (rl_refs r - 1) /\ rl_refs r' <> 0
            | None => u32 (rl_refs r - 1) = 0
            end.

Lemma release_drops : drops ksd_kwin_relay_release.
Proof. intros r. unfold ksd_kwin_relay_release. cbn [with_refs rl_refs]. by destruct (Z.eqb_spec (u32 (rl_refs r - 1)) 0). Qed.
Lemma retire_drops : drops ksd_kwin_relay_retire.
Proof. intros r. apply (release_drops (with_flags r (rl_writing r) (rl_reading r) true)). Qed.

Lemma refcounted_drop d h o p h' closed :
  drops d -> refcounted h (p :: o) -> relay_drop d h p = (h', closed) -> refcounted h' o.
Proof.
  intros Hd H. unfold relay_drop. pose proof (H p) as Hp. rewrite count_occ_cons_eq in Hp by done.
  destruct (h !! p) as [r|] eqn:Hr; [|lia]. specialize (Hd r). destruct (d r) as [[r'|] cl]; cbn in Hd; intros [= <- <-] q.
  - destruct (decide (q = p)) as [->|Hne].
    + rewrite lookup_insert_eq. destruct Hd as [Hd Hd']. rewrite Hd in *.
      assert (Hu : u32 (rl_refs r - 1) = rl_refs r - 1) by (apply Z.mod_small; unfold UINT32_MAX in *; lia). lia.
    + rewrite lookup_insert_ne by done. specialize (H q). by rewrite count_occ_cons_neq in H by done.
  - assert (Hu : u32 (rl_refs r - 1) = rl_refs r - 1) by (apply Z.mod_small; unfold UINT32_MAX in *; lia).
    destruct (decide (q = p)) as [->|Hne].
    + rewrite lookup_delete_eq. lia.
    + rewrite lookup_delete_ne by done. specialize (H q). by rewrite count_occ_cons_neq in H by done.
Qed.

Lemma refcounted_retire_opt h o p h' closed :
  refcounted h (option_list p ++ o) -> retire_opt h p = (h', closed) -> refcounted h' o.
Proof.
  destruct p as [p|]; cbn; [|by intros H [= <- <-]]. apply refcounted_drop, retire_drops.
Qed.

Lemma refcounted_release_opt h o p h' closed :
  refcounted h (option_list p ++ o) -> release_opt h p = (h', closed) -> refcounted h' o.
Proof.
  destruct p as [p|]; cbn; [|by intros H [= <- <-]]. apply refcounted_drop, release_drops.
Qed.

(** ** Threads and the registry *)

(** The registry, the relays of workers not installed yet, and the references
    held by requests. *)
Record threads := mk_threads { th_state : registry; th_started : list Z; th_held : list Z }.
Definition initial_threads : threads := mk_threads initial_registry [] [].

Definition owners (s : threads) : list Z := slot_relays (rs_slots (th_state s)) ++ th_started s ++ th_held s.
(** Fewer references than a count of 32 bits can count: the authority has a bounded
    pool of workers, and each holds a few. *)
Definition few (s : threads) : Prop := Z.of_nat (length (owners s)) + 1 < UINT32_MAX.

(** One section under the registry's mutex.  A relay that a section takes out of
    the table, or that came too late for it, is retired in the same step; the
    source retires it as soon as it has given the mutex up, and no other thread can
    find it in the table by then. *)
Inductive registry_step : threads -> threads -> Prop :=
| StepRegister st started held descriptor uid backend identity provider advertised fd fresh ok st' :
    (forall p, fresh = Some p -> rs_heap st !! p = None) ->
    register_backend st descriptor uid backend identity provider advertised fd fresh = (ok, st') ->
    registry_step (mk_threads st started held) (mk_threads st' started held)
| StepUnregister st started held uid descriptor st' closed :
    unregister_backend st uid descriptor = (st', closed) ->
    registry_step (mk_threads st started held) (mk_threads st' started held)
| StepTake st started held uid snapshot st' :
    few (mk_threads st started held) -> take_backend_snapshot st uid = Some (snapshot, st') ->
    registry_step (mk_threads st started held) (mk_threads st' started (option_list (sn_relay snapshot) ++ held))
| StepRelease st started held p held' h closed :
    held ≡ₚ p :: held' -> relay_release (rs_heap st) p = (h, closed) ->
    registry_step (mk_threads st started held) (mk_threads (mk_registry (rs_slots st) h) started held')
| StepFind st started held uid gid pid backend capture p st' :
    few (mk_threads st started held) -> display_find st uid gid pid backend capture = (DisplayRelay (Some p), st') ->
    registry_step (mk_threads st started held) (mk_threads st' started (p :: held))
| StepSpawn st started held p fd r :
    rs_heap st !! p = None -> ksd_kwin_relay_create fd = Some r ->
    registry_step (mk_threads st started held)
      (mk_threads (mk_registry (rs_slots st) (<[p := r]> (rs_heap st))) (p :: started) held)
| StepInstall st started held started' slot identity uid gid capture p found st' closed :
    few (mk_threads st started held) -> started ≡ₚ p :: started' ->
    display_install st slot identity uid gid capture p = (found, st', closed) ->
    registry_step (mk_threads st started held) (mk_threads st' started' (option_list found ++ held))
| StepForget st started held uid p st' closed :
    p ∈ held -> forget_display_relay st uid p = (st', closed) ->
    registry_step (mk_threads st started held) (mk_threads st' started held).

Inductive registry_reachable : threads -> Prop :=
| ReachStart : registry_reachable initial_threads
| ReachStep s s' : registry_reachable s -> registry_step s s' -> registry_reachable s'.

Definition one_per_user (slots : list registration) : Prop :=
  forall i j r r', slots !! i = Some r -> slots !! j = Some r' -> rg_active r = true -> rg_active r' = true ->
    rg_uid r = rg_uid r' -> i = j.

Record registry_inv (s : threads) : Prop := mk_registry_inv {
  ri_counted : refcounted (rs_heap (th_state s)) (owners s);
  ri_distinct : NoDup (slot_relays (rs_slots (th_state s)) ++ th_started s);
  ri_users : one_per_user (rs_slots (th_state s));
  ri_blank : forall i r, rs_slots (th_state s) !! i = Some r -> rg_active r = false -> reg_relays r = [];
}.

(** *** Updates of one slot *)

Lemma slot_of_lookup slots i r : slots !! i = Some r -> slot_of slots i = r.
Proof. intros H. unfold slot_of. rewrite nth_lookup. by rewrite H. Qed.

Lemma one_per_user_insert slots i r r' :
  one_per_user slots -> slots !! i = Some r ->
  (rg_active r' = true -> forall j x, slots !! j = Some x -> rg_active x = true -> rg_uid x = rg_uid r' -> j = i) ->
  one_per_user (<[i := r']> slots).
Proof.
  intros H Hi Hn j k x y Hj Hk Hx Hy Hu. assert (Hlt : (i < length slots)%nat) by by eapply lookup_lt_Some.
  destruct (decide (j = i)) as [->|], (decide (k = i)) as [->|]; [done| | |].
  - rewrite list_lookup_insert_eq in Hj by done. rewrite list_lookup_insert_ne in Hk by done. injection Hj as <-.
    symmetry. by eapply Hn.
  - rewrite list_lookup_insert_eq in Hk by done. rewrite list_lookup_insert_ne in Hj by done. injection Hk as <-.
    by eapply Hn.
  - rewrite list_lookup_insert_ne in Hj, Hk by done. by eapply H.
Qed.

(** A registration that stays the same but for its lanes. *)
Lemma one_per_user_lanes slots i r r' :
  one_per_user slots -> slots !! i = Some r -> rg_active r' = rg_active r -> rg_uid r' = rg_uid r ->
  one_per_user (<[i := r']> slots).
Proof.
  intros H Hi Ha Hu. eapply one_per_user_insert; [done|done|]. intros Hact j x Hj Hx Hux.
  eapply H; [done|done|done|congruence..].
Qed.

Lemma blank_insert (slots : list registration) i r r' :
  (forall j x, slots !! j = Some x -> rg_active x = false -> reg_relays x = []) -> slots !! i = Some r ->
  (rg_active r' = false -> reg_relays r' = []) ->
  forall j x, <[i := r']> slots !! j = Some x -> rg_active x = false -> reg_relays x = [].
Proof.
  intros H Hi Hr j x Hj. destruct (decide (j = i)) as [->|].
  - rewrite list_lookup_insert_eq in Hj by by eapply lookup_lt_Some. by injection Hj as <-.
  - rewrite list_lookup_insert_ne in Hj by done. by eapply H.
Qed.

Lemma slot_relays_in slots i r p : slots !! i = Some r -> p ∈ reg_relays r -> p ∈ slot_relays slots.
Proof.
  intros Hi Hp. unfold slot_relays. apply list_elem_of_In, in_concat. exists (reg_relays r).
  split; [|by apply list_elem_of_In]. apply in_map. by eapply list_elem_of_In, list_elem_of_lookup_2.
Qed.

Lemma lane_in capture r p : dl_relay (lane_of capture r) = Some p -> p ∈ reg_relays r.
Proof. intros H. unfold reg_relays. destruct capture; cbn in H; rewrite H; cbn; set_solver. Qed.

Lemma not_owned h o p : refcounted h o -> h !! p = None -> p ∉ o.
Proof. intros H Hn Hp. destruct (refcounted_owned _ _ _ H Hp). congruence. Qed.

(** Owners that stay, in another order, after one slot changed. *)
Lemma owners_slot slots i r r' (rest : list Z) :
  slots !! i = Some r ->
  (slot_relays (<[i := r']> slots) ++ rest) ++ reg_relays r ≡ₚ (slot_relays slots ++ rest) ++ reg_relays r'.
Proof. intros Hi. pose proof (concat_map_insert reg_relays _ _ _ r' Hi) as H. unfold slot_relays. count_handles. Qed.

Lemma nodup_perm (l k : list Z) : l ≡ₚ k -> NoDup l -> NoDup k.
Proof. by intros ->. Qed.

(** ** Each step keeps the invariant *)

Lemma register_inv st started held descriptor uid backend identity provider advertised fd fresh ok st' :
  registry_inv (mk_threads st started held) -> (forall p, fresh = Some p -> rs_heap st !! p = None) ->
  register_backend st descriptor uid backend identity provider advertised fd fresh = (ok, st') ->
  registry_inv (mk_threads st' started held).
Proof.
  intros [H1 H2 H3 H4] Hf. unfold register_backend.
  destruct (find_index (of_user uid) (rs_slots st)) eqn:Eu; [by intros [= _ <-]|].
  destruct (find_index (fun r => negb (rg_active r)) (rs_slots st)) as [i|] eqn:Ei; [|by intros [= _ <-]].
  destruct (find_index_some _ _ _ Ei) as (old & Hi & Ha%negb_true_iff). rewrite (slot_of_lookup _ _ _ Hi).
  pose proof (H4 _ _ Hi Ha) as Hb. cbn [th_state th_started th_held owners] in *.
  assert (Hlanes : dl_relay (rg_query old) = None /\ dl_relay (rg_capture old) = None).
  { unfold reg_relays in Hb. by destruct (rg_relay old), (dl_relay (rg_query old)), (dl_relay (rg_capture old)). }
  set (r' relay := mk_registration true uid descriptor backend advertised fd relay (rg_query old) (rg_capture old)
                     identity (default (rg_provider_identity old) provider)).
  assert (Hr' : forall relay, reg_relays (r' relay) = option_list relay).
  { intros relay. unfold reg_relays, r'. cbn. destruct Hlanes as [-> ->]. by rewrite app_nil_r. }
  assert (Hu : forall relay, one_per_user (<[i := r' relay]> (rs_slots st))).
  { intros relay. eapply one_per_user_insert; [done|done|]. intros _ j x Hj Hx Hxu.
    pose proof (find_index_none _ _ _ _ Eu Hj) as Hno. unfold of_user in Hno. rewrite Hx, Hxu in Hno. cbn in Hno.
    by rewrite Z.eqb_refl in Hno. }
  assert (Hn : forall relay j x, <[i := r' relay]> (rs_slots st) !! j = Some x -> rg_active x = false -> reg_relays x = []).
  { intros relay. eapply blank_insert; [done|done|done]. }
  assert (Hsame : forall relay rest, slot_relays (<[i := r' relay]> (rs_slots st)) ++ rest ≡ₚ
    option_list relay ++ slot_relays (rs_slots st) ++ rest).
  { intros relay rest. pose proof (owners_slot _ _ _ (r' relay) rest Hi) as Hp. rewrite Hb, Hr' in Hp. count_handles. }
  destruct fresh as [p|]; [destruct (ksd_kwin_relay_create fd) as [r|] eqn:Ec|]; intros [= _ <-]; constructor;
    cbn [th_state th_started th_held owners rs_slots rs_heap]; try apply Hu; try apply Hn.
  - eapply refcounted_perm; [symmetry; apply (Hsame (Some p))|]. apply refcounted_new; [done|by apply Hf|].
    unfold ksd_kwin_relay_create in Ec. destruct (negb _); [|done]. by injection Ec as <-.
  - eapply nodup_perm; [symmetry; apply (Hsame (Some p))|]. cbn. apply NoDup_cons. split; [|done].
    pose proof (not_owned _ _ _ H1 (Hf _ eq_refl)) as Hno. unfold owners in Hno. cbn in Hno. set_solver.
  - eapply refcounted_perm; [symmetry; apply (Hsame None)|done].
  - eapply nodup_perm; [symmetry; apply (Hsame None)|done].
  - eapply refcounted_perm; [symmetry; apply (Hsame None)|done].
  - eapply nodup_perm; [symmetry; apply (Hsame None)|done].
Qed.

Lemma unregister_inv st started held uid descriptor st' closed :
  registry_inv (mk_threads st started held) -> unregister_backend st uid descriptor = (st', closed) ->
  registry_inv (mk_threads st' started held).
Proof.
  intros [H1 H2 H3 H4]. unfold unregister_backend. destruct (find_index _ (rs_slots st)) as [i|] eqn:Ei; [|by intros [= <- _]].
  destruct (find_index_some _ _ _ Ei) as (r & Hi & _). rewrite (slot_of_lookup _ _ _ Hi).
  cbn [th_state th_started th_held owners] in *.
  destruct (match rg_relay r with Some p => relay_retire (rs_heap st) p | None => _ end) as [h closed0] eqn:E0.
  destruct (retire_opt h _) as [h1 closed1] eqn:E1. destruct (retire_opt h1 _) as [h2 closed2] eqn:E2. intros [= <- _].
  pose proof (owners_slot _ _ _ (blank (-1) (-1)) (started ++ held) Hi) as Hp.
  change (reg_relays (blank (-1) (-1))) with (@nil Z) in Hp.
  pose proof (owners_slot _ _ _ (blank (-1) (-1)) started Hi) as Hp'.
  change (reg_relays (blank (-1) (-1))) with (@nil Z) in Hp'. rewrite app_nil_r in Hp'.
  constructor; cbn [th_state th_started th_held owners rs_slots rs_heap].
  - eapply refcounted_retire_opt; [|exact E2]. eapply refcounted_retire_opt; [|exact E1].
    assert (E0' : exists cl, retire_opt (rs_heap st) (rg_relay r) = (h, cl)).
    { destruct (rg_relay r); cbn; [by exists closed0|]. injection E0 as <- _. by eexists. }
    destruct E0' as [cl E0']. eapply refcounted_retire_opt; [|exact E0'].
    eapply refcounted_perm; [|exact H1]. unfold reg_relays in Hp. unfold owners. cbn [th_state th_started th_held rs_slots]. clear - Hp. count_handles.
  - pose proof (nodup_perm _ _ (Permutation_sym Hp') H2) as Hnd. by apply NoDup_app in Hnd as [Hnd _].
  - eapply one_per_user_insert; [done|done|done].
  - eapply blank_insert; [done|done|done].
Qed.

(** A step that changes only the heap and the references held. *)
Lemma counted_inv slots h started held h' started' held' :
  registry_inv (mk_threads (mk_registry slots h) started held) ->
  (forall o, o ≡ₚ slot_relays slots ++ started ++ held -> refcounted h o ->
     exists o', o' ≡ₚ slot_relays slots ++ started' ++ held' /\ refcounted h' o') ->
  (NoDup (slot_relays slots ++ started) -> NoDup (slot_relays slots ++ started')) ->
  registry_inv (mk_threads (mk_registry slots h') started' held').
Proof.
  intros [H1 H2 H3 H4] Hc Hd. constructor; cbn [th_state th_started th_held owners rs_slots rs_heap] in *; auto.
  destruct (Hc _ (Permutation_refl _) H1) as (o' & Ho & Hr). by eapply refcounted_perm.
Qed.

Lemma few_length s o : few s -> o ≡ₚ owners s -> Z.of_nat (length o) + 1 < UINT32_MAX.
Proof. intros H Hp. by rewrite (Permutation_length Hp). Qed.

Lemma acquire_inv slots h started held p :
  registry_inv (mk_threads (mk_registry slots h) started held) -> few (mk_threads (mk_registry slots h) started held) ->
  p ∈ slot_relays slots -> registry_inv (mk_threads (mk_registry slots (relay_acquire h p)) started (p :: held)).
Proof.
  intros Hi Hf Hp. eapply counted_inv; [done| |done]. intros o Ho Hr. exists (p :: o). split; [clear - Ho; count_handles|].
  apply refcounted_acquire; [done| |by eapply few_length]. rewrite Ho. set_solver.
Qed.

Lemma take_inv st started held uid snapshot st' :
  registry_inv (mk_threads st started held) -> few (mk_threads st started held) ->
  take_backend_snapshot st uid = Some (snapshot, st') ->
  registry_inv (mk_threads st' started (option_list (sn_relay snapshot) ++ held)).
Proof.
  intros Hi Hf. unfold take_backend_snapshot. destruct (find_index _ _) as [i|] eqn:Ei; [|done]. intros [= <- <-].
  destruct (find_index_some _ _ _ Ei) as (r & Hr & _). rewrite (slot_of_lookup _ _ _ Hr). cbn [snapshot_of sn_relay].
  destruct st as [slots h]. cbn [rs_slots rs_heap] in *. destruct (rg_relay r) as [p|] eqn:Ep; cbn; [|done].
  apply acquire_inv; [done|done|]. eapply slot_relays_in; [done|]. unfold reg_relays. rewrite Ep. cbn. set_solver.
Qed.

Lemma release_inv st started held held' p h closed :
  registry_inv (mk_threads st started held) -> held ≡ₚ p :: held' -> relay_release (rs_heap st) p = (h, closed) ->
  registry_inv (mk_threads (mk_registry (rs_slots st) h) started held').
Proof.
  intros Hi Hp Hr. destruct st as [slots h0]. cbn [rs_slots rs_heap] in *. eapply counted_inv; [done| |done]. intros o Ho Hc.
  exists (slot_relays slots ++ started ++ held'). split; [done|].
  eapply refcounted_drop; [apply release_drops| |exact Hr]. eapply refcounted_perm; [|exact Hc].
  clear - Ho Hp. count_handles.
Qed.

Lemma find_inv st started held uid gid pid backend capture p st' :
  registry_inv (mk_threads st started held) -> few (mk_threads st started held) ->
  display_find st uid gid pid backend capture = (DisplayRelay (Some p), st') ->
  registry_inv (mk_threads st' started (p :: held)).
Proof.
  intros Hi Hf. unfold display_find. destruct (find_index _ _) as [i|] eqn:Ei; [|done].
  destruct (find_index_some _ _ _ Ei) as (r & Hr & _). rewrite (slot_of_lookup _ _ _ Hr).
  destruct (dl_relay (lane_of capture r)) as [q|] eqn:Eq; [|done]. destruct (_ && _); intros [= <- <-].
  destruct st as [slots h]. apply acquire_inv; [done|done|]. eapply slot_relays_in; [done|by eapply lane_in].
Qed.

Lemma spawn_inv st started held p fd r :
  registry_inv (mk_threads st started held) -> rs_heap st !! p = None -> ksd_kwin_relay_create fd = Some r ->
  registry_inv (mk_threads (mk_registry (rs_slots st) (<[p := r]> (rs_heap st))) (p :: started) held).
Proof.
  intros Hi Hn Hc. pose proof (not_owned _ _ _ (ri_counted _ Hi) Hn) as Hno. destruct st as [slots h]. cbn [rs_slots rs_heap] in *.
  assert (Hr1 : rl_refs r = 1) by (unfold ksd_kwin_relay_create in Hc; destruct (negb _); [|done]; by injection Hc as <-).
  eapply counted_inv; [done| |].
  - intros o Ho Hr. exists (p :: o). split; [clear - Ho; count_handles|]. by apply refcounted_new.
  - intros Hd. eapply nodup_perm; [apply Permutation_middle|]. apply NoDup_cons. split; [|done].
    unfold owners in Hno. cbn in Hno. set_solver.
Qed.

Lemma slot_of_active slots i : rg_active (slot_of slots i) = true -> slots !! i = Some (slot_of slots i).
Proof.
  unfold slot_of. rewrite nth_lookup. destruct (slots !! i); [done|]. cbn. done.
Qed.

Lemma install_relays capture r p uid gid :
  dl_relay (lane_of capture r) = None -> reg_relays (with_lane capture r (mk_lane (Some p) uid gid)) ≡ₚ p :: reg_relays r.
Proof.
  unfold reg_relays. destruct capture; cbn; intros ->; cbn; [|by rewrite Permutation_middle].
  rewrite <- !Permutation_middle. done.
Qed.

Lemma with_lane_same capture r lane : rg_active (with_lane capture r lane) = rg_active r /\ rg_uid (with_lane capture r lane) = rg_uid r.
Proof. by destruct capture. Qed.

Lemma install_inv st started held started' slot identity uid gid capture p found st' closed :
  registry_inv (mk_threads st started held) -> few (mk_threads st started held) -> started ≡ₚ p :: started' ->
  display_install st slot identity uid gid capture p = (found, st', closed) ->
  registry_inv (mk_threads st' started' (option_list found ++ held)).
Proof.
  intros Hi Hf Hp. unfold display_install. destruct st as [slots h]. cbn [rs_slots rs_heap].
  assert (Hd : NoDup (slot_relays slots ++ started) -> NoDup (slot_relays slots ++ started')).
  { rewrite Hp, <- Permutation_middle. by intros [_ ?]%NoDup_cons. }
  destruct (_ || negb (same_identity _ _)) eqn:Eg.
  { destruct (relay_retire h p) as [h' cl] eqn:Er. intros [= <- <- _]. eapply counted_inv; [done| |done].
    intros o Ho Hr. exists (slot_relays slots ++ started' ++ held). split; [done|].
    eapply refcounted_drop; [apply retire_drops| |exact Er]. eapply refcounted_perm; [|exact Hr].
    clear - Ho Hp. count_handles. }
  breflect. pose proof (slot_of_active _ _ H) as Hs. set (r := slot_of slots slot) in *.
  destruct (dl_relay (lane_of capture r)) as [winner|] eqn:El.
  - destruct (relay_retire _ p) as [h' cl] eqn:Er. intros [= <- <- _].
    assert (Hw : winner ∈ slot_relays slots) by (eapply slot_relays_in; [done|by eapply lane_in]).
    eapply counted_inv; [done| |done]. intros o Ho Hr. exists (slot_relays slots ++ started' ++ winner :: held).
    split; [done|]. eapply refcounted_drop; [apply retire_drops| |exact Er].
    assert (Ha : refcounted (relay_acquire h winner) (winner :: o)).
    { apply refcounted_acquire; [done|rewrite Ho; set_solver|by eapply few_length]. }
    eapply refcounted_perm; [|exact Ha]. clear - Ho Hp. count_handles.
  - intros [= <- <- _]. pose proof (install_relays _ _ p uid gid El) as Hir.
    destruct (with_lane_same capture r (mk_lane (Some p) uid gid)) as [Hact Huid].
    pose proof (owners_slot _ _ _ (with_lane capture r (mk_lane (Some p) uid gid)) started' Hs) as Hos.
    destruct Hi as [I1 I2 I3 I4]. unfold owners in I1. cbn [th_state th_started th_held rs_slots rs_heap] in *.
    constructor; unfold owners; cbn [th_state th_started th_held rs_slots rs_heap].
    + assert (Ha : refcounted (relay_acquire h p) (p :: slot_relays slots ++ started ++ held)).
      { apply refcounted_acquire; [done|rewrite Hp; set_solver|by eapply few_length]. }
      eapply refcounted_perm; [|exact Ha]. change (option_list (Some p)) with [p]. clear - Hp Hir Hos. count_handles.
    + eapply nodup_perm; [|exact I2]. clear - Hp Hir Hos. count_handles.
    + eapply one_per_user_lanes; done.
    + eapply blank_insert; [done|done|]. rewrite Hact. congruence.
Qed.

Lemma slot_nodup slots started i r : slots !! i = Some r -> NoDup (slot_relays slots ++ started) -> NoDup (reg_relays r).
Proof.
  intros Hi Hd. apply NoDup_app in Hd as [Hd _]. pose proof (owners_slot _ _ _ (blank 0 0) [] Hi) as Hp.
  change (reg_relays (blank 0 0)) with (@nil Z) in Hp. rewrite !app_nil_r in Hp.
  pose proof (nodup_perm _ _ (Permutation_sym Hp) Hd) as Hn. by apply NoDup_app in Hn as (_ & _ & Hn).
Qed.

Lemma forget_relays r p :
  NoDup (reg_relays r) -> lane_is p (rg_query r) || lane_is p (rg_capture r) = true ->
  reg_relays r ≡ₚ p :: reg_relays (with_lanes r (forget_lane p (rg_query r)) (forget_lane p (rg_capture r))).
Proof.
  unfold reg_relays, forget_lane, lane_is. cbn. intros Hd Hp.
  destruct (decide (dl_relay (rg_query r) = Some p)) as [Eq|Eq], (decide (dl_relay (rg_capture r) = Some p)) as [Ec|Ec].
  - exfalso. rewrite Eq, Ec in Hd. cbn in Hd. apply NoDup_app in Hd as (_ & _ & Hd). apply NoDup_cons in Hd as [Hd _]. set_solver.
  - rewrite bool_decide_true, bool_decide_false by done. cbn. rewrite Eq. cbn. by rewrite Permutation_middle.
  - rewrite bool_decide_false, bool_decide_true by done. cbn. rewrite Ec. cbn. rewrite app_nil_r.
    rewrite <- !Permutation_middle. by rewrite app_nil_r.
  - by rewrite !bool_decide_false in Hp.
Qed.

Lemma forget_inv st started held uid p st' closed :
  registry_inv (mk_threads st started held) -> forget_display_relay st uid p = (st', closed) ->
  registry_inv (mk_threads st' started held).
Proof.
  intros [I1 I2 I3 I4]. unfold forget_display_relay. destruct (find_index _ _) as [i|] eqn:Ei; [|by intros [= <- _]].
  destruct (find_index_some _ _ _ Ei) as (r & Hi & Hl). rewrite (slot_of_lookup _ _ _ Hi). apply andb_true_iff in Hl as [Hu Hl].
  destruct (relay_retire _ p) as [h cl] eqn:Er. intros [= <- _].
  unfold owners in *; cbn [th_state th_started th_held] in *.
  pose proof (forget_relays _ _ (slot_nodup _ _ _ _ Hi I2) Hl) as Hf.
  set (r' := with_lanes r (forget_lane p (rg_query r)) (forget_lane p (rg_capture r))) in *.
  pose proof (owners_slot _ _ _ r' (started ++ held) Hi) as H1. pose proof (owners_slot _ _ _ r' started Hi) as H2.
  constructor; unfold owners; cbn [th_state th_started th_held rs_slots rs_heap].
  - eapply refcounted_drop; [apply retire_drops| |exact Er]. eapply refcounted_perm; [|exact I1].
    clear - Hf H1. count_handles.
  - assert (Hn : NoDup (p :: slot_relays (<[i := r']> (rs_slots st)) ++ started)).
    { eapply nodup_perm; [|exact I2]. clear - Hf H2. count_handles. }
    by apply NoDup_cons in Hn as [_ Hn].
  - eapply one_per_user_lanes; done.
  - eapply blank_insert; [done|done|]. unfold of_user in Hu. apply andb_true_iff in Hu as [Hu _]. cbn. congruence.
Qed.

Lemma registry_step_inv s s' : registry_inv s -> registry_step s s' -> registry_inv s'.
Proof.
  intros Hi Hs. destruct Hs.
  - by eapply register_inv.
  - by eapply unregister_inv.
  - by eapply take_inv.
  - by eapply release_inv.
  - by eapply find_inv.
  - by eapply spawn_inv.
  - by eapply install_inv.
  - by eapply forget_inv.
Qed.

Lemma initial_registry_inv : registry_inv initial_threads.
Proof.
  assert (Hb : forall i r, rs_slots initial_registry !! i = Some r -> r = blank 0 0).
  { intros i r Hr%list_elem_of_lookup_2%list_elem_of_In. by apply repeat_spec in Hr. }
  assert (Hn : slot_relays (rs_slots initial_registry) = []) by reflexivity.
  unfold initial_threads. constructor; unfold owners; cbn [th_state th_started th_held]; rewrite ?Hn.
  - intros p. cbn. by rewrite lookup_empty.
  - constructor.
  - intros i j r r' Hi _ Ha. rewrite (Hb _ _ Hi) in Ha. done.
  - intros i r Hr _. by rewrite (Hb _ _ Hr).
Qed.

Lemma registry_reachable_inv s : registry_reachable s -> registry_inv s.
Proof. induction 1; [apply initial_registry_inv|by eapply registry_step_inv]. Qed.

(** ** What the registry promises *)

(** C31: Relays outlive their use and no longer.  However registrations, display
    workers and requests come and go, a relay has as many references as there
    are registrations, lanes, threads and requests that hold it; whatever one of
    these holds is in memory, nothing else is, and no user has two
    registrations.  While the references in all stay below 2^32. *)
Theorem registry_references s :
  registry_reachable s ->
  (forall p r, rs_heap (th_state s) !! p = Some r -> rl_refs r = Z.of_nat (count_occ Z.eq_dec (owners s) p)) /\
  (forall p, is_Some (rs_heap (th_state s) !! p) <-> p ∈ owners s) /\
  one_per_user (rs_slots (th_state s)).
Proof.
  intros Hr%registry_reachable_inv. destruct Hr as [H1 _ H3 _]. split; [|split; [|done]].
  - intros p r Hp. specialize (H1 p). rewrite Hp in H1. by destruct H1.
  - intros p. split; [|by eapply refcounted_owned]. intros [r Hp]. specialize (H1 p). rewrite Hp in H1.
    apply list_elem_of_In, (count_occ_In Z.eq_dec). lia.
Qed.

(** A snapshot is current while its registration lasts.  A snapshot that was
    taken earlier is current in a later state exactly when the user has a
    registration there, which is then the only one, with the descriptor, backend,
    operations and identities of the one it was taken of. *)
Theorem snapshot_current_exact st uid snapshot st' s :
  take_backend_snapshot st uid = Some (snapshot, st') -> registry_reachable s ->
  exists i r, rs_slots st !! i = Some r /\ of_user uid r = true /\
    (backend_snapshot_current (th_state s) snapshot = true <->
     exists j r', rs_slots (th_state s) !! j = Some r' /\ of_user uid r' = true /\
       (forall k x, rs_slots (th_state s) !! k = Some x -> of_user uid x = true -> k = j) /\
       rg_descriptor r' = rg_descriptor r /\ rg_backend r' = rg_backend r /\ rg_advertised r' = rg_advertised r /\
       same_identity (rg_identity r') (rg_identity r) = true /\
       same_identity (rg_provider_identity r') (rg_provider_identity r) = true).
Proof.
  unfold take_backend_snapshot. destruct (find_index _ _) as [i|] eqn:Ei; [|done]. intros [= <- <-] Hs.
  destruct (find_index_some _ _ _ Ei) as (r & Hi & Hu). rewrite (slot_of_lookup _ _ _ Hi). exists i, r.
  split; [done|]. split; [done|]. pose proof (ri_users _ (registry_reachable_inv _ Hs)) as H1.
  unfold backend_snapshot_current. split.
  - destruct (find_index _ (rs_slots (th_state s))) as [j|] eqn:Ej; [|done]. intros _.
    destruct (find_index_some _ _ _ Ej) as (r' & Hj & Hr'). unfold still_registered in Hr'. cbn [snapshot_of sn_uid
      sn_descriptor sn_backend sn_advertised sn_identity sn_provider_identity] in Hr'. breflect.
    exists j, r'. repeat split; try done. intros k x Hk Hx. unfold of_user in *. breflect. eapply H1; try done. congruence.
  - intros (j & r' & Hj & Hr' & _ & E1 & E2 & E3 & E4 & E5).
    destruct (find_index (still_registered _) _) as [k|] eqn:Ek; [done|]. pose proof (find_index_none _ _ _ _ Ek Hj) as Hno.
    unfold still_registered in Hno. cbn [snapshot_of sn_uid sn_descriptor sn_backend sn_advertised sn_identity
      sn_provider_identity] in Hno. by rewrite Hr', E1, E2, E3, E4, E5, !Z.eqb_refl in Hno.
Qed.

(** *** A run of the registry *)

Definition sample_client : ksp_identity := mk_identity 1000 77 5 [x01].
Definition sample_daemon : ksp_identity := mk_identity 1000 66 4 [x02].
Definition sample_registered : registry :=
  snd (register_backend initial_registry 20 1000 KSD_BACKEND_GENERIC sample_daemon None 1 (-1) None).
Definition with_relay (st : registry) (p fd : Z) : registry :=
  mk_registry (rs_slots st)
    (<[p := default (mk_relay 0 false false false 1 1 []) (ksd_kwin_relay_create fd)]> (rs_heap st)).
(** Two clients of one user, in different groups, each started a worker; the first installed his. *)
Definition sample_spawned : registry := with_relay (with_relay sample_registered 1 30) 2 31.
Definition sample_installed : registry := snd (fst (display_install sample_spawned 0 sample_daemon 1000 100 false 1)).

Lemma sample_registry_run : registry_reachable (mk_threads sample_installed [2] [1]).
Proof.
  eapply ReachStep; [|eapply (StepInstall sample_spawned [2; 1] [] [2] 0 sample_daemon 1000 100 false 1 (Some 1) sample_installed []);
    [vm_compute; reflexivity|by rewrite Permutation_swap|vm_compute; reflexivity]].
  eapply ReachStep; [|eapply (StepSpawn (with_relay sample_registered 1 30) [1] [] 2 31); vm_compute; reflexivity].
  eapply ReachStep; [|eapply (StepSpawn sample_registered [] [] 1 30); vm_compute; reflexivity].
  eapply ReachStep; [apply ReachStart|].
  eapply (StepRegister initial_registry [] [] 20 1000 KSD_BACKEND_GENERIC sample_daemon None 1 (-1) None); [done|].
  vm_compute. reflexivity.
Qed.

(** Workers and credentials.  A worker that is found running is given only to
    a client of its user and group; but of two clients of one user who start a
    worker at the same time, in different groups, the second is given the first
    one's, which would have been refused to him a moment later. *)
Theorem display_worker_credentials :
  (forall st uid gid pid backend capture p st',
     display_find st uid gid pid backend capture = (DisplayRelay (Some p), st') ->
     exists i r, rs_slots st !! i = Some r /\ dl_relay (lane_of capture r) = Some p /\
       dl_uid (lane_of capture r) = uid /\ dl_gid (lane_of capture r) = gid) /\
  exists s slot identity uid gid pid backend st' closed p,
    registry_reachable s /\ p ∈ th_started s /\
    display_install (th_state s) slot identity uid gid false p = (Some 1, st', closed) /\
    dl_gid (rg_query (slot_of (rs_slots st') slot)) <> gid /\
    display_find st' uid gid pid backend false = (DisplayRelay None, st').
Proof.
  split.
  - intros st uid gid pid backend capture p st'. unfold display_find. destruct (find_index _ _) as [i|] eqn:Ei; [|done].
    destruct (find_index_some _ _ _ Ei) as (r & Hi & _). rewrite (slot_of_lookup _ _ _ Hi).
    destruct (dl_relay (lane_of capture r)) as [q|] eqn:Eq; [|done].
    destruct (_ && _) eqn:Ec; [|done]. intros [= <- _]. breflect. eauto 10.
  - exists (mk_threads sample_installed [2] [1]), 0%nat, sample_daemon, 1000, 200, 66, KSD_BACKEND_GENERIC.
    do 2 eexists. exists 2. split; [apply sample_registry_run|]. split; [by left|]. split; [vm_compute; reflexivity|].
    split; [vm_compute; discriminate|vm_compute; reflexivity].
Qed.

Lemma registry_references_witness :
  registry_reachable (mk_threads sample_installed [2] [1]) /\ is_Some (rs_heap sample_installed !! 1).
Proof.
  split; [apply sample_registry_run|].
  destruct (registry_references _ sample_registry_run) as (_ & H & _). apply H. vm_compute. left.
Defined.

Lemma snapshot_current_exact_witness : exists snapshot st',
  take_backend_snapshot sample_registered 1000 = Some (snapshot, st') /\
  backend_snapshot_current sample_installed snapshot = true.
Proof.
  do 2 eexists. split; [reflexivity|].
  destruct (snapshot_current_exact sample_registered 1000 _ _ _ ltac:(reflexivity) sample_registry_run)
    as (i & r & _ & _ & _). vm_compute. reflexivity.
Defined.
