(* ===== verification/Observe.v ===== *)
(** * Acknowledging window operations (src/authorityd.c)

    An operation on a window succeeds for its client when the state the lease
    keeps shows its effect, and the response then carries the number of the event
    the client has to have read to see it too.  Here are the test on the window
    state, the wait for it, and the one of the X11 backend on a window outside
    the managed ones.  A wait lets other threads change the lease: each turn of
    it has the lease as it is found afterwards. *)
From Stdlib Require Import ZArith Lia Strings.Byte Strings.String.
From stdpp Require Import base list option numbers tactics gmap.
From S2P Require Import Prelude.
From S2P Require Import Protocol.
From S2P Require Import Codec.
From S2P Require Import Buffer.
From S2P Require Import Frame.
From S2P Require Import Operations.
From S2P Require Import StateWire.
From S2P Require Import Lease.
From S2P Require Import WindowState.
Local Open Scope Z_scope.
Local Open Scope ksd_scope.

(** ** The effect of an operation *)

Definition request_payload (request : ksd_frame) : list byte := default [] (fr_payload request).
Definition request_handle (request : ksd_frame) : Z := ksd_decode_u64 (request_payload request).
(** The word of the payload at an offset. *)
Definition request_word (request : ksd_frame) (offset : Z) : Z := ksd_decode_u32 (zdrop offset (request_payload request)).

Definition has_field (w : ksd_window_record) (field : Z) : bool := negb (Z.land (win_valid_fields w) field =? 0).
Definition window_is (w : ksd_window_record) (flag : Z) : bool := negb (Z.land (win_flags w) flag =? 0).

(** The stacking order a window raised or lowered has to reach. *)
Definition stacking_edge (opcode : Z) (windows : list ksd_window_record) (order : Z) : Z :=
  fold_left (fun edge other =>
      let edge := if (opcode =? KSD_OP_WINDOW_RAISE) && (edge <? win_stacking_order other) then win_stacking_order other else edge in
      if (opcode =? KSD_OP_WINDOW_LOWER) && (win_stacking_order other <? edge) then win_stacking_order other else edge)
    windows order.

(** A component of the geometry: left alone, reached, or moved from before. *)
Definition component_observed (untouched : bool) (now wanted : Z) (before : option Z) : bool :=
  untouched || (now =? wanted) || match before with Some b => negb (now =? b) | None => false end.

Definition geometry_observed (request : ksd_frame) (window : ksd_window_record) (before : option ksd_window_record) : bool :=
  let x := i32 (request_word request 8) in
  let y := i32 (request_word request 12) in
  let width := request_word request 16 in
  let height := request_word request 20 in
  let prior := match before with
               | Some b => if has_field b KSD_FIELD_FRAME then Some (win_frame b) else None
               | None => None
               end in
  component_observed (x =? INT32_MIN) (rect_x (win_frame window)) x (option_map rect_x prior)
  && component_observed (y =? INT32_MIN) (rect_y (win_frame window)) y (option_map rect_y prior)
  && component_observed (width =? 0) (rect_width (win_frame window)) width (option_map rect_width prior)
  && component_observed (height =? 0) (rect_height (win_frame window)) height (option_map rect_height prior).

Definition title_observed (request : ksd_frame) (window : ksd_window_record) : bool :=
  let length := request_word request 8 in
  (length =? zlen (string_bytes (win_title window))) && (length =? fr_payload_length request - 12)
  && ((length =? 0) || bytes_eqb (string_bytes (win_title window)) (ztake length (zdrop 12 (request_payload request)))).

Definition state_observed (state : Z) (window : ksd_window_record) : bool :=
  let fields := if (state =? KSD_WINDOW_STATE_MINIMIZED) || (state =? KSD_WINDOW_STATE_UNMINIMIZED)
                then KSD_FIELD_MINIMIZED else Z.lor KSD_FIELD_MINIMIZED KSD_FIELD_MAXIMIZED in
  let both := Z.land (win_flags window) (Z.lor KSD_WINDOW_MINIMIZED KSD_WINDOW_MAXIMIZED) in
  if negb (Z.land (win_valid_fields window) fields =? fields) then false
  else if state =? KSD_WINDOW_STATE_MINIMIZED then window_is window KSD_WINDOW_MINIMIZED
  else if state =? KSD_WINDOW_STATE_MAXIMIZED then both =? KSD_WINDOW_MAXIMIZED
  else if state =? KSD_WINDOW_STATE_UNMINIMIZED then negb (window_is window KSD_WINDOW_MINIMIZED)
  else both =? 0.

(** A flag that a request sets or clears. *)
Definition flag_observed (request : ksd_frame) (field flag : Z) (window : ksd_window_record) : bool :=
  (12 <=? fr_payload_length request) && has_field window field
  && Bool.eqb (window_is window flag) (negb (request_word request 8 =? 0)).

(** The effect on the window itself. *)
Definition window_observed (request : ksd_frame) (windows : list ksd_window_record) (window : ksd_window_record)
    (before : option ksd_window_record) : bool :=
  let opcode := fr_opcode request in
  let length := fr_payload_length request in
  if (opcode =? KSD_OP_WINDOW_RAISE) || (opcode =? KSD_OP_WINDOW_LOWER) then
    (win_stacking_order window =? stacking_edge opcode windows (win_stacking_order window))
    || match before with Some b => negb (win_stacking_order b =? win_stacking_order window) | None => false end
  else if opcode =? KSD_OP_WINDOW_FOCUS then has_field window KSD_FIELD_ACTIVE && window_is window KSD_WINDOW_ACTIVE
  else if (opcode =? KSD_OP_WINDOW_MOVE_RESIZE) || (opcode =? KSD_OP_WINDOW_MOVE_RESIZE_XID) then
    if (length <? 24) || negb (has_field window KSD_FIELD_FRAME) then false else geometry_observed request window before
  else if opcode =? KSD_OP_WINDOW_SET_TITLE then
    if (length <? 12) || negb (has_field window KSD_FIELD_TITLE) then false else title_observed request window
  else if opcode =? KSD_OP_WINDOW_SET_VISIBLE then flag_observed request KSD_FIELD_VISIBLE KSD_WINDOW_VISIBLE window
  else if opcode =? KSD_OP_WINDOW_SET_ABOVE then flag_observed request KSD_FIELD_ABOVE KSD_WINDOW_ABOVE window
  else if opcode =? KSD_OP_WINDOW_SET_DECORATED then flag_observed request KSD_FIELD_DECORATED KSD_WINDOW_DECORATED window
  else if opcode =? KSD_OP_WINDOW_SET_OPACITY then
    (12 <=? length) && has_field window KSD_FIELD_TRANSPARENCY && (win_transparency window =? request_word request 8)
  else if opcode =? KSD_OP_WINDOW_SET_STATE then
    if length <? 12 then false else state_observed (request_word request 8) window
  else true.

Definition is_destroy (opcode : Z) : bool := (opcode =? KSD_OP_WINDOW_CLOSE) || (opcode =? KSD_OP_WINDOW_KILL).

Definition operation_observed (pending : bool) (windows : list ksd_window_record) (request : ksd_frame)
    (before : option ksd_window_record) : bool :=
  if pending then false
  else if fr_payload_length request <? 8 then true
  else
    match window_slot windows (request_handle request) with
    | item =>
      if is_destroy (fr_opcode request) then bool_decide (item = None)
      else match item with None => false | Some window => window_observed request windows window before end
    end.

(** Some progress of a move or resize. *)
Definition component_changed (untouched : bool) (wanted before now : Z) : bool :=
  negb untouched && negb (wanted =? before) && negb (now =? before).
Definition operation_geometry_changed (pending : bool) (windows : list ksd_window_record) (request : ksd_frame)
    (before : option ksd_window_record) : bool :=
  match before with
  | None => false
  | Some b =>
    if pending || (fr_payload_length request <? 24) || negb (has_field b KSD_FIELD_FRAME)
       || (negb (fr_opcode request =? KSD_OP_WINDOW_MOVE_RESIZE) && negb (fr_opcode request =? KSD_OP_WINDOW_MOVE_RESIZE_XID))
    then false
    else
      match window_slot windows (request_handle request) with
      | None => false
      | Some window =>
        if negb (has_field window KSD_FIELD_FRAME) then false
        else
          let x := i32 (request_word request 8) in
          let y := i32 (request_word request 12) in
          let width := request_word request 16 in
          let height := request_word request 20 in
          let old := win_frame b in
          let new := win_frame window in
          component_changed (x =? INT32_MIN) x (rect_x old) (rect_x new)
          || component_changed (y =? INT32_MIN) y (rect_y old) (rect_y new)
          || component_changed (width =? 0) width (rect_width old) (rect_width new)
          || component_changed (height =? 0) height (rect_height old) (rect_height new)
      end
  end.

(** ** Waiting for it *)

(** One turn of the wait: whether the lease could ask its watch for a fresh
    sample, and then, after the condition variable, whether the wait timed out,
    the clock, and the lease as it is found. *)
Record sync_turn := mk_sync { sy_refresh_fd : bool; sy_timed_out : bool; sy_now : Z; sy_lease : authority_lease }.

Definition observed_in (lease : authority_lease) (request : ksd_frame) (before : option ksd_window_record) : bool :=
  operation_observed (lease_snapshot_pending lease) (lease_windows lease) request before.
Definition may_control (lease : authority_lease) : bool :=
  lease_active lease && negb (Z.land (lease_granted_scopes lease) KSD_SCOPE_WINDOW_CONTROL =? 0).

(** The loop: the lease it ends with and whether it timed out. *)
Fixpoint sync_loop (backend deadline : Z) (request : ksd_frame) (before : option ksd_window_record)
    (lease : authority_lease) (timed_out : bool) (turns : list sync_turn) : option (authority_lease * bool) :=
  if may_control lease && negb (observed_in lease request before) && negb timed_out then
    match turns with
    | [] => None
    | turn :: turns =>
      let refresh := (backend =? KSD_BACKEND_GENERIC) && sy_refresh_fd turn in
      sync_loop backend deadline request before (sy_lease turn)
        (sy_timed_out turn && negb (refresh && (sy_now turn <? deadline))) turns
    end
  else Some (lease, timed_out).

(** Restacking is not waited for where the whole stack is not known. *)
Definition sync_monitors (backend domains opcode : Z) : bool :=
  negb (Z.land domains KSD_STATE_WINDOWS =? 0)
  && negb (((backend =? KSD_BACKEND_GENERIC) || (backend =? KSD_BACKEND_X11))
           && ((opcode =? KSD_OP_WINDOW_RAISE) || (opcode =? KSD_OP_WINDOW_LOWER))).

(** The answer, the effective sequence and the lease; [start] and [now] are the
    clock before and after. *)
Definition operation_sync (backend start now : Z) (request : ksd_frame) (before : option ksd_window_record)
    (lease : authority_lease) (turns : list sync_turn) : option (bool * Z * authority_lease) :=
  let deadline := u64 (start + 2000) in
  let monitoring := sync_monitors backend (lease_domains lease) (fr_opcode request) in
  let* r := if monitoring then sync_loop backend deadline request before lease false turns else Some (lease, false) in
  let '(lease, timed_out) := r in
  let observed := negb monitoring || observed_in lease request before in
  let constrained := negb observed && timed_out && (deadline <=? now)
                     && operation_geometry_changed (lease_snapshot_pending lease) (lease_windows lease) request before in
  let ok := may_control lease && (observed || constrained) in
  Some (ok, if monitoring && ok && observed then sequence_of lease 0 else 0, lease).

(** The X11 window outside the managed ones is asked for once; [found] is the
    answer of the query: a window, none, or another failure. *)
Inductive x11_found := X11Window (w : ksd_window_record) | X11NotFound | X11Failed.
Definition x11_child_sync (request : ksd_frame) (before : ksd_window_record) (found : x11_found) : bool :=
  if is_destroy (fr_opcode request) then match found with X11NotFound => true | _ => false end
  else match found with
       | X11Window w => operation_observed false [w] request (Some before)
                        || operation_geometry_changed false [w] request (Some before)
       | _ => false
       end.

(** ** What it means *)

(** The effect of an operation, stated of the windows a client knows. *)
Definition moved (untouched : Prop) (now wanted : Z) (before : option Z) : Prop :=
  untouched \/ now = wanted \/ exists b, before = Some b /\ now <> b.

Definition window_effect (request : ksd_frame) (m : gmap Z ksd_window_record) (w : ksd_window_record)
    (before : option ksd_window_record) : Prop :=
  let opcode := fr_opcode request in
  let wanted := request_word request 8 in
  let restacked := exists b, before = Some b /\ win_stacking_order b <> win_stacking_order w in
  let prior := match before with Some b => if has_field b KSD_FIELD_FRAME then Some (win_frame b) else None | None => None end in
  (opcode = KSD_OP_WINDOW_RAISE ->
     restacked \/ forall h other, m !! h = Some other -> win_stacking_order other <= win_stacking_order w) /\
  (opcode = KSD_OP_WINDOW_LOWER ->
     restacked \/ forall h other, m !! h = Some other -> win_stacking_order w <= win_stacking_order other) /\
  (opcode = KSD_OP_WINDOW_FOCUS -> window_is w KSD_WINDOW_ACTIVE = true) /\
  (opcode = KSD_OP_WINDOW_MOVE_RESIZE \/ opcode = KSD_OP_WINDOW_MOVE_RESIZE_XID ->
     moved (i32 wanted = INT32_MIN) (rect_x (win_frame w)) (i32 wanted) (option_map rect_x prior) /\
     moved (i32 (request_word request 12) = INT32_MIN) (rect_y (win_frame w)) (i32 (request_word request 12))
       (option_map rect_y prior) /\
     moved (request_word request 16 = 0) (rect_width (win_frame w)) (request_word request 16) (option_map rect_width prior) /\
     moved (request_word request 20 = 0) (rect_height (win_frame w)) (request_word request 20)
       (option_map rect_height prior)) /\
  (opcode = KSD_OP_WINDOW_SET_TITLE -> string_bytes (win_title w) = ztake wanted (zdrop 12 (request_payload request))) /\
  (opcode = KSD_OP_WINDOW_SET_VISIBLE -> window_is w KSD_WINDOW_VISIBLE = negb (wanted =? 0)) /\
  (opcode = KSD_OP_WINDOW_SET_ABOVE -> window_is w KSD_WINDOW_ABOVE = negb (wanted =? 0)) /\
  (opcode = KSD_OP_WINDOW_SET_DECORATED -> window_is w KSD_WINDOW_DECORATED = negb (wanted =? 0)) /\
  (opcode = KSD_OP_WINDOW_SET_OPACITY -> win_transparency w = wanted) /\
  (opcode = KSD_OP_WINDOW_SET_STATE ->
     (wanted = KSD_WINDOW_STATE_MINIMIZED -> window_is w KSD_WINDOW_MINIMIZED = true) /\
     (wanted <> KSD_WINDOW_STATE_MINIMIZED -> window_is w KSD_WINDOW_MINIMIZED = false) /\
     (wanted = KSD_WINDOW_STATE_MAXIMIZED -> window_is w KSD_WINDOW_MAXIMIZED = true) /\
     (wanted = KSD_WINDOW_STATE_NORMAL -> window_is w KSD_WINDOW_MAXIMIZED = false)).

Definition effect (request : ksd_frame) (m : gmap Z ksd_window_record) (before : option ksd_window_record) : Prop :=
  if is_destroy (fr_opcode request) then m !! request_handle request = None
  else exists w, m !! request_handle request = Some w /\ window_effect request m w before.

Lemma view_elem ws h w : NoDup (map win_handle ws) -> (window_view ws !! h = Some w <-> w ∈ ws /\ win_handle w = h).
Proof.
  intros Hd. rewrite <- window_slot_view. induction ws as [|x ws IH]; cbn.
  - split; [done|]. by intros [?%not_elem_of_nil _].
  - apply NoDup_cons in Hd as [Hn Hd]. rewrite elem_of_cons. destruct (Z.eqb_spec (win_handle x) h) as [<-|Hne].
    + split; [by intros [= ->]; auto|]. intros [[->|Hw] E]; [done|]. destruct Hn. rewrite <- E.
      by apply list_elem_of_fmap_2.
    + rewrite (IH Hd). split; [tauto|]. intros [[->|?] ?]; [done|auto].
Qed.

(** The edge is reached when no window is beyond. *)
Lemma stacking_edge_raise ws o :
  o <= stacking_edge KSD_OP_WINDOW_RAISE ws o /\
  forall w, w ∈ ws -> win_stacking_order w <= stacking_edge KSD_OP_WINDOW_RAISE ws o.
Proof.
  revert o. induction ws as [|x ws IH]; intros o; [by split; [cbn; lia|intros ? ?%not_elem_of_nil]|].
  unfold stacking_edge. cbn [fold_left]. match goal with |- context [fold_left _ ws ?e] => set (o' := e) end.
  destruct (IH o') as [H1 H2]. unfold stacking_edge in H1, H2.
  assert (o <= o' /\ win_stacking_order x <= o') as [Ho Hx].
  { unfold o'. cbn. destruct (Z.ltb_spec o (win_stacking_order x)); lia. }
  split; [lia|]. intros w [->|Hw]%elem_of_cons; [lia|auto].
Qed.

Lemma stacking_edge_lower ws o :
  stacking_edge KSD_OP_WINDOW_LOWER ws o <= o /\
  forall w, w ∈ ws -> stacking_edge KSD_OP_WINDOW_LOWER ws o <= win_stacking_order w.
Proof.
  revert o. induction ws as [|x ws IH]; intros o; [by split; [cbn; lia|intros ? ?%not_elem_of_nil]|].
  unfold stacking_edge. cbn [fold_left]. match goal with |- context [fold_left _ ws ?e] => set (o' := e) end.
  destruct (IH o') as [H1 H2]. unfold stacking_edge in H1, H2.
  assert (o' <= o /\ o' <= win_stacking_order x) as [Ho Hx].
  { unfold o'. cbn. destruct (Z.ltb_spec (win_stacking_order x) o); lia. }
  split; [lia|]. intros w [->|Hw]%elem_of_cons; [lia|auto].
Qed.

Lemma component_observed_moved (P : Prop) untouched now wanted before :
  (untouched = true -> P) -> component_observed untouched now wanted before = true -> moved P now wanted before.
Proof.
  unfold component_observed, moved. intros Hp. destruct untouched; [auto|]. cbn [orb].
  destruct (Z.eqb_spec now wanted); [auto|]. cbn [orb]. destruct before as [b|]; [|done].
  intros Hn%negb_true_iff%Z.eqb_neq. eauto.
Qed.

Lemma geometry_observed_moved request w before :
  geometry_observed request w before = true ->
  let prior := match before with Some b => if has_field b KSD_FIELD_FRAME then Some (win_frame b) else None | None => None end in
  moved (i32 (request_word request 8) = INT32_MIN) (rect_x (win_frame w)) (i32 (request_word request 8)) (option_map rect_x prior) /\
  moved (i32 (request_word request 12) = INT32_MIN) (rect_y (win_frame w)) (i32 (request_word request 12))
    (option_map rect_y prior) /\
  moved (request_word request 16 = 0) (rect_width (win_frame w)) (request_word request 16) (option_map rect_width prior) /\
  moved (request_word request 20 = 0) (rect_height (win_frame w)) (request_word request 20) (option_map rect_height prior).
Proof.
  unfold geometry_observed. intros H. breflect.
  repeat split; (eapply component_observed_moved; [|eassumption]); apply Z.eqb_eq.
Qed.

(** Testing two flags at once. *)
Lemma land_lor_l flags a b : Z.land (Z.land flags (Z.lor a b)) a = Z.land flags a.
Proof.
  apply Z.bits_inj'. intros i Hi. rewrite !Z.land_spec, Z.lor_spec.
  by destruct (Z.testbit flags i), (Z.testbit a i), (Z.testbit b i).
Qed.
Lemma land_lor_r flags a b : Z.land (Z.land flags (Z.lor a b)) b = Z.land flags b.
Proof. rewrite Z.lor_comm. apply land_lor_l. Qed.

Lemma state_observed_effect state w :
  state_observed state w = true ->
  (state = KSD_WINDOW_STATE_MINIMIZED -> window_is w KSD_WINDOW_MINIMIZED = true) /\
  (state <> KSD_WINDOW_STATE_MINIMIZED -> window_is w KSD_WINDOW_MINIMIZED = false) /\
  (state = KSD_WINDOW_STATE_MAXIMIZED -> window_is w KSD_WINDOW_MAXIMIZED = true) /\
  (state = KSD_WINDOW_STATE_NORMAL -> window_is w KSD_WINDOW_MAXIMIZED = false).
Proof.
  unfold state_observed. destruct (negb (Z.land (win_valid_fields w) _ =? _)); [done|].
  pose proof (land_lor_l (win_flags w) KSD_WINDOW_MINIMIZED KSD_WINDOW_MAXIMIZED) as Hmin.
  pose proof (land_lor_r (win_flags w) KSD_WINDOW_MINIMIZED KSD_WINDOW_MAXIMIZED) as Hmax.
  unfold KSD_WINDOW_STATE_MINIMIZED, KSD_WINDOW_STATE_MAXIMIZED, KSD_WINDOW_STATE_NORMAL, KSD_WINDOW_STATE_UNMINIMIZED.
  destruct (Z.eqb_spec state 1); [intros H; repeat split; (done || lia)|].
  destruct (Z.eqb_spec state 2); [|destruct (Z.eqb_spec state 3)].
  - intros H%Z.eqb_eq. rewrite H in Hmin, Hmax. unfold window_is. rewrite <- Hmin, <- Hmax. repeat split; (done || lia).
  - intros H%negb_true_iff. repeat split; (done || lia).
  - intros H%Z.eqb_eq. rewrite H in Hmin, Hmax. unfold window_is. rewrite <- Hmin, <- Hmax. repeat split; (done || lia).
Qed.

Lemma flag_observed_effect request field flag w :
  flag_observed request field flag w = true -> window_is w flag = negb (request_word request 8 =? 0).
Proof. unfold flag_observed. intros H. breflect. by apply eqb_prop. Qed.

Lemma title_observed_effect request w :
  title_observed request w = true ->
  string_bytes (win_title w) = ztake (request_word request 8) (zdrop 12 (request_payload request)).
Proof.
  unfold title_observed. intros H. breflect. destruct H0 as [H0|H0].
  - rewrite H0, ztake_0. rewrite H0 in H. symmetry in H. unfold zlen in H.
    by destruct (string_bytes (win_title w)).
  - by apply bool_decide_eq_true in H0.
Qed.

(** Decide the comparisons of a test against a known operation. *)
Ltac known_opcode H :=
  repeat match type of H with context [?a =? ?b] =>
    is_const a; is_const b; let v := eval vm_compute in (a =? b) in change (a =? b) with v in H
  end; cbn [orb andb negb] in H.

Lemma window_observed_effect request ws w before :
  NoDup (map win_handle ws) -> window_observed request ws w before = true ->
  window_effect request (window_view ws) w before.
Proof.
  intros Hd H. unfold window_observed in H. unfold window_effect. cbv zeta in *.
  assert (Hr : forall b, match b with Some b => negb (win_stacking_order b =? win_stacking_order w) | None => false end = true ->
    exists b', b = Some b' /\ win_stacking_order b' <> win_stacking_order w).
  { intros [b|]; [|done]. intros Hb%negb_true_iff%Z.eqb_neq. eauto. }
  split_and!; intros E; [| | |destruct E as [E|E]|..]; rewrite E in H; known_opcode H.
  - apply orb_true_iff in H as [H|H]; [right|by left; apply Hr]. apply Z.eqb_eq in H.
    intros h other Ho%view_elem; [|done]. rewrite H. apply stacking_edge_raise, Ho.
  - apply orb_true_iff in H as [H|H]; [right|by left; apply Hr]. apply Z.eqb_eq in H.
    intros h other Ho%view_elem; [|done]. rewrite H. apply stacking_edge_lower, Ho.
  - by apply andb_true_iff in H as [_ H].
  - destruct (_ || _) in H; [done|]. by apply geometry_observed_moved.
  - destruct (_ || _) in H; [done|]. by apply geometry_observed_moved.
  - destruct (_ || _) in H; [done|]. by apply title_observed_effect.
  - by eapply flag_observed_effect.
  - by eapply flag_observed_effect.
  - by eapply flag_observed_effect.
  - breflect. done.
  - destruct (_ <? _) in H; [done|]. by apply state_observed_effect.
Qed.

Lemma operation_observed_effect request ws before :
  NoDup (map win_handle ws) -> 8 <= fr_payload_length request ->
  operation_observed false ws request before = true -> effect request (window_view ws) before.
Proof.
  intros Hd Hl. unfold operation_observed, effect. cbv zeta. rewrite (proj2 (Z.ltb_ge _ _)) by done.
  rewrite <- window_slot_view. destruct (is_destroy (fr_opcode request)).
  - intros H. by apply bool_decide_eq_true in H.
  - destruct (window_slot ws (request_handle request)) as [w|]; [|done]. intros H. exists w. split; [done|].
    by apply window_observed_effect.
Qed.

(** The loop ends with what it found, when it timed out or need not go on. *)
Lemma sync_loop_end backend deadline request before turns : forall lease timed_out l t,
  sync_loop backend deadline request before lease timed_out turns = Some (l, t) ->
  may_control l = false \/ observed_in l request before = true \/ t = true.
Proof.
  induction turns as [|turn turns IH]; intros lease timed_out l t; cbn [sync_loop];
    destruct (may_control lease) eqn:Em, (observed_in lease request before) eqn:Eo, timed_out; cbn [andb negb];
    try (intros [= <- <-]; auto; fail); try done; apply IH.
Qed.

(** A wait that timed out did so at one of its turns. *)
Lemma sync_loop_timed_out backend deadline request before turns : forall lease l,
  sync_loop backend deadline request before lease false turns = Some (l, true) ->
  exists turn, turn ∈ turns /\ sy_timed_out turn = true.
Proof.
  induction turns as [|turn turns IH]; intros lease l; cbn [sync_loop]; destruct (_ && _ && _); try done.
  destruct (sy_timed_out turn) eqn:Et.
  - intros _. exists turn. split; [by left|done].
  - cbn [andb]. intros H. destruct (IH _ _ H) as (t & Ht & E). exists t. split; [by right|done].
Qed.

(** What an answer of the wait says. *)
Lemma operation_sync_sound backend start now request before lease turns n l :
  operation_sync backend start now request before lease turns = Some (true, n, l) ->
  may_control l = true /\
  (sync_monitors backend (lease_domains lease) (fr_opcode request) = true ->
     (observed_in l request before = true /\ n = sequence_of l 0) \/
     (n = 0 /\ u64 (start + 2000) <= now /\
      operation_geometry_changed (lease_snapshot_pending l) (lease_windows l) request before = true)) /\
  (n <> 0 -> observed_in l request before = true /\ n = sequence_of l 0).
Proof.
  unfold operation_sync. destruct (sync_monitors _ _ _) eqn:Em.
  - destruct (sync_loop _ _ _ _ _ _ _) as [[l' t]|] eqn:Es; [|done]. cbn [negb orb andb].
    destruct (observed_in l' request before) eqn:Eo; cbn [negb orb andb].
    + rewrite andb_true_r. intros [= Hc <- <-]. rewrite Hc. repeat split; auto.
    + rewrite andb_false_r. intros [= Hc <- <-]. breflect. split; [done|]. split; [|done]. intros _. right. auto.
  - cbn [negb orb andb]. rewrite andb_true_r. intros [= Hc <- <-]. done.
Qed.

(** C33: Acknowledged operations are seen by the client.  When an operation on a
    window is acknowledged with the number of an event, a client that has read the
    events of the lease up to that number, from the windows it knew at first, sees
    the effect: the window is gone, on top or at the bottom or restacked, active,
    at the requested place and size or moved by the compositor, or has the
    requested title, visibility, layer, decoration, opacity or state. *)
Theorem operation_acknowledged {AL : Allocator} {AT : AllocTotal AL} l0 reports l out backend start now request before
    lease turns n :
  state_ok l0 -> Forall (fun r => source_event (snd r)) reports -> state_run l0 reports = Some (l, out) ->
  operation_sync backend start now request before lease turns = Some (true, n, l) -> n <> 0 ->
  8 <= fr_payload_length request ->
  exists es, out = concat (map event_wire es) /\ fold_left follows es (sequence_of l0 0) = n /\
    effect request (mi_windows (fold_left mirror_step es (lease_mirror l0))) before.
Proof.
  intros H0 Hr Hrun Hs Hn Hl. destruct (operation_sync_sound _ _ _ _ _ _ _ _ _ Hs) as (_ & _ & Hobs).
  destruct (Hobs Hn) as [Ho ->]. destruct (state_run_mirrors _ _ _ _ H0 Hr Hrun) as (Hok & es & -> & _ & _ & Hlast & Hm).
  exists es. split; [done|]. split; [done|]. rewrite Hm. cbn [lease_mirror mi_windows].
  unfold observed_in in Ho. destruct (lease_snapshot_pending l) eqn:Ep; [done|].
  apply operation_observed_effect; [|done|done]. apply Hok.
Qed.

(** What the wait promises.  An acknowledged operation leaves the lease alive
    with control of windows; where it is monitored, its effect was observed, or
    the two seconds passed and the compositor had moved or resized the window
    some of the way, which is acknowledged without a number; a refusal means the
    lease was lost or the two seconds passed. *)
Theorem operation_sync_exact backend start now request before lease turns ok n l :
  operation_sync backend start now request before lease turns = Some (ok, n, l) ->
  sync_monitors backend (lease_domains lease) (fr_opcode request) = true ->
  if ok : bool
  then may_control l = true /\
       ((observed_in l request before = true /\ n = sequence_of l 0) \/
        (n = 0 /\ u64 (start + 2000) <= now /\
         operation_geometry_changed (lease_snapshot_pending l) (lease_windows l) request before = true))
  else n = 0 /\ (may_control l = false \/
       (observed_in l request before = false /\ exists turn, turn ∈ turns /\ sy_timed_out turn = true)).
Proof.
  intros Hs Hm. destruct ok.
  - destruct (operation_sync_sound _ _ _ _ _ _ _ _ _ Hs) as (H1 & H2 & _). auto.
  - revert Hs. unfold operation_sync. rewrite Hm.
    destruct (sync_loop _ _ _ _ _ _ _) as [[l' t]|] eqn:Es; [|done]. cbn [negb orb andb]. intros [= Hok <- <-].
    rewrite Hok. cbn [andb]. split; [done|].
    destruct (may_control l') eqn:Ec; [right|by left]. cbn [andb] in Hok. apply orb_false_iff in Hok as [Ho _].
    split; [done|]. destruct (sync_loop_end _ _ _ _ _ _ _ _ _ Es) as [H|[H|H]]; [congruence..|]. subst t.
    by eapply sync_loop_timed_out.
Qed.

(** ** Witnesses *)

(** A lease that may control windows, a window its watch reported, and a client
    that renames it. *)
Definition control_lease : authority_lease := with_scopes sample_lease true 15 15 1 1.
Definition control_run : authority_lease * list byte :=
  default (control_lease, []) (state_run (AL := infinite_memory) control_lease (firstn 4 sample_reports)).
Definition sample_title_request : ksd_frame :=
  mk_frame [] 1 0 KSD_OP_WINDOW_SET_TITLE 0 17 5 (Some (ksd_encode_u64 42 ++ ksd_encode_u32 5 ++ cstr "Title")).

Lemma control_lease_ok : state_ok control_lease.
Proof.
  split; [|split; split; constructor]. split; [by vm_compute|]. split; [done|].
  cbn. repeat (constructor; [by vm_compute|]). constructor.
Qed.

Lemma operation_acknowledged_witness :
  exists es, snd control_run = concat (map event_wire es) /\ fold_left follows es (sequence_of control_lease 0) = 1 /\
    effect sample_title_request (mi_windows (fold_left mirror_step es (lease_mirror control_lease))) None.
Proof.
  apply (operation_acknowledged (AL := infinite_memory) control_lease (firstn 4 sample_reports) (fst control_run)
    (snd control_run) KSD_BACKEND_X11 1000 1100 sample_title_request None (fst control_run) [] 1).
  - apply control_lease_ok.
  - pose proof sample_window_ok as Hw. pose proof init_window_ok as Hi.
    assert (Hn : window_ok (norm_window sample_window)) by by rewrite (norm_window_id _ Hw).
    repeat (constructor; [apply sample_report_ok; [by vm_compute|assumption]|]). constructor.
  - vm_compute. reflexivity.
  - vm_compute. reflexivity.
  - discriminate.
  - vm_compute. discriminate.
Defined.

Lemma operation_sync_exact_witness :
  let l := fst control_run in
  may_control l = true /\
  ((observed_in l sample_title_request None = true /\ 1 = sequence_of l 0) \/
   (1 = 0 /\ u64 (1000 + 2000) <= 1100 /\
    operation_geometry_changed (lease_snapshot_pending l) (lease_windows l) sample_title_request None = true)).
Proof.
  apply (operation_sync_exact KSD_BACKEND_X11 1000 1100 sample_title_request None control_lease
    [mk_sync false false 0 control_lease; mk_sync false false 0 (fst control_run)] true 1 (fst control_run)).
  - vm_compute. reflexivity.
  - vm_compute. reflexivity.
Defined.
