(* ===== verification/Dispatch.v ===== *)
(** * Running an operation (src/authorityd.c)

    [execute_operation]: what a desktop operation has to pass before it is run,
    which of the routes to the desktop it takes, and what has to hold afterwards
    for its result to be given to the client.  Between two sections under a lock
    other threads run: each section has the state as it finds it, and the changes
    others make to the client's lease are the functions [ow_others].  What the
    display workers, the compositors and the capture workers answer is in the
    arguments.  Every resource taken or given back is recorded in a log. *)
From Stdlib Require Import ZArith Lia Strings.Byte Strings.String.
From stdpp Require Import base list option numbers tactics.
From S2P Require Import Prelude.
From S2P Require Import Protocol.
From S2P Require Import Codec.
From S2P Require Import Buffer.
From S2P Require Import Transport.
From S2P Require Import Frame.
From S2P Require Import Operations.
From S2P Require Import Result.
From S2P Require Import StateWire.
From S2P Require Import Budgets.
From S2P Require Import Lease.
From S2P Require Import WindowState.
From S2P Require Import Response.
From S2P Require Import Authorize.
From S2P Require Import Registry.
From S2P Require Import Observe.
Local Open Scope Z_scope.
Local Open Scope ksd_scope.

(** ** What an operation holds, and does *)

(** The reference of a snapshot to its relay, a slot of a consumer at the KWin
    script, the memory of a capture, a reference to a display worker's relay. *)
Inductive resource :=
| SnapshotRelay (p : option Z)
| KwinSlot (pid : Z)
| CaptureMemory (uid pid : Z)
| DisplayReference (p : Z).
#[export] Instance resource_eq_dec : EqDecision resource.
Proof. solve_decision. Defined.

(** Where an operation is carried out: by the KWin script over its daemon's relay,
    by a display worker, by a capture worker forked for it, by the compositor's
    provider; or the query that asks a display worker for one window. *)
Inductive route := RouteScript (p : Z) | RouteWorker (p : Z) | RouteCapture | RouteProvider | RouteObserve (p : Z).

(** [Forgot] is a worker that stopped answering being taken out of its lanes. *)
Inductive access := Acquire (r : resource) | Release (r : resource) | Ran (by_route : route) | Forgot (p : Z).

(** *** Getting a display worker *)

(** The registry as the two sections find it, and the relay of the worker started
    in between, if one could be. *)
Record display_world := mk_display_world { dw_find : registry; dw_spawn : option Z; dw_install : registry }.

Definition display_relay_for (w : display_world) (uid gid session_pid backend : Z) (capture : bool) : option Z :=
  match fst (display_find (dw_find w) uid gid session_pid backend capture) with
  | DisplayNone => None
  | DisplayRelay p => p
  | DisplayStart slot identity =>
    let* p := dw_spawn w in fst (fst (display_install (dw_install w) slot identity uid gid capture p))
  end.

Section operation.
Context {AL : Allocator} {S : Type} {PS : PermissionStore S}.

(** *** Asking an X11 worker for a window *)

(** The status, the window of a successful answer, and whether it is a child; the
    worker's answer to the query is [answer]. *)
Definition observed_window (result : ksd_operation_result) : Z * option (ksd_window_record * bool) :=
  if negb (res_status result =? KSD_STATUS_OK) then (res_status result, None)
  else
    let text := zdrop 4 (ztake (res_tail_length result) (default [] (res_tail result))) in
    if res_tail_length result <? 4 then (KSD_STATUS_INTERNAL, None)
    else match ksd_state_window_json text with
         | None => (KSD_STATUS_INTERNAL, None)
         | Some window => (KSD_STATUS_OK, Some (window, ksd_state_window_is_child_json text))
         end.

Definition x11_observe_window (w : display_world) (identity : ksp_identity) (gid : Z) (snapshot : backend_snapshot)
    (answer : ksd_operation_result) : Z * option (ksd_window_record * bool) * list access :=
  match display_relay_for w (id_uid identity) gid (id_pid (sn_identity snapshot)) (sn_backend snapshot) false with
  | None => (KSD_STATUS_UNAVAILABLE, None, [])
  | Some p =>
    (observed_window answer, [Acquire (DisplayReference p); Ran (RouteObserve p); Release (DisplayReference p)])
  end.

(** What the acknowledgement makes of it. *)
Definition x11_answer (found : Z * option (ksd_window_record * bool)) : x11_found :=
  match found with
  | (_, Some (window, _)) => X11Window window
  | (status, None) => if status =? KSD_STATUS_NOT_FOUND then X11NotFound else X11Failed
  end.

(** ** The operation *)

Definition is_capture_operation (opcode : Z) : bool :=
  (opcode =? KSD_OP_CAPTURE_AREA) || (opcode =? KSD_OP_CAPTURE_WINDOW) || (opcode =? KSD_OP_CAPTURE_DESKTOP).
Definition uses_keyboard_worker (opcode : Z) : bool := opcode =? KSD_OP_KEYBOARD_STATE.
Definition uses_kwin_script (backend opcode : Z) : bool :=
  (backend =? KSD_BACKEND_KWIN) && negb (is_capture_operation opcode) && negb (uses_keyboard_worker opcode).

(** One refresh of the session: the store, the identity, the sends of the event. *)
Record refresh_world := mk_refresh_world {
  fw_store : S;
  fw_verified : option ksp_identity;
  fw_sends : list plain_outcome;
}.

(** Around one operation, in its order. *)
Record operation_world := mk_operation_world {
  ow_refresh : refresh_world;
  ow_take : registry;
  ow_verified : option ksp_identity;
  ow_valid : registry;
  ow_kwin : authority_budgets;
  ow_capture : authority_budgets;
  ow_others : nat -> authority_lease -> authority_lease;
  ow_observe : display_world;
  ow_observed : ksd_operation_result;
  ow_provider_verified : option ksp_identity;
  ow_display : display_world;
  ow_run : route -> ksd_operation_result;
  ow_gone : bool;
  ow_after : refresh_world;
  ow_current : registry;
  ow_start : Z;
  ow_turns : list sync_turn;
  ow_now : Z;
  ow_child : display_world;
  ow_child_observed : ksd_operation_result;
  ow_sent : bool;
}.

(** What the client is given. *)
Inductive answer := AnswerReply (r : reply) | AnswerCapture (status detail fd : Z).

(** [ex_ok] is whether the connection goes on; [ex_sequence] is the effective
    sequence the session is left with, which follows the tail of a successful
    mutation of windows. *)
Record executed := mk_executed {
  ex_ok : bool;
  ex_answer : option answer;
  ex_session : authority_session;
  ex_backend : Z;
  ex_lease : authority_lease;
  ex_sequence : Z;
  ex_log : list access;
}.

Definition refuse (status : Z) (diagnostic : string) : answer := AnswerReply (mk_reply status 0 (Some (cstr diagnostic)) []).

(** *** Before it is run *)

(** Refused, with what was taken and given back for it, or admitted with the
    snapshot of the backend. *)
Inductive admission :=
| Refused (a : answer) (backend : Z) (log : list access)
| AdmittedTo (snapshot : backend_snapshot) (log : list access).

(** The request itself, before the session is refreshed. *)
Definition request_refused (role opcode : Z) : option answer :=
  if ksd_operation_bit opcode =? 0 then Some (refuse KSD_STATUS_UNSUPPORTED "unknown desktop operation")
  else if negb (role =? KSD_ROLE_RPC) && negb (role =? KSD_ROLE_EVENT_STREAM)
  then Some (refuse KSD_STATUS_INVALID_REQUEST "operation is invalid for this role")
  else if (ksd_operation_scope opcode =? 0) && negb (ksd_operation_scope_free opcode)
  then Some (refuse KSD_STATUS_INTERNAL "operation carries no permission scope")
  else None.

(** The backend, once the permission is there. *)
Definition admit_backend (w : operation_world) (role : Z) (identity : ksp_identity) (backend opcode : Z) : admission :=
  let unavailable := refuse KSD_STATUS_UNAVAILABLE "operation is unavailable on this backend" in
  match take_backend_snapshot (ow_take w) (id_uid identity) with
  | None => Refused unavailable KSD_BACKEND_NONE []
  | Some (snapshot, _) =>
    let taken := Acquire (SnapshotRelay (sn_relay snapshot)) in
    let given := Release (SnapshotRelay (sn_relay snapshot)) in
    if negb (backend_snapshot_valid (ow_valid w) (ow_verified w) snapshot)
    then Refused unavailable KSD_BACKEND_NONE [taken; given]
    else
      let backend := sn_backend snapshot in
      if Z.land (ksd_backend_reported_operations backend true (sn_advertised snapshot)) (ksd_operation_bit opcode) =? 0
      then Refused unavailable backend [taken; given]
      else if (opcode =? KSD_OP_WINDOW_WATCH) || (opcode =? KSD_OP_CLIPBOARD_WATCH)
      then Refused (refuse KSD_STATUS_INVALID_REQUEST "subscribe to state on the lease connection") backend [taken; given]
      else if negb (role =? KSD_ROLE_RPC)
      then Refused (refuse KSD_STATUS_INVALID_REQUEST "event streams only accept subscriptions") backend [taken; given]
      else if uses_kwin_script backend opcode
      then match reserve_kwin_slot (ow_kwin w) (id_pid identity) with
           | None => Refused (refuse KSD_STATUS_BUSY "too many concurrent requests for this compositor") backend [taken; given]
           | Some _ => AdmittedTo snapshot [taken; Acquire (KwinSlot (id_pid identity))]
           end
      else if is_capture_operation opcode
      then match reserve_capture_memory (ow_capture w) (id_uid identity) (id_pid identity) with
           | None => Refused (refuse KSD_STATUS_RESOURCE_EXHAUSTED "capture memory budget is busy") backend [taken; given]
           | Some _ => AdmittedTo snapshot [taken; Acquire (CaptureMemory (id_uid identity) (id_pid identity))]
           end
      else AdmittedTo snapshot [taken]
  end.

(** *** The window as it was *)

(** From the lease, or else from an X11 worker: the record, whether it is one of
    the children X11 does not manage, and the log. *)
Definition prior_window (w : operation_world) (lease : authority_lease) (identity : ksp_identity) (gid : Z)
    (snapshot : backend_snapshot) (request : ksd_frame) : option ksd_window_record * bool * list access :=
  if negb (ksd_state_mutates_windows (fr_opcode request)) || (fr_payload_length request <? 8) then (None, false, [])
  else
    match window_slot (lease_windows lease) (request_handle request) ≫= ksd_state_window_copy with
    | Some window => (Some window, false, [])
    | None =>
      if sn_backend snapshot =? KSD_BACKEND_X11 then
        let '(_, found, log) := x11_observe_window (ow_observe w) identity gid snapshot (ow_observed w) in
        match found with Some (window, child) => (Some window, child, log) | None => (None, false, log) end
      else (None, false, [])
    end.

(** *** Running it *)

Definition error_result (status : Z) (diagnostic : string) : ksd_operation_result :=
  fst (ksd_result_error ksd_result_init status 0 (Some (cstr diagnostic))).

Definition run_operation (w : operation_world) (gid : Z) (identity : ksp_identity) (snapshot : backend_snapshot) (opcode : Z)
    : ksd_operation_result * list access :=
  let backend := sn_backend snapshot in
  let capture := is_capture_operation opcode in
  let keyboard_worker := uses_keyboard_worker opcode in
  if uses_kwin_script backend opcode then
    match sn_relay snapshot with
    | None => (error_result KSD_STATUS_UNAVAILABLE "this compositor has no script channel", [])
    | Some p => (ow_run w (RouteScript p), [Ran (RouteScript p)])
    end
  else if keyboard_worker || (backend =? KSD_BACKEND_KWIN) || (backend =? KSD_BACKEND_X11) || (backend =? KSD_BACKEND_GENERIC)
  then
    let display := if negb (backend =? KSD_BACKEND_KWIN) || keyboard_worker
                   then display_relay_for (ow_display w) (id_uid identity) gid (id_pid (sn_identity snapshot)) backend capture
                   else None in
    match display with
    | Some p =>
      (ow_run w (RouteWorker p),
       [Acquire (DisplayReference p); Ran (RouteWorker p)] ++ (if ow_gone w then [Forgot p] else [])
       ++ [Release (DisplayReference p)])
    | None =>
      if (backend =? KSD_BACKEND_KWIN) && negb keyboard_worker then (ow_run w RouteCapture, [Ran RouteCapture])
      else (error_result KSD_STATUS_UNAVAILABLE "the display worker is unavailable", [])
    end
  else if backend_snapshot_provider_valid (ow_provider_verified w) snapshot
  then (ow_run w RouteProvider, [Ran RouteProvider])
  else (error_result KSD_STATUS_UNAVAILABLE "compositor provider is unavailable", []).

(** *** Afterwards *)

Definition scope_held (granted scope : Z) : bool := Z.land granted scope =? scope.

(** Whether an effect was seen: the answer, the sequence, the lease. *)
Definition acknowledge (w : operation_world) (identity : ksp_identity) (gid : Z) (snapshot : backend_snapshot)
    (request : ksd_frame) (prior : option ksd_window_record) (child : bool) (lease : authority_lease)
    : option (bool * Z * authority_lease * list access) :=
  if child then
    let '(status, found, log) := x11_observe_window (ow_child w) identity gid snapshot (ow_child_observed w) in
    Some (x11_child_sync request (default ksd_window_record_init prior) (x11_answer (status, found)), 0, lease, log)
  else
    let* r := operation_sync (sn_backend snapshot) (ow_start w) (ow_now w) request prior lease (ow_turns w) in
    let '(ok, sequence, lease) := r in Some (ok, sequence, lease, []).

(** What the client gets of a result. *)
Definition deliver_result (result : ksd_operation_result) : answer :=
  if 0 <=? res_payload_fd result then AnswerCapture (res_status result) (res_detail result) (res_payload_fd result)
  else
    AnswerReply (mk_reply (res_status result) (res_detail result)
                   (if (res_status result =? KSD_STATUS_OK) || bool_decide (res_diagnostic result = []) then None
                    else Some (res_diagnostic result))
                   (ztake (res_tail_length result) (default [] (res_tail result)))).

Definition invalidated (scope : Z) : answer :=
  if scope =? 0 then refuse KSD_STATUS_CANCELLED "application identity or backend changed"
  else refuse KSD_STATUS_REVOKED "permission changed during the operation".

Definition timed_out_result (result : ksd_operation_result) : ksd_operation_result :=
  fst (ksd_result_error result KSD_STATUS_TIMEOUT 0
         (Some (cstr "compositor state did not acknowledge the window operation within 2 seconds"))).

(** The permission and the backend after the run, and the acknowledgement. *)
Definition conclude (w : operation_world) (gid scope before sequence : Z) (snapshot : backend_snapshot) (request : ksd_frame)
    (prior : option ksd_window_record) (child : bool) (lease : authority_lease) (result : ksd_operation_result)
    : option (answer * authority_session * authority_lease * Z * list access) :=
  let* r := session_refresh (fw_sends (ow_after w)) (fw_store (ow_after w)) (fw_verified (ow_after w)) true true lease in
  let '(ok, session, lease, changed, _) := r in
  let valid := ok && ((scope =? 0) || (negb changed && (se_generation session =? before)
                                       && scope_held (se_granted_scopes session) scope))
               && backend_snapshot_current (ow_current w) snapshot in
  if negb valid then Some (invalidated scope, session, lease, sequence, [])
  else if (res_status result =? KSD_STATUS_OK) && ksd_state_mutates_windows (fr_opcode request) then
    let* r := acknowledge w (se_identity session) gid snapshot request prior child (ow_others w 3 lease) in
    let '(observed, sequence, lease, log) := r in
    if observed : bool then Some (deliver_result result, session, lease, sequence, log)
    else
      let lease := ow_others w 4 lease in
      Some (if lease_active lease && scope_held (lease_granted_scopes lease) scope
            then deliver_result (timed_out_result result) else invalidated scope,
            session, lease, sequence, log)
  else Some (deliver_result result, session, lease, sequence, []).

(** What is given back at the end. *)
Definition give_back (identity : ksp_identity) (snapshot : backend_snapshot) (opcode : Z) : list access :=
  (if is_capture_operation opcode then [Release (CaptureMemory (id_uid identity) (id_pid identity))] else [])
  ++ (if uses_kwin_script (sn_backend snapshot) opcode then [Release (KwinSlot (id_pid identity))] else [])
  ++ [Release (SnapshotRelay (sn_relay snapshot))].

(** The whole of it, on a session of a role whose lease is found as [lease]. *)
Definition execute_operation (w : operation_world) (role gid backend sequence : Z) (session : authority_session)
    (lease : authority_lease) (request : ksd_frame) : option executed :=
  let opcode := fr_opcode request in
  let scope := ksd_operation_scope opcode in
  match request_refused role opcode with
  | Some a => Some (mk_executed (ow_sent w) (Some a) session backend lease sequence [])
  | None =>
    let* r := session_refresh (fw_sends (ow_refresh w)) (fw_store (ow_refresh w)) (fw_verified (ow_refresh w)) true true lease in
    let '(ok, session, lease, _, _) := r in
    if negb ok then Some (mk_executed false None session backend lease sequence [])
    else if negb (scope =? 0) && negb (scope_held (se_granted_scopes session) scope)
    then Some (mk_executed (ow_sent w) (Some (refuse KSD_STATUS_DENIED "required permission is not granted"))
                 session backend lease sequence [])
    else
      match admit_backend w role (se_identity session) backend opcode with
      | Refused a backend log => Some (mk_executed (ow_sent w) (Some a) session backend lease sequence log)
      | AdmittedTo snapshot log =>
        let identity := se_identity session in
        let lease := ow_others w 1 lease in
        let '(prior, child, log1) := prior_window w lease identity gid snapshot request in
        let '(result, log2) := run_operation w gid identity snapshot opcode in
        let* r := conclude w gid scope (se_generation session) sequence snapshot request prior child
                    (ow_others w 2 lease) result in
        let '(a, session, lease, sequence, log3) := r in
        Some (mk_executed (ow_sent w) (Some a) session (sn_backend snapshot) lease sequence
                (log ++ log1 ++ log2 ++ log3 ++ give_back identity snapshot opcode))
      end
  end.
End operation.

(** ** Resources *)

(** What a route needs to be held while it runs. *)
Definition holds_slot (held : list resource) : bool := existsb (fun r => match r with KwinSlot _ => true | _ => false end) held.
Definition holds_memory (held : list resource) : bool :=
  existsb (fun r => match r with CaptureMemory _ _ => true | _ => false end) held.
Definition holds_snapshot (held : list resource) : bool :=
  existsb (fun r => match r with SnapshotRelay _ => true | _ => false end) held.
Definition route_held (opcode : Z) (held : list resource) (by_route : route) : bool :=
  holds_snapshot held
  && match by_route with
     | RouteScript p => bool_decide (SnapshotRelay (Some p) ∈ held) && holds_slot held
     | RouteWorker p => bool_decide (DisplayReference p ∈ held) && implb (is_capture_operation opcode) (holds_memory held)
     | RouteCapture => holds_memory held
     | RouteProvider => true
     | RouteObserve p => bool_decide (DisplayReference p ∈ held)
     end.

(** The first of equal resources is given back. *)
Fixpoint take_out (r : resource) (held : list resource) : option (list resource) :=
  match held with
  | [] => None
  | x :: held => if decide (x = r) then Some held else option_map (cons x) (take_out r held)
  end.

(** The resources held after a log, [None] when something is released, forgotten
    or run through that is not held. *)
Fixpoint hold (opcode : Z) (held : list resource) (log : list access) : option (list resource) :=
  match log with
  | [] => Some held
  | Acquire r :: log => hold opcode (r :: held) log
  | Release r :: log => let* held := take_out r held in hold opcode held log
  | Ran by_route :: log => guard* route_held opcode held by_route in hold opcode held log
  | Forgot p :: log => guard* bool_decide (DisplayReference p ∈ held) in hold opcode held log
  end.

Lemma hold_app opcode log1 log2 : forall held,
  hold opcode held (log1 ++ log2) = hold opcode held log1 ≫= fun held => hold opcode held log2.
Proof.
  induction log1 as [|[r|r|r|p] log1 IH]; intros held; cbn; [done|by rewrite IH| | |].
  - destruct (take_out r held); cbn; [by rewrite IH|done].
  - destruct (route_held opcode held r); cbn; [by rewrite IH|done].
  - case_bool_decide; cbn; [by rewrite IH|done].
Qed.

Lemma take_out_head (r : resource) held : take_out r (r :: held) = Some held.
Proof. cbn. by destruct (decide (r = r)). Qed.

Lemma decide_head (r : resource) held : bool_decide (r ∈ r :: held) = true.
Proof. apply bool_decide_eq_true_2. by left. Qed.

Lemma observe_hold {AL : Allocator} w identity gid snapshot result opcode held :
  holds_snapshot held = true -> hold opcode held (snd (x11_observe_window w identity gid snapshot result)) = Some held.
Proof.
  intros Hs. unfold x11_observe_window. destruct (display_relay_for _ _ _ _ _ _) as [p|]; [|done].
  cbn [snd hold]. unfold route_held. rewrite decide_head. unfold holds_snapshot in *. cbn [existsb orb]. rewrite Hs.
  by rewrite take_out_head.
Qed.

Section proofs.
Context {AL : Allocator} {AT : AllocTotal AL} {S : Type} {PS : PermissionStore S}.
Implicit Types w : operation_world (S := S).

Lemma prior_hold w lease identity gid snapshot request opcode held :
  holds_snapshot held = true ->
  hold opcode held (snd (prior_window w lease identity gid snapshot request)) = Some held.
Proof.
  intros Hs. unfold prior_window. destruct (_ || _); [done|].
  destruct (window_slot _ _ ≫= _); [done|]. destruct (_ =? _); [|done].
  pose proof (observe_hold (ow_observe w) identity gid snapshot (ow_observed w) opcode held Hs) as H.
  destruct (x11_observe_window _ _ _ _ _) as [[? found] log]. by destruct found as [[??]|].
Qed.

(** What an admitted operation holds. *)
Definition admitted_holds (identity : ksp_identity) (snapshot : backend_snapshot) (opcode : Z) : list resource :=
  (if uses_kwin_script (sn_backend snapshot) opcode then [KwinSlot (id_pid identity)]
   else if is_capture_operation opcode then [CaptureMemory (id_uid identity) (id_pid identity)] else [])
  ++ [SnapshotRelay (sn_relay snapshot)].

Lemma admitted_snapshot identity snapshot opcode : holds_snapshot (admitted_holds identity snapshot opcode) = true.
Proof.
  unfold admitted_holds, holds_snapshot. rewrite existsb_app. cbn [existsb]. by rewrite orb_true_r.
Qed.

Lemma run_hold w gid identity snapshot opcode :
  hold opcode (admitted_holds identity snapshot opcode) (snd (run_operation w gid identity snapshot opcode))
  = Some (admitted_holds identity snapshot opcode).
Proof.
  pose proof (admitted_snapshot identity snapshot opcode) as Hs. unfold run_operation.
  set (held := admitted_holds _ _ _) in *.
  destruct (uses_kwin_script (sn_backend snapshot) opcode) eqn:Ek.
  - destruct (sn_relay snapshot) as [p|] eqn:Er; [|done]. cbn [snd hold]. unfold route_held. rewrite Hs.
    unfold held, admitted_holds. rewrite Ek, Er. cbn. rewrite bool_decide_eq_true_2; [done|right; by left].
  - destruct (_ || _ || _ || _).
    + assert (Hm : implb (is_capture_operation opcode) (holds_memory held) = true).
      { unfold held, admitted_holds. rewrite Ek. by destruct (is_capture_operation opcode). }
      match goal with |- context [match ?d with Some _ => _ | None => _ end] => destruct d as [p|] end.
      * cbn [snd app hold]. unfold route_held at 1. rewrite decide_head.
        unfold holds_snapshot, holds_memory in *. cbn [existsb orb]. rewrite Hs, Hm. cbn [andb].
        destruct (ow_gone w); cbn [app hold]; rewrite ?decide_head; by rewrite take_out_head.
      * destruct (_ && _) eqn:Ec; [|done]. cbn [snd hold]. unfold route_held. rewrite Hs. cbn [andb].
        apply andb_true_iff in Ec as [Eb Ekb]. unfold uses_kwin_script in Ek. rewrite Eb, Ekb, andb_true_r in Ek.
        cbn [andb] in Ek. apply negb_false_iff in Ek. rewrite Ek in Hm. cbn in Hm. by rewrite Hm.
    + destruct (backend_snapshot_provider_valid _ _); [|done]. cbn [snd hold]. unfold route_held. by rewrite Hs.
Qed.

Lemma give_back_hold identity snapshot opcode :
  hold opcode (admitted_holds identity snapshot opcode) (give_back identity snapshot opcode) = Some [].
Proof.
  unfold admitted_holds, give_back. destruct (uses_kwin_script (sn_backend snapshot) opcode) eqn:Ek.
  - assert (is_capture_operation opcode = false) as ->.
    { unfold uses_kwin_script in Ek. by destruct (is_capture_operation opcode), (sn_backend snapshot =? _). }
    cbn [app hold]. rewrite take_out_head. cbn [from_option hold]. by rewrite take_out_head.
  - destruct (is_capture_operation opcode); cbn [app hold]; rewrite take_out_head; [|done]. cbn [from_option hold].
    by rewrite take_out_head.
Qed.

Lemma acknowledge_hold w identity gid snapshot request prior child lease r log opcode held :
  holds_snapshot held = true ->
  acknowledge w identity gid snapshot request prior child lease = Some (r, log) -> hold opcode held log = Some held.
Proof.
  intros Hs. unfold acknowledge. destruct child.
  - pose proof (observe_hold (ow_child w) identity gid snapshot (ow_child_observed w) opcode held Hs) as H.
    destruct (x11_observe_window _ _ _ _ _) as [[? found] l]. by intros [= <- <-].
  - destruct (operation_sync _ _ _ _ _ _ _) as [[[ok n] l]|]; [|done]. by intros [= <- <-].
Qed.

Lemma conclude_hold w gid scope before sequence snapshot request prior child lease result r log opcode held :
  holds_snapshot held = true ->
  conclude w gid scope before sequence snapshot request prior child lease result = Some (r, log) ->
  hold opcode held log = Some held.
Proof.
  intros Hs. unfold conclude. destruct (session_refresh _ _ _ _ _ _) as [[[[[ok s] l] ch] out]|]; [|done].
  cbn [from_option]. destruct (negb _); [by intros [= <- <-]|]. destruct (_ && _); [|by intros [= <- <-]].
  destruct (acknowledge _ _ _ _ _ _ _ _) as [[[[observed n] l'] log']|] eqn:Ea; [|done]. cbn [from_option].
  pose proof (acknowledge_hold _ _ _ _ _ _ _ _ _ _ opcode held Hs Ea) as Hh.
  destruct observed; by intros [= <- <-].
Qed.

(** *** What admits an operation *)

Definition admitted (w : operation_world (S := S)) (role : Z) (identity : ksp_identity) (opcode : Z) (snapshot : backend_snapshot)
    : Prop :=
  (exists state, take_backend_snapshot (ow_take w) (id_uid identity) = Some (snapshot, state)) /\
  backend_snapshot_valid (ow_valid w) (ow_verified w) snapshot = true /\
  Z.land (ksd_backend_reported_operations (sn_backend snapshot) true (sn_advertised snapshot)) (ksd_operation_bit opcode) <> 0 /\
  role = KSD_ROLE_RPC.

(** Whether a log has the client's operation or a query run. *)
Definition runs (log : list access) : bool := existsb (fun a => match a with Ran _ => true | _ => false end) log.

Lemma runs_app log1 log2 : runs (log1 ++ log2) = runs log1 || runs log2.
Proof. apply existsb_app. Qed.

Lemma give_back_runs identity snapshot opcode : runs (give_back identity snapshot opcode) = false.
Proof. unfold give_back. rewrite !runs_app. by destruct (is_capture_operation opcode), (uses_kwin_script _ opcode). Qed.

Definition error_answer (a : answer) : Prop :=
  match a with AnswerReply r => rp_status r <> KSD_STATUS_OK /\ rp_tail r = [] | AnswerCapture _ _ _ => False end.

Lemma admit_spec w role identity backend opcode :
  match admit_backend w role identity backend opcode with
  | Refused a _ log => hold opcode [] log = Some [] /\ runs log = false /\ error_answer a
  | AdmittedTo snapshot log =>
    admitted w role identity opcode snapshot /\ hold opcode [] log = Some (admitted_holds identity snapshot opcode) /\
    runs log = false
  end.
Proof.
  unfold admit_backend. destruct (take_backend_snapshot _ _) as [[snapshot state]|] eqn:Et; [|done].
  assert (Hr : hold opcode [] [Acquire (SnapshotRelay (sn_relay snapshot)); Release (SnapshotRelay (sn_relay snapshot))] = Some []).
  { cbn [hold]. rewrite take_out_head. reflexivity. }
  destruct (backend_snapshot_valid _ _ _) eqn:Ev; cbn [negb]; [|done].
  destruct (Z.eqb_spec (Z.land (ksd_backend_reported_operations (sn_backend snapshot) true (sn_advertised snapshot))
    (ksd_operation_bit opcode)) 0) as [|Ha]; [done|].
  destruct (_ || _); [done|]. destruct (Z.eqb_spec role KSD_ROLE_RPC) as [Hrpc|]; [|done]. cbn [negb].
  assert (Hadm : admitted w role identity opcode snapshot) by (split; [by exists state|done]).
  unfold admitted_holds. destruct (uses_kwin_script _ _) eqn:Ek.
  - destruct (reserve_kwin_slot _ _); [|done]. split; [exact Hadm|]. by rewrite Ek.
  - destruct (is_capture_operation opcode) eqn:Ec.
    + destruct (reserve_capture_memory _ _ _); [|done]. split; [exact Hadm|]. by rewrite Ek.
    + split; [exact Hadm|]. by rewrite Ek.
Qed.

(** *** What a run gives *)

Lemma error_result_failed status text :
  status <> KSD_STATUS_OK -> res_status (error_result status text) = status /\ res_payload_fd (error_result status text) = -1.
Proof. done. Qed.

Definition succeeded (a : answer) : Prop :=
  match a with AnswerReply r => rp_status r = KSD_STATUS_OK | AnswerCapture _ _ _ => True end.

Lemma invalidated_failed scope : ~ succeeded (invalidated scope).
Proof. unfold invalidated. by destruct (scope =? 0). Qed.

Lemma unacknowledged_failed (alive : bool) result scope :
  ~ succeeded (if alive then deliver_result (timed_out_result result) else invalidated scope).
Proof. destruct alive; [done|apply invalidated_failed]. Qed.

Lemma deliver_succeeded result :
  succeeded (deliver_result result) -> res_status result = KSD_STATUS_OK \/ 0 <= res_payload_fd result.
Proof. unfold deliver_result. destruct (Z.leb_spec 0 (res_payload_fd result)); cbn; auto. Qed.

Lemma run_operation_spec w gid identity snapshot opcode result log :
  run_operation w gid identity snapshot opcode = (result, log) ->
  (log = [] /\ ~ succeeded (deliver_result result)) \/
  (runs log = true /\ exists by_route, Ran by_route ∈ log /\ result = ow_run w by_route).
Proof.
  unfold run_operation. destruct (uses_kwin_script _ _).
  - destruct (sn_relay snapshot) as [p|]; intros [= <- <-]; [right|by left]. split; [done|]. exists (RouteScript p). split; [by left|done].
  - destruct (_ || _ || _ || _).
    + match goal with |- context [match ?d with Some _ => _ | None => _ end] => destruct d as [p|] end.
      * intros [= <- <-]. right. split; [done|]. exists (RouteWorker p). split; [by right; left|done].
      * destruct (_ && _); intros [= <- <-]; [right|by left]. split; [done|]. exists RouteCapture. split; [by left|done].
    + destruct (backend_snapshot_provider_valid _ _); intros [= <- <-]; [right|by left]. split; [done|].
      exists RouteProvider. split; [by left|done].
Qed.

(** *** What is concluded *)

(** The permission still holds after the run, on the same generation. *)
Definition still_permitted (before after : authority_session) (scope : Z) : Prop :=
  scope <> 0 -> se_generation after = se_generation before /\ scope_held (se_granted_scopes after) scope = true.

Definition acknowledged (w : operation_world (S := S)) (gid : Z) (snapshot : backend_snapshot) (request : ksd_frame)
    (prior : option ksd_window_record) (child : bool) (session : authority_session) (lease lease' : authority_lease) (n : Z)
    : Prop :=
  exists log, acknowledge w (se_identity session) gid snapshot request prior child (ow_others w 3 lease) = Some (true, n, lease', log).

Lemma conclude_spec w gid before sequence snapshot request prior child lease result a session' lease' n log
    (scope := ksd_operation_scope (fr_opcode request)) :
  conclude w gid scope (se_generation before) sequence snapshot request prior child lease result
    = Some (a, session', lease', n, log) ->
  succeeded a ->
  a = deliver_result result /\
  exists l, refreshed (fw_store (ow_after w)) (fw_verified (ow_after w)) true true true lease l session' /\
    still_permitted before session' scope /\ backend_snapshot_current (ow_current w) snapshot = true /\
    (if ksd_state_mutates_windows (fr_opcode request) && (res_status result =? KSD_STATUS_OK)
     then acknowledged w gid snapshot request prior child session' l lease' n else n = sequence /\ lease' = l).
Proof.
  unfold conclude. destruct (session_refresh _ _ _ _ _ _) as [[[[[ok s] l] ch] out]|] eqn:Er; [|done].
  cbn [from_option]. apply session_refresh_spec in Er.
  destruct (ok && _ && _) eqn:Ev; cbn [negb].
  2:{ intros [= <- _ _ _ _] H. by apply invalidated_failed in H. }
  apply andb_true_iff in Ev as [Ev Hcur]. apply andb_true_iff in Ev as [-> Hsc].
  assert (Hp : still_permitted before s scope).
  { intros Hne. rewrite (proj2 (Z.eqb_neq _ _) Hne) in Hsc. cbn [orb] in Hsc.
    apply andb_true_iff in Hsc as [Hsc Hs]. apply andb_true_iff in Hsc as [_ Hg%Z.eqb_eq]. by split. }
  rewrite (andb_comm (ksd_state_mutates_windows _)).
  destruct ((res_status result =? KSD_STATUS_OK) && ksd_state_mutates_windows _) eqn:Em.
  - destruct (acknowledge _ _ _ _ _ _ _ _) as [[[[observed k] l2] log']|] eqn:Ea; [|done]. cbn [from_option].
    destruct observed.
    + intros [= <- <- <- <- <-] _. split; [done|]. exists l. split; [done|]. split; [done|]. split; [done|].
      exists log'. done.
    + intros [= <- _ _ _ _] H. by apply unacknowledged_failed in H.
  - intros [= <- <- <- <- <-] _. split; [done|]. exists l. done.
Qed.

Lemma error_not_succeeded a : error_answer a -> ~ succeeded a.
Proof. destruct a as [r|]; [|done]. by intros [H _]. Qed.

Lemma request_refused_error role opcode a : request_refused role opcode = Some a -> ~ succeeded a.
Proof. unfold request_refused. repeat case_match; by intros [= <-]. Qed.

(** C15: No path leaks.  Whatever happens, every snapshot, slot, memory budget and
    worker reference an operation takes is given back by the time it is over, and
    nothing is given back that was not taken; and while a route runs, the
    operation holds the backend it was checked against, the relay the route goes
    through, a slot of the consumer for the KWin script, and memory for a capture. *)
Theorem operation_resources w role gid backend sequence session lease request ex :
  execute_operation w role gid backend sequence session lease request = Some ex ->
  hold (fr_opcode request) [] (ex_log ex) = Some [].
Proof.
  unfold execute_operation. destruct (request_refused role _); [by intros [= <-]|].
  destruct (session_refresh _ _ _ _ _ _) as [[[[[ok s] l] ch] out]|]; [|done]. cbn [from_option].
  destruct (negb ok); [by intros [= <-]|]. destruct (_ && _); [by intros [= <-]|].
  pose proof (admit_spec w role (se_identity s) backend (fr_opcode request)) as Ha.
  destruct (admit_backend _ _ _ _ _) as [a b log|snapshot log]; [intros [= <-]; apply Ha|].
  destruct Ha as (_ & Hh & _).
  pose proof (admitted_snapshot (se_identity s) snapshot (fr_opcode request)) as Hs.
  pose proof (prior_hold w (ow_others w 1 l) (se_identity s) gid snapshot request (fr_opcode request) _ Hs) as Hp.
  destruct (prior_window _ _ _ _ _ _) as [[prior child] log1]. cbn [snd] in Hp.
  pose proof (run_hold w gid (se_identity s) snapshot (fr_opcode request)) as Hr.
  destruct (run_operation _ _ _ _ _) as [result log2]. cbn [snd] in Hr.
  destruct (conclude _ _ _ _ _ _ _ _ _ _ _) as [[[[[a s'] l'] n] log3]|] eqn:Ec; [|done].
  eapply conclude_hold in Ec; [|exact Hs]. intros [= <-]. cbn [ex_log].
  rewrite !hold_app, Hh. cbn [mbind option_bind]. rewrite hold_app, Hp. cbn [mbind option_bind].
  rewrite hold_app, Hr. cbn [mbind option_bind]. rewrite hold_app, Ec. cbn [mbind option_bind].
  apply give_back_hold.
Qed.

(** C3: Nothing runs unchecked.  When anything is run for a client, the operation
    is one with an availability bit, the connection is an RPC one, the permission
    it needs was among those the store gave the application at a refresh just
    before, with the lease alive and the identity verified, and the user's session
    daemon is registered, verified, and serves the operation, which the backend
    can serve at all. *)
Theorem operation_run_gated w role gid backend sequence session lease request ex :
  execute_operation w role gid backend sequence session lease request = Some ex -> runs (ex_log ex) = true ->
  role = KSD_ROLE_RPC /\ ksd_operation_bit (fr_opcode request) <> 0 /\
  exists l s snapshot,
    refreshed (fw_store (ow_refresh w)) (fw_verified (ow_refresh w)) true true true lease l s /\
    scope_held (se_granted_scopes s) (ksd_operation_scope (fr_opcode request)) = true /\
    admitted w role (se_identity s) (fr_opcode request) snapshot.
Proof.
  unfold execute_operation. destruct (request_refused role _) eqn:Erq; [by intros [= <-]|].
  destruct (session_refresh _ _ _ _ _ _) as [[[[[ok s] l] ch] out]|] eqn:Er; [|done]. cbn [from_option].
  apply session_refresh_spec in Er. destruct ok; [|by intros [= <-]]. cbn [negb].
  destruct (negb _ && _) eqn:Esc; [by intros [= <-]|].
  pose proof (admit_spec w role (se_identity s) backend (fr_opcode request)) as Ha.
  destruct (admit_backend _ _ _ _ _) as [a b log|snapshot log].
  { intros [= <-]. destruct Ha as (_ & Hr & _). cbn [ex_log]. congruence. }
  destruct Ha as (Hadm & _). intros _ _.
  assert (Hs : scope_held (se_granted_scopes s) (ksd_operation_scope (fr_opcode request)) = true).
  { apply andb_false_iff in Esc as [E|E]; apply negb_false_iff in E; [|done]. apply Z.eqb_eq in E. rewrite E.
    unfold scope_held. by rewrite Z.land_0_r. }
  destruct Hadm as (Ht & Hv & Hb & Hrole). split; [done|]. split.
  { intros E. rewrite E, Z.land_0_r in Hb. done. }
  exists l, s, snapshot. split; [done|]. split; [done|]. by split.
Qed.

(** C4: A result is delivered only while it may be seen.  An answer of success is
    the one of a route that was run for this operation, and it is given after a
    second refresh from the store found the application's identity and lease
    alive, the permission still granted and no grant changed meanwhile, and the
    registration the operation was checked against still in place; a change of
    windows is besides acknowledged by the state the lease keeps or by the
    display worker, and the sequence is the one of this acknowledgement. *)
Theorem operation_result_fenced w role gid backend sequence session lease request ex a :
  execute_operation w role gid backend sequence session lease request = Some ex ->
  ex_answer ex = Some a -> succeeded a ->
  exists by_route l s snapshot l2,
    Ran by_route ∈ ex_log ex /\ a = deliver_result (ow_run w by_route) /\
    refreshed (fw_store (ow_refresh w)) (fw_verified (ow_refresh w)) true true true lease l s /\
    admitted w role (se_identity s) (fr_opcode request) snapshot /\
    refreshed (fw_store (ow_after w)) (fw_verified (ow_after w)) true true true (ow_others w 2 (ow_others w 1 l)) l2
      (ex_session ex) /\
    still_permitted s (ex_session ex) (ksd_operation_scope (fr_opcode request)) /\
    backend_snapshot_current (ow_current w) snapshot = true /\
    (ksd_state_mutates_windows (fr_opcode request) = true -> res_status (ow_run w by_route) = KSD_STATUS_OK ->
     exists prior child, acknowledged w gid snapshot request prior child (ex_session ex) l2 (ex_lease ex) (ex_sequence ex)).
Proof.
  unfold execute_operation. destruct (request_refused role _) eqn:Erq.
  { intros [= <-] [= <-] Hs. by apply request_refused_error in Erq. }
  destruct (session_refresh _ _ _ _ _ _) as [[[[[ok s] l] ch] out]|] eqn:Er; [|done]. cbn [from_option].
  apply session_refresh_spec in Er. destruct ok; [|by intros [= <-]]. cbn [negb].
  destruct (negb _ && _); [by intros [= <-] [= <-]|].
  pose proof (admit_spec w role (se_identity s) backend (fr_opcode request)) as Ha.
  destruct (admit_backend _ _ _ _ _) as [a' b log|snapshot log].
  { intros [= <-] [= <-] Hs. destruct Ha as (_ & _ & He). by apply error_not_succeeded in He. }
  destruct Ha as (Hadm & _). destruct (prior_window _ _ _ _ _ _) as [[prior child] log1].
  destruct (run_operation _ _ _ _ _) as [result log2] eqn:Erun. apply run_operation_spec in Erun.
  destruct (conclude _ _ _ _ _ _ _ _ _ _ _) as [[[[[a' s'] l'] n] log3]|] eqn:Ec; [|done]. cbn [from_option].
  intros [= <-] [= <-] Hs. cbn [ex_log ex_session ex_lease ex_sequence].
  apply conclude_spec in Ec as (-> & l2 & Hr2 & Hp & Hcur & Hack); [|done].
  destruct Erun as [[_ Hn]|(_ & r & Hr & ->)]; [done|]. exists r, l, s, snapshot, l2.
  split; [rewrite !elem_of_app; auto|]. split; [done|]. split; [done|]. split; [done|]. split; [done|].
  split; [done|]. split; [done|]. intros Hm Hok. rewrite Hm, Hok in Hack. by exists prior, child.
Qed.
End proofs.

(** ** Witnesses *)

#[local] Existing Instance infinite_memory.
#[local] Existing Instance sample_permissions.

(** A client under X11 renames a window the lease knows; its display worker is
    started for it, and answers. *)
Definition renaming_store : sample_store := mk_store 1 [(1000, [x01; x02], 15)].
Definition x11_registered : registry :=
  snd (register_backend initial_registry 20 1000 KSD_BACKEND_X11 sample_daemon None KSD_X11_OPERATIONS (-1) None).
Definition worker_started : display_world := mk_display_world x11_registered (Some 1) (with_relay x11_registered 1 30).
Definition renaming_refresh : refresh_world (S := sample_store) := mk_refresh_world renaming_store (Some sample_identity) [].
Definition renaming_world : operation_world (S := sample_store) :=
  mk_operation_world renaming_refresh x11_registered (Some sample_daemon) x11_registered initial_budgets initial_budgets
    (fun _ l => l) worker_started ksd_result_init None worker_started (fun _ => mk_result KSD_STATUS_OK 0 [] None 0 (-1)) false
    renaming_refresh x11_registered 1000 [] 1100 worker_started ksd_result_init true.
Definition renaming_session : authority_session := mk_session sample_identity 15 15 1.
Definition renamed : executed :=
  default (mk_executed false None renaming_session 0 control_lease 0 [])
    (execute_operation renaming_world KSD_ROLE_RPC 1000 0 0 renaming_session (fst control_run) sample_title_request).

Lemma operation_resources_witness :
  ex_log renamed = [Acquire (SnapshotRelay None); Acquire (DisplayReference 1); Ran (RouteWorker 1);
                    Release (DisplayReference 1); Release (SnapshotRelay None)] /\
  hold KSD_OP_WINDOW_SET_TITLE [] (ex_log renamed) = Some [].
Proof.
  split; [vm_compute; reflexivity|].
  apply (operation_resources renaming_world KSD_ROLE_RPC 1000 0 0 renaming_session (fst control_run) sample_title_request renamed).
  vm_compute. reflexivity.
Defined.

Lemma operation_run_gated_witness :
  exists l s snapshot,
    refreshed renaming_store (Some sample_identity) true true true (fst control_run) l s /\
    scope_held (se_granted_scopes s) KSD_SCOPE_WINDOW_CONTROL = true /\
    admitted renaming_world KSD_ROLE_RPC (se_identity s) KSD_OP_WINDOW_SET_TITLE snapshot.
Proof.
  apply (operation_run_gated renaming_world KSD_ROLE_RPC 1000 0 0 renaming_session (fst control_run) sample_title_request renamed).
  - vm_compute. reflexivity.
  - vm_compute. reflexivity.
Defined.

Lemma operation_result_fenced_witness :
  ex_sequence renamed = 1 /\
  exists by_route l s snapshot l2,
    Ran by_route ∈ ex_log renamed /\
    AnswerReply (mk_reply KSD_STATUS_OK 0 None []) = deliver_result (ow_run renaming_world by_route) /\
    refreshed renaming_store (Some sample_identity) true true true (fst control_run) l s /\
    admitted renaming_world KSD_ROLE_RPC (se_identity s) KSD_OP_WINDOW_SET_TITLE snapshot /\
    refreshed renaming_store (Some sample_identity) true true true l l2 (ex_session renamed) /\
    still_permitted s (ex_session renamed) KSD_SCOPE_WINDOW_CONTROL /\
    backend_snapshot_current x11_registered snapshot = true /\
    (ksd_state_mutates_windows KSD_OP_WINDOW_SET_TITLE = true -> res_status (ow_run renaming_world by_route) = KSD_STATUS_OK ->
     exists prior child, acknowledged renaming_world 1000 snapshot sample_title_request prior child (ex_session renamed) l2
       (ex_lease renamed) (ex_sequence renamed)).
Proof.
  split; [vm_compute; reflexivity|].
  apply (operation_result_fenced renaming_world KSD_ROLE_RPC 1000 0 0 renaming_session (fst control_run) sample_title_request
    renamed (AnswerReply (mk_reply KSD_STATUS_OK 0 None []))).
  - vm_compute. reflexivity.
  - vm_compute. reflexivity.
  - vm_compute. reflexivity.
Defined.
