(* ===== verification/Client.v ===== *)
(** * The connection of a client (src/client.c)

    A client has an RPC connection, and a lease connection on which events arrive
    among the responses.  Events met while a response is awaited are queued, within
    limits, and a descriptor the application polls tells that there are some; a
    reader that does not block keeps the part of a frame it has.  The kernel is a
    script of what each call answers, and the service the frames that arrive. *)
From Stdlib Require Import ZArith Lia Strings.Byte Strings.String.
From stdpp Require Import base list option numbers tactics.
From S2P Require Import Prelude.
From S2P Require Import Protocol.
From S2P Require Import Codec.
From S2P Require Import Buffer.
From S2P Require Import Transport.
From S2P Require Import Frame.
From S2P Require Import Assembly.
From S2P Require Import Operations.
From S2P Require Import StateWire.
From S2P Require Import Response.
Local Open Scope Z_scope.
Local Open Scope ksd_scope.

Definition KSD_CLIENT_MAX_RESPONSE : Z := KSD_MAX_CAPTURE_BYTES + 64.
Definition KSD_CLIENT_MAX_EVENTS : Z := 256.
Definition KSD_CLIENT_MAX_EVENT_BYTES : Z := 16 * 1024 * 1024.

(** Linux's error numbers. *)
Definition EINTR : Z := 4.
Definition EIO : Z := 5.
Definition EAGAIN : Z := 11.
Definition ENOMEM : Z := 12.
Definition EINVAL : Z := 22.
Definition EPROTO : Z := 71.
Definition ECONNRESET : Z := 104.
Definition ENOBUFS : Z := 105.
Definition ENOTCONN : Z := 107.
Definition ETIMEDOUT : Z := 110.

(** [ksd_status_for_system_error] (src/client_status.h); EWOULDBLOCK is EAGAIN. *)
Definition ksd_status_for_system_error (system_error : Z) : Z :=
  if (system_error =? ETIMEDOUT) || (system_error =? EAGAIN) then KSD_STATUS_TIMEOUT else KSD_STATUS_UNAVAILABLE.

(** [cn_open] is whether there is a descriptor, [cn_pending] the counter of the
    eventfd behind the descriptor the application polls. *)
Record ksd_connection := mk_connection {
  cn_open : bool;
  cn_next_request_id : Z;
  cn_role : Z;
  cn_granted_scopes : Z;
  cn_available_operations : Z;
  cn_backend : Z;
  cn_timeout_ms : Z;
  cn_lease_id : Z;
  cn_sequence : Z;
  cn_input : ksd_buffer;
  cn_events : list ksd_frame;
  cn_queued_bytes : Z;
  cn_queued_count : Z;
  cn_pending : Z;
}.

Definition with_open (c : ksd_connection) (open : bool) (pending : Z) : ksd_connection :=
  mk_connection open (cn_next_request_id c) (cn_role c) (cn_granted_scopes c) (cn_available_operations c) (cn_backend c)
    (cn_timeout_ms c) (cn_lease_id c) (cn_sequence c) (cn_input c) (cn_events c) (cn_queued_bytes c) (cn_queued_count c) pending.
Definition with_granted (c : ksd_connection) (granted : Z) : ksd_connection :=
  mk_connection (cn_open c) (cn_next_request_id c) (cn_role c) granted (cn_available_operations c) (cn_backend c)
    (cn_timeout_ms c) (cn_lease_id c) (cn_sequence c) (cn_input c) (cn_events c) (cn_queued_bytes c) (cn_queued_count c)
    (cn_pending c).
Definition with_queue (c : ksd_connection) (events : list ksd_frame) (bytes count pending : Z) : ksd_connection :=
  mk_connection (cn_open c) (cn_next_request_id c) (cn_role c) (cn_granted_scopes c) (cn_available_operations c)
    (cn_backend c) (cn_timeout_ms c) (cn_lease_id c) (cn_sequence c) (cn_input c) events bytes count pending.
Definition with_input (c : ksd_connection) (input : ksd_buffer) : ksd_connection :=
  mk_connection (cn_open c) (cn_next_request_id c) (cn_role c) (cn_granted_scopes c) (cn_available_operations c)
    (cn_backend c) (cn_timeout_ms c) (cn_lease_id c) (cn_sequence c) input (cn_events c) (cn_queued_bytes c)
    (cn_queued_count c) (cn_pending c).
Definition with_ids (c : ksd_connection) (next_request_id sequence : Z) : ksd_connection :=
  mk_connection (cn_open c) next_request_id (cn_role c) (cn_granted_scopes c) (cn_available_operations c)
    (cn_backend c) (cn_timeout_ms c) (cn_lease_id c) sequence (cn_input c) (cn_events c) (cn_queued_bytes c)
    (cn_queued_count c) (cn_pending c).

(** ** Events waiting *)

(** An eventfd holds at most 2^64 - 2, and a write that would exceed it fails. *)
Definition signal_pending (c : ksd_connection) : ksd_connection :=
  with_open c (cn_open c) (if cn_pending c <? UINT64_MAX - 1 then cn_pending c + 1 else cn_pending c).

(** The size of a queue item. *)
Definition QUEUED_EVENT_SIZE : Z := 40.

Section client.
Context {AL : Allocator}.

(** The errno of a refusal; the connection keeps what was learnt before. *)
Definition queue_event (c : ksd_connection) (frame : ksd_frame) : option Z * ksd_connection :=
  if (KSD_CLIENT_MAX_EVENTS <=? cn_queued_count c)
     || (KSD_CLIENT_MAX_EVENT_BYTES - cn_queued_bytes c <? fr_payload_length frame)
  then (Some ENOBUFS, c)
  else
    match ksd_state_event_decode (default [] (fr_payload frame)) with
    | None => (Some EPROTO, c)
    | Some event =>
      let c := if ev_domain event =? KSD_STATE_GRANTS then with_granted c (ev_granted_scopes event) else c in
      if negb (alloc_ok QUEUED_EVENT_SIZE) then (Some ENOMEM, c)
      else
        (None, signal_pending (with_queue c (cn_events c ++ [frame]) (cn_queued_bytes c + fr_payload_length frame)
                                 (cn_queued_count c + 1) (cn_pending c)))
    end.
End client.

(** Reading the eventfd empties it. *)
Definition take_event (c : ksd_connection) : option (ksd_frame * ksd_connection) :=
  match cn_events c with
  | [] => None
  | frame :: events =>
    let pending := match events with [] => if cn_open c then 0 else cn_pending c | _ => cn_pending c end in
    Some (frame, with_queue c events (cn_queued_bytes c - fr_payload_length frame) (cn_queued_count c - 1) pending)
  end.

(** ** Failures *)

Definition incompatible : list byte :=
  cstr "keysharp-desktop requires protocol 3.0 and client ABI 1.0; incompatible or invalid service data".

(** The status, the error, and the connection, closed if it was not. *)
Definition system_failure (c : ksd_connection) (errno : Z) (message : list byte) : Z * ksd_error * ksd_connection :=
  let saved := if errno =? 0 then EIO else errno in
  let c := if cn_open c then signal_pending (with_open c false (cn_pending c)) else c in
  (ksd_status_for_system_error saved, set_error 0 saved (Some (if saved =? EPROTO then incompatible else message)), c).

Definition invalid_argument (message : list byte) : Z * ksd_error :=
  (KSD_STATUS_INVALID_REQUEST, set_error 0 EINVAL (Some message)).

(** ** The reader that keeps a partial frame *)

Definition client_rules : frame_rules :=
  mk_rules ksd_public_magic KSD_PROTOCOL_MAJOR KSD_PROTOCOL_MINOR KSD_CLIENT_MAX_RESPONSE true.

(** What [recv] answers: up to [n] bytes, an interruption, nothing yet, the end of
    the stream, an error. *)
Inductive recv_outcome := RecvBytes (n : positive) | RecvIntr | RecvAgain | RecvEof | RecvError (errno : Z).

Inductive receive_result := Received (frame : ksd_frame) | NotYet | ReceiveFailed (errno : Z).

Section reader.
Context {AL : Allocator}.

(** What the bytes so far come to: a result, or the number of bytes to have next. *)
Definition receive_ready (input : ksd_buffer) : (receive_result * ksd_buffer) + Z :=
  if KSD_FRAME_HEADER_SIZE <=? buf_length input then
    let length := ksd_decode_u32 (zdrop KSD_FRAME_PAYLOAD_LENGTH_OFFSET (buf_bytes input)) in
    if KSD_CLIENT_MAX_RESPONSE <? length then inl (ReceiveFailed EPROTO, input)
    else if buf_length input =? KSD_FRAME_HEADER_SIZE + length then
      let cleared := mk_buffer [] (buf_capacity input) (buf_maximum input) in
      match ksd_frame_unpack client_rules (buf_bytes input) with
      | None => inl (ReceiveFailed EPROTO, cleared)
      | Some frame => inl (Received frame, cleared)
      end
    else inr (KSD_FRAME_HEADER_SIZE + length)
  else inr KSD_FRAME_HEADER_SIZE.

(** The loop over the calls; [stream] is what has arrived at the socket.  A call
    that would give bytes from an empty socket finds nothing. *)
Fixpoint receive_event_frame (calls : list recv_outcome) (stream : list byte) (input : ksd_buffer)
    : option (receive_result * list byte * ksd_buffer) :=
  match receive_ready input with
  | inl (r, input) => Some (r, stream, input)
  | inr needed =>
    match calls with
    | [] => None
    | call :: calls =>
      let amount := Z.min (needed - buf_length input) 8192 in
      match call with
      | RecvBytes n =>
        let count := Z.min (Z.min (Zpos n) amount) (zlen stream) in
        if count =? 0 then Some (NotYet, stream, input)
        else
          let '(ok, input) := ksd_buffer_bytes (Some (ztake count stream)) count input in
          if ok : bool then receive_event_frame calls (zdrop count stream) input
          else Some (ReceiveFailed ENOMEM, zdrop count stream, input)
      | RecvIntr => receive_event_frame calls stream input
      | RecvAgain => Some (NotYet, stream, input)
      | RecvEof => Some (ReceiveFailed ECONNRESET, stream, input)
      | RecvError errno => Some (ReceiveFailed errno, stream, input)
      end
    end
  end.

(** The errno a failed wait leaves, from the one before it: [poll] sets it when it
    fails, but not when it reports an error on the descriptor.  EIO stands for
    whatever [poll] fails with. *)
Fixpoint wait_errno (waits : list wait_step) (errno : Z) : Z :=
  match waits with
  | [] => errno
  | step :: waits =>
    match ws_poll step with
    | PollIntr => wait_errno waits EINTR
    | PollFailed => EIO
    | _ => errno
    end
  end.

(** Waiting in between, until a deadline. *)
Fixpoint receive_stream_response (deadline : Z) (turns : list (list recv_outcome * list wait_step)) (stream : list byte)
    (input : ksd_buffer) : option (receive_result * list byte * ksd_buffer) :=
  match turns with
  | [] => None
  | (calls, waits) :: turns =>
    let* (r, stream, input) := receive_event_frame calls stream input in
    match r with
    | NotYet =>
      match ksd_wait_until POLLIN deadline waits with
      | None => None
      | Some WaitOk => receive_stream_response deadline turns stream input
      | Some WaitTimeout => Some (ReceiveFailed ETIMEDOUT, stream, input)
      | Some WaitFailed => Some (ReceiveFailed (wait_errno waits EAGAIN), stream, input)
      end
    | _ => Some (r, stream, input)
    end
  end.
End reader.

(** ** Requests *)

Definition next_request_id (c : ksd_connection) : Z * ksd_connection :=
  let id := u64 (cn_next_request_id c + 1) in
  let id := if id =? 0 then u64 (id + 1) else id in
  (id, with_ids c id (cn_sequence c)).

(** What each turn of the wait for a response finds: the time is up; on an RPC
    connection, reading failed or gave a frame, perhaps with a descriptor; on a
    lease connection, what the calls of the reader and the waits in between do,
    with the bytes at the socket.  Those it leaves there come first in the next. *)
Inductive arrival :=
| ArrivalLate (errno : Z)
| ArrivalFailed (errno : Z)
| Arrived (frame : ksd_frame) (fd : Z)
| ArrivedStream (turns : list (list recv_outcome * list wait_step)) (bytes : list byte).

(** A failure of a call, or the response, its frame and the descriptor that came
    with it. *)
Record answered := mk_answered {
  aw_status : Z;
  aw_response : option (ksd_client_response * ksd_frame * Z);
  aw_error : ksd_error;
  aw_connection : ksd_connection;
  aw_closed : list Z;
}.

Definition close_fd (fd : Z) : list Z := if 0 <=? fd then [fd] else [].

Definition full_queue : list byte :=
  cstr "desktop event queue exceeded 256 records or 16 MiB; reconnect and resnapshot".

Section requests.
Context {AL : Allocator}.

(** An event met on the way: the errno that ends the connection, or how it goes on. *)
Definition response_event (c : ksd_connection) (frame : ksd_frame) : option Z * ksd_connection :=
  if fr_opcode frame =? KSD_OP_STATE_EVENT then queue_event c frame
  else match apply_revoked_event (cn_granted_scopes c) frame with
       | Some (granted, _) => (None, with_granted c granted)
       | None => (Some EPROTO, c)
       end.

Definition fail_with (c : ksd_connection) (errno : Z) (message : list byte) (closed : list Z) : answered :=
  let '(status, error, c) := system_failure c errno message in mk_answered status None error c closed.

(** One frame, by the reader for the role: what it comes to, the descriptor, and
    the bytes kept of the next frame. *)
Definition receive_response (deadline role : Z) (x : arrival) (input : ksd_buffer)
    : option (receive_result * Z * ksd_buffer) :=
  if role =? KSD_ROLE_RPC then
    match x with
    | Arrived frame fd => Some (Received frame, fd, input)
    | ArrivalFailed errno => Some (ReceiveFailed errno, -1, input)
    | _ => None
    end
  else
    match x with
    | ArrivedStream turns bytes =>
      let* (received, stream, input) := receive_stream_response deadline turns bytes input in Some (received, -1, input)
    | _ => None
    end.

Definition arrival_late (x : arrival) : option Z := match x with ArrivalLate errno => Some errno | _ => None end.
(** The connection reads exactly [f] next, and keeps [input]. *)
Definition brings (deadline : Z) (c : ksd_connection) (x : arrival) (f : ksd_frame) (input : ksd_buffer) : Prop :=
  arrival_late x = None /\ receive_response deadline (cn_role c) x (cn_input c) = Some (Received f, -1, input).

Fixpoint read_response (deadline opcode request_id : Z) (arrivals : list arrival) (c : ksd_connection) : option answered :=
  match arrivals with
  | [] => None
  | x :: arrivals =>
    match arrival_late x with
    | Some errno => Some (fail_with c errno (cstr "desktop service response timed out") [])
    | None =>
      let* (received, fd, input) := receive_response deadline (cn_role c) x (cn_input c) in
      let c := with_input c input in
      match received with
      | NotYet => Some (fail_with c EAGAIN (cstr "desktop service response failed") [])
      | ReceiveFailed errno => Some (fail_with c errno (cstr "desktop service response failed") [])
      | Received frame =>
        if negb (Z.land (fr_flags frame) KSD_FLAG_EVENT =? 0) then
          match response_event c frame with
          | (Some errno, c) =>
            let errno := if errno =? ENOBUFS then errno else EPROTO in
            Some (fail_with c errno (if errno =? ENOBUFS then full_queue else cstr "desktop service sent an invalid event")
                    (close_fd fd))
          | (None, c) =>
            let* a := read_response deadline opcode request_id arrivals c in
            Some (mk_answered (aw_status a) (aw_response a) (aw_error a) (aw_connection a) (close_fd fd ++ aw_closed a))
          end
        else
          match take_response frame opcode request_id (cn_sequence c) with
          | None => Some (fail_with c EPROTO (cstr "desktop service sent an invalid response") (close_fd fd))
          | Some (response, error, sequence) =>
            Some (mk_answered (rs_status response) (Some (response, frame, fd)) error (with_ids c (cn_next_request_id c) sequence) [])
          end
      end
    end
  end.

(** The frames written and the answer; [now] is the clock at the start; [late] and
    [unwritten] are the errno when the time is up, or the frames could not be
    written. *)
Definition request (c : ksd_connection) (opcode : Z) (payload : option (list byte)) (payload_length now : Z)
    (late unwritten : option Z) (arrivals : list arrival) : option (list ksd_frame * answered) :=
  let '(request_id, c) := next_request_id c in
  if negb (cn_open c) then Some ([], fail_with c ENOTCONN (cstr "desktop service connection is closed") [])
  else if (now =? 0) || (UINT64_MAX - cn_timeout_ms c <? now)
  then Some ([], fail_with c EIO (cstr "desktop request clock failed") [])
  else
    match late, write_request opcode request_id payload_length payload, unwritten with
    | Some errno, _, _ => Some ([], fail_with c errno (cstr "desktop service request timed out") [])
    | None, None, _ => Some ([], fail_with c EINVAL (cstr "desktop service request failed") [])
    | None, Some frames, Some errno => Some (frames, fail_with c errno (cstr "desktop service request failed") [])
    | None, Some frames, None => let* a := read_response (now + cn_timeout_ms c) opcode request_id arrivals c in Some (frames, a)
    end.

(** ** Events, one at a time *)

(** One turn of the wait: the calls of the reader, the clock after them, the
    waiting. *)
Record event_turn := mk_event_turn { et_calls : list recv_outcome; et_now : Z; et_wait : list wait_step }.

(** The frame waited for, [None] for one of the failures, which are a timeout or
    end the connection. *)
Definition event_failed (c : ksd_connection) (errno : Z) (message : string)
    : option ksd_frame * Z * ksd_error * ksd_connection :=
  let '(status, error, c) := system_failure c errno (cstr message) in (None, status, error, c).

Fixpoint await_event (timeout_ms deadline : Z) (turns : list event_turn) (stream : list byte) (c : ksd_connection)
    : option (option ksd_frame * Z * ksd_error * ksd_connection * list byte) :=
  match take_event c with
  | Some (frame, c) => Some (Some frame, KSD_STATUS_OK, no_error, c, stream)
  | None =>
    if negb (cn_open c) then Some (event_failed c ENOTCONN "desktop event connection ended", stream)
    else
      match turns with
      | [] => None
      | turn :: turns =>
        let* (r, stream, input) := receive_event_frame (et_calls turn) stream (cn_input c) in
        let c := with_input c input in
        match r with
        | Received frame => Some (Some frame, KSD_STATUS_OK, no_error, c, stream)
        | ReceiveFailed errno => Some (event_failed c errno "desktop event receive failed", stream)
        | NotYet =>
          if (timeout_ms =? 0) || (negb (deadline =? UINT64_MAX) && (deadline <=? et_now turn))
          then Some (None, KSD_STATUS_TIMEOUT, no_error, c, stream)
          else
            match ksd_wait_until POLLIN deadline (et_wait turn) with
            | None => None
            | Some WaitOk => await_event timeout_ms deadline turns stream c
            | Some WaitTimeout => Some (None, KSD_STATUS_TIMEOUT, no_error, c, stream)
            | Some WaitFailed =>
              Some (event_failed c (wait_errno (et_wait turn) EAGAIN) "desktop event wait failed", stream)
            end
        end
      end
  end.

(** The event, and the scopes a revocation takes away. *)
Definition classify_event (c : ksd_connection) (expected_opcode : Z) (event : ksd_frame)
    : option ksd_frame * Z * ksd_error * ksd_connection * option Z :=
  let failed message := let '(r, status, error, c) := event_failed c EPROTO message in (r, status, error, c, None) in
  if fr_opcode event =? KSD_OP_SESSION_REVOKED then
    match apply_revoked_event (cn_granted_scopes c) event with
    | None => failed "desktop service sent invalid revocation"%string
    | Some (granted, revoked) =>
      (None, KSD_STATUS_REVOKED, set_error revoked 0 (Some (cstr "desktop permission was revoked")), with_granted c granted,
       Some revoked)
    end
  else if negb (fr_opcode event =? expected_opcode) || negb (fr_flags event =? KSD_FLAG_EVENT)
          || negb (fr_request_id event =? 0)
  then failed "desktop service sent an unexpected event"%string
  else (Some event, KSD_STATUS_OK, no_error, c, None).

Definition read_event (timeout_ms start expected_opcode : Z) (turns : list event_turn) (stream : list byte)
    (c : ksd_connection) : option (option ksd_frame * Z * ksd_error * ksd_connection * option Z * list byte) :=
  let deadline := if timeout_ms =? UINT32_MAX then UINT64_MAX else u64 (start + timeout_ms) in
  let* (r, stream) := await_event timeout_ms deadline turns stream c in
  let '(frame, status, error, c) := r in
  match frame with
  | None => Some (None, status, error, c, None, stream)
  | Some event => Some (classify_event c expected_opcode event, stream)
  end.

(** The event an application gets; [clear] is whether the record it gave is one it
    may write to. *)
Definition ksd_state_next (timeout_ms start : Z) (clear : bool) (turns : list event_turn) (stream : list byte)
    (c : ksd_connection) : option (option ksd_state_event * Z * ksd_error * ksd_connection * list byte) :=
  if KSD_MAX_WATCH_TIMEOUT_MS <? timeout_ms then
    let '(status, error) := invalid_argument (cstr "invalid desktop state poll") in Some (None, status, error, c, stream)
  else if negb clear then
    let '(status, error) := invalid_argument (cstr "clear the desktop state output before reuse") in
    Some (None, status, error, c, stream)
  else
    let* (r, stream) := read_event timeout_ms start KSD_OP_STATE_EVENT turns stream c in
    let '(frame, status, error, c, revoked) := r in
    if status =? KSD_STATUS_REVOKED then
      Some (Some (mk_event KSD_STATE_GRANT_CHANGED KSD_STATE_GRANTS 0 0 ksd_window_record_init None (cn_granted_scopes c)
                    (default 0 revoked)),
            KSD_STATUS_OK, no_error, c, stream)
    else
      match frame with
      | None => Some (None, status, error, c, stream)
      | Some frame =>
        match ksd_state_event_decode (default [] (fr_payload frame)) with
        | None => Some (let '(_, status, error, c) := event_failed c EPROTO "desktop service sent invalid state data" in
                        (None, status, error, c), stream)
        | Some parsed =>
          let c := if ev_domain parsed =? KSD_STATE_GRANTS then with_granted c (ev_granted_scopes parsed) else c in
          Some (Some parsed, KSD_STATUS_OK, error, c, stream)
        end
      end.
End requests.

(** ** Connecting *)

Definition valid_role (role : Z) : bool := (role =? KSD_ROLE_RPC) || (role =? KSD_ROLE_AUTHORIZATION_LEASE).

(** The granted scopes, the operations and the backend of a HELLO's answer. *)
Definition parse_hello_tail (tail : list byte) : option (Z * Z * Z) :=
  let cursor := ksd_cursor_init tail (zlen tail) in
  let* (granted, cursor) := ksd_cursor_u32 cursor in
  let* (reserved0, cursor) := ksd_cursor_u32 cursor in
  let* (operations, cursor) := ksd_cursor_u64 cursor in
  let* (backend, cursor) := ksd_cursor_u32 cursor in
  let* (reserved1, cursor) := ksd_cursor_u32 cursor in
  let rest := cur_length cursor - cur_offset cursor in
  guard* negb (negb (rest =? 0) && negb (rest =? 8)) && (reserved0 =? 0) && (reserved1 =? 0) in
  Some (Z.land granted KSD_DESKTOP_ACCEPTED_SCOPES, operations, backend).

Record connect_options := mk_options {
  op_role : Z;
  op_authorization_mode : Z;
  op_requested_scopes : Z;
  op_timeout_ms : Z;
  op_flags : Z;
  op_lease_id : Z;
}.
Definition valid_options (o : connect_options) : bool :=
  valid_role (op_role o)
  && ((op_authorization_mode o =? KSD_AUTH_CHECK) || (op_authorization_mode o =? KSD_AUTH_REQUEST))
  && (Z.land (op_requested_scopes o) (u32 (Z.lnot KSD_DESKTOP_ACCEPTED_SCOPES)) =? 0)
  && negb (op_timeout_ms o =? 0) && (op_timeout_ms o <=? 300000) && (op_flags o =? 0).

(** The connection before its HELLO, with an empty reader. *)
Definition fresh_connection (o : connect_options) : ksd_connection :=
  mk_connection true 0 (op_role o) 0 0 0 (op_timeout_ms o) 0 0
    (ksd_buffer_init (KSD_CLIENT_MAX_RESPONSE + KSD_FRAME_HEADER_SIZE)) [] 0 0 0.
Definition hello_payload (o : connect_options) : list byte :=
  ksd_encode_u16 (op_role o) ++ ksd_encode_u16 (op_authorization_mode o) ++ ksd_encode_u32 (op_requested_scopes o)
  ++ ksd_encode_u64 (op_lease_id o).

Definition with_hello (c : ksd_connection) (granted operations backend lease_id : Z) : ksd_connection :=
  mk_connection (cn_open c) (cn_next_request_id c) (cn_role c) granted operations backend (cn_timeout_ms c) lease_id
    (cn_sequence c) (cn_input c) (cn_events c) (cn_queued_bytes c) (cn_queued_count c) (cn_pending c).

Section connecting.
Context {AL : Allocator}.

Definition is_part (frame : ksd_frame) : bool := has_flag frame KSD_FLAG_MORE.

(** The connection once the socket is connected, to a service run by root. *)
Definition ksd_connect (o : connect_options) (now : Z) (late unwritten : option Z) (arrivals : list arrival)
    : option (Z * option ksd_connection * ksd_error) :=
  if negb (valid_options o) then
    let '(status, error) := invalid_argument (cstr "invalid desktop connect options") in Some (status, None, error)
  else
    let* (frames, a) := request (fresh_connection o) KSD_OP_HELLO (Some (hello_payload o)) 16 now late unwritten arrivals in
    match aw_response a with
    | Some (response, frame, _) =>
      if aw_status a =? KSD_STATUS_OK then
        match parse_hello_tail (rs_tail response) with
        | Some (granted, operations, backend) =>
          if is_part frame then let '(status, error, _) := system_failure (aw_connection a) EPROTO [] in Some (status, None, error)
          else
            let lease_id := if 32 <=? zlen (rs_tail response) then ksd_decode_u64 (zdrop 24 (rs_tail response)) else 0 in
            Some (KSD_STATUS_OK, Some (with_hello (aw_connection a) granted operations backend lease_id), no_error)
        | None => let '(status, error, _) := system_failure (aw_connection a) EPROTO [] in Some (status, None, error)
        end
      else Some (aw_status a, None, aw_error a)
    | None => Some (aw_status a, None, aw_error a)
    end.
End connecting.

(** ** Frames from a stream that arrives in pieces *)

Definition frames_wire (fs : list ksd_frame) : list byte := concat (map frame_bytes fs).
Definition client_frame (f : ksd_frame) : Prop := frame_wf f /\ frame_header_acceptable client_rules f = true.

(** The reader never holds more than a frame: what it asks for next is positive. *)
Definition within_frame (bytes : list byte) : Prop :=
  KSD_FRAME_HEADER_SIZE <= zlen bytes ->
  zlen bytes <= KSD_FRAME_HEADER_SIZE + ksd_decode_u32 (zdrop KSD_FRAME_PAYLOAD_LENGTH_OFFSET bytes).
(** The reader holds less than the next frame. *)
Definition partial (input : list byte) (fs : list ksd_frame) : Prop :=
  match fs with [] => input = [] | f :: _ => zlen input < zlen (frame_bytes f) end.
Definition reader_ok (input : ksd_buffer) : Prop :=
  buffer_wf input /\ buf_maximum input = KSD_CLIENT_MAX_RESPONSE + KSD_FRAME_HEADER_SIZE /\ within_frame (buf_bytes input).

Lemma cleared_reader_ok input : reader_ok input -> reader_ok (mk_buffer [] (buf_capacity input) (buf_maximum input)).
Proof.
  intros ((? & ? & ?) & ? & _). pose proof (zlen_nonneg (buf_bytes input)). unfold buf_length in *.
  split; [repeat split; unfold buf_length; cbn; rewrite ?zlen_nil; lia|]. by split.
Qed.

Lemma zlen_frame_bytes f : frame_wf f -> zlen (frame_bytes f) = KSD_FRAME_HEADER_SIZE + fr_payload_length f.
Proof. intros ((Hm & _) & Hl & _). unfold frame_bytes. rewrite zlen_app, zlen_header by done. by rewrite Hl. Qed.

Lemma client_frame_length f : client_frame f -> 0 <= fr_payload_length f <= KSD_CLIENT_MAX_RESPONSE.
Proof.
  intros [(Hh & _) Ha]. unfold frame_header_acceptable in Ha. breflect. split; [|done].
  destruct Hh as (_ & _ & _ & _ & _ & Hu & _). unfold is_u32 in Hu. lia.
Qed.

(** A prefix of the stream that has the header of a frame. *)
Lemma header_prefix f input k rest :
  frame_wf f -> KSD_FRAME_HEADER_SIZE <= zlen input -> input ++ k = frame_bytes f ++ rest ->
  ksd_decode_u32 (zdrop KSD_FRAME_PAYLOAD_LENGTH_OFFSET input) = fr_payload_length f.
Proof.
  intros Hwf Hl E. pose proof Hwf as (Hh & _). unfold frame_bytes in E. rewrite <- app_assoc in E.
  assert (Hz : zlen (encode_frame_header f) = KSD_FRAME_HEADER_SIZE) by apply zlen_header, Hh.
  assert (Hp : exists p, input = encode_frame_header f ++ p).
  { apply app_eq_inv in E as [(p & -> & _)|(p & E & _)]; [by exists p|]. exists [].
    rewrite E, zlen_app in Hz. pose proof (zlen_nonneg p). assert (p = []) as -> by (destruct p; [done|rewrite zlen_cons in *; pose proof (zlen_nonneg p); lia]).
    by rewrite E, !app_nil_r. }
  destruct Hp as [p ->]. change (fr_payload_length f) with (fr_payload_length (with_payload f None)).
  rewrite <- (decode_encode_header f p Hh). done.
Qed.

Lemma decode_prefix bytes more :
  KSD_FRAME_HEADER_SIZE <= zlen bytes ->
  ksd_decode_u32 (zdrop KSD_FRAME_PAYLOAD_LENGTH_OFFSET (bytes ++ more))
  = ksd_decode_u32 (zdrop KSD_FRAME_PAYLOAD_LENGTH_OFFSET bytes).
Proof.
  intros H. rewrite <- (ztake_zdrop KSD_FRAME_HEADER_SIZE bytes) at 1 2.
  assert (Hh : zlen (ztake KSD_FRAME_HEADER_SIZE bytes) = KSD_FRAME_HEADER_SIZE) by by apply zlen_ztake.
  set (h := ztake _ bytes) in *. rewrite <- app_assoc.
  pose proof (f_equal fr_payload_length (decode_header_prefix h (zdrop KSD_FRAME_HEADER_SIZE bytes ++ more) Hh)) as H1.
  pose proof (f_equal fr_payload_length (decode_header_prefix h (zdrop KSD_FRAME_HEADER_SIZE bytes) Hh)) as H2.
  cbn [decode_frame_header fr_payload_length] in H1, H2. congruence.
Qed.

Lemma decode_u32_nonneg data : 0 <= ksd_decode_u32 data.
Proof.
  unfold ksd_decode_u32, byte_at. repeat (apply Z.lor_nonneg; split);
    first [apply b2z_range|unfold u32; by apply Z.mod_pos_bound].
Qed.

Section reading.
Context {AL : Allocator}.

Lemma ready_more input needed : reader_ok input -> receive_ready input = inr needed -> buf_length input < needed.
Proof.
  intros (_ & _ & Hw). unfold receive_ready, within_frame, buf_length in *.
  destruct (Z.leb_spec KSD_FRAME_HEADER_SIZE (zlen (buf_bytes input))) as [Hh|]; [|by intros [= <-]].
  destruct (_ <? _); [done|]. destruct (Z.eqb_spec (zlen (buf_bytes input))
    (KSD_FRAME_HEADER_SIZE + ksd_decode_u32 (zdrop KSD_FRAME_PAYLOAD_LENGTH_OFFSET (buf_bytes input)))) as [|Hne].
  - destruct (ksd_frame_unpack _ _); done.
  - intros [= <-]. specialize (Hw Hh). lia.
Qed.

(** Taking in what was read. *)
Lemma reader_grows input needed bs ok input' :
  reader_ok input -> receive_ready input = inr needed -> zlen bs <= needed - buf_length input ->
  ksd_buffer_bytes (Some bs) (zlen bs) input = (ok, input') ->
  reader_ok input' /\ buf_bytes input' = buf_bytes input ++ (if ok then bs else []).
Proof.
  intros (Hwf & Hm & Hw) Hr Hl Hp. pose proof (put_writes bs input Hwf) as H. unfold put in H. rewrite Hp in H.
  destruct H as (Hwf' & Hm' & _ & Hok & _).
  assert (Hb : buf_bytes input' = buf_bytes input ++ (if ok then bs else [])).
  { destruct ok; [by apply Hok|]. rewrite app_nil_r. revert Hp. unfold ksd_buffer_bytes.
    pose proof (buffer_reserve_spec input (zlen bs) Hwf (zlen_nonneg _)) as Hres.
    destruct (buffer_reserve (zlen bs) input) as [[] b]; [done|]. intros [= <-]. apply Hres. }
  split; [|done]. split; [done|]. split; [congruence|]. rewrite Hb. destruct ok; [|by rewrite app_nil_r].
  unfold within_frame. rewrite zlen_app. unfold receive_ready, buf_length in *.
  destruct (Z.leb_spec KSD_FRAME_HEADER_SIZE (zlen (buf_bytes input))) as [Hh|Hh].
  - rewrite decode_prefix by done. intros _. destruct (_ <? _); [done|]. destruct (_ =? _).
    + destruct (ksd_frame_unpack _ _); done.
    + injection Hr as <-. lia.
  - injection Hr as <-. intros _. pose proof (decode_u32_nonneg (zdrop KSD_FRAME_PAYLOAD_LENGTH_OFFSET (buf_bytes input ++ bs))). lia.
Qed.
End reading.

Section streams.
Context {AL : Allocator} {AT : AllocTotal AL}.

Lemma ready_partial f input k rest :
  client_frame f -> buf_bytes input ++ k = frame_bytes f ++ rest -> buf_length input < zlen (frame_bytes f) ->
  exists needed, receive_ready input = inr needed /\ buf_length input < needed <= zlen (frame_bytes f).
Proof.
  intros Hf E Hl. pose proof (client_frame_length f Hf) as Hp. pose proof (zlen_frame_bytes f (proj1 Hf)) as Hz.
  unfold receive_ready. destruct (Z.leb_spec KSD_FRAME_HEADER_SIZE (buf_length input)) as [Hh|Hh].
  - rewrite (header_prefix f (buf_bytes input) k rest (proj1 Hf) Hh E).
    rewrite (proj2 (Z.ltb_ge _ _)) by lia. rewrite (proj2 (Z.eqb_neq _ _)) by lia. eexists. split; [done|]. lia.
  - eexists. split; [done|]. lia.
Qed.

Lemma ready_full f input :
  client_frame f -> buf_bytes input = frame_bytes f ->
  receive_ready input = inl (Received f, mk_buffer [] (buf_capacity input) (buf_maximum input)).
Proof.
  intros Hf E. pose proof (client_frame_length f Hf) as Hp. pose proof (zlen_frame_bytes f (proj1 Hf)) as Hz.
  unfold receive_ready. unfold buf_length. rewrite E, (proj2 (Z.leb_le _ _)) by (unfold KSD_FRAME_HEADER_SIZE in *; lia).
  rewrite (header_prefix f (frame_bytes f) [] []) by (apply Hf || done || (unfold KSD_FRAME_HEADER_SIZE in *; lia)).
  rewrite (proj2 (Z.ltb_ge _ _)) by lia. rewrite (proj2 (Z.eqb_eq _ _)) by done.
  by rewrite (unpack_complete client_rules f AT (proj1 Hf) (proj2 Hf)).
Qed.

(** A socket that neither ends nor fails. *)
Definition calm (call : recv_outcome) : Prop := match call with RecvEof | RecvError _ => False | _ => True end.

(** One call of the reader, with [future] still to arrive. *)
Lemma receive_step fs future : Forall client_frame fs -> forall calls stream input r stream' input',
  Forall calm calls -> reader_ok input -> partial (buf_bytes input) fs ->
  buf_bytes input ++ stream ++ future = frames_wire fs ->
  receive_event_frame calls stream input = Some (r, stream', input') ->
  reader_ok input' /\
  ((r = NotYet /\ partial (buf_bytes input') fs /\ buf_bytes input' ++ stream' ++ future = frames_wire fs) \/
   (exists f fs', fs = f :: fs' /\ r = Received f /\ buf_bytes input' = [] /\ stream' ++ future = frames_wire fs')).
Proof.
  intros Hfs. induction calls as [|call calls IH]; intros stream input r stream' input' Hc Hok Hp E.
  - destruct fs as [|f fs]; cbn [partial] in Hp.
    + unfold receive_event_frame, receive_ready, buf_length. by rewrite Hp.
    + pose proof (Forall_inv Hfs) as Hf. unfold frames_wire in E. cbn [map concat] in E.
      destruct (ready_partial f input _ _ Hf E Hp) as (needed & Hr & _). cbn [receive_event_frame]. by rewrite Hr.
  - pose proof (Forall_inv Hc) as Hcall. apply Forall_inv_tail in Hc.
    assert (Hneed : exists needed, receive_ready input = inr needed /\ buf_length input < needed /\
              forall f fs', fs = f :: fs' -> needed <= zlen (frame_bytes f)).
    { destruct fs as [|f fs']; cbn [partial] in Hp.
      - exists KSD_FRAME_HEADER_SIZE. unfold receive_ready, buf_length. rewrite Hp. by split.
      - pose proof (Forall_inv Hfs) as Hf. unfold frames_wire in E. cbn [map concat] in E.
        destruct (ready_partial f input _ _ Hf E Hp) as (needed & Hr & Hn & Hn'). exists needed. split; [done|]. split; [done|].
        by intros ? ? [= <- <-]. }
    destruct Hneed as (needed & Hr & Hn & Hmax). cbn [receive_event_frame]. rewrite Hr.
    destruct call as [n| | | |]; try done.
    2:{ by apply IH. }
    2:{ intros [= <- <- <-]. split; [done|]. left. done. }
    set (count := Z.min (Z.min (Zpos n) (Z.min (needed - buf_length input) 8192)) (zlen stream)).
    destruct (Z.eqb_spec count 0) as [Hz|Hz].
    { intros [= <- <- <-]. split; [done|]. left. done. }
    pose proof (zlen_nonneg stream).
    assert (Hpos : 0 < count <= zlen stream) by (unfold count in *; lia).
    destruct fs as [|f fs'].
    { unfold frames_wire in E. cbn [map concat] in E. apply app_eq_nil in E as [_ E]. apply app_eq_nil in E as [E _].
      exfalso. apply (f_equal zlen) in E. rewrite zlen_nil in E. lia. }
    pose proof (Forall_inv Hfs) as Hf. pose proof (client_frame_length f Hf) as Hpl.
    pose proof (zlen_frame_bytes f (proj1 Hf)) as Hzf. specialize (Hmax f fs' eq_refl).
    pose proof Hok as (Hwf & Hm & _).
    assert (Htl : zlen (ztake count stream) = count) by (apply zlen_ztake; lia).
    assert (Hcl : count <= needed - buf_length input) by (unfold count; lia). clearbody count.
    destruct (writes_total _ _ input (put_writes (ztake count stream)) Hwf) as (input2 & Hput & Hwf2 & Hm2 & Hb2).
    { rewrite Htl, Hm. lia. }
    unfold put in Hput. rewrite Htl in Hput. rewrite Hput.
    assert (E2 : buf_bytes input2 ++ zdrop count stream ++ future = frames_wire (f :: fs')).
    { rewrite Hb2, <- app_assoc, (app_assoc (ztake count stream)), ztake_zdrop. exact E. }
    assert (Hl2 : buf_length input2 = buf_length input + count).
    { unfold buf_length. by rewrite Hb2, zlen_app, Htl. }
    assert (Hok2 : reader_ok input2).
    { eapply (reader_grows input needed (ztake count stream) true); [done|done|lia|]. by rewrite Htl. }
    destruct (decide (buf_length input2 < zlen (frame_bytes f))) as [Hlt|Hge].
    + apply IH; [done..|exact Hlt|exact E2].
    + assert (Hfull : buf_bytes input2 = frame_bytes f /\ zdrop count stream ++ future = frames_wire fs').
      { change (frames_wire (f :: fs')) with (frame_bytes f ++ frames_wire fs') in E2.
        unfold buf_length in *. apply app_inj_1; [|exact E2]. unfold zlen in *. lia. }
      destruct Hfull as [Hfull Hrest]. pose proof (ready_full f input2 Hf Hfull) as Hready.
      destruct calls as [|call' calls]; cbn [receive_event_frame]; rewrite Hready; intros [= <- <- <-];
        (split; [by apply cleared_reader_ok|]);
        right; exists f, fs'; done.
Qed.

(** The reader called again and again, with what arrived at the socket before each
    call: the frames it gave, as long as nothing failed. *)
Fixpoint receive_frames (batches : list (list byte * list recv_outcome)) (stream : list byte) (input : ksd_buffer)
    : option (list ksd_frame * list byte * ksd_buffer) :=
  match batches with
  | [] => Some ([], stream, input)
  | (bytes, calls) :: batches =>
    let* (r, stream, input) := receive_event_frame calls (stream ++ bytes) input in
    match r with
    | Received frame =>
      let* (frames, stream, input) := receive_frames batches stream input in Some (frame :: frames, stream, input)
    | NotYet => receive_frames batches stream input
    | ReceiveFailed _ => None
    end
  end.

Lemma receive_frames_order : forall batches fs future stream input got stream' input',
  Forall client_frame fs -> Forall (fun b => Forall calm (snd b)) batches -> reader_ok input -> partial (buf_bytes input) fs ->
  buf_bytes input ++ stream ++ concat (map fst batches) ++ future = frames_wire fs ->
  receive_frames batches stream input = Some (got, stream', input') ->
  exists fs', fs = got ++ fs' /\ partial (buf_bytes input') fs' /\ buf_bytes input' ++ stream' ++ future = frames_wire fs'.
Proof.
  induction batches as [|[bytes calls] batches IH]; intros fs future stream input got stream' input' Hfs Hc Hok Hp E.
  - intros [= <- <- <-]. exists fs. done.
  - pose proof (Forall_inv Hc) as Hcalls. apply Forall_inv_tail in Hc. cbn [receive_frames map fst snd concat] in *.
    destruct (receive_event_frame calls (stream ++ bytes) input) as [[[r s1] i1]|] eqn:Er; [|done].
    destruct (receive_step fs (concat (map fst batches) ++ future) Hfs calls (stream ++ bytes) input r s1 i1 Hcalls Hok Hp)
      as (Hok1 & [(-> & Hp1 & E1)|(f & fs1 & -> & -> & Hb & E1)]); [by rewrite <- !app_assoc in *|exact Er|idtac|idtac].
    + intros H. eapply IH; done.
    + destruct (receive_frames batches s1 i1) as [[[frames s2] i2]|] eqn:Ef; [|done]. intros [= <- <- <-].
      assert (Hfs1 : Forall client_frame fs1) by exact (Forall_inv_tail Hfs).
      assert (Hp1 : partial (buf_bytes i1) fs1).
      { rewrite Hb. destruct fs1 as [|g fs1]; [done|]. cbn [partial]. rewrite zlen_nil.
        pose proof (Forall_inv Hfs1) as Hg. rewrite zlen_frame_bytes by apply Hg.
        pose proof (client_frame_length g Hg). unfold KSD_FRAME_HEADER_SIZE. lia. }
      destruct (IH fs1 future s1 i1 frames s2 i2 Hfs1 Hc Hok1 Hp1) as (fs' & -> & H2 & H3).
      { rewrite Hb. exact E1. } { exact Ef. }
      exists fs'. done.
Qed.
End streams.

Lemma fresh_reader_ok : reader_ok (ksd_buffer_init (KSD_CLIENT_MAX_RESPONSE + KSD_FRAME_HEADER_SIZE)).
Proof. split; [by apply buffer_init_wf|]. by split. Qed.

(** ** The state of a connection *)

Definition queue_bytes (events : list ksd_frame) : Z := fold_right (fun f n => fr_payload_length f + n) 0 events.

Section connection.
Context {AL : Allocator}.

(** The queue is within its limits, its counters are those of its frames, every
    frame in it is an event; the descriptor the application polls is ready exactly
    when an event waits or the connection is gone. *)
Record connection_ok (c : ksd_connection) : Prop := mk_connection_ok {
  co_count : cn_queued_count c = zlen (cn_events c) /\ cn_queued_count c <= KSD_CLIENT_MAX_EVENTS;
  co_bytes : cn_queued_bytes c = queue_bytes (cn_events c) /\ cn_queued_bytes c <= KSD_CLIENT_MAX_EVENT_BYTES;
  co_frames : Forall (fun f => 0 <= fr_payload_length f /\ is_Some (ksd_state_event_decode (default [] (fr_payload f)))) (cn_events c);
  co_pending : 0 <= cn_pending c < UINT64_MAX;
  co_poll : 0 < cn_pending c <-> cn_events c <> [] \/ cn_open c = false;
  co_input : reader_ok (cn_input c);
}.

Lemma queue_bytes_app l k : queue_bytes (l ++ k) = queue_bytes l + queue_bytes k.
Proof. induction l as [|f l IH]; cbn; [done|]. unfold queue_bytes in *. cbn. lia. Qed.

Lemma fresh_connection_ok o : connection_ok (fresh_connection o).
Proof.
  split; cbn; try done; try apply fresh_reader_ok. split; [lia|]. by intros [?|?].
Qed.

Lemma signal_bound p : 0 <= p < UINT64_MAX -> 0 < (if p <? UINT64_MAX - 1 then p + 1 else p) < UINT64_MAX.
Proof. intros H. unfold UINT64_MAX in *. destruct (Z.ltb_spec p (2 ^ 64 - 1 - 1)); lia. Qed.

Lemma with_granted_ok c granted : connection_ok c -> connection_ok (with_granted c granted).
Proof. by intros []. Qed.
Lemma with_ids_ok c id sequence : connection_ok c -> connection_ok (with_ids c id sequence).
Proof. by intros []. Qed.
Lemma with_input_ok c input : connection_ok c -> reader_ok input -> connection_ok (with_input c input).
Proof. by intros [] ?. Qed.

Lemma queue_event_spec c f e c' :
  connection_ok c -> frame_wf f -> queue_event c f = (e, c') ->
  connection_ok c' /\ cn_open c' = cn_open c /\
  match e with
  | None => cn_events c' = cn_events c ++ [f] /\ is_Some (ksd_state_event_decode (default [] (fr_payload f)))
  | Some _ => cn_events c' = cn_events c
  end.
Proof.
  intros Hok Hf. unfold queue_event. destruct (_ || _) eqn:El; [by intros [= <- <-]|].
  destruct (ksd_state_event_decode _) as [event|] eqn:Ed; [|by intros [= <- <-]].
  set (c1 := if ev_domain event =? KSD_STATE_GRANTS then with_granted c (ev_granted_scopes event) else c).
  assert (H1 : connection_ok c1 /\ cn_open c1 = cn_open c /\ cn_events c1 = cn_events c /\ cn_queued_count c1 = cn_queued_count c
    /\ cn_queued_bytes c1 = cn_queued_bytes c) by by (unfold c1; destruct (ev_domain event =? KSD_STATE_GRANTS); [split; [by apply with_granted_ok|]|]).
  destruct H1 as (H1 & Ho & Hev & Hc1 & Hb1). clearbody c1.
  destruct (negb (alloc_ok _)); [by intros [= <- <-]|]. intros [= <- <-].
  destruct H1 as [[Hc Hcm] [Hb Hbm] Hfr Hp Hpo Hi]. apply orb_false_iff in El as [El1%Z.leb_gt El2%Z.ltb_ge].
  pose proof (signal_bound _ Hp) as Hs. cbn. rewrite Hev. split; [|split; [done|split; [done|eauto]]].
  destruct Hf as ((_ & _ & _ & _ & _ & Hu & _) & _). unfold is_u32 in Hu.
  split; cbn; rewrite ?Hev, ?Hc, ?Hb, ?Hev in *.
  - rewrite zlen_app, zlen_cons, zlen_nil. unfold KSD_CLIENT_MAX_EVENTS in *. lia.
  - rewrite queue_bytes_app. cbn. unfold KSD_CLIENT_MAX_EVENT_BYTES in *. lia.
  - apply Forall_app. split; [done|]. repeat constructor; [lia|]. eauto.
  - lia.
  - split; [|lia]. intros _. left. by destruct (cn_events c).
  - done.
Qed.

Lemma take_event_spec c f c' :
  connection_ok c -> take_event c = Some (f, c') ->
  connection_ok c' /\ cn_open c' = cn_open c /\ cn_events c = f :: cn_events c'.
Proof.
  intros [[Hc Hcm] [Hb Hbm] Hfr Hp Hpo Hi]. unfold take_event. destruct (cn_events c) as [|f0 events] eqn:Ee; [done|].
  intros [= <- <-]. cbn. split; [|done]. pose proof (Forall_inv Hfr) as [Hf0 _]. apply Forall_inv_tail in Hfr.
  assert (Hpos : 0 < cn_pending c) by (apply Hpo; by left).
  split; cbn; try done.
  - rewrite zlen_cons in Hc. lia.
  - cbn in Hb. unfold queue_bytes in *. lia.
  - destruct events; [destruct (cn_open c)|]; unfold UINT64_MAX in *; lia.
  - destruct events as [|g events].
    + destruct (cn_open c); split; [lia|by intros [?|?]|by right|done].
    + split; [intros _; by left|done].
Qed.

Lemma system_failure_spec c errno message status error c' :
  connection_ok c -> system_failure c errno message = (status, error, c') ->
  connection_ok c' /\ cn_open c' = false /\ cn_events c' = cn_events c /\ status <> KSD_STATUS_OK.
Proof.
  intros Hok. unfold system_failure. intros [= <- _ <-]. pose proof Hok as [[Hc Hcm] [Hb Hbm] Hfr Hp Hpo Hi].
  assert (Hst : forall e, ksd_status_for_system_error e <> KSD_STATUS_OK).
  { intros e. unfold ksd_status_for_system_error. by destruct (_ || _). }
  destruct (cn_open c) eqn:Eo; [|done]. split; [|split; [done|split; [done|apply Hst]]].
  pose proof (signal_bound _ Hp) as Hs. split; cbn; try done; [lia|]. split; [auto|lia].
Qed.

(** *** The reader *)

Lemma ready_reader_ok input r input' : reader_ok input -> receive_ready input = inl (r, input') -> reader_ok input'.
Proof.
  intros Hok. unfold receive_ready. destruct (_ <=? _); [|done]. destruct (_ <? _); [by intros [= <- <-]|].
  destruct (_ =? _); [|done]. destruct (ksd_frame_unpack _ _); intros [= <- <-]; by apply cleared_reader_ok.
Qed.

Lemma receive_reader_ok : forall calls stream input r stream' input',
  reader_ok input -> receive_event_frame calls stream input = Some (r, stream', input') -> reader_ok input'.
Proof.
  induction calls as [|call calls IH]; intros stream input r stream' input' Hok; cbn [receive_event_frame];
    destruct (receive_ready input) as [[r0 i0]|needed] eqn:Er; try done.
  1,2: intros [= <- <- <-]; by eapply ready_reader_ok.
  destruct call as [n| | | |]; try by intros [= <- <- <-].
  2:{ by apply IH. }
  pose proof (ready_more input needed Hok Er) as Hn. pose proof (zlen_nonneg stream) as Hs.
  set (count := Z.min _ (zlen stream)). destruct (Z.eqb_spec count 0) as [|Hz]; [by intros [= <- <- <-]|].
  assert (Hl : zlen (ztake count stream) = count) by (apply zlen_ztake; unfold count in *; lia).
  destruct (ksd_buffer_bytes (Some (ztake count stream)) count input) as [ok i1] eqn:Ep.
  destruct (reader_grows input needed (ztake count stream) ok i1 Hok Er) as [H1 _]; [unfold count in *; lia|by rewrite Hl|].
  destruct ok; [by apply IH|by intros [= <- <- <-]].
Qed.

Lemma receive_client_frame : forall calls stream input f stream' input',
  receive_event_frame calls stream input = Some (Received f, stream', input') -> client_frame f.
Proof.
  assert (Hready : forall input f input', receive_ready input = inl (Received f, input') -> client_frame f).
  { intros input f input'. unfold receive_ready. destruct (_ <=? _); [|done]. destruct (_ <? _); [done|].
    destruct (_ =? _); [|done]. destruct (ksd_frame_unpack _ _) eqn:E; [|done]. intros [= -> _].
    apply unpack_sound in E as (_ & H1 & H2). by split. }
  induction calls as [|call calls IH]; intros stream input f stream' input'; cbn [receive_event_frame];
    destruct (receive_ready input) as [[r0 i0]|needed] eqn:Er; try done.
  1,2: intros [= -> <- <-]; by eapply Hready.
  destruct call as [n| | | |]; try done; [|by apply IH].
  set (count := Z.min _ (zlen stream)). destruct (count =? 0); [done|].
  destruct (ksd_buffer_bytes _ _ _) as [[] i1]; [by apply IH|done].
Qed.

Lemma stream_response_spec deadline : forall turns stream input r stream' input',
  reader_ok input -> receive_stream_response deadline turns stream input = Some (r, stream', input') ->
  reader_ok input' /\ match r with Received f => client_frame f | _ => True end.
Proof.
  induction turns as [|[calls waits] turns IH]; intros stream input r stream' input' Hok; [done|]. cbn [receive_stream_response].
  destruct (receive_event_frame calls stream input) as [[[r1 s1] i1]|] eqn:Er; [|done]. cbn [from_option].
  pose proof (receive_reader_ok _ _ _ _ _ _ Hok Er) as H1. destruct r1 as [f| |errno].
  - intros [= <- <- <-]. split; [done|]. by eapply receive_client_frame.
  - destruct (ksd_wait_until _ _ _) as [[]|]; [by apply IH|by intros [= <- <- <-]..|done].
  - by intros [= <- <- <-].
Qed.

(** *** Responses *)

Definition is_event (f : ksd_frame) : bool := negb (Z.land (fr_flags f) KSD_FLAG_EVENT =? 0).
Definition arrival_ok (x : arrival) : Prop := match x with Arrived f _ => frame_wf f | _ => True end.

(** Arrivals that all gave a frame: the frames with their descriptors, and the bytes
    kept. *)
Fixpoint frames_met (deadline role : Z) (arrivals : list arrival) (input : ksd_buffer)
    : option (list (ksd_frame * Z) * ksd_buffer) :=
  match arrivals with
  | [] => Some ([], input)
  | x :: arrivals =>
    let* (received, fd, input) := receive_response deadline role x input in
    match received with
    | Received f => let* (met, input) := frames_met deadline role arrivals input in Some ((f, fd) :: met, input)
    | _ => None
    end
  end.
(** The state events among frames, and the descriptors that came with them. *)
Definition state_events (met : list (ksd_frame * Z)) : list ksd_frame :=
  filter (fun f => fr_opcode f = KSD_OP_STATE_EVENT) (map fst met).
Definition met_fds (met : list (ksd_frame * Z)) : list Z := concat (map (fun m => close_fd (snd m)) met).
Lemma state_events_cons f fd met : state_events ((f, fd) :: met) = state_events [(f, 0)] ++ state_events met.
Proof. unfold state_events. cbn [map fst]. rewrite !filter_cons, filter_nil. by case_decide. Qed.
Definition last_fds (received : option (receive_result * Z * ksd_buffer)) : list Z :=
  match received with Some (Received _, fd, _) => close_fd fd | _ => [] end.

Lemma response_event_spec c f e c' :
  connection_ok c -> frame_wf f -> response_event c f = (e, c') ->
  connection_ok c' /\ cn_open c' = cn_open c /\
  (cn_sequence c' = cn_sequence c /\ cn_role c' = cn_role c /\ cn_input c' = cn_input c) /\
  cn_events c' = cn_events c ++ match e with None => state_events [(f, 0)] | Some _ => [] end.
Proof.
  intros Hok Hf. unfold response_event, state_events. cbn [map fst]. rewrite filter_cons.
  destruct (Z.eqb_spec (fr_opcode f) KSD_OP_STATE_EVENT) as [E|E]; [rewrite decide_True by done|rewrite decide_False by done].
  - intros H. assert (Hs : cn_sequence c' = cn_sequence c /\ cn_role c' = cn_role c /\ cn_input c' = cn_input c).
    { revert H. unfold queue_event. repeat case_match; by intros [= <- <-]. }
    destruct (queue_event_spec c f e c' Hok Hf H) as (H1 & H2 & H3). destruct e as [errno|].
    + by rewrite H3, app_nil_r.
    + by destruct H3 as [H3 _].
  - destruct (apply_revoked_event _ _) as [[granted revoked]|]; intros [= <- <-]; rewrite app_nil_r; [|done].
    split; [by apply with_granted_ok|done].
Qed.

Lemma fail_with_spec c errno message closed (a := fail_with c errno message closed) :
  connection_ok c ->
  connection_ok (aw_connection a) /\ aw_response a = None /\ aw_status a <> KSD_STATUS_OK /\
  cn_open (aw_connection a) = false /\ cn_events (aw_connection a) = cn_events c /\ aw_closed a = closed.
Proof.
  intros Hok. subst a. unfold fail_with. destruct (system_failure c errno message) as [[status error] c'] eqn:E.
  destruct (system_failure_spec _ _ _ _ _ _ Hok E) as (H1 & H2 & H3 & H4). done.
Qed.

Lemma receive_response_spec deadline role x input r fd input' :
  reader_ok input -> arrival_ok x -> receive_response deadline role x input = Some (r, fd, input') ->
  reader_ok input' /\ match r with Received f => frame_wf f | _ => True end.
Proof.
  intros Hok Hx. unfold receive_response. destruct (role =? KSD_ROLE_RPC).
  - destruct x as [errno|errno|f fd0|turns bytes]; try done; by intros [= <- <- <-].
  - destruct x as [errno|errno|f fd0|turns bytes]; try done.
    destruct (receive_stream_response _ _ _ _) as [[[r1 s1] i1]|] eqn:E; [|done]. intros [= <- <- <-].
    destruct (stream_response_spec _ _ _ _ _ _ _ Hok E) as [H1 H2]. split; [done|]. destruct r1; [apply H2|done..].
Qed.

(** What waiting for a response comes to: the events met before it. *)
Definition response_met (deadline opcode request_id : Z) (arrivals : list arrival) (c : ksd_connection) (a : answered) : Prop :=
  exists before last rest met input, arrivals = before ++ last :: rest /\
    frames_met deadline (cn_role c) before (cn_input c) = Some (met, input) /\
    Forall (fun m => is_event (fst m) = true) met /\
    cn_events (aw_connection a) = cn_events c ++ state_events met /\
    let final := receive_response deadline (cn_role c) last input in
    match aw_response a with
    | Some (r, frame, fd) =>
      final = Some (Received frame, fd, cn_input (aw_connection a)) /\ is_event frame = false /\ aw_status a = rs_status r /\
      take_response frame opcode request_id (cn_sequence c) = Some (r, aw_error a, cn_sequence (aw_connection a)) /\
      cn_open (aw_connection a) = cn_open c /\ aw_closed a = met_fds met
    | None =>
      aw_status a <> KSD_STATUS_OK /\ cn_open (aw_connection a) = false /\ aw_closed a = met_fds met ++ last_fds final
    end.

Lemma response_met_failed deadline opcode id c c1 errno message last rest :
  connection_ok c1 -> cn_events c1 = cn_events c ->
  let a := fail_with c1 errno message (last_fds (receive_response deadline (cn_role c) last (cn_input c))) in
  connection_ok (aw_connection a) /\ response_met deadline opcode id (last :: rest) c a.
Proof.
  intros Hok He a. destruct (fail_with_spec c1 errno message (last_fds (receive_response deadline (cn_role c) last (cn_input c))) Hok)
    as (H1 & H2 & H3 & H4 & H5 & H6).
  split; [done|]. exists [], last, rest, [], (cn_input c). split; [done|]. split; [done|]. split; [constructor|].
  fold a in H1, H2, H3, H4, H5, H6. rewrite H2, H5, He. cbn. by rewrite app_nil_r.
Qed.

Lemma read_response_spec deadline opcode id : forall arrivals c a,
  connection_ok c -> Forall arrival_ok arrivals -> read_response deadline opcode id arrivals c = Some a ->
  connection_ok (aw_connection a) /\ response_met deadline opcode id arrivals c a.
Proof.
  induction arrivals as [|x arrivals IH]; intros c a Hok Hw; [done|].
  pose proof (Forall_inv Hw) as Hx. apply Forall_inv_tail in Hw.
  cbn [read_response]. destruct (arrival_late x) as [errno|] eqn:El.
  { destruct x as [e| | |]; try done. intros [= <-].
    replace [] with (last_fds (receive_response deadline (cn_role c) (ArrivalLate e) (cn_input c))); [by apply response_met_failed|].
    unfold receive_response. by destruct (_ =? _). }
  destruct (receive_response deadline (cn_role c) x (cn_input c)) as [[[r fd] input]|] eqn:Er; [|done].
  cbn [from_option]. destruct (receive_response_spec _ _ _ _ _ _ _ (co_input c Hok) Hx Er) as [Hi Hf].
  pose proof (with_input_ok c input Hok Hi) as Hok1. set (c1 := with_input c input) in *. cbv zeta.
  assert (Hc1 : cn_events c1 = cn_events c /\ cn_role c1 = cn_role c /\ cn_sequence c1 = cn_sequence c /\ cn_open c1 = cn_open c /\
    cn_input c1 = input) by done.
  destruct Hc1 as (He1 & Hr1 & Hs1 & Ho1 & Hi1). clearbody c1.
  pose proof (fun errno message => response_met_failed deadline opcode id c c1 errno message x arrivals Hok1 He1) as Hfail.
  rewrite Er in Hfail. cbn [last_fds] in Hfail. destruct r as [f| |errno]; [|by intros [= <-]..].
  destruct (negb (Z.land (fr_flags f) KSD_FLAG_EVENT =? 0)) eqn:Ee.
  - destruct (response_event c1 f) as [[errno|] c2] eqn:Ev;
      destruct (response_event_spec c1 f _ c2 Hok1 Hf Ev) as (H1 & H2 & (H3 & H4 & H5) & H6).
    + rewrite app_nil_r in H6. intros [= <-].
      pose proof (response_met_failed deadline opcode id c c2 (if errno =? ENOBUFS then errno else EPROTO)
        (if (if errno =? ENOBUFS then errno else EPROTO) =? ENOBUFS then full_queue else cstr "desktop service sent an invalid event")
        x arrivals H1 ltac:(congruence)) as H. rewrite Er in H. exact H.
    + destruct (read_response deadline opcode id arrivals c2) as [a1|] eqn:Ea; [|done]. intros [= <-]. cbn [aw_connection].
      destruct (IH c2 a1 H1 Hw Ea) as (G1 & before & last & rest & met & inp & -> & Gm & Gb & Gev & Gr). split; [done|].
      rewrite H4, H5, Hr1, Hi1 in Gm.
      exists (x :: before), last, rest, ((f, fd) :: met), inp. split; [done|].
      split; [cbn [frames_met]; rewrite Er; cbn [from_option]; by rewrite Gm|]. split; [by constructor|].
      cbn [aw_connection aw_response aw_status aw_error aw_closed].
      split; [rewrite Gev, H6, He1, <- app_assoc; by rewrite (state_events_cons f fd)|].
      rewrite H4, Hr1, H3, Hs1, H2, Ho1 in Gr. cbv zeta in *.
      destruct (aw_response a1) as [[[r frame] fd']|].
      * destruct Gr as (? & ? & ? & ? & ? & ->). done.
      * destruct Gr as (? & ? & ->). split; [done|]. split; [done|]. by rewrite app_assoc.
  - destruct (take_response f opcode id (cn_sequence c1)) as [[[r error] sequence]|] eqn:Et.
    + intros [= <-]. cbn [aw_connection]. split; [by apply with_ids_ok|]. exists [], x, arrivals, [], (cn_input c).
      split; [done|]. split; [done|]. split; [constructor|]. cbn. rewrite Er, Hi1, He1, app_nil_r, <- Hs1. done.
    + by intros [= <-].
Qed.

(** *** Events *)

(** An event comes from the head of the queue, or from the socket when nothing is
    queued. *)
Definition event_taken (c c' : ksd_connection) (f : ksd_frame) : Prop :=
  cn_open c' = cn_open c /\
  (cn_events c = f :: cn_events c' \/ (cn_events c = [] /\ cn_events c' = [] /\ cn_open c = true /\ client_frame f)).
(** Without one, nothing was queued. *)
Definition event_missed (c c' : ksd_connection) (status : Z) : Prop :=
  cn_events c = [] /\ cn_events c' = [] /\ status <> KSD_STATUS_OK /\ status <> KSD_STATUS_REVOKED /\
  (cn_open c' = true -> status = KSD_STATUS_TIMEOUT).

Lemma event_failed_spec c errno message frame status error c' :
  connection_ok c -> event_failed c errno message = (frame, status, error, c') ->
  connection_ok c' /\ frame = None /\ cn_open c' = false /\ cn_events c' = cn_events c /\ status <> KSD_STATUS_OK /\
  status <> KSD_STATUS_REVOKED.
Proof.
  intros Hok. unfold event_failed. destruct (system_failure c errno _) as [[st er] c1] eqn:E. intros [= <- <- <- <-].
  destruct (system_failure_spec _ _ _ _ _ _ Hok E) as (H1 & H2 & H3 & H4). repeat split; try done; try apply H1.
  unfold system_failure in E. injection E as <- _ _. unfold ksd_status_for_system_error. by destruct (_ || _).
Qed.

Lemma await_event_spec timeout deadline : forall turns stream c frame status error c' stream',
  connection_ok c -> await_event timeout deadline turns stream c = Some (frame, status, error, c', stream') ->
  connection_ok c' /\
  match frame with
  | Some f => status = KSD_STATUS_OK /\ error = no_error /\ event_taken c c' f
  | None => event_missed c c' status
  end.
Proof.
  assert (Hfail : forall c errno message frame status error c',
    connection_ok c -> cn_events c = [] -> event_failed c errno message = (frame, status, error, c') ->
    connection_ok c' /\ match frame with Some f => status = KSD_STATUS_OK /\ error = no_error /\ event_taken c c' f
                                       | None => event_missed c c' status end).
  { intros c errno message frame status error c' Hok Hev H.
    destruct (event_failed_spec _ _ _ _ _ _ _ Hok H) as (H1 & -> & H2 & H3 & H4 & H5). split; [done|].
    unfold event_missed. rewrite H3, H2. done. }
  induction turns as [|turn turns IH]; intros stream c frame status error c' stream' Hok;
    (destruct (take_event c) as [[f c1]|] eqn:Et;
     [destruct (take_event_spec _ _ _ Hok Et) as (H1 & H2 & H3); cbn [await_event]; rewrite Et; intros [= <- <- <- <- <-];
      split; [done|]; split; [done|]; split; [done|]; split; [done|by left]|]);
    (assert (Hev : cn_events c = []) by (unfold take_event in Et; by destruct (cn_events c)));
    cbn [await_event]; rewrite Et.
  - destruct (cn_open c); cbn [negb]; [done|]. destruct (event_failed _ _ _) as [[[fr st] er] c1] eqn:Ef.
    intros [= <- <- <- <- <-]. by eapply Hfail.
  - destruct (cn_open c) eqn:Eo; cbn [negb].
    2:{ destruct (event_failed _ _ _) as [[[fr st] er] c1] eqn:Ef. intros [= <- <- <- <- <-]. by eapply Hfail. }
    destruct (receive_event_frame _ _ _) as [[[r s1] i1]|] eqn:Er; [|done].
    pose proof (receive_reader_ok _ _ _ _ _ _ (co_input c Hok) Er) as Hi.
    pose proof (with_input_ok c i1 Hok Hi) as Hok1. set (c1 := with_input c i1) in *.
    assert (Hev1 : cn_events c1 = []) by done. assert (Ho1 : cn_open c1 = true) by done.
    assert (Hto : forall er : ksd_error, event_missed c c1 KSD_STATUS_TIMEOUT) by by intros _.
    destruct r as [f| |errno].
    + intros [= <- <- <- <- <-]. split; [done|]. split; [done|]. split; [done|]. split; [by rewrite Ho1|]. right.
      split; [done|]. split; [done|]. split; [done|]. by eapply receive_client_frame.
    + destruct (_ || _); [intros [= <- <- <- <- <-]; split; [done|by apply Hto]|].
      destruct (ksd_wait_until _ _ _) as [[]|]; [|intros [= <- <- <- <- <-]; split; [done|by apply Hto]| |done].
      * intros H. destruct (IH s1 c1 frame status error c' stream' Hok1 H) as (G1 & G2). split; [done|].
        clearbody c1. unfold event_taken, event_missed in *. rewrite Hev1, Ho1 in G2. by rewrite Hev, Eo.
      * destruct (event_failed _ _ _) as [[[fr st] er] c2] eqn:Ef. intros [= <- <- <- <- <-].
        destruct (Hfail _ _ _ _ _ _ _ Hok1 Hev1 Ef) as [G1 G2]. split; [done|]. clearbody c1.
        unfold event_taken, event_missed in *. rewrite Hev1, Ho1 in G2. by rewrite Hev, Eo.
    + destruct (event_failed _ _ _) as [[[fr st] er] c2] eqn:Ef. intros [= <- <- <- <- <-].
      destruct (Hfail _ _ _ _ _ _ _ Hok1 Hev1 Ef) as [G1 G2]. split; [done|]. clearbody c1.
      unfold event_taken, event_missed in *. rewrite Hev1, Ho1 in G2. by rewrite Hev, Eo.
Qed.

(** What an application is given for a frame. *)
Definition shows (c' : ksd_connection) (f : ksd_frame) (e : ksd_state_event) : Prop :=
  (fr_opcode f = KSD_OP_STATE_EVENT /\ fr_flags f = KSD_FLAG_EVENT /\
   ksd_state_event_decode (default [] (fr_payload f)) = Some e) \/
  (fr_opcode f = KSD_OP_SESSION_REVOKED /\ exists granted revoked,
     apply_revoked_event granted f = Some (cn_granted_scopes c', revoked) /\
     e = mk_event KSD_STATE_GRANT_CHANGED KSD_STATE_GRANTS 0 0 ksd_window_record_init None (cn_granted_scopes c') revoked).

Lemma classify_event_spec c f frame status error c' revoked :
  connection_ok c -> classify_event c KSD_OP_STATE_EVENT f = (frame, status, error, c', revoked) ->
  connection_ok c' /\ cn_events c' = cn_events c /\
  ((frame = Some f /\ status = KSD_STATUS_OK /\ c' = c /\ fr_opcode f = KSD_OP_STATE_EVENT /\ fr_flags f = KSD_FLAG_EVENT) \/
   (frame = None /\ status = KSD_STATUS_REVOKED /\ cn_open c' = cn_open c /\ fr_opcode f = KSD_OP_SESSION_REVOKED /\
    exists n, revoked = Some n /\ apply_revoked_event (cn_granted_scopes c) f = Some (cn_granted_scopes c', n)) \/
   (frame = None /\ status <> KSD_STATUS_OK /\ status <> KSD_STATUS_REVOKED /\ cn_open c' = false)).
Proof.
  intros Hok. assert (Hfail : forall message, (let '(r, status, error, c) := event_failed c EPROTO message in
      (r, status, error, c, None)) = (frame, status, error, c', revoked) ->
    connection_ok c' /\ cn_events c' = cn_events c /\
    (frame = None /\ status <> KSD_STATUS_OK /\ status <> KSD_STATUS_REVOKED /\ cn_open c' = false)).
  { intros message. destruct (event_failed _ _ _) as [[[fr st] er] c1] eqn:E. intros [= <- <- <- <- <-].
    destruct (event_failed_spec _ _ _ _ _ _ _ Hok E) as (H1 & -> & H2 & H3 & H4 & H5). done. }
  unfold classify_event. destruct (Z.eqb_spec (fr_opcode f) KSD_OP_SESSION_REVOKED) as [Er|Er].
  - destruct (apply_revoked_event _ _) as [[granted n]|] eqn:Ea.
    + intros [= <- <- <- <- <-]. split; [by apply with_granted_ok|]. split; [done|]. right. left.
      repeat (split; [done|]). by exists n.
    + intros H. apply Hfail in H as (H1 & H2 & H3). split; [done|]. split; [done|]. by right; right.
  - destruct (_ || _) eqn:Eo.
    + intros H. apply Hfail in H as (H1 & H2 & H3). split; [done|]. split; [done|]. by right; right.
    + intros [= <- <- <- <- <-]. split; [done|]. split; [done|]. left. breflect. done.
Qed.

Lemma state_next_spec timeout start clear turns stream c event status error c' stream' :
  connection_ok c -> ksd_state_next timeout start clear turns stream c = Some (event, status, error, c', stream') ->
  connection_ok c' /\
  match event with
  | Some e => status = KSD_STATUS_OK /\ exists f, event_taken c c' f /\ shows c' f e
  | None =>
    status <> KSD_STATUS_OK /\
    (cn_open c' = true -> cn_events c' = cn_events c /\
       (status = KSD_STATUS_INVALID_REQUEST \/ (status = KSD_STATUS_TIMEOUT /\ cn_events c = [])))
  end.
Proof.
  intros Hok. unfold ksd_state_next. destruct (_ <? _); [by intros [= <- <- <- <- <-]; auto|].
  destruct (negb clear); [by intros [= <- <- <- <- <-]; auto|]. unfold read_event.
  destruct (await_event _ _ _ _ _) as [[[[[fr st] er] c1] s1]|] eqn:Ea; [|done]. cbn [from_option].
  destruct (await_event_spec _ _ _ _ _ _ _ _ _ _ Hok Ea) as [H1 H2]. destruct fr as [f|].
  2:{ destruct H2 as (He & He1 & Hs & Hr & Ht). rewrite (proj2 (Z.eqb_neq _ _) Hr). intros [= <- <- <- <- <-].
      split; [done|]. split; [done|]. intros Ho. split; [congruence|]. right. by split; [apply Ht|]. }
  destruct H2 as (-> & -> & Htaken).
  destruct (classify_event c1 KSD_OP_STATE_EVENT f) as [[[[fr2 st2] er2] c2] rv] eqn:Ec.
  destruct (classify_event_spec _ _ _ _ _ _ _ H1 Ec) as (G1 & G2 & G3).
  destruct G3 as [(-> & -> & -> & Ho & Hfl)|[(-> & -> & Hop & Ho & n & -> & Hap)|(-> & Hs & Hr & Ho)]].
  - change (KSD_STATUS_OK =? KSD_STATUS_REVOKED) with false. cbn match.
    destruct (ksd_state_event_decode _) as [e|] eqn:Ed.
    + intros [= <- <- <- <- <-]. destruct (ev_domain e =? KSD_STATE_GRANTS).
      * split; [by apply with_granted_ok|]. split; [done|]. exists f. split; [done|]. by left.
      * split; [done|]. split; [done|]. exists f. split; [done|]. by left.
    + destruct (event_failed c1 EPROTO _) as [[[fr3 st3] er3] c3] eqn:Ef. intros [= <- <- <- <- <-].
      destruct (event_failed_spec _ _ _ _ _ _ _ H1 Ef) as (K1 & _ & K2 & _ & K4 & _). split; [done|]. split; [done|congruence].
  - change (KSD_STATUS_REVOKED =? KSD_STATUS_REVOKED) with true. intros [= <- <- <- <- <-]. split; [done|]. split; [done|].
    exists f. split.
    + destruct Htaken as [T1 T2]. split; [congruence|]. by rewrite G2.
    + right. split; [done|]. by exists (cn_granted_scopes c1), n.
  - rewrite (proj2 (Z.eqb_neq _ _) Hr). intros [= <- <- <- <- <-]. split; [done|]. split; [done|congruence].
Qed.

(** *** Requests *)

Lemma request_spec c opcode payload length now late unwritten arrivals frames a
    (id := fst (next_request_id c)) (c1 := snd (next_request_id c)) :
  connection_ok c -> Forall arrival_ok arrivals ->
  request c opcode payload length now late unwritten arrivals = Some (frames, a) ->
  connection_ok (aw_connection a) /\
  match aw_response a with
  | None => aw_status a <> KSD_STATUS_OK /\ cn_open (aw_connection a) = false
  | Some _ => cn_open c = true /\ write_request opcode id length payload = Some frames /\
      response_met (now + cn_timeout_ms c) opcode id arrivals c1 a
  end.
Proof.
  intros Hok Hw. unfold request. change (next_request_id c) with (id, c1). cbn beta iota.
  assert (H1 : connection_ok c1) by by apply with_ids_ok. assert (Ho : cn_open c1 = cn_open c) by done.
  assert (Ht : cn_timeout_ms c1 = cn_timeout_ms c) by done. clearbody c1. rewrite <- Ht.
  assert (Hfail : forall errno message fs, Some (fs, fail_with c1 errno message []) = Some (frames, a) ->
    connection_ok (aw_connection a) /\
    match aw_response a with
    | None => aw_status a <> KSD_STATUS_OK /\ cn_open (aw_connection a) = false
    | Some _ => cn_open c = true /\ write_request opcode id length payload = Some frames /\ response_met (now + cn_timeout_ms c1) opcode id arrivals c1 a
    end).
  { intros errno message fs [= _ <-]. destruct (fail_with_spec c1 errno message [] H1) as (G1 & G2 & G3 & G4 & _).
    by rewrite G2. }
  destruct (cn_open c1) eqn:Eo; cbn [negb]; [|apply Hfail]. destruct (_ || _); [apply Hfail|].
  destruct late as [errno|]; [apply Hfail|]. destruct (write_request _ _ _ _) as [fs|] eqn:Ew; [|apply Hfail].
  destruct unwritten as [errno|]; [apply Hfail|].
  destruct (read_response _ opcode id arrivals c1) as [a1|] eqn:Er; [|done]. cbn [from_option]. intros [= <- <-].
  destruct (read_response_spec _ opcode id arrivals c1 a1 H1 Hw Er) as [G1 G2]. split; [done|].
  destruct (aw_response a1) as [r|] eqn:Ea; [by rewrite <- Ho|].
  destruct G2 as (before & last & rest & met & inp & _ & _ & _ & _ & G). rewrite Ea in G. by destruct G as (? & ? & _).
Qed.

(** A response is the one asked for, and no event is lost.  A call that
    succeeds or is refused by the service has the first frame after the request
    that is not an event, with its opcode and request number; the events before it
    are queued in the order they came, behind those already there; and a call that
    gets no response closes the connection. *)
Theorem request_answered c opcode payload length now late unwritten arrivals frames a
    (id := fst (next_request_id c)) (c1 := snd (next_request_id c)) :
  connection_ok c -> Forall arrival_ok arrivals ->
  request c opcode payload length now late unwritten arrivals = Some (frames, a) ->
  match aw_response a with
  | None => aw_status a <> KSD_STATUS_OK /\ cn_open (aw_connection a) = false
  | Some (r, frame, fd) =>
    write_request opcode id length payload = Some frames /\ fr_opcode frame = opcode /\ fr_request_id frame = id /\
    exists before last rest met input, arrivals = before ++ last :: rest /\
      frames_met (now + cn_timeout_ms c) (cn_role c) before (cn_input c) = Some (met, input) /\
      Forall (fun m => is_event (fst m) = true) met /\
      receive_response (now + cn_timeout_ms c) (cn_role c) last input = Some (Received frame, fd, cn_input (aw_connection a)) /\
      is_event frame = false /\ aw_status a = rs_status r /\
      take_response frame opcode id (cn_sequence c) = Some (r, aw_error a, cn_sequence (aw_connection a)) /\
      cn_events (aw_connection a) = cn_events c ++ state_events met /\
      aw_closed a = met_fds met /\ cn_open (aw_connection a) = true
  end.
Proof.
  intros Hc Hw Hr. destruct (request_spec _ _ _ _ _ _ _ _ _ _ Hc Hw Hr) as [_ H].
  destruct (aw_response a) as [[[r frame] fd]|] eqn:Ea; [|done].
  destruct H as (Ho & Hwr & before & last & rest & met & input & -> & Hm & Hb & Hev & H). rewrite Ea in H.
  destruct H as (Hl & Hn & Hs & Ht & Hop & Hcl). split; [done|].
  assert (Hid : fr_opcode frame = opcode /\ fr_request_id frame = fst (next_request_id c)).
  { unfold take_response in Ht. destruct (parse_response _ _ _) as [[r0 e0]|] eqn:Ep; [|done]. unfold parse_response in Ep.
    destruct (negb _) eqn:Eg in Ep; [|done]. breflect. done. }
  destruct Hid as [-> ->]. split; [done|]. split; [done|]. exists before, last, rest, met, input. rewrite Hop. done.
Qed.

(** Events are given in the order they came.  The next event an application
    gets is the first of those queued, and from the socket only when none is; a
    state event is the one its frame encodes, and a revocation tells the scopes
    that went away and those that are left.  Without an event the call fails and,
    as long as the connection is there, has changed nothing. *)
Theorem state_next_order timeout start clear turns stream c event status error c' stream' :
  connection_ok c -> ksd_state_next timeout start clear turns stream c = Some (event, status, error, c', stream') ->
  match event with
  | Some e => status = KSD_STATUS_OK /\ exists f, event_taken c c' f /\ shows c' f e
  | None =>
    status <> KSD_STATUS_OK /\
    (cn_open c' = true -> cn_events c' = cn_events c /\
       (status = KSD_STATUS_INVALID_REQUEST \/ (status = KSD_STATUS_TIMEOUT /\ cn_events c = [])))
  end.
Proof. intros Hc Hn. by apply (state_next_spec _ _ _ _ _ _ _ _ _ _ _ Hc) in Hn as [_ H]. Qed.

(** *** A socket in error *)

(** The reader finds nothing, in time for another wait. *)
Definition finds_nothing (timeout_ms deadline : Z) (turn : event_turn) (stream : list byte) (input : ksd_buffer)
    (stream' : list byte) (input' : ksd_buffer) : Prop :=
  receive_event_frame (et_calls turn) stream input = Some (NotYet, stream', input') /\ timeout_ms <> 0 /\
  (deadline = UINT64_MAX \/ et_now turn < deadline).

(** Waits that end with [poll] reporting an error of the socket, at once or after
    any number of times when it reported something to read. *)
Inductive finds_error (timeout_ms deadline : Z) : list event_turn -> list byte -> ksd_buffer -> Prop :=
| ErrorNow turn turns stream input stream' input' step waits revents :
    finds_nothing timeout_ms deadline turn stream input stream' input' ->
    et_wait turn = step :: waits -> ws_poll step = PollReady revents -> ksd_wait_until POLLIN deadline (et_wait turn) = Some WaitFailed ->
    finds_error timeout_ms deadline (turn :: turns) stream input
| ErrorLater turn turns stream input stream' input' :
    finds_nothing timeout_ms deadline turn stream input stream' input' ->
    ksd_wait_until POLLIN deadline (et_wait turn) = Some WaitOk -> finds_error timeout_ms deadline turns stream' input' ->
    finds_error timeout_ms deadline (turn :: turns) stream input.

Lemma await_error timeout_ms deadline turns stream input :
  finds_error timeout_ms deadline turns stream input -> forall c, cn_input c = input -> cn_open c = true -> cn_events c = [] ->
  exists error c' stream', await_event timeout_ms deadline turns stream c = Some (None, KSD_STATUS_TIMEOUT, error, c', stream') /\
    cn_open c' = false /\ cn_events c' = [] /\ error = set_error 0 EAGAIN (Some (cstr "desktop event wait failed")).
Proof.
  induction 1 as [turn turns stream input stream' input' step waits revents (Hr & Ht & Hd) Hw Hp Hf
    |turn turns stream input stream' input' (Hr & Ht & Hd) Hw _ IH]; intros c Hi Ho He;
    cbn [await_event]; unfold take_event; rewrite He, Ho, Hi, Hr; cbn [negb from_option].
  all: assert (Hlate : (timeout_ms =? 0) || (negb (deadline =? UINT64_MAX) && (deadline <=? et_now turn)) = false)
    by (rewrite (proj2 (Z.eqb_neq _ _) Ht); cbn; destruct (Z.eqb_spec deadline UINT64_MAX) as [|Hne]; [done|]; cbn;
        destruct Hd as [Hd|Hd]; [by destruct Hne|by apply Z.leb_gt]); rewrite Hlate.
  - rewrite Hf, Hw. cbn [wait_errno]. rewrite Hp. unfold event_failed, system_failure. cbn. rewrite Ho. by do 3 eexists.
  - rewrite Hw. by apply IH.
Qed.

(** A lost connection is reported as a timeout.  Whenever the wait for an
    event ends with [poll] reporting an error of the socket, at once or after waits
    that did not, [poll] has not set the errno, and the one [recv] left behind says
    that the call would block: the connection is closed, yet the application gets
    the status of a time that is up, with EAGAIN as its error; and every event it
    waits for from then on fails as not connected. *)
Theorem state_next_lost_as_timeout c timeout start turns stream
    (deadline := if timeout =? UINT32_MAX then UINT64_MAX else u64 (start + timeout)) :
  cn_open c = true -> cn_events c = [] -> timeout <= KSD_MAX_WATCH_TIMEOUT_MS ->
  finds_error timeout deadline turns stream (cn_input c) ->
  exists error c' stream',
    ksd_state_next timeout start true turns stream c = Some (None, KSD_STATUS_TIMEOUT, error, c', stream') /\
    er_system_error error = EAGAIN /\ cn_open c' = false /\
    forall timeout2 start2 turns2 stream2, timeout2 <= KSD_MAX_WATCH_TIMEOUT_MS ->
      exists error2, ksd_state_next timeout2 start2 true turns2 stream2 c' = Some (None, KSD_STATUS_UNAVAILABLE, error2, c', stream2)
        /\ er_system_error error2 = ENOTCONN.
Proof.
  intros Ho He Ht Hf. destruct (await_error _ _ _ _ _ Hf c eq_refl Ho He) as (error & c' & stream' & Ha & Ho' & He' & ->).
  do 3 eexists. split.
  - unfold ksd_state_next. rewrite (proj2 (Z.ltb_ge _ _) Ht). cbn [negb]. unfold read_event. cbv zeta. fold deadline. by rewrite Ha.
  - split; [done|]. split; [done|]. intros timeout2 start2 turns2 stream2 Ht2. eexists. split.
    + unfold ksd_state_next. rewrite (proj2 (Z.ltb_ge _ _) Ht2). cbn [negb]. unfold read_event.
      destruct turns2 as [|t ts]; cbn [await_event]; unfold take_event; rewrite He', Ho'; cbn [negb]; unfold event_failed, system_failure;
        rewrite Ho'; reflexivity.
    + done.
Qed.
End connection.

(** The stream may be cut anywhere.  However the bytes of valid frames arrive
    and however many of them each call of [recv] gives, with interruptions and
    calls that find nothing in between, the reader that does not block gives
    exactly those frames, in order, and keeps the rest. *)
Theorem receive_in_order {AL : Allocator} {AT : AllocTotal AL} fs batches future got stream input :
  Forall client_frame fs -> Forall (fun b => Forall calm (snd b)) batches ->
  concat (map fst batches) ++ future = frames_wire fs ->
  receive_frames batches [] (ksd_buffer_init (KSD_CLIENT_MAX_RESPONSE + KSD_FRAME_HEADER_SIZE)) = Some (got, stream, input) ->
  exists fs', fs = got ++ fs' /\ buf_bytes input ++ stream ++ future = frames_wire fs' /\ partial (buf_bytes input) fs'.
Proof.
  intros Hfs Hc E H.
  assert (Hp : partial [] fs).
  { destruct fs as [|f fs]; [done|]. cbn [partial]. rewrite zlen_nil. pose proof (Forall_inv Hfs) as Hf.
    rewrite zlen_frame_bytes by apply Hf. pose proof (client_frame_length f Hf). unfold KSD_FRAME_HEADER_SIZE. lia. }
  destruct (receive_frames_order batches fs future [] _ got stream input Hfs Hc fresh_reader_ok Hp E H) as (fs' & -> & H2 & H3).
  by exists fs'.
Qed.

(** *** Request numbers *)

Fixpoint request_ids (n : nat) (c : ksd_connection) : list Z :=
  match n with O => [] | S n => let '(id, c) := next_request_id c in id :: request_ids n c end.

Lemma next_request_id_spec c :
  0 <= cn_next_request_id c <= UINT64_MAX ->
  fst (next_request_id c) = 1 + cn_next_request_id c mod UINT64_MAX /\
  cn_next_request_id (snd (next_request_id c)) = fst (next_request_id c).
Proof.
  intros H. split; [|done]. unfold next_request_id. cbn [fst]. set (x := cn_next_request_id c) in *. unfold UINT64_MAX in *.
  destruct (Z.eq_dec x (2 ^ 64 - 1)) as [->|Hne].
  - by vm_compute.
  - unfold u64. rewrite (Z.mod_small (x + 1)) by lia. rewrite (Z.mod_small x) by lia.
    rewrite (proj2 (Z.eqb_neq _ _)) by lia. lia.
Qed.

Lemma request_ids_lookup n : forall c i id,
  0 <= cn_next_request_id c <= UINT64_MAX -> request_ids n c !! i = Some id ->
  id = 1 + (cn_next_request_id c + Z.of_nat i) mod UINT64_MAX.
Proof.
  induction n as [|n IH]; intros c i id H; [done|]. cbn [request_ids].
  destruct (next_request_id_spec c H) as [Hid Hnext]. destruct (next_request_id c) as [id0 c0]. cbn [fst snd] in *.
  assert (HM : UINT64_MAX <> 0) by done.
  destruct i as [|i]; [intros [= <-]; rewrite Z.add_0_r; exact Hid|].
  change ((id0 :: request_ids n c0) !! S i) with (request_ids n c0 !! i). intros Hi.
  pose proof (Z.mod_pos_bound (cn_next_request_id c) UINT64_MAX ltac:(done)).
  apply IH in Hi; [|lia]. rewrite Hi, Hnext, Hid. f_equal.
  replace (1 + cn_next_request_id c mod UINT64_MAX + Z.of_nat i) with (cn_next_request_id c mod UINT64_MAX + (1 + Z.of_nat i)) by lia.
  rewrite Z.add_mod_idemp_l by done. f_equal. lia.
Qed.

(** Request numbers.  No request is numbered 0, which belongs to events, and
    a number is not used again before 2^64 - 1 others were. *)
Theorem request_ids_distinct n c i j id :
  0 <= cn_next_request_id c <= UINT64_MAX -> request_ids n c !! i = Some id ->
  1 <= id <= UINT64_MAX /\
  (request_ids n c !! j = Some id -> Z.abs (Z.of_nat i - Z.of_nat j) < UINT64_MAX -> i = j).
Proof.
  intros H Hi. apply (request_ids_lookup n c i id H) in Hi as ->.
  pose proof (Z.mod_pos_bound (cn_next_request_id c + Z.of_nat i) UINT64_MAX ltac:(done)). split; [lia|].
  intros Hj Hd. apply (request_ids_lookup n c j _ H) in Hj.
  set (x := cn_next_request_id c) in *.
  assert (Hm : (x + Z.of_nat i) mod UINT64_MAX = (x + Z.of_nat j) mod UINT64_MAX) by lia.
  pose proof (Z.div_mod (x + Z.of_nat i) UINT64_MAX ltac:(done)). pose proof (Z.div_mod (x + Z.of_nat j) UINT64_MAX ltac:(done)).
  set (a := (x + Z.of_nat i) / UINT64_MAX) in *. set (b := (x + Z.of_nat j) / UINT64_MAX) in *.
  assert (Z.of_nat i - Z.of_nat j = UINT64_MAX * (a - b)) by lia. unfold UINT64_MAX in *.
  assert (a = b) by nia. lia.
Qed.

(** ** Witnesses *)

#[local] Existing Instance infinite_memory.

Definition sample_options : connect_options := mk_options KSD_ROLE_AUTHORIZATION_LEASE KSD_AUTH_CHECK 0 1000 0 0.
Definition sample_event_frame : ksd_frame :=
  let payload := event_bytes (copy_event sample_window) in
  mk_frame ksd_public_magic KSD_PROTOCOL_MAJOR KSD_PROTOCOL_MINOR KSD_OP_STATE_EVENT KSD_FLAG_EVENT (zlen payload) 0 (Some payload).
Definition sample_response_frame : ksd_frame :=
  mk_frame ksd_public_magic KSD_PROTOCOL_MAJOR KSD_PROTOCOL_MINOR KSD_OP_STATE_SUBSCRIBE KSD_FLAG_RESPONSE 8 1
    (Some (ksd_encode_u64 0)).
(** An event comes before the answer to a subscription. *)
Definition sample_wire : list byte := frames_wire [sample_event_frame; sample_response_frame].
(** The socket gives the event in two pieces, with a wait in between. *)
Definition sample_arrivals : list arrival :=
  [ArrivedStream [([RecvBytes 40; RecvAgain], [mk_wait 101 (PollReady POLLIN)]); (repeat (RecvBytes 8192) 3, [])] sample_wire;
   ArrivedStream [(repeat (RecvBytes 8192) 3, [])] (frames_wire [sample_response_frame])].
Definition subscribed_request : list ksd_frame * answered :=
  default ([], mk_answered 0 None no_error (fresh_connection sample_options) [])
    (request (fresh_connection sample_options) KSD_OP_STATE_SUBSCRIBE (Some (ksd_encode_u32 1)) 4 100 None None sample_arrivals).
Definition subscribed_connection : ksd_connection := aw_connection (snd subscribed_request).

Lemma sample_frame_ok f :
  f = sample_event_frame \/ f = sample_response_frame -> client_frame f.
Proof.
  assert (H : forall f, f = sample_event_frame \/ f = sample_response_frame ->
    zlen (fr_magic f) = 4 /\ (fr_opcode f <? 2 ^ 16) = true /\ (0 <=? fr_opcode f) = true /\ fr_major f = KSD_PROTOCOL_MAJOR /\
    fr_minor f = KSD_PROTOCOL_MINOR /\ (0 <=? fr_flags f) && (fr_flags f <? 2 ^ 16) = true /\
    fr_payload_length f = zlen (default [] (fr_payload f)) /\ (0 <? fr_payload_length f) && (fr_payload_length f <? 2 ^ 32) = true /\
    (0 <=? fr_request_id f) && (fr_request_id f <? 2 ^ 64) = true /\ fr_payload f <> None /\
    frame_header_acceptable client_rules f = true).
  { intros f0 [->| ->]; vm_compute; repeat split; discriminate. }
  intros Hf. destruct (H f Hf) as (H1 & H2 & H3 & H4 & H5 & H6 & H7 & H8 & H9 & H10 & H11). breflect.
  split; [|done]. split; [|split; [done|split; [done|lia]]].
  unfold header_wf, is_u16, is_u32, is_u64, KSD_PROTOCOL_MAJOR, KSD_PROTOCOL_MINOR in *. lia.
Qed.

Lemma sample_arrivals_ok : Forall arrival_ok sample_arrivals.
Proof. by repeat constructor. Qed.

Lemma subscribed_request_eq :
  request (fresh_connection sample_options) KSD_OP_STATE_SUBSCRIBE (Some (ksd_encode_u32 1)) 4 100 None None sample_arrivals
  = Some subscribed_request.
Proof. vm_compute. reflexivity. Qed.

Lemma subscribed_ok : connection_ok subscribed_connection.
Proof.
  apply (request_spec (fresh_connection sample_options) KSD_OP_STATE_SUBSCRIBE (Some (ksd_encode_u32 1)) 4 100 None None
    sample_arrivals (fst subscribed_request)); [apply fresh_connection_ok|apply sample_arrivals_ok|].
  rewrite subscribed_request_eq. by destruct subscribed_request.
Qed.

Lemma request_answered_witness :
  let a := snd subscribed_request in
  match aw_response a with
  | None => False
  | Some (r, frame, fd) =>
    frame = sample_response_frame /\ fr_request_id frame = 1 /\ cn_events (aw_connection a) = [sample_event_frame]
  end.
Proof.
  pose proof (request_answered (fresh_connection sample_options) KSD_OP_STATE_SUBSCRIBE (Some (ksd_encode_u32 1)) 4 100 None None
    sample_arrivals (fst subscribed_request) (snd subscribed_request) (fresh_connection_ok _) sample_arrivals_ok
    ltac:(rewrite subscribed_request_eq; by destruct subscribed_request)) as H.
  cbn zeta in *. destruct (aw_response (snd subscribed_request)) as [[[r frame] fd]|] eqn:E; [|vm_compute in E; discriminate E].
  destruct H as (_ & _ & Hid & _). vm_compute in E. injection E as _ <- _. split; [reflexivity|]. split; [exact Hid|].
  vm_compute. reflexivity.
Defined.

Lemma state_next_order_witness :
  match ksd_state_next 1000 100 true [] [] subscribed_connection with
  | Some (Some e, status, _, c', _) => status = KSD_STATUS_OK /\ cn_events c' = [] /\ cn_pending c' = 0 /\
      exists f, event_taken subscribed_connection c' f /\ shows c' f e
  | _ => False
  end.
Proof.
  destruct (ksd_state_next 1000 100 true [] [] subscribed_connection) as [[[[[event status] error] c'] stream']|] eqn:E;
    [|vm_compute in E; discriminate E].
  pose proof (state_next_order _ _ _ _ _ _ _ _ _ _ _ subscribed_ok E) as H.
  destruct event as [e|]; [|vm_compute in E; discriminate E]. destruct H as [Hs Hf].
  assert (Hc : Some c' = option_map (fun r => snd (fst r)) (ksd_state_next 1000 100 true [] [] subscribed_connection))
    by (rewrite E; reflexivity).
  vm_compute in Hc. injection Hc as Hc. split; [exact Hs|]. split; [by rewrite Hc|]. split; [by rewrite Hc|]. exact Hf.
Defined.

(** Two frames, of which one and a half have arrived. *)
Definition sample_batches : list (list byte * list recv_outcome) :=
  let wire := frames_wire [sample_response_frame; sample_event_frame] in
  [(ztake 10 wire, [RecvBytes 7; RecvIntr; RecvBytes 7; RecvBytes 1]);
   (ztake 30 (zdrop 10 wire), [RecvBytes 100; RecvBytes 100; RecvBytes 100; RecvAgain])].

Lemma receive_in_order_witness :
  exists got stream input, receive_frames sample_batches []
      (ksd_buffer_init (KSD_CLIENT_MAX_RESPONSE + KSD_FRAME_HEADER_SIZE)) = Some (got, stream, input) /\
    got = [sample_response_frame] /\
    exists fs', [sample_response_frame; sample_event_frame] = got ++ fs' /\
      buf_bytes input ++ stream ++ zdrop 40 (frames_wire [sample_response_frame; sample_event_frame]) = frames_wire fs' /\
      partial (buf_bytes input) fs'.
Proof.
  destruct (receive_frames sample_batches [] (ksd_buffer_init (KSD_CLIENT_MAX_RESPONSE + KSD_FRAME_HEADER_SIZE)))
    as [[[got stream] input]|] eqn:E; [|vm_compute in E; discriminate E].
  exists got, stream, input. split; [reflexivity|]. split.
  - apply (f_equal (option_map (fun r => fst (fst r)))) in E. vm_compute in E. injection E as <-. reflexivity.
  - apply (receive_in_order _ sample_batches (zdrop 40 (frames_wire [sample_response_frame; sample_event_frame]))).
    + repeat constructor; apply sample_frame_ok; auto.
    + repeat constructor.
    + vm_compute. reflexivity.
    + exact E.
Defined.

Lemma request_ids_distinct_witness :
  1 <= UINT64_MAX <= UINT64_MAX /\
  (request_ids 3 (with_ids (fresh_connection sample_options) (UINT64_MAX - 1) 0) !! 1%nat = Some UINT64_MAX ->
   Z.abs (Z.of_nat 0 - Z.of_nat 1) < UINT64_MAX -> 0%nat = 1%nat).
Proof.
  apply (request_ids_distinct 3 (with_ids (fresh_connection sample_options) (UINT64_MAX - 1) 0) 0 1 UINT64_MAX).
  - vm_compute. split; discriminate.
  - vm_compute. reflexivity.
Defined.

(** One wait that finds something and one that finds the error. *)
Definition lost_turns : list event_turn :=
  [mk_event_turn [RecvAgain] 150 [mk_wait 150 (PollReady POLLIN)];
   mk_event_turn [RecvAgain] 160 [mk_wait 160 (PollReady (Z.lor POLLERR POLLHUP))]].
Lemma state_next_lost_as_timeout_witness : exists error c' stream',
  ksd_state_next 1000 100 true lost_turns [] (fresh_connection sample_options) = Some (None, KSD_STATUS_TIMEOUT, error, c', stream') /\
  cn_open c' = false.
Proof.
  destruct (state_next_lost_as_timeout (fresh_connection sample_options) 1000 100 lost_turns []) as (error & c' & stream' & H & _ & Ho & _).
  - reflexivity.
  - reflexivity.
  - vm_compute. discriminate.
  - eapply ErrorLater; [repeat split; [discriminate|right; vm_compute; reflexivity]|vm_compute; reflexivity|].
    eapply ErrorNow; [repeat split; [discriminate|right; vm_compute; reflexivity]|vm_compute; reflexivity..].
  - exists error, c', stream'. split; [exact H|exact Ho].
Defined.
