(* ===== verification/ClientCalls.v ===== *)
(** * The calls of a client (src/client.c)

    What every call of the library sends, with the arguments it refuses, and what
    it makes of the answer.  A call is the operation and the payload it sends,
    [None] when an argument is invalid; the checks of the output records an
    application passes in, and of NULL pointers, are left out.  Text is a C string
    without its terminator, [i32] arguments are integers of that range. *)
From Stdlib Require Import ZArith Lia Strings.Byte Strings.String.
From stdpp Require Import base list option numbers tactics.
From S2P Require Import Prelude.
From S2P Require Import Protocol.
From S2P Require Import Codec.
From S2P Require Import Buffer.
From S2P Require Import Utf8.
From S2P Require Import Frame.
From S2P Require Import Assembly.
From S2P Require Import Operations.
From S2P Require Import StateWire.
From S2P Require Import Response.
From S2P Require Import Observe.
From S2P Require Import Client.
Local Open Scope Z_scope.
Local Open Scope ksd_scope.

(** ** What is sent *)

(** The operation and the payload; NULL is sent for no payload. *)
Definition call := option (Z * option (list byte)).
Definition payload_length (payload : option (list byte)) : Z := zlen (default [] payload).
Definition send (opcode : Z) (payload : list byte) : call := Some (opcode, Some payload).
Definition send_nothing (opcode : Z) : call := Some (opcode, None).

(** *** Geometry *)

Definition valid_rectangle (x y width height : Z) : bool :=
  negb (width =? 0) && negb (height =? 0) && (width <=? KSD_MAX_CAPTURE_DIMENSION) && (height <=? KSD_MAX_CAPTURE_DIMENSION)
  && (x + width <=? INT32_MAX) && (y + height <=? INT32_MAX).
Definition valid_window_geometry (x y width height : Z) : bool :=
  negb ((x =? INT32_MIN) && (y =? INT32_MIN) && (width =? 0) && (height =? 0))
  && (width <=? KSD_MAX_CAPTURE_DIMENSION) && (height <=? KSD_MAX_CAPTURE_DIMENSION)
  && ((x =? INT32_MIN) || (width =? 0) || (x + width <=? INT32_MAX))
  && ((y =? INT32_MIN) || (height =? 0) || (y + height <=? INT32_MAX)).
Definition valid_capture_rectangle (x y width height : Z) : bool :=
  valid_rectangle x y width height && (u64 (width * height) <=? KSD_MAX_CAPTURE_PIXELS).

(** *** Captures *)

Definition ksd_capture_area (x y width height : Z) : call :=
  if valid_capture_rectangle x y width height
  then send KSD_OP_CAPTURE_AREA (ksd_encode_u32 (u32 x) ++ ksd_encode_u32 (u32 y) ++ ksd_encode_u32 width ++ ksd_encode_u32 height)
  else None.
Definition ksd_capture_desktop : call := send_nothing KSD_OP_CAPTURE_DESKTOP.
Definition ksd_capture_window (window_id : list byte) (include_decoration : Z) : call :=
  if (include_decoration <=? 1) && (1 <=? zlen window_id) && (zlen window_id <=? 128) && ksd_utf8_valid window_id false
  then send KSD_OP_CAPTURE_WINDOW (ksd_encode_u32 include_decoration ++ ksd_encode_u32 (zlen window_id) ++ window_id)
  else None.

(** *** Queries *)

Definition ksd_cursor_position : call := send_nothing KSD_OP_CURSOR_POSITION.
Definition ksd_work_area : call := send_nothing KSD_OP_WORK_AREA.
Definition ksd_window_list_json (include_hidden : Z) : call :=
  if include_hidden <=? 1 then send KSD_OP_WINDOW_LIST (ksd_encode_u32 include_hidden ++ ksd_encode_u32 0) else None.
Definition ksd_window_handles_json : call := send_nothing KSD_OP_WINDOW_HANDLES.
Definition ksd_window_active_json : call := send_nothing KSD_OP_WINDOW_ACTIVE.
Definition request_window_json (opcode handle : Z) : call :=
  if handle =? 0 then None else send opcode (ksd_encode_u64 handle).
Definition ksd_window_query_json (handle : Z) : call := request_window_json KSD_OP_WINDOW_QUERY handle.
Definition ksd_window_children_json (parent : Z) : call := request_window_json KSD_OP_WINDOW_CHILDREN parent.
Definition ksd_window_at_point_json (x y deepest : Z) : call :=
  if deepest <=? 1
  then send KSD_OP_WINDOW_AT_POINT (ksd_encode_u32 (u32 x) ++ ksd_encode_u32 (u32 y) ++ ksd_encode_u32 deepest ++ ksd_encode_u32 0)
  else None.
Definition ksd_display_list_json : call := send_nothing KSD_OP_DISPLAY_LIST.
Definition ksd_keyboard_state_json : call := send_nothing KSD_OP_KEYBOARD_STATE.
Definition ksd_keyboard_state_since_json (known_revision : list byte) : call :=
  if (zlen known_revision <=? 64) && ksd_utf8_valid known_revision false
  then send KSD_OP_KEYBOARD_STATE (ksd_encode_u32 (zlen known_revision) ++ known_revision)
  else None.

(** *** Windows *)

Definition request_handle (opcode handle : Z) : call := if handle =? 0 then None else send opcode (ksd_encode_u64 handle).
Definition ksd_window_focus (handle : Z) : call := request_handle KSD_OP_WINDOW_FOCUS handle.
Definition ksd_window_raise (handle : Z) : call := request_handle KSD_OP_WINDOW_RAISE handle.
Definition ksd_window_lower (handle : Z) : call := request_handle KSD_OP_WINDOW_LOWER handle.
Definition ksd_window_close (handle : Z) : call := request_handle KSD_OP_WINDOW_CLOSE handle.
Definition ksd_window_kill (handle : Z) : call := request_handle KSD_OP_WINDOW_KILL handle.
Definition ksd_window_redraw (handle : Z) : call := request_handle KSD_OP_WINDOW_REDRAW handle.
Definition ksd_window_focus_child (handle : Z) : call := request_handle KSD_OP_WINDOW_FOCUS_CHILD handle.

Definition request_geometry (opcode handle x y width height : Z) : call :=
  if negb (handle =? 0) && valid_window_geometry x y width height
  then send opcode (ksd_encode_u64 handle ++ ksd_encode_u32 (u32 x) ++ ksd_encode_u32 (u32 y) ++ ksd_encode_u32 width
                    ++ ksd_encode_u32 height)
  else None.
Definition ksd_window_move_resize : Z -> Z -> Z -> Z -> Z -> call := request_geometry KSD_OP_WINDOW_MOVE_RESIZE.
Definition ksd_window_move_resize_xid : Z -> Z -> Z -> Z -> Z -> call := request_geometry KSD_OP_WINDOW_MOVE_RESIZE_XID.

(** A word, and four bytes left over. *)
Definition request_window_value (opcode handle value maximum : Z) : call :=
  if negb (handle =? 0) && (value <=? maximum)
  then send opcode (ksd_encode_u64 handle ++ ksd_encode_u32 value ++ ksd_encode_u32 0)
  else None.
Definition ksd_window_set_state (handle state : Z) : call :=
  request_window_value KSD_OP_WINDOW_SET_STATE handle state KSD_WINDOW_STATE_UNMINIMIZED.
Definition ksd_window_set_opacity (handle opacity : Z) : call := request_window_value KSD_OP_WINDOW_SET_OPACITY handle opacity 255.
Definition ksd_window_set_above (handle above : Z) : call := request_window_value KSD_OP_WINDOW_SET_ABOVE handle above 1.
Definition ksd_window_set_decorated (handle decorated : Z) : call :=
  request_window_value KSD_OP_WINDOW_SET_DECORATED handle decorated 1.
Definition ksd_window_set_skip_taskbar (handle skip : Z) : call :=
  request_window_value KSD_OP_WINDOW_SET_SKIP_TASKBAR handle skip 1.
Definition ksd_window_set_visible (handle visible : Z) : call := request_window_value KSD_OP_WINDOW_SET_VISIBLE handle visible 1.

Definition ksd_window_set_title (handle : Z) (title : list byte) : call :=
  if negb (handle =? 0) && (zlen title <=? KSD_MAX_REQUEST_PAYLOAD - 12) && ksd_utf8_valid title false
  then send KSD_OP_WINDOW_SET_TITLE (ksd_encode_u64 handle ++ ksd_encode_u32 (zlen title) ++ title)
  else None.
Definition ksd_window_click (handle x y button count : Z) : call :=
  if negb (handle =? 0) && (1 <=? button) && (button <=? 5) && (1 <=? count) && (count <=? 100)
  then send KSD_OP_WINDOW_CLICK (ksd_encode_u64 handle ++ ksd_encode_u32 (u32 x) ++ ksd_encode_u32 (u32 y)
                                 ++ ksd_encode_u32 button ++ ksd_encode_u32 count)
  else None.
Definition ksd_window_button (handle x y button down : Z) : call :=
  if negb (handle =? 0) && (1 <=? button) && (button <=? 32) && (down <=? 1)
  then send KSD_OP_WINDOW_BUTTON (ksd_encode_u64 handle ++ ksd_encode_u32 (u32 x) ++ ksd_encode_u32 (u32 y)
                                  ++ ksd_encode_u32 button ++ ksd_encode_u32 down)
  else None.
Definition ksd_window_reserve (cookie x y ttl_ms : Z) : call :=
  if negb (cookie =? 0) && negb (ttl_ms =? 0) && (ttl_ms <=? 60000)
  then send KSD_OP_WINDOW_RESERVE (ksd_encode_u64 cookie ++ ksd_encode_u32 (u32 x) ++ ksd_encode_u32 (u32 y)
                                   ++ ksd_encode_u32 ttl_ms ++ ksd_encode_u32 0)
  else None.
Definition ksd_window_get_reserved (cookie : Z) : call :=
  if cookie =? 0 then None else send KSD_OP_WINDOW_GET_RESERVED (ksd_encode_u64 cookie).

(** *** The clipboard *)

Definition ksd_clipboard_mimetypes : call := send_nothing KSD_OP_CLIPBOARD_MIMETYPES.
Definition valid_mimetype (mimetype : list byte) : bool :=
  (1 <=? zlen mimetype) && (zlen mimetype <=? KSD_MAX_MIMETYPE_BYTES) && ksd_utf8_valid mimetype false.
Definition ksd_clipboard_content (mimetype : list byte) : call :=
  if valid_mimetype mimetype then send KSD_OP_CLIPBOARD_CONTENT (ksd_encode_u32 (zlen mimetype) ++ mimetype) else None.
Definition ksd_clipboard_text : call := send_nothing KSD_OP_CLIPBOARD_TEXT.
Definition KSD_CLIPBOARD_TEXT_MIMETYPE : list byte := cstr "text/plain;charset=utf-8".
Definition clipboard_write (mimetype data : list byte) : call :=
  if valid_mimetype mimetype && (zlen data <=? KSD_MAX_CLIPBOARD_WRITE_BYTES)
     && (negb (bytes_eqb mimetype KSD_CLIPBOARD_TEXT_MIMETYPE) || ksd_utf8_valid data false)
  then send KSD_OP_CLIPBOARD_SET_CONTENT (ksd_encode_u32 (zlen mimetype) ++ mimetype ++ ksd_encode_u32 (zlen data) ++ data)
  else None.
Definition ksd_clipboard_set_content : list byte -> list byte -> call := clipboard_write.
Definition ksd_clipboard_set_text (text : list byte) : call := clipboard_write KSD_CLIPBOARD_TEXT_MIMETYPE text.

(** *** The pointer *)

Definition request_pair (opcode first second : Z) : call := send opcode (ksd_encode_u32 first ++ ksd_encode_u32 second).
Definition ksd_mouse_move_absolute (x y : Z) : call := request_pair KSD_OP_MOUSE_MOVE_ABSOLUTE (u32 x) (u32 y).
Definition ksd_mouse_move_relative (dx dy : Z) : call := request_pair KSD_OP_MOUSE_MOVE_RELATIVE (u32 dx) (u32 dy).
Definition ksd_mouse_button (button pressed : Z) : call :=
  if any_of button [1; 2; 3; 8; 9] && (pressed <=? 1) then request_pair KSD_OP_MOUSE_BUTTON button pressed else None.
Definition ksd_mouse_scroll (delta vertical : Z) : call :=
  if negb (delta =? 0) && (- KSD_MAX_MOUSE_SCROLL_DELTA <=? delta) && (delta <=? KSD_MAX_MOUSE_SCROLL_DELTA) && (vertical <=? 1)
  then request_pair KSD_OP_MOUSE_SCROLL (u32 delta) vertical else None.

(** *** The service *)

Definition ksd_ping : call := send_nothing KSD_OP_PING.
Definition ksd_state_subscribe (domains : Z) : call :=
  if Z.land domains (u32 (Z.lnot KSD_STATE_ALL)) =? 0 then send KSD_OP_STATE_SUBSCRIBE (ksd_encode_u32 domains) else None.
Definition ksd_authorize (mode requested_scopes : Z) : call :=
  if negb (requested_scopes =? 0) && (Z.land requested_scopes (u32 (Z.lnot KSD_DESKTOP_ACCEPTED_SCOPES)) =? 0)
     && ((mode =? KSD_AUTH_CHECK) || (mode =? KSD_AUTH_REQUEST))
  then send KSD_OP_AUTHORIZE (ksd_encode_u16 mode ++ ksd_encode_u16 0 ++ ksd_encode_u32 requested_scopes ++ ksd_encode_u64 0)
  else None.

(** ** What is received *)

Section results.
Context {AL : Allocator}.

Definition parse_owned_string (data : list byte) (prefixed : bool) : option (list byte) :=
  let* text :=
    (if prefixed then
       let cursor := ksd_cursor_init data (zlen data) in
       let* (length, cursor) := ksd_cursor_u32 cursor in
       guard* length <=? KSD_MAX_TEXT_BYTES in
       let* (text, cursor) := ksd_cursor_bytes cursor length in
       guard* ksd_cursor_finished cursor in Some text
     else Some data) in
  guard* (zlen text <=? KSD_MAX_TEXT_BYTES) && ksd_utf8_valid text false in
  guard* alloc_ok (zlen text + 1) in Some text.

Definition parse_owned_bytes (data : list byte) : option (list byte) :=
  let cursor := ksd_cursor_init data (zlen data) in
  let* (length, cursor) := ksd_cursor_u32 cursor in
  guard* length <=? KSD_MAX_TEXT_BYTES in
  let* (value, cursor) := ksd_cursor_bytes cursor length in
  guard* ksd_cursor_finished cursor in
  guard* (length =? 0) || alloc_ok length in Some value.

Fixpoint parse_items (count : nat) (cursor : ksd_cursor) : option (list (list byte) * ksd_cursor) :=
  match count with
  | O => Some ([], cursor)
  | S count =>
    let* (length, cursor) := ksd_cursor_u32 cursor in
    guard* negb (length =? 0) && (length <=? KSD_MAX_MIMETYPE_BYTES) in
    let* (item, cursor) := ksd_cursor_bytes cursor length in
    let* item := parse_owned_string item false in
    let* (items, cursor) := parse_items count cursor in
    Some (item :: items, cursor)
  end.

(** The size of a [ksd_string]. *)
Definition STRING_SIZE : Z := 40.

Definition parse_string_list_tail (data : list byte) : option (list (list byte)) :=
  let cursor := ksd_cursor_init data (zlen data) in
  let* (count, cursor) := ksd_cursor_u32 cursor in
  let* (reserved, cursor) := ksd_cursor_u32 cursor in
  guard* (count <=? KSD_MAX_MIMETYPES) && (reserved =? 0) in
  guard* (count =? 0) || alloc_ok (count * STRING_SIZE) in
  let* (items, cursor) := parse_items (Z.to_nat count) cursor in
  guard* ksd_cursor_finished cursor in Some items.

Record ksd_capture := mk_capture { cap_format : Z; cap_width : Z; cap_height : Z; cap_stride : Z; cap_data : list byte }.

(** The format and the sizes of a capture agree. *)
Definition valid_capture (c : ksd_capture) : bool :=
  let byte_length := zlen (cap_data c) in
  negb ((cap_width c =? 0) || (cap_height c =? 0) || (KSD_MAX_CAPTURE_DIMENSION <? cap_width c)
        || (KSD_MAX_CAPTURE_DIMENSION <? cap_height c) || (KSD_MAX_CAPTURE_PIXELS <? u64 (cap_width c * cap_height c))
        || (byte_length =? 0) || (KSD_MAX_CAPTURE_BYTES <? byte_length)
        || ((cap_format c =? KSD_CAPTURE_FORMAT_PNG) && negb (cap_stride c =? 0))
        || ((cap_format c =? KSD_CAPTURE_FORMAT_BGRA8_PREMULTIPLIED)
            && ((cap_stride c <? u64 (cap_width c * 4)) || negb (u64 (cap_stride c * cap_height c) =? byte_length)))
        || (negb (cap_format c =? KSD_CAPTURE_FORMAT_PNG) && negb (cap_format c =? KSD_CAPTURE_FORMAT_BGRA8_PREMULTIPLIED))).

Definition parse_capture_tail (data : list byte) : option ksd_capture :=
  let cursor := ksd_cursor_init data (zlen data) in
  let* (format, cursor) := ksd_cursor_u16 cursor in
  let* (reserved, cursor) := ksd_cursor_u16 cursor in
  let* (width, cursor) := ksd_cursor_u32 cursor in
  let* (height, cursor) := ksd_cursor_u32 cursor in
  let* (stride, cursor) := ksd_cursor_u32 cursor in
  let* (byte_length, cursor) := ksd_cursor_u32 cursor in
  let* (bytes, cursor) := ksd_cursor_bytes cursor byte_length in
  let capture := mk_capture format width height stride bytes in
  guard* ksd_cursor_finished cursor && (reserved =? 0) && valid_capture capture in
  guard* alloc_ok byte_length in Some capture.

(** The file a capture came in, [None] when the descriptor does not refer to a file
    that is sealed, regular and of a length allowed, or cannot be mapped. *)
Definition mapped_capture (file : option (list byte)) (fd : Z) : option ksd_capture :=
  guard* 0 <=? fd in
  let* contents := file in
  guard* (20 <=? zlen contents) && (zlen contents <=? KSD_MAX_CAPTURE_TAIL) in
  parse_capture_tail contents.

(** *** Ending a call *)

(** The status and the result of a call whose answer has to be read in a certain
    way; an answer that cannot be ends the connection. *)
Definition finish {A} (a : answered) (parse : ksd_client_response -> ksd_frame -> Z -> option A) (message : string)
    : Z * option A * ksd_error * ksd_connection :=
  match aw_response a with
  | None => (aw_status a, None, aw_error a, aw_connection a)
  | Some (response, frame, fd) =>
    if negb (aw_status a =? KSD_STATUS_OK) then (aw_status a, None, aw_error a, aw_connection a)
    else
      match (if is_part frame then None else parse response frame fd) with
      | Some x => (KSD_STATUS_OK, Some x, aw_error a, aw_connection a)
      | None =>
        let '(status, error, c) := system_failure (aw_connection a) EPROTO (cstr message) in (status, None, error, c)
      end
  end.

Definition request_empty_result (a : answered) : Z * option unit * ksd_error * ksd_connection :=
  finish a (fun r _ _ => guard* zlen (rs_tail r) =? 0 in Some tt) "desktop service returned invalid operation data".
Definition request_string_result (a : answered) : Z * option (list byte) * ksd_error * ksd_connection :=
  finish a (fun r _ _ => parse_owned_string (rs_tail r) true) "desktop service returned invalid text data".
Definition request_capture (file : option (list byte)) (a : answered) : Z * option ksd_capture * ksd_error * ksd_connection :=
  finish a (fun _ _ fd => mapped_capture file fd) "desktop service returned invalid capture data".

Definition cursor_position_result (a : answered) : Z * option (Z * Z) * ksd_error * ksd_connection :=
  finish a (fun r _ _ =>
      let tail := rs_tail r in
      guard* zlen tail =? 8 in Some (i32 (ksd_decode_u32 tail), i32 (ksd_decode_u32 (zdrop 4 tail))))
    "desktop service returned invalid cursor-position data".
Definition work_area_result (a : answered) : Z * option (Z * Z * Z * Z) * ksd_error * ksd_connection :=
  finish a (fun r _ _ =>
      let tail := rs_tail r in
      guard* zlen tail =? 16 in
      let x := i32 (ksd_decode_u32 tail) in
      let y := i32 (ksd_decode_u32 (zdrop 4 tail)) in
      let width := ksd_decode_u32 (zdrop 8 tail) in
      let height := ksd_decode_u32 (zdrop 12 tail) in
      guard* negb ((width =? 0) || (height =? 0) || (INT32_MAX <? width) || (INT32_MAX <? height)
                   || (INT32_MAX <? x + width) || (INT32_MAX <? y + height)) in
      Some (x, y, width, height))
    "desktop service returned invalid work-area data".
Definition get_reserved_result (a : answered) : Z * option Z * ksd_error * ksd_connection :=
  finish a (fun r _ _ =>
      guard* (zlen (rs_tail r) =? 8) && negb (ksd_decode_u64 (rs_tail r) =? 0) in Some (ksd_decode_u64 (rs_tail r)))
    "desktop service returned an invalid window".
Definition mimetypes_result (a : answered) : Z * option (list (list byte)) * ksd_error * ksd_connection :=
  finish a (fun r _ _ => parse_string_list_tail (rs_tail r)) "desktop service returned invalid formats".
Definition content_result (a : answered) : Z * option (list byte) * ksd_error * ksd_connection :=
  finish a (fun r _ _ => parse_owned_bytes (rs_tail r)) "desktop service returned invalid clipboard data".

(** The scopes granted, which the connection keeps. *)
Definition authorize_result (a : answered) : Z * option Z * ksd_error * ksd_connection :=
  let '(status, granted, error, c) :=
    finish a (fun r _ _ =>
        let cursor := ksd_cursor_init (rs_tail r) (zlen (rs_tail r)) in
        let* (granted, cursor) := ksd_cursor_u32 cursor in
        let* (reserved, cursor) := ksd_cursor_u32 cursor in
        guard* ksd_cursor_finished cursor && (reserved =? 0) in
        Some (Z.land granted KSD_DESKTOP_ACCEPTED_SCOPES))
      "desktop service returned invalid authorization" in
  (status, granted, error, match granted with Some g => with_granted c g | None => c end).

(** *** A whole call *)

Definition valid_rpc (c : ksd_connection) : bool := cn_role c =? KSD_ROLE_RPC.

(** A call on a connection of the right role; [message] is of its arguments. *)
Definition perform {A} (role_ok : bool) (c : ksd_connection) (what : call) (message : string) (now : Z)
    (late unwritten : option Z) (arrivals : list arrival) (result : answered -> Z * option A * ksd_error * ksd_connection)
    : option (list ksd_frame * (Z * option A * ksd_error * ksd_connection)) :=
  match what with
  | Some (opcode, payload) =>
    if negb role_ok then let '(status, error) := invalid_argument (cstr message) in Some ([], (status, None, error, c))
    else
      let* (frames, a) := request c opcode payload (payload_length payload) now late unwritten arrivals in
      Some (frames, result a)
  | None => let '(status, error) := invalid_argument (cstr message) in Some ([], (status, None, error, c))
  end.
End results.

(** ** What the authority makes of a call *)

Definition call_frame (opcode id : Z) (payload : list byte) : ksd_frame :=
  mk_frame ksd_public_magic KSD_PROTOCOL_MAJOR KSD_PROTOCOL_MINOR opcode 0 (zlen payload) id (Some payload).

Lemma request_handle_call opcode id h p : is_u64 h -> Observe.request_handle (call_frame opcode id (ksd_encode_u64 h ++ p)) = h.
Proof.
  intros H. unfold Observe.request_handle, request_payload. cbn [call_frame fr_payload default].
  etransitivity; [apply decode_encode_u64|by apply u64_id].
Qed.

(** The word that follows a part of known length. *)
Lemma request_word_call opcode id a v p :
  is_u32 v -> request_word (call_frame opcode id (a ++ ksd_encode_u32 v ++ p)) (zlen a) = v.
Proof.
  intros H. unfold request_word, request_payload. cbn [call_frame fr_payload default from_option Datatypes.id].
  rewrite zdrop_app_l. etransitivity; [apply decode_encode_u32|by apply u32_id].
Qed.

Lemma request_words opcode id h a b c d :
  is_u32 a -> is_u32 b -> is_u32 c -> is_u32 d ->
  let f := call_frame opcode id (ksd_encode_u64 h ++ ksd_encode_u32 a ++ ksd_encode_u32 b ++ ksd_encode_u32 c ++ ksd_encode_u32 d) in
  request_word f 8 = a /\ request_word f 12 = b /\ request_word f 16 = c /\ request_word f 20 = d.
Proof.
  intros Ha Hb Hc Hd. split; [|split; [|split]].
  - by apply (request_word_call opcode id (ksd_encode_u64 h)).
  - by apply (request_word_call opcode id (ksd_encode_u64 h ++ ksd_encode_u32 a) b).
  - by apply (request_word_call opcode id (ksd_encode_u64 h ++ ksd_encode_u32 a ++ ksd_encode_u32 b) c).
  - pose proof (request_word_call opcode id (ksd_encode_u64 h ++ ksd_encode_u32 a ++ ksd_encode_u32 b ++ ksd_encode_u32 c) d [] Hd).
    by rewrite app_nil_r in *.
Qed.

Lemma request_value_word opcode id h v rest : is_u32 v -> request_word (call_frame opcode id (ksd_encode_u64 h ++ ksd_encode_u32 v ++ rest)) 8 = v.
Proof. apply (request_word_call opcode id (ksd_encode_u64 h)). Qed.

Lemma encode_u64_nonempty h : exists b l, ksd_encode_u64 h = b :: l.
Proof. unfold ksd_encode_u64, ksd_encode_u32. eauto. Qed.

Lemma valid_call (b : bool) opcode payload op p :
  (if b then send opcode payload else None) = Some (op, Some p) -> b = true /\ op = opcode /\ p = payload.
Proof. destruct b; [|done]. by intros [= <- <-]. Qed.

(** A component asked for, and where it is left alone. *)
Lemma component_now untouched now wanted : component_observed untouched now wanted None = true <-> untouched = true \/ now = wanted.
Proof. unfold component_observed. rewrite orb_false_r, orb_true_iff, Z.eqb_eq. done. Qed.

(** Decide the comparisons of constants in the goal. *)
Ltac known_opcodes :=
  repeat match goal with |- context [?a =? ?b] =>
    is_const a; is_const b; let v := eval vm_compute in (a =? b) in rewrite (eq_refl : (a =? b) = v)
  end; cbn [orb andb negb].
(** Open the effect of a call: the operation is known and the payload long enough. *)
Ltac open_call :=
  unfold window_observed; cbn [call_frame fr_opcode fr_payload_length];
  rewrite ?zlen_app, ?zlen_encode_u64, ?zlen_encode_u32; known_opcodes.

(** A test that needs a field. *)
Lemma with_field (b t : bool) : (if negb b then false else t) = true <-> b = true /\ t = true.
Proof. destruct b; cbn; [tauto|]. split; [done|by intros []]. Qed.

Lemma set_title_observed id h t op p ws w :
  is_u64 h -> ksd_window_set_title h t = Some (op, Some p) ->
  Observe.request_handle (call_frame op id p) = h /\
  (window_observed (call_frame op id p) ws w None = true <->
   has_field w KSD_FIELD_TITLE = true /\ string_bytes (win_title w) = t).
Proof.
  intros Hh H. apply valid_call in H as (Hv & -> & ->). breflect.
  pose proof (zlen_nonneg t) as Hn.
  assert (Hu : is_u32 (zlen t)) by (unfold is_u32, KSD_MAX_REQUEST_PAYLOAD in *; lia).
  split; [by apply request_handle_call|]. open_call.
  rewrite (proj2 (Z.ltb_ge _ _)) by lia. cbn [orb].
  assert (Ht : title_observed (call_frame KSD_OP_WINDOW_SET_TITLE id (ksd_encode_u64 h ++ ksd_encode_u32 (zlen t) ++ t)) w = true
               <-> string_bytes (win_title w) = t).
  { unfold title_observed. rewrite request_value_word by done. cbn [call_frame fr_payload_length fr_payload].
    unfold request_payload. cbn [call_frame fr_payload default from_option Datatypes.id].
    rewrite !zlen_app, zlen_encode_u64, zlen_encode_u32, !andb_true_iff, orb_true_iff, !Z.eqb_eq.
    replace (zdrop 12 (ksd_encode_u64 h ++ ksd_encode_u32 (zlen t) ++ t)) with t
      by (symmetry; rewrite app_assoc; apply (zdrop_app_l (ksd_encode_u64 h ++ ksd_encode_u32 (zlen t)) t)).
    rewrite ztake_all by done. unfold bytes_eqb. rewrite bool_decide_eq_true. split.
    - intros ([E _] & [E0|E0]); [|done]. rewrite E0 in E. symmetry in E. unfold zlen in *.
      destruct (string_bytes (win_title w)); [|done]. by destruct t.
    - intros ->. split; [split; [done|lia]|by right]. }
  by rewrite (with_field (has_field w KSD_FIELD_TITLE)), Ht.
Qed.

Lemma geometry_observed_call id op h x y width height op' p ws w :
  is_u64 h -> is_i32 x -> is_i32 y -> 0 <= width -> 0 <= height ->
  op = KSD_OP_WINDOW_MOVE_RESIZE \/ op = KSD_OP_WINDOW_MOVE_RESIZE_XID ->
  request_geometry op h x y width height = Some (op', Some p) ->
  Observe.request_handle (call_frame op' id p) = h /\
  (window_observed (call_frame op' id p) ws w None = true <->
   has_field w KSD_FIELD_FRAME = true /\
   (x = INT32_MIN \/ rect_x (win_frame w) = x) /\ (y = INT32_MIN \/ rect_y (win_frame w) = y) /\
   (width = 0 \/ rect_width (win_frame w) = width) /\ (height = 0 \/ rect_height (win_frame w) = height)).
Proof.
  intros Hh Hx Hy Hw Hht Hop H. apply valid_call in H as (Hv & -> & ->). unfold valid_window_geometry in Hv.
  apply andb_true_iff in Hv as [_ Hv]. do 2 apply andb_true_iff in Hv as [Hv _]. breflect.
  assert (Hu : is_u32 width /\ is_u32 height) by (unfold is_u32, KSD_MAX_CAPTURE_DIMENSION in *; lia). destruct Hu as [Hu1 Hu2].
  assert (Hi : forall i, is_u32 (u32 i)) by (intros i; unfold is_u32, u32; by apply Z.mod_pos_bound).
  split; [by apply request_handle_call|].
  assert (Hg : geometry_observed (call_frame op id (ksd_encode_u64 h ++ ksd_encode_u32 (u32 x) ++ ksd_encode_u32 (u32 y)
                  ++ ksd_encode_u32 width ++ ksd_encode_u32 height)) w None = true <->
     (x = INT32_MIN \/ rect_x (win_frame w) = x) /\ (y = INT32_MIN \/ rect_y (win_frame w) = y) /\
     (width = 0 \/ rect_width (win_frame w) = width) /\ (height = 0 \/ rect_height (win_frame w) = height)).
  { unfold geometry_observed. destruct (request_words op id h (u32 x) (u32 y) width height) as (-> & -> & -> & ->); try done.
    rewrite !i32_u32 by done. cbn [option_map]. rewrite !andb_true_iff, !component_now, !Z.eqb_eq. tauto. }
  destruct Hop as [-> | ->]; open_call; change (8 + (4 + (4 + (4 + 4)))) with 24; change (24 <? 24) with false; cbn [orb];
    rewrite (with_field (has_field w KSD_FIELD_FRAME)); by rewrite Hg.
Qed.
Lemma value_call id op h v m p op' : 
  is_u64 h -> 0 <= v -> m < 2 ^ 32 -> request_window_value op h v m = Some (op', Some p) ->
  op' = op /\ v <= m /\ Observe.request_handle (call_frame op id p) = h /\ request_word (call_frame op id p) 8 = v /\ zlen p = 16.
Proof.
  intros Hh Hv Hm H. apply valid_call in H as (Hb & -> & ->). breflect.
  assert (Hu : is_u32 v) by (unfold is_u32; lia).
  split; [done|]. split; [done|]. split; [by apply request_handle_call|]. rewrite request_value_word by done. split; [done|].
  by rewrite !zlen_app, zlen_encode_u64, !zlen_encode_u32.
Qed.

Lemma flag_observed_call id op h v p op' field flag w :
  is_u64 h -> 0 <= v -> request_window_value op h v 1 = Some (op', Some p) ->
  flag_observed (call_frame op id p) field flag w = true <-> has_field w field = true /\ window_is w flag = (v =? 1).
Proof.
  intros Hh Hv H. destruct (value_call id _ _ _ 1 _ _ Hh Hv ltac:(lia) H) as (-> & Hm & _ & Hw & Hl).
  unfold flag_observed. rewrite Hw. cbn [call_frame fr_payload_length]. rewrite Hl, !andb_true_iff, eqb_true_iff.
  replace (negb (v =? 0)) with (v =? 1); [change (12 <=? 16) with true; tauto|]. destruct (Z.eqb_spec v 0), (Z.eqb_spec v 1); lia || done.
Qed.

(** The authority looks for what was asked.  The frame of a call that changes
    a window names that window, and the effect the authority waits for in it is
    the one the call asks for: the title, the requested position and size with the
    components to be left alone left alone, the visibility, layer or decoration,
    the opacity; provided the compositor reports the property at all. *)
Theorem calls_observed id h ws w :
  is_u64 h ->
  (forall t op p, ksd_window_set_title h t = Some (op, Some p) ->
     Observe.request_handle (call_frame op id p) = h /\
     (window_observed (call_frame op id p) ws w None = true <->
      has_field w KSD_FIELD_TITLE = true /\ string_bytes (win_title w) = t)) /\
  (forall x y width height op p, is_i32 x -> is_i32 y -> 0 <= width -> 0 <= height ->
     ksd_window_move_resize h x y width height = Some (op, Some p) ->
     Observe.request_handle (call_frame op id p) = h /\
     (window_observed (call_frame op id p) ws w None = true <->
      has_field w KSD_FIELD_FRAME = true /\
      (x = INT32_MIN \/ rect_x (win_frame w) = x) /\ (y = INT32_MIN \/ rect_y (win_frame w) = y) /\
      (width = 0 \/ rect_width (win_frame w) = width) /\ (height = 0 \/ rect_height (win_frame w) = height))) /\
  (forall f field flag v op p,
     In (f, field, flag) [(ksd_window_set_visible, KSD_FIELD_VISIBLE, KSD_WINDOW_VISIBLE);
                          (ksd_window_set_above, KSD_FIELD_ABOVE, KSD_WINDOW_ABOVE);
                          (ksd_window_set_decorated, KSD_FIELD_DECORATED, KSD_WINDOW_DECORATED)] ->
     0 <= v -> f h v = Some (op, Some p) ->
     Observe.request_handle (call_frame op id p) = h /\
     (window_observed (call_frame op id p) ws w None = true <-> has_field w field = true /\ window_is w flag = (v =? 1))) /\
  (forall v op p, 0 <= v -> ksd_window_set_opacity h v = Some (op, Some p) ->
     Observe.request_handle (call_frame op id p) = h /\
     (window_observed (call_frame op id p) ws w None = true <->
      has_field w KSD_FIELD_TRANSPARENCY = true /\ win_transparency w = v)).
Proof.
  intros Hh. split; [|split; [|split]].
  - intros t op p H. by apply set_title_observed.
  - intros x y width height op p Hx Hy Hw Hht H. eapply geometry_observed_call; [done..| |exact H]. by left.
  - intros f field flag v op p Hf Hv H.
    assert (Hone : exists o, request_window_value o h v 1 = Some (op, Some p) /\
              (window_observed (call_frame o id p) ws w None = flag_observed (call_frame o id p) field flag w)).
    { destruct Hf as [E|[E|[E|[]]]]; injection E as <- <- <-; eexists; (split; [exact H|]); unfold window_observed;
        cbn [call_frame fr_opcode]; by known_opcodes. }
    destruct Hone as (o & Ho & Heq). destruct (value_call id _ _ _ 1 _ _ Hh Hv ltac:(lia) Ho) as (-> & _ & Hhd & _).
    split; [done|]. rewrite Heq. by eapply flag_observed_call.
  - intros v op p Hv H. destruct (value_call id _ _ _ 255 _ _ Hh Hv ltac:(lia) H) as (-> & _ & Hhd & Hwd & Hl).
    split; [done|]. unfold window_observed. cbn [call_frame fr_opcode fr_payload_length]. known_opcodes.
    rewrite Hl, Hwd. change (12 <=? 16) with true. rewrite !andb_true_iff, Z.eqb_eq. tauto.
Qed.

(** ** Every call is an operation *)

(** The calls for the desktop. *)
Inductive desktop_call : call -> Prop :=
| CallCaptureArea x y width height : desktop_call (ksd_capture_area x y width height)
| CallCaptureDesktop : desktop_call ksd_capture_desktop
| CallCaptureWindow window_id include_decoration : desktop_call (ksd_capture_window window_id include_decoration)
| CallCursorPosition : desktop_call ksd_cursor_position
| CallWorkArea : desktop_call ksd_work_area
| CallWindowList include_hidden : desktop_call (ksd_window_list_json include_hidden)
| CallWindowHandles : desktop_call ksd_window_handles_json
| CallWindowActive : desktop_call ksd_window_active_json
| CallWindowQuery handle : desktop_call (ksd_window_query_json handle)
| CallWindowChildren parent : desktop_call (ksd_window_children_json parent)
| CallWindowAtPoint x y deepest : desktop_call (ksd_window_at_point_json x y deepest)
| CallDisplayList : desktop_call ksd_display_list_json
| CallKeyboardState : desktop_call ksd_keyboard_state_json
| CallKeyboardSince revision : desktop_call (ksd_keyboard_state_since_json revision)
| CallFocus handle : desktop_call (ksd_window_focus handle)
| CallRaise handle : desktop_call (ksd_window_raise handle)
| CallLower handle : desktop_call (ksd_window_lower handle)
| CallClose handle : desktop_call (ksd_window_close handle)
| CallKill handle : desktop_call (ksd_window_kill handle)
| CallRedraw handle : desktop_call (ksd_window_redraw handle)
| CallFocusChild handle : desktop_call (ksd_window_focus_child handle)
| CallMoveResize handle x y width height : desktop_call (ksd_window_move_resize handle x y width height)
| CallMoveResizeXid handle x y width height : desktop_call (ksd_window_move_resize_xid handle x y width height)
| CallSetState handle state : desktop_call (ksd_window_set_state handle state)
| CallSetOpacity handle opacity : desktop_call (ksd_window_set_opacity handle opacity)
| CallSetAbove handle above : desktop_call (ksd_window_set_above handle above)
| CallSetDecorated handle decorated : desktop_call (ksd_window_set_decorated handle decorated)
| CallSetSkipTaskbar handle skip : desktop_call (ksd_window_set_skip_taskbar handle skip)
| CallSetVisible handle visible : desktop_call (ksd_window_set_visible handle visible)
| CallSetTitle handle title : desktop_call (ksd_window_set_title handle title)
| CallClick handle x y button count : desktop_call (ksd_window_click handle x y button count)
| CallButton handle x y button down : desktop_call (ksd_window_button handle x y button down)
| CallReserve cookie x y ttl_ms : desktop_call (ksd_window_reserve cookie x y ttl_ms)
| CallGetReserved cookie : desktop_call (ksd_window_get_reserved cookie)
| CallMimetypes : desktop_call ksd_clipboard_mimetypes
| CallContent mimetype : desktop_call (ksd_clipboard_content mimetype)
| CallText : desktop_call ksd_clipboard_text
| CallSetContent mimetype data : desktop_call (ksd_clipboard_set_content mimetype data)
| CallSetText text : desktop_call (ksd_clipboard_set_text text)
| CallMouseAbsolute x y : desktop_call (ksd_mouse_move_absolute x y)
| CallMouseRelative dx dy : desktop_call (ksd_mouse_move_relative dx dy)
| CallMouseButton button pressed : desktop_call (ksd_mouse_button button pressed)
| CallMouseScroll delta vertical : desktop_call (ksd_mouse_scroll delta vertical).

(** An operation whose payload fits a frame, or may be cut into parts. *)
Definition sendable (c : call) : Prop :=
  match c with
  | None => True
  | Some (opcode, payload) =>
    ksd_operation_bit opcode <> 0 /\ payload_length payload <= KSD_MAX_REQUEST_TOTAL_PAYLOAD /\
    (KSD_MAX_REQUEST_PAYLOAD < payload_length payload -> ksd_operation_chunkable opcode = true)
  end.

Lemma sendable_small opcode payload :
  ksd_operation_bit opcode <> 0 -> zlen payload <= KSD_MAX_REQUEST_PAYLOAD -> sendable (send opcode payload).
Proof.
  intros Hb Hl. split; [done|]. unfold payload_length. cbn [default from_option Datatypes.id].
  unfold KSD_MAX_REQUEST_PAYLOAD, KSD_MAX_REQUEST_TOTAL_PAYLOAD in *. split; [lia|lia].
Qed.
Lemma sendable_if (b : bool) c : (b = true -> sendable c) -> sendable (if b then c else None).
Proof. by destruct b; [intros H; apply H|]. Qed.
Lemma sendable_unless (b : bool) c : (b = false -> sendable c) -> sendable (if b then None else c).
Proof. by destruct b; [|intros H; apply H]. Qed.

Lemma sendable_nothing opcode : ksd_operation_bit opcode <> 0 -> sendable (send_nothing opcode).
Proof. intros H. split; [done|]. by vm_compute. Qed.

(** A payload of words. *)
Ltac words := apply sendable_small; [done|]; rewrite ?zlen_app, ?zlen_encode_u64, ?zlen_encode_u32; unfold KSD_MAX_REQUEST_PAYLOAD; lia.

Lemma window_json_sendable opcode handle : ksd_operation_bit opcode <> 0 -> sendable (request_window_json opcode handle).
Proof. intros Hb. apply sendable_unless. intros _. words. Qed.
Lemma handle_sendable opcode handle : ksd_operation_bit opcode <> 0 -> sendable (request_handle opcode handle).
Proof. intros Hb. apply sendable_unless. intros _. words. Qed.
Lemma geometry_sendable opcode handle x y width height :
  ksd_operation_bit opcode <> 0 -> sendable (request_geometry opcode handle x y width height).
Proof. intros Hb. apply sendable_if. intros _. words. Qed.
Lemma value_sendable opcode handle value maximum :
  ksd_operation_bit opcode <> 0 -> sendable (request_window_value opcode handle value maximum).
Proof. intros Hb. apply sendable_if. intros _. words. Qed.
Lemma pair_sendable opcode first second : ksd_operation_bit opcode <> 0 -> sendable (request_pair opcode first second).
Proof. intros Hb. words. Qed.

Lemma clipboard_write_sendable mimetype data : sendable (clipboard_write mimetype data).
Proof.
  apply sendable_if. unfold valid_mimetype. intros H. breflect. split; [done|].
  unfold payload_length. cbn [default from_option Datatypes.id]. rewrite !zlen_app, !zlen_encode_u32.
  unfold KSD_MAX_CLIPBOARD_WRITE_BYTES in *. split; [lia|done].
Qed.
Lemma content_sendable mimetype : sendable (ksd_clipboard_content mimetype).
Proof.
  apply sendable_if. unfold valid_mimetype. intros H. breflect. apply sendable_small; [done|].
  rewrite zlen_app, zlen_encode_u32. unfold KSD_MAX_MIMETYPE_BYTES, KSD_MAX_REQUEST_PAYLOAD in *. lia.
Qed.
Lemma capture_window_sendable window_id decoration : sendable (ksd_capture_window window_id decoration).
Proof.
  apply sendable_if. intros H. breflect. apply sendable_small; [done|].
  rewrite !zlen_app, !zlen_encode_u32. unfold KSD_MAX_REQUEST_PAYLOAD. lia.
Qed.
Lemma keyboard_since_sendable revision : sendable (ksd_keyboard_state_since_json revision).
Proof.
  apply sendable_if. intros H. breflect. apply sendable_small; [done|].
  rewrite zlen_app, zlen_encode_u32. unfold KSD_MAX_REQUEST_PAYLOAD. lia.
Qed.
Lemma set_title_sendable handle title : sendable (ksd_window_set_title handle title).
Proof.
  apply sendable_if. intros H. breflect. apply sendable_small; [done|].
  rewrite !zlen_app, zlen_encode_u64, zlen_encode_u32. lia.
Qed.
(** The lemma for the kind of call. *)
Ltac by_kind :=
  lazymatch goal with
  | |- sendable (clipboard_write _ _) => apply clipboard_write_sendable
  | |- sendable (ksd_clipboard_content _) => apply content_sendable
  | |- sendable (ksd_capture_window _ _) => apply capture_window_sendable
  | |- sendable (ksd_keyboard_state_since_json _) => apply keyboard_since_sendable
  | |- sendable (ksd_window_set_title _ _) => apply set_title_sendable
  | |- sendable (send_nothing _) => apply sendable_nothing; discriminate
  | |- sendable (request_window_json _ _) => apply window_json_sendable; discriminate
  | |- sendable (request_handle _ _) => apply handle_sendable; discriminate
  | |- sendable (request_geometry _ _ _ _ _ _) => apply geometry_sendable; discriminate
  | |- sendable (request_window_value _ _ _ _) => apply value_sendable; discriminate
  | |- sendable (request_pair _ _ _) => apply pair_sendable; discriminate
  | |- sendable (if _ then None else _) => apply sendable_unless; intros _; by_kind
  | |- sendable (if _ then _ else None) => apply sendable_if; intros _; by_kind
  | |- sendable (send _ _) => words
  | |- sendable ?c => let c' := eval red in c in change (sendable c'); by_kind
  end.

(** Every call is one the service can take.  What any call of the library
    sends has an operation with an availability bit, and its payload is within the
    total limit; only the clipboard's contents may exceed a frame, and they are
    the one operation the service lets come in parts. *)
Theorem calls_sendable c : desktop_call c -> sendable c.
Proof.
  intros H. destruct H; by_kind.
Qed.

(** ** Results *)

(** The wire forms of results. *)
Definition text_tail (text : list byte) : list byte := ksd_encode_u32 (zlen text) ++ text.
Definition list_tail (items : list (list byte)) : list byte :=
  ksd_encode_u32 (zlen items) ++ ksd_encode_u32 0 ++ concat (map text_tail items).
Definition capture_tail (c : ksd_capture) : list byte :=
  ksd_encode_u16 (cap_format c) ++ ksd_encode_u16 0 ++ ksd_encode_u32 (cap_width c) ++ ksd_encode_u32 (cap_height c)
  ++ ksd_encode_u32 (cap_stride c) ++ text_tail (cap_data c).
(** What a capture must satisfy: sizes within the limits, a bitmap of as many bytes
    as its rows take and rows that hold their pixels. *)
Definition capture_wf (c : ksd_capture) : Prop :=
  1 <= cap_width c <= KSD_MAX_CAPTURE_DIMENSION /\ 1 <= cap_height c <= KSD_MAX_CAPTURE_DIMENSION /\
  cap_width c * cap_height c <= KSD_MAX_CAPTURE_PIXELS /\ 1 <= zlen (cap_data c) <= KSD_MAX_CAPTURE_BYTES /\
  (cap_format c = KSD_CAPTURE_FORMAT_PNG /\ cap_stride c = 0 \/
   cap_format c = KSD_CAPTURE_FORMAT_BGRA8_PREMULTIPLIED /\ 4 * cap_width c <= cap_stride c /\
   cap_stride c * cap_height c = zlen (cap_data c)).
Definition mimetype_item (item : list byte) : Prop :=
  1 <= zlen item <= KSD_MAX_MIMETYPE_BYTES /\ ksd_utf8_valid item false = true.

Section roundtrips.
Context {AL : Allocator} {AT : AllocTotal AL}.

(** A length and that many bytes. *)
Lemma reads_text c text k :
  is_u32 (zlen text) -> cursor_wf c -> cursor_rest c = text_tail text ++ k ->
  exists c1 c2, ksd_cursor_u32 c = Some (zlen text, c1) /\ ksd_cursor_bytes c1 (zlen text) = Some (text, c2) /\
    cursor_wf c2 /\ cursor_rest c2 = k.
Proof.
  intros Hu Hwf Hr. unfold text_tail in Hr. rewrite <- app_assoc in Hr.
  destruct (reads_u32 _ Hu c _ Hwf Hr) as (c1 & E1 & Hwf1 & Hr1). destruct (cursor_bytes_app c1 text k Hwf1 Hr1) as (c2 & E2 & ? & ?).
  by exists c1, c2.
Qed.

Lemma consumes_text c n c1 text c2 :
  cursor_wf c -> ksd_cursor_u32 c = Some (n, c1) -> ksd_cursor_bytes c1 n = Some (text, c2) ->
  cursor_wf c2 /\ n = zlen text /\ is_u32 n /\ cursor_rest c = text_tail text ++ cursor_rest c2.
Proof.
  intros Hwf E1 E2. pose proof (cursor_u32_range _ _ _ Hwf E1) as Hn. destruct (consumes_u32 _ _ _ Hwf E1) as [Hwf1 Hr1].
  pose proof (cursor_bytes_spec c1 n Hwf1 (proj1 Hn)) as H. rewrite E2 in H. destruct H as (Hr2 & Hl & Hwf2).
  split; [done|]. split; [done|]. split; [done|]. rewrite Hr1, Hr2. unfold text_tail. by rewrite Hl, app_assoc.
Qed.

Lemma small_u32 n m : 0 <= n <= m -> m < 2 ^ 32 -> is_u32 n.
Proof. unfold is_u32. lia. Qed.

Lemma finished_end c : cursor_wf c -> cursor_rest c = [] -> ksd_cursor_finished c = true.
Proof. intros H. by apply cursor_finished_rest. Qed.

Lemma string_result_exact data text :
  parse_owned_string data true = Some text <->
  data = text_tail text /\ zlen text <= KSD_MAX_TEXT_BYTES /\ ksd_utf8_valid text false = true.
Proof.
  unfold parse_owned_string. pose proof (cursor_init_wf data) as Hwf. split.
  - destruct (ksd_cursor_u32 _) as [[n c1]|] eqn:E1; [|done]. destruct (n <=? KSD_MAX_TEXT_BYTES); [|done].
    destruct (ksd_cursor_bytes c1 n) as [[t c2]|] eqn:E2; [|done].
    destruct (consumes_text _ _ _ _ _ Hwf E1 E2) as (Hwf2 & -> & _ & Hr). rewrite cursor_init_rest in Hr.
    destruct (ksd_cursor_finished c2) eqn:Ef; [|done]. apply cursor_finished_rest in Ef; [|done].
    destruct (_ && _) eqn:Ev; [|done]. destruct (alloc_ok _); [|done]. intros [= <-]. breflect.
    rewrite Hr, Ef, app_nil_r. done.
  - intros (-> & Hl & Hv).
    destruct (reads_text (ksd_cursor_init (text_tail text) (zlen (text_tail text))) text []) as (c1 & c2 & E1 & E2 & Hwf2 & Hr2);
      [eapply small_u32; [split; [apply zlen_nonneg|exact Hl]|done]|done|by rewrite cursor_init_rest, app_nil_r|].
    rewrite E1, (proj2 (Z.leb_le _ _) Hl), E2, (finished_end _ Hwf2 Hr2), Hv, alloc_total. cbn.
    by rewrite (proj2 (Z.leb_le _ _) Hl).
Qed.

Lemma parse_items_exact n : forall c items c',
  cursor_wf c -> parse_items n c = Some (items, c') ->
  cursor_wf c' /\ length items = n /\ Forall mimetype_item items /\
  cursor_rest c = concat (map text_tail items) ++ cursor_rest c'.
Proof.
  induction n as [|n IH]; intros c items c' Hwf; cbn [parse_items]; [by intros [= <- <-]|].
  destruct (ksd_cursor_u32 c) as [[l c1]|] eqn:E1; [|done]. destruct (_ && _) eqn:El; [|done].
  destruct (ksd_cursor_bytes c1 l) as [[item c2]|] eqn:E2; [|done].
  destruct (consumes_text _ _ _ _ _ Hwf E1 E2) as (Hwf2 & -> & Hu & Hr).
  unfold parse_owned_string. destruct (_ && _) eqn:Ev in |- *; [|done]. destruct (alloc_ok _); [|done].
  destruct (parse_items n c2) as [[rest c3]|] eqn:E3; [|done]. intros [= <- <-].
  destruct (IH _ _ _ Hwf2 E3) as (H1 & H2 & H3 & H4). breflect. split; [done|]. split; [cbn; lia|]. split.
  - constructor; [|done]. split; [|done]. unfold is_u32 in Hu. lia.
  - cbn. by rewrite Hr, H4, <- app_assoc.
Qed.

Lemma parse_items_complete items : Forall mimetype_item items -> forall c k,
  cursor_wf c -> cursor_rest c = concat (map text_tail items) ++ k ->
  exists c', parse_items (length items) c = Some (items, c') /\ cursor_wf c' /\ cursor_rest c' = k.
Proof.
  induction 1 as [|item items [Hl Hv] _ IH]; intros c k Hwf Hr; [by exists c|]. cbn [map concat length parse_items] in *.
  rewrite <- app_assoc in Hr.
  assert (Hu : is_u32 (zlen item)) by (unfold is_u32, KSD_MAX_MIMETYPE_BYTES in *; lia).
  destruct (reads_text c item _ Hu Hwf Hr) as (c1 & c2 & -> & -> & Hwf2 & Hr2).
  rewrite (proj2 (Z.eqb_neq _ _)), (proj2 (Z.leb_le _ _)) by lia. cbn [negb andb]. unfold parse_owned_string.
  rewrite Hv, alloc_total, (proj2 (Z.leb_le _ _)) by (unfold KSD_MAX_MIMETYPE_BYTES, KSD_MAX_TEXT_BYTES in *; lia). cbn [andb].
  destruct (IH c2 k Hwf2 Hr2) as (c' & -> & ? & ?). by exists c'.
Qed.

Lemma list_result_exact data items :
  parse_string_list_tail data = Some items <->
  data = list_tail items /\ zlen items <= KSD_MAX_MIMETYPES /\ Forall mimetype_item items.
Proof.
  unfold parse_string_list_tail. pose proof (cursor_init_wf data) as Hwf. split.
  - destruct (ksd_cursor_u32 _) as [[n c1]|] eqn:E1; [|done]. destruct (ksd_cursor_u32 c1) as [[r c2]|] eqn:E2; [|done].
    pose proof (cursor_u32_range _ _ _ Hwf E1) as Hn.
    destruct (consumes_u32 _ _ _ Hwf E1) as [Hwf1 Hr1]. destruct (consumes_u32 _ _ _ Hwf1 E2) as [Hwf2 Hr2].
    destruct (_ && _) eqn:Ec; [|done]. destruct (_ || _); [|done].
    destruct (parse_items _ c2) as [[l c3]|] eqn:E3; [|done].
    destruct (parse_items_exact _ _ _ _ Hwf2 E3) as (Hwf3 & Hl & Hi & Hr3).
    destruct (ksd_cursor_finished c3) eqn:Ef; [|done]. apply cursor_finished_rest in Ef; [|done]. intros [= <-]. breflect.
    assert (n = zlen l) as -> by (unfold zlen, is_u32 in *; lia).
    rewrite cursor_init_rest in Hr1. rewrite Hr1, Hr2, Hr3, Ef, app_nil_r. subst r. done.
  - intros (-> & Hl & Hi). set (data' := list_tail items). pose proof (zlen_nonneg items) as Hz.
    destruct (reads_u32 (zlen items) (small_u32 _ _ (conj Hz Hl) ltac:(done)) (ksd_cursor_init data' (zlen data'))
      (ksd_encode_u32 0 ++ concat (map text_tail items))) as (c1 & -> & Hwf1 & Hr1);
      [apply cursor_init_wf|by rewrite cursor_init_rest|].
    destruct (reads_u32 0 ltac:(done) c1 _ Hwf1 Hr1) as (c2 & -> & Hwf2 & Hr2).
    rewrite (proj2 (Z.leb_le _ _) Hl), alloc_total, orb_true_r. cbn [andb].
    destruct (parse_items_complete items Hi c2 [] Hwf2) as (c3 & E3 & Hwf3 & Hr3); [by rewrite app_nil_r|].
    unfold zlen. rewrite Nat2Z.id. by rewrite E3, (finished_end _ Hwf3 Hr3).
Qed.


Lemma u64_product a b : is_u32 a -> is_u32 b -> u64 (a * b) = a * b.
Proof. unfold is_u32. intros Ha Hb. apply u64_id. unfold is_u64. nia. Qed.

Lemma valid_capture_wf c :
  is_u32 (cap_width c) -> is_u32 (cap_height c) -> is_u32 (cap_stride c) -> valid_capture c = true <-> capture_wf c.
Proof.
  intros Hw Hh Hs. unfold valid_capture, capture_wf.
  rewrite !u64_product by (done || unfold is_u32 in *; lia). rewrite negb_true_iff, !orb_false_iff, !andb_false_iff, !orb_false_iff.
  rewrite !negb_false_iff, !Z.eqb_eq, !Z.eqb_neq, !Z.ltb_ge. pose proof (zlen_nonneg (cap_data c)).
  unfold KSD_CAPTURE_FORMAT_PNG, KSD_CAPTURE_FORMAT_BGRA8_PREMULTIPLIED, is_u32 in *. lia.
Qed.

Lemma capture_wf_u32 c : capture_wf c ->
  is_u16 (cap_format c) /\ is_u32 (cap_width c) /\ is_u32 (cap_height c) /\ is_u32 (cap_stride c) /\ is_u32 (zlen (cap_data c)).
Proof.
  unfold capture_wf, is_u16, is_u32, KSD_MAX_CAPTURE_DIMENSION, KSD_MAX_CAPTURE_BYTES, KSD_CAPTURE_FORMAT_PNG,
    KSD_CAPTURE_FORMAT_BGRA8_PREMULTIPLIED.
  intros (? & ? & _ & ? & [(? & ?)|(? & ? & ?)]); [lia|]. assert (cap_stride c <= cap_stride c * cap_height c) by nia. lia.
Qed.

Lemma capture_result_exact data c :
  parse_capture_tail data = Some c <-> data = capture_tail c /\ capture_wf c.
Proof.
  unfold parse_capture_tail. pose proof (cursor_init_wf data) as Hwf. split.
  - destruct (ksd_cursor_u16 _) as [[f c1]|] eqn:E1; [|done]. destruct (ksd_cursor_u16 c1) as [[r c2]|] eqn:E2; [|done].
    destruct (consumes_u16 _ _ _ Hwf E1) as [Hwf1 Hr1]. destruct (consumes_u16 _ _ _ Hwf1 E2) as [Hwf2 Hr2].
    destruct (ksd_cursor_u32 c2) as [[w c3]|] eqn:E3; [|done]. destruct (ksd_cursor_u32 c3) as [[h c4]|] eqn:E4; [|done].
    destruct (ksd_cursor_u32 c4) as [[s c5]|] eqn:E5; [|done]. destruct (consumes_u32 _ _ _ Hwf2 E3) as [Hwf3 Hr3].
    destruct (consumes_u32 _ _ _ Hwf3 E4) as [Hwf4 Hr4]. destruct (consumes_u32 _ _ _ Hwf4 E5) as [Hwf5 Hr5].
    destruct (ksd_cursor_u32 c5) as [[n c6]|] eqn:E6; [|done]. destruct (ksd_cursor_bytes c6 n) as [[d c7]|] eqn:E7; [|done].
    destruct (consumes_text _ _ _ _ _ Hwf5 E6 E7) as (Hwf7 & -> & Hu & Hr6).
    destruct (_ && _) eqn:Ev; [|done]. destruct (alloc_ok _); [|done]. intros [= <-].
    apply andb_true_iff in Ev as [Ev Hv]. breflect. subst r.
    assert (Hf : ksd_cursor_finished c7 = true) by done. apply cursor_finished_rest in Hf; [|done].
    rewrite cursor_init_rest in Hr1. split.
    + rewrite Hr1, Hr2, Hr3, Hr4, Hr5, Hr6, Hf. unfold capture_tail. cbn. by rewrite !app_nil_r.
    + apply valid_capture_wf; cbn; eauto using cursor_u32_range.
  - intros (-> & Hc). destruct (capture_wf_u32 c Hc) as (Hf & Hw & Hh & Hs & Hd). set (data := capture_tail c).
    destruct (reads_u16 _ Hf (ksd_cursor_init data (zlen data)) _ (cursor_init_wf data) (cursor_init_rest data _)) as (c1 & -> & Hwf1 & Hr1).
    destruct (reads_u16 0 ltac:(done) c1 _ Hwf1 Hr1) as (c2 & -> & Hwf2 & Hr2).
    destruct (reads_u32 _ Hw c2 _ Hwf2 Hr2) as (c3 & -> & Hwf3 & Hr3). destruct (reads_u32 _ Hh c3 _ Hwf3 Hr3) as (c4 & -> & Hwf4 & Hr4).
    destruct (reads_u32 _ Hs c4 _ Hwf4 Hr4) as (c5 & -> & Hwf5 & Hr5). rewrite <- (app_nil_r (text_tail _)) in Hr5.
    destruct (reads_text c5 (cap_data c) [] Hd Hwf5 Hr5) as (c6 & c7 & -> & -> & Hwf7 & Hr7).
    rewrite (finished_end _ Hwf7 Hr7). replace (mk_capture _ _ _ _ _) with c by by destruct c.
    rewrite (proj2 (valid_capture_wf c Hw Hh Hs) Hc), alloc_total. done.
Qed.

(** What a call returns is what was sent, and only what was sent.  A text
    result is accepted exactly when it is a length and that many bytes of UTF-8
    within the limit, a list when it is the count, four zero bytes and the items,
    each a MIME type of at least one byte, and a capture exactly when it is the
    encoding of one whose dimensions are within the limits, whose rows hold their
    pixels and whose data is all its rows and nothing more. *)
Theorem results_exact :
  (forall data text, parse_owned_string data true = Some text <->
     data = text_tail text /\ zlen text <= KSD_MAX_TEXT_BYTES /\ ksd_utf8_valid text false = true) /\
  (forall data items, parse_string_list_tail data = Some items <->
     data = list_tail items /\ zlen items <= KSD_MAX_MIMETYPES /\ Forall mimetype_item items) /\
  (forall data c, parse_capture_tail data = Some c <-> data = capture_tail c /\ capture_wf c).
Proof. split; [exact string_result_exact|]. split; [exact list_result_exact|exact capture_result_exact]. Qed.
End roundtrips.

Definition pixel : ksd_capture := mk_capture KSD_CAPTURE_FORMAT_BGRA8_PREMULTIPLIED 1 1 4 (cstr "bgra").

Lemma results_exact_witness :
  AllocTotal infinite_memory /\ @parse_capture_tail infinite_memory (capture_tail pixel) = Some pixel /\
  @parse_string_list_tail infinite_memory (list_tail [cstr "text/plain"; cstr "image/png"]) = Some [cstr "text/plain"; cstr "image/png"].
Proof.
  destruct (@results_exact infinite_memory (fun _ => eq_refl)) as (_ & Hl & Hc). split; [exact (fun _ => eq_refl)|]. split.
  - apply (proj2 (Hc (capture_tail pixel) pixel)). split; [reflexivity|]. vm_compute. repeat split; try discriminate.
    right. repeat split; discriminate.
  - apply (proj2 (Hl (list_tail [cstr "text/plain"; cstr "image/png"]) _)). split; [reflexivity|]. split; [by vm_compute|].
    repeat constructor; vm_compute; discriminate.
Defined.

Lemma calls_sendable_witness :
  desktop_call (ksd_clipboard_set_text (cstr "text")) /\ sendable (ksd_clipboard_set_text (cstr "text")).
Proof. split; [apply CallSetText|]. apply calls_sendable, CallSetText. Defined.

(** A window whose title is as asked. *)
Definition entitled : ksd_window_record :=
  mk_window 0 KSD_FIELD_TITLE 7 0 0 0 rect_zero rect_zero rect_zero 0 0 None None (Some (cstr "new")) None 0.

Lemma calls_observed_witness :
  is_u64 7 /\
  (window_observed (call_frame KSD_OP_WINDOW_SET_TITLE 1 (ksd_encode_u64 7 ++ ksd_encode_u32 3 ++ cstr "new")) [] entitled None = true
   <-> has_field entitled KSD_FIELD_TITLE = true /\ string_bytes (win_title entitled) = cstr "new").
Proof.
  assert (H : is_u64 7) by (split; [discriminate|reflexivity]). split; [exact H|].
  apply (proj1 (calls_observed 1 7 [] entitled H) (cstr "new")). reflexivity.
Defined.
