(* ===== verification/Permissions.v ===== *)
(** * Administration of permissions (src/authorityd.c, src/client.c)

    Listing and revoking what the permission store holds for a user.  The listing
    is a stream of responses, one entry each, ended by an empty one; the client
    hands every entry to a visitor.  The store and the sanitizer of paths belong
    to the keysharp-permissions library: their answers are arguments here.  A hash
    is 64 hexadecimal characters, without the terminator; on the wire it is 32
    bytes. *)
From Stdlib Require Import ZArith Lia Strings.Byte Strings.String.
From stdpp Require Import base list option numbers tactics.
From S2P Require Import Prelude.
From S2P Require Import Protocol.
From S2P Require Import Codec.
From S2P Require Import Buffer.
From S2P Require Import Utf8.
From S2P Require Import Transport.
From S2P Require Import Frame.
From S2P Require Import Assembly.
From S2P Require Import Operations.
From S2P Require Import Lease.
From S2P Require Import Response.
From S2P Require Import Authorize.
From S2P Require Import Client.
From S2P Require Import ClientCalls.
Local Open Scope Z_scope.
Local Open Scope ksd_scope.

(** ** Hashes *)

(** The value of a digit, a [char] being signed; [unsigned] arithmetic wraps. *)
Definition hash_digit (b : byte) : Z :=
  let c := if b2z b <? 128 then b2z b else b2z b - 256 in
  u32 (if c <=? 57 then c - 48 else c - 97 + 10).
Fixpoint hash_to_raw (hash : list byte) : list byte :=
  match hash with
  | high :: low :: hash => z2b (Z.lor (Z.shiftl (hash_digit high) 4) (hash_digit low)) :: hash_to_raw hash
  | _ => []
  end.

Definition hash_digits : list byte := cstr "0123456789abcdef".
Definition digit_of (value : Z) : byte := nth (Z.to_nat value) hash_digits x00.
Fixpoint raw_to_hash (raw : list byte) : list byte :=
  match raw with
  | [] => []
  | b :: raw => digit_of (Z.shiftr (b2z b) 4) :: digit_of (Z.land (b2z b) 0x0f) :: raw_to_hash raw
  end.

(** The client library has the same two. *)
Definition raw_hash_to_text : list byte -> list byte := raw_to_hash.
Definition text_hash_to_raw : list byte -> list byte := hash_to_raw.

(** An array of 65 characters that holds a hash. *)
Definition hash_character (b : byte) : bool :=
  ((48 <=? b2z b) && (b2z b <=? 57)) || ((97 <=? b2z b) && (b2z b <=? 102)).
Definition canonical_hash (hash : list byte) : bool :=
  (b2z (nth 64 hash x00) =? 0) && forallb hash_character (ztake 64 hash).

Definition bytes_are_zero (bytes : list byte) : bool := forallb (fun b => b2z b =? 0) bytes.

(** ** The authority's side *)

(** An entry of the store. *)
Record ksp_permission_entry := mk_entry {
  ksp_app_hash : list byte;
  ksp_executable : list byte;
  ksp_scopes : Z;
  ksp_granted_at_utc : Z;
}.

(** What the library has besides the store. *)
Class PermissionLibrary := {
  KSP_PATH_CAPACITY : Z;
  ksp_sanitize_display_text : list byte -> list byte;
}.

Section administration.
Context {AL : Allocator} {PL : PermissionLibrary}.

Definition safe_path (source : list byte) : list byte :=
  let destination := ksp_sanitize_display_text source in
  if negb (ksd_utf8_valid destination false) then map (fun b => if 0x80 <=? b2z b then z2b 63 else b) destination
  else destination.

(** The tail of one entry, [None] when it does not fit its buffer. *)
Definition entry_scopes (entry : ksp_permission_entry) : Z := Z.land (ksp_scopes entry) KSD_DESKTOP_MANAGED_SCOPES.
Definition entry_tail (entry : ksp_permission_entry) : option (list byte) :=
  let path := safe_path (ksp_executable entry) in
  let hash := hash_to_raw (ksp_app_hash entry) in
  guard* zlen path <=? UINT32_MAX in
  let '(ok, tail) :=
    (ksd_buffer_u32 (entry_scopes entry) ;;; ksd_buffer_u32 (u32 (zlen path)) ;;; ksd_buffer_u64 (ksp_granted_at_utc entry)
     ;;; ksd_buffer_bytes (Some hash) (zlen hash) ;;; ksd_buffer_bytes (Some path) (zlen path))
      (ksd_buffer_init (KSP_PATH_CAPACITY + 48)) in
  guard* ok in Some (buf_bytes tail).

(** The entries sent, as long as each could be; [sent n] is whether the [n]th
    response could be built and written. *)
Fixpoint list_entries (sent : nat -> bool) (n : nat) (entries : list ksp_permission_entry) : bool * list (list byte) * nat :=
  match entries with
  | [] => (true, [], n)
  | entry :: entries =>
    if entry_scopes entry =? 0 then list_entries sent n entries
    else
      match entry_tail entry with
      | None => (false, [], n)
      | Some tail =>
        if sent n then let '(ok, parts, n) := list_entries sent (S n) entries in (ok, tail :: parts, n)
        else (false, [tail], S n)
      end
  end.

(** The tails sent as parts, and the reply that ends it; [entries] is what the
    store lists, [None] when it cannot. *)
Definition permissions_list (entries : option (list ksp_permission_entry)) (sent : nat -> bool) (request : ksd_frame)
    : bool * list (list byte) * option reply :=
  let refuse status diagnostic := (sent O, [], Some (mk_reply status 0 (Some (cstr diagnostic)) [])) in
  if negb (fr_payload_length request =? 0) then refuse KSD_STATUS_INVALID_REQUEST "permissions list payload must be empty"%string
  else
    match entries with
    | None => refuse KSD_STATUS_INTERNAL "could not list permissions"%string
    | Some entries =>
      let '(ok, parts, n) := list_entries sent O entries in
      if ok : bool then (sent n, parts, Some (mk_reply KSD_STATUS_OK 0 None [])) else (false, parts, None)
    end.
End administration.

(** What is to be revoked. *)
Inductive revocation :=
| RevokeHash (hash : list byte) (scopes : Z)
| RevokePid (pid scopes : Z)
| RevokeAll (scopes : Z).

(** The payload of a revocation, or why it is refused. *)
Definition parse_revoke (payload : list byte) : string + revocation :=
  let bad := inl "invalid permissions revoke payload"%string in
  let invalid := inl "invalid permissions revoke selector"%string in
  match
    (guard* zlen payload =? 48 in
     let cursor := ksd_cursor_init payload (zlen payload) in
     let* (kind, cursor) := ksd_cursor_u32 cursor in
     let* (scopes, cursor) := ksd_cursor_u32 cursor in
     let* (pid, cursor) := ksd_cursor_u64 cursor in
     let* (raw_hash, cursor) := ksd_cursor_bytes cursor 32 in
     guard* ksd_cursor_finished cursor && negb (scopes =? 0)
            && (Z.land scopes (u32 (Z.lnot KSD_DESKTOP_MANAGED_SCOPES)) =? 0) in
     Some (kind, scopes, pid, raw_hash))
  with
  | None => bad
  | Some (kind, scopes, pid, raw_hash) =>
    if kind =? KSD_PERMISSION_TARGET_HASH then
      if negb (pid =? 0) then invalid else inr (RevokeHash (raw_to_hash raw_hash) scopes)
    else if kind =? KSD_PERMISSION_TARGET_PID then
      if negb (bytes_are_zero raw_hash) || (pid =? 0) || (INT_MAX <? pid) then invalid else inr (RevokePid pid scopes)
    else if kind =? KSD_PERMISSION_TARGET_ALL then
      if negb (pid =? 0) || negb (bytes_are_zero raw_hash) then invalid else inr (RevokeAll scopes)
    else invalid
  end.

(** What the store is asked to do. *)
Inductive store_call :=
| StoreRevoke (uid : Z) (hash : list byte) (scopes : Z)
| StoreRevokeUid (uid scopes : Z).

Section revoking.
Context {AL : Allocator} {S : Type} {PS : PermissionStore S}.

(** Around a revocation: the process looked for, what the store answers, the
    refresh after it, and whether the reply could be sent. *)
Record revoke_world := mk_revoke_world {
  vw_target : Z -> Z -> option ksp_identity;
  vw_result : store_call -> Z;
  vw_store : S;
  vw_verified : option ksp_identity;
  vw_sends : list plain_outcome;
  vw_sent : bool;
}.

(** The call a revocation by a user comes to; [None] when there is no such process. *)
Definition revoke_call (w : revoke_world) (uid : Z) (target : revocation) : option store_call :=
  match target with
  | RevokeHash hash scopes => Some (StoreRevoke uid hash scopes)
  | RevokePid pid scopes => let* identity := vw_target w pid uid in Some (StoreRevoke uid (id_hash identity) scopes)
  | RevokeAll scopes => Some (StoreRevokeUid uid scopes)
  end.

(** Whether the connection goes on, the reply, the session, the lease, what the
    store was asked and what the refresh sent. *)
Record revoked := mk_revoked {
  rk_ok : bool;
  rk_reply : option reply;
  rk_session : authority_session;
  rk_lease : authority_lease;
  rk_call : option store_call;
  rk_events : list byte;
}.

Definition permissions_revoke (w : revoke_world) (session : authority_session) (lease : authority_lease) (request : ksd_frame)
    : option revoked :=
  let refuse status diagnostic call :=
    Some (mk_revoked (vw_sent w) (Some (mk_reply status 0 (Some (cstr diagnostic)) [])) session lease call []) in
  match parse_revoke (default [] (fr_payload request)) with
  | inl diagnostic => refuse KSD_STATUS_INVALID_REQUEST diagnostic None
  | inr target =>
    match revoke_call w (id_uid (se_identity session)) target with
    | None => refuse KSD_STATUS_NOT_FOUND "target process was not found"%string None
    | Some call =>
      if negb (vw_result w call =? 0) then refuse KSD_STATUS_INTERNAL "could not revoke permissions"%string (Some call)
      else
        let* r := session_refresh (vw_sends w) (vw_store w) (vw_verified w) true true lease in
        let '(ok, session, lease, _, out) := r in
        if negb ok then Some (mk_revoked false None session lease (Some call) out)
        else Some (mk_revoked (vw_sent w) (Some (mk_reply KSD_STATUS_OK 0 None [])) session lease (Some call) out)
    end
  end.
End revoking.

(** ** The client's side *)

Record ksd_permission_entry := mk_permission {
  pe_scopes : Z;
  pe_granted_at_utc : Z;
  pe_hash : list byte;
  pe_executable : list byte;
}.

Section client.
Context {AL : Allocator}.

Definition parse_permission_entry (tail : list byte) : option ksd_permission_entry :=
  let cursor := ksd_cursor_init tail (zlen tail) in
  let* (scopes, cursor) := ksd_cursor_u32 cursor in
  let* (path_length, cursor) := ksd_cursor_u32 cursor in
  let* (granted_at_utc, cursor) := ksd_cursor_u64 cursor in
  let* (hash, cursor) := ksd_cursor_bytes cursor 32 in
  guard* negb (path_length =? 0) && negb (KSD_EXECUTABLE_PATH_SIZE <=? path_length) in
  let* (path, cursor) := ksd_cursor_bytes cursor path_length in
  guard* ksd_cursor_finished cursor && negb (scopes =? 0) && ksd_utf8_valid path false in
  Some (mk_permission scopes granted_at_utc (raw_hash_to_text hash) path).

(** The answers to one listing; the visitor may look at what it was given before.
    Once it has cancelled, the rest is read but not visited. *)
Fixpoint list_answers (deadline : Z) (visitor : list ksd_permission_entry -> ksd_permission_entry -> bool)
    (turns : list (list arrival)) (a : answered) (visited : list ksd_permission_entry) (cancelled : bool)
    : option (Z * list ksd_permission_entry * ksd_error * ksd_connection) :=
  let failed message :=
    let '(status, error, c) := system_failure (aw_connection a) EPROTO (cstr message) in Some (status, visited, error, c) in
  match aw_response a with
  | None => Some (aw_status a, visited, aw_error a, aw_connection a)
  | Some (response, frame, fd) =>
    if negb (aw_status a =? KSD_STATUS_OK) then Some (aw_status a, visited, aw_error a, aw_connection a)
    else if negb (is_part frame) then
      if negb (zlen (rs_tail response) =? 0) then failed "desktop service returned invalid permission terminator"%string
      else if cancelled
      then Some (KSD_STATUS_CANCELLED, visited, set_error 0 0 (Some (cstr "permission visitor cancelled")), aw_connection a)
      else Some (KSD_STATUS_OK, visited, aw_error a, aw_connection a)
    else
      match parse_permission_entry (rs_tail response) with
      | None => failed "desktop service returned invalid permission"%string
      | Some entry =>
        match turns with
        | [] => None
        | turn :: turns =>
          let* next := read_response deadline KSD_OP_PERMISSIONS_LIST (fr_request_id frame) turn (aw_connection a) in
          if cancelled then list_answers deadline visitor turns next visited true
          else list_answers deadline visitor turns next (visited ++ [entry]) (negb (visitor visited entry))
        end
      end
  end.

(** What was sent, the status, the entries visited, the error, the connection. *)
Definition ksd_permissions_list (visitor : list ksd_permission_entry -> ksd_permission_entry -> bool) (c : ksd_connection)
    (now : Z) (late unwritten : option Z) (turns : list (list arrival))
    : option (list ksd_frame * (Z * list ksd_permission_entry * ksd_error * ksd_connection)) :=
  if negb (valid_rpc c) then
    let '(status, error) := invalid_argument (cstr "invalid permissions list request") in Some ([], (status, [], error, c))
  else
    let* (frames, a) := request c KSD_OP_PERMISSIONS_LIST None 0 now late unwritten (default [] (head turns)) in
    let* r := list_answers (now + cn_timeout_ms c) visitor (tail turns) a [] false in Some (frames, r).

(** The target of a revocation, its hash an array of 65 characters. *)
Record ksd_permission_revoke := mk_revoke {
  rv_target_kind : Z;
  rv_scopes : Z;
  rv_pid : Z;
  rv_hash : list byte;
}.

Definition revoke_payload (revoke : ksd_permission_revoke) : string + list byte :=
  let payload hash := inr (ksd_encode_u32 (rv_target_kind revoke) ++ ksd_encode_u32 (rv_scopes revoke)
                           ++ ksd_encode_u64 (rv_pid revoke) ++ hash) in
  let none := repeat x00 32 in
  if (rv_scopes revoke =? 0) || negb (Z.land (rv_scopes revoke) (u32 (Z.lnot KSD_DESKTOP_MANAGED_SCOPES)) =? 0)
  then inl "invalid permissions revoke request"%string
  else if rv_target_kind revoke =? KSD_PERMISSION_TARGET_HASH then
    if negb (rv_pid revoke =? 0) || negb (canonical_hash (rv_hash revoke)) then inl "invalid permission hash target"%string
    else payload (text_hash_to_raw (ztake 64 (rv_hash revoke)))
  else if rv_target_kind revoke =? KSD_PERMISSION_TARGET_PID then
    if (rv_pid revoke =? 0) || (INT_MAX <? rv_pid revoke) || negb (bytes_are_zero (rv_hash revoke))
    then inl "invalid permission pid target"%string else payload none
  else if rv_target_kind revoke =? KSD_PERMISSION_TARGET_ALL then
    if negb (rv_pid revoke =? 0) || negb (bytes_are_zero (rv_hash revoke))
    then inl "invalid permission all target"%string else payload none
  else inl "invalid permission target kind"%string.

Definition ksd_permissions_revoke (c : ksd_connection) (revoke : ksd_permission_revoke) (now : Z) (late unwritten : option Z)
    (arrivals : list arrival) : option (list ksd_frame * (Z * option unit * ksd_error * ksd_connection)) :=
  let refused message := let '(status, error) := invalid_argument (cstr message) in Some ([], (status, None, error, c)) in
  if negb (valid_rpc c) then refused "invalid permissions revoke request"%string
  else
    match revoke_payload revoke with
    | inl message => refused message
    | inr payload =>
      let* (frames, a) := request c KSD_OP_PERMISSIONS_REVOKE (Some payload) 48 now late unwritten arrivals in
      Some (frames, finish a (fun r _ _ => guard* zlen (rs_tail r) =? 0 in Some tt)
                      "desktop service returned invalid revoke response")
    end.
End client.

(** ** Hashes are carried over *)

Lemma digit_value v : 0 <= v < 16 -> hash_digit (digit_of v) = v /\ hash_character (digit_of v) = true.
Proof.
  intros Hv. assert (H : forallb (fun n => (hash_digit (digit_of (Z.of_nat n)) =? Z.of_nat n) && hash_character (digit_of (Z.of_nat n)))
    (seq 0 16) = true) by reflexivity.
  rewrite forallb_forall in H. specialize (H (Z.to_nat v) ltac:(apply in_seq; lia)). rewrite Z2Nat.id in H by lia. by breflect.
Qed.

Lemma character_digit b : hash_character b = true -> 0 <= hash_digit b < 16 /\ digit_of (hash_digit b) = b.
Proof.
  intros H. pose proof (byte_forall (fun b => implb (hash_character b)
    ((0 <=? hash_digit b) && (hash_digit b <? 16) && Byte.eqb (digit_of (hash_digit b)) b)) ltac:(reflexivity) b) as Hb.
  cbv beta in Hb. rewrite H in Hb. cbn [implb] in Hb. apply andb_true_iff in Hb as [Hb He]. breflect.
  split; [lia|]. by apply Byte.byte_dec_bl.
Qed.

Lemma two_digits x y : 0 <= x < 16 -> 0 <= y < 16 ->
  Z.lor (Z.shiftl x 4) y = x * 16 + y /\ Z.shiftr (x * 16 + y) 4 = x /\ Z.land (x * 16 + y) 15 = y.
Proof.
  intros Hx Hy. split; [rewrite Z.lor_comm, lor_shiftl_add; lia|]. split.
  - rewrite Z.shiftr_div_pow2 by lia. symmetry. apply (Z.div_unique _ _ _ y); lia.
  - change 15 with (2 ^ 4 - 1). rewrite <- mod_pow2_land by lia. symmetry. apply (Z.mod_unique _ _ x); lia.
Qed.

Lemma byte_digits b : 0 <= Z.shiftr (b2z b) 4 < 16 /\ 0 <= Z.land (b2z b) 15 < 16 /\
  Z.shiftr (b2z b) 4 * 16 + Z.land (b2z b) 15 = b2z b.
Proof.
  pose proof (b2z_range b) as Hb. change 15 with (2 ^ 4 - 1). rewrite <- mod_pow2_land, Z.shiftr_div_pow2 by lia.
  change (2 ^ 4) with 16. pose proof (Z.mod_pos_bound (b2z b) 16). pose proof (Z.div_mod (b2z b) 16). lia.
Qed.

Lemma hash_to_raw_to_hash raw : hash_to_raw (raw_to_hash raw) = raw.
Proof.
  induction raw as [|b raw IH]; [done|]. cbn [raw_to_hash hash_to_raw]. rewrite IH. f_equal.
  destruct (byte_digits b) as (Hh & Hl & E). change 0x0f with 15.
  rewrite (proj1 (digit_value _ Hh)), (proj1 (digit_value _ Hl)), (proj1 (two_digits _ _ Hh Hl)), E. apply z2b_b2z.
Qed.

Lemma raw_to_hash_characters raw : forallb hash_character (raw_to_hash raw) = true /\ zlen (raw_to_hash raw) = 2 * zlen raw.
Proof.
  induction raw as [|b raw [IH1 IH2]]; [done|]. cbn [raw_to_hash forallb]. rewrite IH1, !zlen_cons, IH2.
  destruct (byte_digits b) as (Hh & Hl & _). change 0x0f with 15. split; [|lia].
  by rewrite (proj2 (digit_value _ Hh)), (proj2 (digit_value _ Hl)).
Qed.

Lemma raw_to_hash_to_raw n : forall hash,
  length hash = (2 * n)%nat -> forallb hash_character hash = true ->
  raw_to_hash (hash_to_raw hash) = hash /\ length (hash_to_raw hash) = n.
Proof.
  induction n as [|n IH]; intros hash Hl Hc; [by destruct hash|].
  destruct hash as [|high [|low hash]]; [cbn in Hl; lia..|]. cbn [forallb] in Hc. apply andb_true_iff in Hc as [H1 Hc].
  apply andb_true_iff in Hc as [H2 Hc]. destruct (IH hash ltac:(cbn in Hl; lia) Hc) as [I1 I2].
  destruct (character_digit _ H1) as [Hx Ex]. destruct (character_digit _ H2) as [Hy Ey].
  cbn [hash_to_raw raw_to_hash length]. rewrite I1, I2. split; [|done].
  destruct (two_digits _ _ Hx Hy) as (-> & Hs & Hd). rewrite b2z_z2b_small by lia. change (Z.land _ 0x0f) with (Z.land (hash_digit high * 16 + hash_digit low) 15).
  by rewrite Hs, Hd, Ex, Ey.
Qed.

Lemma hash_carried hash :
  zlen hash = 64 -> forallb hash_character hash = true -> raw_to_hash (hash_to_raw hash) = hash /\ zlen (hash_to_raw hash) = 32.
Proof.
  unfold zlen. intros Hl Hc. destruct (raw_to_hash_to_raw 32 hash ltac:(lia) Hc) as [-> ->]. done.
Qed.

(** ** A listing arrives *)

(** What is relied on of the sanitizer: a C string that fits the buffer it is given,
    and that buffer is no larger than the one of the client's record. *)
Class PermissionLibraryLaws {PL : PermissionLibrary} : Prop := {
  path_capacity : 0 < KSP_PATH_CAPACITY <= KSD_EXECUTABLE_PATH_SIZE;
  sanitized_fits : forall source, zlen (ksp_sanitize_display_text source) < KSP_PATH_CAPACITY;
  sanitized_text : forall source, Forall (fun b => b2z b <> 0) (ksp_sanitize_display_text source);
}.
Arguments PermissionLibraryLaws : clear implicits.

Section listing.
Context {AL : Allocator} {AT : AllocTotal AL} {PL : PermissionLibrary} {LL : PermissionLibraryLaws PL}.

Lemma safe_path_ok source : ksd_utf8_valid (safe_path source) false = true /\ zlen (safe_path source) < KSP_PATH_CAPACITY.
Proof.
  unfold safe_path. pose proof (sanitized_fits source) as Hl. pose proof (sanitized_text source) as Ht.
  destruct (ksd_utf8_valid (ksp_sanitize_display_text source) false) eqn:E; cbn [negb]; [done|]. split.
  - apply ascii_valid. revert Ht. generalize (ksp_sanitize_display_text source). clear.
    induction 1 as [|b l Hb _ IH]; cbn [map]; constructor; [|done]. pose proof (b2z_range b).
    destruct (Z.leb_spec 0x80 (b2z b)); [|lia]. rewrite b2z_z2b_small by lia. lia.
  - unfold zlen. rewrite length_map. exact Hl.
Qed.

(** What a client is to see of an entry. *)
Definition shown (entry : ksp_permission_entry) : ksd_permission_entry :=
  mk_permission (entry_scopes entry) (ksp_granted_at_utc entry) (ksp_app_hash entry) (safe_path (ksp_executable entry)).
(** An entry as the store keeps it. *)
Definition entry_ok (entry : ksp_permission_entry) : Prop :=
  is_u64 (ksp_granted_at_utc entry) /\ zlen (ksp_app_hash entry) = 64 /\ forallb hash_character (ksp_app_hash entry) = true /\
  ksp_sanitize_display_text (ksp_executable entry) <> [].

Definition entry_bytes (entry : ksp_permission_entry) : list byte :=
  ksd_encode_u32 (entry_scopes entry) ++ ksd_encode_u32 (zlen (safe_path (ksp_executable entry)))
  ++ ksd_encode_u64 (ksp_granted_at_utc entry) ++ hash_to_raw (ksp_app_hash entry) ++ safe_path (ksp_executable entry).

Lemma entry_scopes_u32 entry : is_u32 (entry_scopes entry).
Proof.
  unfold entry_scopes. rewrite Z.land_comm. pose proof (land_subset_l KSD_DESKTOP_MANAGED_SCOPES (ksp_scopes entry) ltac:(done)) as H.
  unfold is_u32. assert (KSD_DESKTOP_MANAGED_SCOPES < 2 ^ 32) by done. lia.
Qed.

Lemma entry_path entry : entry_ok entry ->
  1 <= zlen (safe_path (ksp_executable entry)) < KSD_EXECUTABLE_PATH_SIZE /\
  zlen (safe_path (ksp_executable entry)) < KSP_PATH_CAPACITY /\ ksd_utf8_valid (safe_path (ksp_executable entry)) false = true.
Proof.
  intros (_ & _ & _ & Hne). destruct (safe_path_ok (ksp_executable entry)) as [Hv Hl]. pose proof path_capacity. split; [|done].
  split; [|lia]. unfold safe_path. destruct (ksp_sanitize_display_text (ksp_executable entry)) as [|b l]; [done|].
  unfold zlen. destruct (negb _); rewrite ?length_map; cbn [length]; lia.
Qed.

Lemma entry_tail_spec entry : entry_ok entry -> entry_tail entry = Some (entry_bytes entry) /\ zlen (entry_bytes entry) <= 8192.
Proof.
  intros Hok. destruct (entry_path entry Hok) as (Hp & Hc & _). destruct Hok as (_ & Hh & Hhc & _).
  destruct (hash_carried _ Hh Hhc) as [_ Hr]. pose proof path_capacity as Hcap. unfold KSD_EXECUTABLE_PATH_SIZE in *.
  assert (Hz : zlen (entry_bytes entry) = 48 + zlen (safe_path (ksp_executable entry))).
  { unfold entry_bytes. rewrite !zlen_app, zlen_encode_u64, !zlen_encode_u32, Hr. lia. }
  split; [|lia]. unfold entry_tail. rewrite (proj2 (Z.leb_le _ _)) by (unfold UINT32_MAX; lia).
  rewrite (u32_id (zlen _)) by (unfold is_u32; lia).
  match goal with |- context [let '(_, _) := ?op ?b in _] => destruct (writes_total op (entry_bytes entry) b) as (b' & -> & _ & _ & Hb) end.
  - unfold entry_bytes. do 4 (apply andthen_writes; [first [apply u32_writes|apply u64_writes|by apply (bytes_writes (Some _))]|]).
    by apply (bytes_writes (Some _)).
  - apply buffer_init_wf. unfold SIZE_MAX. lia.
  - change (buf_length (ksd_buffer_init _)) with 0. cbn [ksd_buffer_init buf_maximum]. lia.
  - by rewrite Hb.
Qed.

Lemma parse_entry entry : entry_ok entry -> entry_scopes entry <> 0 -> parse_permission_entry (entry_bytes entry) = Some (shown entry).
Proof.
  intros Hok Hs. destruct (entry_path entry Hok) as (Hp & _ & Hv). destruct Hok as (Hg & Hh & Hhc & _).
  destruct (hash_carried _ Hh Hhc) as [Hraw Hr]. unfold parse_permission_entry.
  set (c := ksd_cursor_init (entry_bytes entry) (zlen (entry_bytes entry))).
  destruct (reads_u32 _ (entry_scopes_u32 entry) c _ (cursor_init_wf _) (cursor_init_rest _ _)) as (c1 & -> & W1 & R1).
  assert (Hpu : is_u32 (zlen (safe_path (ksp_executable entry)))) by (unfold is_u32, KSD_EXECUTABLE_PATH_SIZE in *; lia).
  destruct (reads_u32 _ Hpu c1 _ W1 R1) as (c2 & -> & W2 & R2). destruct (reads_u64 _ Hg c2 _ W2 R2) as (c3 & -> & W3 & R3).
  destruct (cursor_bytes_app c3 _ _ W3 R3) as (c4 & E4 & W4 & R4). rewrite Hr in E4. rewrite E4.
  rewrite (proj2 (Z.eqb_neq _ _)), (proj2 (Z.leb_gt _ _)) by lia. cbn [negb andb].
  rewrite <- (app_nil_r (safe_path _)) in R4. destruct (cursor_bytes_app c4 _ [] W4 R4) as (c5 & -> & W5 & R5).
  rewrite (finished_end c5 W5 R5), (proj2 (Z.eqb_neq _ _) Hs), Hv. cbn [negb andb]. unfold shown. do 2 f_equal. exact Hraw.
Qed.

(** The entries with a scope this service manages. *)
Definition listed (entries : list ksp_permission_entry) : list ksp_permission_entry :=
  filter (fun e => entry_scopes e <> 0) entries.

Lemma list_entries_spec entries : Forall entry_ok entries -> forall n,
  list_entries (fun _ => true) n entries = (true, map entry_bytes (listed entries), (n + length (listed entries))%nat).
Proof.
  unfold listed. induction 1 as [|e es He _ IH]; intros n; [by rewrite Nat.add_0_r|]. cbn [list_entries]. rewrite filter_cons.
  destruct (Z.eqb_spec (entry_scopes e) 0) as [E|E].
  - destruct (decide _); [done|]. apply IH.
  - destruct (decide _); [|done]. rewrite (proj1 (entry_tail_spec e He)), IH. cbn [map length]. by rewrite <- plus_n_Sm.
Qed.

(** *** The answers *)

Definition answer_frame (request : ksd_frame) (more : bool) (tail : list byte) : ksd_frame :=
  response_of request more (response_payload KSD_STATUS_OK 0 None tail).
(** The answers to a listing. *)
Fixpoint listing_frames (request : ksd_frame) (tails : list (list byte)) : list ksd_frame :=
  match tails with
  | [] => [answer_frame request false []]
  | tail :: tails => answer_frame request true tail :: listing_frames request tails
  end.
Definition arrives (f : ksd_frame) : list arrival := [Arrived f (-1)].

Section reading.
Variable request : ksd_frame.
Hypothesis opcode : fr_opcode request = KSD_OP_PERMISSIONS_LIST.

Definition got (more : bool) (tail : list byte) (c : ksd_connection) : answered :=
  mk_answered KSD_STATUS_OK (Some (mk_response KSD_STATUS_OK 0 tail, answer_frame request more tail, -1)) no_error c [].

Lemma read_answer deadline more tail c :
  cn_role c = KSD_ROLE_RPC -> zlen tail + 16 <= response_limit ->
  read_response deadline KSD_OP_PERMISSIONS_LIST (fr_request_id request) (arrives (answer_frame request more tail)) c = Some (got more tail c).
Proof.
  intros Hc Ht. unfold arrives. cbn [read_response arrival_late]. unfold receive_response. rewrite Hc. cbn [Z.eqb Pos.eqb KSD_ROLE_RPC from_option].
  replace (with_input c (cn_input c)) with c by by destruct c. replace (Z.land _ KSD_FLAG_EVENT =? 0) with true by by destruct more.
  cbn [negb]. pose proof (take_response_spec 0 (cn_sequence c) request KSD_STATUS_OK 0 None tail more) as H.
  unfold full_tail in H. rewrite opcode in H. change (ksd_state_mutates_windows KSD_OP_PERMISSIONS_LIST) with false in H. rewrite andb_false_r in H. cbv zeta in H.
  unfold answer_frame. rewrite H; try done. by destruct c.
Qed.

(** What the visitor is given: the entries, until it refuses to go on. *)
Fixpoint visits (visitor : list ksd_permission_entry -> ksd_permission_entry -> bool) (visited : list ksd_permission_entry)
    (cancelled : bool) (entries : list ksd_permission_entry) : list ksd_permission_entry * bool :=
  match entries with
  | [] => (visited, cancelled)
  | entry :: entries =>
    if cancelled then visits visitor visited true entries
    else visits visitor (visited ++ [entry]) (negb (visitor visited entry)) entries
  end.

(** The answer the client is waiting for, given the entries still to come. *)
Definition next_answer (entries : list ksp_permission_entry) : ksd_connection -> answered :=
  match entries with [] => got false [] | e :: _ => got true (entry_bytes e) end.

Lemma next_answer_read deadline entries c :
  cn_role c = KSD_ROLE_RPC -> Forall entry_ok entries ->
  read_response deadline KSD_OP_PERMISSIONS_LIST (fr_request_id request)
    (default [] (head (map arrives (listing_frames request (map entry_bytes entries))))) c = Some (next_answer entries c).
Proof.
  intros Hc H. destruct entries as [|e es]; [by apply read_answer|]. apply read_answer; [done|].
  pose proof (proj2 (entry_tail_spec e (Forall_inv H))). unfold response_limit, KSD_MAX_CAPTURE_BYTES. lia.
Qed.

Lemma list_answers_spec deadline visitor c entries : cn_role c = KSD_ROLE_RPC -> Forall entry_ok entries -> Forall (fun e => entry_scopes e <> 0) entries ->
  forall visited cancelled,
  let '(visited', cancelled') := visits visitor visited cancelled (map shown entries) in
  list_answers deadline visitor (tail (map arrives (listing_frames request (map entry_bytes entries)))) (next_answer entries c) visited cancelled
  = Some (if cancelled' : bool then KSD_STATUS_CANCELLED else KSD_STATUS_OK, visited',
          if cancelled' then set_error 0 0 (Some (cstr "permission visitor cancelled")) else no_error, c).
Proof.
  intros Hc. induction 1 as [|e es He Hes IH]; intros Hs visited cancelled.
  - cbn [map visits]. by destruct cancelled.
  - pose proof (Forall_inv Hs) as Hse. apply Forall_inv_tail in Hs. specialize (IH Hs).
    cbn [map visits listing_frames tail next_answer]. pose proof (next_answer_read deadline es c Hc Hes) as Hn.
    destruct (listing_frames request (map entry_bytes es)) as [|f fs]; [by destruct es|].
    cbn [map head tail default from_option Datatypes.id] in *. cbn [list_answers got aw_response aw_status].
    change (negb (KSD_STATUS_OK =? KSD_STATUS_OK)) with false.
    change (negb (is_part (answer_frame request true (entry_bytes e)))) with false. cbn [rs_tail].
    rewrite (parse_entry e He Hse).
    change (fr_request_id (answer_frame request true (entry_bytes e))) with (fr_request_id request).
    change (aw_connection (got true (entry_bytes e) c)) with c. rewrite Hn.
    destruct cancelled; apply IH.
Qed.
End reading.

Lemma listing_frames_app request tails :
  listing_frames request tails = map (answer_frame request true) tails ++ [answer_frame request false []].
Proof. induction tails as [|t tails IH]; cbn; [done|]. by rewrite IH. Qed.

Lemma visits_all visitor entries : (forall visited e, visitor visited e = true) -> forall visited,
  visits visitor visited false entries = (visited ++ entries, false).
Proof.
  intros H. induction entries as [|e es IH]; intros visited; cbn [visits]; [by rewrite app_nil_r|].
  rewrite H. cbn [negb]. by rewrite IH, <- app_assoc.
Qed.

(** A listing arrives as the store holds it.  The entries with a scope this
    service manages are sent one response each and an empty one ends them; reading
    those, the client hands its visitor each of them in order, with its scopes, the
    time, the hash and the displayed path, until the visitor refuses to go on, and
    then reads the rest without visiting, so that the connection can be used again;
    a visitor that never refuses sees them all and the call succeeds. *)
Theorem permissions_listed visitor entries c now (id := fst (next_request_id c))
    (r := mk_frame ksd_public_magic KSD_PROTOCOL_MAJOR KSD_PROTOCOL_MINOR KSD_OP_PERMISSIONS_LIST 0 0 id None) :
  Forall entry_ok entries -> valid_rpc c = true -> cn_open c = true -> 0 < now <= UINT64_MAX - cn_timeout_ms c ->
  exists tails frames last,
    permissions_list (Some entries) (fun _ => true) r = (true, tails, Some (mk_reply KSD_STATUS_OK 0 None [])) /\
    Forall2 (fun tail f => response_frame 0 r KSD_STATUS_OK 0 None (Some tail) (zlen tail) true = Some f) tails frames /\
    response_frame 0 r KSD_STATUS_OK 0 None (Some []) 0 false = Some last /\
    (let '(visited, cancelled) := visits visitor [] false (map shown (listed entries)) in
     exists error, ksd_permissions_list visitor c now None None (map arrives (frames ++ [last])) =
       Some ([r], (if cancelled : bool then KSD_STATUS_CANCELLED else KSD_STATUS_OK, visited, error, snd (next_request_id c)))) /\
    ((forall visited e, visitor visited e = true) ->
     visits visitor [] false (map shown (listed entries)) = (map shown (listed entries), false)).
Proof.
  intros He Hv Ho Hn. assert (Hl : Forall entry_ok (listed entries) /\ Forall (fun e => entry_scopes e <> 0) (listed entries)).
  { unfold listed. split; apply list.Forall_forall; intros x Hx; apply list_elem_of_filter in Hx as [? Hx]; [|done].
    by apply (proj1 (list.Forall_forall _ _) He). }
  destruct Hl as [Hl Hs]. assert (Hid : id <> 0 /\ is_u64 id).
  { unfold id, next_request_id, is_u64, u64. cbn [fst]. pose proof (Z.mod_pos_bound (cn_next_request_id c + 1) (2 ^ 64) ltac:(lia)).
    destruct (Z.eqb_spec ((cn_next_request_id c + 1) mod 2 ^ 64) 0) as [->|]; [by vm_compute|lia]. }
  assert (Hr : frame_wf r).
  { unfold frame_wf, header_wf, r; cbn. unfold is_u16, is_u32, KSD_PROTOCOL_MAJOR, KSD_PROTOCOL_MINOR, KSD_OP_PERMISSIONS_LIST.
    intuition (done || lia). }
  exists (map entry_bytes (listed entries)), (map (answer_frame r true) (map entry_bytes (listed entries))), (answer_frame r false []).
  split; [|split; [|split; [|split]]].
  - unfold permissions_list. cbn [fr_payload_length r Z.eqb negb]. by rewrite list_entries_spec.
  - apply Forall2_fmap_r, Forall_Forall2_diag, List.Forall_map. eapply Forall_impl; [|exact Hl]. intros e Hok.
    pose proof (proj2 (entry_tail_spec e Hok)).
    by destruct (response_frame_spec 0 r KSD_STATUS_OK 0 None (entry_bytes e) true Hr (proj1 Hid) ltac:(unfold response_limit, KSD_MAX_CAPTURE_BYTES; lia) ltac:(done)) as [-> _].
  - exact (proj1 (response_frame_spec 0 r KSD_STATUS_OK 0 None [] false Hr (proj1 Hid) ltac:(done) ltac:(done))).
  - rewrite <- listing_frames_app.
    assert (Hc : cn_role (snd (next_request_id c)) = KSD_ROLE_RPC) by (unfold valid_rpc in Hv; breflect; exact Hv).
    pose proof (list_answers_spec r eq_refl (now + cn_timeout_ms c) visitor (snd (next_request_id c)) (listed entries) Hc Hl Hs [] false) as H.
    destruct (visits visitor [] false (map shown (listed entries))) as [visited cancelled].
    eexists. unfold ksd_permissions_list. rewrite Hv. cbn [negb]. unfold request.
    change (next_request_id c) with (id, snd (next_request_id c)). cbn beta iota. change (cn_open (snd (next_request_id c))) with (cn_open c).
    rewrite Ho. change (cn_timeout_ms (snd (next_request_id c))) with (cn_timeout_ms c).
    rewrite (proj2 (Z.eqb_neq now 0)), (proj2 (Z.ltb_ge _ _)) by lia. cbn [negb orb].
    change (write_request KSD_OP_PERMISSIONS_LIST id 0 None) with (Some [r]). cbn beta iota.
    change id with (fr_request_id r). rewrite next_answer_read by done. rewrite H. reflexivity.
  - intros Hall. by rewrite visits_all.
Qed.
End listing.

(** ** A revocation arrives *)

(** What the caller of the library wants revoked. *)
Definition wanted (revoke : ksd_permission_revoke) : revocation :=
  if rv_target_kind revoke =? KSD_PERMISSION_TARGET_HASH then RevokeHash (ztake 64 (rv_hash revoke)) (rv_scopes revoke)
  else if rv_target_kind revoke =? KSD_PERMISSION_TARGET_PID then RevokePid (rv_pid revoke) (rv_scopes revoke)
  else RevokeAll (rv_scopes revoke).
Definition revoke_ranges (revoke : ksd_permission_revoke) : Prop :=
  is_u32 (rv_target_kind revoke) /\ is_u32 (rv_scopes revoke) /\ is_u64 (rv_pid revoke) /\ zlen (rv_hash revoke) = 65.

Lemma parse_revoke_words kind scopes pid raw :
  is_u32 kind -> is_u32 scopes -> is_u64 pid -> zlen raw = 32 -> scopes <> 0 ->
  Z.land scopes (u32 (Z.lnot KSD_DESKTOP_MANAGED_SCOPES)) = 0 ->
  parse_revoke (ksd_encode_u32 kind ++ ksd_encode_u32 scopes ++ ksd_encode_u64 pid ++ raw) =
  if kind =? KSD_PERMISSION_TARGET_HASH then
    if negb (pid =? 0) then inl "invalid permissions revoke selector"%string else inr (RevokeHash (raw_to_hash raw) scopes)
  else if kind =? KSD_PERMISSION_TARGET_PID then
    if negb (bytes_are_zero raw) || (pid =? 0) || (INT_MAX <? pid) then inl "invalid permissions revoke selector"%string
    else inr (RevokePid pid scopes)
  else if kind =? KSD_PERMISSION_TARGET_ALL then
    if negb (pid =? 0) || negb (bytes_are_zero raw) then inl "invalid permissions revoke selector"%string else inr (RevokeAll scopes)
  else inl "invalid permissions revoke selector"%string.
Proof.
  intros Hk Hs Hp Hr Hne Hm. unfold parse_revoke. set (p := _ ++ _).
  assert (Hz : zlen p = 48) by (unfold p; rewrite !zlen_app, zlen_encode_u64, !zlen_encode_u32; lia). rewrite Hz. cbn [Z.eqb Pos.eqb].
  destruct (reads_u32 _ Hk (ksd_cursor_init p 48) (ksd_encode_u32 scopes ++ ksd_encode_u64 pid ++ raw)) as (c1 & -> & W1 & R1);
    [rewrite <- Hz; apply cursor_init_wf|apply cursor_init_rest|].
  destruct (reads_u32 _ Hs c1 _ W1 R1) as (c2 & -> & W2 & R2). destruct (reads_u64 _ Hp c2 _ W2 R2) as (c3 & -> & W3 & R3).
  rewrite <- (app_nil_r raw) in R3. destruct (cursor_bytes_app c3 raw [] W3 R3) as (c4 & E4 & W4 & R4). rewrite Hr in E4. rewrite E4.
  rewrite (finished_end c4 W4 R4), (proj2 (Z.eqb_neq _ _) Hne), Hm. done.
Qed.

Lemma wanted_parsed revoke payload :
  revoke_ranges revoke -> revoke_payload revoke = inr payload -> parse_revoke payload = inr (wanted revoke) /\ zlen payload = 48.
Proof.
  intros (Hk & Hs & Hp & Hh). unfold revoke_payload, wanted. destruct (_ || _) eqn:Es; [done|]. breflect.
  assert (Hzero : zlen (repeat x00 32) = 32 /\ bytes_are_zero (repeat x00 32) = true) by by vm_compute. destruct Hzero as [Hz0 Hz1].
  assert (Hlen : forall raw, zlen raw = 32 ->
    zlen (ksd_encode_u32 (rv_target_kind revoke) ++ ksd_encode_u32 (rv_scopes revoke) ++ ksd_encode_u64 (rv_pid revoke) ++ raw) = 48).
  { intros raw Hr. rewrite !zlen_app, zlen_encode_u64, !zlen_encode_u32. lia. }
  destruct (rv_target_kind revoke =? KSD_PERMISSION_TARGET_HASH) eqn:Ek.
  - destruct (_ || _) eqn:Eb; [done|]. intros E%(inj inr). subst payload. apply orb_false_iff in Eb as [Ep Ec].
    apply negb_false_iff, andb_true_iff in Ec as [_ Ec].
    destruct (hash_carried (ztake 64 (rv_hash revoke)) ltac:(apply zlen_ztake; lia) Ec) as [Hc Hr]. split; [|by apply Hlen].
    rewrite parse_revoke_words by done. unfold text_hash_to_raw in *. by rewrite Ek, Ep, Hc.
  - destruct (rv_target_kind revoke =? KSD_PERMISSION_TARGET_PID) eqn:Ek2.
    + destruct (_ || _) eqn:Eb; [done|]. intros E%(inj inr). subst payload. split; [|by apply Hlen]. apply orb_false_iff in Eb as [[Ea Eb]%orb_false_iff _].
      rewrite parse_revoke_words by done. by rewrite Ek, Ek2, Hz1, Ea, Eb.
    + destruct (rv_target_kind revoke =? KSD_PERMISSION_TARGET_ALL) eqn:Ek3; [|done].
      destruct (_ || _) eqn:Eb; [done|]. intros E%(inj inr). subst payload. split; [|by apply Hlen]. apply orb_false_iff in Eb as [Eb _].
      rewrite parse_revoke_words by done. by rewrite Ek, Ek2, Ek3, Hz1, Eb.
Qed.

(** The scopes of a revocation the authority takes up are managed ones, its hash a
    canonical one, its process number one of a process. *)
Definition target_ok (target : revocation) : Prop :=
  match target with
  | RevokeHash hash scopes => zlen hash = 64 /\ forallb hash_character hash = true /\ scopes <> 0 /\
      Z.land scopes (u32 (Z.lnot KSD_DESKTOP_MANAGED_SCOPES)) = 0
  | RevokePid pid scopes => 0 < pid <= INT_MAX /\ scopes <> 0 /\ Z.land scopes (u32 (Z.lnot KSD_DESKTOP_MANAGED_SCOPES)) = 0
  | RevokeAll scopes => scopes <> 0 /\ Z.land scopes (u32 (Z.lnot KSD_DESKTOP_MANAGED_SCOPES)) = 0
  end.

Lemma parse_revoke_ok payload target : parse_revoke payload = inr target -> target_ok target.
Proof.
  unfold parse_revoke. destruct (_ =? 48); [|done]. set (c := ksd_cursor_init _ _). assert (W : cursor_wf c) by apply cursor_init_wf.
  destruct (ksd_cursor_u32 c) as [[kind c1]|] eqn:E1; [|done]. destruct (consumes_u32 _ _ _ W E1) as [W1 _].
  destruct (ksd_cursor_u32 c1) as [[scopes c2]|] eqn:E2; [|done]. destruct (consumes_u32 _ _ _ W1 E2) as [W2 _].
  destruct (ksd_cursor_u64 c2) as [[pid c3]|] eqn:E3; [|done]. destruct (consumes_u64 _ _ _ W2 E3) as [W3 _].
  pose proof (cursor_u64_range _ _ _ W2 E3) as Hp.
  pose proof (cursor_bytes_spec c3 32 W3 ltac:(lia)) as Hb. destruct (ksd_cursor_bytes c3 32) as [[raw c4]|]; [|done].
  destruct Hb as (_ & Hl & _). destruct (_ && _) eqn:Ec; [|done]. breflect. destruct (raw_to_hash_characters raw) as [Hc Hz].
  unfold is_u64 in Hp. destruct (kind =? _).
  - destruct (negb _); [done|]. intros [= <-]. cbn. rewrite Hz, Hl. done.
  - destruct (kind =? _).
    + destruct (_ || _) eqn:Eb; [done|]. intros [= <-]. breflect. cbn. split; [lia|done].
    + destruct (kind =? _); [|done]. destruct (_ || _); [done|]. by intros [= <-].
Qed.

Section revocations.
Context {AL : Allocator} {S : Type} {PS : PermissionStore S}.

(** The user a call of the store is about. *)
Definition call_uid (call : store_call) : Z := match call with StoreRevoke uid _ _ | StoreRevokeUid uid _ => uid end.

(** A revocation does what was asked, for the user who asked.  The payload the
    client library makes of a target is one the authority reads back as that
    target, and the only call it makes of the store is the one for it, on the
    entries of the session's own user, with managed scopes only; success is
    answered only after the store has carried it out and the session has been
    refreshed from the store, and any other payload reaches the store either as a
    valid target of that user or not at all. *)
Theorem revoke_carried w session lease request o :
  permissions_revoke w session lease request = Some o ->
  (forall revoke payload, revoke_ranges revoke -> revoke_payload revoke = inr payload -> fr_payload request = Some payload ->
     rk_call o = revoke_call w (id_uid (se_identity session)) (wanted revoke) /\ zlen payload = 48) /\
  (forall call, rk_call o = Some call -> call_uid call = id_uid (se_identity session) /\
     exists target, parse_revoke (default [] (fr_payload request)) = inr target /\ target_ok target /\
       revoke_call w (id_uid (se_identity session)) target = Some call) /\
  (forall rp, rk_reply o = Some rp -> rp_status rp = KSD_STATUS_OK ->
     exists call changed, rk_call o = Some call /\ vw_result w call = 0 /\
       session_refresh (vw_sends w) (vw_store w) (vw_verified w) true true lease =
       Some (true, rk_session o, rk_lease o, changed, rk_events o)).
Proof.
  unfold permissions_revoke. destruct (parse_revoke (default [] (fr_payload request))) as [diagnostic|target] eqn:Ep.
  - intros [= <-]. split; [|by split; [|intros rp [= <-]]]. intros revoke payload Hr Hp Hf. exfalso. rewrite Hf in Ep. cbn in Ep.
    destruct (wanted_parsed _ _ Hr Hp) as [H _]. congruence.
  - assert (Huid : forall call, revoke_call w (id_uid (se_identity session)) target = Some call -> call_uid call = id_uid (se_identity session)).
    { intros call. destruct target; cbn; [by intros [= <-]| |by intros [= <-]]. destruct (vw_target w pid _); [|done]. by intros [= <-]. }
    assert (Hw : forall revoke payload, revoke_ranges revoke -> revoke_payload revoke = inr payload -> fr_payload request = Some payload ->
      target = wanted revoke /\ zlen payload = 48).
    { intros revoke payload Hr Hp Hf. rewrite Hf in Ep. cbn in Ep. destruct (wanted_parsed _ _ Hr Hp) as [H ?]. split; [congruence|done]. }
    pose proof (parse_revoke_ok _ _ Ep) as Hok.
    destruct (revoke_call w (id_uid (se_identity session)) target) as [call|] eqn:Ec.
    2:{ intros [= <-]. split; [|by split; [|intros rp [= <-]]]. intros revoke payload Hr Hp Hf.
        destruct (Hw _ _ Hr Hp Hf) as [<- ?]. by rewrite Ec. }
    assert (H1 : forall revoke payload, revoke_ranges revoke -> revoke_payload revoke = inr payload -> fr_payload request = Some payload ->
      Some call = revoke_call w (id_uid (se_identity session)) (wanted revoke) /\ zlen payload = 48).
    { intros revoke payload Hr Hp Hf. destruct (Hw _ _ Hr Hp Hf) as [<- ?]. by rewrite Ec. }
    assert (H2 : forall call0, Some call = Some call0 -> call_uid call0 = id_uid (se_identity session) /\
      exists target0, inr target = inr (A := string) target0 /\ target_ok target0 /\
        revoke_call w (id_uid (se_identity session)) target0 = Some call0).
    { intros call0 [= <-]. split; [by apply Huid|]. by exists target. }
    destruct (Z.eqb_spec (vw_result w call) 0) as [E|E]; cbn [negb].
    2:{ intros [= <-]. split; [exact H1|]. split; [exact H2|]. by intros rp [= <-]. }
    destruct (session_refresh _ _ _ _ _ _) as [[[[[ok session'] lease'] changed] out]|] eqn:Er; [|done].
    destruct ok; cbn [negb]; intros [= <-]; (split; [exact H1|]); (split; [exact H2|]); intros rp [= <-] _.
    by exists call, changed.
Qed.
End revocations.

(** ** Witnesses *)

#[local] Instance plain_library : PermissionLibrary := {| KSP_PATH_CAPACITY := 4096; ksp_sanitize_display_text := ztake 4095 ∘ until_nul |}.
Lemma plain_library_laws : PermissionLibraryLaws plain_library.
Proof.
  assert (Hz : forall l : list byte, Forall (fun b => b2z b <> 0) (until_nul l)).
  { induction l as [|b l IH]; cbn; [done|]. destruct (Z.eqb_spec (b2z b) 0); [done|by constructor]. }
  split; [done| |]; intros source; cbn -[ztake].
  - unfold zlen, ztake. rewrite length_take. lia.
  - apply Forall_take, Hz.
Qed.

Definition sample_hash : list byte := concat (repeat (cstr "0123456789abcdef") 4).
Definition sample_entries : list ksp_permission_entry :=
  [mk_entry sample_hash (cstr "/usr/bin/one") 4 100; mk_entry sample_hash (cstr "/usr/bin/other") 1 200;
   mk_entry sample_hash (cstr "/usr/bin/two") 0x85 300].
Definition rpc_connection : ksd_connection := fresh_connection (mk_options KSD_ROLE_RPC KSD_AUTH_CHECK 0 1000 0 5).

Lemma permissions_listed_witness :
  exists frames last error c,
    ksd_permissions_list (AL := infinite_memory) (fun _ _ => true) rpc_connection 100 None None (map arrives (frames ++ [last])) =
    Some ([mk_frame ksd_public_magic KSD_PROTOCOL_MAJOR KSD_PROTOCOL_MINOR KSD_OP_PERMISSIONS_LIST 0 0 1 None],
          (KSD_STATUS_OK, [mk_permission 4 100 sample_hash (cstr "/usr/bin/one"); mk_permission 0x84 300 sample_hash (cstr "/usr/bin/two")],
           error, c)).
Proof.
  destruct (@permissions_listed infinite_memory (fun _ => eq_refl) plain_library plain_library_laws (fun _ _ => true) sample_entries
    rpc_connection 100) as (tails & frames & last & _ & _ & _ & H & Hall).
  - repeat constructor; try reflexivity; discriminate.
  - reflexivity.
  - reflexivity.
  - split; [reflexivity|discriminate].
  - rewrite (Hall (fun _ _ => eq_refl)) in H. destruct H as [error H]. exists frames, last, error, (snd (next_request_id rpc_connection)).
    exact H.
Defined.

#[local] Existing Instance sample_permissions.
Definition sample_revoke : ksd_permission_revoke := mk_revoke KSD_PERMISSION_TARGET_HASH 4 0 (sample_hash ++ [x00]).
Definition revoke_request (payload : list byte) : ksd_frame :=
  mk_frame ksd_public_magic KSD_PROTOCOL_MAJOR KSD_PROTOCOL_MINOR KSD_OP_PERMISSIONS_REVOKE 0 (zlen payload) 3 (Some payload).
Definition revoked_world : revoke_world (S := sample_store) :=
  mk_revoke_world (fun _ _ => None) (fun _ => 0) (mk_store 7 []) (Some app_identity) [PlainBytes 4194816] true.

Lemma revoke_carried_witness :
  exists payload o,
    revoke_payload sample_revoke = inr payload /\
    permissions_revoke (AL := infinite_memory) revoked_world fresh_session held_lease (revoke_request payload) = Some o /\
    rk_call o = Some (StoreRevoke 1000 sample_hash 4) /\ zlen payload = 48 /\ lease_granted_scopes (rk_lease o) = 0.
Proof.
  destruct (revoke_payload sample_revoke) as [|payload] eqn:Ep; [vm_compute in Ep; discriminate Ep|].
  destruct (permissions_revoke (AL := infinite_memory) revoked_world fresh_session held_lease (revoke_request payload)) as [o|] eqn:Eo.
  - exists payload, o. destruct (revoke_carried (AL := infinite_memory) _ _ _ _ _ Eo) as (H & _ & _).
    destruct (H sample_revoke payload) as [Hc Hl].
    + vm_compute. repeat split; discriminate.
    + exact Ep.
    + reflexivity.
    + split; [reflexivity|]. split; [exact Eo|]. split; [exact Hc|]. split; [exact Hl|].
      vm_compute in Ep. injection Ep as <-. vm_compute in Eo. injection Eo as <-. reflexivity.
  - vm_compute in Ep. injection Ep as <-. vm_compute in Eo. discriminate Eo.
Defined.
