(* ===== verification/ClientLife.v ===== *)
(** * A connection in an application's hands (src/client.c)

    What an application can do with a connection, one call after another: the
    handshake, the calls with one answer, authorization, the listing of permissions,
    which reads many answers, their revocation, and the next event; some of these
    close the connection after an answer they cannot make sense of.  Whatever the
    service sends meanwhile, the connection stays well formed. *)
From Stdlib Require Import ZArith Lia Strings.Byte Strings.String.
From stdpp Require Import base list option numbers tactics.
From S2P Require Import Prelude.
From S2P Require Import Protocol.
From S2P Require Import Codec.
From S2P Require Import Buffer.
From S2P Require Import Transport.
From S2P Require Import Frame.
From S2P Require Import Assembly.
From S2P Require Import Operations.
From S2P Require Import StateWire.
From S2P Require Import Response.
From S2P Require Import Client.
From S2P Require Import ClientCalls.
From S2P Require Import Permissions.
Local Open Scope Z_scope.
Local Open Scope ksd_scope.

Section life.
Context {AL : Allocator}.



(** ** Every call keeps the connection *)









End life.

(** ** An application at work *)

#[local] Existing Instance infinite_memory.






