(* ===== verification/Session.v ===== *)
(** * Sessions of clients (src/authorityd.c)

    A connection from its HELLO to its end: binding it to a lease, assembling
    requests that come in parts, passing each request to what serves it, the
    frames of the sources that watch the desktop for it, and what is given back
    when it ends.  The pieces are those of the other files: here they are put
    together as [handle_public_connection] does it.  Whatever a call finds (the
    store, an identity, the clock, what other threads did to the lease) is an
    argument that belongs to that call. *)
From Stdlib Require Import ZArith Lia Strings.Byte Strings.String.
From stdpp Require Import base list option numbers tactics.
From S2P Require Import Prelude.
From S2P Require Import Protocol.
From S2P Require Import Codec.
From S2P Require Import Buffer.
From S2P Require Import Transport.
From S2P Require Import Frame.
From S2P Require Import Assembly.
From S2P Require Import Operations.
From S2P Require Import Budgets.
From S2P Require Import StateWire.
From S2P Require Import Lease.
From S2P Require Import WindowState.
From S2P Require Import Response.
From S2P Require Import Authorize.
From S2P Require Import Subscribe.
From S2P Require Import Registry.
From S2P Require Import Observe.
From S2P Require Import Dispatch.
From S2P Require Import Client.
From S2P Require Import Permissions.
Local Open Scope Z_scope.
Local Open Scope ksd_scope.

Definition KSD_MAX_REQUEST_ASSEMBLY_SECONDS : Z := 10.

(** ** HELLO *)

(** The role, the mode, the scopes and the lease asked for. *)
Definition parse_hello (request : ksd_frame) : option (Z * Z * Z * Z) :=
  let cursor := ksd_cursor_init (default [] (fr_payload request)) (fr_payload_length request) in
  guard* (fr_opcode request =? KSD_OP_HELLO) && (fr_flags request =? 0) && negb (fr_request_id request =? 0)
         && (fr_payload_length request =? 16) in
  let* (role, cursor) := ksd_cursor_u16 cursor in
  let* (mode, cursor) := ksd_cursor_u16 cursor in
  let* (scopes, cursor) := ksd_cursor_u32 cursor in
  let* (lease, cursor) := ksd_cursor_u64 cursor in
  guard* ksd_cursor_finished cursor && ((role =? KSD_ROLE_RPC) || (role =? KSD_ROLE_AUTHORIZATION_LEASE))
         && ((mode =? KSD_AUTH_CHECK) || (mode =? KSD_AUTH_REQUEST))
         && (Z.land scopes (u32 (Z.lnot KSD_DESKTOP_ACCEPTED_SCOPES)) =? 0) in
  Some (role, mode, scopes, lease).

Definition status_diagnostic (status : Z) : list byte :=
  if status =? KSD_STATUS_DENIED then cstr "permission is not granted"
  else if status =? KSD_STATUS_INVALID_REQUEST then cstr "invalid authorization scope"
  else if status =? KSD_STATUS_UNAVAILABLE then cstr "authorization service unavailable"
  else if status =? KSD_STATUS_CANCELLED then cstr "authorization was cancelled"
  else if status =? KSD_STATUS_REVOKED then cstr "permission changed"
  else cstr "internal service error".

Section session.
Context {AL : Allocator} {S : Type} {PS : PermissionStore S} {PL : PermissionLibrary}.

(** Around the start: the peer's identity as captured, the authorization of the
    scopes asked for, the random numbers of a new lease and whether there is memory
    for it, the refresh of a bound one, the registry, and whether the reply could
    be sent. *)
Record start_world := mk_start_world {
  tw_identity : option ksp_identity;
  tw_authorize : authorize_world (S := S);
  tw_lease_id : Z;
  tw_epoch : Z;
  tw_memory : bool;
  tw_store : S;
  tw_verified : option ksp_identity;
  tw_registry : registry;
  tw_sent : bool;
}.

(** A session that started or did not: the reply, the role, the permissions, the
    lease bound or created, and the list of leases. *)
Record started := mk_started {
  st_ok : bool;
  st_reply : option reply;
  st_role : Z;
  st_session : authority_session;
  st_lease : option authority_lease;
  st_leases : list authority_lease;
}.

Definition no_session : authority_session := mk_session no_identity 0 0 0.

(** The status and the detail of the start, with what they leave. *)
Definition start_lease (w : start_world) (leases : list authority_lease) (mode scopes lease_id : Z)
    : Z * Z * authority_session * option authority_lease * list authority_lease :=
  match tw_identity w with
  | Some identity =>
    if negb (lease_id =? 0) then (KSD_STATUS_DENIED, 0, no_session, None, leases)
    else
      let fresh := mk_session identity 0 0 0 in
      let '(status, detail, session) :=
        if negb (scopes =? 0) then
          let o := authorize_scopes (tw_authorize w) fresh scopes mode in (ao_status o, ao_detail o, ao_session o)
        else (KSD_STATUS_OK, 0, fresh) in
      if negb (status =? KSD_STATUS_OK) then (status, detail, session, None, leases)
      else
        match (guard* tw_memory w in
               lease_create leases (tw_lease_id w) (tw_epoch w) (se_identity session) (se_requested_scopes session)
                 (se_granted_scopes session) (se_generation session)) with
        | Some leases => (KSD_STATUS_OK, detail, session, head leases, leases)
        | None => (KSD_STATUS_RESOURCE_EXHAUSTED, detail, session, None, leases)
        end
  | None => (KSD_STATUS_DENIED, 0, no_session, None, leases)
  end.

Definition start_rpc (w : start_world) (leases : list authority_lease) (uid pid mode scopes lease_id : Z)
    : option (Z * authority_session * option authority_lease * list authority_lease) :=
  match lease_bind leases lease_id uid pid with
  | None => Some (KSD_STATUS_DENIED, no_session, None, leases)
  | Some (lease, leases) =>
    if negb (scopes =? 0) || negb (mode =? KSD_AUTH_CHECK) then Some (KSD_STATUS_DENIED, no_session, Some lease, leases)
    else
      let* r := session_refresh [] (tw_store w) (tw_verified w) true false lease in
      let '(ok, session, lease, _, _) := r in
      Some (if ok : bool then KSD_STATUS_OK else KSD_STATUS_REVOKED, session, Some lease, leases)
  end.

(** The answer to a HELLO that was accepted. *)
Definition hello_tail (granted operations backend lease_id : Z) : list byte :=
  ksd_encode_u32 granted ++ ksd_encode_u32 0 ++ ksd_encode_u64 operations ++ ksd_encode_u32 backend ++ ksd_encode_u32 0
  ++ ksd_encode_u64 lease_id.

(** [hello] is the first frame, [None] when none could be read. *)
Definition start_public_session (w : start_world) (leases : list authority_lease) (uid pid backend : Z)
    (hello : option ksd_frame) : option started :=
  match hello with
  | None => Some (mk_started false None 0 no_session None leases)
  | Some hello =>
    match parse_hello hello with
    | None =>
      Some (mk_started false
              (if fr_request_id hello =? 0 then None
               else Some (mk_reply KSD_STATUS_INVALID_REQUEST 0 (Some (cstr "HELLO must be first")) []))
              0 no_session None leases)
    | Some (role, mode, scopes, lease_id) =>
      let* r :=
        (if role =? KSD_ROLE_AUTHORIZATION_LEASE then Some (start_lease w leases mode scopes lease_id)
         else let* r := start_rpc w leases uid pid mode scopes lease_id in
              let '(status, session, lease, leases) := r in Some (status, 0, session, lease, leases)) in
      let '(status, detail, session, lease, leases) := r in
      let reply :=
        if status =? KSD_STATUS_OK then
          mk_reply KSD_STATUS_OK 0 None
            (hello_tail (se_granted_scopes session)
               (registered_operations (tw_registry w) (id_uid (se_identity session)) backend) backend
               (from_option Lease.lease_id 0 lease))
        else
          mk_reply status detail
            (Some (if detail =? KSD_ERROR_DETAIL_NO_AUTHENTICATION_AGENT then no_authentication_agent
                   else status_diagnostic status)) [] in
      Some (mk_started (tw_sent w && (status =? KSD_STATUS_OK)) (Some reply) role session lease leases)
    end
  end.

(** ** A request *)

Record public_session := mk_public {
  ps_role : Z;
  ps_gid : Z;
  ps_backend : Z;
  ps_sequence : Z;
  ps_session : authority_session;
  ps_lease : authority_lease;
  ps_sources : list Z;
}.
Definition with_state (p : public_session) (session : authority_session) (lease : authority_lease) : public_session :=
  mk_public (ps_role p) (ps_gid p) (ps_backend p) (ps_sequence p) session lease (ps_sources p).

(** Around one request. *)
Record public_world := mk_public_world {
  pw_ping : refresh_world (S := S);
  pw_authorize : request_world (S := S);
  pw_subscribe : subscribe_world (S := S);
  pw_entries : option (list ksp_permission_entry);
  pw_listed : nat -> bool;
  pw_revoke : revoke_world (S := S);
  pw_operation : operation_world (S := S);
  pw_sent : bool;
}.

(** Whether the connection goes on, the parts of an answer in several, the answer,
    and the session after it. *)
Record handled := mk_handled {
  hd_ok : bool;
  hd_parts : list (list byte);
  hd_answer : option answer;
  hd_state : public_session;
}.

Definition ends (p : public_session) : handled := mk_handled false [] None p.
(** A lease connection that cannot be written to is the end of the lease. *)
Definition unless_sent (sent : bool) (role : Z) (lease : authority_lease) : authority_lease :=
  if sent then lease else if role =? KSD_ROLE_AUTHORIZATION_LEASE then deactivate lease else lease.
Definition replied (sent : bool) (p : public_session) (a : answer) : handled :=
  mk_handled sent [] (Some a) (with_state p (ps_session p) (unless_sent sent (ps_role p) (ps_lease p))).

Definition handle_ping (w : public_world) (p : public_session) (request : ksd_frame) : option handled :=
  if negb (fr_payload_length request =? 0) then
    Some (if fr_request_id request =? 0 then ends p
          else replied (pw_sent w) p (refuse KSD_STATUS_INVALID_REQUEST "PING payload must be empty"))
  else
    let* r := session_refresh (fw_sends (pw_ping w)) (fw_store (pw_ping w)) (fw_verified (pw_ping w)) true true (ps_lease p) in
    let '(ok, session, lease, _, _) := r in
    let p := with_state p session lease in
    Some (if negb ok then ends p
          else if fr_request_id request =? 0 then mk_handled true [] None p
          else replied (pw_sent w) p (AnswerReply (mk_reply KSD_STATUS_OK 0 None []))).

(** What serves a request with a number. *)
Definition serve_authorize (w : public_world) (p : public_session) (request : ksd_frame) : option handled :=
  let* r := handle_authorize (pw_authorize w) (ps_role p) (ps_session p) (ps_lease p) (request_payload request) in
  let '(answer, session, lease, _) := r in
  let p := with_state p session lease in
  Some (match answer with Some reply => replied (pw_sent w) p (AnswerReply reply) | None => ends p end).

Definition serve_subscribe (w : public_world) (p : public_session) (request : ksd_frame) : option handled :=
  let* r := handle_state_subscribe (pw_subscribe w) (ps_role p) (ps_lease p) (ps_sources p) (request_payload request) in
  Some (mk_handled (sb_ok r) [] (option_map AnswerReply (sb_reply r))
          (mk_public (ps_role p) (ps_gid p) (ps_backend p) (ps_sequence p) (default (ps_session p) (sb_session r)) (sb_lease r)
             (sb_sources r))).

Definition serve_list (w : public_world) (p : public_session) (request : ksd_frame) : handled :=
  if negb (ps_role p =? KSD_ROLE_RPC)
  then replied (pw_sent w) p (refuse KSD_STATUS_INVALID_REQUEST "permissions administration requires RPC")
  else
    let '(ok, parts, reply) := permissions_list (pw_entries w) (pw_listed w) request in
    mk_handled ok parts (option_map AnswerReply reply) p.

Definition serve_revoke (w : public_world) (p : public_session) (request : ksd_frame) : option handled :=
  if negb (ps_role p =? KSD_ROLE_RPC)
  then Some (replied (pw_sent w) p (refuse KSD_STATUS_INVALID_REQUEST "permissions administration requires RPC"))
  else
    let* r := permissions_revoke (pw_revoke w) (ps_session p) (ps_lease p) request in
    Some (mk_handled (rk_ok r) [] (option_map AnswerReply (rk_reply r)) (with_state p (rk_session r) (rk_lease r))).

Definition serve_operation (w : public_world) (p : public_session) (request : ksd_frame) : option handled :=
  let* r := execute_operation (pw_operation w) (ps_role p) (ps_gid p) (ps_backend p) (ps_sequence p) (ps_session p) (ps_lease p)
              request in
  Some (mk_handled (ex_ok r) [] (ex_answer r)
          (mk_public (ps_role p) (ps_gid p) (ex_backend r) (ex_sequence r) (ex_session r)
             (unless_sent (ex_ok r) (ps_role p) (ex_lease r)) (ps_sources p))).

(** The session takes its identity from the lease, which has to be alive. *)
Definition handle_public_request (w : public_world) (p : public_session) (request : ksd_frame) : option handled :=
  let opcode := fr_opcode request in
  if negb (ksd_frame_is_request request) then Some (ends p)
  else
    let session := mk_session (lease_identity (ps_lease p)) (se_requested_scopes (ps_session p))
                     (se_granted_scopes (ps_session p)) (se_generation (ps_session p)) in
    let p := with_state p session (ps_lease p) in
    if negb (lease_active (ps_lease p)) then Some (ends p)
    else if opcode =? KSD_OP_PING then handle_ping w p request
    else if fr_request_id request =? 0 then Some (ends p)
    else if opcode =? KSD_OP_HELLO
    then Some (replied (pw_sent w) p (refuse KSD_STATUS_INVALID_REQUEST "HELLO may only be sent once"))
    else if opcode =? KSD_OP_AUTHORIZE then serve_authorize w p request
    else if opcode =? KSD_OP_STATE_SUBSCRIBE then serve_subscribe w p request
    else if opcode =? KSD_OP_PERMISSIONS_LIST then Some (serve_list w p request)
    else if opcode =? KSD_OP_PERMISSIONS_REVOKE then serve_revoke w p request
    else serve_operation w p request.

(** ** Its frames *)

(** A connection under way: the assembly and its deadline in seconds. *)
Record connection := mk_conn { cx_public : public_session; cx_assembly : ksd_request_assembly; cx_deadline : Z }.
Definition with_public (c : connection) (p : public_session) : connection := mk_conn p (cx_assembly c) (cx_deadline c).
Definition with_assembly (c : connection) (a : ksd_request_assembly) : connection := mk_conn (cx_public c) a (cx_deadline c).

(** The memory reserved for an assembly, by the user it is reserved for. *)
Inductive assembly_access := Reserved (uid : Z) | Returned (uid : Z).

Definition session_uid (c : connection) : Z := id_uid (se_identity (ps_session (cx_public c))).

(** Around one frame: the clock when an assembly begins, whether the socket's
    timeouts could be set, the clock, the budgets, whether a refusal could be sent,
    and what is around the request the frame completes. *)
Record frame_world := mk_frame_world {
  xw_begin : Z;
  xw_timeouts : bool;
  xw_now : Z;
  xw_budgets : authority_budgets;
  xw_sent : bool;
  xw_request : public_world;
}.

Definition assembly_within_deadline (now deadline : Z) : bool := negb (now =? 0) && (now <=? deadline).
Definition end_assembly (c : connection) : connection := with_assembly c (ksd_request_assembly_clear (cx_assembly c)).

(** The connection with the deadline of an assembly that may begin. *)
Definition may_begin_assembly (w : frame_world) (c : connection) (frame : ksd_frame) : option connection :=
  guard* (ps_role (cx_public c) =? KSD_ROLE_RPC) && negb (xw_begin w =? 0)
         && ksd_request_chunk_admissible (fr_opcode frame) (fr_flags frame) (fr_request_id frame) in
  guard* xw_timeouts w in
  Some (mk_conn (cx_public c) (cx_assembly c) (u64 (xw_begin w + KSD_MAX_REQUEST_ASSEMBLY_SECONDS))).

(** The answer to a refused assembly is not waited for. *)
Definition assembly_refused : answer := refuse KSD_STATUS_RESOURCE_EXHAUSTED "assembly budget exhausted".

(** What a step of a connection comes to: whether it goes on, the connection, the
    memory it took and gave back, and what became of the requests in it. *)
Notation step_result := (bool * connection * list assembly_access * list handled)%type.

Definition handled_by (c : connection) (log : list assembly_access) (h : handled) : step_result :=
  (hd_ok h, with_public c (hd_state h), log, [h]).

(** A frame that is part of an assembly. *)
Definition assemble (w : frame_world) (c : connection) (starting : bool) (frame : ksd_frame) : option step_result :=
  let '(result, assembly) := ksd_request_assembly_accept (cx_assembly c) frame in
  let c := with_assembly c assembly in
  let uid := session_uid c in
  match result with
  | KSD_ASSEMBLY_INVALID => Some (false, c, [], [])
  | _ =>
    if starting && bool_decide (reserve_assembly_memory (xw_budgets w) uid = None) then
      Some (false, end_assembly c, [], [mk_handled false [] (Some assembly_refused) (cx_public c)])
    else
      let log := if starting then [Reserved uid] else [] in
      match result with
      | KSD_ASSEMBLY_PENDING => Some (true, c, log, [])
      | _ =>
        let taken := ksd_request_assembly_take (cx_assembly c) in
        let c := end_assembly c in
        let log := log ++ [Returned uid] in
        match taken with
        | None => Some (false, c, log, [])
        | Some (assembled, _) =>
          let* h := handle_public_request (xw_request w) (cx_public c) assembled in Some (handled_by c log h)
        end
      end
  end.

Definition handle_public_frame (w : frame_world) (c : connection) (frame : ksd_frame) : option step_result :=
  let starting := negb (ksd_request_assembly_active (cx_assembly c)) in
  if starting && negb (has_flag frame KSD_FLAG_MORE) then
    let* h := handle_public_request (xw_request w) (cx_public c) frame in Some (handled_by c [] h)
  else
    match (if starting then may_begin_assembly w c frame else Some c) with
    | None => Some (false, c, [], [])
    | Some c =>
      if negb (assembly_within_deadline (xw_now w) (cx_deadline c)) then Some (false, c, [], [])
      else assemble w c starting frame
    end.

(** ** The connection *)

(** What a source has: a frame, with what is around it, or its end, with the sends
    of the resets. *)
Inductive source_turn :=
| SourceFrame (lane : Z) (frame : ksd_frame) (w : source_world (S := S))
| SourceEnded (lane : Z) (sends : list (list plain_outcome)).

(** What a wait ends with: an interruption, a failure, nothing for a while, or
    sources and the client being ready.  [other] is what other threads did to the
    lease meanwhile; a request is [None] when no frame could be read. *)
Inductive poll_turn :=
| PollInterrupted
| PollFailed
| PollIdle (other : authority_lease -> authority_lease) (now : Z) (force : bool) (w : refresh_world (S := S))
| PollReady (other : authority_lease -> authority_lease) (sources : list source_turn)
    (request : option (option (ksd_frame * frame_world))) (hangup : bool).

Definition source_step (p : public_session) (turn : source_turn) : option (bool * public_session) :=
  match turn with
  | SourceFrame _ frame w =>
    let* r := state_source_event w (ps_lease p) frame in
    let '(ok, session, lease, _, _) := r in Some (ok, with_state p session lease)
  | SourceEnded lane sends =>
    let* r := reset_lane sends lane reset_domains (ps_lease p) in
    let '(ok, lease, _) := r in
    Some (ok, mk_public (ps_role p) (ps_gid p) (ps_backend p) (ps_sequence p) (ps_session p) lease
                (filter (fun l => l <> lane) (ps_sources p)))
  end.
(** All of them are looked at, even after one failed. *)
Fixpoint source_steps (p : public_session) (turns : list source_turn) : option (bool * public_session) :=
  match turns with
  | [] => Some (true, p)
  | turn :: turns =>
    let* r := source_step p turn in
    let '(ok, p) := r in
    let* r := source_steps p turns in
    let '(rest, p) := r in Some (ok && rest, p)
  end.

Definition found (other : authority_lease -> authority_lease) (p : public_session) : public_session :=
  with_state p (ps_session p) (other (ps_lease p)).

Definition connection_turn (c : connection) (turn : poll_turn) : option step_result :=
  match turn with
  | PollInterrupted => Some (true, c, [], [])
  | PollFailed => Some (false, c, [], [])
  | PollIdle other now force w =>
    let p := found other (cx_public c) in
    if ksd_request_assembly_active (cx_assembly c) && negb (assembly_within_deadline now (cx_deadline c))
    then Some (false, with_public c p, [], [])
    else
      let* r := session_refresh (fw_sends w) (fw_store w) (fw_verified w) force true (ps_lease p) in
      let '(ok, session, lease, _, _) := r in Some (ok, with_public c (with_state p session lease), [], [])
  | PollReady other sources request hangup =>
    let* r := source_steps (found other (cx_public c)) sources in
    let '(ok, p) := r in
    let c := with_public c p in
    if negb ok then Some (false, c, [], [])
    else
      let* r :=
        match request with
        | None => Some (true, c, [], [])
        | Some None => Some (false, c, [], [])
        | Some (Some (frame, w)) => handle_public_frame w c frame
        end in
      let '(ok, c, log, hs) := r in Some (ok && negb hangup, c, log, hs)
  end.

(** The turns of a connection, until it ends; [None] when there are not enough. *)
Fixpoint connection_run (c : connection) (turns : list poll_turn) : option (connection * list assembly_access * list handled) :=
  match turns with
  | [] => None
  | turn :: turns =>
    let* r := connection_turn c turn in
    let '(ok, c, log, hs) := r in
    if ok : bool then
      let* r := connection_run c turns in
      let '(c, log', hs') := r in Some (c, log ++ log', hs ++ hs')
    else Some (c, log, hs)
  end.

(** What is given back at the end; the lease of a lease connection ends with it. *)
Definition connection_end (c : connection) : public_session * list assembly_access :=
  let p := cx_public c in
  let log := if ksd_request_assembly_active (cx_assembly c) then [Returned (session_uid c)] else [] in
  (mk_public (ps_role p) (ps_gid p) (ps_backend p) (ps_sequence p) (ps_session p)
     (if ps_role p =? KSD_ROLE_AUTHORIZATION_LEASE then deactivate (ps_lease p) else ps_lease p) [], log).

(** The connection of a user other than root, once it has started. *)
Definition fresh_session_of (st : started) (gid backend : Z) (lease : authority_lease) : connection :=
  mk_conn (mk_public (st_role st) gid backend 0 (st_session st) lease []) ksd_request_assembly_init 0.

Definition serve_connection (st : started) (gid backend : Z) (turns : list poll_turn)
    : option (option (public_session * list assembly_access * list handled)) :=
  match st_lease st with
  | Some lease =>
    if st_ok st then
      let* r := connection_run (fresh_session_of st gid backend lease) turns in
      let '(c, log, hs) := r in
      let '(p, log') := connection_end c in Some (Some (p, log ++ log', hs))
    else Some None
  | None => Some None
  end.
End session.

(** ** A session is bound *)

Section sessions.
Context {AL : Allocator} {AT : AllocTotal AL} {S : Type} {PS : PermissionStore S} {PL : PermissionLibrary}.

Lemma lease_bind_spec leases id uid pid l leases' :
  lease_bind leases id uid pid = Some (l, leases') -> Lease.lease_id l = id /\ lease_active l = true /\
  id_uid (lease_identity l) = uid /\ id_pid (lease_identity l) = pid /\ In l leases'.
Proof.
  revert leases'. induction leases as [|x leases IH]; intros leases'; cbn [lease_bind]; [done|].
  destruct (lease_matches id uid pid x) eqn:E.
  - intros [= <- <-]. unfold lease_matches in E. breflect. cbn. repeat (split; [done|]). by left.
  - destruct (lease_bind leases id uid pid) as [[l1 ls]|]; [|done]. intros [= <- <-].
    destruct (IH ls eq_refl) as (? & ? & ? & ? & ?). cbn. repeat (split; [done|]). by right.
Qed.

(** What a started session is: bound to a live lease of the very process that
    connected, with what that lease is granted now, or the first session of a new
    lease, whose scopes were authorized for the process captured. *)
Definition bound (w : start_world (S := S)) (leases : list authority_lease) (uid pid : Z) (hello : ksd_frame) (st : started) : Prop :=
  exists role mode scopes id lease, parse_hello hello = Some (role, mode, scopes, id) /\ st_role st = role /\
    st_lease st = Some lease /\ lease_active lease = true /\
    se_identity (st_session st) = lease_identity lease /\ se_granted_scopes (st_session st) = lease_granted_scopes lease /\
    (role = KSD_ROLE_RPC ->
       Lease.lease_id lease = id /\ scopes = 0 /\ mode = KSD_AUTH_CHECK /\ id_uid (lease_identity lease) = uid /\
       id_pid (lease_identity lease) = pid /\ still (lease_identity lease) (tw_verified w) = true) /\
    (role = KSD_ROLE_AUTHORIZATION_LEASE ->
       id = 0 /\ Lease.lease_id lease <> 0 /\ lease_epoch lease <> 0 /\ st_leases st = lease :: leases /\ lease_domains lease = 0 /\
       exists identity, tw_identity w = Some identity /\
         if scopes =? 0 then lease_identity lease = identity /\ lease_granted_scopes lease = 0
         else let o := authorize_scopes (tw_authorize w) (mk_session identity 0 0 0) scopes mode in
              ao_status o = KSD_STATUS_OK /\ st_session st = ao_session o).

Lemma refresh_unnotified s verified lease ok session l changed out :
  session_refresh [] s verified true false lease = Some (ok, session, l, changed, out) ->
  Lease.lease_id l = Lease.lease_id lease /\ lease_active l = lease_active lease /\ lease_identity l = lease_identity lease /\
  se_identity session = lease_identity lease /\ se_granted_scopes session = lease_granted_scopes l /\
  (ok = true -> lease_active lease = true /\ still (lease_identity lease) verified = true).
Proof.
  unfold session_refresh. destruct (refreshed_grant s verified true lease) as [[[ok1 granted] n] ch] eqn:E.
  apply refreshed_grant_spec in E. rewrite andb_false_r. intros [= <- <- <- <- <-]. cbn. do 5 (split; [done|]).
  intros ->. destruct E as (Ha & Hs & _). auto.
Qed.

(** C7: A session starts only where it belongs.  A connection whose HELLO succeeds
    is bound to a lease that is alive and has the session's identity and scopes.
    On an RPC connection that is the lease named in the HELLO, it is the lease of
    the process that connected, by user and process number, whose identity was
    verified again, and no scopes can be asked for.  On a lease connection it is a
    new lease, with random non-zero numbers and no subscriptions, for the identity
    captured from the peer, and scopes asked for are those that were authorized
    with success.  A first frame that is not a valid HELLO starts nothing and
    binds nothing. *)
Theorem session_start_bound w leases uid pid backend hello st :
  start_public_session w leases uid pid backend hello = Some st ->
  (st_ok st = true -> exists frame, hello = Some frame /\ bound w leases uid pid frame st) /\
  (match hello with Some frame => parse_hello frame = None | None => True end ->
   st_ok st = false /\ st_lease st = None /\ st_leases st = leases).
Proof.
  unfold start_public_session. destruct hello as [hello|]; [|by intros [= <-]].
  destruct (parse_hello hello) as [[[[role mode] scopes] id]|] eqn:Eh; [|by intros [= <-]]. intros H. split; [|done].
  intros Hok. exists hello. split; [done|].
  destruct (Z.eqb_spec role KSD_ROLE_AUTHORIZATION_LEASE) as [->|Hr].
  - revert H. unfold start_lease. cbn [from_option]. destruct (tw_identity w) as [identity|] eqn:Ei.
    2:{ cbn. intros [= <-]. cbn in Hok. by rewrite andb_false_r in Hok. }
    destruct (Z.eqb_spec id 0) as [->|]; cbn [negb]; [|cbn; intros [= <-]; cbn in Hok; by rewrite andb_false_r in Hok].
    set (r := if negb (scopes =? 0) then _ else _). destruct r as [[status detail] session] eqn:Er.
    destruct (Z.eqb_spec status KSD_STATUS_OK) as [->|Hs]; cbn [negb].
    2:{ intros [= <-]. cbn in Hok. rewrite (proj2 (Z.eqb_neq _ _) Hs), andb_false_r in Hok. done. }
    destruct (tw_memory w); [|cbn; intros [= <-]; cbn in Hok; by rewrite andb_false_r in Hok].
    unfold lease_create. destruct (Z.eqb_spec (tw_lease_id w) 0) as [|Hid];
      [cbn; intros [= <-]; cbn in Hok; by rewrite andb_false_r in Hok|].
    destruct (Z.eqb_spec (tw_epoch w) 0) as [|He]; [cbn; intros [= <-]; cbn in Hok; by rewrite andb_false_r in Hok|].
    intros [= <-]. eexists _, _, _, _, _. split; [exact Eh|]. do 2 (split; [done|]). cbn. do 3 (split; [done|]). split; [done|].
    intros _. do 5 (split; [done|]). exists identity. split; [done|]. unfold r in Er.
    destruct (Z.eqb_spec scopes 0); cbn [negb] in Er; by simplify_eq/=.
  - revert H. unfold start_rpc. destruct (lease_bind leases id uid pid) as [[lease leases']|] eqn:Eb.
    2:{ cbn. intros [= <-]. cbn in Hok. by rewrite andb_false_r in Hok. }
    destruct (lease_bind_spec _ _ _ _ _ _ Eb) as (Hid & Ha & Hu & Hp & _).
    destruct (Z.eqb_spec scopes 0) as [->|]; cbn [negb orb]; [|cbn; intros [= <-]; cbn in Hok; by rewrite andb_false_r in Hok].
    destruct (Z.eqb_spec mode KSD_AUTH_CHECK) as [->|]; cbn [negb]; [|cbn; intros [= <-]; cbn in Hok; by rewrite andb_false_r in Hok].
    destruct (session_refresh [] (tw_store w) (tw_verified w) true false lease) as [[[[[ok session] l] ch] out]|] eqn:Er; [|done].
    destruct (refresh_unnotified _ _ _ _ _ _ _ _ Er) as (R1 & R2 & R3 & R4 & R5 & R6). destruct ok.
    2:{ cbn. intros [= <-]. cbn in Hok. by rewrite andb_false_r in Hok. }
    cbn. intros [= <-]. destruct (R6 eq_refl) as [Ha' Hst].
    eexists _, _, _, _, l. split; [exact Eh|]. do 2 (split; [done|]). cbn. rewrite R2, R3, R1, R4, R5.
    do 3 (split; [done|]). split; [done|]. intros ->. by destruct Hr.
Qed.

(** ** The handshake *)

(** Every status of an authorization is one the protocol names. *)
Definition reportable (status detail : Z) : Prop := is_u32 status /\ valid_status status = true /\ is_u32 detail.

Lemma stopped_reportable status granted s asked store :
  In status [KSD_STATUS_OK; KSD_STATUS_DENIED; KSD_STATUS_INVALID_REQUEST; KSD_STATUS_UNAVAILABLE; KSD_STATUS_CANCELLED;
             KSD_STATUS_REVOKED; KSD_STATUS_INTERNAL] ->
  let o := mk_outcome (S := S) status 0 granted s asked store in reportable (ao_status o) (ao_detail o).
Proof. intros H. cbn [In] in H. by repeat (destruct H as [<-|H]; [by vm_compute|]). Qed.

Lemma grant_missing_reportable w s requested missing n (o := grant_missing (S := S) w s requested missing n) :
  reportable (ao_status o) (ao_detail o).
Proof.
  unfold o, grant_missing. repeat first
    [ apply stopped_reportable; cbn [In]; by auto 10
    | match goal with |- context [match ?x with _ => _ end] => destruct x end ].
Qed.

Lemma prompt_reportable w s requested (o := prompt_for_scopes (S := S) w s requested) : reportable (ao_status o) (ao_detail o).
Proof.
  unfold o, prompt_for_scopes. cbv zeta. destruct (aw_verified w) as [v|]; [|apply stopped_reportable; cbn; by auto 10].
  destruct (negb _); [apply stopped_reportable; cbn; by auto 10|]. destruct (ksp_store_check_at_generation _ _ _ _ _ _) as [[[] ?] ?].
  2:{ apply stopped_reportable; cbn; by auto 10. }
  cbn [negb]. destruct (_ =? 0); [apply stopped_reportable; cbn; by auto 10|].
  destruct (aw_decision w); try (apply stopped_reportable; cbn; by auto 10); [apply grant_missing_reportable|by vm_compute].
Qed.

Lemma authorize_reportable w s requested mode (o := authorize_scopes (S := S) w s requested mode) : reportable (ao_status o) (ao_detail o).
Proof.
  unfold o, authorize_scopes. cbv zeta. destruct (_ || _); [apply stopped_reportable; cbn; by auto 10|].
  destruct (ksp_store_check_at_generation _ _ _ _ _ _) as [[[] ?] ?]; [|apply stopped_reportable; cbn; by auto 10].
  cbn [negb]. destruct (_ =? requested); [apply stopped_reportable; cbn; by auto 10|].
  destruct (mode =? _); [apply stopped_reportable; cbn; by auto 10|]. destruct (aw_lock w); [apply prompt_reportable|].
  apply stopped_reportable. destruct (aw_disconnected w); cbn; by auto 10.
Qed.

Lemma start_public_reply w leases uid pid backend hello role mode scopes id st :
  parse_hello hello = Some (role, mode, scopes, id) ->
  start_public_session w leases uid pid backend (Some hello) = Some st ->
  exists r, st_reply st = Some r /\ reportable (rp_status r) (rp_detail r) /\
    (if rp_status r =? KSD_STATUS_OK then
       rp_diagnostic r = None /\
       rp_tail r = hello_tail (se_granted_scopes (st_session st))
                     (registered_operations (tw_registry w) (id_uid (se_identity (st_session st))) backend) backend
                     (from_option Lease.lease_id 0 (st_lease st))
     else rp_tail r = [] /\ exists text, rp_diagnostic r = Some text /\ Forall (fun b => b2z b <> 0) text).
Proof.
  intros Hh. unfold start_public_session. rewrite Hh.
  assert (Hd : forall status, Forall (fun b => b2z b <> 0) (status_diagnostic status)).
  { intros status. unfold status_diagnostic. repeat case_match; repeat constructor; done. }
  assert (Hn : Forall (fun b => b2z b <> 0) no_authentication_agent) by by repeat constructor.
  assert (Hfin : forall status detail session lease leases', reportable status detail ->
    let st := mk_started (tw_sent w && (status =? KSD_STATUS_OK))
      (Some (if status =? KSD_STATUS_OK
       then mk_reply KSD_STATUS_OK 0 None (hello_tail (se_granted_scopes session)
              (registered_operations (tw_registry w) (id_uid (se_identity session)) backend) backend (from_option Lease.lease_id 0 lease))
       else mk_reply status detail (Some (if detail =? KSD_ERROR_DETAIL_NO_AUTHENTICATION_AGENT then no_authentication_agent
                                          else status_diagnostic status)) [])) role session lease leases' in
    exists r, st_reply st = Some r /\ reportable (rp_status r) (rp_detail r) /\
    (if rp_status r =? KSD_STATUS_OK then
       rp_diagnostic r = None /\
       rp_tail r = hello_tail (se_granted_scopes (st_session st))
                     (registered_operations (tw_registry w) (id_uid (se_identity (st_session st))) backend) backend
                     (from_option Lease.lease_id 0 (st_lease st))
     else rp_tail r = [] /\ exists text, rp_diagnostic r = Some text /\ Forall (fun b => b2z b <> 0) text)).
  { intros status detail session lease leases' H1. cbn [st_reply st_session st_lease]. eexists. split; [done|].
    destruct (status =? KSD_STATUS_OK) eqn:Es; cbn [rp_status rp_detail rp_tail rp_diagnostic].
    { split; [by vm_compute|]. by rewrite Z.eqb_refl. }
    rewrite Es. do 2 (split; [done|]). eexists. split; [done|]. by case_match. }
  destruct (role =? KSD_ROLE_AUTHORIZATION_LEASE).
  - cbn [from_option]. assert (Hs : forall status detail session lease leases',
      start_lease w leases mode scopes id = (status, detail, session, lease, leases') ->
      reportable status detail).
    { unfold start_lease. intros status detail session lease leases'. destruct (tw_identity w) as [identity|]; [|by intros [= <- <- _ _ _]; vm_compute].
      destruct (id =? 0); cbn [negb]; [|by intros [= <- <- _ _ _]; vm_compute].
      pose proof (authorize_reportable (tw_authorize w) (mk_session identity 0 0 0) scopes mode) as Ha.
      destruct (scopes =? 0); cbn [negb].
      - change (negb (KSD_STATUS_OK =? KSD_STATUS_OK)) with false. cbn iota. case_match; intros [= <- <- _ _ _]; by vm_compute.
      - destruct (negb _); [by intros [= <- <- _ _ _]|]. destruct Ha as (_ & _ & Ha). case_match; intros [= <- <- _ _ _]; by split. }
    destruct (start_lease w leases mode scopes id) as [[[[status detail] session] lease] leases'].
    specialize (Hs _ _ _ _ _ eq_refl). intros [= <-]. by apply Hfin.
  - destruct (start_rpc w leases uid pid mode scopes id) as [[[[status session] lease] leases']|] eqn:E; [|done]. cbn [from_option].
    intros [= <-]. apply Hfin. revert E. unfold start_rpc.
    destruct (lease_bind _ _ _ _) as [[l ls]|]; [|intros [= <- _ _ _]; by vm_compute].
    destruct (_ || _); [intros [= <- _ _ _]; by vm_compute|].
    destruct (session_refresh _ _ _ _ _ _) as [[[[[[] ?] ?] ?] ?]|]; [..|done]; cbn [from_option]; intros [= <- _ _ _]; by vm_compute.
Qed.

Definition options_ranges (o : connect_options) : Prop :=
  is_u16 (op_role o) /\ is_u16 (op_authorization_mode o) /\ is_u32 (op_requested_scopes o) /\ is_u64 (op_lease_id o).
(** The HELLO a client sends. *)
Definition hello_frame (o : connect_options) : ksd_frame :=
  mk_frame ksd_public_magic KSD_PROTOCOL_MAJOR KSD_PROTOCOL_MINOR KSD_OP_HELLO 0 16 1 (Some (hello_payload o)).

Lemma zlen_hello_payload o : zlen (hello_payload o) = 16.
Proof. unfold hello_payload. by rewrite !zlen_app, !zlen_encode_u16, zlen_encode_u32, zlen_encode_u64. Qed.

Lemma hello_parsed o : valid_options o = true -> options_ranges o ->
  parse_hello (hello_frame o) = Some (op_role o, op_authorization_mode o, op_requested_scopes o, op_lease_id o).
Proof.
  intros Hv (Hr & Hm & Hs & Hl). unfold parse_hello. cbv zeta. change (default [] (fr_payload (hello_frame o))) with (hello_payload o).
  change (fr_payload_length (hello_frame o)) with 16. change (fr_opcode (hello_frame o)) with KSD_OP_HELLO.
  change (fr_flags (hello_frame o)) with 0. change (fr_request_id (hello_frame o)) with 1.
  change ((KSD_OP_HELLO =? KSD_OP_HELLO) && (0 =? 0) && negb (1 =? 0) && (16 =? 16)) with true. cbn iota.
  destruct (reads_u16 _ Hr (ksd_cursor_init (hello_payload o) 16)
    (ksd_encode_u16 (op_authorization_mode o) ++ ksd_encode_u32 (op_requested_scopes o) ++ ksd_encode_u64 (op_lease_id o)))
    as (c1 & E1 & W1 & R1); [rewrite <- (zlen_hello_payload o); apply cursor_init_wf|apply cursor_init_rest|].
  destruct (reads_u16 _ Hm c1 _ W1 R1) as (c2 & E2 & W2 & R2). destruct (reads_u32 _ Hs c2 _ W2 R2) as (c3 & E3 & W3 & R3).
  rewrite <- (app_nil_r (ksd_encode_u64 _)) in R3. destruct (reads_u64 _ Hl c3 _ W3 R3) as (c4 & E4 & W4 & R4).
  rewrite E1. cbn [from_option]. rewrite E2. cbn [from_option]. rewrite E3. cbn [from_option]. rewrite E4. cbn [from_option].
  unfold valid_options, valid_role in Hv. apply andb_true_iff in Hv as [[[[[V1 V2]%andb_true_iff V3]%andb_true_iff _]%andb_true_iff _]%andb_true_iff _].
  rewrite V1, V2, V3. replace (ksd_cursor_finished c4) with true by (symmetry; by apply cursor_finished_rest). done.
Qed.

Lemma hello_tail_parsed granted operations backend id :
  is_u32 granted -> is_u64 operations -> is_u32 backend -> is_u64 id ->
  let tail := hello_tail granted operations backend id in
  parse_hello_tail tail = Some (Z.land granted KSD_DESKTOP_ACCEPTED_SCOPES, operations, backend) /\ zlen tail = 32 /\
  ksd_decode_u64 (zdrop 24 tail) = id.
Proof.
  intros Hg Ho Hb Hi tail. assert (Hz : zlen tail = 32) by (unfold tail, hello_tail; by rewrite !zlen_app, !zlen_encode_u32, !zlen_encode_u64).
  split; [|split; [done|]].
  - unfold parse_hello_tail. rewrite Hz.
    destruct (reads_u32 _ Hg (ksd_cursor_init tail 32)
      (ksd_encode_u32 0 ++ ksd_encode_u64 operations ++ ksd_encode_u32 backend ++ ksd_encode_u32 0 ++ ksd_encode_u64 id))
      as (c1 & E1 & W1 & R1); [rewrite <- Hz; apply cursor_init_wf|apply cursor_init_rest|].
    destruct (reads_u32 0 ltac:(done) c1 _ W1 R1) as (c2 & E2 & W2 & R2). destruct (reads_u64 _ Ho c2 _ W2 R2) as (c3 & E3 & W3 & R3).
    destruct (reads_u32 _ Hb c3 _ W3 R3) as (c4 & E4 & W4 & R4). destruct (reads_u32 0 ltac:(done) c4 _ W4 R4) as (c5 & E5 & W5 & R5).
    rewrite E1. cbn [from_option]. rewrite E2. cbn [from_option]. rewrite E3. cbn [from_option]. rewrite E4. cbn [from_option]. rewrite E5. cbn [from_option].
    cbv zeta. rewrite <- (zlen_cursor_rest c5 W5), R5, zlen_encode_u64. done.
  - assert (Hd : zdrop 24 tail = ksd_encode_u64 id).
    { reflexivity. }
    rewrite Hd, <- (app_nil_r (ksd_encode_u64 id)), decode_encode_u64. by apply u64_id.
Qed.

Lemma hello_answer_read o tail status detail diagnostic c :
  reportable status detail -> zlen tail + 16 <= response_limit -> Forall (fun b => b2z b <> 0) (default [] diagnostic) ->
  (status = KSD_STATUS_OK -> diagnostic = None) ->
  exists f, response_frame 0 (hello_frame o) status detail diagnostic (Some tail) (zlen tail) false = Some f /\ is_part f = false /\
    forall deadline x input, brings deadline c x f input ->
      read_response deadline KSD_OP_HELLO 1 [x] c =
      Some (mk_answered status (Some (mk_response status detail (if status =? KSD_STATUS_OK then tail else []), f, -1))
              (if status =? KSD_STATUS_OK then no_error else mk_error detail 0 (diagnostic_text diagnostic))
              (with_ids (with_input c input) (cn_next_request_id c) (cn_sequence c)) []).
Proof.
  intros (Hs & Hv & Hd) Ht Hn Hok. set (r := hello_frame o).
  assert (Hr : frame_wf r).
  { unfold frame_wf, header_wf, r, hello_frame. cbn [fr_magic fr_major fr_minor fr_opcode fr_flags fr_payload_length fr_request_id fr_payload default from_option].
    split; [by vm_compute|]. done. }
  eexists. split; [apply (response_frame_spec 0 r); try done; by intros ->%Hok|]. split; [done|].
  intros deadline x input [Hx Hb]. cbn [read_response]. rewrite Hx, Hb. cbn [from_option]. cbv zeta.
  change (cn_sequence (with_input c input)) with (cn_sequence c).
  replace (Z.land _ KSD_FLAG_EVENT =? 0) with true by done. cbn [negb].
  pose proof (take_response_spec 0 (cn_sequence c) r status detail diagnostic tail false Hs Hv Hd ltac:(done) Ht ltac:(done) Hn) as H.
  change (ksd_state_mutates_windows (fr_opcode r)) with false in H. rewrite andb_false_r in H.
  change (fr_opcode r) with KSD_OP_HELLO in *. change (fr_request_id r) with 1 in H. cbv zeta in H. rewrite H. done.
Qed.

(** C30: The handshake carries what each side means.  The HELLO that the client
    library writes for valid options is one frame, which the authority reads as that
    role, that mode, those scopes and that lease.  Whatever the start comes to, there
    is a reply to send and a frame for it; and the client that reads this frame, with
    numbers in their ranges, is connected when the authority says so, with the scopes
    of the session (of those the library accepts), the operations the backend offers
    the user, the backend and the number of the lease, and otherwise gets the
    authority's status with its message, however the reader of its role comes by
    the frame. *)
Theorem connect_handshake o now w leases uid pid backend st
    (granted := se_granted_scopes (st_session st))
    (operations := registered_operations (tw_registry w) (id_uid (se_identity (st_session st))) backend)
    (id := from_option Lease.lease_id 0 (st_lease st)) :
  valid_options o = true -> options_ranges o -> 0 < now <= UINT64_MAX - op_timeout_ms o ->
  start_public_session w leases uid pid backend (Some (hello_frame o)) = Some st ->
  is_u32 granted -> is_u64 operations -> is_u32 backend -> is_u64 id ->
  parse_hello (hello_frame o) = Some (op_role o, op_authorization_mode o, op_requested_scopes o, op_lease_id o) /\
  write_request KSD_OP_HELLO 1 16 (Some (hello_payload o)) = Some [hello_frame o] /\
  exists r f, st_reply st = Some r /\
    response_frame 0 (hello_frame o) (rp_status r) (rp_detail r) (rp_diagnostic r) (Some (rp_tail r)) (zlen (rp_tail r)) false = Some f /\
    forall x input, brings (now + op_timeout_ms o) (fresh_connection o) x f input ->
    if rp_status r =? KSD_STATUS_OK then
      exists c, ksd_connect o now None None [x] = Some (KSD_STATUS_OK, Some c, no_error) /\
        cn_open c = true /\ cn_role c = op_role o /\ cn_granted_scopes c = Z.land granted KSD_DESKTOP_ACCEPTED_SCOPES /\
        cn_available_operations c = operations /\ cn_backend c = backend /\ cn_lease_id c = id
    else
      ksd_connect o now None None [x] =
      Some (rp_status r, None, mk_error (rp_detail r) 0 (diagnostic_text (rp_diagnostic r))).
Proof.
  intros Hv Hr Hn Hst Hg Ho Hb Hi. pose proof (hello_parsed o Hv Hr) as Hp. split; [done|]. split; [reflexivity|].
  destruct (start_public_reply _ _ _ _ _ _ _ _ _ _ _ Hp Hst) as (r & Hrep & Hs & Hrest). exists r.
  destruct (hello_tail_parsed granted operations backend id Hg Ho Hb Hi) as (Ht1 & Ht2 & Ht3).
  set (c0 := snd (next_request_id (fresh_connection o))).
  assert (Hread : forall x, request (fresh_connection o) KSD_OP_HELLO (Some (hello_payload o)) 16 now None None [x] =
    (let* a := read_response (now + op_timeout_ms o) KSD_OP_HELLO 1 [x] c0 in Some ([hello_frame o], a))).
  { intros f. unfold request. change (next_request_id (fresh_connection o)) with (1, c0). cbn beta iota.
    change (cn_open c0) with true. change (cn_timeout_ms c0) with (op_timeout_ms o).
    rewrite (proj2 (Z.eqb_neq now 0)), (proj2 (Z.ltb_ge _ _)) by lia. reflexivity. }
  destruct (hello_answer_read o (rp_tail r) (rp_status r) (rp_detail r) (rp_diagnostic r) c0 Hs) as (f & Hf & Hpart & Ha).
  - destruct (rp_status r =? KSD_STATUS_OK); [destruct Hrest as [_ ->]; fold granted operations id; rewrite Ht2|destruct Hrest as [-> _]]; by vm_compute.
  - destruct (rp_status r =? KSD_STATUS_OK); [destruct Hrest as [-> _]; done|]. by destruct Hrest as (_ & text & -> & H).
  - intros E. rewrite E in Hrest. apply Hrest.
  - exists f. split; [done|]. split; [done|]. intros x input Hx. unfold ksd_connect. rewrite Hv, Hread, (Ha _ x input Hx). cbn [negb from_option aw_response aw_status].
    destruct (Z.eqb_spec (rp_status r) KSD_STATUS_OK) as [E|E]; [|done]. destruct Hrest as [_ ->]. fold granted operations id.
    cbn [rs_tail]. rewrite Ht1, Hpart, Ht2, Ht3. by eexists.
Qed.

(** ** Requests and their answers *)

Lemma refreshed_keeps calls s verified force notify l ok session l' changed out :
  session_refresh calls s verified force notify l = Some (ok, session, l', changed, out) -> se_identity session = lease_identity l.
Proof.
  unfold session_refresh. destruct (refreshed_grant s verified force l) as [[[ok1 granted] generation] ch].
  destruct (_ && _); [destruct (lease_emit _ _ _) as [[[??]?]|]; [|done]; cbn [from_option]|]; by intros [= <- <- <- <- <-].
Qed.

Lemma execute_answer w role gid backend sequence session lease request ex :
  execute_operation (S := S) w role gid backend sequence session lease request = Some ex ->
  ex_ok ex = true -> exists a, ex_answer ex = Some a.
Proof.
  unfold execute_operation. destruct (request_refused _ _); [intros [= <-]; by eexists|].
  destruct (session_refresh _ _ _ _ _ _) as [[[[[[] s1] l1] ?] ?]|]; [..|done]; cbn [from_option negb]; [|by intros [= <-]].
  destruct (negb _ && _); [intros [= <-]; by eexists|].
  destruct (admit_backend _ _ _ _ _) as [refused ? ?|snapshot log]; [intros [= <-]; by eexists|].
  destruct (prior_window _ _ _ _ _ _) as [[prior child] log1]. destruct (run_operation _ _ _ _ _) as [result log2].
  destruct (conclude _ _ _ _ _ _ _ _ _ _ _) as [[[[[a s2] l2] n] log3]|]; [|done]. cbn [from_option]. intros [= <-]. by eexists.
Qed.

Lemma subscribe_answer w role lease sources payload r :
  handle_state_subscribe (S := S) w role lease sources payload = Some r -> sb_ok r = true -> exists a, sb_reply r = Some a.
Proof.
  unfold handle_state_subscribe, subscribe_domains. destruct (_ || _); [intros [= <-]; by eexists|].
  destruct (negb _); [by intros [= <-]|].
  destruct (session_refresh _ _ _ _ _ _) as [[[[[[] s1] l1] ?] ?]|]; [..|done]; cbn [from_option negb]; [|by intros [= <-]].
  destruct (denied_scopes _ _); [intros [= <-]; by eexists|]. destruct (start_sources _ _ _) as [ok started].
  destruct (negb (bw_reply_sent w)); [by intros [= <-]|].
  destruct (negb _); [|intros [= <-]; by eexists]. destruct (emit_each _ _ _) as [[[? ?] ?]|]; [|done]. intros [= <-]. by eexists.
Qed.

Lemma revoke_answer w session lease request o :
  permissions_revoke (S := S) w session lease request = Some o -> rk_ok o = true -> exists a, rk_reply o = Some a.
Proof.
  unfold permissions_revoke. destruct (parse_revoke _); [intros [= <-]; by eexists|].
  destruct (revoke_call _ _ _) as [call|]; [|intros [= <-]; by eexists]. destruct (negb _); [intros [= <-]; by eexists|].
  destruct (session_refresh _ _ _ _ _ _) as [[[[[[] ?] ?] ?] ?]|]; [..|done]; cbn [from_option negb]; intros [= <-]; [by eexists|done].
Qed.

(** What a connection does with one request, seen from outside. *)
Definition answered_once (p : public_session) (request : ksd_frame) (h : handled) : Prop :=
  (hd_ok h = true -> fr_request_id request <> 0 -> exists a, hd_answer h = Some a) /\
  (hd_ok h = true -> fr_request_id request = 0 -> fr_opcode request = KSD_OP_PING /\ fr_payload_length request = 0 /\ hd_answer h = None) /\
  (hd_answer h <> None \/ hd_parts h <> [] -> fr_request_id request <> 0) /\
  (hd_parts h <> [] -> fr_opcode request = KSD_OP_PERMISSIONS_LIST /\ ps_role p = KSD_ROLE_RPC) /\
  ps_role (hd_state h) = ps_role p /\ ps_gid (hd_state h) = ps_gid p.

Lemma served_once p request h : fr_request_id request <> 0 ->
  (hd_ok h = true -> exists a, hd_answer h = Some a) -> hd_parts h = [] ->
  ps_role (hd_state h) = ps_role p -> ps_gid (hd_state h) = ps_gid p -> answered_once p request h.
Proof. intros H1 H2 H3 H4 H5. split; [auto|]. split; [done|]. split; [done|]. by rewrite H3. Qed.

Lemma ends_once p q request : ps_role q = ps_role p -> ps_gid q = ps_gid p -> answered_once p request (ends q).
Proof. intros H1 H2. split; [done|]. split; [done|]. split; [by intros []|]. by split. Qed.

Lemma replied_once p q sent a request : fr_request_id request <> 0 -> ps_role q = ps_role p -> ps_gid q = ps_gid p ->
  answered_once p request (replied sent q a).
Proof. intros H1 H2 H3. apply served_once; try done. by eexists. Qed.

Lemma ping_once w p request h : fr_opcode request = KSD_OP_PING -> handle_ping w p request = Some h -> answered_once p request h.
Proof.
  intros Hop. unfold handle_ping. destruct (Z.eqb_spec (fr_payload_length request) 0) as [E|]; cbn [negb].
  - destruct (session_refresh _ _ _ _ _ _) as [[[[[[] s1] l1] ?] ?]|]; [..|done]; cbn [from_option negb]; [|intros [= <-]; by apply ends_once].
    destruct (Z.eqb_spec (fr_request_id request) 0) as [E0|E0]; intros [= <-]; [|by apply replied_once].
    split; [done|]. split; [done|]. split; [by intros []|]. by split.
  - destruct (Z.eqb_spec (fr_request_id request) 0); intros [= <-]; [by apply ends_once|by apply replied_once].
Qed.

Lemma list_once (w : public_world (S := S)) p request : fr_request_id request <> 0 -> fr_opcode request = KSD_OP_PERMISSIONS_LIST ->
  answered_once p request (serve_list w p request).
Proof.
  intros H0 Hop. unfold serve_list. destruct (Z.eqb_spec (ps_role p) KSD_ROLE_RPC) as [Hr|]; cbn [negb]; [|by apply replied_once].
  unfold permissions_list. destruct (negb _); [by apply served_once; [done|by eexists|..]|].
  destruct (pw_entries w) as [entries|]; [|by apply served_once; [done|by eexists|..]].
  destruct (list_entries _ _ _) as [[[] parts] n]; [|by split; [done|split; [done|]]].
  split; [by eexists|]. split; [done|]. split; [done|]. by split.
Qed.

Lemma request_once w p request h :
  handle_public_request w p request = Some h ->
  answered_once p request h /\
  (ksd_frame_is_request request = false \/ lease_active (ps_lease p) = false ->
   hd_ok h = false /\ hd_answer h = None /\ hd_parts h = []).
Proof.
  unfold handle_public_request. destruct (ksd_frame_is_request request); cbn [negb].
  2:{ intros [= <-]. split; [by apply ends_once|done]. }
  set (p1 := with_state p _ _). change (lease_active (ps_lease p1)) with (lease_active (ps_lease p)). destruct (lease_active (ps_lease p)); cbn [negb].
  2:{ intros [= <-]. split; [by apply ends_once|done]. }
  intros H. split; [|by intros []]. change (answered_once p request h) with (answered_once p1 request h). clearbody p1. revert H.
  destruct (Z.eqb_spec (fr_opcode request) KSD_OP_PING); [by apply ping_once|].
  destruct (Z.eqb_spec (fr_request_id request) 0) as [|H0]; [intros [= <-]; by apply ends_once|].
  destruct (fr_opcode request =? KSD_OP_HELLO); [intros [= <-]; by apply replied_once|].
  destruct (fr_opcode request =? KSD_OP_AUTHORIZE).
  { unfold serve_authorize. destruct (handle_authorize _ _ _ _ _) as [[[[[a|] s1] l1] ?]|]; [..|done]; cbn [from_option]; intros [= <-];
      [by apply replied_once|by apply ends_once]. }
  destruct (fr_opcode request =? KSD_OP_STATE_SUBSCRIBE).
  { unfold serve_subscribe. destruct (handle_state_subscribe _ _ _ _ _) as [r|] eqn:E; [|done]. cbn [from_option]. intros [= <-]. apply served_once; try done.
    intros Hok. destruct (subscribe_answer _ _ _ _ _ _ E Hok) as [a Ha]. cbn [hd_answer]. rewrite Ha. by eexists. }
  destruct (Z.eqb_spec (fr_opcode request) KSD_OP_PERMISSIONS_LIST); [intros [= <-]; by apply list_once|].
  destruct (fr_opcode request =? KSD_OP_PERMISSIONS_REVOKE).
  { unfold serve_revoke. destruct (negb _); [intros [= <-]; by apply replied_once|].
    destruct (permissions_revoke _ _ _ _) as [o|] eqn:E; [|done]. cbn [from_option]. intros [= <-]. apply served_once; try done.
    intros Hok. destruct (revoke_answer _ _ _ _ _ E Hok) as [a Ha]. cbn [hd_answer]. rewrite Ha. by eexists. }
  unfold serve_operation. destruct (execute_operation _ _ _ _ _ _ _ _) as [ex|] eqn:E; [|done]. cbn [from_option]. intros [= <-].
  apply served_once; try done. exact (execute_answer _ _ _ _ _ _ _ _ _ E).
Qed.

(** C37: Every request gets one answer, on a live lease.  A connection that goes on
    after a request with a number has sent one final answer to it; a request without
    a number is never answered, and only an empty PING, which keeps the lease alive,
    may be one; partial answers are those of a listing of permissions on an RPC
    connection.  A frame that is not a request, or one that finds the lease dead, is
    the end of the connection, without an answer.  The role and the group of the
    session never change. *)
Theorem requests_answered w p request h :
  handle_public_request w p request = Some h ->
  answered_once p request h /\
  (ksd_frame_is_request request = false \/ lease_active (ps_lease p) = false ->
   hd_ok h = false /\ hd_answer h = None /\ hd_parts h = []).
Proof. apply request_once. Qed.

(** ** Whose a session is *)

Definition of_uid (uid : Z) (l : authority_lease) : Prop := id_uid (lease_identity l) = uid.
Definition belongs (uid : Z) (p : public_session) : Prop := id_uid (se_identity (ps_session p)) = uid /\ of_uid uid (ps_lease p).

(** What other threads leave of a lease has the user it had. *)
Definition keeps_user (uid : Z) (other : authority_lease -> authority_lease) : Prop := forall l, of_uid uid l -> of_uid uid (other l).
Definition request_keeps (uid : Z) (w : public_world (S := S)) : Prop :=
  (forall n, keeps_user uid (ow_others (pw_operation w) n)) /\ Forall (fun t => of_uid uid (sy_lease t)) (ow_turns (pw_operation w)).
Definition turn_keeps (uid : Z) (turn : poll_turn (S := S)) : Prop :=
  match turn with
  | PollIdle other _ _ _ => keeps_user uid other
  | PollReady other _ request _ =>
    keeps_user uid other /\ match request with Some (Some (_, w)) => request_keeps uid (xw_request w) | _ => True end
  | _ => True
  end.

Lemma emit_identity calls l e ok l' out : lease_emit calls l e = Some (ok, l', out) -> lease_identity l' = lease_identity l.
Proof.
  intros H. destruct ok; [by apply lease_emit_ok in H as [-> _]|]. apply lease_emit_failed in H as (_ & Hd & Hl).
  destruct (lease_active l); [by rewrite Hd|by destruct (Hl eq_refl) as [-> _]].
Qed.

Lemma emit_each_identity events : forall calls l ok l' out,
  emit_each calls l events = Some (ok, l', out) -> lease_identity l' = lease_identity l.
Proof.
  induction events as [|e events IH]; intros calls l ok l' out; cbn [emit_each]; [by intros [= _ <- _]|].
  destruct calls as [|c calls]; [done|]. destruct (lease_emit c l e) as [[[ok1 l1] o1]|] eqn:E; [|done]. cbn [from_option].
  destruct (emit_each calls l1 events) as [[[ok2 l2] o2]|] eqn:E2; [|done]. cbn [from_option]. intros [= _ <- _].
  by rewrite (IH _ _ _ _ _ E2), (emit_identity _ _ _ _ _ _ E).
Qed.

Lemma window_apply_identity calls l e ok l' out :
  state_window_apply calls l e = Some (ok, l', out) -> lease_identity l' = lease_identity l.
Proof.
  assert (Hi : forall l0 e0, lease_identity l0 = lease_identity l -> lease_emit calls l0 e0 = Some (ok, l', out) ->
    lease_identity l' = lease_identity l) by by intros l0 e0 <- H; exact (emit_identity _ _ _ _ _ _ H).
  assert (Hs : forall item windows, lease_identity (set_windows l item windows) = lease_identity l) by by intros [].
  unfold state_window_apply. destruct (_ =? KSD_STATE_SNAPSHOT_BEGIN); [by apply Hi|].
  destruct (_ =? KSD_STATE_SNAPSHOT_END); [destruct (negb _); [by intros [= _ <- _]|by apply Hi]|].
  destruct (_ && _); [by intros [= _ <- _]|]. destruct (_ =? KSD_STATE_DESTROY).
  { destruct (window_slot _ _); [apply Hi, Hs|by intros [= _ <- _]]. }
  match goal with |- context [if ?b then Some (true, l, []) else _] => destruct b end; [by intros [= _ <- _]|].
  match goal with |- context [if ?b then Some (false, l, []) else _] => destruct b end; [by intros [= _ <- _]|].
  destruct (ksd_state_window_copy _); [|intros [= _ <- _]; apply Hs]. apply Hi. destruct (_ =? KSD_STATE_SNAPSHOT_ITEM); apply Hs.
Qed.

Lemma refresh_user calls s verified force notify l ok session l' changed out :
  session_refresh calls s verified force notify l = Some (ok, session, l', changed, out) ->
  se_identity session = lease_identity l /\ lease_identity l' = lease_identity l.
Proof. intros H. split; [exact (refreshed_keeps _ _ _ _ _ _ _ _ _ _ _ H)|]. by apply session_refresh_spec in H as [? _]. Qed.

Lemma refresh_belongs calls s verified force notify uid p ok session l' changed out :
  belongs uid p -> session_refresh calls s verified force notify (ps_lease p) = Some (ok, session, l', changed, out) ->
  id_uid (se_identity session) = uid /\ of_uid uid l'.
Proof. intros [_ H] (E1 & E2)%refresh_user. unfold of_uid in *. rewrite E1, E2. done. Qed.

Lemma reset_lane_identity domains : forall calls lane l ok l' out,
  reset_lane calls lane domains l = Some (ok, l', out) -> lease_identity l' = lease_identity l.
Proof.
  induction domains as [|d domains IH]; intros calls lane l ok l' out; cbn [reset_lane]; [by intros [= _ <- _]|].
  destruct (_ || _); [apply IH|]. destruct calls as [|c calls]; [done|].
  destruct (lease_emit c _ _) as [[[ok1 l1] o1]|] eqn:E; [|done]. cbn [from_option].
  destruct (reset_lane calls lane domains l1) as [[[ok2 l2] o2]|] eqn:E2; [|done]. cbn [from_option]. intros [= _ <- _].
  rewrite (IH _ _ _ _ _ _ E2). exact (emit_identity _ _ _ _ _ _ E).
Qed.

Lemma source_step_belongs uid p turn ok p' :
  belongs uid p -> source_step (S := S) p turn = Some (ok, p') -> belongs uid p' /\ ps_role p' = ps_role p.
Proof.
  intros Hp. destruct turn as [lane frame w|lane sends]; cbn [source_step].
  - unfold state_source_event. destruct (session_refresh _ _ _ _ _ _) as [[[[[ok1 s1] l1] ch] o1]|] eqn:E; [|done]. cbn [from_option].
    pose proof (refresh_belongs _ _ _ _ _ _ _ _ _ _ _ _ Hp E) as H1. clear E.
    destruct ok1; cbn [negb]; [|intros [= _ <-]; by split].
    destruct (_ =? KSD_FLAG_RESPONSE); [intros [= _ <-]; by split|]. destruct (negb _); [intros [= _ <-]; by split|].
    destruct (source_frame_event frame) as [e|]; [|intros [= _ <-]; by split].
    destruct (pass_event _ _ _) as [[[ok2 l2] o2]|] eqn:Ep; [|done]. cbn [from_option]. intros [= _ <-]. split; [|done].
    split; [apply H1|]. destruct H1 as [_ H1]. unfold of_uid in *. cbn [with_state ps_lease]. rewrite <- H1. f_equal.
    unfold pass_event in Ep. destruct (domain_enabled _ _); [|by injection Ep as _ <- _].
    destruct (_ =? KSD_STATE_WINDOWS); [exact (window_apply_identity _ _ _ _ _ _ Ep)|].
    apply emit_identity in Ep. by destruct (snapshot_kind _).
  - destruct (reset_lane _ _ _ _) as [[[ok1 l1] o1]|] eqn:E; [|done]. cbn [from_option]. intros [= _ <-]. split; [|done].
    destruct Hp as [H1 H2]. split; [done|]. unfold of_uid in *. cbn [ps_lease]. by rewrite (reset_lane_identity _ _ _ _ _ _ _ E).
Qed.

Lemma source_steps_belongs uid turns : forall p ok p',
  belongs uid p -> source_steps (S := S) p turns = Some (ok, p') -> belongs uid p' /\ ps_role p' = ps_role p.
Proof.
  induction turns as [|t turns IH]; intros p ok p' Hp; cbn [source_steps]; [by intros [= _ <-]|].
  destruct (source_step p t) as [[ok1 p1]|] eqn:E1; [|done]. cbn [from_option].
  destruct (source_steps p1 turns) as [[ok2 p2]|] eqn:E2; [|done]. cbn [from_option]. intros [= _ <-].
  destruct (source_step_belongs _ _ _ _ _ Hp E1) as [H1 <-]. exact (IH _ _ _ H1 E2).
Qed.

Lemma authorize_user w s requested mode (o := authorize_scopes (S := S) w s requested mode) :
  id_uid (se_identity (ao_session o)) = id_uid (se_identity s).
Proof.
  assert (Hg : forall w s requested missing n, id_uid (se_identity (ao_session (grant_missing (S := S) w s requested missing n))) = id_uid (se_identity s)).
  { clear. intros w s requested missing n. unfold grant_missing. destruct (aw_reverified w) as [v|]; [|done].
    destruct (same_identity (se_identity s) v) eqn:E; cbn [negb]; [|done]. destruct (same_identity_keys _ _ E) as [Hu _].
    destruct (ksp_store_grant_if_generation _ _ _ _) as [added st]. destruct (negb _); [done|].
    destruct (ksp_store_check_at_generation _ _ _ _ _ _) as [[[] ?] ?]; by cbn. }
  assert (Hp : forall w s requested, id_uid (se_identity (ao_session (prompt_for_scopes (S := S) w s requested))) = id_uid (se_identity s)).
  { clear - Hg. intros w s requested. unfold prompt_for_scopes. cbv zeta. destruct (aw_verified w) as [v|]; [|done].
    destruct (same_identity (se_identity s) v) eqn:E; cbn [negb]; [|done]. destruct (same_identity_keys _ _ E) as [Hu _].
    destruct (ksp_store_check_at_generation _ _ _ _ _ _) as [[[] ?] ?]; cbn [negb]; [|by cbn]. destruct (_ =? 0); [by cbn|].
    destruct (aw_decision w); [by rewrite Hg|by cbn..]. }
  unfold o, authorize_scopes. cbv zeta. destruct (_ || _); [done|].
  destruct (ksp_store_check_at_generation _ _ _ _ _ _) as [[[] ?] ?]; cbn [negb]; [|done]. destruct (_ =? requested); [done|].
  destruct (mode =? _); [done|]. destruct (aw_lock w); cbn [negb]; [by rewrite Hp|done].
Qed.

Lemma authorize_belongs uid (w : request_world (S := S)) p payload rp session lease out :
  belongs uid p -> handle_authorize w (ps_role p) (ps_session p) (ps_lease p) payload = Some (Some rp, session, lease, out) ->
  id_uid (se_identity session) = uid /\ of_uid uid lease.
Proof.
  intros Hp. unfold handle_authorize. destruct (parse_authorize payload) as [[mode scopes]|]; [|by intros [= _ <- <- _]].
  destruct (negb _); [by intros [= _ <- <- _]|].
  destruct (session_refresh _ _ _ _ _ _) as [[[[[ok s1] l1] ch] o1]|] eqn:E; [|done]. cbn [from_option].
  pose proof (refresh_belongs _ _ _ _ _ _ _ _ _ _ _ _ Hp E) as [H1 H2]. clear E. destruct ok; cbn [negb]; [|done].
  set (o := authorize_scopes _ _ _ _). pose proof (authorize_user (rw_authorize w) s1 scopes mode) as Hu. cbv zeta in Hu. fold o in Hu.
  destruct (complete_authorization _ _ _ _ _ _ _) as [[[[[ok st] s2] l2] o2]|] eqn:Ec; [|done]. cbn [from_option].
  apply complete_authorization_spec in Ec as (Hi & _ & Hok). destruct ok; [|done]. intros [= _ <- <- _].
  destruct Hok as (_ & _ & _ & -> & _). unfold of_uid in *. rewrite Hi. cbn [se_identity]. split; [congruence|done].
Qed.

Lemma subscribe_belongs uid (w : subscribe_world (S := S)) p payload r :
  belongs uid p -> handle_state_subscribe w (ps_role p) (ps_lease p) (ps_sources p) payload = Some r ->
  id_uid (se_identity (default (ps_session p) (sb_session r))) = uid /\ of_uid uid (sb_lease r).
Proof.
  intros Hp. unfold handle_state_subscribe. destruct Hp as [Hp1 Hp2].
  assert (Hs : forall sent l, of_uid uid l ->
    of_uid uid (if sent : bool then l else if ps_role p =? KSD_ROLE_AUTHORIZATION_LEASE then deactivate l else l)).
  { intros sent l Hl. destruct sent; [done|]. by case_match. }
  destruct (_ || _); [intros [= <-]; by split; [|apply Hs]|]. destruct (negb _); [by intros [= <-]|].
  destruct (session_refresh _ _ _ _ _ _) as [[[[[ok s1] l1] ch] o1]|] eqn:E; [|done]. cbn [from_option].
  pose proof (refresh_belongs _ _ _ _ _ _ _ _ _ _ _ _ (conj Hp1 Hp2) E) as [H1 H2]. clear E. destruct ok; cbn [negb]; [|by intros [= <-]].
  destruct (denied_scopes _ _); [intros [= <-]; by split; [|apply Hs]|]. unfold subscribe_domains.
  set (l2 := subscribe_lease l1 _). assert (H3 : of_uid uid l2) by done. clearbody l2.
  destruct (start_sources _ _ _) as [ok started]. destruct (negb (bw_reply_sent w)); [by intros [= <-]|].
  destruct (negb _); [|by intros [= <-]]. destruct (emit_each _ _ _) as [[[em l3] o3]|] eqn:Em; [|done]. cbn [from_option]. intros [= <-].
  split; [done|]. unfold of_uid in *. cbn [sb_lease]. by rewrite (emit_each_identity _ _ _ _ _ _ Em).
Qed.

Lemma revoke_belongs uid (w : revoke_world (S := S)) p request o :
  belongs uid p -> permissions_revoke w (ps_session p) (ps_lease p) request = Some o ->
  id_uid (se_identity (rk_session o)) = uid /\ of_uid uid (rk_lease o).
Proof.
  intros Hp. unfold permissions_revoke. destruct (parse_revoke _); [by intros [= <-]|].
  destruct (revoke_call _ _ _) as [call|]; [|by intros [= <-]]. destruct (negb _); [by intros [= <-]|].
  destruct (session_refresh _ _ _ _ _ _) as [[[[[ok s1] l1] ch] o1]|] eqn:E; [|done]. cbn [from_option].
  pose proof (refresh_belongs _ _ _ _ _ _ _ _ _ _ _ _ Hp E) as H. clear E. destruct ok; cbn [negb]; by intros [= <-].
Qed.

Lemma sync_loop_belongs uid backend deadline request before turns : Forall (fun t => of_uid uid (sy_lease t)) turns ->
  forall l timed_out l' t', of_uid uid l -> sync_loop backend deadline request before l timed_out turns = Some (l', t') -> of_uid uid l'.
Proof.
  induction 1 as [|t turns Ht _ IH]; intros l timed_out l' t' Hl; cbn [sync_loop]; (destruct (_ && _); [|by intros [= <- _]]); [done|].
  by apply IH.
Qed.

Lemma execute_belongs uid (w : operation_world (S := S)) p request ex :
  (forall n, keeps_user uid (ow_others w n)) -> Forall (fun t => of_uid uid (sy_lease t)) (ow_turns w) -> belongs uid p ->
  execute_operation w (ps_role p) (ps_gid p) (ps_backend p) (ps_sequence p) (ps_session p) (ps_lease p) request = Some ex ->
  id_uid (se_identity (ex_session ex)) = uid /\ of_uid uid (ex_lease ex).
Proof.
  intros Ho Ht Hp. unfold execute_operation. destruct (request_refused _ _); [by intros [= <-]|].
  destruct (session_refresh _ _ _ _ _ _) as [[[[[ok s1] l1] ch] o1]|] eqn:E; [|done]. cbn [from_option].
  pose proof (refresh_belongs _ _ _ _ _ _ _ _ _ _ _ _ Hp E) as [H1 H2]. clear E. destruct ok; cbn [negb]; [|by intros [= <-]].
  destruct (negb _ && _); [by intros [= <-]|]. destruct (admit_backend _ _ _ _ _) as [refused ? ?|snapshot log]; [by intros [= <-]|].
  destruct (prior_window _ _ _ _ _ _) as [[prior child] log1]. destruct (run_operation _ _ _ _ _) as [result log2].
  set (l2 := ow_others w 2 _). assert (H3 : of_uid uid l2) by by apply Ho, Ho. clearbody l2.
  destruct (conclude _ _ _ _ _ _ _ _ _ _ _) as [[[[[a s2] l4] n] log3]|] eqn:Ec; [|done]. cbn [from_option]. intros [= <-]. cbn [ex_session ex_lease].
  revert Ec. unfold conclude. destruct (session_refresh _ _ _ _ _ _) as [[[[[ok s3] l3] ch3] o3]|] eqn:E; [|done]. cbn [from_option].
  destruct (refresh_user _ _ _ _ _ _ _ _ _ _ _ E) as [E1 E2]. clear E.
  assert (H4 : of_uid uid l3) by (unfold of_uid in *; congruence).
  assert (H5 : id_uid (se_identity s3) = uid) by (unfold of_uid in *; congruence).
  destruct (negb _); [by intros [= _ <- <- _ _]|]. destruct (_ && _); [|by intros [= _ <- <- _ _]].
  destruct (acknowledge _ _ _ _ _ _ _ _) as [[[[observed sequence] l5] log5]|] eqn:Ea; [|done]. cbn [from_option].
  assert (H6 : of_uid uid l5).
  { pose proof (Ho 3%nat _ H4) as H6. revert H6 Ea. generalize (ow_others w 3 l3). intros l6 H6. unfold acknowledge. destruct child.
    - destruct (x11_observe_window _ _ _ _ _) as [[status found] log6]. by intros [= _ _ <- _].
    - unfold operation_sync. destruct (sync_monitors _ _ _); cbn [from_option].
      + destruct (sync_loop _ _ _ _ _ _ _) as [[l7 t7]|] eqn:El; [|done]. cbn [from_option]. intros [= _ _ <- _].
        exact (sync_loop_belongs _ _ _ _ _ _ Ht _ _ _ _ H6 El).
      + by intros [= _ _ <- _]. }
  destruct observed; intros [= _ <- <- _ _]; [by split|split; [done|by apply Ho]].
Qed.

Lemma request_belongs uid w p request h :
  belongs uid p -> request_keeps uid w -> handle_public_request w p request = Some h -> hd_ok h = true -> belongs uid (hd_state h).
Proof.
  intros [_ Hl] [Ho Ht]. unfold handle_public_request. destruct (negb _); [by intros [= <-]|]. set (p1 := with_state p _ _).
  assert (Hp : belongs uid p1) by by split. clearbody p1. clear Hl p.
  assert (Hrep : forall q sent a, belongs uid q -> belongs uid (hd_state (replied sent q a))).
  { intros q sent a [Hq1 Hq2]. split; [done|]. cbn. unfold unless_sent. destruct sent; [done|]. by case_match. }
  destruct (negb _); [by intros [= <-]|]. destruct (_ =? KSD_OP_PING).
  { unfold handle_ping. destruct (negb _); [destruct (_ =? 0); intros [= <-]; [done|intros _; by apply Hrep]|].
    destruct (session_refresh _ _ _ _ _ _) as [[[[[ok s1] l1] ch] o1]|] eqn:E; [|done]. cbn [from_option].
    pose proof (refresh_belongs _ _ _ _ _ _ _ _ _ _ _ _ Hp E) as H. clear E. destruct ok; cbn [negb]; [|by intros [= <-]].
    destruct (_ =? 0); intros [= <-] _; [done|by apply Hrep]. }
  destruct (_ =? 0); [by intros [= <-]|]. destruct (_ =? KSD_OP_HELLO); [intros [= <-] _; by apply Hrep|].
  destruct (_ =? KSD_OP_AUTHORIZE).
  { unfold serve_authorize. destruct (handle_authorize _ _ _ _ _) as [[[[[a|] s1] l1] o]|] eqn:E; [..|done]; cbn [from_option]; [|by intros [= <-]].
    intros [= <-] _. apply Hrep. exact (authorize_belongs _ _ _ _ _ _ _ _ Hp E). }
  destruct (_ =? KSD_OP_STATE_SUBSCRIBE).
  { unfold serve_subscribe. destruct (handle_state_subscribe _ _ _ _ _) as [r|] eqn:E; [|done]. cbn [from_option]. intros [= <-] _.
    exact (subscribe_belongs _ _ _ _ _ Hp E). }
  destruct (_ =? KSD_OP_PERMISSIONS_LIST).
  { intros [= <-] _. unfold serve_list. destruct (negb _); [by apply Hrep|]. by destruct (permissions_list _ _ _) as [[??]?]. }
  destruct (_ =? KSD_OP_PERMISSIONS_REVOKE).
  { unfold serve_revoke. destruct (negb _); [intros [= <-] _; by apply Hrep|].
    destruct (permissions_revoke _ _ _ _) as [o|] eqn:E; [|done]. cbn [from_option]. intros [= <-] _. exact (revoke_belongs _ _ _ _ _ Hp E). }
  unfold serve_operation. destruct (execute_operation _ _ _ _ _ _ _ _) as [ex|] eqn:E; [|done]. cbn [from_option]. intros [= <-] Hok.
  destruct (execute_belongs _ _ _ _ _ Ho Ht Hp E) as [H1 H2]. split; [done|]. cbn in Hok |- *. by rewrite Hok.
Qed.

(** ** The memory of an assembly *)

(** What is held after a log, if it makes sense: one assembly at a time, given back
    for the user it was taken for. *)
Fixpoint hold_log (held : option Z) (log : list assembly_access) : option (option Z) :=
  match log with
  | [] => Some held
  | Reserved uid :: log => match held with None => hold_log (Some uid) log | Some _ => None end
  | Returned uid :: log =>
    match held with Some u => if u =? uid then hold_log None log else None | None => None end
  end.

Lemma hold_log_app log1 log2 : forall held, hold_log held (log1 ++ log2) = (let* held := hold_log held log1 in hold_log held log2).
Proof.
  induction log1 as [|[u|u] log1 IH]; intros held; cbn [app hold_log]; [done|..].
  - destruct held; [done|apply IH].
  - destruct held as [v|]; [|done]. destruct (v =? u); [apply IH|done].
Qed.

(** What a connection holds for its user. *)
Definition held_by (uid : Z) (c : connection) : option Z := if ksd_request_assembly_active (cx_assembly c) then Some uid else None.

Lemma accept_active a frame result a' :
  ksd_request_assembly_accept a frame = (result, a') ->
  match result with
  | KSD_ASSEMBLY_INVALID => as_active a' = as_active a
  | KSD_ASSEMBLY_PENDING => as_active a' = true
  | KSD_ASSEMBLY_COMPLETE => as_active a' = true /\ as_active a = true
  end.
Proof.
  unfold ksd_request_assembly_accept. destruct (fr_payload frame) as [payload|]; [|by intros [= <- <-]].
  destruct (_ || _ || _ || _); [by intros [= <- <-]|]. destruct (_ || _); [by intros [= <- <-]|].
  destruct (as_active a) eqn:Ea; cbn [negb].
  - destruct (_ || _); [by intros [= <- <-]|]. destruct (ksd_buffer_bytes _ _ _) as [[] b]; [|by intros [= <- <-]].
    by destruct (has_flag frame KSD_FLAG_MORE); intros [= <- <-].
  - destruct (has_flag frame KSD_FLAG_MORE); cbn [negb]; [|by intros [= <- <-]].
    destruct (ksd_buffer_bytes _ _ _) as [[] b]; by intros [= <- <-].
Qed.

(** What a step does to the connection of a user: the memory held follows the
    assembly, and the session stays the user's while memory is held or there is
    more to come. *)
Definition step_ok (uid : Z) (c : connection) (r : bool * connection * list assembly_access * list handled) : Prop :=
  let '(ok, c', log, _) := r in
  hold_log (held_by uid c) log = Some (held_by uid c') /\ ps_role (cx_public c') = ps_role (cx_public c) /\
  (ok = true \/ ksd_request_assembly_active (cx_assembly c') = true -> belongs uid (cx_public c')).

Lemma same_step uid c ok : belongs uid (cx_public c) -> step_ok uid c (ok, c, [], []).
Proof. done. Qed.

Lemma handled_step uid c c' log request w h :
  belongs uid (cx_public c') -> request_keeps uid w -> hold_log (held_by uid c) log = Some None ->
  ps_role (cx_public c') = ps_role (cx_public c) -> ksd_request_assembly_active (cx_assembly c') = false ->
  handle_public_request w (cx_public c') request = Some h -> step_ok uid c (handled_by c' log h).
Proof.
  intros Hc Hw Hl Hr Ha Hh. unfold handled_by, step_ok, held_by at 2. cbn [with_public cx_assembly cx_public]. rewrite Ha. split; [done|].
  split; [rewrite <- Hr; by destruct (request_once _ _ _ _ Hh) as [(_ & _ & _ & _ & ? & _) _]|]. intros [Hok|]; [|done].
  by apply (request_belongs _ _ _ _ _ Hc Hw Hh).
Qed.

Lemma assemble_step uid w c frame r :
  belongs uid (cx_public c) -> request_keeps uid (xw_request w) ->
  assemble w c (negb (ksd_request_assembly_active (cx_assembly c))) frame = Some r -> step_ok uid c r.
Proof.
  intros Hc Hw. unfold assemble. destruct (ksd_request_assembly_accept _ _) as [result a] eqn:Ea. apply accept_active in Ea.
  set (c1 := with_assembly c a). assert (Hu : session_uid c1 = uid) by apply Hc. rewrite Hu.
  set (active := ksd_request_assembly_active (cx_assembly c)) in *. change (as_active (cx_assembly c)) with active in Ea.
  assert (Hheld : held_by uid c = if active then Some uid else None) by done.
  assert (H1 : held_by uid c1 = if as_active a then Some uid else None) by done.
  destruct result.
  - intros [= <-]. unfold step_ok. rewrite Hheld, H1, Ea. done.
  - destruct (negb active && _) eqn:Eb; intros [= <-]; unfold step_ok; rewrite Hheld, ?H1, ?Ea.
    + apply andb_true_iff in Eb as [->%negb_true_iff _]. split; [done|]. split; [done|]. intros []; done.
    + split; [|done]. destruct active; cbn; [done|]. done.
  - destruct Ea as [Ea1 Ea2]. rewrite Ea2. cbn [negb andb app].
    assert (Hlog : hold_log (held_by uid c) [Returned uid] = Some None) by (rewrite Hheld, Ea2; cbn; by rewrite Z.eqb_refl).
    destruct (ksd_request_assembly_take _) as [[assembled a2]|].
    + destruct (handle_public_request _ _ _) as [h|] eqn:Eh; [|done]. cbn [from_option]. intros [= <-].
      by apply (handled_step uid c (end_assembly c1) [Returned uid] assembled (xw_request w)).
    + intros [= <-]. unfold step_ok. rewrite Hlog. split; [done|]. split; [done|]. by intros [].
Qed.

Lemma frame_step uid w c frame r :
  belongs uid (cx_public c) -> request_keeps uid (xw_request w) -> handle_public_frame w c frame = Some r -> step_ok uid c r.
Proof.
  intros Hc Hw. unfold handle_public_frame. set (starting := negb _). destruct (starting && _) eqn:E.
  - apply andb_true_iff in E as [E%negb_true_iff _]. destruct (handle_public_request _ _ _) as [h|] eqn:Eh; [|done]. cbn [from_option].
    intros [= <-]. apply (handled_step uid c c [] frame (xw_request w)); try done. unfold held_by. by rewrite E.
  - assert (Hb : forall c1, (if starting then may_begin_assembly w c frame else Some c) = Some c1 ->
      cx_public c1 = cx_public c /\ cx_assembly c1 = cx_assembly c).
    { intros c1. destruct starting; [|by intros [= <-]]. unfold may_begin_assembly.
      destruct (_ && negb _ && _); [|done]. destruct (xw_timeouts w); [|done]. by intros [= <-]. }
    destruct (if starting then _ else _) as [c1|]; [|by intros [= <-]].
    destruct (Hb _ eq_refl) as [H1 H2]. unfold starting. rewrite <- H2.
    assert (Hs : forall r, step_ok uid c1 r -> step_ok uid c r).
    { intros [[[ok c'] log] hs]. unfold step_ok, held_by. by rewrite H1, H2. }
    intros H. apply Hs. rewrite <- H1 in Hc. revert H. destruct (negb (assembly_within_deadline _ _)); [by intros [= <-]|]. by apply assemble_step.
Qed.

Lemma turn_step uid c turn r :
  belongs uid (cx_public c) -> turn_keeps uid turn -> connection_turn c turn = Some r -> step_ok uid c r.
Proof.
  intros Hc. destruct turn as [| |other now force w|other sources request hangup]; cbn [connection_turn turn_keeps]; [by intros _ [= <-]..| |].
  - intros Ho. assert (Hf : belongs uid (found other (cx_public c))) by (split; [apply Hc|apply Ho, Hc]).
    destruct (_ && _); [by intros [= <-]|].
    destruct (session_refresh _ _ _ _ _ _) as [[[[[ok s1] l1] ch] o1]|] eqn:E; [|done]. cbn [from_option].
    pose proof (refresh_belongs _ _ _ _ _ _ _ _ _ _ _ _ Hf E) as H. by intros [= <-].
  - intros [Ho Hq]. assert (Hf : belongs uid (found other (cx_public c))) by (split; [apply Hc|apply Ho, Hc]).
    destruct (source_steps _ _) as [[ok p1]|] eqn:E; [|done]. cbn [from_option].
    destruct (source_steps_belongs _ _ _ _ _ Hf E) as [H1 H2]. destruct ok; cbn [negb]; [|by intros [= <-]].
    destruct request as [[[frame w]|]|]; cbn [from_option]; [|by intros [= <-]..].
    destruct (handle_public_frame w _ frame) as [[[[ok2 c2] log2] hs2]|] eqn:Ef; [|done]. cbn [from_option]. intros [= <-].
    destruct (frame_step uid w (with_public c p1) frame _ H1 Hq Ef) as (G1 & G2 & G3). split; [done|]. split; [by rewrite G2|].
    intros [Hok|Hok]; [|apply G3; by right]. apply G3. left. by destruct ok2.
Qed.


Lemma run_step uid turns : Forall (turn_keeps uid) turns -> forall c c' log hs,
  belongs uid (cx_public c) -> connection_run c turns = Some (c', log, hs) ->
  hold_log (held_by uid c) log = Some (held_by uid c') /\ ps_role (cx_public c') = ps_role (cx_public c) /\
  (ksd_request_assembly_active (cx_assembly c') = true -> belongs uid (cx_public c')).
Proof.
  induction 1 as [|turn turns Ht _ IH]; intros c c' log hs Hc; cbn [connection_run]; [done|].
  destruct (connection_turn c turn) as [[[[ok c1] log1] hs1]|] eqn:E; [|done]. cbn [from_option].
  destruct (turn_step uid c turn _ Hc Ht E) as (H1 & H2 & H3). destruct ok.
  - destruct (connection_run c1 turns) as [[[c2 log2] hs2]|] eqn:E2; [|done]. cbn [from_option]. intros [= <- <- _].
    destruct (IH _ _ _ _ (H3 (or_introl eq_refl)) E2) as (G1 & G2 & G3). rewrite hold_log_app, H1. cbn [from_option]. by rewrite G2.
  - intros [= <- <- _]. split; [done|]. split; [done|]. auto.
Qed.

(** C36: A connection gives back what it took.  From the start of a session to the
    end of its connection, however it ends, the memory for the parts of a request is
    reserved only when none is held and returned only when it is, for the very user
    it was reserved for, and none is left at the end; and then no source is watched
    any more, and a lease whose own connection it was is dead, with nothing granted. *)
Theorem connection_returns_memory st gid backend turns lease p log hs :
  st_lease st = Some lease -> id_uid (se_identity (st_session st)) = id_uid (lease_identity lease) ->
  Forall (turn_keeps (id_uid (lease_identity lease))) turns ->
  serve_connection st gid backend turns = Some (Some (p, log, hs)) ->
  hold_log None log = Some None /\ ps_sources p = [] /\ ps_role p = st_role st /\
  (st_role st = KSD_ROLE_AUTHORIZATION_LEASE -> lease_active (ps_lease p) = false /\ lease_granted_scopes (ps_lease p) = 0).
Proof.
  intros Hl Hu Ht. unfold serve_connection. rewrite Hl. destruct (st_ok st); [|done].
  destruct (connection_run _ _) as [[[c log1] hs1]|] eqn:E; [|done]. cbn [from_option].
  destruct (run_step _ _ Ht (fresh_session_of st gid backend lease) _ _ _ (conj Hu eq_refl) E) as (H1 & H2 & H3).
  change (held_by _ (fresh_session_of _ _ _ _)) with (@None Z) in H1. change (ps_role _) with (st_role st) in H2 at 2.
  unfold connection_end. intros [= <- <- _]. cbn [ps_sources ps_role ps_lease]. rewrite H2. split; [|split; [done|split; [done|]]].
  - rewrite hold_log_app, H1. cbn [from_option]. revert H3. unfold held_by. destruct (ksd_request_assembly_active _); [|done].
    intros H3. destruct (H3 eq_refl) as [Hb _]. cbn [hold_log]. unfold session_uid. by rewrite Hb, Z.eqb_refl.
  - intros ->. by cbn.
Qed.
End sessions.

(** ** Witnesses *)

#[local] Existing Instance infinite_memory.
#[local] Existing Instance sample_permissions.
#[local] Existing Instance plain_library.

(** The process of a lease opens an RPC connection under it. *)
Definition rpc_options : connect_options := mk_options KSD_ROLE_RPC KSD_AUTH_CHECK 0 1000 0 9.
Definition rpc_start_world : start_world (S := sample_store) :=
  mk_start_world None agreeing_world 0 0 true store_before (Some app_identity) x11_registered true.
Definition rpc_started : started :=
  default (mk_started false None 0 no_session None [])
    (start_public_session rpc_start_world [held_lease] 1000 4242 KSD_BACKEND_X11 (Some (hello_frame rpc_options))).

Lemma session_start_bound_witness :
  st_ok rpc_started = true /\
  exists frame, Some (hello_frame rpc_options) = Some frame /\ bound rpc_start_world [held_lease] 1000 4242 frame rpc_started.
Proof.
  split; [vm_compute; reflexivity|].
  destruct (session_start_bound (AL := infinite_memory) rpc_start_world [held_lease] 1000 4242 KSD_BACKEND_X11 (Some (hello_frame rpc_options))
    rpc_started) as [H _]; [vm_compute; reflexivity|]. apply H. vm_compute. reflexivity.
Defined.

Lemma connect_handshake_witness :
  exists r f c, st_reply rpc_started = Some r /\ rp_status r = KSD_STATUS_OK /\
    ksd_connect rpc_options 100 None None [Arrived f (-1)] = Some (KSD_STATUS_OK, Some c, no_error) /\
    cn_granted_scopes c = 4 /\ cn_backend c = KSD_BACKEND_X11 /\ cn_lease_id c = 9.
Proof.
  destruct (connect_handshake (AT := fun _ => eq_refl) rpc_options 100 rpc_start_world [held_lease] 1000 4242 KSD_BACKEND_X11 rpc_started)
    as (_ & _ & r & f & Hr & _ & H).
  - vm_compute. reflexivity.
  - vm_compute. repeat split; discriminate.
  - split; [reflexivity|vm_compute; discriminate].
  - vm_compute. reflexivity.
  - vm_compute. split; [discriminate|reflexivity].
  - vm_compute. split; [discriminate|reflexivity].
  - vm_compute. split; [discriminate|reflexivity].
  - vm_compute. split; [discriminate|reflexivity].
  - assert (Hs : rp_status r = KSD_STATUS_OK) by (vm_compute in Hr; injection Hr as <-; reflexivity).
    rewrite Hs in H.
    destruct (H (Arrived f (-1)) (cn_input (fresh_connection rpc_options)) ltac:(split; reflexivity)) as (c & Hc & _ & _ & Hg & _ & Hb & Hi).
    exists r, f, c.
    split; [exact Hr|]. split; [exact Hs|]. split; [exact Hc|]. split; [|split].
    + rewrite Hg. vm_compute. reflexivity.
    + rewrite Hb. reflexivity.
    + rewrite Hi. vm_compute. reflexivity.
Defined.

Definition sample_public_world : public_world (S := sample_store) :=
  mk_public_world (mk_refresh_world store_before (Some app_identity) all_sent) sample_request_world sample_subscribe_world
    (Some sample_entries) (fun _ => true) revoked_world renaming_world true.
Definition rpc_session : public_session :=
  mk_public KSD_ROLE_RPC 1000 KSD_BACKEND_X11 0 (st_session rpc_started) held_lease [].
Definition list_request : ksd_frame :=
  mk_frame ksd_public_magic KSD_PROTOCOL_MAJOR KSD_PROTOCOL_MINOR KSD_OP_PERMISSIONS_LIST 0 0 7 None.

Lemma requests_answered_witness :
  match handle_public_request sample_public_world rpc_session list_request with
  | Some h => hd_ok h = true /\ length (hd_parts h) = 2%nat /\ answered_once rpc_session list_request h
  | None => False
  end.
Proof.
  destruct (handle_public_request sample_public_world rpc_session list_request) as [h|] eqn:E.
  - destruct (requests_answered _ _ _ _ E) as [H _]. split; [|split; [|exact H]];
      vm_compute in E; injection E as <-; reflexivity.
  - vm_compute in E. discriminate E.
Defined.

(** Half a request arrives, and the client goes. *)
Definition half_request : ksd_frame :=
  mk_frame ksd_public_magic KSD_PROTOCOL_MAJOR KSD_PROTOCOL_MINOR KSD_OP_CLIPBOARD_SET_CONTENT KSD_FLAG_MORE KSD_MAX_REQUEST_PAYLOAD 8
    (Some (repeat x01 (Z.to_nat KSD_MAX_REQUEST_PAYLOAD))).
Definition half_turns : list (poll_turn (S := sample_store)) :=
  [PollReady (fun l => l) [] (Some (Some (half_request, mk_frame_world 50 true 50 initial_budgets true sample_public_world))) false;
   PollFailed].

Lemma connection_returns_memory_witness :
  exists p hs, serve_connection rpc_started 1000 KSD_BACKEND_X11 half_turns = Some (Some (p, [Reserved 1000; Returned 1000], hs)) /\
    hold_log None [Reserved 1000; Returned 1000] = Some None /\ ps_role p = KSD_ROLE_RPC.
Proof.
  destruct (serve_connection rpc_started 1000 KSD_BACKEND_X11 half_turns) as [[[[p log] hs]|]|] eqn:E;
    [|vm_compute in E; discriminate E..].
  assert (Hlog : log = [Reserved 1000; Returned 1000]) by (vm_compute in E; injection E as _ <- _; reflexivity). subst log.
  destruct (st_lease rpc_started) as [lease|] eqn:El; [|vm_compute in El; discriminate El].
  destruct (connection_returns_memory rpc_started 1000 KSD_BACKEND_X11 half_turns lease p [Reserved 1000; Returned 1000] hs El) as (H1 & _ & H3 & _).
  - vm_compute in El. injection El as <-. vm_compute. reflexivity.
  - vm_compute in El. injection El as <-. constructor; [|repeat constructor].
    split; [intros l Hl; exact Hl|]. split; [intros n l Hl; exact Hl|constructor].
  - exact E.
  - exists p, hs. split; [reflexivity|]. split; [exact H1|]. rewrite H3. vm_compute. reflexivity.
Defined.
