(* ===== verification/Install.v ===== *)
(** * The installation and its socket (src/install_mode.c, and the two ends of the
    authority's socket in src/authorityd.c and src/session_backend.c)

    Who an installation belongs to, where it keeps its socket and its stores, how the
    authority makes that socket or inherits it, and how a daemon of the session finds it
    and checks who answers.  The environment, the file system and the outcomes of system
    calls are arguments; the file system is a map from paths to what [lstat] says of
    them, and the operations that change it give the map they leave. *)
From Stdlib Require Import ZArith Lia Strings.Byte Strings.String.
From stdpp Require Import base list option numbers tactics.
From S2P Require Import Prelude.
From S2P Require Import Protocol.
From S2P Require Import Transport.
From S2P Require Import KwinEnvelope.
From S2P Require Import Environ.
Local Open Scope Z_scope.
Local Open Scope ksd_scope.

(** ** Files *)

Inductive file_kind := KindFifo | KindRegular | KindDirectory | KindSocket | KindOther.
(** What stat says of a file. *)
Record file_status := mk_status {
  st_kind : file_kind; st_uid : Z; st_gid : Z; st_mode : Z; st_dev : Z; st_ino : Z; st_size : Z;
}.

Definition is_fifo (s : file_status) : bool := match st_kind s with KindFifo => true | _ => false end.
Definition is_regular (s : file_status) : bool := match st_kind s with KindRegular => true | _ => false end.
Definition is_directory (s : file_status) : bool := match st_kind s with KindDirectory => true | _ => false end.
Definition is_socket (s : file_status) : bool := match st_kind s with KindSocket => true | _ => false end.
Definition with_mode (s : file_status) (mode : Z) : file_status :=
  mk_status (st_kind s) (st_uid s) (st_gid s) mode (st_dev s) (st_ino s) (st_size s).

(** [S_IRWXG | S_IRWXO] and [S_IWGRP | S_IWOTH]. *)
Definition OTHERS_ANY : Z := 0x3f.
Definition OTHERS_WRITE : Z := 0x12.

(** ** Text *)

Definition is_space (b : byte) : bool := (b2z b =? 32) || ((9 <=? b2z b) && (b2z b <=? 13)).
Fixpoint skip (space : byte -> bool) (s : list byte) : list byte :=
  match s with b :: rest => if space b then skip space rest else s | [] => [] end.

(** The digits at the start of a string, and what follows them. *)
Fixpoint digit_run (s : list byte) : list byte * list byte :=
  match s with
  | b :: rest => if digit_byte b then let '(ds, rest) := digit_run rest in (b :: ds, rest) else ([], s)
  | [] => ([], [])
  end.

(** [strtoul] in base 10: [None] when it converts nothing or the number is out of
    range, and otherwise the number and the end. *)
Definition ULONG_MAX : Z := 2 ^ 64 - 1.
Definition strtoul (s : list byte) : option (Z * list byte) :=
  let t := skip is_space s in
  let '(negative, t) :=
    match t with
    | b :: rest => if b2z b =? 45 then (true, rest) else if b2z b =? 43 then (false, rest) else (false, t)
    | [] => (false, [])
    end in
  let '(digits, rest) := digit_run t in
  guard* negb (bytes_eqb digits []) && (dval 0 digits <=? ULONG_MAX) in
  Some (if negative then u64 (- dval 0 digits) else dval 0 digits, rest).

(** A path up to its last slash, [None] without one: [strrchr]. *)
Fixpoint parent_of (path : list byte) : option (list byte) :=
  match path with
  | [] => None
  | b :: rest =>
    match parent_of rest with
    | Some parent => Some (b :: parent)
    | None => if b2z b =? 47 then Some [] else None
    end
  end.

(** ** Whom the installation belongs to *)

(** The static variables [install_latched], [install_uid] and [install_gid]. *)
Record install_identity := mk_install { in_latched : bool; in_uid : Z; in_gid : Z }.
Definition unlatched : install_identity := mk_install false 0 0.

Section identity.
(** The effective credentials at the time of the call. *)
Variables euid egid : Z.
Definition ksd_install_identity_latch (i : install_identity) : install_identity :=
  if in_latched i then i else mk_install true euid egid.
Definition ksd_install_owner (i : install_identity) : Z * install_identity :=
  let i := ksd_install_identity_latch i in (in_uid i, i).
Definition ksd_install_group (i : install_identity) : Z * install_identity :=
  let i := ksd_install_identity_latch i in (in_gid i, i).
Definition ksd_install_is_system (i : install_identity) : bool * install_identity :=
  let '(owner, i) := ksd_install_owner i in (owner =? 0, i).
Definition ksd_install_owner_trusted (i : install_identity) (owner : Z) : bool * install_identity :=
  let '(mine, i) := ksd_install_owner i in (owner =? mine, i).
End identity.

(** ** Where it keeps things *)

Definition KSD_INSTALL_PATH_CAPACITY : Z := 4096.
Definition KSD_USER_SOCKET_TAIL : list byte := cstr "/keysharp-desktop/keysharp-desktop.sock".
Definition KSD_SYSTEM_SOCKET : list byte := cstr "/run/keysharp-desktop/keysharp-desktop.sock".

(** The length without trailing slashes. *)
Fixpoint trim_length (runtime : list byte) (length : nat) : nat :=
  match length with
  | S ((S _) as shorter) => if b2z (nth shorter runtime x00) =? 47 then trim_length runtime shorter else length
  | _ => length
  end.

(** A string that starts with a slash. *)
Definition absolute (path : list byte) : bool := b2z (nth 0 path x00) =? 47.

Section paths.
(** The latched owner; the environment; what [lstat] says. *)
Variables (owner : Z) (getenv : list byte -> option (list byte)) (lstat : list byte -> option file_status).
Definition is_system : bool := owner =? 0.

Definition runtime_directory (capacity : Z) : option (list byte) :=
  let* runtime := getenv (cstr "XDG_RUNTIME_DIR") in
  guard* absolute runtime in
  let length := trim_length runtime (List.length runtime) in
  guard* negb ((Z.of_nat length =? 0) || (capacity <=? Z.of_nat length)) in
  let buffer := take length runtime in
  let* status := lstat buffer in
  guard* is_directory status && (st_uid status =? owner) && (Z.land (st_mode status) OTHERS_ANY =? 0) in
  Some buffer.

Definition ksd_install_socket_path (capacity : Z) : option (list byte) :=
  guard* negb (capacity =? 0) in
  if is_system then guard* negb (capacity <? zlen KSD_SYSTEM_SOCKET + 1) in Some KSD_SYSTEM_SOCKET
  else
    let* runtime := runtime_directory KSD_INSTALL_PATH_CAPACITY in
    let path := runtime ++ KSD_USER_SOCKET_TAIL in
    guard* (0 <? zlen path) && (zlen path <? capacity) in Some path.

Definition ksd_install_socket_mode : Z := if is_system then 0x1b6 else 0x180.

(** The path, or the nearest ancestor of it that exists; the fuel is its length. *)
Fixpoint acceptable_store_parent (fuel : nat) (path : list byte) : option bool :=
  match lstat path with
  | Some status =>
    Some (is_directory status && (st_uid status =? owner) && (Z.land (st_mode status) OTHERS_WRITE =? 0))
  | None =>
    match parent_of path with
    | None | Some [] => Some false
    | Some parent =>
      if KSD_INSTALL_PATH_CAPACITY <=? zlen parent then Some false
      else match fuel with O => None | S fuel => acceptable_store_parent fuel parent end
    end
  end.

(** [slot] is the static buffer, empty until it is filled. *)
Definition cached_directory (slot base tail : list byte) : option (option (list byte) * list byte) :=
  if negb (bytes_eqb slot []) then Some (Some slot, slot)
  else
    let path := base ++ tail in
    if (zlen path <=? 0) || (KSD_INSTALL_PATH_CAPACITY <=? zlen path) then Some (None, [])
    else
      let* acceptable := acceptable_store_parent (length path) path in
      if (acceptable : bool) then Some (Some path, path) else Some (None, []).

(** [XDG_STATE_HOME], or its default under the home directory. *)
Definition state_directory : option (list byte) :=
  match (let* state := getenv (cstr "XDG_STATE_HOME") in guard* absolute state in Some state) with
  | Some state => Some state
  | None =>
    let* home := getenv (cstr "HOME") in
    guard* absolute home in
    let fallback := home ++ cstr "/.local/state" in
    guard* (0 <? zlen fallback) && (zlen fallback <? KSD_INSTALL_PATH_CAPACITY) in Some fallback
  end.

Definition ksd_install_persistent_directory (slot : list byte) : option (option (list byte) * list byte) :=
  if is_system then Some (None, slot)
  else match state_directory with
       | None => Some (None, slot)
       | Some state => cached_directory slot state (cstr "/keysharp-desktop")
       end.

Definition ksd_install_runtime_directory (slot : list byte) : option (option (list byte) * list byte) :=
  if is_system then Some (None, slot)
  else match runtime_directory KSD_INSTALL_PATH_CAPACITY with
       | None => Some (None, slot)
       | Some runtime => cached_directory slot runtime (cstr "/keysharp-desktop/run")
       end.
End paths.

(** ** The authority's end *)

Definition KSD_PATH_CAPACITY : Z := 4096.
(** The size of [sun_path]. *)
Definition SUN_PATH : Z := 108.

Definition file_system := list byte -> option file_status.
Definition update (fs : file_system) (path : list byte) (status : option file_status) : file_system :=
  fun p => if bytes_eqb p path then status else fs p.

Section authority.
(** The process's effective credentials, its umask, the device and inode the next
    file gets, and whether the kernel lets it make a directory, remove a file or bind
    a socket. *)
Variables (euid egid umask : Z) (fresh : list byte -> Z * Z) (may_mkdir may_unlink may_bind : list byte -> bool).

Definition new_file (kind : file_kind) (path : list byte) (mode : Z) : file_status :=
  mk_status kind euid egid (Z.ldiff mode umask) (fst (fresh path)) (snd (fresh path)) 0.

(** The system calls on the file system: the outcome and the file system left. *)
Definition mkdir (fs : file_system) (path : list byte) (mode : Z) : bool * file_system :=
  match fs path with
  | None => if may_mkdir path then (true, update fs path (Some (new_file KindDirectory path mode))) else (false, fs)
  | Some _ => (false, fs)
  end.
Definition chmod (fs : file_system) (path : list byte) (mode : Z) : bool * file_system :=
  match fs path with
  | Some status =>
    if (euid =? 0) || (st_uid status =? euid) then (true, update fs path (Some (with_mode status mode))) else (false, fs)
  | None => (false, fs)
  end.
Definition unlink (fs : file_system) (path : list byte) : file_system :=
  match fs path with
  | Some status => if negb (is_directory status) && may_unlink path then update fs path None else fs
  | None => fs
  end.
Definition bind (fs : file_system) (path : list byte) : bool * file_system :=
  match fs path with
  | None => if may_bind path then (true, update fs path (Some (new_file KindSocket path 0x1ff))) else (false, fs)
  | Some _ => (false, fs)
  end.

(** The loop over the slashes of a path (src/transport.c): [before] is what precedes
    the cursor.  [stat] follows links. *)
Fixpoint make_directories (stat : file_system -> list byte -> option file_status) (mode : Z)
    (before cursor : list byte) (fs : file_system) : bool * file_system :=
  match cursor with
  | [] => (true, fs)
  | b :: cursor =>
    if negb (b2z b =? 47) then make_directories stat mode (before ++ [b]) cursor fs
    else
      let '(made, fs) := mkdir fs before mode in
      if made || match stat fs before with Some status => is_directory status | None => false end
      then make_directories stat mode (before ++ [b]) cursor fs
      else (false, fs)
  end.
Definition ksd_make_parent_directories (stat : file_system -> list byte -> option file_status) (path : list byte) (mode : Z)
    (fs : file_system) : bool * file_system :=
  if KSD_PATH_CAPACITY <=? zlen path then (false, fs)
  else make_directories stat mode (take 1 path) (drop 1 path) fs.

(** [socket] and [listening] are what the calls of that name give; the descriptor, -1
    on failure, the file system, and the descriptors closed. *)
Definition create_socket (stat : file_system -> list byte -> option file_status) (owner : Z) (path : option (list byte))
    (socket : Z) (listening : bool) (fs : file_system) : Z * file_system * list Z :=
  match path with
  | None => (-1, fs, [])
  | Some path =>
    let '(made, fs) := ksd_make_parent_directories stat path (if is_system owner then 0x1ed else 0x1c0) fs in
    if negb made then (-1, fs, [])
    else
      let '(private, fs) :=
        if is_system owner then (true, fs)
        else match parent_of path with
             | None | Some [] => (false, fs)
             | Some directory => chmod fs directory 0x1c0
             end in
      if negb private then (-1, fs, [])
      else if socket <? 0 then (-1, fs, [])
      else if SUN_PATH <=? zlen path then (-1, fs, [socket])
      else
        let fs := unlink fs path in
        let '(bound, fs) := bind fs path in
        if negb bound then (-1, fs, [socket])
        else
          let '(set, fs) := chmod fs path (ksd_install_socket_mode owner) in
          if set && listening then (socket, fs, []) else (-1, fs, [socket])
  end.
End authority.

(** What the kernel says of descriptor 3. *)
Record handed_socket := mk_handed {
  hs_socket : bool; hs_type : option Z; hs_accepting : option Z; hs_address : option (Z * list byte); hs_cloexec : bool;
}.
Definition SOCK_STREAM : Z := 1.
Definition AF_UNIX : Z := 1.

Definition decimal_equals (text : option (list byte)) (expected : Z) : bool :=
  match text with
  | None => false
  | Some text =>
    negb (bytes_eqb text [])
    && match strtoul text with Some (value, rest) => bytes_eqb rest [] && (value =? expected) | None => false end
  end.

(** Whether the environment says anything of a handed socket, the socket, -1 when
    there is none that fits, and the environment left; [expected] is the
    installation's own path. *)
Definition inherited_socket (getenv : process_environment) (pid : Z) (handed : handed_socket) (expected : option (list byte))
    : bool * Z * process_environment :=
  let listen_pid := getenv (cstr "LISTEN_PID") in
  let listen_fds := getenv (cstr "LISTEN_FDS") in
  let listen_names := getenv (cstr "LISTEN_FDNAMES") in
  match listen_pid, listen_fds, listen_names with
  | None, None, None => (false, -1, getenv)
  | _, _, _ =>
    let accepted :=
      decimal_equals listen_pid pid && decimal_equals listen_fds 1
      && match listen_names with Some names => bytes_eqb names (cstr "public") | None => false end
      && hs_socket handed && match hs_type handed with Some type => type =? SOCK_STREAM | None => false end
      && match hs_accepting handed with Some accepting => accepting =? 1 | None => false end
      && match hs_address handed, expected with
         | Some (family, path), Some expected => (family =? AF_UNIX) && (0 <? zlen path) && bytes_eqb (until_nul path) expected
         | _, _ => false
         end
      && hs_cloexec handed in
    if accepted
    then (true, 3, assign (assign (assign getenv (cstr "LISTEN_PID") None) (cstr "LISTEN_FDS") None) (cstr "LISTEN_FDNAMES") None)
    else (true, -1, getenv)
  end.

(** ** A daemon's end *)

Section daemon.
Variable lstat : list byte -> option file_status.

Definition owned_path (path : list byte) (owner : Z) (socket_path : bool) (socket_mode : Z) : bool :=
  match lstat path with
  | None => false
  | Some status =>
    (st_uid status =? owner)
    && (if socket_path then is_socket status && (Z.land (st_mode status) 0x1ff =? socket_mode)
        else is_directory status && (Z.land (st_mode status) OTHERS_WRITE =? 0))
  end.

Definition private_directory (path : list byte) (owner : Z) : bool :=
  match lstat path with
  | None => false
  | Some status => is_directory status && (st_uid status =? owner) && (Z.land (st_mode status) OTHERS_ANY =? 0)
  end.

(** What the calls of one connection give: the descriptor, whether it connected at
    once or was writable in time after [EINPROGRESS], the pending error, the peer. *)
Record connection_run := mk_connecting { cn_socket : Z; cn_connected : bool; cn_error : option Z; cn_peer : option Z }.

(** The descriptor, -1 on failure, and those closed. *)
Definition connect_to (directory path : list byte) (owner socket_mode : Z) (run : connection_run) : Z * list Z :=
  if negb (owned_path directory owner false 0) then (-1, [])
  else if SUN_PATH <=? zlen path then (-1, [])
  else if negb (owned_path path owner true socket_mode) then (-1, [])
  else if cn_socket run <? 0 then (-1, [])
  else if negb (cn_connected run)
          || match cn_error run with Some error => negb (error =? 0) | None => true end
          || match cn_peer run with Some peer => negb (peer =? owner) | None => true end
  then (-1, [cn_socket run])
  else (cn_socket run, []).

(** [user_path] is the path of the user's own installation, of [owner]; the two runs
    are those of the connections made. *)
Definition connect_backend (euid uid owner : Z) (user_path : option (list byte)) (system_run user_run : connection_run) : Z * list Z :=
  let '(descriptor, closed) := connect_to (cstr "/run/keysharp-desktop") KSD_SYSTEM_SOCKET 0 0x1b6 system_run in
  if 0 <=? descriptor then (descriptor, closed)
  else if (euid =? 0) || (uid =? 0) then (-1, closed)
  else
    match user_path with
    | None => (-1, closed)
    | Some user_socket =>
      match (if SUN_PATH <=? zlen user_socket then None else parent_of user_socket) with
      | None | Some [] => (-1, closed)
      | Some user_directory =>
        if negb (private_directory user_directory owner) then (-1, closed)
        else
          let '(descriptor, closed') := connect_to user_directory user_socket owner (ksd_install_socket_mode owner) user_run in
          (descriptor, closed ++ closed')
      end
    end.
End daemon.

(** ** The latch *)

(** What a process does between its entry and its end: it asks, or it changes its
    effective credentials. *)
Inductive install_step := AskOwner | AskGroup | AskSystem | AskTrusted (owner : Z) | SetCredentials (euid egid : Z).

(** The answers, as numbers. *)
Fixpoint install_answers (euid egid : Z) (i : install_identity) (steps : list install_step) : list Z :=
  match steps with
  | [] => []
  | AskOwner :: steps => let '(a, i) := ksd_install_owner euid egid i in a :: install_answers euid egid i steps
  | AskGroup :: steps => let '(a, i) := ksd_install_group euid egid i in a :: install_answers euid egid i steps
  | AskSystem :: steps => let '(a, i) := ksd_install_is_system euid egid i in Z.b2z a :: install_answers euid egid i steps
  | AskTrusted o :: steps =>
    let '(a, i) := ksd_install_owner_trusted euid egid i o in Z.b2z a :: install_answers euid egid i steps
  | SetCredentials euid egid :: steps => install_answers euid egid i steps
  end.

(** What the credentials at the entry answer. *)
Definition entry_answer (euid egid : Z) (step : install_step) : list Z :=
  match step with
  | AskOwner => [euid]
  | AskGroup => [egid]
  | AskSystem => [Z.b2z (euid =? 0)]
  | AskTrusted o => [Z.b2z (o =? euid)]
  | SetCredentials _ _ => []
  end.

Lemma install_answers_latched uid gid steps : forall euid egid,
  install_answers euid egid (mk_install true uid gid) steps = concat (map (entry_answer uid gid) steps).
Proof.
  induction steps as [|step steps IH]; intros euid egid; [done|]. destruct step; cbn; by rewrite IH.
Qed.

(** The installation has one owner.  Whatever credentials a process takes on after it
    asked for the first time, every later answer about the owner, the group, whether the
    installation is the system's and whether an owner is to be trusted is the one the
    credentials of that first moment give; a process that started as root never trusts
    another owner than root. *)
Theorem install_owner_latched euid egid steps :
  (forall e g, install_answers e g (ksd_install_identity_latch euid egid unlatched) steps = concat (map (entry_answer euid egid) steps)) /\
  install_answers euid egid unlatched (AskOwner :: steps) = euid :: concat (map (entry_answer euid egid) steps).
Proof.
  split; [intros e g; apply install_answers_latched|]. cbn. by rewrite install_answers_latched.
Qed.

(** ** Paths *)

Definition slash : byte := z2b 47.
Lemma slash_byte b : b2z b = 47 -> b = slash.
Proof. intros H. by apply b2z_inj. Qed.

Lemma trim_length_spec s n :
  (trim_length s n <= n)%nat /\ (trim_length s n = O <-> n = O) /\
  (forall i, (trim_length s n <= i < n)%nat -> b2z (nth i s x00) = 47) /\
  ((trim_length s n <= 1)%nat \/ b2z (nth (trim_length s n - 1) s x00) <> 47).
Proof.
  induction n as [|n IH]; [cbn; split; [lia|split; [lia|split; [lia|left; lia]]]|]. destruct n as [|n].
  - cbn. split; [lia|]. split; [lia|]. split; [lia|left; lia].
  - destruct IH as (H1 & H2 & H3 & H4). 
    change (trim_length s (S (S n))) with (if b2z (nth (S n) s x00) =? 47 then trim_length s (S n) else S (S n)).
    destruct (Z.eqb_spec (b2z (nth (S n) s x00)) 47).
    + split; [lia|]. split; [lia|]. split; [|done].
      intros i Hi. destruct (decide (i = S n)) as [->|]; [done|]. apply H3. lia.
    + split; [lia|]. split; [lia|]. split; [lia|]. right. by replace (S (S n) - 1)%nat with (S n) by lia.
Qed.

(** [dir] is the path without the slashes at its end. *)
Definition trimmed (path dir : list byte) : Prop :=
  exists slashes, path = dir ++ slashes /\ Forall (fun b => b2z b = 47) slashes /\ dir <> [] /\
    (zlen dir = 1 \/ b2z (List.last dir x00) <> 47).

Lemma nth_last (l : list byte) : l <> [] -> nth (length l - 1) l x00 = List.last l x00.
Proof.
  induction l as [|b [|c l] IH]; [done|done|]. intros _. cbn [length List.last] in *.
  rewrite <- IH by done. cbn. by rewrite Nat.sub_0_r.
Qed.

Lemma trim_length_trimmed path : path <> [] -> trimmed path (take (trim_length path (length path)) path).
Proof.
  intros Hne. destruct (trim_length_spec path (length path)) as (H1 & H2 & H3 & H4). set (n := trim_length _ _) in *.
  assert (Hl : length (take n path) = n) by (rewrite length_take; lia).
  assert (Hn : n <> O) by (intros E; apply H2 in E; by destruct path).
  exists (drop n path). split; [by rewrite take_drop|]. split; [|split].
  - apply List.Forall_forall. intros b Hb. apply (In_nth _ _ x00) in Hb as (i & Hi & <-). rewrite length_drop in Hi.
    rewrite nth_skipn. apply H3. lia.
  - intros E. rewrite E in Hl. cbn in Hl. lia.
  - destruct H4 as [H4|H4]; [left; unfold zlen; lia|right]. rewrite <- nth_last by (intros E; rewrite E in Hl; cbn in Hl; lia).
    rewrite Hl. rewrite nth_firstn. by replace (n - 1 <? n)%nat with true by (symmetry; apply Nat.ltb_lt; lia).
Qed.

Lemma trimmed_det path d d' : trimmed path d -> trimmed path d' -> d = d'.
Proof.
  assert (W : forall d d' : list byte, trimmed path d -> trimmed path d' -> (length d < length d')%nat -> False).
  { clear. intros d d' (s & E & Hs & Hd & _) (s' & E' & _ & Hd' & H') Hl.
    assert (Hlast : b2z (List.last d' x00) = 47).
    { rewrite <- nth_last by done. replace (nth (length d' - 1) d' x00) with (nth (length d' - 1) path x00)
        by (rewrite E', app_nth1 by lia; done).
      rewrite E, app_nth2 by lia. rewrite List.Forall_forall in Hs. apply Hs, nth_In.
      apply (f_equal (@length byte)) in E, E'. rewrite !length_app in E, E'. lia. }
    destruct H' as [H'|H']; [|done]. unfold zlen in H'. destruct d; [done|]. cbn in Hl. lia. }
  intros H H'. destruct (Nat.lt_trichotomy (length d) (length d')) as [?|[Hl|?]]; [by destruct (W d d')| |by destruct (W d' d)].
  destruct H as (s & E & _), H' as (s' & E' & _). rewrite E in E'. by apply app_inj_1 in E' as [? _].
Qed.

(** The user's runtime directory: named absolutely, theirs and closed to all others. *)
Definition runtime_of (owner : Z) (getenv : list byte -> option (list byte)) (lstat : list byte -> option file_status)
    (dir : list byte) : Prop :=
  exists runtime status, getenv (cstr "XDG_RUNTIME_DIR") = Some runtime /\ absolute runtime = true /\ trimmed runtime dir /\
    lstat dir = Some status /\ is_directory status = true /\ st_uid status = owner /\ Z.land (st_mode status) OTHERS_ANY = 0.

Lemma runtime_directory_exact owner getenv lstat capacity dir :
  runtime_directory owner getenv lstat capacity = Some dir <-> runtime_of owner getenv lstat dir /\ zlen dir < capacity.
Proof.
  unfold runtime_directory, runtime_of. destruct (getenv _) as [runtime|]; [|split; [done|by intros [(? & ? & ? & _) _]]].
  cbn. destruct (absolute runtime) eqn:Ha; [|split; [done|intros [(? & ? & [= <-] & ? & _) _]; congruence]].
  assert (Hne : runtime <> []) by (by intros ->). pose proof (trim_length_trimmed runtime Hne) as Ht.
  set (n := trim_length _ _) in *.
  assert (Hn : zlen (take n runtime) = Z.of_nat n).
  { unfold zlen. rewrite length_take. destruct (trim_length_spec runtime (length runtime)). fold n in H. lia. }
  assert (Hn0 : Z.of_nat n <> 0).
  { rewrite <- Hn. destruct Ht as (? & _ & _ & ? & _). intros E. destruct (take n runtime); [done|].
    rewrite zlen_cons in E. pose proof (zlen_nonneg l). lia. }
  replace (Z.of_nat n =? 0) with false by lia. cbn [orb]. destruct (Z.leb_spec capacity (Z.of_nat n)); cbn.
  - split; [done|]. intros [(r & st & [= <-] & _ & Ht' & _) Hc]. rewrite <- (trimmed_det _ _ _ Ht Ht') in Hc. lia.
  - destruct (lstat (take n runtime)) as [st|] eqn:El; cbn.
    + destruct (is_directory st && _ && _) eqn:E.
      * breflect. split; [intros [= <-]; split; [exists runtime, st; auto 8|lia]|].
        intros [(r & st' & [= <-] & _ & Ht' & _) _]. f_equal. by apply (trimmed_det runtime).
      * split; [done|]. intros [(r & st' & [= <-] & _ & Ht' & Hl & Hd & Ho & Hm) _].
        rewrite <- (trimmed_det _ _ _ Ht Ht'), El in Hl. injection Hl as <-. apply Z.eqb_eq in Ho, Hm. rewrite Hd, Ho, Hm in E. done.
    + split; [done|]. intros [(r & st' & [= <-] & _ & Ht' & Hl & _) _]. rewrite <- (trimmed_det _ _ _ Ht Ht') in Hl. congruence.
Qed.

Lemma install_socket_path_exact_user owner getenv lstat capacity path :
  owner <> 0 ->
  ksd_install_socket_path owner getenv lstat capacity = Some path <->
  exists dir, runtime_of owner getenv lstat dir /\ zlen dir < KSD_INSTALL_PATH_CAPACITY /\
    path = dir ++ KSD_USER_SOCKET_TAIL /\ zlen path < capacity.
Proof.
  intros Ho. unfold ksd_install_socket_path, is_system. replace (owner =? 0) with false by lia.
  pose proof (runtime_directory_exact owner getenv lstat KSD_INSTALL_PATH_CAPACITY) as Hrt.
  assert (Hlen : forall dir, 0 < zlen (dir ++ KSD_USER_SOCKET_TAIL))
    by (intros dir; rewrite zlen_app; change (zlen KSD_USER_SOCKET_TAIL) with 39; pose proof (zlen_nonneg dir); lia).
  destruct (Z.eqb_spec capacity 0) as [->|Hc]; cbv beta iota zeta delta [negb].
  { split; [done|]. intros (d & _ & _ & -> & ?). specialize (Hlen d). lia. }
  destruct (runtime_directory _ _ _ _) as [dir|]; cbv beta iota zeta.
  - replace (0 <? zlen (dir ++ KSD_USER_SOCKET_TAIL)) with true by (specialize (Hlen dir); lia). cbn [andb].
    destruct (proj1 (Hrt dir) eq_refl) as [Hr Hl].
    destruct (Z.ltb_spec (zlen (dir ++ KSD_USER_SOCKET_TAIL)) capacity).
    + split; [intros [= <-]; by exists dir|]. intros (d & Hd & Hd' & -> & _).
      by assert (Some dir = Some d) as [= ->] by (by apply Hrt).
    + split; [done|]. intros (d & Hd & Hd' & -> & ?). assert (Some dir = Some d) as [= ->] by (by apply Hrt). lia.
  - split; [done|]. intros (d & Hd & Hd' & -> & _). by assert (None = Some d) by (by apply Hrt).
Qed.

(** Where the socket is.  The system's installation has its fixed path, whatever the
    environment says.  A user's has a path exactly when [XDG_RUNTIME_DIR] names, in
    absolute terms, a directory that exists, is the user's own and is closed to everyone
    else, and the path fits its buffer whole; then it is the fixed tail in that directory,
    without the slashes at the end of the variable, so two spellings that differ in them
    give one path. *)
Theorem install_socket_path_exact owner getenv lstat capacity path :
  0 < capacity ->
  ksd_install_socket_path owner getenv lstat capacity = Some path <->
  (owner = 0 /\ path = KSD_SYSTEM_SOCKET /\ zlen KSD_SYSTEM_SOCKET < capacity) \/
  (owner <> 0 /\ exists dir, runtime_of owner getenv lstat dir /\ zlen dir < KSD_INSTALL_PATH_CAPACITY /\
     path = dir ++ KSD_USER_SOCKET_TAIL /\ zlen path < capacity).
Proof.
  intros Hc. destruct (Z.eqb_spec owner 0) as [->|Ho].
  - unfold ksd_install_socket_path, is_system. replace (capacity =? 0) with false by lia. cbv beta iota zeta delta [negb Z.eqb].
    destruct (Z.ltb_spec capacity (zlen KSD_SYSTEM_SOCKET + 1)).
    + split; [done|]. intros [(_ & _ & ?)|[? _]]; [lia|done].
    + split; [intros [= <-]; left; auto with lia|]. intros [(_ & -> & _)|[? _]]; done.
  - rewrite install_socket_path_exact_user by done. split; [auto|]. by intros [[? _]|[_ ?]].
Qed.

(** A boundary between components: the end of a path, or a slash. *)
Definition boundary (rest : list byte) : Prop := match rest with [] => True | b :: _ => b2z b = 47 end.

Lemma parent_of_none p : parent_of p = None -> Forall (fun b => b2z b <> 47) p.
Proof.
  induction p as [|b p IH]; cbn; [constructor|]. destruct (parent_of p); [done|]. case_if; [done|].
  intros _. breflect. constructor; auto.
Qed.

Lemma parent_of_some p q : parent_of p = Some q ->
  exists b name, p = q ++ b :: name /\ b2z b = 47 /\ Forall (fun b => b2z b <> 47) name.
Proof.
  revert q. induction p as [|b p IH]; intros q; cbn; [done|]. destruct (parent_of p) as [q'|] eqn:E.
  - intros [= <-]. destruct (IH _ eq_refl) as (c & name & -> & ? & ?). by exists c, name.
  - case_if; [|done]. intros [= <-]. breflect. exists b, p. split; [done|]. split; [done|]. by apply parent_of_none.
Qed.

(** Where a path can be cut above itself is where its parent can be. *)
Lemma boundary_above p q b rest :
  parent_of p = Some q -> p = b ++ rest -> boundary rest -> rest <> [] -> exists rest', q = b ++ rest' /\ boundary rest'.
Proof.
  intros Hp Hb Hr Hne. destruct (parent_of_some p q Hp) as (c & name & E & Hc & Hn). rewrite E in Hb.
  assert (Hl : (length b <= length q)%nat).
  { destruct (Nat.le_gt_cases (length b) (length q)) as [|Hg]; [done|]. exfalso.
    destruct rest as [|r rest]; [done|]. cbn in Hr.
    assert (Hnth : nth (length b) (q ++ c :: name) x00 = r) by (by rewrite Hb, app_nth2, Nat.sub_diag by lia).
    rewrite app_nth2 in Hnth by lia. destruct (length b - length q)%nat as [|k] eqn:Ek; [lia|]. cbn in Hnth.
    rewrite List.Forall_forall in Hn. apply (Hn r); [|done]. rewrite <- Hnth. apply nth_In.
    apply (f_equal (@length byte)) in Hb. rewrite !length_app in Hb. cbn in Hb. lia. }
  assert (Eq : q = b ++ drop (length b) q).
  { rewrite <- (take_drop (length b) q) at 1. f_equal. apply (f_equal (take (length b))) in Hb.
    rewrite take_app_le, take_app_length in Hb by lia. done. }
  exists (drop (length b) q). split; [done|]. destruct (drop (length b) q) as [|d rest'] eqn:Ed; [done|].
  rewrite Eq, <- app_assoc in Hb. apply app_inv_head in Hb. cbn in Hb. subst rest. done.
Qed.

Lemma slash_free_boundary p b rest :
  Forall (fun b => b2z b <> 47) p -> p = b ++ rest -> boundary rest -> rest = [].
Proof.
  intros Hp -> Hr. apply Forall_app in Hp as [_ Hp]. destruct rest as [|r rest]; [done|]. by apply Forall_cons_1 in Hp as [? _].
Qed.

(** An ancestor of a path, or the path: something that can be a directory of it. *)
Definition ancestor (path a : list byte) : Prop := a <> [] /\ exists rest, path = a ++ rest /\ boundary rest.

Lemma ancestor_self path : path <> [] -> ancestor path path.
Proof. intros Hne. split; [done|]. exists []. by rewrite app_nil_r. Qed.

Section store.
Variables (owner : Z) (lstat : list byte -> option file_status).

(** The nearest ancestor that exists is a directory of the owner that nobody else writes to. *)
Definition store_parent (path : list byte) : Prop :=
  exists a status, ancestor path a /\ lstat a = Some status /\
    (forall b, ancestor path b -> zlen a < zlen b -> lstat b = None) /\
    is_directory status = true /\ st_uid status = owner /\ Z.land (st_mode status) OTHERS_WRITE = 0.

Lemma store_parent_up path q :
  path <> [] -> lstat path = None -> parent_of path = Some q -> store_parent path <-> store_parent q.
Proof.
  intros Hne Hl Hq. destruct (parent_of_some path q Hq) as (c & name & E & Hc & Hn).
  assert (Hup : forall b, ancestor path b <-> b = path \/ ancestor q b).
  { intros b. split.
    - intros (Hb & rest & Eb & Hr). destruct rest as [|r rest]; [left; by rewrite app_nil_r in Eb|right].
      destruct (boundary_above path q b (r :: rest) Hq Eb Hr ltac:(done)) as (rest' & ? & ?). split; [done|]. by exists rest'.
    - intros [->|(Hb & rest & Eb & Hr)]; [by apply ancestor_self|]. split; [done|]. exists (rest ++ c :: name).
      subst q. rewrite app_assoc. split; [done|]. destruct rest; [done|exact Hr]. }
  split; intros (a & st & Ha & Hs & Hnear & Hgood).
  - apply Hup in Ha as [->|Ha]; [congruence|]. exists a, st. split; [done|]. split; [done|]. split; [|done].
    intros b Hb. apply Hnear, Hup. auto.
  - exists a, st. split; [apply Hup; auto|]. split; [done|]. split; [|done].
    intros b Hb Hlt. apply Hup in Hb as [->|Hb]; auto.
Qed.

Lemma parent_shorter path q : parent_of path = Some q -> (length q < length path)%nat.
Proof. intros Hq. destruct (parent_of_some path q Hq) as (c & name & -> & _). rewrite length_app. cbn. lia. Qed.

(** Which stores a user's installation accepts.  The search for the parent of a store
    always ends; it accepts a path exactly when the path itself, or else the nearest of
    its ancestors that exists, is a directory of the installation's owner that neither
    group nor others can write to, whatever lies further up. *)
Theorem store_parent_exact path :
  path <> [] -> zlen path < KSD_INSTALL_PATH_CAPACITY ->
  exists accepted, acceptable_store_parent owner lstat (length path) path = Some accepted /\
    (accepted = true <-> store_parent path).
Proof.
  intros Hne Hc. assert (Hf : (length path <= length path)%nat) by lia. revert Hf. generalize (length path) at 2 3 as fuel.
  intros fuel. revert path Hne Hc. induction fuel as [|fuel IH]; intros path Hne Hc Hf; [destruct path; [done|cbn in Hf; lia]|].
  cbn [acceptable_store_parent]. destruct (lstat path) as [st|] eqn:El.
  - eexists. split; [done|]. split.
    + intros H. breflect. exists path, st. split; [by apply ancestor_self|]. split; [done|]. split; [|done].
      intros b (_ & rest & -> & _). rewrite zlen_app. pose proof (zlen_nonneg rest). lia.
    + intros (a & st' & (Hna & rest & E & Hr) & Hs & Hnear & Hd & Ho & Hm).
      assert (a = path) as ->.
      { destruct rest as [|r rest]; [by rewrite app_nil_r in E|]. exfalso.
        rewrite (Hnear path) in El; [done|by apply ancestor_self|]. rewrite E, zlen_app, zlen_cons.
        pose proof (zlen_nonneg rest). lia. }
      rewrite El in Hs. injection Hs as <-. by rewrite Hd, Ho, Hm, Z.eqb_refl.
  - assert (Hnone : forall q, parent_of path = q -> (q = None \/ q = Some []) -> ~ store_parent path).
    { intros q Eq Hq (a & st & (Hna & rest & E & Hr) & Hs & _). destruct Hq as [->| ->].
      - apply parent_of_none in Eq. rewrite (slash_free_boundary path a rest Eq E Hr), app_nil_r in E. congruence.
      - destruct rest as [|r rest]; [rewrite app_nil_r in E; congruence|].
        destruct (boundary_above path [] a (r :: rest) Eq E Hr ltac:(done)) as (rest' & E' & _). by destruct a. }
    destruct (parent_of path) as [q|] eqn:Eq; [|exists false; split; [done|split; [done|intros H; by destruct (Hnone None eq_refl (or_introl eq_refl))]]].
    destruct q as [|b q]; [exists false; split; [done|split; [done|intros H; by destruct (Hnone (Some []) eq_refl (or_intror eq_refl))]]|].
    pose proof (parent_shorter path (b :: q) Eq) as Hs. case_if; breflect; [unfold zlen in *; lia|].
    destruct (IH (b :: q)) as (r & -> & Hr); [done|unfold zlen in *; lia|lia|]. exists r. split; [done|].
    rewrite Hr. symmetry. by apply store_parent_up.
Qed.
End store.

(** ** The daemon's choice of an authority *)

Section connect.
Variable lstat : list byte -> option file_status.

(** The socket of an owner in a directory of theirs. *)
Definition owners_socket (directory path : list byte) (owner mode : Z) : Prop :=
  exists d s, lstat directory = Some d /\ is_directory d = true /\ st_uid d = owner /\ Z.land (st_mode d) OTHERS_WRITE = 0 /\
    lstat path = Some s /\ is_socket s = true /\ st_uid s = owner /\ Z.land (st_mode s) 0x1ff = mode /\ zlen path < SUN_PATH.

(** The connection was made, without an error, to a process of the owner. *)
Definition answered_by (run : connection_run) (owner : Z) : Prop :=
  0 <= cn_socket run /\ cn_connected run = true /\ cn_error run = Some 0 /\ cn_peer run = Some owner.

Lemma connect_to_exact directory path owner mode run :
  let '(descriptor, closed) := connect_to lstat directory path owner mode run in
  (0 <= descriptor <-> owners_socket directory path owner mode /\ answered_by run owner) /\
  (0 <= descriptor -> descriptor = cn_socket run /\ closed = []) /\
  (descriptor < 0 -> descriptor = -1 /\
    (closed = [] \/ closed = [cn_socket run] /\ 0 <= cn_socket run /\ owners_socket directory path owner mode)).
Proof.
  unfold connect_to, owned_path, owners_socket, answered_by.
  destruct (lstat directory) as [d|]; cbn; [|split; [split; [lia|by intros [(? & ? & ? & _) _]]|split; [lia|auto]]].
  destruct (_ && _) eqn:Ed; cbn.
  2:{ split; [split; [lia|]|split; [lia|auto]]. intros [(d' & s & [= <-] & Hd & Ho & Hm & _) _]. rewrite Hd, Ho, Hm, Z.eqb_refl in Ed. done. }
  breflect. destruct (Z.leb_spec SUN_PATH (zlen path)); [split; [split; [lia|]|split; [lia|auto]]|].
  { intros [(? & ? & _ & _ & _ & _ & _ & _ & _ & _ & ?) _]. lia. }
  destruct (lstat path) as [s|]; cbn; [|split; [split; [lia|by intros [(? & ? & _ & _ & _ & _ & ? & _) _]]|split; [lia|auto]]].
  destruct (_ && _) eqn:Es; cbn.
  2:{ split; [split; [lia|]|split; [lia|auto]]. intros [(d' & s' & _ & _ & _ & _ & [= <-] & Hd & Ho & Hm & _) _].
      rewrite Hd, Ho, Hm, !Z.eqb_refl in Es. done. }
  breflect.
  assert (Hs : exists d0 s0, Some d = Some d0 /\ is_directory d0 = true /\ st_uid d0 = owner /\ Z.land (st_mode d0) OTHERS_WRITE = 0 /\
    Some s = Some s0 /\ is_socket s0 = true /\ st_uid s0 = owner /\ Z.land (st_mode s0) 0x1ff = mode /\ zlen path < SUN_PATH)
    by (exists d, s; auto 10).
  destruct (Z.ltb_spec (cn_socket run) 0); [split; [split; [lia|intros [_ [? _]]; lia]|split; [lia|auto]]|].
  destruct (_ || _ || _) eqn:Er.
  - split; [split; [lia|]|split; [lia|intros _; split; [done|right; auto]]].
    intros [_ (_ & Hc & He & Hp)]. rewrite Hc, He, Hp, !Z.eqb_refl in Er. done.
  - split; [|split; [auto|lia]]. split; [|intros _; done]. intros _. split; [done|]. split; [done|].
    destruct (cn_error run) as [e|]; [|by rewrite orb_true_r in Er]. destruct (cn_peer run) as [p|]; [|by rewrite orb_true_r in Er].
    destruct (cn_connected run); [|done]. cbn in Er. breflect. split; [done|]. split; f_equal; lia.
Qed.

Inductive opened (made : Prop) (fd : Z) : list Z -> Prop :=
| OpenedOne : made -> opened made fd [fd]
| OpenedNone : ~ made -> opened made fd [].
#[global] Instance opened_proper : Proper (iff ==> eq ==> eq ==> iff) opened.
Proof.
  assert (H : forall P Q fd l, (P <-> Q) -> opened P fd l -> opened Q fd l).
  { intros P Q fd l E [Hp|Hp]; [apply OpenedOne|apply OpenedNone]; tauto. }
  intros P Q E fd ? <- l ? <-. split; apply H; tauto.
Qed.



End connect.

(** ** The two ends together *)

Section ends.
Variables (euid egid umask : Z) (fresh : list byte -> Z * Z) (may_mkdir may_unlink may_bind : list byte -> bool).

(** Directories are made around what exists already, which stays. *)
Definition keeps (fs fs' : file_system) : Prop := forall p s, fs p = Some s -> fs' p = Some s.

Lemma update_same fs p s : update fs p s p = s.
Proof. unfold update, bytes_eqb. by rewrite bool_decide_true. Qed.
Lemma update_other fs p q s : p <> q -> update fs p s q = fs q.
Proof. intros H. unfold update, bytes_eqb. by rewrite bool_decide_false by congruence. Qed.

Lemma mkdir_keeps fs p m ok fs' : mkdir euid egid umask fresh may_mkdir fs p m = (ok, fs') ->
  keeps fs fs' /\ (forall q, q <> p -> fs' q = fs q) /\
  (ok = true -> fs p = None /\ fs' p = Some (new_file euid egid umask fresh KindDirectory p m)).
Proof.
  assert (Hid : keeps fs fs /\ (forall q, q <> p -> fs q = fs q) /\
    (false = true -> fs p = None /\ fs p = Some (new_file euid egid umask fresh KindDirectory p m))) by (split; [by intros ? ?|done]).
  unfold mkdir. destruct (fs p) as [s|] eqn:E; [intros [= <- <-]; by rewrite E|]. case_if; intros [= <- <-]; [|by rewrite E].
  split; [|split; [|intros _; split; [done|by rewrite update_same]]].
  - intros q t Hq. destruct (decide (q = p)) as [->|]; [congruence|]. by rewrite update_other by congruence.
  - intros q Hq. by rewrite update_other by congruence.
Qed.

Lemma make_directories_spec mode cursor : forall before fs fs',
  make_directories euid egid umask fresh may_mkdir (fun fs => fs) mode before cursor fs = (true, fs') ->
  keeps fs fs' /\
  (forall a b, cursor = a ++ slash :: b -> exists s, fs' (before ++ a) = Some s /\ is_directory s = true /\
     (fs (before ++ a) = None -> s = new_file euid egid umask fresh KindDirectory (before ++ a) mode)).
Proof.
  induction cursor as [|c cursor IH]; intros before fs fs'; cbn [make_directories].
  - intros [= <-]. split; [by intros ? ?|]. intros a b H. by destruct a.
  - destruct (Z.eqb_spec (b2z c) 47) as [Hc|Hc]; cbn [negb].
    + destruct (mkdir _ _ _ _ _ fs before mode) as [ok fs1] eqn:Em. destruct (mkdir_keeps _ _ _ _ _ Em) as (K & O & N).
      destruct (ok || _) eqn:Eok; [|done]. intros H'. destruct (IH _ _ _ H') as [K' D']. split.
      { intros p s Hp. apply K', K, Hp. }
      assert (Hb : exists s, fs' before = Some s /\ is_directory s = true /\
        (fs before = None -> s = new_file euid egid umask fresh KindDirectory before mode)).
      { destruct ok.
        - destruct (N eq_refl) as [_ Hn]. eexists. split; [by apply K'|]. split; [done|]. done.
        - cbn in Eok. destruct (fs1 before) as [s|] eqn:Es; [|done]. exists s. split; [by apply K'|]. split; [done|].
          intros Hnone. unfold mkdir in Em. rewrite Hnone in Em. destruct (may_mkdir before); [done|]. injection Em as <-. congruence. }
      intros a b E. destruct a as [|a0 a].
      * by rewrite app_nil_r.
      * injection E as <- E. destruct (D' a b E) as (s & Hs & Hd & Hnew). rewrite <- app_assoc in Hs, Hnew. cbn in Hs, Hnew.
        exists s. split; [done|]. split; [done|]. intros Hnone. apply Hnew. rewrite O; [done|].
        intros Eq. apply (f_equal (@length byte)) in Eq. rewrite length_app in Eq. cbn in Eq. lia.
    + intros H'. destruct (IH _ _ _ H') as [K' D']. split; [done|]. intros a b E. destruct a as [|a0 a].
      * injection E as -> _. by destruct Hc.
      * injection E as <- E. destruct (D' a b E) as (s & Hs). rewrite <- app_assoc in Hs. by exists s.
Qed.

Lemma make_parent_directories_spec path mode fs fs' q :
  ksd_make_parent_directories euid egid umask fresh may_mkdir (fun fs => fs) path mode fs = (true, fs') ->
  parent_of path = Some q -> q <> [] ->
  keeps fs fs' /\ exists s, fs' q = Some s /\ is_directory s = true /\
    (fs q = None -> s = new_file euid egid umask fresh KindDirectory q mode).
Proof.
  unfold ksd_make_parent_directories. case_if; [done|]. intros Hm Hq Hne.
  destruct (make_directories_spec _ _ _ _ _ Hm) as [K D]. split; [done|].
  destruct (parent_of_some path q Hq) as (c & name & E & Hc & _). apply slash_byte in Hc as ->.
  destruct q as [|b q]; [done|]. destruct (D q name) as (s & Hs); [by rewrite E|].
  exists s. rewrite E in Hs. exact Hs.
Qed.

(** What the authority leaves behind when it has made its socket. *)
Lemma create_socket_spec owner path socket listening fs d fs' closed q :
  create_socket euid egid umask fresh may_mkdir may_unlink may_bind (fun fs => fs) owner (Some path) socket listening fs =
    (d, fs', closed) ->
  parent_of path = Some q -> q <> [] ->
  (0 <= d -> d = socket /\ closed = [] /\ zlen path < SUN_PATH /\
     (exists s, fs' path = Some s /\ is_socket s = true /\ st_uid s = euid /\ st_mode s = ksd_install_socket_mode owner) /\
     (exists s, fs' q = Some s /\ is_directory s = true /\
        (if is_system owner then fs q = None -> st_uid s = euid /\ st_mode s = Z.ldiff 0x1ed umask
         else (euid = 0 \/ st_uid s = euid) /\ st_mode s = 0x1c0)) /\
     (forall p s, fs p = Some s -> p <> path -> p <> q -> fs' p = Some s)) /\
  (d < 0 -> d = -1 /\ (closed = [] \/ closed = [socket])).
Proof.
  unfold create_socket. intros H Hq Hne.
  destruct (ksd_make_parent_directories _ _ _ _ _ _ path _ fs) as [made fs1] eqn:Em.
  destruct made; cbn [negb] in H; [|injection H as <- <- <-; split; [lia|auto]].
  destruct (make_parent_directories_spec _ _ _ _ _ Em Hq Hne) as (K & s & Hs & Hd & Hnew).
  assert (Hqp : q <> path).
  { destruct (parent_of_some path q Hq) as (c & name & E & _). intros ->. apply (f_equal (@length byte)) in E.
    rewrite length_app in E. cbn in E. lia. }
  rewrite Hq in H. destruct q as [|b q]; [done|]. set (dir := b :: q) in *.
  set (st := if is_system owner then _ else _) in H.
  assert (Hst : forall fs2, st = (true, fs2) -> keeps fs1 (update fs2 dir (Some s)) /\ (exists s', fs2 dir = Some s' /\ is_directory s' = true /\
    (if is_system owner then fs dir = None -> st_uid s' = euid /\ st_mode s' = Z.ldiff 0x1ed umask
     else (euid = 0 \/ st_uid s' = euid) /\ st_mode s' = 0x1c0))).
  { intros fs2. unfold st. destruct (is_system owner).
    - intros [= <-]. split.
      + intros p t Hp. destruct (decide (p = dir)) as [->|]; [rewrite update_same; congruence|by rewrite update_other].
      + exists s. split; [done|]. split; [done|]. intros Hn. by rewrite (Hnew Hn).
    - unfold chmod. rewrite Hs. case_if; [|done]. intros [= <-]. split.
      + intros p t Hp. destruct (decide (p = dir)) as [->|]; [rewrite update_same; congruence|by rewrite !update_other].
      + exists (with_mode s 0x1c0). rewrite update_same. split; [done|]. split; [done|]. cbn. breflect. split; [lia|done]. }
  destruct st as [[] fs2]; cbn [negb] in H; [|injection H as <- <- <-; split; [lia|auto]].
  destruct (Hst _ eq_refl) as (K2 & Hdir). clear Hst.
  destruct (Z.ltb_spec socket 0); [injection H as <- <- <-; split; [lia|auto]|].
  destruct (Z.leb_spec SUN_PATH (zlen path)); [injection H as <- <- <-; split; [lia|auto]|].
  set (fs3 := unlink may_unlink fs2 path) in H.
  assert (K3 : forall p, p <> path -> fs3 p = fs2 p).
  { intros p Hp. unfold fs3, unlink. destruct (fs2 path); [|done]. case_if; [|done]. by rewrite update_other. }
  unfold bind in H. destruct (fs3 path) as [?|] eqn:E3; [injection H as <- <- <-; split; [lia|auto]|].
  destruct (may_bind path); cbn [negb] in H; [|injection H as <- <- <-; split; [lia|auto]].
  unfold chmod in H. rewrite update_same in H. cbn [st_uid new_file] in H. rewrite Z.eqb_refl, orb_true_r in H. cbn [andb] in H.
  destruct listening; injection H as <- <- <-; [|split; [lia|auto]]. split; [|lia]. intros _.
  split; [done|]. split; [done|]. split; [done|]. split; [|split].
  - eexists. rewrite update_same. split; [done|]. done.
  - destruct Hdir as (s' & Hs' & Hd' & Hr). exists s'. rewrite !update_other, K3 by congruence. done.
  - intros p t Hp Hp1 Hp2. rewrite !update_other, K3 by congruence.
    assert (Hk := K2 p t (K p t Hp)). by rewrite update_other in Hk by congruence.
Qed.

Lemma user_socket_parent dir : parent_of (dir ++ KSD_USER_SOCKET_TAIL) = Some (dir ++ cstr "/keysharp-desktop").
Proof. induction dir as [|b dir IH]; [reflexivity|]. cbn [app parent_of]. by rewrite IH. Qed.

End ends.

(** The daemon finds the authority's socket.  Where no component on the way is a
    symbolic link, a user's authority that could make its socket has left a file system in
    which a daemon of the same user, with the same environment, computes the same path,
    accepts its directory and the socket, and, when root's authority is not to be had,
    connects to it.  The same holds for root's authority on a machine that had no
    directory for it yet. *)
Theorem authority_socket_found euid egid umask fresh may_mkdir may_unlink may_bind getenv socket listening fs d fs' closed path
    system_run run uid :
  ksd_install_socket_path euid getenv fs SUN_PATH = Some path ->
  create_socket euid egid umask fresh may_mkdir may_unlink may_bind (fun fs => fs) euid (Some path) socket listening fs =
    (d, fs', closed) ->
  0 <= d -> answered_by run euid ->
  (euid <> 0 -> uid <> 0 -> ~ answered_by system_run 0 -> ksd_install_socket_path euid getenv fs' SUN_PATH = Some path /\
     fst (connect_backend fs' euid uid euid (ksd_install_socket_path euid getenv fs' SUN_PATH) system_run run) = cn_socket run) /\
  (euid = 0 -> fs (cstr "/run/keysharp-desktop") = None -> forall user_path user_run,
     fst (connect_backend fs' euid uid euid user_path run user_run) = cn_socket run).
Proof.
  intros Hpath Hc Hd Hrun. split.
  - intros Ho Hu Hno. assert (Hsp := Hpath). apply install_socket_path_exact_user in Hpath as (dir & Hrt & Hdl & Hp & Hpl); [|done].
    assert (Hq : parent_of path = Some (dir ++ cstr "/keysharp-desktop")) by (rewrite Hp; apply user_socket_parent).
    destruct (create_socket_spec _ _ _ _ _ _ _ _ _ _ _ _ _ _ _ _ Hc Hq) as [Hgood _]; [by destruct dir|].
    destruct (Hgood Hd) as (_ & _ & _ & (s & Hs & Hso & Hsu & Hsm) & (t & Ht & Htd & Htm) & Hkeep).
    unfold is_system in Htm. replace (euid =? 0) with false in Htm by lia. destruct Htm as [Htu Htm].
    assert (Hsp' : ksd_install_socket_path euid getenv fs' SUN_PATH = Some path).
    { apply install_socket_path_exact_user; [done|]. exists dir. split; [|done].
      destruct Hrt as (r & st & ? & ? & ? & Hl & ?). exists r, st. split; [done|]. split; [done|]. split; [done|]. split; [|done].
      apply Hkeep; [done|rewrite Hp|]; intros E; apply (f_equal (@length byte)) in E; rewrite length_app in E;
        [change (length KSD_USER_SOCKET_TAIL) with 39%nat in E|change (length (cstr "/keysharp-desktop")) with 17%nat in E]; lia. }
    split; [done|]. rewrite Hsp'. unfold connect_backend.
    pose proof (connect_to_exact fs' (cstr "/run/keysharp-desktop") KSD_SYSTEM_SOCKET 0 0x1b6 system_run) as Hsys.
    destruct (connect_to _ _ _ _ _ system_run) as [ds cs]. destruct Hsys as (Hiff & _ & _).
    destruct (Z.leb_spec 0 ds) as [Hds|Hds]; [by destruct (proj1 Hiff Hds)|].
    replace ((euid =? 0) || (uid =? 0)) with false by lia.
    destruct (Z.leb_spec SUN_PATH (zlen path)); [lia|]. rewrite Hq.
    destruct (dir ++ cstr "/keysharp-desktop") as [|b q] eqn:Eq; [by destruct dir|].
    assert (Hpriv : private_directory fs' (b :: q) euid = true).
    { unfold private_directory. rewrite Ht, Htd, Htm. replace (st_uid t =? euid) with true by lia. done. }
    rewrite Hpriv. cbn [negb].
    pose proof (connect_to_exact fs' (b :: q) path euid (ksd_install_socket_mode euid) run) as Hru.
    destruct (connect_to _ _ _ _ _ run) as [du cu]. destruct Hru as (Hiff' & Hok' & _). cbn [fst].
    apply Hok', Hiff'. split; [|done]. exists t, s. split; [done|]. split; [done|]. split; [lia|]. rewrite Htm. split; [done|].
    split; [done|]. split; [done|]. split; [done|]. split; [|done]. rewrite Hsm. unfold ksd_install_socket_mode, is_system.
    by replace (euid =? 0) with false by lia.
  - intros -> Hnone user_path user_run.
    assert (path = KSD_SYSTEM_SOCKET) as -> by (assert (Hp : Some KSD_SYSTEM_SOCKET = Some path) by exact Hpath; congruence).
    destruct (create_socket_spec _ _ _ _ _ _ _ _ _ _ _ _ _ _ _ _ Hc (eq_refl : parent_of KSD_SYSTEM_SOCKET = Some (cstr "/run/keysharp-desktop"))) as [Hgood _]; [done|].
    destruct (Hgood Hd) as (_ & _ & _ & (s & Hs & Hso & Hsu & Hsm) & (t & Ht & Htd & Htm) & _).
    cbn [is_system Z.eqb] in Htm. destruct (Htm Hnone) as [Htu Htmode]. unfold connect_backend.
    pose proof (connect_to_exact fs' (cstr "/run/keysharp-desktop") KSD_SYSTEM_SOCKET 0 0x1b6 run) as Hr.
    destruct (connect_to _ _ _ _ _ run) as [du cu]. destruct Hr as (Hiff & Hok & _).
    assert (0 <= du) as Hdu.
    { apply Hiff. split; [|done]. exists t, s. split; [done|]. split; [done|]. split; [done|]. split; [|by rewrite Hsm].
      rewrite Htmode. apply Z.bits_inj'. intros i Hi. rewrite Z.land_spec, Z.ldiff_spec, Z.bits_0.
      rewrite andb_comm, andb_assoc, <- Z.land_spec. change (Z.land OTHERS_WRITE 0x1ed) with 0. by rewrite Z.bits_0. }
    replace (0 <=? du) with true by lia. cbn [fst]. by apply Hok.
Qed.

(** ** A socket handed over *)

Lemma digit_run_app s rest :
  forallb digit_byte s = true -> match rest with [] => True | b :: _ => digit_byte b = false end -> digit_run (s ++ rest) = (s, rest).
Proof.
  intros Hs Hr. induction s as [|b s IH]; cbn in *.
  - destruct rest as [|b rest]; [done|]. cbn. by rewrite Hr.
  - apply andb_true_iff in Hs as [-> Hs]. by rewrite IH.
Qed.

Lemma strtoul_digits s rest :
  s <> [] -> forallb digit_byte s = true -> dval 0 s <= ULONG_MAX -> match rest with [] => True | b :: _ => digit_byte b = false end ->
  strtoul (s ++ rest) = Some (dval 0 s, rest).
Proof.
  intros Hne Hs Hv Hr. unfold strtoul. destruct s as [|b s]; [done|].
  assert (Hb : digit_byte b = true) by (by apply andb_true_iff in Hs as [? _]). apply digit_byte_range in Hb.
  assert (Hsp : is_space b = false) by (unfold is_space; lia). cbn [app skip]. rewrite Hsp.
  replace (b2z b =? 45) with false by lia. replace (b2z b =? 43) with false by lia.
  cbv beta iota zeta. change (b :: s ++ rest) with ((b :: s) ++ rest). rewrite digit_run_app by done. unfold bytes_eqb. rewrite bool_decide_false by done.
  by replace (dval 0 (b :: s) <=? ULONG_MAX) with true by lia.
Qed.

Lemma decimal_text_digits v :
  0 <= v <= UINT32_MAX -> decimal_text v <> [] /\ forallb digit_byte (decimal_text v) = true /\ dval 0 (decimal_text v) = v /\
  (length (decimal_text v) <= 10)%nat.
Proof.
  intros Hv. destruct (Z.eqb_spec v 0) as [->|]; [vm_compute; split; [done|]; split; [done|]; split; [done|lia]|].
  destruct (decimal_text_canonical v) as ([Hd (b & k & E & _)] & Hval & Hl); [lia|]. split; [by rewrite E|]. auto.
Qed.

Lemma strtoul_decimal v rest :
  0 <= v <= UINT32_MAX -> match rest with [] => True | b :: _ => digit_byte b = false end ->
  strtoul (decimal_text v ++ rest) = Some (v, rest).
Proof.
  intros Hv Hr. destruct (decimal_text_digits v Hv) as (Hne & Hd & Hval & _).
  rewrite strtoul_digits by (done || rewrite Hval; unfold UINT32_MAX, ULONG_MAX in *; lia). by rewrite Hval.
Qed.

Lemma decimal_equals_text v : 0 <= v <= UINT32_MAX -> decimal_equals (Some (decimal_text v)) v = true.
Proof.
  intros Hv. unfold decimal_equals, bytes_eqb. destruct (decimal_text_digits v Hv) as (Hne & _). rewrite bool_decide_false by done.
  rewrite <- (app_nil_r (decimal_text v)), strtoul_decimal by done. by rewrite Z.eqb_refl.
Qed.

(** The socket the service manager hands over.  It is taken only when it is a listening
    stream socket bound to the very path this installation would have bound itself, and
    the variables that announced it are then gone; the environment the service manager
    writes, the process's number, one descriptor and its name, is accepted for such a
    socket; and when anything announced a socket that is not taken, the caller can tell
    that from no announcement. *)
Theorem inherited_socket_exact getenv pid handed expected :
  let '(present, descriptor, env) := inherited_socket getenv pid handed expected in
  (present = false <-> getenv (cstr "LISTEN_PID") = None /\ getenv (cstr "LISTEN_FDS") = None /\ getenv (cstr "LISTEN_FDNAMES") = None) /\
  (descriptor = 3 \/ descriptor = -1 /\ env = getenv) /\
  (descriptor = 3 -> present = true /\ hs_socket handed = true /\ hs_type handed = Some SOCK_STREAM /\ hs_accepting handed = Some 1 /\
     (exists path, hs_address handed = Some (AF_UNIX, path) /\ expected = Some (until_nul path)) /\
     env (cstr "LISTEN_PID") = None /\ env (cstr "LISTEN_FDS") = None /\ env (cstr "LISTEN_FDNAMES") = None) /\
  (forall path, getenv (cstr "LISTEN_PID") = Some (decimal_text pid) -> getenv (cstr "LISTEN_FDS") = Some (cstr "1") ->
     getenv (cstr "LISTEN_FDNAMES") = Some (cstr "public") -> 0 < pid <= UINT32_MAX -> path <> [] -> Forall (fun b => b2z b <> 0) path ->
     expected = Some path -> handed = mk_handed true (Some SOCK_STREAM) (Some 1) (Some (AF_UNIX, path)) true -> descriptor = 3).
Proof.
  unfold inherited_socket. set (accepted := _ && _).
  assert (Hacc : accepted = true -> hs_socket handed = true /\ hs_type handed = Some SOCK_STREAM /\ hs_accepting handed = Some 1 /\
    exists path, hs_address handed = Some (AF_UNIX, path) /\ expected = Some (until_nul path)).
  { unfold accepted. destruct (hs_type handed) as [ty|]; [|by rewrite !andb_false_r]. destruct (hs_accepting handed) as [ac|]; [|by rewrite !andb_false_r].
    destruct (hs_address handed) as [[family path]|]; [|by rewrite !andb_false_r]. destruct expected as [e|]; [|by rewrite !andb_false_r].
    intros H. breflect. split; [done|]. split; [f_equal; lia|]. split; [f_equal; lia|]. exists path.
    split; [do 2 f_equal; lia|]. f_equal. symmetry. eapply bool_decide_eq_true_1. eassumption. }
  assert (Hcomplete : forall path, getenv (cstr "LISTEN_PID") = Some (decimal_text pid) -> getenv (cstr "LISTEN_FDS") = Some (cstr "1") ->
     getenv (cstr "LISTEN_FDNAMES") = Some (cstr "public") -> 0 < pid <= UINT32_MAX -> path <> [] -> Forall (fun b => b2z b <> 0) path ->
     expected = Some path -> handed = mk_handed true (Some SOCK_STREAM) (Some 1) (Some (AF_UNIX, path)) true -> accepted = true).
  { intros path E1 E2 E3 Hpid Hne Hnul -> ->. unfold accepted. rewrite E1, E2, E3. rewrite decimal_equals_text by lia.
    cbn [hs_socket hs_type hs_accepting hs_address hs_cloexec]. rewrite until_nul_id by done. unfold bytes_eqb at 2.
    rewrite (bool_decide_true (path = path)) by done. replace (0 <? zlen path) with true; [reflexivity|].
    destruct path; [done|]. rewrite zlen_cons. pose proof (zlen_nonneg path). lia. }
  clearbody accepted.
  assert (Hall : let '(present, descriptor, env) := if accepted
    then (true, 3, assign (assign (assign getenv (cstr "LISTEN_PID") None) (cstr "LISTEN_FDS") None) (cstr "LISTEN_FDNAMES") None)
    else (true, -1, getenv) in
    present = true /\ (descriptor = 3 \/ descriptor = -1 /\ env = getenv) /\
    (descriptor = 3 -> accepted = true /\ env (cstr "LISTEN_PID") = None /\ env (cstr "LISTEN_FDS") = None /\ env (cstr "LISTEN_FDNAMES") = None) /\
    (accepted = true -> descriptor = 3)).
  { destruct accepted; [|by split; [|split; [right|split]]]. split; [done|]. split; [by left|]. split; [|done]. by intros _. }
  destruct (getenv (cstr "LISTEN_PID")) as [a|], (getenv (cstr "LISTEN_FDS")) as [b|], (getenv (cstr "LISTEN_FDNAMES")) as [c|].
  8: { split; [done|]. split; [by right|]. split; done. }
  all: destruct (if accepted then _ else _) as [[present descriptor] env]; destruct Hall as (-> & H1 & H2 & H3);
    (split; [split; [done|by intros (? & ? & ?)]|split; [done|split; [intros Hd; destruct (H2 Hd) as (Ha & Hl); destruct (Hacc Ha) as (? & ? & ? & ?); auto 10|eauto]]]).
Qed.

(** ** A user's installation *)

Definition private_home : file_system := fun p =>
  if bytes_eqb p (cstr "/run/user/7") then Some (mk_status KindDirectory 7 7 0x1c0 1 1 0)
  else if bytes_eqb p (cstr "/run/user") then Some (mk_status KindDirectory 0 0 0x1ed 1 2 0)
  else if bytes_eqb p (cstr "/run") then Some (mk_status KindDirectory 0 0 0x1ed 1 3 0) else None.
Definition sample_getenv : process_environment := fun name =>
  if bytes_eqb name (cstr "XDG_RUNTIME_DIR") then Some (cstr "/run/user/7//") else None.
Definition sample_run : connection_run := mk_connecting 5 true (Some 0) (Some 7).
Definition no_run : connection_run := mk_connecting (-1) false None None.
Definition user_socket : list byte := cstr "/run/user/7/keysharp-desktop/keysharp-desktop.sock".
Definition anything : list byte -> bool := fun _ => true.

Lemma authority_socket_found_witness :
  let made := create_socket 7 7 0x12 (fun _ => (1, 9)) anything anything anything (fun fs => fs) 7 (Some user_socket) 4 true private_home in
  fst (connect_backend (snd (fst made)) 7 7 7 (ksd_install_socket_path 7 sample_getenv (snd (fst made)) SUN_PATH) no_run sample_run) = 5.
Proof.
  intros made.
  refine (proj2 (proj1 (authority_socket_found 7 7 0x12 (fun _ => (1, 9)) anything anything anything sample_getenv 4 true private_home 4
    (snd (fst made)) [] user_socket no_run sample_run 7 _ _ _ _) _ _ _)).
  - vm_compute. reflexivity.
  - subst made. destruct (create_socket _ _ _ _ _ _ _ _ _ _ _ _ _) as [[d fs] closed] eqn:E.
    assert (Hd : fst (fst (create_socket 7 7 0x12 (fun _ => (1, 9)) anything anything anything (fun fs => fs) 7 (Some user_socket) 4 true private_home)) = 4
      /\ snd (create_socket 7 7 0x12 (fun _ => (1, 9)) anything anything anything (fun fs => fs) 7 (Some user_socket) 4 true private_home) = [])
      by (split; vm_compute; reflexivity). rewrite E in Hd. cbn in Hd. destruct Hd as [-> ->]. reflexivity.
  - lia.
  - repeat split; vm_compute; discriminate || reflexivity.
  - lia.
  - lia.
  - intros [H _]. vm_compute in H. by apply H.
Defined.



Lemma install_socket_path_exact_witness :
  ksd_install_socket_path 7 sample_getenv private_home 108 = Some user_socket <->
  (7 = 0 /\ user_socket = KSD_SYSTEM_SOCKET /\ zlen KSD_SYSTEM_SOCKET < 108) \/
  (7 <> 0 /\ exists dir, runtime_of 7 sample_getenv private_home dir /\ zlen dir < KSD_INSTALL_PATH_CAPACITY /\
     user_socket = dir ++ KSD_USER_SOCKET_TAIL /\ zlen user_socket < 108).
Proof. apply (install_socket_path_exact 7 sample_getenv private_home 108 user_socket). lia. Defined.

Lemma store_parent_exact_witness :
  exists accepted, acceptable_store_parent 7 private_home 19 (cstr "/run/user/7/x/y/zzz") = Some accepted /\
    (accepted = true <-> store_parent 7 private_home (cstr "/run/user/7/x/y/zzz")).
Proof. apply (store_parent_exact 7 private_home (cstr "/run/user/7/x/y/zzz")); [discriminate|vm_compute; reflexivity]. Defined.
