(* ===== verification/DisplayCalls.v ===== *)
(** * Requests of the display workers (src/x11/x11_worker.c, src/x11/x11_display.c, src/wayland/wl_worker.c)

    What a display worker accepts, and which call of its display it makes of a
    request.  The calls themselves are functions of the X and Wayland libraries'
    side: [x11_call] and [wayland_call] name them with their arguments, and what
    they do is an argument of [ksd_x11_execute_on] and [ksd_wayland_execute_on].
    [x11_wire] and [wayland_wire] are the payloads that stand for a call; the
    theorems say that the workers accept these and nothing else, and make of each
    the call it stands for. *)
From Stdlib Require Import ZArith Lia Strings.Byte Strings.String.
From stdpp Require Import base list option numbers tactics.
From S2P Require Import Prelude.
From S2P Require Import Protocol.
From S2P Require Import Codec.
From S2P Require Import Buffer.
From S2P Require Import Utf8.
From S2P Require Import Transport.
From S2P Require Import Frame.
From S2P Require Import Operations.
From S2P Require Import KwinEnvelope.
From S2P Require Import Environ.
From S2P Require Import StateWire.
From S2P Require Import Result.
From S2P Require Import Observe.
From S2P Require Import ClientCalls.
Local Open Scope Z_scope.
Local Open Scope ksd_scope.

Definition INT16_MIN : Z := - 2 ^ 15.
Definition INT16_MAX : Z := 2 ^ 15 - 1.

(** ** X11 *)

Definition KSD_X11_HANDLE_DIGITS : Z := 10.

Fixpoint parse_xid_loop (bytes : list byte) (value : Z) : option Z :=
  match bytes with
  | [] => Some value
  | b :: bytes =>
    guard* negb ((b2z b <? 48) || (57 <? b2z b)) in
    parse_xid_loop bytes (u64 (value * 10 + (b2z b - 48)))
  end.

Definition parse_xid (bytes : list byte) (length : Z) : option Z :=
  guard* negb ((length =? 0) || (KSD_X11_HANDLE_DIGITS <? length)) in
  guard* negb ((1 <? length) && (byte_at bytes 0 =? 48)) in
  let* value := parse_xid_loop (ztake length bytes) 0 in
  guard* negb ((value =? 0) || (UINT32_MAX <? value)) in
  Some (u32 value).

Definition handle_is_xid (handle : Z) : bool := negb (handle =? 0) && (handle <=? UINT32_MAX).

Definition is_i16 (x : Z) : bool := (INT16_MIN <=? x) && (x <=? INT16_MAX).

(** The result of a chain of reads, each needed for the next: false when one fails. *)
Definition holds (chain : option bool) : bool := default false chain.

(** The text of a request: a length within a limit and that many bytes of UTF-8,
    and nothing after them. *)
Definition final_text (cursor : ksd_cursor) (within : Z -> bool) : option (list byte) :=
  let* (length, cursor) := ksd_cursor_u32 cursor in
  guard* within length in
  let* (text, cursor) := ksd_cursor_bytes cursor length in
  guard* ksd_cursor_finished cursor && ksd_utf8_valid text false in
  Some text.

Definition ksd_x11_request_valid (request : ksd_frame) : bool :=
  let cursor := ksd_cursor_init (request_payload request) (fr_payload_length request) in
  let opcode := fr_opcode request in
  if opcode =? KSD_OP_WINDOW_LIST then
    holds (let* (include_hidden, cursor) := ksd_cursor_u32 cursor in
           let* (reserved, cursor) := ksd_cursor_u32 cursor in
           Some ((include_hidden <=? 1) && (reserved =? 0) && ksd_cursor_finished cursor))
  else if any_of opcode [KSD_OP_WINDOW_ACTIVE; KSD_OP_WINDOW_HANDLES; KSD_OP_CURSOR_POSITION; KSD_OP_WORK_AREA;
                         KSD_OP_DISPLAY_LIST] then
    fr_payload_length request =? 0
  else if opcode =? KSD_OP_KEYBOARD_STATE then
    (fr_payload_length request =? 0)
    || holds (let* _ := final_text cursor (fun length => length <=? 64) in Some true)
  else if opcode =? KSD_OP_WINDOW_AT_POINT then
    holds (let* (x, cursor) := ksd_cursor_i32 cursor in
           let* (y, cursor) := ksd_cursor_i32 cursor in
           let* (deepest, cursor) := ksd_cursor_u32 cursor in
           let* (zero, cursor) := ksd_cursor_u32 cursor in
           Some ((deepest <=? 1) && (zero =? 0) && ksd_cursor_finished cursor))
  else if opcode =? KSD_OP_MOUSE_MOVE_ABSOLUTE then
    holds (let* (x, cursor) := ksd_cursor_i32 cursor in
           let* (y, cursor) := ksd_cursor_i32 cursor in
           Some (is_i16 x && is_i16 y && ksd_cursor_finished cursor))
  else if opcode =? KSD_OP_WINDOW_SET_TITLE then
    holds (let* (handle, cursor) := ksd_cursor_u64 cursor in
           guard* handle_is_xid handle in
           let* _ := final_text cursor (fun length => length <=? KSD_MAX_REQUEST_PAYLOAD - 12) in Some true)
  else if any_of opcode [KSD_OP_WINDOW_CLICK; KSD_OP_WINDOW_BUTTON] then
    holds (let* (handle, cursor) := ksd_cursor_u64 cursor in
           guard* handle_is_xid handle in
           let* (x, cursor) := ksd_cursor_i32 cursor in
           let* (y, cursor) := ksd_cursor_i32 cursor in
           guard* is_i16 x && is_i16 y in
           let* (button, cursor) := ksd_cursor_u32 cursor in
           guard* (1 <=? button) && (button <=? (if opcode =? KSD_OP_WINDOW_BUTTON then 32 else 5)) in
           let* (count, cursor) := ksd_cursor_u32 cursor in
           guard* (if opcode =? KSD_OP_WINDOW_BUTTON then count <=? 1 else (1 <=? count) && (count <=? 100)) in
           Some (ksd_cursor_finished cursor))
  else if opcode =? KSD_OP_CAPTURE_AREA then
    holds (let* (x, cursor) := ksd_cursor_i32 cursor in
           let* (y, cursor) := ksd_cursor_i32 cursor in
           let* (width, cursor) := ksd_cursor_u32 cursor in
           let* (height, cursor) := ksd_cursor_u32 cursor in
           Some (ksd_cursor_finished cursor))
  else if opcode =? KSD_OP_CAPTURE_WINDOW then
    holds (let* (flags, cursor) := ksd_cursor_u32 cursor in
           let* (length, cursor) := ksd_cursor_u32 cursor in
           guard* Z.land flags (Z.lnot KSD_CAPTURE_WINDOW_INCLUDE_DECORATION) =? 0 in
           let* (bytes, cursor) := ksd_cursor_bytes cursor length in
           guard* ksd_cursor_finished cursor in
           let* _ := parse_xid bytes length in Some true)
  else if any_of opcode [KSD_OP_CLIPBOARD_MIMETYPES; KSD_OP_CLIPBOARD_TEXT] then
    fr_payload_length request =? 0
  else if any_of opcode [KSD_OP_WINDOW_FOCUS; KSD_OP_WINDOW_RAISE; KSD_OP_WINDOW_LOWER; KSD_OP_WINDOW_CLOSE;
                         KSD_OP_WINDOW_KILL; KSD_OP_WINDOW_QUERY; KSD_OP_WINDOW_CHILDREN; KSD_OP_WINDOW_FOCUS_CHILD;
                         KSD_OP_WINDOW_REDRAW] then
    holds (let* (handle, cursor) := ksd_cursor_u64 cursor in
           Some (ksd_cursor_finished cursor && handle_is_xid handle))
  else if opcode =? KSD_OP_WINDOW_MOVE_RESIZE then
    holds (let* (handle, cursor) := ksd_cursor_u64 cursor in
           let* (x, cursor) := ksd_cursor_i32 cursor in
           let* (y, cursor) := ksd_cursor_i32 cursor in
           let* (width, cursor) := ksd_cursor_u32 cursor in
           let* (height, cursor) := ksd_cursor_u32 cursor in
           Some (ksd_cursor_finished cursor && handle_is_xid handle && negb (width =? 0) && negb (height =? 0)
                 && (width <=? INT16_MAX) && (height <=? INT16_MAX) && is_i16 x && is_i16 y))
  else if any_of opcode [KSD_OP_WINDOW_SET_STATE; KSD_OP_WINDOW_SET_OPACITY; KSD_OP_WINDOW_SET_ABOVE;
                         KSD_OP_WINDOW_SET_DECORATED; KSD_OP_WINDOW_SET_VISIBLE] then
    let ceiling := if opcode =? KSD_OP_WINDOW_SET_STATE then 3
                   else if opcode =? KSD_OP_WINDOW_SET_OPACITY then 255 else 1 in
    holds (let* (handle, cursor) := ksd_cursor_u64 cursor in
           let* (value, cursor) := ksd_cursor_u32 cursor in
           let* (tail_reserved, cursor) := ksd_cursor_u32 cursor in
           Some (ksd_cursor_finished cursor && handle_is_xid handle && (tail_reserved =? 0) && (value <=? ceiling)))
  else if opcode =? KSD_OP_CLIPBOARD_CONTENT then
    holds (let* _ := final_text cursor (fun length => negb (length =? 0) && (length <=? KSD_MAX_MIMETYPE_BYTES)) in
           Some true)
  else false.

(** The calls of the X display. *)
Inductive x11_call :=
| X11WindowQuery (xid : Z)
| X11WindowChildren (xid : Z)
| X11WindowAtPoint (x y : Z) (deepest : bool)
| X11DisplayList
| X11KeyboardStateSince (revision : option (list byte))
| X11WindowSetTitle (xid : Z) (title : list byte)
| X11WindowSetVisible (xid : Z) (visible : bool)
| X11WindowRedraw (xid : Z)
| X11WindowClick (xid x y button count : Z)
| X11WindowButton (xid x y button : Z) (down : bool)
| X11WindowFocusChild (xid : Z)
| X11MouseMoveAbsolute (x y : Z)
| X11WindowList (include_hidden : bool)
| X11WindowActive
| X11WindowHandles
| X11CursorPosition
| X11WorkArea
| X11CaptureArea (x y width height : Z)
| X11CaptureWindow (xid : Z) (include_decoration : bool)
| X11WindowFocus (xid : Z)
| X11WindowRaise (xid : Z) (above : bool)
| X11WindowClose (xid : Z)
| X11WindowKill (xid : Z)
| X11WindowMoveResize (xid x y width height : Z)
| X11WindowSetState (xid state : Z)
| X11WindowSetOpacity (xid opacity : Z)
| X11WindowSetAbove (xid : Z) (above : bool)
| X11WindowSetDecorated (xid : Z) (decorated : bool)
| X11ClipboardMimetypes
| X11ClipboardText
| X11ClipboardContent (mimetype : list byte).

(** Reads of a validated request whose success is not tested again; a variable
    keeps its initial value when one fails. *)
Definition cursor_or {A} (read : ksd_cursor -> option (A * ksd_cursor)) (initial : A) (cursor : ksd_cursor) : A * ksd_cursor :=
  default (initial, cursor) (read cursor).

(** The switch of [ksd_x11_execute_on]; [None] is its default. *)
Definition x11_dispatch (request : ksd_frame) : option x11_call :=
  let opcode := fr_opcode request in
  let xid := u32 (ksd_decode_u64 (request_payload request)) in
  let signed offset := i32 (request_word request offset) in
  let flag offset := negb (request_word request offset =? 0) in
  let cursor := ksd_cursor_init (request_payload request) (fr_payload_length request) in
  if opcode =? KSD_OP_WINDOW_QUERY then Some (X11WindowQuery xid)
  else if opcode =? KSD_OP_WINDOW_CHILDREN then Some (X11WindowChildren xid)
  else if opcode =? KSD_OP_WINDOW_AT_POINT then Some (X11WindowAtPoint (signed 0) (signed 4) (flag 8))
  else if opcode =? KSD_OP_DISPLAY_LIST then Some X11DisplayList
  else if opcode =? KSD_OP_KEYBOARD_STATE then
    Some (X11KeyboardStateSince
      (if fr_payload_length request =? 0 then None
       else Some (ztake (request_word request 0) (zdrop 4 (request_payload request)))))
  else if opcode =? KSD_OP_WINDOW_SET_TITLE then
    Some (X11WindowSetTitle xid (ztake (request_word request 8) (zdrop 12 (request_payload request))))
  else if opcode =? KSD_OP_WINDOW_SET_VISIBLE then Some (X11WindowSetVisible xid (flag 8))
  else if opcode =? KSD_OP_WINDOW_REDRAW then Some (X11WindowRedraw xid)
  else if opcode =? KSD_OP_WINDOW_CLICK then
    Some (X11WindowClick xid (signed 8) (signed 12) (request_word request 16) (request_word request 20))
  else if opcode =? KSD_OP_WINDOW_BUTTON then
    Some (X11WindowButton xid (signed 8) (signed 12) (request_word request 16) (flag 20))
  else if opcode =? KSD_OP_WINDOW_FOCUS_CHILD then Some (X11WindowFocusChild xid)
  else if opcode =? KSD_OP_MOUSE_MOVE_ABSOLUTE then Some (X11MouseMoveAbsolute (signed 0) (signed 4))
  else if opcode =? KSD_OP_WINDOW_LIST then
    let '(include_hidden, _) := cursor_or ksd_cursor_u32 0 cursor in
    Some (X11WindowList (negb (include_hidden =? 0)))
  else if opcode =? KSD_OP_WINDOW_ACTIVE then Some X11WindowActive
  else if opcode =? KSD_OP_WINDOW_HANDLES then Some X11WindowHandles
  else if opcode =? KSD_OP_CURSOR_POSITION then Some X11CursorPosition
  else if opcode =? KSD_OP_WORK_AREA then Some X11WorkArea
  else if opcode =? KSD_OP_CAPTURE_AREA then
    let '(x, cursor) := cursor_or ksd_cursor_i32 0 cursor in
    let '(y, cursor) := cursor_or ksd_cursor_i32 0 cursor in
    let '(width, cursor) := cursor_or ksd_cursor_u32 0 cursor in
    let '(height, _) := cursor_or ksd_cursor_u32 0 cursor in
    Some (X11CaptureArea x y width height)
  else if opcode =? KSD_OP_CAPTURE_WINDOW then
    let '(flags, cursor) := cursor_or ksd_cursor_u32 0 cursor in
    let '(length, cursor) := cursor_or ksd_cursor_u32 0 cursor in
    let '(bytes, _) := cursor_or (fun c => ksd_cursor_bytes c length) [] cursor in
    let xid := default 0 (parse_xid bytes length) in
    Some (X11CaptureWindow xid (negb (Z.land flags KSD_CAPTURE_WINDOW_INCLUDE_DECORATION =? 0)))
  else if any_of opcode [KSD_OP_WINDOW_FOCUS; KSD_OP_WINDOW_RAISE; KSD_OP_WINDOW_LOWER; KSD_OP_WINDOW_CLOSE;
                         KSD_OP_WINDOW_KILL] then
    let '(handle, _) := cursor_or ksd_cursor_u64 0 cursor in
    let xid := u32 handle in
    Some (if opcode =? KSD_OP_WINDOW_FOCUS then X11WindowFocus xid
          else if opcode =? KSD_OP_WINDOW_RAISE then X11WindowRaise xid true
          else if opcode =? KSD_OP_WINDOW_LOWER then X11WindowRaise xid false
          else if opcode =? KSD_OP_WINDOW_CLOSE then X11WindowClose xid
          else X11WindowKill xid)
  else if opcode =? KSD_OP_WINDOW_MOVE_RESIZE then
    let '(handle, cursor) := cursor_or ksd_cursor_u64 0 cursor in
    let '(x, cursor) := cursor_or ksd_cursor_i32 0 cursor in
    let '(y, cursor) := cursor_or ksd_cursor_i32 0 cursor in
    let '(width, cursor) := cursor_or ksd_cursor_u32 0 cursor in
    let '(height, _) := cursor_or ksd_cursor_u32 0 cursor in
    Some (X11WindowMoveResize (u32 handle) x y width height)
  else if any_of opcode [KSD_OP_WINDOW_SET_STATE; KSD_OP_WINDOW_SET_OPACITY; KSD_OP_WINDOW_SET_ABOVE;
                         KSD_OP_WINDOW_SET_DECORATED] then
    let '(handle, cursor) := cursor_or ksd_cursor_u64 0 cursor in
    let '(value, _) := cursor_or ksd_cursor_u32 0 cursor in
    let xid := u32 handle in
    Some (if opcode =? KSD_OP_WINDOW_SET_STATE then X11WindowSetState xid value
          else if opcode =? KSD_OP_WINDOW_SET_OPACITY then X11WindowSetOpacity xid value
          else if opcode =? KSD_OP_WINDOW_SET_ABOVE then X11WindowSetAbove xid (negb (value =? 0))
          else X11WindowSetDecorated xid (negb (value =? 0)))
  else if opcode =? KSD_OP_CLIPBOARD_MIMETYPES then Some X11ClipboardMimetypes
  else if opcode =? KSD_OP_CLIPBOARD_TEXT then Some X11ClipboardText
  else if opcode =? KSD_OP_CLIPBOARD_CONTENT then
    let '(length, cursor) := cursor_or ksd_cursor_u32 0 cursor in
    let '(bytes, _) := cursor_or (fun c => ksd_cursor_bytes c length) [] cursor in
    Some (X11ClipboardContent bytes)
  else None.

(** *** What a request says *)

Definition encode_bool (b : bool) : list byte := ksd_encode_u32 (Z.b2z b).
Definition encode_i32 (x : Z) : list byte := ksd_encode_u32 (u32 x).
Definition encode_xid (xid : Z) : list byte := ksd_encode_u64 xid.

(** The operation and the payload of a call. *)
Definition x11_wire (call : x11_call) : Z * list byte :=
  match call with
  | X11WindowQuery xid => (KSD_OP_WINDOW_QUERY, encode_xid xid)
  | X11WindowChildren xid => (KSD_OP_WINDOW_CHILDREN, encode_xid xid)
  | X11WindowAtPoint x y deepest =>
    (KSD_OP_WINDOW_AT_POINT, encode_i32 x ++ encode_i32 y ++ encode_bool deepest ++ ksd_encode_u32 0)
  | X11DisplayList => (KSD_OP_DISPLAY_LIST, [])
  | X11KeyboardStateSince None => (KSD_OP_KEYBOARD_STATE, [])
  | X11KeyboardStateSince (Some revision) => (KSD_OP_KEYBOARD_STATE, text_tail revision)
  | X11WindowSetTitle xid title => (KSD_OP_WINDOW_SET_TITLE, encode_xid xid ++ text_tail title)
  | X11WindowSetVisible xid visible =>
    (KSD_OP_WINDOW_SET_VISIBLE, encode_xid xid ++ encode_bool visible ++ ksd_encode_u32 0)
  | X11WindowRedraw xid => (KSD_OP_WINDOW_REDRAW, encode_xid xid)
  | X11WindowClick xid x y button count =>
    (KSD_OP_WINDOW_CLICK, encode_xid xid ++ encode_i32 x ++ encode_i32 y ++ ksd_encode_u32 button ++ ksd_encode_u32 count)
  | X11WindowButton xid x y button down =>
    (KSD_OP_WINDOW_BUTTON, encode_xid xid ++ encode_i32 x ++ encode_i32 y ++ ksd_encode_u32 button ++ encode_bool down)
  | X11WindowFocusChild xid => (KSD_OP_WINDOW_FOCUS_CHILD, encode_xid xid)
  | X11MouseMoveAbsolute x y => (KSD_OP_MOUSE_MOVE_ABSOLUTE, encode_i32 x ++ encode_i32 y)
  | X11WindowList include_hidden => (KSD_OP_WINDOW_LIST, encode_bool include_hidden ++ ksd_encode_u32 0)
  | X11WindowActive => (KSD_OP_WINDOW_ACTIVE, [])
  | X11WindowHandles => (KSD_OP_WINDOW_HANDLES, [])
  | X11CursorPosition => (KSD_OP_CURSOR_POSITION, [])
  | X11WorkArea => (KSD_OP_WORK_AREA, [])
  | X11CaptureArea x y width height =>
    (KSD_OP_CAPTURE_AREA, encode_i32 x ++ encode_i32 y ++ ksd_encode_u32 width ++ ksd_encode_u32 height)
  | X11CaptureWindow xid include_decoration =>
    (KSD_OP_CAPTURE_WINDOW, encode_bool include_decoration ++ text_tail (decimal_text xid))
  | X11WindowFocus xid => (KSD_OP_WINDOW_FOCUS, encode_xid xid)
  | X11WindowRaise xid above => (if above then KSD_OP_WINDOW_RAISE else KSD_OP_WINDOW_LOWER, encode_xid xid)
  | X11WindowClose xid => (KSD_OP_WINDOW_CLOSE, encode_xid xid)
  | X11WindowKill xid => (KSD_OP_WINDOW_KILL, encode_xid xid)
  | X11WindowMoveResize xid x y width height =>
    (KSD_OP_WINDOW_MOVE_RESIZE,
     encode_xid xid ++ encode_i32 x ++ encode_i32 y ++ ksd_encode_u32 width ++ ksd_encode_u32 height)
  | X11WindowSetState xid state => (KSD_OP_WINDOW_SET_STATE, encode_xid xid ++ ksd_encode_u32 state ++ ksd_encode_u32 0)
  | X11WindowSetOpacity xid opacity =>
    (KSD_OP_WINDOW_SET_OPACITY, encode_xid xid ++ ksd_encode_u32 opacity ++ ksd_encode_u32 0)
  | X11WindowSetAbove xid above => (KSD_OP_WINDOW_SET_ABOVE, encode_xid xid ++ encode_bool above ++ ksd_encode_u32 0)
  | X11WindowSetDecorated xid decorated =>
    (KSD_OP_WINDOW_SET_DECORATED, encode_xid xid ++ encode_bool decorated ++ ksd_encode_u32 0)
  | X11ClipboardMimetypes => (KSD_OP_CLIPBOARD_MIMETYPES, [])
  | X11ClipboardText => (KSD_OP_CLIPBOARD_TEXT, [])
  | X11ClipboardContent mimetype => (KSD_OP_CLIPBOARD_CONTENT, text_tail mimetype)
  end.

(** An X window: 32 bits, and not the window 0. *)
Definition xid_ok (xid : Z) : Prop := 1 <= xid <= UINT32_MAX.
Definition i16_ok (x : Z) : Prop := INT16_MIN <= x <= INT16_MAX.
Definition utf8_within (text : list byte) (limit : Z) : Prop :=
  zlen text <= limit /\ ksd_utf8_valid text false = true.

(** The arguments a worker passes on to the display. *)
Definition x11_call_ok (call : x11_call) : Prop :=
  match call with
  | X11WindowQuery xid | X11WindowChildren xid | X11WindowSetVisible xid _ | X11WindowRedraw xid
  | X11WindowFocusChild xid | X11CaptureWindow xid _ | X11WindowFocus xid | X11WindowRaise xid _
  | X11WindowClose xid | X11WindowKill xid | X11WindowSetAbove xid _ | X11WindowSetDecorated xid _ => xid_ok xid
  | X11WindowAtPoint x y _ => is_i32 x /\ is_i32 y
  | X11KeyboardStateSince (Some revision) => utf8_within revision 64
  | X11WindowSetTitle xid title => xid_ok xid /\ utf8_within title (KSD_MAX_REQUEST_PAYLOAD - 12)
  | X11WindowClick xid x y button count => xid_ok xid /\ i16_ok x /\ i16_ok y /\ 1 <= button <= 5 /\ 1 <= count <= 100
  | X11WindowButton xid x y button _ => xid_ok xid /\ i16_ok x /\ i16_ok y /\ 1 <= button <= 32
  | X11MouseMoveAbsolute x y => i16_ok x /\ i16_ok y
  | X11CaptureArea x y width height => is_i32 x /\ is_i32 y /\ is_u32 width /\ is_u32 height
  | X11WindowMoveResize xid x y width height =>
    xid_ok xid /\ i16_ok x /\ i16_ok y /\ 1 <= width <= INT16_MAX /\ 1 <= height <= INT16_MAX
  | X11WindowSetState xid state => xid_ok xid /\ 0 <= state <= 3
  | X11WindowSetOpacity xid opacity => xid_ok xid /\ 0 <= opacity <= 255
  | X11ClipboardContent mimetype => 1 <= zlen mimetype /\ utf8_within mimetype KSD_MAX_MIMETYPE_BYTES
  | X11DisplayList | X11KeyboardStateSince None | X11WindowList _ | X11WindowActive | X11WindowHandles
  | X11CursorPosition | X11WorkArea | X11ClipboardMimetypes | X11ClipboardText => True
  end.

(** A request is the wire form of a call. *)
Definition says (request : ksd_frame) (wire : Z * list byte) : Prop :=
  fr_opcode request = fst wire /\ request_payload request = snd wire /\ fr_payload_length request = zlen (snd wire).

(** *** Lemmas *)

Lemma consumes_i32 : consumes ksd_cursor_i32 encode_i32.
Proof.
  intros c a c' Hwf. unfold ksd_cursor_i32. destruct (ksd_cursor_u32 c) as [[v c1]|] eqn:E; [|done]. intros [= <- <-].
  pose proof (cursor_u32_range _ _ _ Hwf E) as Hv. destruct (consumes_u32 _ _ _ Hwf E) as [Hwf' Hr]. split; [done|].
  unfold encode_i32. by rewrite (proj1 (u32_i32 v Hv)).
Qed.
Lemma cursor_i32_range c v c' : cursor_wf c -> ksd_cursor_i32 c = Some (v, c') -> is_i32 v.
Proof.
  intros Hwf. unfold ksd_cursor_i32. destruct (ksd_cursor_u32 c) as [[w c1]|] eqn:E; [|done]. intros [= <- <-].
  apply u32_i32. by eapply cursor_u32_range.
Qed.
Lemma reads_i32 v : is_i32 v -> reads ksd_cursor_i32 (encode_i32 v) v.
Proof.
  intros Hv c k Hwf Hr. destruct (reads_u32 (u32 v) (Z.mod_pos_bound v (2 ^ 32) ltac:(lia)) c k Hwf Hr) as (c' & E & ? & ?).
  exists c'. unfold ksd_cursor_i32. rewrite E, i32_u32 by done. done.
Qed.

Lemma bool_word v : 0 <= v <= 1 -> ksd_encode_u32 v = encode_bool (negb (v =? 0)).
Proof. intros H. unfold encode_bool. destruct (Z.eqb_spec v 0) as [->|]; [done|]. by assert (v = 1) as -> by lia. Qed.
Lemma bool_u32 b : is_u32 (Z.b2z b).
Proof. by destruct b. Qed.
Lemma i16_i32 x : i16_ok x -> is_i32 x.
Proof. unfold i16_ok, is_i32, INT16_MIN, INT16_MAX. lia. Qed.
Lemma xid_u64 xid : xid_ok xid -> is_u64 xid.
Proof. unfold xid_ok, is_u64, UINT32_MAX. lia. Qed.
Lemma xid_u32 xid : xid_ok xid -> u32 xid = xid.
Proof. unfold xid_ok, UINT32_MAX. intros. apply u32_id. unfold is_u32. lia. Qed.
Lemma handle_is_xid_ok handle : 0 <= handle -> handle_is_xid handle = true <-> xid_ok handle.
Proof. unfold handle_is_xid, xid_ok. rewrite andb_true_iff, negb_true_iff, Z.eqb_neq, Z.leb_le. lia. Qed.
Lemma is_i16_ok x : is_i16 x = true <-> i16_ok x.
Proof. unfold is_i16, i16_ok. by rewrite andb_true_iff, !Z.leb_le. Qed.

Lemma final_text_exact c within text :
  cursor_wf c ->
  final_text c within = Some text <->
  cursor_rest c = text_tail text /\ within (zlen text) = true /\ ksd_utf8_valid text false = true /\ is_u32 (zlen text).
Proof.
  intros Hwf. unfold final_text. split.
  - destruct (ksd_cursor_u32 c) as [[n c1]|] eqn:E1; [|done]. destruct (within n) eqn:Ew; [|done].
    destruct (ksd_cursor_bytes c1 n) as [[t c2]|] eqn:E2; [|done].
    destruct (consumes_text _ _ _ _ _ Hwf E1 E2) as (Hwf2 & -> & Hu & Hr).
    destruct (ksd_cursor_finished c2 && _) eqn:Ef; [|done]. apply andb_true_iff in Ef as [Ef Hv].
    apply cursor_finished_rest in Ef; [|done]. intros [= <-]. rewrite Hr, Ef, app_nil_r. done.
  - intros (Hr & Hw & Hv & Hu). rewrite <- (app_nil_r (text_tail text)) in Hr.
    destruct (reads_text c text [] Hu Hwf Hr) as (c1 & c2 & -> & -> & Hwf2 & Hr2).
    by rewrite Hw, (finished_end _ Hwf2 Hr2), Hv.
Qed.

(** XIDs are spelled in decimal, in one way. *)
Lemma parse_xid_loop_spec l : forall p v,
  0 <= p -> (p + 1) * 10 ^ Z.of_nat (length l) <= 2 ^ 64 ->
  parse_xid_loop l p = Some v <-> forallb digit_byte l = true /\ v = dval p l.
Proof.
  induction l as [|b l IH]; intros p v Hp Hb; cbn [parse_xid_loop forallb].
  - unfold dval. cbn. split; [by intros [= <-]|]. by intros (_ & ->).
  - change (dval p (b :: l)) with (dval (p * 10 + (b2z b - 48)) l).
    cbn [length] in Hb. rewrite Nat2Z.inj_succ, Z.pow_succ_r in Hb by lia.
    replace (negb ((b2z b <? 48) || (57 <? b2z b))) with (digit_byte b)
      by (unfold digit_byte; rewrite negb_orb, !Z.ltb_antisym, !negb_involutive; done).
    destruct (digit_byte b) eqn:Ed; [|by split; [|intros (? & _)]].
    apply digit_byte_range in Ed. assert (H10 : 0 < 10 ^ Z.of_nat (length l)) by (apply Z.pow_pos_nonneg; lia).
    rewrite u64_id by (unfold is_u64; nia). apply IH; [lia|]. nia.
Qed.

Lemma parse_xid_decimal s v : parse_xid s (zlen s) = Some v <-> decimal s UINT32_MAX = Some v /\ v <> 0.
Proof.
  unfold parse_xid, decimal, KSD_X11_HANDLE_DIGITS. rewrite ztake_all by done.
  destruct ((zlen s =? 0) || (10 <? zlen s)) eqn:El; cbn [negb]; [by split; [|intros []]|].
  destruct ((1 <? zlen s) && _); cbn [negb]; [by split; [|intros []]|]. breflect.
  assert (Hl : (length s <= 10)%nat) by (unfold zlen in *; lia).
  assert (H10 : 10 ^ Z.of_nat (length s) <= 10 ^ 10) by (apply Z.pow_le_mono_r; lia).
  assert (Hloop : forall w, parse_xid_loop s 0 = Some w <-> forallb digit_byte s = true /\ w = dval 0 s)
    by (intros w; apply parse_xid_loop_spec; [done|rewrite Z.add_0_l, Z.mul_1_l; etransitivity; [exact H10|done]]).
  assert (Hdec := fun w => decimal_loop_spec s 0 w ltac:(unfold UINT32_MAX; lia)).
  destruct (parse_xid_loop s 0) as [w|] eqn:E.
  - destruct (proj1 (Hloop w) eq_refl) as [Hd ->]. pose proof (dval_ge 0 s ltac:(lia) Hd).
    destruct (decide (dval 0 s <= UINT32_MAX)) as [Hle|Hgt].
    + rewrite (proj2 (Hdec (dval 0 s)) (conj Hd (conj eq_refl Hle))). rewrite (proj2 (Z.ltb_ge _ _) Hle). rewrite orb_false_r.
      rewrite u32_id by (unfold is_u32, UINT32_MAX in *; lia). destruct (Z.eqb_spec (dval 0 s) 0); cbn [negb].
      * split; [done|]. by intros ([= <-] & ?).
      * split; [by intros [= <-]|]. by intros ([= <-] & _).
    + rewrite (proj2 (Z.ltb_lt UINT32_MAX _)), orb_true_r by lia. cbn [negb]. split; [done|].
      destruct (decimal_loop s 0) as [w|]; [|by intros []]. destruct (proj1 (Hdec w) eq_refl) as (_ & -> & ?). lia.
  - split; [done|]. destruct (decimal_loop s 0) as [w|]; [|by intros []]. destruct (proj1 (Hdec w) eq_refl) as (Hd & _ & _).
    exfalso. pose proof (proj2 (Hloop (dval 0 s)) (conj Hd eq_refl)). done.
Qed.

Lemma parse_xid_exact s v : parse_xid s (zlen s) = Some v <-> s = decimal_text v /\ xid_ok v.
Proof.
  rewrite parse_xid_decimal, decimal_iff by (unfold UINT32_MAX; lia).
  unfold xid_ok. intuition lia.
Qed.

(** Words of a payload at the offsets the workers read them. *)
Lemma payload_drop4 a k : zdrop 4 (ksd_encode_u32 a ++ k) = k.
Proof. done. Qed.
Lemma payload_drop8 a b k : zdrop 8 (ksd_encode_u32 a ++ ksd_encode_u32 b ++ k) = k.
Proof. done. Qed.
Lemma handle_drop8 h k : zdrop 8 (ksd_encode_u64 h ++ k) = k.
Proof. done. Qed.
Lemma handle_drop12 h a k : zdrop 12 (ksd_encode_u64 h ++ ksd_encode_u32 a ++ k) = k.
Proof. done. Qed.
Lemma handle_drop16 h a b k : zdrop 16 (ksd_encode_u64 h ++ ksd_encode_u32 a ++ ksd_encode_u32 b ++ k) = k.
Proof. done. Qed.
Lemma handle_drop20 h a b c k :
  zdrop 20 (ksd_encode_u64 h ++ ksd_encode_u32 a ++ ksd_encode_u32 b ++ ksd_encode_u32 c ++ k) = k.
Proof. done. Qed.

(** Decide the tests of a known opcode. *)
Ltac known_opcode :=
  unfold any_of; cbn [existsb]; known_opcodes; cbv beta iota.
(** The opcodes of the cases of a switch. *)
Ltac opcode_cases :=
  repeat match goal with
  | |- (if any_of ?o ?l then _ else _) = true -> _ =>
    let H := fresh "Hop" in destruct (any_of o l) eqn:H;
    [unfold any_of in H; cbn [existsb] in H; rewrite !orb_true_iff, !Z.eqb_eq in H|clear H]
  | |- (if fr_opcode ?r =? ?k then _ else _) = true -> _ =>
    let H := fresh "Hop" in destruct (Z.eqb_spec (fr_opcode r) k) as [H|]
  end.
(** The next read of a chain, which succeeded. *)
Ltac next_read :=
  match goal with
  | Hwf : cursor_wf ?c |- context [match ksd_cursor_u32 ?c with _ => _ end] =>
    let E := fresh "E" in let v := fresh "v" in let c' := fresh "c" in let Hr := fresh "Hr" in let Hv := fresh "Hv" in
    destruct (ksd_cursor_u32 c) as [[v c']|] eqn:E; [|done]; pose proof (cursor_u32_range _ _ _ Hwf E) as Hv;
    let W := fresh "Hwf" in destruct (consumes_u32 _ _ _ Hwf E) as [W Hr]; clear E Hwf
  | Hwf : cursor_wf ?c |- context [match ksd_cursor_u64 ?c with _ => _ end] =>
    let E := fresh "E" in let v := fresh "v" in let c' := fresh "c" in let Hr := fresh "Hr" in let Hv := fresh "Hv" in
    destruct (ksd_cursor_u64 c) as [[v c']|] eqn:E; [|done]; pose proof (cursor_u64_range _ _ _ Hwf E) as Hv;
    let W := fresh "Hwf" in destruct (consumes_u64 _ _ _ Hwf E) as [W Hr]; clear E Hwf
  | Hwf : cursor_wf ?c |- context [match ksd_cursor_i32 ?c with _ => _ end] =>
    let E := fresh "E" in let v := fresh "v" in let c' := fresh "c" in let Hr := fresh "Hr" in let Hv := fresh "Hv" in
    destruct (ksd_cursor_i32 c) as [[v c']|] eqn:E; [|done]; pose proof (cursor_i32_range _ _ _ Hwf E) as Hv;
    let W := fresh "Hwf" in destruct (consumes_i32 _ _ _ Hwf E) as [W Hr]; clear E Hwf
  | |- context [if ?b then _ else None] => destruct b eqn:?; [|done]
  end.
(** What is left when the cursor is at its end. *)
Ltac at_end :=
  match goal with
  | H : ksd_cursor_finished ?c = true, W : cursor_wf ?c |- _ =>
    apply (proj1 (cursor_finished_rest c W)) in H
  end.
Ltac payload_is :=
  repeat match goal with H : cursor_rest ?c = _ |- context [cursor_rest ?c] => rewrite H end;
  rewrite ?app_nil_r.

Section x11_requests.
Variable request : ksd_frame.
Hypothesis Hlen : fr_payload_length request = zlen (request_payload request).
Let cursor := ksd_cursor_init (request_payload request) (fr_payload_length request).

Lemma request_cursor_wf : cursor_wf cursor.
Proof. unfold cursor. rewrite Hlen. apply cursor_init_wf. Qed.
Lemma request_cursor_rest : request_payload request = cursor_rest cursor.
Proof. done. Qed.

Lemma says_payload wire : fr_opcode request = fst wire -> request_payload request = snd wire -> says request wire.
Proof. intros Ho Hp. split; [done|]. split; [done|]. by rewrite Hlen, Hp. Qed.

Lemma empty_payload : fr_payload_length request = 0 -> request_payload request = [].
Proof. rewrite Hlen. unfold zlen. destruct (request_payload request); [done|]. cbn. lia. Qed.
End x11_requests.

Ltac is_call c :=
  exists c; split; [cbn [x11_call_ok]|apply says_payload; [done|by cbn [x11_wire fst]|cbn [x11_wire snd]]].


(** The cases of opcodes that share a form. *)
Ltac each_opcode H :=
  repeat match type of H with _ \/ _ => destruct H as [H|H] end; try discriminate H.
Ltac to_bool v := rewrite <- (bool_word v) by (unfold is_u32 in *; lia).
Ltac form_facts :=
  cbn; intros; breflect; subst; repeat at_end;
  repeat match goal with
  | H : handle_is_xid ?h = true |- _ =>
    apply (proj1 (handle_is_xid_ok h ltac:(unfold is_u64 in *; lia))) in H; pose proof (xid_u32 _ H)
  | H : is_i16 ?x = true |- _ => apply (proj1 (is_i16_ok x)) in H
  end.
Ltac form_done Hp := unfold is_u32, is_u64 in *; rewrite Hp; payload_is; done.
Ltac args_done := unfold xid_ok, i16_ok, INT16_MIN, INT16_MAX, is_u32, is_u64, is_i32 in *; repeat split; lia.

(** A text whose length has just been read. *)
Ltac next_text :=
  match goal with
  | Hr : cursor_rest ?c = ksd_encode_u32 ?n ++ cursor_rest ?c1, W : cursor_wf ?c1, Hn : is_u32 ?n
    |- context [match ksd_cursor_bytes ?c1 ?n with _ => _ end] =>
    let E := fresh "E" in let t := fresh "t" in let c' := fresh "c" in
    pose proof (cursor_bytes_spec c1 n W (proj1 Hn)) as E;
    destruct (ksd_cursor_bytes c1 n) as [[t c']|]; [|done];
    let Hr1 := fresh "Hr" in let W1 := fresh "Hwf" in let Hl := fresh "Hl" in
    destruct E as (Hr1 & Hl & W1); subst n
  end.

Lemma decoration_flag v : is_u32 v -> (Z.land v (Z.lnot KSD_CAPTURE_WINDOW_INCLUDE_DECORATION) =? 0) = true -> 0 <= v <= 1.
Proof.
  intros Hv H. apply Z.eqb_eq, land_lnot_zero in H. unfold KSD_CAPTURE_WINDOW_INCLUDE_DECORATION in H.
  change 1 with (2 ^ 1 - 1) in H. rewrite <- mod_pow2_land in H by lia. pose proof (Z.mod_pos_bound v (2 ^ 1) ltac:(lia)). lia.
Qed.

Lemma x11_request_sound request :
  fr_payload_length request = zlen (request_payload request) -> ksd_x11_request_valid request = true ->
  exists call, x11_call_ok call /\ says request (x11_wire call).
Proof.
  intros Hlen. pose proof (request_cursor_wf request Hlen) as Hwf. unfold ksd_x11_request_valid.
  pose proof (request_cursor_rest request) as Hp. pose proof (empty_payload request Hlen) as Hempty. revert Hwf Hp.
  generalize (ksd_cursor_init (request_payload request) (fr_payload_length request)) as c. intros c Hwf Hp.
  opcode_cases.
  - repeat next_read. form_facts. is_call (X11WindowList (negb (v =? 0))); [done|]. to_bool v. form_done Hp.
  - intros H. breflect. specialize (Hempty H). each_opcode Hop;
      [is_call X11WindowActive|is_call X11WindowHandles|is_call X11CursorPosition|is_call X11WorkArea|is_call X11DisplayList]; done.
  - rewrite orb_true_iff, Z.eqb_eq. intros [H|H].
    + is_call (X11KeyboardStateSince None); [done|]. by apply Hempty.
    + destruct (final_text c _) as [t|] eqn:E; [|done]. apply final_text_exact in E as (Hr & Hl & Hv & Hu); [|done]. breflect.
      is_call (X11KeyboardStateSince (Some t)); [done|]. by rewrite Hp.
  - repeat next_read. form_facts. is_call (X11WindowAtPoint v v0 (negb (v1 =? 0))); [done|]. to_bool v1. form_done Hp.
  - repeat next_read. form_facts. is_call (X11MouseMoveAbsolute v v0); [done|]. form_done Hp.
  - repeat next_read. destruct (final_text c0 _) as [t|] eqn:E; [|done]. apply final_text_exact in E as (Hr' & Hl & Hv' & Hu); [|done].
    form_facts. is_call (X11WindowSetTitle v t); [done|]. form_done Hp.
  - each_opcode Hop; rewrite Hop; known_opcodes; cbv beta iota; repeat next_read; form_facts.
    + is_call (X11WindowClick v v0 v1 v2 v3); [args_done|]. form_done Hp.
    + is_call (X11WindowButton v v0 v1 v2 (negb (v3 =? 0))); [args_done|]. to_bool v3. form_done Hp.
  - repeat next_read. form_facts. is_call (X11CaptureArea v v0 v1 v2); [done|]. form_done Hp.
  - do 2 next_read. destruct (Z.land v _ =? 0) eqn:Ef; [|done]. next_text. next_read.
    destruct (parse_xid _ _) as [xid|] eqn:Ex; [|done]. apply parse_xid_exact in Ex as [-> Hx]. intros _. at_end.
    is_call (X11CaptureWindow xid (negb (v =? 0))); [done|]. apply decoration_flag in Ef; [|done]. to_bool v. form_done Hp.
  - intros H. breflect. specialize (Hempty H). each_opcode Hop; [is_call X11ClipboardMimetypes|is_call X11ClipboardText]; done.
  - repeat next_read. form_facts. each_opcode Hop;
      [is_call (X11WindowFocus v)|is_call (X11WindowRaise v true)|is_call (X11WindowRaise v false)|is_call (X11WindowClose v)
      |is_call (X11WindowKill v)|is_call (X11WindowQuery v)|is_call (X11WindowChildren v)|is_call (X11WindowFocusChild v)
      |is_call (X11WindowRedraw v)]; first [done|form_done Hp].
  - repeat next_read. form_facts. is_call (X11WindowMoveResize v v0 v1 v2 v3); [args_done|]. form_done Hp.
  - repeat next_read. each_opcode Hop; rewrite Hop; known_opcodes; form_facts.
    + is_call (X11WindowSetState v v0); [args_done|]. form_done Hp.
    + is_call (X11WindowSetOpacity v v0); [args_done|]. form_done Hp.
    + is_call (X11WindowSetAbove v (negb (v0 =? 0))); [args_done|]. to_bool v0. form_done Hp.
    + is_call (X11WindowSetDecorated v (negb (v0 =? 0))); [args_done|]. to_bool v0. form_done Hp.
    + is_call (X11WindowSetVisible v (negb (v0 =? 0))); [args_done|]. to_bool v0. form_done Hp.
  - destruct (final_text c _) as [t|] eqn:E; [|done]. apply final_text_exact in E as (Hr & Hl & Hv & Hu); [|done].
    intros _. breflect. is_call (X11ClipboardContent t); [|by rewrite Hp].
    pose proof (zlen_nonneg t). split; [lia|done].
  - done.
Qed.

(** A read of what is written next. *)
Ltac give_read :=
  match goal with
  | W : cursor_wf ?c, Hr : cursor_rest ?c = ksd_encode_u32 ?v ++ ?k |- context [ksd_cursor_u32 ?c] =>
    let c' := fresh "c" in let E := fresh "E" in let W' := fresh "W" in let R := fresh "R" in
    destruct (reads_u32 v ltac:(first [assumption|apply bool_u32|done|unfold is_u32, i16_ok, INT16_MAX in *; lia]) c k W Hr)
      as (c' & E & W' & R); rewrite E; clear E W Hr; cbv beta iota
  | W : cursor_wf ?c, Hr : cursor_rest ?c = ksd_encode_u64 ?v ++ ?k |- context [ksd_cursor_u64 ?c] =>
    let c' := fresh "c" in let E := fresh "E" in let W' := fresh "W" in let R := fresh "R" in
    destruct (reads_u64 v ltac:(first [assumption|by apply xid_u64]) c k W Hr) as (c' & E & W' & R);
    rewrite E; clear E W Hr; cbv beta iota
  | W : cursor_wf ?c, Hr : cursor_rest ?c = encode_i32 ?v ++ ?k |- context [ksd_cursor_i32 ?c] =>
    let c' := fresh "c" in let E := fresh "E" in let W' := fresh "W" in let R := fresh "R" in
    destruct (reads_i32 v ltac:(first [assumption|by apply i16_i32]) c k W Hr) as (c' & E & W' & R);
    rewrite E; clear E W Hr; cbv beta iota
  | W : cursor_wf ?c, Hr : cursor_rest ?c = [] |- context [ksd_cursor_finished ?c] => rewrite (finished_end c W Hr)
  | H : xid_ok ?x |- context [handle_is_xid ?x] => rewrite (proj2 (handle_is_xid_ok x ltac:(unfold xid_ok in H; lia)) H)
  | H : i16_ok ?x |- context [is_i16 ?x] => rewrite (proj2 (is_i16_ok x) H)
  end; cbn [andb orb negb].

Lemma bool_word_le b : (Z.b2z b <=? 1) = true.
Proof. by destruct b. Qed.
Lemma bool_word_flag b : negb (Z.b2z b =? 0) = b.
Proof. by destruct b. Qed.

Ltac known_word := cbn [holds default from_option Datatypes.id]; rewrite ?bool_word_le; try done;
  rewrite ?andb_true_iff, ?negb_true_iff, ?Z.leb_le, ?Z.eqb_neq; unfold INT16_MAX in *; lia.

Lemma x11_request_valid_complete request call :
  x11_call_ok call -> says request (x11_wire call) -> ksd_x11_request_valid request = true.
Proof.
  intros Hok (Hop & Hpay & Hl). unfold ksd_x11_request_valid. rewrite Hl, Hpay. clear Hl Hpay.
  pose proof (cursor_init_wf (snd (x11_wire call))) as W. pose proof (cursor_init_rest (snd (x11_wire call)) (zlen (snd (x11_wire call)))) as R.
  revert W R. generalize (ksd_cursor_init (snd (x11_wire call)) (zlen (snd (x11_wire call)))) as c. intros c W R.
  rewrite <- (app_nil_r (snd (x11_wire call))) in R.
  destruct call;
    lazymatch goal with r : option (list byte) |- _ => destruct r | _ => idtac end;
    cbn [x11_wire fst snd x11_call_ok] in Hop, Hok, R |- *;
    lazymatch type of Hop with _ = (if ?b then _ else _) => destruct b | _ => idtac end; rewrite Hop; unfold encode_xid, encode_bool in *;
    rewrite <- ?app_assoc in R; destruct_and?; known_opcode.
  all: try (repeat give_read; known_word); repeat give_read.
  - rewrite app_nil_r in R. destruct Hok as [Hl Hv]. rewrite (proj2 (final_text_exact c _ l W)); [by rewrite orb_true_r|].
    split; [done|]. split; [lia|]. split; [done|]. eapply small_u32; [split; [apply zlen_nonneg|exact Hl]|done].
  - rewrite app_nil_r in R0. match goal with H : utf8_within _ _ |- _ => destruct H as [Hl Hv] end.
    rewrite (proj2 (final_text_exact _ _ title W0)); [done|].
    split; [done|]. split; [lia|]. split; [done|]. eapply small_u32; [split; [apply zlen_nonneg|exact Hl]|done].
  - rewrite !(proj2 (Z.leb_le _ _)) by lia. done.
  - rewrite !(proj2 (Z.leb_le _ _)) by (lia || by destruct down). done.
  - destruct (decimal_text_canonical xid) as (_ & _ & Hn); [unfold xid_ok in Hok; lia|].
    destruct (reads_text c0 (decimal_text xid) [] ltac:(unfold is_u32, zlen; lia) W0 R0) as (c1 & c2 & -> & -> & W2 & R2).
    rewrite (finished_end _ W2 R2), (proj2 (parse_xid_exact _ xid) (conj eq_refl Hok)). by destruct include_decoration.
  - rewrite app_nil_r in R. match goal with H : utf8_within _ _ |- _ => destruct H as [Hl Hv] end. rewrite (proj2 (final_text_exact c _ mimetype W)); [done|].
    split; [done|]. split; [rewrite andb_true_iff, negb_true_iff, Z.eqb_neq, Z.leb_le; lia|]. split; [done|].
    eapply small_u32; [split; [apply zlen_nonneg|exact Hl]|done].
Qed.

(** What a read that is not tested again gives. *)
Lemma cursor_or_reads {A} (p : ksd_cursor -> option (A * ksd_cursor)) bs a d c k :
  reads p bs a -> cursor_wf c -> cursor_rest c = bs ++ k ->
  exists c', cursor_or p d c = (a, c') /\ cursor_wf c' /\ cursor_rest c' = k.
Proof. intros Hp W R. destruct (Hp c k W R) as (c' & E & ?). exists c'. unfold cursor_or. rewrite E. done. Qed.
Lemma cursor_or_u32 v d c k : is_u32 v -> cursor_wf c -> cursor_rest c = ksd_encode_u32 v ++ k ->
  exists c', cursor_or ksd_cursor_u32 d c = (v, c') /\ cursor_wf c' /\ cursor_rest c' = k.
Proof. intros H. by apply cursor_or_reads, reads_u32. Qed.
Lemma cursor_or_u64 v d c k : is_u64 v -> cursor_wf c -> cursor_rest c = ksd_encode_u64 v ++ k ->
  exists c', cursor_or ksd_cursor_u64 d c = (v, c') /\ cursor_wf c' /\ cursor_rest c' = k.
Proof. intros H. by apply cursor_or_reads, reads_u64. Qed.
Lemma cursor_or_i32 v d c k : is_i32 v -> cursor_wf c -> cursor_rest c = encode_i32 v ++ k ->
  exists c', cursor_or ksd_cursor_i32 d c = (v, c') /\ cursor_wf c' /\ cursor_rest c' = k.
Proof. intros H. by apply cursor_or_reads, reads_i32. Qed.
Lemma cursor_or_text d c text : cursor_wf c -> cursor_rest c = text ->
  exists c', cursor_or (fun c => ksd_cursor_bytes c (zlen text)) d c = (text, c').
Proof.
  intros W R. rewrite <- (app_nil_r text) in R. destruct (cursor_bytes_app c text [] W R) as (c' & E & _).
  exists c'. unfold cursor_or. by rewrite E.
Qed.

(** The next untested read. *)
Ltac give_or :=
  match goal with
  | W : cursor_wf ?c, Hr : cursor_rest ?c = ksd_encode_u32 ?v ++ ?k |- context [cursor_or ksd_cursor_u32 ?d ?c] =>
    let c' := fresh "c" in let E := fresh "E" in let W' := fresh "W" in let R := fresh "R" in
    destruct (cursor_or_u32 v d c k ltac:(first [assumption|apply bool_u32|done|unfold is_u32, i16_ok, INT16_MAX in *; lia]) W Hr)
      as (c' & E & W' & R); rewrite E; clear E W Hr; cbv beta iota
  | W : cursor_wf ?c, Hr : cursor_rest ?c = ksd_encode_u64 ?v ++ ?k |- context [cursor_or ksd_cursor_u64 ?d ?c] =>
    let c' := fresh "c" in let E := fresh "E" in let W' := fresh "W" in let R := fresh "R" in
    destruct (cursor_or_u64 v d c k ltac:(first [assumption|by apply xid_u64]) W Hr) as (c' & E & W' & R);
    rewrite E; clear E W Hr; cbv beta iota
  | W : cursor_wf ?c, Hr : cursor_rest ?c = encode_i32 ?v ++ ?k |- context [cursor_or ksd_cursor_i32 ?d ?c] =>
    let c' := fresh "c" in let E := fresh "E" in let W' := fresh "W" in let R := fresh "R" in
    destruct (cursor_or_i32 v d c k ltac:(first [assumption|by apply i16_i32]) W Hr) as (c' & E & W' & R);
    rewrite E; clear E W Hr; cbv beta iota
  | W : cursor_wf ?c, Hr : cursor_rest ?c = ?t |- context [cursor_or (fun r => ksd_cursor_bytes r (zlen ?t)) ?d ?c] =>
    let c' := fresh "c" in let E := fresh "E" in
    destruct (cursor_or_text d c t W Hr) as (c' & E); rewrite E; clear E W Hr; cbv beta iota
  end.

Lemma decode_u32_app v k : is_u32 v -> ksd_decode_u32 (ksd_encode_u32 v ++ k) = v.
Proof. intros H. rewrite decode_encode_u32. by apply u32_id. Qed.
Lemma decode_u32_end v : is_u32 v -> ksd_decode_u32 (ksd_encode_u32 v) = v.
Proof. intros H. by rewrite <- (app_nil_r (ksd_encode_u32 v)), decode_u32_app. Qed.
Lemma decode_i32_app v k : is_i32 v -> i32 (ksd_decode_u32 (ksd_encode_u32 (u32 v) ++ k)) = v.
Proof. intros H. rewrite decode_u32_app by apply (Z.mod_pos_bound v (2 ^ 32) ltac:(lia)). by apply i32_u32. Qed.
Lemma decode_i32_end v : is_i32 v -> i32 (ksd_decode_u32 (ksd_encode_u32 (u32 v))) = v.
Proof. intros H. by rewrite <- (app_nil_r (ksd_encode_u32 (u32 v))), decode_i32_app. Qed.
Lemma decode_xid_app xid k : xid_ok xid -> u32 (ksd_decode_u64 (ksd_encode_u64 xid ++ k)) = xid.
Proof. intros H. rewrite decode_encode_u64, u64_id by by apply xid_u64. by apply xid_u32. Qed.

Lemma decode_xid_end xid : xid_ok xid -> u32 (ksd_decode_u64 (ksd_encode_u64 xid)) = xid.
Proof. intros H. by rewrite <- (app_nil_r (ksd_encode_u64 xid)), decode_xid_app. Qed.
(** A text after a part of known length. *)
Lemma text_word text : is_u32 (zlen text) -> ztake (ksd_decode_u32 (text_tail text)) (zdrop 4 (text_tail text)) = text.
Proof. intros H. unfold text_tail. rewrite payload_drop4, decode_u32_app by done. by apply ztake_all. Qed.
Lemma text_nonempty text : (zlen (text_tail text) =? 0) = false.
Proof. apply Z.eqb_neq. unfold text_tail. rewrite zlen_app, zlen_encode_u32. pose proof (zlen_nonneg text). lia. Qed.
Lemma within_u32 text limit : limit < 2 ^ 32 -> utf8_within text limit -> is_u32 (zlen text).
Proof. intros H [Hl _]. eapply small_u32; [split; [apply zlen_nonneg|exact Hl]|done]. Qed.

Ltac word_bound := first [assumption|apply bool_u32|done|by apply i16_i32|unfold is_u32, i16_ok, INT16_MAX in *; lia].

Lemma x11_dispatch_complete request call :
  x11_call_ok call -> says request (x11_wire call) -> x11_dispatch request = Some call.
Proof.
  intros Hok (Hop & Hpay & Hl). unfold x11_dispatch, request_word. rewrite Hl, Hpay. clear Hl Hpay.
  pose proof (cursor_init_wf (snd (x11_wire call))) as W. pose proof (cursor_init_rest (snd (x11_wire call)) (zlen (snd (x11_wire call)))) as R.
  rewrite <- (app_nil_r (snd (x11_wire call))) in R at 3.
  revert W R. generalize (ksd_cursor_init (snd (x11_wire call)) (zlen (snd (x11_wire call)))) as c. intros c W R.
  destruct call;
    lazymatch goal with r : option (list byte) |- _ => destruct r | _ => idtac end;
    cbn [x11_wire fst snd x11_call_ok] in Hop, Hok, R |- *;
    lazymatch type of Hop with _ = (if ?b then _ else _) => destruct b | _ => idtac end; rewrite Hop; unfold encode_xid, encode_bool in *;
    rewrite <- ?app_assoc in R; destruct_and?; known_opcode.
  all: repeat give_or; unfold encode_i32;
    rewrite ?handle_drop8, ?handle_drop12, ?handle_drop16, ?handle_drop20, ?payload_drop4, ?payload_drop8, ?zdrop_0;
    rewrite ?decode_xid_app, ?decode_xid_end by assumption; rewrite ?decode_i32_app, ?decode_i32_end by word_bound;
    rewrite ?decode_u32_app, ?decode_u32_end by word_bound; rewrite ?bool_word_flag, ?xid_u32 by assumption; try done.
  - by rewrite text_nonempty, text_word by by eapply within_u32, Hok.
  - assert (Hu : is_u32 (zlen title)) by (by eapply within_u32; [|eassumption]). unfold text_tail. rewrite handle_drop12.
    by rewrite decode_u32_app, ztake_all.
  - destruct (decimal_text_canonical xid) as (_ & _ & Hn); [unfold xid_ok in Hok; lia|].
    assert (Hu : is_u32 (zlen (decimal_text xid))) by (unfold is_u32, zlen; lia). unfold text_tail in *. rewrite app_nil_r in *.
    repeat give_or. rewrite (proj2 (parse_xid_exact _ xid) (conj eq_refl Hok)). by destruct include_decoration.
  - unfold text_tail in R. rewrite app_nil_r in R. assert (Hu : is_u32 (zlen mimetype)) by (by eapply within_u32; [|eassumption]).
    by repeat give_or.
Qed.

(** *** Serving a request *)

Section x11_execute.
Context {X : Type} (run : x11_call -> X -> ksd_operation_result -> X * ksd_operation_result * list Z)
  (connection_failed : X -> bool).

(** The connection and the result afterwards, the descriptors closed, and whether
    the connection is still there. *)
Definition ksd_x11_execute_on (connection : option X) (request : ksd_frame) (result : ksd_operation_result)
    : bool * option X * ksd_operation_result * list Z :=
  let invalid := ksd_result_error result KSD_STATUS_INVALID_REQUEST 0 (Some (cstr "invalid X11 request")) in
  match connection with
  | Some connection =>
    if negb (ksd_x11_request_valid request) then (true, Some connection, fst invalid, snd invalid)
    else
      let '(connection, result, closed) :=
        match x11_dispatch request with
        | Some call => run call connection result
        | None => (connection, fst invalid, snd invalid)
        end in
      (negb (connection_failed connection), Some connection, result, closed)
  | None => (true, None, fst invalid, snd invalid)
  end.

Lemma x11_execute_refused connection request result :
  ksd_x11_request_valid request = false ->
  ksd_x11_execute_on connection request result
  = (true, connection, fst (ksd_result_error result KSD_STATUS_INVALID_REQUEST 0 (Some (cstr "invalid X11 request"))),
     snd (ksd_result_error result KSD_STATUS_INVALID_REQUEST 0 (Some (cstr "invalid X11 request")))).
Proof. intros H. unfold ksd_x11_execute_on. rewrite H. by destruct connection. Qed.

Lemma x11_execute_call connection request call result :
  x11_call_ok call -> says request (x11_wire call) ->
  ksd_x11_execute_on (Some connection) request result
  = (let '(connection, result, closed) := run call connection result in
     (negb (connection_failed connection), Some connection, result, closed)).
Proof.
  intros Hok Hs. unfold ksd_x11_execute_on.
  by rewrite (x11_request_valid_complete _ _ Hok Hs), (x11_dispatch_complete _ _ Hok Hs).
Qed.
End x11_execute.

(** The requests of the X11 worker.  A request is accepted exactly when it is
    the wire form of a call whose arguments are in range: windows that are X
    windows (32 bits, not 0, in decimal spelled one way), coordinates of the
    protocol's 16 bits, UTF-8 text within its limit, flags that are 0 or 1 and
    nothing left over.  It is the wire form of one call only, and serving it makes
    that call and reports whether the connection survived it; anything else is
    answered with an error, without touching the display. *)
Theorem x11_requests_exact {X} (run : x11_call -> X -> ksd_operation_result -> X * ksd_operation_result * list Z) failed
    (display : X) request result :
  fr_payload_length request = zlen (request_payload request) ->
  (ksd_x11_request_valid request = true <-> exists call, x11_call_ok call /\ says request (x11_wire call)) /\
  (forall call, x11_call_ok call -> says request (x11_wire call) ->
    (forall call', x11_call_ok call' -> says request (x11_wire call') -> call' = call) /\
    ksd_x11_execute_on run failed (Some display) request result
    = (let '(display, result, closed) := run call display result in (negb (failed display), Some display, result, closed))) /\
  ((forall call, x11_call_ok call -> ~ says request (x11_wire call)) ->
    exists closed, ksd_x11_execute_on run failed (Some display) request result
    = (true, Some display, fst (ksd_result_error result KSD_STATUS_INVALID_REQUEST 0 (Some (cstr "invalid X11 request"))), closed)).
Proof.
  intros Hlen. split; [split; [by apply x11_request_sound|intros (call & ? & ?); by eapply x11_request_valid_complete]|]. split.
  - intros call Hok Hs. split; [|by apply x11_execute_call]. intros call' Hok' Hs'.
    pose proof (x11_dispatch_complete _ _ Hok Hs) as H. rewrite (x11_dispatch_complete _ _ Hok' Hs') in H. by injection H.
  - intros Hno. eexists. apply x11_execute_refused. destruct (ksd_x11_request_valid request) eqn:E; [|done].
    destruct (x11_request_sound request Hlen E) as (call & Hok & Hs). by destruct (Hno call Hok).
Qed.

(** ** X display names *)

Definition KSD_X11_MAX_DISPLAY : Z := 255.
Definition KSD_X11_MAX_SCREEN : Z := 255.
Definition KSD_X11_DISPLAY_CAPACITY : Z := 16.

(** The character under a cursor into a C string. *)
Definition peek (cursor : list byte) : Z := match cursor with [] => 0 | b :: _ => b2z b end.

Fixpoint read_digits (scan : list byte) (parsed : Z) (digits : nat) : option (Z * nat * list byte) :=
  match scan with
  | b :: rest =>
    if (48 <=? b2z b) && (b2z b <=? 57) then
      guard* negb (digits =? 5)%nat in
      read_digits rest (u32 (parsed * 10 + (b2z b - 48))) (digits + 1)
    else Some (parsed, digits, scan)
  | [] => Some (parsed, digits, scan)
  end.

Definition read_number (cursor : list byte) (limit : Z) : option (Z * list byte) :=
  let* (parsed, digits, scan) := read_digits cursor 0 0 in
  guard* negb ((digits =? 0)%nat || (limit <? parsed)) in
  Some (parsed, scan).

(** [None] is NULL. *)
Definition ksd_x11_display_parse (value : option (list byte)) (capacity : Z) : option (list byte) :=
  let* value := value in
  guard* negb ((capacity <? KSD_X11_DISPLAY_CAPACITY) || negb (peek value =? 58)) in
  let cursor := zdrop 1 value in
  let* (display, cursor) := read_number cursor KSD_X11_MAX_DISPLAY in
  let* (screen, cursor) :=
    (if peek cursor =? 46 then
       let* (screen, cursor) := read_number (zdrop 1 cursor) KSD_X11_MAX_SCREEN in Some (Some screen, cursor)
     else Some (None, cursor)) in
  guard* peek cursor =? 0 in
  let canonical := cstr ":" ++ decimal_text display
    ++ match screen with Some screen => cstr "." ++ decimal_text screen | None => [] end in
  guard* (0 <? zlen canonical) && (zlen canonical <? capacity) in
  Some canonical.

(** What the session's environment has to say about the display: DISPLAY and
    XAUTHORITY out of one read, with the size of the first for both, and the
    display opened. *)
Definition ksd_x11_open_for_session {X} (open : list byte -> option (list byte) -> Z * option X)
    (session_pid : Z) (file : option (list byte)) (calls : list plain_outcome) : Z * option X :=
  match ksd_session_environ_values session_pid file calls [cstr "DISPLAY"; cstr "XAUTHORITY"] 256 with
  | Some [display; authority] =>
    if bytes_eqb display [] then (KSD_STATUS_UNAVAILABLE, None)
    else
      match ksd_x11_display_parse (Some display) KSD_X11_DISPLAY_CAPACITY with
      | Some canonical => open canonical (if peek authority =? 47 then Some authority else None)
      | None => (KSD_STATUS_UNAVAILABLE, None)
      end
  | _ => (KSD_STATUS_UNAVAILABLE, None)
  end.

(** *** Names *)

(** One to five digits of a number within a limit. *)
Definition digits_of (digits : list byte) (limit n : Z) : Prop :=
  forallb digit_byte digits = true /\ 1 <= zlen digits <= 5 /\ n = dval 0 digits /\ n <= limit.
(** [":display"] and [":display.screen"]. *)
Definition display_name (value : list byte) (display : Z) (screen : option Z) : Prop :=
  exists digits, digits_of digits KSD_X11_MAX_DISPLAY display /\
  match screen with
  | None => value = cstr ":" ++ digits
  | Some screen => exists digits', digits_of digits' KSD_X11_MAX_SCREEN screen /\ value = cstr ":" ++ digits ++ cstr "." ++ digits'
  end.
Definition canonical_display (display : Z) (screen : option Z) : list byte :=
  cstr ":" ++ decimal_text display ++ match screen with Some screen => cstr "." ++ decimal_text screen | None => [] end.

Lemma read_digits_spec scan : forall p n,
  0 <= p -> (n <= 5)%nat -> (p + 1) * 10 ^ Z.of_nat (5 - n) <= 2 ^ 32 ->
  match read_digits scan p n with
  | Some (q, m, rest) =>
    exists ds, scan = ds ++ rest /\ forallb digit_byte ds = true /\ q = dval p ds /\ m = (n + length ds)%nat /\ (m <= 5)%nat /\
      match rest with [] => True | b :: _ => digit_byte b = false end
  | None => exists ds rest, scan = ds ++ rest /\ forallb digit_byte ds = true /\ (5 < n + length ds)%nat
  end.
Proof.
  induction scan as [|b scan IH]; intros p n Hp Hn Hb; cbn [read_digits].
  - exists []. rewrite Nat.add_0_r. repeat split; (done || lia).
  - change ((48 <=? b2z b) && (b2z b <=? 57)) with (digit_byte b). destruct (digit_byte b) eqn:Ed.
    + destruct (Nat.eqb_spec n 5) as [->|Hne]; cbn [negb].
      * exists [b], scan. repeat split; [by cbn; rewrite Ed|cbn; lia].
      * apply digit_byte_range in Ed as Hd. set (p' := p * 10 + (b2z b - 48)).
        assert (Hp' : 0 <= p' /\ (p' + 1) * 10 ^ Z.of_nat (5 - (n + 1)) <= 2 ^ 32).
        { replace (5 - n)%nat with (S (5 - (n + 1))) in Hb by lia. rewrite Nat2Z.inj_succ, Z.pow_succ_r in Hb by lia.
          assert (0 < 10 ^ Z.of_nat (5 - (n + 1))) by (apply Z.pow_pos_nonneg; lia). unfold p'. nia. }
        rewrite u32_id by (unfold is_u32; assert (0 < 10 ^ Z.of_nat (5 - (n + 1))) by (apply Z.pow_pos_nonneg; lia); nia).
        specialize (IH p' (n + 1)%nat (proj1 Hp') ltac:(lia) (proj2 Hp')). destruct (read_digits scan p' (n + 1)) as [[[q m] rest]|].
        -- destruct IH as (ds & -> & Hds & -> & -> & Hm & Hr). exists (b :: ds). cbn. rewrite Ed, Hds. repeat split; (done || lia).
        -- destruct IH as (ds & rest & -> & Hds & Hm). exists (b :: ds), rest. cbn. rewrite Ed, Hds. repeat split; lia.
    + exists []. rewrite Nat.add_0_r. repeat split; (done || lia).
Qed.

Lemma digit_split ds rest ds' rest' :
  ds ++ rest = ds' ++ rest' -> forallb digit_byte ds = true -> forallb digit_byte ds' = true ->
  match rest with [] => True | b :: _ => digit_byte b = false end ->
  match rest' with [] => True | b :: _ => digit_byte b = false end -> ds = ds' /\ rest = rest'.
Proof.
  revert ds'. induction ds as [|a ds IH]; intros [|a' ds'] H Hd Hd' Hr Hr'; cbn in *.
  - done.
  - subst rest. apply andb_true_iff in Hd' as [Hd' _]. congruence.
  - subst rest'. apply andb_true_iff in Hd as [Hd _]. congruence.
  - injection H as <- H. apply andb_true_iff in Hd as [_ Hd]. apply andb_true_iff in Hd' as [_ Hd'].
    destruct (IH _ H Hd Hd' Hr Hr') as [-> ->]. done.
Qed.

(** What follows a number read is not a digit. *)
Lemma read_number_exact cursor limit n rest :
  read_number cursor limit = Some (n, rest) <->
  exists ds, cursor = ds ++ rest /\ digits_of ds limit n /\ match rest with [] => True | b :: _ => digit_byte b = false end.
Proof.
  unfold read_number, digits_of. pose proof (read_digits_spec cursor 0 0 ltac:(lia) ltac:(lia) ltac:(by vm_compute)) as H.
  destruct (read_digits cursor 0 0) as [[[q m] r]|].
  - destruct H as (ds & -> & Hds & -> & -> & Hm & Hr). split.
    + destruct (_ || _) eqn:E; cbn [negb]; [done|]. intros [= <- <-]. apply orb_false_iff in E as [E1 E2].
      apply Nat.eqb_neq in E1. apply Z.ltb_ge in E2. exists ds. split; [done|]. split; [|done]. unfold zlen. repeat split; (done || lia).
    + intros (ds' & E & (Hds' & Hl & -> & Hle) & Hr'). destruct (digit_split _ _ _ _ E Hds Hds' Hr Hr') as [<- <-].
      rewrite (proj2 (Nat.eqb_neq _ _)), (proj2 (Z.ltb_ge _ _)) by (unfold zlen in Hl; lia). done.
  - destruct H as (ds & r & -> & Hds & Hm). split; [done|]. intros (ds' & E & (Hds' & Hl & _) & Hr'). exfalso.
    assert (length ds <= length ds')%nat; [|unfold zlen in Hl; lia].
    clear Hl Hm. revert ds' E Hds'. induction ds as [|a ds IH]; intros [|a' ds'] E Hds'; cbn in *; try lia.
    + subst rest. apply andb_true_iff in Hds as [Ha _]. congruence.
    + injection E as <- E. apply andb_true_iff in Hds as [_ Hds]. apply andb_true_iff in Hds' as [_ Hds'].
      specialize (IH Hds ds' E Hds'). lia.
Qed.

Lemma decimal_byte n : 0 <= n <= 255 -> digits_of (decimal_text n) 255 n /\ 1 <= zlen (decimal_text n) <= 3.
Proof.
  intros Hn. assert (H : forallb (fun k => let n := Z.of_nat k in
      forallb digit_byte (decimal_text n) && (1 <=? zlen (decimal_text n)) && (zlen (decimal_text n) <=? 3)
      && (dval 0 (decimal_text n) =? n)) (seq 0 256) = true) by (vm_compute; reflexivity).
  rewrite forallb_forall in H. specialize (H (Z.to_nat n)). rewrite in_seq in H. specialize (H ltac:(lia)).
  cbv zeta in H. rewrite Z2Nat.id in H by lia. rewrite !andb_true_iff, !Z.leb_le, Z.eqb_eq in H. destruct H as (((? & ?) & ?) & ?).
  unfold digits_of. repeat split; (done || lia).
Qed.

Lemma digits_of_range ds limit n : digits_of ds limit n -> 0 <= n <= limit.
Proof. intros (H & _ & -> & ?). pose proof (dval_ge 0 ds ltac:(lia) H). lia. Qed.

Lemma display_parse_exact v c :
  nul_free v ->
  ksd_x11_display_parse (Some v) KSD_X11_DISPLAY_CAPACITY = Some c <->
  exists d s, display_name v d s /\ c = canonical_display d s.
Proof.
  intros Hnul. unfold ksd_x11_display_parse. change (KSD_X11_DISPLAY_CAPACITY <? KSD_X11_DISPLAY_CAPACITY) with false. cbn [orb].
  assert (Hend : forall k, nul_free k -> peek k = 0 -> k = []).
  { intros [|b k] Hk; [done|]. apply Forall_cons_1 in Hk as [Hb _]. by intros H. }
  assert (Hcap : forall d s, 0 <= d <= 255 -> match s with Some s => 0 <= s <= 255 | None => True end ->
    (0 <? zlen (canonical_display d s)) && (zlen (canonical_display d s) <? KSD_X11_DISPLAY_CAPACITY) = true).
  { intros d s Hd Hs. unfold canonical_display. pose proof (proj2 (decimal_byte d Hd)).
    destruct s as [s|]; [pose proof (proj2 (decimal_byte s Hs))|]; rewrite !zlen_app; change (zlen (cstr ":")) with 1;
      change (zlen (cstr ".")) with 1; change (zlen (@nil byte)) with 0;
      rewrite andb_true_iff, !Z.ltb_lt; unfold KSD_X11_DISPLAY_CAPACITY; lia. }
  split.
  - destruct (negb _) eqn:Ec in |- *; [|done]. breflect. destruct v as [|b v]; [done|]. cbn [peek] in Ec.
    assert (b = z2b 58) as -> by (rewrite <- (z2b_b2z b); by f_equal). change (zdrop 1 (z2b 58 :: v)) with v.
    apply Forall_cons_1 in Hnul as [_ Hnul].
    destruct (read_number v _) as [[d r]|] eqn:E1; [|done]. apply read_number_exact in E1 as (ds & -> & Hd & Hr).
    apply Forall_app in Hnul as [_ Hnul]. destruct (peek r =? 46) eqn:Edot.
    + destruct r as [|b r]; [done|]. apply Z.eqb_eq in Edot. cbn [peek] in Edot.
      assert (b = z2b 46) as -> by (rewrite <- (z2b_b2z b); by f_equal). change (zdrop 1 (z2b 46 :: r)) with r.
      apply Forall_cons_1 in Hnul as [_ Hnul].
      destruct (read_number r _) as [[s r']|] eqn:E2; [|done]. apply read_number_exact in E2 as (ss & -> & Hs & Hr').
      apply Forall_app in Hnul as [_ Hnul]. destruct (Z.eqb_spec (peek r') 0) as [E|]; [|done]. apply Hend in E as ->; [|done].
      destruct (_ && _); [|done]. intros [= <-]. exists d, (Some s). split; [|done]. exists ds. split; [done|].
      exists ss. split; [done|]. by rewrite app_nil_r.
    + destruct (Z.eqb_spec (peek r) 0) as [E|]; [|done]. apply Hend in E as ->; [|done].
      destruct (_ && _); [|done]. intros [= <-]. exists d, None. split; [|done]. exists ds. split; [done|]. by rewrite app_nil_r.
  - intros (d & s & (ds & Hd & Hv) & ->). pose proof (digits_of_range _ _ _ Hd) as Hdr.
    destruct s as [s|].
    + destruct Hv as (ss & Hs & ->). pose proof (digits_of_range _ _ _ Hs) as Hsr.
      change (negb (false || negb (peek (cstr ":" ++ ds ++ cstr "." ++ ss) =? 58))) with true.
      change (zdrop 1 (cstr ":" ++ ds ++ cstr "." ++ ss)) with (ds ++ cstr "." ++ ss).
      rewrite (proj2 (read_number_exact _ _ d (cstr "." ++ ss))) by (by exists ds).
      change (peek (cstr "." ++ ss) =? 46) with true. change (zdrop 1 (cstr "." ++ ss)) with ss.
      rewrite (proj2 (read_number_exact _ _ s [])) by (exists ss; by rewrite app_nil_r). cbn [peek].
      pose proof (Hcap d (Some s) Hdr Hsr) as H. unfold canonical_display in H. change (0 =? 0) with true. cbv iota. by rewrite H.
    + subst v. change (negb (negb (peek (cstr ":" ++ ds) =? 58))) with true. change (zdrop 1 (cstr ":" ++ ds)) with ds.
      rewrite (proj2 (read_number_exact _ _ d [])) by (exists ds; by rewrite app_nil_r). cbn [peek].
      pose proof (Hcap d None Hdr I) as H. unfold canonical_display in H. change (0 =? 46) with false. change (0 =? 0) with true.
      cbv iota. by rewrite H.
Qed.

Lemma canonical_is_display d s : 
  0 <= d <= 255 -> match s with Some s => 0 <= s <= 255 | None => True end -> display_name (canonical_display d s) d s.
Proof.
  intros Hd Hs. exists (decimal_text d). split; [by apply decimal_byte|]. unfold canonical_display.
  destruct s as [s|]; [|by rewrite app_nil_r]. exists (decimal_text s). split; [by apply decimal_byte|done].
Qed.

(** The value an environment leaves a variable with: the last assignment that is
    neither empty nor too long. *)
Definition last_value (name : list byte) (capacity : Z) (entries : list (list byte)) : list byte :=
  fold_left (fun value entry =>
    if entry_names name entry && negb (zlen (entry_rest name entry) =? 0) && (zlen (entry_rest name entry) <? capacity)
    then entry_rest name entry else value) entries [].

Lemma last_value_nul_free name capacity es : Forall nul_free es -> nul_free (last_value name capacity es).
Proof.
  intros Hes. unfold last_value. assert (H : nul_free []) by constructor. revert H. generalize (@nil byte) as v.
  induction Hes as [|e es He _ IH]; intros v Hv; [done|]. cbn [fold_left]. apply IH. destruct (entry_names name e && _ && _); [|done].
  unfold entry_rest, zdrop. by apply Forall_drop.
Qed.

Lemma display_entry_not_authority e :
  entry_names (cstr "DISPLAY") e = true -> entry_names (cstr "XAUTHORITY") e = false.
Proof.
  intros H. destruct (entry_names (cstr "XAUTHORITY") e) eqn:E; [|done]. exfalso. unfold entry_names, bytes_eqb in *.
  rewrite !andb_true_iff, bool_decide_eq_true in H, E. destruct H as [_ H], E as [_ E].
  destruct e as [|b e]; [done|]. change (ztake (zlen (cstr "DISPLAY")) (b :: e)) with (b :: take 6 e) in H.
  change (ztake (zlen (cstr "XAUTHORITY")) (b :: e)) with (b :: take 9 e) in E. injection H as Hb _. injection E as Eb _. congruence.
Qed.

Lemma environ_store_pair capacity es : forall d a,
  fold_left (fun v e => environ_store e capacity [cstr "DISPLAY"; cstr "XAUTHORITY"] v) es [d; a] =
  [fold_left (fun v e => if entry_names (cstr "DISPLAY") e && negb (zlen (entry_rest (cstr "DISPLAY") e) =? 0)
                            && (zlen (entry_rest (cstr "DISPLAY") e) <? capacity) then entry_rest (cstr "DISPLAY") e else v) es d;
   fold_left (fun v e => if entry_names (cstr "XAUTHORITY") e && negb (zlen (entry_rest (cstr "XAUTHORITY") e) =? 0)
                            && (zlen (entry_rest (cstr "XAUTHORITY") e) <? capacity) then entry_rest (cstr "XAUTHORITY") e else v) es a].
Proof.
  induction es as [|e es IH]; intros d a; [done|]. cbn [fold_left environ_store].
  destruct (entry_names (cstr "DISPLAY") e) eqn:Ed; cbn [andb].
  - rewrite (display_entry_not_authority e Ed). cbn [andb]. apply IH.
  - destruct (entry_names (cstr "XAUTHORITY") e) eqn:Ea; cbn [andb]; apply IH.
Qed.

(** The display of a session.  The X worker opens the display that the
    session's environment names last in DISPLAY: the name has to be a colon and a
    number of at most 255, or that and a dot and another, and what is opened is
    the same numbers written anew, so no other byte of the environment reaches the
    X library; the authority file passed on is an absolute path.  It is the last
    XAUTHORITY of less than 256 bytes, the size of the buffer for the display:
    a longer one is as good as none.  Opening a canonical name opens it
    unchanged. *)
Theorem x11_session_display {X} (open : list byte -> option (list byte) -> Z * option X) pid es calls :
  0 < pid -> Forall nul_free es -> reads_whole calls (block es) ->
  let display := last_value (cstr "DISPLAY") 256 es in
  let authority := last_value (cstr "XAUTHORITY") 256 es in
  (forall d s, display_name display d s ->
    ksd_x11_open_for_session open pid (Some (block es)) calls
    = open (canonical_display d s) (if peek authority =? 47 then Some authority else None)) /\
  ((forall d s, ~ display_name display d s) ->
    ksd_x11_open_for_session open pid (Some (block es)) calls = (KSD_STATUS_UNAVAILABLE, None)) /\
  (forall d s, display_name display d s ->
    ksd_x11_display_parse (Some (canonical_display d s)) KSD_X11_DISPLAY_CAPACITY = Some (canonical_display d s)).
Proof.
  intros Hpid Hes Hr display authority.
  assert (Hnul : nul_free display).
  { by apply last_value_nul_free. }
  assert (Hopen : ksd_x11_open_for_session open pid (Some (block es)) calls =
    if bytes_eqb display [] then (KSD_STATUS_UNAVAILABLE, None)
    else match ksd_x11_display_parse (Some display) KSD_X11_DISPLAY_CAPACITY with
         | Some canonical => open canonical (if peek authority =? 47 then Some authority else None)
         | None => (KSD_STATUS_UNAVAILABLE, None)
         end).
  { unfold ksd_x11_open_for_session, ksd_session_environ_values. rewrite (proj2 (Z.leb_gt _ _)) by lia.
    rewrite (bool_decide_eq_false_2 (_ = [])) by done. cbn [orb negb]. change (256 =? 0) with false. cbn [negb]. rewrite Hr.
    cbn [fst map]. rewrite environ_values_block, environ_store_pair by done. done. }
  assert (Hrange : forall d s, display_name display d s ->
    0 <= d <= 255 /\ match s with Some s => 0 <= s <= 255 | None => True end).
  { intros d s (ds & Hd & Hv). split; [by eapply digits_of_range|]. destruct s as [s|]; [|done].
    destruct Hv as (ss & Hs & _). by eapply digits_of_range. }
  split; [|split].
  - intros d s Hd. rewrite Hopen, (proj2 (display_parse_exact display _ Hnul) (ex_intro _ d (ex_intro _ s (conj Hd eq_refl)))).
    destruct (bytes_eqb display []) eqn:E; [|done]. exfalso. apply bool_decide_eq_true in E. destruct Hd as (ds & _ & Hd). rewrite E in Hd.
    destruct s as [s|]; [destruct Hd as (? & _ & Hd)|]; discriminate.
  - intros Hno. rewrite Hopen. destruct (bytes_eqb display []); [done|].
    destruct (ksd_x11_display_parse _ _) as [c|] eqn:E; [|done]. apply display_parse_exact in E as (d & s & Hd & _); [|done].
    by destruct (Hno d s).
  - intros d s Hd. destruct (Hrange d s Hd) as [H1 H2]. apply display_parse_exact.
    + unfold canonical_display. assert (Hdig : forall n, 0 <= n <= 255 -> nul_free (decimal_text n)).
      { intros n Hn. destruct (decimal_byte n Hn) as ((Hf & _) & _). apply List.Forall_forall. intros b Hb.
        rewrite forallb_forall in Hf. specialize (Hf b Hb). apply digit_byte_range in Hf. lia. }
      destruct s as [s|]; repeat apply Forall_app_2; try (by apply Hdig); repeat constructor; discriminate.
    + exists d, s. split; [by apply canonical_is_display|done].
Qed.

Definition sample_environment : list (list byte) :=
  [cstr "DISPLAY=:0"; cstr "XAUTHORITY=/run/user/1000/xauth"; cstr "DISPLAY=:07.0"].

Lemma x11_session_display_witness :
  0 < 20 /\ reads_whole [PlainBytes 1000] (block sample_environment) /\
  ksd_x11_open_for_session (fun d a => (0, Some (d, a))) 20 (Some (block sample_environment)) [PlainBytes 1000]
  = (0, Some (cstr ":7.0", Some (cstr "/run/user/1000/xauth"))).
Proof.
  split; [lia|]. split; [reflexivity|].
  refine (proj1 (x11_session_display (fun d a => (0, Some (d, a))) 20 sample_environment [PlainBytes 1000] ltac:(lia)
    (nul_free_all sample_environment eq_refl) eq_refl) 7 (Some 0) _).
  exists (cstr "07"). split; [vm_compute; repeat split; discriminate|]. exists (cstr "0"). split; [vm_compute; repeat split; discriminate|reflexivity].
Defined.

Lemma x11_requests_exact_witness :
  let request := call_frame KSD_OP_WINDOW_CLICK 3 (snd (x11_wire (X11WindowClick 77 (-5) 9 1 2))) in
  fr_payload_length request = zlen (request_payload request) /\
  ksd_x11_execute_on (fun call (log : list x11_call) r => (call :: log, r, [])) (fun _ => false) (Some []) request ksd_result_init
  = (true, Some [X11WindowClick 77 (-5) 9 1 2], ksd_result_init, []).
Proof.
  split; [reflexivity|].
  apply (proj1 (proj2 (x11_requests_exact (fun call (log : list x11_call) r => (call :: log, r, [])) (fun _ => false) []
    (call_frame KSD_OP_WINDOW_CLICK 3 (snd (x11_wire (X11WindowClick 77 (-5) 9 1 2)))) ksd_result_init eq_refl))
    (X11WindowClick 77 (-5) 9 1 2)); [vm_compute; repeat split; discriminate|repeat split].
Defined.

(** ** Wayland *)

Definition KSD_WL_DISPLAY_CAPACITY : Z := 256.

(** [None] is NULL. *)
Definition display_name_valid (name : option (list byte)) : bool :=
  match name with
  | None => false
  | Some name =>
    if (zlen name =? 0) || (KSD_WL_DISPLAY_CAPACITY <=? zlen name) then false
    else if byte_at name 0 =? 47 then true
    else negb (has_slash name) && negb (bytes_eqb name (cstr ".")) && negb (bytes_eqb name (cstr ".."))
  end.

Definition capture_window_identifier (cursor : ksd_cursor) : option (list byte) :=
  let* (flags, cursor) := ksd_cursor_u32 cursor in
  guard* negb (1 <? flags) in
  final_text cursor (fun length => negb (length =? 0) && (length <=? 128)).

Definition ksd_wayland_request_valid (request : ksd_frame) : bool :=
  let cursor := ksd_cursor_init (request_payload request) (fr_payload_length request) in
  let opcode := fr_opcode request in
  if any_of opcode [KSD_OP_CLIPBOARD_MIMETYPES; KSD_OP_CLIPBOARD_TEXT; KSD_OP_CAPTURE_DESKTOP] then
    fr_payload_length request =? 0
  else if opcode =? KSD_OP_KEYBOARD_STATE then
    (fr_payload_length request =? 0)
    || holds (let* _ := final_text cursor (fun length => length <=? 64) in Some true)
  else if opcode =? KSD_OP_CLIPBOARD_CONTENT then
    holds (let* _ := final_text cursor (fun length => negb (length =? 0) && (length <=? KSD_MAX_MIMETYPE_BYTES)) in
           Some true)
  else if any_of opcode [KSD_OP_WINDOW_HANDLES; KSD_OP_WINDOW_ACTIVE; KSD_OP_CURSOR_POSITION; KSD_OP_DISPLAY_LIST;
                         KSD_OP_WORK_AREA] then
    fr_payload_length request =? 0
  else if any_of opcode [KSD_OP_WINDOW_FOCUS; KSD_OP_WINDOW_RAISE; KSD_OP_WINDOW_LOWER; KSD_OP_WINDOW_KILL;
                         KSD_OP_WINDOW_CLOSE; KSD_OP_WINDOW_QUERY] then
    holds (let* (handle, cursor) := ksd_cursor_u64 cursor in
           Some (ksd_cursor_finished cursor && negb (handle =? 0)))
  else if any_of opcode [KSD_OP_WINDOW_SET_STATE; KSD_OP_WINDOW_SET_OPACITY; KSD_OP_WINDOW_SET_ABOVE] then
    let ceiling := if opcode =? KSD_OP_WINDOW_SET_STATE then 3
                   else if opcode =? KSD_OP_WINDOW_SET_OPACITY then 255 else 1 in
    holds (let* (handle, cursor) := ksd_cursor_u64 cursor in
           let* (value, cursor) := ksd_cursor_u32 cursor in
           let* (reserved, cursor) := ksd_cursor_u32 cursor in
           Some (ksd_cursor_finished cursor && negb (handle =? 0) && (value <=? ceiling) && (reserved =? 0)))
  else if opcode =? KSD_OP_WINDOW_MOVE_RESIZE then
    holds (let* (handle, cursor) := ksd_cursor_u64 cursor in
           let* (x, cursor) := ksd_cursor_i32 cursor in
           let* (y, cursor) := ksd_cursor_i32 cursor in
           let* (width, cursor) := ksd_cursor_u32 cursor in
           let* (height, cursor) := ksd_cursor_u32 cursor in
           Some (ksd_cursor_finished cursor && negb (handle =? 0) && (width <=? INT16_MAX) && (height <=? INT16_MAX)
                 && (negb (x =? INT32_MIN) || negb (y =? INT32_MIN) || negb (width =? 0) || negb (height =? 0))))
  else if opcode =? KSD_OP_WINDOW_AT_POINT then
    holds (let* (x, cursor) := ksd_cursor_i32 cursor in
           let* (y, cursor) := ksd_cursor_i32 cursor in
           let* (deepest, cursor) := ksd_cursor_u32 cursor in
           let* (zero, cursor) := ksd_cursor_u32 cursor in
           Some ((deepest <=? 1) && (zero =? 0) && ksd_cursor_finished cursor))
  else if opcode =? KSD_OP_WINDOW_LIST then
    holds (let* (include_hidden, cursor) := ksd_cursor_u32 cursor in
           let* (reserved, cursor) := ksd_cursor_u32 cursor in
           Some ((include_hidden <=? 1) && (reserved =? 0) && ksd_cursor_finished cursor))
  else if opcode =? KSD_OP_CAPTURE_AREA then
    holds (let* (x, cursor) := ksd_cursor_i32 cursor in
           let* (y, cursor) := ksd_cursor_i32 cursor in
           let* (width, cursor) := ksd_cursor_u32 cursor in
           let* (height, cursor) := ksd_cursor_u32 cursor in
           Some (ksd_cursor_finished cursor && negb (width =? 0) && negb (height =? 0)
                 && (width <=? KSD_MAX_CAPTURE_DIMENSION) && (height <=? KSD_MAX_CAPTURE_DIMENSION)
                 && (u64 (width * height) <=? KSD_MAX_CAPTURE_PIXELS)
                 && (x + width <=? INT32_MAX) && (y + height <=? INT32_MAX)))
  else if opcode =? KSD_OP_CAPTURE_WINDOW then
    holds (let* _ := capture_window_identifier cursor in Some true)
  else if opcode =? KSD_OP_MOUSE_MOVE_ABSOLUTE then
    holds (let* (x, cursor) := ksd_cursor_i32 cursor in
           let* (y, cursor) := ksd_cursor_i32 cursor in
           Some (ksd_cursor_finished cursor))
  else false.

(** The calls of the compositor. *)
Inductive wayland_call :=
| WaylandKeyboardStateSince (revision : option (list byte))
| WaylandClipboardMimetypes
| WaylandClipboardText
| WaylandClipboardContent (mimetype : list byte)
| PortalCaptureDesktop
| WaylandCaptureWindow (identifier : list byte)
| WaylandWindowList (include_hidden : bool)
| WaylandWindowHandles
| WaylandWindowQuery (handle : Z)
| WaylandActiveWindow
| WaylandWindowAction (opcode handle value : Z)
| WaylandDisplayList
| WaylandWorkArea
| WaylandWindowMoveResize (handle x y width height : Z)
| WaylandWindowAtPoint (x y : Z)
| WaylandCaptureArea (x y width height : Z)
| WaylandMoveAbsolute (x y : Z)
| WaylandCursorPosition.

(** The switch of [ksd_wayland_execute_on]; [None] is its default. *)
Definition wayland_dispatch (request : ksd_frame) : option wayland_call :=
  let opcode := fr_opcode request in
  let cursor := ksd_cursor_init (request_payload request) (fr_payload_length request) in
  if opcode =? KSD_OP_KEYBOARD_STATE then
    Some (WaylandKeyboardStateSince
      (if fr_payload_length request =? 0 then None
       else Some (ztake (request_word request 0) (zdrop 4 (request_payload request)))))
  else if opcode =? KSD_OP_CLIPBOARD_MIMETYPES then Some WaylandClipboardMimetypes
  else if opcode =? KSD_OP_CLIPBOARD_TEXT then Some WaylandClipboardText
  else if opcode =? KSD_OP_CLIPBOARD_CONTENT then
    let '(length, cursor) := cursor_or ksd_cursor_u32 0 cursor in
    let '(bytes, _) := cursor_or (fun c => ksd_cursor_bytes c length) [] cursor in
    Some (WaylandClipboardContent bytes)
  else if opcode =? KSD_OP_CAPTURE_DESKTOP then Some PortalCaptureDesktop
  else if opcode =? KSD_OP_CAPTURE_WINDOW then
    Some (WaylandCaptureWindow (default [] (capture_window_identifier cursor)))
  else if opcode =? KSD_OP_WINDOW_LIST then
    let '(include_hidden, _) := cursor_or ksd_cursor_u32 0 cursor in
    Some (WaylandWindowList (negb (include_hidden =? 0)))
  else if opcode =? KSD_OP_WINDOW_HANDLES then Some WaylandWindowHandles
  else if opcode =? KSD_OP_WINDOW_QUERY then Some (WaylandWindowQuery (ksd_decode_u64 (request_payload request)))
  else if opcode =? KSD_OP_WINDOW_ACTIVE then Some WaylandActiveWindow
  else if any_of opcode [KSD_OP_WINDOW_FOCUS; KSD_OP_WINDOW_RAISE; KSD_OP_WINDOW_LOWER; KSD_OP_WINDOW_KILL;
                         KSD_OP_WINDOW_CLOSE] then
    let '(handle, _) := cursor_or ksd_cursor_u64 0 cursor in
    Some (WaylandWindowAction opcode handle 0)
  else if opcode =? KSD_OP_DISPLAY_LIST then Some WaylandDisplayList
  else if opcode =? KSD_OP_WORK_AREA then Some WaylandWorkArea
  else if any_of opcode [KSD_OP_WINDOW_SET_OPACITY; KSD_OP_WINDOW_SET_ABOVE; KSD_OP_WINDOW_SET_STATE] then
    let '(handle, cursor) := cursor_or ksd_cursor_u64 0 cursor in
    let '(value, _) := cursor_or ksd_cursor_u32 0 cursor in
    Some (WaylandWindowAction opcode handle value)
  else if opcode =? KSD_OP_WINDOW_MOVE_RESIZE then
    let '(handle, cursor) := cursor_or ksd_cursor_u64 0 cursor in
    let '(x, cursor) := cursor_or ksd_cursor_i32 0 cursor in
    let '(y, cursor) := cursor_or ksd_cursor_i32 0 cursor in
    let '(width, cursor) := cursor_or ksd_cursor_u32 0 cursor in
    let '(height, _) := cursor_or ksd_cursor_u32 0 cursor in
    Some (WaylandWindowMoveResize handle x y width height)
  else if opcode =? KSD_OP_WINDOW_AT_POINT then
    Some (WaylandWindowAtPoint (i32 (request_word request 0)) (i32 (request_word request 4)))
  else if opcode =? KSD_OP_CAPTURE_AREA then
    let '(x, cursor) := cursor_or ksd_cursor_i32 0 cursor in
    let '(y, cursor) := cursor_or ksd_cursor_i32 0 cursor in
    let '(width, cursor) := cursor_or ksd_cursor_u32 0 cursor in
    let '(height, _) := cursor_or ksd_cursor_u32 0 cursor in
    Some (WaylandCaptureArea x y width height)
  else if opcode =? KSD_OP_MOUSE_MOVE_ABSOLUTE then
    let '(x, cursor) := cursor_or ksd_cursor_i32 0 cursor in
    let '(y, _) := cursor_or ksd_cursor_i32 0 cursor in
    Some (WaylandMoveAbsolute x y)
  else if opcode =? KSD_OP_CURSOR_POSITION then Some WaylandCursorPosition
  else None.

Section wayland_execute.
Context {AL : Allocator} {X : Type} (run : wayland_call -> X -> ksd_operation_result -> X * ksd_operation_result * list Z)
  (connection_failed : X -> bool) (session_pid : X -> Z) (hypr_cursor : Z -> option (Z * Z)).

(** The position of the pointer, which the worker encodes itself. *)
Definition wayland_cursor_position (connection : X) (result : ksd_operation_result) : ksd_operation_result * list Z :=
  match hypr_cursor (session_pid connection) with
  | None =>
    ksd_result_error result KSD_STATUS_UNAVAILABLE 0 (Some (cstr "the compositor does not expose cursor position"))
  | Some (x, y) =>
    let tail := ksd_encode_u32 (u32 x) ++ ksd_encode_u32 (u32 y) in
    let '(copied, result, closed) := ksd_result_copy result (Some tail) 8 in
    if copied then (result, closed)
    else
      let '(result, closed') := ksd_result_error result KSD_STATUS_INTERNAL 0 (Some (cstr "could not return cursor position")) in
      (result, closed ++ closed')
  end.

Definition ksd_wayland_execute_on (connection : option X) (request : ksd_frame) (result : ksd_operation_result)
    : bool * option X * ksd_operation_result * list Z :=
  let invalid := ksd_result_error result KSD_STATUS_INVALID_REQUEST 0 (Some (cstr "invalid Wayland request")) in
  match connection with
  | Some connection =>
    if negb (ksd_wayland_request_valid request) then (true, Some connection, fst invalid, snd invalid)
    else
      let '(connection, result, closed) :=
        match wayland_dispatch request with
        | Some WaylandCursorPosition =>
          let '(result, closed) := wayland_cursor_position connection result in (connection, result, closed)
        | Some call => run call connection result
        | None => (connection, fst invalid, snd invalid)
        end in
      (negb (connection_failed connection), Some connection, result, closed)
  | None => (true, None, fst invalid, snd invalid)
  end.

Definition ksd_wayland_open_for_session (open : list byte -> Z * option X) (set_session_pid : X -> Z -> X)
    (session_pid : Z) (file : option (list byte)) (calls : list plain_outcome) : Z * option X :=
  match ksd_session_environ_value session_pid file calls (cstr "WAYLAND_DISPLAY") KSD_WL_DISPLAY_CAPACITY with
  | None => (KSD_STATUS_UNAVAILABLE, None)
  | Some display =>
    if negb (display_name_valid (Some display)) then (KSD_STATUS_UNAVAILABLE, None)
    else
      let '(status, connection) := open display in
      (status, if status =? KSD_STATUS_OK then option_map (fun c => set_session_pid c session_pid) connection else connection)
  end.
End wayland_execute.

(** *** What a request says *)

(** The operation and the payload of a call; [ignored] is the flag of the
    operations that have one this backend has no use for. *)
Definition wayland_wire (ignored : bool) (call : wayland_call) : Z * list byte :=
  match call with
  | WaylandKeyboardStateSince None => (KSD_OP_KEYBOARD_STATE, [])
  | WaylandKeyboardStateSince (Some revision) => (KSD_OP_KEYBOARD_STATE, text_tail revision)
  | WaylandClipboardMimetypes => (KSD_OP_CLIPBOARD_MIMETYPES, [])
  | WaylandClipboardText => (KSD_OP_CLIPBOARD_TEXT, [])
  | WaylandClipboardContent mimetype => (KSD_OP_CLIPBOARD_CONTENT, text_tail mimetype)
  | PortalCaptureDesktop => (KSD_OP_CAPTURE_DESKTOP, [])
  | WaylandCaptureWindow identifier => (KSD_OP_CAPTURE_WINDOW, encode_bool ignored ++ text_tail identifier)
  | WaylandWindowList include_hidden => (KSD_OP_WINDOW_LIST, encode_bool include_hidden ++ ksd_encode_u32 0)
  | WaylandWindowHandles => (KSD_OP_WINDOW_HANDLES, [])
  | WaylandWindowQuery handle => (KSD_OP_WINDOW_QUERY, ksd_encode_u64 handle)
  | WaylandActiveWindow => (KSD_OP_WINDOW_ACTIVE, [])
  | WaylandWindowAction opcode handle value =>
    (opcode, ksd_encode_u64 handle
             ++ if any_of opcode [KSD_OP_WINDOW_SET_OPACITY; KSD_OP_WINDOW_SET_ABOVE; KSD_OP_WINDOW_SET_STATE]
                then ksd_encode_u32 value ++ ksd_encode_u32 0 else [])
  | WaylandDisplayList => (KSD_OP_DISPLAY_LIST, [])
  | WaylandWorkArea => (KSD_OP_WORK_AREA, [])
  | WaylandWindowMoveResize handle x y width height =>
    (KSD_OP_WINDOW_MOVE_RESIZE,
     ksd_encode_u64 handle ++ encode_i32 x ++ encode_i32 y ++ ksd_encode_u32 width ++ ksd_encode_u32 height)
  | WaylandWindowAtPoint x y =>
    (KSD_OP_WINDOW_AT_POINT, encode_i32 x ++ encode_i32 y ++ encode_bool ignored ++ ksd_encode_u32 0)
  | WaylandCaptureArea x y width height =>
    (KSD_OP_CAPTURE_AREA, encode_i32 x ++ encode_i32 y ++ ksd_encode_u32 width ++ ksd_encode_u32 height)
  | WaylandMoveAbsolute x y => (KSD_OP_MOUSE_MOVE_ABSOLUTE, encode_i32 x ++ encode_i32 y)
  | WaylandCursorPosition => (KSD_OP_CURSOR_POSITION, [])
  end.

Definition handle_ok (handle : Z) : Prop := is_u64 handle /\ handle <> 0.

Definition wayland_call_ok (call : wayland_call) : Prop :=
  match call with
  | WaylandKeyboardStateSince (Some revision) => utf8_within revision 64
  | WaylandClipboardContent mimetype => 1 <= zlen mimetype /\ utf8_within mimetype KSD_MAX_MIMETYPE_BYTES
  | WaylandCaptureWindow identifier => 1 <= zlen identifier /\ utf8_within identifier 128
  | WaylandWindowQuery handle => handle_ok handle
  | WaylandWindowAction opcode handle value =>
    handle_ok handle /\
    (opcode = KSD_OP_WINDOW_SET_STATE /\ 0 <= value <= 3 \/ opcode = KSD_OP_WINDOW_SET_OPACITY /\ 0 <= value <= 255 \/
     opcode = KSD_OP_WINDOW_SET_ABOVE /\ 0 <= value <= 1 \/
     In opcode [KSD_OP_WINDOW_FOCUS; KSD_OP_WINDOW_RAISE; KSD_OP_WINDOW_LOWER; KSD_OP_WINDOW_KILL; KSD_OP_WINDOW_CLOSE] /\ value = 0)
  | WaylandWindowMoveResize handle x y width height =>
    handle_ok handle /\ is_i32 x /\ is_i32 y /\ 0 <= width <= INT16_MAX /\ 0 <= height <= INT16_MAX /\
    ~ (x = INT32_MIN /\ y = INT32_MIN /\ width = 0 /\ height = 0)
  | WaylandWindowAtPoint x y | WaylandMoveAbsolute x y => is_i32 x /\ is_i32 y
  | WaylandCaptureArea x y width height =>
    is_i32 x /\ is_i32 y /\ 1 <= width <= KSD_MAX_CAPTURE_DIMENSION /\ 1 <= height <= KSD_MAX_CAPTURE_DIMENSION /\
    width * height <= KSD_MAX_CAPTURE_PIXELS /\ x + width <= INT32_MAX /\ y + height <= INT32_MAX
  | WaylandKeyboardStateSince None | WaylandClipboardMimetypes | WaylandClipboardText | PortalCaptureDesktop
  | WaylandWindowList _ | WaylandWindowHandles | WaylandActiveWindow | WaylandDisplayList | WaylandWorkArea
  | WaylandCursorPosition => True
  end.

Ltac is_wayland_call ignored c :=
  exists c, ignored; split; [cbn [wayland_call_ok]|apply says_payload; [done|by cbn [wayland_wire fst]|cbn [wayland_wire snd]]].

Lemma capture_identifier_exact c identifier :
  cursor_wf c ->
  capture_window_identifier c = Some identifier <->
  exists flag, cursor_rest c = encode_bool flag ++ text_tail identifier /\ 1 <= zlen identifier /\ utf8_within identifier 128.
Proof.
  intros Hwf. unfold capture_window_identifier. split.
  - next_read. intros H. destruct (negb (1 <? v)) eqn:Ef; [|done]. breflect. apply final_text_exact in H as (Hr' & Hl & Hv' & _); [|done].
    breflect. exists (negb (v =? 0)). rewrite <- bool_word by (unfold is_u32 in *; lia). rewrite Hr, Hr'.
    split; [done|]. split; [pose proof (zlen_nonneg identifier); lia|done].
  - intros (flag & Hr & Hn & Hl & Hv). unfold encode_bool in Hr.
    destruct (reads_u32 _ (bool_u32 flag) c _ Hwf Hr) as (c' & -> & Hwf' & Hr').
    replace (negb (1 <? Z.b2z flag)) with true by by destruct flag. apply final_text_exact; [done|]. split; [done|].
    split; [rewrite andb_true_iff, negb_true_iff, Z.eqb_neq, Z.leb_le; lia|]. split; [done|].
    eapply small_u32; [split; [apply zlen_nonneg|exact Hl]|done].
Qed.

Lemma wayland_request_sound request :
  fr_payload_length request = zlen (request_payload request) -> ksd_wayland_request_valid request = true ->
  exists call ignored, wayland_call_ok call /\ says request (wayland_wire ignored call).
Proof.
  intros Hlen. pose proof (request_cursor_wf request Hlen) as Hwf. unfold ksd_wayland_request_valid.
  pose proof (request_cursor_rest request) as Hp. pose proof (empty_payload request Hlen) as Hempty. revert Hwf Hp.
  generalize (ksd_cursor_init (request_payload request) (fr_payload_length request)) as c. intros c Hwf Hp.
  opcode_cases.
  - intros H. breflect. specialize (Hempty H). each_opcode Hop;
      [is_wayland_call false WaylandClipboardMimetypes|is_wayland_call false WaylandClipboardText|is_wayland_call false PortalCaptureDesktop]; done.
  - rewrite orb_true_iff, Z.eqb_eq. intros [H|H].
    + is_wayland_call false (WaylandKeyboardStateSince None); [done|]. by apply Hempty.
    + destruct (final_text c _) as [t|] eqn:E; [|done]. apply final_text_exact in E as (Hr & Hl & Hv & Hu); [|done]. breflect.
      is_wayland_call false (WaylandKeyboardStateSince (Some t)); [done|]. by rewrite Hp.
  - destruct (final_text c _) as [t|] eqn:E; [|done]. apply final_text_exact in E as (Hr & Hl & Hv & Hu); [|done].
    intros _. breflect. is_wayland_call false (WaylandClipboardContent t); [|by rewrite Hp].
    pose proof (zlen_nonneg t). split; [lia|done].
  - intros H. breflect. specialize (Hempty H). each_opcode Hop;
      [is_wayland_call false WaylandWindowHandles|is_wayland_call false WaylandActiveWindow|is_wayland_call false WaylandCursorPosition
      |is_wayland_call false WaylandDisplayList|is_wayland_call false WaylandWorkArea]; done.
  - repeat next_read. form_facts.
    each_opcode Hop; [..|is_wayland_call false (WaylandWindowQuery v); [done|form_done Hp]];
      (is_wayland_call false (WaylandWindowAction (fr_opcode request) v 0); [|rewrite Hop; form_done Hp]);
      rewrite Hop; (split; [done|]); do 3 right; (split; [|done]); cbn; tauto.
  - repeat next_read. each_opcode Hop; rewrite Hop; known_opcodes; form_facts;
      (is_wayland_call false (WaylandWindowAction (fr_opcode request) v v0); [|rewrite Hop; form_done Hp]); rewrite Hop;
      (split; [done|unfold is_u32 in *; intuition lia]).
  - repeat next_read. form_facts. is_wayland_call false (WaylandWindowMoveResize v v0 v1 v2 v3); [|form_done Hp].
    unfold is_u32, is_i32, is_u64, handle_ok in *. repeat split; lia.
  - repeat next_read. form_facts. is_wayland_call (negb (v1 =? 0)) (WaylandWindowAtPoint v v0); [done|]. to_bool v1. form_done Hp.
  - repeat next_read. form_facts. is_wayland_call false (WaylandWindowList (negb (v =? 0))); [done|]. to_bool v. form_done Hp.
  - repeat next_read. form_facts. is_wayland_call false (WaylandCaptureArea v v0 v1 v2); [|form_done Hp].
    rewrite u64_product in * by done. unfold is_u32, is_i32 in *. repeat split; lia.
  - destruct (capture_window_identifier c) as [t|] eqn:E; [|done]. apply capture_identifier_exact in E as (flag & Hr & Hn & Hl); [|done].
    intros _. is_wayland_call flag (WaylandCaptureWindow t); [done|]. by rewrite Hp.
  - repeat next_read. form_facts. is_wayland_call false (WaylandMoveAbsolute v v0); [done|]. form_done Hp.
  - done.
Qed.

Lemma handle_nonzero handle : handle_ok handle -> is_u64 handle /\ (handle =? 0) = false.
Proof. intros [? ?]. split; [done|]. by apply Z.eqb_neq. Qed.

(** Reads tested and not, of a payload that is what it should be. *)
Ltac wayland_words :=
  split;
  [repeat give_read;
   repeat match goal with H : (_ =? 0) = false |- _ => rewrite H end; cbn [negb andb orb]; known_word
  |repeat give_or; unfold encode_i32;
   rewrite ?payload_drop4, ?zdrop_0; rewrite ?decode_i32_app, ?decode_i32_end by word_bound; by rewrite ?bool_word_flag].

Lemma wayland_action_complete request ignored opcode handle value :
  wayland_call_ok (WaylandWindowAction opcode handle value) ->
  says request (wayland_wire ignored (WaylandWindowAction opcode handle value)) ->
  ksd_wayland_request_valid request = true /\ wayland_dispatch request = Some (WaylandWindowAction opcode handle value).
Proof.
  intros [Hh Hok] (Hop & Hpay & Hl). unfold ksd_wayland_request_valid, wayland_dispatch. rewrite Hl, Hpay. clear Hl Hpay.
  set (payload := snd _) in |- *.
  pose proof (cursor_init_wf payload) as W. pose proof (cursor_init_rest payload (zlen payload)) as R.
  rewrite <- (app_nil_r payload) in R at 3.
  revert W R. generalize (ksd_cursor_init payload (zlen payload)) as c. unfold payload. clear payload. intros c W R.
  destruct (handle_nonzero _ Hh) as [Hu Hz]. assert (Hv : is_u32 value) by (unfold is_u32; intuition lia).
  cbn [wayland_wire fst snd] in Hop, R |- *. rewrite Hop.
  destruct Hok as [(-> & ?)|[(-> & ?)|[(-> & ?)|(Hin & ->)]]].
  4:{ cbn [In] in Hin. destruct Hin as [<-|[<-|[<-|[<-|[<-|[]]]]]]; unfold any_of in R; cbn [existsb] in R; revert R;
      known_opcode; intros R; rewrite <- ?app_assoc in R; cbn [app] in R; wayland_words. }
  all: unfold any_of in R; cbn [existsb] in R; revert R; known_opcode; intros R; rewrite <- ?app_assoc in R; wayland_words.
Qed.

Lemma wayland_request_complete request ignored call :
  wayland_call_ok call -> says request (wayland_wire ignored call) ->
  ksd_wayland_request_valid request = true /\ wayland_dispatch request = Some call.
Proof.
  intros Hok Hs. pose proof Hs as (Hop & Hpay & Hl).
  assert (Haction : forall o h v, call = WaylandWindowAction o h v ->
    ksd_wayland_request_valid request = true /\ wayland_dispatch request = Some call)
    by (intros o h v ->; by eapply wayland_action_complete).
  unfold ksd_wayland_request_valid, wayland_dispatch, request_word in *. rewrite Hl, Hpay in *. clear Hl Hpay Hs.
  set (payload := snd (wayland_wire ignored call)) in *.
  pose proof (cursor_init_wf payload) as W. pose proof (cursor_init_rest payload (zlen payload)) as R.
  rewrite <- (app_nil_r payload) in R at 3.
  revert W R Haction. generalize (ksd_cursor_init payload (zlen payload)) as c. unfold payload. clear payload. intros c W R Haction.
  destruct call as [[revision|]| | |mimetype| |identifier|hidden| |handle| |opcode handle value| | |handle x y width height|x y|x y width height|x y|];
    try (by eapply Haction); clear Haction;
    cbn [wayland_wire fst snd wayland_call_ok] in Hop, Hok, R |- *; rewrite Hop; unfold encode_bool in *; destruct_and?; known_opcode;
    rewrite <- ?app_assoc in R;
    repeat match goal with H : handle_ok _ |- _ => apply handle_nonzero in H as [? ?] end.
  all: try done; try (wayland_words; fail).
  - rewrite app_nil_r in R. assert (Hu : is_u32 (zlen revision)) by (by eapply within_u32; [|eassumption]). destruct Hok as [Hl Hv].
    rewrite (proj2 (final_text_exact c _ revision W)), orb_true_r, zdrop_0, text_nonempty, text_word 
      by (done || (split; [done|split; [lia|done]])).
    done.
  - assert (Hu : is_u32 (zlen mimetype)) by (by eapply within_u32; [|eassumption]). rewrite app_nil_r in R.
    match goal with H : utf8_within _ _ |- _ => destruct H as [Hl Hv] end. split.
    + rewrite (proj2 (final_text_exact c _ mimetype W)); [done|]. split; [done|].
      split; [rewrite andb_true_iff, negb_true_iff, Z.eqb_neq, Z.leb_le; lia|done].
    + unfold text_tail in R. by repeat give_or.
  - rewrite app_nil_r in R. rewrite (proj2 (capture_identifier_exact c identifier W)); [done|]. by exists ignored.
  - wayland_words || (split; [repeat give_read; match goal with H : (_ =? 0) = false |- _ => by rewrite H end|]).
    rewrite <- (app_nil_r (ksd_encode_u64 handle)), decode_encode_u64. by rewrite u64_id.
  - assert (is_u32 width /\ is_u32 height) as [? ?] by (unfold is_u32, KSD_MAX_CAPTURE_DIMENSION in *; lia).
    split; [|by repeat give_or]. repeat give_read. cbn [holds default from_option Datatypes.id].
    rewrite u64_product, ?andb_true_iff, ?negb_true_iff, ?Z.leb_le, ?Z.eqb_neq by done. lia.
Qed.

(** The requests of the Wayland worker.  A request is accepted exactly when it
    is the wire form of a call whose arguments are in range: a window that is not
    0, an action's value within its limit, a geometry that changes something, an
    area within the limits of a capture, UTF-8 text within its limit, flags that
    are 0 or 1 and nothing left over.  Whatever the flags the backend has no use
    for, it is the wire form of one call only.  Serving it makes that call, the
    position of the pointer apart, which the worker asks the compositor for and
    encodes itself; anything else is answered with an error, without touching the
    display. *)
Theorem wayland_requests_exact {AL : Allocator} {X} (run : wayland_call -> X -> ksd_operation_result -> X * ksd_operation_result * list Z)
    failed session_pid hypr_cursor (display : X) request result :
  fr_payload_length request = zlen (request_payload request) ->
  let execute := ksd_wayland_execute_on run failed session_pid hypr_cursor (Some display) request result in
  (ksd_wayland_request_valid request = true <->
   exists call ignored, wayland_call_ok call /\ says request (wayland_wire ignored call)) /\
  (forall call ignored, wayland_call_ok call -> says request (wayland_wire ignored call) ->
    (forall call' ignored', wayland_call_ok call' -> says request (wayland_wire ignored' call') -> call' = call) /\
    (call <> WaylandCursorPosition -> execute
      = (let '(display, result, closed) := run call display result in (negb (failed display), Some display, result, closed))) /\
    (call = WaylandCursorPosition -> alloc_ok 8 = true -> exists result' closed,
      execute = (negb (failed display), Some display, result', closed) /\
      match hypr_cursor (session_pid display) with
      | Some (x, y) => res_status result' = KSD_STATUS_OK /\ res_tail result' = Some (encode_i32 x ++ encode_i32 y) /\ res_tail_length result' = 8
      | None => res_status result' = KSD_STATUS_UNAVAILABLE /\ res_tail result' = None
      end)) /\
  ((forall call ignored, wayland_call_ok call -> ~ says request (wayland_wire ignored call)) ->
    exists closed, execute
    = (true, Some display, fst (ksd_result_error result KSD_STATUS_INVALID_REQUEST 0 (Some (cstr "invalid Wayland request"))), closed)).
Proof.
  intros Hlen execute. split; [split; [by apply wayland_request_sound|]|split].
  - intros (call & ignored & ? & ?). by apply (wayland_request_complete request ignored call).
  - intros call ignored Hok Hs. destruct (wayland_request_complete _ _ _ Hok Hs) as [Hv Hd].
    split; [|split].
    + intros call' ignored' Hok' Hs'. destruct (wayland_request_complete _ _ _ Hok' Hs') as [_ Hd']. congruence.
    + intros Hne. unfold execute, ksd_wayland_execute_on. rewrite Hv, Hd. cbn [negb]. destruct call; done.
    + intros -> Ha. unfold execute, ksd_wayland_execute_on, wayland_cursor_position. rewrite Hv, Hd. cbn [negb].
      destruct (hypr_cursor (session_pid display)) as [[x y]|]; [|by eexists _, _].
      unfold ksd_result_copy. change (8 =? 0) with false. rewrite Ha. cbv iota. unfold ksd_result_take.
      change (8 =? 0) with false. cbn [negb andb]. rewrite bool_decide_eq_false_2 by done. by eexists _, _.
  - intros Hno. eexists. unfold execute, ksd_wayland_execute_on.
    destruct (ksd_wayland_request_valid request) eqn:E; [|done].
    destruct (wayland_request_sound request Hlen E) as (call & ignored & Hok & Hs). by destruct (Hno call ignored Hok).
Qed.

(** ** What the registry offers and what the workers serve *)

(** A call of every kind. *)
Definition x11_samples : list x11_call :=
  [X11WindowQuery 1; X11WindowChildren 1; X11WindowAtPoint 0 0 false; X11DisplayList; X11KeyboardStateSince None;
   X11WindowSetTitle 1 []; X11WindowSetVisible 1 true; X11WindowRedraw 1; X11WindowClick 1 0 0 1 1;
   X11WindowButton 1 0 0 1 true; X11WindowFocusChild 1; X11MouseMoveAbsolute 0 0; X11WindowList false; X11WindowActive;
   X11WindowHandles; X11CursorPosition; X11WorkArea; X11CaptureArea 0 0 1 1; X11CaptureWindow 1 false; X11WindowFocus 1;
   X11WindowRaise 1 true; X11WindowRaise 1 false; X11WindowClose 1; X11WindowKill 1; X11WindowMoveResize 1 0 0 1 1;
   X11WindowSetState 1 0; X11WindowSetOpacity 1 0; X11WindowSetAbove 1 true; X11WindowSetDecorated 1 true;
   X11ClipboardMimetypes; X11ClipboardText; X11ClipboardContent (cstr "t")].
Definition wayland_samples : list wayland_call :=
  [WaylandKeyboardStateSince None; WaylandClipboardMimetypes; WaylandClipboardText; WaylandClipboardContent (cstr "t");
   PortalCaptureDesktop; WaylandCaptureWindow (cstr "w"); WaylandWindowList false; WaylandWindowHandles; WaylandWindowQuery 1;
   WaylandActiveWindow; WaylandWindowAction KSD_OP_WINDOW_FOCUS 1 0; WaylandWindowAction KSD_OP_WINDOW_RAISE 1 0;
   WaylandWindowAction KSD_OP_WINDOW_LOWER 1 0; WaylandWindowAction KSD_OP_WINDOW_KILL 1 0;
   WaylandWindowAction KSD_OP_WINDOW_CLOSE 1 0; WaylandWindowAction KSD_OP_WINDOW_SET_STATE 1 0;
   WaylandWindowAction KSD_OP_WINDOW_SET_OPACITY 1 0; WaylandWindowAction KSD_OP_WINDOW_SET_ABOVE 1 0; WaylandDisplayList;
   WaylandWorkArea; WaylandWindowMoveResize 1 0 0 1 1; WaylandWindowAtPoint 0 0; WaylandCaptureArea 0 0 1 1;
   WaylandMoveAbsolute 0 0; WaylandCursorPosition].

Lemma x11_samples_ok : Forall x11_call_ok x11_samples.
Proof. repeat constructor; vm_compute; repeat split; discriminate. Qed.
Lemma wayland_samples_ok : Forall wayland_call_ok wayland_samples.
Proof. unfold wayland_samples. repeat (constructor; [vm_compute; intuition discriminate|]). constructor. Qed.

(** The operations a backend offers, the watch of windows apart, against a list of
    opcodes. *)
Definition offered (mask : Z) (opcodes : list Z) : bool :=
  check_operations (fun opcode bit =>
    Bool.eqb (any_of opcode opcodes) (negb (Z.land bit mask =? 0) && negb (opcode =? KSD_OP_WINDOW_WATCH)))
  && forallb (fun opcode => negb (ksd_operation_bit opcode =? 0)) opcodes.

Lemma offered_exact mask opcodes opcode :
  offered mask opcodes = true -> opcode <> KSD_OP_WINDOW_WATCH ->
  In opcode opcodes <-> Z.land (ksd_operation_bit opcode) mask <> 0.
Proof.
  unfold offered. rewrite andb_true_iff. intros [H Hk] Hw. destruct (Z.eqb_spec (ksd_operation_bit opcode) 0) as [E|E].
  - rewrite E. split; [|done]. intros Hin. rewrite forallb_forall in Hk. specialize (Hk _ Hin). by rewrite E in Hk.
  - pose proof (operations_forall _ opcode H E) as Ho. cbn beta in Ho. apply Bool.eqb_prop in Ho.
    rewrite (proj2 (Z.eqb_neq opcode _) Hw), andb_true_r in Ho. split.
    + intros Hin. assert (Ha : any_of opcode opcodes = true) by (apply existsb_exists; exists opcode; by rewrite Z.eqb_refl).
      rewrite Ha in Ho. symmetry in Ho. by apply negb_true_iff, Z.eqb_neq in Ho.
    + intros Hb. apply any_of_in. rewrite Ho. by apply negb_true_iff, Z.eqb_neq.
Qed.

Lemma x11_opcodes call : In (fst (x11_wire call)) (map (fun c => fst (x11_wire c)) x11_samples).
Proof. destruct call as [| | | |[]| | | | | | | | | | | | | | | |xid []| | | | | | | | | |]; vm_compute; tauto. Qed.

Lemma wayland_opcodes ignored call :
  wayland_call_ok call -> In (fst (wayland_wire ignored call)) (map (fun c => fst (wayland_wire false c)) wayland_samples).
Proof.
  destruct call as [[]| | | | | | | | | |o h v| | | | | | |]; try (intros _; vm_compute; tauto).
  cbn [wayland_call_ok wayland_wire fst]. intros (_ & [(-> & _)|[(-> & _)|[(-> & _)|(Hin & _)]]]); [vm_compute; tauto..|].
  cbn in Hin. destruct Hin as [<-|[<-|[<-|[<-|[<-|[]]]]]]; vm_compute; tauto.
Qed.

(** What is offered is served.  The operations the registry may offer for an X
    session are exactly those the X worker has a call for, and the ones it may
    offer for a generic Wayland session exactly those of the Wayland worker; the
    watch of windows is the one operation the workers serve outside these calls.
    So no client is told of an operation that every worker refuses, and none is
    kept from one that would work. *)
Theorem display_masks_served opcode :
  opcode <> KSD_OP_WINDOW_WATCH ->
  (Z.land (ksd_operation_bit opcode) (ksd_backend_operations KSD_BACKEND_X11) <> 0 <->
   exists call, x11_call_ok call /\ fst (x11_wire call) = opcode) /\
  (Z.land (ksd_operation_bit opcode) (ksd_backend_operations KSD_BACKEND_GENERIC) <> 0 <->
   exists call ignored, wayland_call_ok call /\ fst (wayland_wire ignored call) = opcode).
Proof.
  intros Hw. split.
  - rewrite <- (offered_exact _ (map (fun c => fst (x11_wire c)) x11_samples) opcode) by (done || by vm_compute). split.
    + rewrite in_map_iff. intros (call & <- & Hin). exists call. split; [|done].
      by apply (proj1 (List.Forall_forall _ _) x11_samples_ok).
    + intros (call & _ & <-). apply x11_opcodes.
  - rewrite <- (offered_exact _ (map (fun c => fst (wayland_wire false c)) wayland_samples) opcode) by (done || by vm_compute). split.
    + rewrite in_map_iff. intros (call & <- & Hin). exists call, false. split; [|done].
      by apply (proj1 (List.Forall_forall _ _) wayland_samples_ok).
    + intros (call & ignored & Hok & <-). by apply wayland_opcodes.
Qed.

(** ** From a client to a display *)

(** What the library sends for a call, and the call it is for the workers. *)
Inductive client_x11 : ClientCalls.call -> x11_call -> Prop :=
| ClientQuery h : client_x11 (ksd_window_query_json h) (X11WindowQuery h)
| ClientChildren h : client_x11 (ksd_window_children_json h) (X11WindowChildren h)
| ClientAtPoint x y d : client_x11 (ksd_window_at_point_json x y (Z.b2z d)) (X11WindowAtPoint x y d)
| ClientDisplays : client_x11 ksd_display_list_json X11DisplayList
| ClientKeyboard : client_x11 ksd_keyboard_state_json (X11KeyboardStateSince None)
| ClientKeyboardSince r : client_x11 (ksd_keyboard_state_since_json r) (X11KeyboardStateSince (Some r))
| ClientTitle h t : client_x11 (ksd_window_set_title h t) (X11WindowSetTitle h t)
| ClientVisible h v : client_x11 (ksd_window_set_visible h (Z.b2z v)) (X11WindowSetVisible h v)
| ClientRedraw h : client_x11 (ksd_window_redraw h) (X11WindowRedraw h)
| ClientClick h x y b n : client_x11 (ksd_window_click h x y b n) (X11WindowClick h x y b n)
| ClientButton h x y b d : client_x11 (ksd_window_button h x y b (Z.b2z d)) (X11WindowButton h x y b d)
| ClientFocusChild h : client_x11 (ksd_window_focus_child h) (X11WindowFocusChild h)
| ClientMove x y : client_x11 (ksd_mouse_move_absolute x y) (X11MouseMoveAbsolute x y)
| ClientList b : client_x11 (ksd_window_list_json (Z.b2z b)) (X11WindowList b)
| ClientActive : client_x11 ksd_window_active_json X11WindowActive
| ClientHandles : client_x11 ksd_window_handles_json X11WindowHandles
| ClientCursor : client_x11 ksd_cursor_position X11CursorPosition
| ClientWorkArea : client_x11 ksd_work_area X11WorkArea
| ClientArea x y w h : client_x11 (ksd_capture_area x y w h) (X11CaptureArea x y w h)
| ClientWindow xid d : client_x11 (ksd_capture_window (decimal_text xid) (Z.b2z d)) (X11CaptureWindow xid d)
| ClientFocus h : client_x11 (ksd_window_focus h) (X11WindowFocus h)
| ClientRaise h : client_x11 (ksd_window_raise h) (X11WindowRaise h true)
| ClientLower h : client_x11 (ksd_window_lower h) (X11WindowRaise h false)
| ClientClose h : client_x11 (ksd_window_close h) (X11WindowClose h)
| ClientKill h : client_x11 (ksd_window_kill h) (X11WindowKill h)
| ClientResize h x y w v : client_x11 (ksd_window_move_resize h x y w v) (X11WindowMoveResize h x y w v)
| ClientState h s : client_x11 (ksd_window_set_state h s) (X11WindowSetState h s)
| ClientOpacity h o : client_x11 (ksd_window_set_opacity h o) (X11WindowSetOpacity h o)
| ClientAbove h b : client_x11 (ksd_window_set_above h (Z.b2z b)) (X11WindowSetAbove h b)
| ClientDecorated h b : client_x11 (ksd_window_set_decorated h (Z.b2z b)) (X11WindowSetDecorated h b)
| ClientMimetypes : client_x11 ksd_clipboard_mimetypes X11ClipboardMimetypes
| ClientText : client_x11 ksd_clipboard_text X11ClipboardText
| ClientContent m : client_x11 (ksd_clipboard_content m) (X11ClipboardContent m).

Lemma send_wire (b : bool) opcode payload op p :
  (if b then send opcode payload else None) = Some (op, p) -> (op, default [] p) = (opcode, payload).
Proof. destruct b; [|done]. by intros [= <- <-]. Qed.
Lemma send_unless_wire (b : bool) opcode payload op p :
  (if b then None else send opcode payload) = Some (op, p) -> (op, default [] p) = (opcode, payload).
Proof. destruct b; [done|]. by intros [= <- <-]. Qed.
Lemma send_now_wire opcode payload op p : send opcode payload = Some (op, p) -> (op, default [] p) = (opcode, payload).
Proof. by intros [= <- <-]. Qed.
Lemma send_nothing_wire opcode op p : send_nothing opcode = Some (op, p) -> (op, default [] p) = (opcode, []).
Proof. by intros [= <- <-]. Qed.

(** C19: A client's call reaches the X display.  The request that any call of the
    library sends is, for the X worker, the wire form of the call of the same name
    with the same arguments, so that when these are in the range of the display it
    makes that call and no other.  The library lets more through than the display
    takes, since other desktops take more: 64-bit windows, coordinates of 32 bits,
    a geometry that leaves parts of a window alone. *)
Theorem client_reaches_x11 {X} (run : x11_call -> X -> ksd_operation_result -> X * ksd_operation_result * list Z) failed
    (display : X) result sent call opcode payload id :
  client_x11 sent call -> sent = Some (opcode, payload) ->
  let request := call_frame opcode id (default [] payload) in
  (x11_call_ok call ->
    ksd_x11_execute_on run failed (Some display) request result
    = (let '(display, result, closed) := run call display result in (negb (failed display), Some display, result, closed))) /\
  (says request (x11_wire call)).
Proof.
  intros Hc Hs request. assert (Hw : (opcode, default [] payload) = x11_wire call).
  { destruct Hc;
      first [apply send_wire in Hs|apply send_unless_wire in Hs|apply send_now_wire in Hs|apply send_nothing_wire in Hs]; rewrite Hs;
      done. }
  assert (Hsays : says request (x11_wire call)) by (rewrite <- Hw; by unfold request).
  split; [|done]. intros Hok. by apply x11_execute_call.
Qed.

Lemma display_masks_served_witness :
  KSD_OP_WINDOW_CLICK <> KSD_OP_WINDOW_WATCH /\ Z.land (ksd_operation_bit KSD_OP_WINDOW_CLICK) (ksd_backend_operations KSD_BACKEND_X11) <> 0.
Proof.
  split; [discriminate|]. apply (proj1 (display_masks_served KSD_OP_WINDOW_CLICK ltac:(discriminate))).
  exists (X11WindowClick 1 0 0 1 1). split; [vm_compute; repeat split; discriminate|reflexivity].
Defined.

Lemma client_reaches_x11_witness :
  ksd_x11_execute_on (fun call (log : list x11_call) r => (call :: log, r, [])) (fun _ => false) (Some [])
    (call_frame KSD_OP_WINDOW_FOCUS 9 (default [] (Some (ksd_encode_u64 77)))) ksd_result_init
  = (true, Some [X11WindowFocus 77], ksd_result_init, []).
Proof.
  apply (proj1 (client_reaches_x11 (fun call (log : list x11_call) r => (call :: log, r, [])) (fun _ => false) [] ksd_result_init
    (ksd_window_focus 77) (X11WindowFocus 77) KSD_OP_WINDOW_FOCUS (Some (ksd_encode_u64 77)) 9 (ClientFocus 77) eq_refl)).
  vm_compute. split; discriminate.
Defined.

Lemma wayland_requests_exact_witness :
  let request := call_frame KSD_OP_WINDOW_CLOSE 3 (ksd_encode_u64 77) in
  fr_payload_length request = zlen (request_payload request) /\
  @ksd_wayland_execute_on infinite_memory _ (fun call (log : list wayland_call) r => (call :: log, r, [])) (fun _ => false)
    (fun _ => 1) (fun _ => None) (Some []) request ksd_result_init
  = (true, Some [WaylandWindowAction KSD_OP_WINDOW_CLOSE 77 0], ksd_result_init, []).
Proof.
  split; [reflexivity|].
  apply (proj1 (proj2 (proj1 (proj2 (@wayland_requests_exact infinite_memory _
    (fun call (log : list wayland_call) r => (call :: log, r, [])) (fun _ => false) (fun _ => 1) (fun _ => None) []
    (call_frame KSD_OP_WINDOW_CLOSE 3 (ksd_encode_u64 77)) ksd_result_init eq_refl))
    (WaylandWindowAction KSD_OP_WINDOW_CLOSE 77 0) false ltac:(vm_compute; intuition discriminate) ltac:(repeat split)))).
  discriminate.
Defined.
