(* ===== verification/Capture.v ===== *)
(** * KWin captures (src/local_capture.c)

    The one-shot capture of a KWin session: the request, the pipe that carries the
    image and the spool it is collected in, the metadata message of the child that
    speaks to KWin, and the conversion of the image into the form clients receive.
    The D-Bus calls, fork and the descriptors' properties are in the arguments.
    Images are rows of pixels in the formats of QImage; [pixel_value] says what a
    pixel of each means, which is the reference the conversion is held to. *)
From Stdlib Require Import ZArith Lia Strings.Byte Strings.String.
From stdpp Require Import base list option numbers tactics.
From S2P Require Import Prelude.
From S2P Require Import Protocol.
From S2P Require Import Codec.
From S2P Require Import Buffer.
From S2P Require Import Utf8.
From S2P Require Import Transport.
From S2P Require Import Frame.
From S2P Require Import Operations.
From S2P Require Import Result.
From S2P Require Import Observe.
From S2P Require Import ClientCalls.
From S2P Require Import Install.
From S2P Require Import DisplayCalls.
Local Open Scope Z_scope.
Local Open Scope ksd_scope.

Definition KSD_CAPTURE_TIMEOUT_MS : Z := 30000.
Definition KSD_MAX_WINDOW_HANDLE_BYTES : Z := 128.
Definition KSD_CAPTURE_METADATA_SIZE : Z := 32.
Definition capture_metadata_magic : list byte := cstr "KSCM".

(** [now] is the clock's reading. *)
Definition remaining_timeout (deadline now : Z) : Z :=
  if (now =? 0) || (deadline <=? now) then 0
  else let remaining := deadline - now in if INT_MAX <? remaining then INT_MAX else remaining.

(** ** The request *)

Definition valid_rectangle (x y width height : Z) : bool :=
  negb (width =? 0) && negb (height =? 0) && (width <=? KSD_MAX_CAPTURE_DIMENSION) && (height <=? KSD_MAX_CAPTURE_DIMENSION)
  && (u64 (width * height) <=? KSD_MAX_CAPTURE_PIXELS) && (x + width <=? INT32_MAX) && (y + height <=? INT32_MAX).

Inductive capture_request :=
| CaptureArea (x y width height : Z)
| CaptureWindow (handle : list byte) (include_decoration : bool).

Definition parse_request (request : ksd_frame) : option capture_request :=
  let cursor := ksd_cursor_init (request_payload request) (fr_payload_length request) in
  if fr_opcode request =? KSD_OP_CAPTURE_AREA then
    let* (x, cursor) := ksd_cursor_i32 cursor in
    let* (y, cursor) := ksd_cursor_i32 cursor in
    let* (width, cursor) := ksd_cursor_u32 cursor in
    let* (height, cursor) := ksd_cursor_u32 cursor in
    guard* ksd_cursor_finished cursor && valid_rectangle x y width height in
    Some (CaptureArea x y width height)
  else
    guard* fr_opcode request =? KSD_OP_CAPTURE_WINDOW in
    let* (flags, cursor) := ksd_cursor_u32 cursor in
    let* (length, cursor) := ksd_cursor_u32 cursor in
    guard* (Z.land flags (Z.lnot KSD_CAPTURE_WINDOW_INCLUDE_DECORATION) =? 0)
           && negb (length =? 0) && (length <=? KSD_MAX_WINDOW_HANDLE_BYTES) in
    let* (bytes, cursor) := ksd_cursor_bytes cursor length in
    guard* ksd_cursor_finished cursor && ksd_utf8_valid bytes false in
    Some (CaptureWindow bytes (negb (Z.land flags KSD_CAPTURE_WINDOW_INCLUDE_DECORATION =? 0))).

Definition ksd_local_capture_request_valid (request : ksd_frame) : bool :=
  match parse_request request with Some _ => true | None => false end.

(** ** Descriptors *)

Definition O_RDONLY : Z := 0.
Definition O_WRONLY : Z := 1.
Definition O_RDWR : Z := 2.
Definition O_ACCMODE : Z := 3.
Definition O_NONBLOCK : Z := 0x800.

Section descriptors.
(** The installation's owner and group, and what the kernel says of a descriptor:
    its status, its flags, negative when it has none, and its seals. *)
Variables (owner group : Z) (fstat : Z -> option file_status) (getfl seals : Z -> Z).

Definition ksd_capture_pipe_valid (descriptors : Z * Z) : bool :=
  let '(r, w) := descriptors in
  (0 <=? r) && (0 <=? w) && negb (r =? w)
  && match fstat r, fstat w with
     | Some read_status, Some write_status =>
       is_fifo read_status && is_fifo write_status
       && (st_dev read_status =? st_dev write_status) && (st_ino read_status =? st_ino write_status)
       && (st_uid read_status =? owner) && (st_uid write_status =? owner)
       && (st_gid read_status =? group) && (st_gid write_status =? group)
       && (Z.land (st_mode read_status) 0x1ff =? 0) && (Z.land (st_mode write_status) 0x1ff =? 0)
       && (0 <=? getfl r) && (0 <=? getfl w)
       && (Z.land (getfl r) O_ACCMODE =? O_RDONLY) && (Z.land (getfl w) O_ACCMODE =? O_WRONLY)
       && negb (Z.land (getfl r) O_NONBLOCK =? 0)
     | _, _ => false
     end.

Definition ksd_capture_spool_valid (descriptor : Z) : bool :=
  (0 <=? descriptor)
  && match fstat descriptor with
     | Some status =>
       is_regular status && (st_uid status =? owner) && (st_gid status =? group)
       && (Z.land (st_mode status) 0x1ff =? 0)
       && (0 <=? st_size status) && (st_size status <=? KSD_MAX_CAPTURE_BYTES)
       && (0 <=? getfl descriptor) && (Z.land (getfl descriptor) O_ACCMODE =? O_RDWR)
       && (0 <=? seals descriptor)
     | None => false
     end.
End descriptors.

(** ** Draining the pipe *)

(** What a splice or a read of a descriptor that does not block answers: it was
    interrupted; it would block, and the wait that follows takes these steps; up to
    [n] bytes; the end; an error. *)
Inductive pipe_outcome :=
| PipeIntr
| PipeWait (steps : list wait_step)
| PipeBytes (n : positive)
| PipeEof
| PipeError.

(** The loop of [ksd_capture_pipe_drain_until]: [pipe] is what the writer put in,
    [spool] what has been moved.  It gives whether it succeeded, with the length,
    and both afterwards; a splice that finds the pipe empty is made again. *)
Fixpoint drain_loop (deadline : Z) (turns : list pipe_outcome) (pipe spool : list byte)
    : option (option Z * list byte * list byte) :=
  match turns with
  | [] => None
  | PipeIntr :: turns => drain_loop deadline turns pipe spool
  | PipeWait steps :: turns =>
    match ksd_wait_until POLLIN deadline steps with
    | None => None
    | Some WaitOk => drain_loop deadline turns pipe spool
    | Some _ => Some (None, pipe, spool)
    end
  | PipeError :: _ => Some (None, pipe, spool)
  | PipeEof :: _ =>
    let total := zlen spool in
    Some (if KSD_MAX_CAPTURE_BYTES <? total then None else Some (u32 total), pipe, spool)
  | PipeBytes n :: turns =>
    let capacity := KSD_MAX_CAPTURE_BYTES + 1 - zlen spool in
    let chunk := if 1024 * 1024 <? capacity then 1024 * 1024 else capacity in
    let count := Z.min (Z.min (Zpos n) chunk) (zlen pipe) in
    if count =? 0 then drain_loop deadline turns pipe spool
    else
      let '(pipe, spool) := (zdrop count pipe, spool ++ ztake count pipe) in
      if KSD_MAX_CAPTURE_BYTES <? zlen spool then Some (None, pipe, spool)
      else drain_loop deadline turns pipe spool
  end.

(** [spool_valid], [truncated] and [rewound] are the outcomes of the calls before the loop. *)
Definition ksd_capture_pipe_drain_until (spool_valid truncated rewound : bool) (deadline : Z) (turns : list pipe_outcome)
    (pipe spool : list byte) : option (option Z * list byte * list byte) :=
  if negb (spool_valid && truncated && rewound) then Some (None, pipe, spool)
  else drain_loop deadline turns pipe [].

(** Reading exactly [length] bytes: the bytes, or [None] on failure, with what is
    left of the data and of the script. *)
Fixpoint read_exact (deadline length : Z) (turns : list pipe_outcome) (stream got : list byte)
    : option (option (list byte) * list byte * list pipe_outcome) :=
  if zlen got =? length then Some (Some got, stream, turns)
  else
    match turns with
    | [] => None
    | PipeIntr :: turns => read_exact deadline length turns stream got
    | PipeWait steps :: turns =>
      match ksd_wait_until POLLIN deadline steps with
      | None => None
      | Some WaitOk => read_exact deadline length turns stream got
      | Some _ => Some (None, stream, turns)
      end
    | PipeEof :: turns | PipeError :: turns => Some (None, stream, turns)
    | PipeBytes n :: turns =>
      let count := Z.min (Z.min (Zpos n) (length - zlen got)) (zlen stream) in
      if count =? 0 then Some (None, stream, turns)
      else read_exact deadline length turns (zdrop count stream) (got ++ ztake count stream)
    end.

Fixpoint require_pipe_eof (deadline : Z) (turns : list pipe_outcome) (stream : list byte) : option bool :=
  match turns with
  | [] => None
  | PipeEof :: _ => Some true
  | PipeBytes _ :: _ => Some (bytes_eqb stream [])
  | PipeIntr :: turns => require_pipe_eof deadline turns stream
  | PipeWait steps :: turns =>
    match ksd_wait_until POLLIN deadline steps with
    | None => None
    | Some WaitOk => require_pipe_eof deadline turns stream
    | Some _ => Some false
    end
  | PipeError :: _ => Some false
  end.

(** ** Pixels *)

Definition bytes_per_pixel (format : Z) : Z :=
  if any_of format [4; 5; 6; 16; 17; 18] then 4
  else if any_of format [13; 29] then 3
  else 0.

Definition premultiply (value alpha : byte) : byte := z2b ((b2z value * b2z alpha + 127) / 255).

(** What one turn of [convert_row]'s loop writes. *)
Definition convert_pixel (source : list byte) (format index : Z) : list byte :=
  if any_of format [13; 29] then
    let input i := nth (Z.to_nat (index * 3 + i)) source x00 in
    (if format =? 13 then [input 2; input 1; input 0] else [input 0; input 1; input 2]) ++ [z2b 255]
  else
    let input i := nth (Z.to_nat (index * 4 + i)) source x00 in
    let '(b, g, r, a) :=
      if any_of format [4; 5; 6]
      then (input 0, input 1, input 2, if format =? 4 then z2b 255 else input 3)
      else (input 2, input 1, input 0, if format =? 16 then z2b 255 else input 3) in
    if any_of format [5; 17] then [premultiply b a; premultiply g a; premultiply r a; a] else [b; g; r; a].

Definition convert_row (source : list byte) (width format : Z) : list byte :=
  concat (map (fun index => convert_pixel source format (Z.of_nat index)) (seq 0 (Z.to_nat width))).

Section encode.
Context {AL : Allocator}.

(** The loop over the rows, with the clock read before each. *)
Fixpoint encode_rows (rows : nat) (source_stride width source_format deadline : Z) (nows : list Z)
    (turns : list pipe_outcome) (stream : list byte) : option (option (list byte) * list byte * list pipe_outcome) :=
  match rows with
  | O => Some (Some [], stream, turns)
  | S rows =>
    let* now := head nows in
    if remaining_timeout deadline now <=? 0 then Some (None, stream, turns)
    else
      let* (row, stream, turns) := read_exact deadline source_stride turns stream [] in
      match row with
      | None => Some (None, stream, turns)
      | Some row =>
        let* (rest, stream, turns) :=
          encode_rows rows source_stride width source_format deadline (tail nows) turns stream in
        Some (option_map (app (convert_row row width source_format)) rest, stream, turns)
      end
  end.

Definition encode_capture (width height source_stride source_format deadline : Z) (nows : list Z) (turns : list pipe_outcome)
    (image : list byte) (result : ksd_operation_result) : option (bool * ksd_operation_result * list Z) :=
  let source_bpp := bytes_per_pixel source_format in
  let source_length := u64 (source_stride * height) in
  let output_stride := u64 (width * 4) in
  let output_length := u64 (output_stride * height) in
  if (width =? 0) || (height =? 0) || (KSD_MAX_CAPTURE_DIMENSION <? width) || (KSD_MAX_CAPTURE_DIMENSION <? height)
     || (KSD_MAX_CAPTURE_PIXELS <? u64 (width * height)) || (source_bpp =? 0) || (source_stride <? u64 (width * source_bpp))
     || (source_length =? 0) || (KSD_MAX_CAPTURE_BYTES <? source_length)
     || (output_length =? 0) || (KSD_MAX_CAPTURE_BYTES <? output_length) || (UINT32_MAX <? output_stride)
  then Some (false, result, [])
  else if negb (alloc_ok (20 + output_length) && alloc_ok source_stride) then Some (false, result, [])
  else
    let header := ksd_encode_u16 KSD_CAPTURE_FORMAT_BGRA8_PREMULTIPLIED ++ ksd_encode_u16 0 ++ ksd_encode_u32 width
      ++ ksd_encode_u32 height ++ ksd_encode_u32 (u32 output_stride) ++ ksd_encode_u32 (u32 output_length) in
    let* (pixels, image, turns) :=
      encode_rows (Z.to_nat height) source_stride width source_format deadline nows turns image in
    match pixels with
    | None => Some (false, result, [])
    | Some pixels =>
      let* ended := require_pipe_eof deadline turns image in
      if ended then Some (ksd_result_take result (Some (header ++ pixels)) (u32 (20 + u32 output_length)))
      else Some (false, result, [])
    end.
End encode.

(** ** Metadata *)

Definition capture_metadata_valid (width height stride format : Z) : bool :=
  let source_bpp := bytes_per_pixel format in
  negb (width =? 0) && negb (height =? 0) && (width <=? KSD_MAX_CAPTURE_DIMENSION) && (height <=? KSD_MAX_CAPTURE_DIMENSION)
  && (u64 (width * height) <=? KSD_MAX_CAPTURE_PIXELS) && negb (source_bpp =? 0) && (u64 (width * source_bpp) <=? stride)
  && (u64 (stride * height) <=? KSD_MAX_CAPTURE_BYTES).

Record capture_metadata := mk_metadata { md_status : Z; md_width : Z; md_height : Z; md_stride : Z; md_format : Z }.

(** The message [send_capture_metadata] sends. *)
Definition capture_metadata_message (m : capture_metadata) : list byte :=
  capture_metadata_magic ++ ksd_encode_u16 1 ++ [x00; x00] ++ ksd_encode_u32 (md_status m) ++ ksd_encode_u32 (md_width m)
  ++ ksd_encode_u32 (md_height m) ++ ksd_encode_u32 (md_stride m) ++ ksd_encode_u32 (md_format m) ++ [x00; x00; x00; x00].

(** The send of a message socket: interrupted any number of times, then a count, [-1] on failure. *)
Fixpoint send_message (calls : list (option Z)) (length : Z) : option bool :=
  match calls with
  | [] => None
  | None :: calls => send_message calls length
  | Some written :: _ => Some (written =? length)
  end.

Definition send_capture_metadata (calls : list (option Z)) (m : capture_metadata) : option (bool * list byte) :=
  let message := capture_metadata_message m in
  let* sent := send_message calls (zlen message) in Some (sent, if sent then message else []).

(** What one recv of the metadata socket gives: a message, or [None] when it fails. *)
Definition parse_capture_metadata (message : option (list byte)) : option capture_metadata :=
  let* message := message in
  guard* (zlen message =? KSD_CAPTURE_METADATA_SIZE) && bytes_eqb (ztake 4 message) capture_metadata_magic
         && (ksd_decode_u16 (zdrop 4 message) =? 1) && (ksd_decode_u16 (zdrop 6 message) =? 0)
         && (ksd_decode_u32 (zdrop 28 message) =? 0) in
  let m := mk_metadata (ksd_decode_u32 (zdrop 8 message)) (ksd_decode_u32 (zdrop 12 message)) (ksd_decode_u32 (zdrop 16 message))
             (ksd_decode_u32 (zdrop 20 message)) (ksd_decode_u32 (zdrop 24 message)) in
  guard* (md_status m =? KSD_STATUS_OK) || (md_status m =? KSD_STATUS_TIMEOUT) || (md_status m =? KSD_STATUS_UNAVAILABLE) in
  Some m.

(** The loop of [receive_capture_metadata]. *)
Fixpoint receive_capture_metadata (deadline : Z) (steps : list wait_step) (message : option (list byte))
    : option (option capture_metadata) :=
  match steps with
  | [] => None
  | step :: steps =>
    if remaining_timeout deadline (ws_now step) <=? 0 then Some None
    else
      match ws_poll step with
      | PollIntr => receive_capture_metadata deadline steps message
      | PollFailed | PollTimedOut => Some None
      | PollReady revents =>
        if negb (Z.land revents (Z.lor POLLERR POLLNVAL) =? 0) || (Z.land revents POLLIN =? 0) then Some None
        else Some (parse_capture_metadata message)
      end
  end.

(** KWin's answer to the capture: the members of its results, [None] when absent. *)
Record kwin_reply := mk_reply {
  rp_type : option (list byte);
  rp_width : option Z; rp_height : option Z; rp_stride : option Z; rp_format : option Z;
}.

(** The status the child reports and the metadata with it, after the call, if it
    was made; [late] is whether the time had run out by then. *)
Definition kwin_capture_metadata (request : capture_request) (reply : option kwin_reply) (late : bool) : capture_metadata :=
  let failed := mk_metadata (if late then KSD_STATUS_TIMEOUT else KSD_STATUS_UNAVAILABLE) 0 0 0 0 in
  match reply with
  | None => failed
  | Some reply =>
    match rp_type reply, rp_width reply, rp_height reply, rp_stride reply, rp_format reply with
    | Some type, Some width, Some height, Some stride, Some format =>
      let as_asked := match request with
                      | CaptureArea _ _ w h => (width =? w) && (height =? h)
                      | CaptureWindow _ _ => true
                      end in
      if bytes_eqb type (cstr "raw") && as_asked && capture_metadata_valid width height stride format
      then mk_metadata KSD_STATUS_OK width height stride format else failed
    | _, _, _, _, _ => failed
    end
  end.

(** ** A whole capture *)

(** What waitpid says of the child. *)
Inductive child_outcome := ChildRunning | ChildExited (status : Z) | ChildKilled | ChildIntr | ChildError.

(** Whether the child exited with 0, and whether it was reaped. *)
Fixpoint wait_capture_child (deadline : Z) (polls : list (child_outcome * Z)) : option (bool * bool) :=
  match polls with
  | [] => None
  | (ChildExited status, _) :: _ => Some (status =? 0, true)
  | (ChildKilled, _) :: _ => Some (false, true)
  | (ChildError, _) :: _ => Some (false, false)
  | (_, now) :: polls => if remaining_timeout deadline now <=? 0 then Some (false, false) else wait_capture_child deadline polls
  end.

(** What the calls of [ksd_local_capture_execute] answer. *)
Record capture_run := mk_run {
  cr_deadline : Z;
  cr_pipe_valid : bool; cr_spool_valid : bool;
  cr_metadata : option (Z * Z);            (** the pair of sockets *)
  cr_child_write : Z; cr_child_metadata : Z;
  cr_fork : Z;                             (** the child's process, negative on failure *)
  cr_drain : option Z;                     (** the length drained *)
  cr_spool_size : Z;                       (** the size of the spool afterwards *)
  cr_received : option capture_metadata;
  cr_waited : bool * bool;                 (** the child's success, and whether it was reaped *)
  cr_sealed : bool; cr_rewound : bool;
  cr_nows : list Z; cr_turns : list pipe_outcome; cr_image : list byte;  (** reading the image back *)
  cr_late : bool;                          (** the time has run out at the end *)
}.

Definition nonnegative (fds : list Z) : list Z := List.filter (Z.leb 0) fds.

Section execute.
Context {AL : Allocator}.

(** The label [failed]: an error, if the result is a success. *)
Definition capture_failed (run : capture_run) (drain_valid : bool) (metadata : option capture_metadata)
    (result : ksd_operation_result) : ksd_operation_result * list Z :=
  if res_status result =? KSD_STATUS_OK then
    let failure_status :=
      match metadata with
      | Some m => if md_status m =? KSD_STATUS_OK then KSD_STATUS_UNAVAILABLE else md_status m
      | None => KSD_STATUS_UNAVAILABLE
      end in
    let failure_status :=
      if cr_late run then KSD_STATUS_TIMEOUT
      else if negb drain_valid && (KSD_MAX_CAPTURE_BYTES <? cr_spool_size run) then KSD_STATUS_RESOURCE_EXHAUSTED
      else failure_status in
    ksd_result_error result failure_status 0
      (Some (cstr (if failure_status =? KSD_STATUS_TIMEOUT then "KWin capture timed out" else "KWin capture failed")))
  else (result, []).

(** The result, the descriptors closed and the child terminated, if one was. *)
Definition ksd_local_capture_execute (run : capture_run) (request : ksd_frame) (capture_read_fd capture_write_fd capture_spool_fd : Z)
    (trusted_kwin_pid : Z) : option (ksd_operation_result * list Z * option Z) :=
  let result := ksd_result_init in
  let own := [capture_read_fd; capture_write_fd; capture_spool_fd] in
  match (if cr_pipe_valid run && cr_spool_valid run && (0 <? trusted_kwin_pid) then parse_request request else None) with
  | None =>
    let '(result, closed) := ksd_result_error result KSD_STATUS_INVALID_REQUEST 0 (Some (cstr "invalid KWin capture payload")) in
    Some (result, closed ++ nonnegative own, None)
  | Some parsed =>
    match cr_metadata run with
    | None =>
      let '(result, closed) := capture_failed run false None result in
      Some (result, closed ++ nonnegative own, None)
    | Some (m0, m1) =>
      if (cr_child_write run <? 0) || (cr_child_metadata run <? 0) || (cr_fork run <? 0) then
        let '(result, closed) := capture_failed run false None result in
        Some (result, closed ++ nonnegative ([cr_child_write run; cr_child_metadata run; m0; m1] ++ own), None)
      else
        let closed := [cr_child_write run; cr_child_metadata run; m1; capture_write_fd; capture_read_fd] in
        let drain_valid := match cr_drain run with Some _ => true | None => false end in
        let '(child_valid, child_reaped) := cr_waited run in
        let child := if child_reaped then None else Some (cr_fork run) in
        let complete :=
          match cr_drain run, cr_received run with
          | Some length, Some m =>
            guard* child_valid && (md_status m =? KSD_STATUS_OK)
                   && capture_metadata_valid (md_width m) (md_height m) (md_stride m) (md_format m)
                   && (u64 (md_stride m * md_height m) =? length) && cr_sealed run && cr_rewound run in
            Some m
          | _, _ => None
          end in
        let* (encoded, result, closed') :=
          match complete with
          | Some m => encode_capture (md_width m) (md_height m) (md_stride m) (md_format m) (cr_deadline run) (cr_nows run)
                        (cr_turns run) (cr_image run) result
          | None => Some (false, result, [])
          end in
        let '(result, closed'') :=
          if (encoded : bool) then (result, []) else capture_failed run drain_valid (cr_received run) result in
        Some (result, closed ++ closed' ++ closed'' ++ nonnegative [m0; capture_spool_fd], child)
    end
  end.
End execute.

(** ** The tail of a capture *)

Definition ksd_capture_tail_valid (tail : option (list byte)) (tail_length : Z) : bool :=
  match tail with
  | None => false
  | Some bytes =>
    if tail_length <? 20 then false
    else
      let format := ksd_decode_u16 bytes in
      let reserved := ksd_decode_u16 (zdrop 2 bytes) in
      let width := ksd_decode_u32 (zdrop 4 bytes) in
      let height := ksd_decode_u32 (zdrop 8 bytes) in
      let stride := ksd_decode_u32 (zdrop 12 bytes) in
      let length := ksd_decode_u32 (zdrop 16 bytes) in
      if negb (reserved =? 0) || (width =? 0) || (height =? 0) || (KSD_MAX_CAPTURE_DIMENSION <? width)
         || (KSD_MAX_CAPTURE_DIMENSION <? height) || (KSD_MAX_CAPTURE_PIXELS <? u64 (width * height))
         || (length =? 0) || (KSD_MAX_CAPTURE_BYTES <? length) || negb (tail_length =? u32 (20 + length))
      then false
      else if format =? KSD_CAPTURE_FORMAT_PNG then stride =? 0
      else (format =? KSD_CAPTURE_FORMAT_BGRA8_PREMULTIPLIED) && (u64 (width * 4) <=? stride) && (u64 (stride * height) =? length)
  end.

(** ** Requests *)

Definition capture_wire (r : capture_request) : Z * list byte :=
  match r with
  | CaptureArea x y width height =>
    (KSD_OP_CAPTURE_AREA, encode_i32 x ++ encode_i32 y ++ ksd_encode_u32 width ++ ksd_encode_u32 height)
  | CaptureWindow handle include_decoration => (KSD_OP_CAPTURE_WINDOW, encode_bool include_decoration ++ text_tail handle)
  end.
Definition capture_request_ok (r : capture_request) : Prop :=
  match r with
  | CaptureArea x y width height =>
    is_i32 x /\ is_i32 y /\ 1 <= width <= KSD_MAX_CAPTURE_DIMENSION /\ 1 <= height <= KSD_MAX_CAPTURE_DIMENSION /\
    width * height <= KSD_MAX_CAPTURE_PIXELS /\ x + width <= INT32_MAX /\ y + height <= INT32_MAX
  | CaptureWindow handle _ => 1 <= zlen handle /\ utf8_within handle KSD_MAX_WINDOW_HANDLE_BYTES
  end.

Lemma valid_rectangle_ok x y width height :
  is_u32 width -> is_u32 height ->
  valid_rectangle x y width height = true <->
  1 <= width <= KSD_MAX_CAPTURE_DIMENSION /\ 1 <= height <= KSD_MAX_CAPTURE_DIMENSION /\
  width * height <= KSD_MAX_CAPTURE_PIXELS /\ x + width <= INT32_MAX /\ y + height <= INT32_MAX.
Proof.
  intros Hw Hh. unfold valid_rectangle. rewrite u64_product by done.
  rewrite !andb_true_iff, !negb_true_iff, !Z.leb_le, !Z.eqb_neq. unfold is_u32 in *. lia.
Qed.

(** The reads of a request that is as it should be. *)
Ltac request_reads request Hlen Hp W R :=
  let c := fresh "c" in
  pose proof (request_cursor_wf request Hlen) as W; pose proof (request_cursor_rest request) as R; revert W R;
  generalize (ksd_cursor_init (request_payload request) (fr_payload_length request)) as c; intros c W R.

Lemma parse_request_exact request r :
  fr_payload_length request = zlen (request_payload request) ->
  parse_request request = Some r <-> capture_request_ok r /\ says request (capture_wire r).
Proof.
  intros Hlen. unfold parse_request. split.
  - request_reads request Hlen Hp W R. destruct (Z.eqb_spec (fr_opcode request) KSD_OP_CAPTURE_AREA) as [Hop|_].
    + repeat next_read. intros [= <-]. form_facts.
      match goal with H : valid_rectangle _ _ _ _ = true |- _ => apply valid_rectangle_ok in H; [|done..] end. split; [by split; [|split]|].
      apply says_payload; [done..|]. cbn [capture_wire snd]. form_done R.
    + destruct (Z.eqb_spec (fr_opcode request) KSD_OP_CAPTURE_WINDOW) as [Hop|_]; [|done]. do 2 next_read.
      destruct (_ && _ && _) eqn:Ef in |- *; [|done]. next_text. destruct (_ && _) eqn:Eu in |- *; [|done]. intros [= <-].
      breflect. at_end. assert (Hd : (Z.land v (Z.lnot KSD_CAPTURE_WINDOW_INCLUDE_DECORATION) =? 0) = true) by lia.
      apply decoration_flag in Hd; [|done].
      assert (Hb : negb (Z.land v KSD_CAPTURE_WINDOW_INCLUDE_DECORATION =? 0) = negb (v =? 0))
        by (assert (v = 0 \/ v = 1) as [-> | ->] by lia; done). rewrite Hb.
      split; [split; [pose proof (zlen_nonneg t); lia|done]|].
      apply says_payload; [done..|]. cbn [capture_wire snd]. to_bool v. unfold text_tail. form_done R.
  - intros [Hok (Hop & Hpay & _)]. pose proof Hpay as Hpay'. rewrite Hop.
    request_reads request Hlen Hp W R. rewrite Hpay in R. destruct r as [x y width height|handle d]; cbn [capture_wire fst snd] in *.
    + destruct Hok as (Hx & Hy & Hw & Hh & Hrest). assert (is_u32 width /\ is_u32 height) as [Hwu Hhu]
        by (unfold is_u32, KSD_MAX_CAPTURE_DIMENSION in *; lia).
      known_opcode. symmetry in R. rewrite <- (app_nil_r (ksd_encode_u32 height)) in R. repeat give_read. by rewrite (proj2 (valid_rectangle_ok x y width height Hwu Hhu)).
    + destruct Hok as [Hn [Hl Hv]]. known_opcode. symmetry in R. rewrite <- (app_nil_r (text_tail handle)) in R. unfold encode_bool in R.
      give_read. assert (Hu : is_u32 (zlen handle)) by (by eapply within_u32; [|split; eassumption]).
      destruct (reads_text _ handle [] Hu W0 R0) as (c1 & c2 & -> & -> & W2 & R2).
      rewrite (proj2 (Z.eqb_neq (zlen handle) 0)), (proj2 (Z.leb_le (zlen handle) _)) by lia.
      rewrite (finished_end _ W2 R2), Hv. by destruct d.
Qed.

(** ** Tails *)

Lemma peel_u16 data : 2 <= zlen data -> exists v rest, is_u16 v /\ data = ksd_encode_u16 v ++ rest /\ zlen rest = zlen data - 2.
Proof.
  intros H. destruct (u16_list (ztake 2 data)) as [E Hv]; [by apply zlen_ztake|].
  exists (ksd_decode_u16 (ztake 2 data)), (zdrop 2 data). rewrite E, ztake_zdrop. split; [done|]. split; [done|]. apply zlen_zdrop. lia.
Qed.
Lemma peel_u32 data : 4 <= zlen data -> exists v rest, is_u32 v /\ data = ksd_encode_u32 v ++ rest /\ zlen rest = zlen data - 4.
Proof.
  intros H. destruct (u32_list (ztake 4 data)) as [E Hv]; [by apply zlen_ztake|].
  exists (ksd_decode_u32 (ztake 4 data)), (zdrop 4 data). rewrite E, ztake_zdrop. split; [done|]. split; [done|]. apply zlen_zdrop. lia.
Qed.

Definition tail_header (format reserved width height stride length : Z) : list byte :=
  ksd_encode_u16 format ++ ksd_encode_u16 reserved ++ ksd_encode_u32 width ++ ksd_encode_u32 height ++ ksd_encode_u32 stride
  ++ ksd_encode_u32 length.

Lemma tail_header_of data : 20 <= zlen data -> exists f r w h s l rest,
  is_u16 f /\ is_u16 r /\ is_u32 w /\ is_u32 h /\ is_u32 s /\ is_u32 l /\
  data = tail_header f r w h s l ++ rest /\ zlen data = 20 + zlen rest.
Proof.
  intros H. destruct (peel_u16 data) as (f & k1 & Hf & -> & H1); [lia|]. destruct (peel_u16 k1) as (r & k2 & Hr & -> & H2); [lia|].
  destruct (peel_u32 k2) as (w & k3 & Hw & -> & H3); [lia|]. destruct (peel_u32 k3) as (h & k4 & Hh & -> & H4); [lia|].
  destruct (peel_u32 k4) as (s & k5 & Hs & -> & H5); [lia|]. destruct (peel_u32 k5) as (l & rest & Hl & -> & H6); [lia|].
  exists f, r, w, h, s, l, rest. do 7 (split; [done|]). lia.
Qed.

Lemma tail_words f r w h s l rest :
  is_u16 f -> is_u16 r -> is_u32 w -> is_u32 h -> is_u32 s -> is_u32 l ->
  let data := tail_header f r w h s l ++ rest in
  ksd_decode_u16 data = f /\ ksd_decode_u16 (zdrop 2 data) = r /\ ksd_decode_u32 (zdrop 4 data) = w /\
  ksd_decode_u32 (zdrop 8 data) = h /\ ksd_decode_u32 (zdrop 12 data) = s /\ ksd_decode_u32 (zdrop 16 data) = l.
Proof.
  intros Hf Hr Hw Hh Hs Hl data. unfold data, tail_header. rewrite <- !app_assoc.
  split; [rewrite decode_encode_u16; by apply u16_id|]. split; [etransitivity; [apply decode_encode_u16|by apply u16_id]|].
  split; [by apply decode_u32_app|]. split; [by apply decode_u32_app|]. split; [by apply decode_u32_app|by apply decode_u32_app].
Qed.

Lemma capture_tail_header c :
  capture_tail c = tail_header (cap_format c) 0 (cap_width c) (cap_height c) (cap_stride c) (zlen (cap_data c)) ++ cap_data c.
Proof. unfold capture_tail, tail_header, text_tail. by rewrite <- !app_assoc. Qed.

Lemma tail_valid_capture f r w h s l rest :
  is_u16 f -> is_u16 r -> is_u32 w -> is_u32 h -> is_u32 s -> is_u32 l -> zlen rest + 20 < 2 ^ 32 ->
  ksd_capture_tail_valid (Some (tail_header f r w h s l ++ rest)) (20 + zlen rest) = true <->
  r = 0 /\ l = zlen rest /\ capture_wf (mk_capture f w h s rest).
Proof.
  intros Hf Hr Hw Hh Hs Hl Hsz. unfold ksd_capture_tail_valid.
  pose proof (tail_words f r w h s l rest Hf Hr Hw Hh Hs Hl) as H. cbv zeta in H. destruct H as (-> & -> & -> & -> & -> & ->).
  pose proof (zlen_nonneg rest) as Hz. rewrite (proj2 (Z.ltb_ge _ _)) by lia. unfold capture_wf. cbn [cap_format cap_width cap_height cap_stride cap_data].
  rewrite (u64_product w h), (u64_product s h), (u64_product w 4) by done.
  unfold KSD_CAPTURE_FORMAT_PNG, KSD_CAPTURE_FORMAT_BGRA8_PREMULTIPLIED, KSD_MAX_CAPTURE_BYTES, is_u32, u32 in *.
  match goal with |- context [if ?b then false else _] => destruct b eqn:E end.
  - split; [done|]. intros (-> & -> & H). exfalso. rewrite Z.mod_small in E by lia.
    rewrite !orb_true_iff, !negb_true_iff, !Z.eqb_eq, !Z.ltb_lt, !Z.eqb_neq in E. lia.
  - rewrite !orb_false_iff, !negb_false_iff, !Z.eqb_neq, !Z.ltb_ge, !Z.eqb_eq in E. destruct E as ((((((((E1 & E2) & E3) & E4) & E5) & E6) & E7) & E8) & E9).
    rewrite Z.mod_small in E9 by lia. assert (l = zlen rest) as -> by lia.
    destruct (Z.eqb_spec f 1) as [->|].
    + rewrite Z.eqb_eq. split; [intros ->; repeat split; (lia || (left; lia))|]. intros (_ & _ & _ & _ & _ & _ & [?|?]); lia.
    + rewrite !andb_true_iff, !Z.eqb_eq, Z.leb_le. split; [intros ((-> & ?) & ?); repeat split; (lia || (right; lia))|].
      intros (_ & _ & _ & _ & _ & _ & [?|?]); lia.
Qed.

Lemma capture_tail_exact data :
  zlen data < 2 ^ 32 ->
  ksd_capture_tail_valid (Some data) (zlen data) = true <-> exists c, data = capture_tail c /\ capture_wf c.
Proof.
  intros Hsz. split.
  - destruct (Z.ltb_spec (zlen data) 20) as [H|H].
    { unfold ksd_capture_tail_valid. by rewrite (proj2 (Z.ltb_lt _ _) H). }
    destruct (tail_header_of data H) as (f & r & w & h & s & l & rest & Hf & Hr & Hw & Hh & Hs & Hl & -> & Hn). rewrite Hn in *.
    rewrite (tail_valid_capture f r w h s l rest) by (done || lia). intros (-> & -> & Hc).
    eexists. split; [|exact Hc]. by rewrite capture_tail_header.
  - intros (c & -> & Hc). destruct (capture_wf_u32 c Hc) as (Hf & Hw & Hh & Hs & Hd). rewrite capture_tail_header in *.
    assert (Hn : zlen (tail_header (cap_format c) 0 (cap_width c) (cap_height c) (cap_stride c) (zlen (cap_data c)) ++ cap_data c)
      = 20 + zlen (cap_data c)) by (rewrite zlen_app; done). rewrite Hn in *.
    apply tail_valid_capture; [done..|lia|]. split; [done|]. split; [done|]. by destruct c.
Qed.

(** ** Pixels *)

(** Where a pixel has its blue, green, red and alpha, the bytes it takes, and whether
    its colours are to be multiplied by the alpha: the formats RGB32, ARGB32,
    ARGB32_Premultiplied, RGB888, RGBX8888, RGBA8888, RGBA8888_Premultiplied and
    BGR888 of QImage. *)
Record pixel_layout := mk_layout { px_blue : Z; px_green : Z; px_red : Z; px_alpha : option Z; px_bytes : Z; px_straight : bool }.
Definition layout_of (format : Z) : option pixel_layout :=
  switch format
    [(4, Some (mk_layout 0 1 2 None 4 false)); (5, Some (mk_layout 0 1 2 (Some 3) 4 true));
     (6, Some (mk_layout 0 1 2 (Some 3) 4 false)); (13, Some (mk_layout 2 1 0 None 3 false));
     (16, Some (mk_layout 2 1 0 None 4 false)); (17, Some (mk_layout 2 1 0 (Some 3) 4 true));
     (18, Some (mk_layout 2 1 0 (Some 3) 4 false)); (29, Some (mk_layout 0 1 2 None 3 false))] None.

(** A byte of pixel [index] of a row. *)
Definition pixel_byte (layout : pixel_layout) (row : list byte) (index offset : Z) : Z :=
  b2z (nth (Z.to_nat (index * px_bytes layout + offset)) row x00).
Definition pixel_alpha (layout : pixel_layout) (row : list byte) (index : Z) : Z :=
  match px_alpha layout with Some offset => pixel_byte layout row index offset | None => 255 end.

(** [out] is the colour [value] with the coverage [alpha]: itself, or the nearest
    byte to [value * alpha / 255]. *)
Definition covered (straight : bool) (value alpha out : Z) : Prop :=
  if straight then - 127 <= 255 * out - value * alpha <= 127 /\ out <= alpha else out = value.

Lemma premultiply_spec v a :
  let p := b2z (premultiply v a) in
  - 127 <= 255 * p - b2z v * b2z a <= 127 /\ p <= b2z a /\ (b2z a = 255 -> p = b2z v) /\ (b2z a = 0 -> p = 0).
Proof.
  unfold premultiply. pose proof (b2z_range v). pose proof (b2z_range a).
  assert (0 <= b2z v * b2z a <= 255 * b2z a) by nia.
  pose proof (Z.div_mod (b2z v * b2z a + 127) 255 ltac:(lia)). pose proof (Z.mod_pos_bound (b2z v * b2z a + 127) 255 ltac:(lia)).
  set (q := (b2z v * b2z a + 127) / 255) in *. rewrite b2z_z2b_small by lia. cbv zeta. split; [lia|]. split; [lia|].
  split; intros E; rewrite E in *; lia.
Qed.

Lemma bytes_layout format : bytes_per_pixel format = match layout_of format with Some l => px_bytes l | None => 0 end.
Proof.
  unfold bytes_per_pixel, layout_of, any_of. cbn [existsb switch].
  repeat match goal with |- context [?a =? ?b] => destruct (Z.eqb_spec a b) as [->|]; [done|] end. done.
Qed.

Lemma convert_pixel_spec source format index layout :
  layout_of format = Some layout -> 0 <= index ->
  exists b g r a, convert_pixel source format index = [b; g; r; a] /\
    b2z a = pixel_alpha layout source index /\
    covered (px_straight layout) (pixel_byte layout source index (px_blue layout)) (b2z a) (b2z b) /\
    covered (px_straight layout) (pixel_byte layout source index (px_green layout)) (b2z a) (b2z g) /\
    covered (px_straight layout) (pixel_byte layout source index (px_red layout)) (b2z a) (b2z r).
Proof.
  intros Hl Hi. unfold layout_of in Hl. cbn [switch] in Hl.
  repeat match type of Hl with context [?a =? ?b] => destruct (Z.eqb_spec a b) as [->|] end; try done; injection Hl as <-;
    (eexists _, _, _, _; split; [reflexivity|]); (split; [done|]); cbn [px_straight px_blue px_green px_red];
    unfold covered, pixel_byte; cbn [px_bytes]; try (split; [done|split; done]);
    (split; [|split]); split; apply premultiply_spec.
Qed.

Lemma zlen_convert_pixel source format index : zlen (convert_pixel source format index) = 4.
Proof. unfold convert_pixel. destruct (any_of format [13; 29]); [by destruct (format =? 13)|]. destruct (any_of format [4; 5; 6]), (any_of format [5; 17]); done. Qed.

Lemma zlen_concat_const {A B} (f : A -> list B) n l : (forall x, zlen (f x) = n) -> zlen (concat (map f l)) = n * zlen l.
Proof. intros H. induction l as [|x l IH]; [cbn; change (zlen []) with 0; lia|]. cbn [map concat]. rewrite zlen_app, IH, H, zlen_cons. lia. Qed.

Lemma zlen_convert_row source width format : 0 <= width -> zlen (convert_row source width format) = 4 * width.
Proof.
  intros H. unfold convert_row. rewrite (zlen_concat_const _ 4) by (intros; apply zlen_convert_pixel). unfold zlen. rewrite length_seq. lia.
Qed.

(** The pixels of a row, in its result. *)
Lemma convert_row_pixel source width format index :
  0 <= index < width -> ztake 4 (zdrop (4 * index) (convert_row source width format)) = convert_pixel source format index.
Proof.
  intros H. unfold convert_row. set (f := fun k => convert_pixel source format (Z.of_nat k)).
  replace (Z.to_nat width) with (Z.to_nat index + S (Z.to_nat (width - index - 1)))%nat by lia.
  rewrite seq_app, map_app, concat_app. cbn [seq map concat].
  assert (E : zlen (concat (map f (seq 0 (Z.to_nat index)))) = 4 * index).
  { rewrite (zlen_concat_const _ 4) by (intros; apply zlen_convert_pixel). unfold zlen. rewrite length_seq. lia. }
  rewrite <- E, zdrop_app_l. assert (Ef : f (0 + Z.to_nat index)%nat = convert_pixel source format index) by (unfold f; f_equal; lia).
  rewrite Ef, <- (zlen_convert_pixel source format index). apply ztake_app_l.
Qed.

(** ** Reading *)

Lemma read_exact_spec dl len turns : forall stream got row rest turns',
  zlen got <= len -> read_exact dl len turns stream got = Some (Some row, rest, turns') ->
  row ++ rest = got ++ stream /\ zlen row = len.
Proof.
  induction turns as [|t turns IH]; intros stream got row rest turns' Hg; cbn [read_exact];
    (destruct (Z.eqb_spec (zlen got) len); [by intros [= <- <- <-]|]); [done|].
  destruct t as [|steps|k| |]; try done; [by apply IH| |].
  - destruct (ksd_wait_until _ _ _) as [[]|]; try done. by apply IH.
  - set (count := Z.min _ _). destruct (Z.eqb_spec count 0); [done|]. intros H. pose proof (zlen_nonneg stream).
    apply IH in H as [H1 H2]; [|rewrite zlen_app, zlen_ztake by lia; lia]. by rewrite <- app_assoc, ztake_zdrop in H1.
Qed.

(** A script that delivers: reads and waits succeed. *)
Definition delivers (dl : Z) (t : pipe_outcome) : Prop :=
  match t with
  | PipeIntr | PipeBytes _ => True
  | PipeWait steps => ksd_wait_until POLLIN dl steps = Some WaitOk
  | PipeEof | PipeError => False
  end.
Definition gives_bytes (t : pipe_outcome) : bool := match t with PipeBytes _ => true | _ => false end.
Definition deliveries (turns : list pipe_outcome) : Z := zlen (List.filter gives_bytes turns).
Lemma deliveries_nonneg turns : 0 <= deliveries turns.
Proof. apply zlen_nonneg. Qed.

Lemma read_exact_completes dl len turns : forall stream got,
  Forall (delivers dl) turns -> zlen got <= len <= zlen got + zlen stream -> len - zlen got <= deliveries turns ->
  exists row rest turns', read_exact dl len turns stream got = Some (Some row, rest, turns') /\
    Forall (delivers dl) turns' /\ deliveries turns - (len - zlen got) <= deliveries turns'.
Proof.
  induction turns as [|t turns IH]; intros stream got Hd Hl Hn; cbn [read_exact].
  - change (deliveries []) with 0 in Hn. rewrite (proj2 (Z.eqb_eq _ _)) by lia. eexists _, _, _. split; [done|]. split; [done|].
    change (deliveries []) with 0. lia.
  - destruct (Z.eqb_spec (zlen got) len); [eexists _, _, _; split; [done|]; split; [done|lia]|].
    apply Forall_cons_1 in Hd as [Ht Hd]. destruct t as [|steps|k| |]; try done; unfold deliveries in *; cbn [List.filter gives_bytes] in *.
    + by apply IH.
    + cbn in Ht. rewrite Ht. by apply IH.
    + rewrite zlen_cons in *. set (count := Z.min _ _). assert (Hc : 1 <= count <= zlen stream) by lia.
      rewrite (proj2 (Z.eqb_neq count 0)) by lia.
      destruct (IH (zdrop count stream) (got ++ ztake count stream) Hd) as (row & rest & turns' & E & Hd' & Hn');
        [rewrite zlen_app, zlen_ztake, zlen_zdrop by lia; lia|rewrite zlen_app, zlen_ztake by lia; lia|].
      rewrite E. eexists _, _, _. split; [done|]. split; [done|]. rewrite zlen_app, zlen_ztake in Hn' by lia. lia.
Qed.

Section encoding.
Context {AL : Allocator}.

Lemma encode_rows_spec stride w fmt dl n : forall nows turns stream pixels rest turns',
  0 <= stride -> encode_rows n stride w fmt dl nows turns stream = Some (Some pixels, rest, turns') ->
  exists rows, length rows = n /\ Forall (fun row => zlen row = stride) rows /\ stream = concat rows ++ rest /\
    pixels = concat (map (fun row => convert_row row w fmt) rows).
Proof.
  induction n as [|n IH]; intros nows turns stream pixels rest turns' Hs; cbn [encode_rows]; [intros [= <- <- <-]; by exists []|].
  destruct (head nows) as [now|]; [|done]. destruct (remaining_timeout dl now <=? 0); [done|].
  destruct (read_exact dl stride turns stream []) as [[[[row|] s] t]|] eqn:E; [|done..].
  apply read_exact_spec in E as [E1 E2]; [|done]. destruct (encode_rows n _ _ _ _ _ t s) as [[[[px|] s'] t']|] eqn:E'; try done.
  intros [= <- <- <-]. apply IH in E' as (rows & Hn & Hf & -> & ->); [|done]. exists (row :: rows). cbn [length map concat app].
  split; [by rewrite Hn|]. split; [by constructor|]. split; [|done]. cbn in E1. by rewrite <- E1, app_assoc.
Qed.

Lemma encode_rows_completes stride w fmt dl n : forall nows turns stream,
  0 <= stride -> Forall (fun now => 0 < now < dl) nows -> (n <= length nows)%nat -> Forall (delivers dl) turns ->
  stride * Z.of_nat n <= zlen stream -> stride * Z.of_nat n <= deliveries turns ->
  exists pixels rest turns', encode_rows n stride w fmt dl nows turns stream = Some (Some pixels, rest, turns') /\
    Forall (delivers dl) turns' /\ deliveries turns - stride * Z.of_nat n <= deliveries turns'.
Proof.
  induction n as [|n IH]; intros nows turns stream Hs Hnow Hl Hd Hz Hn; cbn [encode_rows].
  - eexists _, _, _. split; [done|]. split; [done|lia].
  - destruct nows as [|now nows]; [cbn in Hl; lia|]. apply Forall_cons_1 in Hnow as [Hnow Hnows]. cbn [head tail].
    unfold remaining_timeout. rewrite (proj2 (Z.eqb_neq now 0)), (proj2 (Z.leb_gt dl now)) by lia. cbn [orb].
    rewrite (proj2 (Z.leb_gt _ 0)) by (unfold INT_MAX; case_if; lia).
    destruct (read_exact_completes dl stride turns stream [] Hd) as (row & rest & turns' & E & Hd' & Hn');
      [change (zlen (@nil byte)) with 0; nia|change (zlen (@nil byte)) with 0; nia|].
    rewrite E. apply read_exact_spec in E as [E1 E2]; [|done]. cbn in E1.
    change (zlen (@nil byte)) with 0 in Hn'. rewrite <- E1, zlen_app in Hz.
    destruct (IH nows turns' rest Hs Hnows ltac:(cbn in Hl; lia) Hd') as (px & rest' & turns'' & -> & Hd'' & Hn''); [lia|lia|].
    eexists _, _, _. split; [done|]. split; [done|lia].
Qed.

(** What an encoded capture is. *)
Definition encoded_capture (width height : Z) (format : Z) (rows : list (list byte)) : ksd_capture :=
  mk_capture KSD_CAPTURE_FORMAT_BGRA8_PREMULTIPLIED width height (4 * width) (concat (map (fun row => convert_row row width format) rows)).

Lemma encoded_wf width height format rows :
  1 <= width <= KSD_MAX_CAPTURE_DIMENSION -> 1 <= height <= KSD_MAX_CAPTURE_DIMENSION -> width * height <= KSD_MAX_CAPTURE_PIXELS ->
  zlen rows = height -> capture_wf (encoded_capture width height format rows) /\
  zlen (cap_data (encoded_capture width height format rows)) = 4 * width * height.
Proof.
  intros Hw Hh Hp Hr. assert (E : zlen (cap_data (encoded_capture width height format rows)) = 4 * width * height).
  { cbn. rewrite (zlen_concat_const _ (4 * width)) by (intros; apply zlen_convert_row; lia). lia. }
  split; [|done]. unfold capture_wf. rewrite E. cbn [cap_width cap_height cap_format cap_stride encoded_capture].
  unfold KSD_MAX_CAPTURE_PIXELS, KSD_MAX_CAPTURE_BYTES in *. repeat split; lia.
Qed.

(** The checks of [encode_capture]. *)
Definition encodable (width height stride format : Z) : Prop :=
  1 <= width <= KSD_MAX_CAPTURE_DIMENSION /\ 1 <= height <= KSD_MAX_CAPTURE_DIMENSION /\ width * height <= KSD_MAX_CAPTURE_PIXELS /\
  bytes_per_pixel format <> 0 /\ width * bytes_per_pixel format <= stride /\ stride * height <= KSD_MAX_CAPTURE_BYTES.

Lemma bpp_range format : 0 <= bytes_per_pixel format <= 4.
Proof. unfold bytes_per_pixel. destruct (any_of _ _); [lia|]. destruct (any_of _ _); lia. Qed.

Lemma metadata_encodable width height stride format :
  is_u32 width -> is_u32 height -> is_u32 stride ->
  capture_metadata_valid width height stride format = true <-> encodable width height stride format.
Proof.
  intros Hw Hh Hs. unfold capture_metadata_valid, encodable. pose proof (bpp_range format).
  rewrite !u64_product by (done || unfold is_u32; lia). rewrite !andb_true_iff, !negb_true_iff, !Z.leb_le, !Z.eqb_neq.
  unfold is_u32 in *. lia.
Qed.

Lemma encode_guard width height stride format :
  is_u32 width -> is_u32 height -> is_u32 stride ->
  (width =? 0) || (height =? 0) || (KSD_MAX_CAPTURE_DIMENSION <? width) || (KSD_MAX_CAPTURE_DIMENSION <? height)
  || (KSD_MAX_CAPTURE_PIXELS <? u64 (width * height)) || (bytes_per_pixel format =? 0) || (stride <? u64 (width * bytes_per_pixel format))
  || (u64 (stride * height) =? 0) || (KSD_MAX_CAPTURE_BYTES <? u64 (stride * height))
  || (u64 (u64 (width * 4) * height) =? 0) || (KSD_MAX_CAPTURE_BYTES <? u64 (u64 (width * 4) * height)) || (UINT32_MAX <? u64 (width * 4)) = false
  <-> encodable width height stride format.
Proof.
  intros Hw Hh Hs. unfold encodable. pose proof (bpp_range format).
  rewrite (u64_product width height), (u64_product stride height), (u64_product width (bytes_per_pixel format)), (u64_product width 4)
    by (done || unfold is_u32; lia).
  assert (E : u64 (width * 4 * height) = width * 4 * height \/ KSD_MAX_CAPTURE_DIMENSION < width \/ KSD_MAX_CAPTURE_DIMENSION < height).
  { destruct (Z.lt_ge_cases KSD_MAX_CAPTURE_DIMENSION width); [tauto|]. left. apply u64_id. unfold is_u64, is_u32, KSD_MAX_CAPTURE_DIMENSION in *. nia. }
  rewrite !orb_false_iff, !Z.eqb_neq, !Z.ltb_ge. unfold is_u32 in *. unfold KSD_MAX_CAPTURE_PIXELS, KSD_MAX_CAPTURE_BYTES, UINT32_MAX, KSD_MAX_CAPTURE_DIMENSION in *.
  destruct E as [E|E]; [rewrite E|lia]. split; [lia|]. intros (? & ? & ? & ? & ? & ?). repeat split; try lia; nia.
Qed.
End encoding.

Section images.
Context {AL : Allocator}.

Lemma require_eof_completes dl turns : Forall (delivers dl) turns -> 1 <= deliveries turns -> require_pipe_eof dl turns [] = Some true.
Proof.
  induction 1 as [|t turns Ht _ IH]; intros Hn; [by change (deliveries []) with 0 in Hn|]. unfold deliveries in *.
  destruct t as [|steps|k| |]; try done; cbn [require_pipe_eof List.filter gives_bytes] in *; [by apply IH|].
  cbn in Ht. rewrite Ht. by apply IH.
Qed.

Lemma encode_capture_result w h s f dl nows turns image result ok r closed :
  is_u32 w -> is_u32 h -> is_u32 s ->
  encode_capture w h s f dl nows turns image result = Some (ok, r, closed) ->
  if ok then
    encodable w h s f /\ exists rows rest, zlen rows = h /\ Forall (fun row => zlen row = s) rows /\ image = concat rows ++ rest /\
      let tail := capture_tail (encoded_capture w h f rows) in
      r = mk_result KSD_STATUS_OK 0 [] (Some tail) (zlen tail) (-1) /\ closed = release_payload_fd result
  else r = result /\ closed = [].
Proof.
  intros Hw Hh Hs. unfold encode_capture.
  match goal with |- context [if ?b then Some (false, result, []) else _] => destruct b eqn:Eg end; [by intros [= <- <- <-]|].
  pose proof (proj1 (encode_guard w h s f Hw Hh Hs) Eg) as Hen. clear Eg.
  destruct (negb _) eqn:Ea in |- *; [by intros [= <- <- <-]|].
  destruct (encode_rows _ _ _ _ _ _ _ _) as [[[[px|] im] t]|] eqn:E; [|by intros [= <- <- <-]|done].
  destruct (require_pipe_eof dl t im) as [[]|]; [|by intros [= <- <- <-]|done].
  unfold is_u32 in Hs. apply encode_rows_spec in E as (rows & Hn & Hf & -> & ->); [|lia].
  pose proof Hen as (H1 & H2 & H3 & _). assert (Hr : zlen rows = h) by (unfold zlen, is_u32 in *; lia).
  destruct (encoded_wf w h f rows H1 H2 H3 Hr) as [Hc Hd].
  assert (Eo : u64 (w * 4) = 4 * w /\ u32 (4 * w) = 4 * w /\ u64 (4 * w * h) = 4 * w * h /\ u32 (4 * w * h) = 4 * w * h /\
    u32 (20 + 4 * w * h) = 20 + 4 * w * h).
  { unfold u32, u64, KSD_MAX_CAPTURE_DIMENSION, KSD_MAX_CAPTURE_PIXELS in *. rewrite !Z.mod_small by nia. lia. }
  destruct Eo as (-> & -> & -> & -> & ->). unfold ksd_result_take. rewrite bool_decide_eq_false_2, andb_false_r by done.
  intros [= <- <- <-]. split; [done|]. exists rows, im. split; [done|]. split; [done|]. split; [done|]. split; [|done].
  assert (Et : capture_tail (encoded_capture w h f rows) =
    ksd_encode_u16 KSD_CAPTURE_FORMAT_BGRA8_PREMULTIPLIED ++ ksd_encode_u16 0 ++ ksd_encode_u32 w ++ ksd_encode_u32 h
    ++ ksd_encode_u32 (4 * w) ++ ksd_encode_u32 (4 * w * h) ++ cap_data (encoded_capture w h f rows)).
  { unfold capture_tail, text_tail. by rewrite Hd. }
  assert (El : zlen (capture_tail (encoded_capture w h f rows)) = 20 + 4 * w * h).
  { rewrite Et, !zlen_app, Hd, !zlen_encode_u32, !zlen_encode_u16. lia. }
  rewrite El. f_equal. f_equal. rewrite Et. done.
Qed.

Lemma encode_capture_completes {AT : AllocTotal AL} w h s f dl nows turns image result :
  is_u32 w -> is_u32 h -> is_u32 s -> encodable w h s f ->
  zlen image = s * h -> h <= zlen nows -> Forall (fun now => 0 < now < dl) nows ->
  Forall (delivers dl) turns -> s * h + 1 <= deliveries turns ->
  exists r closed, encode_capture w h s f dl nows turns image result = Some (true, r, closed).
Proof.
  intros Hw Hh Hs Hen Him Hl Hnow Hd Hn. unfold encode_capture. rewrite (proj2 (encode_guard w h s f Hw Hh Hs) Hen).
  rewrite !alloc_total. cbn [andb negb]. unfold is_u32 in *.
  destruct (encode_rows_completes s w f dl (Z.to_nat h) nows turns image) as (px & rest & t & E & Ht & Hr);
    try done; rewrite ?Z2Nat.id by lia; try lia; [unfold zlen in Hl; lia|].
  rewrite E. apply encode_rows_spec in E as (rows & Hn' & Hf & E & _); [|lia].
  assert (rest = []) as ->.
  { apply (f_equal zlen) in E. rewrite zlen_app, Him in E. rewrite <- (map_id rows) in E.
    assert (Ec : zlen (concat (map (fun row : list byte => row) rows)) = s * zlen rows).
    { clear -Hf. induction Hf as [|row rows Hrow _ IH]; [change (zlen (@nil (list byte))) with 0; cbn; change (zlen (@nil byte)) with 0; lia|].
      cbn [map concat]. rewrite zlen_app, IH, Hrow, zlen_cons. lia. }
    rewrite Ec in E. replace (zlen rows) with h in E by (unfold zlen; lia).
    destruct rest as [|b rest]; [done|]. rewrite zlen_cons in E. pose proof (zlen_nonneg rest). lia. }
  rewrite require_eof_completes by (done || (rewrite Z2Nat.id in Hr by lia; lia)).
  unfold ksd_result_take. rewrite bool_decide_eq_false_2, andb_false_r by done. by eexists _, _.
Qed.
End images.

(** The bytes of a pixel of an image. *)
Definition image_pixel (data : list byte) (width row index : Z) : list byte := ztake 4 (zdrop (4 * (width * row + index)) data).

Lemma encoded_pixel width height format rows k row index :
  0 <= index < width -> rows !! k = Some row ->
  image_pixel (cap_data (encoded_capture width height format rows)) width (Z.of_nat k) index = convert_pixel row format index.
Proof.
  intros Hi Hk. unfold image_pixel. cbn [cap_data encoded_capture].
  rewrite <- (take_drop_middle rows k row Hk), map_app, concat_app. cbn [map concat].
  set (f := fun row => convert_row row width format).
  assert (E : zlen (concat (map f (take k rows))) = 4 * width * Z.of_nat k).
  { rewrite (zlen_concat_const f (4 * width)) by (intros; apply zlen_convert_row; lia). unfold zlen. rewrite length_take.
    apply lookup_lt_Some in Hk. rewrite Nat.min_l by lia. done. }
  replace (4 * (width * Z.of_nat k + index)) with (zlen (concat (map f (take k rows))) + 4 * index) by lia.
  rewrite <- zdrop_zdrop by (try apply zlen_nonneg; lia). rewrite zdrop_app_l.
  rewrite <- (convert_row_pixel row width format index Hi). unfold f, ztake, zdrop.
  rewrite drop_app_le by (pose proof (zlen_convert_row row width format ltac:(lia)) as Hz; unfold zlen in Hz; lia).
  apply take_app_le. rewrite length_drop. pose proof (zlen_convert_row row width format ltac:(lia)) as Hz. unfold zlen in Hz. lia.
Qed.

(** A captured image is what KWin drew.  Encoding an image either fails and
    leaves the result alone, or gives the tail of a capture that the client
    reads: premultiplied BGRA of the same width and height, made of rows that are
    the image's, in order, and whose every pixel has the alpha of its source and
    the colours of its source, multiplied by the alpha where the format of the
    source asks for it and then rounded to nearest, so that no colour exceeds the
    alpha.  It succeeds on a complete image within the limits that can be read
    in time. *)
Theorem capture_image_exact {AL : Allocator} w h s f dl nows turns image result :
  is_u32 w -> is_u32 h -> is_u32 s ->
  (forall ok r closed, encode_capture w h s f dl nows turns image result = Some (ok, r, closed) ->
    if ok then exists layout rows rest capture,
      layout_of f = Some layout /\ zlen rows = h /\ Forall (fun row => zlen row = s) rows /\ image = concat rows ++ rest /\
      res_status r = KSD_STATUS_OK /\ res_tail r = Some (capture_tail capture) /\ res_tail_length r = zlen (capture_tail capture) /\
      (AllocTotal AL -> parse_capture_tail (capture_tail capture) = Some capture) /\
      cap_format capture = KSD_CAPTURE_FORMAT_BGRA8_PREMULTIPLIED /\ cap_width capture = w /\ cap_height capture = h /\
      (forall k row index, rows !! k = Some row -> 0 <= index < w ->
        exists b g r a, image_pixel (cap_data capture) w (Z.of_nat k) index = [b; g; r; a] /\
          b2z a = pixel_alpha layout row index /\
          covered (px_straight layout) (pixel_byte layout row index (px_blue layout)) (b2z a) (b2z b) /\
          covered (px_straight layout) (pixel_byte layout row index (px_green layout)) (b2z a) (b2z g) /\
          covered (px_straight layout) (pixel_byte layout row index (px_red layout)) (b2z a) (b2z r))
    else r = result /\ closed = []) /\
  (AllocTotal AL -> capture_metadata_valid w h s f = true -> zlen image = s * h -> h <= zlen nows ->
    Forall (fun now => 0 < now < dl) nows -> Forall (delivers dl) turns -> s * h + 1 <= deliveries turns ->
    exists r closed, encode_capture w h s f dl nows turns image result = Some (true, r, closed)).
Proof.
  intros Hw Hh Hs. split.
  - intros ok r closed H. apply encode_capture_result in H; [|done..]. destruct ok; [|done].
    destruct H as (Hen & rows & rest & Hr & Hf & Him & -> & _). pose proof Hen as (H1 & H2 & H3 & Hb & _).
    rewrite bytes_layout in Hb. destruct (layout_of f) as [layout|] eqn:El; [|done].
    destruct (encoded_wf w h f rows H1 H2 H3 Hr) as [Hc _].
    exists layout, rows, rest, (encoded_capture w h f rows). do 7 (split; [done|]).
    split; [intros AT; by apply capture_result_exact|]. do 3 (split; [done|]).
    intros k row index Hk Hi. rewrite (encoded_pixel w h f rows k row index Hi Hk). apply convert_pixel_spec; [done|lia].
  - intros AT Hm. apply metadata_encodable in Hm; [|done..]. by apply encode_capture_completes.
Qed.

(** A capture of one row of two pixels, half covered red and opaque blue, in rows of nine bytes. *)
Definition sample_image : list byte := map z2b [0; 0; 255; 128; 255; 0; 0; 255; 7].

Lemma capture_image_exact_witness :
  is_u32 2 /\ is_u32 1 /\ is_u32 9 /\
  exists r closed, @encode_capture infinite_memory 2 1 9 5 1000 [10] (repeat (PipeBytes 5) 10) sample_image ksd_result_init
    = Some (true, r, closed).
Proof.
  assert (H2 : is_u32 2) by (split; [discriminate|reflexivity]). assert (H1 : is_u32 1) by (split; [discriminate|reflexivity]).
  assert (H9 : is_u32 9) by (split; [discriminate|reflexivity]). split; [done|]. split; [done|]. split; [done|].
  apply (proj2 (@capture_image_exact infinite_memory 2 1 9 5 1000 [10] (repeat (PipeBytes 5) 10) sample_image ksd_result_init H2 H1 H9) (fun _ => eq_refl)).
  - reflexivity.
  - reflexivity.
  - discriminate.
  - repeat constructor.
  - cbn [repeat]. repeat constructor.
  - discriminate.
Defined.

(** ** The pipe *)

Lemma drain_loop_spec dl turns : forall pipe spool len pipe' spool',
  zlen spool <= KSD_MAX_CAPTURE_BYTES -> drain_loop dl turns pipe spool = Some (len, pipe', spool') ->
  spool' ++ pipe' = spool ++ pipe /\ zlen spool' <= KSD_MAX_CAPTURE_BYTES + 1 /\
  match len with Some n => n = zlen spool' /\ n <= KSD_MAX_CAPTURE_BYTES | None => True end.
Proof.
  induction turns as [|t turns IH]; intros pipe spool len pipe' spool' Hs; cbn [drain_loop]; [done|].
  destruct t as [|steps|k| |]; [by apply IH| | | |].
  - destruct (ksd_wait_until _ _ _) as [[]|]; try done; [by apply IH|intros [= <- <- <-]; split; [done|lia]..].
  - set (chunk := if 1024 * 1024 <? KSD_MAX_CAPTURE_BYTES + 1 - zlen spool then 1024 * 1024 else _). set (count := Z.min _ _). destruct (Z.eqb_spec count 0); [by apply IH|].
    assert (Hc : 0 < count <= zlen pipe) by (unfold count, chunk in *; pose proof (zlen_nonneg pipe); case_if; lia).
    assert (Hl : count <= KSD_MAX_CAPTURE_BYTES + 1 - zlen spool) by (unfold count, chunk in *; case_if; breflect; lia).
    assert (Hz : zlen (spool ++ ztake count pipe) = zlen spool + count) by (rewrite zlen_app, zlen_ztake by lia; done).
    destruct (Z.ltb_spec KSD_MAX_CAPTURE_BYTES (zlen (spool ++ ztake count pipe))).
    + intros [= <- <- <-]. rewrite <- app_assoc, ztake_zdrop. split; [done|]. split; [lia|done].
    + intros H'. apply IH in H' as (E & H1 & H2); [|done]. rewrite <- app_assoc, ztake_zdrop in E. done.
  - rewrite (proj2 (Z.ltb_ge _ _) Hs). intros [= <- <- <-]. split; [done|]. split; [lia|]. pose proof (zlen_nonneg spool).
    enough (u32 (zlen spool) = zlen spool) by (split; lia). apply u32_id. unfold is_u32, KSD_MAX_CAPTURE_BYTES in *. lia.
  - intros [= <- <- <-]. split; [done|]. split; [lia|done].
Qed.

Lemma drain_loop_completes dl turns : forall pipe spool,
  zlen spool + zlen pipe <= KSD_MAX_CAPTURE_BYTES -> Forall (delivers dl) turns -> zlen pipe <= deliveries turns ->
  drain_loop dl (turns ++ [PipeEof]) pipe spool = Some (Some (zlen spool + zlen pipe), [], spool ++ pipe).
Proof.
  assert (Hend : forall spool : list byte, zlen spool <= KSD_MAX_CAPTURE_BYTES -> (if KSD_MAX_CAPTURE_BYTES <? zlen spool then None else Some (u32 (zlen spool)))
    = Some (zlen spool)).
  { intros spool H. rewrite (proj2 (Z.ltb_ge _ _) H). f_equal. pose proof (zlen_nonneg spool). apply u32_id.
    unfold is_u32, KSD_MAX_CAPTURE_BYTES in *. lia. }
  induction turns as [|t turns IH]; intros pipe spool Hs Hd Hn; cbn [app drain_loop].
  - change (deliveries []) with 0 in Hn. destruct pipe as [|b pipe]; [|rewrite zlen_cons in Hn; pose proof (zlen_nonneg pipe); lia].
    change (zlen (@nil byte)) with 0 in *. rewrite Hend by lia. by rewrite app_nil_r, Z.add_0_r.
  - apply Forall_cons_1 in Hd as [Ht Hd]. destruct t as [|steps|k| |]; try done; unfold deliveries in *; cbn [List.filter gives_bytes] in *.
    + by apply IH.
    + cbn in Ht. rewrite Ht. by apply IH.
    + rewrite zlen_cons in Hn. set (chunk := if 1024 * 1024 <? KSD_MAX_CAPTURE_BYTES + 1 - zlen spool then 1024 * 1024 else _). set (count := Z.min _ _). pose proof (zlen_nonneg pipe). pose proof (zlen_nonneg spool).
      assert (Hchunk : 1 <= chunk /\ chunk <= KSD_MAX_CAPTURE_BYTES + 1 - zlen spool) by (unfold chunk; case_if; breflect; lia).
      destruct (Z.eqb_spec count 0) as [E|E].
      * assert (zlen pipe = 0) by lia. apply IH; [done|done|]. pose proof (zlen_nonneg (List.filter gives_bytes turns)). lia.
      * assert (Hc : 0 < count <= zlen pipe) by lia.
        assert (Hz : zlen (spool ++ ztake count pipe) = zlen spool + count) by (rewrite zlen_app, zlen_ztake by lia; done).
        rewrite (proj2 (Z.ltb_ge KSD_MAX_CAPTURE_BYTES _)) by lia.
        rewrite IH; [|rewrite Hz, zlen_zdrop by lia; lia|done|rewrite zlen_zdrop by lia; lia].
        rewrite Hz, zlen_zdrop, <- app_assoc, ztake_zdrop by lia.
        by replace (zlen spool + count + (zlen pipe - count)) with (zlen spool + zlen pipe) by lia.
Qed.

(** The spool gets the pipe.  Whatever the sizes in which the kernel moves
    the image, the interruptions and the waits, what the spool holds is the first
    bytes the writer wrote, never more than one byte beyond the limit of a
    capture; a drain that succeeds reports their number, which is within the
    limit, and one whose reads keep succeeding until the writer is done moves
    everything when it is no more than that. *)
Theorem capture_drain_exact truncated rewound valid dl turns pipe old :
  (forall len pipe' spool', ksd_capture_pipe_drain_until valid truncated rewound dl turns pipe old = Some (len, pipe', spool') ->
    match len with
    | Some n => pipe = spool' ++ pipe' /\ n = zlen spool' /\ n <= KSD_MAX_CAPTURE_BYTES
    | None => (spool' = old /\ pipe' = pipe) \/ (pipe = spool' ++ pipe' /\ zlen spool' <= KSD_MAX_CAPTURE_BYTES + 1)
    end) /\
  (Forall (delivers dl) turns -> zlen pipe <= deliveries turns -> zlen pipe <= KSD_MAX_CAPTURE_BYTES ->
    ksd_capture_pipe_drain_until true true true dl (turns ++ [PipeEof]) pipe old = Some (Some (zlen pipe), [], pipe)).
Proof.
  split.
  - intros len pipe' spool'. unfold ksd_capture_pipe_drain_until. destruct (negb _); [intros [= <- <- <-]; by left|].
    intros H. apply drain_loop_spec in H as (E & H1 & H2); [|by vm_compute]. cbn in E.
    destruct len as [n|]; [by destruct H2|]. right. done.
  - intros Hd Hn Hm. unfold ksd_capture_pipe_drain_until. cbn [andb negb]. by rewrite drain_loop_completes.
Qed.

(** ** Metadata *)

Definition metadata_wf (m : capture_metadata) : Prop :=
  is_u32 (md_width m) /\ is_u32 (md_height m) /\ is_u32 (md_stride m) /\ is_u32 (md_format m) /\
  (md_status m = KSD_STATUS_OK \/ md_status m = KSD_STATUS_TIMEOUT \/ md_status m = KSD_STATUS_UNAVAILABLE).

(** A message of the right length, by its fields. *)
Definition message_of (a : list byte) (v r s w h t f z : Z) : list byte :=
  a ++ ksd_encode_u16 v ++ ksd_encode_u16 r ++ ksd_encode_u32 s ++ ksd_encode_u32 w ++ ksd_encode_u32 h ++ ksd_encode_u32 t
  ++ ksd_encode_u32 f ++ ksd_encode_u32 z.

Lemma message_fields message : zlen message = 32 -> exists a v r s w h t f z,
  zlen a = 4 /\ is_u16 v /\ is_u16 r /\ is_u32 s /\ is_u32 w /\ is_u32 h /\ is_u32 t /\ is_u32 f /\ is_u32 z /\
  message = message_of a v r s w h t f z.
Proof.
  intros Hl. assert (Ha : zlen (ztake 4 message) = 4) by (apply zlen_ztake; lia).
  assert (H0 : zlen (zdrop 4 message) = 28) by (rewrite zlen_zdrop; lia). rewrite <- (ztake_zdrop 4 message).
  revert Ha H0. generalize (ztake 4 message) as a, (zdrop 4 message) as k0. clear. intros a k0 Ha H0.
  destruct (peel_u16 k0) as (v & k1 & Hv & -> & H1); [lia|]. destruct (peel_u16 k1) as (r & k2 & Hr & -> & H2); [lia|].
  destruct (peel_u32 k2) as (s & k3 & Hs & -> & H3); [lia|]. destruct (peel_u32 k3) as (w & k4 & Hw & -> & H4); [lia|].
  destruct (peel_u32 k4) as (h & k5 & Hh & -> & H5); [lia|]. destruct (peel_u32 k5) as (t & k6 & Ht & -> & H6); [lia|].
  destruct (peel_u32 k6) as (f & k7 & Hf & -> & H7); [lia|]. destruct (peel_u32 k7) as (z & k8 & Hz & -> & H8); [lia|].
  destruct k8 as [|b k8]; [|rewrite zlen_cons in H8; pose proof (zlen_nonneg k8); lia].
  exists a, v, r, s, w, h, t, f, z. do 9 (split; [done|]). unfold message_of. by rewrite app_nil_r.
Qed.

Lemma message_words_app a v r s w h t f z k :
  zlen a = 4 -> is_u16 v -> is_u16 r -> is_u32 s -> is_u32 w -> is_u32 h -> is_u32 t -> is_u32 f -> is_u32 z ->
  let m := message_of a v r s w h t f z ++ k in
  zlen m = 32 + zlen k /\ ztake 4 m = a /\ ksd_decode_u16 (zdrop 4 m) = v /\ ksd_decode_u16 (zdrop 6 m) = r /\
  ksd_decode_u32 (zdrop 8 m) = s /\ ksd_decode_u32 (zdrop 12 m) = w /\ ksd_decode_u32 (zdrop 16 m) = h /\
  ksd_decode_u32 (zdrop 20 m) = t /\ ksd_decode_u32 (zdrop 24 m) = f /\ ksd_decode_u32 (zdrop 28 m) = z.
Proof.
  intros Ha Hv Hr Hs Hw Hh Ht Hf Hz. cbv zeta. unfold message_of.
  destruct a as [|a1 [|a2 [|a3 [|a4 [|a5 a]]]]];
    try done; [|repeat rewrite zlen_cons in Ha; pose proof (zlen_nonneg a); lia].
  split; [by rewrite zlen_app|]. rewrite <- !app_assoc. split; [done|].
  split; [etransitivity; [apply decode_encode_u16|by apply u16_id]|]. split; [etransitivity; [apply decode_encode_u16|by apply u16_id]|].
  do 5 (split; [by apply decode_u32_app|]). by apply decode_u32_app.
Qed.

Lemma message_words a v r s w h t f z :
  zlen a = 4 -> is_u16 v -> is_u16 r -> is_u32 s -> is_u32 w -> is_u32 h -> is_u32 t -> is_u32 f -> is_u32 z ->
  let m := message_of a v r s w h t f z in
  zlen m = 32 /\ ztake 4 m = a /\ ksd_decode_u16 (zdrop 4 m) = v /\ ksd_decode_u16 (zdrop 6 m) = r /\ ksd_decode_u32 (zdrop 8 m) = s /\
  ksd_decode_u32 (zdrop 12 m) = w /\ ksd_decode_u32 (zdrop 16 m) = h /\ ksd_decode_u32 (zdrop 20 m) = t /\
  ksd_decode_u32 (zdrop 24 m) = f /\ ksd_decode_u32 (zdrop 28 m) = z.
Proof.
  intros Ha Hv Hr Hs Hw Hh Ht Hf Hz. cbv zeta. pose proof (message_words_app a v r s w h t f z [] Ha Hv Hr Hs Hw Hh Ht Hf Hz) as H.
  cbv zeta in H. by rewrite app_nil_r in H.
Qed.

Lemma metadata_exact message m :
  parse_capture_metadata (Some message) = Some m <-> message = capture_metadata_message m /\ metadata_wf m.
Proof.
  assert (Hm : forall m, capture_metadata_message m
    = message_of capture_metadata_magic 1 0 (md_status m) (md_width m) (md_height m) (md_stride m) (md_format m) 0) by done.
  unfold parse_capture_metadata, KSD_CAPTURE_METADATA_SIZE. split.
  - destruct (Z.eqb_spec (zlen message) 32) as [Hl|]; [|done].
    destruct (message_fields message Hl) as (a & v & r & s & w & h & t & f & z & Ha & Hv & Hr & Hs & Hw & Hh & Ht & Hf & Hz & ->).
    destruct (message_words a v r s w h t f z Ha Hv Hr Hs Hw Hh Ht Hf Hz) as (_ & -> & -> & -> & -> & -> & -> & -> & -> & ->).
    cbn [andb md_status]. destruct (bytes_eqb a _ && _ && _ && _) eqn:E in |- *; [|done]. rewrite !andb_true_iff, !Z.eqb_eq in E.
    destruct E as (((E1 & ->) & ->) & ->). apply bool_decide_eq_true in E1 as ->.
    destruct (_ || _ || _) eqn:Es in |- *; [|done]. rewrite !orb_true_iff, !Z.eqb_eq in Es. intros [= <-].
    rewrite Hm. split; [done|]. split; [done|]. do 3 (split; [done|]). cbn [md_status]. tauto.
  - intros [-> (Hw & Hh & Hs & Hf & Ho)]. rewrite Hm.
    assert (Hst : is_u32 (md_status m)) by (unfold is_u32; destruct Ho as [-> |[-> | ->]]; split; (discriminate || reflexivity)).
    destruct (message_words capture_metadata_magic 1 0 (md_status m) (md_width m) (md_height m) (md_stride m) (md_format m) 0)
      as (-> & -> & -> & -> & -> & -> & -> & -> & -> & ->); try done.
    change (_ && _ && _ && _ && _) with true in |- *. cbn [md_status].
    assert (E : (md_status m =? KSD_STATUS_OK) || (md_status m =? KSD_STATUS_TIMEOUT) || (md_status m =? KSD_STATUS_UNAVAILABLE) = true)
      by (rewrite !orb_true_iff, !Z.eqb_eq; tauto).
    rewrite E. by destruct m.
Qed.

(** What the child says of a reply is a message the parent takes, and an image it takes
    is one the child found encodable. *)
Lemma kwin_metadata_wf request reply late :
  let m := kwin_capture_metadata request reply late in
  (forall r, reply = Some r -> match rp_width r, rp_height r, rp_stride r, rp_format r with
     | Some w, Some h, Some s, Some f => is_u32 w /\ is_u32 h /\ is_u32 s /\ is_u32 f | _, _, _, _ => True end) ->
  metadata_wf m /\ (md_status m = KSD_STATUS_OK -> encodable (md_width m) (md_height m) (md_stride m) (md_format m) /\
    match request with CaptureArea _ _ w h => md_width m = w /\ md_height m = h | CaptureWindow _ _ => True end).
Proof.
  intros m Hu. assert (Hfail : forall b : bool, metadata_wf (mk_metadata (if b then KSD_STATUS_TIMEOUT else KSD_STATUS_UNAVAILABLE) 0 0 0 0) /\
    (if b then KSD_STATUS_TIMEOUT else KSD_STATUS_UNAVAILABLE) <> KSD_STATUS_OK).
  { intros b. unfold metadata_wf. cbn [md_width md_height md_stride md_format md_status]. split; [|by destruct b].
    do 4 (split; [by unfold is_u32|]). destruct b; tauto. }
  destruct (Hfail late) as [Hf Hn]. unfold m, kwin_capture_metadata. clear m.
  destruct reply as [r|]; [|split; [done|by intros H; destruct Hn]]. specialize (Hu r eq_refl).
  destruct (rp_type r), (rp_width r) as [w|], (rp_height r) as [h|], (rp_stride r) as [s|], (rp_format r) as [f|];
    try (split; [done|by intros H; destruct Hn]).
  destruct Hu as (Hw & Hh & Hs & Hf'). destruct (_ && _ && _) eqn:E in |- *; [|split; [done|by intros H; destruct Hn]].
  rewrite !andb_true_iff in E. destruct E as [[_ Ea] Em]. apply metadata_encodable in Em; [|done..].
  split; [split; [done|split; [done|split; [done|split; [done|by left]]]]|]. intros _. split; [done|].
  destruct request as [x y rw rh|]; [|done]. rewrite andb_true_iff, !Z.eqb_eq in Ea. cbn. tauto.
Qed.

(** ** A whole capture *)

(** The descriptors a capture has when it ends: its own, and those it opened. *)
Definition capture_descriptors (run : capture_run) (accepted : bool) (own : list Z) : list Z :=
  own ++
  if accepted then
    match cr_metadata run with
    | Some (m0, m1) => nonnegative [cr_child_write run; cr_child_metadata run; m0; m1]
    | None => []
    end
  else [].

Definition capture_accepted (run : capture_run) (request : ksd_frame) (trusted_kwin_pid : Z) : bool :=
  cr_pipe_valid run && cr_spool_valid run && (0 <? trusted_kwin_pid)
  && match parse_request request with Some _ => true | None => false end.

Lemma failed_init {run dv m} : capture_failed run dv m ksd_result_init = (ksd_result_init, []).
Proof. done. Qed.

Lemma nonnegative_all l : Forall (fun fd => 0 <= fd) l -> nonnegative l = l.
Proof. unfold nonnegative. induction 1 as [|x l Hx _ IH]; [done|]. cbn [List.filter]. by rewrite (proj2 (Z.leb_le _ _) Hx), IH. Qed.

Lemma nonnegative_app l k : nonnegative (l ++ k) = nonnegative l ++ nonnegative k.
Proof. apply List.filter_app. Qed.

(** C20: A KWin capture, whatever happens.  On every path the pipe, the spool and
    the descriptors that were opened are closed once each, and the child process
    is terminated when it was started and not reaped.  The result is a capture
    only if everything was as it should be: the request was valid, the pipe was
    drained, the child exited with success and reported an image whose size is
    what was drained, the spool was sealed, and the image was encoded; then it is
    the image the metadata describes.  All other failures leave the result
    as it was made, with an internal error and no diagnostic: since a new result
    is not a success, the code that names the failure (the time limit, the size
    limit, what the child said) is never reached. *)
Theorem local_capture_execute_exact {AL : Allocator} run request r w s pid result closed child :
  0 <= r -> 0 <= w -> 0 <= s -> match cr_metadata run with Some (m0, m1) => 0 <= m0 /\ 0 <= m1 | None => True end ->
  (forall m, cr_received run = Some m -> metadata_wf m) ->
  ksd_local_capture_execute run request r w s pid = Some (result, closed, child) ->
  closed ≡ₚ capture_descriptors run (capture_accepted run request pid) [r; w; s] /\
  (child = Some (cr_fork run) \/ child = None) /\
  (child = None -> capture_accepted run request pid = false \/ cr_metadata run = None \/ cr_child_write run < 0 \/
     cr_child_metadata run < 0 \/ cr_fork run < 0 \/ snd (cr_waited run) = true) /\
  (capture_accepted run request pid = false ->
     result = fst (ksd_result_error ksd_result_init KSD_STATUS_INVALID_REQUEST 0 (Some (cstr "invalid KWin capture payload")))) /\
  (capture_accepted run request pid = true -> result <> ksd_result_init ->
     exists m rows rest, cr_received run = Some m /\ md_status m = KSD_STATUS_OK /\ fst (cr_waited run) = true /\
       cr_drain run = Some (md_stride m * md_height m) /\ cr_sealed run = true /\
       zlen rows = md_height m /\ Forall (fun row => zlen row = md_stride m) rows /\ cr_image run = concat rows ++ rest /\
       let tail := capture_tail (encoded_capture (md_width m) (md_height m) (md_format m) rows) in
       result = mk_result KSD_STATUS_OK 0 [] (Some tail) (zlen tail) (-1)).
Proof.
  intros Hr Hw Hs Hm Hwf. unfold ksd_local_capture_execute, capture_accepted, capture_descriptors.
  assert (Hown : nonnegative [r; w; s] = [r; w; s]) by (apply nonnegative_all; repeat constructor; done).
  cbv zeta. rewrite !Hown.
  destruct (cr_pipe_valid run && cr_spool_valid run && (0 <? pid)); cbn [andb]; [|intros [= <- <- <-]; repeat split; try tauto; by rewrite ?app_nil_r].
  destruct (parse_request request); [|intros [= <- <- <-]; repeat split; try tauto; by rewrite ?app_nil_r].
  destruct (cr_metadata run) as [[m0 m1]|]; [|intros [= <- <- <-]; repeat split; try tauto; by rewrite ?app_nil_r].
  rewrite nonnegative_app, Hown.
  destruct Hm as [Hm0 Hm1].
  destruct ((cr_child_write run <? 0) || (cr_child_metadata run <? 0) || (cr_fork run <? 0)) eqn:Ef.
  { rewrite failed_init. intros [= <- <- <-]. rewrite !orb_true_iff, !Z.ltb_lt in Ef. split; [by rewrite Permutation_app_comm|].
    split; [tauto|]. split; [tauto|]. split; [done|]. by intros _ []. }
  rewrite !orb_false_iff, !Z.ltb_ge in Ef. destruct Ef as ((Hc1 & Hc2) & Hfork).
  rewrite (nonnegative_all [cr_child_write run; cr_child_metadata run; m0; m1]) by (repeat constructor; done).
  rewrite (nonnegative_all [m0; s]) by (repeat constructor; done).
  assert (Hperm : [cr_child_write run; cr_child_metadata run; m1; w; r] ++ [m0; s]
    ≡ₚ [r; w; s] ++ [cr_child_write run; cr_child_metadata run; m0; m1]) by count_handles.
  destruct (cr_waited run) as [valid reaped]. cbn [fst snd].
  assert (Hchild : ((if reaped then None else Some (cr_fork run)) = Some (cr_fork run) \/ (if reaped then None else Some (cr_fork run)) = None) /\
    ((if reaped then None else Some (cr_fork run)) = None -> reaped = true)) by (destruct reaped; split; (tauto || done)).
  assert (Hpath : forall result closed child,
    Some (ksd_result_init, [cr_child_write run; cr_child_metadata run; m1; w; r] ++ [] ++ [] ++ [m0; s],
      if reaped then None else Some (cr_fork run)) = Some (result, closed, child) ->
    closed ≡ₚ [r; w; s] ++ [cr_child_write run; cr_child_metadata run; m0; m1] /\ result = ksd_result_init /\
    child = if reaped then None else Some (cr_fork run)) by (intros ? ? ? [= <- <- <-]; split; [exact Hperm|done]).
  match goal with |- context [match ?o with Some m => encode_capture _ _ _ _ _ _ _ _ _ | None => _ end] => destruct o as [m|] eqn:Eo end.
  2: { rewrite failed_init. intros H. apply Hpath in H as (H1 & -> & ->). split; [done|]. split; [tauto|]. split; [tauto|].
    split; [done|]. by intros _ []. }
  destruct (cr_drain run) as [len|]; [|done]. destruct (cr_received run) as [m'|] eqn:Em; [|done].
  destruct (_ && _ && _ && _ && _ && _) eqn:E in Eo; [|done]. injection Eo as ->.
  rewrite !andb_true_iff, !Z.eqb_eq in E. destruct E as (((((E1 & E2) & E3) & E4) & E5) & E6).
  destruct (Hwf m eq_refl) as (Hmw & Hmh & Hms & Hmf & _). rewrite u64_product in E4 by done.
  destruct (encode_capture _ _ _ _ _ _ _ _ _) as [[[[] r'] cl]|] eqn:Ee; [| |done].
  - apply encode_capture_result in Ee; [|done..]. destruct Ee as (_ & rows & rest & Hrows & Hf & Him & -> & ->).
    intros [= <- <- <-]. split; [exact Hperm|]. split; [tauto|]. split; [tauto|]. split; [done|]. intros _ _.
    exists m, rows, rest. split; [done|]. split; [done|]. split; [done|]. split; [by rewrite E4|]. done.
  - apply encode_capture_result in Ee; [|done..]. destruct Ee as [-> ->]. rewrite failed_init.
    intros H. apply Hpath in H as (H1 & -> & ->). split; [done|]. split; [tauto|]. split; [tauto|]. split; [done|]. by intros _ [].
Qed.

Definition sample_run : capture_run :=
  mk_run 1000 true true (Some (6, 7)) 10 11 99 (Some 9) 9 (Some (mk_metadata KSD_STATUS_OK 2 1 9 5)) (true, true) true true
    [10] (repeat (PipeBytes 5) 10) sample_image false.
Definition sample_area : ksd_frame := call_frame KSD_OP_CAPTURE_AREA 3 (snd (capture_wire (CaptureArea 0 0 2 1))).

Lemma local_capture_execute_exact_witness :
  exists result closed child,
    @ksd_local_capture_execute infinite_memory sample_run sample_area 3 4 5 77 = Some (result, closed, child) /\
    closed ≡ₚ [3; 4; 5; 10; 11; 6; 7].
Proof.
  destruct (@ksd_local_capture_execute infinite_memory sample_run sample_area 3 4 5 77) as [[[result closed] child]|] eqn:E;
    [|vm_compute in E; discriminate].
  exists result, closed, child. split; [reflexivity|].
  apply (proj1 (@local_capture_execute_exact infinite_memory sample_run sample_area 3 4 5 77 result closed child
    ltac:(lia) ltac:(lia) ltac:(lia) ltac:(cbn; lia)
    ltac:(cbn; intros m [= <-]; repeat split; (discriminate || reflexivity || (left; reflexivity))) E)).
Defined.

(** Capture requests.  A KWin worker takes a request exactly when it is the
    wire form of an area within the limits of a capture, or of a window named by
    one to 128 bytes of UTF-8, and it takes it for that.  Every capture of an
    area or a window that the library sends is such a request, for the area or the
    window the application named. *)
Theorem capture_requests_exact :
  (forall request r, fr_payload_length request = zlen (request_payload request) ->
    parse_request request = Some r <-> capture_request_ok r /\ says request (capture_wire r)) /\
  (forall x y width height opcode payload id, is_i32 x -> is_i32 y -> is_u32 width -> is_u32 height ->
    ksd_capture_area x y width height = Some (opcode, Some payload) ->
    parse_request (call_frame opcode id payload) = Some (CaptureArea x y width height)) /\
  (forall window decoration opcode payload id,
    ksd_capture_window window (Z.b2z decoration) = Some (opcode, Some payload) ->
    parse_request (call_frame opcode id payload) = Some (CaptureWindow window decoration)).
Proof.
  split; [exact parse_request_exact|]. split.
  - intros x y width height opcode payload id Hx Hy Hw Hh H. apply valid_call in H as (Hv & -> & ->).
    apply parse_request_exact; [done|]. split; [|done]. split; [done|]. split; [done|].
    apply valid_rectangle_ok; [done..|]. revert Hv. unfold valid_capture_rectangle, ClientCalls.valid_rectangle, valid_rectangle.
    rewrite !andb_true_iff. tauto.
  - intros window decoration opcode payload id H. apply valid_call in H as (Hv & -> & ->). breflect.
    apply parse_request_exact; [done|]. split; [|done]. split; [lia|]. split; done.
Qed.

Lemma capture_requests_exact_witness :
  parse_request (call_frame KSD_OP_CAPTURE_WINDOW 9 (ksd_encode_u32 1 ++ ksd_encode_u32 2 ++ cstr "{}"))
  = Some (CaptureWindow (cstr "{}") true).
Proof. apply (proj2 (proj2 capture_requests_exact) (cstr "{}") true). reflexivity. Defined.

(** The capture files that pass.  The data of a capture that the authority
    accepts from a worker, [ksd_capture_tail_valid], is exactly the data a client can
    read: the tail of a capture whose dimensions are within the limits and
    whose rows hold their pixels, or of a PNG file, in all its bytes and with
    nothing after them. *)
Theorem capture_tail_agrees {AL : Allocator} {AT : AllocTotal AL} data :
  zlen data < 2 ^ 32 ->
  (ksd_capture_tail_valid (Some data) (zlen data) = true <-> exists c, parse_capture_tail data = Some c) /\
  (ksd_capture_tail_valid (Some data) (zlen data) = true <-> exists c, data = capture_tail c /\ capture_wf c).
Proof.
  intros H. split; [|by apply capture_tail_exact]. rewrite capture_tail_exact by done.
  split; intros (c & Hc); exists c; by apply capture_result_exact.
Qed.

Lemma capture_tail_agrees_witness :
  zlen (capture_tail pixel) < 2 ^ 32 /\ exists c, @parse_capture_tail infinite_memory (capture_tail pixel) = Some c.
Proof.
  split; [reflexivity|]. apply (proj1 (@capture_tail_agrees infinite_memory (fun _ => eq_refl) (capture_tail pixel) eq_refl)). reflexivity.
Defined.
