(* ===== verification/CaptureWorker.v ===== *)
(** * Starting a capture worker and getting its answer (src/capture_worker.c)

    The two ends of a worker process: the environment and the groups it is given,
    the bootstrap message it starts from, the answer it sends back and the wait for
    it.  Processes, descriptors and what the kernel says of them are in the
    arguments.  The theorems say that the worker is started with what the authority
    meant and nothing of the client's environment, that an answer arrives as it was
    sent, and that every descriptor on the way is accounted for. *)
From Stdlib Require Import ZArith Lia Strings.Byte Strings.String.
From stdpp Require Import base list option numbers tactics.
From S2P Require Import Prelude.
From S2P Require Import Protocol.
From S2P Require Import Codec.
From S2P Require Import Buffer.
From S2P Require Import Utf8.
From S2P Require Import Transport.
From S2P Require Import Frame.
From S2P Require Import Operations.
From S2P Require Import KwinEnvelope.
From S2P Require Import Environ.
From S2P Require Import Result.
From S2P Require Import StateWire.
From S2P Require Import Lease.
From S2P Require Import Response.
From S2P Require Import Relay.
From S2P Require Import Observe.
From S2P Require Import ClientCalls.
From S2P Require Import Install.
From S2P Require Import DisplayCalls.
From S2P Require Import Capture.
Local Open Scope Z_scope.
Local Open Scope ksd_scope.

Definition KSD_CAPTURE_WORKER_FD : Z := 3.
Definition KSD_CAPTURE_WORKER_VERSION : Z := 4.
Definition KSD_CAPTURE_WORKER_HEADER_SIZE : Z := 32.
Definition KSD_CAPTURE_WORKER_MAX_GROUPS : Z := 256.
Definition KSD_CAPTURE_WORKER_ENV_LIMIT : Z := 64 * 1024.
Definition KSD_CAPTURE_WORKER_TIMEOUT_MS : Z := 35000.
Definition KSD_CAPTURE_WORKER_MAX_REQUEST : Z := KSD_MAX_REQUEST_PAYLOAD.
Definition KSD_CAPTURE_WORKER_BOOTSTRAP_MAX : Z :=
  KSD_CAPTURE_WORKER_HEADER_SIZE + KSD_CAPTURE_WORKER_MAX_GROUPS * 4 + KSD_FRAME_HEADER_SIZE + KSD_CAPTURE_WORKER_MAX_REQUEST.
Definition KSD_CAPTURE_WORKER_RESPONSE_SIZE : Z := 24 + KSD_DIAGNOSTIC_CAPACITY.
Definition worker_magic : list byte := cstr "KSCW".
Definition public_magic : list byte := ksd_public_magic.

(** ** The environment *)

(** The loop of [read_bounded_file], [None] while the script has not ended it:
    the whole of a file that is no longer than the limit. *)
Fixpoint read_bounded (calls : list pipe_outcome) (file buffer : list byte) : option (option (list byte)) :=
  if KSD_CAPTURE_WORKER_ENV_LIMIT <? zlen buffer then Some None
  else
    match calls with
    | [] => None
    | PipeIntr :: calls => read_bounded calls file buffer
    | PipeWait _ :: _ | PipeError :: _ => Some None
    | PipeEof :: _ => Some (Some buffer)
    | PipeBytes n :: calls =>
      let count := Z.min (Z.min (Zpos n) (KSD_CAPTURE_WORKER_ENV_LIMIT + 1 - zlen buffer)) (zlen file) in
      if count =? 0 then Some (Some buffer)
      else read_bounded calls (zdrop count file) (buffer ++ ztake count file)
    end.

Section read_file.
Context {AL : Allocator}.
(** [file] is [None] when it cannot be opened. *)
Definition read_bounded_file (file : option (list byte)) (calls : list pipe_outcome) : option (option (list byte)) :=
  if negb (alloc_ok (KSD_CAPTURE_WORKER_ENV_LIMIT + 1)) then Some None
  else match file with None => Some None | Some file => read_bounded calls file [] end.
End read_file.

(** The value a name has, if it is assigned exactly once and the block is whole. *)
Fixpoint environment_value_loop (fuel : nat) (environment name : list byte) (found : option (list byte)) : option (list byte) :=
  match environment, fuel with
  | [], _ => found
  | _, O => None
  | _ :: _, S fuel =>
    let* (entry, rest) := cut_entry environment in
    if entry_names name entry then
      match found with
      | Some _ => None
      | None => environment_value_loop fuel rest name (Some (entry_rest name entry))
      end
    else environment_value_loop fuel rest name found
  end.
Definition environment_value (environment name : list byte) : option (list byte) :=
  environment_value_loop (length environment) environment name None.

Definition expected_runtime (uid : Z) : list byte := cstr "/run/user/" ++ decimal_text uid.
Definition expected_bus (uid : Z) : list byte := cstr "unix:path=/run/user/" ++ decimal_text uid ++ cstr "/bus".

(** The environment of a worker; the checks on the client's identity before and
    after are [verified] and [reverified]. *)
Definition capture_environment (uid : Z) (verified reverified : bool) (file : option (list byte)) : option (list (list byte)) :=
  guard* verified in
  let* environment := file in
  let valid :=
    match environment_value environment (cstr "XDG_RUNTIME_DIR") with
    | Some runtime => bytes_eqb runtime (expected_runtime uid)
    | None => false
    end in
  let valid := valid &&
    match environment_value environment (cstr "DBUS_SESSION_BUS_ADDRESS") with
    | Some bus => bytes_eqb bus (expected_bus uid)
    | None => true
    end in
  guard* valid && reverified in
  Some [cstr "XDG_RUNTIME_DIR=" ++ expected_runtime uid; cstr "DBUS_SESSION_BUS_ADDRESS=" ++ expected_bus uid;
        cstr "PATH=/usr/bin:/bin"].

(** ** The groups *)

Definition LINE_SIZE : Z := 8192.
(** [fgets]: the next piece of at most [room] bytes, up to a newline. *)
Fixpoint fgets (room : nat) (file : list byte) : list byte * list byte :=
  match room, file with
  | O, _ | _, [] => ([], file)
  | S room, b :: file => if b2z b =? 10 then ([b], file) else let '(line, rest) := fgets room file in (b :: line, rest)
  end.

Definition is_blank (b : byte) : bool := any_of (b2z b) [32; 9; 10].
(** The numbers on a line; [None] is the jump to [done]. *)
Fixpoint parse_groups (fuel : nat) (cursor : list byte) (count : Z) : option (list Z) :=
  match fuel with
  | O => None
  | S fuel =>
    let cursor := skip is_blank cursor in
    match cursor with
    | [] => Some []
    | _ =>
      guard* count <? KSD_CAPTURE_WORKER_MAX_GROUPS in
      let* (parsed, rest) := strtoul cursor in
      guard* parsed <=? UINT32_MAX in
      let* values := parse_groups fuel rest (count + 1) in
      Some (parsed :: values)
    end
  end.

Fixpoint find_groups (fuel : nat) (file : list byte) : option (list Z) :=
  match fuel with
  | O => None
  | S fuel =>
    match file with
    | [] => None
    | _ =>
      let '(piece, rest) := fgets (Z.to_nat (LINE_SIZE - 1)) file in
      let line := until_nul piece in
      if bytes_eqb (ztake 7 line) (cstr "Groups:") then
        let* values := parse_groups (S (length line)) (zdrop 7 line) 0 in
        guard* existsb (fun b => b2z b =? 10) line in Some values
      else find_groups fuel rest
    end
  end.

Section groups.
Context {AL : Allocator}.
(** [file] is the contents of /proc/<pid>/status, [None] when it cannot be opened. *)
Definition capture_groups (verified reverified : bool) (file : option (list byte)) : option (list Z) :=
  guard* verified in
  let* file := file in
  guard* alloc_ok (KSD_CAPTURE_WORKER_MAX_GROUPS * 4) in
  let* groups := find_groups (S (length file)) file in
  guard* reverified in Some groups.
End groups.

(** ** The bootstrap message *)

Definition ksd_capture_worker_request_valid (request : ksd_frame) : bool :=
  ksd_local_capture_request_valid request || ksd_x11_request_valid request || ksd_wayland_request_valid request.

Section bootstrap.
Context {AL : Allocator}.

Fixpoint append_groups (groups : list Z) : bufop :=
  match groups with
  | [] => fun b => (true, b)
  | group :: groups => ksd_buffer_u32 group ;;; append_groups groups
  end.

(** The message [send_bootstrap] sends; [None] is a failure before the send. *)
Definition bootstrap_message (uid gid : Z) (groups : list Z) (request : option ksd_frame) (session_pid backend : Z) (persistent : bool)
    : option (list byte) :=
  let frame := ksd_buffer_init (KSD_FRAME_HEADER_SIZE + KSD_CAPTURE_WORKER_MAX_REQUEST) in
  let message := ksd_buffer_init KSD_CAPTURE_WORKER_BOOTSTRAP_MAX in
  guard* zlen groups <=? KSD_CAPTURE_WORKER_MAX_GROUPS in
  let* frame :=
    (match request with
     | None => guard* persistent in Some frame
     | Some request =>
       guard* negb persistent && (fr_payload_length request <=? KSD_CAPTURE_WORKER_MAX_REQUEST) in
       let '(ok, frame) := ksd_frame_pack request frame in guard* ok in Some frame
     end) in
  guard* buf_length frame <=? UINT32_MAX in
  let '(ok, message) :=
    (put worker_magic ;;; ksd_buffer_u16 KSD_CAPTURE_WORKER_VERSION ;;; ksd_buffer_u16 (u16 backend)
     ;;; ksd_buffer_u32 (u32 uid) ;;; ksd_buffer_u32 (u32 gid) ;;; ksd_buffer_u32 (u32 (zlen groups))
     ;;; ksd_buffer_u32 (u32 (buf_length frame)) ;;; ksd_buffer_u32 (u32 session_pid) ;;; ksd_buffer_u32 (Z.b2z persistent)
     ;;; append_groups groups ;;; ksd_buffer_bytes (Some (buf_bytes frame)) (buf_length frame)) message in
  guard* ok in Some (buf_bytes message).
End bootstrap.

Record worker_bootstrap := mk_bootstrap {
  wb_uid : Z; wb_gid : Z; wb_group_count : Z; wb_frame_length : Z; wb_session_pid : Z; wb_backend : Z; wb_persistent : bool;
}.

Definition parse_bootstrap_header (bootstrap : list byte) : option worker_bootstrap :=
  let length := zlen bootstrap in
  guard* negb ((length <? KSD_CAPTURE_WORKER_HEADER_SIZE) || negb (bytes_eqb (ztake 4 bootstrap) worker_magic)
    || negb (ksd_decode_u16 (zdrop 4 bootstrap) =? KSD_CAPTURE_WORKER_VERSION)
    || (KSD_BACKEND_X11 <? ksd_decode_u16 (zdrop 6 bootstrap)) || (1 <? ksd_decode_u32 (zdrop 28 bootstrap))) in
  let parsed := mk_bootstrap (ksd_decode_u32 (zdrop 8 bootstrap)) (ksd_decode_u32 (zdrop 12 bootstrap))
    (ksd_decode_u32 (zdrop 16 bootstrap)) (ksd_decode_u32 (zdrop 20 bootstrap)) (i32 (ksd_decode_u32 (zdrop 24 bootstrap)))
    (ksd_decode_u16 (zdrop 6 bootstrap)) (negb (ksd_decode_u32 (zdrop 28 bootstrap) =? 0)) in
  let groups_length := u64 (wb_group_count parsed * 4) in
  guard* (0 <? wb_session_pid parsed) && (u64 (wb_session_pid parsed) =? ksd_decode_u32 (zdrop 24 bootstrap))
    && (wb_group_count parsed <=? KSD_CAPTURE_WORKER_MAX_GROUPS)
    && (if wb_persistent parsed then wb_frame_length parsed =? 0 else KSD_FRAME_HEADER_SIZE <=? wb_frame_length parsed)
    && (wb_frame_length parsed <=? KSD_FRAME_HEADER_SIZE + KSD_CAPTURE_WORKER_MAX_REQUEST)
    && (KSD_CAPTURE_WORKER_HEADER_SIZE + groups_length + wb_frame_length parsed =? length) in
  Some parsed.

(** The groups [ksd_capture_worker_main] reads after the header, and the request after them. *)
Definition bootstrap_groups (bootstrap : list byte) (count : Z) : list Z :=
  map (fun index => ksd_decode_u32 (zdrop (KSD_CAPTURE_WORKER_HEADER_SIZE + Z.of_nat index * 4) bootstrap)) (seq 0 (Z.to_nat count)).
Definition bootstrap_rules : frame_rules :=
  mk_rules public_magic KSD_PROTOCOL_MAJOR KSD_PROTOCOL_MINOR KSD_CAPTURE_WORKER_MAX_REQUEST true.
Definition bootstrap_request {AL : Allocator} (bootstrap : list byte) (header : worker_bootstrap) : option ksd_frame :=
  ksd_frame_unpack bootstrap_rules
    (ztake (wb_frame_length header) (zdrop (KSD_CAPTURE_WORKER_HEADER_SIZE + wb_group_count header * 4) bootstrap)).

(** ** The answer *)

Definition valid_status (status : Z) : bool := (status <=? KSD_STATUS_REVOKED) || (status =? KSD_STATUS_INTERNAL).

(** An open file as both ends of a socket see it: what fstat and fcntl say of it, and
    its bytes, [None] when it cannot be mapped. *)
Record worker_file := mk_file { wf_info : file_info; wf_bytes : option (list byte) }.
Definition no_file : worker_file := mk_file (mk_info false 0 (-1)) None.

Definition sealed_capture_file (descriptor length : Z) (info : file_info) : bool :=
  (0 <=? descriptor) && (20 <=? length) && (length <=? KSD_MAX_CAPTURE_TAIL) && fi_regular info
  && (fi_size info =? length) && (0 <=? fi_seals info) && (Z.land (fi_seals info) KSD_CAPTURE_SEALS =? KSD_CAPTURE_SEALS).

(** [files] is what a received descriptor refers to.  Whether the answer is taken, the
    result, and the descriptors closed. *)
Definition receive_worker_response (outcome : recvmsg_outcome) (files : Z -> worker_file) (result : ksd_operation_result)
    : bool * ksd_operation_result * list Z :=
  let received := ksd_receive_optional_fd KSD_CAPTURE_WORKER_RESPONSE_SIZE outcome in
  match rcv_result received with
  | None => (false, result, rcv_closed received)
  | Some (message, payload_fd) =>
    let refused := (false, result, rcv_closed received ++ close_fd payload_fd) in
    let status := ksd_decode_u32 (zdrop 8 message) in
    let detail := ksd_decode_u32 (zdrop 12 message) in
    let tail_length := ksd_decode_u32 (zdrop 16 message) in
    let diagnostic_length := ksd_decode_u32 (zdrop 20 message) in
    let diagnostic := ztake diagnostic_length (zdrop 24 message) in
    let valid := bytes_eqb (ztake 4 message) worker_magic && (ksd_decode_u16 (zdrop 4 message) =? KSD_CAPTURE_WORKER_VERSION)
      && (ksd_decode_u16 (zdrop 6 message) =? 0) && valid_status status && (diagnostic_length <? KSD_DIAGNOSTIC_CAPACITY)
      && ksd_utf8_valid diagnostic false in
    if negb valid then refused
    else if (status =? KSD_STATUS_OK) && (tail_length =? 0) then
      if negb (diagnostic_length =? 0) || (0 <=? payload_fd) then refused
      else let '(ok, result, closed) := ksd_result_take result None 0 in (ok, result, rcv_closed received ++ closed)
    else if status =? KSD_STATUS_OK then
      if negb (diagnostic_length =? 0) || negb (sealed_capture_file payload_fd tail_length (wf_info (files payload_fd))) then refused
      else match wf_bytes (files payload_fd) with
           | None => refused
           | Some mapped =>
             if negb (ksd_capture_tail_valid (Some mapped) tail_length) then refused
             else let '(ok, result, closed) := ksd_result_take_fd result payload_fd tail_length in (ok, result, rcv_closed received ++ closed)
           end
    else if (0 <=? payload_fd) || negb (tail_length =? 0) then refused
    else
      let '(result, closed) := ksd_result_error result status detail
        (Some (if diagnostic_length =? 0 then cstr "capture worker failed" else until_nul diagnostic)) in
      (true, result, rcv_closed received ++ closed)
  end.

(** The message, zero after the diagnostic. *)
Definition worker_message (result : ksd_operation_result) (diagnostic_length : Z) : list byte :=
  worker_magic ++ ksd_encode_u16 KSD_CAPTURE_WORKER_VERSION ++ [x00; x00] ++ ksd_encode_u32 (res_status result)
  ++ ksd_encode_u32 (res_detail result)
  ++ ksd_encode_u32 (if res_status result =? KSD_STATUS_OK then res_tail_length result else 0)
  ++ ksd_encode_u32 diagnostic_length
  ++ ztake diagnostic_length (res_diagnostic result) ++ repeat x00 (Z.to_nat (KSD_DIAGNOSTIC_CAPACITY - diagnostic_length)).

(** What the calls of a send give: those of send and sendmsg, of write; the memory
    file, negative on failure, the writes into it, and whether it can be sealed. *)
Record response_run := mk_responding {
  rr_sends : list (option Z); rr_calls : list plain_outcome;
  rr_created : Z; rr_writes : list plain_outcome; rr_sealed : bool;
}.

(** A sealed memory file with these bytes. *)
Definition sealed_file (bytes : list byte) : worker_file := mk_file (mk_info true (zlen bytes) KSD_CAPTURE_SEALS) (Some bytes).

(** [files] is what the result's descriptor refers to.  Whether the answer went out,
    what of it reached the socket, the file that went with it, and the descriptors
    closed. *)
Definition send_worker_response (descriptor : Z) (run : response_run) (files : Z -> worker_file) (result : ksd_operation_result)
    : option (bool * list byte * option worker_file * list Z) :=
  let diagnostic_length := if res_status result =? KSD_STATUS_OK then 0 else zlen (res_diagnostic result) in
  if negb (valid_status (res_status result)) || (KSD_DIAGNOSTIC_CAPACITY <=? diagnostic_length) then Some (false, [], None, [])
  else
    let message := worker_message result diagnostic_length in
    if negb (res_status result =? KSD_STATUS_OK) || (res_tail_length result =? 0) then
      if (res_status result =? KSD_STATUS_OK) && match res_tail result with Some _ => true | None => false end
      then Some (false, [], None, [])
      else let* written := send_message (rr_sends run) (zlen message) in Some (written, if (written : bool) then message else [], None, [])
    else
      let borrowed := 0 <=? res_payload_fd result in
      let valid := (res_tail_length result <=? KSD_MAX_CAPTURE_TAIL)
        && match res_tail result with
           | None => borrowed && sealed_capture_file (res_payload_fd result) (res_tail_length result) (wf_info (files (res_payload_fd result)))
           | Some _ => negb borrowed
           end in
      let payload_fd := if negb borrowed && valid then rr_created run else res_payload_fd result in
      let closing := if negb borrowed && (0 <=? payload_fd) then [payload_fd] else [] in
      if negb (valid && (0 <=? payload_fd)) then Some (false, [], None, closing)
      else
        let* (prepared, file) :=
          (if borrowed then Some (true, files payload_fd)
           else
             let* (filled, bytes) := ksd_write_all (rr_writes run) (ztake (res_tail_length result) (default [] (res_tail result))) [] in
             Some (filled && rr_sealed run, sealed_file bytes)) in
        if negb prepared then Some (false, [], None, closing)
        else
          let* (sent, out) := ksd_send_with_fd descriptor (rr_sends run) (rr_calls run) message payload_fd in
          Some (sent, out, if (sent : bool) then Some file else None, closing).

(** ** Starting a worker *)

(** [made] is what pipe2 gives; [set], whether the ownership, the mode and the flags
    could be set; [valid], what [ksd_capture_pipe_valid] says. *)
Definition create_capture_pipe (made : option (Z * Z)) (set valid : bool) : option (Z * Z) * list Z :=
  match made with
  | None => (None, [])
  | Some (r, w) => if set && valid then (Some (r, w), []) else (None, [r; w])
  end.

Definition trusted_self (owner descriptor : Z) (status : option file_status) : bool :=
  (0 <=? descriptor)
  && match status with
     | Some status => is_regular status && (st_uid status =? owner) && (Z.land (st_mode status) 0x1ff =? 0x1c0)
     | None => false
     end.

Record launch_run := mk_launching {
  lr_verified : bool * bool;               (** the identity before and after the environment is read *)
  lr_environ : option (list byte);         (** the environment, as [read_bounded_file] gives it *)
  lr_verified_groups : bool * bool; lr_status : option (list byte);
  lr_executable : Z; lr_executable_status : option file_status;
  lr_sockets : option (Z * Z); lr_timeouts : bool;
  lr_pipe : option (Z * Z); lr_pipe_set : bool; lr_pipe_valid : bool;
  lr_child_socket : Z; lr_child_executable : Z; lr_fork : Z;
  lr_sends : list (option Z);              (** the sends of the bootstrap message *)
}.

(** What comes of a launch: the socket and the process, if a worker was started; the
    descriptors closed, the process killed, and what the worker was given: its
    environment and its bootstrap message, with the pipe. *)
Record launched := mk_launched {
  la_worker : option (Z * Z); la_closed : list Z; la_terminated : option Z;
  la_given : option (list (list byte) * list byte * (Z * Z));
}.

Section launch.
Context {AL : Allocator}.
Variable owner : Z.

Definition launch_worker (run : launch_run) (identity : option ksp_identity) (gid : Z) (request : option ksd_frame)
    (session_pid backend : Z) (persistent : bool) : option launched :=
  match (let* identity := identity in
         let* environment := capture_environment (id_uid identity) (fst (lr_verified run)) (snd (lr_verified run)) (lr_environ run) in
         let* groups := capture_groups (fst (lr_verified_groups run)) (snd (lr_verified_groups run)) (lr_status run) in
         Some (identity, environment, groups)) with
  | None => Some (mk_launched None [] None None)
  | Some (identity, environment, groups) =>
    let executable := close_fd (lr_executable run) in
    if negb (trusted_self owner (lr_executable run) (lr_executable_status run)) then Some (mk_launched None executable None None)
    else
      match lr_sockets run with
      | None => Some (mk_launched None executable None None)
      | Some (s0, s1) =>
        if negb (lr_timeouts run) then Some (mk_launched None (executable ++ [s0; s1]) None None)
        else
          let '(capture_pipe, closed) := create_capture_pipe (lr_pipe run) (lr_pipe_set run) (lr_pipe_valid run) in
          match capture_pipe with
          | None => Some (mk_launched None (closed ++ executable ++ [s0; s1]) None None)
          | Some (r, w) =>
            let copies := close_fd (lr_child_socket run) ++ close_fd (lr_child_executable run) in
            if (lr_child_socket run <? 0) || (lr_child_executable run <? 0) || (lr_fork run <? 0)
            then Some (mk_launched None (copies ++ executable ++ [r; s0; w; s1]) None None)
            else
              match bootstrap_message (id_uid identity) gid groups request session_pid backend persistent with
              | None => Some (mk_launched None ([s1] ++ copies ++ executable ++ [r; s0; w]) (Some (lr_fork run)) None)
              | Some message =>
                let* written := send_message (lr_sends run) (zlen message) in
                if (written : bool)
                then Some (mk_launched (Some (s0, lr_fork run)) ([s1] ++ copies ++ executable ++ [r; w]) None
                             (Some (environment, message, (r, w))))
                else Some (mk_launched None ([s1] ++ copies ++ executable ++ [r; s0; w]) (Some (lr_fork run)) None)
              end
          end
      end
  end.

(** [ready] is what is read of the worker's first byte; [thread], whether the thread
    that waits for it could be made.  The socket, -1 on failure, with the descriptors
    closed and the process killed. *)
Definition ksd_capture_worker_spawn (run : launch_run) (identity : option ksp_identity) (gid session_pid backend : Z)
    (ready : option (list byte)) (thread : bool) : option (Z * list Z * option Z) :=
  let* launched := launch_worker run identity gid None session_pid backend true in
  match la_worker launched with
  | None => Some (-1, la_closed launched, la_terminated launched)
  | Some (socket, worker) =>
    let told := match ready with Some bytes => bytes_eqb bytes [z2b 1] | None => false end in
    if negb told || negb thread then Some (-1, la_closed launched ++ [socket], Some worker)
    else Some (socket, la_closed launched, None)
  end.

(** ** Waiting for the answer *)

(** One turn of the loop: whether the operation may go on, the clock, and the wait. *)
Record execute_turn := mk_exec { et_running : bool; et_now : Z; et_poll : poll_outcome }.

(** Whether an answer came, the result, and the descriptors closed. *)
Fixpoint execute_loop (deadline : Z) (turns : list execute_turn) (outcome : recvmsg_outcome) (files : Z -> worker_file)
    (result : ksd_operation_result) : option (bool * ksd_operation_result * list Z) :=
  let failed status text := let '(result, closed) := ksd_result_error result status 0 (Some (cstr text)) in Some (false, result, closed) in
  match turns with
  | [] => None
  | turn :: turns =>
    if negb (et_running turn) then failed KSD_STATUS_REVOKED "permission changed during capture"%string
    else if (et_now turn =? 0) || (deadline <=? et_now turn) then failed KSD_STATUS_TIMEOUT "capture worker timed out"%string
    else
      match et_poll turn with
      | PollIntr | PollTimedOut => execute_loop deadline turns outcome files result
      | PollFailed => failed KSD_STATUS_UNAVAILABLE "capture worker transport failed"%string
      | PollReady revents =>
        if negb (Z.land revents (Z.lor POLLERR POLLNVAL) =? 0)
        then failed KSD_STATUS_UNAVAILABLE "capture worker transport failed"%string
        else if Z.land revents POLLIN =? 0
        then failed KSD_STATUS_UNAVAILABLE "capture worker exited without a result"%string
        else
          let '(ok, result, closed) := receive_worker_response outcome files result in
          if (ok : bool) then Some (true, result, closed)
          else let '(result, closed') := ksd_result_error result KSD_STATUS_INTERNAL 0 (Some (cstr "capture worker returned an invalid result")) in
               Some (false, result, closed ++ closed')
      end
  end.

(** What the last waitpid says, after those that were interrupted. *)
Inductive waited := WaitedRunning | WaitedExited (status : Z) | WaitedOther.

(** The end of a call: the result, the descriptors closed and the process killed. *)
Definition execute_done (worker : option Z) (last : waited) (response_received : bool) (result : ksd_operation_result)
    : ksd_operation_result * list Z * option Z :=
  match worker with
  | None => (result, [], None)
  | Some worker =>
    match last with
    | WaitedRunning =>
      if response_received then (result, [], Some worker)
      else let '(result, closed) := ksd_result_error result KSD_STATUS_UNAVAILABLE 0 (Some (cstr "capture worker did not terminate")) in
           (result, closed, Some worker)
    | WaitedExited 0 => (result, [], None)
    | WaitedExited _ | WaitedOther =>
      let '(result, closed) := ksd_result_error result KSD_STATUS_UNAVAILABLE 0 (Some (cstr "capture worker terminated unexpectedly")) in
      (result, closed, None)
    end
  end.

(** [started] is the clock when the worker has been started. *)
Definition ksd_capture_worker_execute (run : launch_run) (identity : option ksp_identity) (gid : Z) (request : option ksd_frame)
    (session_pid backend started : Z) (turns : list execute_turn) (outcome : recvmsg_outcome) (files : Z -> worker_file) (last : waited)
    : option (ksd_operation_result * list Z * option Z) :=
  let result := ksd_result_init in
  match (let* _ := identity in let* request := request in guard* ksd_capture_worker_request_valid request in Some request) with
  | None =>
    let '(result, closed) := ksd_result_error result KSD_STATUS_UNAVAILABLE 0 (Some (cstr "capture worker identity is unavailable")) in
    Some (result, closed, None)
  | Some request =>
    let* launched := launch_worker run identity gid (Some request) session_pid backend false in
    match la_worker launched with
    | None =>
      let '(result, closed) := ksd_result_error result KSD_STATUS_UNAVAILABLE 0 (Some (cstr "capture worker could not be started")) in
      Some (result, la_closed launched ++ closed, la_terminated launched)
    | Some (socket, worker) =>
      let deadline := u64 (started + KSD_CAPTURE_WORKER_TIMEOUT_MS) in
      let* (received, result, closed) := execute_loop deadline turns outcome files result in
      let '(result, closed', killed) := execute_done (Some worker) last received result in
      Some (result, la_closed launched ++ closed ++ [socket] ++ closed', killed)
    end
  end.
End launch.

(** ** The environment of a worker *)

Definition entry_for (name value : list byte) : list byte := name ++ z2b 61 :: value.

Lemma entry_names_exact name e : entry_names name e = true <-> e = entry_for name (entry_rest name e).
Proof.
  unfold entry_names, entry_rest, entry_for, bytes_eqb. split.
  - intros H. rewrite !andb_true_iff, bool_decide_eq_true in H. destruct H as [[Hl He] Hp]. breflect.
    rewrite <- (ztake_zdrop (zlen name) e) at 1. rewrite Hp. f_equal.
    rewrite <- (zdrop_zdrop 1 (zlen name)) by (pose proof (zlen_nonneg name); lia). unfold zdrop in *. unfold zlen in *.
    rewrite Nat2Z.id in *. rewrite <- (take_drop (length name) e) in He.
    rewrite app_nth2 in He by (rewrite length_take; lia). rewrite length_take in He.
    replace (length name - length name `min` length e)%nat with O in He by lia.
    destruct (drop (length name) e) as [|b k] eqn:Ed; [apply (f_equal (@length byte)) in Ed; rewrite length_drop in Ed; cbn in Ed; lia|].
    cbn in He |- *. f_equal. by apply b2z_inj.
  - intros ->. pose proof (zlen_nonneg (zdrop (zlen name + 1) e)). rewrite ztake_app_l, bool_decide_true, andb_true_r by done.
    rewrite app_nth2, Nat.sub_diag by lia. cbn [nth]. rewrite zlen_app, zlen_cons. change (b2z (z2b 61) =? 61) with true.
    replace (_ <? _) with true by lia. done.
Qed.

Lemma entry_rest_for name value : entry_rest name (entry_for name value) = value.
Proof.
  unfold entry_rest, entry_for. rewrite <- zdrop_zdrop by (pose proof (zlen_nonneg name); lia). by rewrite zdrop_app_l.
Qed.

Lemma environment_value_block name es : forall fuel found,
  Forall nul_free es -> (length (block es) <= fuel)%nat ->
  environment_value_loop fuel (block es) name found =
  match found, List.filter (entry_names name) es with
  | Some v, [] => Some v
  | None, [e] => Some (entry_rest name e)
  | _, _ => None
  end.
Proof.
  induction es as [|e es IH]; intros fuel found Hes Hf; [by destruct fuel, found|].
  apply Forall_cons_1 in Hes as [He Hes]. destruct (block_nonempty e es) as (b & l & Hbl).
  destruct fuel as [|fuel]; [rewrite Hbl in Hf; cbn in Hf; lia|].
  rewrite block_cons in Hf. rewrite length_app in Hf. cbn [length] in Hf.
  cbn [environment_value_loop]. rewrite Hbl, <- Hbl, block_cons, cut_entry_app by done. cbn [List.filter].
  destruct (entry_names name e); [|by apply IH; [|lia]].
  destruct found; [done|]. rewrite IH by (done || lia). by destruct (List.filter _ es).
Qed.

Lemma environment_value_is_block name : forall fuel data found v,
  environment_value_loop fuel data name found = Some v -> exists es, Forall nul_free es /\ data = block es.
Proof.
  induction fuel as [|fuel IH]; intros data found v; (destruct data as [|b data]; [by exists []|]); [done|].
  cbn [environment_value_loop]. destruct (cut_entry (b :: data)) as [[e rest]|] eqn:E; [|done].
  apply cut_entry_sound in E as [E He]. intros H.
  assert (exists es, Forall nul_free es /\ rest = block es) as (es & Hes & ->).
  { destruct (entry_names name e); [destruct found; [done|]|]; by apply IH in H. }
  exists (e :: es). split; [by constructor|]. by rewrite block_cons.
Qed.

(** A variable has a value when the block is whole and it is assigned once. *)
Lemma environment_value_exact data name v :
  environment_value data name = Some v <->
  exists es, Forall nul_free es /\ data = block es /\ List.filter (entry_names name) es = [entry_for name v].
Proof.
  unfold environment_value. split.
  - intros H. destruct (environment_value_is_block _ _ _ _ _ H) as (es & Hes & ->). exists es. split; [done|]. split; [done|].
    rewrite environment_value_block in H by (done || lia). destruct (List.filter _ es) as [|e [|? ?]] eqn:Ef; [done| |done].
    injection H as <-. f_equal. assert (In e (List.filter (entry_names name) es)) as [_ He]%filter_In by (rewrite Ef; by left).
    by apply entry_names_exact.
  - intros (es & Hes & -> & Hf). rewrite environment_value_block, Hf by (done || lia). by rewrite entry_rest_for.
Qed.

Lemma block_inj es es' : Forall nul_free es -> Forall nul_free es' -> block es = block es' -> es = es'.
Proof.
  intros Hes. revert es'. induction Hes as [|e es He Hes IH]; intros es' Hes' E.
  - destruct es' as [|e' es']; [done|]. destruct (block_nonempty e' es') as (b & l & H). by rewrite H in E.
  - destruct Hes' as [|e' es' He' Hes']; [destruct (block_nonempty e es) as (b & l & H); by rewrite H in E|].
    rewrite !block_cons in E. assert (H := cut_entry_app e (block es) He). rewrite E, cut_entry_app in H by done.
    injection H as -> E'. f_equal. by apply IH.
Qed.

(** A worker's environment owes nothing to the client.  It is made exactly when the
    client's identity is verified before and after, its own environment is a whole block
    that assigns [XDG_RUNTIME_DIR] once, to the directory of its user, and it does not
    assign the bus address once to anything but that user's bus; and then it is these two
    variables for the user and a fixed [PATH], whatever else the client's environment
    holds. *)
Theorem worker_environment_exact uid verified reverified data environment :
  capture_environment uid verified reverified (Some data) = Some environment <->
  verified = true /\ reverified = true /\
  (exists es, Forall nul_free es /\ data = block es /\
     List.filter (entry_names (cstr "XDG_RUNTIME_DIR")) es = [entry_for (cstr "XDG_RUNTIME_DIR") (expected_runtime uid)] /\
     (forall bus, List.filter (entry_names (cstr "DBUS_SESSION_BUS_ADDRESS")) es = [entry_for (cstr "DBUS_SESSION_BUS_ADDRESS") bus] ->
        bus = expected_bus uid)) /\
  environment = [entry_for (cstr "XDG_RUNTIME_DIR") (expected_runtime uid);
                 entry_for (cstr "DBUS_SESSION_BUS_ADDRESS") (expected_bus uid); cstr "PATH=/usr/bin:/bin"].
Proof.
  assert (Henv : [cstr "XDG_RUNTIME_DIR=" ++ expected_runtime uid; cstr "DBUS_SESSION_BUS_ADDRESS=" ++ expected_bus uid; cstr "PATH=/usr/bin:/bin"]
    = [entry_for (cstr "XDG_RUNTIME_DIR") (expected_runtime uid); entry_for (cstr "DBUS_SESSION_BUS_ADDRESS") (expected_bus uid); cstr "PATH=/usr/bin:/bin"]) by reflexivity.
  unfold capture_environment. destruct verified; [|split; [done|by intros [? _]]]. rewrite Henv. clear Henv.
  set (R := cstr "XDG_RUNTIME_DIR"). set (B := cstr "DBUS_SESSION_BUS_ADDRESS").
  pose proof (environment_value_exact data R) as HR. pose proof (environment_value_exact data B) as HB.
  destruct (environment_value data R) as [runtime|]; cbn [andb].
  2:{ split; [done|]. intros (_ & _ & (es & Hes & Hd & Hf & _) & _).
      by assert (None = Some (expected_runtime uid)) by (apply HR; by exists es). }
  destruct (proj1 (HR runtime) eq_refl) as (es & Hes & Hd & Hf).
  assert (Huniq : forall es', Forall nul_free es' -> data = block es' -> es' = es)
    by (intros es' ? E; apply block_inj; [done..|]; by rewrite <- E).
  assert (Hbus : match environment_value data B with Some bus => bytes_eqb bus (expected_bus uid) | None => true end = true <->
    (forall bus, List.filter (entry_names B) es = [entry_for B bus] -> bus = expected_bus uid)).
  { destruct (environment_value data B) as [bus|].
    - destruct (proj1 (HB bus) eq_refl) as (es' & Hes' & Hd' & Hf'). rewrite (Huniq es' Hes' Hd') in Hf'.
      unfold bytes_eqb. rewrite bool_decide_eq_true. split.
      + intros -> b E. assert (Some (expected_bus uid) = Some b) as [= ->]; [|done]. apply HB. by exists es.
      + intros H. by apply H.
    - split; [|done]. intros _ b E. by assert (None = Some b) by (apply HB; by exists es). }
  destruct reverified; rewrite ?andb_true_r, ?andb_false_r; [|split; [done|by intros (_ & ? & _)]].
  unfold bytes_eqb at 1. case_bool_decide as Er; cbn [andb].
  - subst runtime. destruct (match environment_value data B with Some _ => _ | None => _ end) eqn:Eb.
    + split; [|by intros (_ & _ & _ & ->)]. intros [= <-]. split; [done|]. split; [done|]. split; [|done].
      exists es. split; [done|]. split; [done|]. split; [done|]. by apply Hbus.
    + split; [done|]. intros (_ & _ & (es' & Hes' & Hd' & _ & Hb) & _). rewrite (Huniq es' Hes' Hd') in Hb.
      by apply Hbus in Hb.
  - split; [done|]. intros (_ & _ & (es' & Hes' & Hd' & Hf' & _) & _).
    assert (Some runtime = Some (expected_runtime uid)) as [= ->]; [|done]. apply HR. by exists es'.
Qed.

(** ** The groups of a worker *)

Definition newline : byte := z2b 10.
Definition space : byte := z2b 32.
Definition no_newline (line : list byte) : Prop := Forall (fun b => b2z b <> 10) line.
(** The lines of a file. *)
Definition lines (ls : list (list byte)) : list byte := concat (map (fun line => line ++ [newline]) ls).

(** The groups as the kernel prints them. *)
Definition group_text (groups : list Z) : list byte := concat (map (fun group => decimal_text group ++ [space]) groups).
Definition groups_line (groups : list Z) : list byte := cstr "Groups:" ++ z2b 9 :: group_text groups.

Lemma fgets_line line : forall room rest, no_newline line ->
  fgets room (line ++ newline :: rest) =
  if (length line <? room)%nat then (line ++ [newline], rest) else (take room line, drop room line ++ newline :: rest).
Proof.
  induction line as [|b line IH]; intros room rest Hl.
  - by destruct room.
  - apply Forall_cons_1 in Hl as [Hb Hl]. destruct room as [|room]; [done|]. cbn [fgets app length].
    replace (b2z b =? 10) with false by lia. rewrite IH by done. change (S (length line) <? S room)%nat with (length line <? room)%nat.
    by destruct (length line <? room)%nat.
Qed.

Lemma skip_blanks (test : byte -> bool) blanks s : Forall (fun b => test b = true) blanks -> skip test (blanks ++ s) = skip test s.
Proof. induction 1 as [|b blanks Hb _ IH]; [done|]. cbn. by rewrite Hb. Qed.

Lemma digit_not_blank b : digit_byte b = true -> is_blank b = false.
Proof.
  intros Hb. apply digit_byte_range in Hb. unfold is_blank, any_of. cbn [existsb].
  replace (b2z b =? 32) with false by lia. replace (b2z b =? 9) with false by lia. by replace (b2z b =? 10) with false by lia.
Qed.

(** The numbers that fit are read, and what follows them decides. *)
Lemma parse_groups_app groups : forall blanks fuel count tail r,
  Forall is_u32 groups -> Forall (fun b => is_blank b = true) blanks -> (length groups < fuel)%nat -> 0 <= count ->
  count + zlen groups <= KSD_CAPTURE_WORKER_MAX_GROUPS ->
  (forall blanks, Forall (fun b => is_blank b = true) blanks -> parse_groups (fuel - length groups) (blanks ++ tail) (count + zlen groups) = r) ->
  parse_groups fuel (blanks ++ group_text groups ++ tail) count = (let* vs := r in Some (groups ++ vs)).
Proof.
  induction groups as [|g groups IH]; intros blanks fuel count tail r Hg Hb Hf Hc Hn Hend.
  - cbn [group_text map concat app length] in *. rewrite Nat.sub_0_r, zlen_nil, Z.add_0_r in Hend. rewrite (Hend blanks Hb).
    by destruct r.
  - apply Forall_cons_1 in Hg as [Hg Hgs]. rewrite zlen_cons in Hn, Hend. destruct fuel as [|fuel]; [lia|]. cbn [length] in *.
    change (group_text (g :: groups)) with ((decimal_text g ++ [space]) ++ group_text groups).
    destruct (decimal_text_digits g) as (Hne & Hd & _); [unfold is_u32, UINT32_MAX in *; lia|].
    rewrite <- !app_assoc. cbn [parse_groups]. rewrite skip_blanks by done.
    destruct (decimal_text g) as [|b ds] eqn:Et; [done|]. cbn [app skip].
    assert (Hb0 : digit_byte b = true) by (by apply andb_true_iff in Hd as [? _]). rewrite digit_not_blank by done.
    change (b :: ds ++ space :: group_text groups ++ tail) with ((b :: ds) ++ space :: group_text groups ++ tail).
    rewrite <- Et, strtoul_decimal by (reflexivity || unfold is_u32, UINT32_MAX in *; lia).
    pose proof (zlen_nonneg groups). replace (count <? KSD_CAPTURE_WORKER_MAX_GROUPS) with true by lia.
    replace (g <=? UINT32_MAX) with true by (unfold is_u32, UINT32_MAX in *; lia).
    change (space :: group_text groups ++ tail) with ([space] ++ group_text groups ++ tail).
    rewrite (IH [space] fuel (count + 1) tail r); [by destruct r|done|by constructor|lia|lia|lia|].
    intros bs Hbs. rewrite <- (Hend bs Hbs). f_equal. lia.
Qed.

Lemma parse_groups_blank fuel blanks count : Forall (fun b => is_blank b = true) blanks -> parse_groups (S fuel) blanks count = Some [].
Proof.
  intros Hb. cbn [parse_groups]. rewrite <- (app_nil_r blanks), skip_blanks by done. done.
Qed.

Lemma parse_groups_more fuel blanks b rest :
  Forall (fun b => is_blank b = true) blanks -> digit_byte b = true ->
  parse_groups fuel (blanks ++ b :: rest) KSD_CAPTURE_WORKER_MAX_GROUPS = None.
Proof.
  intros Hb Hd. destruct fuel; [done|]. cbn [parse_groups]. rewrite skip_blanks by done. cbn [skip]. by rewrite digit_not_blank.
Qed.

Lemma group_text_bytes groups : Forall is_u32 groups ->
  Forall (fun b => digit_byte b = true \/ b = space) (group_text groups) /\ zlen groups <= zlen (group_text groups) <= 11 * zlen groups.
Proof.
  induction 1 as [|g groups Hg _ [IH IHl]]; [split; [apply List.Forall_nil|done]|].
  change (group_text (g :: groups)) with ((decimal_text g ++ [space]) ++ group_text groups).
  destruct (decimal_text_digits g) as (Hne & Hd & _ & Hl); [unfold is_u32, UINT32_MAX in *; lia|]. split.
  - apply Forall_app. split; [|done]. apply Forall_app. split; [|by repeat constructor; right].
    apply List.Forall_forall. intros b Hb. left. rewrite forallb_forall in Hd. by apply Hd.
  - rewrite !zlen_app, !zlen_cons, zlen_nil. unfold zlen in *. lia.
Qed.

Lemma groups_line_bytes groups : Forall is_u32 groups -> no_newline (groups_line groups) /\ nul_free (groups_line groups).
Proof.
  intros Hg. destruct (group_text_bytes groups Hg) as [Hb _]. unfold groups_line, no_newline, nul_free.
  split; (apply Forall_app; split; [repeat constructor; vm_compute; discriminate|]; constructor; [vm_compute; discriminate|]);
    eapply Forall_impl; try exact Hb; cbn beta; intros b [Hd| ->]; try (vm_compute; discriminate); apply digit_byte_range in Hd; lia.
Qed.

(** A line of the file before the groups. *)
Definition other_line (line : list byte) : Prop :=
  no_newline line /\ nul_free line /\ zlen line < LINE_SIZE - 1 /\ ztake 7 line <> cstr "Groups:".

Lemma other_line_skipped line : other_line line -> bytes_eqb (ztake 7 (line ++ [newline])) (cstr "Groups:") = false.
Proof.
  intros (Hn & _ & _ & Hg). unfold bytes_eqb. apply bool_decide_eq_false. intros E. apply Hg.
  destruct (Nat.le_gt_cases 7 (length line)) as [Hl|Hl].
  - unfold ztake in *. by rewrite take_app_le in E by (change (Z.to_nat 7) with 7%nat; lia).
  - exfalso. assert (Hin : In newline (cstr "Groups:")).
    { rewrite <- E. unfold ztake. rewrite firstn_all2 by (rewrite length_app; cbn; lia). apply in_app_iff. right. by left. }
    vm_compute in Hin. repeat destruct Hin as [Hin|Hin]; done.
Qed.

Lemma find_groups_skips before : forall fuel rest,
  Forall other_line before -> (length (lines before ++ rest) < fuel)%nat ->
  exists fuel', find_groups fuel (lines before ++ rest) = find_groups fuel' rest /\ (length rest < fuel')%nat.
Proof.
  induction before as [|line before IH]; intros fuel rest Hb Hf; [by exists fuel|].
  apply Forall_cons_1 in Hb as [Hl Hb]. destruct fuel as [|fuel]; [lia|].
  change (lines (line :: before)) with ((line ++ [newline]) ++ lines before) in *. rewrite <- !app_assoc in *. cbn [app] in *.
  rewrite !length_app in Hf. cbn [length] in Hf. rewrite length_app in Hf. cbn [find_groups].
  pose proof Hl as (Hn & H0 & Hlen & _). rewrite fgets_line by done.
  replace (length line <? Z.to_nat (LINE_SIZE - 1))%nat with true by (symmetry; apply Nat.ltb_lt; unfold zlen in *; lia).
  rewrite until_nul_id by (apply Forall_app; split; [done|by repeat constructor]).
  rewrite other_line_skipped by done. destruct (IH fuel rest) as (fuel' & E & ?); [done|rewrite length_app; lia|].
  exists fuel'. split; [|done]. rewrite <- E. destruct line; done.
Qed.

Lemma find_groups_here fuel piece rest file values :
  fgets (Z.to_nat (LINE_SIZE - 1)) file = (cstr "Groups:" ++ piece, rest) -> nul_free piece -> file <> [] ->
  parse_groups (S (length (cstr "Groups:" ++ piece))) piece 0 = values ->
  (forall vs, values = Some vs -> In newline piece) -> find_groups (S fuel) file = values.
Proof.
  intros Hg Hn Hne Hp Hnl. cbn [find_groups]. destruct file as [|b file]; [done|]. rewrite Hg.
  rewrite until_nul_id by (apply Forall_app; split; [repeat constructor; vm_compute; discriminate|done]).
  change 7 with (zlen (cstr "Groups:")). rewrite ztake_app_l, zdrop_app_l, Hp. unfold bytes_eqb. rewrite bool_decide_true by done.
  destruct values as [vs|]; [|done]. replace (existsb _ _) with true; [done|]. symmetry. apply existsb_exists.
  exists newline. split; [apply in_app_iff; right; by eapply Hnl|done].
Qed.

(** What fgets gives of a line keeps what fits its buffer. *)
Lemma fgets_prefix p tail after :
  no_newline (p ++ tail) -> (length p < Z.to_nat (LINE_SIZE - 1))%nat ->
  exists k rest, fgets (Z.to_nat (LINE_SIZE - 1)) ((p ++ tail) ++ newline :: after) = (p ++ take k (tail ++ [newline]), rest).
Proof.
  intros Hn Hl. rewrite fgets_line by done. destruct (Nat.ltb_spec (length (p ++ tail)) (Z.to_nat (LINE_SIZE - 1))).
  - exists (length (tail ++ [newline])), after. by rewrite firstn_all, <- app_assoc.
  - set (room := Z.to_nat (LINE_SIZE - 1)) in *. rewrite length_app in *.
    exists (room - length p)%nat. eexists. f_equal. rewrite take_app, (firstn_all2 p) by lia. f_equal.
    rewrite take_app_le by lia. done.
Qed.

Lemma groups_line_split first g more :
  is_u32 g -> exists d tail, digit_byte d = true /\
    groups_line (first ++ g :: more) = (cstr "Groups:" ++ z2b 9 :: group_text first) ++ d :: tail.
Proof.
  intros Hg. destruct (decimal_text_digits g) as (Hne & Hd & _); [unfold is_u32, UINT32_MAX in *; lia|].
  destruct (decimal_text g) as [|d ds] eqn:E; [done|].
  exists d, (ds ++ space :: group_text more). split; [by apply andb_true_iff in Hd as [? _]|].
  unfold groups_line. rewrite <- app_assoc. cbn [app]. do 2 f_equal. unfold group_text. rewrite map_app, concat_app. cbn. by rewrite E, <- !app_assoc.
Qed.

Lemma find_many_groups fuel first g more after :
  Forall is_u32 (first ++ g :: more) -> zlen first = KSD_CAPTURE_WORKER_MAX_GROUPS ->
  find_groups (S fuel) (groups_line (first ++ g :: more) ++ newline :: after) = None.
Proof.
  intros Hg Hl. destruct (groups_line_bytes _ Hg) as [Hn H0]. pose proof Hg as Hg'. apply Forall_app in Hg' as [Hf Hgm].
  apply Forall_cons_1 in Hgm as [Hg0 _]. destruct (group_text_bytes first Hf) as [_ Hlen]. rewrite Hl in Hlen.
  destruct (groups_line_split first g more Hg0) as (d & tail & Hd & E). rewrite E in *.
  destruct (fgets_prefix (cstr "Groups:" ++ z2b 9 :: group_text first ++ [d]) tail after) as (k & rest & Hp).
  - revert Hn. rewrite <- !app_assoc. cbn [app]. by rewrite <- app_assoc.
  - rewrite length_app. cbn [length]. rewrite length_app. change (length (cstr "Groups:")) with 7%nat. cbn [length].
    unfold zlen, KSD_CAPTURE_WORKER_MAX_GROUPS, LINE_SIZE in *. lia.
  - rewrite (find_groups_here fuel (z2b 9 :: group_text first ++ d :: take k (tail ++ [newline])) rest _ None); [done| | |done| |done].
    + revert Hp. rewrite <- !app_assoc. cbn [app]. rewrite <- !app_assoc. done.
    + unfold nul_free in *. rewrite <- app_assoc in H0. apply Forall_app in H0 as [_ H0]. cbn [app] in H0.
      apply Forall_cons_1 in H0 as [? H0]. apply Forall_app in H0 as [? H0]. apply Forall_cons_1 in H0 as [? H0].
      constructor; [done|]. apply Forall_app. split; [done|]. constructor; [done|]. apply Forall_take, Forall_app.
      split; [done|by repeat constructor].
    + set (tl := take k _). change (z2b 9 :: group_text first ++ d :: tl) with ([z2b 9] ++ group_text first ++ d :: tl).
      rewrite (parse_groups_app first [z2b 9] _ 0 (d :: tl) None); [done|done|by repeat constructor| |lia|lia|].
      * rewrite !length_app. cbn. unfold zlen in *. lia.
      * intros blanks Hbl. rewrite Z.add_0_l, Hl. by apply parse_groups_more.
Qed.

Lemma find_few_groups fuel groups after :
  Forall is_u32 groups -> zlen groups <= KSD_CAPTURE_WORKER_MAX_GROUPS ->
  find_groups (S fuel) (groups_line groups ++ newline :: after) = Some groups.
Proof.
  intros Hg Hle. destruct (groups_line_bytes groups Hg) as [Hn H0]. destruct (group_text_bytes groups Hg) as [_ Hlen].
  pose proof (fgets_line (groups_line groups) (Z.to_nat (LINE_SIZE - 1)) after Hn) as Hgets.
  assert (Hll : length (groups_line groups) = (8 + length (group_text groups))%nat)
    by (unfold groups_line; rewrite length_app; reflexivity).
  replace (length (groups_line groups) <? Z.to_nat (LINE_SIZE - 1))%nat with true in Hgets
    by (symmetry; apply Nat.ltb_lt; rewrite Hll; unfold zlen, KSD_CAPTURE_WORKER_MAX_GROUPS, LINE_SIZE in *; lia).
  rewrite (find_groups_here fuel (z2b 9 :: group_text groups ++ [newline]) after _ (Some groups)); [done| | |by destruct groups| |].
  - rewrite Hgets. unfold groups_line. by rewrite <- app_assoc.
  - unfold groups_line, nul_free in H0. apply Forall_app in H0 as [_ H0]. apply Forall_cons_1 in H0 as [? H0].
    constructor; [done|]. apply Forall_app. split; [done|by repeat constructor].
  - change (z2b 9 :: group_text groups ++ [newline]) with ([z2b 9] ++ group_text groups ++ [newline]).
    rewrite (parse_groups_app groups [z2b 9] _ 0 [newline] (Some [])); [by rewrite app_nil_r|done|by repeat constructor| |lia|lia|].
    + rewrite !length_app. cbn. unfold zlen in *. lia.
    + intros blanks Hbl. match goal with |- parse_groups ?fuel _ _ = _ => destruct fuel eqn:Ef end.
      { exfalso. rewrite !length_app in Ef. cbn in Ef. unfold zlen in *. lia. }
      apply parse_groups_blank. apply Forall_app. split; [done|by repeat constructor].
  - intros vs _. right. apply in_app_iff. right. by left.
Qed.

(** A worker has its user's groups.  From the status file of a process as the kernel
    writes it, whatever lines come before and after, the groups read are those of the line
    that lists them, all of them and in order, when a worker can take them, and otherwise
    none: a list is never cut short, however long its line is. *)
Theorem worker_groups_exact {AL : Allocator} {AT : AllocTotal AL} before groups after :
  Forall other_line before -> Forall is_u32 groups ->
  capture_groups true true (Some (lines before ++ groups_line groups ++ newline :: after)) =
  if zlen groups <=? KSD_CAPTURE_WORKER_MAX_GROUPS then Some groups else None.
Proof.
  intros Hb Hg. unfold capture_groups. rewrite alloc_total. set (file := lines before ++ _).
  destruct (find_groups_skips before (S (length file)) (groups_line groups ++ newline :: after) Hb) as (fuel & E & Hf); [subst file; lia|].
  subst file. rewrite E. destruct fuel as [|fuel]; [lia|].
  destruct (Z.leb_spec (zlen groups) KSD_CAPTURE_WORKER_MAX_GROUPS) as [Hle|Hgt]; [by rewrite find_few_groups|].
  rewrite <- (take_drop 256 groups) in Hg |- *. set (first := take 256 groups) in *.
  assert (Hfl : zlen first = KSD_CAPTURE_WORKER_MAX_GROUPS)
    by (unfold first, zlen; rewrite length_take; unfold zlen, KSD_CAPTURE_WORKER_MAX_GROUPS in *; lia).
  destruct (drop 256 groups) as [|g more] eqn:Ed; [|by rewrite find_many_groups].
  apply (f_equal (@length Z)) in Ed. rewrite length_drop in Ed. unfold zlen, KSD_CAPTURE_WORKER_MAX_GROUPS in Hgt. cbn in Ed. lia.
Qed.

(** ** The bootstrap message *)

Definition group_bytes (groups : list Z) : list byte := concat (map ksd_encode_u32 groups).
Definition bootstrap_bytes (h : worker_bootstrap) (groups : list Z) (frame : list byte) : list byte :=
  message_of worker_magic KSD_CAPTURE_WORKER_VERSION (wb_backend h) (wb_uid h) (wb_gid h) (wb_group_count h) (wb_frame_length h)
    (wb_session_pid h) (Z.b2z (wb_persistent h)) ++ group_bytes groups ++ frame.

(** What a header promises of the groups and the request after it. *)
Definition bootstrap_wf (h : worker_bootstrap) (groups : list Z) (frame : list byte) : Prop :=
  is_u32 (wb_uid h) /\ is_u32 (wb_gid h) /\ Forall is_u32 groups /\ wb_group_count h = zlen groups /\
  zlen groups <= KSD_CAPTURE_WORKER_MAX_GROUPS /\ wb_frame_length h = zlen frame /\
  (if wb_persistent h then frame = [] else KSD_FRAME_HEADER_SIZE <= zlen frame <= KSD_FRAME_HEADER_SIZE + KSD_CAPTURE_WORKER_MAX_REQUEST) /\
  0 < wb_session_pid h <= INT32_MAX /\ 0 <= wb_backend h <= KSD_BACKEND_X11.

Lemma zlen_group_bytes groups : zlen (group_bytes groups) = 4 * zlen groups.
Proof. unfold group_bytes. apply zlen_concat_const. intros. apply zlen_encode_u32. Qed.

Lemma peel_u32s n : forall data, zlen data = 4 * Z.of_nat n ->
  exists groups, Forall is_u32 groups /\ length groups = n /\ data = group_bytes groups.
Proof.
  induction n as [|n IH]; intros data Hl.
  - exists []. split; [constructor|]. split; [done|]. destruct data; [done|]. rewrite zlen_cons in Hl. pose proof (zlen_nonneg data). lia.
  - destruct (peel_u32 data) as (v & rest & Hv & -> & Hr); [lia|]. destruct (IH rest) as (groups & Hg & Hn & ->); [lia|].
    exists (v :: groups). split; [by constructor|]. cbn. by rewrite Hn.
Qed.

Lemma decode_groups groups : forall start offset before after,
  Forall is_u32 groups -> zlen before = offset + 4 * Z.of_nat start -> 0 <= offset ->
  map (fun index => ksd_decode_u32 (zdrop (offset + Z.of_nat index * 4) (before ++ group_bytes groups ++ after))) (seq start (length groups)) = groups.
Proof.
  induction groups as [|g groups IH]; intros start offset before after Hg Hb Ho; [done|].
  apply Forall_cons_1 in Hg as [Hg Hgs]. cbn [length seq map].
  change (group_bytes (g :: groups)) with (ksd_encode_u32 g ++ group_bytes groups). f_equal.
  - replace (offset + Z.of_nat start * 4) with (zlen before) by lia. rewrite zdrop_app_l, <- app_assoc. by apply decode_u32_app.
  - rewrite <- (IH (S start) offset (before ++ ksd_encode_u32 g) after Hgs) at 2; [|rewrite zlen_app, zlen_encode_u32; lia|done].
    apply map_ext. intros i. by rewrite <- !app_assoc.
Qed.

Lemma bootstrap_words h groups frame :
  bootstrap_wf h groups frame ->
  let b := bootstrap_bytes h groups frame in
  parse_bootstrap_header b = Some h /\ bootstrap_groups b (wb_group_count h) = groups /\
  ztake (wb_frame_length h) (zdrop (KSD_CAPTURE_WORKER_HEADER_SIZE + wb_group_count h * 4) b) = frame /\
  zlen b <= KSD_CAPTURE_WORKER_BOOTSTRAP_MAX.
Proof.
  intros (Hu & Hg & Hgs & Hn & Hmax & Hf & Hp & Hpid & Hb). cbv zeta. unfold bootstrap_bytes.
  pose proof (zlen_nonneg groups) as Hn0. pose proof (zlen_nonneg frame) as Hf0. pose proof (zlen_group_bytes groups) as Hgl.
  assert (Hfl : zlen frame <= KSD_FRAME_HEADER_SIZE + KSD_CAPTURE_WORKER_MAX_REQUEST)
    by (destruct (wb_persistent h); [by subst frame|lia]).
  assert (Hmr : KSD_FRAME_HEADER_SIZE + KSD_CAPTURE_WORKER_MAX_REQUEST < 2 ^ 31) by (vm_compute; reflexivity).
  unfold KSD_CAPTURE_WORKER_MAX_GROUPS, INT32_MAX in *. change KSD_BACKEND_X11 with 5 in Hb.
  set (m := message_of _ _ _ _ _ _ _ _ _). set (k := group_bytes groups ++ frame).
  assert (Hk : zlen k = 4 * zlen groups + zlen frame) by (unfold k; rewrite zlen_app; lia).
  assert (Hml : zlen m = 32) by reflexivity.
  destruct (message_words_app worker_magic KSD_CAPTURE_WORKER_VERSION (wb_backend h) (wb_uid h) (wb_gid h) (wb_group_count h)
    (wb_frame_length h) (wb_session_pid h) (Z.b2z (wb_persistent h)) k) as (E0 & E1 & E2 & E3 & E4 & E5 & E6 & E7 & E8 & E9);
    try done; try (unfold is_u16, is_u32 in *; lia); [by destruct (wb_persistent h)|].
  fold m in E0, E1, E2, E3, E4, E5, E6, E7, E8, E9. split; [|split; [|split]].
  - unfold parse_bootstrap_header. rewrite E0, E1, E2, E3, E4, E5, E6, E7, E8, E9. cbn [wb_session_pid wb_group_count wb_persistent wb_frame_length].
    rewrite Hk. change KSD_CAPTURE_WORKER_HEADER_SIZE with 32. replace (32 + _ <? 32) with false by lia. change (bytes_eqb worker_magic worker_magic) with true.
    replace (KSD_BACKEND_X11 <? wb_backend h) with false by (change KSD_BACKEND_X11 with 5; lia).
    replace (1 <? Z.b2z (wb_persistent h)) with false by (by destruct (wb_persistent h)). cbn [negb orb Z.eqb Pos.eqb KSD_CAPTURE_WORKER_VERSION].
    assert (Hi : i32 (wb_session_pid h) = wb_session_pid h) by (unfold i32; rewrite Z.mod_small by lia; lia). rewrite Hi.
    rewrite !u64_id by (unfold is_u64; lia). replace (0 <? wb_session_pid h) with true by lia. rewrite Z.eqb_refl.
    replace (wb_group_count h <=? KSD_CAPTURE_WORKER_MAX_GROUPS) with true by (unfold KSD_CAPTURE_WORKER_MAX_GROUPS; lia).
    replace (wb_frame_length h <=? KSD_FRAME_HEADER_SIZE + KSD_CAPTURE_WORKER_MAX_REQUEST) with true by lia.
    replace (32 + _ + _ =? _) with true by lia. destruct h as [u g n f p b persistent]. cbn [wb_persistent wb_frame_length wb_uid wb_gid wb_backend] in *.
    destruct persistent; cbn [Z.b2z Z.eqb negb andb]; [subst frame; rewrite Hf; done|].
    by replace (KSD_FRAME_HEADER_SIZE <=? f) with true by lia.
  - unfold bootstrap_groups. rewrite Hn. unfold zlen at 1. rewrite Nat2Z.id. unfold k. by apply decode_groups.
  - rewrite Hn, Hf. change KSD_CAPTURE_WORKER_HEADER_SIZE with (zlen m). replace (zlen groups * 4) with (zlen (group_bytes groups)) by lia.
    rewrite <- zdrop_zdrop by lia. rewrite zdrop_app_l. unfold k. rewrite zdrop_app_l. by apply ztake_all.
  - rewrite E0, Hk. unfold KSD_CAPTURE_WORKER_BOOTSTRAP_MAX, KSD_CAPTURE_WORKER_HEADER_SIZE, KSD_CAPTURE_WORKER_MAX_GROUPS. lia.
Qed.

Lemma message_split data : 32 <= zlen data -> exists a v r s w h t f z k,
  zlen a = 4 /\ is_u16 v /\ is_u16 r /\ is_u32 s /\ is_u32 w /\ is_u32 h /\ is_u32 t /\ is_u32 f /\ is_u32 z /\
  data = message_of a v r s w h t f z ++ k.
Proof.
  intros Hl. destruct (message_fields (ztake 32 data)) as (a & v & r & s & w & h & t & f & z & H); [apply zlen_ztake; lia|].
  exists a, v, r, s, w, h, t, f, z, (zdrop 32 data). destruct H as (? & ? & ? & ? & ? & ? & ? & ? & ? & E).
  do 9 (split; [done|]). rewrite <- E. symmetry. apply ztake_zdrop.
Qed.

Lemma parse_bootstrap_exact b h :
  parse_bootstrap_header b = Some h <-> exists groups frame, bootstrap_wf h groups frame /\ b = bootstrap_bytes h groups frame.
Proof.
  split; [|intros (groups & frame & Hwf & ->); by apply (bootstrap_words h groups frame)].
  unfold parse_bootstrap_header. change KSD_CAPTURE_WORKER_HEADER_SIZE with 32.
  destruct (Z.ltb_spec (zlen b) 32) as [|Hl]; [done|]. cbn [orb].
  destruct (message_split b Hl) as (a & v & r & s & w & hh & t & f & z & k & Ha & Hv & Hr & Hs & Hw & Hh & Ht & Hf & Hz & E). subst b.
  destruct (message_words_app a v r s w hh t f z k Ha Hv Hr Hs Hw Hh Ht Hf Hz) as (-> & -> & -> & -> & -> & -> & -> & -> & -> & ->).
  destruct (negb (bytes_eqb a worker_magic) || _ || _ || _) eqn:E1; cbn [negb]; [done|]. unfold bytes_eqb in E1. breflect. case_bool_decide; [subst a|done].
  cbn [wb_session_pid wb_group_count wb_persistent wb_frame_length]. destruct (_ && _) eqn:E2 in |- *; [|done]. intros [= <-]. breflect.
  pose proof (zlen_nonneg k) as Hk0. unfold KSD_CAPTURE_WORKER_MAX_GROUPS in *.
  assert (Hpid : i32 f = f).
  { match goal with Hq : u64 (i32 f) = f |- _ => rewrite u64_id in Hq; [done|] end. unfold is_u64. unfold i32 in *. unfold is_u32 in *.
    pose proof (Z.mod_pos_bound (f + 2 ^ 31) (2 ^ 32)). lia. }
  rewrite Hpid in *. assert (Hf31 : f <= INT32_MAX) by (unfold i32 in Hpid; unfold INT32_MAX; pose proof (Z.mod_pos_bound (f + 2 ^ 31) (2 ^ 32)); lia).
  rewrite (u64_id (hh * 4)) in * by (unfold is_u64, is_u32 in *; lia).
  destruct (peel_u32s (Z.to_nat hh) (ztake (4 * hh) k)) as (groups & Hgs & Hgl & Eg); [rewrite zlen_ztake; unfold is_u32 in *; lia|].
  assert (Hgz : zlen groups = hh) by (unfold zlen, is_u32 in *; lia).
  assert (Hfr : zlen (zdrop (4 * hh) k) = t) by (rewrite zlen_zdrop; unfold is_u32 in *; lia).
  exists groups, (zdrop (4 * hh) k). split.
  - unfold bootstrap_wf. cbn [wb_uid wb_gid wb_group_count wb_frame_length wb_persistent wb_session_pid wb_backend].
    rewrite Hfr, Hgz. do 4 (split; [done|]). split; [done|]. split; [done|]. split; [|split; [lia|unfold is_u16 in *; lia]].
    destruct (negb (z =? 0)); [|lia]. breflect. destruct (zdrop (4 * hh) k) as [|x l]; [done|].
    rewrite zlen_cons in Hfr. pose proof (zlen_nonneg l). lia.
  - unfold bootstrap_bytes. cbn [wb_uid wb_gid wb_group_count wb_frame_length wb_persistent wb_session_pid wb_backend].
    rewrite <- Eg, ztake_zdrop. do 2 f_equal; [lia|]. unfold is_u32 in Hz. assert (z = 0 \/ z = 1) as [-> | ->] by lia; done.
Qed.

Section sending.
Context {AL : Allocator} {AT : AllocTotal AL}.

Lemma append_groups_writes groups : writes (append_groups groups) (group_bytes groups).
Proof.
  induction groups as [|g groups IH]; cbn [append_groups].
  - apply writes_nil.
  - apply (andthen_writes (ksd_buffer_u32 g) (append_groups groups)); [apply u32_writes|done].
Qed.

(** With memory, an operation fills a new buffer that is large enough. *)
Lemma writes_fresh op bs m :
  writes op bs -> 0 <= m <= SIZE_MAX -> zlen bs <= m -> exists b, op (ksd_buffer_init m) = (true, b) /\ buf_bytes b = bs.
Proof.
  intros Hw Hm Hl. destruct (writes_total op bs (ksd_buffer_init m) Hw) as (b & E & _ & _ & Hb); [by apply buffer_init_wf|done|].
  by exists b.
Qed.

(** A frame that can be sent to a worker that serves one request. *)
Definition bootstrap_frame (request : ksd_frame) : Prop :=
  frame_wf request /\ frame_header_acceptable bootstrap_rules request = true.

Lemma bootstrap_frame_bytes request :
  bootstrap_frame request -> zlen (frame_bytes request) = KSD_FRAME_HEADER_SIZE + fr_payload_length request /\
  0 <= fr_payload_length request <= KSD_CAPTURE_WORKER_MAX_REQUEST.
Proof.
  intros [(Hh & Hl & _) Ha]. unfold frame_bytes. rewrite zlen_app, zlen_header by apply Hh. split; [lia|].
  unfold frame_header_acceptable in Ha. breflect. cbn [rule_maximum_payload bootstrap_rules] in *.
  pose proof (zlen_nonneg (default [] (fr_payload request))). lia.
Qed.

Lemma bootstrap_message_bytes uid gid groups (request : option ksd_frame) session_pid backend (persistent : bool) :
  is_u32 uid -> is_u32 gid -> Forall is_u32 groups -> zlen groups <= KSD_CAPTURE_WORKER_MAX_GROUPS ->
  0 < session_pid <= INT32_MAX -> 0 <= backend <= KSD_BACKEND_X11 ->
  (if persistent then request = None else exists f, request = Some f /\ bootstrap_frame f) ->
  let frame := match request with Some f => frame_bytes f | None => [] end in
  let h := mk_bootstrap uid gid (zlen groups) (zlen frame) session_pid backend persistent in
  bootstrap_message uid gid groups request session_pid backend persistent = Some (bootstrap_bytes h groups frame) /\
  bootstrap_wf h groups frame.
Proof.
  intros Hu Hg Hgs Hn Hpid Hb Hr. cbv zeta. set (frame := match request with Some f => frame_bytes f | None => [] end).
  pose proof (zlen_nonneg groups) as Hn0.
  assert (Hframe : zlen frame <= KSD_FRAME_HEADER_SIZE + KSD_CAPTURE_WORKER_MAX_REQUEST /\
    (if persistent then frame = [] else KSD_FRAME_HEADER_SIZE <= zlen frame <= KSD_FRAME_HEADER_SIZE + KSD_CAPTURE_WORKER_MAX_REQUEST)).
  { unfold frame. destruct persistent; [subst request; done|]. destruct Hr as (f & -> & Hf).
    destruct (bootstrap_frame_bytes f Hf) as [-> ?]. lia. }
  destruct Hframe as [Hfl Hfp].
  assert (Hwf : bootstrap_wf (mk_bootstrap uid gid (zlen groups) (zlen frame) session_pid backend persistent) groups frame)
    by (unfold bootstrap_wf; cbn [wb_uid wb_gid wb_group_count wb_frame_length wb_persistent wb_session_pid wb_backend]; auto 10).
  split; [|done]. unfold bootstrap_message. replace (zlen groups <=? KSD_CAPTURE_WORKER_MAX_GROUPS) with true by lia.
  assert (Hpack : exists fb, (match request with
     | None => guard* persistent in Some (ksd_buffer_init (KSD_FRAME_HEADER_SIZE + KSD_CAPTURE_WORKER_MAX_REQUEST))
     | Some request =>
       guard* negb persistent && (fr_payload_length request <=? KSD_CAPTURE_WORKER_MAX_REQUEST) in
       let '(ok, frame) := ksd_frame_pack request (ksd_buffer_init (KSD_FRAME_HEADER_SIZE + KSD_CAPTURE_WORKER_MAX_REQUEST)) in
       guard* ok in Some frame
     end) = Some fb /\ buf_bytes fb = frame).
  { unfold frame. destruct persistent; [subst request; by exists (ksd_buffer_init (KSD_FRAME_HEADER_SIZE + KSD_CAPTURE_WORKER_MAX_REQUEST))|].
    destruct Hr as (f & -> & Hf). destruct (bootstrap_frame_bytes f Hf) as [Hl ?]. replace (_ <=? _) with true by lia. cbn [negb andb].
    destruct (writes_fresh _ _ (KSD_FRAME_HEADER_SIZE + KSD_CAPTURE_WORKER_MAX_REQUEST) (pack_writes f (proj1 Hf))) as (fb & -> & ?);
      [vm_compute; split; discriminate|lia|]. by exists fb. }
  destruct Hpack as (fb & -> & Hfb). unfold buf_length. rewrite Hfb.
  replace (zlen frame <=? UINT32_MAX) with true by (unfold UINT32_MAX; assert (KSD_FRAME_HEADER_SIZE + KSD_CAPTURE_WORKER_MAX_REQUEST < 2 ^ 31) by (vm_compute; reflexivity); lia).
  match goal with |- context [let '(ok, message) := ?op ?b in _] => assert (Hw : writes op (bootstrap_bytes (mk_bootstrap uid gid (zlen groups) (zlen frame) session_pid backend persistent) groups frame)) end.
  { unfold bootstrap_bytes, message_of. cbn [wb_uid wb_gid wb_group_count wb_frame_length wb_persistent wb_session_pid wb_backend].
    assert (Hfl31 : zlen frame < 2 ^ 31) by (assert (KSD_FRAME_HEADER_SIZE + KSD_CAPTURE_WORKER_MAX_REQUEST < 2 ^ 31) by (vm_compute; reflexivity); lia).
    pose proof (zlen_nonneg frame). unfold INT32_MAX, KSD_CAPTURE_WORKER_MAX_GROUPS in *. change KSD_BACKEND_X11 with 5 in Hb.
    rewrite (u16_id backend) by (unfold is_u16; lia). rewrite !u32_id by (unfold is_u32 in *; lia).
    rewrite <- !app_assoc. repeat (apply andthen_writes; [first [apply put_writes|apply u16_writes|apply u32_writes]|]).
    apply andthen_writes; [apply append_groups_writes|]. by apply bytes_writes. }
  destruct (writes_fresh _ _ KSD_CAPTURE_WORKER_BOOTSTRAP_MAX Hw) as (message & -> & ->); [vm_compute; split; discriminate| |done].
  by apply (bootstrap_words _ groups frame).
Qed.

(** A worker starts from what the authority meant.  The header a worker accepts is exactly
    a bootstrap message of the current version, with a process, a backend, the groups and
    the request it announces, of these lengths and not a byte more; and the message the
    authority sends is read back by the worker as the same user, groups, session, backend
    and mode, and the same request, in a message that fits the worker's buffer. *)
Theorem worker_bootstrap_exact :
  (forall b h, parse_bootstrap_header b = Some h <-> exists groups frame, bootstrap_wf h groups frame /\ b = bootstrap_bytes h groups frame) /\
  (forall uid gid groups (request : option ksd_frame) session_pid backend (persistent : bool),
    is_u32 uid -> is_u32 gid -> Forall is_u32 groups -> zlen groups <= KSD_CAPTURE_WORKER_MAX_GROUPS ->
    0 < session_pid <= INT32_MAX -> 0 <= backend <= KSD_BACKEND_X11 ->
    (if persistent then request = None else exists f, request = Some f /\ bootstrap_frame f) ->
    exists b h, bootstrap_message uid gid groups request session_pid backend persistent = Some b /\ parse_bootstrap_header b = Some h /\
      (wb_uid h, wb_gid h, wb_session_pid h, wb_backend h, wb_persistent h) = (uid, gid, session_pid, backend, persistent) /\
      bootstrap_groups b (wb_group_count h) = groups /\ zlen b <= KSD_CAPTURE_WORKER_BOOTSTRAP_MAX /\
      match request with Some f => bootstrap_request b h = Some f | None => wb_frame_length h = 0 end).
Proof.
  split; [apply parse_bootstrap_exact|]. intros uid gid groups request session_pid backend persistent Hu Hg Hgs Hn Hpid Hb Hr.
  destruct (bootstrap_message_bytes uid gid groups request session_pid backend persistent Hu Hg Hgs Hn Hpid Hb Hr) as [-> Hwf].
  destruct (bootstrap_words _ _ _ Hwf) as (Hp & Hgr & Hf & Hl). eexists _, _. split; [done|]. split; [exact Hp|]. split; [done|].
  split; [done|]. split; [done|]. destruct request as [f|]; [|done]. unfold bootstrap_request. rewrite Hf.
  destruct persistent; [done|]. destruct Hr as (f' & [= <-] & Hwf' & Hacc). by apply unpack_complete.
Qed.
End sending.

(** ** The answer *)

Definition delivered_fds (outcome : recvmsg_outcome) : list Z :=
  match outcome with MsgData _ _ control => cmsgs_fds control | _ => [] end.
(** A packet as the kernel delivers it. *)
Definition kernel_packet (outcome : recvmsg_outcome) : Prop :=
  match outcome with MsgData _ _ control => Forall cmsg_rights control | _ => True end.

(** A capture in a sealed file. *)
Definition capture_file (file : worker_file) (length : Z) : Prop :=
  sealed_capture_file 0 length (wf_info file) = true /\
  exists bytes, wf_bytes file = Some bytes /\ ksd_capture_tail_valid (Some bytes) length = true.

Lemma received_fds outcome bytes fd :
  kernel_packet outcome -> rcv_result (ksd_receive_optional_fd KSD_CAPTURE_WORKER_RESPONSE_SIZE outcome) = Some (bytes, fd) ->
  -1 <= fd /\ rcv_closed (ksd_receive_optional_fd KSD_CAPTURE_WORKER_RESPONSE_SIZE outcome) ++ close_fd fd ≡ₚ delivered_fds outcome.
Proof.
  intros Hk Hr. pose proof (receive_optional_fd_accounts KSD_CAPTURE_WORKER_RESPONSE_SIZE outcome Hk) as Ha.
  unfold accounted in Ha. rewrite Hr in Ha.
  assert (Hopen : Forall (fun fd => 0 <= fd) (delivered_fds outcome)) by (destruct outcome; [constructor..|by apply cmsgs_fds_open]).
  change (match outcome with MsgData _ _ control => cmsgs_fds control | _ => [] end) with (delivered_fds outcome) in Ha.
  destruct (Z.eqb_spec fd (-1)) as [->|Hne]; [split; [lia|by rewrite Ha]|].
  assert (0 <= fd) by (rewrite <- Ha in Hopen; apply Forall_app in Hopen as [_ Hopen]; by apply Forall_cons_1 in Hopen as [? _]).
  split; [lia|]. unfold close_fd. replace (0 <=? fd) with true by lia. done.
Qed.

Lemma worker_response_facts outcome files result :
  kernel_packet outcome -> result_wf result ->
  let '(ok, result', closed) := receive_worker_response outcome files result in
  closed ++ owned result' ≡ₚ delivered_fds outcome ++ owned result /\
  (ok = false -> result' = result) /\
  (ok = true -> result_wf result' /\ valid_status (res_status result') = true /\ res_tail result' = None /\
     (0 <= res_payload_fd result' -> res_status result' = KSD_STATUS_OK /\ In (res_payload_fd result') (delivered_fds outcome) /\
        capture_file (files (res_payload_fd result')) (res_tail_length result')) /\
     (res_status result' = KSD_STATUS_OK -> res_payload_fd result' = -1 -> res_tail_length result' = 0)).
Proof.
  intros Hk Hwf. unfold receive_worker_response. pose proof (received_fds outcome) as Hfds.
  pose proof (receive_optional_fd_accounts KSD_CAPTURE_WORKER_RESPONSE_SIZE outcome Hk) as Hacc.
  set (received := ksd_receive_optional_fd _ _) in *.
  destruct (rcv_result received) as [[message fd]|] eqn:Er.
  2:{ unfold accounted in Hacc. rewrite Er, app_nil_r in Hacc. split; [by rewrite Hacc|done]. }
  destruct (Hfds _ _ Hk eq_refl) as [Hfd Hperm]. cbv zeta. set (status := ksd_decode_u32 (zdrop 8 message)).
  set (detail := ksd_decode_u32 (zdrop 12 message)). set (tail_length := ksd_decode_u32 (zdrop 16 message)).
  set (dlen := ksd_decode_u32 (zdrop 20 message)). set (diagnostic := ztake dlen (zdrop 24 message)).
  assert (Hrefused : (rcv_closed received ++ close_fd fd) ++ owned result ≡ₚ delivered_fds outcome ++ owned result /\
    (false = false -> result = result) /\
    (false = true -> result_wf result /\ valid_status (res_status result) = true /\ res_tail result = None /\
     (0 <= res_payload_fd result -> res_status result = KSD_STATUS_OK /\ In (res_payload_fd result) (delivered_fds outcome) /\
        capture_file (files (res_payload_fd result)) (res_tail_length result)) /\
     (res_status result = KSD_STATUS_OK -> res_payload_fd result = -1 -> res_tail_length result = 0)))
    by (rewrite Hperm; done).
  destruct (_ && ksd_utf8_valid diagnostic false) eqn:Ev; cbn [negb]; [|exact Hrefused]. rewrite !andb_true_iff in Ev.
  destruct Ev as (((((_ & _) & _) & Hst) & _) & Hutf).
  assert (Hnofd : fd < 0 -> rcv_closed received ++ owned result ≡ₚ delivered_fds outcome ++ owned result).
  { intros Hneg. unfold close_fd in Hperm. replace (0 <=? fd) with false in Hperm by lia. rewrite app_nil_r in Hperm. by rewrite Hperm. }
  destruct ((status =? KSD_STATUS_OK) && (tail_length =? 0)) eqn:E0.
  - destruct (negb (dlen =? 0) || (0 <=? fd)) eqn:E1; [exact Hrefused|]. breflect.
    unfold ksd_result_take. cbn [negb Z.eqb andb]. change (owned (mk_result KSD_STATUS_OK 0 [] None 0 (-1))) with (@nil Z). rewrite app_nil_r.
    split; [by apply Hnofd|]. split; [done|]. intros _. cbn [res_status res_tail res_payload_fd res_tail_length].
    split; [apply (result_take_spec result None 0 Hwf eq_refl)|]. split; [done|]. split; [done|]. split; [lia|done].
  - destruct (status =? KSD_STATUS_OK) eqn:Es.
    + destruct (negb (dlen =? 0) || _) eqn:E1; [exact Hrefused|]. apply orb_false_iff in E1 as [_ E1]. apply negb_false_iff in E1.
      destruct (wf_bytes (files fd)) as [mapped|] eqn:Em; [|exact Hrefused].
      destruct (ksd_capture_tail_valid _ _) eqn:Et; cbn [negb]; [|exact Hrefused].
      assert (Hsealed : sealed_capture_file fd tail_length (wf_info (files fd)) = true) by done.
      pose proof Hsealed as Hs'. unfold sealed_capture_file in Hs'. rewrite !andb_true_iff in Hs'. destruct Hs' as ((((((Hs1 & Hs2) & Hs3) & Hs4) & Hs5) & Hs6) & Hs7).
      breflect. pose proof (result_take_fd_conserves result fd tail_length Hwf ltac:(lia)) as Ht'.
      unfold ksd_result_take_fd in *. replace ((fd <? 0) || (tail_length =? 0)) with false in * by lia. destruct Ht' as [Hwf' _].
      assert (Ho : owned (mk_result KSD_STATUS_OK 0 [] None tail_length fd) = [fd]) by (unfold owned, release_payload_fd; cbn; by replace (0 <=? fd) with true by lia).
      rewrite Ho.
      unfold close_fd in Hperm. replace (0 <=? fd) with true in Hperm by lia.
      split; [rewrite <- Hperm; unfold owned; rewrite <- !app_assoc; f_equiv; apply Permutation_app_comm|]. split; [done|]. intros _.
      cbn [res_status res_tail res_payload_fd res_tail_length]. split; [exact Hwf'|]. split; [done|]. split; [done|].
      split; [|lia]. intros _. split; [done|]. split; [rewrite <- Hperm; apply in_app_iff; right; by left|].
      split; [|by exists mapped]. unfold sealed_capture_file. rewrite Hs4, Hs5, Z.eqb_refl, Hs7.
      replace (20 <=? tail_length) with true by lia. replace (tail_length <=? KSD_MAX_CAPTURE_TAIL) with true by lia.
      by replace (0 <=? fi_seals (wf_info (files fd))) with true by lia.
    + destruct ((0 <=? fd) || negb (tail_length =? 0)) eqn:E1; [exact Hrefused|]. breflect.
      set (text := if dlen =? 0 then _ else _).
      pose proof (result_error_diagnostic result status detail text Hwf) as Hre. assert (Hrp : res_payload_fd (fst (ksd_result_error result status detail (Some text))) = -1) by done.
      destruct (ksd_result_error result status detail (Some text)) as [r' closed]. cbn [fst] in Hrp.
      destruct Hre as (Hwf' & -> & Ho & Hrs & Hrt & _). rewrite Ho, app_nil_r.
      split; [by apply Hnofd|]. split; [done|]. intros _. rewrite Hrs, Hrp. split; [done|]. split; [done|]. split; [done|].
      split; [lia|]. intros Hc. breflect. congruence.
Qed.

(** What the authority takes from a worker.  Whatever arrives, every descriptor that came
    with it ends up in the result or closed, once, as does the one the result held before;
    an answer that is refused leaves the result as it was; and an answer that is taken
    gives a well-formed result with a status of the protocol that holds a descriptor only
    for a success, and then the descriptor came with the answer and is a sealed file of
    the length announced holding a capture that is well formed. *)
Theorem worker_response_sound outcome files result :
  kernel_packet outcome -> result_wf result ->
  let '(ok, result', closed) := receive_worker_response outcome files result in
  closed ++ owned result' ≡ₚ delivered_fds outcome ++ owned result /\
  (ok = false -> result' = result) /\
  (ok = true -> result_wf result' /\ valid_status (res_status result') = true /\ res_tail result' = None /\
     (0 <= res_payload_fd result' -> res_status result' = KSD_STATUS_OK /\ In (res_payload_fd result') (delivered_fds outcome) /\
        capture_file (files (res_payload_fd result')) (res_tail_length result')) /\
     (res_status result' = KSD_STATUS_OK -> res_payload_fd result' = -1 -> res_tail_length result' = 0)).
Proof. apply worker_response_facts. Qed.

(** What arrives of a message and its file; [fd] is what the file is at the receiver. *)
Definition as_received (fd : Z) (out : list byte) (file : option worker_file) : recvmsg_outcome :=
  MsgData out false (match file with Some _ => [mk_cmsg SOL_SOCKET SCM_RIGHTS (CMSG_LEN0 + 4) [fd]] | None => [] end).

Lemma receive_as_received length fd out file :
  0 <= fd -> zlen out = length ->
  ksd_receive_optional_fd length (as_received fd out file) =
  mk_received (Some (out, match file with Some _ => fd | None => -1 end)) [].
Proof.
  intros Hfd Hl. unfold ksd_receive_optional_fd, as_received. replace (zlen out =? length) with true by lia. by destruct file.
Qed.

Lemma worker_message_words r dlen :
  is_u32 (res_status r) -> is_u32 (res_detail r) -> is_u32 (res_tail_length r) -> 0 <= dlen <= zlen (res_diagnostic r) ->
  dlen < KSD_DIAGNOSTIC_CAPACITY ->
  let m := worker_message r dlen in
  zlen m = KSD_CAPTURE_WORKER_RESPONSE_SIZE /\ ztake 4 m = worker_magic /\ ksd_decode_u16 (zdrop 4 m) = KSD_CAPTURE_WORKER_VERSION /\
  ksd_decode_u16 (zdrop 6 m) = 0 /\ ksd_decode_u32 (zdrop 8 m) = res_status r /\ ksd_decode_u32 (zdrop 12 m) = res_detail r /\
  ksd_decode_u32 (zdrop 16 m) = (if res_status r =? KSD_STATUS_OK then res_tail_length r else 0) /\ ksd_decode_u32 (zdrop 20 m) = dlen /\
  ztake dlen (zdrop 24 m) = ztake dlen (res_diagnostic r).
Proof.
  intros Hs Hd Ht Hl Hc. cbv zeta. unfold KSD_DIAGNOSTIC_CAPACITY in *. unfold worker_message.
  assert (Hz : zlen (ztake dlen (res_diagnostic r)) = dlen) by (by apply zlen_ztake).
  split; [|split; [done|]].
  - rewrite !zlen_app, Hz, zlen_encode_u16, !zlen_encode_u32. unfold zlen at 3. rewrite repeat_length.
    unfold KSD_CAPTURE_WORKER_RESPONSE_SIZE, KSD_DIAGNOSTIC_CAPACITY. change (zlen worker_magic) with 4. change (zlen [x00; x00]) with 2. lia.
  - split; [apply (decode_encode_u16 KSD_CAPTURE_WORKER_VERSION)|]. split; [done|].
    split; [by apply decode_u32_app|]. split; [by apply decode_u32_app|].
    split; [apply decode_u32_app; by destruct (res_status r =? KSD_STATUS_OK)|].
    split; [apply decode_u32_app; unfold is_u32; lia|].
    change (zdrop 24 _) with (ztake dlen (res_diagnostic r) ++ repeat x00 (Z.to_nat (KSD_DIAGNOSTIC_CAPACITY - dlen))).
    rewrite <- Hz at 1. apply ztake_app_l.
Qed.

(** A result whose success, if it carries anything, carries a capture. *)
Definition sends_capture (files : Z -> worker_file) (r : ksd_operation_result) : Prop :=
  res_status r = KSD_STATUS_OK -> res_tail_length r <> 0 ->
  match res_tail r with
  | Some bytes => ksd_capture_tail_valid (Some bytes) (res_tail_length r) = true
  | None => capture_file (files (res_payload_fd r)) (res_tail_length r)
  end.

Lemma capture_tail_shape bytes : ksd_capture_tail_valid (Some bytes) (zlen bytes) = true -> 20 <= zlen bytes <= KSD_MAX_CAPTURE_TAIL.
Proof.
  unfold ksd_capture_tail_valid. destruct (Z.ltb_spec (zlen bytes) 20); [done|]. set (length := ksd_decode_u32 (zdrop 16 bytes)).
  destruct (_ || negb (zlen bytes =? u32 (20 + length))) eqn:E; [done|]. intros _. apply orb_false_iff in E as [E E'].
  repeat (apply orb_false_iff in E as [E ?]). breflect. unfold KSD_MAX_CAPTURE_TAIL, u32 in *.
  pose proof (Z.mod_pos_bound (20 + length) (2 ^ 32)). unfold KSD_MAX_CAPTURE_BYTES in *.
  destruct (peel_u32 (zdrop 16 bytes)) as (v & rest & Hv & Ev & _); [rewrite zlen_zdrop; lia|].
  assert (length = v) as -> by (unfold length; rewrite Ev; by apply decode_u32_app). unfold is_u32 in Hv.
  rewrite Z.mod_small in * by lia. lia.
Qed.

(** What a successful send with a tail sent. *)
Lemma send_worker_tail descriptor run files r out file closed :
  result_wf r -> sends_capture files r -> res_status r = KSD_STATUS_OK -> res_tail_length r <> 0 ->
  send_worker_response descriptor run files r = Some (true, out, file, closed) ->
  out = worker_message r 0 /\ (exists f, file = Some f /\ capture_file f (res_tail_length r) /\
    wf_bytes f = (match res_tail r with Some bytes => Some bytes | None => wf_bytes (files (res_payload_fd r)) end)) /\
  closed = (match res_tail r with Some _ => [rr_created run] | None => [] end).
Proof.
  intros (Hown & Hfd & Hlen & _) Hcap Hs Hn. specialize (Hcap Hs Hn). unfold send_worker_response. rewrite Hs.
  change (KSD_STATUS_OK =? KSD_STATUS_OK) with true. cbn [negb orb].
  destruct (_ || (KSD_DIAGNOSTIC_CAPACITY <=? 0)); [done|]. replace (res_tail_length r =? 0) with false by lia.
  destruct (res_tail r) as [bytes|].
  - destruct Hown as [?|Hpay]; [done|]. rewrite Hpay in *. specialize (Hlen eq_refl). change (res_tail_length r = zlen bytes) in Hlen.
    destruct (capture_tail_shape bytes) as [H20 Hmax]; [by rewrite <- Hlen|].
    replace (res_tail_length r <=? KSD_MAX_CAPTURE_TAIL) with true by lia. change (0 <=? -1) with false. cbn [negb andb].
    destruct (Z.leb_spec 0 (rr_created run)); [|done]. cbn [andb negb].
    change (default [] (Some bytes)) with bytes. rewrite Hlen, ztake_all by lia.
    destruct (ksd_write_all (rr_writes run) bytes []) as [[filled written]|] eqn:Ew; [|done].
    apply write_all_spec in Ew as (_ & _ & Hw). destruct (rr_sealed run); [|rewrite andb_false_r; done].
    destruct filled; [|done]. cbn [andb negb]. specialize (Hw eq_refl). cbn [app] in Hw. subst written.
    destruct (ksd_send_with_fd _ _ _ _ _) as [[[] o]|] eqn:Ef; [|done|done]. intros [= <- <- <-].
    apply send_with_fd_sent in Ef as [-> _]. split; [done|]. split; [|done]. exists (sealed_file bytes). split; [done|]. split; [|done].
    split; [|exists bytes; split; [done|by rewrite <- Hlen]]. unfold sealed_capture_file, sealed_file. cbn [wf_info fi_regular fi_size fi_seals].
    rewrite Z.eqb_refl. replace (20 <=? zlen bytes) with true by lia. by replace (zlen bytes <=? KSD_MAX_CAPTURE_TAIL) with true by lia.
  - destruct Hcap as [Hsealed (bytes & Hb & Hv)]. destruct (Z.leb_spec 0 (res_payload_fd r)) as [Hp|Hp]; cbn [negb andb].
    2:{ destruct (res_tail_length r <=? KSD_MAX_CAPTURE_TAIL); cbn [andb negb]; done. }
    match goal with |- (if ?refused then _ else _) = _ -> _ => destruct refused; [done|] end.
    destruct (ksd_send_with_fd _ _ _ _ _) as [[[] o]|] eqn:Ef; [|done|done]. intros [= <- <- <-].
    apply send_with_fd_sent in Ef as [-> _]. split; [done|]. split; [|done]. eexists. split; [done|]. split; [|done]. split; [done|]. by exists bytes.
Qed.

(** A worker's answer arrives as it was sent.  For a well-formed result, whose success
    carries nothing or a capture, in memory or in a sealed file, an answer that was sent
    is taken by the authority: it has the status and, for a failure, the detail and the
    message, with a text of its own in place of an empty one; a success that carries a
    capture gives the authority the file it came in, with the same bytes.  The sender
    has closed the memory file it made for the purpose and nothing else, the receiver
    nothing. *)
Theorem worker_response_roundtrip descriptor run files r out file closed fd :
  result_wf r -> nul_free (res_diagnostic r) -> is_u32 (res_status r) -> is_u32 (res_detail r) -> is_u32 (res_tail_length r) ->
  sends_capture files r -> 0 <= fd ->
  send_worker_response descriptor run files r = Some (true, out, file, closed) ->
  let '(ok, r', closed') := receive_worker_response (as_received fd out file) (fun _ => default no_file file) ksd_result_init in
  ok = true /\ closed' = [] /\ res_status r' = res_status r /\
  (res_status r = KSD_STATUS_OK -> res_tail_length r' = res_tail_length r /\
     (res_tail_length r = 0 -> res_payload_fd r' = -1 /\ closed = []) /\
     (res_tail_length r <> 0 -> res_payload_fd r' = fd /\
        wf_bytes (default no_file file) = (match res_tail r with Some bytes => Some bytes | None => wf_bytes (files (res_payload_fd r)) end) /\
        closed = (match res_tail r with Some _ => [rr_created run] | None => [] end))) /\
  (res_status r <> KSD_STATUS_OK -> res_detail r' = res_detail r /\ closed = [] /\
     res_diagnostic r' = (match res_diagnostic r with [] => cstr "capture worker failed" | d => d end)).
Proof.
  intros Hwf Hnul Hs Hd Ht Hcap Hfd Hsend. pose proof Hwf as (_ & _ & _ & _ & _ & Hutf & Hdl).
  assert (Hvalid : valid_status (res_status r) = true).
  { unfold send_worker_response in Hsend. destruct (valid_status (res_status r)); [done|]. by cbn in Hsend. }
  pose proof (zlen_nonneg (res_diagnostic r)) as Hd0.
  destruct (Z.eqb_spec (res_status r) KSD_STATUS_OK) as [Hok|Hbad].
  - destruct (worker_message_words r 0 Hs Hd Ht) as (W0 & W1 & W2 & W3 & W4 & W5 & W6 & W7 & W8); [lia|vm_compute; reflexivity|].
    rewrite Hok in W4, W6. change (KSD_STATUS_OK =? KSD_STATUS_OK) with true in W6.
    destruct (Z.eqb_spec (res_tail_length r) 0) as [H0|H0].
    + assert (E : out = worker_message r 0 /\ file = None /\ closed = []).
      { unfold send_worker_response in Hsend. rewrite Hok, H0 in Hsend. change (KSD_STATUS_OK =? KSD_STATUS_OK) with true in Hsend.
        change (negb (valid_status KSD_STATUS_OK) || (KSD_DIAGNOSTIC_CAPACITY <=? 0)) with false in Hsend. cbn [Z.eqb negb orb andb] in Hsend.
        destruct (res_tail r); [done|]. destruct (send_message _ _) as [[]|]; by inversion Hsend. }
      destruct E as (-> & -> & ->). unfold receive_worker_response. rewrite receive_as_received by done.
      cbn [rcv_result rcv_closed]. rewrite W1, W2, W3, W4, W6, W7, W8, H0, ztake_0, utf8_valid_nil. cbn. split; [done|]. split; [done|].
      split; [by rewrite Hok|]. split; [|done]. intros _. done.
    + destruct (send_worker_tail descriptor run files r out file closed Hwf Hcap Hok H0 Hsend) as (-> & (f & -> & Hf & Hfb) & ->).
      unfold receive_worker_response. rewrite receive_as_received by done. cbn [rcv_result rcv_closed].
      rewrite W1, W2, W3, W4, W6, W7, W8, ztake_0, utf8_valid_nil. change (KSD_STATUS_OK =? KSD_STATUS_OK) with true.
      replace (res_tail_length r =? 0) with false by lia. cbn [default from_option Datatypes.id]. destruct Hf as [Hf (bytes & Hb & Hv)].
      assert (Hsealed : sealed_capture_file fd (res_tail_length r) (wf_info f) = true).
      { unfold sealed_capture_file in *. replace (0 <=? fd) with true by lia. exact Hf. }
      rewrite Hsealed, Hb, Hv. unfold ksd_result_take_fd. replace ((fd <? 0) || (res_tail_length r =? 0)) with false by lia. cbn -[fst snd].
      split; [done|]. split; [done|]. split; [by rewrite Hok|]. split; [|done]. intros _. split; [done|]. split; [done|]. intros _. by rewrite <- Hfb.
  - assert (E : out = worker_message r (zlen (res_diagnostic r)) /\ file = None /\ closed = []).
    { unfold send_worker_response in Hsend. replace (res_status r =? KSD_STATUS_OK) with false in Hsend by lia. cbn [negb orb andb] in Hsend.
      destruct (_ || _) in Hsend; [done|]. destruct (send_message _ _) as [[]|]; by inversion Hsend. }
    destruct E as (-> & -> & ->).
    destruct (worker_message_words r (zlen (res_diagnostic r)) Hs Hd Ht) as (W0 & W1 & W2 & W3 & W4 & W5 & W6 & W7 & W8); [lia|done|].
    unfold receive_worker_response. rewrite receive_as_received by done. cbn [rcv_result rcv_closed].
    rewrite W1, W2, W3, W4, W5, W6, W7, W8, (ztake_all (zlen (res_diagnostic r))), Hutf, Hvalid by lia.
    replace (res_status r =? KSD_STATUS_OK) with false by lia. replace (zlen (res_diagnostic r) <? KSD_DIAGNOSTIC_CAPACITY) with true by lia.
    change (bytes_eqb worker_magic worker_magic) with true. change (0 <=? -1) with false. change (0 =? 0) with true.
    change (KSD_CAPTURE_WORKER_VERSION =? KSD_CAPTURE_WORKER_VERSION) with true. cbn [negb andb orb].
    set (text := if zlen (res_diagnostic r) =? 0 then _ else _).
    assert (Etext : text = match res_diagnostic r with [] => cstr "capture worker failed" | d => d end).
    { unfold text. destruct (res_diagnostic r) as [|b d] eqn:Ed; [done|]. rewrite until_nul_id by done.
      destruct (Z.eqb_spec (zlen (b :: d)) 0) as [E|]; [|done]. rewrite zlen_cons in E. pose proof (zlen_nonneg d). lia. }
    pose proof (result_error_diagnostic ksd_result_init (res_status r) (res_detail r) text init_result_wf) as Hre.
    assert (Hdt : res_detail (fst (ksd_result_error ksd_result_init (res_status r) (res_detail r) (Some text))) = res_detail r) by done.
    destruct (ksd_result_error _ _ _ _) as [r' c]. cbn [fst] in Hdt. destruct Hre as (_ & -> & _ & Hst & _ & _ & _ & Hall).
    split; [done|]. split; [done|]. split; [done|]. split; [done|]. intros _. split; [done|]. split; [done|]. rewrite <- Etext.
    assert (Ht' : ksd_utf8_valid text false = true /\ zlen text < KSD_DIAGNOSTIC_CAPACITY)
      by (rewrite Etext; destruct (res_diagnostic r); [by split; vm_compute|done]).
    destruct Ht' as [Hu Hl]. specialize (Hall Hu). replace (zlen text <? KSD_DIAGNOSTIC_CAPACITY) with true in Hall by lia. exact Hall.
Qed.

(** ** A launch *)

Section launching.
Context {AL : Allocator}.
Variable owner : Z.

(** What a launch prepares before it opens anything. *)
Definition launch_prepared (run : launch_run) (identity : option ksp_identity) : option (ksp_identity * list (list byte) * list Z) :=
  let* identity := identity in
  let* environment := capture_environment (id_uid identity) (fst (lr_verified run)) (snd (lr_verified run)) (lr_environ run) in
  let* groups := capture_groups (fst (lr_verified_groups run)) (snd (lr_verified_groups run)) (lr_status run) in
  Some (identity, environment, groups).

(** The descriptors the calls of a launch give it, as far as it gets, and whether it forks. *)
Definition launch_opened (run : launch_run) (prepared : bool) : list Z * bool :=
  if negb prepared then ([], false)
  else if negb (trusted_self owner (lr_executable run) (lr_executable_status run)) then (close_fd (lr_executable run), false)
  else
    match lr_sockets run with
    | None => (close_fd (lr_executable run), false)
    | Some (s0, s1) =>
      if negb (lr_timeouts run) then (close_fd (lr_executable run) ++ [s0; s1], false)
      else
        match lr_pipe run with
        | None => (close_fd (lr_executable run) ++ [s0; s1], false)
        | Some (r, w) =>
          if negb (lr_pipe_set run && lr_pipe_valid run) then (close_fd (lr_executable run) ++ [s0; s1] ++ [r; w], false)
          else (close_fd (lr_executable run) ++ [s0; s1] ++ [r; w] ++ close_fd (lr_child_socket run) ++ close_fd (lr_child_executable run),
                (0 <=? lr_child_socket run) && (0 <=? lr_child_executable run) && (0 <=? lr_fork run))
        end
    end.

Definition worker_socket (la : launched) : list Z := match la_worker la with Some (socket, _) => [socket] | None => [] end.

Lemma launch_worker_exact run identity gid request session_pid backend persistent la :
  launch_worker owner run identity gid request session_pid backend persistent = Some la ->
  let '(opened, forked) := launch_opened run (match launch_prepared run identity with Some _ => true | None => false end) in
  la_closed la ++ worker_socket la ≡ₚ opened /\
  match la_worker la with
  | Some (_, worker) =>
    forked = true /\ worker = lr_fork run /\ 0 <= worker /\ la_terminated la = None /\
    trusted_self owner (lr_executable run) (lr_executable_status run) = true /\
    exists i environment groups message pipe, launch_prepared run identity = Some (i, environment, groups) /\
      bootstrap_message (id_uid i) gid groups request session_pid backend persistent = Some message /\
      lr_pipe run = Some pipe /\ la_given la = Some (environment, message, pipe)
  | None => la_given la = None /\ la_terminated la = if forked then Some (lr_fork run) else None
  end.
Proof.
  unfold launch_worker. fold (launch_prepared run identity). unfold launch_opened.
  destruct (launch_prepared run identity) as [[[i environment] groups]|] eqn:Ep; cbn [negb]; [|by intros [= <-]].
  destruct (trusted_self _ _ _) eqn:Et; cbn [negb]; [|intros [= <-]; cbn; by rewrite app_nil_r].
  destruct (lr_sockets run) as [[s0 s1]|]; [|intros [= <-]; cbn; by rewrite app_nil_r].
  destruct (lr_timeouts run); cbn [negb]; [|intros [= <-]; cbn; by rewrite app_nil_r].
  unfold create_capture_pipe. destruct (lr_pipe run) as [[r w]|]; [|intros [= <-]; cbn; by rewrite app_nil_r].
  set (E := close_fd (lr_executable run)). set (C1 := close_fd (lr_child_socket run)). set (C2 := close_fd (lr_child_executable run)).
  assert (P1 : (C1 ++ C2) ++ E ++ [r; s0; w; s1] ≡ₚ E ++ [s0; s1] ++ [r; w] ++ C1 ++ C2) by (clear; count_handles).
  assert (P2 : [s1] ++ (C1 ++ C2) ++ E ++ [r; s0; w] ≡ₚ E ++ [s0; s1] ++ [r; w] ++ C1 ++ C2) by (clear; count_handles).
  assert (P3 : ([s1] ++ (C1 ++ C2) ++ E ++ [r; w]) ++ [s0] ≡ₚ E ++ [s0; s1] ++ [r; w] ++ C1 ++ C2) by (clear; count_handles).
  destruct (lr_pipe_set run && lr_pipe_valid run); cbn [negb].
  2:{ intros [= <-]. cbn [la_closed la_worker worker_socket la_given la_terminated]. split; [|done]. rewrite app_nil_r. clear; count_handles. }
  replace ((0 <=? lr_child_socket run) && (0 <=? lr_child_executable run) && (0 <=? lr_fork run))
    with (negb ((lr_child_socket run <? 0) || (lr_child_executable run <? 0) || (lr_fork run <? 0))) by lia.
  destruct (_ || _ || _) eqn:Ef; cbn [negb].
  { intros [= <-]. unfold worker_socket. cbn [la_closed la_worker la_given la_terminated]. rewrite app_nil_r. done. }
  destruct (bootstrap_message _ _ _ _ _ _ _) as [message|] eqn:Em.
  2:{ intros [= <-]. unfold worker_socket. cbn [la_closed la_worker la_given la_terminated]. rewrite app_nil_r. done. }
  destruct (send_message _ _) as [[]|]; [| |done]; intros [= <-]; unfold worker_socket; cbn [la_closed la_worker la_given la_terminated].
  - split; [exact P3|]. split; [done|]. split; [done|]. split; [lia|]. split; [done|]. split; [done|]. by exists i, environment, groups, message, (r, w).
  - rewrite app_nil_r. done.
Qed.

(** Starting a worker that stays leaves nothing behind.  When the caller gets a socket,
    the worker runs with the environment and the groups of the identity it was started
    for and the message that says so, has said that it is ready, and of the descriptors
    opened on the way only that socket is open; when it gets none, every descriptor
    opened has been closed, once, and a process that was made has been killed. *)
Theorem worker_spawn_exact run identity gid session_pid backend ready thread socket closed killed :
  ksd_capture_worker_spawn owner run identity gid session_pid backend ready thread = Some (socket, closed, killed) ->
  let '(opened, forked) := launch_opened run (match launch_prepared run identity with Some _ => true | None => false end) in
  (exists worker i environment groups message,
     closed ++ [socket] ≡ₚ opened /\ killed = None /\ forked = true /\ worker = lr_fork run /\ ready = Some [z2b 1] /\ thread = true /\
     launch_prepared run identity = Some (i, environment, groups) /\
     bootstrap_message (id_uid i) gid groups None session_pid backend true = Some message) \/
  (socket = -1 /\ closed ≡ₚ opened /\ killed = if forked then Some (lr_fork run) else None).
Proof.
  unfold ksd_capture_worker_spawn. destruct (launch_worker _ _ _ _ _ _ _ _) as [la|] eqn:El; [|done].
  apply launch_worker_exact in El. unfold worker_socket in El. destruct (launch_opened run _) as [opened forked]. destruct El as [Hp Hw].
  destruct (la_worker la) as [[s worker]|].
  - destruct Hw as (-> & -> & _ & _ & _ & i & environment & groups & message & _ & Hprep & Hm & _ & _).
    destruct ready as [bytes|]; [unfold bytes_eqb; case_bool_decide as Eb; cbn [negb orb]|cbn [negb orb]].
    + destruct thread; cbn [negb]; intros [= <- <- <-]; [left|by right]. exists (lr_fork run), i, environment, groups, message. subst bytes. auto 10.
    + intros [= <- <- <-]. by right.
    + intros [= <- <- <-]. by right.
  - intros [= <- <- <-]. right. destruct Hw as [_ ->]. rewrite app_nil_r in Hp. done.
Qed.

(** ** A call *)

Lemma error_conserves result status detail text :
  result_wf result ->
  let '(r', closed) := ksd_result_error result status detail (Some text) in
  result_wf r' /\ closed = owned result /\ owned r' = [] /\ res_status r' = status.
Proof.
  intros Hwf. pose proof (result_error_diagnostic result status detail text Hwf) as H. destruct (ksd_result_error _ _ _ _).
  destruct H as (? & ? & ? & ? & _). done.
Qed.

(** Whether the wait comes to an answer it can read: every turn before found nothing
    yet, and this one finds the socket readable and well, while the operation is allowed
    and the time is not over. *)
Fixpoint loop_reads (deadline : Z) (turns : list execute_turn) : bool :=
  match turns with
  | [] => false
  | turn :: turns =>
    et_running turn && negb (et_now turn =? 0) && (et_now turn <? deadline) &&
    match et_poll turn with
    | PollIntr | PollTimedOut => loop_reads deadline turns
    | PollFailed => false
    | PollReady revents => (Z.land revents (Z.lor POLLERR POLLNVAL) =? 0) && negb (Z.land revents POLLIN =? 0)
    end
  end.
Definition read_fds (deadline : Z) (turns : list execute_turn) (outcome : recvmsg_outcome) : list Z :=
  if loop_reads deadline turns then delivered_fds outcome else [].

(** An answer was read at some turn, and until then the operation was allowed. *)
Definition answered_at (turns : list execute_turn) : Prop :=
  exists before now revents after, turns = before ++ mk_exec true now (PollReady revents) :: after /\
    Forall (fun t => et_running t = true) before.

Lemma execute_loop_exact deadline turns outcome files : forall result received r' closed,
  kernel_packet outcome -> result_wf result -> owned result = [] ->
  execute_loop deadline turns outcome files result = Some (received, r', closed) ->
  result_wf r' /\ closed ++ owned r' ≡ₚ read_fds deadline turns outcome /\
  (received = true -> answered_at turns /\ receive_worker_response outcome files result = (true, r', closed)) /\
  (received = false -> res_status r' <> KSD_STATUS_OK).
Proof.
  induction turns as [|t turns IH]; intros result received r' closed Hk Hwf Ho; cbn [execute_loop]; [done|].
  assert (Hfail : forall status text, status <> KSD_STATUS_OK ->
    (let '(result, closed) := ksd_result_error result status 0 (Some (cstr text)) in Some (false, result, closed)) = Some (received, r', closed) ->
    result_wf r' /\ closed ++ owned r' = [] /\
    (received = true -> answered_at (t :: turns) /\ receive_worker_response outcome files result = (true, r', closed)) /\
    (received = false -> res_status r' <> KSD_STATUS_OK)).
  { intros status text Hs. pose proof (error_conserves result status 0 (cstr text) Hwf) as He. destruct (ksd_result_error _ _ _ _) as [r c].
    destruct He as (Hwf' & -> & Ho' & Hst). intros [= <- <- <-]. split; [done|]. split; [by rewrite Ho, Ho'|]. split; [done|]. intros _. congruence. }
  assert (Hnext : execute_loop deadline turns outcome files result = Some (received, r', closed) -> et_running t = true ->
    result_wf r' /\ closed ++ owned r' ≡ₚ read_fds deadline turns outcome /\
    (received = true -> answered_at (t :: turns) /\ receive_worker_response outcome files result = (true, r', closed)) /\
    (received = false -> res_status r' <> KSD_STATUS_OK)).
  { intros H Hr. destruct (IH _ _ _ _ Hk Hwf Ho H) as (H1 & H2 & H3 & H4). split; [done|]. split; [done|]. split; [|done]. intros Hrec.
    destruct (H3 Hrec) as [(before & now & revents & after & -> & Hb) Hrecv]. split; [|done]. exists (t :: before), now, revents, after.
    split; [done|]. by constructor. }
  assert (Hunread : forall status text, status <> KSD_STATUS_OK -> loop_reads deadline (t :: turns) = false ->
    (let '(result, closed) := ksd_result_error result status 0 (Some (cstr text)) in Some (false, result, closed)) = Some (received, r', closed) ->
    result_wf r' /\ closed ++ owned r' ≡ₚ read_fds deadline (t :: turns) outcome /\
    (received = true -> answered_at (t :: turns) /\ receive_worker_response outcome files result = (true, r', closed)) /\
    (received = false -> res_status r' <> KSD_STATUS_OK)).
  { intros status text Hs Hn H. apply Hfail in H as (? & E & ?); [|done]. split; [done|]. unfold read_fds. by rewrite Hn, E. }
  clear Hfail. unfold read_fds in *. cbn [loop_reads] in *.
  destruct (et_running t) eqn:Et; cbn [negb andb] in *; [|by apply Hunread].
  destruct (_ || _) eqn:Enow; [apply Hunread; [done|]; apply orb_true_iff in Enow as [->|Enow]; [done|by rewrite (proj2 (Z.ltb_ge _ _)), andb_false_r by lia]|].
  apply orb_false_iff in Enow as [En Ed]. rewrite En in *. rewrite (proj2 (Z.ltb_lt (et_now t) deadline)) in * by lia. cbn [negb andb] in *.
  destruct (et_poll t) as [| | |revents] eqn:Epoll; [auto|by apply Hunread|auto|].
  destruct (Z.land revents (Z.lor POLLERR POLLNVAL) =? 0); cbn [negb andb] in *; [|by apply Hunread].
  destruct (Z.land revents POLLIN =? 0); cbn [negb andb] in *; [by apply Hunread|]. clear Hunread.
  pose proof (worker_response_facts outcome files result Hk Hwf) as Hr. destruct (receive_worker_response outcome files result) as [[ok r] c] eqn:Erecv.
  destruct Hr as (Hp & Hno & Hyes). rewrite Ho, app_nil_r in Hp. destruct ok.
  - intros [= <- <- <-]. split; [by apply Hyes|]. split; [done|]. split; [|done]. intros _. split; [|done].
    exists [], (et_now t), revents, turns. split; [|done]. cbn. by destruct t; cbn in *; subst.
  - specialize (Hno eq_refl). subst r. rewrite Ho, app_nil_r in Hp.
    pose proof (error_conserves result KSD_STATUS_INTERNAL 0 (cstr "capture worker returned an invalid result") Hwf) as He.
    destruct (ksd_result_error _ _ _ _) as [r2 c2]. destruct He as (Hwf' & -> & Ho' & Hst). intros [= <- <- <-]. split; [done|].
    split; [by rewrite Ho, Ho', !app_nil_r|]. split; [done|]. intros _. rewrite Hst. done.
Qed.

Lemma execute_done_exact worker last received result :
  result_wf result ->
  let '(r', closed, killed) := execute_done (Some worker) last received result in
  result_wf r' /\ closed ++ owned r' = owned result /\ killed = (match last with WaitedRunning => Some worker | _ => None end) /\
  (last = WaitedExited 0 \/ last = WaitedRunning /\ received = true -> r' = result) /\
  (last <> WaitedExited 0 -> last <> WaitedRunning \/ received = false -> res_status r' = KSD_STATUS_UNAVAILABLE).
Proof.
  intros Hwf. unfold execute_done.
  pose proof (error_conserves result KSD_STATUS_UNAVAILABLE 0 (cstr "capture worker did not terminate") Hwf) as H1.
  pose proof (error_conserves result KSD_STATUS_UNAVAILABLE 0 (cstr "capture worker terminated unexpectedly") Hwf) as H2.
  destruct last as [|status|].
  - destruct received.
    + split; [done|]. split; [done|]. split; [done|]. split; [done|]. by intros _ [?|?].
    + destruct (ksd_result_error _ _ _ _) as [r c]. destruct H1 as (? & -> & -> & ?). rewrite app_nil_r. split; [done|]. split; [done|]. split; [done|].
      split; [by intros [?|[_ ?]]|done].
  - destruct (Z.eq_dec status 0) as [->|Hne]; [by split; [|split; [|split; [|split]]]|].
    assert (E : (match status with 0 => (result, [], None) | _ =>
      let '(result, closed) := ksd_result_error result KSD_STATUS_UNAVAILABLE 0 (Some (cstr "capture worker terminated unexpectedly")) in (result, closed, None) end)
      = (let '(result, closed) := ksd_result_error result KSD_STATUS_UNAVAILABLE 0 (Some (cstr "capture worker terminated unexpectedly")) in (result, closed, @None Z)))
      by (by destruct status). rewrite E.
    clear H1. destruct (ksd_result_error _ _ _ _) as [r c]. destruct H2 as (? & -> & -> & ?). rewrite app_nil_r. split; [done|]. split; [done|]. split; [done|].
    split; [by intros [[= ->]|[? _]]|done].
  - clear H1. destruct (ksd_result_error _ _ _ _) as [r c]. destruct H2 as (? & -> & -> & ?). rewrite app_nil_r. split; [done|]. split; [done|]. split; [done|].
    split; [by intros [?|[? _]]|done].
Qed.
End launching.

#[local] Instance waited_eq_dec : EqDecision waited.
Proof. solve_decision. Defined.

(** What a call does with its process: the one a launch that failed had made is killed,
    and so is a worker that has not ended. *)
Definition killed_by (run : launch_run) (launched forked : bool) (last : waited) : option Z :=
  if launched then match last with WaitedRunning => Some (lr_fork run) | _ => None end
  else if forked then Some (lr_fork run) else None.

(** C16: A capture by a worker.  A call without an identity or with a request that no worker
    serves opens and closes nothing.  Otherwise, whatever happens, every descriptor opened
    for the launch, and every one that came with the answer when the wait came to one it
    could read, is in the result or has been closed, once.  A process made by a launch
    that then failed is killed, and a worker that was launched is killed exactly when it
    had not ended after the wait: a worker is left running in no case.  A success is only
    reported for an answer that was taken while the operation was still allowed, from a
    worker that then ended well or was killed when it had not ended.  When no answer was
    taken and the worker had not ended by itself with success, the status is UNAVAILABLE,
    whatever stopped the wait: so the TIMEOUT of a worker that is still busy and the
    REVOKED of a permission that was withdrawn are never reported. *)
Theorem worker_execute_exact {AL : Allocator} owner run identity gid request session_pid backend started turns outcome files last r' closed killed :
  kernel_packet outcome ->
  ksd_capture_worker_execute owner run identity gid request session_pid backend started turns outcome files last = Some (r', closed, killed) ->
  result_wf r' /\
  (if bool_decide (identity <> None) && match request with Some f => ksd_capture_worker_request_valid f | None => false end then
     let '(opened, forked) := launch_opened owner run (match launch_prepared run identity with Some _ => true | None => false end) in
     exists la, launch_worker owner run identity gid request session_pid backend false = Some la /\
       let launched := match la_worker la with Some _ => true | None => false end in
       (launched = true -> forked = true) /\
       closed ++ owned r' ≡ₚ
         opened ++ (if launched then read_fds (u64 (started + KSD_CAPTURE_WORKER_TIMEOUT_MS)) turns outcome else []) /\
       killed = killed_by run launched forked last
   else closed = [] /\ owned r' = [] /\ killed = None) /\
  (res_status r' = KSD_STATUS_OK ->
     answered_at turns /\ (last = WaitedExited 0 \/ last = WaitedRunning) /\
     (exists f, request = Some f /\ ksd_capture_worker_request_valid f = true) /\
     exists c, receive_worker_response outcome files ksd_result_init = (true, r', c)) /\
  ((forall r c, receive_worker_response outcome files ksd_result_init <> (true, r, c)) -> last <> WaitedExited 0 ->
     res_status r' = KSD_STATUS_UNAVAILABLE).
Proof.
  intros Hk. unfold ksd_capture_worker_execute. pose proof init_result_wf as Hinit.
  pose proof (error_conserves ksd_result_init KSD_STATUS_UNAVAILABLE 0 (cstr "capture worker identity is unavailable") Hinit) as He.
  destruct (ksd_result_error ksd_result_init _ _ (Some (cstr "capture worker identity is unavailable"))) as [r0 c0].
  destruct He as (Hwf0 & -> & Ho0 & Hs0). set (valid := bool_decide (identity <> None) && _).
  destruct (let* _ := identity in _) as [f|] eqn:Ereq.
  2:{ assert (valid = false) as ->.
      { unfold valid. destruct identity; [|done]. destruct request; [|done]. destruct (ksd_capture_worker_request_valid k0); [done|]. by rewrite andb_false_r. }
      intros [= <- <- <-]. split; [done|]. split; [done|]. rewrite Hs0. done. }
  destruct identity as [i|]; [|done]. destruct request as [f'|]; [|done]. destruct (ksd_capture_worker_request_valid f') eqn:Ev; [|done]. injection Ereq as ->.
  assert (valid = true) as -> by done. clear Hwf0 Ho0 Hs0.
  destruct (launch_worker _ _ _ _ _ _ _ _) as [la|] eqn:El; [|done]. pose proof El as El'. apply launch_worker_exact in El. unfold worker_socket in El.
  destruct (launch_opened owner run _) as [opened forked]. destruct El as [Hp Hw].
  destruct (la_worker la) as [[s worker]|] eqn:Ela.
  - destruct Hw as (Hforked & -> & _). destruct (execute_loop _ _ _ _ _) as [[[received r] c]|] eqn:Eloop; [|done].
    apply execute_loop_exact in Eloop as (Hwf & Hc & Hrec & Hnorec); [|done..].
    pose proof (execute_done_exact (lr_fork run) last received r Hwf) as Hd.
    destruct (execute_done _ _ _ _) as [[r2 c2] k]. destruct Hd as (Hwf2 & Ho2 & -> & Hkeep & Hun). intros [= <- <- <-].
    split; [done|]. split; [|split].
    + exists la. split; [done|]. rewrite Ela. split; [done|]. split; [|done].
      rewrite <- Hc, <- Hp, <- Ho2. clear. count_handles.
    + intros Hok. assert (Hlast : last = WaitedExited 0 \/ last = WaitedRunning /\ received = true).
      { destruct (decide (last = WaitedExited 0)) as [|Hne]; [by left|right]. destruct (decide (last = WaitedRunning)) as [->|Hne'].
        - split; [done|]. destruct received; [done|]. rewrite (Hun Hne (or_intror eq_refl)) in Hok. done.
        - rewrite (Hun Hne (or_introl Hne')) in Hok. done. }
      rewrite (Hkeep Hlast) in *. assert (received = true) as -> by (destruct received; [done|by destruct (Hnorec eq_refl)]).
      destruct (Hrec eq_refl) as [Hat Hrecv]. split; [done|]. split; [destruct Hlast as [|[? _]]; auto|]. split; [by exists f|]. by exists c.
    + intros Hnone Hlast. apply Hun; [done|]. right. destruct received; [|done]. destruct (Hrec eq_refl) as [_ Hrecv]. by destruct (Hnone r c).
  - destruct Hw as [_ Ht]. pose proof (error_conserves ksd_result_init KSD_STATUS_UNAVAILABLE 0 (cstr "capture worker could not be started") Hinit) as He.
    destruct (ksd_result_error _ _ _ _) as [r c]. destruct He as (Hwf & -> & Ho & Hs). intros [= <- <- <-]. split; [done|].
    split; [|rewrite Hs; done]. exists la. split; [done|]. rewrite Ela. split; [done|]. split; [|exact Ht].
    rewrite Ho, !app_nil_r in *. done.
Qed.

(** ** A worker *)

#[local] Existing Instance infinite_memory.
#[local] Instance infinite_total : AllocTotal infinite_memory := fun _ => eq_refl.

Definition sample_groups : list Z := [1000; 4; 27].
Definition sample_status : list byte :=
  lines [cstr "Name: app"; cstr "Uid: 1000"] ++ groups_line sample_groups ++ newline :: cstr "VmPeak: 1".

Lemma other_line_dec line :
  forallb (fun b => negb (b2z b =? 10) && negb (b2z b =? 0)) line && (zlen line <? LINE_SIZE - 1) && negb (bytes_eqb (ztake 7 line) (cstr "Groups:")) = true ->
  other_line line.
Proof.
  intros H. rewrite !andb_true_iff, negb_true_iff, Z.ltb_lt in H. destruct H as [[Hb Hl] Hg].
  assert (Hall : forall b, In b line -> b2z b <> 10 /\ b2z b <> 0).
  { intros b Hin. rewrite forallb_forall in Hb. specialize (Hb b Hin). breflect. done. }
  split; [apply List.Forall_forall; intros b Hin; by apply Hall|]. split; [apply List.Forall_forall; intros b Hin; by apply Hall|].
  split; [done|]. by apply bool_decide_eq_false in Hg.
Qed.

Lemma worker_groups_exact_witness : capture_groups true true (Some sample_status) = Some sample_groups.
Proof.
  apply (worker_groups_exact [cstr "Name: app"; cstr "Uid: 1000"] sample_groups (cstr "VmPeak: 1")).
  - do 2 (apply List.Forall_cons; [apply other_line_dec; vm_compute; reflexivity|]). apply List.Forall_nil.
  - repeat constructor; (discriminate || reflexivity).
Defined.

Definition sample_request : ksd_frame := call_frame KSD_OP_CAPTURE_AREA 3 (snd (capture_wire (CaptureArea 0 0 2 1))).
Lemma sample_request_frame : bootstrap_frame sample_request.
Proof.
  split; [|vm_compute; reflexivity]. unfold frame_wf, header_wf. split; [|split; [reflexivity|]].
  - split; [reflexivity|]. repeat split; vm_compute; discriminate || reflexivity.
  - split; vm_compute; discriminate.
Qed.

Lemma worker_bootstrap_exact_witness :
  exists b h, bootstrap_message 1000 100 sample_groups (Some sample_request) 42 KSD_BACKEND_KWIN false = Some b /\
    parse_bootstrap_header b = Some h /\
    (wb_uid h, wb_gid h, wb_session_pid h, wb_backend h, wb_persistent h) = (1000, 100, 42, KSD_BACKEND_KWIN, false) /\
    bootstrap_groups b (wb_group_count h) = sample_groups /\ zlen b <= KSD_CAPTURE_WORKER_BOOTSTRAP_MAX /\
    bootstrap_request b h = Some sample_request.
Proof.
  apply (proj2 worker_bootstrap_exact 1000 100 sample_groups (Some sample_request) 42 KSD_BACKEND_KWIN false).
  - split; [discriminate|reflexivity].
  - split; [discriminate|reflexivity].
  - repeat constructor; (discriminate || reflexivity).
  - vm_compute. discriminate.
  - split; [reflexivity|vm_compute; discriminate].
  - split; vm_compute; discriminate.
  - exists sample_request. split; [reflexivity|exact sample_request_frame].
Defined.

Definition sample_tail : list byte := capture_tail (mk_capture KSD_CAPTURE_FORMAT_BGRA8_PREMULTIPLIED 1 1 4 (map z2b [1; 2; 3; 255])).
Definition sample_success : ksd_operation_result := mk_result KSD_STATUS_OK 0 [] (Some sample_tail) 24 (-1).
Definition sample_responding : response_run :=
  mk_responding [None; Some KSD_CAPTURE_WORKER_RESPONSE_SIZE] [] 7 [PlainIntr; PlainBytes 10; PlainBytes 100] true.
Definition sample_message : list byte := worker_message sample_success 0.

Lemma sample_success_wf : result_wf sample_success.
Proof. split; [by right|]. split; [done|]. split; [by vm_compute|]. split; [by intros []|]. split; [by intros []|]. by split; vm_compute. Qed.

Lemma worker_response_roundtrip_witness :
  send_worker_response 3 sample_responding (fun _ => no_file) sample_success =
    Some (true, sample_message, Some (sealed_file sample_tail), [7]) /\
  let '(ok, r', closed') := receive_worker_response (as_received 9 sample_message (Some (sealed_file sample_tail)))
    (fun _ => sealed_file sample_tail) ksd_result_init in
  ok = true /\ closed' = [] /\ res_payload_fd r' = 9.
Proof.
  assert (Hsend : send_worker_response 3 sample_responding (fun _ => no_file) sample_success =
    Some (true, sample_message, Some (sealed_file sample_tail), [7])) by (vm_compute; reflexivity).
  split; [exact Hsend|].
  pose proof (worker_response_roundtrip 3 sample_responding (fun _ => no_file) sample_success sample_message (Some (sealed_file sample_tail)) [7] 9
    sample_success_wf ltac:(constructor) ltac:(split; [discriminate|reflexivity]) ltac:(split; [discriminate|reflexivity])
    ltac:(split; [discriminate|reflexivity]) ltac:(intros _ _; vm_compute; reflexivity) ltac:(lia) Hsend) as H.
  cbn [default from_option] in H. change (fun _ : Z => id (sealed_file sample_tail)) with (fun _ : Z => sealed_file sample_tail) in H.
  destruct (receive_worker_response _ _ _) as [[ok r'] closed']. destruct H as (H1 & H2 & _ & H3 & _).
  split; [exact H1|]. split; [exact H2|]. destruct (H3 eq_refl) as (_ & _ & H4). apply H4. discriminate.
Defined.

Lemma worker_response_sound_witness :
  let '(ok, result', closed) := receive_worker_response (as_received 9 sample_message (Some (sealed_file sample_tail)))
    (fun _ => sealed_file sample_tail) ksd_result_init in
  closed ++ owned result' ≡ₚ [9] ++ [].
Proof.
  pose proof (worker_response_sound (as_received 9 sample_message (Some (sealed_file sample_tail))) (fun _ => sealed_file sample_tail) ksd_result_init
    ltac:(repeat constructor; lia) init_result_wf) as H.
  destruct (receive_worker_response _ _ _) as [[ok r'] closed']. destruct H as [H _]. exact H.
Defined.

Definition sample_owner_status : file_status := mk_status KindRegular 0 0 0x1c0 1 1 100.
Definition sample_environ : list byte := block [entry_for (cstr "XDG_RUNTIME_DIR") (expected_runtime 1000); cstr "SHELL=/bin/sh"].
Definition sample_launch : launch_run :=
  mk_launching (true, true) (Some sample_environ) (true, true) (Some sample_status) 4 (Some sample_owner_status)
    (Some (5, 6)) true (Some (7, 8)) true true 10 11 99 [Some 44].
Definition sample_identity : ksp_identity := mk_identity 1000 42 7 (cstr "abc").

Lemma worker_spawn_exact_witness :
  exists closed, ksd_capture_worker_spawn 0 sample_launch (Some sample_identity) 100 42 KSD_BACKEND_X11 (Some [z2b 1]) true = Some (5, closed, None) /\
  ((exists worker i environment groups message,
     closed ++ [5] ≡ₚ fst (launch_opened 0 sample_launch true) /\ @None Z = None /\ true = true /\ worker = lr_fork sample_launch /\
     Some [z2b 1] = Some [z2b 1] /\ true = true /\ launch_prepared sample_launch (Some sample_identity) = Some (i, environment, groups) /\
     bootstrap_message (id_uid i) 100 groups None 42 KSD_BACKEND_X11 true = Some message) \/
   (5 = -1 /\ closed ≡ₚ fst (launch_opened 0 sample_launch true) /\ None = Some (lr_fork sample_launch))).
Proof.
  exists [6; 10; 11; 4; 7; 8].
  assert (H : ksd_capture_worker_spawn 0 sample_launch (Some sample_identity) 100 42 KSD_BACKEND_X11 (Some [z2b 1]) true = Some (5, [6; 10; 11; 4; 7; 8], None))
    by (vm_compute; reflexivity).
  split; [exact H|]. exact (worker_spawn_exact 0 sample_launch (Some sample_identity) 100 42 KSD_BACKEND_X11 (Some [z2b 1]) true 5 [6; 10; 11; 4; 7; 8] None H).
Defined.

Definition sample_capture_launch : launch_run :=
  mk_launching (true, true) (Some sample_environ) (true, true) (Some sample_status) 4 (Some sample_owner_status)
    (Some (5, 6)) true (Some (7, 8)) true true 10 11 99 [Some 84].
Definition silent : recvmsg_outcome := MsgError.

(** A capture that is revoked while its worker is busy. *)
Lemma worker_execute_exact_witness :
  exists r' closed, ksd_capture_worker_execute 0 sample_capture_launch (Some sample_identity) 100 (Some sample_request) 42 KSD_BACKEND_KWIN 1000
    [mk_exec true 1001 PollTimedOut; mk_exec false 1250 PollTimedOut] silent (fun _ => no_file) WaitedRunning = Some (r', closed, Some 99) /\
  res_status r' = KSD_STATUS_UNAVAILABLE.
Proof.
  eexists _, _. assert (H : ksd_capture_worker_execute 0 sample_capture_launch (Some sample_identity) 100 (Some sample_request) 42 KSD_BACKEND_KWIN 1000
    [mk_exec true 1001 PollTimedOut; mk_exec false 1250 PollTimedOut] silent (fun _ => no_file) WaitedRunning =
    Some (mk_result KSD_STATUS_UNAVAILABLE 0 (cstr "capture worker did not terminate") None 0 (-1), [6; 10; 11; 4; 7; 8; 5], Some 99)) by (vm_compute; reflexivity).
  split; [exact H|].
  refine ((fun facts => proj2 (proj2 (proj2 facts)) _ _) (worker_execute_exact _ _ _ _ _ _ _ _ _ _ _ _ _ _ _ (I : kernel_packet silent) H));
    [|discriminate].
  intros r c Hc. vm_compute in Hc. discriminate.
Defined.
