(* ===== verification/WorkerServe.v ===== *)
(** * The worker's own side (src/capture_worker.c)

    What a worker does from its start: it takes its bootstrap message and its pipe, gives
    up its privileges, and then serves one request or, if it stays, every request that
    comes until its socket closes, on a display connection it opens when it first needs
    one.  The display libraries are a record of operations; the outcomes of system calls
    are arguments.  What a worker that stays does is a log of events. *)
From Stdlib Require Import ZArith Lia Strings.Byte Strings.String.
From stdpp Require Import base list option numbers tactics.
From S2P Require Import Prelude.
From S2P Require Import Protocol.
From S2P Require Import Codec.
From S2P Require Import Buffer.
From S2P Require Import Utf8.
From S2P Require Import Transport.
From S2P Require Import Frame.
From S2P Require Import Environ.
From S2P Require Import Result.
From S2P Require Import Response.
From S2P Require Import Relay.
From S2P Require Import RelayChannel.
From S2P Require Import Install.
From S2P Require Import ClientCalls.
From S2P Require Import DisplayCalls.
From S2P Require Import Capture.
From S2P Require Import CaptureWorker.
Local Open Scope Z_scope.
Local Open Scope ksd_scope.

(** ** Trust and privileges *)

(** [peer] is the user of the process at the other end, [None] when it cannot be known. *)
Definition worker_peer_is_authority (owner : Z) (peer : option Z) : bool :=
  match peer with Some uid => uid =? owner | None => false end.

Record credentials := mk_credentials {
  cd_real_uid : Z; cd_effective_uid : Z; cd_saved_uid : Z;
  cd_real_gid : Z; cd_effective_gid : Z; cd_saved_gid : Z;
  cd_groups : list Z; cd_keep_caps : bool; cd_no_new_privs : bool; cd_dumpable : bool;
}.

(** The calls that change them, in their order. *)
Inductive privilege_call :=
| KeepCaps (keep : bool)
| SetGroups (groups : list Z)
| SetResGid (gid : Z)
| SetResUid (uid : Z)
| NoNewPrivs
| SetDumpable (dumpable : bool).

Definition privilege_effect (c : credentials) (call : privilege_call) : credentials :=
  match call with
  | KeepCaps keep => mk_credentials (cd_real_uid c) (cd_effective_uid c) (cd_saved_uid c) (cd_real_gid c) (cd_effective_gid c)
      (cd_saved_gid c) (cd_groups c) keep (cd_no_new_privs c) (cd_dumpable c)
  | SetGroups groups => mk_credentials (cd_real_uid c) (cd_effective_uid c) (cd_saved_uid c) (cd_real_gid c) (cd_effective_gid c)
      (cd_saved_gid c) groups (cd_keep_caps c) (cd_no_new_privs c) (cd_dumpable c)
  | SetResGid gid => mk_credentials (cd_real_uid c) (cd_effective_uid c) (cd_saved_uid c) gid gid gid (cd_groups c) (cd_keep_caps c)
      (cd_no_new_privs c) (cd_dumpable c)
  | SetResUid uid => mk_credentials uid uid uid (cd_real_gid c) (cd_effective_gid c) (cd_saved_gid c) (cd_groups c) (cd_keep_caps c)
      (cd_no_new_privs c) (cd_dumpable c)
  | NoNewPrivs => mk_credentials (cd_real_uid c) (cd_effective_uid c) (cd_saved_uid c) (cd_real_gid c) (cd_effective_gid c)
      (cd_saved_gid c) (cd_groups c) (cd_keep_caps c) true (cd_dumpable c)
  | SetDumpable dumpable => mk_credentials (cd_real_uid c) (cd_effective_uid c) (cd_saved_uid c) (cd_real_gid c) (cd_effective_gid c)
      (cd_saved_gid c) (cd_groups c) (cd_keep_caps c) (cd_no_new_privs c) dumpable
  end.

(** The calls one after another, up to the first that fails. *)
Fixpoint privilege_calls (allowed : credentials -> privilege_call -> bool) (calls : list privilege_call) (c : credentials)
    : bool * credentials :=
  match calls with
  | [] => (true, c)
  | call :: calls => if allowed c call then privilege_calls allowed calls (privilege_effect c call) else (false, c)
  end.

(** [allowed] is the kernel; [orphan], whether the parent is process 1 by then. *)
Definition drop_worker_privileges (allowed : credentials -> privilege_call -> bool) (orphan : bool) (uid gid : Z) (groups : list Z)
    (c : credentials) : bool * credentials :=
  let already := (uid =? cd_real_uid c) && (uid =? cd_effective_uid c) && (gid =? cd_real_gid c) && (gid =? cd_effective_gid c) in
  if uid =? 0 then (false, c)
  else
    let '(made, c) := privilege_calls allowed
      ([KeepCaps false] ++ (if already then [] else [SetGroups groups; SetResGid gid; SetResUid uid]) ++ [NoNewPrivs; SetDumpable false]) c in
    if negb made || orphan then (false, c)
    else ((cd_real_uid c =? uid) && (cd_effective_uid c =? uid) && (cd_saved_uid c =? uid)
          && (cd_real_gid c =? gid) && (cd_effective_gid c =? gid) && (cd_saved_gid c =? gid), c).

(** The child that asks the session bus who owns KWin's name: what it writes to its
    pipe, and its exit status. *)
Definition kwin_child (ready : bool) (allowed : credentials -> privilege_call -> bool) (orphan : bool) (uid gid : Z) (groups : list Z)
    (c : credentials) (owner_pid : credentials -> option Z) (written : bool) : option Z * Z :=
  if negb ready then (None, 1)
  else
    let '(dropped, c) := drop_worker_privileges allowed orphan uid gid groups c in
    if negb dropped then (None, 1)
    else
      match owner_pid c with
      | None => (None, 1)
      | Some pid => if written then (Some pid, 0) else (None, 1)
      end.

(** [pipe] and [forked] are the outcomes of the calls of these names; [child], what the
    child did; [trusted], what the kernel says of the process named. *)
Definition resolve_trusted_kwin_pid (pipe forked : bool) (child : option Z * Z) (trusted : Z -> bool) : option Z :=
  guard* pipe && forked in
  let '(owner, status) := child in
  let* owner := owner in
  guard* (status =? 0) && trusted owner in Some owner.

Inductive root_call :=
| ParentDeathSignal (signal : Z) | NotDumpable | HasParent
| LimitCore | LimitMemory (bytes : Z) | LimitFile (bytes : Z) | LimitDescriptors (count : Z) | LimitCpu (seconds : Z).
Definition SIGKILL : Z := 9.
Definition KSD_CAPTURE_WORKER_MEMORY_LIMIT : Z := 384 * 1024 * 1024.
Definition prepare_worker_root (outcome : root_call -> bool) (persistent : bool) : bool :=
  forallb outcome ([ParentDeathSignal (if persistent then 0 else SIGKILL); NotDumpable; HasParent; LimitCore;
    LimitMemory KSD_CAPTURE_WORKER_MEMORY_LIMIT; LimitFile (KSD_MAX_CAPTURE_BYTES + 4096); LimitDescriptors 64]
    ++ (if persistent then [] else [LimitCpu 40])).

(** [set] is whether the ownership, the mode and the size could be set. *)
Definition create_capture_spool (created : Z) (set valid : bool) : Z * list Z :=
  if (created <? 0) || negb set || negb valid then (-1, close_fd created) else (created, []).

(** ** The bootstrap message *)

(** The two descriptors kept, -1 until they come, how many came, whether a control
    message was malformed, and the descriptors closed. *)
Record pipe_scan := mk_pipe_scan { ps_pipe : Z * Z; ps_count : Z; ps_malformed : bool; ps_closed : list Z }.
Definition pipe_scan_fd (s : pipe_scan) (value : Z) : pipe_scan :=
  let count := ps_count s + 1 in
  if ps_count s =? 0 then mk_pipe_scan (value, snd (ps_pipe s)) count (ps_malformed s) (ps_closed s)
  else if ps_count s =? 1 then mk_pipe_scan (fst (ps_pipe s), value) count (ps_malformed s) (ps_closed s)
  else mk_pipe_scan (ps_pipe s) count (ps_malformed s) (ps_closed s ++ [value]).
Definition pipe_scan_cmsg (s : pipe_scan) (header : cmsg) : pipe_scan :=
  let malformed := mk_pipe_scan (ps_pipe s) (ps_count s) true (ps_closed s) in
  if negb (cmsg_level header =? SOL_SOCKET) || negb (cmsg_type header =? SCM_RIGHTS) || (cmsg_len header <? CMSG_LEN0) then malformed
  else
    let payload := cmsg_len header - CMSG_LEN0 in
    if negb (payload mod 4 =? 0) then malformed
    else fold_left pipe_scan_fd (ztake (payload / 4) (cmsg_fds header)) s.

(** What is left of a message on a stream: the reads of the header and of the rest. *)
Definition complete_bootstrap (capacity : Z) (malformed : bool) (bytes : list byte) (calls : list plain_outcome) (stream : list byte)
    : option (bool * list byte) :=
  let* (malformed, bytes, stream, calls) :=
    (if zlen bytes <? KSD_CAPTURE_WORKER_HEADER_SIZE then
       let* (got, stream, calls) := ksd_read_all calls (KSD_CAPTURE_WORKER_HEADER_SIZE - zlen bytes) stream [] in
       match got with
       | None => Some (true, bytes, stream, calls)
       | Some more => Some (malformed, bytes ++ more, stream, calls)
       end
     else Some (malformed, bytes, stream, calls)) in
  if (malformed : bool) then Some (true, bytes)
  else
    let expected := KSD_CAPTURE_WORKER_HEADER_SIZE + ksd_decode_u32 (zdrop 16 bytes) * 4 + ksd_decode_u32 (zdrop 20 bytes) in
    if (capacity <? expected) || (expected <? zlen bytes) then Some (true, bytes)
    else if zlen bytes <? expected then
      let* (got, _, _) := ksd_read_all calls (expected - zlen bytes) stream [] in
      match got with None => Some (true, bytes) | Some more => Some (false, bytes ++ more) end
    else Some (false, bytes).

(** [is_stream] is whether the socket is a stream; [valid], what
    [ksd_capture_pipe_valid] says.  The message and the pipe, [None] on failure, and the
    descriptors closed. *)
Definition receive_bootstrap (is_stream : bool) (valid : Z * Z -> bool) (capacity : Z) (outcome : recvmsg_outcome)
    (calls : list plain_outcome) (stream : list byte) : option (option (list byte * (Z * Z)) * list Z) :=
  let '(bytes, count, truncated, control) :=
    match outcome with
    | MsgAgain | MsgError => ([], -1, false, [mk_cmsg 0 0 0 []])
    | MsgData bytes truncated control => (bytes, zlen bytes, truncated, control)
    end in
  let s := fold_left pipe_scan_cmsg control (mk_pipe_scan (-1, -1) 0 false []) in
  let* (malformed, bytes) :=
    (if (0 <? count) && is_stream then complete_bootstrap capacity (ps_malformed s) bytes calls stream
     else Some (ps_malformed s, bytes)) in
  if (count <=? 0) || truncated || malformed || negb (ps_count s =? 2) || negb (valid (ps_pipe s))
  then Some (None, ps_closed s ++ close_fd (fst (ps_pipe s)) ++ close_fd (snd (ps_pipe s)))
  else Some (Some (bytes, ps_pipe s), ps_closed s).

(** ** The display backends *)

(** What the display libraries do: opening a display, serving a call on it, and what a
    connection says of itself. *)
Record display_library (X W : Type) := mk_library {
  x11_open : list byte -> option (list byte) -> Z * option X;
  x11_run : x11_call -> X -> ksd_operation_result -> X * ksd_operation_result * list Z;
  x11_failed : X -> bool;
  wayland_open : list byte -> Z * option W;
  wayland_set_pid : W -> Z -> W;
  wayland_run : wayland_call -> W -> ksd_operation_result -> W * ksd_operation_result * list Z;
  wayland_failed : W -> bool;
  wayland_pid : W -> Z;
  hypr_cursor : Z -> option (Z * Z);
}.
Arguments x11_open {X W}. Arguments x11_run {X W}. Arguments x11_failed {X W}.
Arguments wayland_open {X W}. Arguments wayland_set_pid {X W}. Arguments wayland_run {X W}.
Arguments wayland_failed {X W}. Arguments wayland_pid {X W}. Arguments hypr_cursor {X W}.

Section backends.
Context {AL : Allocator} {X W : Type} (lib : display_library X W).
(** The environment file of the session's process, and the reads of it. *)
Variables (environ : option (list byte)) (environ_calls : list plain_outcome).

(** A connection of either kind, behind the void pointer. *)
Definition connection : Type := X + W.

Record ksd_display_backend := mk_backend {
  db_backend : Z;
  db_request_valid : ksd_frame -> bool;
  db_open : Z -> Z * option connection;
  db_execute : connection -> ksd_frame -> ksd_operation_result -> bool * connection * ksd_operation_result * list Z;
  db_open_error : list byte;
}.

Definition open_x11 (session_pid : Z) : Z * option connection :=
  let '(status, opened) := ksd_x11_open_for_session (x11_open lib) session_pid environ environ_calls in (status, option_map inl opened).
Definition execute_x11 (c : connection) (request : ksd_frame) (result : ksd_operation_result)
    : bool * connection * ksd_operation_result * list Z :=
  match c with
  | inl x =>
    let '(alive, x', result, closed) := ksd_x11_execute_on (x11_run lib) (x11_failed lib) (Some x) request result in
    (alive, inl (default x x'), result, closed)
  | inr _ => (true, c, result, [])
  end.
Definition open_wayland (session_pid : Z) : Z * option connection :=
  let '(status, opened) := ksd_wayland_open_for_session (wayland_open lib) (wayland_set_pid lib) session_pid environ environ_calls in
  (status, option_map inr opened).
Definition execute_wayland (c : connection) (request : ksd_frame) (result : ksd_operation_result)
    : bool * connection * ksd_operation_result * list Z :=
  match c with
  | inr w =>
    let '(alive, w', result, closed) :=
      ksd_wayland_execute_on (wayland_run lib) (wayland_failed lib) (wayland_pid lib) (hypr_cursor lib) (Some w) request result in
    (alive, inr (default w w'), result, closed)
  | inl _ => (true, c, result, [])
  end.

Definition display_backends : list ksd_display_backend :=
  [mk_backend KSD_BACKEND_X11 ksd_x11_request_valid open_x11 execute_x11 (cstr "could not open the X display for this session");
   mk_backend KSD_BACKEND_GENERIC ksd_wayland_request_valid open_wayland execute_wayland (cstr "could not reach the compositor for this session")].
Definition display_backend (backend : Z) : option ksd_display_backend := List.find (fun display => db_backend display =? backend) display_backends.
End backends.
Arguments ksd_display_backend X W : clear implicits.
Arguments connection X W : clear implicits.

(** ** Serving requests as they come *)

(** What a worker that stays does, in order. *)
Inductive serve_event :=
| AlarmSet (seconds : Z)
| DisplayOpened
| DisplayClosed
| DisplayWatched (request_id : Z)
| AnswerSent (bytes : list byte) (payload_fd : option Z)
| ResultClosed (fds : list Z).

(** The outcomes of the calls of one turn: the reads of the header and of the body, the
    sends and writes of the answer, and what a watch ends with. *)
Record serve_turn := mk_serve {
  sv_header : list plain_outcome; sv_body : list plain_outcome;
  sv_sends : list (option Z); sv_writes : list plain_outcome; sv_watch : bool;
}.

(** The checks on a header; the length of the body. *)
Definition serve_header (header : list byte) : option Z :=
  let payload_length := ksd_decode_u32 (zdrop KSD_FRAME_PAYLOAD_LENGTH_OFFSET header) in
  guard* negb ((KSD_CAPTURE_WORKER_MAX_REQUEST <? payload_length) || negb (bytes_eqb (ztake 4 header) public_magic)
    || negb (ksd_decode_u16 (zdrop KSD_FRAME_MAJOR_OFFSET header) =? KSD_PROTOCOL_MAJOR)
    || negb (ksd_decode_u16 (zdrop KSD_FRAME_MINOR_OFFSET header) =? KSD_PROTOCOL_MINOR)
    || negb (ksd_decode_u16 (zdrop KSD_FRAME_FLAGS_OFFSET header) =? 0)
    || (ksd_decode_u64 (zdrop KSD_FRAME_REQUEST_ID_OFFSET header) =? 0)) in
  Some payload_length.

(** The request, every field that is not read zero. *)
Definition serve_frame (header : list byte) (body : option (list byte)) (payload_length : Z) : ksd_frame :=
  mk_frame [x00; x00; x00; x00] 0 0 (ksd_decode_u16 (zdrop KSD_FRAME_OPCODE_OFFSET header)) 0 payload_length
    (ksd_decode_u64 (zdrop KSD_FRAME_REQUEST_ID_OFFSET header)) body.

Section serve.
Context {AL : Allocator} {X W : Type} (display : ksd_display_backend X W) (session_pid : Z).

(** The answer to a request, [None] when there is no memory for it. *)
Definition serve_answer (request_id : Z) (result : ksd_operation_result) : option (list byte) :=
  let capture_fd := (res_status result =? KSD_STATUS_OK) && (0 <=? res_payload_fd result) in
  let tail := if res_status result =? KSD_STATUS_OK then res_tail result else Some (res_diagnostic result) in
  let tail_length := if res_status result =? KSD_STATUS_OK then res_tail_length result else zlen (res_diagnostic result) in
  let payload := ksd_buffer_init (if capture_fd then 12 else u64 (tail_length + 8)) in
  let '(ok, payload) :=
    (ksd_buffer_u32 (res_status result) ;;; ksd_buffer_u32 (res_detail result)
     ;;; (if capture_fd then ksd_buffer_u32 (res_tail_length result)
          else if tail_length =? 0 then fun b => (true, b) else ksd_buffer_bytes tail tail_length)) payload in
  guard* ok in
  let answer := mk_frame public_magic KSD_PROTOCOL_MAJOR KSD_PROTOCOL_MINOR 0 (if capture_fd then KSD_RELAY_CAPTURE_FD else 0)
    (u32 (buf_length payload)) request_id (Some (buf_bytes payload)) in
  let '(ok, packed) := ksd_frame_pack answer (ksd_buffer_init (buf_length payload + KSD_FRAME_HEADER_SIZE + 16)) in
  guard* ok in Some (buf_bytes packed).

(** Whether the answer went out, and what of it. *)
Definition send_answer (turn : serve_turn) (request_id : Z) (result : ksd_operation_result) : option (bool * list byte * option Z) :=
  match serve_answer request_id result with
  | None => Some (false, [], None)
  | Some bytes =>
    if (res_status result =? KSD_STATUS_OK) && (0 <=? res_payload_fd result) then
      let* (sent, out) := ksd_send_with_fd KSD_CAPTURE_WORKER_FD (sv_sends turn) (sv_writes turn) bytes (res_payload_fd result) in
      Some (sent, out, Some (res_payload_fd result))
    else let* (sent, out) := ksd_write_all (sv_writes turn) bytes [] in Some (sent, out, None)
  end.

Definition is_display_watch (request : ksd_frame) : bool :=
  (fr_opcode request =? KSD_OP_WINDOW_WATCH) && (fr_payload_length request =? 0)
  && ((db_backend display =? KSD_BACKEND_X11) || (db_backend display =? KSD_BACKEND_GENERIC)).

(** The first use of a display opens it. *)
Definition serve_open (current : option (connection X W)) (result : ksd_operation_result)
    : option (connection X W) * ksd_operation_result * list serve_event :=
  match current with
  | Some c => (Some c, result, [])
  | None =>
    let '(status, opened) := db_open display session_pid in
    if status =? KSD_STATUS_OK then (opened, result, [DisplayOpened])
    else let '(result, closed) := ksd_result_error result status 0 (Some (db_open_error display)) in
         (opened, result, [ResultClosed closed])
  end.

(** A request on the connection: the connection left and the result. *)
Definition serve_execute (current : option (connection X W)) (request : ksd_frame) (result : ksd_operation_result)
    : option (connection X W) * ksd_operation_result * list serve_event :=
  match current with
  | None => (None, result, [AlarmSet 0])
  | Some c =>
    let '(alive, c, result, closed) := db_execute display c request result in
    if (alive : bool) then (Some c, result, [ResultClosed closed; AlarmSet 0])
    else (None, result, [ResultClosed closed; AlarmSet 0; DisplayClosed])
  end.

(** One request: whether the worker goes on and, if not, with what; the connection left
    and the events. *)
Definition serve_request (turn : serve_turn) (request : ksd_frame) (current : option (connection X W))
    : option (option bool * option (connection X W) * list serve_event) :=
  let alarm := AlarmSet (if is_capture (fr_opcode request) then 40 else 10) in
  let '(current, result, opening) := serve_open current ksd_result_init in
  match current with
  | Some c =>
    if is_display_watch request
    then Some (Some (sv_watch turn), Some c,
               alarm :: opening ++ [DisplayWatched (fr_request_id request); AlarmSet 0; ResultClosed (snd (ksd_result_clear result))])
    else
      let '(current, result, executing) := serve_execute current request result in
      let* (sent, out, fd) := send_answer turn (fr_request_id request) result in
      Some (if (sent : bool) then None else Some false, current,
            alarm :: opening ++ executing ++ [AnswerSent out fd; ResultClosed (snd (ksd_result_clear result))])
  | None =>
    let '(current, result, executing) := serve_execute current request result in
    let* (sent, out, fd) := send_answer turn (fr_request_id request) result in
    Some (if (sent : bool) then None else Some false, current,
          alarm :: opening ++ executing ++ [AnswerSent out fd; ResultClosed (snd (ksd_result_clear result))])
  end.

(** The end of the loop closes the connection. *)
Definition serve_end (ok : bool) (current : option (connection X W)) : bool * list serve_event :=
  (ok, match current with Some _ => [DisplayClosed] | None => [] end).

(** The loop of [serve_persistently]: [stream] is what the authority sends.  [None] while
    the turns have not come to its end. *)
Fixpoint serve_loop (turns : list serve_turn) (stream : list byte) (current : option (connection X W))
    : option (bool * list serve_event) :=
  match turns with
  | [] => None
  | turn :: turns =>
    let* (header, stream, _) := ksd_read_all (sv_header turn) KSD_FRAME_HEADER_SIZE stream [] in
    match header with
    | None => Some (serve_end true current)
    | Some header =>
      match serve_header header with
      | None => Some (serve_end false current)
      | Some payload_length =>
        let* (body, stream) :=
          (if payload_length =? 0 then Some (Some None, stream)
           else if negb (alloc_ok payload_length) then Some (None, stream)
           else let* (body, stream, _) := ksd_read_all (sv_body turn) payload_length stream [] in
                Some (match body with Some body => Some (Some body) | None => None end, stream)) in
        match body with
        | None => Some (serve_end false current)
        | Some body =>
          let* (ended, current, events) := serve_request turn (serve_frame header body payload_length) current in
          match ended with
          | Some ok => let '(ok, closing) := serve_end ok current in Some (ok, events ++ closing)
          | None => let* (ok, more) := serve_loop turns stream current in Some (ok, events ++ more)
          end
        end
      end
    end
  end.
End serve.

Definition serve_persistently {AL : Allocator} {X W : Type} (lib : display_library X W) (environ : option (list byte))
    (environ_calls : list plain_outcome) (backend session_pid : Z) (turns : list serve_turn) (stream : list byte)
    : option (bool * list serve_event) :=
  match display_backend lib environ environ_calls backend with
  | None => Some (false, [])
  | Some display => serve_loop display session_pid turns stream None
  end.

(** ** A worker's life *)

(** What the calls of [ksd_capture_worker_main] give. *)
Record main_run := mk_main {
  mr_arguments : bool; mr_whole : bool; mr_peer : option Z; mr_close_range : bool;
  mr_packet : recvmsg_outcome; mr_stream : bool; mr_reads : list plain_outcome; mr_rest : list byte; mr_pipe_valid : Z * Z -> bool;
  mr_root : root_call -> bool;
  mr_kwin_pipe : bool; mr_kwin_forked : bool; mr_kwin_ready : bool; mr_kwin_owner : credentials -> option Z; mr_kwin_written : bool;
  mr_kwin_trusted : Z -> bool;                            (** finding KWin's process *)
  mr_spool : Z; mr_spool_set : bool; mr_spool_valid : bool;
  mr_credentials : credentials; mr_allowed : credentials -> privilege_call -> bool; mr_orphan : bool;
  mr_thread : bool; mr_unlimited : bool; mr_ready : bool; (** the monitor, the timeout, the ready byte *)
  mr_turns : list serve_turn; mr_requests : list byte;    (** serving *)
  mr_capture : capture_run; mr_sends : response_run; mr_files : Z -> worker_file;
}.

(** The exit status, the descriptors closed before it, and what the worker did: its
    events or its answer. *)
Inductive worker_outcome :=
| WorkerRefused
| WorkerServed (events : list serve_event)
| WorkerAnswered (result : ksd_operation_result) (sent : bool) (bytes : list byte) (file : option worker_file).

Section main.
Context {AL : Allocator} {X W : Type} (lib : display_library X W).
Variables (owner : Z) (environ : option (list byte)) (environ_calls : list plain_outcome).

(** Asking for KWin's process, in a child that has given up its privileges. *)
Definition worker_kwin (run : main_run) (uid gid : Z) (groups : list Z) : option Z :=
  resolve_trusted_kwin_pid (mr_kwin_pipe run) (mr_kwin_forked run)
    (kwin_child (mr_kwin_ready run) (mr_allowed run) (mr_orphan run) uid gid groups (mr_credentials run) (mr_kwin_owner run) (mr_kwin_written run))
    (mr_kwin_trusted run).

(** The label [failed]. *)
Definition main_failed (capture_pipe : Z * Z) (capture_spool : Z) : list Z :=
  close_fd (fst capture_pipe) ++ close_fd (snd capture_pipe) ++ close_fd capture_spool.

(** One request: the display's or a capture's. *)
Definition serve_once (run : main_run) (display : option (ksd_display_backend X W)) (session_pid : Z) (request : ksd_frame)
    (capture_pipe : Z * Z) (capture_spool trusted_kwin_pid : Z) : option (ksd_operation_result * list Z) :=
  match (let* display := display in guard* db_request_valid display request in Some display) with
  | Some display =>
    let closed := [fst capture_pipe; snd capture_pipe; capture_spool] in
    let '(status, opened) := db_open display session_pid in
    let result := ksd_result_init in
    if negb (status =? KSD_STATUS_OK)
    then let '(result, closed') := ksd_result_error result status 0 (Some (db_open_error display)) in Some (result, closed ++ closed')
    else
      match opened with
      | None => Some (result, closed)
      | Some c => let '(_, _, result, closed') := db_execute display c request result in Some (result, closed ++ closed')
      end
  | None =>
    let* (result, closed, _) :=
      ksd_local_capture_execute (mr_capture run) request (fst capture_pipe) (snd capture_pipe) capture_spool trusted_kwin_pid in
    Some (result, closed)
  end.

Definition ksd_capture_worker_main (run : main_run) : option (Z * list Z * worker_outcome) :=
  if negb (mr_arguments run) then Some (2, [], WorkerRefused)
  else if negb (mr_whole run && worker_peer_is_authority owner (mr_peer run)) then Some (1, [], WorkerRefused)
  else if negb (mr_close_range run) then Some (1, [], WorkerRefused)
  else
    let* (received, closed) := receive_bootstrap (mr_stream run) (mr_pipe_valid run) KSD_CAPTURE_WORKER_BOOTSTRAP_MAX (mr_packet run)
      (mr_reads run) (mr_rest run) in
    match received with
    | None => Some (1, closed, WorkerRefused)
    | Some (bootstrap, pipe) =>
      let failed spool := Some (1, closed ++ main_failed pipe spool, WorkerRefused) in
      match (let* header := parse_bootstrap_header bootstrap in
             guard* prepare_worker_root (mr_root run) (wb_persistent header) in Some header) with
      | None => failed (-1)
      | Some header =>
        let groups := bootstrap_groups bootstrap (wb_group_count header) in
        let wants_kwin := negb (wb_persistent header) && (wb_backend header =? KSD_BACKEND_KWIN) in
        let kwin := worker_kwin run (wb_uid header) (wb_gid header) groups in
        if wants_kwin && match kwin with None => true | Some _ => false end then failed (-1)
        else
          let trusted_kwin_pid := if wants_kwin then default 0 kwin else 0 in
          let '(spool, closed') := create_capture_spool (mr_spool run) (mr_spool_set run) (mr_spool_valid run) in
          let closed := closed ++ closed' in
          let failed spool := Some (1, closed ++ main_failed pipe spool, WorkerRefused) in
          if spool <? 0 then failed spool
          else
            let '(dropped, _) := drop_worker_privileges (mr_allowed run) (mr_orphan run) (wb_uid header) (wb_gid header) groups
              (mr_credentials run) in
            if negb dropped then failed spool
            else if wb_persistent header then
              let closed := closed ++ [fst pipe; snd pipe; spool] in
              if negb (mr_thread run && mr_unlimited run && mr_ready run) then Some (1, closed, WorkerRefused)
              else
                let* (served, events) := serve_persistently lib environ environ_calls (wb_backend header) (wb_session_pid header)
                  (mr_turns run) (mr_requests run) in
                Some (if (served : bool) then 0 else 1, closed ++ [KSD_CAPTURE_WORKER_FD], WorkerServed events)
            else
              match bootstrap_request bootstrap header with
              | None => failed spool
              | Some request =>
                let display := display_backend lib environ environ_calls (wb_backend header) in
                let display_request := match display with Some display => db_request_valid display request | None => false end in
                if negb (fr_flags request =? 0) || (fr_request_id request =? 0)
                   || negb (display_request || ksd_local_capture_request_valid request)
                then failed spool
                else
                  let* (result, closed') := serve_once run display (wb_session_pid header) request pipe spool trusted_kwin_pid in
                  let* (written, bytes, file, closed'') := send_worker_response KSD_CAPTURE_WORKER_FD (mr_sends run) (mr_files run) result in
                  Some (if (written : bool) then 0 else 1,
                        closed ++ closed' ++ closed'' ++ snd (ksd_result_clear result) ++ [KSD_CAPTURE_WORKER_FD],
                        WorkerAnswered result written bytes file)
              end
      end
    end.
End main.

(** ** Privileges *)

Lemma privilege_calls_effect allowed calls : forall c c',
  privilege_calls allowed calls c = (true, c') -> c' = fold_left privilege_effect calls c.
Proof.
  induction calls as [|call calls IH]; intros c c'; cbn; [by intros [= <-]|]. destruct (allowed c call); [apply IH|done].
Qed.

Lemma privilege_calls_all calls : forall c, privilege_calls (fun _ _ => true) calls c = (true, fold_left privilege_effect calls c).
Proof. induction calls as [|call calls IH]; intros c; [done|]. apply IH. Qed.

(** Everything a process does as this user and group, for good. *)
Definition is_user (uid gid : Z) (c : credentials) : Prop :=
  cd_real_uid c = uid /\ cd_effective_uid c = uid /\ cd_saved_uid c = uid /\
  cd_real_gid c = gid /\ cd_effective_gid c = gid /\ cd_saved_gid c = gid /\
  cd_keep_caps c = false /\ cd_no_new_privs c = true /\ cd_dumpable c = false.

Lemma drop_worker_privileges_exact allowed orphan uid gid groups c c' :
  drop_worker_privileges allowed orphan uid gid groups c = (true, c') ->
  uid <> 0 /\ orphan = false /\ is_user uid gid c' /\
  (cd_groups c' = groups \/
   cd_groups c' = cd_groups c /\ cd_real_uid c = uid /\ cd_effective_uid c = uid /\ cd_real_gid c = gid /\ cd_effective_gid c = gid).
Proof.
  unfold drop_worker_privileges. destruct (Z.eqb_spec uid 0) as [|Hu]; [done|].
  destruct (_ && _ && _ && _) eqn:Ea; destruct (privilege_calls _ _ c) as [made c1] eqn:Em; (destruct made; cbn [negb orb]; [|done]);
    (destruct orphan; [done|]); apply privilege_calls_effect in Em; intros [= Hc <-]; breflect; unfold is_user; subst c1; cbn in *;
    (split; [done|]; split; [done|]; split; [auto 10|]); [right|left]; auto 10.
Qed.

(** A worker gives up its privileges for good.  When it goes on, its real, effective
    and saved user and group are the client's, who is not root, so it cannot go back; it
    can gain nothing by executing another program, keeps no capabilities and cannot be
    inspected, and it was not orphaned on the way; its groups are those it was told,
    unless it was the client's process from the start and had nothing to give up.  A
    kernel that allows every call lets it go on. *)
Theorem worker_privileges_dropped :
  (forall allowed orphan uid gid groups c c',
    drop_worker_privileges allowed orphan uid gid groups c = (true, c') ->
    uid <> 0 /\ orphan = false /\ is_user uid gid c' /\
    (cd_groups c' = groups \/
     cd_groups c' = cd_groups c /\ cd_real_uid c = uid /\ cd_effective_uid c = uid /\ cd_real_gid c = gid /\ cd_effective_gid c = gid)) /\
  (forall uid gid groups c, uid <> 0 ->
    (cd_real_uid c = uid -> cd_effective_uid c = uid -> cd_real_gid c = gid -> cd_effective_gid c = gid -> cd_saved_uid c = uid /\ cd_saved_gid c = gid) ->
    exists c', drop_worker_privileges (fun _ _ => true) false uid gid groups c = (true, c')).
Proof.
  split; [apply drop_worker_privileges_exact|]. intros uid gid groups c Hu Hs. unfold drop_worker_privileges.
  replace (uid =? 0) with false by lia.
  destruct ((uid =? cd_real_uid c) && (uid =? cd_effective_uid c) && (gid =? cd_real_gid c) && (gid =? cd_effective_gid c)) eqn:Ea;
    rewrite privilege_calls_all; cbn [negb orb];
    cbn [app fold_left privilege_effect cd_real_uid cd_effective_uid cd_saved_uid cd_real_gid cd_effective_gid cd_saved_gid].
  - breflect. destruct Hs as [Hs1 Hs2]; try done. rewrite Hs1, Hs2. eexists. f_equal. repeat (apply andb_true_intro; split); apply Z.eqb_eq; congruence.
  - rewrite !Z.eqb_refl. by eexists.
Qed.

(** ** Receiving the bootstrap message *)

(** The scan has seen [fds]: it keeps the first two and has closed the others. *)
Definition pipe_inv (fds : list Z) (s : pipe_scan) : Prop :=
  ps_count s = zlen fds /\
  match fds with
  | [] => ps_pipe s = (-1, -1) /\ ps_closed s = []
  | [r] => ps_pipe s = (r, -1) /\ ps_closed s = []
  | r :: w :: rest => ps_pipe s = (r, w) /\ ps_closed s = rest
  end.

Lemma pipe_scan_fd_inv fds s fd : pipe_inv fds s -> pipe_inv (fds ++ [fd]) (pipe_scan_fd s fd).
Proof.
  intros [Hc Hf]. unfold pipe_scan_fd, pipe_inv. rewrite Hc, zlen_app. destruct fds as [|r [|w rest]].
  - destruct Hf as [-> ->]. done.
  - destruct Hf as [-> ->]. done.
  - destruct Hf as [-> ->]. rewrite !zlen_cons. pose proof (zlen_nonneg rest).
    replace (1 + (1 + zlen rest) =? 0) with false by lia. replace (1 + (1 + zlen rest) =? 1) with false by lia. done.
Qed.

Lemma pipe_scan_fds_inv new : forall fds s,
  pipe_inv fds s -> pipe_inv (fds ++ new) (fold_left pipe_scan_fd new s) /\ ps_malformed (fold_left pipe_scan_fd new s) = ps_malformed s.
Proof.
  induction new as [|fd new IH]; intros fds s Hs; [by rewrite app_nil_r|].
  destruct (IH (fds ++ [fd]) (pipe_scan_fd s fd) (pipe_scan_fd_inv fds s fd Hs)) as [H Hm]. rewrite <- app_assoc in H. split; [done|].
  cbn [fold_left]. rewrite Hm. unfold pipe_scan_fd. by repeat case_if.
Qed.

Lemma pipe_scan_cmsgs_inv control : forall fds s,
  Forall cmsg_rights control -> pipe_inv fds s ->
  pipe_inv (fds ++ cmsgs_fds control) (fold_left pipe_scan_cmsg control s) /\
  ps_malformed (fold_left pipe_scan_cmsg control s) = ps_malformed s.
Proof.
  induction control as [|m control IH]; intros fds s Hc Hs; [by rewrite app_nil_r|].
  apply Forall_cons_1 in Hc as [(Hl & Ht & Hlen & _) Hc].
  assert (pipe_scan_cmsg s m = fold_left pipe_scan_fd (cmsg_fds m) s) as E.
  { unfold pipe_scan_cmsg. rewrite Hl, Ht, Hlen. pose proof (zlen_nonneg (cmsg_fds m)).
    replace (_ + _ <? _) with false by lia. cbn [negb orb Z.eqb SOL_SOCKET SCM_RIGHTS Pos.eqb].
    replace (CMSG_LEN0 + 4 * zlen (cmsg_fds m) - CMSG_LEN0) with (zlen (cmsg_fds m) * 4) by lia.
    rewrite Z.mod_mul, Z.div_mul, ztake_all by lia. done. }
  cbn [fold_left]. rewrite E. destruct (pipe_scan_fds_inv (cmsg_fds m) fds s Hs) as [Hs' Hm].
  unfold cmsgs_fds. cbn [map concat]. rewrite app_assoc. destruct (IH _ _ Hc Hs') as [? ->]. done.
Qed.

Lemma pipe_inv_kept fds s :
  pipe_inv fds s -> Forall (fun fd => 0 <= fd) fds ->
  ps_closed s ++ close_fd (fst (ps_pipe s)) ++ close_fd (snd (ps_pipe s)) ≡ₚ fds /\
  (ps_count s = 2 -> fds = [fst (ps_pipe s); snd (ps_pipe s)] /\ ps_closed s = []).
Proof.
  intros [Hc Hf] Hp. unfold close_fd. destruct fds as [|r [|w rest]].
  - destruct Hf as [-> ->]. split; [done|]. rewrite Hc. done.
  - destruct Hf as [-> ->]. apply Forall_cons_1 in Hp as [? _]. cbn [fst snd app]. replace (0 <=? r) with true by lia. split; [done|]. rewrite Hc. done.
  - destruct Hf as [-> ->]. apply Forall_cons_1 in Hp as [? Hp]. apply Forall_cons_1 in Hp as [? _]. cbn [fst snd].
    replace (0 <=? r) with true by lia. replace (0 <=? w) with true by lia. split; [by rewrite Permutation_app_comm|].
    rewrite Hc, !zlen_cons. pose proof (zlen_nonneg rest). intros E. destruct rest; [done|]. rewrite zlen_cons in *. pose proof (zlen_nonneg rest). lia.
Qed.

(** The fields that say how long a message is. *)
Lemma bootstrap_prefix h groups frame m :
  bootstrap_wf h groups frame -> 32 <= m ->
  let bytes := ztake m (bootstrap_bytes h groups frame) in
  KSD_CAPTURE_WORKER_HEADER_SIZE + ksd_decode_u32 (zdrop 16 bytes) * 4 + ksd_decode_u32 (zdrop 20 bytes) = zlen (bootstrap_bytes h groups frame).
Proof.
  intros Hwf Hm. cbv zeta. pose proof Hwf as (Hu & Hg & Hgs & Hn & Hmax & Hf & Hp & Hpid & Hb). unfold bootstrap_bytes.
  set (hd := message_of _ _ _ _ _ _ _ _ _). set (k := group_bytes groups ++ frame).
  assert (Hmr : KSD_FRAME_HEADER_SIZE + KSD_CAPTURE_WORKER_MAX_REQUEST < 2 ^ 31) by (vm_compute; reflexivity).
  assert (Hfl : zlen frame <= KSD_FRAME_HEADER_SIZE + KSD_CAPTURE_WORKER_MAX_REQUEST) by (destruct (wb_persistent h); [by subst frame|lia]).
  pose proof (zlen_nonneg groups). pose proof (zlen_nonneg frame). unfold KSD_CAPTURE_WORKER_MAX_GROUPS, INT32_MAX in *. change KSD_BACKEND_X11 with 5 in Hb.
  assert (E : ztake m (hd ++ k) = hd ++ ztake (m - 32) k).
  { unfold ztake. rewrite take_app. rewrite (firstn_all2 hd); [|change (length hd) with 32%nat; lia]. do 2 f_equal. change (length hd) with 32%nat. lia. }
  rewrite E. destruct (message_words_app worker_magic KSD_CAPTURE_WORKER_VERSION (wb_backend h) (wb_uid h) (wb_gid h) (wb_group_count h)
    (wb_frame_length h) (wb_session_pid h) (Z.b2z (wb_persistent h)) (ztake (m - 32) k)) as (_ & _ & _ & _ & _ & _ & E6 & E7 & _);
    try done; try (unfold is_u16, is_u32 in *; lia); [by destruct (wb_persistent h)|].
  fold hd in E6, E7. rewrite E6, E7. unfold k. rewrite !zlen_app, zlen_group_bytes, Hn, Hf. change (zlen hd) with 32. unfold KSD_CAPTURE_WORKER_HEADER_SIZE. lia.
Qed.

Lemma zlen_bootstrap_bytes h groups frame :
  bootstrap_wf h groups frame -> 32 <= zlen (bootstrap_bytes h groups frame) <= KSD_CAPTURE_WORKER_BOOTSTRAP_MAX.
Proof.
  intros (_ & _ & _ & _ & Hmax & _ & Hp & _). unfold bootstrap_bytes. rewrite !zlen_app, zlen_group_bytes.
  match goal with |- context [zlen (message_of ?a ?b ?c ?d ?e ?f ?g ?h ?i)] => change (zlen (message_of a b c d e f g h i)) with 32 end.
  assert (Hfl : zlen frame <= KSD_FRAME_HEADER_SIZE + KSD_CAPTURE_WORKER_MAX_REQUEST) by (destruct (wb_persistent h); [by subst frame|lia]).
  pose proof (zlen_nonneg groups). pose proof (zlen_nonneg frame).
  unfold KSD_CAPTURE_WORKER_BOOTSTRAP_MAX, KSD_CAPTURE_WORKER_HEADER_SIZE, KSD_CAPTURE_WORKER_MAX_GROUPS in *. lia.
Qed.

(** Wherever a stream cuts the message, the rest of it is read. *)
Lemma complete_bootstrap_whole h groups frame n more calls :
  bootstrap_wf h groups frame ->
  let b := bootstrap_bytes h groups frame in
  0 < n <= zlen b -> flowing calls -> zlen b - n <= zlen (List.filter moves calls) ->
  complete_bootstrap KSD_CAPTURE_WORKER_BOOTSTRAP_MAX false (ztake n b) calls (zdrop n b ++ more) = Some (false, b).
Proof.
  intros Hwf b Hn Hc Hm. pose proof (zlen_bootstrap_bytes h groups frame Hwf) as Hb. fold b in Hb.
  assert (Hl : forall m, 0 <= m <= zlen b -> zlen (ztake m b) = m) by (intros; apply zlen_ztake; lia).
  assert (Hrest : forall m calls, 32 <= m <= zlen b -> flowing calls -> zlen b - m <= zlen (List.filter moves calls) ->
    (let expected := KSD_CAPTURE_WORKER_HEADER_SIZE + ksd_decode_u32 (zdrop 16 (ztake m b)) * 4 + ksd_decode_u32 (zdrop 20 (ztake m b)) in
     if (KSD_CAPTURE_WORKER_BOOTSTRAP_MAX <? expected) || (expected <? zlen (ztake m b)) then Some (true, ztake m b)
     else if zlen (ztake m b) <? expected then
       let* (got, _, _) := ksd_read_all calls (expected - zlen (ztake m b)) (zdrop m b ++ more) [] in
       match got with None => Some (true, ztake m b) | Some more => Some (false, ztake m b ++ more) end
     else Some (false, ztake m b)) = Some (false, b)).
  { intros m cs Hm1 Hc1 Hm2. pose proof (bootstrap_prefix h groups frame m Hwf ltac:(lia)) as E. cbv zeta in E |- *. fold b in E. rewrite E, Hl by lia.
    replace ((_ <? _) || _) with false by lia. destruct (Z.ltb_spec m (zlen b)).
    - destruct (read_all_completes cs (zlen b - m) (zdrop m b ++ more) []) as (cs' & -> & _); try done; change (zlen (@nil byte)) with 0;
        try (rewrite zlen_app, zlen_zdrop by lia; pose proof (zlen_nonneg more)); try lia.
      cbn [app]. rewrite <- (zlen_zdrop m b), ztake_app_l, ztake_zdrop by lia. done.
    - assert (m = zlen b) as -> by lia. by rewrite ztake_all. }
  unfold complete_bootstrap. rewrite Hl by lia. destruct (Z.ltb_spec n KSD_CAPTURE_WORKER_HEADER_SIZE) as [Hs|Hs];
    unfold KSD_CAPTURE_WORKER_HEADER_SIZE in Hs |- * at 1.
  - destruct (read_all_completes calls (32 - n) (zdrop n b ++ more) []) as (calls' & -> & Hc' & Hm'); try done; change (zlen (@nil byte)) with 0;
      try (rewrite zlen_app, zlen_zdrop by lia; pose proof (zlen_nonneg more)); try lia.
    set (c := ztake (32 - n) (zdrop n b)). assert (Hcd : zdrop n b = c ++ zdrop 32 b).
    { unfold c. rewrite <- (ztake_zdrop (32 - n) (zdrop n b)) at 1. f_equal. rewrite zdrop_zdrop by lia. f_equal. lia. }
    assert (Hcl : zlen c = 32 - n) by (unfold c; apply zlen_ztake; rewrite zlen_zdrop by lia; lia).
    assert (Hac : ztake n b ++ c = ztake 32 b).
    { apply (app_inv_tail (zdrop 32 b)). by rewrite <- app_assoc, <- Hcd, !ztake_zdrop. }
    cbn [app]. rewrite Hcd, <- app_assoc, <- Hcl, ztake_app_l, zdrop_app_l, Hac.
    apply Hrest; [lia|done|change (zlen (@nil byte)) with 0 in Hm'; lia].
  - apply Hrest; [lia|done|lia].
Qed.

(** What the kernel delivers with a worker's first packet. *)
Definition packet_fds (outcome : recvmsg_outcome) : list Z :=
  match outcome with MsgData _ _ control => cmsgs_fds control | _ => [] end.
Definition packet_rights (outcome : recvmsg_outcome) : Prop :=
  match outcome with MsgData _ _ control => Forall cmsg_rights control | _ => True end.

Lemma receive_bootstrap_conserves is_stream valid capacity outcome calls stream kept closed :
  packet_rights outcome ->
  receive_bootstrap is_stream valid capacity outcome calls stream = Some (kept, closed) ->
  match kept with
  | Some (b, pipe) => valid pipe = true /\ packet_fds outcome = [fst pipe; snd pipe] /\ closed = []
  | None => closed ≡ₚ packet_fds outcome
  end.
Proof.
  intros Hr. unfold receive_bootstrap.
  destruct outcome as [| |bytes truncated control]; cbn [fold_left]; cbn [packet_fds packet_rights] in *.
  1, 2: cbn; intros [= <- <-]; done.
  destruct (pipe_scan_cmsgs_inv control [] (mk_pipe_scan (-1, -1) 0 false []) Hr) as [Hi Hm]; [done|]. cbn [app] in Hi. cbn [ps_malformed] in Hm.
  set (s := fold_left _ _ _) in *. destruct (pipe_inv_kept _ _ Hi (cmsgs_fds_open _ Hr)) as [Hp H2].
  match goal with |- (let* _ := ?r in _) = _ -> _ => destruct r as [[malformed got]|]; [|done] end.
  destruct ((zlen bytes <=? 0) || truncated || malformed || negb (ps_count s =? 2) || negb (valid (ps_pipe s))) eqn:E; intros [= <- <-]; [done|].
  apply orb_false_elim in E as [E Hv]. apply orb_false_elim in E as [E Hc]. apply negb_false_iff in Hv, Hc. apply Z.eqb_eq in Hc.
  destruct (H2 Hc) as [-> ->]. by destruct (ps_pipe s).
Qed.

(** How a worker receives its bootstrap message and its pipe.  Whatever its first
    packet holds, the descriptors that came with it are exactly those it keeps and those
    it closes; it goes on only with exactly two, which are a pipe, and with nothing else
    open.  And a message that its authority made is received whole with its pipe,
    wherever the stream cuts it, whatever follows it on the stream and whatever the sizes
    of the reads, as long as no read fails. *)
Theorem bootstrap_received :
  (forall is_stream valid capacity outcome calls stream kept closed, packet_rights outcome ->
    receive_bootstrap is_stream valid capacity outcome calls stream = Some (kept, closed) ->
    match kept with
    | Some (b, pipe) => valid pipe = true /\ packet_fds outcome = [fst pipe; snd pipe] /\ closed = []
    | None => closed ≡ₚ packet_fds outcome
    end) /\
  (forall h groups frame n more calls r w valid,
    bootstrap_wf h groups frame ->
    let b := bootstrap_bytes h groups frame in
    0 < n <= zlen b -> flowing calls -> zlen b - n <= zlen (List.filter moves calls) -> 0 <= r -> 0 <= w -> valid (r, w) = true ->
    receive_bootstrap true valid KSD_CAPTURE_WORKER_BOOTSTRAP_MAX
      (MsgData (ztake n b) false [mk_cmsg SOL_SOCKET SCM_RIGHTS (CMSG_LEN0 + 8) [r; w]]) calls (zdrop n b ++ more) = Some (Some (b, (r, w)), [])).
Proof.
  split; [apply receive_bootstrap_conserves|]. intros h groups frame n more calls r w valid Hwf b Hn Hc Hm Hr Hw Hv. unfold receive_bootstrap.
  rewrite zlen_ztake by lia. replace (0 <? n) with true by lia. cbn [andb].
  change (fold_left pipe_scan_cmsg _ _) with (mk_pipe_scan (r, w) 2 false []). cbn [ps_malformed ps_count ps_pipe ps_closed].
  pose proof (complete_bootstrap_whole h groups frame n more calls Hwf) as E. cbv zeta in E. fold b in E. rewrite E by done.
  rewrite Hv. replace (n <=? 0) with false by lia. done.
Qed.
Lemma zlen_0_nil {A} (l : list A) : zlen l = 0 -> l = [].
Proof. destruct l as [|x l]; [done|]. rewrite zlen_cons. pose proof (zlen_nonneg l). lia. Qed.
Lemma skip_writes {AL : Allocator} : writes (fun b => (true, b)) [].
Proof. intros b Hb. rewrite app_nil_r. repeat split; try done; try apply Hb. by exists 0%nat; rewrite app_nil_r. Qed.

(** ** The answers of a worker that stays *)

(** The answer a result goes out as. *)
Definition answer_frame (request_id : Z) (r : ksd_operation_result) : ksd_frame :=
  let file := (res_status r =? KSD_STATUS_OK) && (0 <=? res_payload_fd r) in
  let tail := if res_status r =? KSD_STATUS_OK then default [] (res_tail r) else res_diagnostic r in
  let body := ksd_encode_u32 (res_status r) ++ ksd_encode_u32 (res_detail r) ++ (if file then ksd_encode_u32 (res_tail_length r) else tail) in
  mk_frame public_magic KSD_PROTOCOL_MAJOR KSD_PROTOCOL_MINOR 0 (if file then KSD_RELAY_CAPTURE_FD else 0) (zlen body) request_id (Some body).

(** A result whose fields fit the wire. *)
Definition result_fits (r : ksd_operation_result) : Prop :=
  result_wf r /\ is_u32 (res_status r) /\ is_u32 (res_detail r) /\ 0 <= res_tail_length r <= UINT32_MAX - 64 /\ nul_free (res_diagnostic r).

Lemma answer_frame_wf request_id r : result_fits r -> is_u64 request_id -> frame_wf (answer_frame request_id r).
Proof.
  intros ((_ & Hp1 & Hl & _ & _ & _ & Hd) & Hs & Hdet & Htl & Hnul) Hid. unfold answer_frame, frame_wf, header_wf.
  cbn [fr_magic fr_major fr_minor fr_opcode fr_flags fr_payload_length fr_request_id fr_payload default from_option id].
  rewrite !zlen_app, !zlen_encode_u32. unfold UINT32_MAX, KSD_DIAGNOSTIC_CAPACITY in *.
  set (file := (res_status r =? KSD_STATUS_OK) && (0 <=? res_payload_fd r)).
  set (tail := if res_status r =? KSD_STATUS_OK then default [] (res_tail r) else res_diagnostic r).
  pose proof (zlen_nonneg tail).
  assert (file = false -> zlen tail <= 2 ^ 32 - 65).
  { unfold file, tail. destruct (res_status r =? KSD_STATUS_OK); cbn [andb]; [|lia]. intros. rewrite <- Hl by (breflect; lia). lia. }
  assert (0 <= zlen (if file then ksd_encode_u32 (res_tail_length r) else tail) <= 2 ^ 32 - 65)
    by (destruct file; rewrite ?zlen_encode_u32; lia).
  split; [|split; [done|split; [done|lia]]]. unfold is_u16, is_u32. split; [done|]. split; [done|]. split; [done|]. split; [done|].
  split; [by destruct file|]. split; [lia|done].
Qed.

Lemma serve_answer_bytes {AL : Allocator} request_id r :
  AllocTotal AL -> result_fits r -> is_u64 request_id ->
  serve_answer request_id r = Some (frame_bytes (answer_frame request_id r)).
Proof.
  intros HA Hr Hid. pose proof (answer_frame_wf request_id r Hr Hid) as Hwf. pose proof Hr as ((_ & Hp1 & Hl & _ & _ & _ & Hd) & Hs & Hdet & Htl & Hnul).
  pose proof Hwf as ((_ & _ & _ & _ & _ & Hpl & _) & _ & _). unfold is_u32 in Hpl.
  unfold serve_answer. set (file := (res_status r =? KSD_STATUS_OK) && (0 <=? res_payload_fd r)).
  set (tail := if res_status r =? KSD_STATUS_OK then default [] (res_tail r) else res_diagnostic r).
  assert (Htail : default [] (if res_status r =? KSD_STATUS_OK then res_tail r else Some (res_diagnostic r)) = tail)
    by (unfold tail; by destruct (res_status r =? KSD_STATUS_OK)).
  set (tl := if res_status r =? KSD_STATUS_OK then res_tail_length r else zlen (res_diagnostic r)).
  assert (Htl' : file = false -> tl = zlen tail /\ 0 <= tl <= UINT32_MAX - 64).
  { unfold file, tail, tl. pose proof (zlen_nonneg (res_diagnostic r)). unfold UINT32_MAX, KSD_DIAGNOSTIC_CAPACITY in *.
    destruct (res_status r =? KSD_STATUS_OK); cbn [andb]; [|lia]. intros. split; [apply Hl; breflect; lia|lia]. }
  set (body := ksd_encode_u32 (res_status r) ++ ksd_encode_u32 (res_detail r) ++ (if file then ksd_encode_u32 (res_tail_length r) else tail)).
  assert (Hbody : zlen body = 8 + zlen (if file then ksd_encode_u32 (res_tail_length r) else tail)) by (unfold body; rewrite !zlen_app, !zlen_encode_u32; lia).
  match goal with |- context [let '(ok, payload) := ?op ?b in _] => assert (Hw : writes op body) end.
  { unfold body. apply andthen_writes; [apply u32_writes|]. apply andthen_writes; [apply u32_writes|].
    destruct file; [apply u32_writes|]. destruct (Htl' eq_refl) as [El _]. destruct (Z.eqb_spec tl 0) as [E|E].
    - assert (tail = []) as -> by (apply zlen_0_nil; lia). apply skip_writes.
    - rewrite <- Htail. apply bytes_writes. by rewrite Htail. }
  destruct (writes_fresh _ _ (if file then 12 else u64 (tl + 8)) Hw) as (b & -> & Hb).
  { destruct file; [vm_compute; split; discriminate|]. destruct (Htl' eq_refl) as [_ ?]. unfold UINT32_MAX in *.
    rewrite u64_id by (unfold is_u64; lia). unfold SIZE_MAX. lia. }
  { rewrite Hbody. destruct file; [by rewrite zlen_encode_u32|]. destruct (Htl' eq_refl) as [-> ?]. unfold UINT32_MAX in *.
    rewrite u64_id by (unfold is_u64; lia). lia. }
  assert (Ef : mk_frame public_magic KSD_PROTOCOL_MAJOR KSD_PROTOCOL_MINOR 0 (if file then KSD_RELAY_CAPTURE_FD else 0)
    (u32 (buf_length b)) request_id (Some (buf_bytes b)) = answer_frame request_id r).
  { unfold buf_length. rewrite Hb, u32_id by exact Hpl. reflexivity. }
  rewrite Ef. unfold buf_length. rewrite Hb.
  destruct (writes_fresh _ _ (zlen body + KSD_FRAME_HEADER_SIZE + 16) (pack_writes _ Hwf)) as (p & -> & ->); [| |done].
  - change (zlen body) with (fr_payload_length (answer_frame request_id r)). unfold SIZE_MAX, KSD_FRAME_HEADER_SIZE. lia.
  - unfold frame_bytes. rewrite zlen_app, zlen_header by done. cbn [answer_frame fr_payload default from_option id].
    change (zlen (_ ++ _)) with (zlen body). lia.
Qed.

(** What the relay's caller is given for a result that was sent to it. *)
Definition relayed_result (r : ksd_operation_result) (fd : Z) : ksd_operation_result :=
  if res_status r =? KSD_STATUS_OK then
    if 0 <=? res_payload_fd r then mk_result KSD_STATUS_OK 0 [] None (res_tail_length r) fd
    else mk_result KSD_STATUS_OK 0 [] (if res_tail_length r =? 0 then None else res_tail r) (res_tail_length r) (-1)
  else mk_result (res_status r) (res_detail r) (match res_diagnostic r with [] => refusal_text | text => text end) None 0 (-1).

(** A file that holds the capture a result names. *)
Definition relayed_file (r : ksd_operation_result) (info : file_info) : Prop :=
  20 <= res_tail_length r <= KSD_MAX_CAPTURE_TAIL /\ fi_regular info = true /\ fi_size info = res_tail_length r /\
  0 <= fi_seals info /\ Z.land (fi_seals info) KSD_CAPTURE_SEALS = KSD_CAPTURE_SEALS.

(** The words of an encoded header. *)
Lemma header_words f :
  header_wf f ->
  let header := encode_frame_header f in
  ztake 4 header = fr_magic f /\ ksd_decode_u16 (zdrop KSD_FRAME_MAJOR_OFFSET header) = fr_major f /\
  ksd_decode_u16 (zdrop KSD_FRAME_MINOR_OFFSET header) = fr_minor f /\ ksd_decode_u16 (zdrop KSD_FRAME_OPCODE_OFFSET header) = fr_opcode f /\
  ksd_decode_u16 (zdrop KSD_FRAME_FLAGS_OFFSET header) = fr_flags f /\
  ksd_decode_u32 (zdrop KSD_FRAME_PAYLOAD_LENGTH_OFFSET header) = fr_payload_length f /\
  ksd_decode_u64 (zdrop KSD_FRAME_REQUEST_ID_OFFSET header) = fr_request_id f.
Proof.
  intros Hh header. pose proof (decode_encode_header f [] Hh) as E. rewrite app_nil_r in E. unfold decode_frame_header, with_payload in E.
  fold header in E. by injection E as <- <- <- <- <- <- <-.
Qed.

Lemma relay_header_frame f fd :
  frame_wf f -> fr_magic f = relay_magic -> fr_major f = KSD_PROTOCOL_MAJOR -> fr_minor f = KSD_PROTOCOL_MINOR ->
  relay_header (ztake KSD_FRAME_HEADER_SIZE (frame_bytes f)) fd =
    (let file := fr_flags f =? KSD_RELAY_CAPTURE_FD in
     guard* negb ((negb (fr_flags f =? 0) && negb file) || negb (Bool.eqb file (0 <=? fd)) || (fr_payload_length f <? 8)
       || (KSD_MAX_TEXT_BYTES + 8 <? fr_payload_length f) || (file && negb (fr_payload_length f =? 12))) in
     Some (fr_payload_length f, file)) /\
  zdrop KSD_FRAME_HEADER_SIZE (frame_bytes f) = default [] (fr_payload f) /\
  ksd_decode_u64 (zdrop KSD_FRAME_REQUEST_ID_OFFSET (ztake KSD_FRAME_HEADER_SIZE (frame_bytes f))) = fr_request_id f.
Proof.
  intros (Hh & _ & _) Hm Hmaj Hmin. unfold frame_bytes. rewrite <- (zlen_header f (proj1 Hh)), ztake_app_l, zdrop_app_l.
  destruct (header_words f Hh) as (Em & E1 & E2 & _ & E3 & E4 & E5). split; [|done].
  unfold relay_header. rewrite Em, E1, E2, E3, E4, Hm, Hmaj, Hmin. change (bytes_eqb relay_magic relay_magic) with true. rewrite !Z.eqb_refl.
  by cbn [negb orb].
Qed.

Lemma error_result_whole status detail text :
  ksd_utf8_valid text false = true -> zlen text < KSD_DIAGNOSTIC_CAPACITY ->
  error_result status detail text = mk_result status detail text None 0 (-1).
Proof.
  intros Hv Hl. unfold error_result, ksd_result_error. cbn [fst]. f_equal.
  pose proof (result_error_diagnostic ksd_result_init status detail text init_result_wf) as H. unfold ksd_result_error in H.
  destruct H as (_ & _ & _ & _ & _ & _ & _ & H). specialize (H Hv). by replace (zlen text <? KSD_DIAGNOSTIC_CAPACITY) with true in H by lia.
Qed.

(** The relay's answer for a frame it takes, and what its caller is given. *)
Lemma answer_taken {AL : Allocator} request_id r fd info :
  AllocTotal AL -> result_fits r -> is_u64 request_id ->
  let file := (res_status r =? KSD_STATUS_OK) && (0 <=? res_payload_fd r) in
  let body := default [] (fr_payload (answer_frame request_id r)) in
  (if file then 0 <= fd /\ relayed_file r info else fd = -1 /\ res_tail_length r <= KSD_MAX_TEXT_BYTES) ->
  forall header, ksd_decode_u64 (zdrop KSD_FRAME_REQUEST_ID_OFFSET header) = request_id ->
  exists a, relay_body header body file info = Some a /\ an_request_id a = request_id /\ reply_result a fd = relayed_result r fd.
Proof.
  intros HA ((_ & Hp1 & Hl & _ & Hbad & Hutf & Hd) & Hs & Hdet & Htl & Hnul) Hid file body Hf header Hh. unfold UINT32_MAX in Htl.
  assert (Hkept : forall n, alloc_ok n = true) by done.
  assert (Es : forall k, ksd_decode_u32 (ksd_encode_u32 (res_status r) ++ k) = res_status r) by (intros; etransitivity; [apply decode_encode_u32|by apply u32_id]).
  assert (Ed : forall k, ksd_decode_u32 (ksd_encode_u32 (res_detail r) ++ k) = res_detail r) by (intros; etransitivity; [apply decode_encode_u32|by apply u32_id]).
  unfold relay_body, body. cbn [answer_frame fr_payload default from_option id]. fold file.
  change (zdrop 4 (ksd_encode_u32 (res_status r) ++ ?k)) with k.
  change (zdrop 8 (ksd_encode_u32 (res_status r) ++ ksd_encode_u32 (res_detail r) ++ ?k)) with k.
  rewrite Es, Ed, Hh. destruct file eqn:Ef.
  - destruct Hf as (Hfd & H20 & Hreg & Hsize & Hseal & Hland). unfold file in Ef. apply andb_true_iff in Ef as [Ez Ep]. apply Z.eqb_eq in Ez.
    assert (Et : ksd_decode_u32 (ksd_encode_u32 (res_tail_length r)) = res_tail_length r)
      by (rewrite <- (app_nil_r (ksd_encode_u32 _)); etransitivity; [apply decode_encode_u32|apply u32_id; unfold is_u32; lia]).
    rewrite Et, Ez, Hreg, Hsize, Hland, !Z.eqb_refl. replace (res_tail_length r <? 20) with false by lia.
    replace (KSD_MAX_CAPTURE_TAIL <? res_tail_length r) with false by lia. replace (fi_seals info <? 0) with false by lia. cbn [andb orb negb].
    eexists. split; [done|]. split; [done|]. unfold reply_result, relayed_result. rewrite Ez, Ep. done.
  - destruct Hf as (-> & Hmax). cbn [andb negb]. eexists. split; [done|]. split; [done|]. unfold reply_result, relayed_result.
    cbn [an_tail_length an_file an_status an_tail an_detail]. rewrite Hkept, orb_true_r. cbn [negb].
    rewrite !zlen_app, !zlen_encode_u32. unfold file in Ef. destruct (Z.eqb_spec (res_status r) KSD_STATUS_OK) as [Ez|Ez]; cbn [andb] in Ef.
    + rewrite Ef. specialize (Hl ltac:(breflect; lia)). replace (4 + (4 + zlen _) - 8) with (res_tail_length r) by lia.
      destruct (Z.eqb_spec (res_tail_length r) 0); [done|]. destruct (res_tail r); [done|]. cbn in Hl. done.
    + rewrite orb_false_r. replace (4 + (4 + zlen (res_diagnostic r)) - 8) with (zlen (res_diagnostic r)) by lia.
      destruct (res_diagnostic r) as [|c d] eqn:Ec; [by rewrite error_result_whole|].
      replace (zlen (c :: d) =? 0) with false by (rewrite zlen_cons; pose proof (zlen_nonneg d); lia). rewrite until_nul_id by done.
      by apply error_result_whole.
Qed.

(** A worker that stays and the relay agree on the answers.  Whatever well-formed
    result a worker sends, its answer is a frame under the id of the request.  If it is a
    failure, or a success whose answer is no longer than the longest text, or a capture in
    a sealed file, then the authority takes it for the answer of that request, and what
    the caller is given is that result: its status and detail, its message, with a text
    for an empty one, its answer byte by byte, or its file under the number it has there.
    An answer that is longer is refused as malformed, which closes the channel; and the
    texts that a display's owner may make that long are those whose length, without the
    word that frames them, is still within the limit. *)
Theorem serve_answer_relayed {AL : Allocator} request_id r :
  AllocTotal AL -> result_fits r -> is_u64 request_id ->
  exists bytes, serve_answer request_id r = Some bytes /\
    (forall fd info,
      let file := (res_status r =? KSD_STATUS_OK) && (0 <=? res_payload_fd r) in
      (if file then 0 <= fd /\ relayed_file r info else fd = -1 /\ res_tail_length r <= KSD_MAX_TEXT_BYTES) ->
      exists a, relay_header (ztake KSD_FRAME_HEADER_SIZE bytes) fd = Some (zlen bytes - KSD_FRAME_HEADER_SIZE, file) /\
        relay_body (ztake KSD_FRAME_HEADER_SIZE bytes) (zdrop KSD_FRAME_HEADER_SIZE bytes) file info = Some a /\
        an_request_id a = request_id /\ reply_result a fd = relayed_result r fd) /\
    (res_status r = KSD_STATUS_OK -> res_payload_fd r = -1 -> KSD_MAX_TEXT_BYTES < res_tail_length r ->
      relay_header (ztake KSD_FRAME_HEADER_SIZE bytes) (-1) = None) /\
    (forall text failure, buffer_wf text -> KSD_MAX_TEXT_BYTES - 4 < buf_length text <= KSD_MAX_TEXT_BYTES ->
      r = snd (fst (ksd_result_take_framed_text text ksd_result_init failure (Some []))) ->
      relay_header (ztake KSD_FRAME_HEADER_SIZE bytes) (-1) = None).
Proof.
  intros HA Hr Hid. exists (frame_bytes (answer_frame request_id r)). split; [by apply serve_answer_bytes|].
  pose proof (answer_frame_wf request_id r Hr Hid) as Hwf.
  pose proof Hr as ((_ & Hp1 & Hl & _ & Hbad & Hutf & Hd) & Hs & Hdet & Htl & Hnul).
  assert (Hlong : res_status r = KSD_STATUS_OK -> res_payload_fd r = -1 -> KSD_MAX_TEXT_BYTES < res_tail_length r ->
    relay_header (ztake KSD_FRAME_HEADER_SIZE (frame_bytes (answer_frame request_id r))) (-1) = None).
  { intros Ez Ep Hlen. destruct (relay_header_frame (answer_frame request_id r) (-1) Hwf eq_refl eq_refl eq_refl) as (-> & _ & _).
    cbn [answer_frame fr_flags fr_payload_length]. rewrite Ez, Ep. change (KSD_STATUS_OK =? KSD_STATUS_OK) with true. change (0 <=? -1) with false.
    cbn [andb]. rewrite !zlen_app, !zlen_encode_u32, <- Hl by done. replace (KSD_MAX_TEXT_BYTES + 8 <? _) with true by lia. by rewrite !orb_true_r. }
  split; [|split; [exact Hlong|]].
  - intros fd info file Hf. destruct (relay_header_frame (answer_frame request_id r) fd Hwf eq_refl eq_refl eq_refl) as (-> & -> & Eid).
    destruct (answer_taken request_id r fd info HA Hr Hid Hf _ Eid) as (a & Ea & Hai & Hrep). exists a. split; [|done].
    unfold frame_bytes. rewrite zlen_app, zlen_header by done. cbn [answer_frame fr_flags fr_payload_length fr_payload default from_option id].
    fold file. destruct file eqn:Ef; cbn [Z.eqb negb andb orb KSD_RELAY_CAPTURE_FD Pos.eqb].
    + destruct Hf as [Hfd _]. replace (0 <=? fd) with true by lia. rewrite !zlen_app, !zlen_encode_u32. done.
    + destruct Hf as [-> Hmax]. change (0 <=? -1) with false. cbn [Bool.eqb negb andb orb].
      match goal with |- context [zlen ?b] => assert (Hb : 8 <= zlen b <= KSD_MAX_TEXT_BYTES + 8) end.
      { rewrite !zlen_app, !zlen_encode_u32. unfold file in Ef. assert (KSD_DIAGNOSTIC_CAPACITY <= KSD_MAX_TEXT_BYTES) by (vm_compute; discriminate).
        pose proof (zlen_nonneg (res_diagnostic r)). pose proof (zlen_nonneg (default [] (res_tail r))).
        destruct (res_status r =? KSD_STATUS_OK); [|lia]. cbn [andb] in Ef. rewrite <- Hl by (breflect; lia). rewrite <- Hl in * by (breflect; lia). lia. }
      replace (_ <? 8) with false by lia. replace (KSD_MAX_TEXT_BYTES + 8 <? _) with false by lia. cbn [orb negb]. repeat f_equal. lia.
  - intros text failure Ht Hlen Etext. pose proof (result_framed_text text ksd_result_init failure [] init_result_wf Ht) as H.
    destruct (ksd_result_take_framed_text _ _ _ _) as [[ok r'] closed]. cbn [fst snd] in Etext. subst r'. destruct H as (_ & Hok & Htot).
    rewrite (Htot HA) in Hok. replace (buf_length text <=? KSD_MAX_TEXT_BYTES) with true in Hok by lia. destruct Hok as (Ez & Etl & _).
    assert (res_payload_fd r = -1) as Ep by (destruct Hr as (([?|?] & _) & _); congruence).
    apply Hlong; [done|done|]. rewrite (Hl Ep), Etl. cbn [default from_option id]. rewrite zlen_app, zlen_encode_u32. unfold buf_length in *. lia.
Qed.

(** ** Serving *)

(** What a worker that stays may do: the display is opened once at a time and used only
    while it is open, and it is opened and watched only under the alarm, which is off
    when an answer goes out.  The state is whether the display is open and whether the
    alarm is set. *)
Definition serve_allowed (s : bool * bool) (event : serve_event) : option (bool * bool) :=
  let '(opened, armed) := s in
  match event with
  | AlarmSet seconds => Some (opened, 0 <? seconds)
  | DisplayOpened => guard* negb opened && armed in Some (true, armed)
  | DisplayClosed => guard* opened in Some (false, armed)
  | DisplayWatched _ => guard* opened && armed in Some (opened, armed)
  | AnswerSent _ _ => guard* negb armed in Some (opened, armed)
  | ResultClosed _ => Some (opened, armed)
  end.
Fixpoint serve_accepts (s : bool * bool) (events : list serve_event) : option (bool * bool) :=
  match events with
  | [] => Some s
  | event :: events => let* s := serve_allowed s event in serve_accepts s events
  end.

Lemma serve_accepts_app events1 events2 : forall s,
  serve_accepts s (events1 ++ events2) = (let* s := serve_accepts s events1 in serve_accepts s events2).
Proof. induction events1 as [|e events1 IH]; intros s; cbn [app serve_accepts]; [done|]. destruct (serve_allowed s e); [apply IH|done]. Qed.

Section serving.
Context {AL : Allocator} {X W : Type} (display : ksd_display_backend X W) (session_pid : Z).

Definition is_open (current : option (connection X W)) : bool := match current with Some _ => true | None => false end.

(** Opening succeeds exactly when there is a connection. *)
Definition opens : Prop := forall pid, fst (db_open display pid) = KSD_STATUS_OK <-> snd (db_open display pid) <> None.

(** The turns of one request each, to the end of the stream. *)
Fixpoint serve_all (served : list (serve_turn * ksd_frame)) (current : option (connection X W)) : option (bool * list serve_event) :=
  match served with
  | [] => Some (serve_end true current)
  | (turn, request) :: served =>
    let* (ended, current, events) := serve_request display session_pid turn request current in
    match ended with
    | Some ok => let '(ok, closing) := serve_end ok current in Some (ok, events ++ closing)
    | None => let* (ok, more) := serve_all served current in Some (ok, events ++ more)
    end
  end.

Lemma serve_request_accepted turn request current ended current' events :
  opens -> serve_request display session_pid turn request current = Some (ended, current', events) ->
  serve_accepts (is_open current, false) events = Some (is_open current', false).
Proof.
  intros Ho. unfold serve_request, serve_open.
  set (alarm := if is_capture (fr_opcode request) then 40 else 10).
  assert (Ha : 0 <? alarm = true) by (unfold alarm; by case_if).
  destruct current as [c|].
  - cbn [app]. destruct (is_display_watch _ _); [|unfold serve_execute; destruct (db_execute _ _ _ _) as [[[alive c'] result] closed]; destruct alive;
      destruct (send_answer _ _ _) as [[[sent out] fd]|]; try done];
    intros [= <- <- <-]; cbn [app serve_accepts serve_allowed is_open]; rewrite ?Ha; done.
  - specialize (Ho session_pid). destruct (db_open display session_pid) as [status opened]. cbn [fst snd] in Ho.
    destruct (Z.eqb_spec status KSD_STATUS_OK) as [Hs|Hs].
    + destruct opened as [c|]; [|by destruct (proj1 Ho Hs)].
      destruct (is_display_watch _ _); [|unfold serve_execute; destruct (db_execute _ _ _ _) as [[[alive c'] result] closed]; destruct alive;
        destruct (send_answer _ _ _) as [[[sent out] fd]|]; try done];
      intros [= <- <- <-]; cbn [app serve_accepts serve_allowed is_open]; rewrite ?Ha; done.
    + destruct opened as [c|]; [exfalso; by apply Hs, Ho|]. destruct (ksd_result_error _ _ _ _) as [result closed].
      unfold serve_execute. destruct (send_answer _ _ _) as [[[sent out] fd]|]; [|done].
      intros [= <- <- <-]; cbn [app serve_accepts serve_allowed is_open]; rewrite ?Ha; done.
Qed.

Lemma serve_end_accepted ok current :
  serve_accepts (is_open current, false) (snd (serve_end ok current)) = Some (false, false).
Proof. by destruct current. Qed.

Lemma serve_loop_accepted turns : forall stream current ok events,
  opens -> serve_loop display session_pid turns stream current = Some (ok, events) ->
  serve_accepts (is_open current, false) events = Some (false, false).
Proof.
  induction turns as [|turn turns IH]; intros stream current ok events Ho; cbn [serve_loop]; [done|].
  destruct (ksd_read_all (sv_header turn) _ _ _) as [[[header stream'] rest]|]; [|done].
  destruct header as [header|]; [|intros [= <- <-]; apply (serve_end_accepted true)].
  destruct (serve_header header) as [n|]; [|intros [= <- <-]; apply (serve_end_accepted true)].
  match goal with |- (let* _ := ?r in _) = _ -> _ => destruct r as [[body stream'']|]; [|done] end.
  destruct body as [body|]; [|intros [= <- <-]; apply (serve_end_accepted true)].
  destruct (serve_request _ _ _ _ _) as [[[ended current'] events']|] eqn:Er; [|done].
  apply serve_request_accepted in Er; [|done]. destruct ended as [ended|].
  - cbn [serve_end]. intros [= <- <-]. rewrite serve_accepts_app, Er. apply (serve_end_accepted ended).
  - destruct (serve_loop _ _ _ _ _) as [[ok' more]|] eqn:El; [|done]. intros [= <- <-]. rewrite serve_accepts_app, Er. by eapply IH.
Qed.

(** A request the authority's relay may send to a worker. *)
Definition servable (f : ksd_frame) : Prop :=
  frame_wf f /\ fr_magic f = public_magic /\ fr_major f = KSD_PROTOCOL_MAJOR /\ fr_minor f = KSD_PROTOCOL_MINOR /\
  fr_flags f = 0 /\ fr_request_id f <> 0 /\ fr_payload_length f <= KSD_CAPTURE_WORKER_MAX_REQUEST.

(** What of it is read. *)
Definition request_read (f : ksd_frame) : ksd_frame :=
  mk_frame [x00; x00; x00; x00] 0 0 (fr_opcode f) 0 (fr_payload_length f) (fr_request_id f) (fr_payload f).

(** The reads of a turn do not fail and go on until the request is there. *)
Definition turn_reads (turn : serve_turn) (f : ksd_frame) : Prop :=
  flowing (sv_header turn) /\ KSD_FRAME_HEADER_SIZE <= zlen (List.filter moves (sv_header turn)) /\
  flowing (sv_body turn) /\ fr_payload_length f <= zlen (List.filter moves (sv_body turn)).

Lemma serve_header_frame f :
  servable f -> serve_header (encode_frame_header f) = Some (fr_payload_length f) /\
  ksd_decode_u16 (zdrop KSD_FRAME_OPCODE_OFFSET (encode_frame_header f)) = fr_opcode f /\
  ksd_decode_u64 (zdrop KSD_FRAME_REQUEST_ID_OFFSET (encode_frame_header f)) = fr_request_id f.
Proof.
  intros ((Hh & _ & _) & Hm & Hmaj & Hmin & Hfl & Hid & Hlen).
  destruct (header_words f Hh) as (Em & E1 & E2 & E3 & E4 & E5 & E6). split; [|done]. unfold serve_header.
  rewrite Em, E1, E2, E4, E5, E6, Hm, Hmaj, Hmin, Hfl. change (bytes_eqb public_magic public_magic) with true. rewrite !Z.eqb_refl.
  replace (KSD_CAPTURE_WORKER_MAX_REQUEST <? fr_payload_length f) with false by lia. by replace (fr_request_id f =? 0) with false by lia.
Qed.

(** Every request on the stream is served, in order, and nothing else. *)
Lemma serve_loop_all served : AllocTotal AL -> forall last current,
  Forall (fun '(turn, f) => servable f /\ turn_reads turn f) served -> sv_header last = [PlainEnd] ->
  serve_loop display session_pid (map fst served ++ [last]) (concat (map (fun '(_, f) => frame_bytes f) served)) current =
  serve_all (map (fun '(turn, f) => (turn, request_read f)) served) current.
Proof.
  intros HA last current Hs Hlast. revert current. induction Hs as [|[turn f] served [Hf (Hh & Hhn & Hb & Hbn)] Hs IH]; intros current.
  - cbn [map app concat serve_loop serve_all]. rewrite Hlast. reflexivity.
  - cbn [map app concat serve_loop serve_all fst]. pose proof Hf as (Hwf & _). pose proof Hwf as (Hhw & Hpl & Hnone).
    pose proof (zlen_header f (proj1 Hhw)) as Hhl. unfold frame_bytes at 1. rewrite <- app_assoc.
    destruct (read_all_completes (sv_header turn) KSD_FRAME_HEADER_SIZE
      (encode_frame_header f ++ default [] (fr_payload f) ++ concat (map (fun '(_, f) => frame_bytes f) served)) [])
      as (calls & -> & _); [done|change (zlen (@nil byte)) with 0; rewrite zlen_app; pose proof (zlen_nonneg (default [] (fr_payload f) ++ concat (map (fun '(_, f) => frame_bytes f) served))); unfold KSD_FRAME_HEADER_SIZE in *; lia
        |change (zlen (@nil byte)) with 0; lia|].
    rewrite app_nil_l, <- Hhl, ztake_app_l, zdrop_app_l. destruct (serve_header_frame f Hf) as (-> & Eo & Ei).
    assert (Hreq : serve_frame (encode_frame_header f) (fr_payload f) (fr_payload_length f) = request_read f) by (unfold serve_frame; by rewrite Eo, Ei).
    destruct (Z.eqb_spec (fr_payload_length f) 0) as [E0|E0].
    + rewrite (frame_payload_none f Hwf E0) in *. cbn [default from_option app]. rewrite Hreq.
      destruct (serve_request _ _ _ _ _) as [[[[ended|] current'] events]|]; [done| |done]. by rewrite IH.
    + destruct (frame_payload_some f Hwf E0) as (p & Hp & Hpz). rewrite Hp in *. cbn [default from_option id]. replace (negb (alloc_ok _)) with false by by rewrite HA.
      destruct (read_all_completes (sv_body turn) (fr_payload_length f) (p ++ concat (map (fun '(_, f) => frame_bytes f) served)) [])
        as (calls' & -> & _); [done|change (zlen (@nil byte)) with 0; rewrite zlen_app; pose proof (zlen_nonneg (concat (map (fun '(_, f) => frame_bytes f) served))); pose proof (zlen_nonneg p); lia
          |change (zlen (@nil byte)) with 0; lia|].
      rewrite app_nil_l, <- Hpz, ztake_app_l, zdrop_app_l, Hpz, Hreq.
      destruct (serve_request _ _ _ _ _) as [[[[ended|] current'] events]|]; [done| |done]. by rewrite IH.
Qed.

(** The results of a request: what the display answers, or why it cannot be opened. *)
Definition result_of (request : ksd_frame) (result : ksd_operation_result) : Prop :=
  (exists c alive c' closed, db_execute display c request ksd_result_init = (alive, c', result, closed)) \/
  (result = fst (ksd_result_error ksd_result_init (fst (db_open display session_pid)) 0 (Some (db_open_error display)))).

Definition answers (event : serve_event) : bool := match event with AnswerSent _ _ => true | _ => false end.

(** A request that is not a watch is answered once, with its result, before the next. *)
Lemma serve_request_answered turn request current current' events :
  opens -> serve_request display session_pid turn request current = Some (None, current', events) ->
  exists result bytes fd, result_of request result /\ serve_answer (fr_request_id request) result = Some bytes /\
    List.filter answers events = [AnswerSent bytes fd] /\
    fd = (if (res_status result =? KSD_STATUS_OK) && (0 <=? res_payload_fd result) then Some (res_payload_fd result) else None).
Proof.
  intros Ho. assert (Hsend : forall result sent out fd, send_answer turn (fr_request_id request) result = Some (sent, out, fd) -> sent = true ->
    serve_answer (fr_request_id request) result = Some out /\
    fd = (if (res_status result =? KSD_STATUS_OK) && (0 <=? res_payload_fd result) then Some (res_payload_fd result) else None)).
  { intros result sent out fd. unfold send_answer. destruct (serve_answer _ _) as [bytes|]; [|by intros [= <- <- <-]].
    destruct (_ && _).
    - destruct (ksd_send_with_fd _ _ _ _ _) as [[ok o]|] eqn:E; [|done]. intros [= <- <- <-] ->. by apply send_with_fd_sent in E as [-> _].
    - destruct (ksd_write_all _ _ _) as [[ok o]|] eqn:E; [|done]. intros [= <- <- <-] ->.
      apply write_all_spec in E as (_ & _ & Hok). by rewrite (Hok eq_refl). }
  unfold serve_request, serve_open. destruct current as [c|].
  - cbn [app]. destruct (is_display_watch _ _); [done|]. unfold serve_execute.
    destruct (db_execute display c request ksd_result_init) as [[[alive c'] result] closed] eqn:Ex.
    destruct alive; (destruct (send_answer turn (fr_request_id request) result) as [[[[] out] fd]|] eqn:Es; [|done|done]); intros [= <- <-];
      destruct (Hsend _ _ _ _ Es eq_refl) as [Hb Hfd]; exists result, out, fd; (split; [left; by eauto|done]).
  - specialize (Ho session_pid). pose proof (eq_refl (db_open display session_pid)) as Eo.
    destruct (db_open display session_pid) as [status opened] eqn:Ed in Ho, Eo |- *. cbn [fst snd] in Ho.
    destruct (Z.eqb_spec status KSD_STATUS_OK) as [Hs|Hs].
    + destruct opened as [c|]; [|by destruct (proj1 Ho Hs)]. destruct (is_display_watch _ _); [done|]. unfold serve_execute.
      destruct (db_execute display c request ksd_result_init) as [[[alive c'] result] closed] eqn:Ex.
      destruct alive; (destruct (send_answer turn (fr_request_id request) result) as [[[[] out] fd]|] eqn:Es; [|done|done]); intros [= <- <-];
        destruct (Hsend _ _ _ _ Es eq_refl) as [Hb Hfd]; exists result, out, fd; (split; [left; by eauto|done]).
    + destruct opened as [c|]; [exfalso; by apply Hs, Ho|]. destruct (ksd_result_error _ _ _ _) as [result closed] eqn:Er.
      unfold serve_execute. destruct (send_answer turn (fr_request_id request) result) as [[[[] out] fd]|] eqn:Es; [|done|done]. intros [= <- <-].
      destruct (Hsend _ _ _ _ Es eq_refl) as [Hb Hfd]; exists result, out, fd. split; [right; rewrite Ed; cbn [fst]; by rewrite Er|done].
Qed.
End serving.

Section serve_persistently.
Context {AL : Allocator} {X W : Type} (lib : display_library X W).

(** The display libraries give a connection exactly when they succeed. *)
Definition library_opens : Prop :=
  (forall name authority, fst (x11_open lib name authority) = KSD_STATUS_OK <-> snd (x11_open lib name authority) <> None) /\
  (forall name, fst (wayland_open lib name) = KSD_STATUS_OK <-> snd (wayland_open lib name) <> None).

Lemma unavailable_none {A} : KSD_STATUS_UNAVAILABLE = KSD_STATUS_OK <-> @None A <> None.
Proof. split; [vm_compute; discriminate|done]. Qed.

Lemma display_backends_open environ calls backend display :
  library_opens -> display_backend lib environ calls backend = Some display ->
  opens display /\ db_backend display = backend /\ (backend = KSD_BACKEND_X11 \/ backend = KSD_BACKEND_GENERIC).
Proof.
  intros [Hx Hw] Hd. apply List.find_some in Hd as [Hin Hb]. apply Z.eqb_eq in Hb. split; [|split; [done|]].
  - intros pid. destruct Hin as [<-|[<-|[]]]; cbn [db_open].
    + unfold open_x11, ksd_x11_open_for_session. destruct (ksd_session_environ_values _ _ _ _ _) as [[|name [|authority [|? ?]]]|]; try (by apply unavailable_none).
      destruct (bytes_eqb _ _); [by apply unavailable_none|]. destruct (ksd_x11_display_parse _ _) as [canonical|]; [|by apply unavailable_none].
      specialize (Hx canonical (if peek authority =? 47 then Some authority else None)).
      destruct (x11_open lib _ _) as [s [c|]]; cbn in *; (split; [|try done; intros _; by apply Hx]); intros Hs; [done|]. by apply Hx in Hs.
    + unfold open_wayland, ksd_wayland_open_for_session. destruct (ksd_session_environ_value _ _ _ _ _) as [name|]; [|by apply unavailable_none].
      destruct (negb _); [by apply unavailable_none|]. specialize (Hw name). destruct (wayland_open lib name) as [s [c|]]; cbn [fst snd] in *.
      * rewrite (proj2 Hw) by done. by split.
      * destruct (s =? KSD_STATUS_OK); cbn; (split; [|done]); intros Hs; by apply Hw in Hs.
  - subst backend. destruct Hin as [<-|[<-|[]]]; cbn [db_backend]; auto.
Qed.
End serve_persistently.

(** What a worker that stays does.  On the display its bootstrap names, once it has
    read to the end of what the authority sends, it has kept to its rule: the display was
    opened only when a request came and at most one was open at a time, it was opened and
    watched only with the alarm set, no answer went out with the alarm still set, and at
    the end the display is closed and the alarm off.  When no read fails, every request
    sent is served, in the order they were sent, up to the first that ends the worker, and
    nothing else is; and a request that leaves the worker serving was answered, under its
    own id, by exactly one answer, with what the display gave or the reason it could not
    be opened, and with the file of the result, if it has one. *)
Theorem worker_serves_requests {AL : Allocator} {X W : Type} (lib : display_library X W) environ calls backend session_pid display :
  AllocTotal AL -> library_opens lib -> display_backend lib environ calls backend = Some display ->
  (forall turns stream ok events, serve_persistently lib environ calls backend session_pid turns stream = Some (ok, events) ->
    serve_accepts (false, false) events = Some (false, false)) /\
  (forall served last, Forall (fun '(turn, f) => servable f /\ turn_reads turn f) served -> sv_header last = [PlainEnd] ->
    serve_persistently lib environ calls backend session_pid (map fst served ++ [last]) (concat (map (fun '(_, f) => frame_bytes f) served)) =
    serve_all display session_pid (map (fun '(turn, f) => (turn, request_read f)) served) None) /\
  (forall turn request current current' events,
    serve_request display session_pid turn request current = Some (None, current', events) ->
    exists result bytes fd, result_of display session_pid request result /\ serve_answer (fr_request_id request) result = Some bytes /\
      List.filter answers events = [AnswerSent bytes fd] /\
      fd = (if (res_status result =? KSD_STATUS_OK) && (0 <=? res_payload_fd result) then Some (res_payload_fd result) else None)).
Proof.
  intros HA Ho Hd. destruct (display_backends_open lib environ calls backend display Ho Hd) as (Hopens & _). unfold serve_persistently. rewrite Hd.
  split; [|split].
  - intros turns stream ok events. by apply (serve_loop_accepted display session_pid turns stream None).
  - intros served last. by apply serve_loop_all.
  - intros turn request current current' events. by apply serve_request_answered.
Qed.

(** ** A worker's life *)

Section life.
Context {AL : Allocator} {X W : Type} (lib : display_library X W).
Variables (owner : Z) (environ : option (list byte)) (environ_calls : list plain_outcome).

(** What a worker knows before it does anything for its client: its authority is the
    owner, its bootstrap is one the authority makes and came with the pipe, and it is now
    the client's process for good. *)
Definition worker_ready (run : main_run) (h : worker_bootstrap) (groups : list Z) (frame : list byte) (pipe : Z * Z) (c : credentials) : Prop :=
  mr_peer run = Some owner /\ bootstrap_wf h groups frame /\ packet_fds (mr_packet run) = [fst pipe; snd pipe] /\
  mr_pipe_valid run pipe = true /\ prepare_worker_root (mr_root run) (wb_persistent h) = true /\
  drop_worker_privileges (mr_allowed run) (mr_orphan run) (wb_uid h) (wb_gid h) groups (mr_credentials run) = (true, c) /\
  wb_uid h <> 0 /\ is_user (wb_uid h) (wb_gid h) c.

(** KWin's process, when a capture is KWin's: the kernel trusts it, and it was named by a
    child that had given up its privileges too. *)
Definition kwin_known (run : main_run) (h : worker_bootstrap) (groups : list Z) (kwin : Z) : Prop :=
  if wb_backend h =? KSD_BACKEND_KWIN then
    mr_kwin_trusted run kwin = true /\
    exists c, drop_worker_privileges (mr_allowed run) (mr_orphan run) (wb_uid h) (wb_gid h) groups (mr_credentials run) = (true, c) /\
      is_user (wb_uid h) (wb_gid h) c /\ mr_kwin_owner run c = Some kwin
  else kwin = 0.

Lemma worker_kwin_known run h groups kwin :
  worker_kwin run (wb_uid h) (wb_gid h) groups = Some kwin -> mr_kwin_trusted run kwin = true /\
    exists c, drop_worker_privileges (mr_allowed run) (mr_orphan run) (wb_uid h) (wb_gid h) groups (mr_credentials run) = (true, c) /\
      is_user (wb_uid h) (wb_gid h) c /\ mr_kwin_owner run c = Some kwin.
Proof.
  unfold worker_kwin, resolve_trusted_kwin_pid, kwin_child. destruct (_ && _); [|done]. destruct (negb (mr_kwin_ready run)); [done|].
  destruct (drop_worker_privileges _ _ _ _ _ _) as [[] c] eqn:Ed; cbn [negb]; [|done].
  destruct (mr_kwin_owner run c) as [pid|] eqn:Eo; [|done]. destruct (mr_kwin_written run); [|done]. cbn [Z.eqb andb].
  destruct (mr_kwin_trusted run pid) eqn:Et; [|done]. intros [= <-]. split; [done|]. exists c. split; [done|]. split; [|done].
  by apply drop_worker_privileges_exact in Ed as (_ & _ & ? & _).
Qed.

Lemma main_failed_conserves run pipe spool :
  packet_fds (mr_packet run) = [fst pipe; snd pipe] -> Forall (fun fd => 0 <= fd) (packet_fds (mr_packet run)) ->
  main_failed pipe spool ≡ₚ packet_fds (mr_packet run) ++ close_fd spool.
Proof.
  intros E Hp. rewrite E in *. apply Forall_cons_1 in Hp as [? Hp]. apply Forall_cons_1 in Hp as [? _]. unfold main_failed, close_fd.
  replace (0 <=? fst pipe) with true by lia. by replace (0 <=? snd pipe) with true by lia.
Qed.

(** Whether a worker may look at what it is passed, and whether it comes to make the spool
    file: its bootstrap is one the authority makes, the root is prepared, and KWin's
    process is known when it is needed. *)
Definition worker_admitted (run : main_run) : bool :=
  mr_arguments run && mr_whole run && worker_peer_is_authority owner (mr_peer run) && mr_close_range run.
Definition spool_wanted (run : main_run) : bool :=
  match receive_bootstrap (mr_stream run) (mr_pipe_valid run) KSD_CAPTURE_WORKER_BOOTSTRAP_MAX (mr_packet run) (mr_reads run) (mr_rest run) with
  | Some (Some (b, _), _) =>
    match parse_bootstrap_header b with
    | Some h =>
      prepare_worker_root (mr_root run) (wb_persistent h)
      && (wb_persistent h || negb (wb_backend h =? KSD_BACKEND_KWIN)
          || bool_decide (worker_kwin run (wb_uid h) (wb_gid h) (bootstrap_groups b (wb_group_count h)) <> None))
    | None => false
    end
  | _ => false
  end.

(** C18: A worker's life.  Whatever its calls give, a worker that comes to an end has
    refused to work, served as long as it was asked to, or answered its one request.  One
    that refused reports a failure: 2 when it was started with arguments, else 1.  If it
    was started as anything but the child of an authority that owns the installation it
    has closed nothing; otherwise it has closed, each once, every descriptor that it was
    passed and, when it had come to making the spool file, that file.  One that worked knew before that its authority is the owner and
    that its bootstrap is one the authority makes, with the pipe, and was the client's
    process for good by then; a display was served by [serve_persistently] for the
    backend and the process the bootstrap names, and before that the pipe and the spool
    were closed; a single request is the one of the bootstrap, is one a display or a
    capture serves, is executed with KWin's process if the kernel trusts it and with
    none for other backends, and its answer is the worker's response.  A success is
    reported exactly when serving ended well or the response was sent. *)
Theorem worker_main_exact run status closed outcome :
  packet_rights (mr_packet run) ->
  ksd_capture_worker_main lib owner environ environ_calls run = Some (status, closed, outcome) ->
  match outcome with
  | WorkerRefused =>
    status = (if mr_arguments run then 1 else 2) /\
    closed ≡ₚ (if worker_admitted run then packet_fds (mr_packet run) ++ (if spool_wanted run then close_fd (mr_spool run) else []) else [])
  | WorkerServed events =>
    exists h groups pipe c ok, worker_ready run h groups [] pipe c /\ wb_persistent h = true /\
      serve_persistently lib environ environ_calls (wb_backend h) (wb_session_pid h) (mr_turns run) (mr_requests run) = Some (ok, events) /\
      (status = 0 <-> ok = true) /\ closed = packet_fds (mr_packet run) ++ [mr_spool run; KSD_CAPTURE_WORKER_FD]
  | WorkerAnswered result sent bytes file =>
    exists h groups frame request pipe c kwin closed' closed'', worker_ready run h groups frame pipe c /\ wb_persistent h = false /\
      ksd_frame_unpack bootstrap_rules frame = Some request /\ kwin_known run h groups kwin /\
      (let display := display_backend lib environ environ_calls (wb_backend h) in
       (match display with Some display => db_request_valid display request | None => false end) || ksd_local_capture_request_valid request = true /\
       serve_once run display (wb_session_pid h) request pipe (mr_spool run) kwin = Some (result, closed')) /\
      send_worker_response KSD_CAPTURE_WORKER_FD (mr_sends run) (mr_files run) result = Some (sent, bytes, file, closed'') /\
      (status = 0 <-> sent = true) /\ closed = closed' ++ closed'' ++ snd (ksd_result_clear result) ++ [KSD_CAPTURE_WORKER_FD]
  end.
Proof.
  intros Hr. unfold ksd_capture_worker_main, worker_admitted.
  destruct (mr_arguments run); cbn [negb andb]; [|by intros [= <- <- <-]].
  destruct (mr_whole run && worker_peer_is_authority owner (mr_peer run)) eqn:Ep; cbn [negb]; [|by intros [= <- <- <-]].
  apply andb_true_iff in Ep as [_ Ep]. assert (Hpeer : mr_peer run = Some owner).
  { destruct (mr_peer run) as [uid|]; [|done]. cbn in Ep. apply Z.eqb_eq in Ep. by subst uid. }
  destruct (mr_close_range run); cbn [negb andb]; [|by intros [= <- <- <-]]. set (wanted := spool_wanted run).
  pose proof (eq_refl wanted) as Hwanted. unfold wanted at 1, spool_wanted in Hwanted. clearbody wanted.
  destruct (receive_bootstrap _ _ _ _ _ _) as [[received closed1]|] eqn:Eb; [|done].
  pose proof (receive_bootstrap_conserves _ _ _ _ _ _ _ _ Hr Eb) as Hb. destruct received as [[b pipe]|].
  2:{ intros [= <- <- <-]. split; [done|]. subst wanted. by rewrite app_nil_r. }
  destruct Hb as (Hvalid & Hfds & ->). cbn [app].
  assert (Hopen : Forall (fun fd => 0 <= fd) (packet_fds (mr_packet run))).
  { destruct (mr_packet run); [constructor|constructor|]. by apply cmsgs_fds_open. }
  match goal with |- _ -> ?G => assert (Hrefuse : forall spool, close_fd spool = (if wanted then close_fd (mr_spool run) else []) ->
    Some (1, main_failed pipe spool, WorkerRefused) = Some (status, closed, outcome) -> G) end.
  { intros spool Hsp [= <- <- <-]. split; [done|]. rewrite <- Hsp. by apply main_failed_conserves. }
  destruct (parse_bootstrap_header b) as [h|] eqn:Eh; [|apply Hrefuse; by subst wanted].
  apply parse_bootstrap_exact in Eh as (groups & frame & Hwf & ->). destruct (bootstrap_words h groups frame Hwf) as (_ & Hgroups & Hframe & _).
  cbv zeta in Hframe.
  destruct (prepare_worker_root _ _) eqn:Eroot; [|apply Hrefuse; by subst wanted]. cbv zeta. rewrite Hgroups in *. cbn [andb] in Hwanted.
  match goal with |- context [if ?w && _ then _ else _] => set (wants := w) end.
  match goal with |- (if ?q then _ else _) = _ -> _ => destruct q eqn:Ek end.
  { apply Hrefuse. subst wanted. unfold wants in Ek. destruct (wb_persistent h); [done|]. destruct (wb_backend h =? KSD_BACKEND_KWIN); [|done].
    destruct (worker_kwin _ _ _ _); [done|]. by rewrite bool_decide_eq_false_2 by auto. }
  assert (wanted = true) as ->.
  { subst wanted. unfold wants in Ek. destruct (wb_persistent h); [done|]. destruct (wb_backend h =? KSD_BACKEND_KWIN); [|done].
    destruct (worker_kwin _ _ _ _); [|done]. by rewrite bool_decide_eq_true_2. }
  clear Hwanted. destruct (create_capture_spool _ _ _) as [spool closed2] eqn:Es.
  assert (Hs : spool = mr_spool run /\ 0 <= spool /\ closed2 = [] \/ spool = -1 /\ closed2 = close_fd (mr_spool run)).
  { unfold create_capture_spool in Es. destruct (Z.ltb_spec (mr_spool run) 0); cbn [orb] in Es; [injection Es as <- <-; by right|].
    destruct (_ || _); injection Es as <- <-; [by right|by left]. }
  destruct Hs as [(-> & Hs0 & ->)|[-> ->]].
  2:{ cbn [Z.ltb Z.compare app]. intros [= <- <- <-]. split; [done|].
      rewrite (main_failed_conserves run pipe (-1) Hfds Hopen). change (close_fd (-1)) with (@nil Z). rewrite app_nil_r. apply Permutation_app_comm. }
  replace (mr_spool run <? 0) with false by lia. cbn [app].
  destruct (drop_worker_privileges _ _ _ _ _ _) as [[] c] eqn:Ed; cbn [negb]; [|by apply Hrefuse].
  pose proof (drop_worker_privileges_exact _ _ _ _ _ _ _ Ed) as (Huid & _ & Huser & _).
  assert (Hready : forall frame', frame' = frame -> worker_ready run h groups frame' pipe c) by (intros ? ->; split; [done|]; by repeat (split; [done|])).
  destruct (wb_persistent h) eqn:Eper.
  - match goal with |- (if ?q then _ else _) = _ -> _ => destruct q end.
    { intros [= <- <- <-]. split; [done|]. rewrite Hfds. unfold close_fd.
      by replace (0 <=? mr_spool run) with true by lia. }
    destruct (serve_persistently _ _ _ _ _ _ _) as [[served events]|] eqn:Ev; [|done]. intros [= <- <- <-].
    exists h, groups, pipe, c, served. split; [apply Hready; pose proof Hwf as (_ & _ & _ & _ & _ & _ & Hp & _); by rewrite Eper in Hp|].
    split; [done|]. split; [done|]. split; [by destruct served|]. by rewrite Hfds.
  - destruct (bootstrap_request _ _) as [request|] eqn:Eq; [|by apply Hrefuse].
    match goal with |- (if ?q then _ else _) = _ -> _ => destruct q eqn:Eval; [by apply Hrefuse|] end.
    apply orb_false_elim in Eval as [_ Eval]. apply negb_false_iff in Eval.
    match goal with |- context [serve_once _ _ _ _ _ _ ?k] => set (kwin := k) end.
    destruct (serve_once _ _ _ _ _ _ _) as [[result closed']|] eqn:Eo; [|done].
    destruct (send_worker_response _ _ _ _) as [[[[written bytes] file] closed'']|] eqn:Ew; [|done]. intros [= <- <- <-].
    exists h, groups, frame, request, pipe, c, kwin, closed', closed''. split; [by apply Hready|]. split; [done|].
    split; [unfold bootstrap_request in Eq; rewrite Hframe in Eq; exact Eq|]. split; [|by destruct written].
    unfold kwin_known. unfold kwin. subst wants. cbn [negb andb] in *. destruct (wb_backend h =? KSD_BACKEND_KWIN); [|done]. cbn [andb] in Ek.
    destruct (worker_kwin run (wb_uid h) (wb_gid h) groups) as [pid|] eqn:Epid; [|done]. by apply worker_kwin_known.
Qed.
End life.

(** ** Workers *)

#[local] Existing Instance infinite_memory.
#[local] Instance infinite_total : AllocTotal infinite_memory := fun _ => eq_refl.

Definition root_credentials : credentials := mk_credentials 0 0 0 0 0 0 [0] true false true.

Lemma worker_privileges_dropped_witness :
  exists c', drop_worker_privileges (fun _ _ => true) false 1000 100 [100; 27] root_credentials = (true, c') /\ is_user 1000 100 c'.
Proof.
  destruct (proj2 worker_privileges_dropped 1000 100 [100; 27] root_credentials ltac:(discriminate) ltac:(discriminate)) as (c' & Hc).
  exists c'. split; [exact Hc|]. exact (proj1 (proj2 (proj2 (proj1 worker_privileges_dropped _ _ _ _ _ _ _ Hc)))).
Defined.

Definition sample_bootstrap : worker_bootstrap := mk_bootstrap 1000 100 3 0 42 KSD_BACKEND_X11 true.
Lemma sample_bootstrap_wf : bootstrap_wf sample_bootstrap sample_groups [].
Proof.
  unfold bootstrap_wf. cbn [wb_uid wb_gid wb_group_count wb_frame_length wb_persistent wb_session_pid wb_backend sample_bootstrap].
  split; [split; [discriminate|reflexivity]|]. split; [split; [discriminate|reflexivity]|].
  split; [repeat constructor; (discriminate || reflexivity)|]. do 2 (split; [vm_compute; (discriminate || reflexivity)|]).
  split; [reflexivity|]. split; [reflexivity|]. split; split; vm_compute; (discriminate || reflexivity).
Qed.

(** The message comes in three pieces, the first of 5 bytes. *)
Lemma bootstrap_received_witness :
  let b := bootstrap_bytes sample_bootstrap sample_groups [] in
  receive_bootstrap true (fun _ => true) KSD_CAPTURE_WORKER_BOOTSTRAP_MAX
    (MsgData (ztake 5 b) false [mk_cmsg SOL_SOCKET SCM_RIGHTS (CMSG_LEN0 + 8) [7; 8]]) (repeat (PlainBytes 30) 50) (zdrop 5 b ++ [x01])
  = Some (Some (b, (7, 8)), []).
Proof.
  assert (Hf : flowing (repeat (PlainBytes 30) 50))
    by (apply List.Forall_forall; intros call Hin; apply List.repeat_spec in Hin as ->; discriminate).
  exact (proj2 bootstrap_received sample_bootstrap sample_groups [] 5 [x01] (repeat (PlainBytes 30) 50) 7 8 (fun _ => true) sample_bootstrap_wf
    ltac:(vm_compute; split; discriminate || reflexivity) Hf ltac:(vm_compute; discriminate) ltac:(discriminate) ltac:(discriminate) eq_refl).
Defined.

Definition sample_failure : ksd_operation_result := mk_result KSD_STATUS_TIMEOUT 3 (cstr "slow") None 0 (-1).
Lemma sample_failure_fits : result_fits sample_failure.
Proof.
  split; [|split; [split; [discriminate|reflexivity]|split; [split; [discriminate|reflexivity]|split; [split; vm_compute; discriminate|]]]].
  - split; [by left|]. split; [done|]. split; [by vm_compute|]. split; [by intros []|]. split; [done|]. by split; vm_compute.
  - repeat constructor; discriminate.
Qed.

Lemma serve_answer_relayed_witness :
  exists bytes a, serve_answer 9 sample_failure = Some bytes /\
    relay_header (ztake KSD_FRAME_HEADER_SIZE bytes) (-1) = Some (12, false) /\
    relay_body (ztake KSD_FRAME_HEADER_SIZE bytes) (zdrop KSD_FRAME_HEADER_SIZE bytes) false (mk_info false 0 0) = Some a /\
    an_request_id a = 9 /\ reply_result a (-1) = sample_failure.
Proof.
  destruct (serve_answer_relayed 9 sample_failure ltac:(intros ?; reflexivity) sample_failure_fits ltac:(split; [discriminate|reflexivity])) as (bytes & Hb & Hok & _).
  destruct (Hok (-1) (mk_info false 0 0)) as (a & Ha). { split; [reflexivity|vm_compute; discriminate]. }
  exists bytes, a. split; [exact Hb|]. assert (E : zlen bytes - KSD_FRAME_HEADER_SIZE = 12) by (vm_compute in Hb; injection Hb as <-; reflexivity).
  rewrite E in Ha. exact Ha.
Defined.

(** Displays that cannot be opened. *)
Definition sample_library : display_library unit unit := {|
  x11_open _ _ := (KSD_STATUS_UNAVAILABLE, None); x11_run _ x result := (x, result, []); x11_failed _ := false;
  wayland_open _ := (KSD_STATUS_UNAVAILABLE, None); wayland_set_pid w _ := w; wayland_run _ w result := (w, result, []);
  wayland_failed _ := false; wayland_pid _ := 0; hypr_cursor _ := None |}.
Lemma sample_library_opens : library_opens sample_library.
Proof. split; intros; apply unavailable_none. Qed.

Definition sample_served : ksd_frame := mk_frame public_magic KSD_PROTOCOL_MAJOR KSD_PROTOCOL_MINOR KSD_OP_WINDOW_LIST 0 0 9 None.
Definition sample_turn : serve_turn := mk_serve (repeat (PlainBytes 1) 24) [] [] [PlainBytes 200] true.
Definition last_turn : serve_turn := mk_serve [PlainEnd] [] [] [] true.
Lemma sample_served_ok : Forall (fun '(turn, f) => servable f /\ turn_reads turn f) [(sample_turn, sample_served)].
Proof.
  apply List.Forall_cons; [split|apply List.Forall_nil].
  - split; [|split; [reflexivity|split; [reflexivity|split; [reflexivity|split; [reflexivity|split; vm_compute; discriminate]]]]].
    split; [|split; [reflexivity|by split]]. split; [reflexivity|]. repeat split; vm_compute; discriminate || reflexivity.
  - split; [apply List.Forall_forall; intros call Hin; apply List.repeat_spec in Hin as ->; discriminate|].
    split; [vm_compute; discriminate|]. split; [apply List.Forall_nil|vm_compute; discriminate].
Qed.

Lemma worker_serves_requests_witness :
  exists bytes, serve_persistently sample_library None [] KSD_BACKEND_X11 42 [sample_turn; last_turn] (frame_bytes sample_served) =
    Some (true, [AlarmSet 10; ResultClosed []; AlarmSet 0; AnswerSent bytes None; ResultClosed []]) /\
  serve_accepts (false, false) [AlarmSet 10; ResultClosed []; AlarmSet 0; AnswerSent bytes None; ResultClosed []] = Some (false, false).
Proof.
  destruct (display_backend sample_library None [] KSD_BACKEND_X11) as [display|] eqn:Ed; [|discriminate].
  destruct (worker_serves_requests sample_library None [] KSD_BACKEND_X11 42 display ltac:(intros ?; reflexivity) sample_library_opens Ed) as (H1 & H2 & _).
  specialize (H2 [(sample_turn, sample_served)] last_turn sample_served_ok eq_refl). cbn [map concat fst app] in H2. rewrite app_nil_r in H2.
  assert (E : exists bytes, serve_persistently sample_library None [] KSD_BACKEND_X11 42 [sample_turn; last_turn] (frame_bytes sample_served) =
    Some (true, [AlarmSet 10; ResultClosed []; AlarmSet 0; AnswerSent bytes None; ResultClosed []])) by (eexists; vm_compute; reflexivity).
  destruct E as [bytes E]. exists bytes. split; [exact E|]. exact (H1 _ _ _ _ E).
Defined.

(** A worker that stays and is asked once. *)
Definition sample_main : main_run := {|
  mr_arguments := true; mr_whole := true; mr_peer := Some 0; mr_close_range := true;
  mr_packet := MsgData (bootstrap_bytes sample_bootstrap sample_groups []) false [mk_cmsg SOL_SOCKET SCM_RIGHTS (CMSG_LEN0 + 8) [7; 8]];
  mr_stream := true; mr_reads := []; mr_rest := []; mr_pipe_valid _ := true; mr_root _ := true;
  mr_kwin_pipe := false; mr_kwin_forked := false; mr_kwin_ready := false; mr_kwin_owner _ := None; mr_kwin_written := false; mr_kwin_trusted _ := false;
  mr_spool := 9; mr_spool_set := true; mr_spool_valid := true;
  mr_credentials := root_credentials; mr_allowed _ _ := true; mr_orphan := false;
  mr_thread := true; mr_unlimited := true; mr_ready := true;
  mr_turns := [sample_turn; last_turn]; mr_requests := frame_bytes sample_served;
  mr_capture := sample_run; mr_sends := sample_responding; mr_files _ := no_file |}.

Lemma worker_main_exact_witness :
  exists events, ksd_capture_worker_main sample_library 0 None [] sample_main = Some (0, [7; 8; 9; KSD_CAPTURE_WORKER_FD], WorkerServed events) /\
  exists h groups pipe c, worker_ready 0 sample_main h groups [] pipe c.
Proof.
  assert (E : exists events, ksd_capture_worker_main sample_library 0 None [] sample_main = Some (0, [7; 8; 9; KSD_CAPTURE_WORKER_FD], WorkerServed events))
    by (eexists; vm_compute; reflexivity).
  destruct E as [events E]. exists events. split; [exact E|].
  assert (Hr : packet_rights (mr_packet sample_main)).
  { apply List.Forall_cons; [|apply List.Forall_nil]. split; [reflexivity|]. split; [reflexivity|]. split; [reflexivity|]. repeat constructor; discriminate. }
  destruct (worker_main_exact sample_library 0 None [] sample_main _ _ _ Hr E) as (h & groups & pipe & c & ok & H & _). exists h, groups, pipe, c. exact H.
Defined.
