(* ===== verification/SessionDaemon.v ===== *)
(** * A session daemon and its registration (src/session_backend.c, and the end of it in
    src/authorityd.c)

    A daemon of the session waits for a compositor, asks the authority to register the
    backend it found, and stays for as long as the session is the one it was started into.
    The authority checks who asks, stores what the daemon may serve, answers, and keeps the
    registration until the connection ends.  First the authority's end, then the daemon's;
    the environment, the session bus, the compositor and the outcomes of system calls are
    arguments. *)
From Stdlib Require Import ZArith Lia Strings.Byte Strings.String.
From stdpp Require Import base list option numbers tactics gmap.
From S2P Require Import Prelude.
From S2P Require Import Protocol.
From S2P Require Import Codec.
From S2P Require Import Transport.
From S2P Require Import Frame.
From S2P Require Import Operations.
From S2P Require Import KwinEnvelope.
From S2P Require Import Environ.
From S2P Require Import Lease.
From S2P Require Import Relay.
From S2P Require Import Registry.
From S2P Require Import Install.
Local Open Scope Z_scope.
Local Open Scope ksd_scope.

(** ** The authority's end *)

(** *** What kind of connection it is *)

(** One turn of the loop: what the kernel holds, [None] when it cannot be asked, whether
    the peek works, and the wait. *)
Record peek_turn := mk_peek { pk_available : option Z; pk_peeks : bool; pk_wait : list wait_step }.

(** [stream] is what the peer sends.  The first four bytes, [None] within on a failure. *)
Fixpoint peek_connection_magic (deadline : Z) (turns : list peek_turn) (stream : list byte) : option (option (list byte)) :=
  match turns with
  | [] => None
  | turn :: turns =>
    match pk_available turn with
    | None => Some None
    | Some available =>
      if 4 <=? available then Some (if pk_peeks turn then Some (ztake 4 stream) else None)
      else
        match ksd_wait_until POLLIN deadline (pk_wait turn) with
        | None => None
        | Some WaitOk => peek_connection_magic deadline turns stream
        | Some _ => Some None
        end
    end
  end.

(** *** Trust *)

(** [authority] and [peer] are what stat says of the two executables; [captured] is the
    peer's identity, and [resolved] and [wayland] what its environment says of its
    session. *)
Definition trusted_backend_peer (owner peer_uid peer_pid backend : Z) (authority peer : option file_status)
    (captured : option ksp_identity) (resolved : Z) (wayland : bool) : option ksp_identity :=
  guard* negb (peer_uid =? 0) && (0 <? peer_pid) && (KSD_BACKEND_KWIN <=? backend) && (backend <=? KSD_BACKEND_X11) in
  let* authority := authority in
  let* peer := peer in
  guard* is_regular authority && (st_uid authority =? owner) && (Z.land (st_mode authority) OTHERS_WRITE =? 0)
    && (st_dev authority =? st_dev peer) && (st_ino authority =? st_ino peer) in
  let* identity := captured in
  guard* (backend =? KSD_BACKEND_GENERIC)
    || ((resolved =? backend) && (negb (backend =? KSD_BACKEND_KWIN) || wayland)) in
  Some identity.

(** Reading from a pipe until a deadline: as [transfer_recv], whose end of file is a
    failure here. *)
Definition pipe_read_until (deadline length : Z) (turns : list io_turn) (stream : list byte) : option (option (list byte)) :=
  let* (got, _, _) := transfer_recv deadline length turns stream [] in
  Some (match got with TransferDone bytes => Some bytes | _ => None end).

(** The process a query names: [started] is whether the child was, [exited] its status
    once it was waited for. *)
Definition query_provider_pid (uid backend deadline : Z) (started : bool) (turns : list io_turn) (stream : list byte) (exited : option Z)
    : option Z :=
  if (negb (backend =? KSD_BACKEND_KWIN) && negb (backend =? KSD_BACKEND_GNOME) && negb (backend =? KSD_BACKEND_CINNAMON))
     || (uid =? 0) || negb started
  then Some (-1)
  else
    let* received := pipe_read_until deadline 8 turns stream in
    match received, exited with
    | Some encoded, Some 0 =>
      let value := ksd_decode_u64 encoded in
      Some (if (0 <? value) && (value <=? INT_MAX) then value else -1)
    | _, _ => Some (-1)
    end.

Definition expected_provider (backend : Z) : option (list byte) :=
  if backend =? KSD_BACKEND_KWIN then Some (cstr "kwin_wayland")
  else if backend =? KSD_BACKEND_GNOME then Some (cstr "gnome-shell")
  else if backend =? KSD_BACKEND_CINNAMON then Some (cstr "cinnamon") else None.

(** [executable] is the path of the identity's executable. *)
Definition trusted_provider_process (backend pid : Z) (executable : list byte) (status : option file_status) : bool :=
  match expected_provider backend, status with
  | Some expected, Some status =>
    negb ((pid <=? 0) || bytes_eqb executable [] || negb (is_regular status) || negb (st_uid status =? 0)
          || negb (Z.land (st_mode status) OTHERS_WRITE =? 0))
    && ksd_provider_executable_matches executable expected
  | _, _ => false
  end.

(** What the kernel says of a socket: whether it is one, its domain, its type, whether
    it listens, and the process and user at its other end. *)
Record socket_info := mk_socket { so_socket : bool; so_domain : option Z; so_type : option Z; so_accepting : option Z; so_peer : option (Z * Z) }.
Definition is_value (got : option Z) (value : Z) : bool := match got with Some v => v =? value | None => false end.
Definition provider_fd_valid (provider_fd : Z) (info : socket_info) (peer_pid peer_uid : Z) : bool :=
  negb (provider_fd <? 0) && so_socket info && is_value (so_domain info) AF_UNIX && is_value (so_type info) SOCK_STREAM
  && is_value (so_accepting info) 0
  && match so_peer info with Some (pid, uid) => (pid =? peer_pid) && (uid =? peer_uid) | None => false end.

(** *** A registration *)

(** What the calls for one registration give. *)
Record backend_run := mk_backend_run {
  br_now : Z; br_headers : list recv_turn;                        (** the clock and the message *)
  br_socket : Z -> socket_info;                                   (** the sockets *)
  br_authority : option file_status; br_peer : option file_status;
  br_captured : option ksp_identity; br_resolved : Z; br_wayland : bool;
  br_started : bool; br_pipe : list io_turn; br_named : list byte; br_exited : option Z;
  br_provider : Z -> option (ksp_identity * list byte); br_executable : list byte -> option file_status;
  br_fresh : option Z; br_ack : list io_turn;                     (** the relay, the answer *)
}.

Definition KSD_BACKEND_REGISTRATION_TIMEOUT_MS : Z := 5000.

(** The checks on the message and its descriptor: the backend and what it may serve. *)
Definition registration_fields (record : list byte) (provider_fd : Z) : option (Z * Z) :=
  guard* bytes_eqb (ztake 4 record) ksd_backend_registration_magic
    && (ksd_decode_u16 (zdrop 4 record) =? KSD_BACKEND_REGISTRATION_VERSION)
    && (ksd_decode_u32 (zdrop 12 record) =? 0) && (ksd_decode_u64 (zdrop 24 record) =? 0) in
  let backend := ksd_decode_u32 (zdrop 8 record) in
  let flags := ksd_decode_u16 (zdrop 6 record) in
  let* advertised := ksd_backend_registration_mask backend (ksd_decode_u16 (zdrop 4 record)) flags (ksd_decode_u64 (zdrop 16 record)) in
  guard* Bool.eqb (negb (Z.land flags KSD_BACKEND_FLAG_PROVIDER_FD =? 0)) (0 <=? provider_fd) in
  Some (backend, advertised).

Section registering.
(** The installation's owner and the peer. *)
Variables (owner peer_uid peer_pid : Z).

(** Who provides the backend, if one has to: [None] when it is not trusted. *)
Definition registration_provider (run : backend_run) (deadline backend : Z) : option (option (option ksp_identity)) :=
  if (backend =? KSD_BACKEND_KWIN) || (backend =? KSD_BACKEND_GNOME) || (backend =? KSD_BACKEND_CINNAMON) then
    let* pid := query_provider_pid peer_uid backend deadline (br_started run) (br_pipe run) (br_named run) (br_exited run) in
    Some (if pid <=? 0 then None
          else match br_provider run pid with
               | Some (identity, executable) =>
                 if trusted_provider_process backend (id_pid identity) executable (br_executable run executable)
                 then Some (Some identity) else None
               | None => None
               end)
  else Some (Some None).

(** A registration up to its answer: whether it is registered, and then as which backend
    and to serve what, the registry and the descriptors closed.  [None] while the calls
    have not come to an end. *)
Definition admit_registration (run : backend_run) (state : registry) (descriptor : Z) : option (option (Z * Z) * registry * list Z) :=
  let deadline := br_now run + KSD_BACKEND_REGISTRATION_TIMEOUT_MS in
  let* received := ksd_receive_fd_until KSD_BACKEND_REGISTRATION_SIZE deadline (br_headers run) in
  match rcv_result received with
  | None => Some (None, state, rcv_closed received)
  | Some (record, provider_fd) =>
    let refused := Some (None, state, rcv_closed received ++ close_descriptor provider_fd) in
    match (let* (backend, advertised) := registration_fields record provider_fd in
           guard* (provider_fd <? 0) || provider_fd_valid provider_fd (br_socket run provider_fd) peer_pid peer_uid in
           let* identity := trusted_backend_peer owner peer_uid peer_pid backend (br_authority run) (br_peer run) (br_captured run)
             (br_resolved run) (br_wayland run) in
           Some (backend, advertised, identity)) with
    | None => refused
    | Some (backend, advertised, identity) =>
      let* provider := registration_provider run deadline backend in
      match provider with
      | None => refused
      | Some provider =>
        let '(registered, state') := register_backend state descriptor peer_uid backend identity provider advertised provider_fd (br_fresh run) in
        if (registered : bool) then Some (Some (backend, advertised), state', rcv_closed received) else refused
      end
    end
  end.

(** One turn of the watch: what poll says, and which backend is registered by then. *)
Record watch_turn := mk_watch { wt_poll : poll_outcome; wt_registered : Z }.
Definition watch_events : Z := Z.lor POLLIN (Z.lor POLLRDHUP (Z.lor POLLHUP (Z.lor POLLERR POLLNVAL))).
(** The watch ends; [None] while it has not. *)
Fixpoint watch_registration (backend : Z) (turns : list watch_turn) : option unit :=
  match turns with
  | [] => None
  | turn :: turns =>
    match wt_poll turn with
    | PollIntr => watch_registration backend turns
    | PollFailed => Some tt
    | PollTimedOut => if negb (wt_registered turn =? backend) then Some tt else watch_registration backend turns
    | PollReady revents =>
      if negb (wt_registered turn =? backend) || negb (Z.land revents watch_events =? 0) then Some tt
      else watch_registration backend turns
    end
  end.

Definition send_backend_ack (deadline status backend accepted : Z) (turns : list io_turn) : option (bool * list byte) :=
  let* (ok, sent, _) := transfer_send deadline turns (ksd_backend_ack_encode status backend accepted) [] in Some (ok, sent).

(** A connection of a daemon from its message to its end: the registry, what was sent,
    and the descriptors closed.  [others] is what the other threads make of the registry
    until the watch ends. *)
Definition handle_backend_connection (run : backend_run) (turns : list watch_turn) (others : registry -> registry)
    (state : registry) (descriptor : Z) : option (registry * list byte * list Z) :=
  if br_now run =? 0 then Some (state, [], [])
  else
    let deadline := br_now run + KSD_BACKEND_REGISTRATION_TIMEOUT_MS in
    let* (admitted, state, closed) := admit_registration run state descriptor in
    match admitted with
    | None =>
      let* (_, sent) := send_backend_ack deadline KSD_BACKEND_ACK_REJECTED KSD_BACKEND_NONE 0 (br_ack run) in
      Some (state, sent, closed)
    | Some (backend, advertised) =>
      let* (ok, sent) := send_backend_ack deadline KSD_BACKEND_ACK_ACCEPTED backend advertised (br_ack run) in
      if negb ok then
        let '(state, closed') := unregister_backend state peer_uid descriptor in Some (state, sent, closed ++ closed')
      else
        let* _ := watch_registration backend turns in
        let '(state, closed') := unregister_backend (others state) peer_uid descriptor in
        Some (state, sent, closed ++ closed')
    end.
End registering.

(** ** The daemon's end *)

(** *** What it can serve *)

Record ksd_wayland_features := mk_features {
  data_control : bool; toplevel_list : bool; toplevel_control : bool; toplevel_active : bool; toplevel_focus : bool;
  toplevel_close : bool; toplevel_state : bool; toplevel_geometry : bool; toplevel_kill : bool; toplevel_opacity : bool;
  toplevel_above : bool; toplevel_events : bool; display_list : bool; work_area : bool; screencopy : bool;
  toplevel_capture : bool; absolute_pointer : bool; cursor_position : bool; keyboard_keymap : bool;
}.

(** [features] is what the compositor has, [None] when it cannot be reached; [portal],
    whether the portal captures the desktop. *)
Definition probe_generic_operations (features : option ksd_wayland_features) (portal : bool) : Z :=
  match features with
  | None => 0
  | Some features =>
    let when (feature : ksd_wayland_features -> bool) (operations : list Z) := if feature features then operations else [] in
    flags
      (when data_control [KSD_OPERATION_CLIPBOARD_MIMETYPES; KSD_OPERATION_CLIPBOARD_CONTENT; KSD_OPERATION_CLIPBOARD_TEXT]
       ++ when toplevel_list [KSD_OPERATION_WINDOW_LIST; KSD_OPERATION_WINDOW_HANDLES; KSD_OPERATION_WINDOW_QUERY]
       ++ when toplevel_active [KSD_OPERATION_WINDOW_ACTIVE] ++ when toplevel_focus [KSD_OPERATION_WINDOW_FOCUS]
       ++ when toplevel_close [KSD_OPERATION_WINDOW_CLOSE] ++ when toplevel_state [KSD_OPERATION_WINDOW_SET_STATE]
       ++ when toplevel_geometry [KSD_OPERATION_WINDOW_MOVE_RESIZE; KSD_OPERATION_WINDOW_RAISE; KSD_OPERATION_WINDOW_LOWER;
                                  KSD_OPERATION_WINDOW_AT_POINT]
       ++ when toplevel_kill [KSD_OPERATION_WINDOW_KILL] ++ when toplevel_opacity [KSD_OPERATION_WINDOW_SET_OPACITY]
       ++ when toplevel_above [KSD_OPERATION_WINDOW_SET_ABOVE] ++ when toplevel_events [KSD_OPERATION_WINDOW_WATCH]
       ++ when display_list [KSD_OPERATION_DISPLAY_LIST] ++ when work_area [KSD_OPERATION_WORK_AREA]
       ++ when screencopy [KSD_OPERATION_CAPTURE_AREA] ++ when toplevel_capture [KSD_OPERATION_CAPTURE_WINDOW]
       ++ (if portal then [KSD_OPERATION_CAPTURE_DESKTOP] else [])
       ++ when absolute_pointer [KSD_OPERATION_MOUSE_MOVE_ABSOLUTE] ++ when cursor_position [KSD_OPERATION_CURSOR_POSITION]
       ++ when keyboard_keymap [KSD_OPERATION_KEYBOARD_STATE])
  end.

Definition probe_keyboard_keymap (features : option ksd_wayland_features) : bool :=
  match features with Some features => keyboard_keymap features | None => false end.

Definition requested_operations (backend : Z) (features : option ksd_wayland_features) (portal : bool) : Z :=
  let requested := if backend =? KSD_BACKEND_GENERIC then probe_generic_operations features portal else ksd_backend_operations backend in
  if negb (backend =? KSD_BACKEND_GENERIC) && negb (backend =? KSD_BACKEND_X11) && negb (probe_keyboard_keymap features)
  then Z.ldiff requested KSD_OPERATION_KEYBOARD_STATE else requested.

(** *** The run of the script *)

Definition hex_digits : list byte := cstr "0123456789abcdef".
(** The digits of the bytes read. *)
Definition generation_text (bytes : list byte) : list byte :=
  concat (map (fun b => [nth (Z.to_nat (Z.shiftr (b2z b) 4)) hex_digits x00; nth (Z.to_nat (Z.land (b2z b) 15)) hex_digits x00]) bytes).
(** [source] is what the random source gives, [None] when it cannot be opened. *)
Definition issue_generation (source : option (list byte)) (calls : list plain_outcome) : option (option (list byte)) :=
  match source with
  | None => Some None
  | Some stream =>
    let* (bytes, _, _) := ksd_read_all calls (KSD_KWIN_GENERATION_HEX / 2) stream [] in
    Some (match bytes with Some bytes => Some (generation_text bytes) | None => None end)
  end.

(** *** The session it was started into *)

Definition session_identity : list (list byte) :=
  [cstr "WAYLAND_DISPLAY"; cstr "DISPLAY"; cstr "XAUTHORITY"; cstr "HYPRLAND_INSTANCE_SIGNATURE"; cstr "XDG_CURRENT_DESKTOP";
   cstr "XDG_SESSION_TYPE"; cstr "XDG_STATE_HOME"].

Definition identity_value (env : process_environment) (name : list byte) : option (list byte) :=
  let* value := env name in guard* negb (bytes_eqb value []) in Some value.

(** [copies] is which values there is memory to keep. *)
Definition keep_exec_identity (copies : list byte -> bool) (env : process_environment) : list (option (list byte)) :=
  map (fun name => let* value := identity_value env name in guard* copies value in Some value) session_identity.

Definition exec_environment_current (exec_identity : list (option (list byte))) (env : process_environment) : bool :=
  forallb (fun '(own, name) =>
             match own, identity_value env name with
             | None, None => true
             | Some own, Some live => bytes_eqb own live
             | _, _ => false
             end) (zip exec_identity session_identity).

(** What the user manager and the session bus answer at one time: the manager's
    environment, the assignments there is memory for, the names that have an owner, and,
    when the build enables the extension by itself, those that have one afterwards. *)
Record session_turn := mk_session_turn {
  sr_block : option (list (list byte)); sr_setenv : list byte -> bool; sr_owners : list byte -> bool;
  sr_enabled : option (list byte -> bool);
}.

Definition ksd_backend_refresh_session_environment (turn : session_turn) (env : process_environment) : bool * process_environment :=
  match sr_block turn with
  | Some block => ksd_backend_apply_session_environment (sr_setenv turn) block env
  | None => (false, env)
  end.

Definition resolve (env : process_environment) (owners : list byte -> bool) : Z := ksd_backend_resolve (read_own_session_facts env) owners.
(** The owners once the extension was enabled, if the build does that. *)
Definition owners_enabled (turn : session_turn) : list byte -> bool := default (sr_owners turn) (sr_enabled turn).

Definition backend_is_current (exec_identity : list (option (list byte))) (backend : Z) (turn : session_turn) (env : process_environment)
    : bool * process_environment :=
  let '(_, env) := ksd_backend_refresh_session_environment turn env in
  if negb (exec_environment_current exec_identity env) then (false, env)
  else
    let current := resolve env (owners_enabled turn) in
    (if backend =? KSD_BACKEND_GENERIC then current =? KSD_BACKEND_NONE else current =? backend, env).

(** *** Registering *)

Definition registration_message (backend requested provider_fd : Z) : list byte :=
  let message := repeat x00 (Z.to_nat KSD_BACKEND_REGISTRATION_SIZE) in
  let message := store 0 ksd_backend_registration_magic message in
  let message := store 4 (ksd_encode_u16 KSD_BACKEND_REGISTRATION_VERSION) message in
  let message := store 6 (ksd_encode_u16 (if 0 <=? provider_fd then KSD_BACKEND_FLAG_PROVIDER_FD else 0)) message in
  let message := store 8 (ksd_encode_u32 backend) message in
  store 16 (ksd_encode_u64 requested) message.

(** The sends and the reads of the registration, and what the authority answers. *)
Record register_run := mk_register {
  rr_features : option ksd_wayland_features; rr_portal : bool;
  rr_sends : list (option Z); rr_plain : list plain_outcome; rr_transfer : list io_turn; rr_reply : list io_turn; rr_stream : list byte;
}.

(** The operations accepted, [None] within when the registration failed, and what was
    sent. *)
Definition register_backend (descriptor backend deadline provider_fd : Z) (run : register_run) : option (option Z * list byte) :=
  let requested := requested_operations backend (rr_features run) (rr_portal run) in
  let message := registration_message backend requested provider_fd in
  let* (ok, sent) :=
    (if 0 <=? provider_fd then ksd_send_with_fd descriptor (rr_sends run) (rr_plain run) message provider_fd
     else let* (ok, sent, _) := transfer_send deadline (rr_transfer run) message [] in Some (ok, sent)) in
  if negb ok then Some (None, sent)
  else
    let* (got, _, _) := transfer_recv deadline KSD_BACKEND_REGISTRATION_SIZE (rr_reply run) (rr_stream run) [] in
    Some (match got with TransferDone reply => ksd_backend_ack_parse reply backend requested | _ => None end, sent).

(** *** Its life *)

Definition KSD_BACKEND_STARTUP_ATTEMPTS : Z := 24.

(** Waiting for a graphical session: whether its environment was imported. *)
Fixpoint wait_session (turns : list session_turn) (env : process_environment) : option (bool * process_environment * list session_turn) :=
  match turns with
  | [] => None
  | turn :: turns =>
    let '(imported, env) := ksd_backend_refresh_session_environment turn env in
    if imported then Some (true, env, turns)
    else if negb (resolve env (sr_owners turn) =? KSD_BACKEND_NONE) then Some (false, env, turns)
    else
      match sr_enabled turn with
      | Some owners => if negb (resolve env owners =? KSD_BACKEND_NONE) then Some (false, env, turns) else wait_session turns env
      | None => wait_session turns env
      end
  end.

(** Waiting for a provider: the backend, [None] within when the session is another. *)
Fixpoint choose_backend (exec_identity : list (option (list byte))) (turns : list session_turn) (attempts : Z) (env : process_environment)
    : option (option Z * process_environment) :=
  match turns with
  | [] => None
  | turn :: turns =>
    if negb (exec_environment_current exec_identity env) then Some (None, env)
    else
      let backend := resolve env (owners_enabled turn) in
      if negb (backend =? KSD_BACKEND_NONE) then Some (Some backend, env)
      else if ksd_backend_session_unsupported (read_own_session_facts env) || (KSD_BACKEND_STARTUP_ATTEMPTS <=? attempts)
      then Some (Some KSD_BACKEND_GENERIC, env)
      else choose_backend exec_identity turns (attempts + 1) (snd (ksd_backend_refresh_session_environment turn env))
  end.

(** Watching the authority's socket and the session. *)
Fixpoint watch_session (exec_identity : list (option (list byte))) (backend : Z) (turns : list (poll_outcome * session_turn))
    (env : process_environment) : option unit :=
  match turns with
  | [] => None
  | (polled, turn) :: turns =>
    match polled with
    | PollIntr => watch_session exec_identity backend turns env
    | PollFailed => Some tt
    | PollTimedOut =>
      let '(current, env) := backend_is_current exec_identity backend turn env in
      if (current : bool) then watch_session exec_identity backend turns env else Some tt
    | PollReady revents => if negb (Z.land revents watch_events =? 0) then Some tt else watch_session exec_identity backend turns env
    end
  end.

(** What the calls of a daemon give. *)
Record daemon_run := mk_daemon {
  dm_arguments : bool; dm_uid : Z; dm_euid : Z; dm_gid : Z; dm_egid : Z;
  dm_copies : list byte -> bool; dm_env : process_environment;
  dm_first : session_turn; dm_waits : list session_turn; dm_chooses : list session_turn;
  dm_now : Z; dm_pair : option (Z * Z);                          (** the clock and the socket pair *)
  dm_lstat : list byte -> option file_status; dm_owner : Z; dm_user_path : option (list byte);
  dm_system : connection_run; dm_user : connection_run;          (** connecting *)
  dm_register : register_run;
  dm_random : option (list byte); dm_reads : list plain_outcome; dm_bus : bool;
  dm_watch : list (poll_outcome * session_turn);
}.

(** How a daemon ends. *)
Inductive daemon_end :=
| DaemonUsage
| DaemonElevated
| DaemonImported
| DaemonChanged
| DaemonUnconnected (backend : Z)
| DaemonRejected (backend : Z)
| DaemonServed (backend accepted : Z) (generation : option (list byte)).

(** The exit status, the descriptors closed, and how it ended. *)
Definition ksd_daemon_main (run : daemon_run) : option (Z * list Z * daemon_end) :=
  if negb (dm_arguments run) then Some (2, [], DaemonUsage)
  else if (dm_uid run =? 0) || negb (dm_uid run =? dm_euid run) || negb (dm_gid run =? dm_egid run) then Some (1, [], DaemonElevated)
  else
    let exec_identity := keep_exec_identity (dm_copies run) (dm_env run) in
    let '(_, env) := ksd_backend_refresh_session_environment (dm_first run) (dm_env run) in
    let* (imported, env) :=
      match exec_identity with
      | None :: None :: _ => let* (imported, env, _) := wait_session (dm_waits run) env in Some (imported, env)
      | _ => Some (false, env)
      end in
    if (imported : bool) then Some (1, [], DaemonImported)
    else
      let* (chosen, env) := choose_backend exec_identity (dm_chooses run) 0 env in
      match chosen with
      | None => Some (1, [], DaemonChanged)
      | Some backend =>
        let pair := if backend =? KSD_BACKEND_KWIN then default (-1, -1) (dm_pair run) else (-1, -1) in
        let '(descriptor, closed) :=
          if dm_now run =? 0 then (-1, [])
          else connect_backend (dm_lstat run) (dm_euid run) (dm_uid run) (dm_owner run) (dm_user_path run) (dm_system run) (dm_user run) in
        if descriptor <? 0 then Some (1, close_descriptor (fst pair) ++ close_descriptor (snd pair) ++ closed, DaemonUnconnected backend)
        else
          let* (accepted, _) :=
            register_backend descriptor backend (dm_now run + KSD_BACKEND_REGISTRATION_TIMEOUT_MS) (snd pair) (dm_register run) in
          match accepted with
          | None =>
            Some (1, closed ++ close_descriptor (fst pair) ++ close_descriptor (snd pair) ++ [descriptor], DaemonRejected backend)
          | Some accepted =>
            let* generation := (if backend =? KSD_BACKEND_KWIN then issue_generation (dm_random run) (dm_reads run) else Some None) in
            let generation := if dm_bus run then generation else None in
            let* _ := (match generation with Some _ => Some tt | None => watch_session exec_identity backend (dm_watch run) env end) in
            Some (1, closed ++ close_descriptor (snd pair) ++ [descriptor], DaemonServed backend accepted generation)
          end
      end.

(** ** The two ends agree *)

Lemma zland_lor_sub a b c : Z.land a c = a -> Z.land b c = b -> Z.land (Z.lor a b) c = Z.lor a b.
Proof. intros Ha Hb. by rewrite Z.land_lor_distr_l, Ha, Hb. Qed.

Lemma flags_sub c l : Forall (fun o => Z.land o c = o) l -> Z.land (flags l) c = flags l.
Proof.
  unfold flags. assert (H0 : Z.land 0 c = 0) by apply Z.land_0_l. revert H0. generalize 0. induction l as [|o l IH]; intros z Hz Hl; [done|].
  apply Forall_cons_1 in Hl as [Ho Hl]. cbn [fold_left]. apply IH; [by apply zland_lor_sub|done].
Qed.

Lemma ldiff_sub a b c : Z.land a c = a -> Z.land (Z.ldiff a b) c = Z.ldiff a b.
Proof. intros H. apply Z.bits_inj'. intros n Hn. apply (f_equal (fun z => Z.testbit z n)) in H. rewrite !Z.land_spec, !Z.ldiff_spec in *.
  destruct (Z.testbit a n), (Z.testbit b n), (Z.testbit c n); cbn in *; congruence. Qed.

(** A daemon asks for nothing its backend cannot serve. *)
Lemma requested_within backend features portal :
  Z.land (requested_operations backend features portal) (ksd_backend_operations backend) = requested_operations backend features portal.
Proof.
  unfold requested_operations.
  assert (H : Z.land (if backend =? KSD_BACKEND_GENERIC then probe_generic_operations features portal else ksd_backend_operations backend)
    (ksd_backend_operations backend) = (if backend =? KSD_BACKEND_GENERIC then probe_generic_operations features portal else ksd_backend_operations backend)).
  { destruct (Z.eqb_spec backend KSD_BACKEND_GENERIC) as [->|]; [|apply Z.land_diag]. unfold probe_generic_operations.
    destruct features as [f|]; [|done]. apply flags_sub. cbv zeta. repeat (apply Forall_app; split).
    all: match goal with |- Forall _ (if ?c then _ else _) => destruct c end; repeat constructor; vm_compute; reflexivity. }
  destruct (negb _ && _ && _); [by apply ldiff_sub|exact H].
Qed.

Lemma requested_u64 backend features portal : is_u64 (requested_operations backend features portal).
Proof.
  rewrite <- (requested_within backend features portal). destruct (backend_operations_known backend) as [_ Hu].
  rewrite Z.land_comm. pose proof (land_subset_l (ksd_backend_operations backend) (requested_operations backend features portal) ltac:(apply Hu)).
  unfold is_u64 in *. lia.
Qed.

Lemma registration_message_fields backend requested provider_fd :
  is_u32 backend -> is_u64 requested ->
  let message := registration_message backend requested provider_fd in
  ztake 4 message = ksd_backend_registration_magic /\ ksd_decode_u16 (zdrop 4 message) = KSD_BACKEND_REGISTRATION_VERSION /\
  ksd_decode_u16 (zdrop 6 message) = (if 0 <=? provider_fd then KSD_BACKEND_FLAG_PROVIDER_FD else 0) /\
  ksd_decode_u32 (zdrop 8 message) = backend /\ ksd_decode_u32 (zdrop 12 message) = 0 /\ ksd_decode_u64 (zdrop 24 message) = 0 /\
  ksd_decode_u64 (zdrop 16 message) = requested /\ zlen message = KSD_BACKEND_REGISTRATION_SIZE.
Proof.
  intros Hb Hr. unfold registration_message. destruct (0 <=? provider_fd).
  all: repeat split; try reflexivity.
  all: first [etransitivity; [exact (decode_encode_u32 backend _)|by apply u32_id]|etransitivity; [exact (decode_encode_u64 requested _)|by apply u64_id]].
Qed.

Lemma registration_fields_message backend features portal provider_fd fd :
  is_u32 backend -> (0 <= provider_fd <-> 0 <= fd) -> (0 <= provider_fd -> backend = KSD_BACKEND_KWIN) ->
  registration_fields (registration_message backend (requested_operations backend features portal) provider_fd) fd =
  Some (backend, requested_operations backend features portal).
Proof.
  intros Hb Hfd Hkwin. pose proof (requested_u64 backend features portal) as Hr. unfold registration_fields.
  destruct (registration_message_fields backend (requested_operations backend features portal) provider_fd Hb Hr) as (-> & -> & -> & -> & -> & -> & -> & _).
  change (bytes_eqb ksd_backend_registration_magic ksd_backend_registration_magic) with true. cbn [Z.eqb andb KSD_BACKEND_REGISTRATION_VERSION Pos.eqb].
  unfold ksd_backend_registration_mask. change (KSD_BACKEND_REGISTRATION_VERSION =? KSD_BACKEND_REGISTRATION_VERSION) with true.
  rewrite requested_within. destruct (Z.leb_spec 0 provider_fd) as [Hp|Hp].
  - rewrite (Hkwin Hp). replace (0 <=? fd) with true by lia. reflexivity.
  - replace (0 <=? fd) with false by lia. change (Z.land 0 KSD_BACKEND_FLAG_PROVIDER_FD =? 0) with true. reflexivity.
Qed.

(** The user's registration: from which connection, as what, to serve what, and with
    which callback socket. *)
Definition registered_as (slots : list registration) (uid descriptor backend advertised provider_fd : Z) : Prop :=
  exists i r, slots !! i = Some r /\ of_user uid r = true /\ rg_descriptor r = descriptor /\ rg_backend r = backend /\
    rg_advertised r = advertised /\ rg_provider_fd r = provider_fd.

Lemma register_backend_registers state descriptor uid backend identity provider advertised provider_fd fresh state' :
  Registry.register_backend state descriptor uid backend identity provider advertised provider_fd fresh = (true, state') ->
  find_index (of_user uid) (rs_slots state) = None /\ registered_as (rs_slots state') uid descriptor backend advertised provider_fd.
Proof.
  unfold Registry.register_backend. destruct (find_index (of_user uid) _); [done|]. destruct (find_index _ _) as [i|] eqn:Ei; [|done].
  destruct (find_index_some _ _ _ Ei) as (r & Hi & _).
  destruct (match fresh with Some p => _ | None => _ end) as [relay h]. intros [= <-]. split; [done|]. exists i. eexists. cbn [rs_slots].
  split; [apply list_lookup_insert_eq; by eapply lookup_lt_Some|]. unfold of_user. cbn. by rewrite Z.eqb_refl.
Qed.

Lemma register_backend_refused state descriptor uid backend identity provider advertised provider_fd fresh state' :
  Registry.register_backend state descriptor uid backend identity provider advertised provider_fd fresh = (false, state') -> state' = state.
Proof.
  unfold Registry.register_backend. destruct (find_index (of_user uid) _); [by intros [= <-]|]. destruct (find_index _ _) as [i|]; [|by intros [= <-]].
  by destruct (match fresh with Some p => _ | None => _ end) as [relay h].
Qed.

Section ends.
Variables (owner peer_uid peer_pid : Z).

(** Who the authority registers: a process that runs its own executable, in a session of
    the backend it names, with the provider of that backend, if there is one to be had,
    vouched for by the kernel. *)
Definition registration_trusted (run : backend_run) (backend : Z) (identity : ksp_identity) (provider : option ksp_identity) : Prop :=
  peer_uid <> 0 /\ 0 < peer_pid /\ KSD_BACKEND_KWIN <= backend <= KSD_BACKEND_X11 /\ br_captured run = Some identity /\
  (exists authority peer, br_authority run = Some authority /\ br_peer run = Some peer /\ is_regular authority = true /\
     st_uid authority = owner /\ Z.land (st_mode authority) OTHERS_WRITE = 0 /\ st_dev authority = st_dev peer /\ st_ino authority = st_ino peer) /\
  (backend <> KSD_BACKEND_GENERIC -> br_resolved run = backend) /\ (backend = KSD_BACKEND_KWIN -> br_wayland run = true) /\
  (backend = KSD_BACKEND_KWIN \/ backend = KSD_BACKEND_GNOME \/ backend = KSD_BACKEND_CINNAMON ->
     exists pid executable i, 0 < pid <= INT_MAX /\ provider = Some i /\ br_provider run pid = Some (i, executable) /\
       trusted_provider_process backend (id_pid i) executable (br_executable run executable) = true).

Lemma trusted_peer_spec backend authority peer captured resolved wayland identity :
  trusted_backend_peer owner peer_uid peer_pid backend authority peer captured resolved wayland = Some identity ->
  peer_uid <> 0 /\ 0 < peer_pid /\ KSD_BACKEND_KWIN <= backend <= KSD_BACKEND_X11 /\ captured = Some identity /\
  (exists a p, authority = Some a /\ peer = Some p /\ is_regular a = true /\ st_uid a = owner /\ Z.land (st_mode a) OTHERS_WRITE = 0 /\
     st_dev a = st_dev p /\ st_ino a = st_ino p) /\
  (backend <> KSD_BACKEND_GENERIC -> resolved = backend) /\ (backend = KSD_BACKEND_KWIN -> wayland = true).
Proof.
  unfold trusted_backend_peer. destruct (negb (peer_uid =? 0) && _ && _ && _) eqn:E1; [|done]. destruct authority as [a|]; [|done].
  destruct peer as [p|]; [|done]. destruct (is_regular a && _ && _ && _ && _) eqn:E2; [|done]. destruct captured as [i|]; [|done].
  destruct ((backend =? KSD_BACKEND_GENERIC) || _) eqn:E3; [|done]. intros [= ->]. rewrite !andb_true_iff in E1. rewrite !andb_true_iff in E2. destruct E1 as [[[H1 H2] H3] H4].
  destruct E2 as [[[[H5 H6] H7] H8] H9]. rewrite negb_true_iff in H1. split; [lia|]. split; [lia|]. split; [lia|]. split; [done|].
  split; [exists a, p; repeat split; (done || lia)|]. destruct (Z.eqb_spec backend KSD_BACKEND_GENERIC) as [->|Hg].
  - split; [done|]. vm_compute. discriminate.
  - cbn [orb] in E3. apply andb_true_iff in E3 as [E3 E4]. split; [intros _; lia|]. intros ->. exact E4.
Qed.

Lemma query_pid_range uid backend deadline started turns stream exited pid :
  query_provider_pid uid backend deadline started turns stream exited = Some pid -> pid = -1 \/ 0 < pid <= INT_MAX.
Proof.
  unfold query_provider_pid. destruct (_ || _); [intros [= <-]; by left|]. destruct (pipe_read_until _ _ _ _) as [[encoded|]|]; [| |done].
  - destruct exited as [[|p|p]|]; try (intros [= <-]; by left). cbv zeta. destruct (_ && _) eqn:E; intros [= <-]; [right; lia|by left].
  - intros [= <-]. by left.
Qed.

Lemma registration_provider_spec run deadline backend provider :
  registration_provider peer_uid run deadline backend = Some (Some provider) ->
  (backend = KSD_BACKEND_KWIN \/ backend = KSD_BACKEND_GNOME \/ backend = KSD_BACKEND_CINNAMON ->
     exists pid executable i, 0 < pid <= INT_MAX /\ provider = Some i /\ br_provider run pid = Some (i, executable) /\
       trusted_provider_process backend (id_pid i) executable (br_executable run executable) = true).
Proof.
  unfold registration_provider. destruct (_ || _) eqn:E.
  - destruct (query_provider_pid _ _ _ _ _ _ _) as [pid|] eqn:Eq; [|done]. apply query_pid_range in Eq.
    destruct (Z.leb_spec pid 0); [done|]. destruct (br_provider run pid) as [[i executable]|] eqn:Ep; [|done].
    destruct (trusted_provider_process _ _ _ _) eqn:Et; [|done]. intros [= <-] _. exists pid, executable, i. split; [lia|done].
  - intros _ [-> | [-> | ->]]; done.
Qed.

(** A registration succeeds only for whom the authority trusts, and one that does not
    succeed changes nothing and keeps nothing. *)
Lemma admit_registration_spec run state descriptor admitted state' closed received :
  ksd_receive_fd_until KSD_BACKEND_REGISTRATION_SIZE (br_now run + KSD_BACKEND_REGISTRATION_TIMEOUT_MS) (br_headers run) = Some received ->
  admit_registration owner peer_uid peer_pid run state descriptor = Some (admitted, state', closed) ->
  match admitted with
  | Some (backend, advertised) =>
    exists record provider_fd identity provider, rcv_result received = Some (record, provider_fd) /\ closed = rcv_closed received /\
      registration_fields record provider_fd = Some (backend, advertised) /\
      (0 <= provider_fd -> provider_fd_valid provider_fd (br_socket run provider_fd) peer_pid peer_uid = true) /\
      registration_trusted run backend identity provider /\
      find_index (of_user peer_uid) (rs_slots state) = None /\
      registered_as (rs_slots state') peer_uid descriptor backend advertised provider_fd
  | None => state' = state /\ closed = rcv_closed received ++ match rcv_result received with Some (_, fd) => close_descriptor fd | None => [] end
  end.
Proof.
  intros Hrecv. unfold admit_registration. rewrite Hrecv. destruct (rcv_result received) as [[record provider_fd]|];
    [|intros [= <- <- <-]; by rewrite app_nil_r].
  destruct (registration_fields record provider_fd) as [[backend advertised]|] eqn:Ef; [|intros [= <- <- <-]; done].
  destruct ((provider_fd <? 0) || _) eqn:Ev; [|intros [= <- <- <-]; done].
  destruct (trusted_backend_peer _ _ _ _ _ _ _ _ _) as [identity|] eqn:Et; [|intros [= <- <- <-]; done].
  apply trusted_peer_spec in Et. destruct (registration_provider _ _ _ _) as [[provider|]|] eqn:Epr; [| |done].
  2:{ intros [= <- <- <-]. done. }
  pose proof (registration_provider_spec _ _ _ _ Epr) as Hpr.
  destruct (Registry.register_backend _ _ _ _ _ _ _ _ _) as [[] st] eqn:Er.
  - intros [= <- <- <-]. exists record, provider_fd, identity, provider. split; [done|]. split; [done|]. split; [done|].
    split; [intros Hp; destruct (Z.ltb_spec provider_fd 0); [lia|exact Ev]|].
    split; [unfold registration_trusted; destruct Et as (? & ? & ? & ? & ? & ? & ?); auto 10|]. by eapply register_backend_registers.
  - intros [= <- <- <-]. done.
Qed.

Lemma receive_loop_length length deadline turns : forall got s r bytes fd,
  receive_fd_loop length deadline turns got s = Some r -> rcv_result r = Some (bytes, fd) -> length <= zlen bytes.
Proof.
  induction turns as [|t turns IH]; intros got s r bytes fd; cbn [receive_fd_loop]; destruct (Z.ltb_spec (zlen got) length); try done.
  - intros [= <-] [= <- _]. lia.
  - destruct (ksd_wait_until _ _ _) as [[]|]; try (intros [= <-]; done). destruct (rt_msg t) as [| |bs truncated control]; [by apply IH|by intros [= <-]|].
    cbv zeta. match goal with |- (if ?c then _ else _) = _ -> _ => destruct c end; [by intros [= <-]|]. by apply IH.
  - intros [= <-] [= <- _]. lia.
Qed.

(** What is read of an acknowledgement is all of it. *)
Lemma reply_whole deadline status backend accepted turns ok stream deadline' turns' reply stream' rest :
  send_backend_ack deadline status backend accepted turns = Some (ok, stream) ->
  transfer_recv deadline' KSD_BACKEND_REGISTRATION_SIZE turns' stream [] = Some (TransferDone reply, stream', rest) ->
  reply = ksd_backend_ack_encode status backend accepted.
Proof.
  unfold send_backend_ack. destruct (transfer_send _ _ _ _) as [[[ok' sent] ?]|] eqn:E; [|done]. intros [= -> ->].
  apply transfer_send_spec in E as (n & -> & _). intros H. apply transfer_recv_done in H as (-> & _ & Hl); [|vm_compute; discriminate].
  cbn [app] in *. destruct (ack_fields status backend accepted) as (_ & _ & _ & _ & _ & _ & _ & Hz).
  set (ack := ksd_backend_ack_encode status backend accepted) in *. unfold ztake, zlen in *. rewrite !length_take in Hl.
  rewrite take_take. rewrite firstn_all2; [done|]. lia.
Qed.

Lemma rejected_unparsed backend requested : ksd_backend_ack_parse (ksd_backend_ack_encode KSD_BACKEND_ACK_REJECTED KSD_BACKEND_NONE 0) backend requested = None.
Proof. unfold ksd_backend_ack_parse. destruct (ack_fields KSD_BACKEND_ACK_REJECTED KSD_BACKEND_NONE 0) as (-> & -> & -> & _). reflexivity. Qed.

Lemma accepted_parsed backend features portal :
  is_u32 backend -> let requested := requested_operations backend features portal in
  ksd_backend_ack_parse (ksd_backend_ack_encode KSD_BACKEND_ACK_ACCEPTED backend requested) backend requested = Some requested.
Proof.
  intros Hb requested. apply (registration_withholds backend KSD_BACKEND_REGISTRATION_VERSION 0 requested requested Hb (requested_u64 _ _ _)).
  unfold ksd_backend_registration_mask. change (KSD_BACKEND_REGISTRATION_VERSION =? KSD_BACKEND_REGISTRATION_VERSION) with true.
  change (Z.land 0 (u16 (Z.lnot KSD_BACKEND_FLAGS_ALL)) =? 0) with true. change (Z.land 0 KSD_BACKEND_FLAG_PROVIDER_FD =? 0) with true. cbn [andb negb].
  unfold requested. by rewrite requested_within.
Qed.

(** What a daemon sends that is as long as a registration is its message. *)
Lemma send_with_fd_prefix descriptor sends calls data fd ok out :
  ksd_send_with_fd descriptor sends calls data fd = Some (ok, out) -> exists n, out = take n data.
Proof.
  induction sends as [|[count|] sends IH]; cbn [ksd_send_with_fd]; (destruct (_ || _); [intros [= <- <-]; by exists 0%nat|]); [done| |done].
  destruct (_ || _); [intros [= <- <-]; by exists 0%nat|]. destruct (count =? zlen data); [intros [= <- <-]; exists (length data); by rewrite firstn_all|].
  intros H. apply write_all_spec in H as (n & -> & _). exists (Z.to_nat count + n)%nat. unfold ztake, zdrop. by rewrite take_take_drop.
Qed.

Lemma register_sends daemon backend deadline provider_fd ends accepted sent :
  register_backend daemon backend deadline provider_fd ends = Some (accepted, sent) ->
  let requested := requested_operations backend (rr_features ends) (rr_portal ends) in
  let message := registration_message backend requested provider_fd in
  (exists n, sent = take n message) /\
  (forall operations, accepted = Some operations -> sent = message /\ exists reply stream' rest,
     transfer_recv deadline KSD_BACKEND_REGISTRATION_SIZE (rr_reply ends) (rr_stream ends) [] = Some (TransferDone reply, stream', rest) /\
     ksd_backend_ack_parse reply backend requested = Some operations).
Proof.
  unfold register_backend. cbv zeta. set (requested := requested_operations _ _ _). set (message := registration_message _ _ _).
  assert (Hsend : forall ok o, (if 0 <=? provider_fd then ksd_send_with_fd daemon (rr_sends ends) (rr_plain ends) message provider_fd
     else let* (ok, sent, _) := transfer_send deadline (rr_transfer ends) message [] in Some (ok, sent)) = Some (ok, o) ->
     (exists n, o = take n message) /\ (ok = true -> o = message)).
  { intros ok o. destruct (0 <=? provider_fd).
    - intros E. split; [by eapply send_with_fd_prefix|]. intros ->. by apply send_with_fd_sent in E as [-> _].
    - destruct (transfer_send _ _ _ _) as [[[ok' o'] ?]|] eqn:E; [|done]. intros [= <- <-]. apply transfer_send_spec in E as (n & -> & Hok).
      split; [by exists n|]. exact Hok. }
  destruct (if 0 <=? provider_fd then _ else _) as [[ok o]|]; [|done]. destruct (Hsend ok o eq_refl) as [Hn Hok].
  destruct ok; cbn [negb]; [|intros [= <- <-]; done]. destruct (transfer_recv _ _ _ _ _) as [[[got stream'] rest]|] eqn:Er; [|done].
  intros [= <- <-]. split; [done|]. destruct got as [reply| | |]; try done. intros operations Hp. split; [by apply Hok|]. by exists reply, stream', rest.
Qed.

(** C17: A daemon and the authority agree on a registration.  Let the authority receive
    what a daemon sends for a backend, and the daemon read what the authority answers.
    Then a daemon that believes it is registered is: the user's slot of the registry is
    its connection's, with its backend, its callback socket, and exactly the operations
    it asked for, which is what it is told; and a daemon that was refused never believes
    it is registered, the registry is as it was and the socket that came with the message
    has been closed.  So an authority of the same version accepts everything a daemon
    asks for. *)
Theorem registration_agreed run state descriptor received fd daemon backend deadline provider_fd ends accepted admitted state' closed status ok turns :
  is_u32 backend -> (0 <= provider_fd <-> 0 <= fd) -> (0 <= provider_fd -> backend = KSD_BACKEND_KWIN) ->
  ksd_receive_fd_until KSD_BACKEND_REGISTRATION_SIZE (br_now run + KSD_BACKEND_REGISTRATION_TIMEOUT_MS) (br_headers run) = Some received ->
  admit_registration owner peer_uid peer_pid run state descriptor = Some (admitted, state', closed) ->
  (status = match admitted with Some _ => KSD_BACKEND_ACK_ACCEPTED | None => KSD_BACKEND_ACK_REJECTED end) ->
  send_backend_ack (br_now run + KSD_BACKEND_REGISTRATION_TIMEOUT_MS) status (match admitted with Some (b, _) => b | None => KSD_BACKEND_NONE end)
    (match admitted with Some (_, a) => a | None => 0 end) turns = Some (ok, rr_stream ends) ->
  register_backend daemon backend deadline provider_fd ends = Some (accepted, default [] (option_map fst (rcv_result received))) ->
  match rcv_result received with Some (_, got) => got = fd | None => True end ->
  match accepted with
  | Some operations =>
    operations = requested_operations backend (rr_features ends) (rr_portal ends) /\ admitted = Some (backend, operations) /\
    registered_as (rs_slots state') peer_uid descriptor backend operations fd
  | None => True
  end /\
  match admitted with
  | Some (b, operations) => b = backend /\ operations = requested_operations backend (rr_features ends) (rr_portal ends)
  | None => accepted = None /\ state' = state /\
      closed = rcv_closed received ++ match rcv_result received with Some (_, got) => close_descriptor got | None => [] end
  end.
Proof.
  intros Hb Hfd Hkwin Hrecv Hadm -> Hack Hreg Hgot. pose proof (admit_registration_spec _ _ _ _ _ _ _ Hrecv Hadm) as Hspec.
  destruct (register_sends _ _ _ _ _ _ _ Hreg) as [[n Hn] Hacc]. set (requested := requested_operations _ _ _) in *.
  assert (Hmessage : forall record got, rcv_result received = Some (record, got) -> record = registration_message backend requested provider_fd).
  { intros record got E. rewrite E in Hn. cbn in Hn. pose proof (receive_loop_length _ _ _ _ _ _ _ _ Hrecv E) as Hlen.
    destruct (registration_message_fields backend requested provider_fd Hb (requested_u64 _ _ _)) as (_ & _ & _ & _ & _ & _ & _ & Hz).
    rewrite Hn in *. unfold zlen in *. rewrite length_take in Hlen. apply firstn_all2. lia. }
  destruct admitted as [[b operations]|].
  - destruct Hspec as (record & got & identity & provider & E & -> & Hf & _ & _ & _ & Hin). rewrite E in Hgot. subst got.
    rewrite (Hmessage record fd E) in Hf. unfold requested in Hf. rewrite (registration_fields_message backend _ _ provider_fd fd Hb Hfd Hkwin) in Hf.
    injection Hf as <- <-. split; [|done]. destruct accepted as [operations|]; [|done]. destruct (Hacc operations eq_refl) as (_ & reply & stream' & rest & Hr & Hp).
    rewrite (reply_whole _ _ _ _ _ _ _ _ _ _ _ _ Hack Hr) in Hp. unfold requested in Hp. rewrite accepted_parsed in Hp by done. injection Hp as <-. done.
  - destruct Hspec as [-> ->]. assert (accepted = None) as ->.
    { destruct accepted as [operations|]; [|done]. destruct (Hacc operations eq_refl) as (_ & reply & stream' & rest & Hr & Hp).
      rewrite (reply_whole _ _ _ _ _ _ _ _ _ _ _ _ Hack Hr), rejected_unparsed in Hp. done. }
    done.
Qed.
End ends.

(** ** A registration's life *)

Lemma unregister_gone state uid descriptor state' closed :
  one_per_user (rs_slots state) -> 0 <= descriptor -> unregister_backend state uid descriptor = (state', closed) ->
  forall i r, rs_slots state' !! i = Some r -> of_user uid r = true -> rg_descriptor r <> descriptor.
Proof.
  intros Hone Hd. unfold unregister_backend. destruct (find_index _ _) as [k|] eqn:Ek.
  - destruct (find_index_some _ _ _ Ek) as (x & Hk & Hx). apply andb_true_iff in Hx as [Hx _].
    destruct (match rg_relay _ with Some p => _ | None => _ end) as [h c]. destruct (retire_opt h _) as [h0 c0]. destruct (retire_opt h0 _) as [h1 c1].
    intros [= <- <-] i r. cbn [rs_slots]. destruct (decide (i = k)) as [->|Hne].
    + rewrite list_lookup_insert_eq by (by eapply lookup_lt_Some). intros [= <-]. done.
    + rewrite list_lookup_insert_ne by done. intros Hi Hr _. destruct Hne. unfold of_user in *. apply andb_true_iff in Hr as [? ?].
      apply andb_true_iff in Hx as [? ?]. eapply Hone; try done. lia.
  - intros [= <- <-] i r Hi Hr E. pose proof (find_index_none _ _ _ _ Ek Hi) as Hno. cbn beta in Hno. rewrite Hr, E, Z.eqb_refl in Hno. done.
Qed.

Lemma send_ack_prefix deadline status backend accepted turns ok sent :
  send_backend_ack deadline status backend accepted turns = Some (ok, sent) -> exists n, sent = take n (ksd_backend_ack_encode status backend accepted).
Proof.
  unfold send_backend_ack. destruct (transfer_send _ _ _ _) as [[[ok' o] ?]|] eqn:E; [|done]. intros [= _ <-].
  apply transfer_send_spec in E as (n & -> & _). by exists n.
Qed.

(** The message that was received, and what it says. *)
Definition registration_carries (run : backend_run) (record : list byte) (provider_fd backend advertised : Z) : Prop :=
  (exists received,
    ksd_receive_fd_until KSD_BACKEND_REGISTRATION_SIZE (br_now run + KSD_BACKEND_REGISTRATION_TIMEOUT_MS) (br_headers run) = Some received /\
    rcv_result received = Some (record, provider_fd)) /\
  backend = ksd_decode_u32 (zdrop 8 record) /\
  advertised = Z.land (ksd_decode_u64 (zdrop 16 record)) (ksd_backend_operations backend).

(** C21: A registration lasts as long as its connection.  A daemon's connection that has
    come to its end either registered nothing, and then the registry is as it was and
    nothing but a refusal, or a part of one, was sent; or the user had no registration
    before it, the daemon was trusted, with its provider, for the backend it named, and
    the user's slot was given to it with the operations it was told of, which are among
    those it asked for and those its backend can serve; and once it is over no slot is
    this connection's any more, whatever other threads did to the registry meanwhile, as
    long as they kept to one registration a user. *)
Theorem backend_connection_exact owner uid pid run turns others state descriptor state' sent closed :
  0 <= descriptor -> handle_backend_connection owner uid pid run turns others state descriptor = Some (state', sent, closed) ->
  (state' = state /\ exists n, sent = take n (ksd_backend_ack_encode KSD_BACKEND_ACK_REJECTED KSD_BACKEND_NONE 0)) \/
  (exists backend advertised identity provider provider_fd record registered last,
     find_index (of_user uid) (rs_slots state) = None /\ registration_trusted owner uid pid run backend identity provider /\
     (0 <= provider_fd -> provider_fd_valid provider_fd (br_socket run provider_fd) pid uid = true /\ backend = KSD_BACKEND_KWIN) /\
     registration_carries run record provider_fd backend advertised /\
     registered_as (rs_slots registered) uid descriptor backend advertised provider_fd /\
     (exists n, sent = take n (ksd_backend_ack_encode KSD_BACKEND_ACK_ACCEPTED backend advertised)) /\
     (last = registered \/ last = others registered) /\ (exists c, unregister_backend last uid descriptor = (state', c)) /\
     (one_per_user (rs_slots last) -> forall i r, rs_slots state' !! i = Some r -> of_user uid r = true -> rg_descriptor r <> descriptor)).
Proof.
  intros Hd. unfold handle_backend_connection. destruct (br_now run =? 0); [intros [= <- <- <-]; left; split; [done|by exists 0%nat]|].
  destruct (admit_registration _ _ _ _ _ _) as [[[admitted st] c]|] eqn:Ea; [|done].
  destruct (ksd_receive_fd_until KSD_BACKEND_REGISTRATION_SIZE (br_now run + KSD_BACKEND_REGISTRATION_TIMEOUT_MS) (br_headers run)) as [received|] eqn:Er.
  2:{ unfold admit_registration in Ea. by rewrite Er in Ea. }
  pose proof (admit_registration_spec _ _ _ _ _ _ _ _ _ _ Er Ea) as Hspec. destruct admitted as [[backend advertised]|].
  - destruct Hspec as (record & provider_fd & identity & provider & Hrec & _ & Hf & Hv & Ht & Hnone & Hin).
    assert (Hmask : registration_carries run record provider_fd backend advertised /\ (0 <= provider_fd -> backend = KSD_BACKEND_KWIN)).
    { unfold registration_fields in Hf. destruct (_ && _ && _ && _); [|done]. cbv zeta in Hf. set (flags := ksd_decode_u16 (zdrop 6 record)) in *.
      unfold ksd_backend_registration_mask in Hf. destruct (_ && _) in Hf; [|done]. destruct (negb (_ && _)) eqn:En in Hf; [|done].
      destruct (Bool.eqb _ _) eqn:Eb in Hf; [|done]. injection Hf as <- <-. split; [split; [by exists received|done]|]. intros Hp. apply eqb_prop in Eb.
      replace (0 <=? provider_fd) with true in Eb by lia. rewrite Eb in En. cbn [andb] in En. apply negb_true_iff, negb_false_iff, Z.eqb_eq in En. exact En. }
    destruct Hmask as (Hadv & Hkwin).
    assert (Hend : forall last sent' c', (last = st \/ last = others st) -> unregister_backend last uid descriptor = (state', c') ->
      (exists n, sent' = take n (ksd_backend_ack_encode KSD_BACKEND_ACK_ACCEPTED backend advertised)) -> sent' = sent ->
      exists backend advertised identity provider provider_fd record registered last,
       find_index (of_user uid) (rs_slots state) = None /\ registration_trusted owner uid pid run backend identity provider /\
       (0 <= provider_fd -> provider_fd_valid provider_fd (br_socket run provider_fd) pid uid = true /\ backend = KSD_BACKEND_KWIN) /\
       registration_carries run record provider_fd backend advertised /\
       registered_as (rs_slots registered) uid descriptor backend advertised provider_fd /\
       (exists n, sent = take n (ksd_backend_ack_encode KSD_BACKEND_ACK_ACCEPTED backend advertised)) /\
       (last = registered \/ last = others registered) /\ (exists c, unregister_backend last uid descriptor = (state', c)) /\
       (one_per_user (rs_slots last) -> forall i r, rs_slots state' !! i = Some r -> of_user uid r = true -> rg_descriptor r <> descriptor)).
    { intros last sent' c' Hl Hu Hs <-. exists backend, advertised, identity, provider, provider_fd, record, st, last. split; [done|]. split; [done|].
      split; [auto|]. split; [done|]. split; [done|]. split; [done|]. split; [done|]. split; [by exists c'|]. intros Hone. by eapply unregister_gone. }
    destruct (send_backend_ack _ _ _ _ _) as [[ok o]|] eqn:Es; [|done]. apply send_ack_prefix in Es. destruct ok; cbn [negb].
    + destruct (watch_registration _ _); [|done]. destruct (unregister_backend (others st) uid descriptor) as [st2 c2] eqn:Eu. intros [= <- <- <-].
      right. eapply (Hend (others st)); eauto.
    + destruct (unregister_backend st uid descriptor) as [st2 c2] eqn:Eu. intros [= <- <- <-]. right. eapply (Hend st); eauto.
  - destruct Hspec as [-> _]. destruct (send_backend_ack _ _ _ _ _) as [[ok o]|] eqn:Es; [|done]. apply send_ack_prefix in Es. intros [= <- <- <-]. by left.
Qed.

(** ** The daemon's decisions *)

Lemma environment_value_nonempty blk name value : environment_value blk name = Some value -> value <> [].
Proof.
  induction blk as [|entry blk IH]; cbn [environment_value]; [done|]. destruct (_ && _); [|exact IH]. destruct (Z.eqb_spec (zlen (entry_rest name entry)) 0); [done|].
  intros [= <-] E. by rewrite E in *.
Qed.

Lemma current_exact (own : list byte -> option (list byte)) env :
  exec_environment_current (map own session_identity) env = true <-> (forall n, In n session_identity -> own n = identity_value env n).
Proof.
  unfold exec_environment_current. assert (H : forall names, forallb (fun '(own, name) =>
      match own, identity_value env name with None, None => true | Some own, Some live => bytes_eqb own live | _, _ => false end)
      (zip (map own names) names) = true <-> (forall n, In n names -> own n = identity_value env n)); [|apply H].
  induction names as [|n names IH]; cbn [map zip zip_with forallb]; [split; [by intros _ n []|done]|]. rewrite andb_true_iff, IH. split.
  - intros [H1 H2] m [<-|Hm]; [|by apply H2]. destruct (own n), (identity_value env n); try done. unfold bytes_eqb in H1. apply bool_decide_eq_true in H1. by subst.
  - intros H. split; [|intros m Hm; apply H; by right]. rewrite (H n (or_introl eq_refl)). destruct (identity_value env n); [|done].
    unfold bytes_eqb. by rewrite bool_decide_eq_true.
Qed.

Lemma identity_names n : In n session_identity <-> In n session_variable_names.
Proof. unfold session_identity, session_variable_names. cbn [In]. tauto. Qed.

(** A daemon stays exactly as long as its session.  After a refresh from a user
    manager whose environment has a display, a daemon takes the session for the one it
    was started into if and only if each of the seven session variables has in the
    manager's environment what it had, the empty value counting as none, when the daemon
    was started; a manager that names no display, or cannot be asked, changes nothing. *)
Theorem session_kept_exact turn env0 env :
  let kept := keep_exec_identity (fun _ => true) env0 in
  exec_environment_current kept env0 = true /\
  match sr_block turn with
  | Some blk =>
    if bool_decide (environment_value blk (cstr "WAYLAND_DISPLAY") = None /\ environment_value blk (cstr "DISPLAY") = None)
    then ksd_backend_refresh_session_environment turn env = (false, env)
    else (forall n, sr_setenv turn n = true) ->
      (exec_environment_current kept (snd (ksd_backend_refresh_session_environment turn env)) = true <->
       forall n, In n session_variable_names -> identity_value env0 n = environment_value blk n)
  | None => ksd_backend_refresh_session_environment turn env = (false, env)
  end.
Proof.
  intros kept. assert (Hk : forall e, exec_environment_current kept e = true <-> (forall n, In n session_identity -> identity_value env0 n = identity_value e n)).
  { intros e. unfold kept, keep_exec_identity. rewrite <- (current_exact (identity_value env0) e). assert (E : map (fun name => let* value := identity_value env0 name in Some value) session_identity = map (identity_value env0) session_identity).
    { apply map_ext. intros n. by destruct (identity_value env0 n). } by rewrite <- E. }
  split; [by apply Hk|]. unfold ksd_backend_refresh_session_environment. destruct (sr_block turn) as [blk|]; [|done].
  pose proof (environ_apply_exact (sr_setenv turn) blk env) as H. cbv zeta in H. case_bool_decide as Ed; [exact H|]. intros Hset. rewrite Hk.
  destruct (H (fun n _ => Hset n)) as (_ & Hv & _). assert (Hlive : forall n, In n session_variable_names ->
    identity_value (snd (ksd_backend_apply_session_environment (sr_setenv turn) blk env)) n = environment_value blk n).
  { intros n Hn. unfold identity_value. rewrite (Hv n Hn). destruct (environment_value blk n) as [v|] eqn:Ev; [|done].
    apply environment_value_nonempty in Ev. unfold bytes_eqb. by rewrite bool_decide_eq_false_2. }
  split; intros Hall n Hn.
  - rewrite <- (Hlive n Hn). by apply Hall, identity_names.
  - rewrite Hlive by (by apply identity_names). by apply Hall, identity_names.
Qed.

(** Waiting for a provider ends.  Whatever the session bus and the user manager
    answer, a daemon that starts waiting has decided after at most twenty-four retries.
    It leaves to be restarted exactly when the session is not the one it was started
    into; and otherwise it serves a backend: the one whose provider answered, or the
    generic one, and this only when no provider answered and either the session has no
    supported compositor or every retry is used up. *)
Theorem provider_wait_ends kept turns attempts env :
  0 <= attempts <= KSD_BACKEND_STARTUP_ATTEMPTS -> KSD_BACKEND_STARTUP_ATTEMPTS - attempts < zlen turns ->
  exists chosen env' i turn, choose_backend kept turns attempts env = Some (chosen, env') /\
    turns !! i = Some turn /\ attempts + Z.of_nat i <= KSD_BACKEND_STARTUP_ATTEMPTS /\
    match chosen with
    | None => exec_environment_current kept env' = false
    | Some backend =>
      exec_environment_current kept env' = true /\ backend <> KSD_BACKEND_NONE /\
      (backend = resolve env' (owners_enabled turn) \/
       backend = KSD_BACKEND_GENERIC /\ resolve env' (owners_enabled turn) = KSD_BACKEND_NONE /\
       (ksd_backend_session_unsupported (read_own_session_facts env') = true \/ attempts + Z.of_nat i = KSD_BACKEND_STARTUP_ATTEMPTS))
    end.
Proof.
  revert attempts env. induction turns as [|turn turns IH]; intros attempts env Ha Hn; [unfold zlen in Hn; cbn in Hn; lia|].
  cbn [choose_backend]. destruct (exec_environment_current kept env) eqn:Ec; cbn [negb]; [|eexists _, _, 0%nat, turn; repeat (split; [done || lia|]); done].
  destruct (Z.eqb_spec (resolve env (owners_enabled turn)) KSD_BACKEND_NONE) as [Eb|Eb]; cbn [negb].
  - destruct (ksd_backend_session_unsupported _) eqn:Eu; cbn [orb];
      [eexists _, _, 0%nat, turn; do 3 (split; [done || lia|]); auto 10|].
    destruct (Z.leb_spec KSD_BACKEND_STARTUP_ATTEMPTS attempts) as [Hl|Hl].
    + eexists _, _, 0%nat, turn. do 3 (split; [done || lia|]). split; [done|]. split; [done|]. right. split; [done|]. split; [done|]. right. lia.
    + rewrite zlen_cons in Hn. destruct (IH (attempts + 1) (snd (ksd_backend_refresh_session_environment turn env)))
        as (chosen & env' & i & t & -> & Ht & Hi & H); [lia|lia|].
      exists chosen, env', (S i), t. split; [done|]. split; [done|]. split; [lia|]. destruct chosen as [backend|]; [|done].
      destruct H as (H1 & H2 & H). split; [done|]. split; [done|]. destruct H as [H|(H3 & H4 & H5)]; [by left|]. right. split; [done|]. split; [done|].
      destruct H5; [by left|right; lia].
  - eexists _, _, 0%nat, turn. do 3 (split; [done || lia|]). auto.
Qed.

(** ** What a run of the script is called *)

Lemma hex_pair b :
  forallb hex_digit [nth (Z.to_nat (Z.shiftr (b2z b) 4)) hex_digits x00; nth (Z.to_nat (Z.land (b2z b) 15)) hex_digits x00] = true.
Proof. by destruct b. Qed.

Lemma generation_digits bytes : forallb hex_digit (generation_text bytes) = true /\ zlen (generation_text bytes) = 2 * zlen bytes.
Proof.
  unfold generation_text. induction bytes as [|b bytes [IH1 IH2]]; [done|]. cbn [map concat]. rewrite forallb_app, hex_pair, IH1. split; [done|].
  rewrite zlen_app, IH2, !zlen_cons. change (zlen (@nil byte)) with 0. lia.
Qed.

Definition hex_value (digit : byte) : Z := let c := b2z digit in if c <? 58 then c - 48 else c - 87.
(** The bytes that digits stand for. *)
Fixpoint digit_bytes (digits : list byte) : list byte :=
  match digits with
  | high :: low :: digits => z2b (16 * hex_value high + hex_value low) :: digit_bytes digits
  | _ => []
  end.

Lemma generation_bytes bytes : digit_bytes (generation_text bytes) = bytes.
Proof. unfold generation_text. induction bytes as [|b bytes IH]; [done|]. cbn [map concat app digit_bytes]. rewrite IH. f_equal. by destruct b. Qed.

Lemma issue_generation_issued source calls generation :
  issue_generation source calls = Some (Some generation) ->
  exists stream, source = Some stream /\ valid_generation generation = true /\ digit_bytes generation = ztake 16 stream.
Proof.
  unfold issue_generation. destruct source as [stream|]; [|done]. destruct (ksd_read_all _ _ _ _) as [[[[bytes|] s] c]|] eqn:Er; try done.
  intros [= <-]. apply read_all_done in Er as (Hb & _ & Hl); [|vm_compute; discriminate]. exists stream. split; [done|].
  destruct (generation_digits bytes) as [Hd Hz]. change (KSD_KWIN_GENERATION_HEX / 2) with 16 in *. split; [|by rewrite generation_bytes, Hb].
  unfold valid_generation, valid_hex_string. rewrite ztake_all by (rewrite Hz, Hl; vm_compute; discriminate). rewrite Hd, Hz, Hl. done.
Qed.

(** ** How a daemon ends *)

Lemma choose_served kept turns : forall attempts env backend env',
  choose_backend kept turns attempts env = Some (Some backend, env') ->
  exec_environment_current kept env' = true /\ backend <> KSD_BACKEND_NONE.
Proof.
  induction turns as [|turn turns IH]; intros attempts env backend env'; cbn [choose_backend]; [done|].
  destruct (exec_environment_current kept env) eqn:Ec; cbn [negb]; [|done].
  destruct (Z.eqb_spec (resolve env (owners_enabled turn)) KSD_BACKEND_NONE) as [Eb|Eb]; cbn [negb]; [|by intros [= <- <-]].
  destruct (_ || _); [by intros [= <- <-]|apply IH].
Qed.

(** Connecting as a daemon does. *)
Definition daemon_connects (run : daemon_run) : Z * list Z :=
  connect_backend (dm_lstat run) (dm_euid run) (dm_uid run) (dm_owner run) (dm_user_path run) (dm_system run) (dm_user run).
Definition daemon_pair (run : daemon_run) (backend : Z) : Z * Z :=
  if backend =? KSD_BACKEND_KWIN then default (-1, -1) (dm_pair run) else (-1, -1).

(** How a daemon ends.  A daemon never reports success, so that it is always
    restarted, and reports a usage error for nothing else.  It does nothing at all as
    root, or with a user or group that is not its own.  When it has served, it did so
    as a backend that is one, in the session it was started into, over the connection it
    was given, with what the authority accepted; it offered a socket for the script only
    as KWin's, and closed its own copy; the script ran under a name that is valid and
    spells the sixteen random bytes it was read from, in every case where it had one. *)
Theorem daemon_main_exact run status closed how :
  ksd_daemon_main run = Some (status, closed, how) ->
  (status = 1 \/ status = 2) /\ (status = 2 <-> dm_arguments run = false) /\
  (dm_arguments run = true /\ (dm_uid run = 0 \/ dm_uid run <> dm_euid run \/ dm_gid run <> dm_egid run) -> how = DaemonElevated /\ closed = []) /\
  match how with
  | DaemonServed backend accepted generation =>
    dm_uid run <> 0 /\ dm_uid run = dm_euid run /\ dm_gid run = dm_egid run /\ backend <> KSD_BACKEND_NONE /\
    (exists env, exec_environment_current (keep_exec_identity (dm_copies run) (dm_env run)) env = true) /\
    (exists c sent, daemon_connects run = (fst (daemon_connects run), c) /\ 0 <= fst (daemon_connects run) /\
       register_backend (fst (daemon_connects run)) backend (dm_now run + KSD_BACKEND_REGISTRATION_TIMEOUT_MS) (snd (daemon_pair run backend))
         (dm_register run) = Some (Some accepted, sent) /\
       closed = c ++ close_descriptor (snd (daemon_pair run backend)) ++ [fst (daemon_connects run)]) /\
    (0 <= snd (daemon_pair run backend) -> backend = KSD_BACKEND_KWIN) /\
    (forall g, generation = Some g -> backend = KSD_BACKEND_KWIN /\ valid_generation g = true /\
       exists stream, dm_random run = Some stream /\ digit_bytes g = ztake 16 stream)
  | _ => True
  end.
Proof.
  unfold ksd_daemon_main. destruct (dm_arguments run) eqn:Ea; cbn [negb]; [|intros [= <- <- <-]; split; [auto|]; split; [done|]; split; [by intros []|done]].
  destruct (_ || _ || _) eqn:Ee.
  { intros [= <- <- <-]. split; [auto|]. split; [done|]. split; done. }
  assert (Hok : dm_uid run <> 0 /\ dm_uid run = dm_euid run /\ dm_gid run = dm_egid run) by (rewrite !orb_false_iff, !negb_false_iff in Ee; lia).
  assert (Hnot : dm_arguments run = true /\ (dm_uid run = 0 \/ dm_uid run <> dm_euid run \/ dm_gid run <> dm_egid run) -> how = DaemonElevated /\ closed = []) by (intros [_ Hbad]; lia).
  assert (Hend : forall s c h, (s = 1 /\ match h with DaemonServed _ _ _ => False | _ => True end) -> Some (s, c, h) = Some (status, closed, how) ->
    (status = 1 \/ status = 2) /\ (status = 2 <-> true = false) /\
    (dm_arguments run = true /\ (dm_uid run = 0 \/ dm_uid run <> dm_euid run \/ dm_gid run <> dm_egid run) -> how = DaemonElevated /\ closed = []) /\
    match how with DaemonServed _ _ _ => False | _ => True end).
  { intros s c h [-> Hh] [= <- <- <-]. split; [auto|]. split; [done|]. auto. }
  cbv zeta. set (kept := keep_exec_identity _ _) in *. destruct (ksd_backend_refresh_session_environment _ _) as [first env].
  match goal with |- match ?q with _ => _ end = _ -> _ => destruct q as [[imported env1]|]; [|done] end.
  destruct imported; [intros H; apply Hend in H as (? & ? & ? & ?); [|done]; rewrite Ea in *; destruct how; done|].
  destruct (choose_backend _ _ _ _) as [[chosen env2]|] eqn:Ech; [|done].
  destruct chosen as [backend|]; [|intros H; apply Hend in H as (? & ? & ? & ?); [|done]; rewrite Ea in *; destruct how; done].
  apply choose_served in Ech as [Hcur Hne]. fold (daemon_pair run backend) (daemon_connects run).
  destruct (Z.eqb_spec (dm_now run) 0) as [_|_].
  { change (-1 <? 0) with true. intros H; apply Hend in H as (? & ? & ? & ?); [|done]; rewrite Ea in *; destruct how; done. }
  destruct (daemon_connects run) as [descriptor c] eqn:Ec. destruct (Z.ltb_spec descriptor 0) as [Hd|Hd].
  { intros H; apply Hend in H as (? & ? & ? & ?); [|done]; rewrite Ea in *; destruct how; done. }
  destruct (register_backend _ _ _ _ _) as [[[accepted|] sent]|] eqn:Er; [| |done].
  2:{ intros H; apply Hend in H as (? & ? & ? & ?); [|done]; rewrite Ea in *; destruct how; done. }
  match goal with |- match ?q with _ => _ end = _ -> _ => destruct q as [generation|] eqn:Eg; [|done] end.
  match goal with |- match ?q with _ => _ end = _ -> _ => destruct q; [|done] end. intros [= <- <- <-].
  split; [auto|]. split; [done|]. split; [by rewrite Ea in *|]. destruct Hok as (? & ? & ?). do 3 (split; [done|]). split; [done|]. split; [by exists env2|].
  split; [cbn [fst]; exists c, sent; auto|]. split.
  { unfold daemon_pair. destruct (Z.eqb_spec backend KSD_BACKEND_KWIN); [done|]. cbn. lia. }
  intros g Hg. destruct (dm_bus run); [|done]. subst generation. destruct (Z.eqb_spec backend KSD_BACKEND_KWIN); [|done]. split; [done|].
  apply issue_generation_issued in Eg as (stream & ? & ? & ?). split; [done|]. by exists stream.
Qed.

(** ** Witnesses *)

Definition turn_in : list io_turn := [mk_turn [mk_wait 1 (PollReady POLLIN)] (IoBytes 32)].
Definition turn_out : list io_turn := [mk_turn [mk_wait 1 (PollReady POLLOUT)] (IoBytes 32)].
Definition x11_message : list byte := registration_message KSD_BACKEND_X11 (ksd_backend_operations KSD_BACKEND_X11) (-1).
Definition x11_ack : list byte := ksd_backend_ack_encode KSD_BACKEND_ACK_ACCEPTED KSD_BACKEND_X11 (ksd_backend_operations KSD_BACKEND_X11).
Definition x11_executable : option file_status := Some (mk_status KindRegular 0 0 0x1ed 3 9 100).
(** An authority that hears from a daemon of an X11 session. *)
Definition x11_run : backend_run :=
  mk_backend_run 1 [mk_recv [mk_wait 1 (PollReady POLLIN)] (MsgData x11_message false [])] (fun _ => mk_socket false None None None None)
    x11_executable x11_executable (Some (mk_identity 1000 42 7 [])) KSD_BACKEND_X11 false
    false [] [] None (fun _ => None) (fun _ => None) (Some 5) turn_out.
Definition x11_ends : register_run := mk_register None false [] [] turn_out turn_in x11_ack.

Lemma registration_agreed_witness :
  exists state', registered_as (rs_slots state') 1000 11 KSD_BACKEND_X11 (ksd_backend_operations KSD_BACKEND_X11) (-1).
Proof.
  destruct (admit_registration 0 1000 42 x11_run initial_registry 11) as [[[admitted state'] closed]|] eqn:E; [|vm_compute in E; discriminate].
  assert (Hadm : admitted = Some (KSD_BACKEND_X11, ksd_backend_operations KSD_BACKEND_X11)) by (vm_compute in E; injection E as <- _ _; reflexivity).
  subst admitted. exists state'.
  refine (proj2 (proj2 (proj1 (registration_agreed 0 1000 42 x11_run initial_registry 11 (mk_received (Some (x11_message, -1)) []) (-1) 12
    KSD_BACKEND_X11 5000 (-1) x11_ends (Some (ksd_backend_operations KSD_BACKEND_X11)) _ state' closed _ true turn_out _ _ _ _ E eq_refl _ _ _)))).
  - vm_compute. split; [discriminate|reflexivity].
  - reflexivity.
  - intros H. exfalso. apply H. reflexivity.
  - vm_compute. reflexivity.
  - vm_compute. reflexivity.
  - vm_compute. reflexivity.
  - reflexivity.
Defined.

Lemma backend_connection_exact_witness :
  exists state' sent closed,
    handle_backend_connection 0 1000 42 x11_run [mk_watch (PollReady POLLHUP) KSD_BACKEND_X11] (fun r => r) initial_registry 11
      = Some (state', sent, closed) /\
    exists n, sent = take n (ksd_backend_ack_encode KSD_BACKEND_ACK_REJECTED KSD_BACKEND_NONE 0) \/ sent = x11_ack.
Proof.
  destruct (handle_backend_connection 0 1000 42 x11_run [mk_watch (PollReady POLLHUP) KSD_BACKEND_X11] (fun r => r) initial_registry 11)
    as [[[state' sent] closed]|] eqn:E; [|vm_compute in E; discriminate].
  assert (Hsent : sent = x11_ack) by (vm_compute in E; injection E as _ <- _; reflexivity).
  exists state', sent, closed. split; [reflexivity|].
  pose proof (backend_connection_exact 0 1000 42 _ _ _ _ 11 _ _ _ ltac:(lia) E) as [[_ [n Hn]]|_]; [exists n; left; exact Hn|exists 0%nat; right; exact Hsent].
Defined.

(** A session in which no provider ever appears. *)
Definition quiet_turn : session_turn := mk_session_turn None (fun _ => true) (fun _ => false) None.
Definition gnome_env : process_environment := fun name =>
  if bytes_eqb name (cstr "XDG_CURRENT_DESKTOP") then Some (cstr "GNOME")
  else if bytes_eqb name (cstr "WAYLAND_DISPLAY") then Some (cstr "wayland-0") else None.

Lemma provider_wait_ends_witness :
  exists chosen env',
    choose_backend (keep_exec_identity (fun _ => true) gnome_env) (repeat quiet_turn 25) 0 gnome_env = Some (Some chosen, env').
Proof.
  assert (H1 : 0 <= 0 <= KSD_BACKEND_STARTUP_ATTEMPTS) by (vm_compute; split; discriminate).
  assert (H2 : KSD_BACKEND_STARTUP_ATTEMPTS - 0 < zlen (repeat quiet_turn 25)) by (vm_compute; reflexivity).
  destruct (provider_wait_ends (keep_exec_identity (fun _ => true) gnome_env) _ 0 gnome_env H1 H2) as (chosen & env' & i & turn & H & _).
  destruct chosen as [chosen|]; [exists chosen, env'; exact H|]. vm_compute in H. discriminate.
Defined.

(** A daemon of an X11 session, served by the authority of the system. *)
Definition x11_env : process_environment := fun name =>
  if bytes_eqb name (cstr "XDG_SESSION_TYPE") then Some (cstr "x11")
  else if bytes_eqb name (cstr "DISPLAY") then Some (cstr ":0") else None.
Definition run_lstat (path : list byte) : option file_status :=
  if bytes_eqb path (cstr "/run/keysharp-desktop") then Some (mk_status KindDirectory 0 0 0x1ed 1 1 0)
  else if bytes_eqb path KSD_SYSTEM_SOCKET then Some (mk_status KindSocket 0 0 0x1b6 1 2 0) else None.
Definition root_connection : connection_run := mk_connecting 11 true (Some 0) (Some 0).
Definition x11_daemon : daemon_run :=
  mk_daemon true 1000 1000 100 100 (fun _ => true) x11_env quiet_turn [] [quiet_turn] 1 None run_lstat 0 None root_connection
    (mk_connecting (-1) false None None) x11_ends None [] false [(PollReady POLLHUP, quiet_turn)].

Lemma daemon_main_exact_witness :
  exists closed accepted,
    ksd_daemon_main x11_daemon = Some (1, closed, DaemonServed KSD_BACKEND_X11 accepted None) /\ KSD_BACKEND_X11 <> KSD_BACKEND_NONE.
Proof.
  assert (E : ksd_daemon_main x11_daemon = Some (1, [11], DaemonServed KSD_BACKEND_X11 (ksd_backend_operations KSD_BACKEND_X11) None))
    by (vm_compute; reflexivity).
  exists [11], (ksd_backend_operations KSD_BACKEND_X11). split; [exact E|].
  exact (proj1 (proj2 (proj2 (proj2 (proj2 (proj2 (proj2 (daemon_main_exact x11_daemon _ _ _ E)))))))).
Defined.
