(* ===== verification/Provider.v ===== *)
(** * Calls of a shell's provider (src/provider.c)

    GNOME Shell and Cinnamon serve the desktop through an extension that the authority
    calls over a D-Bus connection of its own.  This file models what a request becomes and
    what is made of the reply; [ProviderConnections] models the connections and
    [ProviderEvents] the signals.  A function that calls the extension is an action, which
    either is done or asks for one call and goes on with its reply. *)
From Stdlib Require Import ZArith Lia Strings.Byte Strings.String.
From stdpp Require Import base list option numbers tactics.
From S2P Require Import Prelude.
From S2P Require Import Protocol.
From S2P Require Import Codec.
From S2P Require Import Buffer.
From S2P Require Import Utf8.
From S2P Require Import Transport.
From S2P Require Import Frame.
From S2P Require Import Operations.
From S2P Require Import KwinEnvelope.
From S2P Require Import Environ.
From S2P Require Import Result.
From S2P Require Import Response.
From S2P Require Import Observe.
From S2P Require Import Client.
From S2P Require Import ClientCalls.
From S2P Require Import Install.
From S2P Require Import DisplayCalls.
Local Open Scope Z_scope.
Local Open Scope ksd_scope.

(** ** Calls and replies *)

(** The arguments of a call, with their D-Bus types. *)
Inductive gvariant :=
| GUint64 (value : Z)
| GInt32 (value : Z)
| GUint32 (value : Z)
| GBoolean (value : bool)
| GString (value : list byte)
| GBytes (value : list byte).

Record dbus_call := mk_dbus { db_method : list byte; db_arguments : list gvariant; db_timeout : Z }.

(** The errors the library tells apart. *)
Inductive g_io_error := IoTimedOut | IoBusy | IoNotFound | IoPermissionDenied | IoNotSupported | IoOther.
Record g_error := mk_error { ge_code : g_io_error; ge_message : list byte }.

(** The type a reply must have; the library gives an error for one of another type. *)
Inductive reply_type : Set -> Set :=
| TypeBytes : reply_type (list byte)
| TypePair : reply_type (Z * Z)
| TypeQuad : reply_type (Z * Z * Z * Z)
| TypeString : reply_type (list byte)
| TypeBoolean : reply_type bool
| TypeStrings : reply_type (list (list byte)).
Inductive provider_reply (T : Set) : Set :=
| Replied (value : T)
| NoReply (error : option g_error).
Arguments Replied {T} value.
Arguments NoReply {T} error.

(** How an operation ends: the result, the descriptors closed, and what was written to
    the file of a capture; [None] while its writes have not come to an end. *)
Definition provider_outcome : Set := option (ksd_operation_result * list Z * list byte).
Inductive provider_action :=
| Done (outcome : provider_outcome)
| Asks {T : Set} (type : reply_type T) (call : dbus_call) (continue : provider_reply T -> provider_outcome).

(** The extension, seen through the library. *)
Definition provider_bus : Type := forall T : Set, reply_type T -> dbus_call -> provider_reply T.
Definition perform_action (bus : provider_bus) (action : provider_action) : option dbus_call * provider_outcome :=
  match action with
  | Done outcome => (None, outcome)
  | Asks type call continue => (Some call, continue (bus _ type call))
  end.

Definition KSD_PROVIDER_TIMEOUT_MS : Z := 5000.
Definition KSD_PROVIDER_CAPTURE_TIMEOUT_MS : Z := 30000.
Definition KSD_MAX_WINDOW_HANDLE_BYTES : Z := 128.
Definition KSD_MAX_RESERVATION_TTL_MS : Z := 60000.

Definition status_for_error (error : option g_error) : Z :=
  match error with
  | None => KSD_STATUS_UNAVAILABLE
  | Some error =>
    match ge_code error with
    | IoTimedOut => KSD_STATUS_TIMEOUT
    | IoBusy => KSD_STATUS_BUSY
    | IoNotFound => KSD_STATUS_NOT_FOUND
    | IoPermissionDenied => KSD_STATUS_DENIED
    | IoNotSupported => KSD_STATUS_UNSUPPORTED
    | IoOther => KSD_STATUS_UNAVAILABLE
    end
  end.

(** An operation that ends with an error, and one that ends with what a taking function
    gives, or with an error when that fails. *)
Definition ends_with (result : ksd_operation_result) (status : Z) (message : list byte) : provider_outcome :=
  let '(result, closed) := ksd_result_error result status 0 (Some message) in Some (result, closed, []).
Definition taken_or (taken : bool * ksd_operation_result * list Z) (status : Z) (message : list byte) (file : list byte)
    : provider_outcome :=
  let '(ok, result, closed) := taken in
  if (ok : bool) then Some (result, closed, file)
  else let '(result, closed') := ksd_result_error result status 0 (Some message) in Some (result, closed ++ closed', file).

Definition provider_error (result : ksd_operation_result) (error : option g_error) : provider_outcome :=
  ends_with result (status_for_error error)
    (match error with None => cstr "desktop provider request failed" | Some error => ge_message error end).

Definition invalid_request (result : ksd_operation_result) : provider_action :=
  Done (ends_with result KSD_STATUS_INVALID_REQUEST (cstr "invalid desktop operation payload")).

(** ** Replies *)

(** *** Captures *)

(** The file of a capture: its descriptor, the writes of the header and of the data, and
    whether it can be sealed. *)
Record memfd_run := mk_memfd { mf_fd : Z; mf_header : list plain_outcome; mf_data : list plain_outcome; mf_seals : bool }.

(** The descriptor or -1, the descriptors closed and what was written. *)
Definition sealed_capture_memfd (run : memfd_run) (width height : Z) (data : list byte) : option (Z * list Z * list byte) :=
  if mf_fd run <? 0 then Some (-1, [], [])
  else
    let header := ksd_encode_u16 KSD_CAPTURE_FORMAT_PNG ++ ksd_encode_u16 0 ++ ksd_encode_u32 width ++ ksd_encode_u32 height
                  ++ ksd_encode_u32 0 ++ ksd_encode_u32 (u32 (zlen data)) in
    let* (ok, written) := ksd_write_all (mf_header run) header [] in
    let* (ok, written) := (if (ok : bool) then ksd_write_all (mf_data run) data written else Some (false, written)) in
    Some (if ok && mf_seals run then (mf_fd run, [], written) else (-1, [mf_fd run], written)).

Definition png_u32 (data : list byte) : Z :=
  Z.lor (Z.lor (Z.lor (Z.shiftl (byte_at data 0) 24) (Z.shiftl (byte_at data 1) 16)) (Z.shiftl (byte_at data 2) 8)) (byte_at data 3).
Definition png_signature : list byte := map z2b [0x89; 80; 78; 71; 13; 10; 0x1a; 10].
Definition png_dimensions (data : list byte) : option (Z * Z) :=
  guard* negb (zlen data <? 33) && bytes_eqb (ztake 8 data) png_signature && (png_u32 (zdrop 8 data) =? 13)
    && bytes_eqb (ztake 4 (zdrop 12 data)) (cstr "IHDR") in
  let width := png_u32 (zdrop 16 data) in
  let height := png_u32 (zdrop 20 data) in
  guard* negb (width =? 0) && negb (height =? 0) && (width <=? KSD_MAX_CAPTURE_DIMENSION) && (height <=? KSD_MAX_CAPTURE_DIMENSION)
    && (u64 (width * height) <=? KSD_MAX_CAPTURE_PIXELS) in
  Some (width, height).

Definition capture_result (run : memfd_run) (result : ksd_operation_result) (reply : provider_reply (list byte)) : provider_outcome :=
  match reply with
  | NoReply error => provider_error result error
  | Replied data =>
    match (guard* negb (zlen data =? 0) && (zlen data <=? KSD_MAX_CAPTURE_BYTES) in png_dimensions data) with
    | None =>
      ends_with result (if KSD_MAX_CAPTURE_BYTES <? zlen data then KSD_STATUS_RESOURCE_EXHAUSTED else KSD_STATUS_UNAVAILABLE)
        (cstr "desktop provider returned an invalid PNG capture")
    | Some (width, height) =>
      let* (payload_fd, closed, file) := sealed_capture_memfd run width height data in
      let taken := if payload_fd <? 0 then (false, result, closed)
                   else let '(ok, result, closed') := ksd_result_take_fd result payload_fd (u32 (20 + zlen data)) in
                        (ok, result, closed ++ closed') in
      taken_or taken KSD_STATUS_INTERNAL (cstr "capture buffer is unavailable") file
    end
  end.

Section replies.
Context {AL : Allocator}.

Definition buffer_to_result (ok : bool) (buffer : ksd_buffer) (result : ksd_operation_result) : bool * ksd_operation_result * list Z :=
  if negb ok || (UINT32_MAX <? buf_length buffer) then (false, result, [])
  else ksd_result_take result (Some (buf_bytes buffer)) (u32 (buf_length buffer)).

(** *** Values *)

Definition string_result (result : ksd_operation_result) (reply : provider_reply (list byte)) : provider_outcome :=
  match reply with
  | NoReply error => provider_error result error
  | Replied value =>
    if (KSD_MAX_TEXT_BYTES <? zlen value) || negb (ksd_utf8_valid value false) then
      ends_with result KSD_STATUS_RESOURCE_EXHAUSTED (cstr "desktop provider text is invalid or too large")
    else
      let '(ok, tail) := (ksd_buffer_u32 (u32 (zlen value)) ;;; put value) (ksd_buffer_init (KSD_MAX_TEXT_BYTES + 4)) in
      taken_or (buffer_to_result ok tail result) KSD_STATUS_INTERNAL (cstr "out of memory") []
  end.

Definition boolean_result (result : ksd_operation_result) (reply : provider_reply bool) : provider_outcome :=
  match reply with
  | NoReply error => provider_error result error
  | Replied true => let '(_, result, closed) := ksd_result_take result None 0 in Some (result, closed, [])
  | Replied false => ends_with result KSD_STATUS_NOT_FOUND (cstr "desktop provider could not apply the operation")
  end.

Definition cursor_result (result : ksd_operation_result) (reply : provider_reply (Z * Z)) : provider_outcome :=
  match reply with
  | NoReply error => provider_error result error
  | Replied (x, y) =>
    taken_or (ksd_result_copy result (Some (ksd_encode_u32 (u32 x) ++ ksd_encode_u32 (u32 y))) 8)
      KSD_STATUS_INTERNAL (cstr "out of memory") []
  end.

Definition area_result (result : ksd_operation_result) (reply : provider_reply (Z * Z * Z * Z)) : provider_outcome :=
  match reply with
  | NoReply error => provider_error result error
  | Replied (x, y, width, height) =>
    if (width <=? 0) || (height <=? 0) || (INT32_MAX <? x + width) || (INT32_MAX <? y + height) then
      ends_with result KSD_STATUS_UNAVAILABLE (cstr "desktop provider returned an invalid work area")
    else
      taken_or (ksd_result_copy result (Some (ksd_encode_u32 (u32 x) ++ ksd_encode_u32 (u32 y) ++ ksd_encode_u32 (u32 width)
                                                ++ ksd_encode_u32 (u32 height))) 16)
        KSD_STATUS_INTERNAL (cstr "out of memory") []
  end.

(** The formats of a clipboard, appended while they are valid. *)
Fixpoint append_mimetypes (values : list (list byte)) : bufop :=
  match values with
  | [] => fun buffer => (true, buffer)
  | value :: values => fun buffer =>
    if (zlen value =? 0) || (KSD_MAX_MIMETYPE_BYTES <? zlen value) || negb (ksd_utf8_valid value false) then (false, buffer)
    else (ksd_buffer_u32 (u32 (zlen value)) ;;; put value ;;; append_mimetypes values) buffer
  end.

Definition mimetypes_reply (result : ksd_operation_result) (reply : provider_reply (list (list byte))) : provider_outcome :=
  match reply with
  | NoReply error => provider_error result error
  | Replied values =>
    let tail := ksd_buffer_init KSD_MAX_TEXT_BYTES in
    let '(ok, tail) :=
      if KSD_MAX_MIMETYPES <? zlen values then (false, tail)
      else (ksd_buffer_u32 (u32 (zlen values)) ;;; ksd_buffer_u32 0 ;;; append_mimetypes values) tail in
    taken_or (buffer_to_result ok tail result) KSD_STATUS_RESOURCE_EXHAUSTED
      (cstr "clipboard format list is invalid or too large") []
  end.

Definition content_reply (result : ksd_operation_result) (reply : provider_reply (list byte)) : provider_outcome :=
  match reply with
  | NoReply error => provider_error result error
  | Replied data =>
    let tail := ksd_buffer_init (KSD_MAX_TEXT_BYTES + 4) in
    let '(ok, tail) := if KSD_MAX_TEXT_BYTES <? zlen data then (false, tail) else (ksd_buffer_u32 (u32 (zlen data)) ;;; put data) tail in
    taken_or (buffer_to_result ok tail result) KSD_STATUS_RESOURCE_EXHAUSTED (cstr "clipboard content is too large") []
  end.

(** ** Requests *)

Definition parse_empty (request : ksd_frame) : bool := fr_payload_length request =? 0.
Definition request_cursor (request : ksd_frame) : ksd_cursor := ksd_cursor_init (request_payload request) (fr_payload_length request).
Definition parse_handle (request : ksd_frame) : option Z :=
  let* (handle, cursor) := ksd_cursor_u64 (request_cursor request) in
  guard* negb (handle =? 0) && ksd_cursor_finished cursor in Some handle.

Definition valid_rectangle (x y width height : Z) : bool :=
  negb (width =? 0) && negb (height =? 0) && (width <=? KSD_MAX_CAPTURE_DIMENSION) && (height <=? KSD_MAX_CAPTURE_DIMENSION)
  && (x + width <=? INT32_MAX) && (y + height <=? INT32_MAX).
Definition valid_capture_rectangle (x y width height : Z) : bool :=
  valid_rectangle x y width height && (u64 (width * height) <=? KSD_MAX_CAPTURE_PIXELS).
Definition valid_window_geometry (x y width height : Z) : bool :=
  negb ((x =? INT32_MIN) && (y =? INT32_MIN) && (width =? 0) && (height =? 0))
  && (width <=? KSD_MAX_CAPTURE_DIMENSION) && (height <=? KSD_MAX_CAPTURE_DIMENSION)
  && ((x =? INT32_MIN) || (width =? 0) || (x + width <=? INT32_MAX))
  && ((y =? INT32_MIN) || (height =? 0) || (y + height <=? INT32_MAX)).

(** A handle in decimal; [strtoull] reads as [strtoul] does on a 64-bit platform. *)
Definition parse_decimal_handle (bytes : list byte) (length : Z) : option Z :=
  guard* negb ((length =? 0) || (KSD_MAX_WINDOW_HANDLE_BYTES <? length)) in
  let text := ztake length bytes in
  guard* ksd_utf8_valid text false && forallb digit_byte text in
  guard* negb ((1 <? length) && (byte_at text 0 =? 48)) in
  let* (value, rest) := strtoul text in
  guard* bytes_eqb rest [] && negb (value =? 0) in Some value.

Definition ksd_provider_capture_supported (backend opcode : Z) : bool :=
  if (backend =? KSD_BACKEND_GNOME) || (backend =? KSD_BACKEND_CINNAMON)
  then (opcode =? KSD_OP_CAPTURE_AREA) || (opcode =? KSD_OP_CAPTURE_WINDOW) else false.

(** A call without a limit of its own, and the action of the arguments that were read. *)
Definition calls {T : Set} (type : reply_type T) (method : string) (arguments : list gvariant) (continue : provider_reply T -> provider_outcome)
    : provider_action := Asks type (mk_dbus (cstr method) arguments KSD_PROVIDER_TIMEOUT_MS) continue.
Definition or_invalid (result : ksd_operation_result) (action : option provider_action) : provider_action :=
  default (invalid_request result) action.

Definition execute_capture (run : memfd_run) (backend : Z) (request : ksd_frame) (result : ksd_operation_result) : provider_action :=
  if negb (ksd_provider_capture_supported backend (fr_opcode request)) then
    Done (ends_with result KSD_STATUS_UNSUPPORTED (cstr "capture is unavailable on this provider"))
  else
    let cursor := request_cursor request in
    if fr_opcode request =? KSD_OP_CAPTURE_WINDOW then
      or_invalid result
        (let* (flags, cursor) := ksd_cursor_u32 cursor in
         let* (length, cursor) := ksd_cursor_u32 cursor in
         guard* (Z.land flags (Z.lnot KSD_CAPTURE_WINDOW_INCLUDE_DECORATION) =? 0)
           && negb (length =? 0) && (length <=? KSD_MAX_WINDOW_HANDLE_BYTES) in
         let* (bytes, cursor) := ksd_cursor_bytes cursor length in
         guard* ksd_cursor_finished cursor in
         let* handle := parse_decimal_handle bytes length in
         Some (Asks TypeBytes
           (mk_dbus (cstr "CaptureWindow")
              [GUint64 handle; GBoolean (negb (Z.land flags KSD_CAPTURE_WINDOW_INCLUDE_DECORATION =? 0))] KSD_PROVIDER_CAPTURE_TIMEOUT_MS)
           (capture_result run result)))
    else
      or_invalid result
        (let* (x, cursor) := ksd_cursor_i32 cursor in
         let* (y, cursor) := ksd_cursor_i32 cursor in
         let* (width, cursor) := ksd_cursor_u32 cursor in
         let* (height, cursor) := ksd_cursor_u32 cursor in
         guard* ksd_cursor_finished cursor && valid_capture_rectangle x y width height in
         Some (Asks TypeBytes
           (mk_dbus (cstr "CaptureArea") [GInt32 x; GInt32 y; GInt32 (i32 width); GInt32 (i32 height)] KSD_PROVIDER_CAPTURE_TIMEOUT_MS)
           (capture_result run result))).

Definition execute_query (request : ksd_frame) (result : ksd_operation_result) : provider_action :=
  if negb (parse_empty request) then invalid_request result
  else if fr_opcode request =? KSD_OP_CURSOR_POSITION then calls TypePair "GetCursorPosition" [] (cursor_result result)
  else if fr_opcode request =? KSD_OP_WORK_AREA then calls TypeQuad "GetWorkArea" [] (area_result result)
  else invalid_request result.

Definition handle_method (opcode : Z) : option string :=
  if opcode =? KSD_OP_WINDOW_FOCUS then Some "FocusWindow"%string
  else if opcode =? KSD_OP_WINDOW_RAISE then Some "RaiseWindow"%string
  else if opcode =? KSD_OP_WINDOW_LOWER then Some "LowerWindow"%string
  else if opcode =? KSD_OP_WINDOW_CLOSE then Some "CloseWindow"%string
  else if opcode =? KSD_OP_WINDOW_KILL then Some "KillWindow"%string
  else None.

(** What a reservation gives: the handle in decimal, the empty text while there is no
    window yet. *)
Definition reserved_result (result : ksd_operation_result) (reply : provider_reply (list byte)) : provider_outcome :=
  match reply with
  | NoReply error => provider_error result error
  | Replied text =>
    if zlen text =? 0 then ends_with result KSD_STATUS_NOT_FOUND (cstr "reserved window is not available")
    else
      match parse_decimal_handle text (u32 (zlen text)) with
      | None => ends_with result KSD_STATUS_UNAVAILABLE (cstr "desktop provider returned an invalid handle")
      | Some handle =>
        taken_or (ksd_result_copy result (Some (ksd_encode_u64 handle)) 8) KSD_STATUS_INTERNAL (cstr "out of memory") []
      end
  end.

(** The method and the argument of an operation that sets a value. *)
Definition value_method (opcode value : Z) : option (string * gvariant) :=
  if opcode =? KSD_OP_WINDOW_SET_STATE then guard* value <=? 3 in Some ("SetWindowState"%string, GInt32 (i32 value))
  else if opcode =? KSD_OP_WINDOW_SET_OPACITY then guard* value <=? 255 in Some ("SetWindowOpacity"%string, GInt32 (i32 value))
  else if opcode =? KSD_OP_WINDOW_SET_ABOVE then guard* value <=? 1 in Some ("SetWindowAbove"%string, GBoolean (negb (value =? 0)))
  else if opcode =? KSD_OP_WINDOW_SET_DECORATED then
    guard* value <=? 1 in Some ("SetWindowDecorated"%string, GBoolean (negb (value =? 0)))
  else None.

Definition execute_window (pid : Z) (request : ksd_frame) (result : ksd_operation_result) : provider_action :=
  let opcode := fr_opcode request in
  let cursor := request_cursor request in
  if opcode =? KSD_OP_WINDOW_LIST then
    or_invalid result
      (let* (include_hidden, cursor) := ksd_cursor_u32 cursor in
       let* (reserved, cursor) := ksd_cursor_u32 cursor in
       guard* (include_hidden <=? 1) && (reserved =? 0) && ksd_cursor_finished cursor in
       Some (calls TypeString "GetWindowList" [GBoolean (negb (include_hidden =? 0))] (string_result result)))
  else if opcode =? KSD_OP_WINDOW_ACTIVE then
    if negb (parse_empty request) then invalid_request result else calls TypeString "GetActiveWindow" [] (string_result result)
  else if opcode =? KSD_OP_WINDOW_QUERY then
    or_invalid result
      (let* handle := parse_handle request in Some (calls TypeString "QueryWindow" [GUint64 handle] (string_result result)))
  else
    match handle_method opcode with
    | Some method =>
      or_invalid result
        (let* handle := parse_handle request in Some (calls TypeBoolean method [GUint64 handle] (boolean_result result)))
    | None =>
      if (opcode =? KSD_OP_WINDOW_MOVE_RESIZE) || (opcode =? KSD_OP_WINDOW_MOVE_RESIZE_XID) then
        or_invalid result
          (let* (handle, cursor) := ksd_cursor_u64 cursor in
           guard* negb (handle =? 0) in
           let* (x, cursor) := ksd_cursor_i32 cursor in
           let* (y, cursor) := ksd_cursor_i32 cursor in
           let* (width, cursor) := ksd_cursor_u32 cursor in
           let* (height, cursor) := ksd_cursor_u32 cursor in
           guard* ksd_cursor_finished cursor && valid_window_geometry x y width height in
           Some (calls TypeBoolean (if opcode =? KSD_OP_WINDOW_MOVE_RESIZE then "MoveResizeWindow" else "MoveResizeWindowByXid")
                   [GUint64 handle; GInt32 x; GInt32 y; GInt32 (i32 width); GInt32 (i32 height)] (boolean_result result)))
      else if opcode =? KSD_OP_WINDOW_RESERVE then
        or_invalid result
          (let* (cookie, cursor) := ksd_cursor_u64 cursor in
           guard* negb (cookie =? 0) in
           let* (x, cursor) := ksd_cursor_i32 cursor in
           let* (y, cursor) := ksd_cursor_i32 cursor in
           let* (ttl, cursor) := ksd_cursor_u32 cursor in
           let* (reserved, cursor) := ksd_cursor_u32 cursor in
           guard* negb (ttl =? 0) && (ttl <=? KSD_MAX_RESERVATION_TTL_MS) && (reserved =? 0) && ksd_cursor_finished cursor in
           Some (calls TypeBoolean "ReserveWindow" [GInt32 pid; GUint64 cookie; GInt32 x; GInt32 y; GInt32 (i32 ttl)]
                   (boolean_result result)))
      else if opcode =? KSD_OP_WINDOW_GET_RESERVED then
        or_invalid result
          (let* (cookie, cursor) := ksd_cursor_u64 cursor in
           guard* negb (cookie =? 0) && ksd_cursor_finished cursor in
           Some (calls TypeString "GetReservedWindow" [GInt32 pid; GUint64 cookie] (reserved_result result)))
      else
        or_invalid result
          (let* (handle, cursor) := ksd_cursor_u64 cursor in
           guard* negb (handle =? 0) in
           let* (value, cursor) := ksd_cursor_u32 cursor in
           let* (reserved, cursor) := ksd_cursor_u32 cursor in
           guard* (reserved =? 0) && ksd_cursor_finished cursor in
           let* (method, argument) := value_method opcode value in
           Some (calls TypeBoolean method [GUint64 handle; argument] (boolean_result result)))
    end.

Definition execute_clipboard (request : ksd_frame) (result : ksd_operation_result) : provider_action :=
  let opcode := fr_opcode request in
  let cursor := request_cursor request in
  if opcode =? KSD_OP_CLIPBOARD_MIMETYPES then
    if negb (parse_empty request) then invalid_request result
    else calls TypeStrings "GetClipboardMimetypes" [] (mimetypes_reply result)
  else if opcode =? KSD_OP_CLIPBOARD_TEXT then
    if negb (parse_empty request) then invalid_request result else calls TypeString "GetClipboardText" [] (string_result result)
  else if opcode =? KSD_OP_CLIPBOARD_CONTENT then
    or_invalid result
      (let* (length, cursor) := ksd_cursor_u32 cursor in
       guard* negb (length =? 0) && (length <=? KSD_MAX_MIMETYPE_BYTES) in
       let* (bytes, cursor) := ksd_cursor_bytes cursor length in
       guard* ksd_cursor_finished cursor && ksd_utf8_valid bytes false in
       Some (calls TypeBytes "GetClipboardContent" [GString bytes] (content_reply result)))
  else if opcode =? KSD_OP_CLIPBOARD_SET_CONTENT then
    or_invalid result
      (let* (length, cursor) := ksd_cursor_u32 cursor in
       guard* negb (length =? 0) && (length <=? KSD_MAX_MIMETYPE_BYTES) in
       let* (bytes, cursor) := ksd_cursor_bytes cursor length in
       guard* ksd_utf8_valid bytes false in
       let* (content_length, cursor) := ksd_cursor_u32 cursor in
       guard* content_length <=? KSD_MAX_CLIPBOARD_WRITE_BYTES in
       let* (content, cursor) := ksd_cursor_bytes cursor content_length in
       guard* ksd_cursor_finished cursor in
       guard* negb (bytes_eqb bytes KSD_CLIPBOARD_TEXT_MIMETYPE) || ksd_utf8_valid content false in
       Some (calls TypeBoolean "SetClipboardContent" [GString bytes; GBytes content] (boolean_result result)))
  else invalid_request result.

Definition supported_pointer_button (button : Z) : bool := any_of button [1; 2; 3; 8; 9].

Definition execute_pointer (request : ksd_frame) (result : ksd_operation_result) : provider_action :=
  let opcode := fr_opcode request in
  let cursor := request_cursor request in
  if (opcode =? KSD_OP_MOUSE_MOVE_ABSOLUTE) || (opcode =? KSD_OP_MOUSE_MOVE_RELATIVE) then
    or_invalid result
      (let* (x, cursor) := ksd_cursor_i32 cursor in
       let* (y, cursor) := ksd_cursor_i32 cursor in
       guard* ksd_cursor_finished cursor in
       Some (calls TypeBoolean (if opcode =? KSD_OP_MOUSE_MOVE_ABSOLUTE then "SendMouseMoveAbsolute" else "SendMouseMoveRelative")
               [GInt32 x; GInt32 y] (boolean_result result)))
  else if opcode =? KSD_OP_MOUSE_BUTTON then
    or_invalid result
      (let* (button, cursor) := ksd_cursor_u32 cursor in
       let* (pressed, cursor) := ksd_cursor_u32 cursor in
       guard* ksd_cursor_finished cursor && supported_pointer_button button && (pressed <=? 1) in
       Some (calls TypeBoolean "SendMouseButton" [GUint32 button; GBoolean (negb (pressed =? 0))] (boolean_result result)))
  else if opcode =? KSD_OP_MOUSE_SCROLL then
    or_invalid result
      (let* (delta, cursor) := ksd_cursor_i32 cursor in
       let* (vertical, cursor) := ksd_cursor_u32 cursor in
       guard* ksd_cursor_finished cursor && negb (delta =? 0) && (- KSD_MAX_MOUSE_SCROLL_DELTA <=? delta)
         && (delta <=? KSD_MAX_MOUSE_SCROLL_DELTA) && (vertical <=? 1) in
       Some (calls TypeBoolean "SendMouseScroll" [GInt32 delta; GBoolean (negb (vertical =? 0))] (boolean_result result)))
  else invalid_request result.

Definition between (low opcode high : Z) : bool := (low <=? opcode) && (opcode <=? high).

(** The operation of a request: [pid] is the client's process, and [run] the file a
    capture would be written to. *)
Definition ksd_provider_execute (run : memfd_run) (pid backend : Z) (request : ksd_frame) : provider_action :=
  let result := ksd_result_init in
  let opcode := fr_opcode request in
  if negb (backend =? KSD_BACKEND_GNOME) && negb (backend =? KSD_BACKEND_CINNAMON) then
    Done (ends_with result KSD_STATUS_UNAVAILABLE (cstr "desktop provider is unavailable"))
  else if (opcode =? KSD_OP_CAPTURE_AREA) || (opcode =? KSD_OP_CAPTURE_WINDOW) then execute_capture run backend request result
  else if between KSD_OP_WINDOW_LIST opcode KSD_OP_WINDOW_WATCH || (opcode =? KSD_OP_WINDOW_QUERY)
          || between KSD_OP_WINDOW_FOCUS opcode KSD_OP_WINDOW_GET_RESERVED
  then execute_window pid request result
  else if between KSD_OP_CLIPBOARD_MIMETYPES opcode KSD_OP_CLIPBOARD_TEXT || (opcode =? KSD_OP_CLIPBOARD_SET_CONTENT)
  then execute_clipboard request result
  else if between KSD_OP_MOUSE_MOVE_ABSOLUTE opcode KSD_OP_MOUSE_SCROLL then execute_pointer request result
  else if (opcode =? KSD_OP_CURSOR_POSITION) || (opcode =? KSD_OP_WORK_AREA) then execute_query request result
  else invalid_request result.
End replies.

(** ** The operations of an extension *)

(** An operation, with the arguments its method takes. *)
Inductive handle_operation := HandleFocus | HandleRaise | HandleLower | HandleClose | HandleKill.
Inductive provider_op :=
| ProviderCaptureArea (x y width height : Z)
| ProviderCaptureWindow (handle : Z) (include_decoration : bool)
| ProviderCursorPosition
| ProviderWorkArea
| ProviderWindowList (include_hidden : bool)
| ProviderWindowActive
| ProviderWindowQuery (handle : Z)
| ProviderWindowHandle (operation : handle_operation) (handle : Z)
| ProviderMoveResize (by_xid : bool) (handle x y width height : Z)
| ProviderReserve (cookie x y ttl : Z)
| ProviderGetReserved (cookie : Z)
| ProviderSetState (handle state : Z)
| ProviderSetOpacity (handle opacity : Z)
| ProviderSetAbove (handle : Z) (above : bool)
| ProviderSetDecorated (handle : Z) (decorated : bool)
| ProviderMimetypes
| ProviderClipboardText
| ProviderContent (mimetype : list byte)
| ProviderSetContent (mimetype content : list byte)
| ProviderMouseMove (absolute : bool) (x y : Z)
| ProviderMouseButton (button : Z) (pressed : bool)
| ProviderMouseScroll (delta : Z) (vertical : bool).

Definition handle_opcode (operation : handle_operation) : Z :=
  match operation with
  | HandleFocus => KSD_OP_WINDOW_FOCUS | HandleRaise => KSD_OP_WINDOW_RAISE | HandleLower => KSD_OP_WINDOW_LOWER
  | HandleClose => KSD_OP_WINDOW_CLOSE | HandleKill => KSD_OP_WINDOW_KILL
  end.

(** A handle in decimal, of up to twenty digits. *)
Definition handle_text (handle : Z) : list byte := if handle =? 0 then cstr "0" else rev (fst (decimal_digits 20 handle)).

(** The request that asks for it. *)
Definition provider_wire (op : provider_op) : Z * list byte :=
  match op with
  | ProviderCaptureArea x y width height =>
    (KSD_OP_CAPTURE_AREA, encode_i32 x ++ encode_i32 y ++ ksd_encode_u32 width ++ ksd_encode_u32 height)
  | ProviderCaptureWindow handle decoration => (KSD_OP_CAPTURE_WINDOW, encode_bool decoration ++ text_tail (handle_text handle))
  | ProviderCursorPosition => (KSD_OP_CURSOR_POSITION, [])
  | ProviderWorkArea => (KSD_OP_WORK_AREA, [])
  | ProviderWindowList hidden => (KSD_OP_WINDOW_LIST, encode_bool hidden ++ ksd_encode_u32 0)
  | ProviderWindowActive => (KSD_OP_WINDOW_ACTIVE, [])
  | ProviderWindowQuery handle => (KSD_OP_WINDOW_QUERY, ksd_encode_u64 handle)
  | ProviderWindowHandle operation handle => (handle_opcode operation, ksd_encode_u64 handle)
  | ProviderMoveResize by_xid handle x y width height =>
    (if by_xid then KSD_OP_WINDOW_MOVE_RESIZE_XID else KSD_OP_WINDOW_MOVE_RESIZE,
     ksd_encode_u64 handle ++ encode_i32 x ++ encode_i32 y ++ ksd_encode_u32 width ++ ksd_encode_u32 height)
  | ProviderReserve cookie x y ttl =>
    (KSD_OP_WINDOW_RESERVE, ksd_encode_u64 cookie ++ encode_i32 x ++ encode_i32 y ++ ksd_encode_u32 ttl ++ ksd_encode_u32 0)
  | ProviderGetReserved cookie => (KSD_OP_WINDOW_GET_RESERVED, ksd_encode_u64 cookie)
  | ProviderSetState handle state => (KSD_OP_WINDOW_SET_STATE, ksd_encode_u64 handle ++ ksd_encode_u32 state ++ ksd_encode_u32 0)
  | ProviderSetOpacity handle opacity => (KSD_OP_WINDOW_SET_OPACITY, ksd_encode_u64 handle ++ ksd_encode_u32 opacity ++ ksd_encode_u32 0)
  | ProviderSetAbove handle above => (KSD_OP_WINDOW_SET_ABOVE, ksd_encode_u64 handle ++ encode_bool above ++ ksd_encode_u32 0)
  | ProviderSetDecorated handle decorated =>
    (KSD_OP_WINDOW_SET_DECORATED, ksd_encode_u64 handle ++ encode_bool decorated ++ ksd_encode_u32 0)
  | ProviderMimetypes => (KSD_OP_CLIPBOARD_MIMETYPES, [])
  | ProviderClipboardText => (KSD_OP_CLIPBOARD_TEXT, [])
  | ProviderContent mimetype => (KSD_OP_CLIPBOARD_CONTENT, text_tail mimetype)
  | ProviderSetContent mimetype content => (KSD_OP_CLIPBOARD_SET_CONTENT, text_tail mimetype ++ text_tail content)
  | ProviderMouseMove absolute x y => (if absolute then KSD_OP_MOUSE_MOVE_ABSOLUTE else KSD_OP_MOUSE_MOVE_RELATIVE, encode_i32 x ++ encode_i32 y)
  | ProviderMouseButton button pressed => (KSD_OP_MOUSE_BUTTON, ksd_encode_u32 button ++ encode_bool pressed)
  | ProviderMouseScroll delta vertical => (KSD_OP_MOUSE_SCROLL, encode_i32 delta ++ encode_bool vertical)
  end.

Definition handle_ok (handle : Z) : Prop := 1 <= handle <= UINT64_MAX.
(** The arguments in range. *)
Definition provider_op_ok (op : provider_op) : Prop :=
  match op with
  | ProviderCaptureArea x y width height =>
    is_i32 x /\ is_i32 y /\ is_u32 width /\ is_u32 height /\ valid_capture_rectangle x y width height = true
  | ProviderCaptureWindow handle _ | ProviderWindowQuery handle | ProviderWindowHandle _ handle | ProviderSetAbove handle _
  | ProviderSetDecorated handle _ | ProviderGetReserved handle => handle_ok handle
  | ProviderMoveResize _ handle x y width height =>
    handle_ok handle /\ is_i32 x /\ is_i32 y /\ is_u32 width /\ is_u32 height /\ valid_window_geometry x y width height = true
  | ProviderReserve cookie x y ttl => handle_ok cookie /\ is_i32 x /\ is_i32 y /\ 1 <= ttl <= KSD_MAX_RESERVATION_TTL_MS
  | ProviderSetState handle state => handle_ok handle /\ 0 <= state <= 3
  | ProviderSetOpacity handle opacity => handle_ok handle /\ 0 <= opacity <= 255
  | ProviderContent mimetype => 1 <= zlen mimetype /\ utf8_within mimetype KSD_MAX_MIMETYPE_BYTES
  | ProviderSetContent mimetype content =>
    1 <= zlen mimetype /\ utf8_within mimetype KSD_MAX_MIMETYPE_BYTES /\ zlen content <= KSD_MAX_CLIPBOARD_WRITE_BYTES /\
    (mimetype = KSD_CLIPBOARD_TEXT_MIMETYPE -> ksd_utf8_valid content false = true)
  | ProviderMouseMove _ x y => is_i32 x /\ is_i32 y
  | ProviderMouseButton button _ => In button [1; 2; 3; 8; 9]
  | ProviderMouseScroll delta _ => delta <> 0 /\ - KSD_MAX_MOUSE_SCROLL_DELTA <= delta <= KSD_MAX_MOUSE_SCROLL_DELTA
  | ProviderCursorPosition | ProviderWorkArea | ProviderWindowList _ | ProviderWindowActive | ProviderMimetypes
  | ProviderClipboardText => True
  end.

(** The call it is. *)
Definition provider_call (pid : Z) (op : provider_op) : dbus_call :=
  let call (method : String.string) arguments := mk_dbus (cstr method) arguments KSD_PROVIDER_TIMEOUT_MS in
  let capture (method : String.string) arguments := mk_dbus (cstr method) arguments KSD_PROVIDER_CAPTURE_TIMEOUT_MS in
  match op with
  | ProviderCaptureArea x y width height => capture "CaptureArea"%string [GInt32 x; GInt32 y; GInt32 width; GInt32 height]
  | ProviderCaptureWindow handle decoration => capture "CaptureWindow"%string [GUint64 handle; GBoolean decoration]
  | ProviderCursorPosition => call "GetCursorPosition"%string []
  | ProviderWorkArea => call "GetWorkArea"%string []
  | ProviderWindowList hidden => call "GetWindowList"%string [GBoolean hidden]
  | ProviderWindowActive => call "GetActiveWindow"%string []
  | ProviderWindowQuery handle => call "QueryWindow"%string [GUint64 handle]
  | ProviderWindowHandle operation handle =>
    call (match operation with HandleFocus => "FocusWindow"%string | HandleRaise => "RaiseWindow"%string | HandleLower => "LowerWindow"%string
          | HandleClose => "CloseWindow"%string | HandleKill => "KillWindow"%string end) [GUint64 handle]
  | ProviderMoveResize by_xid handle x y width height =>
    call (if by_xid then "MoveResizeWindowByXid"%string else "MoveResizeWindow"%string) [GUint64 handle; GInt32 x; GInt32 y; GInt32 width; GInt32 height]
  | ProviderReserve cookie x y ttl => call "ReserveWindow"%string [GInt32 pid; GUint64 cookie; GInt32 x; GInt32 y; GInt32 ttl]
  | ProviderGetReserved cookie => call "GetReservedWindow"%string [GInt32 pid; GUint64 cookie]
  | ProviderSetState handle state => call "SetWindowState"%string [GUint64 handle; GInt32 state]
  | ProviderSetOpacity handle opacity => call "SetWindowOpacity"%string [GUint64 handle; GInt32 opacity]
  | ProviderSetAbove handle above => call "SetWindowAbove"%string [GUint64 handle; GBoolean above]
  | ProviderSetDecorated handle decorated => call "SetWindowDecorated"%string [GUint64 handle; GBoolean decorated]
  | ProviderMimetypes => call "GetClipboardMimetypes"%string []
  | ProviderClipboardText => call "GetClipboardText"%string []
  | ProviderContent mimetype => call "GetClipboardContent"%string [GString mimetype]
  | ProviderSetContent mimetype content => call "SetClipboardContent"%string [GString mimetype; GBytes content]
  | ProviderMouseMove absolute x y => call (if absolute then "SendMouseMoveAbsolute"%string else "SendMouseMoveRelative"%string) [GInt32 x; GInt32 y]
  | ProviderMouseButton button pressed => call "SendMouseButton"%string [GUint32 button; GBoolean pressed]
  | ProviderMouseScroll delta vertical => call "SendMouseScroll"%string [GInt32 delta; GBoolean vertical]
  end.

Section operations.
Context {AL : Allocator}.

(** What is made of the reply. *)
Definition provider_ends (run : memfd_run) (bus : provider_bus) (call : dbus_call) (op : provider_op) : provider_outcome :=
  let result := ksd_result_init in
  match op with
  | ProviderCaptureArea _ _ _ _ | ProviderCaptureWindow _ _ => capture_result run result (bus _ TypeBytes call)
  | ProviderCursorPosition => cursor_result result (bus _ TypePair call)
  | ProviderWorkArea => area_result result (bus _ TypeQuad call)
  | ProviderWindowList _ | ProviderWindowActive | ProviderWindowQuery _ | ProviderClipboardText => string_result result (bus _ TypeString call)
  | ProviderGetReserved _ => reserved_result result (bus _ TypeString call)
  | ProviderMimetypes => mimetypes_reply result (bus _ TypeStrings call)
  | ProviderContent _ => content_reply result (bus _ TypeBytes call)
  | ProviderWindowHandle _ _ | ProviderMoveResize _ _ _ _ _ _ | ProviderReserve _ _ _ _ | ProviderSetState _ _ | ProviderSetOpacity _ _
  | ProviderSetAbove _ _ | ProviderSetDecorated _ _ | ProviderSetContent _ _ | ProviderMouseMove _ _ _ | ProviderMouseButton _ _
  | ProviderMouseScroll _ _ => boolean_result result (bus _ TypeBoolean call)
  end.

Lemma handle_u64 handle : handle_ok handle -> is_u64 handle.
Proof. unfold handle_ok, is_u64, UINT64_MAX. lia. Qed.

(** A handle is spelled in one way. *)
Lemma handle_text_canonical v :
  handle_ok v -> canonical_digits (handle_text v) /\ dval 0 (handle_text v) = v /\ (length (handle_text v) <= 20)%nat.
Proof.
  intros Hv. unfold handle_ok, UINT64_MAX in Hv. destruct (canonical_exists 20 v) as (s & Hc & Hl & Hval); [lia|].
  unfold handle_text. replace (v =? 0) with false by lia. rewrite <- Hval.
  rewrite decimal_digits_canonical by (done || lia). cbn [fst]. by rewrite rev_involutive.
Qed.

Lemma canonical_inj s t : canonical_digits s -> canonical_digits t -> dval 0 s = dval 0 t -> s = t.
Proof.
  intros Hs Ht E. pose proof (decimal_digits_canonical s (length s + length t) Hs ltac:(lia)) as H1.
  pose proof (decimal_digits_canonical t (length s + length t) Ht ltac:(lia)) as H2. rewrite E, H2 in H1. injection H1 as H1.
  by rewrite <- (rev_involutive s), <- H1, rev_involutive.
Qed.

Lemma digits_valid s : forallb digit_byte s = true -> ksd_utf8_valid s false = true.
Proof.
  intros H. apply ascii_valid. apply List.Forall_forall. intros b Hb.
  rewrite forallb_forall in H. specialize (H b Hb). apply digit_byte_range in H. lia.
Qed.

Lemma decimal_handle_exact s v : parse_decimal_handle s (zlen s) = Some v <-> s = handle_text v /\ handle_ok v.
Proof.
  unfold parse_decimal_handle. rewrite ztake_all by done. split.
  - destruct ((zlen s =? 0) || _) eqn:El; cbn [negb]; [done|]. destruct (ksd_utf8_valid s false && _) eqn:Ed; [|done].
    destruct ((1 <? zlen s) && _) eqn:Ez; cbn [negb]; [done|]. apply andb_true_iff in Ed as [_ Ed]. rewrite orb_false_iff in El.
    assert (Hne : s <> []) by (intros ->; destruct El; done).
    destruct (Z.leb_spec (dval 0 s) ULONG_MAX) as [Hle|Hgt].
    + rewrite <- (app_nil_r s) at 1. rewrite strtoul_digits by done. change (bytes_eqb [] []) with true. cbn [andb].
      destruct (Z.eqb_spec (dval 0 s) 0) as [|Hnz]; cbn [negb]; [done|]. intros [= <-].
      assert (Hc : canonical_digits s).
      { split; [done|]. destruct s as [|b k]; [done|]. exists b, k. split; [done|]. intros E48. unfold byte_at in Ez. cbn [nth] in Ez.
        rewrite E48, andb_true_r in Ez. destruct k as [|c k]; [by apply Hnz; unfold dval; cbn; rewrite E48|].
        rewrite !zlen_cons in Ez. pose proof (zlen_nonneg k). lia. }
      pose proof (dval_pos s Hc). assert (Hok : handle_ok (dval 0 s)) by (unfold handle_ok, UINT64_MAX, ULONG_MAX in *; lia).
      split; [|done]. destruct (handle_text_canonical _ Hok) as (Ht & Hv & _). by apply canonical_inj.
    + replace (strtoul s) with (@None (Z * list byte)); [done|]. unfold strtoul. symmetry.
      destruct s as [|b k]; [done|]. assert (Hb : digit_byte b = true) by (by apply andb_true_iff in Ed as [? _]). apply digit_byte_range in Hb.
      assert (Hsp : Install.is_space b = false) by (unfold Install.is_space; lia). cbn [skip]. rewrite Hsp.
      replace (b2z b =? 45) with false by lia. replace (b2z b =? 43) with false by lia.
      rewrite <- (app_nil_r (b :: k)), digit_run_app by done. rewrite (proj2 (Z.leb_gt _ _)) by done. by rewrite andb_false_r.
  - intros [-> Hok]. destruct (handle_text_canonical v Hok) as (Hc & Hval & Hlen). pose proof Hc as [Hd (b & k & E & Hb)].
    assert (Hl : 1 <= zlen (handle_text v) <= 20) by (unfold zlen; rewrite E in *; cbn in *; lia).
    replace ((zlen (handle_text v) =? 0) || _) with false by (unfold KSD_MAX_WINDOW_HANDLE_BYTES; lia). cbn [negb].
    rewrite digits_valid, Hd by done. cbn [andb]. replace (byte_at (handle_text v) 0 =? 48) with false by (rewrite E; unfold byte_at; cbn; lia).
    rewrite andb_false_r. cbn [negb]. rewrite <- (app_nil_r (handle_text v)) at 1.
    rewrite strtoul_digits; [|by rewrite E|done|unfold handle_ok, UINT64_MAX, ULONG_MAX in *; lia|done].
    change (bytes_eqb [] []) with true. rewrite Hval. unfold handle_ok in Hok. by replace (v =? 0) with false by lia.
Qed.
End operations.

(** ** Requests are operations *)

Section requests.
Context {AL : Allocator}.
Variables (run : memfd_run) (pid : Z) (bus : provider_bus).

(** An action that is the call of an operation the request says. *)
Definition acts (request : ksd_frame) (action : provider_action) : Prop :=
  exists op, provider_op_ok op /\ says request (provider_wire op) /\
    perform_action bus action = (Some (provider_call pid op), provider_ends run bus (provider_call pid op) op).

Lemma or_invalid_acts request result (action : option provider_action) :
  (forall a, action = Some a -> acts request a) -> or_invalid result action = invalid_request result \/ acts request (or_invalid result action).
Proof. destruct action as [a|]; cbn; [right; auto|by left]. Qed.

Lemma i32_small v : 0 <= v <= INT32_MAX -> i32 v = v.
Proof. unfold INT32_MAX, i32. intros H. rewrite Z.mod_small by lia. lia. Qed.

Ltac is_op o :=
  intros ? [= <-]; exists o; split; [cbn [provider_op_ok]|split; [apply says_payload; [done|by cbn [provider_wire handle_opcode fst]|cbn [provider_wire snd]]|]].

Lemma geometry_small x y w h : valid_window_geometry x y w h = true -> w <= KSD_MAX_CAPTURE_DIMENSION /\ h <= KSD_MAX_CAPTURE_DIMENSION.
Proof. unfold valid_window_geometry. rewrite !andb_true_iff. lia. Qed.
Lemma rectangle_small x y w h : valid_capture_rectangle x y w h = true -> w <= KSD_MAX_CAPTURE_DIMENSION /\ h <= KSD_MAX_CAPTURE_DIMENSION.
Proof. unfold valid_capture_rectangle, valid_rectangle. rewrite !andb_true_iff. lia. Qed.

Lemma capture_acts backend request :
  fr_payload_length request = zlen (request_payload request) -> backend = KSD_BACKEND_GNOME \/ backend = KSD_BACKEND_CINNAMON ->
  fr_opcode request = KSD_OP_CAPTURE_AREA \/ fr_opcode request = KSD_OP_CAPTURE_WINDOW ->
  execute_capture run backend request ksd_result_init = invalid_request ksd_result_init \/
  acts request (execute_capture run backend request ksd_result_init).
Proof.
  intros Hlen Hb Hop. unfold execute_capture.
  replace (ksd_provider_capture_supported backend (fr_opcode request)) with true
    by (by destruct Hb as [-> | ->], Hop as [-> | ->]). cbn [negb].
  pose proof (request_cursor_wf request Hlen) as Hwf. pose proof (request_cursor_rest request) as Hp. change (ksd_cursor_init _ _) with (request_cursor request) in *.
  revert Hwf Hp. generalize (request_cursor request) as c. intros c Hwf Hp.
  destruct Hop as [Hop|Hop]; rewrite Hop; known_opcodes; apply or_invalid_acts.
  - repeat next_read. apply andb_true_iff in Heqb as [Hfin Hrect]. at_end. pose proof (rectangle_small _ _ _ _ Hrect) as [? ?].
    is_op (ProviderCaptureArea v v0 v1 v2); [done|form_done Hp|].
    cbn. unfold is_u32, KSD_MAX_CAPTURE_DIMENSION, INT32_MAX in *. rewrite !i32_small by (unfold INT32_MAX; lia). done.
  - next_read. next_read. next_read. next_text. next_read. at_end. destruct (parse_decimal_handle _ _) as [h|] eqn:Eh; [|done].
    apply decimal_handle_exact in Eh as [-> Hok]. apply andb_true_iff in Heqb as [Hflag _]. apply andb_true_iff in Hflag as [Hflag _].
    pose proof (decoration_flag _ Hv Hflag) as Hv1.
    is_op (ProviderCaptureWindow h (negb (v =? 0))); [done|to_bool v; form_done Hp|].
    replace (Z.land v KSD_CAPTURE_WINDOW_INCLUDE_DECORATION) with v by (by assert (v = 0 \/ v = 1) as [-> | ->] by lia). done.
Qed.

(** What is left of a branch: arguments and the call they make. *)
Ltac nonzero_handle :=
  repeat match goal with
  | H : negb (?h =? 0) = true |- _ => apply negb_true_iff, Z.eqb_neq in H
  | Hn : ?h <> 0, Hu : is_u64 ?h |- _ =>
    assert (handle_ok h) by (clear - Hn Hu; unfold handle_ok, is_u64, UINT64_MAX in *; lia); clear Hn
  end.
Ltac small_args := cbn; unfold is_u32, KSD_MAX_CAPTURE_DIMENSION, KSD_MAX_RESERVATION_TTL_MS, INT32_MAX in *;
  rewrite ?i32_small by (unfold INT32_MAX; lia); done.
(** Every test of the branch. *)
Ltac tests := rewrite ?andb_true_iff in *; destruct_and?; nonzero_handle; breflect; subst; repeat at_end.

Lemma handle_acts request (opcode : Z) {T : Set} (type : reply_type T) method continue op :
  fr_payload_length request = zlen (request_payload request) -> fr_opcode request = opcode ->
  (forall handle, fst (provider_wire (op handle)) = opcode /\ snd (provider_wire (op handle)) = ksd_encode_u64 handle /\
     (handle_ok handle -> provider_op_ok (op handle)) /\
     perform_action bus (calls type method [GUint64 handle] continue)
       = (Some (provider_call pid (op handle)), provider_ends run bus (provider_call pid (op handle)) (op handle))) ->
  let action := or_invalid ksd_result_init (let* handle := parse_handle request in Some (calls type method [GUint64 handle] continue)) in
  action = invalid_request ksd_result_init \/ acts request action.
Proof.
  intros Hlen Hop H action. apply or_invalid_acts. pose proof (request_cursor_wf request Hlen) as Hwf. pose proof (request_cursor_rest request) as Hp.
  unfold parse_handle. change (ksd_cursor_init _ _) with (request_cursor request) in *. revert Hwf Hp. generalize (request_cursor request) as c. intros c Hwf Hp.
  next_read. destruct (negb (v =? 0) && ksd_cursor_finished c0) eqn:E; [|done]. tests. destruct (H v) as (Hw1 & Hw2 & Hw3 & Hw4).
  intros ? [= <-]. exists (op v). split; [auto|]. split; [|exact Hw4]. apply says_payload; [done|by rewrite Hw1|]. rewrite Hw2, Hp. by payload_is.
Qed.

Lemma empty_acts request {T : Set} (type : reply_type T) method continue op :
  fr_payload_length request = zlen (request_payload request) -> provider_wire op = (fr_opcode request, []) -> provider_op_ok op ->
  perform_action bus (calls type method [] continue) = (Some (provider_call pid op), provider_ends run bus (provider_call pid op) op) ->
  let action := if negb (parse_empty request) then invalid_request ksd_result_init else calls type method [] continue in
  action = invalid_request ksd_result_init \/ acts request action.
Proof.
  intros Hlen Hw Hok Hp action. unfold action, parse_empty. destruct (Z.eqb_spec (fr_payload_length request) 0) as [H|]; cbn [negb]; [|by left].
  right. exists op. split; [done|]. split; [|done]. apply says_payload; [done|by rewrite Hw|]. rewrite Hw. by apply empty_payload.
Qed.

Lemma window_acts request :
  fr_payload_length request = zlen (request_payload request) ->
  execute_window pid request ksd_result_init = invalid_request ksd_result_init \/ acts request (execute_window pid request ksd_result_init).
Proof.
  intros Hlen. unfold execute_window. cbv zeta.
  destruct (Z.eqb_spec (fr_opcode request) KSD_OP_WINDOW_LIST) as [Hop|_].
  { apply or_invalid_acts. pose proof (request_cursor_wf request Hlen) as Hwf. pose proof (request_cursor_rest request) as Hp.
    change (ksd_cursor_init _ _) with (request_cursor request) in *. revert Hwf Hp. generalize (request_cursor request) as c. intros c Hwf Hp.
    repeat next_read. tests. is_op (ProviderWindowList (negb (v =? 0))); [done|to_bool v; form_done Hp|done]. }
  destruct (Z.eqb_spec (fr_opcode request) KSD_OP_WINDOW_ACTIVE) as [Hop|_]; [apply (empty_acts _ _ _ _ ProviderWindowActive); cbn; by rewrite ?Hop|].
  destruct (Z.eqb_spec (fr_opcode request) KSD_OP_WINDOW_QUERY) as [Hop|_].
  { apply (handle_acts _ KSD_OP_WINDOW_QUERY _ _ _ ProviderWindowQuery Hlen Hop). intros h. auto. }
  destruct (handle_method (fr_opcode request)) as [method|] eqn:Em.
  { assert (Hm : exists o, fr_opcode request = handle_opcode o /\
      cstr method = db_method (provider_call pid (ProviderWindowHandle o 1))).
    { unfold handle_method in Em. repeat match type of Em with (if ?a =? ?b then _ else _) = _ => destruct (Z.eqb_spec a b) end; try done;
        injection Em as <-; [exists HandleFocus|exists HandleRaise|exists HandleLower|exists HandleClose|exists HandleKill]; done. }
    destruct Hm as (o & Hop & Hm). apply (handle_acts _ (handle_opcode o) _ _ _ (ProviderWindowHandle o) Hlen Hop). intros h.
    split; [done|]. split; [done|]. split; [done|]. unfold calls. rewrite Hm. done. }
  pose proof (request_cursor_wf request Hlen) as Hwf. pose proof (request_cursor_rest request) as Hp.
  change (ksd_cursor_init _ _) with (request_cursor request) in *. revert Hwf Hp. generalize (request_cursor request) as c. intros c Hwf Hp.
  destruct ((fr_opcode request =? KSD_OP_WINDOW_MOVE_RESIZE) || _) eqn:Emr.
  { apply or_invalid_acts. repeat next_read.
    match goal with H : _ && valid_window_geometry _ _ _ _ = true |- _ => apply andb_true_iff in H as [? Hgeo] end.
    pose proof (geometry_small _ _ _ _ Hgeo) as [? ?]. tests. destruct Emr as [Hop|Hop]; rewrite Hop; known_opcodes;
      [is_op (ProviderMoveResize false v v0 v1 v2 v3)|is_op (ProviderMoveResize true v v0 v1 v2 v3)]; [done|form_done Hp|small_args..|done|form_done Hp|small_args]. }
  destruct (Z.eqb_spec (fr_opcode request) KSD_OP_WINDOW_RESERVE) as [Hop|_].
  { apply or_invalid_acts. repeat next_read. tests. is_op (ProviderReserve v v0 v1 v2); [split; [done|]; split; [done|]; split; [done|]; unfold is_u32 in *; lia|form_done Hp|small_args]. }
  destruct (Z.eqb_spec (fr_opcode request) KSD_OP_WINDOW_GET_RESERVED) as [Hop|_].
  { apply or_invalid_acts. repeat next_read. tests. is_op (ProviderGetReserved v); [done|form_done Hp|small_args]. }
  apply or_invalid_acts. repeat next_read. tests. destruct (value_method _ _) as [[method argument]|] eqn:Ev; [|done].
  unfold value_method in Ev.
  destruct (Z.eqb_spec (fr_opcode request) KSD_OP_WINDOW_SET_STATE) as [Hop|_].
  { destruct (Z.leb_spec v0 3); [|done]. injection Ev as <- <-. is_op (ProviderSetState v v0); [split; [done|unfold is_u32 in *; lia]|form_done Hp|small_args]. }
  destruct (Z.eqb_spec (fr_opcode request) KSD_OP_WINDOW_SET_OPACITY) as [Hop|_].
  { destruct (Z.leb_spec v0 255); [|done]. injection Ev as <- <-. is_op (ProviderSetOpacity v v0); [split; [done|unfold is_u32 in *; lia]|form_done Hp|small_args]. }
  destruct (Z.eqb_spec (fr_opcode request) KSD_OP_WINDOW_SET_ABOVE) as [Hop|_].
  { destruct (Z.leb_spec v0 1); [|done]. injection Ev as <- <-. is_op (ProviderSetAbove v (negb (v0 =? 0))); [done|to_bool v0; form_done Hp|small_args]. }
  destruct (Z.eqb_spec (fr_opcode request) KSD_OP_WINDOW_SET_DECORATED) as [Hop|_]; [|done].
  destruct (Z.leb_spec v0 1); [|done]. injection Ev as <- <-. is_op (ProviderSetDecorated v (negb (v0 =? 0))); [done|to_bool v0; form_done Hp|small_args].
Qed.

Lemma clipboard_acts request :
  fr_payload_length request = zlen (request_payload request) ->
  execute_clipboard request ksd_result_init = invalid_request ksd_result_init \/ acts request (execute_clipboard request ksd_result_init).
Proof.
  intros Hlen. unfold execute_clipboard. cbv zeta.
  destruct (Z.eqb_spec (fr_opcode request) KSD_OP_CLIPBOARD_MIMETYPES) as [Hop|_]; [apply (empty_acts _ _ _ _ ProviderMimetypes); cbn; by rewrite ?Hop|].
  destruct (Z.eqb_spec (fr_opcode request) KSD_OP_CLIPBOARD_TEXT) as [Hop|_]; [apply (empty_acts _ _ _ _ ProviderClipboardText); cbn; by rewrite ?Hop|].
  pose proof (request_cursor_wf request Hlen) as Hwf. pose proof (request_cursor_rest request) as Hp.
  change (ksd_cursor_init _ _) with (request_cursor request) in *. revert Hwf Hp. generalize (request_cursor request) as c. intros c Hwf Hp.
  destruct (Z.eqb_spec (fr_opcode request) KSD_OP_CLIPBOARD_CONTENT) as [Hop|_].
  { apply or_invalid_acts. next_read. next_read. next_text. next_read. pose proof (zlen_nonneg t). tests. is_op (ProviderContent t); [split; [lia|done]| |done].
    rewrite Hp. unfold text_tail. by payload_is. }
  destruct (Z.eqb_spec (fr_opcode request) KSD_OP_CLIPBOARD_SET_CONTENT) as [Hop|_]; [|by left].
  apply or_invalid_acts. next_read. next_read. next_text. next_read. next_read. next_read. next_text. next_read. next_read. pose proof (zlen_nonneg t). tests.
  is_op (ProviderSetContent t t0); [| |done].
  - split; [lia|]. split; [done|]. split; [done|]. intros E.
    match goal with H : bytes_eqb _ _ = false \/ _ |- _ => destruct H as [H|H]; [|done]; unfold bytes_eqb in H; by apply bool_decide_eq_false in H end.
  - rewrite Hp. unfold text_tail. payload_is. by rewrite <- !app_assoc.
Qed.

Lemma pointer_acts request :
  fr_payload_length request = zlen (request_payload request) ->
  execute_pointer request ksd_result_init = invalid_request ksd_result_init \/ acts request (execute_pointer request ksd_result_init).
Proof.
  intros Hlen. unfold execute_pointer. cbv zeta. pose proof (request_cursor_wf request Hlen) as Hwf. pose proof (request_cursor_rest request) as Hp.
  change (ksd_cursor_init _ _) with (request_cursor request) in *. revert Hwf Hp. generalize (request_cursor request) as c. intros c Hwf Hp.
  destruct ((fr_opcode request =? KSD_OP_MOUSE_MOVE_ABSOLUTE) || _) eqn:Em.
  { apply or_invalid_acts. repeat next_read. tests. destruct Em as [Hop|Hop]; rewrite Hop; known_opcodes;
      [is_op (ProviderMouseMove true v v0)|is_op (ProviderMouseMove false v v0)]; [done|form_done Hp|done|done|form_done Hp|done]. }
  destruct (Z.eqb_spec (fr_opcode request) KSD_OP_MOUSE_BUTTON) as [Hop|_].
  { apply or_invalid_acts. repeat next_read. match goal with H : _ && supported_pointer_button _ && _ = true |- _ => apply andb_true_iff in H as [[? Hbut]%andb_true_iff ?] end.
    unfold supported_pointer_button in Hbut. apply any_of_in in Hbut. tests. is_op (ProviderMouseButton v (negb (v0 =? 0))); [done|to_bool v0; form_done Hp|done]. }
  destruct (Z.eqb_spec (fr_opcode request) KSD_OP_MOUSE_SCROLL) as [Hop|_]; [|by left].
  apply or_invalid_acts. repeat next_read. tests. is_op (ProviderMouseScroll v (negb (v0 =? 0))); [done|to_bool v0; form_done Hp|done].
Qed.

Lemma provider_acts backend request :
  fr_payload_length request = zlen (request_payload request) -> backend = KSD_BACKEND_GNOME \/ backend = KSD_BACKEND_CINNAMON ->
  let action := ksd_provider_execute run pid backend request in
  action = invalid_request ksd_result_init \/ acts request action.
Proof.
  intros Hlen Hb. unfold ksd_provider_execute.
  replace (negb (backend =? KSD_BACKEND_GNOME) && negb (backend =? KSD_BACKEND_CINNAMON)) with false by (by destruct Hb as [-> | ->]).
  destruct ((fr_opcode request =? KSD_OP_CAPTURE_AREA) || _) eqn:Ec; [apply capture_acts; [done|done|breflect; tauto]|].
  destruct (between _ _ _ || _ || _); [by apply window_acts|]. destruct (between _ _ _ || _); [by apply clipboard_acts|].
  destruct (between _ _ _); [by apply pointer_acts|]. destruct ((fr_opcode request =? KSD_OP_CURSOR_POSITION) || _); [|by left].
  unfold execute_query. destruct (Z.eqb_spec (fr_opcode request) KSD_OP_CURSOR_POSITION) as [Hop|_];
    [apply (empty_acts _ _ _ _ ProviderCursorPosition); cbn; by rewrite ?Hop|].
  destruct (Z.eqb_spec (fr_opcode request) KSD_OP_WORK_AREA) as [Hop|_]; [apply (empty_acts _ _ _ _ ProviderWorkArea); cbn; by rewrite ?Hop|].
  left. by destruct (negb _).
Qed.
End requests.

Section served.
Context {AL : Allocator}.
Variables (run : memfd_run) (pid : Z) (bus : provider_bus).

Lemma scroll_i32 delta : - KSD_MAX_MOUSE_SCROLL_DELTA <= delta <= KSD_MAX_MOUSE_SCROLL_DELTA -> is_i32 delta.
Proof. unfold KSD_MAX_MOUSE_SCROLL_DELTA, is_i32. lia. Qed.
Lemma handle_nonzero_test handle : handle_ok handle -> negb (handle =? 0) = true.
Proof. unfold handle_ok. intros H. by replace (handle =? 0) with false by lia. Qed.

(** What the ranges of an operation's arguments say. *)
Ltac ranges :=
  repeat match goal with
  | H : handle_ok ?h |- _ =>
    lazymatch goal with _ : is_u64 h |- _ => fail | _ => pose proof (handle_u64 h H); pose proof (handle_nonzero_test h H) end
  | H : utf8_within ?t ?n |- _ =>
    lazymatch goal with _ : is_u32 (zlen t) |- _ => fail | _ => pose proof (within_u32 t n ltac:(done) H) end
  end.
(** A length and that text. *)
Ltac give_text text :=
  match goal with
  | W : cursor_wf ?c, Hr : cursor_rest ?c = text_tail text ++ ?k |- _ =>
    let c1 := fresh "c" in let c2 := fresh "c" in let E1 := fresh "E" in let E2 := fresh "E" in let W2 := fresh "W" in let R2 := fresh "R" in
    destruct (reads_text c text k ltac:(first [assumption|eapply within_u32; eassumption|idtac]) W Hr) as (c1 & c2 & E1 & E2 & W2 & R2);
    rewrite E1, E2; clear E1 E2 W Hr; repeat give_read
  end.
Ltac opened :=
  repeat match goal with H : negb ?b = true |- context [negb ?b] => rewrite H end; cbn [andb orb negb default from_option or_invalid].

Ltac known_ranges :=
  repeat match goal with |- context [?a <=? ?b] =>
    is_const a; is_const b; let v := eval vm_compute in (a <=? b) in rewrite (eq_refl : (a <=? b) = v)
  end; cbn [orb andb negb].

Lemma provider_served backend request op :
  backend = KSD_BACKEND_GNOME \/ backend = KSD_BACKEND_CINNAMON -> provider_op_ok op -> says request (provider_wire op) ->
  perform_action bus (ksd_provider_execute run pid backend request) = (Some (provider_call pid op), provider_ends run bus (provider_call pid op) op).
Proof.
  intros Hb Hok (Hop & Hpay & Hl). unfold ksd_provider_execute.
  replace (negb (backend =? KSD_BACKEND_GNOME) && negb (backend =? KSD_BACKEND_CINNAMON)) with false by (by destruct Hb as [-> | ->]).
  assert (Hcap : forall o, ksd_provider_capture_supported backend o = (o =? KSD_OP_CAPTURE_AREA) || (o =? KSD_OP_CAPTURE_WINDOW))
    by (by destruct Hb as [-> | ->]).
  unfold execute_capture, execute_window, execute_clipboard, execute_pointer, execute_query, parse_handle, parse_empty, request_cursor.
  rewrite Hcap, Hl, Hpay. clear Hl Hpay Hcap.
  pose proof (cursor_init_wf (snd (provider_wire op))) as W. pose proof (cursor_init_rest (snd (provider_wire op)) (zlen (snd (provider_wire op)))) as R.
  revert W R. generalize (ksd_cursor_init (snd (provider_wire op)) (zlen (snd (provider_wire op)))) as c. intros c W R.
  rewrite <- (app_nil_r (snd (provider_wire op))) in R.
  assert (Hsmall : forall v, 0 <= v <= KSD_MAX_CAPTURE_DIMENSION -> i32 v = v) by (intros; apply i32_small; unfold INT32_MAX, KSD_MAX_CAPTURE_DIMENSION in *; lia).
  destruct op; cbn [provider_wire fst snd provider_op_ok] in Hop, Hok, R |- *;
    lazymatch type of Hop with _ = (if ?b then _ else _) => destruct b | _ = handle_opcode ?o => destruct o; cbn [handle_opcode] in Hop | _ => idtac end;
    rewrite Hop; unfold encode_bool in *; rewrite <- ?app_assoc in R; destruct_and?; ranges; unfold between, handle_method, value_method; known_opcode; known_ranges; cbv beta iota.
  all: repeat give_read; opened; rewrite ?bool_word_le, ?bool_word_flag; try done.
  - destruct (rectangle_small x y width height) as [? ?]; [done|]. unfold is_u32 in *.
    match goal with H : valid_capture_rectangle _ _ _ _ = true |- _ => rewrite H end. cbn. rewrite !Hsmall by lia. done.
  - assert (Hhl : is_u32 (zlen (handle_text handle))) by (destruct (handle_text_canonical handle Hok) as (_ & _ & ?); unfold is_u32, zlen; lia).
    give_text (handle_text handle). rewrite (proj2 (decimal_handle_exact _ handle) (conj eq_refl Hok)).
    replace (Z.land _ (Z.lnot _) =? 0) with true by (by destruct include_decoration).
    destruct (handle_text_canonical handle Hok) as ([_ (b & k & E & _)] & _ & Hlen).
    replace (zlen (handle_text handle) =? 0) with false by (symmetry; rewrite E; by apply Z.eqb_neq; rewrite zlen_cons; pose proof (zlen_nonneg k); lia).
    replace (zlen (handle_text handle) <=? KSD_MAX_WINDOW_HANDLE_BYTES) with true by (unfold zlen, KSD_MAX_WINDOW_HANDLE_BYTES; lia).
    by destruct include_decoration.
  - destruct (geometry_small x y width height) as [? ?]; [done|]. unfold is_u32 in *.
    match goal with H : valid_window_geometry _ _ _ _ = true |- _ => rewrite H end. cbn. rewrite !Hsmall by lia. done.
  - destruct (geometry_small x y width height) as [? ?]; [done|]. unfold is_u32 in *.
    match goal with H : valid_window_geometry _ _ _ _ = true |- _ => rewrite H end. cbn. rewrite !Hsmall by lia. done.
  - assert (is_u32 ttl) by (unfold is_u32, KSD_MAX_RESERVATION_TTL_MS in *; lia). repeat give_read.
    replace (ttl =? 0) with false by lia. replace (ttl <=? KSD_MAX_RESERVATION_TTL_MS) with true by lia. cbn.
    unfold KSD_MAX_RESERVATION_TTL_MS in *. rewrite i32_small by (unfold INT32_MAX; lia). done.
  - rewrite (proj2 (Z.leb_le _ _)) by lia. cbn. rewrite i32_small by (unfold INT32_MAX; lia). done.
  - rewrite (proj2 (Z.leb_le _ _)) by lia. cbn. rewrite i32_small by (unfold INT32_MAX; lia). done.
  - give_text mimetype. match goal with H : utf8_within _ _ |- _ => destruct H as [Hm Hv]; rewrite Hv end.
    rewrite (proj2 (Z.leb_le _ _)) by lia. replace (zlen mimetype =? 0) with false by lia. done.
  - give_text mimetype. assert (Hcl : is_u32 (zlen content)) by (eapply small_u32; [split; [apply zlen_nonneg|eassumption]|done]). give_text content.
    match goal with H : utf8_within _ _ |- _ => destruct H as [Hm Hv]; rewrite Hv end.
    rewrite !(proj2 (Z.leb_le _ _)) by lia. replace (zlen mimetype =? 0) with false by lia. cbn [negb andb].
    destruct (bytes_eqb mimetype KSD_CLIPBOARD_TEXT_MIMETYPE) eqn:E; [|done]. unfold bytes_eqb in E. apply bool_decide_eq_true in E.
    match goal with H : mimetype = _ -> _ |- _ => rewrite (H E) end. done.
  - assert (Hbut : is_u32 button /\ supported_pointer_button button = true)
      by (cbn in Hok; unfold is_u32; destruct Hok as [<-|[<-|[<-|[<-|[<-|[]]]]]]; split; done || lia).
    destruct Hbut as [Hbu Hbs]. repeat give_read. by rewrite Hbs, bool_word_le, bool_word_flag.
  - assert (is_i32 delta) by (apply scroll_i32; lia). repeat give_read. rewrite bool_word_le, bool_word_flag.
    replace (delta =? 0) with false by lia. rewrite !(proj2 (Z.leb_le _ _)) by lia. done.
Qed.
End served.

(** ** Replies reach the client *)

(** An outcome that is a tail, and one that is an error. *)
Definition delivers (outcome : provider_outcome) (tail : list byte) : Prop :=
  outcome = Some (mk_result KSD_STATUS_OK 0 [] (Some tail) (zlen tail) (-1), [], []).
Definition fails (outcome : provider_outcome) (status : Z) : Prop :=
  exists message, outcome = Some (mk_result status 0 message None 0 (-1), [], []).

Section reply_results.
Context {AL : Allocator}.

Lemma ends_fails status message : fails (ends_with ksd_result_init status message) status.
Proof. by eexists. Qed.
Lemma no_reply_fails error : fails (provider_error ksd_result_init error) (status_for_error error).
Proof. apply ends_fails. Qed.

Lemma buffer_delivers op bs m status message :
  AllocTotal AL -> writes op bs -> 0 < zlen bs <= m -> m <= UINT32_MAX ->
  delivers (let '(ok, tail) := op (ksd_buffer_init m) in taken_or (buffer_to_result ok tail ksd_result_init) status message []) bs.
Proof.
  intros HA Hw Hl Hm. unfold UINT32_MAX in Hm. destruct (writes_total op bs (ksd_buffer_init m) Hw) as (b & E & _ & _ & Hb);
    [apply buffer_init_wf; unfold SIZE_MAX; lia|unfold buf_length; cbn; change (zlen []) with 0; lia|].
  rewrite E. unfold buffer_to_result, buf_length. rewrite Hb. cbn [negb orb ksd_buffer_init buf_bytes app].
  replace (UINT32_MAX <? zlen bs) with false by (unfold UINT32_MAX; lia). rewrite u32_id by (unfold is_u32; lia).
  unfold ksd_result_take. rewrite bool_decide_eq_false_2, andb_false_r by done. done.
Qed.

Lemma buffer_over op bs m status message :
  writes op bs -> 0 <= m <= SIZE_MAX -> m < zlen bs ->
  fails (let '(ok, tail) := op (ksd_buffer_init m) in taken_or (buffer_to_result ok tail ksd_result_init) status message []) status.
Proof.
  intros Hw Hm Hl. specialize (Hw (ksd_buffer_init m) (buffer_init_wf m Hm)).
  destruct (op (ksd_buffer_init m)) as [[] b]; [|by eexists]. destruct Hw as ((H1 & H2 & H3) & Hmax & _ & Hok & _).
  exfalso. pose proof (Hok eq_refl) as Hb. unfold buf_length in *. rewrite Hb in *. cbn in *. lia.
Qed.

Lemma text_writes value : is_u32 (zlen value) -> writes (ksd_buffer_u32 (u32 (zlen value)) ;;; put value) (text_tail value).
Proof. intros H. rewrite u32_id by done. apply andthen_writes; [apply u32_writes|apply put_writes]. Qed.
Lemma text_tail_length value : zlen (text_tail value) = 4 + zlen value.
Proof. unfold text_tail. by rewrite zlen_app, zlen_encode_u32. Qed.

Lemma mimetypes_writes values : Forall mimetype_item values -> writes (append_mimetypes values) (concat (map text_tail values)).
Proof.
  induction 1 as [|value values [Hl Hv] _ IH]; cbn [append_mimetypes map concat].
  - intros b Hb. cbn. rewrite app_nil_r. repeat split; try apply Hb; try done. exists 0%nat. by rewrite app_nil_r.
  - assert (Hu : is_u32 (zlen value)) by (unfold is_u32, KSD_MAX_MIMETYPE_BYTES in *; lia).
    intros b Hb. replace ((zlen value =? 0) || (KSD_MAX_MIMETYPE_BYTES <? zlen value) || negb (ksd_utf8_valid value false)) with false
      by (rewrite Hv; cbn [negb]; rewrite orb_false_r; lia).
    pose proof (andthen_writes _ _ _ _ (text_writes value Hu) IH b Hb) as H. unfold text_tail in *.
    unfold andthen in *. destruct (ksd_buffer_u32 (u32 (zlen value)) b) as [[] b1]; [|exact H].
    destruct (put value b1) as [[] b2]; exact H.
Qed.

Lemma mimetypes_refused values : ~ Forall mimetype_item values -> forall b, fst (append_mimetypes values b) = false.
Proof.
  induction values as [|value values IH]; intros Hn b; [by destruct Hn|]. cbn [append_mimetypes].
  destruct ((zlen value =? 0) || (KSD_MAX_MIMETYPE_BYTES <? zlen value) || negb (ksd_utf8_valid value false)) eqn:E; [done|].
  assert (Hi : mimetype_item value).
  { rewrite !orb_false_iff, negb_false_iff in E. pose proof (zlen_nonneg value). split; [lia|tauto]. }
  unfold andthen. destruct (ksd_buffer_u32 _ b) as [[] b1]; [|done]. destruct (put value b1) as [[] b2]; [|done].
  apply IH. intros Hf. by apply Hn; constructor.
Qed.

(** What a capture's file must hold for the client, and what the authority writes. *)
Definition png_capture (width height : Z) (data : list byte) : ksd_capture := mk_capture KSD_CAPTURE_FORMAT_PNG width height 0 data.

Lemma png_capture_wf data width height :
  1 <= zlen data <= KSD_MAX_CAPTURE_BYTES -> png_dimensions data = Some (width, height) -> capture_wf (png_capture width height data).
Proof.
  intros Hl. unfold png_dimensions. destruct (negb _ && _ && _ && _); [|done].
  set (w := png_u32 (zdrop 16 data)). set (h := png_u32 (zdrop 20 data)).
  assert (Hu : forall d, 0 <= png_u32 d).
  { intros d. unfold png_u32. pose proof (b2z_range (nth 0 d x00)). pose proof (b2z_range (nth 1 d x00)). pose proof (b2z_range (nth 2 d x00)).
    pose proof (b2z_range (nth 3 d x00)). unfold byte_at. repeat (apply Z.lor_nonneg; split); try apply Z.shiftl_nonneg; lia. }
  pose proof (Hu (zdrop 16 data)) as Hw. pose proof (Hu (zdrop 20 data)) as Hh. fold w in Hw. fold h in Hh.
  destruct (_ && _) eqn:E; [|done]. intros [= <- <-]. rewrite !andb_true_iff in E. unfold KSD_MAX_CAPTURE_DIMENSION in E.
  destruct E as [[[[E1 E2] E3] E4] E5]. rewrite negb_true_iff in E1, E2. rewrite u64_id in E5 by (unfold is_u64; nia).
  unfold capture_wf, png_capture, KSD_MAX_CAPTURE_DIMENSION. cbn. split; [lia|]. split; [lia|]. split; [lia|]. split; [done|]. by left.
Qed.

(** Whether the file can be made: it was created, its header of twenty bytes and then
    its data were written whole, and it was sealed. *)
Definition file_written (run : memfd_run) (tail : list byte) : bool :=
  match ksd_write_all (mf_header run) (ztake 20 tail) [] with
  | Some (true, written) => match ksd_write_all (mf_data run) (zdrop 20 tail) written with Some (true, _) => true | _ => false end
  | _ => false
  end.
Definition file_made (run : memfd_run) (tail : list byte) : bool := (0 <=? mf_fd run) && file_written run tail && mf_seals run.

Lemma memfd_written run width height data payload_fd closed file :
  is_u32 (zlen data) -> sealed_capture_memfd run width height data = Some (payload_fd, closed, file) ->
  if file_made run (capture_tail (png_capture width height data))
  then payload_fd = mf_fd run /\ closed = [] /\ file = capture_tail (png_capture width height data)
  else payload_fd = -1 /\ closed = (if 0 <=? mf_fd run then [mf_fd run] else []).
Proof.
  intros Hu. unfold sealed_capture_memfd, file_made. destruct (Z.ltb_spec (mf_fd run) 0) as [Hf|Hf].
  { intros [= <- <- <-]. by replace (0 <=? mf_fd run) with false by lia. }
  replace (0 <=? mf_fd run) with true by lia. cbn [andb]. set (tail := capture_tail _).
  set (header := ksd_encode_u16 KSD_CAPTURE_FORMAT_PNG ++ _).
  assert (Et : tail = header ++ data).
  { unfold tail, header, capture_tail, png_capture, text_tail. cbn [cap_format cap_width cap_height cap_stride cap_data].
    rewrite u32_id by done. by rewrite <- !app_assoc. }
  assert (E20 : ztake 20 tail = header /\ zdrop 20 tail = data) by (rewrite Et; split; reflexivity).
  unfold file_written. rewrite (proj1 E20), (proj2 E20).
  destruct (ksd_write_all (mf_header run) header []) as [[ok1 w1]|] eqn:E1; [|done]. destruct ok1; [|by intros [= <- <- <-]].
  destruct (ksd_write_all (mf_data run) data w1) as [[ok2 w2]|] eqn:E2; [|done].
  destruct ok2; cbn [andb]; [|by intros [= <- <- <-]]. destruct (mf_seals run); intros [= <- <- <-]; [|done].
  split; [done|]. split; [done|].
  destruct (write_all_spec _ _ _ _ _ E1) as (_ & _ & H1). destruct (write_all_spec _ _ _ _ _ E2) as (_ & _ & H2).
  by rewrite (H2 eq_refl), (H1 eq_refl), Et.
Qed.
End reply_results.

Section provider_theorems.
Context {AL : Allocator}.

(** A request to a shell's extension is one of its operations.  For GNOME Shell and
    Cinnamon a request that is the wire form of an operation with arguments in range
    makes exactly the call of that operation, with these arguments, the deadline of a
    capture or that of everything else, and nothing but its reply decides the result; a
    request that is no such form calls nothing and is answered as invalid. *)
Theorem provider_requests_exact run pid bus backend request :
  fr_payload_length request = zlen (request_payload request) -> backend = KSD_BACKEND_GNOME \/ backend = KSD_BACKEND_CINNAMON ->
  let served := perform_action bus (ksd_provider_execute run pid backend request) in
  (forall op, provider_op_ok op -> says request (provider_wire op) ->
     served = (Some (provider_call pid op), provider_ends run bus (provider_call pid op) op)) /\
  ((forall op, provider_op_ok op -> ~ says request (provider_wire op)) ->
     fst served = None /\ fails (snd served) KSD_STATUS_INVALID_REQUEST).
Proof.
  intros Hlen Hb served. split; [intros op Hok Hs; by apply provider_served|]. intros Hno.
  destruct (provider_acts run pid bus backend request Hlen Hb) as [E|(op & Hok & Hs & _)]; [|by destruct (Hno op Hok)].
  unfold served. rewrite E. split; [done|apply ends_fails].
Qed.

(** The calls of the library that are operations of an extension; the premises are the
    types of the arguments, and for a capture, whose window is a text, that it is one. *)
Inductive client_provider : ClientCalls.call -> provider_op -> Prop :=
| ClientPArea x y w h : is_i32 x -> is_i32 y -> is_u32 w -> is_u32 h -> client_provider (ksd_capture_area x y w h) (ProviderCaptureArea x y w h)
| ClientPWindow h d : handle_ok h -> client_provider (ksd_capture_window (handle_text h) (Z.b2z d)) (ProviderCaptureWindow h d)
| ClientPCursor : client_provider ksd_cursor_position ProviderCursorPosition
| ClientPWorkArea : client_provider ksd_work_area ProviderWorkArea
| ClientPList b : client_provider (ksd_window_list_json (Z.b2z b)) (ProviderWindowList b)
| ClientPActive : client_provider ksd_window_active_json ProviderWindowActive
| ClientPQuery h : is_u64 h -> client_provider (ksd_window_query_json h) (ProviderWindowQuery h)
| ClientPFocus h : is_u64 h -> client_provider (ksd_window_focus h) (ProviderWindowHandle HandleFocus h)
| ClientPRaise h : is_u64 h -> client_provider (ksd_window_raise h) (ProviderWindowHandle HandleRaise h)
| ClientPLower h : is_u64 h -> client_provider (ksd_window_lower h) (ProviderWindowHandle HandleLower h)
| ClientPClose h : is_u64 h -> client_provider (ksd_window_close h) (ProviderWindowHandle HandleClose h)
| ClientPKill h : is_u64 h -> client_provider (ksd_window_kill h) (ProviderWindowHandle HandleKill h)
| ClientPResize h x y w v : is_u64 h -> is_i32 x -> is_i32 y -> is_u32 w -> is_u32 v ->
    client_provider (ksd_window_move_resize h x y w v) (ProviderMoveResize false h x y w v)
| ClientPResizeXid h x y w v : is_u64 h -> is_i32 x -> is_i32 y -> is_u32 w -> is_u32 v ->
    client_provider (ksd_window_move_resize_xid h x y w v) (ProviderMoveResize true h x y w v)
| ClientPReserve c x y t : is_u64 c -> is_i32 x -> is_i32 y -> is_u32 t -> client_provider (ksd_window_reserve c x y t) (ProviderReserve c x y t)
| ClientPReserved c : is_u64 c -> client_provider (ksd_window_get_reserved c) (ProviderGetReserved c)
| ClientPState h s : is_u64 h -> is_u32 s -> client_provider (ksd_window_set_state h s) (ProviderSetState h s)
| ClientPOpacity h o : is_u64 h -> is_u32 o -> client_provider (ksd_window_set_opacity h o) (ProviderSetOpacity h o)
| ClientPAbove h b : is_u64 h -> client_provider (ksd_window_set_above h (Z.b2z b)) (ProviderSetAbove h b)
| ClientPDecorated h b : is_u64 h -> client_provider (ksd_window_set_decorated h (Z.b2z b)) (ProviderSetDecorated h b)
| ClientPMimetypes : client_provider ksd_clipboard_mimetypes ProviderMimetypes
| ClientPText : client_provider ksd_clipboard_text ProviderClipboardText
| ClientPContent m : client_provider (ksd_clipboard_content m) (ProviderContent m)
| ClientPSetContent m d : client_provider (ksd_clipboard_set_content m d) (ProviderSetContent m d)
| ClientPMove x y : is_i32 x -> is_i32 y -> client_provider (ksd_mouse_move_absolute x y) (ProviderMouseMove true x y)
| ClientPMoveBy x y : is_i32 x -> is_i32 y -> client_provider (ksd_mouse_move_relative x y) (ProviderMouseMove false x y)
| ClientPButton b d : is_u32 b -> client_provider (ksd_mouse_button b (Z.b2z d)) (ProviderMouseButton b d)
| ClientPScroll d v : is_i32 d -> client_provider (ksd_mouse_scroll d (Z.b2z v)) (ProviderMouseScroll d v).

Lemma send_if (b : bool) opcode payload (P : Prop) : (b = true <-> P) -> ((exists w, (if b then send opcode payload else None) = Some w) <-> P).
Proof. intros <-. destruct b; split; try done; [by intros _; eexists|by intros [? ?]]. Qed.
Lemma send_unless (b : bool) opcode payload (P : Prop) : (b = false <-> P) -> ((exists w, (if b then None else send opcode payload) = Some w) <-> P).
Proof. intros <-. destruct b; split; try done; [by intros [? ?]|by intros _; eexists]. Qed.
Lemma handle_ok_test h : is_u64 h -> (h =? 0) = false <-> handle_ok h.
Proof. unfold is_u64, handle_ok, UINT64_MAX. intros. rewrite Z.eqb_neq. lia. Qed.
Lemma handle_ok_unless h : is_u64 h -> negb (h =? 0) = true <-> handle_ok h.
Proof. intros. rewrite negb_true_iff. by apply handle_ok_test. Qed.
Lemma mimetype_ok m : valid_mimetype m = true <-> 1 <= zlen m /\ utf8_within m KSD_MAX_MIMETYPE_BYTES.
Proof. unfold valid_mimetype, utf8_within. rewrite !andb_true_iff, !Z.leb_le. tauto. Qed.
Lemma button_ok b d : any_of b [1; 2; 3; 8; 9] && (Z.b2z d <=? 1) = true <-> In b [1; 2; 3; 8; 9].
Proof. rewrite bool_word_le, andb_true_r. split; [apply any_of_in|]. intros H. apply existsb_exists. exists b. by rewrite Z.eqb_refl. Qed.

(** The library sends a call exactly when its arguments are in range. *)
Lemma client_sends_ok sent op : client_provider sent op -> (exists wire, sent = Some wire) <-> provider_op_ok op.
Proof.
  intros Hc. destruct Hc; cbn [provider_op_ok];
      first [split; [done|by intros _; eexists]
            |apply send_if; cbn -[KSD_CLIPBOARD_TEXT_MIMETYPE]; rewrite ?andb_true_iff, ?Z.leb_le, ?negb_true_iff
            |apply send_unless; by apply handle_ok_test];
      try rewrite handle_ok_test by done.
    - change (ClientCalls.valid_capture_rectangle x y w h) with (valid_capture_rectangle x y w h). tauto.
    - destruct (handle_text_canonical h) as ([Hd (b & k & E & _)] & _ & Hl); [done|]. rewrite digits_valid by done.
      assert (1 <= zlen (handle_text h)) by (rewrite E, zlen_cons; pose proof (zlen_nonneg k); lia). unfold zlen in *. destruct d; cbn; intuition lia.
    - by destruct b.
    - change (ClientCalls.valid_window_geometry x y w v) with (valid_window_geometry x y w v). tauto.
    - change (ClientCalls.valid_window_geometry x y w v) with (valid_window_geometry x y w v). tauto.
    - unfold KSD_MAX_RESERVATION_TTL_MS, is_u32 in *. rewrite Z.eqb_neq. intuition lia.
    - unfold KSD_WINDOW_STATE_UNMINIMIZED, is_u32 in *. intuition lia.
    - unfold is_u32 in *. intuition lia.
    - destruct b; cbn; intuition lia.
    - destruct b; cbn; intuition lia.
    - apply mimetype_ok.
    - rewrite mimetype_ok, orb_true_iff, negb_true_iff. unfold bytes_eqb. rewrite bool_decide_eq_false. destruct (decide (m = KSD_CLIPBOARD_TEXT_MIMETYPE)); tauto.
    - rewrite <- (button_ok b d), andb_true_iff, Z.leb_le. done.
    - rewrite Z.eqb_neq. destruct v; cbn; intuition lia.
Qed.

Lemma client_sends_wire sent op opcode payload :
  client_provider sent op -> sent = Some (opcode, payload) -> (opcode, default [] payload) = provider_wire op.
Proof.
  intros Hc Hs. destruct Hc;
    first [apply send_wire in Hs|apply send_unless_wire in Hs|apply send_now_wire in Hs|apply send_nothing_wire in Hs]; rewrite Hs;
    unfold provider_wire, text_tail; rewrite <- ?app_assoc; done.
Qed.

Lemma u64_head a b k l : is_u64 a -> is_u64 b -> ksd_encode_u64 a ++ k = ksd_encode_u64 b ++ l -> a = b /\ k = l.
Proof.
  intros Ha Hb E. split; [|by apply app_inj_1 in E as [_ E]].
  apply (f_equal ksd_decode_u64) in E. by rewrite !decode_encode_u64, !u64_id in E.
Qed.
Lemma u32_head a b k l : is_u32 a -> is_u32 b -> ksd_encode_u32 a ++ k = ksd_encode_u32 b ++ l -> a = b /\ k = l.
Proof.
  intros Ha Hb E. split; [|by apply app_inj_1 in E as [_ E]].
  apply (f_equal ksd_decode_u32) in E. by rewrite !decode_encode_u32, !u32_id in E.
Qed.
Lemma i32_head a b k l : is_i32 a -> is_i32 b -> encode_i32 a ++ k = encode_i32 b ++ l -> a = b /\ k = l.
Proof.
  unfold encode_i32. intros Ha Hb E. apply u32_head in E as [E ->]; [|unfold is_u32, u32; by apply Z.mod_pos_bound..]. split; [|done].
  apply (f_equal i32) in E. by rewrite !i32_u32 in E.
Qed.
Lemma bool_head a b k l : encode_bool a ++ k = encode_bool b ++ l -> a = b /\ k = l.
Proof. intros E. apply u32_head in E as [E ->]; [by destruct a, b|destruct a; vm_compute; by split..|destruct b; by vm_compute]. Qed.
Lemma text_head a b k l : is_u32 (zlen a) -> is_u32 (zlen b) -> text_tail a ++ k = text_tail b ++ l -> a = b /\ k = l.
Proof.
  unfold text_tail. rewrite <- !app_assoc. intros Ha Hb E. apply u32_head in E as [Hz E]; [|done..].
  apply app_inj_1 in E; [done|]. unfold zlen in Hz. lia.
Qed.

(** The range of a field of an operation. *)
Ltac fields :=
  unfold handle_ok, is_u64, is_u32, is_i32, utf8_within, UINT64_MAX, KSD_MAX_RESERVATION_TTL_MS, KSD_MAX_CLIPBOARD_WRITE_BYTES, KSD_MAX_MIMETYPE_BYTES,
    KSD_MAX_MOUSE_SCROLL_DELTA, KSD_MAX_REQUEST_TOTAL_PAYLOAD, zlen in *;
  cbn [In] in *; lia.

(** Two equal payloads have equal fields. *)
Ltac peel_fields E :=
  match type of E with
  | ksd_encode_u64 ?a ++ _ = ksd_encode_u64 ?b ++ _ =>
    let Ha := fresh in let Hb := fresh in let E' := fresh in
    assert (Ha : is_u64 a) by fields; assert (Hb : is_u64 b) by fields;
    destruct (u64_head _ _ _ _ Ha Hb E) as [? E']; clear E; peel_fields E'
  | encode_i32 ?a ++ _ = encode_i32 ?b ++ _ =>
    let Ha := fresh in let Hb := fresh in let E' := fresh in
    assert (Ha : is_i32 a) by fields; assert (Hb : is_i32 b) by fields;
    destruct (i32_head _ _ _ _ Ha Hb E) as [? E']; clear E; peel_fields E'
  | encode_bool _ ++ _ = encode_bool _ ++ _ =>
    let E' := fresh in destruct (bool_head _ _ _ _ E) as [? E']; clear E; peel_fields E'
  | text_tail ?a ++ _ = text_tail ?b ++ _ =>
    let Ha := fresh in let Hb := fresh in let E' := fresh in
    assert (Ha : is_u32 (zlen a)) by fields; assert (Hb : is_u32 (zlen b)) by fields;
    destruct (text_head _ _ _ _ Ha Hb E) as [? E']; clear E; peel_fields E'
  | ksd_encode_u32 ?a ++ _ = ksd_encode_u32 ?b ++ _ =>
    let Ha := fresh in let Hb := fresh in let E' := fresh in
    assert (Ha : is_u32 a) by fields; assert (Hb : is_u32 b) by fields;
    destruct (u32_head _ _ _ _ Ha Hb E) as [? E']; clear E; peel_fields E'
  | _ => idtac
  end.

(** The wire form of a call of the library is that of no other operation. *)
Lemma provider_wire_inj sent op op' :
  client_provider sent op -> is_u32 (zlen (snd (provider_wire op))) -> provider_op_ok op' -> provider_wire op = provider_wire op' -> op = op'.
Proof.
  intros Hc Hu Hok E.
  destruct Hc; destruct op'; try (destruct operation); try (destruct by_xid); try (is_var absolute; destruct absolute);
    try (exfalso; apply (f_equal fst) in E; vm_compute in E; discriminate E); try reflexivity;
    apply (f_equal (fun wire : Z * list byte => snd wire ++ [x00])) in E; cbn beta in E; cbn [provider_wire snd] in E, Hu;
    cbn [provider_op_ok] in Hok; rewrite <- ?app_assoc in E;
    unfold text_tail in Hu; rewrite ?zlen_app in Hu;
    repeat match goal with H : _ /\ _ |- _ => destruct H end;
    try (destruct (handle_text_canonical h) as (Hc1 & Hv1 & Hl1); [done|]; destruct (handle_text_canonical handle) as (Hc2 & Hv2 & Hl2); [done|]);
    peel_fields E; subst; try congruence.
Qed.

(** C24: The library and the authority agree on what an extension can be asked.  For
    arguments of the types of the call, the library refuses a call exactly when the
    authority would not pass it on: if the library sends nothing, the same call written
    out in its wire form (when a frame can carry it) makes the authority call nothing and
    answer that the request is invalid; and what the library sends is that wire form, and
    makes the extension's call of the same name with the same arguments, which is answered
    from its reply. *)
Theorem client_reaches_provider sent op run pid bus backend id :
  client_provider sent op -> backend = KSD_BACKEND_GNOME \/ backend = KSD_BACKEND_CINNAMON ->
  let served opcode payload := perform_action bus (ksd_provider_execute run pid backend (call_frame opcode id payload)) in
  (sent = None -> is_u32 (zlen (snd (provider_wire op))) ->
     let answer := served (fst (provider_wire op)) (snd (provider_wire op)) in
     fst answer = None /\ fails (snd answer) KSD_STATUS_INVALID_REQUEST) /\
  (forall opcode payload, sent = Some (opcode, payload) ->
     (opcode, default [] payload) = provider_wire op /\
     served opcode (default [] payload) = (Some (provider_call pid op), provider_ends run bus (provider_call pid op) op)).
Proof.
  intros Hc Hb served. pose proof (client_sends_ok sent op Hc) as Hiff. split.
  - intros -> Hu. cbv zeta. unfold served.
    destruct (provider_acts run pid bus backend (call_frame (fst (provider_wire op)) id (snd (provider_wire op))) eq_refl Hb) as [E|(op' & Hok & Hs & _)].
    + rewrite E. split; [done|apply ends_fails].
    + exfalso. assert (op = op') as <-; [|by apply Hiff in Hok as [? ?]].
      eapply provider_wire_inj; [done|done|done|]. destruct Hs as (E1 & E2 & _). cbn [call_frame fr_opcode fr_payload request_payload default] in E1, E2.
      destruct (provider_wire op), (provider_wire op'). cbn [fst snd] in *. unfold request_payload in E2. cbn in E2. congruence.
  - intros opcode payload Hs. pose proof (client_sends_wire sent op opcode payload Hc Hs) as Hw. split; [done|].
    apply provider_served; [done|apply Hiff; by eexists|]. by rewrite <- Hw.
Qed.
End provider_theorems.

(** ** What the client makes of a reply *)

Section client_reads.
Context {AL : Allocator} {AT : AllocTotal AL}.

(** Whatever else an answer holds, if its tail is this one, and it came with this
    descriptor, the client's function gives that value. *)
Definition client_reads {A} (result : answered -> Z * option A * ksd_error * ksd_connection) (tail : list byte) (descriptor : Z -> Prop) (a : A) : Prop :=
  forall w response frame fd, aw_response w = Some (response, frame, fd) -> aw_status w = KSD_STATUS_OK -> is_part frame = false ->
    rs_tail response = tail -> descriptor fd -> result w = (KSD_STATUS_OK, Some a, aw_error w, aw_connection w).
Definition any_descriptor (fd : Z) : Prop := True.
(** The outcome of a reply is a tail that the client reads as a value. *)
Definition read_as {A} (outcome : provider_outcome) (result : answered -> Z * option A * ksd_error * ksd_connection) (a : A) : Prop :=
  exists tail, delivers outcome tail /\ client_reads result tail any_descriptor a.

Lemma finish_reads {A} (parse : list byte -> option A) message tail a :
  parse tail = Some a -> client_reads (fun w => finish w (fun r _ _ => parse (rs_tail r)) message) tail any_descriptor a.
Proof. intros Hp w response frame fd Hw Hs Hf Ht _. unfold finish. rewrite Hw, Hs, Hf, Ht, Hp. done. Qed.

Lemma text_delivers value status message :
  zlen value <= KSD_MAX_TEXT_BYTES ->
  delivers (let '(ok, tail) := (ksd_buffer_u32 (u32 (zlen value)) ;;; put value) (ksd_buffer_init (KSD_MAX_TEXT_BYTES + 4)) in
            taken_or (buffer_to_result ok tail ksd_result_init) status message []) (text_tail value).
Proof.
  intros Hl. pose proof (zlen_nonneg value). assert (Hu : is_u32 (zlen value)) by (unfold is_u32, KSD_MAX_TEXT_BYTES in *; lia).
  apply buffer_delivers; [done|by apply text_writes|rewrite text_tail_length; lia|done].
Qed.

Lemma string_read value :
  zlen value <= KSD_MAX_TEXT_BYTES -> ksd_utf8_valid value false = true ->
  read_as (string_result ksd_result_init (Replied value)) request_string_result value.
Proof.
  intros Hl Hv. exists (text_tail value). split.
  - cbn [string_result]. rewrite Hv, (proj2 (Z.ltb_ge _ _)) by done. by apply text_delivers.
  - apply (finish_reads (fun tail => parse_owned_string tail true)). by apply results_exact.
Qed.

Lemma content_read data : zlen data <= KSD_MAX_TEXT_BYTES -> read_as (content_reply ksd_result_init (Replied data)) content_result data.
Proof.
  intros Hl. exists (text_tail data). split.
  - cbn [content_reply]. rewrite (proj2 (Z.ltb_ge _ _)) by done. by apply text_delivers.
  - apply (finish_reads parse_owned_bytes). unfold parse_owned_bytes. pose proof (cursor_init_wf (text_tail data)) as Hwf.
    assert (Hu : is_u32 (zlen data)) by (eapply small_u32; [split; [apply zlen_nonneg|exact Hl]|done]).
    destruct (reads_text (ksd_cursor_init (text_tail data) (zlen (text_tail data))) data [] Hu Hwf) as (c1 & c2 & E1 & E2 & W2 & R2);
      [by rewrite cursor_init_rest, app_nil_r|].
    rewrite E1, (proj2 (Z.leb_le _ _) Hl), E2, (finished_end _ W2 R2), alloc_total, orb_true_r. done.
Qed.

Lemma mimetypes_read values :
  Forall mimetype_item values -> zlen values <= KSD_MAX_MIMETYPES -> zlen (list_tail values) <= KSD_MAX_TEXT_BYTES ->
  read_as (mimetypes_reply ksd_result_init (Replied values)) mimetypes_result values.
Proof.
  intros Hi Hl Ht. exists (list_tail values). split.
  - cbn [mimetypes_reply]. rewrite (proj2 (Z.ltb_ge _ _)) by done. pose proof (zlen_nonneg values).
    rewrite u32_id by (unfold is_u32, KSD_MAX_MIMETYPES in *; lia). apply (buffer_delivers (_ ;;; _ ;;; _)); [done| | |done].
    + apply andthen_writes; [apply u32_writes|]. apply andthen_writes; [apply u32_writes|by apply mimetypes_writes].
    + unfold list_tail in *. rewrite zlen_app, zlen_encode_u32 in *. pose proof (zlen_nonneg (ksd_encode_u32 0 ++ concat (map text_tail values))). lia.
  - apply (finish_reads parse_string_list_tail). by apply results_exact.
Qed.

Lemma list_tail_nonempty values : 8 <= zlen (list_tail values).
Proof. unfold list_tail. rewrite !zlen_app, !zlen_encode_u32. pose proof (zlen_nonneg (concat (map text_tail values))). lia. Qed.

Lemma mimetypes_fail values :
  ~ Forall mimetype_item values \/ KSD_MAX_MIMETYPES < zlen values \/ KSD_MAX_TEXT_BYTES < zlen (list_tail values) ->
  fails (mimetypes_reply ksd_result_init (Replied values)) KSD_STATUS_RESOURCE_EXHAUSTED.
Proof.
  intros H. cbn [mimetypes_reply]. destruct (Z.ltb_spec KSD_MAX_MIMETYPES (zlen values)) as [Hc|Hc]; [by eexists|].
  destruct (decide (Forall mimetype_item values)) as [Hi|Hi].
  - destruct H as [H|[H|H]]; [done|lia|]. pose proof (zlen_nonneg values).
    rewrite u32_id by (unfold is_u32, KSD_MAX_MIMETYPES in *; lia). apply (buffer_over (_ ;;; _ ;;; _) (list_tail values)); [|done|done].
    apply andthen_writes; [apply u32_writes|]. apply andthen_writes; [apply u32_writes|by apply mimetypes_writes].
  - unfold andthen. destruct (ksd_buffer_u32 _ _) as [[] b1]; [|by eexists]. destruct (ksd_buffer_u32 0 b1) as [[] b2]; [|by eexists].
    pose proof (mimetypes_refused values Hi b2) as Hr. destruct (append_mimetypes values b2) as [[] b3]; [done|by eexists].
Qed.

Lemma copied_delivers tail n status message :
  n = zlen tail -> n <> 0 -> delivers (taken_or (ksd_result_copy ksd_result_init (Some tail) n) status message []) tail.
Proof.
  intros -> Hn. unfold ksd_result_copy. rewrite (proj2 (Z.eqb_neq _ _)) by done. rewrite alloc_total, ztake_all by done.
  unfold ksd_result_take. rewrite bool_decide_eq_false_2, andb_false_r by done. done.
Qed.

Lemma cursor_read x y : is_i32 x -> is_i32 y -> read_as (cursor_result ksd_result_init (Replied (x, y))) cursor_position_result (x, y).
Proof.
  intros Hx Hy. eexists. split; [by apply copied_delivers|].
  apply (finish_reads (fun tail => guard* zlen tail =? 8 in Some (i32 (ksd_decode_u32 tail), i32 (ksd_decode_u32 (zdrop 4 tail))))).
  change (zlen _ =? 8) with true. rewrite payload_drop4, decode_i32_app, decode_i32_end by done. done.
Qed.

(** A work area the client accepts. *)
Definition area_ok (x y width height : Z) : Prop := 0 < width /\ 0 < height /\ x + width <= INT32_MAX /\ y + height <= INT32_MAX.

Lemma area_read x y width height :
  is_i32 x -> is_i32 y -> is_i32 width -> is_i32 height -> area_ok x y width height ->
  read_as (area_result ksd_result_init (Replied (x, y, width, height))) work_area_result (x, y, width, height).
Proof.
  intros Hx Hy Hw Hh (H1 & H2 & H3 & H4). cbn [area_result]. unfold is_i32 in Hw, Hh.
  replace ((width <=? 0) || _ || _ || _) with false by lia. eexists. split; [by apply copied_delivers|].
  unfold work_area_result. intros w response frame fd Hr Hs Hf Ht _. unfold finish. rewrite Hr, Hs, Hf, Ht. change (zlen _ =? 16) with true.
  change (KSD_STATUS_OK =? KSD_STATUS_OK) with true. cbn [negb]. cbv zeta.
  change (zdrop 12 _) with (ksd_encode_u32 (u32 height)). change (zdrop 8 _) with (ksd_encode_u32 (u32 width) ++ ksd_encode_u32 (u32 height)).
  rewrite payload_drop4. rewrite !decode_i32_app by done.
  rewrite !(u32_id width), !(u32_id height) by (unfold is_u32; lia). rewrite decode_u32_app, decode_u32_end by (unfold is_u32; lia).
  unfold INT32_MAX in *. replace (negb _) with true by lia. done.
Qed.

Lemma reserved_read handle :
  handle_ok handle -> read_as (reserved_result ksd_result_init (Replied (handle_text handle))) get_reserved_result handle.
Proof.
  intros Hok. destruct (handle_text_canonical handle Hok) as ([_ (b & k & E & _)] & _ & Hlen). cbn [reserved_result].
  replace (zlen (handle_text handle) =? 0) with false by (symmetry; rewrite E; apply Z.eqb_neq; rewrite zlen_cons; pose proof (zlen_nonneg k); lia).
  rewrite u32_id by (unfold is_u32, zlen; lia). rewrite (proj2 (decimal_handle_exact _ handle) (conj eq_refl Hok)).
  exists (ksd_encode_u64 handle). split; [by apply copied_delivers|].
  apply (finish_reads (fun tail => guard* (zlen tail =? 8) && negb (ksd_decode_u64 tail =? 0) in Some (ksd_decode_u64 tail))).
  rewrite <- (app_nil_r (ksd_encode_u64 handle)), decode_encode_u64, u64_id, app_nil_r by by apply handle_u64.
  change (zlen (ksd_encode_u64 handle) =? 8) with true. unfold handle_ok in Hok. by replace (handle =? 0) with false by lia.
Qed.
End client_reads.

Section replies_exact.
Context {AL : Allocator} {AT : AllocTotal AL}.

(** A capture that is served: the file is sealed and holds what the client reads as the
    picture, and the result owns it. *)
Definition captures (run : memfd_run) (outcome : ksd_operation_result * list Z * list byte) (capture : ksd_capture) : Prop :=
  let '(result, closed, file) := outcome in
  mf_seals run = true /\ res_status result = KSD_STATUS_OK /\ res_payload_fd result = mf_fd run /\ 0 <= mf_fd run /\ res_tail result = None /\
  res_tail_length result = zlen file /\ closed = [] /\
  forall tail, client_reads (request_capture (Some file)) tail (fun fd => 0 <= fd) capture.

(** The picture when the file can be made, and otherwise a failure that closes the file. *)
Definition captures_or_fails (run : memfd_run) (outcome : ksd_operation_result * list Z * list byte) (capture : ksd_capture) : Prop :=
  if file_made run (capture_tail capture) then captures run outcome capture
  else res_status (fst (fst outcome)) = KSD_STATUS_INTERNAL /\ res_payload_fd (fst (fst outcome)) = -1 /\
       snd (fst outcome) = (if 0 <=? mf_fd run then [mf_fd run] else []).

Lemma capture_read run data outcome width height :
  1 <= zlen data <= KSD_MAX_CAPTURE_BYTES -> png_dimensions data = Some (width, height) ->
  capture_result run ksd_result_init (Replied data) = Some outcome ->
  captures_or_fails run outcome (png_capture width height data).
Proof.
  intros Hl Hd. cbn [capture_result]. replace (zlen data =? 0) with false by lia. rewrite (proj2 (Z.leb_le _ _)) by lia. cbn [negb andb]. rewrite Hd.
  assert (Hu : is_u32 (zlen data)) by (unfold is_u32, KSD_MAX_CAPTURE_BYTES in *; lia).
  destruct (sealed_capture_memfd run width height data) as [[[fd closed] file]|] eqn:E; [|done].
  apply (memfd_written run width height data _ _ _ Hu) in E. unfold captures_or_fails. destruct (file_made run _) eqn:Em.
  - destruct E as (-> & -> & ->). unfold file_made in Em. rewrite !andb_true_iff in Em. destruct Em as [[Hfd _] Hseal]. apply Z.leb_le in Hfd.
    rewrite (proj2 (Z.ltb_ge _ _)) by done. unfold ksd_result_take_fd. rewrite (proj2 (Z.ltb_ge _ _)) by done.
    pose proof (png_capture_wf data width height Hl Hd) as Hwf.
    assert (Hlen : zlen (capture_tail (png_capture width height data)) = 20 + zlen data) by (unfold capture_tail; rewrite !zlen_app, text_tail_length, !zlen_encode_u16, !zlen_encode_u32; cbn [png_capture cap_data]; lia).
    rewrite u32_id by (unfold is_u32, KSD_MAX_CAPTURE_BYTES in *; lia). replace (20 + zlen data =? 0) with false by lia. intros [= <-].
    unfold captures. cbn [res_status res_payload_fd res_tail res_tail_length]. do 5 (split; [done|]). split; [by rewrite Hlen|]. split; [done|].
    intros tail w response frame fd Hr Hs Hf _ Hfd'. unfold request_capture, finish. rewrite Hr, Hs, Hf. unfold mapped_capture.
    change (KSD_STATUS_OK =? KSD_STATUS_OK) with true. cbn [negb]. cbv beta. rewrite (proj2 (Z.leb_le _ _) Hfd'), Hlen.
    replace ((20 <=? 20 + zlen data) && (20 + zlen data <=? KSD_MAX_CAPTURE_TAIL)) with true by (unfold KSD_MAX_CAPTURE_TAIL; lia).
    by rewrite (proj2 (capture_result_exact _ _) (conj eq_refl Hwf)).
  - destruct E as (-> & ->). intros [= <-]. cbn. by rewrite app_nil_r.
Qed.

(** C26: What a shell replies is what the client gets.  A text, a position, an area, a
    reserved window, the formats or the content of the clipboard, when it is one the
    protocol can carry, is a result that the client's function for it reads as the very
    same value, and a picture is a sealed file that the client reads as that picture with
    the dimensions its header names; an extension that says no is the client's NOT_FOUND.
    What the protocol cannot carry fails with one status.  The file of a picture is made
    exactly when it could be created, written whole and sealed; otherwise the answer is
    INTERNAL, and a file that was created is closed.  (The memory of the answers does not
    run out.) *)
Theorem provider_replies_exact run :
  (forall value, let outcome := string_result ksd_result_init (Replied value) in
     if (zlen value <=? KSD_MAX_TEXT_BYTES) && ksd_utf8_valid value false then read_as outcome request_string_result value
     else fails outcome KSD_STATUS_RESOURCE_EXHAUSTED) /\
  (forall value, let outcome := boolean_result ksd_result_init (Replied value) in
     if (value : bool) then exists tail, outcome = Some (mk_result KSD_STATUS_OK 0 [] tail 0 (-1), [], [])
                            /\ client_reads request_empty_result (default [] tail) any_descriptor tt
     else fails outcome KSD_STATUS_NOT_FOUND) /\
  (forall x y, is_i32 x -> is_i32 y -> read_as (cursor_result ksd_result_init (Replied (x, y))) cursor_position_result (x, y)) /\
  (forall x y width height, is_i32 x -> is_i32 y -> is_i32 width -> is_i32 height ->
     let outcome := area_result ksd_result_init (Replied (x, y, width, height)) in
     (area_ok x y width height -> read_as outcome work_area_result (x, y, width, height)) /\
     (~ area_ok x y width height -> fails outcome KSD_STATUS_UNAVAILABLE)) /\
  (forall text, let outcome := reserved_result ksd_result_init (Replied text) in
     (forall handle, handle_ok handle -> text = handle_text handle -> read_as outcome get_reserved_result handle) /\
     (text = [] -> fails outcome KSD_STATUS_NOT_FOUND) /\
     (is_u32 (zlen text) -> text <> [] -> (forall handle, handle_ok handle -> text <> handle_text handle) -> fails outcome KSD_STATUS_UNAVAILABLE)) /\
  (forall values, let outcome := mimetypes_reply ksd_result_init (Replied values) in
     (Forall mimetype_item values /\ zlen values <= KSD_MAX_MIMETYPES /\ zlen (list_tail values) <= KSD_MAX_TEXT_BYTES ->
        read_as outcome mimetypes_result values) /\
     (~ (Forall mimetype_item values /\ zlen values <= KSD_MAX_MIMETYPES /\ zlen (list_tail values) <= KSD_MAX_TEXT_BYTES) ->
        fails outcome KSD_STATUS_RESOURCE_EXHAUSTED)) /\
  (forall data, let outcome := content_reply ksd_result_init (Replied data) in
     if zlen data <=? KSD_MAX_TEXT_BYTES then read_as outcome content_result data else fails outcome KSD_STATUS_RESOURCE_EXHAUSTED) /\
  (forall data outcome, capture_result run ksd_result_init (Replied data) = Some outcome ->
     match (guard* (1 <=? zlen data) && (zlen data <=? KSD_MAX_CAPTURE_BYTES) in png_dimensions data) with
     | Some (width, height) =>
       captures_or_fails run outcome (png_capture width height data)
     | None => fails (Some outcome) (if KSD_MAX_CAPTURE_BYTES <? zlen data then KSD_STATUS_RESOURCE_EXHAUSTED else KSD_STATUS_UNAVAILABLE)
     end).
Proof.
  split.
  { intros value outcome. destruct ((zlen value <=? _) && _) eqn:E.
    - apply andb_true_iff in E as [El Ev]. apply string_read; [lia|done].
    - unfold outcome. cbn [string_result]. replace (_ || _) with true; [apply ends_fails|]. symmetry.
      apply andb_false_iff in E as [E|E]; [apply orb_true_iff; left; lia|by rewrite E, orb_true_r]. }
  split.
  { intros [] outcome; [|apply ends_fails]. eexists. split; [reflexivity|].
    intros w response frame fd Hr Hs Hf Ht _. unfold request_empty_result, finish. by rewrite Hr, Hs, Hf, Ht. }
  split; [exact cursor_read|]. split.
  { intros x y width height Hx Hy Hw Hh outcome. split; [by apply area_read|]. intros Hno. unfold outcome. cbn [area_result].
    replace ((width <=? 0) || _ || _ || _) with true; [apply ends_fails|]. symmetry. unfold area_ok in Hno. lia. }
  split.
  { intros text outcome. split; [intros handle Hok ->; by apply reserved_read|]. split; [intros ->; apply ends_fails|].
    intros Hu Hne Hno. unfold outcome. cbn [reserved_result]. destruct (Z.eqb_spec (zlen text) 0) as [Hz|_].
    { destruct text; [done|]. rewrite zlen_cons in Hz. pose proof (zlen_nonneg text). lia. }
    rewrite u32_id by done. destruct (parse_decimal_handle text (zlen text)) as [h|] eqn:E; [|apply ends_fails].
    apply decimal_handle_exact in E as [-> Hok]. by destruct (Hno h Hok). }
  split.
  { intros values outcome. split; [intros (? & ? & ?); by apply mimetypes_read|]. intros Hno. apply mimetypes_fail.
    destruct (decide (Forall mimetype_item values)); [|by left]. destruct (Z.leb_spec (zlen values) KSD_MAX_MIMETYPES); [|auto].
    destruct (Z.leb_spec (zlen (list_tail values)) KSD_MAX_TEXT_BYTES); [tauto|auto]. }
  split.
  { intros data outcome. destruct (Z.leb_spec (zlen data) KSD_MAX_TEXT_BYTES); [by apply content_read|].
    unfold outcome. cbn [content_reply]. rewrite (proj2 (Z.ltb_lt _ _)) by done. by eexists. }
  intros data outcome Hc. pose proof (zlen_nonneg data).
  destruct (guard* (1 <=? zlen data) && _ in _) as [[width height]|] eqn:E.
  - destruct ((1 <=? zlen data) && _) eqn:El; [|done]. eapply capture_read; [lia|exact E|exact Hc].
  - rewrite <- Hc. cbn [capture_result]. replace (negb (zlen data =? 0)) with (1 <=? zlen data) by lia.
    destruct ((1 <=? zlen data) && _) eqn:El; [rewrite E|]; apply ends_fails.
Qed.
End replies_exact.

(** ** What is offered *)

Section offered.
Context {AL : Allocator}.

Definition provider_samples : list provider_op :=
  [ProviderCaptureArea 0 0 1 1; ProviderCaptureWindow 1 false; ProviderCursorPosition; ProviderWorkArea; ProviderWindowList false;
   ProviderWindowActive; ProviderWindowQuery 1; ProviderWindowHandle HandleFocus 1; ProviderWindowHandle HandleRaise 1;
   ProviderWindowHandle HandleLower 1; ProviderWindowHandle HandleClose 1; ProviderWindowHandle HandleKill 1;
   ProviderMoveResize false 1 0 0 1 1; ProviderMoveResize true 1 0 0 1 1; ProviderReserve 1 0 0 1; ProviderGetReserved 1;
   ProviderSetState 1 0; ProviderSetOpacity 1 0; ProviderSetAbove 1 false; ProviderSetDecorated 1 false; ProviderMimetypes;
   ProviderClipboardText; ProviderContent (cstr "a"); ProviderSetContent (cstr "a") []; ProviderMouseMove true 0 0;
   ProviderMouseMove false 0 0; ProviderMouseButton 1 false; ProviderMouseScroll 1 false].

Lemma provider_samples_ok : Forall provider_op_ok provider_samples.
Proof.
  repeat apply List.Forall_cons; try apply List.Forall_nil; cbn [provider_op_ok]; unfold handle_ok, is_i32, is_u32, utf8_within, UINT64_MAX, KSD_MAX_RESERVATION_TTL_MS,
    KSD_MAX_MOUSE_SCROLL_DELTA; try done; try lia; try (repeat split; (lia || reflexivity)).
  by left.
Qed.
Lemma provider_opcodes op : provider_op_ok op -> In (fst (provider_wire op)) (map (fun op => fst (provider_wire op)) provider_samples).
Proof. destruct op as [| | | | | | |[]|[]| | | | | | | | | | |[]| |]; intros _; cbn [provider_wire fst handle_opcode]; vm_compute; tauto. Qed.

(** The operations that are served without the extension: the keyboard is read by a display
    worker, and the watches are not requests. *)
Definition elsewhere (opcode : Z) : Prop := In opcode [KSD_OP_KEYBOARD_STATE; KSD_OP_CLIPBOARD_WATCH; KSD_OP_WINDOW_WATCH].

Definition shell_opcodes : list Z := map (fun op => fst (provider_wire op)) provider_samples.
Definition not_decorations (opcode : Z) : bool := negb (opcode =? KSD_OP_WINDOW_SET_DECORATED).

Lemma shell_opcodes_exact opcode : (exists op, provider_op_ok op /\ fst (provider_wire op) = opcode) <-> In opcode shell_opcodes.
Proof.
  split; [intros (op & Hok & <-); by apply provider_opcodes|]. unfold shell_opcodes. rewrite in_map_iff. intros (op & <- & Hin).
  exists op. split; [|done]. by apply (proj1 (List.Forall_forall _ _) provider_samples_ok).
Qed.
Lemma gnome_offered :
  offered (ksd_backend_operations KSD_BACKEND_GNOME) (KSD_OP_KEYBOARD_STATE :: KSD_OP_CLIPBOARD_WATCH :: shell_opcodes) = true.
Proof. vm_compute. reflexivity. Qed.
Lemma cinnamon_offered :
  offered (ksd_backend_operations KSD_BACKEND_CINNAMON)
    (KSD_OP_KEYBOARD_STATE :: KSD_OP_CLIPBOARD_WATCH :: List.filter not_decorations shell_opcodes) = true.
Proof. vm_compute. reflexivity. Qed.
Lemma captures_offered opcode backend :
  In opcode [KSD_OP_CAPTURE_AREA; KSD_OP_CAPTURE_WINDOW; KSD_OP_CAPTURE_DESKTOP] ->
  backend = KSD_BACKEND_GNOME \/ backend = KSD_BACKEND_CINNAMON ->
  ksd_provider_capture_supported backend opcode = negb (Z.land (ksd_operation_bit opcode) (ksd_backend_operations backend) =? 0).
Proof. intros Hcap Hb. destruct Hcap as [<- | [<- | [<- | []]]], Hb as [-> | ->]; vm_compute; reflexivity. Qed.

(** The operations of a list, when two of them are left to others. *)
Lemma offered_beyond opcode opcodes mask :
  ~ elsewhere opcode -> offered mask (KSD_OP_KEYBOARD_STATE :: KSD_OP_CLIPBOARD_WATCH :: opcodes) = true ->
  Z.land (ksd_operation_bit opcode) mask <> 0 <-> In opcode opcodes.
Proof.
  intros He Hm. rewrite <- (offered_exact _ _ opcode Hm) by (intros E; apply He; right; right; left; by symmetry).
  split; [|intros H; right; right; exact H]. intros [E | [E | E]]; [destruct He; by left|destruct He; right; by left|exact E].
Qed.

(** What a shell's session is offered is what its extension is asked for.  Apart from
    the keyboard and the watches, the operations the registry may offer for GNOME Shell
    are exactly those of an extension, and those for Cinnamon are the same but for the
    decorations of windows; so no client is told of an operation that would be refused
    as invalid.  In particular the captures offered are those the code takes the shells
    to serve. *)
Theorem provider_masks_served opcode :
  ~ elsewhere opcode ->
  (Z.land (ksd_operation_bit opcode) (ksd_backend_operations KSD_BACKEND_GNOME) <> 0 <->
   exists op, provider_op_ok op /\ fst (provider_wire op) = opcode) /\
  (Z.land (ksd_operation_bit opcode) (ksd_backend_operations KSD_BACKEND_CINNAMON) <> 0 <->
   opcode <> KSD_OP_WINDOW_SET_DECORATED /\ exists op, provider_op_ok op /\ fst (provider_wire op) = opcode) /\
  (In opcode [KSD_OP_CAPTURE_AREA; KSD_OP_CAPTURE_WINDOW; KSD_OP_CAPTURE_DESKTOP] ->
   forall backend, backend = KSD_BACKEND_GNOME \/ backend = KSD_BACKEND_CINNAMON ->
     ksd_provider_capture_supported backend opcode = negb (Z.land (ksd_operation_bit opcode) (ksd_backend_operations backend) =? 0)).
Proof.
  intros He. rewrite shell_opcodes_exact. split; [|split].
  - exact (offered_beyond _ _ _ He gnome_offered).
  - rewrite (offered_beyond _ _ _ He cinnamon_offered), filter_In. unfold not_decorations. rewrite negb_true_iff, Z.eqb_neq. tauto.
  - intros Hc backend Hb. by apply captures_offered.
Qed.
End offered.

(** ** Witnesses *)

Section provider_witnesses.
#[local] Existing Instance infinite_memory.
#[local] Instance provider_total : AllocTotal infinite_memory := fun _ => eq_refl.

(** A shell that says yes and answers everything else with nothing. *)
Definition willing_bus : provider_bus := fun T type _ =>
  match type in reply_type T return provider_reply T with
  | TypeBoolean => Replied true
  | _ => NoReply None
  end.
Definition no_file : memfd_run := mk_memfd (-1) [] [] false.
Definition focus_request : ksd_frame := call_frame KSD_OP_WINDOW_FOCUS 4 (ksd_encode_u64 77).

Lemma provider_requests_exact_witness :
  perform_action willing_bus (ksd_provider_execute no_file 42 KSD_BACKEND_GNOME focus_request)
  = (Some (mk_dbus (cstr "FocusWindow") [GUint64 77] KSD_PROVIDER_TIMEOUT_MS), Some (mk_result KSD_STATUS_OK 0 [] None 0 (-1), [], [])).
Proof.
  refine (proj1 (provider_requests_exact no_file 42 willing_bus KSD_BACKEND_GNOME focus_request eq_refl (or_introl eq_refl))
    (ProviderWindowHandle HandleFocus 77) _ _).
  - vm_compute. split; discriminate.
  - split; [reflexivity|split; reflexivity].
Defined.

Lemma client_reaches_provider_witness :
  (perform_action willing_bus (ksd_provider_execute no_file 42 KSD_BACKEND_CINNAMON (call_frame KSD_OP_MOUSE_SCROLL 4 (ksd_encode_u32 (u32 (-120)) ++ ksd_encode_u32 1)))
   = (Some (mk_dbus (cstr "SendMouseScroll") [GInt32 (-120); GBoolean true] KSD_PROVIDER_TIMEOUT_MS), Some (mk_result KSD_STATUS_OK 0 [] None 0 (-1), [], []))) /\
  (let answer := perform_action willing_bus (ksd_provider_execute no_file 42 KSD_BACKEND_CINNAMON (call_frame KSD_OP_MOUSE_BUTTON 4 (ksd_encode_u32 4 ++ ksd_encode_u32 1))) in
   fst answer = None /\ fails (snd answer) KSD_STATUS_INVALID_REQUEST).
Proof.
  assert (Hi : is_i32 (-120)) by (split; [discriminate|reflexivity]).
  assert (Hu : is_u32 4) by (split; [discriminate|reflexivity]).
  split.
  - exact (proj2 (proj2 (client_reaches_provider _ _ no_file 42 willing_bus KSD_BACKEND_CINNAMON 4 (ClientPScroll (-120) true Hi) (or_intror eq_refl))
      KSD_OP_MOUSE_SCROLL (Some (ksd_encode_u32 (u32 (-120)) ++ ksd_encode_u32 1)) eq_refl)).
  - refine (proj1 (client_reaches_provider _ _ no_file 42 willing_bus KSD_BACKEND_CINNAMON 4 (ClientPButton 4 true Hu) (or_intror eq_refl)) eq_refl _).
    split; [discriminate|reflexivity].
Defined.

Lemma provider_masks_served_witness :
  ksd_provider_capture_supported KSD_BACKEND_CINNAMON KSD_OP_CAPTURE_DESKTOP = false.
Proof.
  refine (eq_trans (proj2 (proj2 (provider_masks_served KSD_OP_CAPTURE_DESKTOP _)) _ KSD_BACKEND_CINNAMON (or_intror eq_refl)) _).
  - intros [H|[H|[H|[]]]]; vm_compute in H; discriminate.
  - right. right. left. reflexivity.
  - vm_compute. reflexivity.
Defined.

Lemma provider_replies_exact_witness :
  AllocTotal infinite_memory /\ read_as (string_result ksd_result_init (Replied (cstr "title"))) request_string_result (cstr "title").
Proof. split; [exact provider_total|]. exact (proj1 (provider_replies_exact no_file) (cstr "title")). Defined.
End provider_witnesses.
