(* ===== verification/ProviderConnections.v ===== *)
(** * Connections to the shells' extensions (src/provider.c)

    The authority keeps a connection for each user and shell, in a table under a mutex,
    and its workers share it: a worker takes a reference from the table, checks again who
    is at the other end, and opens a connection of its own when there is none.  The file
    models what a peer is checked for, the deadline of opening, the locked sections of
    [provider_connection_get], and the runs of any number of workers and watches whose
    steps interleave.  A connection is known by a number; its references are counted as
    the object library counts them, and a number may be used again once it is free. *)
From Stdlib Require Import ZArith Lia Strings.Byte Strings.String.
From stdpp Require Import base list option numbers tactics gmap.
From S2P Require Import Prelude.
From S2P Require Import Protocol.
From S2P Require Import Codec.
From S2P Require Import Buffer.
From S2P Require Import Utf8.
From S2P Require Import Frame.
From S2P Require Import Operations.
From S2P Require Import KwinEnvelope.
From S2P Require Import Environ.
From S2P Require Import Result.
From S2P Require Import Response.
From S2P Require Import Install.
From S2P Require Import Client.
From S2P Require Import ClientCalls.
From S2P Require Import DisplayCalls.
From S2P Require Import Provider.
Local Open Scope Z_scope.
Local Open Scope ksd_scope.

(** ** The peer *)

(** What the library says of the credentials: each part may be an error. *)
Record credentials := mk_credentials { cr_user : g_error + Z; cr_pid : g_error + Z }.
Inductive peer_source :=
| Retained (found : credentials)             (** kept by the connection *)
| FromSocket (found : g_error + credentials) (** asked of its socket *)
| NotSocket.
(** A process: the path of its executable and the file it is. *)
Record process_entry := mk_process { px_executable : option (list byte); px_status : option file_status }.

Definition io_error (code : g_io_error) (message : string) : g_error := mk_error code (cstr message).

Definition socket_name (backend : Z) : option (list byte) :=
  if backend =? KSD_BACKEND_GNOME then Some (cstr "provider-gnome.sock")
  else if backend =? KSD_BACKEND_CINNAMON then Some (cstr "provider-cinnamon.sock") else None.
Definition provider_executable_name (backend : Z) : option (list byte) :=
  if backend =? KSD_BACKEND_GNOME then Some (cstr "gnome-shell")
  else if backend =? KSD_BACKEND_CINNAMON then Some (cstr "cinnamon") else None.

Definition provider_peer_credentials (source : peer_source) : g_error + credentials :=
  match source with
  | Retained found => inr found
  | NotSocket => inl (io_error IoNotSupported "desktop provider peer credentials are unavailable")
  | FromSocket found => found
  end.

Definition PATH_MAX : Z := 4096.

(** [None] when the peer is valid, and the error otherwise. *)
Definition provider_peer_valid (source : peer_source) (process : Z -> process_entry) (uid provider_pid backend : Z) : option g_error :=
  match provider_peer_credentials source with
  | inl error => Some error
  | inr found =>
    match cr_user found, cr_pid found with
    | inl error, _ => Some error
    | inr _, inl error => Some error
    | inr peer_uid, inr peer_pid =>
      let invalid := io_error IoPermissionDenied "desktop provider peer identity is invalid" in
      match provider_executable_name backend, px_executable (process peer_pid), px_status (process peer_pid) with
      | Some expected, Some executable, Some status =>
        if negb (peer_uid =? uid) || (peer_pid <=? 0) || negb (peer_pid =? provider_pid) || (zlen executable <=? 0)
           || (PATH_MAX + 1 <=? zlen executable) || negb (is_regular status) || negb (st_uid status =? 0)
           || negb (Z.land (st_mode status) OTHERS_WRITE =? 0)
        then Some invalid
        else if negb (ksd_provider_executable_matches executable expected)
        then Some (io_error IoPermissionDenied "desktop provider executable is invalid")
        else None
      | _, _, _ => Some invalid
      end
    end
  end.

(** ** The deadline of opening *)

(** What the calls that set the deadline up give. *)
Record deadline_run := mk_deadline_run {
  dr_cancellable : bool; dr_mutex : bool; dr_attributes : bool; dr_setclock : bool; dr_condition : bool;
  dr_now : option (Z * Z); dr_thread : bool }.
(** What is live afterwards. *)
Record deadline_live := mk_live { dl_cancellable : bool; dl_mutex : bool; dl_attributes : bool; dl_condition : bool; dl_thread : bool }.
Definition nothing_live : deadline_live := mk_live false false false false false.

Definition deadline_expires (timeout_ms sec nsec : Z) : Z * Z :=
  let sec := sec + timeout_ms / 1000 in
  let nsec := nsec + timeout_ms mod 1000 * 1000000 in
  if 1000000000 <=? nsec then (sec + 1, nsec - 1000000000) else (sec, nsec).

(** The deadline, or the error; and what is left live. *)
Definition deadline_start (run : deadline_run) (timeout_ms : Z) : (g_error + Z * Z) * deadline_live :=
  let mutex_ready := dr_mutex run in
  let attributes_ready := mutex_ready && dr_attributes run in
  let condition_ready := attributes_ready && dr_setclock run && dr_condition run in
  match (guard* dr_cancellable run && condition_ready in dr_now run) with
  | None => (inl (io_error IoOther "provider deadline could not be created"), nothing_live)
  | Some (sec, nsec) =>
    if dr_thread run then (inr (deadline_expires timeout_ms sec nsec), mk_live true true false true true)
    else (inl (io_error IoOther "provider deadline thread could not be created"), nothing_live)
  end.

(** The thread: what [done] is each time it is looked at, and how the wait that follows
    ends.  It gives whether the operation was cancelled. *)
Inductive wait_status := WaitSignalled | WaitTimedOut | WaitFailed.
Fixpoint deadline_thread (turns : list (bool * wait_status)) : option bool :=
  match turns with
  | [] => None
  | (finished, status) :: turns =>
    if (finished : bool) then Some false
    else match status with WaitSignalled => deadline_thread turns | WaitTimedOut | WaitFailed => Some true end
  end.

Definition deadline_finish (live : deadline_live) : deadline_live := if dl_thread live then nothing_live else live.

(** ** Opening *)

(** What the calls that open a connection give: [op_bus] is the new connection. *)
Record open_run := mk_open {
  op_deadline : deadline_run; op_memory : bool; op_connect : list byte -> option g_error;
  op_bus : g_error + Z; op_peer : peer_source; op_process : Z -> process_entry }.

Definition provider_address (uid : Z) (name : list byte) : list byte :=
  cstr "/run/user/" ++ decimal_text uid ++ cstr "/keysharp-desktop/" ++ name.

(** The connection or the error; a connection that was made and given up; and what is
    live of the deadline. *)
Definition provider_connection_open (run : open_run) (uid provider_pid backend : Z)
    : (g_error + Z) * list Z * deadline_live :=
  match socket_name backend with
  | None => (inl (io_error IoNotSupported "desktop provider registration is unavailable"), [], nothing_live)
  | Some name =>
    if provider_pid <=? 0 then (inl (io_error IoNotSupported "desktop provider registration is unavailable"), [], nothing_live)
    else
      match deadline_start (op_deadline run) KSD_PROVIDER_TIMEOUT_MS with
      | (inl error, live) => (inl error, [], live)
      | (inr _, live) =>
        let path := provider_address uid name in
        let '(opened, given_up) :=
          if 256 <=? zlen path then (inl (io_error IoOther "desktop provider address is invalid"), [])
          else if negb (op_memory run) then (inl (io_error IoOther "could not allocate provider connection"), [])
          else
            match op_connect run path with
            | Some error => (inl error, [])
            | None =>
              match op_bus run with
              | inl error => (inl error, [])
              | inr connection =>
                match provider_peer_valid (op_peer run) (op_process run) uid provider_pid backend with
                | Some error => (inl error, [connection])
                | None => (inr connection, [])
                end
              end
            end in
        (opened, given_up, deadline_finish live)
      end
  end.

(** ** The table *)

Record provider_connection := mk_entry { pc_uid : Z; pc_pid : Z; pc_backend : Z; pc_connection : option Z }.
Record provider_table := mk_table { pt_entries : list provider_connection; pt_references : gmap Z Z }.

Definition references (table : provider_table) (connection : Z) : Z := default 0 (pt_references table !! connection).
Definition count_references (delta connection : Z) (table : provider_table) : provider_table :=
  mk_table (pt_entries table) (<[connection := references table connection + delta]> (pt_references table)).
Definition g_object_ref : Z -> provider_table -> provider_table := count_references 1.
Definition g_object_unref : Z -> provider_table -> provider_table := count_references (-1).
Definition unref_stored (stored : option Z) (table : provider_table) : provider_table :=
  match stored with Some connection => g_object_unref connection table | None => table end.

Definition is_entry (uid backend : Z) (entry : provider_connection) : bool := (pc_uid entry =? uid) && (pc_backend entry =? backend).
Fixpoint update_entry (uid backend : Z) (change : provider_connection -> provider_connection) (entries : list provider_connection)
    : list provider_connection :=
  match entries with
  | [] => []
  | entry :: entries => if is_entry uid backend entry then change entry :: entries else entry :: update_entry uid backend change entries
  end.
Definition find_entry (uid backend : Z) (table : provider_table) : option provider_connection :=
  List.find (is_entry uid backend) (pt_entries table).
Definition put_entry (entry : provider_connection) (table : provider_table) : provider_table :=
  mk_table (update_entry (pc_uid entry) (pc_backend entry) (fun _ => entry) (pt_entries table)) (pt_references table).

(** The first locked section of [provider_connection_get]: the connection that is
    stored, with a reference for the caller.  An entry of another process of the shell
    becomes an entry of this one, and a closed connection is let go. *)
Definition connection_lookup (closed : Z -> bool) (uid provider_pid backend : Z) (table : provider_table) : provider_table * option Z :=
  match find_entry uid backend table with
  | None => (table, None)
  | Some entry =>
    let '(table, stored) :=
      if negb (pc_pid entry =? provider_pid)
      then (put_entry (mk_entry uid provider_pid backend None) (unref_stored (pc_connection entry) table), None)
      else (table, pc_connection entry) in
    match stored with
    | None => (table, None)
    | Some connection =>
      if closed connection
      then (put_entry (mk_entry uid provider_pid backend None) (g_object_unref connection table), None)
      else (g_object_ref connection table, Some connection)
    end
  end.

(** Its second section: the connection that was opened is stored, unless one is stored
    already or the registration changed.  It gives what the caller uses, and whether it
    lets go of the one that was opened. *)
Definition connection_store (memory : bool) (uid provider_pid backend opened : Z) (table : provider_table)
    : provider_table * (g_error + Z) * bool :=
  let use entry table :=
    match pc_connection entry with
    | Some stored => (g_object_ref stored table, inr stored, true)
    | None => (g_object_ref opened (put_entry (mk_entry uid provider_pid backend (Some opened)) table), inr opened, false)
    end in
  match find_entry uid backend table with
  | Some entry =>
    if negb (pc_pid entry =? provider_pid) then (table, inl (io_error IoOther "desktop provider registration changed"), true)
    else use entry table
  | None =>
    if memory then
      let entry := mk_entry uid provider_pid backend None in
      use entry (mk_table (entry :: pt_entries table) (pt_references table))
    else (table, inl (io_error IoOther "out of memory"), true)
  end.

(** The search compares the connection as well, so it passes over an entry that holds
    another. *)
Definition holds (connection : Z) (entry : provider_connection) : bool := bool_decide (pc_connection entry = Some connection).
Fixpoint clear_entry (uid backend connection : Z) (entries : list provider_connection) : bool * list provider_connection :=
  match entries with
  | [] => (false, [])
  | entry :: entries =>
    if is_entry uid backend entry && holds connection entry then (true, mk_entry (pc_uid entry) (pc_pid entry) (pc_backend entry) None :: entries)
    else let '(found, entries) := clear_entry uid backend connection entries in (found, entry :: entries)
  end.
Definition provider_connection_invalidate (uid backend connection : Z) (table : provider_table) : provider_table :=
  let '(found, entries) := clear_entry uid backend connection (pt_entries table) in
  let table := mk_table entries (pt_references table) in
  if (found : bool) then g_object_unref connection table else table.

(** ** A caller *)

(** [provider_call] uses a connection for one call, [ksd_provider_watch] for as long as
    it watches. *)
Record caller := mk_caller { cl_uid : Z; cl_pid : Z; cl_backend : Z; cl_watch : bool }.

(** Where a caller is between its locked sections; the connections it names are those it
    has a reference to. *)
Inductive stage :=
| Getting
| Validating (connection : Z)
| Invalidating (connection : Z) (error : g_error)
| Failing (connection : Z) (error : g_error)
| Opening
| Storing (opened : Z)
| Dropping (opened : Z) (outcome : g_error + Z)
| Calling (connection : Z)
| Leaving (connection : Z)
| Finishing (connection : Z)
| Finished (error : option g_error).

(** What a caller sees of the outside in a step. *)
Inductive observation :=
| SeesClosed (closed : Z -> bool)
| SeesPeer (source : peer_source) (process : Z -> process_entry)
| SeesOpening (run : open_run)
| SeesMemory (memory : bool)
| SeesEnd (replied closed : bool)
| SeesNothing.

Definition caller_valid (who : caller) (source : peer_source) (process : Z -> process_entry) : option g_error :=
  provider_peer_valid source process (cl_uid who) (cl_pid who) (cl_backend who).

(** A connection is made with one reference, that of its maker. *)
Definition opening_step (who : caller) (run : open_run) (table : provider_table) : stage * provider_table :=
  let '(opened, given_up, _) := provider_connection_open run (cl_uid who) (cl_pid who) (cl_backend who) in
  match opened with
  | inr connection => (Storing connection, g_object_ref connection table)
  | inl error => (Finished (Some error), fold_left (fun table connection => g_object_unref connection (g_object_ref connection table)) given_up table)
  end.

Definition caller_step (who : caller) (sees : observation) (at_stage : stage) (table : provider_table) : option (stage * provider_table) :=
  let uid := cl_uid who in let pid := cl_pid who in let backend := cl_backend who in
  match at_stage, sees with
  | Getting, SeesClosed closed =>
    let '(table, stored) := connection_lookup closed uid pid backend table in
    Some (match stored with Some connection => Validating connection | None => Opening end, table)
  | Validating connection, SeesPeer source process =>
    Some (match caller_valid who source process with None => Calling connection | Some error => Invalidating connection error end, table)
  | Invalidating connection error, SeesNothing =>
    Some (Failing connection error, provider_connection_invalidate uid backend connection table)
  | Failing connection error, SeesNothing => Some (Finished (Some error), g_object_unref connection table)
  | Opening, SeesOpening run => Some (opening_step who run table)
  | Storing opened, SeesMemory memory =>
    let '(table, outcome, dropped) := connection_store memory uid pid backend opened table in
    Some (if (dropped : bool) then Dropping opened outcome
          else match outcome with inr connection => Calling connection | inl error => Finished (Some error) end, table)
  | Dropping opened outcome, SeesNothing =>
    Some (match outcome with inr connection => Calling connection | inl error => Finished (Some error) end, g_object_unref opened table)
  | Calling connection, SeesEnd replied closed =>
    Some (if (if cl_watch who then closed else negb replied && closed) then Leaving connection else Finishing connection, table)
  | Leaving connection, SeesNothing => Some (Finishing connection, provider_connection_invalidate uid backend connection table)
  | Finishing connection, SeesNothing => Some (Finished None, g_object_unref connection table)
  | _, _ => None
  end.

(** ** All callers *)

(** [ps_seen] is what each connection's peer was when it was opened. *)
Record provider_system := mk_psystem {
  ps_table : provider_table; ps_callers : list (caller * stage); ps_seen : gmap Z (peer_source * (Z -> process_entry)) }.

(** A connection that is opened is a new one: nothing refers to it. *)
Definition opens_new (sees : observation) (table : provider_table) : Prop :=
  match sees with
  | SeesOpening run => match op_bus run with inr connection => references table connection = 0 | inl _ => True end
  | _ => True
  end.
Definition saw (sees : observation) (seen : gmap Z (peer_source * (Z -> process_entry))) : gmap Z (peer_source * (Z -> process_entry)) :=
  match sees with
  | SeesOpening run => match op_bus run with inr connection => <[connection := (op_peer run, op_process run)]> seen | inl _ => seen end
  | _ => seen
  end.

Inductive provider_step : provider_system -> provider_system -> Prop :=
| CallerArrives system who :
    provider_step system (mk_psystem (ps_table system) (ps_callers system ++ [(who, Getting)]) (ps_seen system))
| CallerSteps system i who from sees to table :
    ps_callers system !! i = Some (who, from) ->
    opens_new sees (ps_table system) ->
    caller_step who sees from (ps_table system) = Some (to, table) ->
    provider_step system (mk_psystem table (<[i := (who, to)]> (ps_callers system)) (saw sees (ps_seen system))).

Definition provider_initial : provider_system := mk_psystem (mk_table [] ∅) [] ∅.
Definition provider_reachable (system : provider_system) : Prop := rtc provider_step provider_initial system.

(** ** References *)

Definition zcount (connection : Z) (owned : list Z) : Z := Z.of_nat (count_occ Z.eq_dec owned connection).
Lemma zcount_nil c : zcount c [] = 0.
Proof. done. Qed.
Lemma zcount_app c l1 l2 : zcount c (l1 ++ l2) = zcount c l1 + zcount c l2.
Proof. unfold zcount. rewrite count_occ_app. lia. Qed.
Lemma zcount_cons c d l : zcount c (d :: l) = zcount c [d] + zcount c l.
Proof. apply (zcount_app c [d] l). Qed.
Lemma zcount_one c d : zcount c [d] = if Z.eq_dec d c then 1 else 0.
Proof. unfold zcount. cbn [count_occ]. by destruct (Z.eq_dec d c). Qed.
Lemma zcount_nonneg c l : 0 <= zcount c l.
Proof. unfold zcount. lia. Qed.
Lemma zcount_in c l : In c l <-> 0 < zcount c l.
Proof. unfold zcount. rewrite (count_occ_In Z.eq_dec). lia. Qed.

(** The references a table owns, those a caller owns, and what is left over for the
    callers of a table. *)
Definition stored (table : provider_table) : list Z := omap pc_connection (pt_entries table).
Definition option_refs (held : option Z) : list Z := match held with Some connection => [connection] | None => [] end.
Definition outcome_refs {E} (outcome : E + Z) : list Z := match outcome with inr connection => [connection] | inl _ => [] end.
Definition stage_refs (at_stage : stage) : list Z :=
  match at_stage with
  | Getting | Opening | Finished _ => []
  | Validating connection | Invalidating connection _ | Failing connection _ | Storing connection
  | Calling connection | Leaving connection | Finishing connection => [connection]
  | Dropping opened outcome => opened :: outcome_refs outcome
  end.
Definition left_over (table : provider_table) (connection : Z) : Z := references table connection - zcount connection (stored table).

Lemma references_count d c table c' :
  references (count_references d c table) c' = references table c' + d * zcount c' [c].
Proof.
  rewrite zcount_one. unfold references at 1, count_references. cbn [pt_references]. destruct (Z.eq_dec c c') as [->|Hne].
  - rewrite lookup_insert_eq. cbn. lia.
  - rewrite lookup_insert_ne by done. fold (references table c'). lia.
Qed.
Lemma left_over_ref c table c' : left_over (g_object_ref c table) c' = left_over table c' + zcount c' [c].
Proof. unfold left_over, g_object_ref. rewrite references_count. change (stored (count_references 1 c table)) with (stored table). lia. Qed.
Lemma left_over_unref c table c' : left_over (g_object_unref c table) c' = left_over table c' - zcount c' [c].
Proof. unfold left_over, g_object_unref. rewrite references_count. change (stored (count_references (-1) c table)) with (stored table). lia. Qed.
Lemma left_over_unref_stored o table c' : left_over (unref_stored o table) c' = left_over table c' - zcount c' (option_refs o).
Proof.
  destruct o as [stored|]; cbn [unref_stored option_refs]; [apply left_over_unref|].
  rewrite zcount_nil. lia.
Qed.

(** An entry that is found is the only part of the table an update changes. *)
Lemma find_entry_split uid backend table entry :
  find_entry uid backend table = Some entry ->
  is_entry uid backend entry = true /\
  exists before after, pt_entries table = before ++ entry :: after /\
    forall change, update_entry uid backend change (pt_entries table) = before ++ change entry :: after.
Proof.
  unfold find_entry. induction (pt_entries table) as [|e l IH]; cbn [List.find update_entry]; [done|].
  destruct (is_entry uid backend e) eqn:E.
  - intros [= ->]. split; [done|]. by exists [], l.
  - intros H. destruct (IH H) as (Hi & before & after & -> & Hu). split; [done|]. exists (e :: before), after. split; [done|].
    intros change. by rewrite Hu.
Qed.
Lemma stored_app before after : omap pc_connection (before ++ after) = omap pc_connection before ++ omap pc_connection after.
Proof. apply omap_app. Qed.
Lemma stored_cons entry entries : omap pc_connection (entry :: entries) = option_refs (pc_connection entry) ++ omap pc_connection entries.
Proof. cbn [omap list_omap]. by destruct (pc_connection entry). Qed.

Lemma left_over_put uid pid backend o table entry c :
  find_entry uid backend table = Some entry ->
  left_over (put_entry (mk_entry uid pid backend o) table) c
  = left_over table c + zcount c (option_refs (pc_connection entry)) - zcount c (option_refs o).
Proof.
  intros Hf. destruct (find_entry_split _ _ _ _ Hf) as (_ & before & after & E & Hu). unfold left_over, stored, put_entry.
  cbn [pt_entries pt_references pc_uid pc_backend]. rewrite Hu, E, !stored_app, !stored_cons, !zcount_app. cbn [pc_connection].
  unfold references. cbn [pt_references]. lia.
Qed.
Lemma find_entry_unref uid backend c table : find_entry uid backend (g_object_unref c table) = find_entry uid backend table.
Proof. done. Qed.

(** *** The sections keep the count *)

Lemma lookup_counted closed uid pid backend table table' r c :
  connection_lookup closed uid pid backend table = (table', r) ->
  left_over table' c = left_over table c + zcount c (option_refs r).
Proof.
  unfold connection_lookup. destruct (find_entry uid backend table) as [entry|] eqn:Hf.
  2: { intros [= <- <-]. cbn [option_refs]. rewrite zcount_nil. lia. }
  destruct (negb (pc_pid entry =? pid)).
  - intros [= <- <-]. rewrite (left_over_put _ _ _ _ _ entry) by (by destruct (pc_connection entry)).
    rewrite left_over_unref_stored. cbn [option_refs]. change (zcount c []) with 0. lia.
  - destruct (pc_connection entry) as [stored|] eqn:Es; [|intros [= <- <-]; cbn [option_refs]; rewrite zcount_nil; lia]. destruct (closed stored); intros [= <- <-].
    + rewrite (left_over_put _ _ _ _ _ entry), left_over_unref, Es by done. cbn [option_refs]. change (zcount c []) with 0. lia.
    + apply left_over_ref.
Qed.

Lemma store_counted memory uid pid backend opened table table' outcome dropped c :
  connection_store memory uid pid backend opened table = (table', outcome, dropped) ->
  left_over table' c + zcount c [opened]
  = left_over table c + zcount c (stage_refs (if (dropped : bool) then Dropping opened outcome
      else match outcome with inr connection => Calling connection | inl error => Finished (Some error) end)) /\
  (dropped = false -> outcome = inr opened).
Proof.
  assert (Hput : forall table, find_entry uid backend table = Some (mk_entry uid pid backend None) ->
    left_over (g_object_ref opened (put_entry (mk_entry uid pid backend (Some opened)) table)) c = left_over table c).
  { intros t Hf. rewrite left_over_ref, (left_over_put _ _ _ _ _ _ _ Hf). cbn [option_refs pc_connection]. change (zcount c []) with 0. lia. }
  unfold connection_store. destruct (find_entry uid backend table) as [entry|] eqn:Hf.
  - destruct (negb (pc_pid entry =? pid)); [intros [= <- <- <-]; by cbn [stage_refs outcome_refs]|].
    destruct (pc_connection entry) as [held|] eqn:Es; intros [= <- <- <-]; cbn [stage_refs outcome_refs]; (split; [|done]).
    + rewrite left_over_ref, (zcount_cons c opened [held]). lia.
    + rewrite left_over_ref, (left_over_put _ _ _ _ _ entry), Es by done. cbn [option_refs]. change (zcount c []) with 0. lia.
  - destruct memory; [|intros [= <- <- <-]; by cbn [stage_refs outcome_refs]]. cbn [pc_connection]. intros [= <- <- <-].
    cbn [stage_refs]. split; [|done]. rewrite Hput; [done|]. unfold find_entry. cbn [pt_entries List.find]. unfold is_entry. cbn. by rewrite !Z.eqb_refl.
Qed.

Lemma clear_entry_counted uid backend connection entries c :
  zcount c (omap pc_connection (snd (clear_entry uid backend connection entries)))
  = zcount c (omap pc_connection entries) - (if fst (clear_entry uid backend connection entries) then zcount c [connection] else 0).
Proof.
  induction entries as [|e l IH]; [done|]. cbn [clear_entry]. destruct (is_entry uid backend e && holds connection e) eqn:E.
  - apply andb_true_iff in E as [_ E]. apply bool_decide_eq_true in E. cbn [fst snd]. rewrite !stored_cons, !zcount_app, E. cbn.
    change (zcount c []) with 0. lia.
  - destruct (clear_entry uid backend connection l) as [found l']. cbn [fst snd] in *. rewrite !stored_cons, !zcount_app, IH. lia.
Qed.
Lemma invalidate_counted uid backend connection table c :
  left_over (provider_connection_invalidate uid backend connection table) c = left_over table c.
Proof.
  unfold provider_connection_invalidate. pose proof (clear_entry_counted uid backend connection (pt_entries table) c) as H.
  destruct (clear_entry uid backend connection (pt_entries table)) as [[] entries]; cbn [fst snd] in H.
  - rewrite left_over_unref. unfold left_over, stored, references in *. cbn [pt_entries pt_references]. lia.
  - unfold left_over, stored, references in *. cbn [pt_entries pt_references]. lia.
Qed.

Lemma opening_counted who run table to table' c :
  opening_step who run table = (to, table') -> left_over table' c = left_over table c + zcount c (stage_refs to).
Proof.
  unfold opening_step. destruct (provider_connection_open run (cl_uid who) (cl_pid who) (cl_backend who)) as [[[error|connection] given_up] live].
  - intros [= <- <-]. cbn [stage_refs]. change (zcount c []) with 0. revert table. induction given_up as [|d l IH]; intros table; cbn [fold_left]; [lia|].
    rewrite IH, left_over_unref, left_over_ref. lia.
  - intros [= <- <-]. apply left_over_ref.
Qed.

(** Each step leaves to the callers what they own. *)
Lemma caller_step_counted who sees from table to table' c :
  caller_step who sees from table = Some (to, table') ->
  left_over table' c + zcount c (stage_refs from) = left_over table c + zcount c (stage_refs to).
Proof.
  destruct from, sees; cbn [caller_step]; try discriminate.
  - destruct (connection_lookup _ _ _ _ _) as [t r] eqn:E. intros [= <- <-]. rewrite (lookup_counted _ _ _ _ _ _ _ c E).
    destruct r; cbn [option_refs stage_refs]; change (zcount c []) with 0; lia.
  - intros [= <- <-]. by destruct (caller_valid who source process).
  - intros [= <- <-]. rewrite invalidate_counted. done.
  - intros [= <- <-]. rewrite left_over_unref. cbn [stage_refs]. change (zcount c []) with 0. lia.
  - intros [= E]. cbn [stage_refs]. change (zcount c []) with 0. rewrite (opening_counted _ _ _ _ _ c E). lia.
  - destruct (connection_store _ _ _ _ _ _) as [[t outcome] dropped] eqn:E. intros [= <- <-]. by destruct (store_counted _ _ _ _ _ _ _ _ _ c E).
  - intros [= <- <-]. rewrite left_over_unref. cbn [stage_refs]. rewrite (zcount_cons c opened (outcome_refs outcome)). destruct outcome; cbn [outcome_refs stage_refs]; rewrite ?zcount_nil; lia.
  - intros [= <- <-]. by destruct (if cl_watch who then closed else negb replied && closed).
  - intros [= <- <-]. rewrite invalidate_counted. done.
  - intros [= <- <-]. rewrite left_over_unref. cbn [stage_refs]. change (zcount c []) with 0. lia.
Qed.

(** ** The invariant of all callers *)

Definition trusted_for (seen : gmap Z (peer_source * (Z -> process_entry))) (uid pid backend connection : Z) : Prop :=
  exists source process, seen !! connection = Some (source, process) /\ provider_peer_valid source process uid pid backend = None.
Definition entry_key (entry : provider_connection) : Z * Z := (pc_uid entry, pc_backend entry).
Definition entry_trusted seen (entry : provider_connection) : Prop :=
  forall connection, pc_connection entry = Some connection -> trusted_for seen (pc_uid entry) (pc_pid entry) (pc_backend entry) connection.
Definition stage_trusted seen (who : caller) (at_stage : stage) : Prop :=
  forall connection, In connection (stage_refs at_stage) -> trusted_for seen (cl_uid who) (cl_pid who) (cl_backend who) connection.
(** The references the callers own. *)
Definition held (callers : list (caller * stage)) : list Z := concat (map (fun c => stage_refs (snd c)) callers).

Record provider_inv (system : provider_system) : Prop := {
  inv_keys : NoDup (map entry_key (pt_entries (ps_table system)));
  inv_counted connection : left_over (ps_table system) connection = zcount connection (held (ps_callers system));
  inv_entries : Forall (entry_trusted (ps_seen system)) (pt_entries (ps_table system));
  inv_callers : Forall (fun c => stage_trusted (ps_seen system) (fst c) (snd c)) (ps_callers system) }.

(** *** The keys and the peers of the entries *)

Definition table_ok seen (table : provider_table) : Prop :=
  NoDup (map entry_key (pt_entries table)) /\ Forall (entry_trusted seen) (pt_entries table).

Lemma table_ok_same_entries seen table table' : pt_entries table' = pt_entries table -> table_ok seen table -> table_ok seen table'.
Proof. unfold table_ok. by intros ->. Qed.
Lemma is_entry_key uid backend entry : is_entry uid backend entry = true -> entry_key entry = (uid, backend).
Proof. unfold is_entry, entry_key. rewrite andb_true_iff, !Z.eqb_eq. by intros [-> ->]. Qed.
Lemma table_ok_put seen uid pid backend o table entry :
  table_ok seen table -> find_entry uid backend table = Some entry ->
  (forall connection, o = Some connection -> trusted_for seen uid pid backend connection) ->
  table_ok seen (put_entry (mk_entry uid pid backend o) table).
Proof.
  intros [Hk He] Hf Ho. destruct (find_entry_split _ _ _ _ Hf) as (Hi & before & after & E & Hu).
  unfold table_ok, put_entry. cbn [pt_entries pc_uid pc_backend]. rewrite Hu, E in *. apply is_entry_key in Hi. split.
  - rewrite map_app in *. cbn [map] in *. change (entry_key (mk_entry uid pid backend o)) with (uid, backend). by rewrite <- Hi.
  - apply Forall_app in He as [H1 H2]. apply Forall_cons in H2 as [_ H2]. apply Forall_app. split; [done|]. apply Forall_cons. by split.
Qed.
Lemma find_entry_trusted seen uid backend table entry :
  table_ok seen table -> find_entry uid backend table = Some entry ->
  entry_trusted seen entry /\ pc_uid entry = uid /\ pc_backend entry = backend.
Proof.
  intros [_ He] Hf. destruct (find_entry_split _ _ _ _ Hf) as (Hi & before & after & E & _). rewrite E in He.
  apply Forall_app in He as [_ H]. apply Forall_cons in H as [H _]. apply is_entry_key in Hi. by injection Hi as <- <-.
Qed.
Lemma find_entry_none uid backend table :
  find_entry uid backend table = None -> ~ In (uid, backend) (map entry_key (pt_entries table)).
Proof.
  unfold find_entry. intros Hf Hin. apply in_map_iff in Hin as (entry & Hk & Hin). apply (List.find_none _ _ Hf) in Hin.
  unfold is_entry, entry_key in *. injection Hk as <- <-. by rewrite !Z.eqb_refl in Hin.
Qed.

Lemma lookup_ok seen closed uid pid backend table table' r :
  table_ok seen table -> connection_lookup closed uid pid backend table = (table', r) ->
  table_ok seen table' /\ (forall connection, r = Some connection -> trusted_for seen uid pid backend connection).
Proof.
  intros Hok. unfold connection_lookup. destruct (find_entry uid backend table) as [entry|] eqn:Hf; [|by intros [= <- <-]].
  destruct (find_entry_trusted _ _ _ _ _ Hok Hf) as (Ht & <- & <-). destruct (Z.eqb_spec (pc_pid entry) pid) as [<-|]; cbn [negb].
  - destruct (pc_connection entry) as [connection|] eqn:Ec; [|by intros [= <- <-]]. destruct (closed connection); intros [= <- <-].
    + split; [|done]. by apply (table_ok_put _ _ _ _ _ _ entry).
    + split; [done|]. intros ? [= <-]. by apply Ht.
  - intros [= <- <-]. split; [|done]. apply (table_ok_put _ _ _ _ _ _ entry); [|by destruct (pc_connection entry)|done].
    by apply (table_ok_same_entries _ table); [destruct (pc_connection entry)|].
Qed.

Lemma store_ok seen memory uid pid backend opened table table' outcome dropped :
  table_ok seen table -> trusted_for seen uid pid backend opened ->
  connection_store memory uid pid backend opened table = (table', outcome, dropped) ->
  table_ok seen table' /\ (forall connection, In connection (outcome_refs outcome) -> trusted_for seen uid pid backend connection).
Proof.
  intros Hok Ht. unfold connection_store. destruct (find_entry uid backend table) as [entry|] eqn:Hf.
  - destruct (find_entry_trusted _ _ _ _ _ Hok Hf) as (He & <- & <-). destruct (Z.eqb_spec (pc_pid entry) pid) as [<-|]; cbn [negb]; [|by intros [= <- <- <-]].
    destruct (pc_connection entry) as [connection|] eqn:Ec; intros [= <- <- <-].
    + split; [done|]. intros ? [<-|[]]. by apply He.
    + split; [|by intros ? [<-|[]]]. apply (table_ok_same_entries _ (put_entry (mk_entry (pc_uid entry) (pc_pid entry) (pc_backend entry) (Some opened)) table)); [done|].
      apply (table_ok_put _ _ _ _ _ _ entry); [done|done|]. by intros ? [= <-].
  - destruct memory; [|by intros [= <- <- <-]]. cbn [pc_connection]. intros [= <- <- <-]. split; [|by intros ? [<-|[]]].
    set (fresh := mk_entry uid pid backend None). set (grown := mk_table (fresh :: pt_entries table) (pt_references table)).
    apply (table_ok_same_entries _ (put_entry (mk_entry uid pid backend (Some opened)) grown)); [done|].
    apply (table_ok_put _ _ _ _ _ _ fresh); [|unfold find_entry, is_entry; cbn; by rewrite !Z.eqb_refl|by intros ? [= <-]].
    destruct Hok as [Hk He]. split; cbn [pt_entries grown map].
    + apply NoDup_cons. split; [|done]. rewrite list_elem_of_In. by apply find_entry_none.
    + apply Forall_cons. split; [|done]. by intros ? [=].
Qed.

Lemma clear_entry_keys uid backend connection entries :
  map entry_key (snd (clear_entry uid backend connection entries)) = map entry_key entries.
Proof.
  induction entries as [|e l IH]; [done|]. cbn [clear_entry]. destruct (is_entry uid backend e && holds connection e); [done|].
  destruct (clear_entry uid backend connection l) as [found l']. cbn [snd map] in *. by rewrite IH.
Qed.
Lemma clear_entry_trusted seen uid backend connection entries :
  Forall (entry_trusted seen) entries -> Forall (entry_trusted seen) (snd (clear_entry uid backend connection entries)).
Proof.
  induction 1 as [|e l He Hl IH]; [done|]. cbn [clear_entry]. destruct (is_entry uid backend e && holds connection e); cbn [snd].
  - apply Forall_cons. split; [|done]. by intros ? [=].
  - destruct (clear_entry uid backend connection l) as [found l']. by apply Forall_cons.
Qed.
Lemma invalidate_ok seen uid backend connection table :
  table_ok seen table -> table_ok seen (provider_connection_invalidate uid backend connection table).
Proof.
  intros [Hk He]. unfold provider_connection_invalidate.
  pose proof (clear_entry_keys uid backend connection (pt_entries table)) as H1.
  pose proof (clear_entry_trusted _ uid backend connection _ He) as H2.
  destruct (clear_entry uid backend connection (pt_entries table)) as [[] entries]; cbn [snd] in *;
    (split; cbn [pt_entries g_object_unref count_references]; [by rewrite H1|done]).
Qed.

(** *** Steps *)

(** What is opened is trusted for the one who opens it. *)
Lemma open_trusted run uid pid backend connection given_up live seen :
  provider_connection_open run uid pid backend = (inr connection, given_up, live) ->
  op_bus run = inr connection /\ trusted_for (<[connection := (op_peer run, op_process run)]> seen) uid pid backend connection.
Proof.
  unfold provider_connection_open. destruct (socket_name backend) as [name|]; [|done]. destruct (pid <=? 0); [done|].
  destruct (deadline_start (op_deadline run) KSD_PROVIDER_TIMEOUT_MS) as [[error|expires] l]; [done|].
  destruct (256 <=? zlen (provider_address uid name)); [done|]. destruct (op_memory run); [cbn [negb]|done].
  destruct (op_connect run _); [done|]. destruct (op_bus run) as [error|c]; [done|].
  destruct (provider_peer_valid (op_peer run) (op_process run) uid pid backend) eqn:E; intros [= <- _ _]. split; [done|].
  exists (op_peer run), (op_process run). by rewrite lookup_insert_eq.
Qed.
Lemma opening_entries run who table to table' : opening_step who run table = (to, table') -> pt_entries table' = pt_entries table.
Proof.
  unfold opening_step. destruct (provider_connection_open run (cl_uid who) (cl_pid who) (cl_backend who)) as [[[error|connection] given_up] live];
    intros [= _ <-]; [|done]. revert table. induction given_up as [|d l IH]; intros table; [done|]. cbn [fold_left]. by rewrite IH.
Qed.

Lemma caller_step_ok seen who sees from table to table' :
  table_ok (saw sees seen) table -> stage_trusted (saw sees seen) who from ->
  caller_step who sees from table = Some (to, table') ->
  table_ok (saw sees seen) table' /\ stage_trusted (saw sees seen) who to.
Proof.
  intros Hok Ht. destruct from, sees; cbn [caller_step]; try discriminate.
  - destruct (connection_lookup _ _ _ _ _) as [t r] eqn:E. intros [= <- <-]. destruct (lookup_ok _ _ _ _ _ _ _ _ Hok E) as [H1 H2].
    split; [done|]. destruct r as [c|]; [|by intros ? []]. intros ? [<-|[]]. by apply H2.
  - intros [= <- <-]. split; [done|]. by destruct (caller_valid who source process).
  - intros [= <- <-]. split; [by apply invalidate_ok|done].
  - intros [= <- <-]. split; [done|]. by intros ? [].
  - intros [= E]. split; [by apply (table_ok_same_entries _ table); [apply (opening_entries _ _ _ _ _ E)|]|]. unfold opening_step in E.
    destruct (provider_connection_open run (cl_uid who) (cl_pid who) (cl_backend who)) as [[[error|connection] given_up] live] eqn:Eo;
      injection E as <- <-; [by intros ? []|].
    destruct (open_trusted _ _ _ _ _ _ _ seen Eo) as [Hb H]. intros ? [<-|[]]. cbn [saw]. by rewrite Hb.
  - destruct (connection_store _ _ _ _ _ _) as [[t outcome] dropped] eqn:E. intros [= <- <-].
    assert (Ho : trusted_for (saw (SeesMemory memory) seen) (cl_uid who) (cl_pid who) (cl_backend who) opened) by (apply Ht; by left).
    destruct (store_ok _ _ _ _ _ _ _ _ _ _ Hok Ho E) as [H1 H2]. split; [done|].
    destruct dropped; [|destruct outcome as [error|connection]; [by intros ? []|exact H2]]. intros c [<-|Hin]; [done|by apply H2].
  - intros [= <- <-]. split; [done|]. destruct outcome as [error|connection]; [by intros ? []|]. intros c Hin. apply Ht. by right.
  - intros [= <- <-]. split; [done|]. by destruct (if cl_watch who then closed else negb replied && closed).
  - intros [= <- <-]. split; [by apply invalidate_ok|done].
  - intros [= <- <-]. split; [done|]. by intros ? [].
Qed.

Lemma held_app callers who at_stage : held (callers ++ [(who, at_stage)]) = held callers ++ stage_refs at_stage.
Proof. unfold held. rewrite map_app, concat_app. cbn [map concat snd]. by rewrite app_nil_r. Qed.
Lemma held_insert callers i who from to c :
  callers !! i = Some (who, from) ->
  zcount c (held (<[i := (who, to)]> callers)) = zcount c (held callers) - zcount c (stage_refs from) + zcount c (stage_refs to).
Proof.
  intros H. unfold held. revert i H. induction callers as [|x l IH]; intros [|i] H; cbn [lookup list_lookup insert list_insert] in *; try done.
  - injection H as ->. cbn [map concat snd]. rewrite !zcount_app. lia.
  - cbn [map concat]. rewrite !zcount_app, IH by done. lia.
Qed.

(** A connection nothing refers to is in no entry and with no caller. *)
Lemma nothing_refers system connection :
  provider_inv system -> references (ps_table system) connection = 0 ->
  ~ In connection (stored (ps_table system)) /\ ~ In connection (held (ps_callers system)).
Proof.
  intros [_ Hc _ _] H0. specialize (Hc connection). unfold left_over in Hc. rewrite !zcount_in.
  pose proof (zcount_nonneg connection (stored (ps_table system))). pose proof (zcount_nonneg connection (held (ps_callers system))). lia.
Qed.
Lemma trusted_seen seen value uid pid backend connection fresh :
  connection <> fresh -> trusted_for seen uid pid backend connection -> trusted_for (<[fresh := value]> seen) uid pid backend connection.
Proof. intros Hne (source & process & Hs & Hv). exists source, process. by rewrite lookup_insert_ne. Qed.
Lemma saw_trusted system sees :
  provider_inv system -> opens_new sees (ps_table system) ->
  Forall (entry_trusted (saw sees (ps_seen system))) (pt_entries (ps_table system)) /\
  Forall (fun c => stage_trusted (saw sees (ps_seen system)) (fst c) (snd c)) (ps_callers system).
Proof.
  intros Hinv Hnew. pose proof Hinv as [_ _ He Hc]. destruct sees as [| |run| | |]; try done. cbn [saw opens_new] in *.
  destruct (op_bus run) as [|fresh]; [done|]. destruct (nothing_refers _ _ Hinv Hnew) as [Hs Hh]. split.
  - rewrite List.Forall_forall in *. intros entry Hin c Hent. apply trusted_seen; [|by apply He]. intros ->. apply Hs.
    unfold stored. apply list_elem_of_In, list_elem_of_omap. exists entry. by rewrite list_elem_of_In.
  - rewrite List.Forall_forall in *. intros caller Hin c Hrefs. apply trusted_seen; [|by apply (Hc _ Hin)]. intros ->. apply Hh.
    unfold held. apply in_concat. exists (stage_refs (snd caller)). split; [|done]. by apply (in_map (fun c => stage_refs (snd c))).
Qed.

Lemma provider_step_inv system system' : provider_inv system -> provider_step system system' -> provider_inv system'.
Proof.
  intros Hinv Hstep. destruct Hstep as [system who|system i who from sees to table Hi Hnew Hs].
  - destruct Hinv as [Hk Hcnt He Hc]. constructor; cbn [ps_table ps_callers ps_seen]; [done| |done|].
    + intros c. rewrite Hcnt, held_app. cbn [stage_refs]. by rewrite app_nil_r.
    + apply Forall_app. split; [done|]. apply Forall_singleton. by intros ? [].
  - destruct (saw_trusted _ _ Hinv Hnew) as [He Hc]. pose proof Hinv as [Hk Hcnt _ _].
    pose proof (proj1 (Forall_lookup _ _) Hc _ _ Hi) as Hfrom. cbn [fst snd] in Hfrom.
    destruct (caller_step_ok _ _ _ _ _ _ _ (conj Hk He) Hfrom Hs) as [[Hk' He'] Hto]. constructor; cbn [ps_table ps_callers ps_seen]; [done| |done|].
    + intros c. rewrite (held_insert _ _ _ _ _ _ Hi), <- Hcnt. pose proof (caller_step_counted _ _ _ _ _ _ c Hs). lia.
    + by apply Forall_insert.
Qed.
Lemma provider_reachable_inv system : provider_reachable system -> provider_inv system.
Proof.
  unfold provider_reachable. intros H.
  assert (Hinit : provider_inv provider_initial) by (constructor; [constructor|done|constructor|constructor]).
  revert Hinit. induction H as [|x y z Hxy Hyz IH]; intros Hinit; [done|]. apply IH. by apply (provider_step_inv x).
Qed.

(** ** What the callers are promised *)

(** Who a valid peer is. *)
Lemma peer_valid_exact source process uid pid backend :
  provider_peer_valid source process uid pid backend = None <->
  exists found expected executable status,
    provider_peer_credentials source = inr found /\ cr_user found = inr uid /\ cr_pid found = inr pid /\ 0 < pid /\
    provider_executable_name backend = Some expected /\ px_executable (process pid) = Some executable /\ 0 < zlen executable <= PATH_MAX /\
    px_status (process pid) = Some status /\ is_regular status = true /\ st_uid status = 0 /\ Z.land (st_mode status) OTHERS_WRITE = 0 /\
    ksd_provider_executable_matches executable expected = true.
Proof.
  unfold provider_peer_valid. split.
  - destruct (provider_peer_credentials source) as [|found]; [done|]. destruct (cr_user found) as [|peer_uid] eqn:Eu; [done|].
    destruct (cr_pid found) as [|peer_pid] eqn:Ep; [done|]. destruct (provider_executable_name backend) as [expected|] eqn:En; [|done].
    destruct (px_executable (process peer_pid)) as [executable|] eqn:Ex; [|done].
    destruct (px_status (process peer_pid)) as [status|] eqn:Es; [|done].
    match goal with |- context[if ?b then Some _ else _] => destruct b eqn:E end; [done|].
    destruct (ksd_provider_executable_matches executable expected) eqn:Em; [|done]. intros _.
    rewrite !orb_false_iff, !negb_false_iff, !Z.eqb_eq in E.
    destruct E as (((((((-> & H1) & ->) & H2) & H3) & H4) & H5) & H6).
    exists found, expected, executable, status. repeat split; done || lia.
  - intros (found & expected & executable & status & -> & -> & -> & Hp & -> & -> & Hl & -> & -> & -> & -> & ->).
    rewrite !Z.eqb_refl. replace (pid <=? 0) with false by lia. replace (zlen executable <=? 0) with false by lia.
    by replace (PATH_MAX + 1 <=? zlen executable) with false by lia.
Qed.

(** C23: The connections are counted exactly, whatever the order in which any number of
    workers and watches take their steps.  There is one entry for a user and a shell; the
    references of a connection are those of the entries that hold it and of the callers
    that have it, so that no caller uses a connection that was freed; and when every
    caller has finished, what is left is what the table holds. *)
Theorem provider_connections_counted system :
  provider_reachable system ->
  NoDup (map entry_key (pt_entries (ps_table system))) /\
  (forall connection,
    references (ps_table system) connection
    = zcount connection (stored (ps_table system)) + zcount connection (held (ps_callers system))) /\
  (forall i who at_stage connection,
    ps_callers system !! i = Some (who, at_stage) -> In connection (stage_refs at_stage) -> 0 < references (ps_table system) connection) /\
  (Forall (fun c => exists error, snd c = Finished error) (ps_callers system) ->
   forall connection, references (ps_table system) connection = zcount connection (stored (ps_table system))).
Proof.
  intros H. destruct (provider_reachable_inv _ H) as [Hk Hc _ _]. unfold left_over in Hc.
  split; [done|]. split; [intros c; specialize (Hc c); lia|]. split.
  - intros i who at_stage c Hi Hin. specialize (Hc c). pose proof (zcount_nonneg c (stored (ps_table system))).
    enough (0 < zcount c (held (ps_callers system))) by lia. apply zcount_in. unfold held. apply in_concat. exists (stage_refs at_stage).
    split; [|done]. apply in_map_iff. exists (who, at_stage). split; [done|]. apply list_elem_of_In. by apply list_elem_of_lookup_2 in Hi.
  - intros Hall c. specialize (Hc c). assert (held (ps_callers system) = []) as E.
    { clear Hc. induction Hall as [|[who at_stage] l [error He] _ IH]; [done|]. cbn [snd] in He. subst. exact IH. }
    rewrite E in Hc. rewrite zcount_nil in Hc. lia.
Qed.

(** C22: A call is only made over a connection whose other end was found to be the
    registered shell.  In every reachable state, the connection a caller calls over is
    alive, and when it was opened the kernel named the caller's user and the registered
    process as its peer, and that process ran a regular file that root owns, that others
    cannot write, and whose name is that of the shell. *)
Theorem provider_calls_trusted system i who connection :
  provider_reachable system -> ps_callers system !! i = Some (who, Calling connection) ->
  0 < references (ps_table system) connection /\
  exists source process found expected executable status,
    ps_seen system !! connection = Some (source, process) /\
    provider_peer_credentials source = inr found /\ cr_user found = inr (cl_uid who) /\ cr_pid found = inr (cl_pid who) /\ 0 < cl_pid who /\
    provider_executable_name (cl_backend who) = Some expected /\
    px_executable (process (cl_pid who)) = Some executable /\ px_status (process (cl_pid who)) = Some status /\
    is_regular status = true /\ st_uid status = 0 /\ Z.land (st_mode status) OTHERS_WRITE = 0 /\
    ksd_provider_executable_matches executable expected = true.
Proof.
  intros H Hi. pose proof (provider_reachable_inv _ H) as Hinv. destruct Hinv as [_ Hc _ Ht].
  destruct (proj1 (Forall_lookup _ _) Ht _ _ Hi connection ltac:(by left)) as (source & process & Hs & Hv). cbn [fst] in Hv. split.
  - specialize (Hc connection). unfold left_over in Hc. pose proof (zcount_nonneg connection (stored (ps_table system))).
    enough (0 < zcount connection (held (ps_callers system))) by lia. apply zcount_in. unfold held. apply in_concat. exists [connection].
    split; [|by left]. apply in_map_iff. exists (who, Calling connection). split; [done|]. apply list_elem_of_In. by apply list_elem_of_lookup_2 in Hi.
  - apply peer_valid_exact in Hv as (found & expected & executable & status & H1 & H2 & H3 & H4 & H5 & H6 & H7 & H8 & H9 & H10 & H11 & H12).
    exists source, process, found, expected, executable, status. by repeat split.
Qed.

(** *** A caller comes to its end *)

(** The steps of one caller, whatever the others make of the table between them. *)
Inductive caller_steps (who : caller) : stage -> nat -> stage -> Prop :=
| StepsNone at_stage : caller_steps who at_stage 0 at_stage
| StepsOne from sees table to table' n last :
    caller_step who sees from table = Some (to, table') -> caller_steps who to n last -> caller_steps who from (S n) last.

Definition stage_rank (at_stage : stage) : nat :=
  match at_stage with
  | Getting => 7 | Validating _ | Opening => 6 | Storing _ | Invalidating _ _ => 5 | Dropping _ _ | Failing _ _ => 4
  | Calling _ => 3 | Leaving _ => 2 | Finishing _ => 1 | Finished _ => 0
  end.
Lemma caller_step_ranked who sees from table to table' :
  caller_step who sees from table = Some (to, table') -> (stage_rank to < stage_rank from)%nat.
Proof.
  destruct from, sees; cbn [caller_step]; try discriminate.
  - destruct (connection_lookup _ _ _ _ _) as [t []]; intros [= <- <-]; cbn; lia.
  - intros [= <- <-]. destruct (caller_valid who source process); cbn; lia.
  - intros [= <- <-]. cbn. lia.
  - intros [= <- <-]. cbn. lia.
  - intros [= E]. unfold opening_step in E. destruct (provider_connection_open _ _ _ _) as [[[] ?] ?]; injection E as <- <-; cbn; lia.
  - destruct (connection_store _ _ _ _ _ _) as [[t []] []]; intros [= <- <-]; cbn; lia.
  - intros [= <- <-]. destruct outcome; cbn; lia.
  - intros [= <- <-]. destruct (if cl_watch who then closed else negb replied && closed); cbn; lia.
  - intros [= <- <-]. cbn. lia.
  - intros [= <- <-]. cbn. lia.
Qed.

Definition finished (at_stage : stage) : Prop := exists error, at_stage = Finished error.

(** Every call for a connection comes to an end.  Whatever the other callers do to
    the table in between, a caller takes at most seven steps, and wherever it is before
    its end there is a step it can take on any table, so it neither loops nor waits for
    another caller. *)
Theorem provider_caller_ends who n at_stage :
  caller_steps who Getting n at_stage ->
  (n <= 7)%nat /\
  (finished at_stage \/ forall table, exists sees to table', opens_new sees table /\ caller_step who sees at_stage table = Some (to, table')).
Proof.
  intros H. split.
  - enough (n + stage_rank at_stage <= stage_rank Getting)%nat by (cbn in *; lia).
    induction H as [|from sees table to table' n last Hs _ IH]; [done|]. apply caller_step_ranked in Hs. lia.
  - clear H. pose (any_open := mk_open (mk_deadline_run false false false false false None false) false (fun _ => None)
      (inl (io_error IoOther "closed")) NotSocket (fun _ => mk_process None None)).
    destruct at_stage; [right|right|right|right|right|right|right|right|right|right|left; by eexists]; intros table.
    + exists (SeesClosed (fun _ => false)). cbn [caller_step opens_new]. destruct (connection_lookup _ _ _ _ _). by do 2 eexists.
    + exists (SeesPeer NotSocket (fun _ => mk_process None None)). by do 2 eexists.
    + exists SeesNothing. by do 2 eexists.
    + exists SeesNothing. by do 2 eexists.
    + exists (SeesOpening any_open). cbn [caller_step opens_new]. destruct (opening_step who any_open table). by do 2 eexists.
    + exists (SeesMemory true). cbn [caller_step opens_new]. destruct (connection_store _ _ _ _ _ _) as [[? ?] ?]. by do 2 eexists.
    + exists SeesNothing. by do 2 eexists.
    + exists (SeesEnd true false). by do 2 eexists.
    + exists SeesNothing. by do 2 eexists.
    + exists SeesNothing. by do 2 eexists.
Qed.

(** *** The deadline *)

(** Opening a connection is bounded by a deadline that leaves nothing behind.  The
    deadline is exactly the time limit after the clock's time, with its nanoseconds in
    range; its thread cancels the opening exactly when a wait ends by itself before the
    opening is done; and however the opening ends, the thread is joined and what was set
    up is destroyed. *)
Theorem provider_deadline_exact run timeout_ms sec nsec uid pid backend opening :
  0 <= nsec < 1000000000 -> 0 <= timeout_ms ->
  (forall expires_sec expires_nsec live,
    dr_now run = Some (sec, nsec) -> deadline_start run timeout_ms = (inr (expires_sec, expires_nsec), live) ->
    0 <= expires_nsec < 1000000000 /\
    expires_sec * 1000000000 + expires_nsec = sec * 1000000000 + nsec + timeout_ms * 1000000) /\
  (forall turns cancelled, deadline_thread turns = Some cancelled ->
    exists before rest, turns = before ++ rest /\ Forall (fun turn => turn = (false, WaitSignalled)) before /\
      match rest with
      | (true, _) :: _ => cancelled = false
      | (false, status) :: _ => status <> WaitSignalled /\ cancelled = true
      | [] => False
      end) /\
  snd (provider_connection_open opening uid pid backend) = nothing_live.
Proof.
  intros Hn Ht. split; [|split].
  - intros s n live Hnow. unfold deadline_start. rewrite Hnow. destruct (dr_cancellable run && _); [|done]. destruct (dr_thread run); [|done].
    unfold deadline_expires. pose proof (Z.div_mod timeout_ms 1000 ltac:(lia)). pose proof (Z.mod_pos_bound timeout_ms 1000 ltac:(lia)).
    destruct (Z.leb_spec 1000000000 (nsec + timeout_ms mod 1000 * 1000000)); intros [= <- <- _]; lia.
  - induction turns as [|[[] status] turns IH]; intros cancelled; cbn [deadline_thread]; [done| |].
    + intros [= <-]. by exists [], ((true, status) :: turns).
    + destruct status; [|intros [= <-]; by exists [], ((false, WaitTimedOut) :: turns)|intros [= <-]; by exists [], ((false, WaitFailed) :: turns)].
      intros H. destruct (IH _ H) as (before & rest & -> & Hb & Hr). exists ((false, WaitSignalled) :: before), rest.
      split; [done|]. split; [by apply Forall_cons|done].
  - unfold provider_connection_open. destruct (socket_name backend) as [name|]; [|done]. destruct (pid <=? 0); [done|].
    unfold deadline_start. destruct (guard* _ in dr_now (op_deadline opening)) as [[s n]|]; [|done]. destruct (dr_thread (op_deadline opening)); [|done].
    destruct (256 <=? _); [done|]. destruct (op_memory opening); [cbn [negb]|done]. destruct (op_connect opening _); [done|].
    destruct (op_bus opening); [done|]. by destruct (provider_peer_valid _ _ _ _ _).
Qed.

(** *** A shell that is not the registered one *)

(** A caller that no other disturbs. *)
Fixpoint caller_alone (who : caller) (sees : list observation) (at_stage : stage) (table : provider_table) : option (stage * provider_table) :=
  match sees with
  | [] => Some (at_stage, table)
  | seen :: sees => let* (at_stage, table) := caller_step who seen at_stage table in caller_alone who sees at_stage table
  end.

(** What a request comes to when its call cannot be made. *)
Definition refuses (error : g_error) : provider_bus := fun _ _ _ => NoReply (Some error).

Section refusal.
Context {AL : Allocator}.

(** Every operation reports in the same way that its call had no reply. *)
Definition reports (action : provider_action) : Prop :=
  match action with Done _ => True | Asks _ _ continue => forall error, continue (NoReply error) = provider_error ksd_result_init error end.
Lemma reports_or_invalid action : (forall a, action = Some a -> reports a) -> reports (or_invalid ksd_result_init action).
Proof. destruct action as [a|]; [|done]. intros H. by apply H. Qed.
Lemma execute_reports run pid backend request : reports (ksd_provider_execute run pid backend request).
Proof.
  unfold ksd_provider_execute, execute_capture, execute_window, execute_clipboard, execute_pointer, execute_query, invalid_request.
  repeat match goal with
  | |- reports (if ?b then _ else _) => destruct b
  | |- reports (match ?b with _ => _ end) => destruct b
  | |- reports (Done _) => done
  | |- reports (calls _ _ _ _) => done
  | |- reports (or_invalid _ _) => apply reports_or_invalid; intros a
  | |- (let* _ := ?e in _) = Some _ -> _ => destruct e
  | |- context[match ?e with Some _ => _ | None => None end] => destruct e
  | |- context[if ?b then _ else None] => destruct b
  | p : _ * _ |- _ => destruct p
  | |- Some _ = Some _ -> _ => intros [= <-]
  | |- None = Some _ -> _ => done
  | |- reports (Asks _ _ _) => done
  end.
Qed.
Lemma execute_refused error run pid backend request :
  fst (perform_action (refuses error) (ksd_provider_execute run pid backend request)) <> None ->
  fails (snd (perform_action (refuses error) (ksd_provider_execute run pid backend request))) (status_for_error (Some error)).
Proof.
  pose proof (execute_reports run pid backend request) as H. destruct (ksd_provider_execute run pid backend request) as [outcome|T type call continue]; [done|].
  intros _. cbn [perform_action snd]. unfold refuses at 1. rewrite H. apply no_reply_fails.
Qed.

(** A stored connection whose peer is no longer the registered shell is not used.
    A caller that finds one lets go of it, leaves the entry without a connection, and
    ends with the error of the check; every operation then reports that error's status,
    and one that was refused for the identity is reported as denied. *)
Theorem provider_impostor_refused who table entry connection closed source process error run pid request :
  find_entry (cl_uid who) (cl_backend who) table = Some entry -> pc_pid entry = cl_pid who ->
  pc_connection entry = Some connection -> closed connection = false -> caller_valid who source process = Some error ->
  (exists table',
    caller_alone who [SeesClosed closed; SeesPeer source process; SeesNothing; SeesNothing] Getting table = Some (Finished (Some error), table') /\
    find_entry (cl_uid who) (cl_backend who) table' = Some (mk_entry (cl_uid who) (cl_pid who) (cl_backend who) None) /\
    references table' connection = references table connection - 1) /\
  (fst (perform_action (refuses error) (ksd_provider_execute run pid (cl_backend who) request)) <> None ->
   fails (snd (perform_action (refuses error) (ksd_provider_execute run pid (cl_backend who) request))) (status_for_error (Some error))) /\
  ((exists found peer_uid peer_pid,
      provider_peer_credentials source = inr found /\ cr_user found = inr peer_uid /\ cr_pid found = inr peer_pid) ->
   status_for_error (Some error) = KSD_STATUS_DENIED).
Proof.
  intros Hf Hp Hc Hcl Hv. split; [|split; [apply execute_refused|]].
  - destruct (find_entry_split _ _ _ _ Hf) as (Hi & before & after & E & _). pose proof (is_entry_key _ _ _ Hi) as Hk. injection Hk as Hu Hb.
    assert (Hfind : forall entries, List.find (is_entry (cl_uid who) (cl_backend who)) entries = Some entry ->
      exists found, clear_entry (cl_uid who) (cl_backend who) connection entries = (true, found) /\
        List.find (is_entry (cl_uid who) (cl_backend who)) found = Some (mk_entry (cl_uid who) (cl_pid who) (cl_backend who) None)).
    { induction entries as [|e l IH]; cbn [List.find clear_entry]; [done|]. destruct (is_entry (cl_uid who) (cl_backend who) e) eqn:Ee.
      - intros [= ->]. unfold holds. rewrite bool_decide_eq_true_2 by done. cbn [andb]. eexists. split; [done|]. cbn [List.find].
        rewrite Hu, Hb, Hp. unfold is_entry. cbn. by rewrite !Z.eqb_refl.
      - intros H. destruct (IH H) as (found & -> & Hfound). cbn [andb]. eexists. split; [done|]. cbn [List.find]. by rewrite Ee. }
    destruct (Hfind _ Hf) as (found & Hcl' & Hfound).
    eexists. split.
    + cbn [caller_alone caller_step]. unfold connection_lookup. rewrite Hf, Hp, Z.eqb_refl. cbn [negb]. rewrite Hc, Hcl. cbn [caller_alone caller_step]. rewrite Hv.
      cbn [caller_alone caller_step].
      unfold provider_connection_invalidate. cbn [pt_entries g_object_ref count_references]. rewrite Hcl'. reflexivity.
    + split; [exact Hfound|]. unfold g_object_unref. rewrite !references_count, zcount_one.
      destruct (Z.eq_dec connection connection) as [_|]; [|done].
      change (references (mk_table found (pt_references (g_object_ref connection table))) connection) with (references (g_object_ref connection table) connection).
      unfold g_object_ref. rewrite references_count, zcount_one. destruct (Z.eq_dec connection connection) as [_|]; [lia|done].
  - intros (found & peer_uid & peer_pid & H1 & H2 & H3). unfold caller_valid, provider_peer_valid in Hv. rewrite H1, H2, H3 in Hv.
    repeat case_match; try discriminate Hv; injection Hv as <-; reflexivity.
Qed.
End refusal.

(** ** Witnesses *)

Section connection_witnesses.

(** A run given as a schedule: who takes a step, and what it sees. *)
Definition play_one (system : provider_system) (move : nat * observation) : option provider_system :=
  let '(i, sees) := move in
  let* (who, from) := ps_callers system !! i in
  guard* match sees with
         | SeesOpening run => match op_bus run with inr connection => references (ps_table system) connection =? 0 | inl _ => true end
         | _ => true
         end in
  let* (to, table) := caller_step who sees from (ps_table system) in
  Some (mk_psystem table (<[i := (who, to)]> (ps_callers system)) (saw sees (ps_seen system))).
Fixpoint play (system : provider_system) (schedule : list (nat * observation)) : option provider_system :=
  match schedule with
  | [] => Some system
  | move :: schedule => let* system := play_one system move in play system schedule
  end.
Lemma play_reachable schedule system last : provider_reachable system -> play system schedule = Some last -> provider_reachable last.
Proof.
  revert system. induction schedule as [|[i sees] schedule IH]; intros system H; cbn [play]; [by intros [= <-]|].
  destruct (play_one system (i, sees)) as [next|] eqn:E; [|done]. apply IH. unfold play_one in E.
  destruct (ps_callers system !! i) as [[who from]|] eqn:Hi; [|done].
  match type of E with (if ?b then _ else _) = _ => destruct b eqn:Hg end; [|done].
  destruct (caller_step who sees from (ps_table system)) as [[to table]|] eqn:Hs; [|done]. injection E as <-.
  apply (rtc_r _ _ _ H). apply (CallerSteps system i who from); [done| |done].
  destruct sees; try done. cbn [opens_new]. destruct (op_bus run); [done|by apply Z.eqb_eq in Hg].
Qed.

(** Two callers of one shell that open a connection at the same time, and a third one
    after them. *)
Definition shell_caller : caller := mk_caller 1000 77 KSD_BACKEND_GNOME false.
Definition shell_file : file_status := mk_status KindRegular 0 0 0x1ed 1 2 100.
Definition shell_process (pid : Z) : process_entry := mk_process (Some (cstr "/usr/bin/gnome-shell")) (Some shell_file).
Definition shell_peer : peer_source := FromSocket (inr (mk_credentials (inr 1000) (inr 77))).
Definition good_deadline : deadline_run := mk_deadline_run true true true true true (Some (5, 999999999)) true.
Definition shell_opening (connection : Z) : open_run :=
  mk_open good_deadline true (fun _ => None) (inr connection) shell_peer shell_process.
Definition arrived : provider_system := mk_psystem (mk_table [] ∅) [(shell_caller, Getting); (shell_caller, Getting)] ∅.
Lemma arrived_reachable : provider_reachable arrived.
Proof.
  eapply rtc_r; [eapply rtc_r; [apply rtc_refl|]|].
  - apply (CallerArrives provider_initial shell_caller).
  - apply (CallerArrives (mk_psystem (mk_table [] ∅) [(shell_caller, Getting)] ∅) shell_caller).
Qed.
Definition race : list (nat * observation) :=
  [(0%nat, SeesClosed (fun _ => false)); (1%nat, SeesClosed (fun _ => false)); (0%nat, SeesOpening (shell_opening 1));
   (1%nat, SeesOpening (shell_opening 2)); (1%nat, SeesMemory true); (0%nat, SeesMemory true)].
Definition raced : provider_system := default arrived (play arrived race).
Lemma raced_reachable : provider_reachable raced.
Proof. apply (play_reachable race arrived); [apply arrived_reachable|]. vm_compute. reflexivity. Qed.

(** Both have the connection that was stored first; the other one still has to be let go. *)
Lemma provider_connections_counted_witness : references (ps_table raced) 2 = 3 /\ 0 < references (ps_table raced) 1.
Proof.
  destruct (provider_connections_counted raced raced_reachable) as (_ & Hc & Hl & _). split.
  - exact (eq_trans (Hc 2) eq_refl).
  - apply (Hl 0%nat shell_caller (Dropping 1 (inr 2))); [reflexivity|by left].
Defined.

Lemma provider_calls_trusted_witness : 0 < references (ps_table raced) 2.
Proof. exact (proj1 (provider_calls_trusted raced 1 shell_caller 2 raced_reachable eq_refl)). Defined.

Lemma provider_caller_ends_witness : (5 <= 7)%nat.
Proof.
  refine (proj1 (provider_caller_ends shell_caller 5 (Finished None) _)).
  eapply (StepsOne _ _ (SeesClosed (fun _ => false)) (mk_table [] ∅)); [vm_compute; reflexivity|].
  eapply (StepsOne _ _ (SeesOpening (shell_opening 1)) (mk_table [] ∅)); [vm_compute; reflexivity|].
  eapply (StepsOne _ _ (SeesMemory true) (mk_table [] ∅)); [vm_compute; reflexivity|].
  eapply (StepsOne _ _ (SeesEnd true false) (mk_table [] ∅)); [vm_compute; reflexivity|].
  eapply (StepsOne _ _ SeesNothing (mk_table [] ∅)); [vm_compute; reflexivity|].
  apply StepsNone.
Defined.

Lemma provider_deadline_exact_witness :
  deadline_start good_deadline 5000 = (inr (10, 999999999), mk_live true true false true true) /\
  10 * 1000000000 + 999999999 = 5 * 1000000000 + 999999999 + 5000 * 1000000.
Proof.
  split; [reflexivity|].
  exact (proj2 (proj1 (provider_deadline_exact good_deadline 5000 5 999999999 1000 77 KSD_BACKEND_GNOME (shell_opening 1)
    ltac:(lia) ltac:(lia)) 10 999999999 _ eq_refl eq_refl)).
Defined.

(** The process of the entry runs something else now. *)
Definition other_process (pid : Z) : process_entry := mk_process (Some (cstr "/usr/bin/other")) (Some shell_file).
Definition stored_table : provider_table := mk_table [mk_entry 1000 77 KSD_BACKEND_GNOME (Some 5)] (<[5 := 1]> ∅).
#[local] Existing Instance infinite_memory.
Lemma provider_impostor_refused_witness :
  status_for_error (Some (io_error IoPermissionDenied "desktop provider executable is invalid")) = KSD_STATUS_DENIED.
Proof.
  refine (proj2 (proj2 (provider_impostor_refused shell_caller stored_table (mk_entry 1000 77 KSD_BACKEND_GNOME (Some 5)) 5
    (fun _ => false) shell_peer other_process _ no_file 42 focus_request _ _ _ _ _)) _); try reflexivity.
  by do 3 eexists.
Defined.
End connection_witnesses.
