(* ===== verification/ProviderEvents.v ===== *)
(** * Signals of the shells' extensions (src/provider.c)

    [ksd_provider_watch] turns the signals of an extension into the frames of a state
    source: a snapshot first, then one event for each signal, until the subscription is
    cancelled, an event cannot be passed on or the connection closes.  What takes the
    frames and what tells of a cancellation are arguments, as in the code. *)
From Stdlib Require Import ZArith Lia Strings.Byte Strings.String.
From stdpp Require Import base list option numbers tactics.
From S2P Require Import Prelude.
From S2P Require Import Protocol.
From S2P Require Import Codec.
From S2P Require Import Buffer.
From S2P Require Import Utf8.
From S2P Require Import Frame.
From S2P Require Import Operations.
From S2P Require Import Result.
From S2P Require Import Json.
From S2P Require Import StateWire.
From S2P Require Import Response.
From S2P Require Import Subscribe.
From S2P Require Import Client.
From S2P Require Import ClientCalls.
From S2P Require Import DisplayCalls.
From S2P Require Import Provider.
Local Open Scope Z_scope.
Local Open Scope ksd_scope.

Section events.
Context {AL : Allocator} {W : Type}.
(** [watch->emit], which answers whether the frame was passed on, and [cancelled]. *)
Variable emit : Z -> list byte -> W -> bool * W.
Variable cancelled : W -> bool * W.

(** ** Frames *)

(** What a buffer operation makes is passed on, when it could be made. *)
Definition emit_built (built : bool * ksd_buffer) (opcode : Z) (w : W) : bool * W :=
  let '(ok, payload) := built in if (ok : bool) then emit opcode (buf_bytes payload) w else (false, w).

Definition snapshot_event (domain kind : Z) (window : option ksd_window_record) : ksd_state_event :=
  mk_event kind domain 0 0 (default ksd_window_record_init window) None 0 0.
Definition snapshot_emit (domain kind : Z) (window : option ksd_window_record) (w : W) : bool * W :=
  emit_built (ksd_state_event_encode (snapshot_event domain kind window) (ksd_buffer_init (KSD_MAX_TEXT_BYTES + 256)))
    KSD_OP_STATE_EVENT w.
Definition snapshot_window (window : ksd_window_record) (w : W) : bool * W :=
  snapshot_emit KSD_STATE_WINDOWS KSD_STATE_SNAPSHOT_ITEM (Some window) w.

(** [&&] between two that pass something on. *)
Definition and_then (first second : W -> bool * W) (w : W) : bool * W :=
  let '(ok, w) := first w in if (ok : bool) then second w else (false, w).
Definition window_snapshot (json : list byte) : W -> bool * W :=
  and_then (snapshot_emit KSD_STATE_WINDOWS KSD_STATE_SNAPSHOT_BEGIN None)
    (and_then (ksd_state_windows_json json snapshot_window) (snapshot_emit KSD_STATE_WINDOWS KSD_STATE_SNAPSHOT_END None)).

(** ** Signals *)

Definition event_kind (name : list byte) : Z :=
  let named (text : String.string) := bytes_eqb name (cstr text) in
  if named "create"%string then KSD_WINDOW_EVENT_CREATE
  else if named "close"%string then KSD_WINDOW_EVENT_CLOSE
  else if named "active"%string then KSD_WINDOW_EVENT_ACTIVE
  else if named "title"%string then KSD_WINDOW_EVENT_TITLE
  else if named "minimize"%string then KSD_WINDOW_EVENT_MINIMIZE
  else if named "restore"%string then KSD_WINDOW_EVENT_RESTORE
  else if named "move"%string then KSD_WINDOW_EVENT_MOVE
  else if named "show"%string then KSD_WINDOW_EVENT_SHOW
  else if named "hide"%string then KSD_WINDOW_EVENT_HIDE
  else if named "changed"%string then KSD_WINDOW_EVENT_CHANGED
  else if named "active-state"%string then KSD_WINDOW_EVENT_ACTIVE_STATE
  else 0.

(** [failed] and what has been passed on. *)
Definition watch_state : Type := bool * W.
Definition watch_after (failed : bool) (passed : bool * W) : watch_state := let '(ok, w) := passed in (failed || negb ok, w).

Definition window_event (name json : list byte) (watch : watch_state) : watch_state :=
  let '(failed, w) := watch in
  if bytes_eqb name (cstr "snapshot") then
    if KSD_MAX_TEXT_BYTES <? zlen json then (true, w) else watch_after failed (window_snapshot json w)
  else
    let kind := event_kind name in
    if (kind =? 0) || (KSD_MAX_TEXT_BYTES <? zlen json) || negb (ksd_utf8_valid json false) then (true, w)
    else watch_after failed
      (emit_built ((ksd_buffer_u16 kind ;;; ksd_buffer_u16 0 ;;; ksd_buffer_u32 (u32 (zlen json)) ;;; put json)
                     (ksd_buffer_init (KSD_MAX_TEXT_BYTES + 8))) KSD_OP_WINDOW_EVENT w).

Definition clipboard_event (text : list byte) (mimetypes : list (list byte)) (watch : watch_state) : watch_state :=
  let '(failed, w) := watch in
  if (KSD_MAX_TEXT_BYTES <? zlen text) || (KSD_MAX_MIMETYPES <? zlen mimetypes) || negb (ksd_utf8_valid text false) then (true, w)
  else watch_after failed
    (emit_built ((ksd_buffer_u32 (u32 (zlen text)) ;;; ksd_buffer_u32 (u32 (zlen mimetypes)) ;;; put text ;;; append_mimetypes mimetypes)
                   (ksd_buffer_init KSD_MAX_TEXT_BYTES)) KSD_OP_CLIPBOARD_EVENT w).

(** A watch is subscribed to one of the two. *)
Inductive signal :=
| WindowSignal (name json : list byte)
| ClipboardSignal (text : list byte) (mimetypes : list (list byte)).
Definition signal_event (watch : watch_state) (arrived : signal) : watch_state :=
  match arrived with
  | WindowSignal name json => window_event name json watch
  | ClipboardSignal text mimetypes => clipboard_event text mimetypes watch
  end.

(** ** The watch *)

(** One turn of the main loop: the signals it dispatches, and whether the connection is
    closed after it.  [None] when there are no more turns. *)
Fixpoint watch_loop (turns : list (list signal * bool)) (watch : watch_state) : option watch_state :=
  let '(failed, w) := watch in
  if (failed : bool) then Some (true, w)
  else
    let '(stop, w) := cancelled w in
    if (stop : bool) then Some (false, w)
    else match turns with
         | [] => None
         | (signals, closed) :: turns =>
           let '(failed, w) := fold_left signal_event signals (false, w) in
           if (closed : bool) then Some (true, w) else watch_loop turns (failed, w)
         end.

(** The request for the windows a watch starts from. *)
Definition list_request : ksd_frame :=
  mk_frame [] 0 0 KSD_OP_WINDOW_LIST 0 8 1 (Some (z2b 1 :: repeat x00 7)).

(** What the watch's calls give: the connection, the main loop's objects, the reply of
    the extension to the request for the windows, and the capacity of [diagnostic]. *)
Record watch_run := mk_watch {
  wr_connection : g_error + Z; wr_context : bool; wr_subscribed : bool; wr_timer : bool;
  wr_bus : provider_bus; wr_file : memfd_run; wr_turns : list (list signal * bool); wr_capacity : Z }.

Definition initial_snapshot (run : watch_run) (backend : Z) (clipboard : bool) (w : W) : option (bool * W) :=
  if clipboard then
    Some (and_then (snapshot_emit KSD_STATE_CLIPBOARD KSD_STATE_SNAPSHOT_BEGIN None)
            (snapshot_emit KSD_STATE_CLIPBOARD KSD_STATE_SNAPSHOT_END None) w)
  else
    let* (snapshot, _, _) := snd (perform_action (wr_bus run) (ksd_provider_execute (wr_file run) 0 backend list_request)) in
    let tail := default [] (res_tail snapshot) in
    Some (if (res_status snapshot =? KSD_STATUS_OK) && (4 <=? res_tail_length snapshot)
          then window_snapshot (ztake (res_tail_length snapshot - 4) (zdrop 4 tail)) w
          else (false, w)).

(** What is written to [diagnostic], before its terminator. *)
Definition watch_diagnostic (capacity : Z) (error : option g_error) : list byte :=
  ztake (capacity - 1) (match error with Some error => ge_message error | None => cstr "desktop provider event stream ended" end).

(** The result, what is written to [diagnostic], and what was passed on. *)
Definition ksd_provider_watch (run : watch_run) (backend : Z) (clipboard : bool) (w : W) : option (Z * list byte * W) :=
  let ends (error : option g_error) (w : W) := Some (-1, watch_diagnostic (wr_capacity run) error, w) in
  if wr_capacity run =? 0 then Some (-1, [], w)
  else
    match wr_connection run with
    | inl error => ends (Some error) w
    | inr _ =>
      if negb (wr_context run && wr_subscribed run && wr_timer run) then ends None w
      else
        let* (ok, w) := initial_snapshot run backend clipboard w in
        if negb ok then ends None w
        else
          let* (failed, w) := watch_loop (wr_turns run) (false, w) in
          if (failed : bool) then ends None w else Some (0, [], w)
    end.
End events.

(** ** What the signals become *)

Section event_theorems.
Context {AL : Allocator} {AT : AllocTotal AL}.

(** What is built in a fresh buffer: the bytes, exactly when they fit. *)
Lemma built_fresh {W} (emit : Z -> list byte -> W -> bool * W) op bs maximum opcode w :
  writes op bs -> 0 <= maximum <= SIZE_MAX ->
  emit_built emit (op (ksd_buffer_init maximum)) opcode w = if zlen bs <=? maximum then emit opcode bs w else (false, w).
Proof.
  intros Hw Hm. unfold emit_built. specialize (Hw _ (buffer_init_wf _ Hm)). destruct (op (ksd_buffer_init maximum)) as [ok b].
  destruct Hw as ((H1 & H2 & H3) & Hmax & _ & Hok & Ht). cbn [ksd_buffer_init buf_bytes app] in Hok.
  change (buf_length (ksd_buffer_init maximum)) with 0 in Ht. change (buf_maximum (ksd_buffer_init maximum)) with maximum in *.
  destruct (Z.leb_spec (zlen bs) maximum).
  - rewrite Ht in Hok |- * by (done || lia). by rewrite Hok.
  - destruct ok; [|done]. unfold buf_length in *. rewrite Hok in * by done. lia.
Qed.

(** *** Windows *)

(** The payload of a window's event. *)
Definition window_payload (kind : Z) (json : list byte) : list byte :=
  ksd_encode_u16 kind ++ ksd_encode_u16 0 ++ ksd_encode_u32 (zlen json) ++ json.
Lemma window_payload_length kind json : zlen (window_payload kind json) = 8 + zlen json.
Proof. unfold window_payload. rewrite !zlen_app, !zlen_encode_u16, zlen_encode_u32. lia. Qed.

Definition named_kinds : list (list byte) :=
  map cstr ["create"; "close"; "active"; "title"; "minimize"; "restore"; "move"; "show"; "hide"; "changed"; "active-state"]%string.
Lemma event_kind_named name : (event_kind name <> 0 <-> In name named_kinds) /\ 0 <= event_kind name <= KSD_WINDOW_EVENT_CHANGED
  /\ (event_kind name = KSD_WINDOW_EVENT_CLOSE <-> name = cstr "close").
Proof.
  unfold event_kind, named_kinds, bytes_eqb. cbn [map In].
  repeat (match goal with |- context[bool_decide (name = ?t)] => destruct (bool_decide_reflect (name = t)) as [->|] end;
    [split; [split; [intros _; tauto|intros _ [=]]|split; [done|split; [intros [=]|intros [=]]]]; reflexivity|]).
  split; [split; [done|intuition congruence]|]. split; [done|]. split; [done|]. intros ->. done.
Qed.

Lemma window_frame_event kind json :
  0 <= kind < 2 ^ 16 -> is_u32 (zlen json) ->
  source_frame_event (event_message KSD_OP_WINDOW_EVENT (window_payload kind json))
  = (let* window := ksd_state_window_json json in
     Some (mk_event (if kind =? KSD_WINDOW_EVENT_CLOSE then KSD_STATE_DESTROY else KSD_STATE_CHANGED) KSD_STATE_WINDOWS 0 0 window None 0 0)).
Proof.
  intros Hk Hl. unfold source_frame_event. cbn [event_message fr_payload fr_payload_length fr_opcode default from_option].
  change (KSD_OP_WINDOW_EVENT =? KSD_OP_STATE_EVENT) with false. rewrite Z.eqb_refl. cbv iota. cbn [default from_option]. unfold id. rewrite window_payload_length.
  assert (H4 : zdrop 4 (window_payload kind json) = ksd_encode_u32 (zlen json) ++ json).
  { unfold window_payload. rewrite app_assoc. apply (zdrop_app_l (ksd_encode_u16 kind ++ ksd_encode_u16 0)). }
  assert (H8 : zdrop 8 (window_payload kind json) = json).
  { unfold window_payload. rewrite !app_assoc. apply (zdrop_app_l ((ksd_encode_u16 kind ++ ksd_encode_u16 0) ++ ksd_encode_u32 (zlen json))). }
  assert (H2 : ksd_decode_u16 (window_payload kind json) = kind) by (unfold window_payload; rewrite decode_encode_u16; by apply u16_id).
  rewrite H4, H8, H2, decode_encode_u32, u32_id by done. pose proof (zlen_nonneg json).
  replace (8 + zlen json <? 8) with false by lia. replace (zlen json =? 8 + zlen json - 8) with true by lia. done.
Qed.

(** What a signal of a window passes on. *)
Lemma window_event_exact {W} (emit : Z -> list byte -> W -> bool * W) failed name json w :
  name <> cstr "snapshot" ->
  (In name named_kinds /\ utf8_within json KSD_MAX_TEXT_BYTES ->
   window_event emit name json (failed, w) = watch_after failed (emit KSD_OP_WINDOW_EVENT (window_payload (event_kind name) json) w)) /\
  (~ (In name named_kinds /\ utf8_within json KSD_MAX_TEXT_BYTES) -> window_event emit name json (failed, w) = (true, w)).
Proof.
  intros Hs. destruct (event_kind_named name) as (Hn & Hr & Hc). unfold window_event. unfold bytes_eqb at 1. unfold bytes_eqb at 1.
  rewrite !(bool_decide_eq_false_2 _ Hs). unfold utf8_within. split.
  - intros (Hin & Hl & Hu). apply Hn in Hin. apply Z.eqb_neq in Hin. rewrite Hin. replace (KSD_MAX_TEXT_BYTES <? zlen json) with false by lia.
    rewrite Hu. cbn [negb orb]. pose proof (zlen_nonneg json). rewrite (u32_id (zlen json)) by (unfold is_u32, KSD_MAX_TEXT_BYTES in *; lia).
    rewrite (built_fresh emit _ (window_payload (event_kind name) json)).
    + rewrite window_payload_length. by replace (8 + zlen json <=? KSD_MAX_TEXT_BYTES + 8) with true by lia.
    + unfold window_payload. do 3 (apply andthen_writes; [auto with ksdw|]). apply put_writes.
    + unfold KSD_MAX_TEXT_BYTES, SIZE_MAX. lia.
  - intros H. destruct (Z.eqb_spec (event_kind name) 0) as [E|E]; [done|]. destruct (Z.ltb_spec KSD_MAX_TEXT_BYTES (zlen json)); [done|].
    destruct (ksd_utf8_valid json false); [|done]. destruct H. split; [by apply Hn|done].
Qed.

(** A window signal reaches the client as the event it names.  A signal with one of
    the eleven names and a JSON text within the limit is passed on as one frame, which the
    authority's reader turns into the change, or for a closed window the end, of the window
    the text describes; a signal with another name, or with a text that is too long or not
    UTF-8, passes nothing on and ends the watch. *)
Theorem window_signal_delivered {W} (emit : Z -> list byte -> W -> bool * W) failed name json w :
  name <> cstr "snapshot" ->
  (In name named_kinds /\ utf8_within json KSD_MAX_TEXT_BYTES ->
   exists payload,
     window_event emit name json (failed, w) = watch_after failed (emit KSD_OP_WINDOW_EVENT payload w) /\
     zlen payload = 8 + zlen json /\
     source_frame_event (event_message KSD_OP_WINDOW_EVENT payload)
     = (let* window := ksd_state_window_json json in
        Some (mk_event (if bool_decide (name = cstr "close") then KSD_STATE_DESTROY else KSD_STATE_CHANGED)
                KSD_STATE_WINDOWS 0 0 window None 0 0))) /\
  (~ (In name named_kinds /\ utf8_within json KSD_MAX_TEXT_BYTES) -> window_event emit name json (failed, w) = (true, w)).
Proof.
  intros Hs. destruct (window_event_exact emit failed name json w Hs) as [Hyes Hno]. split; [|done]. intros Hok.
  exists (window_payload (event_kind name) json). split; [by apply Hyes|]. split; [apply window_payload_length|].
  destruct (event_kind_named name) as (_ & Hr & Hc). pose proof (zlen_nonneg json). destruct Hok as (_ & Hl & _).
  rewrite window_frame_event by (unfold KSD_WINDOW_EVENT_CHANGED, is_u32, KSD_MAX_TEXT_BYTES in *; lia).
  destruct (ksd_state_window_json json) as [window|]; [|done]. cbn [from_option]. do 2 f_equal.
  destruct (Z.eqb_spec (event_kind name) KSD_WINDOW_EVENT_CLOSE) as [E|E].
  - by rewrite (bool_decide_eq_true_2 _ (proj1 Hc E)).
  - by rewrite (bool_decide_eq_false_2 _ (fun H => E (proj2 Hc H))).
Qed.

(** *** The clipboard *)

Definition clipboard_payload (text : list byte) (mimetypes : list (list byte)) : list byte :=
  ksd_encode_u32 (zlen text) ++ ksd_encode_u32 (zlen mimetypes) ++ text ++ concat (map text_tail mimetypes).

(** The document a client reads: the text and the list of mimetypes. *)
Fixpoint listed_types (first : bool) (mimetypes : list (list byte)) : list byte :=
  match mimetypes with
  | [] => []
  | mimetype :: mimetypes => (if first then [] else cstr ",") ++ json_literal mimetype false ++ listed_types false mimetypes
  end.
Definition clipboard_document (text : list byte) (mimetypes : list (list byte)) : list byte :=
  clipboard_head ++ json_literal text false ++ clipboard_middle ++ listed_types true mimetypes ++ [z2b 93; z2b 125].

Fixpoint types_op (first : bool) (mimetypes : list (list byte)) : bufop :=
  match mimetypes with
  | [] => keep
  | mimetype :: mimetypes => ((if first then keep else put (cstr ",")) ;;; ksd_buffer_json_string mimetype false) ;;; types_op false mimetypes
  end.
Lemma keep_writes : writes keep [].
Proof. apply writes_nil. Qed.
Lemma types_op_writes mimetypes first : writes (types_op first mimetypes) (listed_types first mimetypes).
Proof.
  revert first. induction mimetypes as [|m l IH]; intros first; cbn [types_op listed_types]; [apply keep_writes|].
  rewrite app_assoc. apply andthen_writes; [|apply IH]. apply andthen_writes; [destruct first; [apply keep_writes|apply put_writes]|apply json_string_writes].
Qed.

Lemma clipboard_types_op mimetypes : Forall mimetype_item mimetypes -> forall first cursor json,
  cursor_wf cursor -> cursor_rest cursor = concat (map text_tail mimetypes) ->
  exists cursor', ksd_cursor_finished cursor' = true /\
    clipboard_types (length mimetypes) first cursor json
    = (let '(ok, json) := types_op first mimetypes json in guard* ok in Some (cursor', json)).
Proof.
  induction 1 as [|m l [Hm _] _ IH]; intros first cursor json Hw Hr.
  - exists cursor. split; [by apply cursor_finished_rest|done].
  - cbn [map concat] in Hr. unfold text_tail at 1 in Hr. rewrite <- app_assoc in Hr.
    destruct (reads_u32 (zlen m) ltac:(unfold is_u32, KSD_MAX_MIMETYPE_BYTES in *; lia) cursor _ Hw Hr) as (c1 & E1 & W1 & R1).
    destruct (cursor_bytes_app c1 m _ W1 R1) as (c2 & E2 & W2 & R2).
    cbn [length clipboard_types types_op]. rewrite E1. cbn [from_option]. rewrite E2. cbn [from_option]. set (op := (if first then keep else put (cstr ",")) ;;; ksd_buffer_json_string m false).
    unfold andthen. destruct (op json) as [[] b] eqn:Eb.
    + destruct (IH false c2 b W2 R2) as (cursor' & Hf & E). exists cursor'. by rewrite E.
    + by exists (ksd_cursor_init [] 0).
Qed.

Lemma clipboard_json_exact text mimetypes :
  is_u32 (zlen text) -> zlen mimetypes <= KSD_MAX_MIMETYPES -> Forall mimetype_item mimetypes ->
  clipboard_json (clipboard_payload text mimetypes)
  = (if zlen (clipboard_document text mimetypes) <=? KSD_MAX_TEXT_BYTES then Some (clipboard_document text mimetypes) else None).
Proof.
  intros Ht Hm Hi. pose proof (zlen_nonneg mimetypes). assert (Hu : is_u32 (zlen mimetypes)) by (unfold is_u32, KSD_MAX_MIMETYPES in *; lia).
  unfold clipboard_json. set (c0 := ksd_cursor_init (clipboard_payload text mimetypes) (zlen (clipboard_payload text mimetypes))).
  assert (W0 : cursor_wf c0) by apply cursor_init_wf. assert (R0 : cursor_rest c0 = clipboard_payload text mimetypes) by done.
  unfold clipboard_payload in R0. clearbody c0. destruct (reads_u32 _ Ht c0 _ W0 R0) as (c1 & E1 & W1 & R1).
  destruct (reads_u32 _ Hu c1 _ W1 R1) as (c2 & E2 & W2 & R2). destruct (cursor_bytes_app c2 text _ W2 R2) as (c3 & E3 & W3 & R3).
  rewrite E1. cbn [from_option]. rewrite E2. cbn [from_option]. rewrite E3. cbn [from_option]. unfold zlen at 1. rewrite Nat2Z.id.
  set (head := put clipboard_head ;;; ksd_buffer_json_string text false ;;; put clipboard_middle).
  assert (Hhead : writes head (clipboard_head ++ json_literal text false ++ clipboard_middle)) by (apply andthen_writes; auto with ksdw).
  assert (Hall : writes (head ;;; (types_op true mimetypes ;;; put [z2b 93; z2b 125])) (clipboard_document text mimetypes)).
  { unfold clipboard_document. replace (clipboard_head ++ json_literal text false ++ clipboard_middle ++ listed_types true mimetypes ++ [z2b 93; z2b 125])
      with ((clipboard_head ++ json_literal text false ++ clipboard_middle) ++ listed_types true mimetypes ++ [z2b 93; z2b 125]) by (by rewrite <- !app_assoc).
    apply andthen_writes; [done|]. apply andthen_writes; [apply types_op_writes|apply put_writes]. }
  pose proof (built_fresh (fun _ bs (_ : unit) => (true, tt)) _ _ KSD_MAX_TEXT_BYTES 0 tt Hall ltac:(unfold KSD_MAX_TEXT_BYTES, SIZE_MAX; lia)) as Hb.
  pose proof (Hall _ (buffer_init_wf KSD_MAX_TEXT_BYTES ltac:(unfold KSD_MAX_TEXT_BYTES, SIZE_MAX; lia))) as Hw.
  unfold emit_built in Hb. unfold andthen at 1 in Hb. unfold andthen at 1 in Hw. clearbody head.
  destruct (head (ksd_buffer_init KSD_MAX_TEXT_BYTES)) as [[] b].
  2: { destruct (zlen (clipboard_document text mimetypes) <=? KSD_MAX_TEXT_BYTES); [discriminate Hb|done]. }
  destruct (clipboard_types_op mimetypes Hi true c3 b W3 R3) as (cursor & Hf & ->). unfold andthen in Hb, Hw.
  destruct (types_op true mimetypes b) as [[] b1].
  2: { destruct (zlen (clipboard_document text mimetypes) <=? KSD_MAX_TEXT_BYTES); [discriminate Hb|done]. }
  cbn [from_option]. rewrite Hf. destruct (put [z2b 93; z2b 125] b1) as [[] b2].
  - destruct Hw as (_ & _ & _ & Hok & _). rewrite (Hok eq_refl). cbn [ksd_buffer_init buf_bytes app].
    destruct (zlen (clipboard_document text mimetypes) <=? KSD_MAX_TEXT_BYTES); [done|discriminate Hb].
  - destruct (zlen (clipboard_document text mimetypes) <=? KSD_MAX_TEXT_BYTES); [discriminate Hb|done].
Qed.

Lemma clipboard_payload_length text mimetypes :
  zlen (clipboard_payload text mimetypes) = 8 + zlen text + zlen (concat (map text_tail mimetypes)).
Proof. unfold clipboard_payload. rewrite !zlen_app, !zlen_encode_u32. lia. Qed.

(** What a signal of the clipboard passes on. *)
Lemma clipboard_event_exact {W} (emit : Z -> list byte -> W -> bool * W) failed text mimetypes w :
  (utf8_within text KSD_MAX_TEXT_BYTES /\ zlen mimetypes <= KSD_MAX_MIMETYPES /\ Forall mimetype_item mimetypes ->
   clipboard_event emit text mimetypes (failed, w)
   = (if zlen (clipboard_payload text mimetypes) <=? KSD_MAX_TEXT_BYTES
      then watch_after failed (emit KSD_OP_CLIPBOARD_EVENT (clipboard_payload text mimetypes) w) else (true, w))) /\
  (~ (utf8_within text KSD_MAX_TEXT_BYTES /\ zlen mimetypes <= KSD_MAX_MIMETYPES /\ Forall mimetype_item mimetypes) ->
   clipboard_event emit text mimetypes (failed, w) = (true, w)).
Proof.
  unfold clipboard_event. pose proof (zlen_nonneg text) as Hnt. pose proof (zlen_nonneg mimetypes) as Hnm. split.
  - intros ((Hl & Hu) & Hm & Hi). replace (KSD_MAX_TEXT_BYTES <? zlen text) with false by lia.
    replace (KSD_MAX_MIMETYPES <? zlen mimetypes) with false by lia.
    rewrite Hu, !u32_id by (unfold is_u32, KSD_MAX_TEXT_BYTES, KSD_MAX_MIMETYPES in *; lia). cbn [negb orb].
    rewrite (built_fresh emit _ (clipboard_payload text mimetypes)).
    + destruct (zlen (clipboard_payload text mimetypes) <=? KSD_MAX_TEXT_BYTES); [done|]. cbn [watch_after negb]. by rewrite orb_true_r.
    + unfold clipboard_payload. do 2 (apply andthen_writes; [auto with ksdw|]). apply andthen_writes; [apply put_writes|by apply mimetypes_writes].
    + unfold KSD_MAX_TEXT_BYTES, SIZE_MAX. lia.
  - intros Hno. destruct (Z.ltb_spec KSD_MAX_TEXT_BYTES (zlen text)); [done|]. destruct (Z.ltb_spec KSD_MAX_MIMETYPES (zlen mimetypes)); [done|].
    destruct (ksd_utf8_valid text false) eqn:Hu; [|done]. cbn [negb orb].
    assert (Hi : ~ Forall mimetype_item mimetypes) by (intros Hi; apply Hno; by repeat split).
    unfold emit_built, andthen. destruct (ksd_buffer_u32 _ _) as [[] b1]; [|cbn; by rewrite orb_true_r].
    destruct (ksd_buffer_u32 _ b1) as [[] b2]; [|cbn; by rewrite orb_true_r]. destruct (put text b2) as [[] b3]; [|cbn; by rewrite orb_true_r].
    pose proof (mimetypes_refused mimetypes Hi b3) as Hr. destruct (append_mimetypes mimetypes b3) as [[] b4]; [done|]. cbn. by rewrite orb_true_r.
Qed.

(** C27: What a client is told of the clipboard is what the shell's extension said.
    While memory lasts, a change with a valid text and valid mimetypes is passed on as one frame exactly when
    its payload, with its eight bytes of lengths, is within the limit of a text; and the
    authority's reader makes of that frame the JSON document of exactly that text and
    those mimetypes in their order, when the document fits.  Everything else passes
    nothing on and ends the watch, also a text within its own limit that leaves no room
    for the lengths. *)
Theorem clipboard_signal_delivered {W} (emit : Z -> list byte -> W -> bool * W) failed text mimetypes w :
  let payload := clipboard_payload text mimetypes in
  let document := clipboard_document text mimetypes in
  (utf8_within text KSD_MAX_TEXT_BYTES /\ zlen mimetypes <= KSD_MAX_MIMETYPES /\ Forall mimetype_item mimetypes ->
   clipboard_event emit text mimetypes (failed, w)
   = (if zlen payload <=? KSD_MAX_TEXT_BYTES then watch_after failed (emit KSD_OP_CLIPBOARD_EVENT payload w) else (true, w)) /\
   source_frame_event (event_message KSD_OP_CLIPBOARD_EVENT payload)
   = (if zlen document <=? KSD_MAX_TEXT_BYTES
      then Some (mk_event KSD_STATE_CHANGED KSD_STATE_CLIPBOARD 0 0 ksd_window_record_init (Some document) 0 0) else None)) /\
  (~ (utf8_within text KSD_MAX_TEXT_BYTES /\ zlen mimetypes <= KSD_MAX_MIMETYPES /\ Forall mimetype_item mimetypes) ->
   clipboard_event emit text mimetypes (failed, w) = (true, w)).
Proof.
  intros payload document. destruct (clipboard_event_exact emit failed text mimetypes w) as [Hyes Hno]. split; [|done]. intros Hok.
  split; [by apply Hyes|]. destruct Hok as ((Hl & _) & Hm & Hi). pose proof (zlen_nonneg text).
  unfold source_frame_event, event_message. cbn [fr_payload fr_payload_length fr_opcode from_option].
  change (KSD_OP_CLIPBOARD_EVENT =? KSD_OP_STATE_EVENT) with false. change (KSD_OP_CLIPBOARD_EVENT =? KSD_OP_WINDOW_EVENT) with false.
  rewrite Z.eqb_refl. cbv iota. unfold default, id. subst payload.
  rewrite clipboard_json_exact by (unfold is_u32, KSD_MAX_TEXT_BYTES in *; done || lia). fold document.
  by destruct (zlen document <=? KSD_MAX_TEXT_BYTES).
Qed.

(** *** Snapshots *)

Definition snapshot_events (windows : list ksd_window_record) : list ksd_state_event :=
  snapshot_event KSD_STATE_WINDOWS KSD_STATE_SNAPSHOT_BEGIN None
  :: map (fun window => snapshot_event KSD_STATE_WINDOWS KSD_STATE_SNAPSHOT_ITEM (Some window)) windows
  ++ [snapshot_event KSD_STATE_WINDOWS KSD_STATE_SNAPSHOT_END None].
Definition clipboard_events : list ksd_state_event :=
  [snapshot_event KSD_STATE_CLIPBOARD KSD_STATE_SNAPSHOT_BEGIN None; snapshot_event KSD_STATE_CLIPBOARD KSD_STATE_SNAPSHOT_END None].
Definition event_frame (e : ksd_state_event) : Z * list byte := (KSD_OP_STATE_EVENT, event_bytes e).

(** A text that lists these windows, to its end. *)
Definition windows_listed (json : list byte) (windows : list ksd_window_record) : Prop :=
  (forall i w, windows !! i = Some w -> placed i w) /\
  forall C (callback : ksd_window_record -> C -> bool * C) context, ksd_state_windows_json json callback context = feed callback windows context.

Lemma placed_ok i w : placed i w -> window_ok (norm_window w).
Proof.
  intros (Ho & _ & _ & _ & data & read & Hr & ->). apply window_json_ok in Hr. unfold window_ok, norm_window, place_window in *.
  cbn in *. repeat match goal with H : _ /\ _ |- _ => destruct H end.
  repeat (split; [first [assumption|apply u64_range|by apply lor_u64]|]). assumption.
Qed.
Lemma snapshot_event_ok domain kind window :
  domain = KSD_STATE_WINDOWS \/ domain = KSD_STATE_CLIPBOARD -> KSD_STATE_SNAPSHOT_BEGIN <= kind <= KSD_STATE_RESET ->
  window_ok (norm_window (default ksd_window_record_init window)) -> event_ok (norm_event (snapshot_event domain kind window)).
Proof.
  intros Hd Hk Hw. unfold event_ok, snapshot_event, norm_event, is_u32, is_u64.
  cbn [ev_kind ev_domain ev_epoch ev_sequence ev_window ev_data ev_granted_scopes ev_revoked_scopes].
  destruct Hd as [-> | ->]; unfold KSD_STATE_WINDOWS, KSD_STATE_CLIPBOARD; (repeat (split; [first [assumption|lia|reflexivity]|])); by split.
Qed.
Lemma window_init_ok : window_ok (norm_window ksd_window_record_init).
Proof.
  unfold window_ok, norm_window, ksd_window_record_init, rect_ok, rect_zero, text_ok, is_u32, is_u64, is_i32; window_fields. cbn [rect_x rect_y rect_width rect_height].
  repeat split; (lia || done || (cbn; unfold KSD_MAX_TEXT_BYTES; lia)).
Qed.

(** A frame of a snapshot is read as its event. *)
Lemma event_frame_read e :
  event_ok (norm_event e) -> source_frame_event (event_message KSD_OP_STATE_EVENT (event_bytes e)) = Some (norm_event e).
Proof.
  intros He. unfold source_frame_event, event_message. cbn [fr_opcode fr_payload]. rewrite Z.eqb_refl. unfold default, id. by apply event_decode_norm.
Qed.

(** *** A watch *)

(** What is passed on is kept, and nothing is refused. *)
Definition recorded : Type := list (Z * list byte).
Definition record (opcode : Z) (payload : list byte) (passed : recorded) : bool * recorded := (true, passed ++ [(opcode, payload)]).

(** What a signal passes on, when it does not end the watch. *)
Inductive signal_passes : signal -> recorded -> Prop :=
| PassesSnapshot json windows :
    windows_listed json windows -> zlen json <= KSD_MAX_TEXT_BYTES ->
    signal_passes (WindowSignal (cstr "snapshot") json) (map event_frame (snapshot_events windows))
| PassesWindow name json :
    In name named_kinds -> utf8_within json KSD_MAX_TEXT_BYTES ->
    signal_passes (WindowSignal name json) [(KSD_OP_WINDOW_EVENT, window_payload (event_kind name) json)]
| PassesClipboard text mimetypes :
    utf8_within text KSD_MAX_TEXT_BYTES -> zlen mimetypes <= KSD_MAX_MIMETYPES -> Forall mimetype_item mimetypes ->
    signal_passes (ClipboardSignal text mimetypes) [(KSD_OP_CLIPBOARD_EVENT, clipboard_payload text mimetypes)].

Lemma snapshot_emit_recorded domain kind window passed passed' :
  texts_fit (snapshot_event domain kind window) ->
  snapshot_emit record domain kind window passed = (true, passed') -> passed' = passed ++ [event_frame (snapshot_event domain kind window)].
Proof.
  intros Hf. unfold snapshot_emit. rewrite (built_fresh record _ (event_bytes (snapshot_event domain kind window))).
  - destruct (_ <=? _); [|done]. by intros [= <-].
  - by apply event_encode_writes.
  - unfold KSD_MAX_TEXT_BYTES, SIZE_MAX. lia.
Qed.
Lemma mark_fit domain kind : domain = KSD_STATE_WINDOWS \/ domain = KSD_STATE_CLIPBOARD -> KSD_STATE_SNAPSHOT_BEGIN <= kind <= KSD_STATE_RESET ->
  texts_fit (snapshot_event domain kind None).
Proof. intros Hd Hk. apply norm_event_texts, event_ok_texts, snapshot_event_ok; [done|done|apply window_init_ok]. Qed.

Lemma feed_recorded windows : (forall w, In w windows -> window_ok (norm_window w)) -> forall passed passed',
  feed (snapshot_window record) windows passed = (true, passed') ->
  passed' = passed ++ map (fun w => event_frame (snapshot_event KSD_STATE_WINDOWS KSD_STATE_SNAPSHOT_ITEM (Some w))) windows.
Proof.
  induction windows as [|w l IH]; intros Hok passed passed'; cbn [feed map]; [intros [= <-]; by rewrite app_nil_r|].
  destruct (snapshot_window record w passed) as [[] p] eqn:E; [|done]. apply snapshot_emit_recorded in E.
  - intros H. rewrite (IH (fun w Hin => Hok w (or_intror Hin)) _ _ H), E, <- app_assoc. done.
  - apply norm_event_texts, event_ok_texts, snapshot_event_ok; [by left| |by apply Hok; left].
    unfold KSD_STATE_SNAPSHOT_BEGIN, KSD_STATE_SNAPSHOT_ITEM, KSD_STATE_RESET. lia.
Qed.

Lemma window_snapshot_recorded json passed passed' :
  window_snapshot record json passed = (true, passed') ->
  exists windows, windows_listed json windows /\ passed' = passed ++ map event_frame (snapshot_events windows).
Proof.
  unfold window_snapshot, and_then. destruct (windows_json_delivery json) as (complete & windows & Hp & Hfeed).
  destruct (snapshot_emit record _ _ None passed) as [[] p1] eqn:E1; [|done].
  apply snapshot_emit_recorded in E1; [|apply mark_fit; [by left|unfold KSD_STATE_SNAPSHOT_BEGIN, KSD_STATE_RESET; lia]].
  rewrite Hfeed. destruct (feed (snapshot_window record) windows p1) as [[] p2] eqn:E2; [|done].
  destruct complete; [cbn [andb]|done]. intros E3.
  apply snapshot_emit_recorded in E3; [|apply mark_fit; [by left|unfold KSD_STATE_SNAPSHOT_BEGIN, KSD_STATE_SNAPSHOT_END, KSD_STATE_RESET; lia]].
  exists windows. split.
  - split; [done|]. intros C callback context. rewrite Hfeed. by destruct (feed callback windows context) as [[] ?].
  - apply feed_recorded in E2.
    2: { intros w Hin. apply list_elem_of_In, list_elem_of_lookup in Hin as [i Hi]. by apply (placed_ok i), Hp. }
    rewrite E3, E2, E1. unfold snapshot_events. cbn [map]. rewrite map_app, map_map. cbn [map]. by rewrite <- !app_assoc.
Qed.

Lemma signal_recorded arrived passed passed' :
  signal_event record (false, passed) arrived = (false, passed') ->
  exists frames, signal_passes arrived frames /\ passed' = passed ++ frames.
Proof.
  destruct arrived as [name json|text mimetypes]; cbn [signal_event].
  - destruct (decide (name = cstr "snapshot")) as [->|Hn].
    + unfold window_event. rewrite (bool_decide_eq_true_2 _ eq_refl : bytes_eqb (cstr "snapshot") (cstr "snapshot") = true).
      destruct (Z.ltb_spec KSD_MAX_TEXT_BYTES (zlen json)); [done|]. unfold watch_after.
      destruct (window_snapshot record json passed) as [[] p] eqn:E; [|done]. intros [= <-].
      destruct (window_snapshot_recorded _ _ _ E) as (windows & Hl & ->). eexists. split; [by apply PassesSnapshot|done].
    + destruct (window_event_exact record false name json passed Hn) as [Hyes Hno].
      destruct (decide (In name named_kinds /\ utf8_within json KSD_MAX_TEXT_BYTES)) as [Hok|Hok]; [|by (rewrite Hno by done)].
      rewrite Hyes by done. cbn. intros [= <-]. eexists. split; [by apply PassesWindow; apply Hok|done].
  - destruct (clipboard_event_exact record false text mimetypes passed) as [Hyes Hno].
    destruct (decide (utf8_within text KSD_MAX_TEXT_BYTES /\ zlen mimetypes <= KSD_MAX_MIMETYPES /\ Forall mimetype_item mimetypes)) as [Hok|Hok];
      [|by (rewrite Hno by done)].
    rewrite Hyes by done. destruct (_ <=? _); [|done]. cbn. intros [= <-]. eexists. split; [by apply PassesClipboard; apply Hok|done].
Qed.

Lemma failed_stays signals : forall passed, fst (fold_left (signal_event record) signals (true, passed)) = true.
Proof.
  induction signals as [|s l IH]; intros passed; [done|]. cbn [fold_left].
  assert (H : fst (signal_event record (true, passed) s) = true).
  { destruct s as [name json|text mimetypes]; cbn [signal_event]; [unfold window_event|unfold clipboard_event]; repeat case_match; try done;
      unfold watch_after; repeat case_match; done. }
  destruct (signal_event record (true, passed) s) as [f p]. cbn [fst] in H. subst f. apply IH.
Qed.
Lemma turn_recorded signals : forall passed passed',
  fold_left (signal_event record) signals (false, passed) = (false, passed') ->
  exists frames, Forall2 signal_passes signals frames /\ passed' = passed ++ concat frames.
Proof.
  induction signals as [|s l IH]; intros passed passed'; cbn [fold_left].
  - intros [= <-]. exists []. split; [constructor|]. by rewrite app_nil_r.
  - destruct (signal_event record (false, passed) s) as [[] p] eqn:E.
    + intros H. pose proof (failed_stays l p) as Hf. by rewrite H in Hf.
    + intros H. destruct (IH _ _ H) as (frames & Hl & ->). destruct (signal_recorded _ _ _ E) as (first & Hs & ->).
      exists (first :: frames). split; [by constructor|]. cbn [concat]. by rewrite <- app_assoc.
Qed.

(** What a loop that was cancelled has passed on; looking for a cancellation passes
    nothing on. *)
Lemma watch_loop_recorded cancelled turns : forall passed passed',
  (forall p, snd (cancelled p) = p) ->
  watch_loop record cancelled turns (false, passed) = Some (false, passed') ->
  exists n frames, Forall (fun turn => snd turn = false) (take n turns) /\
    Forall2 signal_passes (concat (map fst (take n turns))) frames /\ passed' = passed ++ concat frames /\ fst (cancelled passed') = true.
Proof.
  intros passed passed' Hc. revert passed passed'. induction turns as [|[signals closed] turns IH]; intros passed passed'; cbn [watch_loop];
    pose proof (Hc passed) as Hp; destruct (cancelled passed) as [[] p] eqn:Ec; cbn [snd] in Hp; subst p; try done.
  - intros [= <-]. exists 0%nat, []. split; [constructor|]. split; [constructor|]. split; [by rewrite app_nil_r|]. by rewrite Ec.
  - intros [= <-]. exists 0%nat, []. split; [constructor|]. split; [constructor|]. split; [by rewrite app_nil_r|]. by rewrite Ec.
  - destruct (fold_left (signal_event record) signals (false, passed)) as [failed p] eqn:Et. destruct closed; [done|].
    destruct failed; [by destruct turns|]. intros H. destruct (IH _ _ H) as (n & frames & Ho & Hf & -> & Hs).
    destruct (turn_recorded _ _ _ Et) as (first & Hfirst & ->). exists (S n), (first ++ frames). cbn [take map concat].
    split; [by constructor|]. split; [by apply Forall2_app|]. rewrite concat_app, app_assoc. split; [done|].
    exact Hs.
Qed.

(** What the extension replies when it is asked for every window. *)
Definition window_reply (run : watch_run) (json : list byte) : Prop :=
  wr_bus run (list byte) TypeString (mk_dbus (cstr "GetWindowList") [GBoolean true] KSD_PROVIDER_TIMEOUT_MS) = Replied json.

(** The text a snapshot is read from is that reply. *)
Lemma list_answered run backend snapshot closed file :
  snd (perform_action (wr_bus run) (ksd_provider_execute (wr_file run) 0 backend list_request)) = Some (snapshot, closed, file) ->
  res_status snapshot = KSD_STATUS_OK ->
  exists json, window_reply run json /\ res_tail snapshot = Some (text_tail json) /\ res_tail_length snapshot = zlen (text_tail json).
Proof.
  assert (Hfails : forall status message, status <> KSD_STATUS_OK ->
    ends_with ksd_result_init status message = Some (snapshot, closed, file) -> res_status snapshot = KSD_STATUS_OK -> False).
  { intros status message Hs. destruct (ends_fails status message) as (m & ->). by intros [= <- _ _]. }
  destruct (decide (backend = KSD_BACKEND_GNOME \/ backend = KSD_BACKEND_CINNAMON)) as [Hb|Hb].
  - rewrite (provider_served (wr_file run) 0 (wr_bus run) backend list_request (ProviderWindowList true));
      [|done|done|split; [reflexivity|by split]].
    cbn [snd provider_ends provider_call]. unfold window_reply. destruct (wr_bus run (list byte) TypeString _) as [json|error].
    + cbn [string_result]. destruct ((KSD_MAX_TEXT_BYTES <? zlen json) || negb (ksd_utf8_valid json false)) eqn:E.
      * intros H Hok. exfalso. revert H Hok. by apply Hfails.
      * apply orb_false_iff in E as [E _]. rewrite text_delivers by lia. intros [= <- <- <-] _. by exists json.
    + cbn [string_result]. unfold provider_error. intros H Hok. exfalso. revert H Hok. apply Hfails.
      destruct error as [error|]; [by destruct error as [[]]|done].
  - unfold ksd_provider_execute.
    replace (negb (backend =? KSD_BACKEND_GNOME) && negb (backend =? KSD_BACKEND_CINNAMON)) with true by lia.
    cbn [perform_action snd]. intros H Hok. exfalso. revert H Hok. by apply Hfails.
Qed.

(** What a watch that was cancelled passed on first: the windows of the extension's
    reply, or the empty snapshot of a clipboard. *)
Lemma initial_recorded run backend clipboard passed :
  initial_snapshot record run backend clipboard [] = Some (true, passed) ->
  if clipboard then passed = map event_frame clipboard_events
  else exists json windows, window_reply run json /\ windows_listed json windows /\ passed = map event_frame (snapshot_events windows).
Proof.
  unfold initial_snapshot. destruct clipboard.
  - unfold and_then. destruct (snapshot_emit record _ _ None []) as [[] p] eqn:E1; [|done].
    apply snapshot_emit_recorded in E1; [|apply mark_fit; [by right|unfold KSD_STATE_SNAPSHOT_BEGIN, KSD_STATE_RESET; lia]].
    intros [= E2]. apply snapshot_emit_recorded in E2;
      [|apply mark_fit; [by right|unfold KSD_STATE_SNAPSHOT_BEGIN, KSD_STATE_SNAPSHOT_END, KSD_STATE_RESET; lia]].
    by rewrite E2, E1.
  - destruct (snd (perform_action _ _)) as [[[snapshot closed] file]|] eqn:E; [|done]. cbn [from_option].
    destruct ((res_status snapshot =? KSD_STATUS_OK) && (4 <=? res_tail_length snapshot)) eqn:Eok; [|done]. intros [= H].
    apply andb_true_iff in Eok as [Eok _]. apply Z.eqb_eq in Eok.
    destruct (list_answered _ _ _ _ _ E Eok) as (json & Hj & Et & El). rewrite Et, El in H. cbn [default from_option id] in H.
    rewrite text_tail_length in H. replace (4 + zlen json - 4) with (zlen json) in H by lia.
    change (zdrop 4 (text_tail json)) with json in H. rewrite ztake_all in H by lia.
    destruct (window_snapshot_recorded _ _ _ H) as (windows & Hl & ->). by exists json, windows.
Qed.

(** Every frame a watch starts with is read as an event of a snapshot. *)
Lemma snapshot_frames_read windows :
  (forall i w, windows !! i = Some w -> placed i w) ->
  Forall (fun e => event_ok (norm_event e)) (snapshot_events windows).
Proof.
  intros Hp. unfold snapshot_events. apply Forall_cons_2; [|apply Forall_app; split].
  - apply snapshot_event_ok; [by left|unfold KSD_STATE_SNAPSHOT_BEGIN, KSD_STATE_RESET; lia|apply window_init_ok].
  - apply Forall_fmap, Forall_lookup. intros i w Hi. apply snapshot_event_ok; [by left| |by apply (placed_ok i), Hp].
    unfold KSD_STATE_SNAPSHOT_BEGIN, KSD_STATE_SNAPSHOT_ITEM, KSD_STATE_RESET. lia.
  - apply Forall_singleton, snapshot_event_ok; [by left|unfold KSD_STATE_SNAPSHOT_BEGIN, KSD_STATE_SNAPSHOT_END, KSD_STATE_RESET; lia|apply window_init_ok].
Qed.

(** C25: A watch gives a whole snapshot and then every signal, in order.  While memory
    lasts, a watch whose frames are all taken and that ends without an error has passed on a complete snapshot,
    which for windows is the beginning, each window of the text the extension replied when
    it was asked for the list of all windows, once and in its place, and the end, each read
    by the authority as that event; and after it exactly
    what each signal that was dispatched passes on, in the order they arrived; it ended
    because it was cancelled, and the connection was open after every turn.  A watch that
    ends in any other way says so, in a diagnostic cut to its capacity. *)
Theorem watch_passes_everything cancelled run backend clipboard result diagnostic passed :
  (forall p, snd (cancelled p) = p) -> 1 < wr_capacity run -> (forall error, wr_connection run = inl error -> ge_message error <> []) ->
  ksd_provider_watch record cancelled run backend clipboard [] = Some (result, diagnostic, passed) ->
  (result = 0 ->
   exists first n frames,
     (if clipboard then first = clipboard_events else exists json windows, window_reply run json /\ windows_listed json windows /\ first = snapshot_events windows) /\
     (clipboard = false -> forall e, In e first ->
        source_frame_event (event_message KSD_OP_STATE_EVENT (event_bytes e)) = Some (norm_event e)) /\
     Forall (fun turn => snd turn = false) (take n (wr_turns run)) /\
     Forall2 signal_passes (concat (map fst (take n (wr_turns run)))) frames /\
     passed = map event_frame first ++ concat frames /\ fst (cancelled passed) = true /\ diagnostic = []) /\
  (result <> 0 -> result = -1 /\ diagnostic <> [] /\ zlen diagnostic < wr_capacity run).
Proof.
  intros Hc Hcap Hmsg. unfold ksd_provider_watch. replace (wr_capacity run =? 0) with false by lia.
  assert (Hd : forall error, (forall e, error = Some e -> ge_message e <> []) ->
    watch_diagnostic (wr_capacity run) error <> [] /\ zlen (watch_diagnostic (wr_capacity run) error) < wr_capacity run).
  { intros error He. unfold watch_diagnostic. set (message := match error with Some e => ge_message e | None => _ end).
    assert (Hne : message <> []) by (unfold message; destruct error as [e|]; [by apply He|done]). clearbody message. split.
    - unfold ztake. destruct message as [|b l]; [done|]. by destruct (Z.to_nat (wr_capacity run - 1)) as [|k] eqn:E; [lia|].
    - unfold ztake, zlen. rewrite length_take. lia. }
  destruct (wr_connection run) as [error|connection]; [intros [= <- <- <-]; split; [done|]; intros _; split; [done|];
    apply Hd; intros e [= <-]; by apply Hmsg|].
  assert (Hn := Hd None ltac:(done)). destruct (negb _); [intros [= <- <- <-]; split; [done|]; by intros _|].
  destruct (initial_snapshot record run backend clipboard []) as [[ok w]|] eqn:Ei; [|done]. cbn [from_option].
  destruct ok; cbn [negb]; [|intros [= <- <- <-]; split; [done|]; by intros _].
  destruct (watch_loop record cancelled (wr_turns run) (false, w)) as [[failed w']|] eqn:El; [|done]. cbn [from_option].
  destruct failed; intros [= <- <- <-]; [split; [intros [=]|by intros _]|split; [|done]].
  intros _. destruct (watch_loop_recorded _ _ _ _ Hc El) as (n & frames & Ho & Hf & -> & Hs).
  apply initial_recorded in Ei. destruct clipboard.
  - subst w. exists clipboard_events, n, frames. by repeat split.
  - destruct Ei as (json & windows & Hj & Hl & ->). exists (snapshot_events windows), n, frames. split; [by exists json, windows|].
    split; [|by repeat split]. intros _ e Hin. apply event_frame_read. destruct Hl as [Hp _].
    by apply (proj1 (List.Forall_forall _ _) (snapshot_frames_read windows Hp)).
Qed.
End event_theorems.

(** ** Witnesses *)

Section event_witnesses.
#[local] Existing Instance infinite_memory.
#[local] Instance events_total : AllocTotal infinite_memory := fun _ => eq_refl.

Definition one_window : list byte := requote "{'id':42,'title':'Notes'}".
Definition window_list : list byte := requote "{'windows':[" ++ one_window ++ requote "]}".
(** An extension that lists one window. *)
Definition listing_bus : provider_bus := fun T type _ =>
  match type in reply_type T return provider_reply T with
  | TypeString => Replied window_list
  | _ => NoReply None
  end.
Definition watching : watch_run :=
  mk_watch (inr 5) true true true listing_bus no_file
    [([], false); ([WindowSignal (cstr "title") one_window; WindowSignal (cstr "close") one_window], false)] 128.
(** A subscription that ends once five frames have passed. *)
Definition five_frames (passed : recorded) : bool * recorded := (5 <=? zlen passed, passed).

Lemma window_signal_delivered_witness :
  source_frame_event (event_message KSD_OP_WINDOW_EVENT (window_payload (event_kind (cstr "close")) one_window))
  = (let* window := ksd_state_window_json one_window in
     Some (mk_event KSD_STATE_DESTROY KSD_STATE_WINDOWS 0 0 window None 0 0)).
Proof.
  destruct (window_signal_delivered record false (cstr "close") one_window [] ltac:(discriminate)) as [H _].
  destruct H as (payload & E & _ & Hs).
  - split; [right; left; reflexivity|]. split; [vm_compute; discriminate|vm_compute; reflexivity].
  - replace payload with (window_payload (event_kind (cstr "close")) one_window) in Hs; [exact Hs|].
    vm_compute in E. injection E as <-. vm_compute. reflexivity.
Defined.

Lemma clipboard_signal_delivered_witness :
  clipboard_event record (cstr "hello") [cstr "text/plain"] (false, [])
  = (false, [(KSD_OP_CLIPBOARD_EVENT, clipboard_payload (cstr "hello") [cstr "text/plain"])]).
Proof.
  refine (eq_trans (proj1 (proj1 (clipboard_signal_delivered record false (cstr "hello") [cstr "text/plain"] []) _)) _).
  - split; [split; [vm_compute; discriminate|vm_compute; reflexivity]|]. split; [vm_compute; discriminate|].
    constructor; [|constructor]. split; [vm_compute; split; discriminate|vm_compute; reflexivity].
  - vm_compute. reflexivity.
Defined.

Lemma watch_passes_everything_witness :
  exists passed first frames,
    ksd_provider_watch record five_frames watching KSD_BACKEND_GNOME false [] = Some (0, [], passed) /\
    passed = map event_frame first ++ concat frames /\ zlen passed = 5.
Proof.
  destruct (ksd_provider_watch record five_frames watching KSD_BACKEND_GNOME false []) as [[[result diagnostic] passed]|] eqn:E;
    [|vm_compute in E; discriminate E].
  pose proof (f_equal (fun r => fst (fst (default (1, [], []) r))) E) as Hr. vm_compute in Hr.
  pose proof (f_equal (fun r => zlen (snd (default (1, [], []) r))) E) as Hl. vm_compute in Hl.
  destruct (watch_passes_everything five_frames watching KSD_BACKEND_GNOME false result diagnostic passed (fun p => eq_refl) eq_refl
    ltac:(intros error [=]) E) as [H _].
  destruct (H (eq_sym Hr)) as (first & n & frames & _ & _ & _ & _ & Hp & _ & Hd).
  exists passed, first, frames. split; [by rewrite Hd, <- Hr|]. split; [exact Hp|]. symmetry. exact Hl.
Defined.
End event_witnesses.
