(* ===== verification/KwinTranslate.v ===== *)
(** * The two languages of the KWin service (src/kwin_bus.c)

    The public protocol is binary and the script's channel is a text: what the daemon
    makes of the payload of a relayed request before it hands it to the script, and of
    the body the script reports before it answers the authority.  The text of a request
    is what [snprintf] prints; the body of a point or an area is what [sscanf] reads, a
    format being a list of literals and numbers.  The theorems say which payloads and
    which bodies are understood, and that nothing is lost on the way. *)
From Stdlib Require Import ZArith Lia Strings.Byte Strings.String.
From stdpp Require Import base list option numbers tactics.
From S2P Require Import Prelude.
From S2P Require Import Protocol.
From S2P Require Import Codec.
From S2P Require Import Buffer.
From S2P Require Import Utf8.
From S2P Require Import Operations.
From S2P Require Import KwinEnvelope.
From S2P Require Import Install.
From S2P Require Import ClientCalls.
Local Open Scope Z_scope.
Local Open Scope ksd_scope.

(** ** Printing *)

(** [%u] and [%llu]: twenty digits hold any 64-bit number; and [%d]. *)
Definition unsigned_text (value : Z) : list byte :=
  if value =? 0 then cstr "0" else rev (fst (decimal_digits 20 value)).
Definition signed_text (value : Z) : list byte :=
  if value <? 0 then cstr "-" ++ unsigned_text (- value) else unsigned_text value.
Definition blank : list byte := cstr " ".

(** [snprintf] into an array: the text, if it and its NUL fit. *)
Definition printed (capacity : Z) (text : list byte) : option (list byte) :=
  guard* zlen text <? capacity in Some text.

(** ** Requests *)

(** [payload] is [None] for NULL. *)
Definition ksd_kwin_request_text (opcode : Z) (payload : option (list byte)) (payload_length capacity : Z)
    : option (list byte) :=
  guard* negb (capacity =? 0) in
  if any_of opcode [KSD_OP_WINDOW_HANDLES; KSD_OP_WINDOW_ACTIVE; KSD_OP_CURSOR_POSITION; KSD_OP_WORK_AREA] then
    guard* payload_length =? 0 in Some []
  else
    let* payload := payload in
    if opcode =? KSD_OP_WINDOW_LIST then
      guard* negb (negb (payload_length =? 8) || (1 <? ksd_decode_u32 payload)
                   || negb (ksd_decode_u32 (zdrop 4 payload) =? 0)) in
      printed capacity (unsigned_text (ksd_decode_u32 payload))
    else if any_of opcode [KSD_OP_WINDOW_QUERY; KSD_OP_WINDOW_FOCUS; KSD_OP_WINDOW_RAISE; KSD_OP_WINDOW_LOWER;
                           KSD_OP_WINDOW_CLOSE] then
      guard* negb (negb (payload_length =? 8) || (ksd_decode_u64 payload =? 0)) in
      printed capacity (unsigned_text (ksd_decode_u64 payload))
    else if opcode =? KSD_OP_WINDOW_MOVE_RESIZE then
      guard* negb (negb (payload_length =? 24) || (ksd_decode_u64 payload =? 0)) in
      printed capacity
        (unsigned_text (ksd_decode_u64 payload) ++ blank ++ signed_text (i32 (ksd_decode_u32 (zdrop 8 payload)))
         ++ blank ++ signed_text (i32 (ksd_decode_u32 (zdrop 12 payload)))
         ++ blank ++ unsigned_text (ksd_decode_u32 (zdrop 16 payload))
         ++ blank ++ unsigned_text (ksd_decode_u32 (zdrop 20 payload)))
    else if any_of opcode [KSD_OP_WINDOW_SET_STATE; KSD_OP_WINDOW_SET_OPACITY; KSD_OP_WINDOW_SET_ABOVE;
                           KSD_OP_WINDOW_SET_DECORATED; KSD_OP_WINDOW_SET_SKIP_TASKBAR] then
      guard* negb (negb (payload_length =? 16) || (ksd_decode_u64 payload =? 0)
                   || negb (ksd_decode_u32 (zdrop 12 payload) =? 0)) in
      let value := ksd_decode_u32 (zdrop 8 payload) in
      let maximum := if opcode =? KSD_OP_WINDOW_SET_OPACITY then 255
                     else if opcode =? KSD_OP_WINDOW_SET_STATE then 3 else 1 in
      guard* negb (maximum <? value) in
      printed capacity (unsigned_text (ksd_decode_u64 payload) ++ blank ++ unsigned_text value)
    else None.

(** ** Reading a body *)

(** The formats the daemon gives [sscanf]: literals without white space, and [%lld]. *)
Inductive conversion := Literal (text : list byte) | LongLong.

Fixpoint scan_literal (text s : list byte) : option (list byte) :=
  match text, s with
  | [], _ => Some s
  | c :: text, b :: s => guard* b2z c =? b2z b in scan_literal text s
  | _ :: _, [] => None
  end.

(** [%lld]: white space, a sign, digits; a number out of range is clamped. *)
Definition LLONG_MAX : Z := 2 ^ 63 - 1.
Definition LLONG_MIN : Z := - 2 ^ 63.
Definition sign_of (s : list byte) : bool * list byte :=
  match s with
  | b :: rest => if b2z b =? 45 then (true, rest) else if b2z b =? 43 then (false, rest) else (false, s)
  | [] => (false, [])
  end.
Definition scan_long_long (s : list byte) : option (Z * list byte) :=
  let '(negative, s) := sign_of (skip is_space s) in
  let '(digits, rest) := digit_run s in
  guard* negb (bytes_eqb digits []) in
  Some (if negative then Z.max LLONG_MIN (- dval 0 digits) else Z.min LLONG_MAX (dval 0 digits), rest).

(** The numbers converted and what is left of the string at the closing [%n], which
    only a string that matched the whole format reaches. *)
Fixpoint sscanf (format : list conversion) (s : list byte) : option (list Z * list byte) :=
  match format with
  | [] => Some ([], s)
  | Literal text :: format => let* s := scan_literal text s in sscanf format s
  | LongLong :: format =>
    let* (value, s) := scan_long_long s in
    let* (values, s) := sscanf format s in
    Some (value :: values, s)
  end.

Definition member (before name : string) : list byte := cstr before ++ [z2b 0x22] ++ cstr name ++ [z2b 0x22] ++ cstr ":".
Definition point_format : list conversion :=
  [Literal (member "{" "x"); LongLong; Literal (member "," "y"); LongLong; Literal (cstr "}")].
Definition area_format : list conversion :=
  [Literal (member "{" "x"); LongLong; Literal (member "," "y"); LongLong; Literal (member "," "width"); LongLong;
   Literal (member "," "height"); LongLong; Literal (cstr "}")].

(** The copy of a body in an array of [capacity] bytes, scanned to its end. *)
Definition scan_body (format : list conversion) (capacity : Z) (body : option (list byte)) (body_length : Z)
    : option (list Z) :=
  let* body := body in
  guard* negb ((body_length =? 0) || (capacity <=? body_length)) in
  let text := until_nul (ztake body_length body) in
  let* (values, rest) := sscanf format text in
  guard* zlen text - zlen rest =? body_length in
  Some values.

Definition int32_range (value : Z) : bool := (INT32_MIN <=? value) && (value <=? INT32_MAX).

Definition parse_point (body : option (list byte)) (body_length : Z) : option (Z * Z) :=
  match scan_body point_format 128 body body_length with
  | Some [x; y] => guard* int32_range x && int32_range y in Some (x, y)
  | _ => None
  end.

Definition parse_area (body : option (list byte)) (body_length : Z) : option (Z * Z * Z * Z) :=
  match scan_body area_format 192 body body_length with
  | Some [x; y; width; height] =>
    guard* int32_range x && int32_range y && negb ((width <=? 0) || (INT32_MAX <? width))
           && negb ((height <=? 0) || (INT32_MAX <? height)) in
    Some (x, y, width, height)
  | _ => None
  end.

(** ** Responses *)

Section responses.
Context {AL : Allocator}.

Definition ksd_kwin_response_payload (opcode : Z) (body : option (list byte)) (body_length : Z) : bufop := fun payload =>
  if bool_decide (body = None) && negb (body_length =? 0) then (false, payload)
  else if any_of opcode [KSD_OP_WINDOW_LIST; KSD_OP_WINDOW_HANDLES; KSD_OP_WINDOW_ACTIVE; KSD_OP_WINDOW_QUERY] then
    if (body_length <=? KSD_MAX_TEXT_BYTES) && ksd_utf8_valid (ztake body_length (default [] body)) false
    then (ksd_buffer_u32 body_length ;;; ksd_buffer_bytes body body_length) payload
    else (false, payload)
  else if opcode =? KSD_OP_CURSOR_POSITION then
    match parse_point body body_length with
    | Some (x, y) => (ksd_buffer_u32 (u32 x) ;;; ksd_buffer_u32 (u32 y)) payload
    | None => (false, payload)
    end
  else if opcode =? KSD_OP_WORK_AREA then
    match parse_area body body_length with
    | Some (x, y, width, height) =>
      (ksd_buffer_u32 (u32 x) ;;; ksd_buffer_u32 (u32 y) ;;; ksd_buffer_u32 (u32 width) ;;; ksd_buffer_u32 (u32 height)) payload
    | None => (false, payload)
    end
  else if any_of opcode [KSD_OP_WINDOW_FOCUS; KSD_OP_WINDOW_RAISE; KSD_OP_WINDOW_LOWER; KSD_OP_WINDOW_CLOSE;
                         KSD_OP_WINDOW_MOVE_RESIZE; KSD_OP_WINDOW_SET_STATE; KSD_OP_WINDOW_SET_OPACITY;
                         KSD_OP_WINDOW_SET_ABOVE; KSD_OP_WINDOW_SET_DECORATED; KSD_OP_WINDOW_SET_SKIP_TASKBAR]
  then (body_length =? 0, payload)
  else (false, payload).
End responses.

(** ** Numbers and words *)

Lemma unsigned_canonical v :
  0 < v < 2 ^ 64 -> canonical_digits (unsigned_text v) /\ dval 0 (unsigned_text v) = v /\ (length (unsigned_text v) <= 20)%nat.
Proof.
  intros Hv. destruct (canonical_exists 20 v) as (s & Hc & Hl & Hval); [change (10 ^ Z.of_nat 20) with (10 ^ 20); lia|].
  unfold unsigned_text. replace (v =? 0) with false by lia. rewrite <- Hval.
  rewrite decimal_digits_canonical by done. cbn [fst]. by rewrite rev_involutive.
Qed.

Lemma unsigned_digits v :
  is_u64 v -> forallb digit_byte (unsigned_text v) = true /\ dval 0 (unsigned_text v) = v /\
  1 <= zlen (unsigned_text v) <= 20.
Proof.
  intros Hv. unfold is_u64 in Hv. destruct (decide (v = 0)) as [->|Hne]; [by vm_compute|].
  destruct (unsigned_canonical v) as ((Hd & b & k & E & _) & Hval & Hl); [lia|].
  split; [done|]. split; [done|]. unfold zlen. rewrite E in Hl |- *. cbn in *. lia.
Qed.

Lemma unsigned_inj v w : is_u64 v -> is_u64 w -> unsigned_text v = unsigned_text w -> v = w.
Proof. intros Hv%unsigned_digits Hw%unsigned_digits E. destruct Hv as (_ & <- & _), Hw as (_ & <- & _). by rewrite E. Qed.

Lemma digits_avoid z l : z < 48 -> forallb digit_byte l = true -> avoids z l.
Proof. intros Hz. apply avoids_forallb. intros b Hb%digit_byte_range. lia. Qed.

Lemma i32_u64_neg v : is_i32 v -> v < 0 -> is_u64 (- v).
Proof. unfold is_i32, is_u64. lia. Qed.

Lemma signed_shape v :
  is_i32 v -> avoids 32 (signed_text v) /\ avoids 0 (signed_text v) /\ 1 <= zlen (signed_text v) <= 21.
Proof.
  intros Hv. unfold signed_text. destruct (Z.ltb_spec v 0) as [Hlt|Hge].
  - destruct (unsigned_digits (- v)) as (Hd & _ & Hl); [by apply i32_u64_neg|].
    rewrite !avoids_app, zlen_app. change (zlen (cstr "-")) with 1.
    assert (Hm : avoids 32 (cstr "-") /\ avoids 0 (cstr "-")) by (split; repeat constructor; done).
    split; [split; [apply Hm|by apply digits_avoid]|]. split; [split; [apply Hm|by apply digits_avoid]|lia].
  - destruct (unsigned_digits v) as (Hd & _ & Hl); [unfold is_i32, is_u64 in *; lia|].
    split; [by apply digits_avoid|]. split; [by apply digits_avoid|lia].
Qed.

Lemma signed_inj v w : is_i32 v -> is_i32 w -> signed_text v = signed_text w -> v = w.
Proof.
  intros Hv Hw. unfold signed_text.
  assert (Hm : forall u t, is_u64 u -> unsigned_text u <> cstr "-" ++ t).
  { intros u t Hu E. destruct (unsigned_digits u Hu) as (Hd & _). by rewrite E in Hd. }
  destruct (Z.ltb_spec v 0), (Z.ltb_spec w 0); intros E.
  - apply app_inv_head, unsigned_inj in E; [lia|by apply i32_u64_neg..].
  - symmetry in E. by apply Hm in E; [|unfold is_i32, is_u64 in *; lia].
  - by apply Hm in E; [|unfold is_i32, is_u64 in *; lia].
  - by apply unsigned_inj in E; [|unfold is_i32, is_u64 in *; lia..].
Qed.

(** Words are told apart by the blanks between them. *)
Lemma words_inj a b r s : avoids 32 a -> avoids 32 b -> a ++ blank ++ r = b ++ blank ++ s -> a = b /\ r = s.
Proof.
  revert b. induction a as [|x a IH]; intros [|y b] Ha Hb E.
  - cbn in E. injection E as E. done.
  - cbn in E. injection E as E1 E2. exfalso. apply Forall_cons_1 in Hb as [Hy _]. by subst.
  - cbn in E. injection E as E1 E2. exfalso. apply Forall_cons_1 in Ha as [Hx _]. by subst.
  - cbn in E. injection E as -> E. apply Forall_cons_1 in Ha as [_ Ha]. apply Forall_cons_1 in Hb as [_ Hb].
    destruct (IH b Ha Hb E) as [-> ->]. done.
Qed.

Lemma unsigned_avoids v : is_u64 v -> avoids 32 (unsigned_text v).
Proof. intros Hv. apply digits_avoid; [lia|]. by apply unsigned_digits. Qed.

(** ** What a request says *)

Inductive script_request :=
| AskNothing
| AskList (hidden : Z)
| AskWindow (handle : Z)
| AskMove (handle x y width height : Z)
| AskValue (handle value : Z).

Definition request_payload (r : script_request) : list byte :=
  match r with
  | AskNothing => []
  | AskList hidden => ksd_encode_u32 hidden ++ ksd_encode_u32 0
  | AskWindow handle => ksd_encode_u64 handle
  | AskMove handle x y width height =>
    ksd_encode_u64 handle ++ ksd_encode_u32 (u32 x) ++ ksd_encode_u32 (u32 y) ++ ksd_encode_u32 width ++ ksd_encode_u32 height
  | AskValue handle value => ksd_encode_u64 handle ++ ksd_encode_u32 value ++ ksd_encode_u32 0
  end.

Definition request_words (r : script_request) : list byte :=
  match r with
  | AskNothing => []
  | AskList hidden => unsigned_text hidden
  | AskWindow handle => unsigned_text handle
  | AskMove handle x y width height =>
    unsigned_text handle ++ blank ++ signed_text x ++ blank ++ signed_text y ++ blank ++ unsigned_text width
    ++ blank ++ unsigned_text height
  | AskValue handle value => unsigned_text handle ++ blank ++ unsigned_text value
  end.

Definition is_handle (handle : Z) : Prop := 0 < handle < 2 ^ 64.
Definition value_limit (opcode : Z) : option Z :=
  if opcode =? KSD_OP_WINDOW_SET_OPACITY then Some 255
  else if opcode =? KSD_OP_WINDOW_SET_STATE then Some 3
  else if any_of opcode [KSD_OP_WINDOW_SET_ABOVE; KSD_OP_WINDOW_SET_DECORATED; KSD_OP_WINDOW_SET_SKIP_TASKBAR] then Some 1
  else None.

(** The requests an operation has. *)
Definition asks (opcode : Z) (r : script_request) : Prop :=
  match r with
  | AskNothing => In opcode [KSD_OP_WINDOW_HANDLES; KSD_OP_WINDOW_ACTIVE; KSD_OP_CURSOR_POSITION; KSD_OP_WORK_AREA]
  | AskList hidden => opcode = KSD_OP_WINDOW_LIST /\ 0 <= hidden <= 1
  | AskWindow handle =>
    In opcode [KSD_OP_WINDOW_QUERY; KSD_OP_WINDOW_FOCUS; KSD_OP_WINDOW_RAISE; KSD_OP_WINDOW_LOWER; KSD_OP_WINDOW_CLOSE] /\
    is_handle handle
  | AskMove handle x y width height =>
    opcode = KSD_OP_WINDOW_MOVE_RESIZE /\ is_handle handle /\ is_i32 x /\ is_i32 y /\ is_u32 width /\ is_u32 height
  | AskValue handle value => exists limit, value_limit opcode = Some limit /\ is_handle handle /\ 0 <= value <= limit
  end.

(** A body read from the relay is NULL when it is empty. *)
Definition body_pointer (body : list byte) : option (list byte) := if zlen body =? 0 then None else Some body.
Definition text_capacity : Z := 160.

(** A field of a record. *)
Lemma field_u32 n p :
  0 <= n -> n + 4 <= zlen p ->
  zdrop n p = ksd_encode_u32 (ksd_decode_u32 (zdrop n p)) ++ zdrop (n + 4) p /\ is_u32 (ksd_decode_u32 (zdrop n p)).
Proof.
  intros Hn Hl. assert (Hz : zlen (zdrop n p) = zlen p - n) by (apply zlen_zdrop; lia).
  rewrite <- (zdrop_zdrop 4 n p) by lia.
  destruct (zdrop n p) as [|a [|b [|c [|d k]]]]; try (unfold zlen in Hz at 1; cbn in Hz; lia).
  change (zdrop 4 (a :: b :: c :: d :: k)) with k. change (ksd_decode_u32 (a :: b :: c :: d :: k)) with (ksd_decode_u32 [a; b; c; d]).
  destruct (u32_list [a; b; c; d] eq_refl) as [-> H]. done.
Qed.

Lemma field_u64 p :
  8 <= zlen p -> p = ksd_encode_u64 (ksd_decode_u64 p) ++ zdrop 8 p /\ is_u64 (ksd_decode_u64 p).
Proof.
  intros Hz. destruct p as [|a [|b [|c [|d [|e [|f [|g [|h k]]]]]]]]; try (unfold zlen in Hz; cbn in Hz; lia).
  change (zdrop 8 (a :: b :: c :: d :: e :: f :: g :: h :: k)) with k.
  change (ksd_decode_u64 (a :: b :: c :: d :: e :: f :: g :: h :: k)) with (ksd_decode_u64 [a; b; c; d; e; f; g; h]).
  destruct (u64_list [a; b; c; d; e; f; g; h] eq_refl) as [-> H]. done.
Qed.

Lemma i32_range v : is_i32 (i32 v).
Proof. unfold is_i32, i32. pose proof (Z.mod_pos_bound (v + 2 ^ 31) (2 ^ 32) ltac:(lia)). lia. Qed.

Lemma printed_some capacity t u : printed capacity t = Some u -> u = t.
Proof. unfold printed. case_if; congruence. Qed.
Lemma printed_fits t : zlen t < text_capacity -> printed text_capacity t = Some t.
Proof. unfold printed. intros H. by rewrite (proj2 (Z.ltb_lt _ _) H). Qed.

Lemma decode_u64_field v k : is_u64 v -> ksd_decode_u64 (ksd_encode_u64 v ++ k) = v.
Proof. intros Hv. rewrite decode_encode_u64. by apply u64_id. Qed.
Lemma decode_u32_field v k : is_u32 v -> ksd_decode_u32 (ksd_encode_u32 v ++ k) = v.
Proof. intros Hv. rewrite decode_encode_u32. by apply u32_id. Qed.
Lemma drop_u64_field v k : zdrop 8 (ksd_encode_u64 v ++ k) = k.
Proof. done. Qed.
Lemma drop_u32_field v k : zdrop 4 (ksd_encode_u32 v ++ k) = k.
Proof. done. Qed.
Lemma drop_after n m v k : 0 <= n -> zdrop (8 + n) (ksd_encode_u64 v ++ ksd_encode_u32 m ++ k) = zdrop n (ksd_encode_u32 m ++ k).
Proof. intros Hn. by rewrite <- (zdrop_zdrop n 8) by lia. Qed.

(** Case analysis on which of the operations an opcode is. *)
Ltac which_opcode H := cbn [In] in H; repeat (destruct H as [H|H]); try subst; try done.

Lemma move_text_complete opcode handle x y width height :
  let r := AskMove handle x y width height in
  asks opcode r ->
  ksd_kwin_request_text opcode (body_pointer (request_payload r)) (zlen (request_payload r)) text_capacity = Some (request_words r).
Proof.
  unfold ksd_kwin_request_text, text_capacity. change (negb (160 =? 0)) with true. cbv zeta iota. cbn [asks request_payload request_words].
  intros (-> & Hh & Hx & Hy & Hw & Hhh).
  change (zlen _) with 24. set (p := ksd_encode_u64 handle ++ _). change (body_pointer p) with (Some p). cbn [any_of existsb]. cbv iota.
  unfold p. rewrite (drop_after 4), (drop_after 8), (drop_after 12), drop_u64_field by lia.
  change (zdrop 8 (ksd_encode_u32 (u32 x) ++ ksd_encode_u32 (u32 y) ++ ?k)) with k.
  change (zdrop 12 (ksd_encode_u32 (u32 x) ++ ksd_encode_u32 (u32 y) ++ ksd_encode_u32 width ++ ?k)) with k.
  change (zdrop 4 (ksd_encode_u32 (u32 x) ++ ?k)) with k.
  rewrite decode_u64_field, !decode_encode_u32 by (unfold is_u64, is_handle in *; lia).
  rewrite <- (app_nil_r (ksd_encode_u32 height)), decode_u32_field by done.
  assert (Hu : forall z, u32 (u32 z) = u32 z) by (intros z; apply u32_id; unfold is_u32, u32; apply Z.mod_pos_bound; lia).
  rewrite !Hu, !i32_u32, (u32_id width) by done. replace (handle =? 0) with false by (unfold is_handle in *; lia). cbn [negb orb].
  apply printed_fits. rewrite !zlen_app. change (zlen blank) with 1.
  destruct (signed_shape x Hx) as (_ & _ & ?), (signed_shape y Hy) as (_ & _ & ?).
  destruct (unsigned_digits handle) as (_ & _ & ?); [unfold is_u64, is_handle in *; lia|].
  destruct (unsigned_digits width) as (_ & _ & ?); [unfold is_u64, is_u32 in *; lia|].
  destruct (unsigned_digits height) as (_ & _ & ?); [unfold is_u64, is_u32 in *; lia|]. unfold text_capacity; lia.
Qed.

Lemma value_text_complete opcode handle value :
  let r := AskValue handle value in
  asks opcode r ->
  ksd_kwin_request_text opcode (body_pointer (request_payload r)) (zlen (request_payload r)) text_capacity = Some (request_words r).
Proof.
  unfold ksd_kwin_request_text, text_capacity. change (negb (160 =? 0)) with true. cbv zeta iota. cbn [asks request_payload request_words].
  intros (limit & El & Hh & Hv). change (zlen _) with 16. set (p := ksd_encode_u64 handle ++ _). change (body_pointer p) with (Some p).
  unfold p. rewrite (drop_after 4), drop_u64_field by lia. change (zdrop 4 (ksd_encode_u32 value ++ ?k)) with k.
  rewrite decode_u64_field by (unfold is_u64, is_handle in *; lia).
  assert (Hlim : limit <= 255) by (revert El; unfold value_limit; repeat case_if; intros [= <-]; lia).
  rewrite decode_u32_field by (unfold is_u32; lia). change (ksd_decode_u32 (ksd_encode_u32 0)) with 0.
  replace (handle =? 0) with false by (unfold is_handle in *; lia). cbn [negb orb].
  assert (Hp : printed 160 (unsigned_text handle ++ blank ++ unsigned_text value) = Some (unsigned_text handle ++ blank ++ unsigned_text value)).
  { apply printed_fits. rewrite !zlen_app. change (zlen blank) with 1.
    destruct (unsigned_digits handle) as (_ & _ & ?); [unfold is_u64, is_handle in *; lia|].
    destruct (unsigned_digits value) as (_ & _ & ?); [unfold is_u64 in *; lia|]. unfold text_capacity; lia. }
  rewrite Hp. revert El. unfold value_limit.
  destruct (Z.eqb_spec opcode KSD_OP_WINDOW_SET_OPACITY) as [->|]; [intros [= <-]; cbn; by replace (255 <? value) with false by lia|].
  destruct (Z.eqb_spec opcode KSD_OP_WINDOW_SET_STATE) as [->|]; [intros [= <-]; cbn; by replace (3 <? value) with false by lia|].
  case_if; [|done]. intros [= <-]. apply any_of_in in Heqb. which_opcode Heqb; cbn; by replace (1 <? value) with false by lia.
Qed.

Lemma request_text_complete opcode r :
  asks opcode r ->
  ksd_kwin_request_text opcode (body_pointer (request_payload r)) (zlen (request_payload r)) text_capacity = Some (request_words r).
Proof.
  destruct r as [|hidden|handle|handle x y width height|handle value];
    [| | |apply move_text_complete|apply value_text_complete]; unfold ksd_kwin_request_text, text_capacity;
    change (negb (160 =? 0)) with true; cbv iota; cbn [asks request_payload request_words].
  - intros H. by rewrite (proj2 (any_of_in _ _) H).
  - intros (-> & Hh). change (zlen (ksd_encode_u32 hidden ++ ksd_encode_u32 0)) with 8. cbn [any_of existsb].
    change (body_pointer (ksd_encode_u32 hidden ++ ksd_encode_u32 0)) with (Some (ksd_encode_u32 hidden ++ ksd_encode_u32 0)).
    cbv iota. rewrite drop_u32_field, decode_u32_field by (unfold is_u32; lia). change (ksd_decode_u32 (ksd_encode_u32 0)) with 0.
    replace (1 <? hidden) with false by lia. cbn [negb orb]. change 160 with text_capacity. rewrite printed_fits; [done|].
    destruct (unsigned_digits hidden) as (_ & _ & Hl); [unfold is_u64; lia|unfold text_capacity; lia].
  - intros (H & Hh). change (zlen (ksd_encode_u64 handle)) with 8.
    change (body_pointer (ksd_encode_u64 handle)) with (Some (ksd_encode_u64 handle)). cbv iota.
    assert (Hd : ksd_decode_u64 (ksd_encode_u64 handle) = handle).
    { rewrite <- (app_nil_r (ksd_encode_u64 handle)). apply decode_u64_field. unfold is_u64, is_handle in *; lia. }
    rewrite Hd. replace (handle =? 0) with false by (unfold is_handle in Hh; lia).
    assert (Hp : printed 160 (unsigned_text handle) = Some (unsigned_text handle)).
    { apply printed_fits. destruct (unsigned_digits handle) as (_ & _ & Hl); [unfold is_u64, is_handle in *; lia|unfold text_capacity; lia]. }
    rewrite Hp. by which_opcode H.
Qed.

(** Each record read back from its fields. *)
Lemma list_record p : zlen p = 8 -> ksd_decode_u32 (zdrop 4 p) = 0 -> p = request_payload (AskList (ksd_decode_u32 p)).
Proof.
  intros Hl Hz. destruct (field_u32 0 p) as [E _]; [lia..|]. destruct (field_u32 4 p) as [E4 _]; [lia..|].
  rewrite zdrop_0 in E. cbn [request_payload]. rewrite E at 1. f_equal. change (0 + 4) with 4. rewrite E4 at 1.
  rewrite Hz, zdrop_all by lia. by rewrite app_nil_r.
Qed.

Lemma handle_record p : zlen p = 8 -> p = request_payload (AskWindow (ksd_decode_u64 p)) /\ is_u64 (ksd_decode_u64 p).
Proof.
  intros Hl. destruct (field_u64 p) as [E H]; [lia|]. split; [|done]. cbn [request_payload]. rewrite E at 1.
  rewrite zdrop_all by lia. by rewrite app_nil_r.
Qed.

Lemma move_record p :
  zlen p = 24 ->
  p = request_payload (AskMove (ksd_decode_u64 p) (i32 (ksd_decode_u32 (zdrop 8 p))) (i32 (ksd_decode_u32 (zdrop 12 p)))
        (ksd_decode_u32 (zdrop 16 p)) (ksd_decode_u32 (zdrop 20 p))) /\
  is_u64 (ksd_decode_u64 p) /\ is_u32 (ksd_decode_u32 (zdrop 16 p)) /\ is_u32 (ksd_decode_u32 (zdrop 20 p)).
Proof.
  intros Hl. destruct (field_u64 p) as [E H]; [lia|]. destruct (field_u32 8 p) as [E8 H8]; [lia..|].
  destruct (field_u32 12 p) as [E12 H12]; [lia..|]. destruct (field_u32 16 p) as [E16 H16]; [lia..|].
  destruct (field_u32 20 p) as [E20 H20]; [lia..|]. split; [|done]. cbn [request_payload]. rewrite !(fun v H => proj1 (u32_i32 v H)) by done.
  rewrite E at 1. f_equal. rewrite E8 at 1. f_equal. change (8 + 4) with 12. rewrite E12 at 1. f_equal.
  change (12 + 4) with 16. rewrite E16 at 1. f_equal. change (16 + 4) with 20. rewrite E20 at 1.
  rewrite (zdrop_all (20 + 4)) by lia. by rewrite app_nil_r.
Qed.

Lemma value_record p :
  zlen p = 16 -> ksd_decode_u32 (zdrop 12 p) = 0 ->
  p = request_payload (AskValue (ksd_decode_u64 p) (ksd_decode_u32 (zdrop 8 p))) /\
  is_u64 (ksd_decode_u64 p) /\ is_u32 (ksd_decode_u32 (zdrop 8 p)).
Proof.
  intros Hl Hz. destruct (field_u64 p) as [E H]; [lia|]. destruct (field_u32 8 p) as [E8 H8]; [lia..|].
  destruct (field_u32 12 p) as [E12 H12]; [lia..|]. split; [|done]. cbn [request_payload].
  rewrite E at 1. f_equal. rewrite E8 at 1. f_equal. change (8 + 4) with 12. rewrite E12 at 1. rewrite Hz, zdrop_all by lia. by rewrite app_nil_r.
Qed.

Lemma value_limit_in opcode :
  In opcode [KSD_OP_WINDOW_SET_STATE; KSD_OP_WINDOW_SET_OPACITY; KSD_OP_WINDOW_SET_ABOVE; KSD_OP_WINDOW_SET_DECORATED;
             KSD_OP_WINDOW_SET_SKIP_TASKBAR] ->
  value_limit opcode = Some (if opcode =? KSD_OP_WINDOW_SET_OPACITY then 255
                             else if opcode =? KSD_OP_WINDOW_SET_STATE then 3 else 1).
Proof. intros H. by which_opcode H. Qed.

Lemma request_text_sound opcode p t :
  ksd_kwin_request_text opcode (body_pointer p) (zlen p) text_capacity = Some t ->
  exists r, asks opcode r /\ p = request_payload r /\ t = request_words r.
Proof.
  unfold ksd_kwin_request_text. change (negb (text_capacity =? 0)) with true. cbv iota.
  case_if.
  { apply any_of_in in Heqb. case_if; [|done]. intros [= <-]. exists AskNothing. split; [done|].
    destruct p as [|x p]; [done|]. rewrite zlen_cons in Heqb0. pose proof (zlen_nonneg p). lia. }
  clear Heqb. unfold body_pointer. case_if; [done|]. case_if.
  { case_if; [|done]. breflect. intros ->%printed_some. subst. exists (AskList (ksd_decode_u32 p)).
    split; [split; [done|]|split; [by apply list_record|done]].
    destruct (field_u32 0 p) as [_ Hr]; [lia..|]. rewrite zdrop_0 in Hr. unfold is_u32 in Hr. lia. }
  case_if.
  { apply any_of_in in Heqb1. case_if; [|done]. breflect. intros ->%printed_some.
    destruct (handle_record p) as [E Hr]; [done|]. exists (AskWindow (ksd_decode_u64 p)). split; [|done].
    split; [done|]. unfold is_handle, is_u64 in *. lia. }
  case_if.
  { case_if; [|done]. breflect. intros ->%printed_some. destruct (move_record p) as (E & Hr & Hw & Hh); [done|].
    eexists. split; [|split; [exact E|done]]. split; [done|]. split; [unfold is_handle, is_u64 in *; lia|].
    split; [apply i32_range|]. split; [apply i32_range|done]. }
  case_if; [|done]. apply any_of_in in Heqb3. pose proof (value_limit_in _ Heqb3) as El.
  set (limit := if opcode =? KSD_OP_WINDOW_SET_OPACITY then 255 else _) in *. clearbody limit.
  case_if; [|done]. case_if; [|done]. breflect. intros ->%printed_some.
  destruct (value_record p) as (E & Hr & Hv); [done..|]. eexists. split; [|split; [exact E|done]].
  exists limit. split; [done|]. unfold is_handle, is_u64, is_u32 in *. lia.
Qed.

Definition request_shape (r : script_request) : Z :=
  match r with AskNothing => 0 | AskList _ => 1 | AskWindow _ => 2 | AskMove _ _ _ _ _ => 3 | AskValue _ _ => 4 end.
Definition opcode_shape (opcode : Z) : Z :=
  if any_of opcode [KSD_OP_WINDOW_HANDLES; KSD_OP_WINDOW_ACTIVE; KSD_OP_CURSOR_POSITION; KSD_OP_WORK_AREA] then 0
  else if opcode =? KSD_OP_WINDOW_LIST then 1
  else if opcode =? KSD_OP_WINDOW_MOVE_RESIZE then 3
  else match value_limit opcode with Some _ => 4 | None => 2 end.

(** An operation has requests of one shape. *)
Lemma asks_shape opcode r : asks opcode r -> request_shape r = opcode_shape opcode.
Proof.
  destruct r; cbn [asks request_shape].
  - intros H. by which_opcode H.
  - by intros (-> & _).
  - intros (H & _). by which_opcode H.
  - by intros (-> & _).
  - intros (limit & El & _). unfold value_limit in El. repeat case_if; breflect; subst; try done.
    apply any_of_in in Heqb1. by which_opcode Heqb1.
Qed.

Lemma request_words_inj opcode r s :
  asks opcode r -> asks opcode s -> request_words r = request_words s -> r = s.
Proof.
  assert (Hh : forall h, is_handle h -> is_u64 h) by (unfold is_handle, is_u64; lia).
  assert (H32 : forall v, is_u32 v -> is_u64 v) by (unfold is_u32, is_u64; lia).
  assert (Hlim : forall limit, value_limit opcode = Some limit -> limit <= 255)
    by (intros limit; unfold value_limit; repeat case_if; intros [= <-]; lia).
  intros Hr Hs E. pose proof (eq_trans (asks_shape _ _ Hr) (eq_sym (asks_shape _ _ Hs))) as Hshape. revert Hr Hs E.
  destruct r as [|hidden|handle|handle x y width height|handle value],
    s as [|hidden'|handle'|handle' x' y' width' height'|handle' value']; cbn [asks request_words request_shape] in *; try done; intros Hr Hs E;
    repeat match goal with H : _ /\ _ |- _ => destruct H | H : exists _, _ |- _ => destruct H as (? & ? & ? & ?) end.
  - f_equal. apply unsigned_inj in E; [done|unfold is_u64; lia..].
  - f_equal. apply unsigned_inj in E; auto.
  - apply words_inj in E as [E1 E]; [|apply unsigned_avoids; auto..]. apply words_inj in E as [E2 E]; [|by apply signed_shape..].
    apply words_inj in E as [E3 E]; [|by apply signed_shape..]. apply words_inj in E as [E4 E5]; [|apply unsigned_avoids; auto..].
    apply unsigned_inj in E1, E4, E5; auto. apply signed_inj in E2, E3; [|done..]. by subst.
  - apply words_inj in E as [E1 E2]; [|apply unsigned_avoids; auto..].
    apply unsigned_inj in E1; auto. apply unsigned_inj in E2; [by subst|..];
    repeat match goal with H : value_limit opcode = Some _ |- _ => apply Hlim in H end; unfold is_u64; lia.
Qed.

(** C12: What the daemon hands the script of a request.  A payload is understood
    exactly when it is the record of a request the operation has, with a window where
    one is named and a value within the operation's limit, and the script gets the
    words of that request; the words tell the request, so that nothing of the payload
    is lost, no coordinate or handle is cut short, and a zero byte in one ends nothing. *)
Theorem kwin_request_exact opcode p t :
  (ksd_kwin_request_text opcode (body_pointer p) (zlen p) text_capacity = Some t <->
   exists r, asks opcode r /\ p = request_payload r /\ t = request_words r) /\
  (forall p', ksd_kwin_request_text opcode (body_pointer p) (zlen p) text_capacity = Some t ->
     ksd_kwin_request_text opcode (body_pointer p') (zlen p') text_capacity = Some t -> p' = p).
Proof.
  split.
  - split; [apply request_text_sound|]. intros (r & H & -> & ->). by apply request_text_complete.
  - intros p' (r & Hr & -> & ->)%request_text_sound (s & Hs & -> & E)%request_text_sound.
    by rewrite (request_words_inj opcode r s).
Qed.

(** ** The calls of the client library *)

Definition served (c : call) : Prop :=
  match c with
  | None => True
  | Some (opcode, payload) =>
    let body := default [] payload in
    ksd_kwin_lane_for opcode <> KSD_KWIN_LANE_NONE /\
    exists words, ksd_kwin_request_text opcode (body_pointer body) (zlen body) text_capacity = Some words
  end.

Lemma asks_served opcode r : ksd_kwin_lane_for opcode <> KSD_KWIN_LANE_NONE -> asks opcode r -> served (send opcode (request_payload r)).
Proof. intros Hl Hr. split; [done|]. exists (request_words r). by apply request_text_complete. Qed.

Lemma nothing_served opcode :
  ksd_kwin_lane_for opcode <> KSD_KWIN_LANE_NONE -> asks opcode AskNothing -> served (send_nothing opcode).
Proof. intros Hl Hr. split; [done|]. exists []. by apply (request_text_complete opcode AskNothing). Qed.

Lemma handle_served opcode handle :
  is_u64 handle -> ksd_kwin_lane_for opcode <> KSD_KWIN_LANE_NONE ->
  (forall h, is_handle h -> asks opcode (AskWindow h)) -> served (request_handle opcode handle).
Proof.
  intros Hh Hl Ha. unfold request_handle. case_if; [done|]. breflect. apply (asks_served opcode (AskWindow handle) Hl), Ha.
  unfold is_handle, is_u64 in *. lia.
Qed.

Lemma value_served opcode handle value limit :
  is_u64 handle -> is_u32 value -> ksd_kwin_lane_for opcode <> KSD_KWIN_LANE_NONE -> value_limit opcode = Some limit ->
  served (request_window_value opcode handle value limit).
Proof.
  intros Hh Hv Hl El. unfold request_window_value. case_if; [|done]. breflect. apply (asks_served opcode (AskValue handle value) Hl).
  exists limit. unfold is_handle, is_u64, is_u32 in *. split; [done|lia].
Qed.

(** The client library and the KWin service agree.  Whatever a caller asks of the
    window operations the service runs through its script, the payload the library
    builds, when it builds one, belongs to a lane and is understood: no request that
    the library considers valid is refused by the translation. *)
Theorem kwin_serves_client handle x y width height flag value :
  is_u64 handle -> is_i32 x -> is_i32 y -> is_u32 width -> is_u32 height -> is_u32 flag -> is_u32 value ->
  Forall served
    [ksd_cursor_position; ksd_work_area; ksd_window_handles_json; ksd_window_active_json; ksd_window_list_json flag;
     ksd_window_query_json handle; ksd_window_focus handle; ksd_window_raise handle; ksd_window_lower handle;
     ksd_window_close handle; ksd_window_move_resize handle x y width height; ksd_window_set_state handle value;
     ksd_window_set_opacity handle value; ksd_window_set_above handle flag; ksd_window_set_decorated handle flag;
     ksd_window_set_skip_taskbar handle flag].
Proof.
  intros Hh Hx Hy Hw Hhh Hf Hv.
  repeat apply Forall_cons_2; try apply Forall_nil_2;
    try (apply nothing_served; [done|cbn; tauto]); try (apply handle_served; [done..|cbn; tauto]); try (by apply value_served).
  - unfold ksd_window_list_json. case_if; [|done]. breflect. apply (asks_served _ (AskList flag)); [done|].
    split; [done|]. unfold is_u32 in Hf. lia.
  - unfold ksd_window_move_resize, request_geometry. case_if; [|done]. breflect.
    apply (asks_served _ (AskMove handle x y width height)); [done|]. cbn [asks]. unfold is_handle, is_u64, is_i32, is_u32 in *. repeat split; lia.
Qed.

Lemma kwin_serves_client_witness :
  Forall served
    [ksd_cursor_position; ksd_work_area; ksd_window_handles_json; ksd_window_active_json; ksd_window_list_json 1;
     ksd_window_query_json 7; ksd_window_focus 7; ksd_window_raise 7; ksd_window_lower 7;
     ksd_window_close 7; ksd_window_move_resize 7 (-5) 6 640 480; ksd_window_set_state 7 3;
     ksd_window_set_opacity 7 3; ksd_window_set_above 7 1; ksd_window_set_decorated 7 1;
     ksd_window_set_skip_taskbar 7 1].
Proof. apply (kwin_serves_client 7 (-5) 6 640 480 1 3); unfold is_u64, is_i32, is_u32; lia. Defined.

(** ** What a body says *)

Definition clamp (value : Z) : Z := Z.max LLONG_MIN (Z.min LLONG_MAX value).

(** A number as [%lld] reads it, to its last digit. *)
Definition numeral (s : list byte) (value : Z) : Prop :=
  exists w sign digits, s = w ++ sign ++ digits /\ forallb is_space w = true /\ forallb digit_byte digits = true /\ digits <> [] /\
    (((sign = [] \/ sign = cstr "+") /\ value = clamp (dval 0 digits)) \/ (sign = cstr "-" /\ value = clamp (- dval 0 digits))).

(** A text of a format and the numbers it spells. *)
Fixpoint spelled (format : list conversion) (s : list byte) (values : list Z) : Prop :=
  match format with
  | [] => s = [] /\ values = []
  | Literal text :: format => exists k, s = text ++ k /\ spelled format k values
  | LongLong :: format => exists n value k rest, s = n ++ k /\ values = value :: rest /\ numeral n value /\ spelled format k rest
  end.

(** Every number of the format is followed by something that cannot belong to it, and no
    literal holds a NUL. *)
Fixpoint separated (format : list conversion) : bool :=
  match format with
  | [] => true
  | Literal text :: format => forallb (fun b => negb (b2z b =? 0)) text && separated format
  | LongLong :: format =>
    match format with Literal (b :: _) :: _ => negb (digit_byte b) | _ => false end && separated format
  end.

Lemma scan_literal_iff text s k : scan_literal text s = Some k <-> s = text ++ k.
Proof.
  revert s. induction text as [|c text IH]; intros s; cbn [scan_literal app]; [split; congruence|].
  destruct s as [|b s]; [done|]. case_if; breflect.
  - apply b2z_inj in Heqb0. subst. rewrite IH. split; [by intros ->|by intros [= ->]].
  - split; [done|]. intros [= -> _]. done.
Qed.

Lemma skip_space_split s : exists w, s = w ++ skip is_space s /\ forallb is_space w = true.
Proof.
  induction s as [|b s (w & E & Hw)]; [by exists []|]. cbn [skip]. destruct (is_space b) eqn:Hb; [|by exists []].
  exists (b :: w). cbn. rewrite Hb, <- E. done.
Qed.

Lemma skip_space_app w k : forallb is_space w = true -> match k with [] => True | b :: _ => is_space b = false end -> skip is_space (w ++ k) = k.
Proof.
  intros Hw Hk. induction w as [|b w IH]; cbn in *; [|apply andb_true_iff in Hw as [-> Hw]; by apply IH].
  destruct k as [|b k]; [done|]. cbn. by rewrite Hk.
Qed.

Lemma digit_run_split s : s = fst (digit_run s) ++ snd (digit_run s) /\ forallb digit_byte (fst (digit_run s)) = true.
Proof.
  induction s as [|b s (E & Hd)]; [done|]. cbn [digit_run]. destruct (digit_byte b) eqn:Hb; [|done].
  destruct (digit_run s) as [ds rest]. cbn [fst snd forallb] in *. rewrite Hb. by subst.
Qed.

Lemma sign_split s :
  exists sign, s = sign ++ snd (sign_of s) /\
    ((fst (sign_of s) = false /\ (sign = [] \/ sign = cstr "+")) \/ (fst (sign_of s) = true /\ sign = cstr "-")).
Proof.
  destruct s as [|b s]; [exists []; auto|]. cbn [sign_of]. destruct (Z.eqb_spec (b2z b) 45) as [E|_].
  - exists (cstr "-"). rewrite (b2z_inj b (z2b 45) E). auto.
  - destruct (Z.eqb_spec (b2z b) 43) as [E|_]; [|exists []; auto]. exists (cstr "+"). rewrite (b2z_inj b (z2b 43) E). auto.
Qed.

Lemma digits_value digits : forallb digit_byte digits = true -> 0 <= dval 0 digits.
Proof. apply dval_ge. lia. Qed.

Lemma clamp_pos v : 0 <= v -> Z.min LLONG_MAX v = clamp v.
Proof. unfold clamp, LLONG_MAX, LLONG_MIN. lia. Qed.
Lemma clamp_neg v : 0 <= v -> Z.max LLONG_MIN (- v) = clamp (- v).
Proof. unfold clamp, LLONG_MAX, LLONG_MIN. lia. Qed.

Lemma scan_long_long_sound s v k : scan_long_long s = Some (v, k) -> exists n, s = n ++ k /\ numeral n v.
Proof.
  unfold scan_long_long. destruct (skip_space_split s) as (w & Ew & Hw). destruct (sign_split (skip is_space s)) as (sg & Es & Hsg).
  destruct (sign_of (skip is_space s)) as [negative t]. cbn [fst snd] in *. destruct (digit_run_split t) as (Ed & Hd).
  destruct (digit_run t) as [digits rest]. cbn [fst snd] in *. case_if; [|done]. intros [= <- <-].
  unfold bytes_eqb in *. rewrite negb_true_iff, bool_decide_eq_false in Heqb.
  exists (w ++ sg ++ digits). split; [by rewrite <- !app_assoc, <- Ed, <- Es|].
  exists w, sg, digits. split; [done|]. split; [done|]. split; [done|]. split; [done|].
  pose proof (digits_value digits Hd). destruct Hsg as [(-> & Hsg)|(-> & ->)].
  - left. split; [done|]. by apply clamp_pos.
  - right. split; [done|]. by apply clamp_neg.
Qed.

Lemma digit_not b : digit_byte b = true -> is_space b = false /\ (b2z b =? 45) = false /\ (b2z b =? 43) = false.
Proof. intros H%digit_byte_range. unfold is_space. lia. Qed.

Lemma scan_long_long_complete n v k :
  numeral n v -> match k with [] => True | b :: _ => digit_byte b = false end -> scan_long_long (n ++ k) = Some (v, k).
Proof.
  intros (w & sg & digits & -> & Hw & Hd & Hne & Hv) Hk. unfold scan_long_long. rewrite <- !app_assoc.
  destruct digits as [|d digits]; [done|]. pose proof Hd as Hdd. cbn [forallb] in Hd. apply andb_true_iff in Hd as [Hd _].
  destruct (digit_not d Hd) as (H1 & H2 & H3). pose proof (digits_value _ Hdd) as Hge.
  assert (Hsk : skip is_space (w ++ sg ++ (d :: digits) ++ k) = sg ++ (d :: digits) ++ k).
  { apply skip_space_app; [done|]. destruct Hv as [([->| ->] & _)|(-> & _)]; done. }
  rewrite Hsk.
  assert (Hsg : exists negative, sign_of (sg ++ (d :: digits) ++ k) = (negative, (d :: digits) ++ k) /\
    v = if negative then Z.max LLONG_MIN (- dval 0 (d :: digits)) else Z.min LLONG_MAX (dval 0 (d :: digits))).
  { rewrite clamp_pos, clamp_neg by done.
    destruct Hv as [([->| ->] & ->)|(-> & ->)]; [exists false; cbn; by rewrite H2, H3|by exists false|by exists true]. }
  destruct Hsg as (negative & -> & ->). rewrite digit_run_app by done. unfold bytes_eqb at 1. by rewrite bool_decide_false by done.
Qed.

Lemma sscanf_sound format s vs k : sscanf format s = Some (vs, k) -> exists t, s = t ++ k /\ spelled format t vs.
Proof.
  revert s vs. induction format as [|[text|] format IH]; intros s vs; cbn [sscanf spelled].
  - intros [= <- <-]. by exists [].
  - destruct (scan_literal text s) as [s1|] eqn:E; [|done]. apply scan_literal_iff in E as ->. intros (t & -> & Ht)%IH.
    exists (text ++ t). rewrite <- app_assoc. split; [done|]. by exists t.
  - destruct (scan_long_long s) as [[v s1]|] eqn:E; [|done]. apply scan_long_long_sound in E as (n & -> & Hn).
    destruct (sscanf format s1) as [[vs' s2]|] eqn:E; [|done]. intros [= <- <-]. apply IH in E as (t & -> & Ht).
    exists (n ++ t). rewrite <- app_assoc. split; [done|]. by exists n, v, t, vs'.
Qed.

Lemma sscanf_complete format s vs : separated format = true -> spelled format s vs -> sscanf format s = Some (vs, []).
Proof.
  revert s vs. induction format as [|[text|] format IH]; intros s vs; cbn [sscanf spelled separated].
  - intros _ [-> ->]. done.
  - rewrite andb_true_iff. intros [_ Hs] (k & -> & Hk). by rewrite (proj2 (scan_literal_iff text (text ++ k) k) eq_refl), (IH k vs).
  - rewrite andb_true_iff. intros [Hf Hs] (n & v & k & rest & -> & -> & Hn & Hk).
    rewrite (scan_long_long_complete n v k Hn); [by rewrite (IH k rest)|].
    destruct format as [|[[|b text]|] format]; try done. destruct Hk as (k' & -> & _). cbn. by apply negb_true_iff.
Qed.

Lemma numeral_nonzero n v : numeral n v -> avoids 0 n.
Proof.
  intros (w & sg & ds & -> & Hw & Hd & _ & Hv). rewrite !avoids_app. split; [|split].
  - revert Hw. apply avoids_forallb. unfold is_space. intros b Hb. lia.
  - destruct Hv as [([->| ->] & _)|(-> & _)]; repeat constructor; done.
  - by apply digits_avoid.
Qed.

Lemma spelled_nonzero format s vs : separated format = true -> spelled format s vs -> avoids 0 s.
Proof.
  revert s vs. induction format as [|[text|] format IH]; intros s vs; cbn [spelled separated].
  - intros _ [-> _]. constructor.
  - rewrite andb_true_iff. intros [Ht Hs] (k & -> & Hk). rewrite avoids_app. split; [|by eapply IH].
    revert Ht. apply avoids_forallb. intros b Hb. lia.
  - rewrite andb_true_iff. intros [_ Hs] (n & v & k & rest & -> & _ & Hn & Hk). rewrite avoids_app.
    split; [by eapply numeral_nonzero|by eapply IH].
Qed.

Lemma until_nul_short s : zlen (until_nul s) <= zlen s /\ (zlen (until_nul s) = zlen s -> until_nul s = s).
Proof.
  induction s as [|b s (IH1 & IH2)]; [done|]. cbn [until_nul]. pose proof (zlen_nonneg s).
  case_if; rewrite ?zlen_cons, ?zlen_nil in *; [split; [lia|intros; lia]|]. split; [lia|]. intros E. f_equal. apply IH2. lia.
Qed.

Lemma scan_body_iff format capacity b vs :
  separated format = true ->
  scan_body format capacity (Some b) (zlen b) = Some vs <-> b <> [] /\ zlen b < capacity /\ spelled format b vs.
Proof.
  intros Hs. unfold scan_body. rewrite ztake_all by lia. split.
  - case_if; [|done]. destruct (sscanf format (until_nul b)) as [[us rest]|] eqn:E; [|done]. case_if; [|done]. intros [= ->]. breflect.
    apply sscanf_sound in E as (t & E & Ht). destruct (until_nul_short b) as [H1 H2]. pose proof (zlen_nonneg rest).
    assert (rest = []) as -> by (destruct rest; [done|rewrite zlen_cons in *; pose proof (zlen_nonneg rest); lia]).
    rewrite zlen_nil in *. rewrite H2, app_nil_r in E by lia. subst t. split; [|split; [lia|done]].
    intros ->. done.
  - intros (Hne & Hl & Hsp). assert (zlen b <> 0) by (destruct b; [done|rewrite zlen_cons; pose proof (zlen_nonneg b0); lia]).
    replace (zlen b =? 0) with false by lia. replace (capacity <=? zlen b) with false by lia. cbn [negb orb].
    rewrite until_nul_id by (eapply (spelled_nonzero format); eauto). rewrite (sscanf_complete format b vs) by done.
    rewrite zlen_nil. by replace (zlen b - 0 =? zlen b) with true by lia.
Qed.

Lemma int32_range_iff v : int32_range v = true <-> is_i32 v.
Proof. unfold int32_range, is_i32, INT32_MIN, INT32_MAX. rewrite andb_true_iff, !Z.leb_le. lia. Qed.

Definition is_extent (v : Z) : Prop := 0 < v <= INT32_MAX.

Lemma parse_point_iff b x y :
  parse_point (Some b) (zlen b) = Some (x, y) <->
  zlen b < 128 /\ is_i32 x /\ is_i32 y /\ spelled point_format b [x; y].
Proof.
  unfold parse_point. split.
  - destruct (scan_body _ _ _ _) as [[|x' [|y' [|? ?]]]|] eqn:E; try done. case_if; [|done]. intros [= -> ->].
    apply andb_true_iff in Heqb0 as [Hx%int32_range_iff Hy%int32_range_iff]. by apply (scan_body_iff point_format 128) in E as (_ & Hl & Hs).
  - intros (Hl & Hx & Hy & Hs). rewrite (proj2 (scan_body_iff point_format 128 b [x; y] eq_refl)).
    + by rewrite (proj2 (int32_range_iff x)), (proj2 (int32_range_iff y)).
    + split; [|done]. by destruct Hs as (? & -> & _).
Qed.

Lemma parse_area_iff b x y width height :
  parse_area (Some b) (zlen b) = Some (x, y, width, height) <->
  zlen b < 192 /\ is_i32 x /\ is_i32 y /\ is_extent width /\ is_extent height /\ spelled area_format b [x; y; width; height].
Proof.
  unfold parse_area. split.
  - destruct (scan_body _ _ _ _) as [[|x' [|y' [|w' [|h' [|? ?]]]]]|] eqn:E; try done. case_if; [|done]. intros [= -> -> -> ->].
    apply (scan_body_iff area_format 192) in E as (_ & Hl & Hs); [|done]. rewrite !andb_true_iff in Heqb0.
    destruct Heqb0 as (((Hx%int32_range_iff & Hy%int32_range_iff) & Hw) & Hh). unfold is_extent. breflect. repeat (split; [done || lia|]). done.
  - intros (Hl & Hx & Hy & Hw & Hh & Hs). rewrite (proj2 (scan_body_iff area_format 192 b [x; y; width; height] eq_refl)).
    + rewrite (proj2 (int32_range_iff x)), (proj2 (int32_range_iff y)) by done. unfold is_extent in *.
      replace (width <=? 0) with false by lia. replace (INT32_MAX <? width) with false by lia.
      replace (height <=? 0) with false by lia. by replace (INT32_MAX <? height) with false by lia.
    + split; [|done]. by destruct Hs as (? & -> & _).
Qed.

(** Which points and areas the daemon reads.  A body is read as a point exactly
    when it is short enough, spells the format from its first byte to its last with
    nothing before, after or between but what [%lld] allows around a number, and both
    numbers are of 32 bits; the same of an area, whose width and height are positive.
    A NUL in the body, a number out of range (even one that 64 bits cannot hold) and
    trailing text are all refused. *)
Theorem kwin_body_exact b x y width height :
  (parse_point (Some b) (zlen b) = Some (x, y) <->
   zlen b < 128 /\ is_i32 x /\ is_i32 y /\ spelled point_format b [x; y]) /\
  (parse_area (Some b) (zlen b) = Some (x, y, width, height) <->
   zlen b < 192 /\ is_i32 x /\ is_i32 y /\ is_extent width /\ is_extent height /\
   spelled area_format b [x; y; width; height]).
Proof. split; [apply parse_point_iff|apply parse_area_iff]. Qed.

(** ** The round trip of a response *)

(** The texts the script writes of a point and of an area. *)
Definition point_text (x y : Z) : list byte := member "{" "x" ++ signed_text x ++ member "," "y" ++ signed_text y ++ cstr "}".
Definition area_text (x y width height : Z) : list byte :=
  member "{" "x" ++ signed_text x ++ member "," "y" ++ signed_text y ++ member "," "width" ++ signed_text width
  ++ member "," "height" ++ signed_text height ++ cstr "}".

Lemma signed_numeral v : is_i32 v -> numeral (signed_text v) v.
Proof.
  intros Hv. unfold numeral. destruct (Z.lt_ge_cases v 0) as [Hlt|Hge].
  - destruct (unsigned_digits (- v)) as (Hd & Hval & Hl); [by apply i32_u64_neg|].
    exists [], (cstr "-"), (unsigned_text (- v)). unfold signed_text. replace (v <? 0) with true by lia.
    split; [done|]. split; [done|]. split; [done|]. split; [intros E; rewrite E, zlen_nil in Hl; lia|]. right. split; [done|].
    rewrite Hval. unfold clamp, LLONG_MIN, LLONG_MAX, is_i32 in *. lia.
  - destruct (unsigned_digits v) as (Hd & Hval & Hl); [unfold is_i32, is_u64 in *; lia|].
    exists [], [], (unsigned_text v). unfold signed_text. replace (v <? 0) with false by lia.
    split; [done|]. split; [done|]. split; [done|]. split; [intros E; rewrite E, zlen_nil in Hl; lia|]. left. split; [by left|].
    rewrite Hval. unfold clamp, LLONG_MIN, LLONG_MAX, is_i32 in *. lia.
Qed.

Lemma point_text_parsed x y : is_i32 x -> is_i32 y -> parse_point (Some (point_text x y)) (zlen (point_text x y)) = Some (x, y).
Proof.
  intros Hx Hy. apply parse_point_iff. split; [|split; [done|split; [done|]]].
  - destruct (signed_shape x Hx) as (_ & _ & ?), (signed_shape y Hy) as (_ & _ & ?). unfold point_text. rewrite !zlen_app.
    change (zlen (member "{" "x")) with 5. change (zlen (member "," "y")) with 5. change (zlen (cstr "}")) with 1. lia.
  - unfold point_text. cbn [spelled point_format]. eexists. split; [reflexivity|].
    exists (signed_text x), x. eexists _, _. split; [reflexivity|]. split; [done|]. split; [by apply signed_numeral|].
    eexists. split; [reflexivity|]. exists (signed_text y), y. eexists _, _. split; [reflexivity|]. split; [done|].
    split; [by apply signed_numeral|]. by exists [].
Qed.

Lemma extent_i32 v : is_extent v -> is_i32 v.
Proof. unfold is_extent, is_i32, INT32_MAX. lia. Qed.

Lemma area_text_parsed x y width height :
  is_i32 x -> is_i32 y -> is_extent width -> is_extent height ->
  parse_area (Some (area_text x y width height)) (zlen (area_text x y width height)) = Some (x, y, width, height).
Proof.
  intros Hx Hy Hw Hh. pose proof (extent_i32 _ Hw) as Hw'. pose proof (extent_i32 _ Hh) as Hh'.
  apply parse_area_iff. split; [|do 4 (split; [done|])].
  - destruct (signed_shape x Hx) as (_ & _ & ?), (signed_shape y Hy) as (_ & _ & ?).
    destruct (signed_shape width Hw') as (_ & _ & ?), (signed_shape height Hh') as (_ & _ & ?). unfold area_text. rewrite !zlen_app.
    change (zlen (member "{" "x")) with 5. change (zlen (member "," "y")) with 5. change (zlen (cstr "}")) with 1.
    change (zlen (member "," "width")) with 9. change (zlen (member "," "height")) with 10. lia.
  - unfold area_text. cbn [spelled area_format].
    do 4 (eexists; split; [reflexivity|]; eexists _, _, _, _; split; [reflexivity|]; split; [reflexivity|]; split; [by apply signed_numeral|]).
    by exists [].
Qed.

(** The payload a body becomes. *)
Definition response_bytes (opcode : Z) (body : list byte) : option (list byte) :=
  if any_of opcode [KSD_OP_WINDOW_LIST; KSD_OP_WINDOW_HANDLES; KSD_OP_WINDOW_ACTIVE; KSD_OP_WINDOW_QUERY] then
    guard* (zlen body <=? KSD_MAX_TEXT_BYTES) && ksd_utf8_valid body false in Some (ksd_encode_u32 (zlen body) ++ body)
  else if opcode =? KSD_OP_CURSOR_POSITION then
    let* (x, y) := parse_point (body_pointer body) (zlen body) in Some (ksd_encode_u32 (u32 x) ++ ksd_encode_u32 (u32 y))
  else if opcode =? KSD_OP_WORK_AREA then
    match parse_area (body_pointer body) (zlen body) with
    | Some (x, y, width, height) =>
      Some (ksd_encode_u32 (u32 x) ++ ksd_encode_u32 (u32 y) ++ ksd_encode_u32 (u32 width) ++ ksd_encode_u32 (u32 height))
    | None => None
    end
  else if any_of opcode [KSD_OP_WINDOW_FOCUS; KSD_OP_WINDOW_RAISE; KSD_OP_WINDOW_LOWER; KSD_OP_WINDOW_CLOSE;
                         KSD_OP_WINDOW_MOVE_RESIZE; KSD_OP_WINDOW_SET_STATE; KSD_OP_WINDOW_SET_OPACITY;
                         KSD_OP_WINDOW_SET_ABOVE; KSD_OP_WINDOW_SET_DECORATED; KSD_OP_WINDOW_SET_SKIP_TASKBAR]
  then guard* zlen body =? 0 in Some []
  else None.

Lemma point_response x y :
  is_i32 x -> is_i32 y ->
  response_bytes KSD_OP_CURSOR_POSITION (point_text x y) = Some (ksd_encode_u32 (u32 x) ++ ksd_encode_u32 (u32 y)).
Proof.
  intros Hx Hy. unfold response_bytes. change (body_pointer (point_text x y)) with (Some (point_text x y)).
  by rewrite point_text_parsed.
Qed.

Lemma area_response x y width height :
  is_i32 x -> is_i32 y -> is_extent width -> is_extent height ->
  response_bytes KSD_OP_WORK_AREA (area_text x y width height) =
  Some (ksd_encode_u32 (u32 x) ++ ksd_encode_u32 (u32 y) ++ ksd_encode_u32 (u32 width) ++ ksd_encode_u32 (u32 height)).
Proof.
  intros Hx Hy Hw Hh. unfold response_bytes.
  change (body_pointer (area_text x y width height)) with (Some (area_text x y width height)). by rewrite area_text_parsed.
Qed.

Section response_theorems.
Context {AL : Allocator}.

Lemma response_writes opcode body :
  match response_bytes opcode body with
  | Some bs => writes (ksd_kwin_response_payload opcode (body_pointer body) (zlen body)) bs
  | None => forall b, ksd_kwin_response_payload opcode (body_pointer body) (zlen body) b = (false, b)
  end.
Proof.
  assert (Hp : bool_decide (body_pointer body = None) && negb (zlen body =? 0) = false).
  { unfold body_pointer. destruct (zlen body =? 0); [by rewrite andb_false_r|]. by rewrite bool_decide_false by done. }
  assert (Hd : default [] (body_pointer body) = body).
  { unfold body_pointer. case_if; [|done]. destruct body as [|x l]; [done|]. rewrite zlen_cons in *. pose proof (zlen_nonneg l). lia. }
  unfold response_bytes, ksd_kwin_response_payload. rewrite Hp, Hd, ztake_all by lia.
  case_if; [|case_if; [|case_if; [|case_if; [|done]]]].
  - case_if; [|done]. rewrite <- Hd at 2. apply andthen_writes; [apply u32_writes|]. apply bytes_writes. by rewrite Hd.
  - destruct (parse_point _ _) as [[x y]|]; [|done]. apply andthen_writes; apply u32_writes.
  - destruct (parse_area _ _) as [[[[x y] w] h]|]; [|done]. repeat (apply andthen_writes; [apply u32_writes|]). apply u32_writes.
  - case_if; [|done]. apply nothing_writes.
Qed.

(** A point and an area cross the two languages unchanged.  The text the script
    writes of a point of 32-bit coordinates becomes the payload whose two words the
    client reads back as those coordinates, negative ones included, whatever the
    buffer, provided it has room; and an area likewise. *)
Theorem kwin_point_roundtrip x y width height b :
  AllocTotal AL -> is_i32 x -> is_i32 y -> is_extent width -> is_extent height ->
  buffer_wf b -> buf_length b + 16 <= buf_maximum b ->
  (let body := point_text x y in
   let '(ok, b') := ksd_kwin_response_payload KSD_OP_CURSOR_POSITION (body_pointer body) (zlen body) b in
   ok = true /\ exists p, buf_bytes b' = buf_bytes b ++ p /\ zlen p = 8 /\
     i32 (ksd_decode_u32 p) = x /\ i32 (ksd_decode_u32 (zdrop 4 p)) = y) /\
  (let body := area_text x y width height in
   let '(ok, b') := ksd_kwin_response_payload KSD_OP_WORK_AREA (body_pointer body) (zlen body) b in
   ok = true /\ exists p, buf_bytes b' = buf_bytes b ++ p /\ zlen p = 16 /\
     i32 (ksd_decode_u32 p) = x /\ i32 (ksd_decode_u32 (zdrop 4 p)) = y /\
     ksd_decode_u32 (zdrop 8 p) = width /\ ksd_decode_u32 (zdrop 12 p) = height).
Proof.
  intros HA Hx Hy Hw Hh Hb Hroom.
  assert (Hi : forall v k, is_i32 v -> i32 (ksd_decode_u32 (ksd_encode_u32 (u32 v) ++ k)) = v).
  { intros v k Hv. rewrite decode_encode_u32, (u32_id (u32 v)) by (unfold is_u32, u32; apply Z.mod_pos_bound; lia). by apply i32_u32. }
  assert (He : forall v k, is_extent v -> ksd_decode_u32 (ksd_encode_u32 (u32 v) ++ k) = v).
  { intros v k Hv. assert (is_u32 v) by (unfold is_u32, is_extent, INT32_MAX in *; lia). by rewrite (u32_id v), decode_u32_field by done. }
  split; cbv zeta.
  - pose proof (response_writes KSD_OP_CURSOR_POSITION (point_text x y)) as H. rewrite point_response in H by done. specialize (H b Hb). destruct (ksd_kwin_response_payload _ _ _ b) as [ok b']. destruct H as (_ & _ & _ & Hok & Ht).
    rewrite Ht in Hok |- * by (done || (rewrite zlen_app; change (zlen (ksd_encode_u32 _)) with 4; lia)).
    split; [done|]. eexists. split; [by apply Hok|]. split; [done|]. split; [by apply Hi|].
    change (zdrop 4 (ksd_encode_u32 (u32 x) ++ ?k)) with k. rewrite <- (app_nil_r (ksd_encode_u32 (u32 y))). by apply Hi.
  - pose proof (response_writes KSD_OP_WORK_AREA (area_text x y width height)) as H. rewrite area_response in H by done. specialize (H b Hb). destruct (ksd_kwin_response_payload _ _ _ b) as [ok b']. destruct H as (_ & _ & _ & Hok & Ht).
    rewrite Ht in Hok |- * by (done || (rewrite !zlen_app; change (zlen (ksd_encode_u32 _)) with 4; lia)).
    split; [done|]. eexists. split; [by apply Hok|]. split; [done|]. split; [by apply Hi|].
    change (zdrop 4 (ksd_encode_u32 (u32 x) ++ ?k)) with k. change (zdrop 8 (ksd_encode_u32 (u32 x) ++ ksd_encode_u32 (u32 y) ++ ?k)) with k.
    change (zdrop 12 (ksd_encode_u32 (u32 x) ++ ksd_encode_u32 (u32 y) ++ ksd_encode_u32 (u32 width) ++ ?k)) with k.
    split; [by apply Hi|]. split; [by apply He|]. rewrite <- (app_nil_r (ksd_encode_u32 (u32 height))). by apply He.
Qed.
End response_theorems.

Lemma kwin_point_roundtrip_witness :
  let x := -3 in let y := 2000 in let b := ksd_buffer_init 64 in
  (let body := point_text x y in
   let '(ok, b') := ksd_kwin_response_payload (AL := infinite_memory) KSD_OP_CURSOR_POSITION (body_pointer body) (zlen body) b in
   ok = true /\ exists p, buf_bytes b' = buf_bytes b ++ p /\ zlen p = 8 /\
     i32 (ksd_decode_u32 p) = x /\ i32 (ksd_decode_u32 (zdrop 4 p)) = y) /\
  (let body := area_text x y 640 480 in
   let '(ok, b') := ksd_kwin_response_payload (AL := infinite_memory) KSD_OP_WORK_AREA (body_pointer body) (zlen body) b in
   ok = true /\ exists p, buf_bytes b' = buf_bytes b ++ p /\ zlen p = 16 /\
     i32 (ksd_decode_u32 p) = x /\ i32 (ksd_decode_u32 (zdrop 4 p)) = y /\
     ksd_decode_u32 (zdrop 8 p) = 640 /\ ksd_decode_u32 (zdrop 12 p) = 480).
Proof.
  apply (kwin_point_roundtrip (AL := infinite_memory) (-3) 2000 640 480 (ksd_buffer_init 64)).
  - by intros n.
  - unfold is_i32; lia.
  - unfold is_i32; lia.
  - unfold is_extent, INT32_MAX; lia.
  - unfold is_extent, INT32_MAX; lia.
  - apply buffer_init_wf. unfold SIZE_MAX; lia.
  - vm_compute. discriminate.
Defined.
