(* ===== verification/KwinBus.v ===== *)
(** * The service of the KWin script (src/kwin_bus.c)

    The session daemon of a KWin session between its two channels: the socket over which
    the authority relays requests, and the D-Bus object the compositor's script calls.
    A request becomes a job of the queue; a poll of the script that finds no job is
    parked, one for each lane, until a job comes or its timer fires; a report completes
    jobs, and what was asked is answered.  The state is the bus, the answers given so
    far and what the sockets do to the sends to come; each callback of the main loop is a
    function on it, and the loop is a sequence of them.  A D-Bus invocation is a number,
    and so is a request of the authority.

    The theorems count them: every invocation is answered once or parked with a timer,
    every request is answered once or waits in the table, and the table is exactly the
    live jobs of the queue. *)
From Stdlib Require Import ZArith Lia Strings.Byte Strings.String Sorting.Sorted.
From stdpp Require Import base list option numbers tactics.
From S2P Require Import Prelude.
From S2P Require Import Protocol.
From S2P Require Import Codec.
From S2P Require Import Buffer.
From S2P Require Import Utf8.
From S2P Require Import Transport.
From S2P Require Import Frame.
From S2P Require Import Operations.
From S2P Require Import KwinEnvelope.
From S2P Require Import KwinJobs.
From S2P Require Import Relay.
From S2P Require Import KwinTranslate.
Local Open Scope Z_scope.
Local Open Scope ksd_scope.

Definition KSD_KWIN_RELAY_TRANSFER_MS : Z := KSD_KWIN_OP_DEADLINE_MS.
Definition KSD_KWIN_IDLE_STAGGER_MS : Z := 1500.
Definition reply_maximum : Z := 65536.

(** ** The state *)

(** An entry of the table of requests the script has not answered. *)
Record inflight := mk_inflight { if_active : bool; if_request_id : Z; if_opcode : Z; if_sequence : list byte }.
Definition no_request : inflight := mk_inflight false 0 0 [].

(** Sources are those of the main loop: a timer is its period, and the loop is [None]
    for NULL or whether it was told to quit. *)
Record ksd_kwin_bus := mk_bus {
  kb_queue : ksd_kwin_queue;
  kb_peer : list byte;
  kb_uid : Z;
  kb_parked : list (option Z);
  kb_idle_source : list (option Z);
  kb_authority_source : bool;
  kb_relay : Z;
  kb_relay_source : bool;
  kb_compositor_source : bool;
  kb_loop : option bool;
  kb_inflight : list inflight;
}.

Definition with_queue (b : ksd_kwin_bus) (queue : ksd_kwin_queue) : ksd_kwin_bus :=
  mk_bus queue (kb_peer b) (kb_uid b) (kb_parked b) (kb_idle_source b) (kb_authority_source b) (kb_relay b)
    (kb_relay_source b) (kb_compositor_source b) (kb_loop b) (kb_inflight b).
Definition with_park (b : ksd_kwin_bus) (slot : nat) (invocation timer : option Z) : ksd_kwin_bus :=
  mk_bus (kb_queue b) (kb_peer b) (kb_uid b) (<[slot := invocation]> (kb_parked b)) (<[slot := timer]> (kb_idle_source b))
    (kb_authority_source b) (kb_relay b) (kb_relay_source b) (kb_compositor_source b) (kb_loop b) (kb_inflight b).
Definition with_sources (b : ksd_kwin_bus) (authority relay compositor : bool) (loop : option bool) : ksd_kwin_bus :=
  mk_bus (kb_queue b) (kb_peer b) (kb_uid b) (kb_parked b) (kb_idle_source b) authority (kb_relay b) relay compositor loop
    (kb_inflight b).
Definition with_inflight (b : ksd_kwin_bus) (table : list inflight) : ksd_kwin_bus :=
  mk_bus (kb_queue b) (kb_peer b) (kb_uid b) (kb_parked b) (kb_idle_source b) (kb_authority_source b) (kb_relay b)
    (kb_relay_source b) (kb_compositor_source b) (kb_loop b) table.

(** [g_main_loop_quit], unless there is no loop. *)
Definition quit (b : ksd_kwin_bus) : ksd_kwin_bus :=
  with_sources b (kb_authority_source b) (kb_relay_source b) (kb_compositor_source b) (option_map (fun _ => true) (kb_loop b)).

(** What leaves the daemon: a reply or an error for an invocation, a frame for the
    authority with what of it arrives, and the end of that socket. *)
Inductive bus_error := AccessDenied | InvalidArgs | CannotFormat | DaemonStopping.
Inductive bus_effect :=
| Answered (invocation : Z) (text : list byte)
| Refused (invocation : Z) (error : bus_error)
| RelaySent (request_id : Z) (frame arrived : list byte)
| RelayShutdown.

(** [w_sends] is what the relay's socket will do to each send, and when it starts. *)
Record world := mk_world { w_bus : ksd_kwin_bus; w_sends : list (Z * list io_turn); w_out : list bus_effect }.
Definition on_bus (w : world) (bus : ksd_kwin_bus) : world := mk_world bus (w_sends w) (w_out w).
Definition emit (w : world) (effect : bus_effect) : world := mk_world (w_bus w) (w_sends w) (w_out w ++ [effect]).

Definition relay_failed (w : world) : world := on_bus (emit w RelayShutdown) (quit (w_bus w)).

(** What the session bus says of the compositor's name; the array has 64 bytes, and
    [is_unique_name] is [g_dbus_is_unique_name]. *)
Definition compositor_owner (is_unique_name : list byte -> bool) (reply : option (list byte)) : option (list byte) :=
  let* owner := reply in
  guard* is_unique_name owner && (zlen owner <? 64) in
  Some owner.

Section bus.
Context {AL : Allocator}.

(** ** Answers to the authority *)

Definition relay_frame (request_id : Z) (payload : list byte) : ksd_frame :=
  mk_frame relay_magic KSD_PROTOCOL_MAJOR KSD_PROTOCOL_MINOR 0 0 (zlen payload) request_id (Some payload).

(** The status to answer with and the translation of the body. *)
Definition answer_body (opcode status : Z) (body : option (list byte)) (body_length : Z) : Z * ksd_buffer :=
  let translated := ksd_buffer_init (KSD_MAX_TEXT_BYTES + 4) in
  if status =? KSD_STATUS_OK then
    let '(ok, translated) := ksd_kwin_response_payload opcode body body_length translated in
    (if ok then status else KSD_STATUS_INTERNAL, translated)
  else (status, translated).

(** The prologue and the tail. *)
Definition answer_payload (status : Z) (translated : ksd_buffer) : bool * ksd_buffer :=
  (ksd_buffer_u32 status ;;; ksd_buffer_u32 0 ;;;
   (fun payload => if (status =? KSD_STATUS_OK) && negb (buf_length translated =? 0)
                   then ksd_buffer_bytes (Some (buf_bytes translated)) (buf_length translated) payload
                   else (true, payload)))
  (ksd_buffer_init (buf_length translated + 8)).

Definition relay_answer (w : world) (request_id opcode status : Z) (body : option (list byte)) (body_length : Z)
    : option world :=
  let '(status, translated) := answer_body opcode status body body_length in
  let '(ok, payload) := answer_payload status translated in
  if negb ok then Some w
  else
    let '(ok, packed) := ksd_frame_pack (relay_frame request_id (buf_bytes payload))
                           (ksd_buffer_init (KSD_FRAME_HEADER_SIZE + buf_length payload + 16)) in
    if negb ok then Some (relay_failed w)
    else
      match w_sends w with
      | [] => None
      | (start, turns) :: sends =>
        let* (ok, arrived, _) :=
          transfer_send (u64 (start + KSD_KWIN_RELAY_TRANSFER_MS)) turns (buf_bytes packed) [] in
        let w := emit (mk_world (w_bus w) sends (w_out w)) (RelaySent request_id (buf_bytes packed) arrived) in
        Some (if ok then w else relay_failed w)
      end.

(** The entry at an index is answered if its job has a result. *)
Definition drain_entry (w : world) (index : nat) : option world :=
  let bus := w_bus w in
  let entry := nth index (kb_inflight bus) no_request in
  if negb (if_active entry) then Some w
  else
    match ksd_kwin_queue_result (kb_queue bus) (if_sequence entry) with
    | None => Some w
    | Some (status, body, body_length) =>
      let* w := relay_answer w (if_request_id entry) (if_opcode entry) status body body_length in
      let bus := w_bus w in
      let bus := with_queue bus (ksd_kwin_queue_release (kb_queue bus) (if_sequence entry)) in
      let entry := mk_inflight false (if_request_id entry) (if_opcode entry) (if_sequence entry) in
      Some (on_bus w (with_inflight bus (<[index := entry]> (kb_inflight bus))))
    end.

Fixpoint drain_from (indices : list nat) (w : world) : option world :=
  match indices with
  | [] => Some w
  | index :: indices => let* w := drain_entry w index in drain_from indices w
  end.
Definition relay_drain (w : world) : option world := drain_from (seq 0 (Z.to_nat KSD_KWIN_MAX_JOBS)) w.

(** ** Parked polls *)

Definition lane_slot (lane : ksd_kwin_lane) : nat := match lane with KSD_KWIN_LANE_FAST => 0 | _ => 1 end.
Definition idle_period (slot : nat) : Z := KSD_KWIN_IDLE_REPLY_MS + Z.of_nat slot * KSD_KWIN_IDLE_STAGGER_MS.

(** The reply is a string, which its first NUL would end. *)
Definition answer (w : world) (invocation : Z) (reply : ksd_buffer) : world :=
  emit w (Answered invocation (until_nul (buf_bytes reply))).

Definition release_park (w : world) (lane : ksd_kwin_lane) (now_ms : Z) : world :=
  let slot := lane_slot lane in
  match nth slot (kb_parked (w_bus w)) None with
  | None => w
  | Some invocation =>
    let bus := with_park (w_bus w) slot None None in
    let '(ok, queue, reply) := ksd_kwin_queue_poll_parked (kb_queue bus) lane now_ms (ksd_buffer_init reply_maximum) in
    let w := on_bus w (with_queue bus queue) in
    if ok then answer w invocation reply else emit w (Refused invocation CannotFormat)
  end.

(** [idle_fast] and [idle_slow]: the timer is gone, then the park. *)
Definition idle_fired (w : world) (lane : ksd_kwin_lane) (now_ms : Z) : world :=
  let bus := w_bus w in
  let slot := lane_slot lane in
  release_park (on_bus w (with_park bus slot (nth slot (kb_parked bus) None) None)) lane now_ms.

(** ** The script's calls *)

Definition call_allowed (bus : ksd_kwin_bus) (sender : option (list byte)) (hello : bool) (generation : list byte) : bool :=
  match sender with
  | None => false
  | Some name =>
    bytes_eqb (kb_peer bus) name
    && (if hello then byte_at generation 0 =? 0
        else ksd_kwin_peer_allowed (Some (kb_peer bus)) sender (kb_uid bus) (kb_uid bus)
               (Some (q_generation (kb_queue bus))) (Some generation))
  end.

(** A call that ends at once, with a reply or the refusal of its envelope. *)
Definition conclude_call (w : world) (invocation : Z) (ok : bool) (reply : ksd_buffer) : world :=
  if ok then answer w invocation reply else emit w (Refused invocation InvalidArgs).

Definition handle_report (w : world) (envelope : list byte) (invocation : Z) : option world :=
  let '(ok, queue, reply) := ksd_kwin_queue_report (kb_queue (w_bus w)) envelope (ksd_buffer_init reply_maximum) in
  let w := on_bus w (with_queue (w_bus w) queue) in
  let* w := if ok then relay_drain w else Some w in
  Some (conclude_call w invocation ok reply).

Definition handle_poll (w : world) (envelope : list byte) (invocation now_ms later_ms : Z) : world :=
  let '(outcome, queue, reply) :=
    ksd_kwin_queue_poll (kb_queue (w_bus w)) envelope now_ms (ksd_buffer_init reply_maximum) in
  let w := on_bus w (with_queue (w_bus w) queue) in
  match outcome, ksd_kwin_parse_poll envelope with
  | KSD_KWIN_POLL_ANSWERED, _ => answer w invocation reply
  | KSD_KWIN_POLL_PARKED, Some poll =>
    let slot := lane_slot (poll_lane poll) in
    let w := match nth slot (kb_parked (w_bus w)) None with
             | None => w
             | Some _ => release_park w (poll_lane poll) later_ms
             end in
    on_bus w (with_park (w_bus w) slot (Some invocation) (Some (idle_period slot)))
  | _, _ => conclude_call w invocation false reply
  end.

(** [now_ms] is the clock of a poll, and [later_ms] of the park it may end. *)
Definition handle_call (w : world) (sender : option (list byte)) (method generation envelope : list byte)
    (invocation now_ms later_ms : Z) : option world :=
  let bus := w_bus w in
  let empty := ksd_buffer_init reply_maximum in
  if negb (call_allowed bus sender (bytes_eqb method (cstr "Hello")) generation)
  then Some (emit w (Refused invocation AccessDenied))
  else if bytes_eqb method (cstr "Hello") then
    let '(ok, reply) := ksd_kwin_queue_hello (kb_queue bus) empty in Some (conclude_call w invocation ok reply)
  else if bytes_eqb method (cstr "Report") then handle_report w (until_nul envelope) invocation
  else if bytes_eqb method (cstr "Event") then
    let '(ok, reply) := ksd_kwin_queue_hello (kb_queue bus) empty in Some (conclude_call w invocation ok reply)
  else if bytes_eqb method (cstr "Poll") then Some (handle_poll w (until_nul envelope) invocation now_ms later_ms)
  else Some (conclude_call w invocation false empty).

(** ** The authority's requests *)

Inductive relay_arrival := ArrivalLost | ArrivalRequest (request_id opcode : Z) (body : list byte).

(** The first half of [relay_readable]: what arrived, and what of the socket is left. *)
Definition relay_receive (hangup : bool) (start : Z) (turns : list io_turn) (stream : list byte)
    : option (relay_arrival * list byte) :=
  let deadline := u64 (start + KSD_KWIN_RELAY_TRANSFER_MS) in
  if hangup then Some (ArrivalLost, stream)
  else
    let* (got, stream, turns) := transfer_recv deadline KSD_FRAME_HEADER_SIZE turns stream [] in
    match got with
    | TransferDone header =>
      let payload_length := ksd_decode_u32 (zdrop KSD_FRAME_PAYLOAD_LENGTH_OFFSET header) in
      let opcode := ksd_decode_u16 (zdrop KSD_FRAME_OPCODE_OFFSET header) in
      let request_id := ksd_decode_u64 (zdrop KSD_FRAME_REQUEST_ID_OFFSET header) in
      if KSD_MAX_TEXT_BYTES <? payload_length then Some (ArrivalLost, stream)
      else if payload_length =? 0 then Some (ArrivalRequest request_id opcode [], stream)
      else
        let* (got, stream, _) := transfer_recv deadline payload_length turns stream [] in
        match got with
        | TransferDone body => Some (ArrivalRequest request_id opcode body, stream)
        | _ => Some (ArrivalLost, stream)
        end
    | _ => Some (ArrivalLost, stream)
    end.

(** The second half: the request becomes a job, or is refused.  [now_ms] is the clock of
    the job, and [later_ms] of the park it may end. *)
Definition relay_take (w : world) (request_id opcode : Z) (body : list byte) (now_ms later_ms : Z) : option world :=
  match ksd_kwin_request_text opcode (body_pointer body) (zlen body) text_capacity with
  | None => relay_answer w request_id opcode KSD_STATUS_INVALID_REQUEST None 0
  | Some text =>
    let bus := w_bus w in
    match find_index (fun entry => negb (if_active entry)) (kb_inflight bus) with
    | None => relay_answer w request_id opcode KSD_STATUS_BUSY None 0
    | Some slot =>
      let '(sequence, queue) := ksd_kwin_queue_submit (kb_queue bus) opcode (Some text) (zlen text) now_ms in
      let w := on_bus w (with_queue bus queue) in
      match sequence with
      | None => relay_answer w request_id opcode KSD_STATUS_BUSY None 0
      | Some sequence =>
        let bus := with_inflight (w_bus w) (<[slot := mk_inflight true request_id opcode sequence]> (kb_inflight bus)) in
        Some (release_park (on_bus w bus) (ksd_kwin_lane_for opcode) later_ms)
      end
    end
  end.

Definition relay_lost (w : world) : world :=
  let w := relay_failed w in
  let bus := w_bus w in
  on_bus w (with_sources bus (kb_authority_source bus) false (kb_compositor_source bus) (kb_loop bus)).

Definition relay_readable (w : world) (arrival : relay_arrival) (now_ms later_ms : Z) : option world :=
  match arrival with
  | ArrivalLost => Some (relay_lost w)
  | ArrivalRequest request_id opcode body => relay_take w request_id opcode body now_ms later_ms
  end.

(** ** The other sources *)

Definition authority_readable (w : world) : world :=
  let bus := quit (w_bus w) in
  on_bus w (with_sources bus false (kb_relay_source bus) (kb_compositor_source bus) (kb_loop bus)).

Definition compositor_current (w : world) (owner : option (list byte)) : world :=
  let same := match owner with None => false | Some owner => bytes_eqb owner (kb_peer (w_bus w)) end in
  if same then w
  else
    let bus := quit (w_bus w) in
    on_bus w (with_sources bus (kb_authority_source bus) (kb_relay_source bus) false (kb_loop bus)).

Definition on_name_lost (w : world) : world := on_bus w (quit (w_bus w)).

(** The calls that restart the script, given which of them succeed, and whether all did. *)
Definition on_name_acquired (succeeds : string -> bool) : list string * bool :=
  let unloaded := succeeds "unloadScript"%string in
  let loaded := succeeds "loadScript"%string in
  let started := loaded && succeeds "start"%string in
  (["unloadScript"; "loadScript"]%string ++ (if loaded then ["start"%string] else []), unloaded && loaded && started).

(** ** The life of the service *)

(** [None] for a queue is NULL; [peer] is the compositor's, and [node] whether the
    introspection parsed. *)
Definition ksd_kwin_bus_start (queue : option ksd_kwin_queue) (relay uid : Z) (peer : option (list byte)) (node : bool)
    : option ksd_kwin_bus :=
  let* queue := queue in
  let* peer := peer in
  guard* node in
  Some (mk_bus queue peer uid [None; None] [None; None] false relay false false None
          (repeat no_request (Z.to_nat KSD_KWIN_MAX_JOBS))).

(** Up to [g_main_loop_run]. *)
Definition ksd_kwin_bus_run (bus : option ksd_kwin_bus) : Z + ksd_kwin_bus :=
  match bus with
  | None => inl 1
  | Some bus => inr (with_sources bus true (0 <=? kb_relay bus) true (Some false))
  end.

(** The error for what is still parked at a slot. *)
Definition stop_slot (w : world) (slot : nat) : world :=
  match nth slot (kb_parked (w_bus w)) None with
  | None => w
  | Some invocation => emit w (Refused invocation DaemonStopping)
  end.
(** The sources go, what is parked is refused, and the bus is freed: what is left is
    what was said. *)
Definition ksd_kwin_bus_stop (w : world) : list bus_effect := w_out (fold_left stop_slot (seq 0 (Z.to_nat KSD_KWIN_LANES)) w).

(** ** The main loop *)

Inductive bus_event :=
| ScriptCalls (sender : option (list byte)) (method generation envelope : list byte) (invocation now_ms later_ms : Z)
| IdleFires (lane : ksd_kwin_lane) (now_ms : Z)
| RelayReadable (arrival : relay_arrival) (now_ms later_ms : Z)
| AuthorityReadable
| CompositorChecked (owner : option (list byte))
| NameLost.

(** A callback of a source that is not there does not run: [None]. *)
Definition bus_step (w : world) (e : bus_event) : option world :=
  let bus := w_bus w in
  match e with
  | ScriptCalls sender method generation envelope invocation now_ms later_ms =>
    handle_call w sender method generation envelope invocation now_ms later_ms
  | IdleFires lane now_ms =>
    let* _ := nth (lane_slot lane) (kb_idle_source bus) None in
    Some (idle_fired w lane now_ms)
  | RelayReadable arrival now_ms later_ms => guard* kb_relay_source bus in relay_readable w arrival now_ms later_ms
  | AuthorityReadable => guard* kb_authority_source bus in Some (authority_readable w)
  | CompositorChecked owner => guard* kb_compositor_source bus in Some (compositor_current w owner)
  | NameLost => Some (on_name_lost w)
  end.

(** A loop that was told to quit may still run the callbacks that were ready with it. *)
Fixpoint bus_loop (w : world) (events : list bus_event) : option world :=
  match events with
  | [] => Some w
  | e :: events => let* w := bus_step w e in bus_loop w events
  end.
End bus.

(** ** What an answer says *)

(** The payload of an answer: the status, a zero, and the translation of a success. *)
Definition answer_text (opcode status : Z) (body : list byte) : list byte :=
  if status =? KSD_STATUS_OK then
    match response_bytes opcode body with
    | Some bytes => ksd_encode_u32 KSD_STATUS_OK ++ ksd_encode_u32 0 ++ bytes
    | None => ksd_encode_u32 KSD_STATUS_INTERNAL ++ ksd_encode_u32 0
    end
  else ksd_encode_u32 status ++ ksd_encode_u32 0.
Definition answer_frame (request_id opcode status : Z) (body : list byte) : list byte :=
  frame_bytes (relay_frame request_id (answer_text opcode status body)).

Lemma zlen_u32 v : zlen (ksd_encode_u32 v) = 4.
Proof. done. Qed.

Lemma response_length opcode body bytes : response_bytes opcode body = Some bytes -> zlen bytes <= KSD_MAX_TEXT_BYTES + 4.
Proof.
  unfold response_bytes. case_if.
  - case_if; [|done]. intros <-%(inj Some). breflect. rewrite zlen_app, zlen_u32. lia.
  - case_if; [|case_if; [|case_if; [|done]]].
    + destruct (parse_point _ _) as [[x y]|]; [|done]. intros <-%(inj Some). rewrite zlen_app, !zlen_u32. unfold KSD_MAX_TEXT_BYTES. lia.
    + destruct (parse_area _ _) as [[[[x y] width] height]|]; [|done]. intros <-%(inj Some). rewrite !zlen_app, !zlen_u32. unfold KSD_MAX_TEXT_BYTES. lia.
    + case_if; [|done]. intros <-%(inj Some). rewrite zlen_nil. unfold KSD_MAX_TEXT_BYTES. lia.
Qed.

Lemma answer_length opcode status body : 8 <= zlen (answer_text opcode status body) <= KSD_MAX_TEXT_BYTES + 12.
Proof.
  unfold answer_text. case_if; [destruct (response_bytes opcode body) as [bytes|] eqn:E|].
  - apply response_length in E. rewrite !zlen_app, !zlen_u32. pose proof (zlen_nonneg bytes). lia.
  - rewrite zlen_app, !zlen_u32. unfold KSD_MAX_TEXT_BYTES. lia.
  - rewrite zlen_app, !zlen_u32. unfold KSD_MAX_TEXT_BYTES. lia.
Qed.

Lemma relay_frame_wf request_id opcode status body :
  is_u64 request_id -> frame_wf (relay_frame request_id (answer_text opcode status body)).
Proof.
  intros Hid. pose proof (answer_length opcode status body) as Hl. unfold KSD_MAX_TEXT_BYTES in Hl.
  unfold frame_wf, header_wf, is_u16, is_u32.
  cbn [relay_frame fr_magic fr_major fr_minor fr_opcode fr_flags fr_payload_length fr_request_id fr_payload].
  unfold KSD_PROTOCOL_MAJOR, KSD_PROTOCOL_MINOR.
  split; [|split; [done|split; [done|intros E; exfalso; lia]]]. split; [done|]. do 5 (split; [lia|]). done.
Qed.

Section answers.
Context {AL : Allocator}.

(** A buffer an operation starts empty, with the room it needs. *)
Lemma written op bytes m :
  AllocTotal AL -> writes op bytes -> zlen bytes <= m <= SIZE_MAX ->
  exists b, op (ksd_buffer_init m) = (true, b) /\ buf_bytes b = bytes.
Proof.
  intros HA Hw Hm. pose proof (zlen_nonneg bytes). specialize (Hw (ksd_buffer_init m) (buffer_init_wf m ltac:(lia))).
  destruct (op (ksd_buffer_init m)) as [ok b]. destruct Hw as (_ & _ & _ & Hok & Ht).
  assert (ok = true) as -> by (apply Ht; [done|]; unfold buf_length; cbn; rewrite zlen_nil; lia).
  exists b. split; [done|]. by rewrite Hok.
Qed.

Lemma answer_body_exact opcode status body :
  AllocTotal AL ->
  answer_body opcode status (body_pointer body) (zlen body) =
    (if status =? KSD_STATUS_OK then match response_bytes opcode body with Some _ => status | None => KSD_STATUS_INTERNAL end
     else status,
     snd (answer_body opcode status (body_pointer body) (zlen body))) /\
  (status = KSD_STATUS_OK ->
   buf_bytes (snd (answer_body opcode status (body_pointer body) (zlen body))) = default [] (response_bytes opcode body)) /\
  zlen (buf_bytes (snd (answer_body opcode status (body_pointer body) (zlen body)))) <= KSD_MAX_TEXT_BYTES + 4.
Proof.
  intros HA. unfold answer_body. destruct (Z.eqb_spec status KSD_STATUS_OK) as [E|E]; [|split; [done|split; [done|done]]].
  pose proof (response_writes opcode body) as H.
  destruct (response_bytes opcode body) as [bytes|] eqn:Er.
  - apply response_length in Er. destruct (written _ bytes (KSD_MAX_TEXT_BYTES + 4) HA H) as (b & -> & Hb).
    { unfold SIZE_MAX, KSD_MAX_TEXT_BYTES in *. lia. }
    cbn [snd]. split; [done|]. split; [by rewrite Hb|by rewrite Hb].
  - rewrite H. split; [done|]. split; [done|]. done.
Qed.

Lemma answer_payload_exact opcode status body :
  AllocTotal AL -> 
  let '(st, translated) := answer_body opcode status (body_pointer body) (zlen body) in
  exists payload, answer_payload st translated = (true, payload) /\ buf_bytes payload = answer_text opcode status body.
Proof.
  intros HA. destruct (answer_body_exact opcode status body HA) as (E & Hb & Hl).
  destruct (answer_body opcode status (body_pointer body) (zlen body)) as [st translated]. cbn [snd] in *. injection E as E.
  set (tail := if (st =? KSD_STATUS_OK) && negb (buf_length translated =? 0) then buf_bytes translated else []).
  assert (Ht : answer_text opcode status body = ksd_encode_u32 st ++ ksd_encode_u32 0 ++ tail).
  { unfold answer_text, tail. rewrite E. destruct (Z.eqb_spec status KSD_STATUS_OK) as [->|Hne].
    - rewrite Hb by done. destruct (response_bytes opcode body) as [[|x bytes]|]; [| |done].
      + by case_if.
      + cbn [default from_option id]. unfold buf_length. rewrite Hb by done. cbn [default from_option id]. rewrite zlen_cons.
        pose proof (zlen_nonneg bytes). by replace (1 + zlen bytes =? 0) with false by lia.
    - rewrite (proj2 (Z.eqb_neq _ _) Hne). done. }
  rewrite Ht. unfold answer_payload. apply written; [done| |].
  - apply andthen_writes; [apply u32_writes|]. apply andthen_writes; [apply u32_writes|]. unfold tail.
    case_if; [by apply bytes_writes|apply nothing_writes].
  - rewrite !zlen_app, !zlen_u32. unfold buf_length, tail, SIZE_MAX, KSD_MAX_TEXT_BYTES in *.
    pose proof (zlen_nonneg (buf_bytes translated)). case_if; rewrite ?zlen_nil; lia.
Qed.

(** The whole of [relay_answer], when there is memory. *)
Lemma relay_answer_exact w request_id opcode status body w' :
  AllocTotal AL -> is_u64 request_id ->
  relay_answer w request_id opcode status (body_pointer body) (zlen body) = Some w' ->
  exists start turns sends ok arrived rest,
    w_sends w = (start, turns) :: sends /\
    transfer_send (u64 (start + KSD_KWIN_RELAY_TRANSFER_MS)) turns (answer_frame request_id opcode status body) [] = Some (ok, arrived, rest) /\
    let w1 := emit (mk_world (w_bus w) sends (w_out w)) (RelaySent request_id (answer_frame request_id opcode status body) arrived) in
    w' = if ok then w1 else relay_failed w1.
Proof.
  intros HA Hid. unfold relay_answer. pose proof (answer_payload_exact opcode status body HA) as H.
  destruct (answer_body opcode status (body_pointer body) (zlen body)) as [st translated]. destruct H as (payload & -> & Hp).
  cbn [negb]. unfold buf_length. rewrite Hp. pose proof (answer_length opcode status body) as Hl. unfold KSD_MAX_TEXT_BYTES in Hl.
  destruct (written _ _ (KSD_FRAME_HEADER_SIZE + zlen (answer_text opcode status body) + 16) HA
              (pack_writes _ (relay_frame_wf request_id opcode status body Hid))) as (packed & -> & Hb).
  { unfold frame_bytes. cbn [fr_payload relay_frame default from_option id]. rewrite zlen_app, zlen_header by done.
    unfold KSD_FRAME_HEADER_SIZE, SIZE_MAX. lia. }
  cbn [negb]. rewrite Hb. destruct (w_sends w) as [|[start turns] sends]; [done|].
  destruct (transfer_send _ _ _ _) as [[[ok arrived] rest]|] eqn:E; [|done]. intros [= <-].
  exists start, turns, sends, ok, arrived, rest. split; [done|]. split; [exact E|]. done.
Qed.

(** The numbers of the header of a frame. *)
Definition frame_request (frame : list byte) : Z := fr_request_id (decode_frame_header frame).
Lemma frame_request_of f : frame_wf f -> frame_request (frame_bytes f) = fr_request_id f.
Proof. intros [Hw _]. unfold frame_request, frame_bytes. by rewrite decode_encode_header. Qed.

(** The most that an answer needs. *)
Definition answer_maximum : Z := KSD_MAX_TEXT_BYTES + 12.

Lemma answer_body_bound opcode status body :
  buf_length (snd (answer_body opcode status (body_pointer body) (zlen body))) <= KSD_MAX_TEXT_BYTES + 4.
Proof.
  unfold answer_body. case_if; [|done]. pose proof (response_writes opcode body) as H.
  destruct (response_bytes opcode body) as [bytes|]; [|by rewrite H].
  assert (Hwf : buffer_wf (ksd_buffer_init (KSD_MAX_TEXT_BYTES + 4))).
  { apply buffer_init_wf. unfold SIZE_MAX, KSD_MAX_TEXT_BYTES. lia. }
  apply H in Hwf. destruct (ksd_kwin_response_payload _ _ _ _) as [ok b]. clear H. rename Hwf into H. destruct H as ((_ & Hm & _) & Hmax & _).
  rewrite Hmax in Hm. cbn [buf_maximum ksd_buffer_init] in Hm. destruct ok; exact Hm.
Qed.

Lemma answer_payload_cases status translated :
  0 <= buf_length translated <= KSD_MAX_TEXT_BYTES + 4 ->
  let '(ok, payload) := answer_payload status translated in
  if ok then zlen (buf_bytes payload) <= answer_maximum /\ buf_bytes payload <> [] else out_of_memory answer_maximum.
Proof.
  intros Hl. unfold answer_payload. set (third := fun payload : ksd_buffer => _).
  set (tail := if (status =? KSD_STATUS_OK) && negb (buf_length translated =? 0) then buf_bytes translated else []).
  assert (Hthird : writes third tail /\ fails_for_memory third tail).
  { unfold third, tail. case_if; [split; [by apply (put_writes (buf_bytes translated))|by apply (put_fails_for_memory (buf_bytes translated))]|].
    split; [apply nothing_writes|]. by intros b _ _. }
  destruct Hthird as [Hw Hf]. set (op := ksd_buffer_u32 status ;;; ksd_buffer_u32 0 ;;; third).
  assert (Hwall : writes op (ksd_encode_u32 status ++ ksd_encode_u32 0 ++ tail)).
  { apply andthen_writes; [apply u32_writes|]. apply andthen_writes; [apply u32_writes|done]. }
  assert (Hfall : fails_for_memory op (ksd_encode_u32 status ++ ksd_encode_u32 0 ++ tail)).
  { apply andthen_fails_for_memory; [apply u32_writes|apply (put_fails_for_memory (ksd_encode_u32 status))|].
    apply andthen_fails_for_memory; [apply u32_writes|apply (put_fails_for_memory (ksd_encode_u32 0))|done]. }
  assert (Hwf : buffer_wf (ksd_buffer_init (buf_length translated + 8))).
  { apply buffer_init_wf. unfold KSD_MAX_TEXT_BYTES, SIZE_MAX in *. lia. }
  assert (Ht : zlen (ksd_encode_u32 status ++ ksd_encode_u32 0 ++ tail) <= buf_length translated + 8).
  { rewrite !zlen_app, !zlen_u32. unfold tail, buf_length. case_if; rewrite ?zlen_nil; unfold buf_length in *; lia. }
  specialize (Hwall _ Hwf). specialize (Hfall _ Hwf). unfold buf_length at 1 in Hfall. cbn [buf_bytes buf_maximum ksd_buffer_init] in *.
  rewrite zlen_nil in Hfall. specialize (Hfall ltac:(lia)). destruct (op _) as [[] payload]; cbn [fst] in *.
  - destruct Hwall as (_ & _ & _ & Hok & _). rewrite (Hok eq_refl). cbn [app]. split; [unfold answer_maximum; lia|done].
  - destruct (Hfall eq_refl) as (n & Hn & Ha). exists n. split; [|done]. unfold answer_maximum, KSD_MAX_TEXT_BYTES in *. lia.
Qed.

(** What [relay_answer] does, memory or not: a frame with the request's number goes
    out, whole unless the socket failed, which ends the relay; or the relay ends
    without; or nothing is said, when there is no memory for the payload. *)
Lemma relay_answer_cases w request_id opcode status body w' :
  is_u64 request_id -> relay_answer w request_id opcode status (body_pointer body) (zlen body) = Some w' ->
  (w' = w /\ out_of_memory answer_maximum) \/ w' = relay_failed w \/
  exists frame arrived sends ok, frame_request frame = request_id /\ (ok = true -> arrived = frame) /\
    let w1 := emit (mk_world (w_bus w) sends (w_out w)) (RelaySent request_id frame arrived) in
    w' = if ok : bool then w1 else relay_failed w1.
Proof.
  intros Hid. unfold relay_answer. pose proof (answer_body_bound opcode status body) as Hb.
  destruct (answer_body opcode status (body_pointer body) (zlen body)) as [st translated]. cbn [snd] in Hb.
  pose proof (answer_payload_cases st translated (conj (zlen_nonneg _) Hb)) as Hp.
  destruct (answer_payload st translated) as [[] payload]; cbn [negb]; [|intros [= <-]; by left].
  destruct Hp as [Hz Hne]. set (f := relay_frame request_id (buf_bytes payload)).
  assert (Hfw : frame_wf f).
  { unfold answer_maximum, KSD_MAX_TEXT_BYTES in Hz. pose proof (zlen_nonneg (buf_bytes payload)).
    unfold frame_wf, header_wf, is_u16, is_u32, f.
    cbn [relay_frame fr_magic fr_major fr_minor fr_opcode fr_flags fr_payload_length fr_request_id fr_payload].
    unfold KSD_PROTOCOL_MAJOR, KSD_PROTOCOL_MINOR.
    split; [|split; [done|split; [done|intros E; exfalso; destruct (buf_bytes payload); [done|]; rewrite zlen_cons in E; pose proof (zlen_nonneg l); lia]]]. split; [done|]. do 5 (split; [lia|]). done. }
  assert (Hbw : buffer_wf (ksd_buffer_init (KSD_FRAME_HEADER_SIZE + buf_length payload + 16))).
  { apply buffer_init_wf. unfold buf_length, answer_maximum, KSD_MAX_TEXT_BYTES, KSD_FRAME_HEADER_SIZE, SIZE_MAX in *.
    pose proof (zlen_nonneg (buf_bytes payload)). lia. }
  pose proof (pack_writes _ Hfw _ Hbw) as Hpk. destruct (ksd_frame_pack _ _) as [[] packed]; cbn [negb]; [|intros [= <-]; auto].
  destruct Hpk as (_ & _ & _ & Hok & _). specialize (Hok eq_refl). cbn [buf_bytes ksd_buffer_init app] in Hok.
  destruct (w_sends w) as [|[start turns] sends]; [done|].
  destruct (transfer_send _ _ _ _) as [[[ok arrived] rest]|] eqn:E; [|done]. intros [= <-]. right; right.
  apply transfer_send_spec in E as (n & _ & Hsent). cbn [app] in Hsent.
  exists (buf_bytes packed), arrived, sends, ok. split; [rewrite Hok; by apply frame_request_of|]. split; [exact Hsent|]. done.
Qed.
End answers.

(** ** What is counted *)

Definition option_refs (held : option Z) : list Z := match held with Some x => [x] | None => [] end.
Definition effect_calls (e : bus_effect) : list Z :=
  match e with Answered invocation _ | Refused invocation _ => [invocation] | _ => [] end.
(** The request that the header of a frame names, when the whole frame arrived. *)
Definition effect_requests (e : bus_effect) : list Z :=
  match e with RelaySent _ frame arrived => if bytes_eqb arrived frame then [frame_request frame] else [] | _ => [] end.
Definition effect_ends (e : bus_effect) : list unit := match e with RelayShutdown => [tt] | _ => [] end.
(** The invocations that have ended, and those that are parked. *)
Definition concluded (out : list bus_effect) : list Z := concat (map effect_calls out).
Definition parked_calls (b : ksd_kwin_bus) : list Z := concat (map option_refs (kb_parked b)).
(** The requests that were answered, those that wait, and how often the relay's socket
    was ended. *)
Definition replied (out : list bus_effect) : list Z := concat (map effect_requests out).
Definition shutdowns (out : list bus_effect) : nat := length (concat (map effect_ends out)).
Definition entry_requests (entry : inflight) : list Z := if if_active entry then [if_request_id entry] else [].
Definition pending (b : ksd_kwin_bus) : list Z := concat (map entry_requests (kb_inflight b)).

(** ** The invariant *)

(** A lane has a timer when it has a parked poll, and of the lane's period. *)
Definition timer_of (slot : nat) (parked : option Z) : option Z := option_map (fun _ => idle_period slot) parked.
Definition parks_ok (b : ksd_kwin_bus) : Prop :=
  exists fast slow, kb_parked b = [fast; slow] /\ kb_idle_source b = [timer_of 0 fast; timer_of 1 slow].

(** What the daemon's own texts and the script's reports make of a job. *)
Definition job_good (job : ksd_kwin_job) : Prop :=
  live job = true ->
  avoids 0 (default [] (job_body job)) /\ zlen (default [] (job_body job)) < text_capacity /\
  (job_state job = KSD_KWIN_JOB_DONE -> exists r, job_reply job = body_pointer r /\ job_reply_length job = zlen r).

Definition job_key (job : ksd_kwin_job) : list (list byte * Z) := if live job then [(job_sequence job, job_opcode job)] else [].
Definition entry_key (entry : inflight) : list (list byte * Z) :=
  if if_active entry then [(if_sequence entry, if_opcode entry)] else [].
Definition job_keys (q : ksd_kwin_queue) : list (list byte * Z) := concat (map job_key (q_jobs q)).

(** The table is the live jobs of the queue. *)
Definition table_ok (b : ksd_kwin_bus) : Prop :=
  queue_wf (kb_queue b) /\ Forall job_good (q_jobs (kb_queue b)) /\ zlen (kb_inflight b) = KSD_KWIN_MAX_JOBS /\
  Forall (fun entry => is_u64 (if_request_id entry)) (kb_inflight b) /\
  concat (map entry_key (kb_inflight b)) ≡ₚ job_keys (kb_queue b).
Definition bus_ok (b : ksd_kwin_bus) : Prop := parks_ok b /\ table_ok b.

(** The requests that came have been answered, wait, or are lost: their answer failed,
    each with an end of the relay's socket, unless memory ran out. *)
Definition settles {AL : Allocator} (w w' : world) (requests : list Z) : Prop :=
  exists lost,
    replied (w_out w') ++ pending (w_bus w') ++ lost ≡ₚ replied (w_out w) ++ pending (w_bus w) ++ requests /\
    (shutdowns (w_out w) <= shutdowns (w_out w'))%nat /\
    ((length lost + shutdowns (w_out w) <= shutdowns (w_out w'))%nat \/ out_of_memory answer_maximum).

(** What a callback does to what is counted, [n] jobs being submitted at most. *)
Record moves {AL : Allocator} (n : Z) (w w' : world) (calls requests : list Z) : Prop := mk_moves {
  moves_ok : bus_ok (w_bus w');
  moves_calls : concluded (w_out w') ++ parked_calls (w_bus w') ≡ₚ concluded (w_out w) ++ parked_calls (w_bus w) ++ calls;
  moves_requests : settles w w' requests;
  moves_sequence : q_next_sequence (kb_queue (w_bus w')) <= q_next_sequence (kb_queue (w_bus w)) + n;
  moves_ticket : q_next_ticket (kb_queue (w_bus w')) <= q_next_ticket (kb_queue (w_bus w)) + n;
}.

Section counting.
Context {AL : Allocator}.

Lemma settles_exactly w w' requests :
  replied (w_out w') ++ pending (w_bus w') ≡ₚ replied (w_out w) ++ pending (w_bus w) ++ requests ->
  shutdowns (w_out w') = shutdowns (w_out w) -> settles w w' requests.
Proof. intros H E. exists []. rewrite app_nil_r, E. split; [done|]. split; [done|by left]. Qed.

Lemma settles_trans w1 w2 w3 r1 r2 : settles w1 w2 r1 -> settles w2 w3 r2 -> settles w1 w3 (r1 ++ r2).
Proof.
  intros (lost1 & Hr1 & Hs1 & Hl1) (lost2 & Hr2 & Hs2 & Hl2). exists (lost2 ++ lost1). split; [|split; [lia|]].
  - transitivity ((replied (w_out w2) ++ pending (w_bus w2) ++ lost1) ++ r2).
    + rewrite !app_assoc in *. rewrite Hr2. rewrite <- !app_assoc. do 2 f_equiv. apply Permutation_app_comm.
    + rewrite Hr1. by rewrite <- !app_assoc.
  - rewrite length_app. destruct Hl1 as [Hl1|?]; [|by right]. destruct Hl2 as [Hl2|?]; [|by right]. left. lia.
Qed.

Lemma moves_trans n m w1 w2 w3 c1 c2 r1 r2 :
  moves n w1 w2 c1 r1 -> moves m w2 w3 c2 r2 -> moves (n + m) w1 w3 (c1 ++ c2) (r1 ++ r2).
Proof.
  intros [_ Hc1 Hr1 Hs1 Ht1] [Hok Hc2 Hr2 Hs2 Ht2]. split; [done| |by eapply settles_trans|lia|lia].
  rewrite Hc2. rewrite !(app_assoc _ _ c2), Hc1. by rewrite <- !app_assoc.
Qed.

Lemma moves_refl w : bus_ok (w_bus w) -> moves 0 w w [] [].
Proof. intros Hok. split; [done|by rewrite app_nil_r|apply settles_exactly; by rewrite ?app_nil_r|lia|lia]. Qed.

(** A change that only says something: the bus is the same, or told to quit. *)
Lemma moves_said w out bus effects lost :
  bus_ok (w_bus w) -> bus = w_bus w \/ bus = quit (w_bus w) ->
  (length lost <= shutdowns effects)%nat \/ out_of_memory answer_maximum ->
  forall sends, out = w_out w ++ effects ->
  moves 0 w (mk_world bus sends out) (concluded effects) (replied effects ++ lost).
Proof.
  intros Hok Hb Hlost sends ->. assert (E : bus_ok bus /\ parked_calls bus = parked_calls (w_bus w) /\ pending bus = pending (w_bus w) /\
    kb_queue bus = kb_queue (w_bus w)) by (by destruct Hb as [->| ->]).
  destruct E as (Hok' & Hp & Hq & Hk). split; cbn [w_bus w_out]; rewrite ?Hk; [done| | |lia|lia].
  - rewrite Hp. unfold concluded. rewrite map_app, concat_app, <- app_assoc. f_equiv. apply Permutation_app_comm.
  - exists lost. cbn [w_bus w_out]. rewrite Hq. split; [|split].
    + unfold replied. rewrite map_app, concat_app, <- !app_assoc. f_equiv. rewrite app_assoc, (Permutation_app_comm _ (pending _)).
      by rewrite <- app_assoc.
    + unfold shutdowns. rewrite map_app, concat_app, length_app. lia.
    + destruct Hlost as [Hlost|?]; [left|by right]. unfold shutdowns in *. rewrite map_app, concat_app, length_app. lia.
Qed.

Lemma moves_emit w e : bus_ok (w_bus w) -> moves 0 w (emit w e) (effect_calls e) (effect_requests e).
Proof.
  intros Hok. pose proof (moves_said w (w_out w ++ [e]) (w_bus w) [e] [] Hok (or_introl eq_refl) (or_introl (Nat.le_0_l _))
    (w_sends w) eq_refl) as H.
  unfold concluded, replied in H. cbn [map concat] in H. by rewrite !app_nil_r in H.
Qed.

Lemma moves_lost w : bus_ok (w_bus w) -> moves 0 w (relay_failed w) [] [].
Proof. intros Hok. apply (moves_said w _ _ [RelayShutdown] []); [done|by right|left; cbn; lia|done]. Qed.
End counting.

(** ** The queue under the bus *)

Lemma keys_kept R q q' :
  keeps R q q' -> (forall a b, R a b -> job_key a = job_key b) -> job_keys q' = job_keys q.
Proof.
  intros (_ & _ & H) HR. unfold job_keys. f_equal. induction H as [|a b l k Hab _ IH]; [done|]. cbn [map]. rewrite IH. f_equal.
  destruct Hab as [->|Hab]; [done|]. symmetry. by apply HR.
Qed.

Lemma good_kept R q q' :
  keeps R q q' -> (forall a b, R a b -> job_good a -> job_good b) -> Forall job_good (q_jobs q) -> Forall job_good (q_jobs q').
Proof.
  intros (_ & _ & H) HR. induction H as [|a b l k Hab _ IH]; [done|]. intros [Ha Hl]%list.Forall_cons_1.
  constructor; [|by apply IH]. destruct Hab as [<-|Hab]; [done|by eapply HR].
Qed.

Lemma dispatches_key lane a b : dispatches lane a b -> job_key a = job_key b.
Proof.
  intros [[Hq _] ->]. unfold job_key. rewrite (proj2 (live_state a)) by congruence.
  by rewrite (proj2 (live_state (with_state a KSD_KWIN_JOB_DISPATCHED))).
Qed.
Lemma dispatches_good lane a b : dispatches lane a b -> job_good a -> job_good b.
Proof.
  intros [[Hq _] ->] Ha _. destruct (Ha (proj2 (live_state a) ltac:(congruence))) as (H1 & H2 & _). done.
Qed.
Lemma completes_key a b : completes a b -> job_key a = job_key b.
Proof.
  intros (Ha & Hb & E1 & E2 & _). unfold job_key. rewrite !(proj2 (live_state _)) by congruence. by rewrite E1, E2.
Qed.

Definition reported (generation envelope : list byte) (a b : ksd_kwin_job) : Prop :=
  exists r d, ksd_kwin_parse_report envelope = Some r /\ report_generation r = generation /\
    d ∈ report_done r /\ completes_by d a b.
Lemma reported_key generation envelope a b : reported generation envelope a b -> job_key a = job_key b.
Proof. intros (r & d & _ & _ & _ & H & _). by apply completes_key. Qed.

Lemma table_queue R b q' :
  table_ok b -> keeps R (kb_queue b) q' -> (forall x y, R x y -> job_key x = job_key y) -> Forall job_good (q_jobs q') ->
  table_ok (with_queue b q').
Proof.
  intros (Hq & Hg & Hl & Hid & Hp) Hk HR Hg'. split; [apply Hk|]. split; [done|]. split; [done|]. split; [done|].
  cbn [kb_inflight kb_queue with_queue]. by rewrite (keys_kept R _ _ Hk HR).
Qed.

Lemma dispatched_table lane b q' : table_ok b -> keeps (dispatches lane) (kb_queue b) q' -> table_ok (with_queue b q').
Proof.
  intros Ht Hk. apply (table_queue (dispatches lane)); [done|done|by apply dispatches_key|].
  eapply good_kept; [exact Hk|by apply dispatches_good|apply Ht].
Qed.

Section queue_good.
Context {AL : Allocator}.

Lemma complete_good q g sq status reply :
  queue_wf q -> Forall job_good (q_jobs q) ->
  Forall job_good (q_jobs (snd (ksd_kwin_queue_complete q g sq status (Some reply) (zlen reply)))).
Proof.
  intros Hq Hg. unfold ksd_kwin_queue_complete. case_if; [done|].
  destruct (find_slot _ _) as [[i job]|] eqn:E; [|done]. apply find_slot_some in E as (Hi & _ & _).
  case_if; [done|]. case_if; [done|]. case_if; [done|].
  unfold is_state in Heqb0. rewrite negb_false_iff, bool_decide_eq_true in Heqb0.
  assert (Hlive : live job = true) by (apply live_state; congruence).
  destruct (wf_no_reply q i job Hq Hi Hlive ltac:(congruence)) as [Hr1 Hr2].
  destruct (Forall_lookup_1 _ _ _ _ Hg Hi Hlive) as (H1 & H2 & _).
  destruct (if negb (zlen reply =? 0) then _ else _) as [rp rl] eqn:Er. cbn [snd q_jobs with_jobs].
  apply Forall_insert; [done|]. intros _. split; [done|]. split; [done|]. intros _. exists reply. cbn [job_reply job_reply_length].
  unfold body_pointer. destruct (Z.eqb_spec (zlen reply) 0) as [Ez|Ez]; cbn [negb option_map] in Er; injection Er as <- <-.
  - rewrite Hr1, Hr2, Ez. done.
  - by rewrite ztake_all by lia.
Qed.

Lemma complete_all_good ds : forall q,
  Forall done_ok ds -> queue_wf q -> Forall job_good (q_jobs q) -> Forall job_good (q_jobs (snd (complete_all q ds))).
Proof.
  induction ds as [|d ds IH]; intros q Hd Hq Hg; cbn [complete_all]; [done|].
  apply list.Forall_cons_1 in Hd as [(_ & _ & _ & Hlen) Hd].
  pose proof (complete_good q (q_generation q) (done_sequence d) (done_status d) (done_body d) Hq Hg) as H.
  destruct (complete_keeps q (q_generation q) d Hq) as [(Hw & _ & _) _]. rewrite Hlen in *.
  destruct (ksd_kwin_queue_complete _ _ _ _ _ _) as [[] q1]; cbn [snd] in *; [by apply IH|done].
Qed.

Lemma report_good q envelope reply :
  queue_wf q -> Forall job_good (q_jobs q) -> Forall job_good (q_jobs (snd (fst (ksd_kwin_queue_report q envelope reply)))).
Proof.
  intros Hq Hg. unfold ksd_kwin_queue_report. destruct (ksd_kwin_parse_report envelope) as [r|] eqn:Er; [|done].
  apply parse_report_sound in Er as ((_ & _ & _ & Hd & _) & _).
  assert (H : Forall job_good (q_jobs (snd (apply_report q r)))).
  { unfold apply_report. repeat (case_if; [done|]). by apply complete_all_good. }
  destruct (apply_report q r) as [[] q']; cbn [negb snd fst] in *; [|done].
  by destruct (ksd_kwin_format_report_ack _ _).
Qed.
End queue_good.

(** ** Callbacks and what they count *)

Lemma lane_slot_cases lane : lane_slot lane = 0%nat \/ lane_slot lane = 1%nat.
Proof. destruct lane; auto. Qed.

(** Parking and unparking a slot. *)
Lemma park_slot b slot p :
  parks_ok b -> (slot = 0%nat \/ slot = 1%nat) ->
  parks_ok (with_park b slot p (timer_of slot p)) /\
  parked_calls (with_park b slot p (timer_of slot p)) ++ option_refs (nth slot (kb_parked b) None) ≡ₚ
    parked_calls b ++ option_refs p.
Proof.
  intros (fast & slow & E1 & E2) Hs. split.
  - unfold parks_ok. cbn [kb_parked kb_idle_source with_park]. rewrite E1, E2. destruct Hs as [-> | ->]; cbn; [by exists p, slow|by exists fast, p].
  - unfold parked_calls. cbn [kb_parked with_park]. rewrite E1. destruct Hs as [-> | ->]; cbn [nth insert list_insert map concat]; count_handles.
Qed.

(** A queue that moved within the table's invariant. *)
Lemma moves_queue {AL : Allocator} w w' q' calls :
  parks_ok (w_bus w') -> table_ok (w_bus w') -> kb_queue (w_bus w') = q' -> kb_inflight (w_bus w') = kb_inflight (w_bus w) ->
  counters q' = counters (kb_queue (w_bus w)) ->
  replied (w_out w') = replied (w_out w) /\ shutdowns (w_out w') = shutdowns (w_out w) ->
  concluded (w_out w') ++ parked_calls (w_bus w') ≡ₚ concluded (w_out w) ++ parked_calls (w_bus w) ++ calls ->
  moves 0 w w' calls [].
Proof.
  intros Hp Ht Hq Hi Hc [Hr Hsh] Hcalls. split; [done|done| | |].
  - apply settles_exactly; [|done]. rewrite Hr, app_nil_r. unfold pending. by rewrite Hi.
  - rewrite Hq. apply (f_equal fst) in Hc. unfold counters in Hc. cbn [fst] in Hc. lia.
  - rewrite Hq. apply (f_equal snd) in Hc. unfold counters in Hc. cbn [snd] in Hc. lia.
Qed.

Lemma concluded_snoc out e : concluded (out ++ [e]) = concluded out ++ effect_calls e.
Proof. unfold concluded. rewrite map_app, concat_app. cbn. by rewrite app_nil_r. Qed.
Lemma replied_snoc out e : replied (out ++ [e]) = replied out ++ effect_requests e.
Proof. unfold replied. rewrite map_app, concat_app. cbn. by rewrite app_nil_r. Qed.

Lemma shutdowns_snoc out e : shutdowns (out ++ [e]) = (shutdowns out + length (effect_ends e))%nat.
Proof. unfold shutdowns. rewrite map_app, concat_app, length_app. cbn. by rewrite app_nil_r. Qed.

Section callbacks.
Context {AL : Allocator}.

Lemma relay_answer_moves w request_id opcode status body w' :
  is_u64 request_id -> bus_ok (w_bus w) ->
  relay_answer w request_id opcode status (body_pointer body) (zlen body) = Some w' ->
  moves 0 w w' [] [request_id] /\ (w_bus w' = w_bus w \/ w_bus w' = quit (w_bus w)).
Proof.
  intros Hid Hok H. apply relay_answer_cases in H as [[-> Hm]|[->|(frame & arrived & sends & ok & Hf & Ha & H)]]; [| | |done].
  - split; [|by left]. destruct w as [bus sends out].
    apply (moves_said (mk_world bus sends out) out bus [] [request_id] Hok); cbn; [by left|by right|by rewrite app_nil_r].
  - split; [|by right]. apply (moves_said w _ _ [RelayShutdown] [request_id] Hok); cbn; [by right|by left|done].
  - cbv zeta in H. subst w'. set (e := RelaySent request_id frame arrived). destruct ok; (split; [|by auto]).
    + pose proof (moves_said w (w_out w ++ [e]) (w_bus w) [e] [] Hok (or_introl eq_refl) (or_introl (Nat.le_0_l _)) sends eq_refl) as H.
      unfold replied, e in H. cbn [map concat effect_requests] in H. rewrite (Ha eq_refl), Hf in H. unfold e.
      rewrite (Ha eq_refl). unfold bytes_eqb in H. by rewrite bool_decide_eq_true_2 in H.
    + unfold relay_failed, on_bus, emit. cbn [w_bus w_out w_sends]. rewrite <- app_assoc.
      assert (Hr : replied [e; RelayShutdown] ++ (if bytes_eqb arrived frame then [] else [request_id]) = [request_id]).
      { unfold replied, e. cbn [map concat effect_requests]. rewrite Hf. by case_if. }
      rewrite <- Hr. apply (moves_said w _ _ [e; RelayShutdown]); [done|by right|left; case_if; cbn; lia|done].
Qed.

Lemma poll_parked_counters q lane now_ms reply :
  counters (snd (fst (ksd_kwin_queue_poll_parked q lane now_ms reply))) = counters q.
Proof. apply (step_counters reply q (QueuePollParked lane now_ms)). Qed.

Lemma release_park_moves w lane now_ms : bus_ok (w_bus w) -> moves 0 w (release_park w lane now_ms) [] [].
Proof.
  intros [Hp Ht]. unfold release_park. destruct (nth (lane_slot lane) (kb_parked (w_bus w)) None) as [invocation|] eqn:Ep;
    [|by apply moves_refl].
  destruct (park_slot (w_bus w) (lane_slot lane) None Hp (lane_slot_cases lane)) as [Hp' Hperm]. cbn [timer_of option_map] in *.
  cbn [kb_queue with_park].
  pose proof (poll_parked_keeps (kb_queue (w_bus w)) lane now_ms (ksd_buffer_init reply_maximum) (proj1 Ht)) as Hk.
  pose proof (poll_parked_counters (kb_queue (w_bus w)) lane now_ms (ksd_buffer_init reply_maximum)) as Hc.
  destruct (ksd_kwin_queue_poll_parked _ _ _ _) as [[ok queue] reply]. cbn [snd fst] in *.
  set (bus := with_queue (with_park (w_bus w) (lane_slot lane) None None) queue).
  assert (Ht' : table_ok bus) by (apply (dispatched_table lane (w_bus w) queue Ht Hk)).
  set (e := if ok then Answered invocation (until_nul (buf_bytes reply)) else Refused invocation CannotFormat).
  assert (E : (if ok then answer (on_bus w bus) invocation reply else emit (on_bus w bus) (Refused invocation CannotFormat)) =
    mk_world bus (w_sends w) (w_out w ++ [e])) by (by unfold e; destruct ok).
  rewrite E. assert (He : effect_calls e = [invocation] /\ effect_requests e = []) by (by unfold e; destruct ok).
  destruct He as [He1 He2]. apply (moves_queue _ _ queue); cbn [w_bus w_out]; try done.
  - rewrite replied_snoc, shutdowns_snoc, He2, app_nil_r. split; [done|]. unfold e. destruct ok; cbn; lia.
  - rewrite concluded_snoc, He1, app_nil_r. change (parked_calls bus) with (parked_calls (with_park (w_bus w) (lane_slot lane) None None)).
    rewrite Ep in Hperm. cbn [option_refs] in Hperm. count_handles.
Qed.

Lemma release_park_unparks w lane now_ms :
  parks_ok (w_bus w) -> nth (lane_slot lane) (kb_parked (w_bus (release_park w lane now_ms))) None = None.
Proof.
  intros (fast & slow & E1 & E2). unfold release_park. destruct (nth _ (kb_parked (w_bus w)) None) as [invocation|] eqn:Ep; [|done].
  cbn [kb_queue with_park]. destruct (ksd_kwin_queue_poll_parked _ _ _ _) as [[ok queue] reply].
  assert (E : kb_parked (with_queue (with_park (w_bus w) (lane_slot lane) None None) queue) = <[lane_slot lane := None]> [fast; slow])
    by (cbn; by rewrite E1).
  destruct ok; cbn [w_bus answer emit on_bus]; rewrite E; by destruct (lane_slot_cases lane) as [-> | ->].
Qed.

(** The timer that fired is the park's, so that firing is releasing. *)
Lemma idle_fired_release w lane now_ms :
  parks_ok (w_bus w) -> nth (lane_slot lane) (kb_idle_source (w_bus w)) None <> None ->
  idle_fired w lane now_ms = release_park w lane now_ms.
Proof.
  intros (fast & slow & E1 & E2) Ht. unfold idle_fired, release_park. cbn [w_bus on_bus kb_parked with_park]. rewrite E1, E2 in *.
  destruct (lane_slot_cases lane) as [Es|Es]; rewrite Es in *; cbn [nth insert list_insert] in *.
  - destruct fast as [invocation|]; [|done]. unfold on_bus. cbn [w_bus]. unfold with_park. cbn [kb_queue kb_parked kb_idle_source insert list_insert
      kb_peer kb_uid kb_authority_source kb_relay kb_relay_source kb_compositor_source kb_loop kb_inflight].
    by rewrite E1, E2.
  - destruct slow as [invocation|]; [|done]. unfold on_bus. cbn [w_bus]. unfold with_park. cbn [kb_queue kb_parked kb_idle_source insert list_insert
      kb_peer kb_uid kb_authority_source kb_relay kb_relay_source kb_compositor_source kb_loop kb_inflight].
    by rewrite E1, E2.
Qed.
End callbacks.

(** ** The table *)

Lemma table_entry b i entry :
  table_ok b -> kb_inflight b !! i = Some entry -> if_active entry = true ->
  exists j job, find_slot (named (if_sequence entry)) (q_jobs (kb_queue b)) = Some (j, job) /\
    q_jobs (kb_queue b) !! j = Some job /\ named (if_sequence entry) job = true /\ job_opcode job = if_opcode entry.
Proof.
  intros (Hq & _ & _ & _ & Hp) Hi Ha.
  assert (Hin : In (if_sequence entry, if_opcode entry) (concat (map entry_key (kb_inflight b)))).
  { apply in_concat. exists (entry_key entry). split; [apply in_map, list_elem_of_In, list_elem_of_lookup; eauto|].
    unfold entry_key. rewrite Ha. by left. }
  rewrite Hp in Hin. apply in_concat in Hin as (keys & Hkeys & Hkey). apply in_map_iff in Hkeys as (job & <- & Hjob).
  unfold job_key in Hkey. destruct (live job) eqn:Hlive; [|done]. destruct Hkey as [[= Es Eo]|[]].
  apply list_elem_of_In, list_elem_of_lookup in Hjob as (j & Hj).
  assert (Hn : named (if_sequence entry) job = true) by (by apply named_iff).
  exists j, job. split; [|done]. apply find_slot_unique; [done..|].
  intros k y Hk Hy. apply named_iff in Hy as [Hly Esy]. destruct Hq as (_ & _ & _ & Hu & _). eapply Hu; [exact Hk|exact Hj|done|done|congruence].
Qed.

(** An entry goes with its job. *)
Definition clear_entry (entry : inflight) : inflight := mk_inflight false (if_request_id entry) (if_opcode entry) (if_sequence entry).

Lemma clear_table b i entry :
  table_ok b -> kb_inflight b !! i = Some entry -> if_active entry = true ->
  table_ok (with_inflight (with_queue b (ksd_kwin_queue_release (kb_queue b) (if_sequence entry)))
              (<[i := clear_entry entry]> (kb_inflight b))) /\
  pending b ≡ₚ concat (map entry_requests (<[i := clear_entry entry]> (kb_inflight b))) ++ [if_request_id entry].
Proof.
  intros Ht Hi Ha. destruct (table_entry b i entry Ht Hi Ha) as (j & job & Hf & Hj & Hn & Ho). destruct Ht as (Hq & Hg & Hl & Hid & Hp).
  apply named_iff in Hn as [Hlive Hs]. pose proof (release_keeps (kb_queue b) (if_sequence entry) Hq) as (Hw & _).
  unfold ksd_kwin_queue_release in *. rewrite Hf in *. split.
  - split; [done|]. cbn [kb_queue kb_inflight with_inflight with_queue q_jobs with_jobs]. split; [by apply Forall_insert|].
    split; [by unfold zlen in *; rewrite length_insert|].
    split; [apply Forall_insert; [done|]; by apply (Forall_lookup_1 _ _ _ _ Hid Hi)|].
    pose proof (concat_map_insert entry_key _ _ _ (clear_entry entry) Hi) as H1.
    pose proof (concat_map_insert job_key _ _ _ free_job Hj) as H2.
    unfold entry_key at 2 4 in H1. cbn [if_active clear_entry] in H1. rewrite Ha, app_nil_r in H1.
    unfold job_key at 2 4 in H2. change (live free_job) with false in H2. rewrite Hlive, app_nil_r, Hs, Ho in H2.
    unfold job_keys. cbn [q_jobs with_jobs]. apply (Permutation_app_inv_r [(if_sequence entry, if_opcode entry)]).
    rewrite H1. change (release_slot job) with free_job. by rewrite H2.
  - pose proof (concat_map_insert entry_requests _ _ _ (clear_entry entry) Hi) as H1.
    unfold entry_requests at 2 4 in H1. cbn [if_active clear_entry] in H1. rewrite Ha, app_nil_r in H1. by symmetry.
Qed.

Section drain.
Context {AL : Allocator}.

Lemma release_counters q sq : counters (ksd_kwin_queue_release q sq) = counters q.
Proof. unfold ksd_kwin_queue_release. by destruct (find_slot _ _) as [[i job]|]. Qed.

Lemma drain_entry_moves w i w' :
  bus_ok (w_bus w) -> drain_entry w i = Some w' ->
  moves 0 w w' [] [] /\ kb_parked (w_bus w') = kb_parked (w_bus w).
Proof.
  intros Hok. unfold drain_entry. set (entry := nth i (kb_inflight (w_bus w)) no_request).
  destruct (if_active entry) eqn:Ha; cbn [negb]; [|intros [= <-]; split; [by apply moves_refl|done]].
  destruct (ksd_kwin_queue_result _ _) as [[[status reply] n]|] eqn:Er; [|intros [= <-]; split; [by apply moves_refl|done]].
  assert (Hi : kb_inflight (w_bus w) !! i = Some entry).
  { unfold entry. destruct (Nat.lt_ge_cases i (length (kb_inflight (w_bus w)))) as [Hlt|Hge].
    - destruct (lookup_lt_is_Some_2 _ _ Hlt) as [x Hx]. by rewrite (nth_lookup_Some _ _ _ _ Hx).
    - unfold entry in Ha. by rewrite nth_overflow in Ha. }
  pose proof Hok as (Hpk & Ht). destruct (table_entry _ i entry Ht Hi Ha) as (j & job & Hf & Hj & Hn & _).
  unfold ksd_kwin_queue_result, ksd_kwin_queue_find in Er. rewrite Hf in Er. case_if; [|done]. injection Er as <- <- <-.
  unfold is_state in Heqb. apply bool_decide_eq_true in Heqb. apply named_iff in Hn as [Hlive _].
  pose proof Ht as (_ & Hg & _ & Hid & _).
  destruct (Forall_lookup_1 _ _ _ _ Hg Hj Hlive) as (_ & _ & Hr). destruct (Hr Heqb) as (r & -> & ->).
  destruct (relay_answer _ _ _ _ _ _) as [w1|] eqn:Ea; [|done]. intros [= <-].
  apply relay_answer_moves in Ea as (Hm & Hb); [|by apply (Forall_lookup_1 _ _ _ _ Hid Hi)|done].
  assert (Ht1 : table_ok (w_bus w1)) by apply Hm. assert (Hp1 : parks_ok (w_bus w1)) by apply Hm.
  assert (Hi1 : kb_inflight (w_bus w1) !! i = Some entry) by (by destruct Hb as [-> | ->]).
  destruct (clear_table _ i entry Ht1 Hi1 Ha) as [Ht2 Hpend]. destruct Hm as [_ Hc Hrq Hs Htk].
  split; [|by destruct Hb as [-> | ->]]. pose proof (release_counters (kb_queue (w_bus w1)) (if_sequence entry)) as Hcnt. unfold counters in Hcnt.
  split; cbn [w_bus on_bus w_out kb_inflight kb_queue with_inflight with_queue]; [done|exact Hc| | |].
  - destruct Hrq as (lost & Hrq & Hsh). exists lost. split; [|exact Hsh]. cbn [w_bus w_out on_bus].
    rewrite app_nil_r. unfold pending at 1. cbn [kb_inflight with_inflight].
    apply (Permutation_app_inv_r [if_request_id entry]). rewrite Hpend in Hrq. rewrite !app_assoc in *. rewrite <- Hrq.
    rewrite <- !app_assoc. apply Permutation_app_head, Permutation_app_head, Permutation_app_comm.
  - injection Hcnt as -> _. exact Hs.
  - injection Hcnt as _ ->. exact Htk.
Qed.

Lemma drain_from_moves indices : forall w w',
  bus_ok (w_bus w) -> drain_from indices w = Some w' ->
  moves 0 w w' [] [] /\ kb_parked (w_bus w') = kb_parked (w_bus w).
Proof.
  induction indices as [|i indices IH]; intros w w' Hok; cbn [drain_from]; [intros [= <-]; split; [by apply moves_refl|done]|].
  destruct (drain_entry w i) as [w1|] eqn:E; [|done]. apply drain_entry_moves in E as [Hm Ep]; [|done].
  intros H. apply IH in H as [Hm' Ep']; [|apply Hm]. split; [|congruence].
  by apply (moves_trans 0 0 w w1 w' [] [] [] []).
Qed.
End drain.

(** ** Every callback *)

Lemma moves_weaken {AL : Allocator} n m w w' c r : n <= m -> moves n w w' c r -> moves m w w' c r.
Proof. intros Hn [Hok Hc Hr Hs Ht]. split; (done || lia). Qed.

(** Nothing that is counted changes. *)
Definition same_counted (a b : ksd_kwin_bus) : Prop :=
  kb_queue a = kb_queue b /\ kb_parked a = kb_parked b /\ kb_idle_source a = kb_idle_source b /\ kb_inflight a = kb_inflight b.
Lemma moves_same {AL : Allocator} w bus : bus_ok (w_bus w) -> same_counted bus (w_bus w) -> moves 0 w (on_bus w bus) [] [].
Proof.
  intros (Hp & Ht) (E1 & E2 & E3 & E4). split; cbn [w_bus w_out on_bus].
  - split; [destruct Hp as (fast & slow & H); exists fast, slow; by rewrite E2, E3|]. unfold table_ok in *. by rewrite E1, E4.
  - rewrite app_nil_r. unfold parked_calls. by rewrite E2.
  - apply settles_exactly; [|done]. cbn [w_bus w_out on_bus]. rewrite app_nil_r. unfold pending. by rewrite E4.
  - rewrite E1. lia.
  - rewrite E1. lia.
Qed.

Lemma free_entry b i entry :
  find_index (fun entry => negb (if_active entry)) (kb_inflight b) = Some i -> kb_inflight b !! i = Some entry -> if_active entry = false.
Proof. intros H Hi. apply find_index_some in H as (x & Hx & Ha). apply negb_true_iff in Ha. congruence. Qed.

(** A fresh job and its entry. *)
Lemma enter_table b i entry q' j job request_id opcode sequence :
  table_ok b -> kb_inflight b !! i = Some entry -> if_active entry = false -> is_u64 request_id ->
  queue_wf q' -> q_jobs (kb_queue b) !! j = Some free_job -> q_jobs q' = <[j := job]> (q_jobs (kb_queue b)) ->
  named sequence job = true -> job_opcode job = opcode -> job_good job ->
  let bus := with_inflight (with_queue b q') (<[i := mk_inflight true request_id opcode sequence]> (kb_inflight b)) in
  table_ok bus /\ pending bus ≡ₚ pending b ++ [request_id].
Proof.
  intros (Hq & Hg & Hl & Hid & Hp) Hi Ha Hrid Hw Hj Ejobs Hn Ho Hgood. apply named_iff in Hn as [Hlive Hs]. cbv zeta.
  set (new := mk_inflight true request_id opcode sequence). split.
  - split; [done|]. cbn [kb_queue kb_inflight with_inflight with_queue]. rewrite Ejobs. split; [by apply Forall_insert|].
    split; [by unfold zlen in *; rewrite length_insert|]. split; [by apply Forall_insert|].
    pose proof (concat_map_insert entry_key _ _ _ new Hi) as H1. pose proof (concat_map_insert job_key _ _ _ job Hj) as H2.
    unfold entry_key at 2 4 in H1. rewrite Ha in H1. cbn [if_active new if_sequence if_opcode] in H1. rewrite app_nil_r in H1.
    unfold job_key at 2 4 in H2. change (live free_job) with false in H2. rewrite Hlive, app_nil_r, Hs, Ho in H2.
    unfold job_keys in *. rewrite Ejobs, H1, H2. by rewrite Hp.
  - pose proof (concat_map_insert entry_requests _ _ _ new Hi) as H1.
    unfold entry_requests at 2 4 in H1. rewrite Ha, app_nil_r in H1. exact H1.
Qed.

Lemma request_text_good opcode p t :
  ksd_kwin_request_text opcode (body_pointer p) (zlen p) text_capacity = Some t ->
  avoids 0 t /\ zlen t < text_capacity /\ ksd_kwin_lane_for opcode <> KSD_KWIN_LANE_NONE /\ is_u16 opcode.
Proof.
  intros H. split; [|split; [|]].
  - apply request_text_sound in H as (r & Hr & _ & ->).
    assert (Hu : forall v, is_u64 v -> avoids 0 (unsigned_text v)) by (intros v Hv; apply digits_avoid; [lia|by apply unsigned_digits]).
    assert (Hb : avoids 0 blank) by (repeat constructor; done).
    assert (Hlim : forall limit, value_limit opcode = Some limit -> limit <= 255)
      by (intros limit; unfold value_limit; repeat case_if; intros [= <-]; lia).
    destruct r as [|hidden|handle|handle x y width height|handle value]; cbn [asks request_words] in *;
      unfold is_handle, is_u64, is_u32 in *; rewrite ?avoids_app.
    + constructor.
    + apply Hu. lia.
    + apply Hu. lia.
    + destruct Hr as (_ & Hh & Hx & Hy & Hw & Hhh).
      repeat (split; [first [exact Hb|apply Hu; lia|by apply signed_shape]|]). apply Hu. lia.
    + destruct Hr as (limit & El & Hh & Hv). apply Hlim in El. repeat (split; [first [exact Hb|apply Hu; lia]|]). apply Hu. lia.
  - revert H. unfold ksd_kwin_request_text. change (negb (text_capacity =? 0)) with true. cbv iota.
    assert (Hp : forall u, printed text_capacity u = Some t -> zlen t < text_capacity).
    { intros u. unfold printed. case_if; [|done]. intros [= <-]. by apply Z.ltb_lt. }
    case_if; [case_if; [|done]; intros [= <-]; done|]. destruct (body_pointer p) as [q|]; [|done].
    repeat (case_if; [case_if; [|done]; apply Hp|]). case_if; [|done]. case_if; [|done].
    destruct (_ <? ksd_decode_u32 (zdrop 8 q)); [done|apply Hp].
  - apply request_text_sound in H as (r & Hr & _ & _).
    destruct r; cbn [asks] in Hr.
    + which_opcode Hr.
    + by destruct Hr as (-> & _).
    + destruct Hr as (Hr & _). which_opcode Hr.
    + by destruct Hr as (-> & _).
    + destruct Hr as (limit & El & _). unfold value_limit in El. repeat case_if; breflect; subst; try done.
      apply any_of_in in Heqb1. which_opcode Heqb1.
Qed.

Section every.
Context {AL : Allocator}.

Lemma conclude_call_moves w invocation ok reply : bus_ok (w_bus w) -> moves 0 w (conclude_call w invocation ok reply) [invocation] [].
Proof. intros Hok. destruct ok; by apply moves_emit. Qed.

Lemma queue_moves R w q' :
  bus_ok (w_bus w) -> keeps R (kb_queue (w_bus w)) q' -> (forall x y, R x y -> job_key x = job_key y) ->
  Forall job_good (q_jobs q') -> counters q' = counters (kb_queue (w_bus w)) ->
  moves 0 w (on_bus w (with_queue (w_bus w) q')) [] [].
Proof.
  intros (Hp & Ht) Hk HR Hg Hc. apply (moves_queue _ _ q'); try done; [by apply (table_queue R)|by rewrite app_nil_r].
Qed.

Lemma handle_report_moves w envelope invocation w' :
  bus_ok (w_bus w) -> handle_report w envelope invocation = Some w' -> moves 0 w w' [invocation] [].
Proof.
  intros Hok. unfold handle_report. pose proof (proj1 (proj2 Hok)) as Hq.
  pose proof (report_keeps (kb_queue (w_bus w)) envelope (ksd_buffer_init reply_maximum) Hq) as Hk.
  pose proof (report_good (kb_queue (w_bus w)) envelope (ksd_buffer_init reply_maximum) Hq (proj1 (proj2 (proj2 Hok)))) as Hg.
  pose proof (step_counters (ksd_buffer_init reply_maximum) (kb_queue (w_bus w)) (QueueReport envelope)) as Hc. cbn [queue_step] in Hc.
  destruct (ksd_kwin_queue_report _ _ _) as [[ok queue] reply]. cbn [fst snd] in *.
  pose proof (queue_moves _ w queue Hok Hk (reported_key _ _) Hg Hc) as Hm.
  set (w1 := on_bus w (with_queue (w_bus w) queue)) in *.
  assert (Hd : forall w2, (if ok then relay_drain w1 else Some w1) = Some w2 -> moves 0 w w2 [] []).
  { intros w2. destruct ok; [|intros [= <-]; done]. intros H. apply drain_from_moves in H as [Hm' _]; [|apply Hm].
    by apply (moves_trans 0 0 w w1 w2 [] [] [] []). }
  destruct (if ok then relay_drain w1 else Some w1) as [w2|]; [|done]. intros [= <-]. specialize (Hd w2 eq_refl).
  apply (moves_trans 0 0 w w2 _ [] [invocation] [] []); [done|]. apply conclude_call_moves, Hd.
Qed.

Lemma park_moves w lane invocation :
  bus_ok (w_bus w) -> nth (lane_slot lane) (kb_parked (w_bus w)) None = None ->
  moves 0 w (on_bus w (with_park (w_bus w) (lane_slot lane) (Some invocation) (Some (idle_period (lane_slot lane))))) [invocation] [].
Proof.
  intros (Hp & Ht) Hn. destruct (park_slot (w_bus w) (lane_slot lane) (Some invocation) Hp (lane_slot_cases lane)) as [Hp' Hperm].
  cbn [timer_of option_map] in *. rewrite Hn in Hperm. cbn [option_refs] in Hperm. rewrite app_nil_r in Hperm.
  apply (moves_queue _ _ (kb_queue (w_bus w))); try done. cbn [w_bus w_out on_bus]. by rewrite Hperm, app_assoc.
Qed.

Lemma handle_poll_moves w envelope invocation now_ms later_ms :
  bus_ok (w_bus w) -> moves 0 w (handle_poll w envelope invocation now_ms later_ms) [invocation] [].
Proof.
  intros Hok. unfold handle_poll. pose proof (proj1 (proj2 Hok)) as Hq.
  pose proof (poll_keeps (kb_queue (w_bus w)) envelope now_ms (ksd_buffer_init reply_maximum) Hq) as Hk.
  pose proof (step_counters (ksd_buffer_init reply_maximum) (kb_queue (w_bus w)) (QueuePoll envelope now_ms)) as Hc. cbn [queue_step] in Hc.
  destruct (ksd_kwin_queue_poll _ _ _ _) as [[outcome queue] reply]. cbn [fst snd] in *.
  assert (Hm : moves 0 w (on_bus w (with_queue (w_bus w) queue)) [] []).
  { eapply queue_moves; [done|exact Hk|by intros a b (p & _ & _ & Hd); eapply dispatches_key| |done].
    eapply good_kept; [exact Hk|by intros a b (p & _ & _ & Hd); eapply dispatches_good|apply Hok]. }
  set (w1 := on_bus w (with_queue (w_bus w) queue)) in *.
  assert (Hend : forall ok, moves 0 w (conclude_call w1 invocation ok reply) [invocation] []).
  { intros ok. apply (moves_trans 0 0 w w1 _ [] [invocation] [] []); [done|]. apply conclude_call_moves, Hm. }
  destruct outcome; [apply (Hend true)| |destruct (ksd_kwin_parse_poll envelope); apply (Hend false)].
  destruct (ksd_kwin_parse_poll envelope) as [poll|]; [|apply (Hend false)].
  assert (Hok1 : bus_ok (w_bus w1)) by apply Hm.
  set (w2 := match nth (lane_slot (poll_lane poll)) (kb_parked (w_bus w1)) None with None => w1 | Some _ => _ end).
  assert (H2 : moves 0 w1 w2 [] [] /\ nth (lane_slot (poll_lane poll)) (kb_parked (w_bus w2)) None = None).
  { unfold w2. destruct (nth _ (kb_parked (w_bus w1)) None) eqn:E; [|split; [by apply moves_refl|done]].
    split; [by apply release_park_moves|apply release_park_unparks, Hok1]. }
  destruct H2 as [H2 Hn]. apply (moves_trans 0 0 w w1 _ [] [invocation] [] []); [done|].
  apply (moves_trans 0 0 w1 w2 _ [] [invocation] [] []); [done|]. apply park_moves; [apply H2|done].
Qed.

Lemma handle_call_moves w sender method generation envelope invocation now_ms later_ms w' :
  bus_ok (w_bus w) -> handle_call w sender method generation envelope invocation now_ms later_ms = Some w' ->
  moves 0 w w' [invocation] [].
Proof.
  intros Hok. unfold handle_call. case_if; [intros [= <-]; by apply moves_emit|].
  destruct (ksd_kwin_queue_hello _ _) as [ok reply].
  case_if; [intros [= <-]; apply (conclude_call_moves w invocation ok reply); done|]. case_if; [by apply handle_report_moves|].
  case_if; [intros [= <-]; apply (conclude_call_moves w invocation ok reply); done|]. case_if; [intros [= <-]; by apply handle_poll_moves|].
  intros [= <-]. apply (conclude_call_moves w invocation false (ksd_buffer_init reply_maximum) Hok).
Qed.


Lemma relay_take_moves w request_id opcode body now_ms later_ms w' :
  is_u64 request_id -> bus_ok (w_bus w) ->
  q_next_sequence (kb_queue (w_bus w)) + 1 < 2 ^ 64 -> q_next_ticket (kb_queue (w_bus w)) + 1 < 2 ^ 64 ->
  relay_take w request_id opcode body now_ms later_ms = Some w' -> moves 1 w w' [] [request_id].
Proof.
  intros Hid Hok Hs Ht. unfold relay_take. destruct (ksd_kwin_request_text _ _ _ _) as [text|] eqn:Et.
  2:{ intros H. apply (relay_answer_moves w _ _ _ [] _ Hid Hok) in H as [H _]. eapply moves_weaken; [|done]; lia. }
  apply request_text_good in Et as (Ha & Hl & _ & _).
  destruct (find_index _ _) as [i|] eqn:Ei.
  2:{ intros H. apply (relay_answer_moves w _ _ _ [] _ Hid Hok) in H as [H _]. eapply moves_weaken; [|done]; lia. }
  pose proof Hok as (Hp & Htab). pose proof Htab as (Hq & Hg & _).
  pose proof (submit_spec (kb_queue (w_bus w)) opcode (Some text) (zlen text) now_ms Hq Hs Ht eq_refl) as H.
  destruct (ksd_kwin_queue_submit _ _ _ _ _) as [[sequence|] queue]; destruct H as (Hk & Hjob & Hcs & Hct).
  - destruct Hjob as (_ & _ & j & job & Hj & Ejobs & Hn & Hst & Ho & _ & _ & Hb). intros [= <-].
    apply find_index_some in Ei as (entry & Hi & Hact). apply negb_true_iff in Hact.
    assert (Hgood : job_good job). { intros _. rewrite Hb. split; [done|]. split; [done|]. congruence. }
    destruct (enter_table (w_bus w) i entry queue j job request_id opcode sequence Htab Hi Hact Hid (proj1 Hk) Hj Ejobs Hn Ho Hgood)
      as [Htab' Hpend].
    set (bus := with_inflight _ _) in *. cbn [w_bus on_bus] in *.
    assert (Hm : moves 1 w (on_bus w bus) [] [request_id]).
    { split; cbn [w_bus w_out on_bus]; [done|by rewrite app_nil_r|apply settles_exactly; [by cbn [w_bus w_out on_bus]; rewrite Hpend|done]|apply Hcs|apply Hct]. }
    apply (moves_trans 1 0 w (on_bus w bus) _ [] [] [request_id] []); [exact Hm|]. apply release_park_moves, Hm.
  - intros H. assert (Hm : moves 1 w (on_bus w (with_queue (w_bus w) queue)) [] []).
    { split; cbn [w_bus w_out on_bus]; [split; [done|]|by rewrite app_nil_r|apply settles_exactly; [by rewrite app_nil_r|done]|apply Hcs|apply Hct].
      split; [apply Hk|]. cbn [kb_queue with_queue kb_inflight]. unfold job_keys. rewrite Hjob. apply Htab. }
    apply (relay_answer_moves _ _ _ _ [] _ Hid) in H as [H _]; [|apply Hm].
    by apply (moves_trans 1 0 w _ _ [] [] [] [request_id] Hm).
Qed.
End every.

(** ** The loop *)

Definition arrival_ok (arrival : relay_arrival) : Prop :=
  match arrival with ArrivalLost => True | ArrivalRequest request_id _ _ => is_u64 request_id end.
Definition bus_event_ok (e : bus_event) : Prop := match e with RelayReadable arrival _ _ => arrival_ok arrival | _ => True end.
Definition event_calls (e : bus_event) : list Z := match e with ScriptCalls _ _ _ _ invocation _ _ => [invocation] | _ => [] end.
Definition event_requests (e : bus_event) : list Z :=
  match e with RelayReadable (ArrivalRequest request_id _ _) _ _ => [request_id] | _ => [] end.

(** What is read from the relay is such an arrival. *)
Lemma relay_receive_ok hangup start turns stream arrival left :
  relay_receive hangup start turns stream = Some (arrival, left) -> arrival_ok arrival.
Proof.
  unfold relay_receive. case_if; [by intros [= <- _]|].
  destruct (transfer_recv _ _ _ _ _) as [[[got stream'] turns']|] eqn:E; [|done].
  destruct got as [header| | |]; try (by intros [= <- _]).
  assert (Hid : is_u64 (ksd_decode_u64 (zdrop KSD_FRAME_REQUEST_ID_OFFSET header))).
  { apply transfer_recv_done in E as (_ & _ & Hl); [|vm_compute; discriminate].
    apply field_u64. rewrite zlen_zdrop by (unfold KSD_FRAME_HEADER_SIZE, KSD_FRAME_REQUEST_ID_OFFSET in *; lia).
    unfold KSD_FRAME_HEADER_SIZE, KSD_FRAME_REQUEST_ID_OFFSET in *. lia. }
  clear E. case_if; [by intros [= <- _]|]. case_if; [by intros [= <- _]|].
  destruct (transfer_recv _ _ _ _ _) as [[[got stream''] turns'']|]; [|done]. destruct got; by intros [= <- _].
Qed.

(** The service as it starts, over an empty queue. *)
Lemma start_ok generation q relay uid peer node b0 b :
  ksd_kwin_queue_init generation = Some q -> ksd_kwin_bus_start (Some q) relay uid peer node = Some b0 ->
  ksd_kwin_bus_run (Some b0) = inr b ->
  bus_ok b /\ parked_calls b = [] /\ pending b = [] /\ counters (kb_queue b) = (1, 1) /\ q_jobs (kb_queue b) = repeat free_job (Z.to_nat KSD_KWIN_MAX_JOBS).
Proof.
  intros Hq. pose proof (init_wf _ _ Hq) as Hw.
  assert (Hf : q_jobs q = repeat free_job (Z.to_nat KSD_KWIN_MAX_JOBS) /\ counters q = (1, 1)).
  { unfold ksd_kwin_queue_init in Hq. destruct (valid_generation generation); [|done]. apply (inj Some) in Hq. by subst. }
  clear Hq. destruct Hf as [Hjobs Hc]. unfold ksd_kwin_bus_start. destruct peer as [peer|]; [|done]. destruct node; [|done].
  intros Hb0%(inj Some) Hb%(inj inr). subst b0 b. cbn [kb_queue with_sources].
  split; [|split; [done|split; [by vm_compute|done]]].
  split; [by exists None, None|]. split; [exact Hw|]. cbn [kb_queue kb_inflight with_sources].
  split; [rewrite Hjobs; apply List.Forall_forall; intros job Hjob%repeat_spec; by subst|].
  split; [by vm_compute|]. split; [|unfold job_keys; rewrite Hjobs; by vm_compute].
  apply List.Forall_forall. intros entry He%repeat_spec. by subst.
Qed.

Section loop.
Context {AL : Allocator}.

Lemma bus_step_moves w e w' :
  bus_event_ok e -> bus_ok (w_bus w) ->
  q_next_sequence (kb_queue (w_bus w)) + 1 < 2 ^ 64 -> q_next_ticket (kb_queue (w_bus w)) + 1 < 2 ^ 64 ->
  bus_step w e = Some w' -> moves 1 w w' (event_calls e) (event_requests e).
Proof.
  intros He Hok Hs Ht. destruct e as [sender method generation envelope invocation now_ms later_ms|lane now_ms|arrival now_ms later_ms| |owner|];
    cbn [bus_step event_calls event_requests].
  - intros H. apply handle_call_moves in H; [|done..]. eapply moves_weaken; [|exact H]. lia.
  - destruct (nth _ (kb_idle_source _) None) eqn:E; [|done]. intros [= <-].
    rewrite idle_fired_release; [|apply Hok|congruence]. eapply moves_weaken; [|by apply release_park_moves]. lia.
  - case_if; [|done]. destruct arrival as [|request_id opcode body]; cbn [relay_readable].
    + intros [= <-]. eapply moves_weaken; [|apply (moves_trans 0 0 w (relay_failed w) _ [] [] [] []); [by apply moves_lost|]]; [lia|].
      apply moves_same; [apply (moves_lost w Hok)|done].
    + by apply relay_take_moves.
  - case_if; [|done]. intros [= <-]. eapply moves_weaken; [|by apply moves_same]. lia.
  - case_if; [|done]. intros [= <-]. unfold compositor_current. case_if.
    + eapply moves_weaken; [|by apply moves_refl]. lia.
    + eapply moves_weaken; [|by apply moves_same]. lia.
  - intros [= <-]. eapply moves_weaken; [|by apply moves_same]. lia.
Qed.

Lemma bus_loop_moves events : forall w w',
  Forall bus_event_ok events -> bus_ok (w_bus w) ->
  q_next_sequence (kb_queue (w_bus w)) + zlen events < 2 ^ 64 -> q_next_ticket (kb_queue (w_bus w)) + zlen events < 2 ^ 64 ->
  bus_loop w events = Some w' -> moves (zlen events) w w' (concat (map event_calls events)) (concat (map event_requests events)).
Proof.
  induction events as [|e events IH]; intros w w' He Hok Hs Ht; cbn [bus_loop]; [intros [= <-]; by apply moves_refl|].
  rewrite zlen_cons in *. pose proof (zlen_nonneg events). apply list.Forall_cons_1 in He as [He Hes].
  destruct (bus_step w e) as [w1|] eqn:E; [|done]. apply bus_step_moves in E; [|done|done|lia|lia]. intros H1.
  destruct E as [Hok1 Hc1 Hr1 Hs1 Ht1].
  apply IH in H1; [|done|done|lia|lia]. eapply (moves_trans 1); [by constructor|exact H1].
Qed.

(** What stopping says. *)
Lemma stop_concludes w : parks_ok (w_bus w) -> concluded (ksd_kwin_bus_stop w) = concluded (w_out w) ++ parked_calls (w_bus w).
Proof.
  intros (fast & slow & E & _). unfold ksd_kwin_bus_stop. change (seq 0 (Z.to_nat KSD_KWIN_LANES)) with [0; 1]%nat. cbn [fold_left].
  unfold stop_slot. rewrite E. cbn [nth]. unfold parked_calls. rewrite E. cbn [map concat].
  destruct fast as [fast|], slow as [slow|]; cbn [w_bus emit w_out option_refs app]; rewrite E; cbn [nth w_out emit];
    rewrite ?concluded_snoc; cbn [effect_calls option_refs app]; rewrite ?app_nil_r, <- ?app_assoc; done.
Qed.

(** C10: Every call of the script is answered once.  From the start of the service over
    a new queue, whatever the script, the authority, the timers and the compositor do,
    and in whatever order, each D-Bus invocation that arrived has been answered exactly
    once, with a reply or an error, or is parked; a parked one is alone in its lane and
    has the lane's timer running, which will answer it; and when the service stops
    what was parked is answered too, so that every invocation has had exactly one
    answer. *)
Theorem kwin_calls_answered_once generation q relay uid peer node b0 b sends events w' :
  ksd_kwin_queue_init generation = Some q -> ksd_kwin_bus_start (Some q) relay uid peer node = Some b0 ->
  ksd_kwin_bus_run (Some b0) = inr b -> Forall bus_event_ok events -> zlen events < 2 ^ 64 - 1 ->
  bus_loop (mk_world b sends []) events = Some w' ->
  concluded (w_out w') ++ parked_calls (w_bus w') ≡ₚ concat (map event_calls events) /\
  parks_ok (w_bus w') /\
  concluded (ksd_kwin_bus_stop w') ≡ₚ concat (map event_calls events).
Proof.
  intros Hq Hb0 Hb He Hn H. destruct (start_ok _ _ _ _ _ _ _ _ Hq Hb0 Hb) as (Hok & Hp & _ & Hc & _). injection Hc as Hs Ht.
  apply bus_loop_moves in H as [Hok' Hcalls _ _ _]; [|done|done|cbn [w_bus]; lia|cbn [w_bus]; lia].
  cbn [w_out w_bus] in Hcalls. rewrite Hp in Hcalls. split; [exact Hcalls|]. split; [apply Hok'|].
  rewrite stop_concludes by apply Hok'. exact Hcalls.
Qed.

(** C9: Every request of the authority is answered once, or its job is alive.  From the
    start of the service, whatever happens and in whatever order, with memory and the
    sends failing at any point, each request read from the relay has been answered
    exactly once, by a whole frame whose header carries the request's own id, or waits in
    the table, or was lost; and it is lost only with an end of the relay's socket of its
    own, or when an allocation of the size of an answer failed.  The table is at every
    moment the live jobs of the queue, one entry for each under the sequence and the
    operation of its job: no job runs for nobody, no entry waits for a job that is gone,
    and no slot of either leaks. *)
Theorem kwin_requests_answered_once generation q relay uid peer node b0 b sends events w' :
  ksd_kwin_queue_init generation = Some q -> ksd_kwin_bus_start (Some q) relay uid peer node = Some b0 ->
  ksd_kwin_bus_run (Some b0) = inr b -> Forall bus_event_ok events -> zlen events < 2 ^ 64 - 1 ->
  bus_loop (mk_world b sends []) events = Some w' ->
  (exists lost, replied (w_out w') ++ pending (w_bus w') ++ lost ≡ₚ concat (map event_requests events) /\
     ((length lost <= shutdowns (w_out w'))%nat \/ out_of_memory answer_maximum)) /\
  concat (map entry_key (kb_inflight (w_bus w'))) ≡ₚ job_keys (kb_queue (w_bus w')) /\
  queue_wf (kb_queue (w_bus w')).
Proof.
  intros Hq Hb0 Hb He Hn H. destruct (start_ok _ _ _ _ _ _ _ _ Hq Hb0 Hb) as (Hok & _ & Hp & Hc & _). injection Hc as Hs Ht.
  apply bus_loop_moves in H as [Hok' _ (lost & Hreq & _ & Hl) _ _]; [|done|done|cbn [w_bus]; lia|cbn [w_bus]; lia].
  cbn [w_out w_bus] in *. rewrite Hp in Hreq. split; [|split; apply Hok'].
  exists lost. split; [exact Hreq|]. destruct Hl as [Hl|Hl]; [left; cbn in Hl; lia|by right].
Qed.
End loop.

(** ** A concrete session *)

Section samples.
#[local] Existing Instance infinite_memory.

Lemma memory_total : AllocTotal infinite_memory.
Proof. by intros n. Qed.

Definition script_name : list byte := cstr ":1.5".
Definition idle_bus : ksd_kwin_bus :=
  mk_bus sample_queue script_name 1000 [None; None] [None; None] true 9 true true (Some false)
    (repeat no_request (Z.to_nat KSD_KWIN_MAX_JOBS)).
(** Sockets that take what they are given. *)
Definition open_sends : list (Z * list io_turn) := repeat (0, [mk_turn [mk_wait 1 (PollReady POLLOUT)] (IoBytes 4096)]) 4.
Definition idle_world : world := mk_world idle_bus open_sends [].
Definition script_calls (method : string) (envelope : list byte) (invocation : Z) : bus_event :=
  ScriptCalls (Some script_name) (cstr method) sample_generation envelope invocation 100 100.
Definition sample_report : list byte :=
  report_text (mk_report sample_generation [mk_done (format_sequence 1) 0 (point_text (-3) 40) (zlen (point_text (-3) 40))]).
Definition listening_events : list bus_event :=
  [ScriptCalls (Some script_name) (cstr "Hello") [] [] 1 100 100; script_calls "Poll" sample_poll 2].
Definition listening_world : world := default idle_world (bus_loop idle_world listening_events).
Definition session_events : list bus_event :=
  listening_events ++
  [RelayReadable (ArrivalRequest 77 KSD_OP_CURSOR_POSITION []) 100 110; script_calls "Poll" sample_poll 3;
   script_calls "Report" sample_report 4; IdleFires KSD_KWIN_LANE_FAST 9000;
   RelayReadable (ArrivalRequest 78 KSD_OP_WINDOW_CLOSE (ksd_encode_u64 5)) 9100 9100; ScriptCalls None (cstr "Poll") [] [] 5 0 0;
   AuthorityReadable].
Definition session_end : world := default idle_world (bus_loop idle_world session_events).

Lemma session_runs : bus_loop idle_world session_events = Some session_end.
Proof. vm_compute. reflexivity. Qed.
Lemma listening_runs : bus_loop idle_world listening_events = Some listening_world.
Proof. vm_compute. reflexivity. Qed.
Lemma session_ok : Forall bus_event_ok session_events.
Proof. repeat constructor; vm_compute; (discriminate || reflexivity). Qed.
Lemma session_start : ksd_kwin_queue_init sample_generation = Some sample_queue /\
  ksd_kwin_bus_start (Some sample_queue) 9 1000 (Some script_name) true = Some (with_sources idle_bus false false false None) /\
  ksd_kwin_bus_run (Some (with_sources idle_bus false false false None)) = inr idle_bus.
Proof. vm_compute. done. Qed.

(** What the session said: the cursor's position reaches the authority. *)
Example session_answers :
  replied (w_out session_end) = [77] /\ pending (w_bus session_end) = [78] /\
  concluded (w_out session_end) = [1; 2; 4; 3; 5] /\ parked_calls (w_bus session_end) = [] /\ kb_loop (w_bus session_end) = Some true.
Proof. vm_compute. done. Qed.

Lemma listening_ok : bus_ok (w_bus listening_world).
Proof.
  destruct session_start as (Hq & Hb0 & Hb). destruct (start_ok _ _ _ _ _ _ _ _ Hq Hb0 Hb) as (Hok & _).
  assert (He : Forall bus_event_ok listening_events) by (repeat constructor).
  apply (bus_loop_moves listening_events idle_world listening_world He Hok); [vm_compute; reflexivity..|].
  exact listening_runs.
Qed.

Definition asked_world : world :=
  default idle_world (relay_take listening_world 77 KSD_OP_CURSOR_POSITION [] 100 110).
Lemma asked_ok : bus_ok (w_bus asked_world).
Proof.
  assert (H : relay_take listening_world 77 KSD_OP_CURSOR_POSITION [] 100 110 = Some asked_world) by (vm_compute; reflexivity).
  apply relay_take_moves in H; [apply H|unfold is_u64; lia|exact listening_ok|vm_compute; reflexivity..].
Qed.
End samples.

Lemma kwin_calls_answered_once_witness :
  concluded (w_out session_end) ++ parked_calls (w_bus session_end) ≡ₚ concat (map event_calls session_events) /\
  parks_ok (w_bus session_end) /\
  concluded (ksd_kwin_bus_stop session_end) ≡ₚ concat (map event_calls session_events).
Proof.
  apply (kwin_calls_answered_once (AL := infinite_memory) sample_generation sample_queue 9 1000 (Some script_name) true
           (with_sources idle_bus false false false None) idle_bus open_sends session_events session_end).
  - apply session_start.
  - apply session_start.
  - apply session_start.
  - exact session_ok.
  - vm_compute. reflexivity.
  - exact session_runs.
Defined.

Lemma kwin_requests_answered_once_witness :
  (exists lost, replied (w_out session_end) ++ pending (w_bus session_end) ++ lost ≡ₚ concat (map event_requests session_events) /\
     ((length lost <= shutdowns (w_out session_end))%nat \/ out_of_memory (AL := infinite_memory) answer_maximum)) /\
  concat (map entry_key (kb_inflight (w_bus session_end))) ≡ₚ job_keys (kb_queue (w_bus session_end)) /\
  queue_wf (kb_queue (w_bus session_end)).
Proof.
  apply (kwin_requests_answered_once (AL := infinite_memory) sample_generation sample_queue 9 1000 (Some script_name) true
           (with_sources idle_bus false false false None) idle_bus open_sends session_events session_end).
  - apply session_start.
  - apply session_start.
  - apply session_start.
  - exact session_ok.
  - vm_compute. reflexivity.
  - exact session_runs.
Defined.

