(* ===== verification/KwinService.v ===== *)
(** * What the KWin service promises (src/kwin_bus.c)

    The theorems on the service of KwinBus.v beyond its counts: that a job never waits in
    a lane whose poll is parked, that a request goes out on the poll that waits for it,
    that a report answers everything it completed, which of the service's answers the
    authority's relay understands, and that nobody but the compositor's script is heard. *)
From Stdlib Require Import ZArith Lia Strings.Byte Strings.String Sorting.Sorted.
From stdpp Require Import base list option numbers tactics.
From S2P Require Import Prelude.
From S2P Require Import Protocol.
From S2P Require Import Codec.
From S2P Require Import Buffer.
From S2P Require Import Utf8.
From S2P Require Import Transport.
From S2P Require Import Frame.
From S2P Require Import Operations.
From S2P Require Import KwinEnvelope.
From S2P Require Import KwinJobs.
From S2P Require Import Relay.
From S2P Require Import KwinTranslate.
From S2P Require Import KwinBus.
Local Open Scope Z_scope.
Local Open Scope ksd_scope.

(** ** No job waits beside a parked poll *)

(** A lane whose poll is parked has nothing queued. *)
Definition quiet (b : ksd_kwin_bus) : Prop :=
  Forall (fun job => job_state job = KSD_KWIN_JOB_QUEUED -> nth (lane_slot (job_lane job)) (kb_parked b) None = None)
    (q_jobs (kb_queue b)).

(** The queue gained no queued job. *)
Definition queued_within (q' q : ksd_kwin_queue) : Prop :=
  forall job, In job (q_jobs q') -> job_state job = KSD_KWIN_JOB_QUEUED -> In job (q_jobs q).

Lemma quiet_within b b' :
  quiet b -> queued_within (kb_queue b') (kb_queue b) ->
  (forall slot, nth slot (kb_parked b) None = None -> nth slot (kb_parked b') None = None) -> quiet b'.
Proof.
  unfold quiet. rewrite !List.Forall_forall. intros Hb Hw Hp job Hj Hst. apply Hp, Hb; [by apply Hw|done].
Qed.

Lemma keeps_within R q q' : keeps R q q' -> (forall a b, R a b -> job_state b <> KSD_KWIN_JOB_QUEUED) -> queued_within q' q.
Proof.
  intros (_ & _ & H) HR job Hj Hst. apply list_elem_of_In, list_elem_of_lookup in Hj as (i & Hi).
  destruct (Forall2_lookup_r _ _ _ _ _ H Hi) as (a & Ha & [->|Hab]); [|by destruct (HR a job Hab)].
  apply list_elem_of_In, list_elem_of_lookup. eauto.
Qed.

Lemma dispatched_not_queued lane a b : dispatches lane a b -> job_state b <> KSD_KWIN_JOB_QUEUED.
Proof. by intros [_ ->]. Qed.
Lemma completed_not_queued a b : completes a b -> job_state b <> KSD_KWIN_JOB_QUEUED.
Proof. intros (_ & Hb & _). congruence. Qed.
Lemma released_not_queued sq a b : releases sq a b -> job_state b <> KSD_KWIN_JOB_QUEUED.
Proof. by intros [_ ->]. Qed.

Section quiet.
Context {AL : Allocator}.

Lemma relay_answer_bus w request_id opcode status body n w' :
  relay_answer w request_id opcode status body n = Some w' -> w_bus w' = w_bus w \/ w_bus w' = quit (w_bus w).
Proof.
  unfold relay_answer. destruct (answer_body _ _ _ _) as [st translated]. destruct (answer_payload _ _) as [ok payload].
  case_if; [intros [= <-]; by left|]. destruct (ksd_frame_pack _ _) as [packed buffer]. case_if; [intros [= <-]; by right|].
  destruct (w_sends w) as [|[start turns] sends]; [done|]. destruct (transfer_send _ _ _ _) as [[[sent arrived] rest]|]; [|done].
  intros [= <-]. destruct sent; [by left|by right].
Qed.

Lemma relay_answer_quiet w request_id opcode status body n w' :
  quiet (w_bus w) -> relay_answer w request_id opcode status body n = Some w' -> quiet (w_bus w').
Proof. intros Hq H. by apply relay_answer_bus in H as [-> | ->]. Qed.

(** Ending a park queues nothing and parks nothing. *)
Lemma release_park_within w lane now_ms :
  parks_ok (w_bus w) -> queue_wf (kb_queue (w_bus w)) ->
  queued_within (kb_queue (w_bus (release_park w lane now_ms))) (kb_queue (w_bus w)) /\
  (forall slot, nth slot (kb_parked (w_bus w)) None = None -> nth slot (kb_parked (w_bus (release_park w lane now_ms))) None = None).
Proof.
  intros (fast & slow & E & _) Hw. unfold release_park. destruct (nth _ (kb_parked (w_bus w)) None) as [invocation|]; [|by split; [intros job|]].
  cbn [kb_queue with_park].
  pose proof (poll_parked_keeps (kb_queue (w_bus w)) lane now_ms (ksd_buffer_init reply_maximum) Hw) as Hk.
  destruct (ksd_kwin_queue_poll_parked _ _ _ _) as [[ok queue] reply]. cbn [snd fst] in Hk. split.
  - destruct ok; apply (keeps_within _ _ _ Hk), dispatched_not_queued.
  - intros slot Hs. destruct ok; cbn [w_bus answer emit on_bus kb_parked with_queue with_park]; rewrite E in *;
      destruct (lane_slot_cases lane) as [-> | ->]; destruct slot as [|[|slot]]; by cbn in *.
Qed.

Lemma release_park_quiet w lane now_ms :
  parks_ok (w_bus w) -> queue_wf (kb_queue (w_bus w)) -> quiet (w_bus w) -> quiet (w_bus (release_park w lane now_ms)).
Proof. intros Hp Hw Hq. destruct (release_park_within w lane now_ms Hp Hw). by apply (quiet_within (w_bus w)). Qed.

Lemma drain_from_quiet indices : forall w w',
  queue_wf (kb_queue (w_bus w)) -> quiet (w_bus w) -> drain_from indices w = Some w' -> quiet (w_bus w').
Proof.
  induction indices as [|i indices IH]; intros w w' Hw Hq; cbn [drain_from]; [by intros [= <-]|].
  destruct (drain_entry w i) as [w1|] eqn:E; [|done].
  assert (H1 : queue_wf (kb_queue (w_bus w1)) /\ quiet (w_bus w1)); [|by apply IH; apply H1]. revert E.
  unfold drain_entry. case_if; [by intros [= <-]|]. destruct (ksd_kwin_queue_result _ _) as [[[status body] n]|]; [|by intros [= <-]].
  destruct (relay_answer _ _ _ _ _ _) as [w2|] eqn:Ea; [|done]. intros [= <-]. apply relay_answer_bus in Ea.
  set (entry := nth i _ _). pose proof (release_keeps (kb_queue (w_bus w)) (if_sequence entry) Hw) as Hk.
  assert (Eq : kb_queue (w_bus w2) = kb_queue (w_bus w)) by (by destruct Ea as [-> | ->]).
  cbn [w_bus on_bus kb_queue with_inflight with_queue]. rewrite Eq. split; [apply Hk|].
  apply (quiet_within (w_bus w)); [done| |by destruct Ea as [-> | ->]].
  cbn [kb_queue with_inflight with_queue]. apply (keeps_within _ _ _ Hk), released_not_queued.
Qed.

(** A lane that had nothing to dispatch has nothing queued. *)
Lemma nothing_to_dispatch q lane now_ms q' :
  queue_wf q -> lane <> KSD_KWIN_LANE_NONE -> dispatch_jobs q lane now_ms = ([], q') ->
  forall job, In job (q_jobs q') -> job_state job = KSD_KWIN_JOB_QUEUED -> job_lane job <> lane.
Proof.
  intros Hw Hlane. unfold dispatch_jobs. pose proof (kwin_take_oldest q lane KSD_KWIN_JOBS_PER_REPLY_FAST Hw ltac:(vm_compute; discriminate)) as H.
  destruct (ksd_kwin_queue_take _ _ _) as [batch queue]. destruct H as (_ & _ & _ & Hrest).
  intros E. assert (Eb : batch = [] /\ q' = queue) by (destruct batch; [split; congruence|done]). destruct Eb as [-> ->].
  intros job Hj Hst El. apply list_elem_of_In, list_elem_of_lookup in Hj as (i & Hi).
  destruct (Hrest i job Hi (conj Hst El)) as [Hfull _]. by destruct lane.
Qed.

Lemma parse_poll_lane data p : ksd_kwin_parse_poll data = Some p -> poll_lane p <> KSD_KWIN_LANE_NONE.
Proof. intros H. apply parse_poll_sound in H as ((_ & _ & H & _) & _). done. Qed.

Lemma queued_lane q job : queue_wf q -> In job (q_jobs q) -> job_state job = KSD_KWIN_JOB_QUEUED -> job_lane job <> KSD_KWIN_LANE_NONE.
Proof.
  intros Hq Hj Hst. apply list_elem_of_In, list_elem_of_lookup in Hj as (i & Hi). pose proof (wf_lookup _ _ _ Hq Hi) as Hw.
  unfold job_wf in Hw. rewrite (proj2 (live_state job)) in Hw by congruence. apply Hw.
Qed.

Lemma park_quiet b lane p t :
  quiet b -> parks_ok b -> queue_wf (kb_queue b) -> lane <> KSD_KWIN_LANE_NONE ->
  (forall job, In job (q_jobs (kb_queue b)) -> job_state job = KSD_KWIN_JOB_QUEUED -> job_lane job <> lane) ->
  quiet (with_park b (lane_slot lane) p t).
Proof.
  unfold quiet. rewrite !List.Forall_forall. intros Hq (fast & slow & E & _) Hw Hl Hne job Hj Hst.
  cbn [kb_queue with_park kb_parked] in *. specialize (Hq job Hj Hst). specialize (Hne job Hj Hst).
  pose proof (queued_lane _ _ Hw Hj Hst) as Hjl. rewrite E in *. by destruct lane, (job_lane job).
Qed.

Lemma poll_keeps_lane q envelope now_ms reply :
  queue_wf q -> exists lane, keeps (dispatches lane) q (snd (fst (ksd_kwin_queue_poll q envelope now_ms reply))).
Proof.
  intros Hq. pose proof (poll_keeps q envelope now_ms reply Hq) as H. destruct (ksd_kwin_parse_poll envelope) as [p|].
  - exists (poll_lane p). eapply keeps_mono; [|exact H]. by intros a b (p' & [= <-] & _ & Hd).
  - exists KSD_KWIN_LANE_FAST. eapply keeps_mono; [|exact H]. by intros a b (p' & ? & _).
Qed.

Lemma handle_poll_quiet w envelope invocation now_ms later_ms :
  bus_ok (w_bus w) -> quiet (w_bus w) -> quiet (w_bus (handle_poll w envelope invocation now_ms later_ms)).
Proof.
  intros (Hp & Ht) Hq. unfold handle_poll. pose proof (proj1 Ht) as Hw.
  destruct (poll_keeps_lane (kb_queue (w_bus w)) envelope now_ms (ksd_buffer_init reply_maximum) Hw) as (lane & Hk).
  destruct (ksd_kwin_queue_poll _ _ _ _) as [[outcome queue] reply] eqn:E. cbn [fst snd] in Hk.
  assert (Hq1 : quiet (w_bus (on_bus w (with_queue (w_bus w) queue)))).
  { apply (quiet_within (w_bus w)); [done|by apply (keeps_within _ _ _ Hk), dispatched_not_queued|done]. }
  set (w1 := on_bus w (with_queue (w_bus w) queue)) in *.
  destruct outcome; [done| |by destruct (ksd_kwin_parse_poll envelope)].
  destruct (ksd_kwin_parse_poll envelope) as [poll|] eqn:Epoll; [|done].
  assert (Hlane : forall job, In job (q_jobs queue) -> job_state job = KSD_KWIN_JOB_QUEUED -> job_lane job <> poll_lane poll).
  { revert E. unfold ksd_kwin_queue_poll. rewrite Epoll. case_if; [done|].
    destruct (dispatch_jobs _ _ _) as [[|d ds] q'] eqn:Ed.
    - intros [= <- _]. cbn [q_jobs set_parked]. eapply nothing_to_dispatch; [exact Hw|by eapply parse_poll_lane|exact Ed].
    - destruct (ksd_kwin_format_poll_reply _ _ _ _ _) as [[] ?]; done. }
  set (w2 := match nth (lane_slot (poll_lane poll)) (kb_parked (w_bus w1)) None with None => w1 | Some _ => _ end).
  assert (H2 : parks_ok (w_bus w2) /\ quiet (w_bus w2) /\ queue_wf (kb_queue (w_bus w2)) /\ queued_within (kb_queue (w_bus w2)) queue).
  { unfold w2. destruct (nth _ (kb_parked (w_bus w1)) None); [|split; [exact Hp|split; [exact Hq1|split; [apply Hk|by intros job]]]].
    assert (Hok1 : bus_ok (w_bus w1)) by (split; [done|by apply (dispatched_table lane)]).
    split; [apply (release_park_moves w1 (poll_lane poll) later_ms Hok1)|]. split; [apply release_park_quiet; [done|apply Hok1|done]|].
    split; [apply (release_park_moves w1 (poll_lane poll) later_ms Hok1)|].
    apply release_park_within; [done|apply Hok1]. }
  destruct H2 as (Hp2 & Hq2 & Hw2 & Hin). cbn [w_bus on_bus]. apply park_quiet; try done; [by eapply parse_poll_lane|].
  intros job Hj Hst. by apply Hlane; [apply Hin|].
Qed.

Lemma handle_call_quiet w sender method generation envelope invocation now_ms later_ms w' :
  bus_ok (w_bus w) -> quiet (w_bus w) -> handle_call w sender method generation envelope invocation now_ms later_ms = Some w' ->
  quiet (w_bus w').
Proof.
  intros Hok Hq. assert (Hc : forall v ok reply, quiet (w_bus v) -> quiet (w_bus (conclude_call v invocation ok reply))).
  { intros v ok reply. by destruct ok. }
  unfold handle_call. case_if; [by intros [= <-]|]. destruct (ksd_kwin_queue_hello _ _) as [ok reply].
  case_if; [intros [= <-]; by apply Hc|]. case_if; [|case_if; [intros [= <-]; by apply Hc|case_if;
    [intros [= <-]; by apply handle_poll_quiet|intros [= <-]; by apply (Hc w false (ksd_buffer_init reply_maximum))]]].
  clear ok reply. unfold handle_report.
  pose proof (report_keeps (kb_queue (w_bus w)) (until_nul envelope) (ksd_buffer_init reply_maximum) (proj1 (proj2 Hok))) as Hk.
  destruct (ksd_kwin_queue_report _ _ _) as [[ok queue] reply]. cbn [fst snd] in Hk.
  assert (Hq1 : quiet (with_queue (w_bus w) queue)).
  { apply (quiet_within (w_bus w)); [done|apply (keeps_within _ _ _ Hk); intros a b (r & d & _ & _ & _ & H & _); by eapply completed_not_queued|done]. }
  destruct ok; [|by intros [= <-]].
  destruct (relay_drain _) as [w2|] eqn:Ed; [|done]. intros [= <-].
  change (quiet (w_bus w2)). eapply (drain_from_quiet _ (on_bus w (with_queue (w_bus w) queue))); [apply Hk|exact Hq1|exact Ed].
Qed.

Lemma relay_take_quiet w request_id opcode body now_ms later_ms w' :
  bus_ok (w_bus w) -> quiet (w_bus w) ->
  q_next_sequence (kb_queue (w_bus w)) + 1 < 2 ^ 64 -> q_next_ticket (kb_queue (w_bus w)) + 1 < 2 ^ 64 ->
  relay_take w request_id opcode body now_ms later_ms = Some w' -> quiet (w_bus w').
Proof.
  intros Hok Hq Hs Ht. unfold relay_take. destruct (ksd_kwin_request_text _ _ _ _) as [text|] eqn:Et; [|by apply relay_answer_quiet].
  destruct (find_index _ _) as [i|] eqn:Ei; [|by apply relay_answer_quiet].
  pose proof (submit_spec (kb_queue (w_bus w)) opcode (Some text) (zlen text) now_ms (proj1 (proj2 Hok)) Hs Ht eq_refl) as H.
  destruct (ksd_kwin_queue_submit _ _ _ _ _) as [[sequence|] queue]; destruct H as (Hk & Hjob & _).
  2:{ apply relay_answer_quiet. unfold quiet. cbn [w_bus on_bus kb_queue with_queue kb_parked]. by rewrite Hjob. }
  destruct Hjob as (Hlane & _ & j & job & Hj & Ejobs & Hn & Hst & Ho & Hl & _). intros [= <-].
  set (w1 := on_bus _ _). assert (Hp1 : parks_ok (w_bus w1)) by apply Hok.
  pose proof (release_park_unparks w1 (ksd_kwin_lane_for opcode) later_ms Hp1) as Hun.
  assert (Hsub : queued_within (kb_queue (w_bus (release_park w1 (ksd_kwin_lane_for opcode) later_ms))) queue /\ forall slot, nth slot (kb_parked (w_bus w)) None = None ->
      nth slot (kb_parked (w_bus (release_park w1 (ksd_kwin_lane_for opcode) later_ms))) None = None).
  { apply (release_park_within w1 (ksd_kwin_lane_for opcode) later_ms Hp1), Hk. }
  destruct Hsub as [Hsub Hsl]. unfold quiet in *. rewrite List.Forall_forall in *. intros x Hx Hxs.
  specialize (Hsub x Hx Hxs). rewrite Ejobs in Hsub. apply list_elem_of_In, list_elem_of_lookup in Hsub as (k & Hkx).
  destruct (decide (j = k)) as [<-|Hne].
  - rewrite list_lookup_insert_eq in Hkx by (by eapply lookup_lt_Some). injection Hkx as <-. by rewrite Hl.
  - rewrite list_lookup_insert_ne in Hkx by done. apply Hsl, Hq; [|done]. apply list_elem_of_In, list_elem_of_lookup. eauto.
Qed.

Lemma bus_step_quiet w e w' :
  bus_event_ok e -> bus_ok (w_bus w) -> quiet (w_bus w) ->
  q_next_sequence (kb_queue (w_bus w)) + 1 < 2 ^ 64 -> q_next_ticket (kb_queue (w_bus w)) + 1 < 2 ^ 64 ->
  bus_step w e = Some w' -> quiet (w_bus w').
Proof.
  intros He Hok Hq Hs Ht. destruct e as [sender method generation envelope invocation now_ms later_ms|lane now_ms|arrival now_ms later_ms| |owner|];
    cbn [bus_step].
  - by apply handle_call_quiet.
  - destruct (nth _ (kb_idle_source _) None) eqn:E; [|done]. intros [= <-].
    rewrite idle_fired_release; [|apply Hok|congruence]. apply release_park_quiet; [apply Hok|apply Hok|done].
  - case_if; [|done]. destruct arrival as [|request_id opcode body]; [by intros [= <-]|]. by apply relay_take_quiet.
  - case_if; [|done]. by intros [= <-].
  - case_if; [|done]. intros [= <-]. unfold compositor_current. by case_if.
  - by intros [= <-].
Qed.

Lemma bus_loop_quiet events : forall w w',
  Forall bus_event_ok events -> bus_ok (w_bus w) -> quiet (w_bus w) ->
  q_next_sequence (kb_queue (w_bus w)) + zlen events < 2 ^ 64 -> q_next_ticket (kb_queue (w_bus w)) + zlen events < 2 ^ 64 ->
  bus_loop w events = Some w' -> quiet (w_bus w').
Proof.
  induction events as [|e events IH]; intros w w' He Hok Hq Hs Ht; cbn [bus_loop]; [by intros [= <-]|].
  rewrite zlen_cons in *. pose proof (zlen_nonneg events). apply list.Forall_cons_1 in He as [He Hes].
  destruct (bus_step w e) as [w1|] eqn:E; [|done].
  pose proof (bus_step_quiet w e w1 He Hok Hq ltac:(lia) ltac:(lia) E) as Hq1.
  apply bus_step_moves in E as [Hok1 _ _ Hs1 Ht1]; [|done|done|lia|lia]. apply IH; try done; lia.
Qed.
End quiet.

(** ** The reply of a park *)

Definition lane_limit (lane : ksd_kwin_lane) : Z :=
  match lane with KSD_KWIN_LANE_FAST => KSD_KWIN_JOBS_PER_REPLY_FAST | _ => KSD_KWIN_JOBS_PER_REPLY_SLOW end.

(** A dispatch of the bus: well formed, and of a text a string can carry. *)
Definition dispatch_good (job : ksd_kwin_dispatch) : Prop :=
  dispatch_ok job /\ avoids 0 (dispatch_data job) /\ zlen (dispatch_data job) < text_capacity.

Lemma lane_opcode opcode : ksd_kwin_lane_for opcode <> KSD_KWIN_LANE_NONE -> is_u16 opcode.
Proof.
  unfold ksd_kwin_lane_for. case_if; [intros _; apply any_of_in in Heqb; which_opcode Heqb|].
  case_if; [intros _; apply any_of_in in Heqb0; which_opcode Heqb0|done].
Qed.

Lemma hex_avoids_zero s : forallb hex_digit s = true -> avoids 0 s.
Proof. apply hex_digit_avoids. lia. Qed.

Lemma hex_text_digits n v : forallb hex_digit (hex_text n v) = true.
Proof.
  induction n as [|n IH]; cbn [hex_text forallb]; [done|]. rewrite IH, andb_true_r. apply hexadecimal_value.
  change 0xf with (2 ^ 4 - 1). rewrite <- mod_pow2_land by lia. apply Z.mod_pos_bound. lia.
Qed.

Lemma valid_hex_avoids n s : valid_hex_string n s = true -> avoids 0 s.
Proof.
  intros H. pose proof (valid_hex_string_full _ _ H) as [E _]. unfold valid_hex_string in H. rewrite E in H.
  apply andb_true_iff in H as [H _]. by apply hex_avoids_zero.
Qed.

Lemma dispatch_of_good q i a now_ms lane :
  queue_wf q -> Forall job_good (q_jobs q) -> q_jobs q !! i = Some a -> queued_in lane a ->
  dispatch_good (dispatch_of now_ms (with_state a KSD_KWIN_JOB_DISPATCHED)).
Proof.
  intros Hq Hg Hi [Hst _]. assert (Hlive : live a = true) by (apply live_state; congruence).
  pose proof (wf_lookup _ _ _ Hq Hi) as Hw. unfold job_wf in Hw. rewrite Hlive in Hw.
  destruct Hw as ((n & _ & Es) & _ & El & Hl & Hb & _). destruct (Forall_lookup_1 _ _ _ _ Hg Hi Hlive) as (H1 & H2 & _).
  rewrite El in Hl. pose proof (lane_opcode _ Hl) as Ho. split; [|split; [exact H1|exact H2]].
  unfold dispatch_ok, dispatch_of, dispatch_data. cbn [dispatch_sequence dispatch_opcode dispatch_budget_ms dispatch_body_length dispatch_body
    with_state job_sequence job_opcode job_deadline_ms job_body job_body_length].
  split; [rewrite Es; apply format_sequence_valid|]. split; [done|].
  split; [case_if; unfold is_u32, u32; [apply Z.mod_pos_bound; lia|lia]|].
  split; [|exact Hb]. pose proof (zlen_nonneg (default [] (job_body a))). unfold is_u32, text_capacity in *. lia.
Qed.

Lemma decimal_length v : is_u32 v -> zlen (decimal_text v) <= 10.
Proof. intros Hv. apply zlen_decimal_text. unfold is_u32, UINT32_MAX in *. lia. Qed.

Lemma job_line_length job : dispatch_good job -> zlen (terminated (job_line job)) <= 50 /\ avoids 0 (terminated (job_line job)).
Proof.
  intros ((Hs & Ho & Hb & Hl & _) & _ & _). pose proof (valid_hex_avoids _ _ Hs) as Ha.
  apply valid_hex_string_full in Hs as [_ Hs]. unfold terminated, job_line. pose proof (decimal_length _ Hb) as H1. pose proof (decimal_length _ Hl) as H2.
  assert (Hd : forall v, is_u32 v -> avoids 0 (decimal_text v)).
  { intros v Hv. apply decimal_text_avoids; [lia|unfold is_u32, UINT32_MAX in *; lia]. }
  assert (Hh : avoids 0 (hex_text 4 (dispatch_opcode job))).
  { apply hex_avoids_zero, hex_text_digits. }
  split.
  - rewrite !zlen_app. change (zlen (cstr "job ")) with 4. change (zlen (cstr " ")) with 1. change (zlen [z2b 10]) with 1.
    change (zlen (hex_text 4 (dispatch_opcode job))) with 4. rewrite Hs. unfold KSD_KWIN_SEQ_HEX. lia.
  - rewrite !avoids_app. repeat split; (done || (by apply Hd) || (repeat constructor; done)).
Qed.

Lemma concat_bounds {A} (f : A -> list byte) n l :
  Forall (fun x => zlen (f x) <= n /\ avoids 0 (f x)) l -> zlen (concat (map f l)) <= n * zlen l /\ avoids 0 (concat (map f l)).
Proof.
  induction 1 as [|x l [Hx Ha] _ [IH1 IH2]]; cbn [map concat]; [split; [change (0 <= n * 0); lia|constructor]|].
  rewrite zlen_app, zlen_cons, avoids_app. split; [lia|done].
Qed.

Lemma poll_reply_bounds generation lane idle_ms jobs :
  valid_generation generation = true -> is_u32 idle_ms -> zlen jobs <= 8 -> Forall dispatch_good jobs ->
  zlen (poll_reply_text generation lane idle_ms jobs) <= reply_maximum /\ avoids 0 (poll_reply_text generation lane idle_ms jobs).
Proof.
  intros Hg Hi Hn Hj. pose proof (valid_hex_avoids _ _ Hg) as Hga. apply valid_hex_string_full in Hg as [_ Hg].
  destruct (concat_bounds (fun job => terminated (job_line job)) 50 jobs) as [H1 H2].
  { eapply List.Forall_impl; [|exact Hj]. intros job. apply job_line_length. }
  destruct (concat_bounds dispatch_data 160 jobs) as [H3 H4].
  { eapply List.Forall_impl; [|exact Hj]. intros job (_ & Ha & Hl). unfold text_capacity in Hl. split; [lia|done]. }
  pose proof (decimal_length _ Hi) as H5. unfold poll_reply_text. split.
  - unfold terminated at 1 2 3 4 6. rewrite !zlen_app, Hg. change (zlen (cstr "KSK1")) with 4. change (zlen (cstr "gen ")) with 4.
    change (zlen (cstr "lane ")) with 5. change (zlen (cstr "idle ")) with 5. change (zlen (cstr "end")) with 3. change (zlen [z2b 10]) with 1.
    assert (zlen (cstr (lane_name lane)) = 4) as -> by (by destruct lane). unfold KSD_KWIN_GENERATION_HEX, reply_maximum. lia.
  - unfold terminated at 1 2 3 4 6. rewrite !avoids_app.
    assert (avoids 0 (decimal_text idle_ms)) by (apply decimal_text_avoids; [lia|unfold is_u32, UINT32_MAX in *; lia]).
    assert (avoids 0 (cstr (lane_name lane))) by (destruct lane; repeat constructor; done).
    repeat split; (done || (repeat constructor; done)).
Qed.

Section wake.
Context {AL : Allocator}.

(** The jobs a lane would be given. *)
Definition lane_jobs (b : ksd_kwin_bus) (lane : ksd_kwin_lane) (now_ms : Z) : list ksd_kwin_dispatch :=
  fst (dispatch_jobs (kb_queue b) lane now_ms).
Definition idle_of (jobs : list ksd_kwin_dispatch) : Z := match jobs with [] => KSD_KWIN_IDLE_REPLY_MS | _ => 0 end.

Lemma lane_jobs_good b lane now_ms :
  table_ok b -> lane <> KSD_KWIN_LANE_NONE ->
  zlen (lane_jobs b lane now_ms) <= lane_limit lane /\ Forall dispatch_good (lane_jobs b lane now_ms).
Proof.
  intros (Hq & Hg & _) Hl. unfold lane_jobs, dispatch_jobs.
  pose proof (kwin_take_oldest (kb_queue b) lane KSD_KWIN_JOBS_PER_REPLY_FAST Hq ltac:(vm_compute; discriminate)) as H.
  destruct (ksd_kwin_queue_take _ _ _) as [batch queue]. destruct H as (Hn & _ & Hb & _). cbn [fst]. split.
  - unfold zlen in *. rewrite length_map. destruct lane; [| |done]; unfold lane_limit, lane_capacity, KSD_KWIN_JOBS_PER_REPLY_FAST, KSD_KWIN_JOBS_PER_REPLY_SLOW in *; lia.
  - apply List.Forall_map. eapply List.Forall_impl; [|exact Hb]. intros job (i & a & Hi & Ha & -> & _). by eapply dispatch_of_good.
Qed.

Lemma release_park_says w lane now_ms invocation :
  AllocTotal AL -> table_ok (w_bus w) -> lane <> KSD_KWIN_LANE_NONE ->
  nth (lane_slot lane) (kb_parked (w_bus w)) None = Some invocation ->
  w_out (release_park w lane now_ms) = w_out w ++
    [Answered invocation (poll_reply_text (q_generation (kb_queue (w_bus w))) lane
       (idle_of (lane_jobs (w_bus w) lane now_ms)) (lane_jobs (w_bus w) lane now_ms))].
Proof.
  intros HA Ht Hl Hp. unfold release_park. rewrite Hp. cbn [kb_queue with_park].
  pose proof (lane_jobs_good (w_bus w) lane now_ms Ht Hl) as [Hn Hj]. destruct Ht as ((_ & Hgen & _) & _).
  unfold ksd_kwin_queue_poll_parked. rewrite bool_decide_false by done.
  assert (E : dispatch_jobs (set_parked (kb_queue (w_bus w)) lane false) lane now_ms =
    (lane_jobs (w_bus w) lane now_ms, set_parked (snd (dispatch_jobs (kb_queue (w_bus w)) lane now_ms)) lane false)).
  { unfold lane_jobs, dispatch_jobs, ksd_kwin_queue_take. cbn [q_jobs set_parked]. destruct (take_loop _ _ _) as [batch jobs]. cbn [fst snd].
    done. }
  rewrite E. fold (idle_of (lane_jobs (w_bus w) lane now_ms)). set (jobs := lane_jobs (w_bus w) lane now_ms) in *.
  assert (Hgen' : q_generation (set_parked (snd (dispatch_jobs (kb_queue (w_bus w)) lane now_ms)) lane false) = q_generation (kb_queue (w_bus w))).
  { cbn [q_generation set_parked]. unfold dispatch_jobs, ksd_kwin_queue_take. by destruct (take_loop _ _ _). }
  rewrite Hgen'. assert (Hidle : is_u32 (idle_of jobs)) by (unfold idle_of, is_u32, KSD_KWIN_IDLE_REPLY_MS; destruct jobs; lia).
  destruct (poll_reply_bounds (q_generation (kb_queue (w_bus w))) lane (idle_of jobs) jobs Hgen Hidle) as [Hlen Hz].
  { destruct lane; unfold lane_limit, KSD_KWIN_JOBS_PER_REPLY_FAST, KSD_KWIN_JOBS_PER_REPLY_SLOW in Hn; lia. } { done. }
  destruct (poll_reply_writes (q_generation (kb_queue (w_bus w))) lane (idle_of jobs) jobs) as [Hwr _];
    [done|done|done|by destruct lane|eapply List.Forall_impl; [|exact Hj]; by intros job [? _]|].
  destruct (written _ _ reply_maximum HA Hwr) as (reply & -> & Hb); [unfold reply_maximum, SIZE_MAX in *; lia|].
  cbn [w_out answer emit on_bus]. by rewrite Hb, until_nul_id.
Qed.
End wake.

(** ** Room *)

Lemma zlen_same_keys (l : list inflight) : zlen (concat (map entry_requests l)) = zlen (concat (map entry_key l)).
Proof.
  induction l as [|e l IH]; [done|]. cbn [map concat]. rewrite !zlen_app, IH. unfold entry_requests, entry_key. by destruct (if_active e).
Qed.

Lemma zlen_full {A B} (f : A -> list B) l : Forall (fun x => zlen (f x) = 1) l -> zlen (concat (map f l)) = zlen l.
Proof. induction 1 as [|x l Hx _ IH]; [done|]. cbn [map concat]. rewrite zlen_app, zlen_cons. lia. Qed.

(** While the table has room the queue has too. *)
Lemma table_room b :
  table_ok b -> zlen (pending b) < KSD_KWIN_MAX_JOBS ->
  (exists i, find_index (fun entry => negb (if_active entry)) (kb_inflight b) = Some i) /\
  exists j job, find_slot (is_state KSD_KWIN_JOB_FREE) (q_jobs (kb_queue b)) = Some (j, job).
Proof.
  intros (Hq & _ & Hl & _ & Hp) Hn. pose proof Hq as (Hlen & _). split.
  - destruct (find_index _ _) as [i|] eqn:E; [by exists i|]. exfalso.
    assert (Ha : Forall (fun entry => zlen (entry_requests entry) = 1) (kb_inflight b)).
    { apply Forall_lookup. intros i entry Hi. pose proof (find_index_none _ _ _ _ E Hi) as H. cbn beta in H. apply negb_false_iff in H.
      unfold entry_requests. by rewrite H. }
    apply zlen_full in Ha. unfold pending in Hn. lia.
  - destruct (find_slot _ _) as [[j job]|] eqn:E; [by exists j, job|]. exfalso.
    assert (Ha : Forall (fun job => zlen (job_key job) = 1) (q_jobs (kb_queue b))).
    { apply Forall_lookup. intros i job Hi. pose proof (find_slot_none _ _ E _ _ Hi) as H. unfold job_key, live. by rewrite H. }
    apply zlen_full in Ha. unfold pending in Hn. rewrite zlen_same_keys, (zlen_perm _ _ Hp) in Hn. unfold job_keys in Hn. lia.
Qed.

Section sent.
Context {AL : Allocator}.

Lemma submit_succeeds q opcode text now_ms j job :
  AllocTotal AL -> ksd_kwin_lane_for opcode <> KSD_KWIN_LANE_NONE ->
  find_slot (is_state KSD_KWIN_JOB_FREE) (q_jobs q) = Some (j, job) ->
  exists q', ksd_kwin_queue_submit q opcode (Some text) (zlen text) now_ms = (Some (format_sequence (q_next_sequence q)), q') /\
    q_generation q' = q_generation q.
Proof.
  intros HA Hl Hf. unfold ksd_kwin_queue_submit. rewrite (bool_decide_false (Some text = None)) by done. rewrite andb_false_r.
  rewrite bool_decide_false by done. rewrite Hf. case_if; [eauto|]. rewrite alloc_total. eauto.
Qed.

Lemma take_loop_nothing limit lane jobs jobs' : take_loop limit lane jobs = ([], jobs') -> jobs' = jobs.
Proof.
  destruct limit as [|limit]; cbn [take_loop]; [congruence|]. destruct (oldest_from lane 0 jobs None) as [[i job]|]; [|congruence].
  destruct (take_loop limit lane _) as [batch rest]. done.
Qed.

(** A lane with one queued job gives that job. *)
Lemma only_job q lane j job now_ms :
  queue_wf q -> q_jobs q !! j = Some job -> queued_in lane job -> lane <> KSD_KWIN_LANE_NONE ->
  (forall i x, q_jobs q !! i = Some x -> queued_in lane x -> i = j) ->
  fst (dispatch_jobs q lane now_ms) = [dispatch_of now_ms (with_state job KSD_KWIN_JOB_DISPATCHED)].
Proof.
  intros Hq Hj Hin Hl Hu. unfold dispatch_jobs.
  pose proof (kwin_take_oldest q lane KSD_KWIN_JOBS_PER_REPLY_FAST Hq ltac:(vm_compute; discriminate)) as H.
  unfold ksd_kwin_queue_take in *. destruct (take_loop _ _ _) as [batch jobs] eqn:Et. destruct H as (_ & Hsort & Hb & Hrest). cbn [fst].
  assert (Hall : Forall (fun b => b = with_state job KSD_KWIN_JOB_DISPATCHED) batch).
  { eapply List.Forall_impl; [|exact Hb]. intros b (i & a & Hi & Ha & -> & _). rewrite (Hu i a Hi Ha) in Hi. congruence. }
  destruct batch as [|b1 [|b2 batch]].
  - apply take_loop_nothing in Et as ->. destruct (Hrest j job Hj Hin) as [Hfull _]. by destruct lane.
  - apply list.Forall_cons_1 in Hall as [-> _]. done.
  - exfalso. apply list.Forall_cons_1 in Hall as [-> Hall]. apply list.Forall_cons_1 in Hall as [-> _].
    apply StronglySorted_inv in Hsort as [_ Hlt]. apply list.Forall_cons_1 in Hlt as [Hlt _]. unfold before in Hlt. lia.
Qed.

Lemma release_park_table w lane now_ms : kb_inflight (w_bus (release_park w lane now_ms)) = kb_inflight (w_bus w).
Proof.
  unfold release_park. destruct (nth _ (kb_parked (w_bus w)) None); [|done]. cbn [kb_queue with_park].
  by destruct (ksd_kwin_queue_poll_parked _ _ _ _) as [[[] queue] reply].
Qed.

(** What the bus becomes when a request is taken. *)
Definition entered (b : ksd_kwin_bus) (queue : ksd_kwin_queue) (i : nat) (request_id opcode : Z) : ksd_kwin_bus :=
  with_inflight (with_queue b queue)
    (<[i := mk_inflight true request_id opcode (format_sequence (q_next_sequence (kb_queue b)))]> (kb_inflight b)).

Lemma relay_take_enters w request_id opcode body text now_ms later_ms :
  AllocTotal AL -> bus_ok (w_bus w) -> is_u64 request_id ->
  q_next_sequence (kb_queue (w_bus w)) + 1 < 2 ^ 64 -> q_next_ticket (kb_queue (w_bus w)) + 1 < 2 ^ 64 ->
  zlen (pending (w_bus w)) < KSD_KWIN_MAX_JOBS ->
  ksd_kwin_request_text opcode (body_pointer body) (zlen body) text_capacity = Some text ->
  exists queue i j job,
    relay_take w request_id opcode body now_ms later_ms =
      Some (release_park (on_bus w (entered (w_bus w) queue i request_id opcode)) (ksd_kwin_lane_for opcode) later_ms) /\
    keeps (queues opcode now_ms) (kb_queue (w_bus w)) queue /\ (i < length (kb_inflight (w_bus w)))%nat /\
    q_jobs (kb_queue (w_bus w)) !! j = Some free_job /\ q_jobs queue = <[j := job]> (q_jobs (kb_queue (w_bus w))) /\
    q_jobs queue !! j = Some job /\ job_sequence job = format_sequence (q_next_sequence (kb_queue (w_bus w))) /\
    job_opcode job = opcode /\ queued_in (ksd_kwin_lane_for opcode) job /\ default [] (job_body job) = text /\
    ksd_kwin_lane_for opcode <> KSD_KWIN_LANE_NONE /\
    table_ok (entered (w_bus w) queue i request_id opcode) /\
    pending (entered (w_bus w) queue i request_id opcode) ≡ₚ pending (w_bus w) ++ [request_id].
Proof.
  intros HA Hok Hid Hs Ht Hroom Etext. pose proof (request_text_good _ _ _ Etext) as (Ha & Hl & Hlane & _).
  pose proof Hok as (Hp & Htab). destruct (table_room _ Htab Hroom) as ((i & Ei) & j0 & free & Hfree).
  destruct (submit_succeeds (kb_queue (w_bus w)) opcode text now_ms j0 free HA Hlane Hfree) as (queue & Esub & Hgen).
  pose proof (submit_spec (kb_queue (w_bus w)) opcode (Some text) (zlen text) now_ms (proj1 Htab) Hs Ht eq_refl) as H.
  rewrite Esub in H. destruct H as (Hk & (_ & _ & j & job & Hj & Ejobs & Hn & Hst & Ho & Hjl & _ & Hb) & _).
  unfold relay_take. rewrite Etext, Ei, Esub.
  pose proof (find_index_some _ _ _ Ei) as (entry & Hi & Hact). apply negb_true_iff in Hact.
  assert (Hgood : job_good job). { intros _. rewrite Hb. split; [done|]. split; [done|]. congruence. }
  destruct (enter_table (w_bus w) i entry queue j job request_id opcode (format_sequence (q_next_sequence (kb_queue (w_bus w))))
    Htab Hi Hact Hid (proj1 Hk) Hj Ejobs Hn Ho Hgood) as [Htab' Hpend].
  exists queue, i, j, job. split; [done|]. split; [done|]. split; [by eapply lookup_lt_Some|]. split; [done|]. split; [done|].
  split; [rewrite Ejobs; apply list_lookup_insert_eq; by eapply lookup_lt_Some|]. apply named_iff in Hn as [_ Hn]. done.
Qed.

(** C11: A request goes out on the poll that waits for it.  While memory lasts and
    fewer than the table's capacity of requests wait, a request the script can serve, arriving when a
    poll of its lane is parked, is in the reply of that very poll, alone: the reply
    names the job by a sequence never used before, its operation, the words of the
    request and, unless the clock ran past it, what is left of its two seconds; the
    request is entered in the table under that sequence, and the table holds nothing
    else new. *)
Theorem kwin_request_sent_at_once w request_id opcode body text invocation now_ms later_ms :
  AllocTotal AL -> bus_ok (w_bus w) -> quiet (w_bus w) -> is_u64 request_id ->
  q_next_sequence (kb_queue (w_bus w)) + 1 < 2 ^ 64 -> q_next_ticket (kb_queue (w_bus w)) + 1 < 2 ^ 64 ->
  zlen (pending (w_bus w)) < KSD_KWIN_MAX_JOBS ->
  ksd_kwin_request_text opcode (body_pointer body) (zlen body) text_capacity = Some text ->
  nth (lane_slot (ksd_kwin_lane_for opcode)) (kb_parked (w_bus w)) None = Some invocation ->
  exists w' job,
    relay_take w request_id opcode body now_ms later_ms = Some w' /\
    w_out w' = w_out w ++ [Answered invocation
      (poll_reply_text (q_generation (kb_queue (w_bus w))) (ksd_kwin_lane_for opcode) 0 [job])] /\
    dispatch_sequence job = format_sequence (q_next_sequence (kb_queue (w_bus w))) /\
    dispatch_opcode job = opcode /\ dispatch_data job = text /\
    (0 <= now_ms -> now_ms + KSD_KWIN_OP_DEADLINE_MS < 2 ^ 64 -> now_ms <= later_ms < now_ms + KSD_KWIN_OP_DEADLINE_MS ->
     dispatch_budget_ms job = now_ms + KSD_KWIN_OP_DEADLINE_MS - later_ms) /\
    In (mk_inflight true request_id opcode (dispatch_sequence job)) (kb_inflight (w_bus w')) /\
    pending (w_bus w') ≡ₚ pending (w_bus w) ++ [request_id].
Proof.
  intros HA Hok Hq Hid Hs Ht Hroom Etext Hpark.
  destruct (relay_take_enters w request_id opcode body text now_ms later_ms HA Hok Hid Hs Ht Hroom Etext)
    as (queue & i & j & job & Etake & Hk & Hi & Hj & Ejobs & Hqj & Eseq & Ho & Hin & Hb & Hlane & Htab & Hpend).
  set (b1 := entered _ _ _ _ _) in *. set (w1 := on_bus w b1) in *.
  assert (Ejob : lane_jobs (w_bus w1) (ksd_kwin_lane_for opcode) later_ms = [dispatch_of later_ms (with_state job KSD_KWIN_JOB_DISPATCHED)]).
  { apply (only_job queue _ j); [apply Hk|done|done|done|]. intros k x Hkx [Hxs Hxl]. rewrite Ejobs in Hkx.
    destruct (decide (j = k)) as [->|Hne]; [done|]. rewrite list_lookup_insert_ne in Hkx by done. exfalso.
    unfold quiet in Hq. rewrite List.Forall_forall in Hq. rewrite <- Hxl, Hq in Hpark; [done| |done]. apply list_elem_of_In, list_elem_of_lookup. eauto. }
  exists (release_park w1 (ksd_kwin_lane_for opcode) later_ms), (dispatch_of later_ms (with_state job KSD_KWIN_JOB_DISPATCHED)).
  split; [done|]. split.
  { rewrite (release_park_says w1 _ later_ms invocation HA Htab Hlane Hpark), Ejob. cbn [idle_of].
    change (q_generation (kb_queue (w_bus w1))) with (q_generation queue). by rewrite (proj1 (proj2 Hk)). }
  split; [exact Eseq|]. split; [exact Ho|]. split; [exact Hb|]. split.
  - intros H0 H1 H2. destruct Hk as (_ & _ & Hk2). destruct (Forall2_lookup_l _ _ _ _ _ Hk2 Hj) as (b & Hjb & Hmove).
    rewrite Hqj in Hjb. injection Hjb as <-. destruct Hmove as [<-|(_ & _ & _ & Hd)]; [by destruct Hin|]. unfold KSD_KWIN_OP_DEADLINE_MS in *.
    cbn [dispatch_of dispatch_budget_ms with_state job_deadline_ms]. rewrite Hd, u64_id by (unfold is_u64; lia).
    replace (later_ms <? now_ms + 2000) with true by lia. apply u32_id. unfold is_u32. lia.
  - rewrite (release_park_table w1). split; [|unfold pending at 1; rewrite (release_park_table w1); exact Hpend].
    cbn [dispatch_of dispatch_sequence with_state job_sequence]. rewrite Eseq.
    apply list_elem_of_In, list_elem_of_lookup. exists i. by apply list_lookup_insert_eq.
Qed.
End sent.

(** ** A report answers what it completed *)

(** An entry with nothing to answer. *)
Definition settled (b : ksd_kwin_bus) (i : nat) : Prop :=
  forall entry, kb_inflight b !! i = Some entry -> if_active entry = true ->
    ksd_kwin_queue_result (kb_queue b) (if_sequence entry) = None.

Lemma release_result q s t : queue_wf q -> ksd_kwin_queue_result q s = None -> ksd_kwin_queue_result (ksd_kwin_queue_release q t) s = None.
Proof.
  intros Hq Hn. destruct (ksd_kwin_queue_result (ksd_kwin_queue_release q t) s) as [r|] eqn:E; [|done]. exfalso.
  unfold ksd_kwin_queue_result in E. destruct (ksd_kwin_queue_find _ s) as [[j job]|] eqn:Ef; [|done]. case_if; [|done].
  unfold ksd_kwin_queue_find in Ef. apply find_slot_some in Ef as (Hj & Hs & _).
  assert (Hold : q_jobs q !! j = Some job).
  { unfold ksd_kwin_queue_release in Hj. destruct (find_slot (named t) (q_jobs q)) as [[k other]|] eqn:Ek; [|done].
    cbn [q_jobs with_jobs] in Hj. destruct (decide (k = j)) as [->|Hne]; [|by rewrite list_lookup_insert_ne in Hj].
    apply find_slot_some in Ek as (Hk & _). rewrite list_lookup_insert_eq in Hj by (by eapply lookup_lt_Some). injection Hj as <-. done. }
  assert (Hf : find_slot (named s) (q_jobs q) = Some (j, job)).
  { apply find_slot_unique; [done..|]. intros k y Hk Hy. apply named_iff in Hs as [Hl Hs], Hy as [Hly Hys].
    destruct Hq as (_ & _ & _ & Hu & _). eapply Hu; [exact Hk|exact Hold|done|done|congruence]. }
  unfold ksd_kwin_queue_result, ksd_kwin_queue_find in Hn. by rewrite Hf, Heqb in Hn.
Qed.

Section drained.
Context {AL : Allocator}.

Lemma drain_entry_settles w i w' k :
  bus_ok (w_bus w) -> drain_entry w i = Some w' -> settled (w_bus w) k \/ k = i -> settled (w_bus w') k.
Proof.
  intros Hok. unfold drain_entry. set (entry := nth i (kb_inflight (w_bus w)) no_request).
  assert (Hnth : forall e, kb_inflight (w_bus w) !! i = Some e -> e = entry) by (intros e He; unfold entry; by rewrite (nth_lookup_Some _ _ _ _ He)).
  destruct (if_active entry) eqn:Ha; cbn [negb].
  2:{ intros [= <-] [H | ->]; [done|]. intros e He Hact. apply Hnth in He. congruence. }
  destruct (ksd_kwin_queue_result _ _) as [[[status reply] n]|] eqn:Er.
  2:{ intros [= <-] [H | ->]; [done|]. intros e He _. apply Hnth in He. by subst e. }
  destruct (relay_answer _ _ _ _ _ _) as [w1|] eqn:Ea; [|done]. intros [= <-] Hk. apply relay_answer_bus in Ea.
  assert (E : kb_queue (w_bus w1) = kb_queue (w_bus w) /\ kb_inflight (w_bus w1) = kb_inflight (w_bus w)) by (by destruct Ea as [-> | ->]).
  destruct E as [E1 E2]. intros e. cbn [w_bus on_bus kb_inflight kb_queue with_inflight with_queue]. rewrite E1, E2.
  destruct (decide (i = k)) as [->|Hne].
  - intros He Hact. apply list_lookup_insert_Some in He as [(_ & <- & _)|(? & _)]; done.
  - rewrite list_lookup_insert_ne by done. destruct Hk as [Hk | ->]; [|done]. intros He Hact. apply release_result; [apply Hok|by apply Hk].
Qed.

Lemma drain_from_settles indices : forall w w' k,
  bus_ok (w_bus w) -> drain_from indices w = Some w' -> settled (w_bus w) k \/ In k indices -> settled (w_bus w') k.
Proof.
  induction indices as [|i indices IH]; intros w w' k Hok; cbn [drain_from In]; [intros [= <-] [H|[]]; done|].
  destruct (drain_entry w i) as [w1|] eqn:E; [|done]. intros H Hk.
  pose proof (drain_entry_settles w i w1 k Hok E) as Hs. apply drain_entry_moves in E as [Hm _]; [|done].
  apply (IH w1 w' k (moves_ok _ _ _ _ _ Hm) H). destruct Hk as [Hk|[->|Hk]]; [left; auto|left; auto|by right].
Qed.

Lemma drained_done w w' :
  bus_ok (w_bus w) -> relay_drain w = Some w' ->
  Forall (fun job => job_state job <> KSD_KWIN_JOB_DONE) (q_jobs (kb_queue (w_bus w'))).
Proof.
  intros Hok H. pose proof (drain_from_moves _ _ _ Hok H) as [Hm _].
  assert (Hset : forall k, (k < 128)%nat -> settled (w_bus w') k).
  { intros k Hk. eapply drain_from_settles; [exact Hok|exact H|]. right. apply in_seq. change (Z.to_nat KSD_KWIN_MAX_JOBS) with 128%nat. lia. }
  pose proof (moves_ok _ _ _ _ _ Hm) as (_ & (Hq & _ & Hl & _ & Hp)). apply Forall_lookup. intros j job Hj Hdone.
  assert (Hlive : live job = true) by (apply live_state; congruence).
  assert (Hin : In (job_sequence job, job_opcode job) (job_keys (kb_queue (w_bus w')))).
  { apply in_concat. exists (job_key job). split; [apply in_map, list_elem_of_In, list_elem_of_lookup; eauto|].
    unfold job_key. rewrite Hlive. by left. }
  rewrite <- Hp in Hin. apply in_concat in Hin as (keys & Hkeys & Hkey). apply in_map_iff in Hkeys as (entry & <- & He).
  unfold entry_key in Hkey. destruct (if_active entry) eqn:Hact; [|done]. destruct Hkey as [[= Es Eo]|[]].
  apply list_elem_of_In, list_elem_of_lookup in He as (i & Hi).
  assert (Hlt : (i < 128)%nat) by (apply lookup_lt_Some in Hi; unfold zlen, KSD_KWIN_MAX_JOBS, KSD_MAX_AUTHORITY_WORKERS in Hl; lia).
  pose proof (Hset i Hlt entry Hi Hact) as Hr. rewrite Es in Hr.
  assert (Hf : find_slot (named (job_sequence job)) (q_jobs (kb_queue (w_bus w'))) = Some (j, job)).
  { apply find_slot_unique; [done|by apply named_iff|]. intros k y Hk Hy. apply named_iff in Hy as [Hly Hys].
    destruct Hq as (_ & _ & _ & Hu & _). by eapply Hu. }
  unfold ksd_kwin_queue_result, ksd_kwin_queue_find in Hr. rewrite Hf in Hr. unfold is_state in Hr. by rewrite bool_decide_eq_true_2 in Hr.
Qed.

(** The acknowledgement of a report. *)
Definition ack_text (generation : list byte) : list byte :=
  terminated (cstr "KSK1") ++ terminated (cstr "gen " ++ generation) ++ terminated (cstr "ack") ++ terminated (cstr "end").

Lemma report_acknowledges q envelope (r := ksd_kwin_queue_report q envelope (ksd_buffer_init reply_maximum)) :
  queue_wf q -> fst (fst r) = true -> until_nul (buf_bytes (snd r)) = ack_text (q_generation q).
Proof.
  intros Hq. pose proof (report_keeps q envelope (ksd_buffer_init reply_maximum) Hq) as (_ & Hgen & _). revert Hgen.
  unfold r, ksd_kwin_queue_report. destruct (ksd_kwin_parse_report envelope) as [report|]; [|done].
  destruct (apply_report q report) as [[] queue]; cbn [negb]; [|done].
  destruct (ksd_kwin_format_report_ack (q_generation queue) (ksd_buffer_init reply_maximum)) as [ok reply] eqn:E.
  cbn [fst snd]. intros Hgen ->. rewrite Hgen in E. assert (Hg : valid_generation (q_generation q) = true) by apply Hq.
  assert (Hwf : buffer_wf (ksd_buffer_init reply_maximum)) by (apply buffer_init_wf; unfold reply_maximum, SIZE_MAX; lia).
  pose proof (report_ack_writes _ Hg _ Hwf) as H.
  rewrite E in H. destruct H as (_ & _ & _ & Hok & _). rewrite (Hok eq_refl). cbn [app buf_bytes ksd_buffer_init].
  apply until_nul_id. pose proof (valid_hex_avoids _ _ Hg) as Ha.
  assert (avoids 0 (ack_text (q_generation q))); [|done]. unfold ack_text, terminated. rewrite !avoids_app.
  repeat split; (done || (repeat constructor; done)).
Qed.

(** What a drain says comes after what was said, and is for the authority. *)
Definition for_authority (e : bus_effect) : Prop := match e with RelaySent _ _ _ | RelayShutdown => True | _ => False end.
Definition says_authority (w w' : world) : Prop := exists said, w_out w' = w_out w ++ said /\ Forall for_authority said.

Lemma says_trans w1 w2 w3 : says_authority w1 w2 -> says_authority w2 w3 -> says_authority w1 w3.
Proof.
  intros (s1 & E1 & H1) (s2 & E2 & H2). exists (s1 ++ s2). split; [by rewrite E2, E1, app_assoc|by apply Forall_app].
Qed.

Lemma relay_answer_says w request_id opcode status body n w' :
  relay_answer w request_id opcode status body n = Some w' -> says_authority w w'.
Proof.
  assert (Hself : says_authority w w) by (exists []; by rewrite app_nil_r).
  assert (Hend : forall v, says_authority w v -> says_authority w (relay_failed v)).
  { intros v Hv. eapply says_trans; [exact Hv|]. exists [RelayShutdown]. split; [done|]. by repeat constructor. }
  unfold relay_answer. destruct (answer_body _ _ _ _) as [st translated]. destruct (answer_payload _ _) as [[] payload];
    [|by intros [= <-]]. cbn [negb]. destruct (ksd_frame_pack _ _) as [[] packed]; [|intros [= <-]; by apply Hend].
  cbn [negb]. destruct (w_sends w) as [|[start turns] sends]; [done|].
  destruct (transfer_send _ _ _ _) as [[[ok arrived] rest]|]; [|done]. intros [= <-].
  set (v := emit _ _). assert (Hv : says_authority w v).
  { exists [RelaySent request_id (buf_bytes packed) arrived]. split; [done|]. by repeat constructor. }
  destruct ok; [done|by apply Hend].
Qed.

Lemma drain_from_says indices : forall w w', drain_from indices w = Some w' -> says_authority w w'.
Proof.
  assert (Hself : forall w, says_authority w w) by (intros w; exists []; by rewrite app_nil_r).
  induction indices as [|i indices IH]; intros w w'; cbn [drain_from]; [by intros [= <-]|].
  destruct (drain_entry w i) as [w1|] eqn:E; [|done]. intros H. eapply says_trans; [|by apply IH]. clear H.
  revert E. unfold drain_entry. destruct (if_active _); [|by intros [= <-]]. cbn [negb].
  destruct (ksd_kwin_queue_result _ _) as [[[status reply] n]|]; [|by intros [= <-]].
  destruct (relay_answer _ _ _ _ _ _) as [w2|] eqn:Ea; [|done]. intros [= <-]. by apply relay_answer_says in Ea.
Qed.

(** C14: A report that is acknowledged leaves nothing unanswered.  When a report of the
    script is accepted, every job it completed, and every job an earlier report left
    completed, is answered to the authority and released before the acknowledgement, with
    memory and the sends failing at any point: no job of the queue is done afterwards;
    each request that left the table was answered by a whole frame whose header carries
    its own id, or was lost with an end of the relay's socket of its own, or when an
    allocation of the size of an answer failed; only frames for the authority and ends of
    its socket come before the report's own reply, which is the acknowledgement of this
    generation. *)
Theorem kwin_report_answers w envelope invocation w' :
  bus_ok (w_bus w) ->
  fst (fst (ksd_kwin_queue_report (kb_queue (w_bus w)) envelope (ksd_buffer_init reply_maximum))) = true ->
  handle_report w envelope invocation = Some w' ->
  Forall (fun job => job_state job <> KSD_KWIN_JOB_DONE) (q_jobs (kb_queue (w_bus w'))) /\
  (exists lost, replied (w_out w') ++ pending (w_bus w') ++ lost ≡ₚ replied (w_out w) ++ pending (w_bus w) /\
     ((length lost + shutdowns (w_out w) <= shutdowns (w_out w'))%nat \/ out_of_memory answer_maximum)) /\
  exists said, w_out w' = w_out w ++ said ++ [Answered invocation (ack_text (q_generation (kb_queue (w_bus w))))] /\
    Forall for_authority said.
Proof.
  intros Hok Hacc Hr. pose proof (handle_report_moves _ _ _ _ Hok Hr) as [_ _ (lost & Hreq & _ & Hl) _ _]. rewrite app_nil_r in Hreq.
  revert Hr. unfold handle_report. pose proof (proj1 (proj2 Hok)) as Hq.
  pose proof (report_keeps (kb_queue (w_bus w)) envelope (ksd_buffer_init reply_maximum) Hq) as Hk.
  pose proof (report_good (kb_queue (w_bus w)) envelope (ksd_buffer_init reply_maximum) Hq (proj1 (proj2 (proj2 Hok)))) as Hg.
  pose proof (report_acknowledges (kb_queue (w_bus w)) envelope Hq) as Hack.
  destruct (ksd_kwin_queue_report _ _ _) as [[ok queue] reply]. cbn [fst snd] in *. subst ok.
  assert (Hok1 : bus_ok (w_bus (on_bus w (with_queue (w_bus w) queue)))).
  { split; [apply Hok|]. by eapply table_queue; [apply Hok|exact Hk|apply reported_key|]. }
  destruct (relay_drain _) as [w2|] eqn:Ed; [|done]. intros [= <-]. split; [exact (drained_done _ _ Hok1 Ed)|].
  split; [by exists lost|]. apply drain_from_says in Ed as (said & E & Hs). exists said. split; [|done].
  unfold conclude_call, answer, emit. cbn [w_out on_bus] in *. rewrite E, <- app_assoc, (Hack eq_refl). done.
Qed.
End drained.

(** ** The authority's reading of an answer *)

(** What an answer says when the script's body cannot be translated. *)
Definition answer_status (opcode status : Z) (body : list byte) : Z :=
  if status =? KSD_STATUS_OK then match response_bytes opcode body with Some _ => KSD_STATUS_OK | None => KSD_STATUS_INTERNAL end
  else status.
Definition answer_tail (opcode status : Z) (body : list byte) : list byte :=
  if status =? KSD_STATUS_OK then default [] (response_bytes opcode body) else [].

Lemma answer_text_split opcode status body :
  answer_text opcode status body = ksd_encode_u32 (answer_status opcode status body) ++ ksd_encode_u32 0 ++ answer_tail opcode status body.
Proof. unfold answer_text, answer_status, answer_tail. case_if; [by destruct (response_bytes opcode body)|done]. Qed.

(** The fields of the header of an answer. *)
Lemma answer_header request_id payload k :
  header_wf (relay_frame request_id payload) ->
  let header := encode_frame_header (relay_frame request_id payload) ++ k in
  ztake 4 header = relay_magic /\ ksd_decode_u16 (zdrop KSD_FRAME_MAJOR_OFFSET header) = KSD_PROTOCOL_MAJOR /\
  ksd_decode_u16 (zdrop KSD_FRAME_MINOR_OFFSET header) = KSD_PROTOCOL_MINOR /\
  ksd_decode_u16 (zdrop KSD_FRAME_FLAGS_OFFSET header) = 0 /\
  ksd_decode_u32 (zdrop KSD_FRAME_PAYLOAD_LENGTH_OFFSET header) = zlen payload /\
  ksd_decode_u64 (zdrop KSD_FRAME_REQUEST_ID_OFFSET header) = request_id.
Proof.
  intros Hw. pose proof (decode_encode_header _ k Hw) as H. cbv zeta.
  split; [exact (f_equal fr_magic H)|]. split; [exact (f_equal fr_major H)|]. split; [exact (f_equal fr_minor H)|].
  split; [exact (f_equal fr_flags H)|]. split; [exact (f_equal fr_payload_length H)|]. exact (f_equal fr_request_id H).
Qed.

(** How the authority's relay reads the frame of an answer. *)
Lemma answer_frame_read request_id opcode status body info :
  is_u64 request_id -> is_u32 status ->
  let frame := answer_frame request_id opcode status body in
  let header := ztake KSD_FRAME_HEADER_SIZE frame in
  let payload := zdrop KSD_FRAME_HEADER_SIZE frame in
  relay_header header (-1) =
    (if zlen payload <=? KSD_MAX_TEXT_BYTES + 8 then Some (zlen payload, false) else None) /\
  relay_body header payload false info =
    Some (mk_answer request_id (answer_status opcode status body) 0 (answer_tail opcode status body)
            (zlen (answer_tail opcode status body)) false) /\
  (In opcode [KSD_OP_WINDOW_LIST; KSD_OP_WINDOW_HANDLES; KSD_OP_WINDOW_ACTIVE; KSD_OP_WINDOW_QUERY] ->
   ksd_utf8_valid body false = true -> status = KSD_STATUS_OK -> zlen body <= KSD_MAX_TEXT_BYTES ->
   zlen payload = zlen body + 12 /\
   (relay_header header (-1) = None <-> KSD_MAX_TEXT_BYTES - 4 < zlen body)).
Proof.
  intros Hid Hst. cbv zeta. unfold answer_frame, frame_bytes. cbn [relay_frame fr_payload default from_option id].
  change (mk_frame relay_magic _ _ _ _ _ _ _) with (relay_frame request_id (answer_text opcode status body)).
  pose proof (relay_frame_wf request_id opcode status body Hid) as (Hw & _). pose proof (answer_length opcode status body) as Hlen.
  assert (Hh : zlen (encode_frame_header (relay_frame request_id (answer_text opcode status body))) = KSD_FRAME_HEADER_SIZE) by (by apply zlen_header).
  rewrite <- Hh, ztake_app_l, zdrop_app_l.
  destruct (answer_header request_id (answer_text opcode status body) [] Hw) as (H1 & H2 & H3 & H4 & H5 & H6). rewrite app_nil_r in *.
  assert (Hhead : relay_header (encode_frame_header (relay_frame request_id (answer_text opcode status body))) (-1) =
    (if zlen (answer_text opcode status body) <=? KSD_MAX_TEXT_BYTES + 8 then Some (zlen (answer_text opcode status body), false) else None)).
  { unfold relay_header. rewrite H1, H2, H3, H4, H5. unfold bytes_eqb. rewrite bool_decide_eq_true_2 by done. cbn [negb orb andb Bool.eqb Z.leb].
    change (Bool.eqb (0 =? KSD_RELAY_CAPTURE_FD) (0 <=? -1)) with true. change (0 =? 0) with true. change (0 =? KSD_RELAY_CAPTURE_FD) with false.
    change (KSD_PROTOCOL_MAJOR =? KSD_PROTOCOL_MAJOR) with true. change (KSD_PROTOCOL_MINOR =? KSD_PROTOCOL_MINOR) with true. cbn [negb orb andb].
    replace (zlen (answer_text opcode status body) <? 8) with false by lia. cbn [orb]. rewrite orb_false_r, Z.ltb_antisym.
    by destruct (zlen (answer_text opcode status body) <=? KSD_MAX_TEXT_BYTES + 8). }
  split; [exact Hhead|]. split.
  - unfold relay_body. cbn [andb negb]. rewrite H6, answer_text_split.
    assert (Hs : is_u32 (answer_status opcode status body)).
    { unfold answer_status. case_if; [destruct (response_bytes opcode body)|done]; unfold is_u32, KSD_STATUS_OK, KSD_STATUS_INTERNAL; lia. }
    rewrite decode_u32_field by done. change (zdrop 4 (ksd_encode_u32 (answer_status opcode status body) ++ ?k)) with k.
    change (zdrop 8 (ksd_encode_u32 (answer_status opcode status body) ++ ksd_encode_u32 0 ++ ?k)) with k.
    rewrite decode_u32_field by (unfold is_u32; lia). rewrite !zlen_app, !zlen_u32. do 2 f_equal. lia.
  - intros Hop Hu -> Hl. assert (Hz : zlen (answer_text opcode KSD_STATUS_OK body) = zlen body + 12).
    { unfold answer_text, response_bytes. rewrite (proj2 (any_of_in _ _) Hop), Hu. rewrite (proj2 (Z.leb_le _ _) Hl). cbn [andb].
      rewrite Z.eqb_refl, !zlen_app, !zlen_u32. lia. }
    rewrite Hhead, Hz. split; [done|]. destruct (Z.leb_spec (zlen body + 12) (KSD_MAX_TEXT_BYTES + 8)); [split; [done|lia]|split; [lia|done]].
Qed.

Section reading.
Context {AL : Allocator}.

(** C13: The authority understands what the service answers, but for the longest texts.
    With memory to make it, an answer sends one frame under the request's id, whole
    unless the socket is then shut down.  The header check of the authority's relay
    accepts it exactly when its payload is at most eight bytes over
    [KSD_MAX_TEXT_BYTES], and its body is read back as the request's id, the status and
    the translated tail.  The translation of a window text is that text behind four
    bytes of length, so of the texts the service itself lets through, those of more than
    [KSD_MAX_TEXT_BYTES] - 4 bytes make a frame the relay refuses, which closes the
    channel. *)
Theorem kwin_answer_read w request_id opcode status body info w' :
  AllocTotal AL -> is_u64 request_id -> is_u32 status ->
  relay_answer w request_id opcode status (body_pointer body) (zlen body) = Some w' ->
  exists frame arrived said,
    w_out w' = w_out w ++ RelaySent request_id frame arrived :: said /\
    (said = [] /\ arrived = frame \/ said = [RelayShutdown]) /\
    let header := ztake KSD_FRAME_HEADER_SIZE frame in
    let payload := zdrop KSD_FRAME_HEADER_SIZE frame in
    relay_header header (-1) =
      (if zlen payload <=? KSD_MAX_TEXT_BYTES + 8 then Some (zlen payload, false) else None) /\
    relay_body header payload false info =
      Some (mk_answer request_id (answer_status opcode status body) 0 (answer_tail opcode status body)
              (zlen (answer_tail opcode status body)) false) /\
    (In opcode [KSD_OP_WINDOW_LIST; KSD_OP_WINDOW_HANDLES; KSD_OP_WINDOW_ACTIVE; KSD_OP_WINDOW_QUERY] ->
     ksd_utf8_valid body false = true -> status = KSD_STATUS_OK -> zlen body <= KSD_MAX_TEXT_BYTES ->
     zlen payload = zlen body + 12 /\
     (relay_header header (-1) = None <-> KSD_MAX_TEXT_BYTES - 4 < zlen body)).
Proof.
  intros HA Hid Hst H. apply relay_answer_exact in H as (start & turns & sends & ok & arrived & rest & _ & Hsend & ->); [|done..].
  apply transfer_send_spec in Hsend as (n & _ & Hok). cbn [app] in Hok.
  exists (answer_frame request_id opcode status body), arrived, (if ok then [] else [RelayShutdown]).
  split; [destruct ok; [done|]; cbn [w_out relay_failed on_bus emit]; by rewrite <- app_assoc|].
  split; [destruct ok; [left; auto|by right]|]. by apply answer_frame_read.
Qed.
End reading.

(** ** The script, and nobody else *)

Section intruders.
Context {AL : Allocator}.

(** Only the compositor's script of this run is heard.  A call is let in exactly
    when it comes from the unique name the service was started for and, but for a Hello,
    which must carry no generation, under the queue's own generation; and a call that is
    not let in is refused and changes nothing, not even what the queue holds. *)
Theorem kwin_intruder_refused w sender method generation envelope invocation now_ms later_ms :
  let b := w_bus w in
  let hello := bytes_eqb method (cstr "Hello") in
  (call_allowed b sender hello generation = true <->
   sender = Some (kb_peer b) /\
   (if hello then byte_at generation 0 = 0
    else generation = q_generation (kb_queue b) /\ unique_name_valid (kb_peer b) = true /\ valid_generation generation = true)) /\
  (call_allowed b sender hello generation = false ->
   handle_call w sender method generation envelope invocation now_ms later_ms = Some (emit w (Refused invocation AccessDenied))).
Proof.
  cbv zeta. split.
  - unfold call_allowed. destruct sender as [name|]; [|split; [done|by intros [? _]]]. unfold bytes_eqb at 1. rewrite andb_true_iff, bool_decide_eq_true.
    destruct (bytes_eqb method (cstr "Hello")).
    + rewrite Z.eqb_eq. split; intros [E H]; (split; [congruence|done]).
    + rewrite peer_allowed_iff. split.
      * intros [E (u & g & [= Hu] & _ & [= Hgq] & [= Hg] & _ & Hv & Hvg)]. subst. done.
      * intros ([= ->] & -> & Hv & Hvg). split; [done|]. by exists (kb_peer (w_bus w)), (q_generation (kb_queue (w_bus w))).
  - intros H. unfold handle_call. by rewrite H.
Qed.

(** No job waits while the script listens.  From the start of the service, whatever
    happens and in whatever order, a lane whose poll is parked has no queued job: a job
    only waits while the script has not come back for it. *)
Theorem kwin_no_job_waits generation q relay uid peer node b0 b sends events w' :
  ksd_kwin_queue_init generation = Some q -> ksd_kwin_bus_start (Some q) relay uid peer node = Some b0 ->
  ksd_kwin_bus_run (Some b0) = inr b -> Forall bus_event_ok events -> zlen events < 2 ^ 64 - 1 ->
  bus_loop (mk_world b sends []) events = Some w' ->
  forall job, In job (q_jobs (kb_queue (w_bus w'))) -> job_state job = KSD_KWIN_JOB_QUEUED ->
    nth (lane_slot (job_lane job)) (kb_parked (w_bus w')) None = None.
Proof.
  intros Hq Hb0 Hb He Hn H. destruct (start_ok _ _ _ _ _ _ _ _ Hq Hb0 Hb) as (Hok & _ & _ & Hc & Hjobs). injection Hc as Hs Ht.
  apply bus_loop_quiet in H; [|done|done| |cbn [w_bus]; lia|cbn [w_bus]; lia].
  - unfold quiet in H. by rewrite List.Forall_forall in H.
  - unfold quiet. cbn [w_bus]. rewrite Hjobs. apply List.Forall_forall. intros job Hj%repeat_spec. by subst.
Qed.
End intruders.

#[local] Existing Instance infinite_memory.
Lemma listening_quiet : quiet (w_bus listening_world).
Proof.
  destruct session_start as (Hq & Hb0 & Hb). destruct (start_ok _ _ _ _ _ _ _ _ Hq Hb0 Hb) as (Hok & _ & _ & _ & Hjobs).
  assert (He : Forall bus_event_ok listening_events) by (repeat constructor).
  apply (bus_loop_quiet listening_events idle_world listening_world He Hok); [|vm_compute; reflexivity..|exact listening_runs].
  unfold quiet. cbn [w_bus idle_world]. rewrite Hjobs. apply List.Forall_forall. intros job Hj%repeat_spec. by subst.
Qed.

Lemma kwin_no_job_waits_witness :
  forall job, In job (q_jobs (kb_queue (w_bus session_end))) -> job_state job = KSD_KWIN_JOB_QUEUED ->
    nth (lane_slot (job_lane job)) (kb_parked (w_bus session_end)) None = None.
Proof.
  apply (kwin_no_job_waits (AL := infinite_memory) sample_generation sample_queue 9 1000 (Some script_name) true
           (with_sources idle_bus false false false None) idle_bus open_sends session_events session_end).
  - apply session_start.
  - apply session_start.
  - apply session_start.
  - exact session_ok.
  - vm_compute. reflexivity.
  - exact session_runs.
Defined.

Lemma kwin_request_sent_at_once_witness :
  exists w' job,
    relay_take (AL := infinite_memory) listening_world 77 KSD_OP_CURSOR_POSITION [] 100 110 = Some w' /\
    w_out w' = w_out listening_world ++ [Answered 2
      (poll_reply_text (q_generation (kb_queue (w_bus listening_world))) (ksd_kwin_lane_for KSD_OP_CURSOR_POSITION) 0 [job])] /\
    dispatch_sequence job = format_sequence (q_next_sequence (kb_queue (w_bus listening_world))) /\
    dispatch_opcode job = KSD_OP_CURSOR_POSITION /\ dispatch_data job = [] /\
    (0 <= 100 -> 100 + KSD_KWIN_OP_DEADLINE_MS < 2 ^ 64 -> 100 <= 110 < 100 + KSD_KWIN_OP_DEADLINE_MS ->
     dispatch_budget_ms job = 100 + KSD_KWIN_OP_DEADLINE_MS - 110) /\
    In (mk_inflight true 77 KSD_OP_CURSOR_POSITION (dispatch_sequence job)) (kb_inflight (w_bus w')) /\
    pending (w_bus w') ≡ₚ pending (w_bus listening_world) ++ [77].
Proof.
  apply (kwin_request_sent_at_once (AL := infinite_memory) listening_world 77 KSD_OP_CURSOR_POSITION [] [] 2 100 110).
  - exact memory_total.
  - exact listening_ok.
  - exact listening_quiet.
  - unfold is_u64. lia.
  - vm_compute. reflexivity.
  - vm_compute. reflexivity.
  - vm_compute. reflexivity.
  - vm_compute. reflexivity.
  - vm_compute. reflexivity.
Defined.

Lemma kwin_report_answers_witness :
  exists w', handle_report (AL := infinite_memory) asked_world sample_report 4 = Some w' /\
  Forall (fun job => job_state job <> KSD_KWIN_JOB_DONE) (q_jobs (kb_queue (w_bus w'))) /\
  (exists lost, replied (w_out w') ++ pending (w_bus w') ++ lost ≡ₚ replied (w_out asked_world) ++ pending (w_bus asked_world) /\
     ((length lost + shutdowns (w_out asked_world) <= shutdowns (w_out w'))%nat \/
      out_of_memory (AL := infinite_memory) answer_maximum)) /\
  exists said, w_out w' = w_out asked_world ++ said ++ [Answered 4 (ack_text (q_generation (kb_queue (w_bus asked_world))))] /\
    Forall for_authority said.
Proof.
  exists (default idle_world (handle_report (AL := infinite_memory) asked_world sample_report 4)).
  assert (H : handle_report (AL := infinite_memory) asked_world sample_report 4 =
    Some (default idle_world (handle_report (AL := infinite_memory) asked_world sample_report 4))) by (vm_compute; reflexivity).
  split; [exact H|].
  apply (kwin_report_answers (AL := infinite_memory) asked_world sample_report 4 _ asked_ok).
  - vm_compute. reflexivity.
  - exact H.
Defined.

Lemma kwin_answer_read_witness :
  exists w', relay_answer (AL := infinite_memory) idle_world 77 KSD_OP_WINDOW_LIST KSD_STATUS_OK (body_pointer (cstr "{}")) (zlen (cstr "{}")) = Some w' /\
  exists frame arrived said,
    w_out w' = w_out idle_world ++ RelaySent 77 frame arrived :: said /\
    (said = [] /\ arrived = frame \/ said = [RelayShutdown]) /\
    let header := ztake KSD_FRAME_HEADER_SIZE frame in
    let payload := zdrop KSD_FRAME_HEADER_SIZE frame in
    relay_header header (-1) =
      (if zlen payload <=? KSD_MAX_TEXT_BYTES + 8 then Some (zlen payload, false) else None) /\
    relay_body header payload false (mk_info false 0 0) =
      Some (mk_answer 77 (answer_status KSD_OP_WINDOW_LIST KSD_STATUS_OK (cstr "{}")) 0 (answer_tail KSD_OP_WINDOW_LIST KSD_STATUS_OK (cstr "{}"))
              (zlen (answer_tail KSD_OP_WINDOW_LIST KSD_STATUS_OK (cstr "{}"))) false) /\
    (In KSD_OP_WINDOW_LIST [KSD_OP_WINDOW_LIST; KSD_OP_WINDOW_HANDLES; KSD_OP_WINDOW_ACTIVE; KSD_OP_WINDOW_QUERY] ->
     ksd_utf8_valid (cstr "{}") false = true -> KSD_STATUS_OK = KSD_STATUS_OK -> zlen (cstr "{}") <= KSD_MAX_TEXT_BYTES ->
     zlen payload = zlen (cstr "{}") + 12 /\
     (relay_header header (-1) = None <-> KSD_MAX_TEXT_BYTES - 4 < zlen (cstr "{}"))).
Proof.
  exists (default idle_world (relay_answer (AL := infinite_memory) idle_world 77 KSD_OP_WINDOW_LIST KSD_STATUS_OK (body_pointer (cstr "{}")) (zlen (cstr "{}")))).
  assert (H : relay_answer (AL := infinite_memory) idle_world 77 KSD_OP_WINDOW_LIST KSD_STATUS_OK (body_pointer (cstr "{}")) (zlen (cstr "{}")) =
    Some (default idle_world (relay_answer (AL := infinite_memory) idle_world 77 KSD_OP_WINDOW_LIST KSD_STATUS_OK (body_pointer (cstr "{}")) (zlen (cstr "{}")))))
    by (vm_compute; reflexivity).
  split; [exact H|].
  apply (kwin_answer_read (AL := infinite_memory) idle_world 77 KSD_OP_WINDOW_LIST KSD_STATUS_OK (cstr "{}") (mk_info false 0 0)).
  - exact memory_total.
  - unfold is_u64. lia.
  - unfold is_u32, KSD_STATUS_OK. lia.
  - exact H.
Defined.
