(* ===== verification/HyprJson.v ===== *)
(** * The JSON Hyprland writes (the readers of src/wayland/wl_hypr.c)

    A cursor over the bytes of a reply, the readers that move it, and the documents the
    worker asks for: the windows and the focused one, the active workspace, the monitors
    and the layout of the main keyboard.  A cursor is the bytes from where it stands to
    the end of the reply; a reader gives what it read, or nothing, and the cursor as it
    left it either way.  An array of characters is the C string it holds.

    The theorems: no reader leaves the reply, every loop over a list ends by itself, and
    what is read is well formed whatever the compositor sends.  HyprText.v says what the
    readers find in the texts that spell a value. *)
From Stdlib Require Import ZArith Lia Strings.Byte Strings.String.
From stdpp Require Import base list option numbers tactics.
From S2P Require Import Prelude.
From S2P Require Import Buffer.
From S2P Require Import KwinEnvelope.
From S2P Require Import Install.
From S2P Require Import KwinTranslate.
Local Open Scope Z_scope.
Local Open Scope ksd_scope.

(** ** Cursors *)

Definition json_cursor := list byte.
Definition reader (A : Type) := json_cursor -> option A * json_cursor.

Definition gives {A} (a : A) : reader A := fun cursor => (Some a, cursor).
Definition and_then {A B} (r : reader A) (k : A -> reader B) : reader B := fun cursor =>
  match r cursor with (Some a, cursor) => k a cursor | (None, cursor) => (None, cursor) end.
Notation "'read' x '<-' r ';' k" := (and_then r (fun x => k))
  (at level 200, x pattern, r at level 100, k at level 200, right associativity) : ksd_scope.
Definition when {A} (ok : bool) (r : reader A) : reader A := fun cursor => if ok then r cursor else (None, cursor).

Definition json_space (cursor : json_cursor) : json_cursor := skip is_space cursor.

Definition json_take (expected : Z) (cursor : json_cursor) : bool * json_cursor :=
  match json_space cursor with
  | b :: rest => if b2z b =? expected then (true, rest) else (false, b :: rest)
  | [] => (false, [])
  end.
Definition json_peek (expected : Z) (cursor : json_cursor) : bool * json_cursor :=
  match json_space cursor with
  | b :: rest => (b2z b =? expected, b :: rest)
  | [] => (false, [])
  end.
(** A [json_take] whose failure ends the reader. *)
Definition expect (expected : Z) : reader unit := fun cursor =>
  let '(taken, cursor) := json_take expected cursor in (if taken then Some tt else None, cursor).

Definition DQUOTE : Z := 0x22.
Definition BACKSLASH : Z := 0x5c.
Definition COMMA : Z := 0x2c.
Definition COLON : Z := 0x3a.
Definition LBRACE : Z := 0x7b.
Definition RBRACE : Z := 0x7d.
Definition LBRACKET : Z := 0x5b.
Definition RBRACKET : Z := 0x5d.

(** ** Scalars *)

(** One character of a string into the array [out], of which [None] is the NULL
    pointer; and whether a character has been left out. *)
Definition store_char (capacity : option Z) (value : byte) (out : list byte * bool) : list byte * bool :=
  match capacity with
  | None => out
  | Some capacity => if zlen (fst out) + 1 <? capacity then (fst out ++ [value], snd out) else (fst out, true)
  end.

(** The plain character an escape becomes. *)
Definition escaped (value : byte) : byte :=
  if existsb (fun c => b2z value =? c) [0x6e; 0x74; 0x72; 0x62; 0x66] then x20 else value.

Fixpoint string_loop (capacity : option Z) (out : list byte * bool) (cursor : json_cursor) {struct cursor}
    : option (list byte * bool) * json_cursor :=
  match cursor with
  | [] => (Some out, [])
  | value :: rest =>
    if b2z value =? DQUOTE then (Some out, cursor)
    else if b2z value =? BACKSLASH then
      match rest with
      | [] => (None, [])
      | value :: rest =>
        if b2z value =? 0x75 then
          match rest with
          | _ :: _ :: _ :: _ :: rest => string_loop capacity (store_char capacity x3f out) rest
          | _ => (None, rest)
          end
        else string_loop capacity (store_char capacity (escaped value) out) rest
      end
    else string_loop capacity (store_char capacity value out) rest
  end.

(** The string in [out], up to a NUL among its characters, and [truncated]. *)
Definition json_string (capacity : option Z) : reader (list byte * bool) :=
  read _ <- expect DQUOTE;
  read (out, truncated) <- string_loop capacity ([], false);
  read _ <- expect DQUOTE;
  gives (until_nul out, truncated).

Definition number_byte (b : byte) : bool :=
  digit_byte b || existsb (fun c => b2z b =? c) [0x2d; 0x2b; 0x2e; 0x65; 0x45].
(** The characters of a number, as many as the array has room for. *)
Fixpoint number_run (room : nat) (cursor : json_cursor) : list byte * json_cursor :=
  match cursor, room with
  | b :: rest, S room => if number_byte b then let '(digits, rest) := number_run room rest in (b :: digits, rest) else ([], cursor)
  | _, _ => ([], cursor)
  end.

(** [strtoll] in base 10: [None] when it converts nothing or sets [errno]. *)
Definition strtoll (s : list byte) : option (Z * list byte) :=
  let '(negative, s) := sign_of (skip is_space s) in
  let '(digits, rest) := digit_run s in
  guard* negb (bytes_eqb digits []) in
  let value := if negative then - dval 0 digits else dval 0 digits in
  guard* (LLONG_MIN <=? value) && (value <=? LLONG_MAX) in Some (value, rest).

Definition json_integer : reader Z := fun cursor =>
  let '(digits, cursor) := number_run 31 (json_space cursor) in
  (if bytes_eqb digits [] then None else let* (value, _) := strtoll digits in Some value, cursor).

Definition json_literal (word : list byte) (cursor : json_cursor) : bool * json_cursor :=
  let cursor := json_space cursor in
  if (zlen word <=? zlen cursor) && bytes_eqb (ztake (zlen word) cursor) word then (true, zdrop (zlen word) cursor)
  else (false, cursor).
Definition literal (word : list byte) : reader unit := fun cursor =>
  let '(ok, cursor) := json_literal word cursor in (if ok then Some tt else None, cursor).

Definition json_boolean : reader bool := fun cursor =>
  let '(ok, cursor) := json_literal (cstr "true") cursor in
  if ok then (Some true, cursor)
  else let '(ok, cursor) := json_literal (cstr "false") cursor in
    (if ok then Some false else None, cursor).

(** ** Lists *)

(** [do body while (json_take(cursor, ','))]: every turn but the last takes a comma, so
    there are no more turns than bytes. *)
Fixpoint do_while {St} (fuel : nat) (body : St -> reader St) (s : St) (cursor : json_cursor) : option St * json_cursor :=
  match fuel with
  | O => (None, cursor)
  | S fuel =>
    match body s cursor with
    | (None, cursor) => (None, cursor)
    | (Some s, cursor) =>
      let '(again, cursor) := json_take COMMA cursor in
      if again then do_while fuel body s cursor else (Some s, cursor)
    end
  end.
Definition items {St} (body : St -> reader St) (s : St) : reader St := fun cursor => do_while (S (length cursor)) body s cursor.

(** What is between an opening bracket, which has been taken, and its closing one. *)
Definition bracketed {St} (close : Z) (body : St -> reader St) (s : St) : reader St := fun cursor =>
  let '(closed, cursor) := json_take close cursor in
  if closed then (Some s, cursor) else (read s <- items body s; read _ <- expect close; gives s) cursor.

(** A key into an array of [capacity] characters, and the colon. *)
Definition json_key (capacity : option Z) : reader (list byte) :=
  read (key, _) <- json_string capacity;
  read _ <- expect COLON;
  gives key.

Definition KSD_HYPR_JSON_DEPTH : Z := 16.
(** [json_skip], by the depths that are left. *)
Fixpoint skip_levels (levels : nat) (cursor : json_cursor) : option unit * json_cursor :=
  match levels with
  | O => (None, cursor)
  | S levels =>
    match json_space cursor with
    | [] => (None, [])
    | b :: rest =>
      let at_value := b :: rest in
      if b2z b =? DQUOTE then (read _ <- json_string None; gives tt) at_value
      else if b2z b =? LBRACE then
        bracketed RBRACE (fun _ => read _ <- json_key None; skip_levels levels) tt rest
      else if b2z b =? LBRACKET then bracketed RBRACKET (fun _ => skip_levels levels) tt rest
      else if b2z b =? 0x74 then literal (cstr "true") at_value
      else if b2z b =? 0x66 then literal (cstr "false") at_value
      else if b2z b =? 0x6e then literal (cstr "null") at_value
      else (read _ <- json_integer; gives tt) at_value
    end
  end.
Definition json_skip (depth : Z) : reader unit := skip_levels (Z.to_nat (KSD_HYPR_JSON_DEPTH + 1 - depth)).

Definition json_pair : reader (Z * Z) :=
  read _ <- expect LBRACKET;
  read a <- json_integer;
  read _ <- expect COMMA;
  read b <- json_integer;
  read _ <- expect RBRACKET;
  when (int32_range a && int32_range b) (gives (a, b)).

(** ** A window *)

Definition KSD_HYPR_ID_CAPACITY : Z := 32.
Definition KSD_HYPR_WORKSPACE_CAPACITY : Z := 64.

Record ksd_hypr_client := mk_client {
  hc_stable_id : list byte; hc_address : list byte; hc_workspace_name : list byte;
  hc_workspace_id : Z; hc_pid : Z; hc_stacking_order : Z;
  hc_x : Z; hc_y : Z; hc_width : Z;
  hc_height : Z; hc_fullscreen : Z; hc_mapped : bool;
  hc_hidden : bool; hc_visible : bool; hc_floating : bool;
  hc_pinned : bool; hc_over_fullscreen : bool; hc_active : bool;
}.

Definition set_stable_id (stable_id : list byte) (c : ksd_hypr_client) : ksd_hypr_client :=
  mk_client stable_id (hc_address c) (hc_workspace_name c) (hc_workspace_id c) (hc_pid c) (hc_stacking_order c) (hc_x c) (hc_y c) (hc_width c)
    (hc_height c) (hc_fullscreen c) (hc_mapped c) (hc_hidden c) (hc_visible c) (hc_floating c) (hc_pinned c) (hc_over_fullscreen c) (hc_active c).
Definition set_address (address : list byte) (c : ksd_hypr_client) : ksd_hypr_client :=
  mk_client (hc_stable_id c) address (hc_workspace_name c) (hc_workspace_id c) (hc_pid c) (hc_stacking_order c) (hc_x c) (hc_y c) (hc_width c)
    (hc_height c) (hc_fullscreen c) (hc_mapped c) (hc_hidden c) (hc_visible c) (hc_floating c) (hc_pinned c) (hc_over_fullscreen c) (hc_active c).
Definition set_workspace_name (workspace_name : list byte) (c : ksd_hypr_client) : ksd_hypr_client :=
  mk_client (hc_stable_id c) (hc_address c) workspace_name (hc_workspace_id c) (hc_pid c) (hc_stacking_order c) (hc_x c) (hc_y c) (hc_width c)
    (hc_height c) (hc_fullscreen c) (hc_mapped c) (hc_hidden c) (hc_visible c) (hc_floating c) (hc_pinned c) (hc_over_fullscreen c) (hc_active c).
Definition set_workspace_id (workspace_id : Z) (c : ksd_hypr_client) : ksd_hypr_client :=
  mk_client (hc_stable_id c) (hc_address c) (hc_workspace_name c) workspace_id (hc_pid c) (hc_stacking_order c) (hc_x c) (hc_y c) (hc_width c)
    (hc_height c) (hc_fullscreen c) (hc_mapped c) (hc_hidden c) (hc_visible c) (hc_floating c) (hc_pinned c) (hc_over_fullscreen c) (hc_active c).
Definition set_pid (pid : Z) (c : ksd_hypr_client) : ksd_hypr_client :=
  mk_client (hc_stable_id c) (hc_address c) (hc_workspace_name c) (hc_workspace_id c) pid (hc_stacking_order c) (hc_x c) (hc_y c) (hc_width c)
    (hc_height c) (hc_fullscreen c) (hc_mapped c) (hc_hidden c) (hc_visible c) (hc_floating c) (hc_pinned c) (hc_over_fullscreen c) (hc_active c).
Definition set_stacking_order (stacking_order : Z) (c : ksd_hypr_client) : ksd_hypr_client :=
  mk_client (hc_stable_id c) (hc_address c) (hc_workspace_name c) (hc_workspace_id c) (hc_pid c) stacking_order (hc_x c) (hc_y c) (hc_width c)
    (hc_height c) (hc_fullscreen c) (hc_mapped c) (hc_hidden c) (hc_visible c) (hc_floating c) (hc_pinned c) (hc_over_fullscreen c) (hc_active c).
Definition set_fullscreen (fullscreen : Z) (c : ksd_hypr_client) : ksd_hypr_client :=
  mk_client (hc_stable_id c) (hc_address c) (hc_workspace_name c) (hc_workspace_id c) (hc_pid c) (hc_stacking_order c) (hc_x c) (hc_y c) (hc_width c)
    (hc_height c) fullscreen (hc_mapped c) (hc_hidden c) (hc_visible c) (hc_floating c) (hc_pinned c) (hc_over_fullscreen c) (hc_active c).
Definition set_mapped (mapped : bool) (c : ksd_hypr_client) : ksd_hypr_client :=
  mk_client (hc_stable_id c) (hc_address c) (hc_workspace_name c) (hc_workspace_id c) (hc_pid c) (hc_stacking_order c) (hc_x c) (hc_y c) (hc_width c)
    (hc_height c) (hc_fullscreen c) mapped (hc_hidden c) (hc_visible c) (hc_floating c) (hc_pinned c) (hc_over_fullscreen c) (hc_active c).
Definition set_hidden (hidden : bool) (c : ksd_hypr_client) : ksd_hypr_client :=
  mk_client (hc_stable_id c) (hc_address c) (hc_workspace_name c) (hc_workspace_id c) (hc_pid c) (hc_stacking_order c) (hc_x c) (hc_y c) (hc_width c)
    (hc_height c) (hc_fullscreen c) (hc_mapped c) hidden (hc_visible c) (hc_floating c) (hc_pinned c) (hc_over_fullscreen c) (hc_active c).
Definition set_visible (visible : bool) (c : ksd_hypr_client) : ksd_hypr_client :=
  mk_client (hc_stable_id c) (hc_address c) (hc_workspace_name c) (hc_workspace_id c) (hc_pid c) (hc_stacking_order c) (hc_x c) (hc_y c) (hc_width c)
    (hc_height c) (hc_fullscreen c) (hc_mapped c) (hc_hidden c) visible (hc_floating c) (hc_pinned c) (hc_over_fullscreen c) (hc_active c).
Definition set_floating (floating : bool) (c : ksd_hypr_client) : ksd_hypr_client :=
  mk_client (hc_stable_id c) (hc_address c) (hc_workspace_name c) (hc_workspace_id c) (hc_pid c) (hc_stacking_order c) (hc_x c) (hc_y c) (hc_width c)
    (hc_height c) (hc_fullscreen c) (hc_mapped c) (hc_hidden c) (hc_visible c) floating (hc_pinned c) (hc_over_fullscreen c) (hc_active c).
Definition set_pinned (pinned : bool) (c : ksd_hypr_client) : ksd_hypr_client :=
  mk_client (hc_stable_id c) (hc_address c) (hc_workspace_name c) (hc_workspace_id c) (hc_pid c) (hc_stacking_order c) (hc_x c) (hc_y c) (hc_width c)
    (hc_height c) (hc_fullscreen c) (hc_mapped c) (hc_hidden c) (hc_visible c) (hc_floating c) pinned (hc_over_fullscreen c) (hc_active c).
Definition set_over_fullscreen (over_fullscreen : bool) (c : ksd_hypr_client) : ksd_hypr_client :=
  mk_client (hc_stable_id c) (hc_address c) (hc_workspace_name c) (hc_workspace_id c) (hc_pid c) (hc_stacking_order c) (hc_x c) (hc_y c) (hc_width c)
    (hc_height c) (hc_fullscreen c) (hc_mapped c) (hc_hidden c) (hc_visible c) (hc_floating c) (hc_pinned c) over_fullscreen (hc_active c).
Definition set_active (active : bool) (c : ksd_hypr_client) : ksd_hypr_client :=
  mk_client (hc_stable_id c) (hc_address c) (hc_workspace_name c) (hc_workspace_id c) (hc_pid c) (hc_stacking_order c) (hc_x c) (hc_y c) (hc_width c)
    (hc_height c) (hc_fullscreen c) (hc_mapped c) (hc_hidden c) (hc_visible c) (hc_floating c) (hc_pinned c) (hc_over_fullscreen c) active.
Definition set_at (at_xy : Z * Z) (c : ksd_hypr_client) : ksd_hypr_client :=
  mk_client (hc_stable_id c) (hc_address c) (hc_workspace_name c) (hc_workspace_id c) (hc_pid c) (hc_stacking_order c) (fst at_xy) (snd at_xy) (hc_width c)
    (hc_height c) (hc_fullscreen c) (hc_mapped c) (hc_hidden c) (hc_visible c) (hc_floating c) (hc_pinned c) (hc_over_fullscreen c) (hc_active c).
Definition set_size (size : Z * Z) (c : ksd_hypr_client) : ksd_hypr_client :=
  mk_client (hc_stable_id c) (hc_address c) (hc_workspace_name c) (hc_workspace_id c) (hc_pid c) (hc_stacking_order c) (hc_x c) (hc_y c) (fst size)
    (snd size) (hc_fullscreen c) (hc_mapped c) (hc_hidden c) (hc_visible c) (hc_floating c) (hc_pinned c) (hc_over_fullscreen c) (hc_active c).

Definition empty_client : ksd_hypr_client :=
  mk_client [] [] [] 0 0 0 0 0 0 0 0 false false false false false false false.
(** A window before its members are read: [memset], then two that are assumed. *)
Definition fresh_client : ksd_hypr_client := set_visible true (set_mapped true empty_client).

Definition key_is (key : list byte) (name : string) : bool := bytes_eqb key (cstr name).

Definition workspace_member (client : ksd_hypr_client) : reader ksd_hypr_client :=
  read key <- json_key (Some 16);
  if key_is key "id" then read id <- json_integer; gives (set_workspace_id id client)
  else if key_is key "name" then
    read (name, truncated) <- json_string (Some KSD_HYPR_WORKSPACE_CAPACITY);
    gives (set_workspace_name (if truncated then [] else name) client)
  else read _ <- json_skip 1; gives client.
Definition json_workspace (client : ksd_hypr_client) : reader ksd_hypr_client :=
  read _ <- expect LBRACE;
  bracketed RBRACE workspace_member client.

Definition xdigit_byte (b : byte) : bool :=
  digit_byte b || ((97 <=? b2z b) && (b2z b <=? 102)) || ((65 <=? b2z b) && (b2z b <=? 70)).
Definition address_valid (address : list byte) : bool :=
  match address with
  | a :: b :: rest => (b2z a =? 0x30) && (b2z b =? 0x78) && negb (bytes_eqb rest []) && forallb xdigit_byte rest
  | _ => false
  end.

(** An integer mode on current releases, a boolean on old ones. *)
Definition json_fullscreen (client : ksd_hypr_client) : reader ksd_hypr_client := fun cursor =>
  let '(t, cursor) := json_peek 0x74 cursor in
  let '(f, cursor) := json_peek 0x66 cursor in
  if t || f then (read flag <- json_boolean; gives (set_fullscreen (if flag then 1 else 0) client)) cursor
  else (read number <- json_integer; gives (set_fullscreen (if 0 <? number then 1 else 0) client)) cursor.

(** One member: the window and [ids_truncated]. *)
Definition client_member (s : ksd_hypr_client * bool) : reader (ksd_hypr_client * bool) :=
  let '(client, ids_truncated) := s in
  read key <- json_key (Some 32);
  let flag (set : bool -> ksd_hypr_client -> ksd_hypr_client) : reader (ksd_hypr_client * bool) :=
    read value <- json_boolean; gives (set value client, ids_truncated) in
  if key_is key "address" then
    read (text, truncated) <- json_string (Some KSD_HYPR_ID_CAPACITY);
    gives (set_address text client, ids_truncated || truncated)
  else if key_is key "stableId" then
    read (text, truncated) <- json_string (Some KSD_HYPR_ID_CAPACITY);
    gives (set_stable_id text client, ids_truncated || truncated)
  else if key_is key "mapped" then flag set_mapped
  else if key_is key "hidden" then flag set_hidden
  else if key_is key "visible" then flag set_visible
  else if key_is key "floating" then flag set_floating
  else if key_is key "pinned" then flag set_pinned
  else if key_is key "overFullscreen" then flag set_over_fullscreen
  else if key_is key "at" then read xy <- json_pair; gives (set_at xy client, ids_truncated)
  else if key_is key "size" then read wh <- json_pair; gives (set_size wh client, ids_truncated)
  else if key_is key "workspace" then read client <- json_workspace client; gives (client, ids_truncated)
  else if key_is key "pid" then read pid <- json_integer; gives (set_pid pid client, ids_truncated)
  else if key_is key "fullscreen" then read client <- json_fullscreen client; gives (client, ids_truncated)
  else read _ <- json_skip 1; gives (client, ids_truncated).

Definition json_client : reader ksd_hypr_client :=
  read _ <- expect LBRACE;
  fun cursor =>
  let '(closed, cursor) := json_take RBRACE cursor in
  if closed then (None, cursor) else
  (read (client, ids_truncated) <- items client_member (fresh_client, false);
   read _ <- expect RBRACE;
   when (negb ids_truncated && negb (bytes_eqb (hc_stable_id client) []) && address_valid (hc_address client))
     (gives client)) cursor.

(** ** The list of windows *)

Section windows.
Context {AL : Allocator}.

Definition KSD_HYPR_MAX_CLIENTS : Z := 4096.
(** [sizeof(ksd_hypr_client)]. *)
Definition CLIENT_BYTES : Z := 176.

(** One element: an object without the members that address a window is passed over. *)
Definition clients_element (s : list ksd_hypr_client * Z) : reader (list ksd_hypr_client * Z) := fun start =>
  let '(clients, capacity) := s in
  match json_client start with
  | (None, _) => (read _ <- json_skip 1; gives s) start
  | (Some client, cursor) =>
    if zlen clients =? KSD_HYPR_MAX_CLIENTS then (Some s, cursor)
    else
      let grown := if zlen clients =? capacity then (if capacity =? 0 then 16 else capacity * 2) else capacity in
      if (zlen clients =? capacity) && negb (alloc_ok (grown * CLIENT_BYTES)) then (None, cursor)
      else (Some (clients ++ [set_stacking_order (u32 (zlen clients)) client], grown), cursor)
  end.

Definition json_clients : reader (list ksd_hypr_client) :=
  read _ <- expect LBRACKET;
  read (clients, _) <- bracketed RBRACKET clients_element ([], 0);
  gives clients.

(** [json] is [None] for NULL. *)
Definition ksd_wayland_hypr_parse_clients (json : option (list byte)) : option (list ksd_hypr_client) :=
  let* json := json in
  match json_clients json with
  | (Some clients, cursor) => guard* bytes_eqb (json_space cursor) [] in Some clients
  | (None, _) => None
  end.

Definition three_newlines : list byte := [x0a; x0a; x0a].
(** The focused window: an object without members when there is none. *)
Definition json_active : reader ksd_hypr_client := fun cursor =>
  match (read _ <- expect LBRACE; expect RBRACE) cursor with
  | (Some _, empty) => (Some empty_client, empty)
  | (None, _) => json_client cursor
  end.
Definition mark_active (focused client : ksd_hypr_client) : ksd_hypr_client :=
  set_active (bytes_eqb (hc_stable_id client) (hc_stable_id focused) && bytes_eqb (hc_address client) (hc_address focused))
    client.

Definition ksd_wayland_hypr_parse_snapshot (reply : option (list byte)) : option (list ksd_hypr_client) :=
  let* reply := reply in
  match json_clients reply with
  | (None, _) => None
  | (Some clients, cursor) =>
    guard* (3 <=? zlen cursor) && bytes_eqb (ztake 3 cursor) three_newlines in
    match json_active (zdrop 3 cursor) with
    | (None, _) => None
    | (Some focused, cursor) =>
      guard* bytes_eqb (json_space cursor) [] in Some (map (mark_active focused) clients)
    end
  end.

End windows.

(** ** The active workspace *)

(** The loop of [ksd_wayland_hypr_active_workspace], which ends at the id. *)
Fixpoint workspace_id_loop (fuel : nat) (cursor : json_cursor) : option Z :=
  match fuel with
  | O => None
  | S fuel =>
    match json_key (Some 16) cursor with
    | (None, _) => None
    | (Some key, cursor) =>
      if key_is key "id" then fst (json_integer cursor)
      else match json_skip 1 cursor with
           | (None, _) => None
           | (Some _, cursor) =>
             let '(again, cursor) := json_take COMMA cursor in
             if again then workspace_id_loop fuel cursor else None
           end
    end
  end.
Definition parse_active_workspace (reply : list byte) : option Z :=
  let '(opened, cursor) := json_take LBRACE reply in
  guard* opened in
  let '(closed, cursor) := json_take RBRACE cursor in
  guard* negb closed in workspace_id_loop (S (length cursor)) cursor.

(** ** The layout of the main keyboard *)

Definition KSD_HYPR_LAYOUT_NAME_CAPACITY : Z := 256.
Record ksd_hypr_layout := mk_layout { hl_index : Z; hl_name : list byte }.
(** [{ 0 }]. *)
Definition empty_layout : ksd_hypr_layout := mk_layout 0 [].
Record keyboard := mk_keyboard { kb_main : bool; kb_layout : ksd_hypr_layout; kb_has_index : bool; kb_has_name : bool }.

Definition keyboard_member (k : keyboard) : reader keyboard :=
  read key <- json_key (Some 32);
  let 'mk_keyboard main layout has_index has_name := k in
  if key_is key "main" then read main <- json_boolean; gives (mk_keyboard main layout has_index has_name)
  else if key_is key "active_layout_index" then
    fun cursor =>
    let '(is_text, cursor) := json_peek DQUOTE cursor in
    if is_text then (read _ <- json_skip 2; gives k) cursor
    else (read index <- json_integer;
          let has_index := (0 <=? index) && (index <=? UINT32_MAX) in
          gives (mk_keyboard main (if has_index then mk_layout index (hl_name layout) else layout) has_index has_name)) cursor
  else if key_is key "active_keymap" then
    read (name, truncated) <- json_string (Some KSD_HYPR_LAYOUT_NAME_CAPACITY);
    gives (mk_keyboard main (mk_layout (hl_index layout) name) has_index (negb truncated && negb (bytes_eqb name [])))
  else read _ <- json_skip 2; gives k.

(** [*main], the layout and [*complete]: an object without members has neither. *)
Definition json_keyboard : reader (bool * ksd_hypr_layout * bool) :=
  read _ <- expect LBRACE;
  read k <- bracketed RBRACE keyboard_member (mk_keyboard false empty_layout false false);
  gives (kb_main k, kb_layout k, kb_has_index k && kb_has_name k).

(** What the loops of [ksd_wayland_hypr_parse_active_layout] carry. *)
Record layout_scan := mk_layout_scan { ls_layout : ksd_hypr_layout; ls_mains : Z; ls_complete_main : bool }.
Definition layout_keyboard (s : layout_scan) : reader layout_scan :=
  read (main, entry, complete) <- json_keyboard;
  gives (if main then mk_layout_scan entry (ls_mains s + 1) complete else s).
Definition devices_member (s : layout_scan) : reader layout_scan :=
  read key <- json_key (Some 32);
  if negb (key_is key "keyboards") then read _ <- json_skip 1; gives s
  else read _ <- expect LBRACKET; bracketed RBRACKET layout_keyboard s.

Definition ksd_wayland_hypr_parse_active_layout (json : option (list byte)) : option ksd_hypr_layout :=
  let* json := json in
  let '(opened, cursor) := json_take LBRACE json in
  guard* opened in
  let '(closed, cursor) := json_take RBRACE cursor in
  guard* negb closed in
  match (read s <- items devices_member (mk_layout_scan empty_layout 0 false); read _ <- expect RBRACE; gives s) cursor with
  | (None, _) => None
  | (Some s, _) => guard* (ls_mains s =? 1) && ls_complete_main s in Some (ls_layout s)
  end.

(** ** The monitors *)

Definition KSD_HYPR_MONITOR_NAME_CAPACITY : Z := 64.
Record ksd_hypr_monitor := mk_monitor {
  hm_name : list byte; hm_x : Z; hm_y : Z; hm_reserved : Z * Z * Z * Z; hm_focused : bool;
}.
Record monitor_scan := mk_monitor_scan {
  ms_monitor : ksd_hypr_monitor; ms_disabled : bool;
  ms_has_name : bool; ms_has_x : bool; ms_has_y : bool; ms_has_reserved : bool;
}.
Definition empty_monitor_scan : monitor_scan :=
  mk_monitor_scan (mk_monitor [] 0 0 (0, 0, 0, 0) false) false false false false false.

Definition json_int32 : reader Z := read value <- json_integer; when (int32_range value) (gives value).
Definition json_reserved : reader (Z * Z * Z * Z) :=
  read _ <- expect LBRACKET;
  read l <- json_int32;
  read _ <- expect COMMA; read t <- json_int32;
  read _ <- expect COMMA; read r <- json_int32;
  read _ <- expect COMMA; read b <- json_int32;
  read _ <- expect RBRACKET;
  gives (l, t, r, b).

Definition monitor_member (s : monitor_scan) : reader monitor_scan :=
  read key <- json_key (Some 32);
  let 'mk_monitor_scan m disabled has_name has_x has_y has_reserved := s in
  let 'mk_monitor name x y reserved focused := m in
  if key_is key "name" then
    read (name, truncated) <- json_string (Some KSD_HYPR_MONITOR_NAME_CAPACITY);
    gives (mk_monitor_scan (mk_monitor name x y reserved focused) disabled
             (negb truncated && negb (bytes_eqb name [])) has_x has_y has_reserved)
  else if key_is key "x" then
    read x <- json_int32;
    gives (mk_monitor_scan (mk_monitor name x y reserved focused) disabled has_name true has_y has_reserved)
  else if key_is key "y" then
    read y <- json_int32;
    gives (mk_monitor_scan (mk_monitor name x y reserved focused) disabled has_name has_x true has_reserved)
  else if key_is key "reserved" then
    read reserved <- json_reserved;
    gives (mk_monitor_scan (mk_monitor name x y reserved focused) disabled has_name has_x has_y true)
  else if key_is key "focused" then
    read focused <- json_boolean;
    gives (mk_monitor_scan (mk_monitor name x y reserved focused) disabled has_name has_x has_y has_reserved)
  else if key_is key "disabled" then
    read disabled <- json_boolean;
    gives (mk_monitor_scan m disabled has_name has_x has_y has_reserved)
  else read _ <- json_skip 2; gives s.

(** The monitor, and whether it is [usable]: an object without members is not. *)
Definition json_monitor : reader (ksd_hypr_monitor * bool) :=
  read _ <- expect LBRACE;
  read s <- bracketed RBRACE monitor_member empty_monitor_scan;
  gives (ms_monitor s,
         ms_has_name s && ms_has_x s && ms_has_y s && ms_has_reserved s && negb (ms_disabled s)).

Definition KSD_HYPR_MAX_MONITORS : Z := 64.
(** [sizeof(ksd_hypr_monitor)]. *)
Definition MONITOR_BYTES : Z := 92.
Definition monitors_element (monitors : list ksd_hypr_monitor) : reader (list ksd_hypr_monitor) :=
  read (monitor, usable) <- json_monitor;
  gives (if usable && (zlen monitors <? KSD_HYPR_MAX_MONITORS) then monitors ++ [monitor] else monitors).

Definition ksd_wayland_hypr_parse_monitors {AL : Allocator} (json : option (list byte)) : option (list ksd_hypr_monitor) :=
  let* json := json in
  let '(opened, cursor) := json_take LBRACKET json in
  guard* opened in
  guard* alloc_ok (KSD_HYPR_MAX_MONITORS * MONITOR_BYTES) in
  fst (bracketed RBRACKET monitors_element [] cursor).

(** ** A cursor never leaves its reply *)

(** What a reader leaves is an end of what it was given, whether it succeeds or not: it
    never passes the end of the reply, nor goes back. *)
Definition within {A} (r : reader A) : Prop := forall cursor, exists p, cursor = p ++ snd (r cursor).

(** A [do]-[while] loop by its turns alone, with nothing to bound them. *)
Inductive turns {St} (body : St -> reader St) : St -> json_cursor -> option St * json_cursor -> Prop :=
| turns_fail s cursor cursor' : body s cursor = (None, cursor') -> turns body s cursor (None, cursor')
| turns_last s cursor s' cursor' :
    body s cursor = (Some s', cursor') -> fst (json_take COMMA cursor') = false ->
    turns body s cursor (Some s', snd (json_take COMMA cursor'))
| turns_more s cursor s' cursor' r :
    body s cursor = (Some s', cursor') -> fst (json_take COMMA cursor') = true ->
    turns body s' (snd (json_take COMMA cursor')) r -> turns body s cursor r.

Create HintDb cursor.

Lemma within_gives {A} (a : A) : within (gives a).
Proof. intros c. by exists []. Qed.

Lemma within_and_then {A B} (r : reader A) (k : A -> reader B) : within r -> (forall a, within (k a)) -> within (and_then r k).
Proof.
  intros Hr Hk c. unfold and_then. destruct (Hr c) as [p Hp]. destruct (r c) as [[a|] c1]; cbn [snd] in *; [|by exists p].
  destruct (Hk a c1) as [q Hq]. exists (p ++ q). by rewrite <- app_assoc, <- Hq.
Qed.

Lemma within_when {A} ok (r : reader A) : within r -> within (when ok r).
Proof. intros Hr c. unfold when. destruct ok; [apply Hr|by exists []]. Qed.

Lemma json_space_split c : exists p, c = p ++ json_space c.
Proof. destruct (skip_space_split c) as (w & Hw & _). by exists w. Qed.

Lemma json_take_split e c : exists p, c = p ++ snd (json_take e c) /\ (fst (json_take e c) = true -> p <> []).
Proof.
  unfold json_take. destruct (json_space_split c) as [p Hp]. destruct (json_space c) as [|b rest]; [by exists p|].
  destruct (b2z b =? e); cbn; [|by exists p]. exists (p ++ [b]). rewrite <- app_assoc. split; [done|]. by destruct p.
Qed.

Lemma json_peek_split e c : exists p, c = p ++ snd (json_peek e c).
Proof. unfold json_peek. destruct (json_space_split c) as [p Hp]. destruct (json_space c) as [|b rest]; by exists p. Qed.

Lemma within_expect e : within (expect e).
Proof.
  intros c. unfold expect. destruct (json_take_split e c) as (p & Hp & _). destruct (json_take e c) as [ok c1]. by exists p.
Qed.

Lemma within_string_loop cap : forall c out, exists p, c = p ++ snd (string_loop cap out c).
Proof.
  induction c as [c IH] using (induction_ltof1 _ (@length byte)). intros out.
  assert (Hgo : forall p c' out', c = p ++ c' -> p <> [] -> exists q, c = q ++ snd (string_loop cap out' c')).
  { intros p c' out' E Hp. destruct (IH c') with (out := out') as [q Hq].
    { unfold ltof. rewrite E, length_app. destruct p; [done|cbn; lia]. }
    exists (p ++ q). by rewrite <- app_assoc, <- Hq. }
  destruct c as [|b c]; [by exists []|]. cbn [string_loop]. case_if; [by exists []|]. case_if.
  - destruct c as [|v c]; [by exists [b]|]. case_if; [|by apply (Hgo [b; v])].
    destruct c as [|? [|? [|? [|? c]]]]; [by exists [b; v]..|]. by eapply (Hgo [b; v; _; _; _; _]).
  - by apply (Hgo [b]).
Qed.

Lemma within_number_run n : forall c, c = fst (number_run n c) ++ snd (number_run n c).
Proof.
  induction n as [|n IH]; intros [|b c]; [done..|]. cbn [number_run]. destruct (number_byte b); [|done].
  specialize (IH c). destruct (number_run n c). cbn in *. by subst.
Qed.

Lemma within_json_integer : within json_integer.
Proof.
  intros c. unfold json_integer. destruct (json_space_split c) as [p Hp]. pose proof (within_number_run 31 (json_space c)) as Hr.
  destruct (number_run 31 (json_space c)) as [ds c1]. cbn [fst snd] in *. exists (p ++ ds). by rewrite <- app_assoc, <- Hr.
Qed.

Lemma json_literal_split w c : exists p, c = p ++ snd (json_literal w c).
Proof.
  unfold json_literal. destruct (json_space_split c) as [p Hp]. case_if; cbn; [|by exists p].
  exists (p ++ ztake (zlen w) (json_space c)). by rewrite <- app_assoc, ztake_zdrop.
Qed.

Lemma within_literal w : within (literal w).
Proof. intros c. unfold literal. destruct (json_literal_split w c) as [p Hp]. destruct (json_literal w c). by exists p. Qed.

Lemma within_json_boolean : within json_boolean.
Proof.
  intros c. unfold json_boolean. destruct (json_literal_split (cstr "true") c) as [p Hp].
  destruct (json_literal _ c) as [ok c1]. cbn [snd] in Hp. destruct ok; [by exists p|].
  destruct (json_literal_split (cstr "false") c1) as [q Hq]. destruct (json_literal _ c1) as [ok c2]. cbn [snd] in *.
  exists (p ++ q). by rewrite <- app_assoc, <- Hq.
Qed.

Lemma within_do_while {St} (body : St -> reader St) : (forall s, within (body s)) -> forall n s, within (do_while n body s).
Proof.
  intros Hb. induction n as [|n IH]; intros s c; cbn [do_while]; [by exists []|].
  destruct (Hb s c) as [p Hp]. destruct (body s c) as [[s1|] c1]; cbn [snd] in *; [|by exists p].
  destruct (json_take_split COMMA c1) as (q & Hq & _). destruct (json_take COMMA c1) as [again c2]. cbn [snd] in Hq.
  destruct again; cbn [snd]; [|exists (p ++ q); by rewrite <- app_assoc, <- Hq].
  destruct (IH s1 c2) as [q2 Hq2]. exists (p ++ q ++ q2). by rewrite <- !app_assoc, <- Hq2, <- Hq.
Qed.

Lemma within_items {St} (body : St -> reader St) s : (forall s, within (body s)) -> within (items body s).
Proof. intros Hb c. by apply within_do_while. Qed.

Lemma within_after {A} (r : reader A) c p c1 : within r -> c = p ++ c1 -> exists q, c = q ++ snd (r c1).
Proof. intros Hr ->. destruct (Hr c1) as [q Hq]. exists (p ++ q). by rewrite <- app_assoc, <- Hq. Qed.

Lemma within_bracketed {St} close (body : St -> reader St) s : (forall s, within (body s)) -> within (bracketed close body s).
Proof.
  intros Hb c. unfold bracketed. destruct (json_take_split close c) as (p & Hp & _). destruct (json_take close c) as [closed c1].
  cbn [snd] in Hp. destruct closed; [by exists p|]. eapply within_after; [|exact Hp]. apply within_and_then; [by apply within_items|intros s1; apply within_and_then; [apply within_expect|intros _; apply within_gives]].
Qed.
#[export] Hint Resolve within_gives within_and_then within_when within_expect within_json_integer within_literal
  within_json_boolean within_items : cursor.
(** Take a reader apart: its steps are within, and so are the branches of its tests. *)
Ltac reads :=
  repeat first [ done | progress intros | progress eauto 1 with cursor | apply within_and_then | apply within_items | apply within_bracketed
               | apply within_when
               | match goal with
                 | |- within (let '(_, _) := ?x in _) => destruct x
                 | |- within (match ?x with _ => _ end) => destruct x
                 end ].

Lemma within_json_string cap : within (json_string cap).
Proof. unfold json_string. reads. intros c. apply within_string_loop. Qed.
#[export] Hint Resolve within_json_string : cursor.

Lemma within_json_key cap : within (json_key cap).
Proof. unfold json_key. reads. Qed.

#[export] Hint Resolve within_json_key : cursor.

Lemma within_skip_levels n : within (skip_levels n).
Proof.
  induction n as [|n IH]; intros c; cbn [skip_levels]; [by exists []|]. destruct (json_space_split c) as [p Hp].
  destruct (json_space c) as [|b rest]; [exists p; by rewrite Hp at 1|].
  assert (Hr : c = (p ++ [b]) ++ rest) by by rewrite <- app_assoc.
  repeat case_if; (eapply within_after; [|first [exact Hp|exact Hr]]); reads.
Qed.
Lemma within_json_skip depth : within (json_skip depth).
Proof. apply within_skip_levels. Qed.
#[export] Hint Resolve within_json_skip : cursor.

(** A loop over readers has all the turns it needs. *)
Lemma do_while_turns {St} (body : St -> reader St) : (forall s, within (body s)) ->
  forall n s c, (length c < n)%nat -> turns body s c (do_while n body s c).
Proof.
  intros Hb. induction n as [|n IH]; intros s c Hn; [lia|]. cbn [do_while].
  destruct (Hb s c) as [p Hp]. destruct (body s c) as [[s1|] c1] eqn:E; cbn [snd] in *; [|by apply turns_fail].
  destruct (json_take_split COMMA c1) as (q & Hq & Hne). destruct (json_take COMMA c1) as [again c2] eqn:Et. cbn [fst snd] in *.
  destruct again.
  - eapply turns_more; [exact E|by rewrite Et|]. rewrite Et. apply IH. cbn [snd]. subst c c1.
    rewrite !length_app in Hn. destruct q; [by destruct Hne|cbn in Hn; lia].
  - replace c2 with (snd (json_take COMMA c1)) by by rewrite Et. apply turns_last; [done|by rewrite Et].
Qed.
Lemma items_turns {St} (body : St -> reader St) s c : (forall s, within (body s)) -> turns body s c (items body s c).
Proof. intros Hb. apply do_while_turns; [done|lia]. Qed.

Lemma turns_fun {St} (body : St -> reader St) s c r1 : turns body s c r1 -> forall r2, turns body s c r2 -> r1 = r2.
Proof.
  intros H. induction H as [s c c' Hb|s c s' c' Hb Ht|s c s' c' r Hb Ht _ IH]; intros r2 H2;
    inversion H2 as [? ? ? Hb2|? ? ? ? Hb2 Ht2|? ? ? ? ? Hb2 Ht2 H3]; subst; rewrite Hb in Hb2; simplify_eq; try congruence.
  by apply IH.
Qed.

(** ** What the windows satisfy *)

(** A reader only gives what satisfies [P]. *)
Definition ensures {A} (r : reader A) (P : A -> Prop) : Prop := forall cursor a cursor', r cursor = (Some a, cursor') -> P a.

Definition is_i64 (value : Z) : Prop := LLONG_MIN <= value <= LLONG_MAX.
(** A C string in an array of [capacity] characters. *)
Definition fits (capacity : Z) (text : list byte) : Prop := zlen text < capacity /\ Forall (fun b => b2z b <> 0) text.

(** The members whatever is read into them, before the check at the end. *)
Definition members_wf (c : ksd_hypr_client) : Prop :=
  fits KSD_HYPR_ID_CAPACITY (hc_stable_id c) /\ fits KSD_HYPR_ID_CAPACITY (hc_address c) /\
  fits KSD_HYPR_WORKSPACE_CAPACITY (hc_workspace_name c) /\
  is_i64 (hc_workspace_id c) /\ is_i64 (hc_pid c) /\
  is_i32 (hc_x c) /\ is_i32 (hc_y c) /\ is_i32 (hc_width c) /\ is_i32 (hc_height c) /\
  (hc_fullscreen c = 0 \/ hc_fullscreen c = 1).
(** A window that can be addressed: its identifier is not empty, and its address is
    [0x] and hexadecimal digits, so that it can be written into a command. *)
Definition client_wf (c : ksd_hypr_client) : Prop :=
  members_wf c /\ hc_stable_id c <> [] /\ address_valid (hc_address c) = true.

Lemma ensures_gives {A} (a : A) (P : A -> Prop) : P a -> ensures (gives a) P.
Proof. by intros H c b c' [= <- _]. Qed.
Lemma ensures_and_then {A B} (r : reader A) (k : A -> reader B) Q P :
  ensures r Q -> (forall a, Q a -> ensures (k a) P) -> ensures (and_then r k) P.
Proof. intros Hr Hk c b c'. unfold and_then. destruct (r c) as [[a|] c1] eqn:E; [|done]. apply Hr in E. by apply Hk. Qed.
Lemma ensures_any {A} (r : reader A) : ensures r (fun _ => True).
Proof. by intros c a c' _. Qed.
Lemma ensures_when {A} ok (r : reader A) (P : A -> Prop) : (ok = true -> ensures r P) -> ensures (when ok r) P.
Proof. intros H c a c'. unfold when. destruct ok; [by apply H|done]. Qed.
(** A step whose value is not used. *)
Lemma ensures_step {A B} (r : reader A) (k : A -> reader B) P : (forall a, ensures (k a) P) -> ensures (and_then r k) P.
Proof. intros H. eapply ensures_and_then; [apply ensures_any|auto]. Qed.

Lemma ensures_items {St} (body : St -> reader St) (I : St -> Prop) s :
  (forall s, I s -> ensures (body s) I) -> I s -> ensures (items body s) I.
Proof.
  intros Hb Hs c a c'. unfold items. generalize (S (length c)). intros n. revert s Hs c. induction n as [|n IH]; intros s Hs c; [done|].
  cbn [do_while]. destruct (body s c) as [[s1|] c1] eqn:E; [|done]. apply Hb in E; [|done].
  destruct (json_take COMMA c1) as [again c2]. destruct again; [by apply IH|by intros [= <- _]].
Qed.
Lemma ensures_bracketed {St} close (body : St -> reader St) (I : St -> Prop) s :
  (forall s, I s -> ensures (body s) I) -> I s -> ensures (bracketed close body s) I.
Proof.
  intros Hb Hs c a c'. unfold bracketed. destruct (json_take close c) as [closed c1]. destruct closed; [by intros [= <- _]|].
  intros H. eapply (ensures_and_then _ _ I) in H; [done|by apply ensures_items|]. intros s1 H1. apply ensures_step. intros _.
  by apply ensures_gives.
Qed.

Lemma until_nul_fits cap s : zlen s < cap -> fits cap (until_nul s).
Proof.
  intros H. assert (zlen (until_nul s) <= zlen s /\ Forall (fun b => b2z b <> 0) (until_nul s)) as [? ?]; [|by split; [lia|]].
  clear H. induction s as [|b s [IH1 IH2]]; cbn [until_nul]; [by split; [lia|constructor]|].
  destruct (Z.eqb_spec (b2z b) 0) as [E|E]; rewrite ?zlen_cons, ?zlen_nil; [pose proof (zlen_nonneg s); by split; [lia|constructor]|].
  split; [lia|by constructor].
Qed.

Lemma string_loop_fits cap : forall c out, zlen (fst out) < cap ->
  match fst (string_loop (Some cap) out c) with Some out => zlen (fst out) < cap | None => True end.
Proof.
  assert (Hst : forall v out, zlen (fst out) < cap -> zlen (fst (store_char (Some cap) v out)) < cap).
  { intros v [out tr] H. cbn [store_char fst] in *. case_if; cbn [fst]; breflect; [rewrite zlen_app, zlen_cons, zlen_nil; lia|lia]. }
  induction c as [c IH] using (induction_ltof1 _ (@length byte)). intros out Ho.
  destruct c as [|b c]; [done|]. cbn [string_loop]. case_if; [done|]. case_if.
  - destruct c as [|v c]; [done|]. case_if; [|apply IH; [unfold ltof; cbn; lia|auto]].
    destruct c as [|? [|? [|? [|? c]]]]; [done..|]. apply IH; [unfold ltof; cbn; lia|auto].
  - apply IH; [unfold ltof; cbn; lia|auto].
Qed.

Lemma json_string_fits cap : 0 < cap -> ensures (json_string (Some cap)) (fun r => fits cap (fst r)).
Proof.
  intros Hc. apply ensures_step. intros _. apply (ensures_and_then _ _ (fun out => zlen (fst out) < cap)).
  - intros c out c' H. pose proof (string_loop_fits cap c ([], false) ltac:(done)) as Hf. by rewrite H in Hf.
  - intros [out tr] Ho. apply ensures_step. intros _. apply ensures_gives. by apply until_nul_fits.
Qed.

Lemma json_integer_range : ensures json_integer is_i64.
Proof.
  intros c v c'. unfold json_integer. destruct (number_run 31 (json_space c)) as [ds c1]. case_if; [done|].
  unfold strtoll. destruct (sign_of (skip is_space ds)) as [neg s]. destruct (digit_run s) as [digits rest].
  case_if; [|done]. case_if; [|done]. intros [= <- _]. breflect. by split.
Qed.

Lemma int32_range_is v : int32_range v = true -> is_i32 v.
Proof. unfold int32_range, is_i32, INT32_MIN, INT32_MAX. lia. Qed.

Lemma json_pair_range : ensures json_pair (fun p => is_i32 (fst p) /\ is_i32 (snd p)).
Proof.
  unfold json_pair. do 5 (apply ensures_step; intros ?). apply ensures_when. intros [Ha Hb]%andb_true_iff.
  apply ensures_gives. by split; apply int32_range_is.
Qed.

Ltac members := apply ensures_gives; unfold members_wf in *; cbn in *; tauto.

Lemma workspace_member_wf c : members_wf c -> ensures (workspace_member c) members_wf.
Proof.
  intros H. apply ensures_step. intros key. case_if; [eapply ensures_and_then; [apply json_integer_range|intros; members]|].
  case_if; [|apply ensures_step; intros _; members].
  eapply ensures_and_then; [by apply json_string_fits|]. intros [name tr] Hn. destruct tr; [|members].
  assert (fits KSD_HYPR_WORKSPACE_CAPACITY []) by by split; [|constructor]. members.
Qed.

Lemma json_fullscreen_wf c : members_wf c -> ensures (json_fullscreen c) members_wf.
Proof.
  intros H cur a cur'. unfold json_fullscreen. destruct (json_peek 0x74 cur) as [t c1]. destruct (json_peek 0x66 c1) as [f c2].
  case_if; match goal with |- ?r c2 = _ -> _ => assert (Hr : ensures r members_wf); [|apply Hr] end;
    apply ensures_step; intros v; case_if; members.
Qed.

Lemma client_member_wf s : members_wf (fst s) -> ensures (client_member s) (fun s => members_wf (fst s)).
Proof.
  destruct s as [c tr]. intros H. cbn [fst] in H. apply ensures_step. intros key.
  repeat (case_if; [first
    [ eapply ensures_and_then; [by apply json_string_fits|intros [? ?] ?; members]
    | apply ensures_step; intros ?; members
    | eapply ensures_and_then; [apply json_pair_range|intros; members]
    | eapply ensures_and_then; [by apply (ensures_step _ _ members_wf); intros _; apply ensures_bracketed; [apply workspace_member_wf|]|intros; members]
    | eapply ensures_and_then; [apply json_integer_range|intros; members]
    | eapply ensures_and_then; [by apply json_fullscreen_wf|intros; members] ]|]).
  apply ensures_step. intros ?. members.
Qed.

Lemma json_client_wf : ensures json_client client_wf.
Proof.
  apply ensures_step. intros _ c a c'. destruct (json_take RBRACE c) as [closed c1]. destruct closed; [done|].
  match goal with |- ?r c1 = _ -> _ => assert (Hr : ensures r client_wf); [|apply Hr] end.
  apply (ensures_and_then _ _ (fun s => members_wf (fst s))).
  - apply ensures_items; [apply client_member_wf|]. cbn. unfold members_wf, fits, is_i64, is_i32, LLONG_MIN, LLONG_MAX. cbn.
    repeat split; try done; try lia; by constructor || auto.
  - intros [client tr] Hm. apply ensures_step. intros _. apply ensures_when. intros Hok. apply ensures_gives. breflect.
    unfold bytes_eqb in *. rewrite bool_decide_eq_false in *. by split.
Qed.

(** The windows so far: addressed, in the order they came, and no more than the limit. *)
Definition windows_wf (clients : list ksd_hypr_client) : Prop :=
  zlen clients <= KSD_HYPR_MAX_CLIENTS /\
  forall i c, clients !! i = Some c -> client_wf c /\ hc_stacking_order c = Z.of_nat i.

Lemma clients_element_wf {AL : Allocator} s : windows_wf (fst s) -> ensures (clients_element s) (fun s => windows_wf (fst s)).
Proof.
  destruct s as [cs cap]. intros H cur a cur'. unfold clients_element. cbn [fst] in H.
  destruct (json_client cur) as [[c|] c1] eqn:E.
  - apply json_client_wf in E. case_if; [by intros [= <- _]|]. case_if; [done|]. intros [= <- _]. clear Heqb0. breflect.
    destruct H as [Hn H]. split; cbn [fst]; [rewrite zlen_app, zlen_cons, zlen_nil; lia|]. intros i d.
    intros [Hd|[Hi Hd]]%lookup_app_Some; [by apply H|]. destruct (i - length cs)%nat as [|k] eqn:Ei; [|done].
    injection Hd as <-. split; [exact E|]. change (u32 (zlen cs) = Z.of_nat i).
    unfold u32, zlen, KSD_HYPR_MAX_CLIENTS in *. rewrite Z.mod_small; lia.
  - unfold and_then. destruct (json_skip 1 cur) as [[]c2]; [by intros [= <- _]|done].
Qed.

Lemma json_clients_wf {AL : Allocator} : ensures json_clients windows_wf.
Proof.
  apply ensures_step. intros _. apply (ensures_and_then _ _ (fun s => windows_wf (fst s))).
  - apply ensures_bracketed; [apply clients_element_wf|]. by split.
  - intros [cs cap] H. by apply ensures_gives.
Qed.

(** Every window of a snapshot, whatever the reply: C strings that fit, numbers of their
    width, an identifier, an address of hexadecimal digits, and its place in the order;
    and the reply is read to its end. *)
Theorem hypr_snapshot_wf {AL : Allocator} reply clients :
  ksd_wayland_hypr_parse_snapshot (Some reply) = Some clients -> windows_wf clients.
Proof.
  cbn. destruct (json_clients reply) as [[cs|] c1] eqn:E; [|done]. apply json_clients_wf in E. case_if; [|done].
  destruct (json_active (zdrop 3 c1)) as [[f|] c2]; [|done]. case_if; [|done]. intros [= <-].
  destruct E as [Hn H]. split; [unfold zlen in *; by rewrite length_map|]. intros i c. rewrite list_lookup_fmap.
  destruct (cs !! i) as [d|] eqn:Hd; [|done]. cbn. intros [= <-]. by apply H in Hd.
Qed.

(** ** Every reader is within, and every loop ends by itself *)

Lemma within_json_pair : within json_pair.
Proof. unfold json_pair. reads. Qed.
Lemma within_workspace_member c : within (workspace_member c).
Proof. unfold workspace_member. reads. Qed.
#[export] Hint Resolve within_json_pair within_workspace_member : cursor.
Lemma within_json_workspace c : within (json_workspace c).
Proof. unfold json_workspace. reads. Qed.
Lemma within_json_fullscreen c : within (json_fullscreen c).
Proof.
  intros cur. unfold json_fullscreen. destruct (json_peek_split 0x74 cur) as [p Hp]. destruct (json_peek 0x74 cur) as [t c1].
  destruct (json_peek_split 0x66 c1) as [q Hq]. destruct (json_peek 0x66 c1) as [f c2]. cbn [snd] in *.
  assert (E : cur = (p ++ q) ++ c2) by (rewrite <- app_assoc, <- Hq; done). case_if; (eapply within_after; [|exact E]); reads.
Qed.
#[export] Hint Resolve within_json_workspace within_json_fullscreen : cursor.
Lemma within_client_member s : within (client_member s).
Proof. unfold client_member. destruct s. reads. Qed.
#[export] Hint Resolve within_client_member : cursor.
Lemma within_json_client : within json_client.
Proof.
  unfold json_client. apply within_and_then; [apply within_expect|]. intros _ cur. destruct (json_take_split RBRACE cur) as (p & Hp & _).
  destruct (json_take RBRACE cur) as [closed c1]. cbn [snd] in *. destruct closed; [by exists p|]. eapply within_after; [|exact Hp]. reads.

Qed.
Lemma within_clients_element {AL : Allocator} s : within (clients_element s).
Proof.
  intros cur. unfold clients_element. destruct s as [cs cap]. destruct (within_json_client cur) as [p Hp].
  destruct (json_client cur) as [[c|] c1]; cbn [snd] in *; [repeat case_if; by exists p|].
  apply (within_and_then (json_skip 1) (fun _ => gives (cs, cap))); reads.
Qed.
#[export] Hint Resolve within_clients_element : cursor.
Lemma within_json_clients {AL : Allocator} : within json_clients.
Proof. unfold json_clients. reads. Qed.

Lemma within_keyboard_member k : within (keyboard_member k).
Proof.
  unfold keyboard_member. apply within_and_then; [reads|]. intros key. destruct k as [main layout has_index has_name].
  case_if; [reads|]. case_if; [|reads]. intros cur. destruct (json_peek_split DQUOTE cur) as [p Hp].
  destruct (json_peek DQUOTE cur) as [is_text c1]. cbn [snd] in *. destruct is_text; (eapply within_after; [|exact Hp]); reads.
Qed.
#[export] Hint Resolve within_keyboard_member : cursor.
Lemma within_json_keyboard : within json_keyboard.
Proof. unfold json_keyboard. reads. Qed.
#[export] Hint Resolve within_json_keyboard : cursor.
Lemma within_layout_keyboard s : within (layout_keyboard s).
Proof. unfold layout_keyboard. reads. Qed.
#[export] Hint Resolve within_layout_keyboard : cursor.
Lemma within_devices_member s : within (devices_member s).
Proof. unfold devices_member. reads. Qed.

Lemma within_json_int32 : within json_int32.
Proof. unfold json_int32. reads. Qed.
#[export] Hint Resolve within_json_int32 : cursor.
Lemma within_json_reserved : within json_reserved.
Proof. unfold json_reserved. reads. Qed.
#[export] Hint Resolve within_json_reserved : cursor.
Lemma within_monitor_member s : within (monitor_member s).
Proof. unfold monitor_member. destruct s as [[name x y reserved focused] disabled has_name has_x has_y has_reserved]. reads. Qed.
#[export] Hint Resolve within_monitor_member : cursor.
Lemma within_monitors_element s : within (monitors_element s).
Proof. unfold monitors_element, json_monitor. reads. Qed.

(** whatever bytes the compositor sends, every list of a reply is gone through as
    the loops of the source alone go through it, to an end: a turn that goes on has
    taken a comma, so the turns never run out before the bytes; and no reader leaves
    the reply. *)
Theorem hypr_loops_end {AL : Allocator} :
  (forall s cursor, turns clients_element s cursor (items clients_element s cursor)) /\
  (forall s cursor, turns client_member s cursor (items client_member s cursor)) /\
  (forall s cursor, turns workspace_member s cursor (items workspace_member s cursor)) /\
  (forall s cursor, turns devices_member s cursor (items devices_member s cursor)) /\
  (forall s cursor, turns layout_keyboard s cursor (items layout_keyboard s cursor)) /\
  (forall s cursor, turns keyboard_member s cursor (items keyboard_member s cursor)) /\
  (forall s cursor, turns monitors_element s cursor (items monitors_element s cursor)) /\
  (forall s cursor, turns monitor_member s cursor (items monitor_member s cursor)) /\
  (forall depth reply, exists taken, reply = taken ++ snd (json_skip depth reply)) /\
  (forall reply, exists taken, reply = taken ++ snd (json_clients reply)).
Proof.
  assert (Ht : forall St (body : St -> reader St), (forall s, within (body s)) -> forall s c, turns body s c (items body s c))
    by (intros St body Hb s c; by apply items_turns).
  repeat split; try (apply Ht; intros s).
  all: try apply within_clients_element; try apply within_client_member; try apply within_workspace_member; try apply within_devices_member;
    try apply within_layout_keyboard; try apply within_keyboard_member; try apply within_monitors_element; try apply within_monitor_member.
  - intros depth. apply within_json_skip.
  - apply within_json_clients.
Qed.

(** ** Monitors *)

Definition monitor_wf (m : ksd_hypr_monitor) : Prop :=
  fits KSD_HYPR_MONITOR_NAME_CAPACITY (hm_name m) /\ is_i32 (hm_x m) /\ is_i32 (hm_y m) /\
  let '(left_side, top, right_side, bottom) := hm_reserved m in is_i32 left_side /\ is_i32 top /\ is_i32 right_side /\ is_i32 bottom.
(** What has been read so far: a name is there when [has_name] says so. *)
Definition monitor_scan_wf (s : monitor_scan) : Prop :=
  monitor_wf (ms_monitor s) /\ (ms_has_name s = true -> hm_name (ms_monitor s) <> []).

Lemma json_int32_range : ensures json_int32 is_i32.
Proof. apply ensures_step. intros v. apply ensures_when. intros H. apply ensures_gives. by apply int32_range_is. Qed.
Lemma json_reserved_range :
  ensures json_reserved (fun r => let '(l, t, r, b) := r in is_i32 l /\ is_i32 t /\ is_i32 r /\ is_i32 b).
Proof.
  unfold json_reserved. apply ensures_step; intros _. eapply ensures_and_then; [apply json_int32_range|intros l Hl].
  apply ensures_step; intros _. eapply ensures_and_then; [apply json_int32_range|intros t Ht].
  apply ensures_step; intros _. eapply ensures_and_then; [apply json_int32_range|intros r Hr].
  apply ensures_step; intros _. eapply ensures_and_then; [apply json_int32_range|intros b Hb].
  apply ensures_step; intros _. by apply ensures_gives.
Qed.

Lemma monitor_member_wf s : monitor_scan_wf s -> ensures (monitor_member s) monitor_scan_wf.
Proof.
  intros H. unfold monitor_member. apply ensures_step. intros key.
  destruct s as [[name x y [[[l t] r] b] focused] disabled has_name has_x has_y has_reserved]. destruct H as [Hm Hn].
  unfold monitor_wf in Hm. cbn in Hm, Hn.
  repeat (case_if; [first
    [ eapply ensures_and_then; [by apply json_string_fits|]; intros [text tr] Hf; apply ensures_gives; split;
        [unfold monitor_wf; cbn in *; tauto|cbn; unfold bytes_eqb; rewrite andb_true_iff, !negb_true_iff, bool_decide_eq_false; tauto]
    | eapply ensures_and_then; [apply json_int32_range|]; intros v Hv; apply ensures_gives; split; [unfold monitor_wf; cbn in *; tauto|done]
    | eapply ensures_and_then; [apply json_reserved_range|]; intros [[[? ?] ?] ?] Hv; apply ensures_gives; split;
        [unfold monitor_wf; cbn in *; tauto|done]
    | apply ensures_step; intros v; apply ensures_gives; split; [unfold monitor_wf; cbn in *; tauto|done] ]|]).
  apply ensures_step; intros v. apply ensures_gives. by split.
Qed.

(** The monitors of a reply: named, with numbers of their width, and no more than are kept. *)
Theorem hypr_monitors_wf {AL : Allocator} reply monitors :
  ksd_wayland_hypr_parse_monitors (Some reply) = Some monitors ->
  zlen monitors <= KSD_HYPR_MAX_MONITORS /\ Forall (fun m => monitor_wf m /\ hm_name m <> []) monitors.
Proof.
  unfold ksd_wayland_hypr_parse_monitors. destruct (json_take LBRACKET reply) as [opened c]. case_if; [|done]. case_if; [|done].
  set (I := fun ms => zlen ms <= KSD_HYPR_MAX_MONITORS /\ Forall (fun m => monitor_wf m /\ hm_name m <> []) ms).
  assert (Hr : ensures (bracketed RBRACKET monitors_element []) I).
  { apply ensures_bracketed; [|by split; [|constructor]]. intros ms [Hn Hms]. unfold monitors_element.
    apply (ensures_and_then _ _ (fun r => snd r = true -> monitor_wf (fst r) /\ hm_name (fst r) <> [])).
    - unfold json_monitor. apply ensures_step; intros _. eapply ensures_and_then.
      + apply (ensures_bracketed _ _ monitor_scan_wf); [apply monitor_member_wf|]. by repeat split; cbn; try constructor; try lia.
      + intros s [Hm Hs]. apply ensures_gives. cbn. rewrite !andb_true_iff. intros ((((? & _) & _) & _) & _). auto.
    - intros [m usable] Hu. apply ensures_gives. case_if; [|by split]. breflect. split; [rewrite zlen_app, zlen_cons, zlen_nil; lia|].
      apply Forall_app. split; [done|]. constructor; [by apply Hu|done]. }
  destruct (bracketed RBRACKET monitors_element [] c) as [[ms|] c1] eqn:E; cbn [fst]; [|done]. intros [= <-]. by apply Hr in E.
Qed.

(** ** On replies *)

(** JSON with its quotes written as apostrophes. *)
Definition json_text (s : string) : list byte := map (fun b => if b2z b =? 39 then x22 else b) (cstr s).

Definition sample_clients : list byte :=
  json_text "[{'address': '0x5bf0', 'mapped': true, 'at': [990, 22], 'size': [205, 697], 'workspace': {'id': 1, 'name': '1'}," ++
  json_text " 'title': 'a \'quoted\' \u00e9 title', 'pid': 49781, 'tags': ['x', {'nested': [1, 2.5, null]}], 'stableId': '18000002'},{" ++
  json_text " 'address': '0x25e0', 'at': [-20, 30], 'workspace': {'id': -98, 'name': 'special:minimized'}, 'floating': true," ++
  json_text " 'fullscreen': 2, 'stableId': '18000003'},{'address': '0x1'},{'address': 'not-hex', 'stableId': '18000004'}]".

Example sample_parsed :
  let parsed := @ksd_wayland_hypr_parse_snapshot infinite_memory
    (Some (sample_clients ++ three_newlines ++ json_text "{'stableId':'18000003','address':'0x25e0'}")) in
  option_map (map (fun c => (hc_stable_id c, hc_x c, hc_y c, hc_workspace_id c, hc_pid c, hc_fullscreen c, hc_active c))) parsed
  = Some [(cstr "18000002", 990, 22, 1, 49781, 0, false); (cstr "18000003", -20, 30, -98, 0, 1, true)].
Proof. vm_compute. reflexivity. Qed.

Example sample_layout :
  ksd_wayland_hypr_parse_active_layout
    (Some (json_text "{'mice': [{'scrollFactor': -1.00}], 'keyboards': [{'main': false}, {'main': true, 'active_keymap': 'German', 'active_layout_index': 1}]}"))
  = Some (mk_layout 1 (cstr "German")).
Proof. vm_compute. reflexivity. Qed.

Example sample_monitors :
  @ksd_wayland_hypr_parse_monitors infinite_memory
    (Some (json_text "[{'id': 0, 'name': 'Virtual-1', 'refreshRate': 59.999, 'x': 0, 'y': -5, 'reserved': [0, 30, 0, 0]}, {'name': 'off', 'disabled': true}]"))
  = Some [mk_monitor (cstr "Virtual-1") 0 (-5) (0, 30, 0, 0) false].
Proof. vm_compute. reflexivity. Qed.

Definition sample_reply : list byte :=
  json_text "[{'stableId': '7','address':'0x1'} ]" ++ three_newlines ++ json_text "{'stableId': '7','address':'0x1'}" ++ [x0a].

Lemma hypr_snapshot_wf_witness :
  exists clients, @ksd_wayland_hypr_parse_snapshot infinite_memory (Some sample_reply) = Some clients /\ windows_wf clients.
Proof.
  eexists. split; [vm_compute; reflexivity|]. apply (@hypr_snapshot_wf infinite_memory sample_reply). vm_compute. reflexivity.
Defined.

Lemma hypr_monitors_wf_witness :
  exists monitors, @ksd_wayland_hypr_parse_monitors infinite_memory (Some (json_text "[]")) = Some monitors /\
    zlen monitors <= KSD_HYPR_MAX_MONITORS /\ Forall (fun m => monitor_wf m /\ hm_name m <> []) monitors.
Proof.
  exists []. split; [vm_compute; reflexivity|]. apply (@hypr_monitors_wf infinite_memory (json_text "[]")). vm_compute. reflexivity.
Defined.
