(* ===== verification/HyprText.v ===== *)
(** * What a list of windows says (the reference for src/wayland/wl_hypr.c)

    JSON values, the texts that spell them, and the windows a value describes; and the
    theorem that the readers of HyprJson.v find exactly those in every text that spells
    the value, whatever the order of the members, the members between them and the white
    space. *)
From Stdlib Require Import ZArith Lia Strings.Byte Strings.String.
From stdpp Require Import base list option numbers tactics.
From S2P Require Import Prelude.
From S2P Require Import Buffer.
From S2P Require Import KwinEnvelope.
From S2P Require Import Install.
From S2P Require Import KwinTranslate.
From S2P Require Import HyprJson.
Local Open Scope Z_scope.
Local Open Scope ksd_scope.

(** ** Values and the texts that spell them *)

Inductive value :=
| VString (text : list byte)
| VNumber (number : Z)
| VBool (flag : bool)
| VNull
| VObject (members : list (list byte * value))
| VArray (elements : list value).

Definition spaces (w : list byte) : Prop := forallb is_space w = true.

(** One character of a string and its spellings: itself, or an escape; what an escape
    stands for is one plain character, and a code point is a question mark. *)
Inductive char_text : byte -> list byte -> Prop :=
| char_plain b : b2z b <> DQUOTE -> b2z b <> BACKSLASH -> char_text b [b]
| char_escape b : b2z b <> 0x75 -> char_text (escaped b) [x5c; b]
| char_unicode a b c d : char_text x3f [x5c; x75; a; b; c; d].
Definition quoted (s raw : list byte) : Prop := exists chars, Forall2 char_text s chars /\ raw = x22 :: concat chars ++ [x22].

(** A number: an integer part that fits 64 bits, then a fraction or an exponent if any;
    31 characters at most. *)
Definition number_text (raw : list byte) (z : Z) : Prop :=
  exists sign digits tail, raw = sign ++ digits ++ tail /\ (sign = [] \/ sign = [x2d]) /\
    forallb digit_byte digits = true /\ digits <> [] /\
    forallb number_byte tail = true /\ match tail with b :: _ => digit_byte b = false | [] => True end /\
    zlen raw <= 31 /\ z = (if bool_decide (sign = []) then dval 0 digits else - dval 0 digits) /\ is_i64 z.

Section listed.
Context {E : Type} (text : E -> list byte -> Prop).
(** The items of a list that is not empty, with commas between. *)
Inductive listed : list E -> list byte -> Prop :=
| listed_last e raw : text e raw -> listed [e] raw
| listed_more e raw w es raws : text e raw -> spaces w -> listed es raws -> listed (e :: es) (raw ++ w ++ x2c :: raws).
Definition bracketed_text (opening closing : byte) (es : list E) (raw : list byte) : Prop :=
  exists body w, spaces w /\ raw = opening :: body ++ w ++ [closing] /\ ((es = [] /\ body = []) \/ listed es body).
End listed.

Definition member_text (spells : value -> list byte -> Prop) (m : list byte * value) (raw : list byte) : Prop :=
  exists w key w1 text, spaces w /\ spaces w1 /\ quoted (fst m) key /\ spells (snd m) text /\
    raw = w ++ key ++ w1 ++ x3a :: text.

(** The texts of a value no deeper than [levels], with white space before any token. *)
Fixpoint spells (levels : nat) (v : value) (raw : list byte) : Prop :=
  match levels with
  | O => False
  | S levels =>
    exists w text, spaces w /\ raw = w ++ text /\
      match v with
      | VString s => quoted s text
      | VNumber z => number_text text z
      | VBool flag => text = cstr (if flag then "true" else "false")
      | VNull => text = cstr "null"
      | VObject members => bracketed_text (member_text (spells levels)) x7b x7d members text
      | VArray elements => bracketed_text (spells levels) x5b x5d elements text
      end
  end.

(** ** What a value says *)

(** A string in an array of [capacity] characters: cut, and up to a NUL. *)
Definition in_array (capacity : Z) (s : list byte) : list byte * bool :=
  (until_nul (ztake (capacity - 1) s), capacity - 1 <? zlen s).
Definition as_text (capacity : Z) (v : value) : option (list byte * bool) :=
  match v with VString s => Some (in_array capacity s) | _ => None end.
Definition as_integer (v : value) : option Z := match v with VNumber z => Some z | _ => None end.
Definition as_boolean (v : value) : option bool := match v with VBool b => Some b | _ => None end.
Definition as_pair (v : value) : option (Z * Z) :=
  match v with
  | VArray [VNumber a; VNumber b] => guard* int32_range a && int32_range b in Some (a, b)
  | _ => None
  end.

Fixpoint fold_members {St E} (f : St -> E -> option St) (s : St) (es : list E) : option St :=
  match es with [] => Some s | e :: es => let* s := f s e in fold_members f s es end.

Definition workspace_says (client : ksd_hypr_client) (m : list byte * value) : option ksd_hypr_client :=
  let key := fst (in_array 16 (fst m)) in
  if key_is key "id" then let* id := as_integer (snd m) in Some (set_workspace_id id client)
  else if key_is key "name" then
    let* (name, truncated) := as_text KSD_HYPR_WORKSPACE_CAPACITY (snd m) in
    Some (set_workspace_name (if truncated then [] else name) client)
  else Some client.
Definition workspace_of (client : ksd_hypr_client) (v : value) : option ksd_hypr_client :=
  match v with VObject members => fold_members workspace_says client members | _ => None end.

Definition fullscreen_of (client : ksd_hypr_client) (v : value) : option ksd_hypr_client :=
  match v with
  | VBool flag => Some (set_fullscreen (if flag then 1 else 0) client)
  | VNumber z => Some (set_fullscreen (if 0 <? z then 1 else 0) client)
  | _ => None
  end.

Definition client_says (s : ksd_hypr_client * bool) (m : list byte * value) : option (ksd_hypr_client * bool) :=
  let '(client, long) := s in
  let key := fst (in_array 32 (fst m)) in
  let flag (set : bool -> ksd_hypr_client -> ksd_hypr_client) :=
    let* b := as_boolean (snd m) in Some (set b client, long) in
  if key_is key "address" then
    let* (text, truncated) := as_text KSD_HYPR_ID_CAPACITY (snd m) in Some (set_address text client, long || truncated)
  else if key_is key "stableId" then
    let* (text, truncated) := as_text KSD_HYPR_ID_CAPACITY (snd m) in Some (set_stable_id text client, long || truncated)
  else if key_is key "mapped" then flag set_mapped
  else if key_is key "hidden" then flag set_hidden
  else if key_is key "visible" then flag set_visible
  else if key_is key "floating" then flag set_floating
  else if key_is key "pinned" then flag set_pinned
  else if key_is key "overFullscreen" then flag set_over_fullscreen
  else if key_is key "at" then let* xy := as_pair (snd m) in Some (set_at xy client, long)
  else if key_is key "size" then let* wh := as_pair (snd m) in Some (set_size wh client, long)
  else if key_is key "workspace" then let* client := workspace_of client (snd m) in Some (client, long)
  else if key_is key "pid" then let* pid := as_integer (snd m) in Some (set_pid pid client, long)
  else if key_is key "fullscreen" then let* client := fullscreen_of client (snd m) in Some (client, long)
  else Some (client, long).

(** The window an object describes: one with an identifier and an address, both whole. *)
Definition client_of (v : value) : option ksd_hypr_client :=
  match v with
  | VObject ((_ :: _) as members) =>
    let* (client, long) := fold_members client_says (fresh_client, false) members in
    guard* negb long && negb (bytes_eqb (hc_stable_id client) []) && address_valid (hc_address client) in Some client
  | _ => None
  end.
(** The focused window; an object without members says that there is none. *)
Definition focused_of (v : value) : option ksd_hypr_client :=
  match v with VObject [] => Some empty_client | _ => client_of v end.
(** The windows of a list: the elements that describe one, as many as are kept, numbered. *)
Definition windows_of (elements : list value) : list ksd_hypr_client :=
  imap (fun i client => set_stacking_order (Z.of_nat i) client) (take 4096 (omap client_of elements)).

(** ** Reading the text of a value *)

(** What follows a value does not go on with the characters of a number. *)
Definition ends (rest : list byte) : Prop := match rest with b :: _ => number_byte b = false | [] => True end.
(** From [raw] a reader gives [a] and takes no more, whatever follows; or, where that
    cannot be mistaken for more of it, gives what [o] says. *)
Definition scans {A} (r : reader A) (raw : list byte) (a : A) : Prop := forall rest, r (raw ++ rest) = (Some a, rest).
Definition reads_as {A} (r : reader A) (raw : list byte) (o : option A) : Prop :=
  forall rest, ends rest -> match o with Some a => r (raw ++ rest) = (Some a, rest) | None => fst (r (raw ++ rest)) = None end.

Lemma space_code b : is_space b = true -> b2z b = 32 \/ 9 <= b2z b <= 13.
Proof. unfold is_space. lia. Qed.
Lemma number_code b : number_byte b = true -> 48 <= b2z b <= 57 \/ In (b2z b) [0x2d; 0x2b; 0x2e; 0x65; 0x45].
Proof.
  unfold number_byte. rewrite orb_true_iff, digit_byte_range, existsb_exists. intros [?|(c & Hc & E)]; [by left|right].
  apply Z.eqb_eq in E. by subst.
Qed.
Lemma space_not_number b : is_space b = true -> number_byte b = false.
Proof. intros H%space_code. destruct (number_byte b) eqn:E; [|done]. apply number_code in E. cbn in E. lia. Qed.

Lemma ends_spaces w rest : spaces w -> ends rest -> ends (w ++ rest).
Proof. destruct w as [|b w]; [done|]. intros Hw _. cbn. apply space_not_number. by apply andb_true_iff in Hw as [? _]. Qed.

(** A byte that starts a token. *)
Definition token (b : byte) : Prop := is_space b = false.
Lemma space_token w b rest : spaces w -> token b -> json_space (w ++ b :: rest) = b :: rest.
Proof. intros Hw Hb. by apply skip_space_app. Qed.

Lemma space_here b rest : token b -> json_space (b :: rest) = b :: rest.
Proof. exact (space_token [] b rest eq_refl). Qed.

Lemma take_token w b rest e : spaces w -> token b -> json_take e (w ++ b :: rest) = (b2z b =? e, if b2z b =? e then rest else b :: rest).
Proof. intros Hw Hb. unfold json_take. rewrite space_token by done. by destruct (b2z b =? e). Qed.
Lemma peek_token w b rest e : spaces w -> token b -> json_peek e (w ++ b :: rest) = (b2z b =? e, b :: rest).
Proof. intros Hw Hb. unfold json_peek. by rewrite space_token. Qed.
Lemma peek_here b rest e : token b -> json_peek e (b :: rest) = (b2z b =? e, b :: rest).
Proof. exact (peek_token [] b rest e eq_refl). Qed.
Lemma expect_token w b e : spaces w -> token b -> b2z b = e -> scans (expect e) (w ++ [b]) tt.
Proof.
  intros Hw Hb <- rest. unfold expect. rewrite <- app_assoc. cbn [app]. rewrite take_token by done. by rewrite Z.eqb_refl.
Qed.

Lemma expect_here w b e t : spaces w -> token b -> b2z b = e -> expect e (w ++ b :: t) = (Some tt, t).
Proof. intros Hw Hb <-. unfold expect. rewrite take_token by done. by rewrite Z.eqb_refl. Qed.

Lemma scans_reads {A} (r : reader A) raw a : scans r raw a -> reads_as r raw (Some a).
Proof. intros H rest _. apply H. Qed.
Lemma scans_gives {A} (a : A) : scans (gives a) [] a.
Proof. done. Qed.
Lemma scans_step {A B} (r : reader A) (k : A -> reader B) raw1 raw2 a b :
  scans r raw1 a -> scans (k a) raw2 b -> scans (and_then r k) (raw1 ++ raw2) b.
Proof. intros Hr Hk rest. unfold and_then. rewrite <- app_assoc, Hr. apply Hk. Qed.
Lemma reads_step {A B} (r : reader A) (k : A -> reader B) raw1 raw2 a o :
  scans r raw1 a -> reads_as (k a) raw2 o -> reads_as (and_then r k) (raw1 ++ raw2) o.
Proof. intros Hr Hk rest He. unfold and_then. rewrite <- app_assoc, Hr. by apply Hk. Qed.
(** A last step that computes. *)
Lemma reads_then {A B} (r : reader A) (k : A -> reader B) raw o (f : A -> option B) :
  reads_as r raw o -> (forall a, reads_as (k a) [] (f a)) -> reads_as (and_then r k) raw (let* a := o in f a).
Proof.
  intros Hr Hk rest He. specialize (Hr rest He). unfold and_then. destruct o as [a|].
  - rewrite Hr. by apply (Hk a rest).
  - destruct (r (raw ++ rest)) as [[a|] c]; [done|]. done.
Qed.
Lemma reads_gives {A B} (r : reader A) (f : A -> B) raw o :
  reads_as r raw o -> reads_as (read a <- r; gives (f a)) raw (let* a := o in Some (f a)).
Proof. intros Hr. apply reads_then; [done|]. by intros a rest _. Qed.

(** *** Strings *)

Lemma ztake_cons {A} n (b : A) s : 0 < n -> ztake n (b :: s) = b :: ztake (n - 1) s.
Proof. intros H. unfold ztake. replace (Z.to_nat n) with (S (Z.to_nat (n - 1))) by lia. done. Qed.

Lemma store_all cap s : forall o t, zlen o < cap ->
  fold_left (fun out b => store_char (Some cap) b out) s (o, t) = (o ++ ztake (cap - 1 - zlen o) s, t || (cap - 1 - zlen o <? zlen s)).
Proof.
  induction s as [|b s IH]; intros o t Ho; cbn [fold_left store_char fst snd].
  - rewrite zlen_nil. replace (cap - 1 - zlen o <? 0) with false by lia. unfold ztake. by rewrite firstn_nil, app_nil_r, orb_false_r.
  - pose proof (zlen_nonneg s) as Hs. rewrite zlen_cons. case_if; breflect; rewrite IH by (rewrite ?zlen_app, ?zlen_cons, ?zlen_nil; lia).
    + rewrite zlen_app, zlen_cons, zlen_nil, (ztake_cons (cap - 1 - zlen o)) by lia. rewrite <- app_assoc.
      replace (cap - 1 - (zlen o + (1 + 0))) with (cap - 1 - zlen o - 1) by lia. cbn [app]. do 2 f_equal. lia.
    + replace (cap - 1 - zlen o) with 0 by lia. rewrite !ztake_0.
      replace (0 <? 1 + zlen s) with true by lia. by rewrite orb_true_r.
Qed.

Lemma string_loop_text cap s chars : Forall2 char_text s chars -> forall out rest,
  string_loop cap out (concat chars ++ x22 :: rest) = (Some (fold_left (fun out b => store_char cap b out) s out), x22 :: rest).
Proof.
  induction 1 as [|b t s ts Hc _ IH]; intros out rest; [done|]. cbn [concat fold_left]. rewrite <- app_assoc.
  destruct Hc as [b Hq Hb|b Hu|a b c d]; cbn [app string_loop].
  - apply Z.eqb_neq in Hq, Hb. rewrite Hq, Hb. apply IH.
  - apply Z.eqb_neq in Hu. change (b2z x5c =? DQUOTE) with false. change (b2z x5c =? BACKSLASH) with true. rewrite Hu. apply IH.
  - apply IH.
Qed.

Lemma scans_quoted cap w s raw out : spaces w -> quoted s raw ->
  fold_left (fun out b => store_char cap b out) s ([], false) = out -> scans (json_string cap) (w ++ raw) (until_nul (fst out), snd out).
Proof.
  intros Hw (chars & Hch & ->) Ho rest. unfold json_string, and_then.
  rewrite <- app_assoc. cbn [app]. rewrite <- app_assoc. change (w ++ x22 :: ?k) with (w ++ [x22] ++ k). rewrite (app_assoc w).
  rewrite (expect_token w x22 DQUOTE) by done. cbn [app]. rewrite (string_loop_text cap s chars Hch), Ho. destruct out as [o t].
  change (x22 :: rest) with (([] ++ [x22]) ++ rest). by rewrite (expect_token [] x22 DQUOTE).
Qed.
Lemma scans_string cap w s raw : 0 < cap -> spaces w -> quoted s raw -> scans (json_string (Some cap)) (w ++ raw) (in_array cap s).
Proof.
  intros Hcap Hw Hq. apply (scans_quoted (Some cap) w s raw (ztake (cap - 1) s, cap - 1 <? zlen s)); [done..|].
  rewrite store_all by done. by rewrite zlen_nil, Z.sub_0_r.
Qed.
Lemma skips_string w s raw : spaces w -> quoted s raw -> exists r, scans (json_string None) (w ++ raw) r.
Proof. intros Hw Hq. eexists. by eapply scans_quoted. Qed.

Lemma scans_key cap w key raw w1 : 0 < cap -> spaces w -> spaces w1 -> quoted key raw ->
  scans (json_key (Some cap)) (w ++ raw ++ w1 ++ [x3a]) (fst (in_array cap key)).
Proof.
  intros Hcap Hw Hw1 Hq. rewrite app_assoc. eapply scans_step; [by apply scans_string|].
  rewrite <- (app_nil_r (w1 ++ [x3a])). apply (scans_step _ _ _ _ tt); [by apply expect_token|apply scans_gives].
Qed.

Lemma skips_key w key raw w1 : spaces w -> spaces w1 -> quoted key raw ->
  exists r, scans (json_key None) (w ++ raw ++ w1 ++ [x3a]) r.
Proof.
  intros Hw Hw1 Hq. destruct (skips_string w key raw Hw Hq) as [[r1 r2] Hr]. exists r1. rewrite app_assoc.
  eapply scans_step; [exact Hr|]. rewrite <- (app_nil_r (w1 ++ [x3a])). apply (scans_step _ _ _ _ tt); [by apply expect_token|apply scans_gives].
Qed.

(** *** Numbers and literals *)

Lemma number_run_all n raw rest : forallb number_byte raw = true -> (length raw <= n)%nat -> ends rest ->
  number_run n (raw ++ rest) = (raw, rest).
Proof.
  revert n. induction raw as [|b raw IH]; intros n Hr Hn He; cbn [app].
  - destruct rest as [|b rest], n; cbn [number_run]; [done..|]. cbn in He. by rewrite He.
  - cbn in Hr. apply andb_true_iff in Hr as [Hb Hr]. destruct n as [|n]; [cbn in Hn; lia|]. cbn [number_run]. rewrite Hb.
    rewrite IH; [done..| |done]. cbn in Hn. lia.
Qed.

Lemma digit_number b : digit_byte b = true -> number_byte b = true.
Proof. unfold number_byte. by intros ->. Qed.

Lemma number_text_bytes raw z : number_text raw z ->
  forallb number_byte raw = true /\ exists b t, raw = b :: t /\ (digit_byte b = true \/ b2z b = 45).
Proof.
  intros (sg & ds & tl & -> & Hsg & Hd & Hne & Ht & _). rewrite !forallb_app, Ht, andb_true_r. split.
  - apply andb_true_iff. split; [by destruct Hsg as [->| ->]|]. apply forallb_forall. intros b Hb. apply digit_number.
    by eapply forallb_forall in Hd.
  - destruct Hsg as [->| ->]; [|exists x2d; eauto]. destruct ds as [|b ds]; [done|]. exists b, (ds ++ tl). cbn in Hd.
    apply andb_true_iff in Hd as [Hd _]. auto.
Qed.

Lemma strtoll_number raw z : number_text raw z -> exists tail, strtoll raw = Some (z, tail).
Proof.
  intros (sg & ds & tl & -> & Hsg & Hd & Hne & Ht & Htl & Hlen & -> & Hr). exists tl. unfold strtoll.
  assert (Hrun : digit_run (ds ++ tl) = (ds, tl)) by by apply digit_run_app.
  destruct ds as [|d ds]; [done|]. pose proof Hd as Hd0. cbn in Hd0. apply andb_true_iff in Hd0 as [Hd0%digit_not _].
  destruct Hd0 as (Hs & H45 & H43).
  assert (Hne0 : bytes_eqb (d :: ds) [] = false) by by apply bool_decide_eq_false.
  assert (Hsg' : sign_of (skip is_space (sg ++ (d :: ds) ++ tl)) = (negb (bool_decide (sg = [])), (d :: ds) ++ tl)).
  { destruct Hsg as [->| ->]; cbn; [|done]. rewrite Hs. cbn. by rewrite H45, H43. }
  rewrite Hsg', Hrun, Hne0. cbn [negb]. destruct Hr as [H1 H2]. apply Z.leb_le in H1, H2.
  destruct Hsg as [->| ->]; [rewrite bool_decide_true in * by done|rewrite bool_decide_false in * by done]; cbn [negb]; by rewrite H1, H2.
Qed.

Lemma reads_integer w raw z : spaces w -> number_text raw z -> reads_as json_integer (w ++ raw) (Some z).
Proof.
  intros Hw Hn rest He. destruct (number_text_bytes _ _ Hn) as (Hb & b & t & E & Hf). unfold json_integer.
  assert (Htok : token b). { unfold token, is_space. rewrite digit_byte_range in Hf. lia. }
  rewrite <- app_assoc. rewrite E at 1. cbn [app]. rewrite space_token by done. change (b :: t ++ rest) with ((b :: t) ++ rest). rewrite <- E.
  rewrite number_run_all; [|done| |done].
  - destruct (strtoll_number _ _ Hn) as [tl ->]. replace (bytes_eqb raw []) with false; [done|]. symmetry. apply bool_decide_eq_false. by rewrite E.
  - destruct Hn as (? & ? & ? & _ & _ & _ & _ & _ & _ & Hl & _). unfold zlen in Hl. lia.
Qed.

Lemma scans_literal w b word : spaces w -> token b -> scans (literal (b :: word)) (w ++ b :: word) tt.
Proof.
  intros Hw Hb rest. unfold literal, json_literal. rewrite <- app_assoc. cbn [app]. rewrite space_token by done.
  change (b :: word ++ rest) with ((b :: word) ++ rest). rewrite ztake_app_l, zdrop_app_l. unfold bytes_eqb. rewrite bool_decide_true by done.
  pose proof (zlen_nonneg rest). replace (zlen (b :: word) <=? zlen ((b :: word) ++ rest)) with true by (rewrite zlen_app; lia). done.
Qed.

(** Another first byte than the one a word starts with. *)
Lemma literal_other w b rest c word : spaces w -> token b -> b <> c -> json_literal (c :: word) (w ++ b :: rest) = (false, b :: rest).
Proof.
  intros Hw Hb Hne. unfold json_literal. rewrite space_token by done. unfold bytes_eqb. rewrite bool_decide_false; [by rewrite andb_false_r|].
  rewrite zlen_cons, ztake_cons by (pose proof (zlen_nonneg word); lia). by intros [= ? _].
Qed.

Lemma literal_here b rest c word : token b -> b <> c -> json_literal (c :: word) (b :: rest) = (false, b :: rest).
Proof. exact (literal_other [] b rest c word eq_refl). Qed.

Lemma scans_boolean w (flag : bool) : spaces w -> scans json_boolean (w ++ cstr (if flag then "true" else "false")) flag.
Proof.
  intros Hw rest. unfold json_boolean. destruct flag.
  - pose proof (scans_literal w x74 (cstr "rue") Hw eq_refl rest) as H. unfold literal in H.
    change (x74 :: cstr "rue") with (cstr "true") in H. destruct (json_literal (cstr "true") _) as [[] c]; by inversion H.
  - pose proof (scans_literal [] x66 (cstr "alse") eq_refl eq_refl rest) as H. unfold literal in H.
    rewrite <- app_assoc. change (cstr "false" ++ rest) with (x66 :: cstr "alse" ++ rest). rewrite (literal_other w x66 _ x74 (cstr "rue")) by done.
    change (x66 :: cstr "alse") with (cstr "false") in H. change (x66 :: cstr "alse" ++ rest) with ([] ++ cstr "false" ++ rest).
    rewrite app_assoc. destruct (json_literal (cstr "false") _) as [[] c]; by inversion H.
Qed.

(** *** Lists *)

Lemma ends_token b rest : In (b2z b) [COMMA; RBRACE; RBRACKET] -> ends (b :: rest).
Proof.
  intros H. cbn. destruct (number_byte b) eqn:E; [|done]. apply number_code in E. unfold COMMA, RBRACE, RBRACKET in H. cbn in *. lia.
Qed.

Section lists.
Context {St E : Type} (text : E -> list byte -> Prop) (body : St -> reader St) (says : St -> E -> option St).
Hypothesis body_reads : forall s e raw, text e raw -> reads_as (body s) raw (says s e).

Lemma do_while_listed closing es raw : listed text es raw -> token closing -> In (b2z closing) [RBRACE; RBRACKET] ->
  forall n s w rest, spaces w -> (length es <= n)%nat ->
  match fold_members says s es with
  | Some s' => do_while n body s (raw ++ w ++ closing :: rest) = (Some s', closing :: rest)
  | None => fst (do_while n body s (raw ++ w ++ closing :: rest)) = None
  end.
Proof.
  intros Hl Hc Hin. assert (Hcl : forall rest, ends (closing :: rest)) by (intros; apply ends_token; cbn in *; tauto).
  assert (Hnc : (b2z closing =? COMMA) = false) by (unfold RBRACE, RBRACKET, COMMA in *; cbn in Hin; lia).
  induction Hl as [e raw Ht|e raw w1 es raws Ht Hw1 _ IH]; intros n s w rest Hw Hn; cbn [fold_members length] in *;
    (destruct n as [|n]; [lia|]); cbn [do_while].
  - specialize (body_reads s e raw Ht (w ++ closing :: rest) (ends_spaces _ _ Hw (Hcl rest))).
    destruct (says s e) as [s1|]; [|by destruct (body s _) as [[?|] ?]]. rewrite body_reads, take_token by done. by rewrite Hnc.
  - rewrite <- !app_assoc. cbn [app].
    specialize (body_reads s e raw Ht (w1 ++ x2c :: raws ++ w ++ closing :: rest)).
    destruct (says s e) as [s1|]; 
      [|specialize (body_reads (ends_spaces w1 (x2c :: _) Hw1 eq_refl)); by destruct (body s _) as [[?|] ?]].
    rewrite body_reads by (apply ends_spaces; done). rewrite take_token by done. change (b2z x2c =? COMMA) with true. cbn [fst snd].
    apply IH; [done|lia].
Qed.

(** Every item starts with a token, and may stand there without the space before it. *)
Hypothesis starts : forall e raw, text e raw ->
  exists w b t, raw = w ++ b :: t /\ spaces w /\ token b /\ ~ In (b2z b) [RBRACE; RBRACKET] /\ text e (b :: t).

Lemma listed_starts es raw : listed text es raw ->
  exists w b t, raw = w ++ b :: t /\ spaces w /\ token b /\ ~ In (b2z b) [RBRACE; RBRACKET] /\ listed text es (b :: t).
Proof.
  destruct 1 as [e raw Ht|e raw w1 es raws Ht Hw1 Hl]; destruct (starts _ _ Ht) as (w & b & t & -> & Hw & Hb & Hn & Ht').
  - exists w, b, t. repeat split; try done. by apply listed_last.
  - exists w, b, (t ++ w1 ++ x2c :: raws). rewrite <- app_assoc. repeat split; try done. by apply (listed_more text e (b :: t)).
Qed.

Lemma listed_length es raw : listed text es raw -> (length es <= length raw)%nat.
Proof.
  induction 1 as [e raw Ht|e raw w1 es raws Ht Hw1 _ IH]; destruct (starts _ _ Ht) as (w & b & t & -> & _); cbn [length];
    rewrite !length_app; cbn [length]; rewrite ?length_app; cbn [length]; lia.
Qed.

(** The list after its opening bracket. *)
Lemma reads_bracketed opening closing es raw s :
  bracketed_text text opening closing es raw -> token closing -> In (b2z closing) [RBRACE; RBRACKET] ->
  exists tail, raw = opening :: tail /\ reads_as (bracketed (b2z closing) body s) tail (fold_members says s es).
Proof.
  intros (inner & w & Hw & -> & Hes) Hc Hin. eexists. split; [done|]. intros rest He. unfold bracketed.
  rewrite <- !app_assoc. cbn [app]. destruct Hes as [[-> ->]|Hl].
  - cbn [app fold_members]. rewrite take_token by done. by rewrite Z.eqb_refl.
  - destruct (listed_starts _ _ Hl) as (w2 & b & t & -> & Hw2 & Hb & Hnb & Hl'). rewrite <- app_assoc. cbn [app]. rewrite take_token by done.
    replace (b2z b =? b2z closing) with false by (symmetry; apply Z.eqb_neq; intros Eb; apply Hnb; by rewrite Eb).
    assert (Hn : (length es <= S (length (b :: t ++ w ++ closing :: rest)))%nat).
    { apply listed_length in Hl'. cbn [length] in *. rewrite length_app. lia. }
    pose proof (do_while_listed closing es _ Hl' Hc Hin _ s w rest Hw Hn) as Hr.
    cbn [app] in Hr. unfold and_then, items. destruct (fold_members says s es) as [s1|].
    + rewrite Hr. change (closing :: rest) with (([] ++ [closing]) ++ rest). by rewrite (expect_token [] closing (b2z closing)).
    + by destruct (do_while _ body s _) as [[s1|] c].
Qed.
End lists.

(** *** Values *)

(** The byte a value starts with. *)
Definition leads (v : value) (b : byte) : Prop :=
  match v with
  | VString _ => b = x22
  | VNumber _ => digit_byte b = true \/ b = x2d
  | VBool flag => b = if flag then x74 else x66
  | VNull => b = x6e
  | VObject _ => b = x7b
  | VArray _ => b = x5b
  end.

Lemma leads_token v b : leads v b -> token b /\ ~ In (b2z b) [RBRACE; RBRACKET].
Proof.
  destruct v as [| |[]| | |]; cbn [leads]; intros H; try (subst b; split; [done|cbn; unfold RBRACE, RBRACKET; lia]).
  destruct H as [H%digit_byte_range| ->]; [|split; [done|cbn; unfold RBRACE, RBRACKET; lia]].
  split; [unfold token, is_space; lia|cbn; unfold RBRACE, RBRACKET; lia].
Qed.

Lemma spells_starts n v raw : spells n v raw -> exists w b t, raw = w ++ b :: t /\ spaces w /\ leads v b /\ spells n v (b :: t).
Proof.
  destruct n as [|n]; [done|]. intros (w & text & Hw & -> & Hv). exists w.
  assert (H : exists b t, text = b :: t /\ leads v b).
  { destruct v as [s|z|[]| |ms|vs].
    - destruct Hv as (ch & _ & ->). by eexists _, _.
    - destruct (number_text_bytes _ _ Hv) as (_ & b & t & -> & Hb). exists b, t. split; [done|]. destruct Hb as [?|Hb]; [by left|right].
      by apply (b2z_inj b x2d).
    - exists x74, (cstr "rue"). by rewrite Hv.
    - exists x66, (cstr "alse"). by rewrite Hv.
    - exists x6e, (cstr "ull"). by rewrite Hv.
    - destruct Hv as (? & ? & _ & -> & _). by eexists _, _.
    - destruct Hv as (? & ? & _ & -> & _). by eexists _, _. }
  destruct H as (b & t & -> & Hl). exists b, t. split; [done|]. split; [done|]. split; [done|]. by exists [], (b :: t).
Qed.

Lemma spells_starts' n v raw : spells n v raw ->
  exists w b t, raw = w ++ b :: t /\ spaces w /\ token b /\ ~ In (b2z b) [RBRACE; RBRACKET] /\ spells n v (b :: t).
Proof. intros (w & b & t & -> & Hw & Hl & Ht)%spells_starts. destruct (leads_token _ _ Hl). by exists w, b, t. Qed.

Lemma member_starts n m raw : member_text (spells n) m raw ->
  exists w b t, raw = w ++ b :: t /\ spaces w /\ token b /\ ~ In (b2z b) [RBRACE; RBRACKET] /\ member_text (spells n) m (b :: t).
Proof.
  intros (w & key & w1 & text & Hw & Hw1 & (ch & Hch & ->) & Ht & ->).
  exists w, x22, ((concat ch ++ [x22]) ++ w1 ++ x3a :: text). split; [done|]. split; [done|]. split; [done|].
  split; [cbn; unfold RBRACE, RBRACKET; lia|]. exists [], (x22 :: concat ch ++ [x22]), w1, text. repeat split; try done. by exists ch.
Qed.

(** A member is read by its key and what is made of its value. *)
Lemma reads_member {A} n cap m raw (k : list byte -> reader A) o : 0 < cap -> member_text (spells n) m raw ->
  (forall text, spells n (snd m) text -> reads_as (k (fst (in_array cap (fst m)))) text o) ->
  reads_as (and_then (json_key (Some cap)) k) raw o.
Proof.
  intros Hcap (w & key & w1 & text & Hw & Hw1 & Hq & Ht & ->) Hk. replace (w ++ key ++ w1 ++ x3a :: text) with ((w ++ key ++ w1 ++ [x3a]) ++ text).
  - eapply reads_step; [by apply scans_key|by apply Hk].
  - by rewrite <- !app_assoc.
Qed.

Lemma skip_levels_token n w b t : spaces w -> token b -> skip_levels (S n) (w ++ b :: t) = skip_levels (S n) (b :: t).
Proof. intros Hw Hb. cbn [skip_levels]. by rewrite space_token, space_here. Qed.

Lemma fold_units {E} (es : list E) : fold_members (fun _ _ => Some tt) tt es = Some tt.
Proof. by induction es. Qed.

(** Whatever a value is, [json_skip] steps over it. *)
Lemma reads_skip n : forall levels v raw, (n <= levels)%nat -> spells n v raw -> reads_as (skip_levels levels) raw (Some tt).
Proof.
  induction n as [|n IH]; intros [|levels] v raw Hn Hv rest He; [done|done|lia|].
  destruct (spells_starts _ _ _ Hv) as (w & b & t & -> & Hw & Hl & Hv'). destruct (leads_token _ _ Hl) as [Hb _].
  rewrite <- app_assoc. cbn [app]. rewrite skip_levels_token by done. cbn [skip_levels].
  rewrite space_here by done.
  destruct Hv' as (w0 & text & Hw0 & E & Ht). assert (w0 = []) as ->.
  { destruct w0 as [|c w0]; [done|]. injection E as <- _. cbn in Hw0. apply andb_true_iff in Hw0 as [Hw0 _]. unfold token in Hb. by rewrite Hb in Hw0. }
  cbn [app] in E. rewrite <- E in Ht. change (b :: t ++ rest) with ((b :: t) ++ rest). destruct v as [s|z|flag| |ms|vs]; cbn [leads] in Hl.
  - subst b. change (b2z x22 =? DQUOTE) with true. cbv iota. destruct (skips_string [] s _ eq_refl Ht) as [r Hr]. cbn [app] in Hr.
    unfold and_then. by rewrite (Hr rest).
  - assert (Hno : forall c, In c [DQUOTE; LBRACE; LBRACKET; 0x74; 0x66; 0x6e] -> (b2z b =? c) = false).
    { intros c Hc. destruct Hl as [Hl%digit_byte_range| ->]; cbn in Hc; unfold DQUOTE, LBRACE, LBRACKET in *; [lia|].
      apply Z.eqb_neq. change (b2z x2d) with 45. lia. }
    rewrite !Hno by (cbn; tauto). unfold and_then. pose proof (reads_integer [] _ _ eq_refl Ht rest He) as Hr. cbn [app] in Hr. cbn [app]. by rewrite Hr.
  - destruct flag; subst b; cbn in Ht; injection Ht as ->; [exact (scans_literal [] x74 (cstr "rue") eq_refl eq_refl rest)
      |exact (scans_literal [] x66 (cstr "alse") eq_refl eq_refl rest)].
  - subst b. injection Ht as ->. exact (scans_literal [] x6e (cstr "ull") eq_refl eq_refl rest).
  - subst b. change (b2z x7b =? DQUOTE) with false. change (b2z x7b =? LBRACE) with true. cbv iota.
    destruct (reads_bracketed (member_text (spells n)) (fun _ => read _ <- json_key None; skip_levels levels) (fun _ _ => Some tt)) with
      (opening := x7b) (closing := x7d) (es := ms) (raw := x7b :: t) (s := tt) as (tl & Etl & Hr); try done.
    + intros _ m raw (w2 & key & w1 & text' & Hw2 & Hw1 & Hq & Hs & ->).
      destruct (skips_key w2 _ _ w1 Hw2 Hw1 Hq) as [r Hr].
      replace (w2 ++ key ++ w1 ++ x3a :: text') with ((w2 ++ key ++ w1 ++ [x3a]) ++ text') by by rewrite <- !app_assoc.
      eapply reads_step; [exact Hr|]. by apply (IH levels (snd m)); [lia|].
    + apply member_starts.
    + by left.
    + injection Etl as ->. rewrite fold_units in Hr. exact (Hr rest He).
  - subst b. change (b2z x5b =? DQUOTE) with false. change (b2z x5b =? LBRACE) with false. change (b2z x5b =? LBRACKET) with true. cbv iota.
    destruct (reads_bracketed (spells n) (fun _ => skip_levels levels) (fun _ _ => Some tt)) with
      (opening := x5b) (closing := x5d) (es := vs) (raw := x5b :: t) (s := tt) as (tl & Etl & Hr); try done.
    + intros _ v raw Hs. apply (IH levels v); [lia|done].
    + apply spells_starts'.
    + by right; left.
    + injection Etl as ->. rewrite fold_units in Hr. exact (Hr rest He).
Qed.

(** *** Members of a window *)

Lemma expect_other n v raw e rest : spells n v raw -> (forall b, leads v b -> b2z b <> e) -> fst (expect e (raw ++ rest)) = None.
Proof.
  intros (w & b & t & -> & Hw & Hl & _)%spells_starts Hne. destruct (leads_token _ _ Hl) as [Hb _].
  unfold expect. rewrite <- app_assoc. cbn [app]. rewrite take_token by done. apply Hne, Z.eqb_neq in Hl. by rewrite Hl.
Qed.

Lemma fails_step {A B} (r : reader A) (k : A -> reader B) c : fst (r c) = None -> fst (and_then r k c) = None.
Proof. unfold and_then. destruct (r c) as [[a|] c1]; [done|done]. Qed.

Lemma step_some {A B} (r : reader A) (k : A -> reader B) c a c' : r c = (Some a, c') -> and_then r k c = k a c'.
Proof. unfold and_then. by intros ->. Qed.

Lemma reads_array n cap v raw : 0 < cap -> spells n v raw -> reads_as (json_string (Some cap)) raw (as_text cap v).
Proof.
  intros Hcap Hv. destruct n as [|n]; [done|]. destruct v as [s| | | | | ]; cbn [as_text];
    try (intros rest _; apply fails_step; eapply expect_other; [exact Hv|]; cbn [leads]; intros b Hb;
         first [destruct Hb as [Hb%digit_byte_range| ->]; unfold DQUOTE; [lia|done] | subst b; by destruct flag | by subst b]).
  destruct Hv as (w & text & Hw & -> & Hq). apply scans_reads. by apply scans_string.
Qed.

Lemma integer_other w b t : spaces w -> token b -> number_byte b = false -> fst (json_integer (w ++ b :: t)) = None.
Proof. intros Hw Hb Hn. unfold json_integer. rewrite space_token by done. cbn [number_run]. by rewrite Hn. Qed.

Lemma reads_int n v raw : spells n v raw -> reads_as json_integer raw (as_integer v).
Proof.
  intros Hv. destruct n as [|n]; [done|]. destruct v as [s|z|flag| |ms|vs]; cbn [as_integer];
    try (intros rest _; destruct (spells_starts _ _ _ Hv) as (w & b & t & -> & Hw & Hl & _); destruct (leads_token _ _ Hl) as [Hb _];
         rewrite <- app_assoc; apply integer_other; [done..|]; cbn [leads] in Hl; first [by subst b | subst b; by destruct flag]).
  destruct Hv as (w & text & Hw & -> & Hz). by apply reads_integer.
Qed.

Lemma reads_bool n v raw : spells n v raw -> reads_as json_boolean raw (as_boolean v).
Proof.
  intros Hv. destruct n as [|n]; [done|]. destruct v as [s|z|flag| |ms|vs]; cbn [as_boolean];
    try (intros rest _; destruct (spells_starts _ _ _ Hv) as (w & b & t & -> & Hw & Hl & _); destruct (leads_token _ _ Hl) as [Hb _];
         assert (Hn : b <> x74 /\ b <> x66) by (cbn [leads] in Hl; split; intros ->; first [done | by destruct Hl]);
         destruct Hn as [Hn1 Hn2]; unfold json_boolean; rewrite <- app_assoc; cbn [app];
         change (cstr "true") with (x74 :: cstr "rue"); change (cstr "false") with (x66 :: cstr "alse");
         rewrite (literal_other w b _ x74) by done; by rewrite literal_here).
  destruct Hv as (w & text & Hw & -> & ->). apply scans_reads. by apply scans_boolean.
Qed.

Lemma array_comma b t w : spaces w -> token b -> b2z b <> COMMA -> fst (expect COMMA (w ++ b :: t)) = None.
Proof. intros Hw Hb Hn. unfold expect. rewrite take_token by done. apply Z.eqb_neq in Hn. by rewrite Hn. Qed.

Lemma reads_pair n v raw : spells n v raw -> reads_as json_pair raw (as_pair v).
Proof.
  intros Hv rest He. destruct n as [|n]; [done|]. unfold json_pair. destruct v as [s|z|flag| |ms|vs];
    try (apply fails_step; eapply expect_other; [exact Hv|]; cbn [leads]; intros b Hb;
         first [destruct Hb as [Hb%digit_byte_range| ->]; unfold LBRACKET; [lia|done] | subst b; by destruct flag | by subst b]).
  destruct Hv as (w & text & Hw & -> & (inner & w1 & Hw1 & -> & Hvs)).
  rewrite <- app_assoc. cbn [app]. rewrite <- !app_assoc. cbn [app]. rewrite (step_some _ _ _ _ _ (expect_here w x5b LBRACKET _ Hw eq_refl eq_refl)).
  assert (Hend : forall c k, In (b2z c) [COMMA; RBRACE; RBRACKET] -> ends (w1 ++ c :: k)).
  { intros c k Hc. apply ends_spaces; [done|by apply ends_token]. }
  destruct Hvs as [[-> ->]|Hl]; [by apply fails_step, integer_other|].
  inversion Hl as [v1 r1 Ht1|v1 r1 w2 vs' r2 Ht1 Hw2 Hl2]; subst; clear Hl.
  - pose proof (reads_int _ _ _ Ht1 _ (Hend x5d rest ltac:(cbn; tauto))) as H1. destruct v1; try (by apply fails_step).
    cbn [as_integer] in H1. rewrite (step_some _ _ _ _ _ H1). by apply fails_step, array_comma.
  - rewrite <- app_assoc. cbn [app]. pose proof (reads_int _ _ _ Ht1 (w2 ++ x2c :: r2 ++ w1 ++ x5d :: rest) (ends_spaces w2 (x2c :: _) Hw2 eq_refl)) as H1.
    rewrite <- app_assoc. cbn [app]. destruct v1 as [|a| | | |]; try (by apply fails_step). cbn [as_integer] in H1. rewrite (step_some _ _ _ _ _ H1).
    rewrite (step_some _ _ _ _ _ (expect_here w2 x2c COMMA _ Hw2 eq_refl eq_refl)).
    inversion Hl2 as [v2 r3 Ht2|v2 r3 w3 vs'' r4 Ht2 Hw3 Hl3]; subst; clear Hl2.
    + pose proof (reads_int _ _ _ Ht2 _ (Hend x5d rest ltac:(cbn; tauto))) as H2. destruct v2 as [|c| | | |]; try (by apply fails_step).
      cbn [as_integer] in H2. rewrite (step_some _ _ _ _ _ H2). rewrite (step_some _ _ _ _ _ (expect_here w1 x5d RBRACKET _ Hw1 eq_refl eq_refl)). cbn [as_pair]. unfold when. by case_if.
    + rewrite <- app_assoc. cbn [app]. pose proof (reads_int _ _ _ Ht2 (w3 ++ x2c :: r4 ++ w1 ++ x5d :: rest) (ends_spaces w3 (x2c :: _) Hw3 eq_refl)) as H2.
      assert (Hn : as_pair (VArray (VNumber a :: v2 :: vs'')) = None) by by destruct v2, vs''; try done; inversion Hl3.
      rewrite Hn. rewrite <- app_assoc. cbn [app]. destruct v2 as [|c| | | |]; try (by apply fails_step). cbn [as_integer] in H2.
      rewrite (step_some _ _ _ _ _ H2). apply fails_step. unfold expect. by rewrite take_token.
Qed.

Lemma reads_workspace_member n client m raw : (n <= 16)%nat -> member_text (spells n) m raw ->
  reads_as (workspace_member client) raw (workspace_says client m).
Proof.
  intros Hn Hm. eapply reads_member; [done|exact Hm|]. intros text Ht. unfold workspace_says.
  case_if; [apply reads_gives; by eapply reads_int|]. case_if.
  - apply reads_then; [by eapply reads_array|]. by intros [name tr] rest _.
  - apply (reads_gives (json_skip 1) (fun _ => client) text (Some tt)). by eapply reads_skip.
Qed.

Lemma reads_workspace n client v raw : (n <= 17)%nat -> spells n v raw -> reads_as (json_workspace client) raw (workspace_of client v).
Proof.
  intros Hn Hv. destruct n as [|n]; [done|]. unfold json_workspace. destruct v as [s|z|flag| |ms|vs];
    try (intros rest _; apply fails_step; eapply expect_other; [exact Hv|]; cbn [leads]; intros b Hb;
         first [destruct Hb as [Hb%digit_byte_range| ->]; unfold LBRACE; [lia|done] | subst b; by destruct flag | by subst b]).
  destruct Hv as (w & text & Hw & -> & Hms).
  destruct (reads_bracketed (member_text (spells n)) workspace_member workspace_says) with
    (opening := x7b) (closing := x7d) (es := ms) (raw := text) (s := client) as (tl & -> & Hr); try done.
  - intros c m raw Ht. apply (reads_workspace_member n); [lia|done].
  - apply member_starts.
  - by left.
  - change (w ++ x7b :: tl) with (w ++ [x7b] ++ tl). rewrite app_assoc. eapply reads_step; [by apply expect_token|exact Hr].
Qed.

Lemma reads_fullscreen n client v raw : spells n v raw -> reads_as (json_fullscreen client) raw (fullscreen_of client v).
Proof.
  intros Hv rest He. destruct (spells_starts _ _ _ Hv) as (w & b & t & -> & Hw & Hl & Hv'). destruct (leads_token _ _ Hl) as [Hb _].
  unfold json_fullscreen. rewrite <- app_assoc. cbn [app]. rewrite peek_token by done. rewrite peek_here by done.
  pose proof (reads_gives json_boolean (fun flag : bool => set_fullscreen (if flag then 1 else 0) client) _ _ (reads_bool _ _ _ Hv') rest He) as H1.
  pose proof (reads_gives json_integer (fun z => set_fullscreen (if 0 <? z then 1 else 0) client) _ _ (reads_int _ _ _ Hv') rest He) as H2.
  cbn [app] in H1, H2. destruct v as [s|z|flag| |ms|vs]; cbn [leads] in Hl.
  - subst b. exact H2.
  - replace ((b2z b =? 116) || (b2z b =? 102)) with false; [exact H2|]. destruct Hl as [Hl%digit_byte_range| ->]; [lia|done].
  - subst b. by destruct flag.
  - subst b. exact H2.
  - subst b. exact H2.
  - subst b. exact H2.
Qed.

Lemma reads_client_member n s m raw : (n <= 16)%nat -> member_text (spells n) m raw -> reads_as (client_member s) raw (client_says s m).
Proof.
  intros Hn Hm. destruct s as [client long]. eapply reads_member; [done|exact Hm|]. intros text Ht. unfold client_says.
  repeat (case_if; [first
    [ apply reads_then; [by eapply reads_array|by intros [? ?] rest _]
    | apply reads_gives; by eapply reads_bool
    | apply reads_gives; by eapply reads_pair
    | apply reads_gives; eapply reads_workspace; [|exact Ht]; lia
    | apply reads_gives; by eapply reads_int
    | apply reads_gives; by eapply reads_fullscreen ]|]).
  apply (reads_gives (json_skip 1) (fun _ => (client, long)) text (Some tt)). by eapply reads_skip.
Qed.

(** *** Windows *)

Lemma listed_nil {E} (text : E -> list byte -> Prop) raw : ~ listed text [] raw.
Proof. by inversion 1. Qed.

Lemma reads_client n v raw : (n <= 17)%nat -> spells n v raw -> reads_as json_client raw (client_of v).
Proof.
  intros Hn Hv rest He. destruct n as [|n]; [done|]. unfold json_client. destruct v as [s|z|flag| |ms|vs];
    try (apply fails_step; eapply expect_other; [exact Hv|]; cbn [leads]; intros b Hb;
         first [destruct Hb as [Hb%digit_byte_range| ->]; unfold LBRACE; [lia|done] | subst b; by destruct flag | by subst b]).
  destruct Hv as (w & text & Hw & -> & Hms). destruct Hms as (inner & w1 & Hw1 & -> & Hes) eqn:Ems. clear Ems.
  rewrite <- app_assoc. cbn [app]. rewrite (step_some _ _ _ _ _ (expect_here w x7b LBRACE _ Hw eq_refl eq_refl)).
  rewrite <- !app_assoc. cbn [app]. destruct Hes as [[-> ->]|Hl]; [cbn [app client_of]; by rewrite take_token|].
  destruct ms as [|m ms]; [by apply listed_nil in Hl|].
  destruct (reads_bracketed (member_text (spells n)) client_member client_says) with
    (opening := x7b) (closing := x7d) (es := m :: ms) (raw := x7b :: inner ++ w1 ++ [x7d]) (s := (fresh_client, false)) as (tl & Etl & Hr).
  { intros s m' raw Ht. apply (reads_client_member n); [lia|done]. }
  { apply member_starts. }
  { exists inner, w1. auto. }
  { done. }
  { by left. }
  injection Etl as <-. specialize (Hr rest He). rewrite <- !app_assoc in Hr. cbn [app] in Hr.
  destruct (listed_starts _ (member_starts n) _ _ Hl) as (w2 & b & t & Ei & Hw2 & Hb & Hnb & _).
  assert (Ht : fst (json_take RBRACE (inner ++ w1 ++ x7d :: rest)) = false).
  { rewrite Ei, <- app_assoc. cbn [app]. rewrite take_token by done. apply Z.eqb_neq. intros Eb. apply Hnb. rewrite Eb. by left. }
  change (b2z x7d) with RBRACE in Hr. unfold bracketed in Hr. destruct (json_take RBRACE _) as [closed c]. cbn [fst] in Ht. subst closed.
  unfold client_of. unfold and_then in Hr |- *. destruct (items client_member (fresh_client, false) c) as [[[client long]|] c1].
  - destruct (expect RBRACE c1) as [[[]|] c2].
    + destruct (fold_members _ _ _) as [[client' long']|]; [|done]. unfold gives in Hr. injection Hr as <- <- <-. unfold when. by case_if.
    + destruct (fold_members _ _ _) as [[client' long']|]; [done|]. done.
  - destruct (fold_members _ _ _) as [[client' long']|]; [done|]. done.
Qed.

Section snapshot.
Context {AL : Allocator} {AT : AllocTotal AL}.

(** One element of the list. *)
Definition element_says (s : list ksd_hypr_client * Z) (v : value) : list ksd_hypr_client * Z :=
  let '(clients, capacity) := s in
  match client_of v with
  | Some client =>
    if zlen clients =? KSD_HYPR_MAX_CLIENTS then s
    else (clients ++ [set_stacking_order (u32 (zlen clients)) client],
          if zlen clients =? capacity then (if capacity =? 0 then 16 else capacity * 2) else capacity)
  | None => s
  end.

Lemma reads_element s v raw : spells 16 v raw -> reads_as (clients_element s) raw (Some (element_says s v)).
Proof.
  intros Hv rest He. destruct s as [clients capacity]. unfold clients_element, element_says.
  pose proof (reads_client 16 v raw ltac:(lia) Hv rest He) as Hc. destruct (client_of v) as [client|].
  - rewrite Hc. case_if; [done|]. rewrite alloc_total. rewrite andb_false_r. done.
  - destruct (json_client (raw ++ rest)) as [[?|] c]; [done|].
    pose proof (reads_gives (json_skip 1) (fun _ => (clients, capacity)) raw (Some tt)) as Hs. cbn [fst] in *.
    apply Hs; [|done]. by eapply reads_skip.
Qed.

Lemma fold_elements vs : forall s,
  fold_members (fun s v => Some (element_says s v)) s vs = Some (fold_left element_says vs s).
Proof. induction vs as [|v vs IH]; intros s; [done|]. cbn. by rewrite IH. Qed.

Lemma windows_elements vs : fst (fold_left element_says vs ([], 0)) = windows_of vs.
Proof.
  induction vs as [|v vs IH] using rev_ind; [done|]. rewrite fold_left_app. cbn [fold_left]. unfold windows_of in *.
  rewrite omap_app. destruct (fold_left element_says vs ([], 0)) as [cs cap]. cbn [fst] in IH. unfold element_says.
  assert (Hl : length cs = Nat.min 4096 (length (omap client_of vs))) by (rewrite IH, length_imap, length_take; lia).
  destruct (client_of v) as [c|] eqn:Ec; cbn [omap list_omap fst].
  - rewrite Ec. unfold zlen, KSD_HYPR_MAX_CLIENTS. case_if; breflect; cbn [fst].
    + rewrite take_app_le by lia. exact IH.
    + rewrite take_app_ge by lia. rewrite imap_app. rewrite (take_ge (omap client_of vs)) in * by lia. rewrite IH at 1. f_equal.
      replace (4096 - length (omap client_of vs))%nat with (S (4095 - length (omap client_of vs))) by lia. cbn. rewrite firstn_nil. cbn.
      do 2 f_equal. unfold u32. rewrite Z.mod_small by lia. lia.
  - rewrite Ec, app_nil_r. exact IH.
Qed.

Lemma reads_clients w text vs rest : spaces w -> bracketed_text (spells 16) x5b x5d vs text ->
  json_clients (w ++ text ++ x0a :: rest) = (Some (windows_of vs), x0a :: rest).
Proof.
  intros Hw Ht. destruct (reads_bracketed (spells 16) clients_element (fun s v => Some (element_says s v))) with
    (opening := x5b) (closing := x5d) (es := vs) (raw := text) (s := (@nil ksd_hypr_client, 0)) as (tl & -> & Hr); try done.
  { intros s v raw. apply reads_element. }
  { apply spells_starts'. }
  { by right; left. }
  unfold json_clients. cbn [app]. rewrite (step_some _ _ _ _ _ (expect_here w x5b LBRACKET _ Hw eq_refl eq_refl)).
  rewrite fold_elements in Hr. specialize (Hr (x0a :: rest) eq_refl). rewrite (step_some _ _ _ _ _ Hr).
  rewrite <- windows_elements. by destruct (fold_left _ _ _).
Qed.

Lemma reads_active v raw : spells 16 v raw -> reads_as json_active raw (focused_of v).
Proof.
  intros Hv rest He. pose proof (reads_client 16 v raw ltac:(lia) Hv rest He) as Hc. unfold json_active.
  destruct v as [s|z|flag| |ms|vs];
    try (assert (Hf : fst (expect LBRACE (raw ++ rest)) = None) by
           (eapply expect_other; [exact Hv|]; cbn [leads]; intros b Hb;
            first [destruct Hb as [Hb%digit_byte_range| ->]; unfold LBRACE; [lia|done] | subst b; by destruct flag | by subst b]);
         apply (fails_step _ (fun _ => expect RBRACE)) in Hf; destruct (and_then _ _ _) as [[?|] ?]; [done|exact Hc]).
  destruct Hv as (w & text & Hw & -> & (inner & w1 & Hw1 & -> & Hes)). rewrite <- app_assoc in *. cbn [app] in *.
  rewrite (step_some _ _ _ _ _ (expect_here w x7b LBRACE _ Hw eq_refl eq_refl)). rewrite <- !app_assoc in *. cbn [app] in *.
  destruct Hes as [[-> ->]|Hl].
  - cbn [app focused_of]. by rewrite expect_here.
  - destruct ms as [|m ms]; [by apply listed_nil in Hl|]. destruct (listed_starts _ (member_starts 15) _ _ Hl) as (w2 & b & t & -> & Hw2 & Hb & Hnb & _).
    assert (Hf : fst (expect RBRACE ((w2 ++ b :: t) ++ w1 ++ x7d :: rest)) = None).
    { unfold expect. rewrite <- app_assoc. cbn [app]. rewrite take_token by done.
      assert (Eb : (b2z b =? RBRACE) = false) by (apply Z.eqb_neq; intros Eb; apply Hnb; rewrite Eb; by left). by rewrite Eb. }
    destruct (expect RBRACE _) as [[?|] ?]; [done|exact Hc].
Qed.

(** C40: a reply that spells a list of values and, after the separator, one more value is
    read as just what they say: the windows the elements describe, in their order, an
    element that names no window passed over, the one that is focused marked; in
    whatever order the members come, with whatever other members between them and
    white space anywhere, as deep as the reader goes.  While memory lasts such a reply is
    refused just when its last value is neither a window nor an object without members. *)
Theorem hypr_snapshot_exact vs v w text last w' :
  spaces w -> bracketed_text (spells 16) x5b x5d vs text -> spells 16 v last -> spaces w' ->
  ksd_wayland_hypr_parse_snapshot (Some (w ++ text ++ three_newlines ++ last ++ w'))
  = let* focused := focused_of v in Some (map (mark_active focused) (windows_of vs)).
Proof.
  intros Hw Ht Hv Hw'. cbn [ksd_wayland_hypr_parse_snapshot].
  change (three_newlines ++ last ++ w') with (x0a :: [x0a; x0a] ++ last ++ w'). rewrite (reads_clients _ _ _ _ Hw Ht).
  change (x0a :: [x0a; x0a] ++ last ++ w') with (three_newlines ++ last ++ w'). change 3 with (zlen three_newlines).
  rewrite ztake_app_l, zdrop_app_l, zlen_app. pose proof (zlen_nonneg (last ++ w')).
  replace (zlen three_newlines <=? zlen three_newlines + zlen (last ++ w')) with true by lia. unfold bytes_eqb at 1. rewrite bool_decide_true by done.
  cbn [andb]. assert (He : ends w') by (rewrite <- (app_nil_r w'); by apply ends_spaces).
  pose proof (reads_active v last Hv w' He) as Ha. destruct (focused_of v) as [focused|].
  - rewrite Ha. unfold json_space. assert (E : skip is_space w' = []) by (rewrite <- (app_nil_r w'); by apply skip_space_app). by rewrite E.
  - by destruct (json_active (last ++ w')) as [[?|] ?].
Qed.
End snapshot.

(** ** On a reply *)

Lemma plain_spells n s : forallb (fun b => negb (b2z b =? DQUOTE) && negb (b2z b =? BACKSLASH)) s = true -> quoted s (x22 :: s ++ [x22]) /\ spells (S n) (VString s) (x22 :: s ++ [x22]).
Proof.
  intros H. assert (Hq : quoted s (x22 :: s ++ [x22])).
  { exists (map (fun b => [b]) s). split.
    - induction s as [|b s IH]; [constructor|]. cbn in H. rewrite !andb_true_iff, !negb_true_iff, !Z.eqb_neq in H. destruct H as [[H1 H2] H].
      constructor; [by constructor|by apply IH].
    - f_equal. f_equal. clear H. induction s as [|b s IH]; [done|]. cbn. by rewrite <- IH. }
  split; [done|]. by exists [], (x22 :: s ++ [x22]).
Qed.

Definition sample_value : value := VObject [(cstr "stableId", VString (cstr "7")); (cstr "address", VString (cstr "0x1"))].
Lemma sample_spelled n : spells (S (S n)) sample_value (json_text "{'stableId': '7','address':'0x1'}").
Proof.
  exists [], (json_text "{'stableId': '7','address':'0x1'}"). split; [done|]. split; [done|].
  exists (json_text "'stableId': '7','address':'0x1'"), []. split; [done|]. split; [done|]. right.
  change (json_text "'stableId': '7','address':'0x1'") with (json_text "'stableId': '7'" ++ [] ++ x2c :: json_text "'address':'0x1'").
  assert (Hm : forall k v w, spaces w -> forallb (fun b => negb (b2z b =? DQUOTE) && negb (b2z b =? BACKSLASH)) k = true ->
    forallb (fun b => negb (b2z b =? DQUOTE) && negb (b2z b =? BACKSLASH)) v = true ->
    member_text (spells (S n)) (k, VString v) ((x22 :: k ++ [x22]) ++ [] ++ x3a :: w ++ x22 :: v ++ [x22])).
  { intros k v w Hw Hk Hv. exists [], (x22 :: k ++ [x22]), [], (w ++ x22 :: v ++ [x22]). repeat split; try done.
    - by apply (plain_spells n).
    - exists w, (x22 :: v ++ [x22]). split; [done|]. split; [done|]. by apply (plain_spells n). }
  apply listed_more; [by apply (Hm (cstr "stableId") (cstr "7") [x20])|done|]. apply listed_last. by apply (Hm (cstr "address") (cstr "0x1") []).
Qed.

Lemma hypr_snapshot_exact_witness :
  @ksd_wayland_hypr_parse_snapshot infinite_memory (Some sample_reply)
  = Some [set_active true (set_stacking_order 0 (set_address (cstr "0x1") (set_stable_id (cstr "7") fresh_client)))].
Proof.
  etransitivity.
  - apply (@hypr_snapshot_exact infinite_memory infinite_memory_total [sample_value] sample_value []
             (json_text "[{'stableId': '7','address':'0x1'} ]") (json_text "{'stableId': '7','address':'0x1'}") [x0a]); [done| | |done].
    + exists (json_text "{'stableId': '7','address':'0x1'}"), [x20]. split; [done|]. split; [done|]. right. apply listed_last. apply sample_spelled.
    + apply sample_spelled.
  - vm_compute. reflexivity.
Defined.
