(* ===== verification/Hypr.v ===== *)
(** * Talking to Hyprland (src/wayland/wl_hypr.c)

    The requests of its command socket: finding the socket and checking who answers, one
    request and its reply, the two spellings of a dispatcher and which is tried first,
    the replies that are read as text (HyprJson.v reads the others), the opacities of
    many windows in one batch, the process a window belongs to, and the stream of the
    event socket.

    What the compositor and the system answer is a function of the requests made before
    and of the request: an [exchange] holds every outcome one request meets.  The state
    is the spelling that last worked and the requests made.  Numbers with a fraction are
    IEEE doubles, by the Standard Library's specification of them. *)
From Stdlib Require Import ZArith Lia Strings.Byte Strings.String Floats.SpecFloat.
From stdpp Require Import base list option numbers tactics.
From S2P Require Import Prelude.
From S2P Require Import Protocol.
From S2P Require Import Buffer.
From S2P Require Import Transport.
From S2P Require Import KwinEnvelope.
From S2P Require Import Environ.
From S2P Require Import Install.
From S2P Require Import KwinTranslate.
From S2P Require Import HyprJson.
Local Open Scope Z_scope.
Local Open Scope ksd_scope.

(** ** The socket of the instance *)

Definition KSD_HYPR_SIGNATURE_CAPACITY : Z := 128.
Definition KSD_HYPR_RESPONSE_CAPACITY : Z := 256.
Definition KSD_HYPR_CLIENTS_LIMIT : Z := 8 * 1024 * 1024.
Definition KSD_HYPR_TIMEOUT_MS : Z := 500.

Definition letter_byte (b : byte) : bool := ((97 <=? b2z b) && (b2z b <=? 122)) || ((65 <=? b2z b) && (b2z b <=? 90)).
(** [signature] is [None] for NULL. *)
Definition signature_valid (signature : option (list byte)) : bool :=
  match signature with
  | None => false
  | Some signature =>
    let length := zlen signature in
    if (length =? 0) || (KSD_HYPR_SIGNATURE_CAPACITY <=? length) || bytes_eqb signature (cstr ".") || bytes_eqb signature (cstr "..")
    then false
    else forallb (fun b => letter_byte b || digit_byte b || (b2z b =? 0x2d) || (b2z b =? 0x5f) || (b2z b =? 0x2e)) signature
  end.

(** What connecting to a socket meets: the environment of the session's process and how
    it reads, what [lstat] says, whether a socket can be had, what [connect] answers and
    then SO_ERROR, and the peer's pid and uid. *)
Inductive connect_outcome := Connected | InProgress (wait : list wait_step) (socket_error : option Z) | ConnectFailed.
Record connection := mk_connection {
  cn_environ : option (list byte); cn_reads : list plain_outcome; cn_lstat : list byte -> option file_status;
  cn_socket : bool; cn_connect : connect_outcome; cn_peer : option (Z * Z);
}.

Section process.
(** [getuid] and the pid of the session. *)
Context (uid session_pid : Z).

Definition SUN_PATH_BYTES : Z := 108.
Definition socket_path (c : connection) (socket : list byte) : option (list byte) :=
  let* signature := ksd_session_environ_value session_pid (cn_environ c) (cn_reads c) (cstr "HYPRLAND_INSTANCE_SIGNATURE")
    KSD_HYPR_SIGNATURE_CAPACITY in
  guard* signature_valid (Some signature) in
  printed SUN_PATH_BYTES (cstr "/run/user/" ++ unsigned_text uid ++ cstr "/hypr/" ++ signature ++ cstr "/" ++ socket).

Definition socket_is_local (c : connection) (path : list byte) : bool :=
  match cn_lstat c path with Some status => is_socket status && (st_uid status =? uid) | None => false end.

(** The peer's pid, when the descriptor is good. *)
Definition connect_socket (c : connection) (name : list byte) (deadline_ms : Z) : option Z :=
  let* path := socket_path c name in
  guard* socket_is_local c path in
  guard* cn_socket c in
  guard* match cn_connect c with
         | Connected => true
         | InProgress wait socket_error =>
           match ksd_wait_until POLLOUT deadline_ms wait, socket_error with Some WaitOk, Some e => e =? 0 | _, _ => false end
         | ConnectFailed => false
         end in
  let* (pid, peer_uid) := cn_peer c in
  guard* peer_uid =? uid in Some pid.

(** ** One request *)

Record exchange := mk_exchange {
  ex_now : Z; ex_connection : connection; ex_send : list io_turn; ex_receive : list io_turn; ex_stream : list byte;
}.

Section memory.
Context {AL : Allocator}.

(** The loop that reads the reply into a buffer of [capacity] bytes that grows.  Turns
    that run out are a deadline that has passed. *)
Fixpoint receive_reply (deadline_ms limit : Z) (turns : list io_turn) (stream : list byte) (capacity : Z) (used : list byte)
    : option (list byte) :=
  match turns with
  | [] => None
  | turn :: turns =>
    let full := zlen used =? capacity - 1 in
    guard* negb (full && (limit <=? capacity)) in
    let capacity := if full then (if limit <? capacity * 4 then limit else capacity * 4) else capacity in
    guard* negb full || alloc_ok capacity in
    match ksd_wait_until POLLIN deadline_ms (turn_wait turn) with
    | Some WaitOk =>
      match turn_io turn with
      | IoAgain => receive_reply deadline_ms limit turns stream capacity used
      | IoError => None
      | IoEof => guard* negb (zlen used =? 0) in Some used
      | IoBytes n =>
        let count := Z.min (Z.min (Zpos n) (capacity - 1 - zlen used)) (zlen stream) in
        receive_reply deadline_ms limit turns (zdrop count stream) capacity (used ++ ztake count stream)
      end
    | _ => None
    end
  end.

Definition hypr_request_alloc (x : exchange) (command : list byte) (limit : Z) : option (list byte) :=
  let deadline_ms := ex_now x + KSD_HYPR_TIMEOUT_MS in
  guard* alloc_ok KSD_HYPR_RESPONSE_CAPACITY in
  let* _ := connect_socket (ex_connection x) (cstr ".socket.sock") deadline_ms in
  match transfer_send deadline_ms (ex_send x) command [] with
  | Some (true, _, _) => receive_reply deadline_ms limit (ex_receive x) (ex_stream x) KSD_HYPR_RESPONSE_CAPACITY []
  | _ => None
  end.

(** The requests of the worker, in order. *)
Context (world : list (list byte) -> list byte -> exchange).
(** [dispatch_prefers_legacy], and the requests made so far. *)
Record hypr_state := mk_hypr { hy_prefers_legacy : bool; hy_requests : list (list byte) }.

Definition request_alloc (command : list byte) (limit : Z) (st : hypr_state) : option (list byte) * hypr_state :=
  (hypr_request_alloc (world (hy_requests st) command) command limit,
   mk_hypr (hy_prefers_legacy st) (hy_requests st ++ [command])).
Definition hypr_request (command : list byte) (st : hypr_state) : option (list byte) * hypr_state :=
  request_alloc command KSD_HYPR_RESPONSE_CAPACITY st.

(** ** Replies that are text *)

(** [strtol] and the range; and the cursor past the white space that follows. *)
Definition parse_integer (cursor : list byte) : option (Z * list byte) :=
  let* (value, cursor) := strtoll (skip is_space cursor) in
  guard* int32_range value in Some (value, skip is_space cursor).

Definition trim_end (space : byte -> bool) (s : list byte) : list byte := rev (skip space (rev s)).
Definition reply_is_ok (response : list byte) : bool :=
  bytes_eqb (trim_end is_space (skip is_space (until_nul response))) (cstr "ok").

Definition ksd_wayland_hypr_pid (x : exchange) : Z :=
  match connect_socket (ex_connection x) (cstr ".socket.sock") (ex_now x + KSD_HYPR_TIMEOUT_MS) with Some pid => pid | None => -1 end.

Definition parse_cursor (response : list byte) : option (Z * Z) :=
  let* (x, cursor) := parse_integer response in
  let* cursor := scan_literal (cstr ",") cursor in
  let* (y, cursor) := parse_integer cursor in
  guard* bytes_eqb (skip is_space cursor) [] in Some (x, y).
Definition ksd_wayland_hypr_cursor (st : hypr_state) : option (Z * Z) * hypr_state :=
  let '(response, st) := hypr_request (cstr "cursorpos") st in
  (let* response := response in parse_cursor (until_nul response), st).

(** ** Dispatchers *)

(** [expression] is [None] for NULL. *)
Definition dispatch_one (expression : option (list byte)) (st : hypr_state) : bool * hypr_state :=
  match (let* expression := expression in printed 512 (cstr "dispatch " ++ expression)) with
  | None => (false, st)
  | Some command =>
    let '(response, st) := hypr_request command st in
    (match response with Some response => reply_is_ok response | None => false end, st)
  end.

Definition ksd_wayland_hypr_dispatch (lua legacy : option (list byte)) (st : hypr_state) : bool * hypr_state :=
  let first := if hy_prefers_legacy st then legacy else lua in
  let second := if hy_prefers_legacy st then lua else legacy in
  let '(done, st) := dispatch_one first st in
  if done then (true, st)
  else
    let '(done, st) := dispatch_one second st in
    if done then (true, mk_hypr (negb (hy_prefers_legacy st)) (hy_requests st)) else (false, st).

Definition ksd_wayland_hypr_move (x y : Z) (st : hypr_state) : bool * hypr_state :=
  match printed 96 (cstr "hl.dsp.cursor.move({ x = " ++ signed_text x ++ cstr ", y = " ++ signed_text y ++ cstr " })"),
        printed 64 (cstr "movecursor " ++ signed_text x ++ blank ++ signed_text y) with
  | Some lua, Some legacy => ksd_wayland_hypr_dispatch (Some lua) (Some legacy) st
  | _, _ => (false, st)
  end.

(** ** Replies that are JSON *)

Definition ksd_wayland_hypr_clients (st : hypr_state) : option (list ksd_hypr_client) * hypr_state :=
  let '(reply, st) := request_alloc (cstr "[[BATCH]]j/clients;j/activewindow") KSD_HYPR_CLIENTS_LIMIT st in
  (let* reply := reply in ksd_wayland_hypr_parse_snapshot (Some reply), st).
Definition ksd_wayland_hypr_active_workspace (st : hypr_state) : option Z * hypr_state :=
  let '(reply, st) := request_alloc (cstr "j/activeworkspace") (64 * 1024) st in
  (let* reply := reply in parse_active_workspace reply, st).
Definition ksd_wayland_hypr_active_layout (st : hypr_state) : option ksd_hypr_layout * hypr_state :=
  let '(reply, st) := request_alloc (cstr "j/devices") (256 * 1024) st in
  (let* reply := reply in ksd_wayland_hypr_parse_active_layout (Some reply), st).
Definition ksd_wayland_hypr_monitors (st : hypr_state) : option (list ksd_hypr_monitor) * hypr_state :=
  let '(reply, st) := request_alloc (cstr "j/monitors") (1024 * 1024) st in
  (let* reply := reply in ksd_wayland_hypr_parse_monitors (Some reply), st).

(** ** Opacity *)

(** Doubles. *)
Definition dmul : spec_float -> spec_float -> spec_float := SFmul 53 1024.
Definition dadd : spec_float -> spec_float -> spec_float := SFadd 53 1024.
Definition ddiv : spec_float -> spec_float -> spec_float := SFdiv 53 1024.
Definition double (n : Z) : spec_float := binary_normalize 53 1024 n 0 false.
Definition half : spec_float := ddiv (double 1) (double 2).
(** A conversion to an integer, of a double that is not negative. *)
Definition truncated (d : spec_float) : Z := match d with S754_finite _ m e => Z.shiftl (Zpos m) e | _ => 0 end.

(** [%.6f], of a double that is not negative: the nearest, an even one between two. *)
Definition millionths (d : spec_float) : Z :=
  match d with
  | S754_finite _ m e =>
    let scaled := Zpos m * 10 ^ 6 in
    if 0 <=? e then scaled * 2 ^ e
    else let '(q, r) := Z.div_eucl scaled (2 ^ (- e)) in
      if (2 * r <? 2 ^ (- e)) || ((2 * r =? 2 ^ (- e)) && Z.even q) then q else q + 1
  | _ => 0
  end.
Definition six_digits (n : Z) : list byte := map (fun k => z2b (48 + n / 10 ^ k mod 10)) [5; 4; 3; 2; 1; 0].
Definition fixed_text (d : spec_float) : list byte :=
  let n := millionths d in unsigned_text (n / 10 ^ 6) ++ cstr "." ++ six_digits (n mod 10 ^ 6).

(** [out] is not NULL. *)
Definition ksd_wayland_hypr_opacity_text (opacity capacity : Z) : option (list byte) :=
  guard* opacity <=? 255 in printed capacity (fixed_text (ddiv (double opacity) (double 255))).

(** *** [strtod] *)

Fixpoint span (p : byte -> bool) (s : list byte) : list byte * list byte :=
  match s with
  | b :: rest => if p b then let '(run, rest) := span p rest in (b :: run, rest) else ([], s)
  | [] => ([], [])
  end.
(** Digits with a point among them: the digits, how many follow the point, and the rest. *)
Definition mantissa (digit : byte -> bool) (s : list byte) : list byte * Z * list byte :=
  let '(whole, s) := span digit s in
  match s with
  | b :: rest => if b2z b =? 0x2e then let '(part, rest) := span digit rest in (whole ++ part, zlen part, rest) else (whole, 0, s)
  | [] => (whole, 0, [])
  end.
(** An exponent after one of two marks; what is not one is left. *)
Definition exponent (small large : Z) (s : list byte) : Z * list byte :=
  match s with
  | b :: rest =>
    if (b2z b =? small) || (b2z b =? large) then
      let '(negative, rest) := sign_of rest in
      let '(digits, rest) := span digit_byte rest in
      if bytes_eqb digits [] then (0, s) else (if negative then - dval 0 digits else dval 0 digits, rest)
    else (0, s)
  | [] => (0, [])
  end.
Definition xdigit_value (b : byte) : Z :=
  if digit_byte b then b2z b - 48 else if 97 <=? b2z b then b2z b - 87 else b2z b - 55.
Definition hex_value (digits : list byte) : Z := fold_left (fun v b => v * 16 + xdigit_value b) digits 0.

(** The double nearest to a fraction, unless [errno] is set: it is too large, or so
    small that it is not exact. *)
Definition nearest (negative : bool) (numerator : positive) (denominator : positive) : option spec_float :=
  let d := ddiv (S754_finite negative numerator 0) (S754_finite false denominator 0) in
  match d with
  | S754_finite _ m e =>
    guard* (Zpos (digits2_pos m) =? 53) || (Zpos m * Zpos denominator =? Zpos numerator * 2 ^ (- e)) in Some d
  | _ => None
  end.
(** [digits * base ^ power]; with no more digits than an opacity has, a power past
    [limit] either way is out of range. *)
Definition scaled_double (negative : bool) (digits base power limit : Z) : option spec_float :=
  match digits with
  | Zpos m =>
    guard* (- limit <=? power) && (power <=? limit) in
    if 0 <=? power then nearest negative (Z.to_pos (Zpos m * base ^ power)) 1
    else nearest negative m (Z.to_pos (base ^ (- power)))
  | _ => Some (S754_zero negative)
  end.

(** A string that is a finite number to its end, and sets no [errno]; a string [strtod]
    stops in, or reads as an infinity or as no number, is [None]. *)
Definition strtod (s : list byte) : option spec_float :=
  let '(negative, s) := sign_of (skip is_space s) in
  let decimal :=
    let '(digits, places, rest) := mantissa digit_byte s in
    guard* negb (bytes_eqb digits []) in
    let '(e, rest) := exponent 0x65 0x45 rest in
    guard* bytes_eqb rest [] in scaled_double negative (dval 0 digits) 10 (e - places) 400 in
  match s with
  | z :: x :: rest =>
    if (b2z z =? 0x30) && ((b2z x =? 0x78) || (b2z x =? 0x58)) then
      let '(digits, places, rest) := mantissa xdigit_byte rest in
      guard* negb (bytes_eqb digits []) in
      let '(e, rest) := exponent 0x70 0x50 rest in
      guard* bytes_eqb rest [] in scaled_double negative (hex_value digits) 2 (e - 4 * places) 1400
    else decimal
  | _ => decimal
  end.

Definition ksd_wayland_hypr_parse_opacity (text : list byte) : option Z :=
  let value := trim_end is_space (skip is_space text) in
  guard* negb (bytes_eqb value [] || (64 <=? zlen value)) in
  let* parsed := strtod (until_nul value) in
  guard* SFleb (double 0) parsed && negb (SFltb (double (10 ^ 6)) parsed) in
  let parsed := if SFltb (double 1) parsed then double 1 else parsed in
  Some (truncated (dadd (dmul parsed (double 255)) half)).

(** *** Many windows *)

(** What is before the next separator, and the rest from it. *)
Fixpoint to_separator (s : list byte) : list byte * list byte :=
  match s with
  | b :: rest =>
    if (3 <=? zlen s) && bytes_eqb (ztake 3 s) three_newlines then ([], s)
    else let '(before, rest) := to_separator rest in (b :: before, rest)
  | [] => ([], [])
  end.
Fixpoint opacity_entries (count : nat) (first : bool) (at_entry : list byte) : option (list Z * list byte) :=
  match count with
  | O => Some ([], at_entry)
  | S count =>
    let '(entry, rest) := to_separator at_entry in
    guard* negb (bytes_eqb at_entry [] && negb first) in
    let value := match ksd_wayland_hypr_parse_opacity entry with Some opacity => opacity | None => -1 end in
    let* (values, rest) := opacity_entries count false (zdrop 3 rest) in
    Some (value :: values, rest)
  end.
Definition ksd_wayland_hypr_parse_opacity_batch (reply : list byte) (count : nat) : option (list Z) :=
  let* (values, rest) := opacity_entries count true reply in
  guard* bytes_eqb rest [] in Some values.

Definition KSD_HYPR_OPACITY_BATCH : nat := 64.
Definition BATCH_BYTES : Z := 64 * (KSD_HYPR_ID_CAPACITY + 32) + 16.
Definition getprop_text (address : list byte) : list byte := cstr "getprop address:" ++ address ++ cstr " opacity".
Fixpoint batch_text (used : list byte) (first : bool) (addresses : list (list byte)) : option (list byte) :=
  match addresses with
  | [] => Some used
  | address :: addresses =>
    guard* address_valid address in
    let* written := printed (BATCH_BYTES - zlen used) ((if first then [] else cstr ";") ++ getprop_text address) in
    batch_text (used ++ written) false addresses
  end.

Fixpoint opacity_chunks (fuel : nat) (addresses : list (list byte)) (st : hypr_state) : option (list Z) * hypr_state :=
  match addresses, fuel with
  | [], _ => (Some [], st)
  | _, O => (None, st)
  | _, S fuel =>
    let chunk := take KSD_HYPR_OPACITY_BATCH addresses in
    match batch_text (cstr "[[BATCH]]") true chunk with
    | None => (None, st)
    | Some command =>
      let '(reply, st) := request_alloc command (64 * 1024) st in
      match (let* reply := reply in ksd_wayland_hypr_parse_opacity_batch reply (length chunk)) with
      | None => (None, st)
      | Some values =>
        let '(more, st) := opacity_chunks fuel (drop KSD_HYPR_OPACITY_BATCH addresses) st in
        (let* more := more in Some (values ++ more), st)
      end
    end
  end.
Definition ksd_wayland_hypr_opacities (addresses : list (list byte)) (st : hypr_state) : option (list Z) * hypr_state :=
  opacity_chunks (length addresses) addresses st.

End memory.
End process.

(** ** The process of a window *)

(** What the call does, in order. *)
Inductive kill_event := PidfdOpened (pid : Z) | OwnerAsked (pid : Z) (confirmed : bool) | Killed (pid : Z) | PidfdClosed.
(** [pidfd_open] and [pidfd_send_signal]: [Some] is an [errno]. *)
Definition ESRCH : Z := 3.
Definition ksd_wayland_hypr_signal_owner (self pid : Z) (still_owner : option bool) (opened sent : option Z) : Z * list kill_event :=
  match still_owner with
  | None => (KSD_STATUS_UNAVAILABLE, [])
  | Some confirmed =>
    if (pid <=? 1) || (pid =? self) then (KSD_STATUS_UNAVAILABLE, [])
    else
      match opened with
      | Some errno => (if errno =? ESRCH then KSD_STATUS_NOT_FOUND else KSD_STATUS_UNAVAILABLE, [])
      | None =>
        if negb confirmed then (KSD_STATUS_NOT_FOUND, [PidfdOpened pid; OwnerAsked pid false; PidfdClosed])
        else (match sent with
              | None => KSD_STATUS_OK
              | Some errno => if errno =? ESRCH then KSD_STATUS_OK else KSD_STATUS_UNAVAILABLE
              end, [PidfdOpened pid; OwnerAsked pid true; Killed pid; PidfdClosed])
      end
  end.

(** ** The event socket *)

Definition KSD_HYPR_EVENT_LINE_CAPACITY : Z := 256.
Record ksd_hypr_event_reader := mk_event_reader { er_line : list byte; er_discarding : bool }.
Definition ksd_wayland_hypr_event_reader_init : ksd_hypr_event_reader := mk_event_reader [] false.

(** [strstr] for [>>]: what is before it. *)
Fixpoint before_separator (s : list byte) : option (list byte) :=
  match s with
  | b :: rest =>
    if (b2z b =? 0x3e) && match rest with c :: _ => b2z c =? 0x3e | [] => false end then Some []
    else let* name := before_separator rest in Some (b :: name)
  | [] => None
  end.
(** The name handed to [on_line]. *)
Definition emit_line (line : list byte) : list byte :=
  match before_separator (until_nul line) with Some name => name | None => [] end.

Definition event_byte (reader : ksd_hypr_event_reader) (value : byte) : ksd_hypr_event_reader * list (list byte) :=
  if b2z value =? 0x0a then (ksd_wayland_hypr_event_reader_init, [if er_discarding reader then [] else emit_line (er_line reader)])
  else if er_discarding reader then (reader, [])
  else if zlen (er_line reader) =? KSD_HYPR_EVENT_LINE_CAPACITY - 1 then (mk_event_reader (er_line reader) true, [])
  else (mk_event_reader (er_line reader ++ [value]) false, []).
(** The reader and the names, in order. *)
Fixpoint ksd_wayland_hypr_event_feed (reader : ksd_hypr_event_reader) (bytes : list byte) : ksd_hypr_event_reader * list (list byte) :=
  match bytes with
  | [] => (reader, [])
  | value :: bytes =>
    let '(reader, names) := event_byte reader value in
    let '(reader, more) := ksd_wayland_hypr_event_feed reader bytes in
    (reader, names ++ more)
  end.

Definition window_events : list (list byte) :=
  map cstr ["openwindow"; "closewindow"; "windowtitle"; "windowtitlev2"; "activewindow"; "activewindowv2"; "movewindow";
    "movewindowv2"; "changefloatingmode"; "fullscreen"; "pin"; "workspace"; "workspacev2"; "focusedmon"; "focusedmonv2";
    "activespecial"; "activespecialv2"; "createworkspace"; "createworkspacev2"; "destroyworkspace"; "destroyworkspacev2";
    "moveworkspace"; "moveworkspacev2"; "monitoradded"; "monitoraddedv2"; "monitorremoved"; "monitorremovedv2";
    "togglegroup"; "moveintogroup"; "moveoutofgroup"; "configreloaded"]%string.
Definition ksd_wayland_hypr_event_affects_windows (name : option (list byte)) : bool :=
  match name with None => true | Some name => bytes_eqb name [] || existsb (bytes_eqb name) window_events end.

(** *** On text *)

Example opacity_texts :
  (ksd_wayland_hypr_opacity_text 255 32, ksd_wayland_hypr_opacity_text 0 32, ksd_wayland_hypr_opacity_text 128 32, ksd_wayland_hypr_opacity_text 256 32)
  = (Some (cstr "1.000000"), Some (cstr "0.000000"), Some (cstr "0.501961"), None).
Proof. vm_compute. reflexivity. Qed.

Example opacities_read :
  map ksd_wayland_hypr_parse_opacity [cstr " 0.5" ++ [x0a]; cstr "1.2"; cstr "0x1p-1"; cstr "1e-1"; []; cstr "window not found"; cstr "nan"; cstr "0.5x"; cstr "-0.1"; cstr "1e-400"]
  = [Some 128; Some 255; Some 128; Some 26; None; None; None; None; None; None].
Proof. vm_compute. reflexivity. Qed.

Example opacity_batch :
  let reply := cstr "0.25" ++ three_newlines ++ cstr "1" ++ three_newlines ++ cstr "window not found" in
  map (ksd_wayland_hypr_parse_opacity_batch reply) [3; 2; 4]%nat = [Some [64; 255; -1]; None; None].
Proof. vm_compute. reflexivity. Qed.

(** ** The reply of one request *)

Section replies.
Context {AL : Allocator} {AT : AllocTotal AL}.

(** The turn in which the compositor closes its end. *)
Definition closes (deadline_ms : Z) (t : io_turn) : Prop :=
  ksd_wait_until POLLIN deadline_ms (turn_wait t) = Some WaitOk /\ turn_io t = IoEof.

(** A turn with room in the buffer. *)
Lemma receive_turn t turns deadline_ms limit last rest stream capacity used :
  (forall stream capacity used, 1 < capacity <= limit -> zlen used <= capacity - 1 ->
    zlen stream <= zlen (filter (fun t => progress t = true) turns) ->
    receive_reply deadline_ms limit (turns ++ last :: rest) stream capacity used
    = (guard* (0 <? zlen (used ++ stream)) && (zlen (used ++ stream) <? limit - 1) in Some (used ++ stream))) ->
  1 < capacity <= limit -> zlen used < capacity - 1 ->
  turn_io t = IoAgain \/ progress t = true ->
  zlen stream <= zlen (filter (fun t => progress t = true) (t :: turns)) ->
  match turn_io t with
  | IoAgain => receive_reply deadline_ms limit (turns ++ last :: rest) stream capacity used
  | IoBytes n =>
    receive_reply deadline_ms limit (turns ++ last :: rest) (zdrop (Z.min (Z.min (Zpos n) (capacity - 1 - zlen used)) (zlen stream)) stream)
      capacity (used ++ ztake (Z.min (Z.min (Zpos n) (capacity - 1 - zlen used)) (zlen stream)) stream)
  | IoEof => guard* negb (zlen used =? 0) in Some used
  | IoError => None
  end = (guard* (0 <? zlen (used ++ stream)) && (zlen (used ++ stream) <? limit - 1) in Some (used ++ stream)).
Proof.
  intros IH Hc Hu Ht Hp. pose proof (zlen_nonneg stream) as Hs0. pose proof (zlen_nonneg (filter (fun t => progress t = true) turns)) as Hf0.
  rewrite filter_cons in Hp. destruct Ht as [Ht|Ht].
  - assert (Hn : progress t = false) by (unfold progress; by rewrite Ht). rewrite Ht. rewrite decide_False in Hp by by rewrite Hn.
    apply IH; [lia..|done].
  - rewrite decide_True, zlen_cons in Hp by done. unfold progress in Ht. destruct (turn_io t) as [|n| |] eqn:Hio; try done.
    set (count := Z.min _ _). assert (Hcnt : 0 <= count <= zlen stream) by lia.
    rewrite IH; rewrite ?zlen_app, ?zlen_ztake, ?zlen_zdrop by lia; [|lia..].
    replace (zlen used + count + (zlen stream - count)) with (zlen used + zlen stream) by lia. by rewrite <- app_assoc, ztake_zdrop.
Qed.

Lemma receive_reply_exact deadline_ms limit last rest turns : closes deadline_ms last -> delivering deadline_ms POLLIN turns ->
  forall stream capacity used,
  1 < capacity <= limit -> zlen used <= capacity - 1 -> zlen stream <= zlen (filter (fun t => progress t = true) turns) ->
  receive_reply deadline_ms limit (turns ++ last :: rest) stream capacity used
  = (guard* (0 <? zlen (used ++ stream)) && (zlen (used ++ stream) <? limit - 1) in Some (used ++ stream)).
Proof.
  intros [Hw He] Hd. induction turns as [|t turns IH]; intros stream capacity used Hc Hu Hp; cbn [app receive_reply];
    destruct (Z.eqb_spec (zlen used) (capacity - 1)) as [Efull|Efull]; cbn [negb orb];
    rewrite ?alloc_total;
    pose proof (zlen_nonneg used) as Hu0; pose proof (zlen_nonneg stream) as Hs0.
  1, 2: assert (stream = []) as -> by (destruct stream; [done|rewrite zlen_cons in Hp; pose proof (zlen_nonneg stream); unfold zlen at 2 in Hp; cbn in Hp; lia]);
    rewrite app_nil_r, Hw, He; destruct (Z.leb_spec limit capacity); cbn [andb negb];
    destruct (Z.eqb_spec (zlen used) 0), (Z.ltb_spec 0 (zlen used)), (Z.ltb_spec (zlen used) (limit - 1)); cbn [andb negb]; done || lia.
  all: apply Forall_cons_1 in Hd as [[-> Ht] Hd].
  - destruct (Z.leb_spec limit capacity); cbn [andb negb].
    { rewrite zlen_app. replace (zlen used + zlen stream <? limit - 1) with false by lia. by rewrite andb_false_r. }
    set (capacity' := if limit <? capacity * 4 then limit else capacity * 4).
    assert (Hc' : 1 < capacity' <= limit /\ zlen used < capacity' - 1) by (unfold capacity'; case_if; lia).
    apply (receive_turn t turns); [exact (IH Hd)|lia|lia|done|done].
  - cbn [andb negb]. apply (receive_turn t turns); [exact (IH Hd)|lia|lia|done|done].
Qed.

(** a compositor that answers is heard in full or not at all: over however many
    reads it comes, a reply is given as it was sent when it is shorter than [limit - 1]
    bytes, through a buffer that has grown as it had to; a longer one is a failure and
    not a shorter reply; so is an empty one. *)
Theorem hypr_reply_whole uid session_pid x command limit turns last rest sent pid :
  let deadline_ms := ex_now x + KSD_HYPR_TIMEOUT_MS in
  256 <= limit ->
  connect_socket uid session_pid (ex_connection x) (cstr ".socket.sock") deadline_ms = Some pid ->
  transfer_send deadline_ms (ex_send x) command [] = Some (true, command, sent) ->
  ex_receive x = turns ++ last :: rest -> delivering deadline_ms POLLIN turns -> closes deadline_ms last ->
  zlen (ex_stream x) <= zlen (filter (fun t => progress t = true) turns) ->
  hypr_request_alloc uid session_pid x command limit
  = (guard* (0 <? zlen (ex_stream x)) && (zlen (ex_stream x) <? limit - 1) in Some (ex_stream x)).
Proof.
  intros deadline_ms Hl Hc Hs Hr Hd Hcl Hp. unfold hypr_request_alloc. rewrite alloc_total. fold deadline_ms. rewrite Hc, Hs, Hr.
  rewrite (receive_reply_exact _ _ _ _ _ Hcl Hd); [done| |done|done]. unfold KSD_HYPR_RESPONSE_CAPACITY. lia.
Qed.
End replies.

(** The peer a request reaches is this user, at the socket of an instance whose name is
    one name. *)
Lemma connect_socket_own uid session_pid c name deadline_ms pid :
  connect_socket uid session_pid c name deadline_ms = Some pid ->
  cn_peer c = Some (pid, uid) /\
  exists signature path status, signature_valid (Some signature) = true /\
    path = cstr "/run/user/" ++ unsigned_text uid ++ cstr "/hypr/" ++ signature ++ cstr "/" ++ name /\
    zlen path < SUN_PATH_BYTES /\ cn_lstat c path = Some status /\ is_socket status = true /\ st_uid status = uid.
Proof.
  unfold connect_socket, socket_path. destruct (ksd_session_environ_value _ _ _ _ _) as [sig|]; [|done].
  destruct (signature_valid (Some sig)) eqn:Hsig; [|done]. unfold printed. case_if; [|done].
  unfold socket_is_local. destruct (cn_lstat c _) as [status|] eqn:Hst; [|done]. destruct (is_socket status && _) eqn:Hown; [|done].
  case_if; [|done]. case_if; [|done]. destruct (cn_peer c) as [[p u]|]; [|done]. case_if; [|done]. intros [= <-]. breflect. subst u.
  split; [done|]. exists sig. eexists. exists status. repeat split; done.
Qed.

(** ** The two spellings *)

Section dispatching.
Context {AL : Allocator} (uid session_pid : Z) (world : list (list byte) -> list byte -> exchange).

(** Whether a command is answered with [ok], after the requests before it. *)
Definition answered_ok (history : list (list byte)) (command : list byte) : bool :=
  match hypr_request_alloc uid session_pid (world history command) command KSD_HYPR_RESPONSE_CAPACITY with
  | Some response => reply_is_ok response
  | None => false
  end.
(** Both spellings of one dispatcher. *)
Definition spellings := (list byte * list byte)%type.
Definition spelling (legacy : bool) (e : spellings) : list byte := if legacy then snd e else fst e.
Definition dispatch_command (expression : list byte) : list byte := cstr "dispatch " ++ expression.
(** A compositor whose configuration is in one language: it accepts that spelling of the
    dispatcher, whenever it is asked, and never the other. *)
Definition speaks (legacy : bool) (e : spellings) : Prop :=
  zlen (dispatch_command (fst e)) < 512 /\ zlen (dispatch_command (snd e)) < 512 /\
  forall history, answered_ok history (dispatch_command (spelling legacy e)) = true /\
                  answered_ok history (dispatch_command (spelling (negb legacy) e)) = false.

Fixpoint dispatch_all (es : list spellings) (st : hypr_state) : list bool * hypr_state :=
  match es with
  | [] => ([], st)
  | e :: es =>
    let '(ok, st) := ksd_wayland_hypr_dispatch uid session_pid world (Some (fst e)) (Some (snd e)) st in
    let '(oks, st) := dispatch_all es st in (ok :: oks, st)
  end.

Lemma dispatch_one_answer expression st : zlen (dispatch_command expression) < 512 ->
  dispatch_one uid session_pid world (Some expression) st
  = (answered_ok (hy_requests st) (dispatch_command expression), mk_hypr (hy_prefers_legacy st) (hy_requests st ++ [dispatch_command expression])).
Proof. intros H. unfold dispatch_one, printed. apply Z.ltb_lt in H. unfold dispatch_command in *. by rewrite H. Qed.

(** The spelling that is known is the one the compositor speaks: one request each. *)
Lemma dispatch_known legacy es : Forall (speaks legacy) es -> forall st, hy_prefers_legacy st = legacy ->
  dispatch_all es st
  = (map (fun _ => true) es, mk_hypr legacy (hy_requests st ++ map (fun e => dispatch_command (spelling legacy e)) es)).
Proof.
  induction 1 as [|e es (Hf & Hs & Ha) _ IH]; intros [pl reqs] Hp; cbn [hy_prefers_legacy hy_requests] in *; subst pl.
  - cbn. by rewrite app_nil_r.
  - cbn [dispatch_all]. unfold ksd_wayland_hypr_dispatch. cbn [hy_prefers_legacy].
    replace (if legacy then Some (snd e) else Some (fst e)) with (Some (spelling legacy e)) by by destruct legacy.
    rewrite dispatch_one_answer by (unfold spelling; by destruct legacy). rewrite (proj1 (Ha _)).
    rewrite IH by done. cbn [hy_requests map]. by rewrite <- app_assoc.
Qed.

(** over any number of dispatchers, whichever spelling is tried first to begin with,
    every one is carried out, each with one request; only the first may take two, after
    which the spelling that worked is the one tried first. *)
Theorem hypr_dispatch_settles legacy e es st : Forall (speaks legacy) (e :: es) ->
  let first := dispatch_command (spelling (negb legacy) e) in
  dispatch_all (e :: es) st
  = (map (fun _ => true) (e :: es),
     mk_hypr legacy (hy_requests st ++ (if Bool.eqb (hy_prefers_legacy st) legacy then [] else [first])
                     ++ map (fun e => dispatch_command (spelling legacy e)) (e :: es))).
Proof.
  intros Hes first. destruct (Bool.eqb (hy_prefers_legacy st) legacy) eqn:Ep.
  - apply eqb_prop in Ep. rewrite (dispatch_known _ _ Hes _ Ep). done.
  - apply Forall_cons_1 in Hes as [(Hf & Hs & Ha) Hes]. cbn [dispatch_all].
    assert (Hn : hy_prefers_legacy st = negb legacy) by (destruct (hy_prefers_legacy st), legacy; done).
    unfold ksd_wayland_hypr_dispatch. rewrite Hn.
    replace (if negb legacy then Some (snd e) else Some (fst e)) with (Some (spelling (negb legacy) e)) by by destruct legacy.
    replace (if negb legacy then Some (fst e) else Some (snd e)) with (Some (spelling legacy e)) by by destruct legacy.
    rewrite dispatch_one_answer by (unfold spelling; by destruct legacy). rewrite (proj2 (Ha _)).
    rewrite dispatch_one_answer by (unfold spelling; by destruct legacy). rewrite (proj1 (Ha _)). cbn [hy_prefers_legacy hy_requests].
    rewrite (dispatch_known legacy es Hes); cbn [hy_prefers_legacy hy_requests map]; rewrite ?Hn, ?negb_involutive; [|done].
    unfold first. by rewrite <- !app_assoc.
Qed.
End dispatching.

(** ** Opacities *)

(** the text written for an opacity is read back as that opacity, for every one
    there is: through the division, the six decimals, the nearest double to them, the
    product and the conversion, each rounded as IEEE 754 says. *)
Theorem hypr_opacity_roundtrip opacity : 0 <= opacity ->
  match ksd_wayland_hypr_opacity_text opacity 32 with
  | Some text => opacity <= 255 /\ ksd_wayland_hypr_parse_opacity text = Some opacity
  | None => 255 < opacity
  end.
Proof.
  intros H. destruct (Z.leb_spec opacity 255) as [Hle|Hgt].
  - assert (Hall : forallb (fun k => match ksd_wayland_hypr_opacity_text (Z.of_nat k) 32 with
        | Some text => bool_decide (ksd_wayland_hypr_parse_opacity text = Some (Z.of_nat k)) | None => false end) (seq 0 256) = true)
      by (vm_compute; reflexivity).
    rewrite forallb_forall in Hall. specialize (Hall (Z.to_nat opacity)). rewrite Z2Nat.id in Hall by done.
    destruct (ksd_wayland_hypr_opacity_text opacity 32); [|discriminate Hall; apply in_seq; lia].
    split; [done|]. eapply bool_decide_eq_true_1, Hall, in_seq. lia.
  - unfold ksd_wayland_hypr_opacity_text. apply Z.leb_gt in Hgt as E. by rewrite E.
Qed.

(** ** A batch holds the commands it is meant to hold *)

Fixpoint join (separator : list byte) (parts : list (list byte)) : list byte :=
  match parts with
  | [] => []
  | [part] => part
  | part :: parts => part ++ separator ++ join separator parts
  end.
(** How the compositor takes a batch apart. *)
Fixpoint split_commands (s : list byte) : list (list byte) :=
  match s with
  | [] => [[]]
  | b :: rest =>
    if b2z b =? 0x3b then [] :: split_commands rest
    else match split_commands rest with [] => [[b]] | part :: parts => (b :: part) :: parts end
  end.
Definition batch_body (addresses : list (list byte)) : list byte := join (cstr ";") (map getprop_text addresses).
Definition batch_command (addresses : list (list byte)) : list byte := cstr "[[BATCH]]" ++ batch_body addresses.

Lemma batch_text_exact addresses : forall used first text, batch_text used first addresses = Some text ->
  Forall (fun a => address_valid a = true) addresses /\
  text = used ++ (if bool_decide (addresses = []) then [] else (if first then [] else cstr ";") ++ batch_body addresses).
Proof.
  induction addresses as [|a addresses IH]; intros used first text; cbn [batch_text].
  - intros [= <-]. split; [constructor|]. by rewrite bool_decide_true, app_nil_r.
  - destruct (address_valid a) eqn:Ha; [|done]. unfold printed. case_if; [|done]. intros H. apply IH in H as [Hv ->].
    split; [by constructor|]. rewrite (bool_decide_false (a :: addresses = [])) by done.
    unfold batch_body. destruct addresses as [|a' addresses]; cbn [map join]; [rewrite bool_decide_true by done; by rewrite app_nil_r|].
    rewrite bool_decide_false by done. by rewrite <- !app_assoc.
Qed.

Definition no_semicolon (s : list byte) : Prop := Forall (fun b => b2z b <> 0x3b) s.
Lemma split_plain s rest : no_semicolon s -> split_commands (s ++ x3b :: rest) = s :: split_commands rest.
Proof.
  induction 1 as [|b s Hb _ IH]; [done|]. apply Z.eqb_neq in Hb. cbn [app split_commands]. rewrite Hb. by rewrite IH.
Qed.
Lemma split_last s : no_semicolon s -> split_commands s = [s].
Proof. induction 1 as [|b s Hb _ IH]; [done|]. apply Z.eqb_neq in Hb. cbn [split_commands]. by rewrite Hb, IH. Qed.

Lemma getprop_plain a : address_valid a = true -> no_semicolon (getprop_text a).
Proof.
  intros Ha. unfold getprop_text, no_semicolon. rewrite !Forall_app. split; [repeat (constructor; [done|]); constructor|].
  split; [|repeat (constructor; [done|]); constructor].
  destruct a as [|z [|x rest]]; [done..|]. cbn [address_valid] in Ha. rewrite !andb_true_iff, !Z.eqb_eq in Ha. destruct Ha as (((Hz & Hx) & _) & Hr).
  rewrite forallb_forall in Hr. constructor; [lia|]. constructor; [lia|]. apply List.Forall_forall. intros b Hb.
  apply Hr in Hb. unfold xdigit_byte, digit_byte in Hb. lia.
Qed.

Lemma batch_split addresses : addresses <> [] -> Forall (fun a => address_valid a = true) addresses ->
  split_commands (batch_body addresses) = map getprop_text addresses.
Proof.
  intros Hne Hv. unfold batch_body. induction Hv as [|a addresses Ha Hv IH]; [done|]. destruct addresses as [|a' addresses]; cbn [map join].
  - by apply split_last, getprop_plain.
  - change (cstr ";") with [x3b]. cbn [app]. rewrite split_plain by by apply getprop_plain. f_equal. by apply IH.
Qed.

Lemma opacity_entries_values n : forall first s vs rest, opacity_entries n first s = Some (vs, rest) -> length vs = n.
Proof.
  induction n as [|n IH]; intros first s vs rest; cbn [opacity_entries]; [by intros [= <- _]|].
  destruct (to_separator s) as [entry next]. case_if; [|done].
  destruct (opacity_entries n false (zdrop 3 next)) as [[vs' rest']|] eqn:E; [|done]. intros [= <- <-]. cbn. by erewrite IH.
Qed.

Lemma opacity_batch_values reply n vs : ksd_wayland_hypr_parse_opacity_batch reply n = Some vs -> length vs = n.
Proof.
  unfold ksd_wayland_hypr_parse_opacity_batch. destruct (opacity_entries n true reply) as [[vs' rest]|] eqn:E; [|done].
  case_if; [|done]. intros [= <-]. by eapply opacity_entries_values.
Qed.

(** whatever the addresses and whatever is answered, the requests made are batches of
    the addresses in their order, at most 64 in each; a batch is taken apart into just
    the queries it was made of, since an address that could hold a separator is never
    written; and values are given only when every address was asked about, one for
    each. *)
Theorem hypr_batches_exact {AL : Allocator} uid session_pid world addresses st :
  let '(values, st') := ksd_wayland_hypr_opacities uid session_pid world addresses st in
  exists batches,
    hy_requests st' = hy_requests st ++ map batch_command batches /\
    (exists later, addresses = concat batches ++ later /\ (values <> None -> later = [])) /\
    Forall (fun batch => (0 < length batch <= 64)%nat /\ split_commands (batch_body batch) = map getprop_text batch) batches /\
    match values with Some vs => length vs = length addresses | None => True end.
Proof.
  unfold ksd_wayland_hypr_opacities. assert (Hfuel : (length addresses <= length addresses)%nat) by done. revert Hfuel.
  generalize (length addresses) at 2 3. intros fuel. revert addresses st.
  induction fuel as [|fuel IH]; intros addresses st Hf; (destruct addresses as [|a addresses];
    [exists []; rewrite app_nil_r; split; [done|]; split; [by exists []|]; done|]); [cbn in Hf; lia|].
  cbn [opacity_chunks]. set (chunk := take KSD_HYPR_OPACITY_BATCH (a :: addresses)). set (later := drop KSD_HYPR_OPACITY_BATCH (a :: addresses)).
  assert (Hsplit : a :: addresses = chunk ++ later) by (symmetry; apply take_drop).
  assert (Hlen : (0 < length chunk <= 64)%nat) by (unfold chunk, KSD_HYPR_OPACITY_BATCH; rewrite length_take; cbn [length]; lia).
  destruct (batch_text _ true chunk) as [command|] eqn:Eb.
  2:{ exists []. rewrite app_nil_r. split; [done|]. split; [by exists (a :: addresses)|]. by split. }
  apply batch_text_exact in Eb as [Hv ->]. rewrite bool_decide_false by (intros E; rewrite E in Hlen; cbn in Hlen; lia). cbn [app].
  assert (Hok : (0 < length chunk <= 64)%nat /\ split_commands (batch_body chunk) = map getprop_text chunk).
  { split; [done|]. apply batch_split; [intros E; rewrite E in Hlen; cbn in Hlen; lia|done]. }
  change (cstr "[[BATCH]]" ++ batch_body chunk) with (batch_command chunk). unfold request_alloc.
  assert (Hone : forall later', exists batches, hy_requests st ++ [batch_command chunk] = hy_requests st ++ map batch_command batches /\
    chunk ++ later' = concat batches ++ later' /\ Forall (fun batch => (0 < length batch <= 64)%nat /\ split_commands (batch_body batch) = map getprop_text batch) batches).
  { intros later'. exists [chunk]. cbn. rewrite app_nil_r. split; [done|]. split; [done|]. by constructor. }
  destruct (hypr_request_alloc _ _ _ _ _) as [reply|]; cbn beta iota.
  2:{ destruct (Hone later) as (bs & H1 & H2 & H3). exists bs. split; [exact H1|]. split; [exists later; rewrite Hsplit; by split|]. by split. }
  destruct (ksd_wayland_hypr_parse_opacity_batch reply (length chunk)) as [vs|] eqn:Ep.
  2:{ destruct (Hone later) as (bs & H1 & H2 & H3). exists bs. split; [exact H1|]. split; [exists later; rewrite Hsplit; by split|]. by split. }
  apply opacity_batch_values in Ep. set (st1 := mk_hypr _ _). specialize (IH later st1).
  assert (Hl : (length later <= fuel)%nat) by (unfold later, KSD_HYPR_OPACITY_BATCH; rewrite length_drop; cbn [length] in *; lia).
  specialize (IH Hl). destruct (opacity_chunks _ _ _ fuel later st1) as [more st2]. destruct IH as (bs & Hr & (lt & Hlt & Hnone) & Hbs & Hmore).
  exists (chunk :: bs). split; [rewrite Hr; unfold st1; cbn; by rewrite <- app_assoc|]. split.
  - exists lt. cbn [concat]. rewrite <- app_assoc, <- Hlt. split; [done|]. intros Hm. apply Hnone. by destruct more.
  - split; [by constructor|]. destruct more as [more|]; [|done]. rewrite length_app, Ep, Hmore, Hsplit, length_app. done.
Qed.

(** ** Nobody else is killed *)

(** a process is only signalled after its pidfd is open and the window's owner was
    then confirmed to be that process, never a pid below 2 or the worker's own; no one
    else is signalled, the descriptor is closed after it, and OK is said only when the
    process was signalled. *)
Theorem hypr_kill_confirmed self pid still_owner opened sent :
  let '(status, events) := ksd_wayland_hypr_signal_owner self pid still_owner opened sent in
  (forall victim before after, events = before ++ Killed victim :: after ->
     victim = pid /\ 1 < pid /\ pid <> self /\ before = [PidfdOpened pid; OwnerAsked pid true] /\ after = [PidfdClosed]) /\
  (forall before after, events = before ++ PidfdOpened pid :: after -> In PidfdClosed after) /\
  (status = KSD_STATUS_OK -> In (Killed pid) events).
Proof.
  assert (Hnil : forall (e : kill_event) before after, [] <> before ++ e :: after) by (intros e [|] after; done).
  unfold ksd_wayland_hypr_signal_owner. destruct still_owner as [confirmed|]; [|split; [intros v b a E; by apply Hnil in E|]; split; [intros b a E; by apply Hnil in E|done]].
  destruct ((pid <=? 1) || (pid =? self)) eqn:Eg; [split; [intros v b a E; by apply Hnil in E|]; split; [intros b a E; by apply Hnil in E|done]|].
  destruct opened as [errno|]; [split; [intros v b a E; by apply Hnil in E|]; split; [intros b a E; by apply Hnil in E|by case_if]|].
  destruct confirmed; cbn [negb].
  - split; [|split].
    + intros victim before after E. destruct before as [|e1 [|e2 [|e3 [|e4 before]]]]; simplify_eq/=; [repeat split; lia|].
      by destruct before.
    + intros before after E. destruct before as [|e1 [|e2 [|e3 [|e4 before]]]]; simplify_eq/=; [tauto|]. by destruct before.
    + cbn. auto.
  - split; [|split; [|done]].
    + intros victim before after E. destruct before as [|e1 [|e2 [|e3 before]]]; simplify_eq/=. by destruct before.
    + intros before after E. destruct before as [|e1 [|e2 [|e3 before]]]; simplify_eq/=; [tauto|]. by destruct before.
Qed.

(** ** Events *)

(** The lines of a stream, and what follows the last newline. *)
Fixpoint stream_lines (s : list byte) : list (list byte) * list byte :=
  match s with
  | [] => ([], [])
  | b :: s =>
    let '(lines, last) := stream_lines s in
    if b2z b =? 0x0a then ([] :: lines, last)
    else match lines with [] => ([], b :: last) | line :: lines => ((b :: line) :: lines, last) end
  end.
(** The name of a line: none when it is too long for the reader. *)
Definition line_name (line : list byte) : list byte := if KSD_HYPR_EVENT_LINE_CAPACITY <=? zlen line then [] else emit_line line.
(** The reader in the middle of a line. *)
Definition reader_at (line : list byte) : ksd_hypr_event_reader :=
  mk_event_reader (ztake (KSD_HYPR_EVENT_LINE_CAPACITY - 1) line) (KSD_HYPR_EVENT_LINE_CAPACITY <=? zlen line).
(** Feeding a stream as it arrives, in pieces. *)
Fixpoint feed_pieces (reader : ksd_hypr_event_reader) (pieces : list (list byte)) : ksd_hypr_event_reader * list (list byte) :=
  match pieces with
  | [] => (reader, [])
  | piece :: pieces =>
    let '(reader, names) := ksd_wayland_hypr_event_feed reader piece in
    let '(reader, more) := feed_pieces reader pieces in (reader, names ++ more)
  end.

Lemma feed_app s t : forall reader,
  ksd_wayland_hypr_event_feed reader (s ++ t)
  = let '(reader, names) := ksd_wayland_hypr_event_feed reader s in
    let '(reader, more) := ksd_wayland_hypr_event_feed reader t in (reader, names ++ more).
Proof.
  induction s as [|b s IH]; intros reader; cbn [app ksd_wayland_hypr_event_feed].
  - by destruct (ksd_wayland_hypr_event_feed reader t).
  - destruct (event_byte reader b) as [r1 n1]. rewrite IH. destruct (ksd_wayland_hypr_event_feed r1 s) as [r2 n2].
    destruct (ksd_wayland_hypr_event_feed r2 t) as [r3 n3]. by rewrite app_assoc.
Qed.

Lemma feed_pieces_concat pieces : forall reader, feed_pieces reader pieces = ksd_wayland_hypr_event_feed reader (concat pieces).
Proof.
  induction pieces as [|p pieces IH]; intros reader; [done|]. cbn [feed_pieces concat]. rewrite feed_app.
  destruct (ksd_wayland_hypr_event_feed reader p) as [r1 n1]. rewrite IH. done.
Qed.

Lemma event_byte_line line b : b2z b <> 0x0a -> event_byte (reader_at line) b = (reader_at (line ++ [b]), []).
Proof.
  intros Hb. unfold event_byte, reader_at. apply Z.eqb_neq in Hb. rewrite Hb. cbn [er_discarding er_line].
  rewrite zlen_app, zlen_cons, zlen_nil. unfold KSD_HYPR_EVENT_LINE_CAPACITY in *. change (256 - 1) with 255. pose proof (zlen_nonneg line) as Hl.
  destruct (Z.leb_spec 256 (zlen line)) as [Hlong|Hshort].
  - replace (256 <=? zlen line + (1 + 0)) with true by lia. unfold ztake. rewrite take_app_le; [done|]. unfold zlen in *. lia.
  - destruct (Z.eqb_spec (zlen (ztake 255 line)) 255) as [Hfull|Hfull].
    + assert (Hz : zlen line = 255) by (destruct (Z.le_gt_cases (zlen line) 255); [rewrite ztake_all in Hfull by done; done|lia]).
      replace (256 <=? zlen line + (1 + 0)) with true by lia. unfold ztake. rewrite take_app_le; [done|]. unfold zlen in *. lia.
    + rewrite ztake_all in Hfull by lia. replace (256 <=? zlen line + (1 + 0)) with false by lia.
      rewrite !ztake_all; [done|rewrite zlen_app, zlen_cons, zlen_nil; lia|lia].
Qed.

Lemma event_newline line : event_byte (reader_at line) x0a = (reader_at [], [line_name line]).
Proof.
  unfold event_byte, reader_at, line_name. change (b2z x0a =? 0x0a) with true. cbn [er_discarding er_line].
  destruct (Z.leb_spec KSD_HYPR_EVENT_LINE_CAPACITY (zlen line)); [done|]. rewrite ztake_all; [done|]. unfold KSD_HYPR_EVENT_LINE_CAPACITY in *. lia.
Qed.

Lemma feed_lines s : forall line,
  ksd_wayland_hypr_event_feed (reader_at line) s
  = match stream_lines s with
    | ([], last) => (reader_at (line ++ last), [])
    | (first :: lines, last) => (reader_at last, line_name (line ++ first) :: map line_name lines)
    end.
Proof.
  induction s as [|b s IH]; intros line; cbn [ksd_wayland_hypr_event_feed stream_lines]; [by rewrite app_nil_r|].
  destruct (Z.eqb_spec (b2z b) 0x0a) as [E|E].
  - assert (b = x0a) as -> by by apply b2z_inj. rewrite event_newline, IH. destruct (stream_lines s) as [[|l ls] last]; by rewrite !app_nil_r.
  - rewrite event_byte_line, IH by done. destruct (stream_lines s) as [[|l ls] last]; cbn [app]; by rewrite <- app_assoc.
Qed.

(** however the event stream is cut into reads, [on_line] is called once for each
    line that is complete, in order, with the name before the line's separator, or with
    none when the line does not fit the reader or has no separator; and the reader is
    left with as much of the unfinished line as it holds. *)
Theorem hypr_event_names pieces :
  let '(lines, last) := stream_lines (concat pieces) in
  feed_pieces ksd_wayland_hypr_event_reader_init pieces = (reader_at last, map line_name lines).
Proof.
  rewrite feed_pieces_concat. change ksd_wayland_hypr_event_reader_init with (reader_at []). rewrite feed_lines.
  by destruct (stream_lines (concat pieces)) as [[|l ls] last].
Qed.

(** ** An instance that answers *)

Definition sample_connection : connection :=
  mk_connection (Some (cstr "HYPRLAND_INSTANCE_SIGNATURE=abc_1" ++ [x00])) [PlainBytes 1000; PlainEnd]
    (fun _ => Some (mk_status KindSocket 1000 1000 0x1ed 1 1 0)) true
    (InProgress [mk_wait 101 (PollReady POLLOUT)] (Some 0)) (Some (77, 1000)).
Definition receiving (io : io_outcome) : io_turn := mk_turn [mk_wait 102 PollIntr; mk_wait 103 (PollReady POLLIN)] io.
Definition sample_exchange (reply : list byte) : exchange :=
  mk_exchange 100 sample_connection [mk_turn [mk_wait 101 (PollReady POLLOUT)] (IoBytes 1000)]
    ([receiving (IoBytes 1); receiving IoAgain; receiving (IoBytes 1000)] ++ [receiving IoEof]) reply.

Lemma hypr_reply_whole_witness :
  hypr_request_alloc (AL := infinite_memory) 1000 5 (sample_exchange (cstr "ok")) (cstr "cursorpos") 256 = Some (cstr "ok").
Proof.
  apply (@hypr_reply_whole infinite_memory infinite_memory_total 1000 5 (sample_exchange (cstr "ok")) (cstr "cursorpos") 256
           [receiving (IoBytes 1); receiving IoAgain; receiving (IoBytes 1000)] (receiving IoEof) [] [] 77).
  - lia.
  - vm_compute. reflexivity.
  - vm_compute. reflexivity.
  - reflexivity.
  - constructor; [split; [reflexivity|by right]|]. constructor; [split; [reflexivity|by left]|].
    constructor; [split; [reflexivity|by right]|constructor].
  - split; reflexivity.
  - vm_compute. discriminate.
Defined.

(** A compositor with a hyprlang configuration: it takes the classic spelling. *)
Definition classic_world (history : list (list byte)) (command : list byte) : exchange :=
  sample_exchange (cstr (if bytes_eqb (ztake 20 command) (cstr "dispatch movecursor ") then "ok" else "Invalid dispatcher")).
Definition sample_move : spellings := (cstr "hl.dsp.cursor.move({ x = 3, y = 4 })", cstr "movecursor 3 4").

Lemma hypr_dispatch_settles_witness :
  @dispatch_all infinite_memory 1000 5 classic_world [sample_move; sample_move] (mk_hypr false [])
  = ([true; true], mk_hypr true [dispatch_command (fst sample_move); dispatch_command (snd sample_move); dispatch_command (snd sample_move)]).
Proof.
  apply (@hypr_dispatch_settles infinite_memory 1000 5 classic_world true sample_move [sample_move] (mk_hypr false [])).
  assert (H : @speaks infinite_memory 1000 5 classic_world true sample_move).
  { split; [reflexivity|]. split; [reflexivity|]. intros history. split; vm_compute; reflexivity. }
  by repeat constructor.
Defined.

Lemma hypr_opacity_roundtrip_witness :
  0 <= 128 /\ match ksd_wayland_hypr_opacity_text 128 32 with
              | Some text => 128 <= 255 /\ ksd_wayland_hypr_parse_opacity text = Some 128
              | None => 255 < 128
              end.
Proof. split; [lia|]. apply (hypr_opacity_roundtrip 128). lia. Defined.
