(* ===== verification/Outputs.v ===== *)
(** * Outputs, displays and the pointer of a Wayland session
    (src/wayland/wl_outputs.c, wl_displays.c and wl_pointer.c)

    What the compositor says of its outputs, event by event; the area an output covers;
    the list of displays with the work area Hyprland reserves; and absolute pointer
    motion over the desktop they make.  The events of a round trip are an argument, and
    so are the times; a proxy is a number. *)
From Stdlib Require Import ZArith Lia Strings.Byte Strings.String Floats.SpecFloat.
From stdpp Require Import base list option numbers tactics.
From S2P Require Import Prelude.
From S2P Require Import Protocol.
From S2P Require Import Codec.
From S2P Require Import Buffer.
From S2P Require Import Result.
From S2P Require Import KwinEnvelope.
From S2P Require Import KwinTranslate.
From S2P Require Import HyprJson.
From S2P Require Import Hypr.
Local Open Scope Z_scope.
Local Open Scope ksd_scope.

(** ** An output *)

Record ksd_wl_output := mk_output {
  ot_proxy : Z; ot_version : Z; ot_has_xdg : bool; ot_registry_name : Z; ot_x : Z; ot_y : Z; ot_mode_width : Z;
  ot_mode_height : Z; ot_scale : Z; ot_transform : Z; ot_logical_x : Z; ot_logical_y : Z; ot_logical_width : Z;
  ot_logical_height : Z; ot_width_mm : Z; ot_height_mm : Z; ot_refresh : Z; ot_name : list byte;
  ot_name_from_output : bool; ot_current_mode : bool; ot_logical_position : bool; ot_logical_size : bool;
  ot_done : bool;
}.
Definition with_geometry (at_x at_y width_mm height_mm transform : Z) (o : ksd_wl_output) : ksd_wl_output :=
  mk_output (ot_proxy o) (ot_version o) (ot_has_xdg o) (ot_registry_name o) at_x at_y (ot_mode_width o)
    (ot_mode_height o) (ot_scale o) transform (ot_logical_x o) (ot_logical_y o) (ot_logical_width o)
    (ot_logical_height o) width_mm height_mm (ot_refresh o) (ot_name o) (ot_name_from_output o) (ot_current_mode o)
    (ot_logical_position o) (ot_logical_size o) (ot_done o).
Definition with_mode (width height refresh : Z) (current : bool) (o : ksd_wl_output) : ksd_wl_output :=
  mk_output (ot_proxy o) (ot_version o) (ot_has_xdg o) (ot_registry_name o) (ot_x o) (ot_y o) width height
    (ot_scale o) (ot_transform o) (ot_logical_x o) (ot_logical_y o) (ot_logical_width o) (ot_logical_height o)
    (ot_width_mm o) (ot_height_mm o) refresh (ot_name o) (ot_name_from_output o) current (ot_logical_position o)
    (ot_logical_size o) (ot_done o).
Definition with_done  (o : ksd_wl_output) : ksd_wl_output :=
  mk_output (ot_proxy o) (ot_version o) (ot_has_xdg o) (ot_registry_name o) (ot_x o) (ot_y o) (ot_mode_width o)
    (ot_mode_height o) (ot_scale o) (ot_transform o) (ot_logical_x o) (ot_logical_y o) (ot_logical_width o)
    (ot_logical_height o) (ot_width_mm o) (ot_height_mm o) (ot_refresh o) (ot_name o) (ot_name_from_output o)
    (ot_current_mode o) (ot_logical_position o) (ot_logical_size o) true.
Definition with_scale (scale : Z) (o : ksd_wl_output) : ksd_wl_output :=
  mk_output (ot_proxy o) (ot_version o) (ot_has_xdg o) (ot_registry_name o) (ot_x o) (ot_y o) (ot_mode_width o)
    (ot_mode_height o) scale (ot_transform o) (ot_logical_x o) (ot_logical_y o) (ot_logical_width o)
    (ot_logical_height o) (ot_width_mm o) (ot_height_mm o) (ot_refresh o) (ot_name o) (ot_name_from_output o)
    (ot_current_mode o) (ot_logical_position o) (ot_logical_size o) (ot_done o).
Definition with_name (name : list byte) (primary : bool) (o : ksd_wl_output) : ksd_wl_output :=
  mk_output (ot_proxy o) (ot_version o) (ot_has_xdg o) (ot_registry_name o) (ot_x o) (ot_y o) (ot_mode_width o)
    (ot_mode_height o) (ot_scale o) (ot_transform o) (ot_logical_x o) (ot_logical_y o) (ot_logical_width o)
    (ot_logical_height o) (ot_width_mm o) (ot_height_mm o) (ot_refresh o) name primary (ot_current_mode o)
    (ot_logical_position o) (ot_logical_size o) (ot_done o).
Definition with_position (at_x at_y : Z) (o : ksd_wl_output) : ksd_wl_output :=
  mk_output (ot_proxy o) (ot_version o) (ot_has_xdg o) (ot_registry_name o) (ot_x o) (ot_y o) (ot_mode_width o)
    (ot_mode_height o) (ot_scale o) (ot_transform o) at_x at_y (ot_logical_width o) (ot_logical_height o)
    (ot_width_mm o) (ot_height_mm o) (ot_refresh o) (ot_name o) (ot_name_from_output o) (ot_current_mode o) true
    (ot_logical_size o) (ot_done o).
Definition with_size (width height : Z) (known : bool) (o : ksd_wl_output) : ksd_wl_output :=
  mk_output (ot_proxy o) (ot_version o) (ot_has_xdg o) (ot_registry_name o) (ot_x o) (ot_y o) (ot_mode_width o)
    (ot_mode_height o) (ot_scale o) (ot_transform o) (ot_logical_x o) (ot_logical_y o) width height (ot_width_mm o)
    (ot_height_mm o) (ot_refresh o) (ot_name o) (ot_name_from_output o) (ot_current_mode o) (ot_logical_position o)
    known (ot_done o).
Definition with_xdg (bound : bool) (o : ksd_wl_output) : ksd_wl_output :=
  mk_output (ot_proxy o) (ot_version o) bound (ot_registry_name o) (ot_x o) (ot_y o) (ot_mode_width o)
    (ot_mode_height o) (ot_scale o) (ot_transform o) (ot_logical_x o) (ot_logical_y o) (ot_logical_width o)
    (ot_logical_height o) (ot_width_mm o) (ot_height_mm o) (ot_refresh o) (ot_name o) (ot_name_from_output o)
    (ot_current_mode o) (ot_logical_position o) (ot_logical_size o) (ot_done o).

(** The events of an output and of its xdg-output; a name is [None] for NULL. *)
Inductive output_event :=
| OutputGeometry (x y physical_width physical_height transform : Z)
| OutputMode (flags width height refresh : Z)
| OutputDone
| OutputScale (factor : Z)
| OutputName (name : option (list byte))
| XdgPosition (x y : Z)
| XdgSize (width height : Z)
| XdgDone
| XdgName (name : option (list byte)).

Definition WL_OUTPUT_MODE_CURRENT : Z := 1.
Definition OUTPUT_NAME_BYTES : Z := 64.
(** A name that does not fit is dropped rather than cut. *)
Definition store_name (o : ksd_wl_output) (name : option (list byte)) (primary : bool) : ksd_wl_output :=
  match name with
  | None => o
  | Some name =>
    if ot_name_from_output o && negb primary then o
    else if (zlen name =? 0) || (OUTPUT_NAME_BYTES <=? zlen name) then o
    else with_name name primary o
  end.
(** Before version 2 there is no event for the end of a change. *)
Definition done_before_2 (o : ksd_wl_output) : ksd_wl_output := if ot_version o <? 2 then with_done o else o.

Definition output_event_step (o : ksd_wl_output) (event : output_event) : ksd_wl_output :=
  match event with
  | OutputGeometry x y physical_width physical_height transform =>
    done_before_2 (with_geometry x y (if 0 <? physical_width then physical_width else 0)
                     (if 0 <? physical_height then physical_height else 0) transform o)
  | OutputMode flags width height refresh =>
    if Z.land flags WL_OUTPUT_MODE_CURRENT =? 0 then o
    else done_before_2 (with_mode width height (if 0 <? refresh then refresh else 0) ((0 <? width) && (0 <? height)) o)
  | OutputDone => with_done o
  | OutputScale factor => with_scale (if 0 <? factor then factor else 1) o
  | OutputName name => store_name o name true
  | XdgPosition x y => with_position x y o
  | XdgSize width height => with_size width height ((0 <? width) && (0 <? height)) o
  | XdgDone => with_done o
  | XdgName name => store_name o name false
  end.

Section registry.
Context {AL : Allocator}.
(** [sizeof(ksd_wl_output)]. *)
Definition OUTPUT_BYTES : Z := 152.

(** [manager] is whether there is an xdg-output manager; [bound] what the binding gives. *)
Definition bind_xdg (manager bound : bool) (o : ksd_wl_output) : ksd_wl_output :=
  if negb manager || ot_has_xdg o then o else with_xdg bound o.

(** [proxy] is what the registry binds, [None] for NULL. *)
Definition ksd_wayland_output_add (manager xdg_bound : bool) (name version : Z) (proxy : option Z) (outputs : list ksd_wl_output)
    : list ksd_wl_output :=
  if existsb (fun o => ot_registry_name o =? name) outputs then outputs
  else if negb (alloc_ok OUTPUT_BYTES) then outputs
  else
    match proxy with
    | None => outputs
    | Some proxy =>
      outputs ++ [bind_xdg manager xdg_bound
                    (mk_output proxy (if version <? 4 then version else 4) false name 0 0 0 0 1 0 0 0 0 0 0 0 0 []
                       false false false false false)]
    end.
End registry.

(** The outputs, and the proxy whose places are forgotten. *)
Fixpoint ksd_wayland_output_remove (name : Z) (outputs : list ksd_wl_output) : list ksd_wl_output * option Z :=
  match outputs with
  | [] => ([], None)
  | o :: outputs =>
    if negb (ot_registry_name o =? name) then
      let '(outputs, gone) := ksd_wayland_output_remove name outputs in (o :: outputs, gone)
    else (outputs, Some (ot_proxy o))
  end.
Definition ksd_wayland_outputs_bind_xdg (manager bound : bool) (outputs : list ksd_wl_output) : list ksd_wl_output :=
  map (bind_xdg manager bound) outputs.
Definition ksd_wayland_outputs_clear (outputs : list ksd_wl_output) : list ksd_wl_output := [].

(** A position and a size. *)
Definition area := (Z * Z * Z * Z)%type.

(** The turns that swap width and height: 90 and 270 degrees, flipped or not. *)
Definition turned (transform : Z) : bool := existsb (Z.eqb transform) [1; 3; 5; 7].
(** The sum is of 32-bit integers. *)
Definition scaled (size scale : Z) : Z := Z.quot (i32 (size + Z.quot scale 2)) scale.
Definition ksd_wayland_output_bounds (o : ksd_wl_output) : option area :=
  if ot_logical_position o && ot_logical_size o then
    guard* (0 <? ot_logical_width o) && (0 <? ot_logical_height o) in
    Some (ot_logical_x o, ot_logical_y o, ot_logical_width o, ot_logical_height o)
  else
    guard* ot_current_mode o in
    let scale := if 0 <? ot_scale o then ot_scale o else 1 in
    let w := scaled (ot_mode_width o) scale in
    let h := scaled (ot_mode_height o) scale in
    let '(logical_width, logical_height) := if turned (ot_transform o) then (h, w) else (w, h) in
    guard* negb ((logical_width <=? 0) || (logical_height <=? 0) || (INT32_MAX <? logical_width) || (INT32_MAX <? logical_height)) in
    Some (ot_x o, ot_y o, logical_width, logical_height).

(** ** Displays *)

Definition logical_bounds (o : ksd_wl_output) : option area :=
  guard* negb (negb (ot_logical_position o) || negb (ot_logical_size o) || (ot_logical_width o <=? 0) || (ot_logical_height o <=? 0)) in
  Some (ot_logical_x o, ot_logical_y o, ot_logical_width o, ot_logical_height o).

(** The output at the origin, or the one announced under the lowest name. *)
Fixpoint primary_loop (outputs : list ksd_wl_output) (lowest : option ksd_wl_output) : option ksd_wl_output :=
  match outputs with
  | [] => lowest
  | o :: outputs =>
    match logical_bounds o with
    | None => primary_loop outputs lowest
    | Some (x, y, _, _) =>
      if (x =? 0) && (y =? 0) then Some o
      else primary_loop outputs
             match lowest with
             | None => Some o
             | Some l => if ot_registry_name o <? ot_registry_name l then Some o else lowest
             end
    end
  end.
Definition primary_output (outputs : list ksd_wl_output) : option ksd_wl_output := primary_loop outputs None.

(** Two round trips at most; each is the outputs it leaves, or none in time. *)
Definition settle_outputs (roundtrips : list (option (list ksd_wl_output))) (outputs : list ksd_wl_output) : bool * list ksd_wl_output :=
  match roundtrips with
  | Some outputs :: later =>
    if forallb (fun o => ot_logical_position o && ot_logical_size o) outputs then (true, outputs)
    else match later with Some outputs :: _ => (true, outputs) | _ => (false, outputs) end
  | _ => (false, outputs)
  end.

Definition positive_part (v : Z) : Z := if 0 <? v then v else 0.
Definition ksd_wayland_reserved_work_area (bounds reserved : area) : option area :=
  let '(x, y, width, height) := bounds in
  let '(l, t, r, b) := reserved in
  let left_side := positive_part l in
  let top := positive_part t in
  let right_side := positive_part r in
  let bottom := positive_part b in
  let area_width := width - left_side - right_side in
  let area_height := height - top - bottom in
  guard* negb ((width <=? 0) || (height <=? 0) || (area_width <=? 0) || (area_height <=? 0)
               || (INT32_MAX <? x + left_side + area_width) || (INT32_MAX <? y + top + area_height)) in
  Some (x + left_side, y + top, area_width, area_height).

(** Joined by name, and trusted only where xdg-output says the output is. *)
Fixpoint hypr_monitor_loop (monitors : list ksd_hypr_monitor) (name : list byte) (x y : Z) : option ksd_hypr_monitor :=
  match monitors with
  | [] => None
  | m :: monitors =>
    if bytes_eqb (hm_name m) name then guard* (hm_x m =? x) && (hm_y m =? y) in Some m
    else hypr_monitor_loop monitors name x y
  end.
Definition hypr_monitor (monitors : list ksd_hypr_monitor) (o : ksd_wl_output) (x y : Z) : option ksd_hypr_monitor :=
  guard* negb (bytes_eqb (ot_name o) []) in hypr_monitor_loop monitors (ot_name o) x y.

Definition orientation (transform : Z) : Z := Z.land transform 3 * 90.

Definition truth_text (value : bool) : list byte := cstr (if value then "true" else "false").

(** A part of a text that may be left out. *)
Definition present (has : bool) (text : string) : list byte := if has then json_text text else [].

Section displays.
Context {AL : Allocator}.
(** [snprintf] into an array of [capacity], and its text into the buffer. *)
Definition put_printed (capacity : Z) (text : list byte) : bufop := fun out =>
  match printed capacity text with Some text => put text out | None => (false, out) end.
Definition nothing : bufop := fun out => (true, out).

Definition rect_text (a : area) : list byte :=
  let '(x, y, width, height) := a in
  json_text "{'x':" ++ signed_text x ++ json_text ",'y':" ++ signed_text y ++ json_text ",'width':" ++ signed_text width
  ++ json_text ",'height':" ++ signed_text height ++ cstr "}".

Definition append_display (o : ksd_wl_output) (primary : bool) (monitor : option ksd_hypr_monitor) : bufop :=
  match logical_bounds o with
  | None => nothing
  | Some (x, y, width, height) =>
    let mode_width := if negb (Z.land (ot_transform o) 1 =? 0) then ot_mode_height o else ot_mode_width o in
    let has_scale := ot_current_mode o && (0 <? mode_width) in
    let has_physical := (0 <? ot_width_mm o) && (0 <? ot_height_mm o) in
    let has_refresh := 0 <? ot_refresh o in
    let work_area := let* m := monitor in ksd_wayland_reserved_work_area (x, y, width, height) (hm_reserved m) in
    put (json_text "{'name':") ;;;
    ksd_buffer_json_string (ot_name o) false ;;;
    put_printed 512 (json_text ",'output':" ++ unsigned_text (ot_registry_name o) ++ json_text ",'x':" ++ signed_text x
      ++ json_text ",'y':" ++ signed_text y ++ json_text ",'width':" ++ signed_text width ++ json_text ",'height':" ++ signed_text height
      ++ json_text ",'primary':" ++ truth_text primary ++ json_text ",'physicalWidth':" ++ signed_text (ot_width_mm o)
      ++ json_text ",'physicalHeight':" ++ signed_text (ot_height_mm o)
      ++ json_text ",'refreshRate':" ++ fixed_text (ddiv (double (ot_refresh o)) (double 1000))
      ++ json_text ",'orientation':" ++ signed_text (orientation (ot_transform o))
      ++ json_text ",'scale':" ++ fixed_text (if has_scale then ddiv (double mode_width) (double width) else double 1)) ;;;
    match work_area with
    | Some a => put_printed 512 (json_text ",'workArea':" ++ rect_text a)
    | None => nothing
    end ;;;
    match monitor with
    | Some m => put_printed 512 (json_text ",'focused':" ++ truth_text (hm_focused m))
    | None => nothing
    end ;;;
    put_printed 512 (json_text ",'validFields':['output','x','y','width','height','primary','orientation'"
      ++ present (negb (bytes_eqb (ot_name o) [])) ",'name'" ++ present has_physical ",'physicalWidth','physicalHeight'"
      ++ present has_refresh ",'refreshRate'" ++ present has_scale ",'scale'"
      ++ present (bool_decide (is_Some work_area)) ",'workArea'" ++ present (bool_decide (is_Some monitor)) ",'focused'"
      ++ cstr "]}")
  end.

Fixpoint append_displays (primary : option Z) (monitors : list ksd_hypr_monitor) (outputs : list ksd_wl_output) (first : bool) : bufop :=
  match outputs with
  | [] => nothing
  | o :: outputs =>
    match logical_bounds o with
    | None => append_displays primary monitors outputs first
    | Some (x, y, _, _) =>
      (if first then nothing else put (cstr ",")) ;;;
      append_display o (bool_decide (primary = Some (ot_proxy o))) (hypr_monitor monitors o x y) ;;;
      append_displays primary monitors outputs false
    end
  end.

(** The result and the descriptors it closed, as in Result.v. *)
Definition framed (op : bufop) (diagnostic : list byte) (result : ksd_operation_result) : ksd_operation_result * list Z :=
  let '(ok, out) := op (ksd_buffer_init KSD_MAX_TEXT_BYTES) in
  if negb ok then ksd_result_error result KSD_STATUS_RESOURCE_EXHAUSTED 0 (Some diagnostic)
  else let '(_, result, closed) := ksd_result_take_framed_text out result KSD_STATUS_RESOURCE_EXHAUSTED (Some diagnostic) in
    (result, closed).

(** [monitors] is what Hyprland answers; none when the session is not Hyprland's. *)
Definition serialize_displays (outputs : list ksd_wl_output) (monitors : option (list ksd_hypr_monitor))
    (result : ksd_operation_result) : ksd_operation_result * list Z :=
  let monitors := default [] monitors in
  let primary := option_map ot_proxy (primary_output outputs) in
  framed (put (json_text "{'ok':true,'displays':[") ;;; append_displays primary monitors outputs true ;;; put (cstr "]}"))
    (cstr "the display list is too large") result.

Definition ksd_wayland_display_list_available (xdg_manager : bool) (outputs : list ksd_wl_output) : bool :=
  xdg_manager && negb (bool_decide (outputs = [])).
Definition ksd_wayland_work_area_available (xdg_manager hypr : bool) (outputs : list ksd_wl_output) : bool :=
  ksd_wayland_display_list_available xdg_manager outputs && hypr.

Definition ksd_wayland_display_list (xdg_manager : bool) (outputs : list ksd_wl_output)
    (roundtrips : list (option (list ksd_wl_output))) (monitors : option (list ksd_hypr_monitor))
    (result : ksd_operation_result) : ksd_operation_result * list Z :=
  if negb (ksd_wayland_display_list_available xdg_manager outputs) then
    ksd_result_error result KSD_STATUS_UNSUPPORTED 0 (Some (cstr "the compositor does not report logical outputs"))
  else
    let '(settled, outputs) := settle_outputs roundtrips outputs in
    if negb settled then ksd_result_error result KSD_STATUS_TIMEOUT 0 (Some (cstr "the compositor did not answer"))
    else serialize_displays outputs monitors result.

Definition ksd_wayland_display_snapshot (xdg_manager : bool) (outputs : list ksd_wl_output)
    (monitors : option (list ksd_hypr_monitor)) (result : ksd_operation_result) : ksd_operation_result * list Z :=
  if negb (ksd_wayland_display_list_available xdg_manager outputs) then
    ksd_result_error result KSD_STATUS_UNSUPPORTED 0 (Some (cstr "the compositor does not report logical outputs"))
  else if existsb (fun o => negb (ot_logical_position o) || negb (ot_logical_size o)) outputs then
    ksd_result_error result KSD_STATUS_UNAVAILABLE 0 (Some (cstr "the compositor has not finished its output metadata"))
  else serialize_displays outputs monitors result.

Definition ksd_wayland_work_area (xdg_manager hypr : bool) (outputs : list ksd_wl_output)
    (roundtrips : list (option (list ksd_wl_output))) (monitors : option (list ksd_hypr_monitor))
    (result : ksd_operation_result) : ksd_operation_result * list Z :=
  if negb (ksd_wayland_work_area_available xdg_manager hypr outputs) then
    ksd_result_error result KSD_STATUS_UNSUPPORTED 0 (Some (cstr "the compositor does not report a work area"))
  else
    let '(settled, outputs) := settle_outputs roundtrips outputs in
    if negb settled then ksd_result_error result KSD_STATUS_TIMEOUT 0 (Some (cstr "the compositor did not answer"))
    else
      match monitors with
      | None => ksd_result_error result KSD_STATUS_UNAVAILABLE 0 (Some (cstr "the compositor did not report its monitors"))
      | Some monitors =>
        match (let* primary := primary_output outputs in
               let* bounds := logical_bounds primary in
               let '(x, y, _, _) := bounds in
               let* monitor := hypr_monitor monitors primary x y in
               ksd_wayland_reserved_work_area bounds (hm_reserved monitor)) with
        | None =>
          ksd_result_error result KSD_STATUS_UNAVAILABLE 0
            (Some (cstr "the compositor reported no work area for the primary output"))
        | Some (x, y, width, height) =>
          let tail := ksd_encode_u32 (u32 x) ++ ksd_encode_u32 (u32 y) ++ ksd_encode_u32 (u32 width) ++ ksd_encode_u32 (u32 height) in
          let '(ok, result, closed) := ksd_result_copy result (Some tail) 16 in
          if ok then (result, closed)
          else let '(result, closed') := ksd_result_error result KSD_STATUS_INTERNAL 0 (Some (cstr "could not return the work area")) in
            (result, closed ++ closed')
        end
      end.
End displays.

(** ** The pointer *)

(** The box around every output: [left, top, right, bottom], from the extremes of 64
    bits when there is none. *)
Definition INT64_MAX : Z := 2 ^ 63 - 1.
Definition INT64_MIN : Z := - 2 ^ 63.
Definition extend (box : area) (o : ksd_wl_output) : area :=
  let '(minimum_x, minimum_y, maximum_x, maximum_y) := box in
  match ksd_wayland_output_bounds o with
  | None => box
  | Some (x, y, width, height) =>
    (if x <? minimum_x then x else minimum_x, if y <? minimum_y then y else minimum_y,
     if maximum_x <? x + width then x + width else maximum_x, if maximum_y <? y + height then y + height else maximum_y)
  end.
Definition desktop_bounds (outputs : list ksd_wl_output) : option area :=
  let '(minimum_x, minimum_y, maximum_x, maximum_y) :=
    fold_left extend outputs (INT64_MAX, INT64_MAX, INT64_MIN, INT64_MIN) in
  let span_x := if minimum_x <? maximum_x then maximum_x - minimum_x else 0 in
  let span_y := if minimum_y <? maximum_y then maximum_y - minimum_y else 0 in
  guard* negb ((minimum_x <? INT32_MIN) || (INT32_MAX <? minimum_x) || (minimum_y <? INT32_MIN) || (INT32_MAX <? minimum_y)
               || (span_x =? 0) || (UINT32_MAX <? span_x) || (span_y =? 0) || (UINT32_MAX <? span_y)) in
  Some (minimum_x, minimum_y, span_x, span_y).

(** [motion_absolute]: a point in an extent. *)
Record motion := mk_motion { mo_x : Z; mo_y : Z; mo_width : Z; mo_height : Z }.
Definition clamp_into (v limit : Z) : Z := if v <? 0 then 0 else if limit <? v then limit else v.

(** [hypr_move] is what moving by Hyprland's socket gives, [None] for a session that is
    not Hyprland's; [flushed] whether the display takes the request. *)
Definition ksd_wayland_move_absolute (hypr_move : option bool) (virtual_pointer flushed : bool) (outputs : list ksd_wl_output)
    (x y : Z) (result : ksd_operation_result) : ksd_operation_result * list Z * option motion :=
  let took := let '(_, result, closed) := ksd_result_take result None 0 in (result, closed) in
  if default false hypr_move then (took, None)
  else
    match (guard* virtual_pointer in desktop_bounds outputs) with
    | None =>
      (ksd_result_error result KSD_STATUS_UNAVAILABLE 0
         (Some (cstr "the compositor does not support absolute pointer motion")), None)
    | Some (left_side, top, width, height) =>
      let sent := mk_motion (clamp_into (x - left_side) width) (clamp_into (y - top) height) width height in
      (if flushed then took
       else ksd_result_error result KSD_STATUS_UNAVAILABLE 0 (Some (cstr "the compositor rejected absolute pointer motion")),
       Some sent)
    end.

(** ** Areas stay inside *)

Definition is_area (a : area) : Prop :=
  let '(x, y, width, height) := a in is_i32 x /\ is_i32 y /\ 0 < width <= INT32_MAX /\ 0 < height <= INT32_MAX.

(** The work area is what is left of the output inside the reserved edges, with 32-bit
    corners, or there is none. *)
Lemma work_area_inside bounds reserved out : is_area bounds ->
  ksd_wayland_reserved_work_area bounds reserved = Some out ->
  let '(x, y, width, height) := bounds in
  let '(l, t, r, b) := reserved in
  let '(ax, ay, aw, ah) := out in
  is_area out /\ x <= ax /\ ax + aw <= x + width /\ y <= ay /\ ay + ah <= y + height /\
  ax = x + positive_part l /\ ay = y + positive_part t /\
  ax + aw = x + width - positive_part r /\ ay + ah = y + height - positive_part b.
Proof.
  destruct bounds as [[[x y] width] height], reserved as [[[l t] r] b]. intros (Hx & Hy & Hw & Hh).
  unfold ksd_wayland_reserved_work_area. case_if; [|done]. intros [= <-]. breflect.
  assert (Hp : forall v, 0 <= positive_part v) by (intros v; unfold positive_part; case_if; lia).
  pose proof (Hp l). pose proof (Hp t). pose proof (Hp r). pose proof (Hp b).
  unfold is_area, is_i32, INT32_MAX in *. lia.
Qed.

Definition work_sample : list (option area) :=
  [ksd_wayland_reserved_work_area (0, 0, 1217, 741) (0, 30, 0, 0); ksd_wayland_reserved_work_area (-1920, 0, 1920, 1080) (10, 0, 0, 40);
   ksd_wayland_reserved_work_area (0, 0, 100, 100) (-5, -5, 0, 0); ksd_wayland_reserved_work_area (0, 0, 1217, 741) (0, 741, 0, 0)].
Example work_areas : work_sample = [Some (0, 30, 1217, 711); Some (-1910, 0, 1910, 1040); Some (0, 0, 100, 100); None].
Proof. reflexivity. Qed.

(** The area of an output has a positive size. *)
Lemma output_bounds_size o x y width height :
  ksd_wayland_output_bounds o = Some (x, y, width, height) -> 0 < width /\ 0 < height.
Proof.
  unfold ksd_wayland_output_bounds. case_if; [case_if; [|done]; intros [= <- <- <- <-]; breflect; lia|]. case_if; [|done].
  destruct (if turned (ot_transform o) then _ else _) as [w h]. case_if; [|done]. intros [= <- <- <- <-]. breflect. lia.
Qed.

(** ** The desktop *)

(** The areas of the outputs that have one. *)
Definition areas (outputs : list ksd_wl_output) : list area := omap ksd_wayland_output_bounds outputs.
(** A box with the least corner that holds every area, and touches them on each side. *)
Definition encloses (box : area) (a : area) : Prop :=
  let '(l, t, r, b) := box in let '(x, y, width, height) := a in l <= x /\ t <= y /\ x + width <= r /\ y + height <= b.
Definition touches (box : area) (all : list area) : Prop :=
  let '(l, t, r, b) := box in
  (exists a, In a all /\ fst (fst (fst a)) = l) /\ (exists a, In a all /\ snd (fst (fst a)) = t) /\
  (exists a, In a all /\ fst (fst (fst a)) + snd (fst a) = r) /\ (exists a, In a all /\ snd (fst (fst a)) + snd a = b).

(** What an output says is in 32 bits. *)
Definition output_wf (o : ksd_wl_output) : Prop :=
  match ksd_wayland_output_bounds o with Some (x, y, width, height) => is_area (x, y, width, height) | None => True end.

Definition is_box (box : area) (all : list area) : Prop :=
  all <> [] /\ Forall (encloses box) all /\ touches box all.

Lemma encloses_weaken l t r b l' t' r' b' a :
  l' <= l -> t' <= t -> r <= r' -> b <= b' -> encloses (l, t, r, b) a -> encloses (l', t', r', b') a.
Proof. destruct a as [[[x y] w] h]. unfold encloses. lia. Qed.

Lemma extend_box box all o x y width height : ksd_wayland_output_bounds o = Some (x, y, width, height) ->
  is_box box all -> is_box (extend box o) (all ++ [(x, y, width, height)]).
Proof.
  intros Ho (Hne & Hin & Ht). destruct box as [[[l t] r] b]. unfold extend. rewrite Ho.
  split; [by destruct all|]. split.
  - apply Forall_app. split; [|constructor; [|constructor]; unfold encloses; repeat case_if; breflect; lia].
    eapply Forall_impl; [|exact Hin]. intros a. apply encloses_weaken; case_if; breflect; lia.
  - destruct Ht as ((a1 & Ha1 & E1) & (a2 & Ha2 & E2) & (a3 & Ha3 & E3) & (a4 & Ha4 & E4)).
    assert (Hnew : In (x, y, width, height) (all ++ [(x, y, width, height)])) by (apply in_or_app; right; by left).
    assert (Hold : forall a, In a all -> In a (all ++ [(x, y, width, height)])) by (intros a Ha; apply in_or_app; by left).
    repeat split; case_if; eauto.
Qed.

Lemma first_box o x y width height : ksd_wayland_output_bounds o = Some (x, y, width, height) -> is_area (x, y, width, height) ->
  is_box (extend (INT64_MAX, INT64_MAX, INT64_MIN, INT64_MIN) o) [(x, y, width, height)].
Proof.
  intros Ho (Hx & Hy & Hw & Hh). unfold extend. rewrite Ho. unfold is_i32, INT32_MAX, INT64_MAX, INT64_MIN in *.
  replace (x <? 2 ^ 63 - 1) with true by lia. replace (y <? 2 ^ 63 - 1) with true by lia.
  replace (- 2 ^ 63 <? x + width) with true by lia. replace (- 2 ^ 63 <? y + height) with true by lia.
  split; [done|]. split; [constructor; [|constructor]; unfold encloses; lia|].
  repeat split; exists (x, y, width, height); (split; [by left|done]).
Qed.

Lemma desktop_box outputs : Forall output_wf outputs ->
  forall box all, is_box box all -> is_box (fold_left extend outputs box) (all ++ areas outputs).
Proof.
  induction 1 as [|o outputs Ho _ IH]; intros box all Hb; [by rewrite app_nil_r|]. cbn [fold_left areas omap list_omap].
  destruct (ksd_wayland_output_bounds o) as [[[[x y] w] h]|] eqn:E.
  - change (all ++ (x, y, w, h) :: ?k) with (all ++ [(x, y, w, h)] ++ k). rewrite app_assoc. apply IH. by apply extend_box.
  - assert (Eb : extend box o = box) by (destruct box as [[[? ?] ?] ?]; unfold extend; by rewrite E). rewrite Eb. by apply IH.
Qed.

Lemma desktop_first outputs : Forall output_wf outputs ->
  match areas outputs with
  | [] => fold_left extend outputs (INT64_MAX, INT64_MAX, INT64_MIN, INT64_MIN) = (INT64_MAX, INT64_MAX, INT64_MIN, INT64_MIN)
  | _ :: _ => is_box (fold_left extend outputs (INT64_MAX, INT64_MAX, INT64_MIN, INT64_MIN)) (areas outputs)
  end.
Proof.
  induction 1 as [|o outputs Ho Hos IH]; [done|]. cbn [fold_left areas omap list_omap]. unfold output_wf in Ho.
  destruct (ksd_wayland_output_bounds o) as [[[[x y] w] h]|] eqn:E.
  - apply (desktop_box outputs Hos _ [(x, y, w, h)]). by apply first_box.
  - assert (Eb : extend (INT64_MAX, INT64_MAX, INT64_MIN, INT64_MIN) o = (INT64_MAX, INT64_MAX, INT64_MIN, INT64_MIN)) by (unfold extend; by rewrite E).
    rewrite Eb. exact IH.
Qed.

Lemma areas_wf outputs : Forall output_wf outputs -> Forall is_area (areas outputs).
Proof.
  induction 1 as [|o outputs Ho _ IH]; [constructor|]. unfold areas, output_wf in *. cbn [omap list_omap].
  destruct (ksd_wayland_output_bounds o) as [[[[x y] w] h]|]; [by constructor|done].
Qed.

(** a pointer that is moved through the virtual pointer is moved within the box that
    just holds every output: the point sent lies in the extent sent, the extent is that
    of the box, and a point of the box is sent as it is, relative to its corner; it is
    refused only when there is no output with an area, or a box of more than 32 bits. *)
Theorem pointer_within_desktop outputs x y result flushed : Forall output_wf outputs ->
  match ksd_wayland_move_absolute None true flushed outputs x y result with
  | (_, Some sent) =>
    exists l t r b, is_box (l, t, r, b) (areas outputs) /\ mo_width sent = r - l /\ mo_height sent = b - t /\
      0 <= mo_x sent <= mo_width sent /\ 0 <= mo_y sent <= mo_height sent /\
      (l <= x <= r -> l + mo_x sent = x) /\ (t <= y <= b -> t + mo_y sent = y)
  | (_, None) =>
    areas outputs = [] \/
    exists l t r b, is_box (l, t, r, b) (areas outputs) /\ (UINT32_MAX < r - l \/ UINT32_MAX < b - t)
  end.
Proof.
  intros Hwf. pose proof (desktop_first outputs Hwf) as Hbox. unfold ksd_wayland_move_absolute, desktop_bounds. cbn [default].
  destruct (areas outputs) as [|a all] eqn:Ea.
  - rewrite Hbox. cbv beta iota zeta. left. done.
  - destruct (fold_left extend outputs _) as [[[l t] r] b] eqn:Ef.
    assert (Hspan : l < r /\ t < b /\ is_i32 l /\ is_i32 t).
    { destruct Hbox as (_ & Hin & Ht). pose proof Hin as Hin'. apply Forall_cons_1 in Hin as [Ha _].
      assert (Hall : forall c, In c (a :: all) -> is_area c).
      { apply List.Forall_forall. rewrite <- Ea. by apply areas_wf. }
      pose proof (Hall a (or_introl eq_refl)) as Haa. destruct a as [[[ax ay] aw] ah]. unfold encloses in Ha.
      destruct Ht as ((a1 & H1 & E1) & (a2 & H2 & E2) & _). apply Hall in H1, H2.
      destruct a1 as [[[? ?] ?] ?], a2 as [[[? ?] ?] ?]. unfold is_area, is_i32 in *. cbn [fst snd] in *. clear Hin' Hall Ef Ea. subst. lia. }
    destruct Hspan as (Hlr & Htb & Hl & Ht). apply Z.ltb_lt in Hlr as Elr, Htb as Etb. rewrite Elr, Etb.
    unfold is_i32 in *. replace (l <? INT32_MIN) with false by (unfold INT32_MIN; lia). replace (INT32_MAX <? l) with false by (unfold INT32_MAX; lia).
    replace (t <? INT32_MIN) with false by (unfold INT32_MIN; lia). replace (INT32_MAX <? t) with false by (unfold INT32_MAX; lia).
    replace (r - l =? 0) with false by lia. replace (b - t =? 0) with false by lia. cbn [orb].
    destruct (UINT32_MAX <? r - l) eqn:Er; [right; exists l, t, r, b; split; [done|]; breflect; by left|].
    destruct (UINT32_MAX <? b - t) eqn:Eb; [right; exists l, t, r, b; split; [done|]; breflect; by right|].
    cbn [negb]. exists l, t, r, b. cbn [mo_x mo_y mo_width mo_height]. unfold clamp_into. split; [done|]. repeat case_if; breflect; lia.
Qed.

(** ** Two screens *)

Definition screen (name x y width height : Z) : ksd_wl_output :=
  fold_left output_event_step [OutputGeometry x y 300 200 0; OutputMode 1 width height 60000; OutputScale 1; OutputName (Some (cstr "DP-1"));
    XdgPosition x y; XdgSize width height; OutputDone]
    (mk_output name 4 true name 0 0 0 0 1 0 0 0 0 0 0 0 0 [] false false false false false).
Definition screens : list ksd_wl_output := [screen 2 0 0 1920 1080; screen 1 (-1280) 200 1280 1024].

Example screens_listed :
  option_map ot_registry_name (primary_output screens) = Some 2 /\ desktop_bounds screens = Some (-1280, 0, 3200, 1224) /\
  ksd_wayland_output_remove 2 screens = ([screen 1 (-1280) 200 1280 1024], Some 2).
Proof. vm_compute. done. Qed.

(** A size that 32 bits do not hold after the scale is added: the sum wraps, and the
    output has no area. *)
Example output_scale_wraps :
  scaled INT32_MAX 2 = - 2 ^ 30 /\
  ksd_wayland_output_bounds (with_scale 2 (with_mode INT32_MAX 1080 60 true (mk_output 1 4 false 1 0 0 0 0 1 0 0 0 0 0 0 0 0 [] false false false false false))) = None.
Proof. vm_compute. done. Qed.

Lemma pointer_within_desktop_witness :
  exists sent, snd (ksd_wayland_move_absolute None true true screens (-5000) 300 ksd_result_init) = Some sent /\
    sent = mk_motion 0 300 3200 1224 /\
    exists l t r b, is_box (l, t, r, b) (areas screens) /\ mo_width sent = r - l /\ mo_height sent = b - t /\
      0 <= mo_x sent <= mo_width sent /\ 0 <= mo_y sent <= mo_height sent /\
      (l <= -5000 <= r -> l + mo_x sent = -5000) /\ (t <= 300 <= b -> t + mo_y sent = 300).
Proof.
  exists (mk_motion 0 300 3200 1224). split; [vm_compute; reflexivity|]. split; [done|].
  apply (pointer_within_desktop screens (-5000) 300 ksd_result_init true).
  repeat constructor; vm_compute; repeat split; discriminate || done.
Defined.
