(* ===== verification/Toplevels.v ===== *)
(** * Toplevels of a Wayland session (the listeners of src/wayland/wl_windows.c,
    wl_cosmic_windows.c and wl_wlr_windows.c, and the handles of wl_connect.c)

    A toplevel gathers what three protocols say of one window: the portable list names
    it, COSMIC adds state and places, wlroots lists its own.  Each event is a step on the
    connection; a listener's data is the key of its toplevel, and an event for a toplevel
    that is gone finds nothing.  SHA-256, which GLib computes, is an argument, and so are
    random numbers.

    The theorem is that the handles by which clients name windows are distinct: over any
    events no two toplevels that are open have the same one. *)
From Stdlib Require Import ZArith Lia Strings.Byte Strings.String.
From stdpp Require Import base list option numbers tactics gmap.
From S2P Require Import Prelude.
From S2P Require Import Buffer.
From S2P Require Import HyprJson.
From S2P Require Import Hypr.
From S2P Require Import Outputs.
Local Open Scope Z_scope.
Local Open Scope ksd_scope.

(** ** A toplevel *)

(** Where a window is on one output. *)
Record cosmic_geometry := mk_cosmic { cg_output : Z; cg_x : Z; cg_y : Z; cg_width : Z; cg_height : Z }.
(** The workspace a minimized window returns to. *)
Record restore_place := mk_restore { rs_has : bool; rs_workspace : Z; rs_name : list byte }.

Record ksd_wl_toplevel := mk_toplevel {
  tl_key : Z; tl_handle : bool; tl_cosmic_handle : bool; tl_wlr_handle : bool; tl_id : Z;
  tl_title : option (list byte); tl_app_id : option (list byte); tl_identifier : option (list byte); tl_state : Z;
  tl_ready : bool; tl_state_received : bool; tl_closed : bool; tl_geometries : list cosmic_geometry;
  tl_hypr : ksd_hypr_client; tl_known : bool; tl_restore : restore_place; tl_workspace_fullscreen : bool;
  tl_opacity : Z;
}.
Definition tl_with_cosmic_handle (cosmic_handle : bool) (item : ksd_wl_toplevel) : ksd_wl_toplevel :=
  mk_toplevel (tl_key item) (tl_handle item) cosmic_handle (tl_wlr_handle item) (tl_id item) (tl_title item)
    (tl_app_id item) (tl_identifier item) (tl_state item) (tl_ready item) (tl_state_received item) (tl_closed item)
    (tl_geometries item) (tl_hypr item) (tl_known item) (tl_restore item) (tl_workspace_fullscreen item)
    (tl_opacity item).
Definition tl_with_id (id : Z) (item : ksd_wl_toplevel) : ksd_wl_toplevel :=
  mk_toplevel (tl_key item) (tl_handle item) (tl_cosmic_handle item) (tl_wlr_handle item) id (tl_title item)
    (tl_app_id item) (tl_identifier item) (tl_state item) (tl_ready item) (tl_state_received item) (tl_closed item)
    (tl_geometries item) (tl_hypr item) (tl_known item) (tl_restore item) (tl_workspace_fullscreen item)
    (tl_opacity item).
Definition tl_with_title (title : option (list byte)) (item : ksd_wl_toplevel) : ksd_wl_toplevel :=
  mk_toplevel (tl_key item) (tl_handle item) (tl_cosmic_handle item) (tl_wlr_handle item) (tl_id item) title
    (tl_app_id item) (tl_identifier item) (tl_state item) (tl_ready item) (tl_state_received item) (tl_closed item)
    (tl_geometries item) (tl_hypr item) (tl_known item) (tl_restore item) (tl_workspace_fullscreen item)
    (tl_opacity item).
Definition tl_with_app_id (app_id : option (list byte)) (item : ksd_wl_toplevel) : ksd_wl_toplevel :=
  mk_toplevel (tl_key item) (tl_handle item) (tl_cosmic_handle item) (tl_wlr_handle item) (tl_id item) (tl_title item)
    app_id (tl_identifier item) (tl_state item) (tl_ready item) (tl_state_received item) (tl_closed item)
    (tl_geometries item) (tl_hypr item) (tl_known item) (tl_restore item) (tl_workspace_fullscreen item)
    (tl_opacity item).
Definition tl_with_identifier (identifier : option (list byte)) (item : ksd_wl_toplevel) : ksd_wl_toplevel :=
  mk_toplevel (tl_key item) (tl_handle item) (tl_cosmic_handle item) (tl_wlr_handle item) (tl_id item) (tl_title item)
    (tl_app_id item) identifier (tl_state item) (tl_ready item) (tl_state_received item) (tl_closed item)
    (tl_geometries item) (tl_hypr item) (tl_known item) (tl_restore item) (tl_workspace_fullscreen item)
    (tl_opacity item).
Definition tl_with_state (state : Z) (item : ksd_wl_toplevel) : ksd_wl_toplevel :=
  mk_toplevel (tl_key item) (tl_handle item) (tl_cosmic_handle item) (tl_wlr_handle item) (tl_id item) (tl_title item)
    (tl_app_id item) (tl_identifier item) state (tl_ready item) (tl_state_received item) (tl_closed item)
    (tl_geometries item) (tl_hypr item) (tl_known item) (tl_restore item) (tl_workspace_fullscreen item)
    (tl_opacity item).
Definition tl_with_ready (ready : bool) (item : ksd_wl_toplevel) : ksd_wl_toplevel :=
  mk_toplevel (tl_key item) (tl_handle item) (tl_cosmic_handle item) (tl_wlr_handle item) (tl_id item) (tl_title item)
    (tl_app_id item) (tl_identifier item) (tl_state item) ready (tl_state_received item) (tl_closed item)
    (tl_geometries item) (tl_hypr item) (tl_known item) (tl_restore item) (tl_workspace_fullscreen item)
    (tl_opacity item).
Definition tl_with_state_received (state_received : bool) (item : ksd_wl_toplevel) : ksd_wl_toplevel :=
  mk_toplevel (tl_key item) (tl_handle item) (tl_cosmic_handle item) (tl_wlr_handle item) (tl_id item) (tl_title item)
    (tl_app_id item) (tl_identifier item) (tl_state item) (tl_ready item) state_received (tl_closed item)
    (tl_geometries item) (tl_hypr item) (tl_known item) (tl_restore item) (tl_workspace_fullscreen item)
    (tl_opacity item).
Definition tl_with_closed (closed : bool) (item : ksd_wl_toplevel) : ksd_wl_toplevel :=
  mk_toplevel (tl_key item) (tl_handle item) (tl_cosmic_handle item) (tl_wlr_handle item) (tl_id item) (tl_title item)
    (tl_app_id item) (tl_identifier item) (tl_state item) (tl_ready item) (tl_state_received item) closed
    (tl_geometries item) (tl_hypr item) (tl_known item) (tl_restore item) (tl_workspace_fullscreen item)
    (tl_opacity item).
Definition tl_with_geometries (geometries : list cosmic_geometry) (item : ksd_wl_toplevel) : ksd_wl_toplevel :=
  mk_toplevel (tl_key item) (tl_handle item) (tl_cosmic_handle item) (tl_wlr_handle item) (tl_id item) (tl_title item)
    (tl_app_id item) (tl_identifier item) (tl_state item) (tl_ready item) (tl_state_received item) (tl_closed item)
    geometries (tl_hypr item) (tl_known item) (tl_restore item) (tl_workspace_fullscreen item) (tl_opacity item).
Definition tl_with_hypr (hypr : ksd_hypr_client) (item : ksd_wl_toplevel) : ksd_wl_toplevel :=
  mk_toplevel (tl_key item) (tl_handle item) (tl_cosmic_handle item) (tl_wlr_handle item) (tl_id item) (tl_title item)
    (tl_app_id item) (tl_identifier item) (tl_state item) (tl_ready item) (tl_state_received item) (tl_closed item)
    (tl_geometries item) hypr (tl_known item) (tl_restore item) (tl_workspace_fullscreen item) (tl_opacity item).
Definition tl_with_known (known : bool) (item : ksd_wl_toplevel) : ksd_wl_toplevel :=
  mk_toplevel (tl_key item) (tl_handle item) (tl_cosmic_handle item) (tl_wlr_handle item) (tl_id item) (tl_title item)
    (tl_app_id item) (tl_identifier item) (tl_state item) (tl_ready item) (tl_state_received item) (tl_closed item)
    (tl_geometries item) (tl_hypr item) known (tl_restore item) (tl_workspace_fullscreen item) (tl_opacity item).
Definition tl_with_restore (restore : restore_place) (item : ksd_wl_toplevel) : ksd_wl_toplevel :=
  mk_toplevel (tl_key item) (tl_handle item) (tl_cosmic_handle item) (tl_wlr_handle item) (tl_id item) (tl_title item)
    (tl_app_id item) (tl_identifier item) (tl_state item) (tl_ready item) (tl_state_received item) (tl_closed item)
    (tl_geometries item) (tl_hypr item) (tl_known item) restore (tl_workspace_fullscreen item) (tl_opacity item).
Definition tl_with_workspace_fullscreen (workspace_fullscreen : bool) (item : ksd_wl_toplevel) : ksd_wl_toplevel :=
  mk_toplevel (tl_key item) (tl_handle item) (tl_cosmic_handle item) (tl_wlr_handle item) (tl_id item) (tl_title item)
    (tl_app_id item) (tl_identifier item) (tl_state item) (tl_ready item) (tl_state_received item) (tl_closed item)
    (tl_geometries item) (tl_hypr item) (tl_known item) (tl_restore item) workspace_fullscreen (tl_opacity item).
Definition tl_with_opacity (opacity : Z) (item : ksd_wl_toplevel) : ksd_wl_toplevel :=
  mk_toplevel (tl_key item) (tl_handle item) (tl_cosmic_handle item) (tl_wlr_handle item) (tl_id item) (tl_title item)
    (tl_app_id item) (tl_identifier item) (tl_state item) (tl_ready item) (tl_state_received item) (tl_closed item)
    (tl_geometries item) (tl_hypr item) (tl_known item) (tl_restore item) (tl_workspace_fullscreen item) opacity.

(** [calloc]; [handle] or [wlr_handle] is the one the compositor announced. *)
Definition fresh_toplevel (key : Z) (handle wlr_handle : bool) (id : Z) : ksd_wl_toplevel :=
  mk_toplevel key handle false wlr_handle id None None None 0 false false false [] empty_client false (mk_restore false 0 []) false 0.

(** ** The connection *)

(** The globals that are bound, the toplevels oldest first, and what is joined to them. *)
Record ksd_wayland := mk_wayland {
  wl_toplevels : list ksd_wl_toplevel; wl_next_key : Z;
  wl_toplevel_list : bool; wl_cosmic_info : bool; wl_cosmic_manager : bool; wl_cosmic_capabilities : Z;
  wl_wlr_manager : bool; wl_seat : bool; wl_hypr : bool; wl_handle_salt : option (list byte);
  wl_outputs : list ksd_wl_output; wl_opacity_fresh : bool; wl_ipc : hypr_state;
}.
Definition with_toplevels (items : list ksd_wl_toplevel) (c : ksd_wayland) : ksd_wayland :=
  mk_wayland items (wl_next_key c) (wl_toplevel_list c) (wl_cosmic_info c) (wl_cosmic_manager c) (wl_cosmic_capabilities c)
    (wl_wlr_manager c) (wl_seat c) (wl_hypr c) (wl_handle_salt c) (wl_outputs c) (wl_opacity_fresh c) (wl_ipc c).
(** A toplevel at the tail, under a key of its own. *)
Definition append_toplevel (item : ksd_wl_toplevel) (c : ksd_wayland) : ksd_wayland :=
  mk_wayland (wl_toplevels c ++ [item]) (wl_next_key c + 1) (wl_toplevel_list c) (wl_cosmic_info c) (wl_cosmic_manager c)
    (wl_cosmic_capabilities c) (wl_wlr_manager c) (wl_seat c) (wl_hypr c) (wl_handle_salt c) (wl_outputs c) (wl_opacity_fresh c) (wl_ipc c).
Definition with_cosmic (info manager : bool) (capabilities : Z) (c : ksd_wayland) : ksd_wayland :=
  mk_wayland (wl_toplevels c) (wl_next_key c) (wl_toplevel_list c) info manager capabilities
    (wl_wlr_manager c) (wl_seat c) (wl_hypr c) (wl_handle_salt c) (wl_outputs c) (wl_opacity_fresh c) (wl_ipc c).
Definition with_ipc (fresh : bool) (ipc : hypr_state) (c : ksd_wayland) : ksd_wayland :=
  mk_wayland (wl_toplevels c) (wl_next_key c) (wl_toplevel_list c) (wl_cosmic_info c) (wl_cosmic_manager c) (wl_cosmic_capabilities c)
    (wl_wlr_manager c) (wl_seat c) (wl_hypr c) (wl_handle_salt c) (wl_outputs c) fresh ipc.
Definition with_outputs (outputs : list ksd_wl_output) (c : ksd_wayland) : ksd_wayland :=
  mk_wayland (wl_toplevels c) (wl_next_key c) (wl_toplevel_list c) (wl_cosmic_info c) (wl_cosmic_manager c) (wl_cosmic_capabilities c)
    (wl_wlr_manager c) (wl_seat c) (wl_hypr c) (wl_handle_salt c) outputs (wl_opacity_fresh c) (wl_ipc c).

(** The toplevel a key names, changed. *)
Definition on_toplevel (key : Z) (f : ksd_wl_toplevel -> ksd_wl_toplevel) (items : list ksd_wl_toplevel) : list ksd_wl_toplevel :=
  map (fun item => if tl_key item =? key then f item else item) items.
Definition find_key (key : Z) (items : list ksd_wl_toplevel) : option ksd_wl_toplevel := List.find (fun item => tl_key item =? key) items.

(** ** Handles *)

(** Random numbers, [None] when there is none; sixteen are tried. *)
Fixpoint new_handle_loop (attempts : nat) (randoms : list (option Z)) (items : list ksd_wl_toplevel) : Z :=
  match attempts, randoms with
  | S attempts, Some value :: randoms =>
    let value := Z.land value INT64_MAX in
    if (value =? 0) || existsb (fun item => tl_id item =? value) items then new_handle_loop attempts randoms items else value
  | _, _ => 0
  end.
Definition ksd_wayland_new_handle (randoms : list (option Z)) (c : ksd_wayland) : Z := new_handle_loop 16 randoms (wl_toplevels c).

Section events.
(** [g_checksum]: the digest of the salt and the identifier, or none. *)
Context (sha256 : list byte -> option (list byte)) {AL : Allocator}.

Definition digest_value (digest : list byte) : Z :=
  fold_left (fun value k => Z.lor value (Z.shiftl (b2z (nth k digest x00)) (8 * Z.of_nat k))) (seq 0 8) 0.
Definition ksd_wayland_handle_for_identifier (identifier : option (list byte)) (c : ksd_wayland) : Z :=
  match wl_handle_salt c, identifier with
  | Some salt, Some identifier =>
    match sha256 (salt ++ identifier) with
    | Some digest =>
      if negb (zlen digest =? 32) then 0
      else
        let value := Z.land (digest_value digest) INT64_MAX in
        if negb (value =? 0) && existsb (fun item => (tl_id item =? value) && negb (tl_closed item)) (wl_toplevels c) then 0 else value
    | None => 0
    end
  | _, _ => 0
  end.

(** ** What the compositor says of one toplevel *)

Inductive toplevel_event :=
| ToplevelClosed
| ToplevelDone
| ToplevelTitle (title : option (list byte))
| ToplevelAppId (app_id : option (list byte))
| ToplevelIdentifier (identifier : option (list byte))
| CosmicClosed
| CosmicDone
| CosmicState (states : list Z)
| CosmicGeometry (output : option Z) (x y width height : Z)
| CosmicOutputLeave (output : Z)
| WlrTitle (title : option (list byte))
| WlrAppId (app_id : option (list byte))
| WlrState (states : list Z)
| WlrDone
| WlrClosed.

(** The newest wins; a copy that cannot be had leaves the old one. *)
Definition ksd_wayland_replace_string (slot value : option (list byte)) : option (list byte) :=
  match value with Some text => if alloc_ok (zlen text + 1) then Some text else slot | None => slot end.
Definition state_bits (states : list Z) : Z := fold_left (fun bits s => if s <? 32 then Z.lor bits (Z.shiftl 1 s) else bits) states 0.

Definition remove_geometry (output : Z) (item : ksd_wl_toplevel) : ksd_wl_toplevel :=
  tl_with_geometries (List.filter (fun g => negb (cg_output g =? output)) (tl_geometries item)) item.
(** [sizeof(ksd_cosmic_geometry)]. *)
Definition GEOMETRY_BYTES : Z := 32.
Definition set_geometry (output x y width height : Z) (item : ksd_wl_toplevel) : ksd_wl_toplevel :=
  let place := mk_cosmic output x y width height in
  match find_index (fun g => cg_output g =? output) (tl_geometries item) with
  | Some i => tl_with_geometries (<[i := place]> (tl_geometries item)) item
  | None => if alloc_ok GEOMETRY_BYTES then tl_with_geometries (place :: tl_geometries item) item else item
  end.

(** [id] is the handle the new identifier derives. *)
Definition toplevel_event_step (id : Z) (event : toplevel_event) (item : ksd_wl_toplevel) : ksd_wl_toplevel :=
  match event with
  | ToplevelClosed | CosmicClosed | WlrClosed => tl_with_closed true item
  | ToplevelDone => item
  | ToplevelTitle title | WlrTitle title => tl_with_title (ksd_wayland_replace_string (tl_title item) title) item
  | ToplevelAppId app_id | WlrAppId app_id => tl_with_app_id (ksd_wayland_replace_string (tl_app_id item) app_id) item
  | ToplevelIdentifier identifier =>
    let item := tl_with_identifier (ksd_wayland_replace_string (tl_identifier item) identifier) item in
    if id =? 0 then item else tl_with_id id item
  | CosmicDone => if tl_state_received item then tl_with_ready true item else item
  | CosmicState states => tl_with_state_received true (tl_with_state (state_bits states) item)
  | CosmicGeometry output x y width height =>
    match output with
    | Some output => if (width <=? 0) || (height <=? 0) then item else set_geometry output x y width height item
    | None => item
    end
  | CosmicOutputLeave output => remove_geometry output item
  | WlrState states => tl_with_state (state_bits states) item
  | WlrDone => tl_with_ready true item
  end.

(** ** What it says of the session *)

(** Whether the COSMIC handle of a toplevel could be had and listened to. *)
Inductive wl_event :=
| OnToplevel (key : Z) (event : toplevel_event)
| ListToplevel (randoms : list (option Z)) (cosmic : bool)
| WlrToplevel (randoms : list (option Z))
| CosmicInfoDone
| CosmicCapabilities (capabilities : list Z)
| CosmicInfoBound (version : Z) (bound : bool) (cosmic : bool)
| CosmicManagerBound (version : Z) (bound : bool)
| OutputEvent (proxy : Z) (event : output_event)
| OutputRemoved (name : Z).

Definition KSD_WL_MAX_TOPLEVELS : Z := 4096.
(** [sizeof(ksd_wl_toplevel)]. *)
Definition TOPLEVEL_BYTES : Z := 400.

Definition ksd_wayland_cosmic_attach_toplevel (info got : bool) (item : ksd_wl_toplevel) : ksd_wl_toplevel :=
  if negb (tl_handle item) || tl_cosmic_handle item || negb info then item else tl_with_cosmic_handle got item.
Definition ksd_wayland_cosmic_detach_toplevel (item : ksd_wl_toplevel) : ksd_wl_toplevel :=
  tl_with_state_received false (tl_with_ready false (tl_with_geometries [] (tl_with_cosmic_handle false item))).

(** [list_toplevel] and [manager_toplevel]: the handle is destroyed when there are too
    many, no memory or no handle for it. *)
Definition announce (handle wlr_handle : bool) (randoms : list (option Z)) (attach : ksd_wl_toplevel -> ksd_wl_toplevel)
    (c : ksd_wayland) : ksd_wayland :=
  if KSD_WL_MAX_TOPLEVELS <=? zlen (wl_toplevels c) then c
  else if negb (alloc_ok TOPLEVEL_BYTES) then c
  else let id := ksd_wayland_new_handle randoms c in
    if id =? 0 then c else append_toplevel (attach (fresh_toplevel (wl_next_key c) handle wlr_handle id)) c.

Definition wl_event_step (event : wl_event) (c : ksd_wayland) : ksd_wayland :=
  match event with
  | OnToplevel key event =>
    let id := match event with ToplevelIdentifier identifier => ksd_wayland_handle_for_identifier identifier c | _ => 0 end in
    with_toplevels (on_toplevel key (toplevel_event_step id event) (wl_toplevels c)) c
  | ListToplevel randoms cosmic => announce true false randoms (ksd_wayland_cosmic_attach_toplevel (wl_cosmic_info c) cosmic) c
  | WlrToplevel randoms => announce false true randoms (fun item => item) c
  | CosmicInfoDone =>
    with_toplevels (map (fun item => if tl_cosmic_handle item && tl_state_received item then tl_with_ready true item else item)
                      (wl_toplevels c)) c
  | CosmicCapabilities capabilities => with_cosmic (wl_cosmic_info c) (wl_cosmic_manager c) (state_bits capabilities) c
  | CosmicInfoBound version bound cosmic =>
    if (version <? 2) || wl_cosmic_info c || negb bound then c
    else with_toplevels (map (ksd_wayland_cosmic_attach_toplevel true cosmic) (wl_toplevels c))
           (with_cosmic true (wl_cosmic_manager c) (wl_cosmic_capabilities c) c)
  | CosmicManagerBound version bound =>
    if (version <? 1) || wl_cosmic_manager c then c else with_cosmic (wl_cosmic_info c) bound (wl_cosmic_capabilities c) c
  | OutputEvent proxy event =>
    with_outputs (map (fun o => if ot_proxy o =? proxy then output_event_step o event else o) (wl_outputs c)) c
  | OutputRemoved name =>
    let '(outputs, gone) := ksd_wayland_output_remove name (wl_outputs c) in
    with_outputs outputs
      match gone with Some proxy => with_toplevels (map (remove_geometry proxy) (wl_toplevels c)) c | None => c end
  end.
Definition wl_events (events : list wl_event) (c : ksd_wayland) : ksd_wayland := fold_left (fun c e => wl_event_step e c) events c.

(** ** Between calls *)

Definition sweep_closed (c : ksd_wayland) : ksd_wayland :=
  with_toplevels (List.filter (fun item => negb (tl_closed item)) (wl_toplevels c)) c.
Definition ksd_wayland_toplevels_clear (c : ksd_wayland) : ksd_wayland := with_toplevels [] c.
Definition ksd_wayland_cosmic_clear (c : ksd_wayland) : ksd_wayland := with_cosmic false false 0 c.
End events.

(** ** Where COSMIC says a window is *)

(** The first place on an output with an area: on the desktop, if 32 bits hold it. *)
Fixpoint resolve_geometry (places : list cosmic_geometry) (outputs : list ksd_wl_output) : option area :=
  match places with
  | [] => None
  | g :: places =>
    match List.find (fun b => fst b =? cg_output g) (omap (fun o => let* b := ksd_wayland_output_bounds o in Some (ot_proxy o, b)) outputs) with
    | None => resolve_geometry places outputs
    | Some (_, (output_x, output_y, _, _)) =>
      let global_x := output_x + cg_x g in
      let global_y := output_y + cg_y g in
      guard* negb ((cg_width g <=? 0) || (cg_height g <=? 0) || (global_x <? INT32_MIN) || (INT32_MAX <? global_x)
                   || (global_y <? INT32_MIN) || (INT32_MAX <? global_y)) in
      Some (global_x, global_y, cg_width g, cg_height g)
    end
  end.

(** ** What COSMIC can do *)

Definition CAPABILITY_CLOSE : Z := 1.
Definition CAPABILITY_ACTIVATE : Z := 2.
Definition CAPABILITY_MAXIMIZE : Z := 3.
Definition CAPABILITY_MINIMIZE : Z := 4.
Definition ksd_wayland_cosmic_can_list (c : ksd_wayland) : bool := wl_toplevel_list c && wl_cosmic_info c.
Definition has_capability (c : ksd_wayland) (value : Z) : bool :=
  (value <? 32) && negb (Z.land (wl_cosmic_capabilities c) (Z.shiftl 1 value) =? 0).
Definition ksd_wayland_cosmic_can_focus (c : ksd_wayland) : bool :=
  ksd_wayland_cosmic_can_list c && wl_cosmic_manager c && wl_seat c && has_capability c CAPABILITY_ACTIVATE.
Definition ksd_wayland_cosmic_can_close (c : ksd_wayland) : bool :=
  ksd_wayland_cosmic_can_list c && wl_cosmic_manager c && has_capability c CAPABILITY_CLOSE.
Definition ksd_wayland_cosmic_can_set_state (c : ksd_wayland) : bool :=
  ksd_wayland_cosmic_can_list c && wl_cosmic_manager c && has_capability c CAPABILITY_MAXIMIZE && has_capability c CAPABILITY_MINIMIZE.

(** ** Handles are distinct *)

Definition open_ids (items : list ksd_wl_toplevel) : list Z := map tl_id (List.filter (fun item => negb (tl_closed item)) items).
Definition is_handle_id (id : Z) : Prop := 0 < id <= INT64_MAX.
(** Every toplevel has a key of its own and a handle; those that are open have distinct
    handles. *)
Definition handles_wf (c : ksd_wayland) : Prop :=
  NoDup (map tl_key (wl_toplevels c)) /\ Forall (fun item => tl_key item < wl_next_key c) (wl_toplevels c) /\
  Forall (fun item => is_handle_id (tl_id item)) (wl_toplevels c) /\ NoDup (open_ids (wl_toplevels c)).

(** A change that keeps the key and the handle, and opens nothing. *)
Definition keeps_handle (f : ksd_wl_toplevel -> ksd_wl_toplevel) : Prop :=
  forall item, tl_key (f item) = tl_key item /\ tl_id (f item) = tl_id item /\ (tl_closed item = true -> tl_closed (f item) = true).

Lemma keeps_key f (c : ksd_wayland) : keeps_handle f -> map tl_key (map f (wl_toplevels c)) = map tl_key (wl_toplevels c).
Proof. intros Hf. rewrite map_map. apply map_ext. intros item. apply Hf. Qed.

Lemma open_ids_map f items : keeps_handle f -> sublist (open_ids (map f items)) (open_ids items).
Proof.
  intros Hf. unfold open_ids. induction items as [|item items IH]; [done|]. cbn [map List.filter].
  destruct (Hf item) as (_ & Hid & Hc). destruct (tl_closed item); [rewrite Hc by done; exact IH|].
  destruct (tl_closed (f item)); cbn [map negb]; [by apply sublist_cons|]. rewrite Hid. by apply sublist_skip.
Qed.

Lemma wf_map f c : keeps_handle f -> handles_wf c -> handles_wf (with_toplevels (map f (wl_toplevels c)) c).
Proof.
  intros Hf (Hk & Hn & Hi & Ho). unfold handles_wf. cbn. rewrite (keeps_key f c Hf). split; [done|].
  rewrite !Forall_map. split; [|split].
  - eapply Forall_impl; [exact Hn|]. intros item H. by rewrite (proj1 (Hf item)).
  - eapply Forall_impl; [exact Hi|]. intros item H. by rewrite (proj1 (proj2 (Hf item))).
  - eapply sublist_NoDup; [exact Ho|]. by apply open_ids_map.
Qed.

Lemma on_toplevel_keeps key f : keeps_handle f -> keeps_handle (fun item => if tl_key item =? key then f item else item).
Proof. intros Hf item. case_if; [apply Hf|done]. Qed.

Lemma existsb_false {A} (p : A -> bool) l : existsb p l = false <-> Forall (fun x => p x = false) l.
Proof. induction l as [|x l IH]; cbn; [by split; [constructor|]|]. rewrite orb_false_iff, IH, List.Forall_cons_iff. done. Qed.

Lemma sublist_list_filter {A} (p : A -> bool) l : sublist (List.filter p l) l.
Proof. induction l as [|x l IH]; [done|]. cbn. destruct (p x); [by apply sublist_skip|by apply sublist_cons]. Qed.

(** A handle that no open toplevel has is given to one of them. *)
Lemma give_id_open key id items f : NoDup (map tl_key items) ->
  (forall item, tl_key (f item) = tl_key item /\ tl_closed (f item) = tl_closed item /\ tl_id (f item) = id) ->
  ~ In id (open_ids items) -> NoDup (open_ids items) -> NoDup (open_ids (on_toplevel key f items)).
Proof.
  intros Hk Hf Hid Hnd. unfold open_ids, on_toplevel in *. induction items as [|item items IH]; [done|]. cbn [map List.filter] in *.
  apply NoDup_cons in Hk as [Hkn Hk].
  assert (Hno : tl_key item = key -> map (fun item => if tl_key item =? key then f item else item) items = items).
  { intros E. rewrite <- (map_id items) at 2. apply map_ext_in. intros i Hi. case_if; [|done]. breflect.
    exfalso. apply Hkn. apply list_elem_of_In. rewrite E, <- Heqb. by apply in_map. }
  destruct (Hf item) as (_ & Hc & Hfi). destruct (tl_key item =? key) eqn:E; [breflect; rewrite (Hno E)|].
  - rewrite Hc. destruct (tl_closed item); cbn [negb map] in *; [done|]. rewrite Hfi. apply NoDup_cons in Hnd as [_ Hnd].
    apply NoDup_cons. split; [|done]. rewrite list_elem_of_In. intros Hin. apply Hid. by right.
  - destruct (tl_closed item) eqn:Ecl; cbn [negb map] in *; [by apply IH|]. apply NoDup_cons in Hnd as [Hni Hnd].
    apply NoDup_cons. split; [|apply IH; [done| |done]; intros Hin; apply Hid; by right].
    rewrite list_elem_of_In, in_map_iff. intros (i & Ei & Hi). apply filter_In in Hi as [Hi Hop].
    apply in_map_iff in Hi as (j & <- & Hj). destruct (Hf j) as (_ & Hcj & Hij). destruct (tl_key j =? key).
    + apply Hid. left. by rewrite <- Hij.
    + apply Hni. rewrite list_elem_of_In, in_map_iff. exists j. split; [done|]. by apply filter_In.
Qed.

Lemma land_handle v : 0 <= Z.land v INT64_MAX <= INT64_MAX.
Proof.
  unfold INT64_MAX. change (2 ^ 63 - 1) with (Z.ones 63). rewrite Z.land_ones by lia.
  pose proof (Z.mod_pos_bound v (2 ^ 63) ltac:(lia)). change (Z.ones 63) with (2 ^ 63 - 1). lia.
Qed.

Lemma new_handle_fresh attempts : forall randoms items,
  new_handle_loop attempts randoms items = 0 \/
  (is_handle_id (new_handle_loop attempts randoms items) /\
   Forall (fun item => tl_id item <> new_handle_loop attempts randoms items) items).
Proof.
  induction attempts as [|attempts IH]; intros randoms items; [by left|]. cbn [new_handle_loop].
  destruct randoms as [|[v|] randoms]; [by left| |by left]. pose proof (land_handle v) as Hv. case_if; [apply IH|]. right.
  apply orb_false_iff in Heqb as [H0 He]. breflect. split; [unfold is_handle_id; lia|]. apply existsb_false in He.
  eapply Forall_impl; [exact He|]. intros item Hne. cbn in Hne. by apply Z.eqb_neq.
Qed.

Section wf.
Context (sha256 : list byte -> option (list byte)) {AL : Allocator}.

Lemma derived_fresh identifier c :
  let id := ksd_wayland_handle_for_identifier sha256 identifier c in
  id = 0 \/ (is_handle_id id /\ ~ In id (open_ids (wl_toplevels c))).
Proof.
  cbn. unfold ksd_wayland_handle_for_identifier. destruct (wl_handle_salt c) as [salt|]; [|by left]. destruct identifier as [text|]; [|by left].
  destruct (sha256 (salt ++ text)) as [digest|]; [|by left]. case_if; [by left|]. set (v := Z.land _ _). pose proof (land_handle (digest_value digest)) as Hv.
  fold v in Hv. case_if; [by left|]. destruct (Z.eqb_spec v 0) as [E|E]; [by left|]. right. cbn [negb andb] in Heqb0.
  split; [unfold is_handle_id; lia|]. unfold open_ids. rewrite in_map_iff. intros (item & Ei & Hi). apply filter_In in Hi as [Hi Hop].
  apply existsb_false in Heqb0. rewrite List.Forall_forall in Heqb0. apply Heqb0 in Hi. rewrite Ei, Z.eqb_refl, Hop in Hi. done.
Qed.

Lemma toplevel_step_keeps event : (forall identifier, event <> ToplevelIdentifier identifier) -> forall id, keeps_handle (toplevel_event_step id event).
Proof.
  intros Hne id item. destruct event; cbn [toplevel_event_step]; try done.
  - by destruct (Hne identifier).
  - by case_if.
  - destruct output; [|done]. case_if; [done|]. unfold set_geometry. destruct (find_index _ _); [done|]. by case_if.
Qed.

Lemma announce_wf handle wlr_handle randoms attach c :
  (forall item, tl_key (attach item) = tl_key item /\ tl_id (attach item) = tl_id item) ->
  handles_wf c -> handles_wf (announce handle wlr_handle randoms attach c).
Proof.
  intros Ha (Hk & Hn & Hi & Ho). unfold announce. case_if; [done|]. case_if; [done|]. case_if; [done|]. breflect.
  destruct (new_handle_fresh 16 randoms (wl_toplevels c)) as [E|[Hid Hnew]]; [done|]. fold (ksd_wayland_new_handle randoms c) in *.
  set (item := attach _). destruct (Ha (fresh_toplevel (wl_next_key c) handle wlr_handle (ksd_wayland_new_handle randoms c))) as [Ek Ei].
  fold item in Ek, Ei. cbn in Ek, Ei. unfold handles_wf. cbn. split; [|split; [|split]].
  - rewrite map_app. apply NoDup_app. split; [done|]. split; [|apply NoDup_singleton]. intros k Hin. cbn. rewrite Ek.
    rewrite list_elem_of_singleton. intros ->. apply list_elem_of_In, in_map_iff in Hin as (i & E & Hin).
    rewrite List.Forall_forall in Hn. apply Hn in Hin. lia.
  - apply Forall_app. split; [|constructor; [lia|constructor]]. eapply Forall_impl; [exact Hn|]. intros i H. cbn in H. lia.
  - apply Forall_app. split; [done|]. constructor; [by rewrite Ei|constructor].
  - unfold open_ids. rewrite List.filter_app, map_app. apply NoDup_app. split; [done|]. split.
    + intros k Hin. cbn. destruct (tl_closed item); [apply not_elem_of_nil|]. cbn. rewrite Ei, list_elem_of_singleton. intros ->.
      apply list_elem_of_In, in_map_iff in Hin as (i & E & Hin). apply filter_In in Hin as [Hin _].
      rewrite List.Forall_forall in Hnew. by apply Hnew in Hin.
    + cbn. destruct (tl_closed item); [constructor|apply NoDup_singleton].
Qed.

Lemma attach_keeps info got item :
  let item' := ksd_wayland_cosmic_attach_toplevel info got item in tl_key item' = tl_key item /\ tl_id item' = tl_id item /\ tl_closed item' = tl_closed item.
Proof. cbn. unfold ksd_wayland_cosmic_attach_toplevel. by case_if. Qed.

Lemma identifier_wf key identifier c : handles_wf c ->
  handles_wf (wl_event_step sha256 (OnToplevel key (ToplevelIdentifier identifier)) c).
Proof.
  intros Hwf. cbn [wl_event_step]. destruct (derived_fresh identifier c) as [E|[Hid Hnew]]; cbn in *.
  - rewrite E. unfold on_toplevel. apply wf_map; [|done]. apply on_toplevel_keeps. by intros item.
  - destruct Hwf as (Hk & Hn & Hi & Ho). set (id := ksd_wayland_handle_for_identifier _ _ _) in *.
    assert (Hne : (id =? 0) = false) by (unfold is_handle_id in Hid; lia).
    assert (Hf : forall item, let item' := toplevel_event_step id (ToplevelIdentifier identifier) item in
      tl_key item' = tl_key item /\ tl_closed item' = tl_closed item /\ tl_id item' = id) by (intros item; cbn [toplevel_event_step]; by rewrite Hne).
    unfold handles_wf. cbn [wl_toplevels with_toplevels wl_next_key]. unfold on_toplevel. rewrite map_map, !Forall_map.
    split; [|split; [|split]].
    + replace (map _ (wl_toplevels c)) with (map tl_key (wl_toplevels c)); [done|]. apply map_ext. intros item. case_if; [|done]. by destruct (Hf item) as (-> & _).
    + eapply Forall_impl; [exact Hn|]. intros item H. case_if; [|done]. by destruct (Hf item) as (-> & _).
    + eapply Forall_impl; [exact Hi|]. intros item H. case_if; [|done]. destruct (Hf item) as (_ & _ & ->). done.
    + by apply (give_id_open key id).
Qed.

Lemma wf_same c c' : wl_toplevels c' = wl_toplevels c -> wl_next_key c' = wl_next_key c -> handles_wf c -> handles_wf c'.
Proof. unfold handles_wf. by intros -> ->. Qed.

Lemma event_wf event c : handles_wf c -> handles_wf (wl_event_step sha256 event c).
Proof.
  intros Hwf. destruct event as [key event|randoms cosmic|randoms| |caps|version bound cosmic|version bound|proxy event|name]; cbn [wl_event_step].
  - assert (Hkeep : (forall identifier, event <> ToplevelIdentifier identifier) ->
      handles_wf (with_toplevels (on_toplevel key (toplevel_event_step 0 event) (wl_toplevels c)) c)).
    { intros Hne. apply wf_map; [|done]. by apply on_toplevel_keeps, toplevel_step_keeps. }
    destruct event; try (apply Hkeep; intros identifier'; done). by apply (identifier_wf key identifier c).
  - apply announce_wf; [|done]. intros item. by destruct (attach_keeps (wl_cosmic_info c) cosmic item) as (-> & -> & _).
  - by apply announce_wf.
  - apply wf_map; [|done]. intros item. by case_if.
  - by apply (wf_same c).
  - case_if; [done|]. apply (wf_same (with_toplevels (map (ksd_wayland_cosmic_attach_toplevel true cosmic) (wl_toplevels c)) c)); [done..|].
    apply wf_map; [|done]. intros item. destruct (attach_keeps true cosmic item) as (-> & -> & ->). done.
  - case_if; [done|]. by apply (wf_same c).
  - by apply (wf_same c).
  - destruct (ksd_wayland_output_remove name (wl_outputs c)) as [outputs [gone|]]; [|by apply (wf_same c)].
    apply (wf_same (with_toplevels (map (remove_geometry gone) (wl_toplevels c)) c)); [done..|]. apply wf_map; [|done]. by intros item.
Qed.

Lemma sweep_wf c : handles_wf c -> handles_wf (sweep_closed c).
Proof.
  intros (Hk & Hn & Hi & Ho). unfold handles_wf. cbn.
  assert (Hs : sublist (List.filter (fun item => negb (tl_closed item)) (wl_toplevels c)) (wl_toplevels c)).
  { by apply sublist_list_filter. }
  split; [|split; [|split]].
  - eapply sublist_NoDup; [exact Hk|]. by apply fmap_sublist.
  - by apply incl_Forall with (2 := Hn), incl_filter.
  - by apply incl_Forall with (2 := Hi), incl_filter.
  - unfold open_ids in *. replace (List.filter _ (List.filter _ (wl_toplevels c))) with (List.filter (fun item => negb (tl_closed item)) (wl_toplevels c)); [done|].
    clear. induction (wl_toplevels c) as [|item items IH]; [done|]. cbn. destruct (tl_closed item) eqn:E; cbn; [done|]. rewrite E. cbn. by rewrite <- IH.
Qed.

(** The connection over time: the compositors speak, closed toplevels are swept before a
    list is made, and everything is let go when the connection is lost. *)
Inductive session_reaches (start : ksd_wayland) : ksd_wayland -> Prop :=
| session_starts : session_reaches start start
| session_hears event c : session_reaches start c -> session_reaches start (wl_event_step sha256 event c)
| session_sweeps c : session_reaches start c -> session_reaches start (sweep_closed c)
| session_clears c : session_reaches start c -> session_reaches start (ksd_wayland_cosmic_clear (ksd_wayland_toplevels_clear c)).

Lemma reaches_wf start c : handles_wf start -> session_reaches start c -> handles_wf c.
Proof.
  intros Hs Hr. induction Hr as [|event c _ IH|c _ IH|c _ _]; [done|by apply event_wf|by apply sweep_wf|].
  unfold handles_wf. cbn. repeat split; constructor.
Qed.

Lemma reaches_events events : forall start c, session_reaches start c -> session_reaches start (wl_events sha256 events c).
Proof. induction events as [|e events IH]; intros start c H; [done|]. by apply IH, session_hears. Qed.

Lemma open_unique items a b : NoDup (open_ids items) -> In a items -> In b items ->
  tl_closed a = false -> tl_closed b = false -> tl_id a = tl_id b -> a = b.
Proof.
  intros Hnd Ha Hb Hca Hcb E. unfold open_ids in Hnd.
  assert (Hin : forall i, In i items -> tl_closed i = false -> In i (List.filter (fun item => negb (tl_closed item)) items)).
  { intros i Hi Hc. apply filter_In. by rewrite Hc. }
  apply Hin in Ha, Hb; [|done..]. clear Hin. induction (List.filter _ items) as [|x l IH]; [done|]. cbn [map] in Hnd.
  apply NoDup_cons in Hnd as [Hx Hnd]. destruct Ha as [->|Ha], Hb as [->|Hb]; [done| | |by apply IH].
  - exfalso. apply Hx. rewrite E. apply list_elem_of_In. by apply in_map.
  - exfalso. apply Hx. rewrite <- E. apply list_elem_of_In. by apply in_map.
Qed.

(** whatever the compositors say, in any order, a handle that a client holds names
    one window at most: no two toplevels that are open share it, and none is zero or
    beyond 63 bits, whether it was drawn at random or derived from the identifier of the
    window, and however the digests and the random numbers fall. *)
Theorem window_handles_distinct start c a b :
  wl_toplevels start = [] -> session_reaches start c ->
  In a (wl_toplevels c) -> In b (wl_toplevels c) ->
  0 < tl_id a < 2 ^ 63 /\ (tl_closed a = false -> tl_closed b = false -> tl_id a = tl_id b -> a = b).
Proof.
  intros Hc Hr Ha Hb.
  assert (Hwf : handles_wf start) by (unfold handles_wf; rewrite Hc; repeat split; constructor).
  apply (reaches_wf start c Hwf) in Hr as (_ & _ & Hi & Ho). split.
  - rewrite List.Forall_forall in Hi. apply Hi in Ha. unfold is_handle_id, INT64_MAX in Ha. lia.
  - intros. by apply (open_unique (wl_toplevels c)).
Qed.
End wf.

(** ** Two windows *)

Definition sample_session : ksd_wayland :=
  mk_wayland [] 0 true false false 0 false true true (Some (cstr "salt")) [] false (mk_hypr false []).
(** Digests that only tell apart how long the text is. *)
Definition poor_digest (text : list byte) : option (list byte) := Some (z2b (zlen text) :: replicate 31 x00).
Definition sample_events : list wl_event :=
  [ListToplevel [Some 7] false; OnToplevel 0 (ToplevelIdentifier (Some (cstr "18000002")));
   ListToplevel [Some 12; Some 9] false; OnToplevel 1 (ToplevelIdentifier (Some (cstr "18000003"))); OnToplevel 1 (ToplevelTitle (Some (cstr "two")))].

Example sample_handles :
  map (fun item => (tl_key item, tl_id item, tl_title item))
    (wl_toplevels (@wl_events poor_digest infinite_memory sample_events sample_session))
  = [(0, 12, None); (1, 9, Some (cstr "two"))].
Proof. vm_compute. reflexivity. Qed.

Lemma window_handles_distinct_witness :
  let c := sweep_closed (@wl_events poor_digest infinite_memory sample_events sample_session) in
  exists a b, In a (wl_toplevels c) /\ In b (wl_toplevels c) /\ tl_id a <> tl_id b /\
    0 < tl_id a < 2 ^ 63 /\ (tl_closed a = false -> tl_closed b = false -> tl_id a = tl_id b -> a = b).
Proof.
  intros c. set (d := fresh_toplevel 0 true false 0).
  assert (Ha : In (nth 0 (wl_toplevels c) d) (wl_toplevels c)) by (vm_compute; by left).
  assert (Hb : In (nth 1 (wl_toplevels c) d) (wl_toplevels c)) by (vm_compute; right; by left).
  exists (nth 0 (wl_toplevels c) d), (nth 1 (wl_toplevels c) d). split; [exact Ha|]. split; [exact Hb|]. split; [vm_compute; discriminate|].
  refine (@window_handles_distinct poor_digest infinite_memory sample_session c _ _ eq_refl _ Ha Hb).
  apply session_sweeps, reaches_events, session_starts.
Defined.
