(* ===== verification/HyprWindows.v ===== *)
(** * Hyprland's windows (src/wayland/wl_hypr_windows.c)

    What Hyprland says of a window is joined to the toplevel with its identifier: which
    are usable and shown, their flags, the order they are stacked in, their text in a
    list, and the operations on one window, each a sequence of dispatchers.

    An operation takes the toplevel and the state of the requests (Hypr.v), and gives
    whether it was done and what is remembered of the window.

    The theorems: the order is that of the ranks and the list is sorted by it, as a stable
    permutation; the window found at a point is the topmost one there; a window that is
    minimized is put back where it was; a placement that changes nothing sends nothing. *)
From Stdlib Require Import ZArith Lia Strings.Byte Strings.String Sorting.Permutation Sorting.Sorted.
From stdpp Require Import base list option numbers tactics.
From S2P Require Import Prelude.
From S2P Require Import Protocol.
From S2P Require Import Buffer.
From S2P Require Import KwinEnvelope.
From S2P Require Import KwinTranslate.
From S2P Require Import HyprJson.
From S2P Require Import Hypr.
From S2P Require Import Outputs.
From S2P Require Import Toplevels.
Local Open Scope Z_scope.
Local Open Scope ksd_scope.

(** ** What is known of a window *)

Definition KSD_HYPR_MINIMIZED_WORKSPACE : list byte := cstr "special:minimized".
Definition KSD_HYPR_COMMAND_CAPACITY : Z := 256.
Definition KSD_WL_TOPLEVEL_STATE_MAXIMIZED : Z := 1.
Definition KSD_WL_TOPLEVEL_STATE_MINIMIZED : Z := 2.
Definition KSD_WL_TOPLEVEL_STATE_ACTIVATED : Z := 4.

Definition ksd_wayland_hypr_windows_available (c : ksd_wayland) : bool := wl_toplevel_list c && wl_hypr c.

Definition minimized (item : ksd_wl_toplevel) : bool :=
  bytes_eqb (hc_workspace_name (tl_hypr item)) KSD_HYPR_MINIMIZED_WORKSPACE.
Definition shown (item : ksd_wl_toplevel) : bool :=
  tl_known item && hc_mapped (tl_hypr item) && negb (hc_hidden (tl_hypr item)) && hc_visible (tl_hypr item) && negb (minimized item).
Definition usable (item : ksd_wl_toplevel) : bool :=
  tl_handle item && negb (tl_closed item) && bool_decide (is_Some (tl_identifier item)) && tl_known item && hc_mapped (tl_hypr item).
Definition state (item : ksd_wl_toplevel) : Z :=
  Z.lor (if minimized item then KSD_WL_TOPLEVEL_STATE_MINIMIZED else 0)
    (Z.lor (if negb (hc_fullscreen (tl_hypr item) =? 0) then KSD_WL_TOPLEVEL_STATE_MAXIMIZED else 0)
       (if hc_active (tl_hypr item) && shown item then KSD_WL_TOPLEVEL_STATE_ACTIVATED else 0)).

(** ** The order they are stacked in *)

Definition special_name (name : list byte) : bool := bytes_eqb (ztake 8 name) (cstr "special:").
Definition stack_layer (item : ksd_wl_toplevel) : Z :=
  let client := tl_hypr item in
  if hc_pinned client && hc_floating client then 16
  else
    let layer := if special_name (hc_workspace_name client) then 8 else 0 in
    if negb (hc_fullscreen client =? 0) then layer + 4
    else if hc_floating client then layer + (if tl_workspace_fullscreen item && hc_over_fullscreen client then 6 else 2)
    else layer + (if hc_active client then 1 else 0).

Definition stack_compare (a b : ksd_wl_toplevel) : Z :=
  if negb (Bool.eqb (tl_known a) (tl_known b)) then (if tl_known a then 1 else -1)
  else if negb (tl_known a) then 0
  else if negb (Bool.eqb (shown a) (shown b)) then (if shown a then 1 else -1)
  else if negb (stack_layer a =? stack_layer b) then (if stack_layer b <? stack_layer a then 1 else -1)
  else (if hc_stacking_order (tl_hypr b) <? hc_stacking_order (tl_hypr a) then 1 else 0)
       - (if hc_stacking_order (tl_hypr a) <? hc_stacking_order (tl_hypr b) then 1 else 0).

Fixpoint stack_insert (item : ksd_wl_toplevel) (sorted : list ksd_wl_toplevel) : list ksd_wl_toplevel :=
  match sorted with
  | slot :: rest => if stack_compare slot item <=? 0 then slot :: stack_insert item rest else item :: slot :: rest
  | [] => [item]
  end.
Definition sort_items (items : list ksd_wl_toplevel) : list ksd_wl_toplevel :=
  fold_left (fun sorted item => stack_insert item sorted) items [].
Definition sort_by_stack (c : ksd_wayland) : ksd_wayland := with_toplevels (sort_items (wl_toplevels c)) c.

(** A toplevel is told from another by its key. *)
Definition ksd_wayland_hypr_can_restack (c : ksd_wayland) (window : ksd_wl_toplevel) (top : bool) : bool :=
  let client := tl_hypr window in
  if negb (usable window) || negb (shown window) || hc_floating client || negb (hc_fullscreen client =? 0) then true
  else
    negb (existsb (fun other =>
      let o := tl_hypr other in
      negb (tl_key other =? tl_key window) && usable other && shown other && negb (hc_floating o) && (hc_fullscreen o =? 0)
      && (hc_workspace_id o =? hc_workspace_id client) && (if top then hc_active o else hc_active client)) (wl_toplevels c)).

(** ** Joining what Hyprland reports *)

Definition forget_restore (item : ksd_wl_toplevel) : ksd_wl_toplevel :=
  tl_with_restore (mk_restore false (rs_workspace (tl_restore item)) (rs_name (tl_restore item))) item.
Definition workspace_has_fullscreen (clients : list ksd_hypr_client) (workspace : Z) : bool :=
  existsb (fun other => (hc_workspace_id other =? workspace) && hc_mapped other && negb (hc_hidden other) && negb (hc_fullscreen other =? 0)) clients.
Definition update_item (clients : list ksd_hypr_client) (item : ksd_wl_toplevel) : ksd_wl_toplevel :=
  let item := tl_with_workspace_fullscreen false (tl_with_known false item) in
  match tl_handle item, tl_identifier item with
  | true, Some identifier =>
    let item := match List.find (fun client => bytes_eqb (hc_stable_id client) identifier) clients with
      | Some client =>
        tl_with_workspace_fullscreen (workspace_has_fullscreen clients (hc_workspace_id client)) (tl_with_known true (tl_with_hypr client item))
      | None => item
      end in
    if tl_known item && negb (minimized item) then forget_restore item else item
  | _, _ => item
  end.
Definition ksd_wayland_hypr_windows_update (clients : list ksd_hypr_client) (c : ksd_wayland) : ksd_wayland :=
  sort_by_stack (with_ipc false (wl_ipc c) (with_toplevels (map (update_item clients) (wl_toplevels c)) c)).

Section process.
Context (uid session_pid : Z) {AL : Allocator} (world : list (list byte) -> list byte -> exchange).

(** Whether Hyprland answered. *)
Definition ksd_wayland_hypr_windows_refresh (c : ksd_wayland) : bool * ksd_wayland :=
  let '(clients, ipc) := ksd_wayland_hypr_clients uid session_pid world (wl_ipc c) in
  let c := with_ipc (wl_opacity_fresh c) ipc c in
  match clients with Some clients => (true, ksd_wayland_hypr_windows_update clients c) | None => (false, c) end.

(** ** The text of a window *)

Fixpoint assign_opacities (items : list ksd_wl_toplevel) (values : list Z) : list ksd_wl_toplevel :=
  match items with
  | [] => []
  | item :: items =>
    if usable item then
      match values with
      | value :: values => tl_with_opacity value item :: assign_opacities items values
      | [] => item :: items
      end
    else item :: assign_opacities items values
  end.
Definition read_opacities (c : ksd_wayland) : ksd_wayland :=
  if wl_opacity_fresh c then c
  else
    let items := map (tl_with_opacity (-1)) (wl_toplevels c) in
    let addresses := map (fun item => hc_address (tl_hypr item)) (List.filter usable items) in
    let count := zlen addresses in
    if (count =? 0) || negb (alloc_ok (count * 8) && alloc_ok (count * 4)) then with_ipc true (wl_ipc c) (with_toplevels items c)
    else
      let '(values, ipc) := ksd_wayland_hypr_opacities uid session_pid world addresses (wl_ipc c) in
      with_ipc true ipc (with_toplevels (match values with Some values => assign_opacities items values | None => items end) c).

Definition put_json (value : option (list byte)) : bufop := ksd_buffer_json_string (default [] value) false.
Definition append_flag (name : string) (value : bool) : bufop :=
  put_printed 48 (json_text ",'" ++ cstr name ++ json_text "':" ++ truth_text value).
(** [%llu], of an unsigned 64-bit value. *)
Definition window_text (item : ksd_wl_toplevel) : bufop :=
  let client := tl_hypr item in
  let flags := state item in
  let has_pid := 0 <? hc_pid client in
  let frame := rect_text (hc_x client, hc_y client, hc_width client, hc_height client) in
  put_printed 384 (json_text "{'id':'" ++ unsigned_text (tl_id item) ++ json_text "'") ;;;
  put (json_text ",'compositorId':") ;;; put_json (tl_identifier item) ;;;
  put (json_text ",'captureId':") ;;; put_json (tl_identifier item) ;;;
  put (json_text ",'title':") ;;; put_json (tl_title item) ;;;
  put (json_text ",'appId':") ;;; put_json (tl_app_id item) ;;;
  put_printed 384 (json_text ",'frame':" ++ frame ++ json_text ",'client':" ++ frame) ;;;
  (if has_pid then put_printed 384 (json_text ",'pid':" ++ signed_text (hc_pid client)) else nothing) ;;;
  (if 0 <=? tl_opacity item then put_printed 384 (json_text ",'transparency':" ++ signed_text (tl_opacity item)) else nothing) ;;;
  append_flag "active" (negb (Z.land flags KSD_WL_TOPLEVEL_STATE_ACTIVATED =? 0)) ;;;
  append_flag "minimized" (negb (Z.land flags KSD_WL_TOPLEVEL_STATE_MINIMIZED =? 0)) ;;;
  append_flag "maximized" (negb (Z.land flags KSD_WL_TOPLEVEL_STATE_MAXIMIZED =? 0)) ;;;
  append_flag "visible" (negb (hc_hidden client)) ;;;
  append_flag "alwaysOnTop" (hc_floating client) ;;;
  append_flag "onCurrentWorkspace" (hc_visible client || minimized item) ;;;
  put (json_text ",'validFields':['id','compositorId','captureId','title','appId','frame','client','active','minimized','maximized','visible','alwaysOnTop','onCurrentWorkspace'") ;;;
  (if has_pid then put (json_text ",'pid'") else nothing) ;;;
  (if 0 <=? tl_opacity item then put (json_text ",'transparency'") else nothing) ;;;
  put (cstr "]}").

(** The opacities are read into the toplevels first. *)
Definition append_window (item : ksd_wl_toplevel) (c : ksd_wayland) (out : ksd_buffer) : bool * ksd_buffer * ksd_wayland :=
  let c := read_opacities c in
  let item := default item (find_key (tl_key item) (wl_toplevels c)) in
  let '(ok, out) := window_text item out in (ok, out, c).

(** ** Operations on one window *)

Definition winop := ksd_wl_toplevel * hypr_state -> bool * (ksd_wl_toplevel * hypr_state).
Definition both (first second : winop) : winop := fun s =>
  let '(ok, s) := first s in if ok then second s else (false, s).
Definition done_already : winop := fun s => (true, s).
Definition change (f : ksd_wl_toplevel -> ksd_wl_toplevel) : winop := fun '(w, ipc) => (true, (f w, ipc)).

(** Both spellings are printed, then dispatched. *)
Definition command (lua legacy : ksd_wl_toplevel -> list byte) : winop := fun '(w, ipc) =>
  match printed KSD_HYPR_COMMAND_CAPACITY (lua w), printed KSD_HYPR_COMMAND_CAPACITY (legacy w) with
  | Some lua, Some legacy =>
    let '(ok, ipc) := ksd_wayland_hypr_dispatch uid session_pid world (Some lua) (Some legacy) ipc in (ok, (w, ipc))
  | _, _ => (false, (w, ipc))
  end.
(** The text in Lua, with apostrophes, and the address it is about. *)
Definition address (w : ksd_wl_toplevel) : list byte := hc_address (tl_hypr w).
Definition to_window (w : ksd_wl_toplevel) : list byte := cstr "window = 'address:" ++ address w ++ cstr "' })".

Definition focus : winop :=
  command (fun w => cstr "hl.dsp.focus({ " ++ to_window w) (fun w => cstr "focuswindow address:" ++ address w).

Definition set_fullscreen (mode : Z) : winop := fun '(w, ipc) =>
  match printed KSD_HYPR_COMMAND_CAPACITY (cstr "hl.dsp.window.fullscreen_state({ internal = " ++ signed_text mode ++ cstr ", client = "
          ++ signed_text mode ++ cstr ", " ++ to_window w),
        printed KSD_HYPR_COMMAND_CAPACITY (cstr "fullscreenstate " ++ signed_text mode ++ blank ++ signed_text mode) with
  | Some lua, Some legacy =>
    let '(ok, ipc) := ksd_wayland_hypr_dispatch uid session_pid world (Some lua) None ipc in
    if ok then (true, (w, ipc))
    else both focus (fun '(w, ipc) => let '(ok, ipc) := ksd_wayland_hypr_dispatch uid session_pid world None (Some legacy) ipc in (ok, (w, ipc)))
           (w, ipc)
  | _, _ => (false, (w, ipc))
  end.

Definition plain_name_byte (b : byte) : bool :=
  negb ((b2z b <? 0x20) || (b2z b =? 0x27) || (b2z b =? 0x22) || (b2z b =? 0x5c) || (b2z b =? 0x2c)).
Definition workspace_name_valid (name : list byte) : bool :=
  negb (bytes_eqb name []) && negb (special_name name) && forallb plain_name_byte name.

Definition workspace_lua (workspace : Z) (w : ksd_wl_toplevel) : list byte :=
  cstr "hl.dsp.window.move({ workspace = " ++ signed_text workspace ++ cstr ", follow = false, " ++ to_window w.
Definition workspace_legacy (workspace : Z) (w : ksd_wl_toplevel) : list byte :=
  cstr "movetoworkspacesilent " ++ signed_text workspace ++ cstr ",address:" ++ address w.
Definition named_lua (name : list byte) (w : ksd_wl_toplevel) : list byte :=
  cstr "hl.dsp.window.move({ workspace = 'name:" ++ name ++ cstr "', follow = false, " ++ to_window w.
Definition named_legacy (name : list byte) (w : ksd_wl_toplevel) : list byte :=
  cstr "movetoworkspacesilent name:" ++ name ++ cstr ",address:" ++ address w.
Definition to_workspace (workspace : Z) : winop := command (workspace_lua workspace) (workspace_legacy workspace).
Definition to_named_workspace (name : list byte) : winop := command (named_lua name) (named_legacy name).
Definition unminimize : winop := fun '(w, ipc) =>
  if negb (minimized w) then (true, (w, ipc))
  else
    let place := tl_restore w in
    if rs_has place && (0 <? rs_workspace place) then both (to_workspace (rs_workspace place)) (change forget_restore) (w, ipc)
    else if rs_has place && workspace_name_valid (rs_name place) then both (to_named_workspace (rs_name place)) (change forget_restore) (w, ipc)
    else
      let '(workspace, ipc) := ksd_wayland_hypr_active_workspace uid session_pid world ipc in
      match workspace with
      | Some workspace => if 0 <? workspace then both (to_workspace workspace) (change forget_restore) (w, ipc) else (false, (w, ipc))
      | None => (false, (w, ipc))
      end.

Definition remember_place (w : ksd_wl_toplevel) : ksd_wl_toplevel :=
  let client := tl_hypr w in
  tl_with_restore (mk_restore (negb (special_name (hc_workspace_name client))) (hc_workspace_id client) (hc_workspace_name client)) w.
Definition minimize_lua (w : ksd_wl_toplevel) : list byte :=
  cstr "hl.dsp.window.move({ workspace = '" ++ KSD_HYPR_MINIMIZED_WORKSPACE ++ cstr "', follow = false, " ++ to_window w.
Definition minimize_legacy (w : ksd_wl_toplevel) : list byte :=
  cstr "movetoworkspacesilent " ++ KSD_HYPR_MINIMIZED_WORKSPACE ++ cstr ",address:" ++ address w.
Definition minimize : winop := fun '(w, ipc) =>
  if minimized w then (true, (w, ipc))
  else
    match printed KSD_HYPR_COMMAND_CAPACITY (minimize_lua w), printed KSD_HYPR_COMMAND_CAPACITY (minimize_legacy w) with
    | Some lua, Some legacy =>
      let w := remember_place w in
      let '(ok, ipc) := ksd_wayland_hypr_dispatch uid session_pid world (Some lua) (Some legacy) ipc in
      if ok then (true, (w, ipc)) else (false, (forget_restore w, ipc))
    | _, _ => (false, (w, ipc))
    end.

Definition set_state (value : Z) : winop :=
  if value =? 1 then minimize
  else if value =? 2 then
    both unminimize (fun '(w, ipc) => (if negb (hc_fullscreen (tl_hypr w) =? 0) then done_already else set_fullscreen 1) (w, ipc))
  else if value =? 3 then unminimize
  else both unminimize (fun '(w, ipc) => (if hc_fullscreen (tl_hypr w) =? 0 then done_already else set_fullscreen 0) (w, ipc)).

Definition restack (top : bool) : winop :=
  let mode := cstr (if top then "top" else "bottom") in
  command (fun w => cstr "hl.dsp.window.alter_zorder({ mode = '" ++ mode ++ cstr "', " ++ to_window w)
    (fun w => cstr "alterzorder " ++ mode ++ cstr ",address:" ++ address w).

Definition float_lua (above : bool) (w : ksd_wl_toplevel) : list byte :=
  cstr "hl.dsp.window.float({ action = '" ++ cstr (if above then "enable" else "disable") ++ cstr "', " ++ to_window w.
Definition float_legacy (above : bool) (w : ksd_wl_toplevel) : list byte :=
  cstr (if above then "setfloating" else "settiled") ++ cstr " address:" ++ address w.
Definition set_above (above : bool) : winop :=
  both (command (float_lua above) (float_legacy above))
    (both (change (fun w => tl_with_hypr (set_floating above (tl_hypr w)) w))
       (if above then restack true else done_already)).

Definition close_window : winop :=
  command (fun w => cstr "hl.dsp.window.close({ " ++ to_window w) (fun w => cstr "closewindow address:" ++ address w).

Definition set_prop (prop value : list byte) : winop :=
  command (fun w => cstr "hl.dsp.window.set_prop({ prop = '" ++ prop ++ cstr "', value = '" ++ value ++ cstr "', " ++ to_window w)
    (fun w => cstr "setprop address:" ++ address w ++ blank ++ prop ++ blank ++ value).
Definition opacity_props : list (list byte * list byte) :=
  [(cstr "opacity", cstr "opacity_override"); (cstr "opacity_inactive", cstr "opacity_inactive_override");
   (cstr "opacity_fullscreen", cstr "opacity_fullscreen_override")].
Definition set_opacity (opacity : Z) : winop := fun s =>
  match ksd_wayland_hypr_opacity_text opacity 32 with
  | None => (false, s)
  | Some value =>
    let override := cstr (if opacity <? 255 then "1" else "0") in
    both (foldr (fun props next => both (set_prop (fst props) value) (both (set_prop (snd props) override) next)) done_already opacity_props)
      (fun '(w, ipc) =>
         let '(applied, ipc) := ksd_wayland_hypr_opacities uid session_pid world [address w] ipc in
         match applied with
         | Some [applied] => if applied =? opacity then (true, (tl_with_opacity applied w, ipc)) else (false, (w, ipc))
         | _ => (false, (w, ipc))
         end) s
  end.

(** ** Its process *)

Definition still_owner (stable_id : list byte) (pid : Z) (ipc : hypr_state) : bool * hypr_state :=
  let '(clients, ipc) := ksd_wayland_hypr_clients uid session_pid world ipc in
  (existsb (fun client => (hc_pid client =? pid) && hc_mapped client && bytes_eqb (hc_stable_id client) stable_id) (default [] clients), ipc).
Definition asks (e : kill_event) : bool := match e with OwnerAsked _ _ => true | _ => false end.
(** The answer counts when it is asked for. *)
Definition kill_owner (self : Z) (opened sent : option Z) (w : ksd_wl_toplevel) (ipc : hypr_state) : Z * list kill_event * hypr_state :=
  let pid := hc_pid (tl_hypr w) in
  if (pid <=? 1) || (INT32_MAX <? pid) then (KSD_STATUS_UNAVAILABLE, [], ipc)
  else
    let '(owner, asked) := still_owner (hc_stable_id (tl_hypr w)) pid ipc in
    let '(status, events) := ksd_wayland_hypr_signal_owner self pid (Some owner) opened sent in
    (status, events, if existsb asks events then asked else ipc).

(** ** Placing it *)

Definition resize_lua (width height : Z) (w : ksd_wl_toplevel) : list byte :=
  cstr "hl.dsp.window.resize({ x = " ++ unsigned_text width ++ cstr ", y = " ++ unsigned_text height ++ cstr ", " ++ to_window w.
Definition move_lua (x y : Z) (w : ksd_wl_toplevel) : list byte :=
  cstr "hl.dsp.window.move({ x = " ++ signed_text x ++ cstr ", y = " ++ signed_text y ++ cstr ", " ++ to_window w.
Definition resize_legacy (width height : Z) (w : ksd_wl_toplevel) : list byte :=
  cstr "resizewindowpixel exact " ++ unsigned_text width ++ blank ++ unsigned_text height ++ cstr ",address:" ++ address w.
Definition move_legacy (x y : Z) (w : ksd_wl_toplevel) : list byte :=
  cstr "movewindowpixel exact " ++ signed_text x ++ blank ++ signed_text y ++ cstr ",address:" ++ address w.
(** INT32_MIN and 0 keep what the window has. *)
Definition place_window (x y width height : Z) : winop := fun '(w, ipc) =>
  let current := tl_hypr w in
  let target_x := if x =? INT32_MIN then hc_x current else x in
  let target_y := if y =? INT32_MIN then hc_y current else y in
  let target_width := if width =? 0 then u32 (hc_width current) else width in
  let target_height := if height =? 0 then u32 (hc_height current) else height in
  let exact := hc_fullscreen current =? 0 in
  let floated := negb (hc_floating current) in
  let resize := floated || (if exact then negb (target_width =? u32 (hc_width current)) || negb (target_height =? u32 (hc_height current))
                            else negb (width =? 0) || negb (height =? 0)) in
  let moves := resize || (if exact then negb (target_x =? hc_x current) || negb (target_y =? hc_y current)
                          else negb (x =? INT32_MIN) || negb (y =? INT32_MIN)) in
  both (if exact then done_already else set_fullscreen 0)
    (both (if floated then command (float_lua true) (float_legacy true) else done_already)
       (both (if resize then command (resize_lua target_width target_height) (resize_legacy target_width target_height) else done_already)
          (if moves then command (move_lua target_x target_y) (move_legacy target_x target_y) else done_already))) (w, ipc).

(** ** At a point *)

Definition covers (x y : Z) (item : ksd_wl_toplevel) : bool :=
  let client := tl_hypr item in
  usable item && shown item && (hc_x client <=? x) && (hc_y client <=? y) && (x <? hc_x client + hc_width client)
  && (y <? hc_y client + hc_height client).
Definition window_at (x y : Z) (c : ksd_wayland) : option ksd_wl_toplevel :=
  fold_left (fun found item => if covers x y item then Some item else found) (wl_toplevels c) None.
End process.

(** ** The order is total and the sort is stable *)

Definition stack_le (a b : ksd_wl_toplevel) : Prop := stack_compare a b <= 0.
(** The windows that rank with one of them. *)
Definition ranks_with (a b : ksd_wl_toplevel) : bool := stack_compare a b =? 0.

(** Known before unknown, then shown, then the layer, then Hyprland's own order. *)
Definition stack_rank (item : ksd_wl_toplevel) : Z * Z * Z * Z :=
  if tl_known item then (1, Z.b2z (shown item), stack_layer item, hc_stacking_order (tl_hypr item)) else (0, 0, 0, 0).
Definition rank_lt (a b : Z * Z * Z * Z) : Prop :=
  let '(k, s, l, o) := a in let '(k', s', l', o') := b in
  k < k' \/ (k = k' /\ (s < s' \/ (s = s' /\ (l < l' \/ (l = l' /\ o < o'))))).

Lemma shown_known item : tl_known item = false -> shown item = false.
Proof. intros H. unfold shown. by rewrite H. Qed.

(** The comparison is that of the ranks. *)
Lemma stack_compare_rank a b :
  (stack_compare a b < 0 <-> rank_lt (stack_rank a) (stack_rank b)) /\ (stack_compare a b = 0 <-> stack_rank a = stack_rank b).
Proof.
  unfold stack_compare, stack_rank, rank_lt.
  destruct (tl_known a), (tl_known b), (shown a), (shown b); cbn [Bool.eqb negb Z.b2z]; rewrite !pair_equal_spec;
    repeat case_if; breflect; lia.
Qed.

Lemma rank_le_total r s : rank_lt r s \/ r = s \/ rank_lt s r.
Proof. destruct r as [[[k s1] l] o], s as [[[k' s2] l'] o']. unfold rank_lt. rewrite !pair_equal_spec. lia. Qed.
Lemma rank_lt_irrefl r : ~ rank_lt r r.
Proof. destruct r as [[[k s1] l] o]. unfold rank_lt. lia. Qed.
Lemma rank_lt_trans r s t : rank_lt r s -> rank_lt s t -> rank_lt r t.
Proof. destruct r as [[[k s1] l] o], s as [[[k' s2] l'] o'], t as [[[k'' s3] l''] o'']. unfold rank_lt. lia. Qed.

Lemma stack_le_rank a b : stack_le a b <-> rank_lt (stack_rank a) (stack_rank b) \/ stack_rank a = stack_rank b.
Proof. unfold stack_le. destruct (stack_compare_rank a b) as [<- <-]. lia. Qed.
Lemma ranks_with_rank a b : ranks_with a b = true <-> stack_rank a = stack_rank b.
Proof. unfold ranks_with. rewrite Z.eqb_eq. apply stack_compare_rank. Qed.

Lemma stack_le_trans a b c : stack_le a b -> stack_le b c -> stack_le a c.
Proof.
  rewrite !stack_le_rank. intros [H|H] [H'|H']; [left; by eapply rank_lt_trans|rewrite <- H'; by left|rewrite H; by left|right; congruence].
Qed.
Lemma stack_gt a b : ~ stack_le a b -> stack_le b a /\ ranks_with a b = false.
Proof.
  intros H. destruct (ranks_with a b) eqn:E; [apply ranks_with_rank in E; exfalso; apply H, stack_le_rank; by right|].
  split; [|done]. rewrite stack_le_rank in *. destruct (rank_le_total (stack_rank a) (stack_rank b)) as [?|[?|?]]; [tauto|tauto|by left].
Qed.

Lemma stack_insert_perm item sorted : Permutation (item :: sorted) (stack_insert item sorted).
Proof.
  induction sorted as [|slot rest IH]; [done|]. cbn [stack_insert]. case_if; [|done].
  eapply perm_trans; [apply perm_swap|]. by apply perm_skip.
Qed.

Lemma stack_insert_sorted item sorted : StronglySorted stack_le sorted -> StronglySorted stack_le (stack_insert item sorted).
Proof.
  induction 1 as [|slot rest Hs IH Hall]; cbn [stack_insert]; [by repeat constructor|]. destruct (Z.leb_spec (stack_compare slot item) 0) as [H|H].
  - constructor; [done|]. apply List.Forall_forall. intros x Hx. rewrite List.Forall_forall in Hall.
    apply (Permutation_in _ (Permutation_sym (stack_insert_perm item rest))) in Hx as [<-|Hx]; [exact H|by apply Hall].
  - assert (Hn : ~ stack_le slot item) by (unfold stack_le; lia). apply stack_gt in Hn as [Hn _].
    constructor; [by constructor|]. constructor; [done|]. eapply Forall_impl; [|exact Hall]. intros x Hx. by eapply stack_le_trans.
Qed.

Lemma list_filter_none {A} (p : A -> bool) l : (forall x, In x l -> p x = false) -> List.filter p l = [].
Proof. induction l as [|x l IH]; intros H; [done|]. cbn. rewrite (H x (or_introl eq_refl)). apply IH. intros y Hy. apply H. by right. Qed.

(** An item goes behind those that rank with it. *)
Lemma stack_insert_stable p item sorted :
  (forall a b, p a = true -> p b = true -> stack_rank a = stack_rank b) ->
  StronglySorted stack_le sorted -> List.filter p (stack_insert item sorted) = List.filter p sorted ++ List.filter p [item].
Proof.
  intros Hp. induction 1 as [|slot rest Hs IH Hall]; [done|]. cbn [stack_insert].
  destruct (Z.leb_spec (stack_compare slot item) 0) as [H|H].
  - cbn [List.filter]. rewrite IH. by destruct (p slot).
  - assert (Hn : ~ stack_le slot item) by (unfold stack_le; lia). cbn [List.filter]. destruct (p item) eqn:Ei; [|by rewrite app_nil_r].
    assert (Hnone : forall x, In x (slot :: rest) -> p x = false).
    { intros x Hx. destruct (p x) eqn:Ex; [|done]. exfalso. apply Hn. apply (stack_le_trans _ x).
      - destruct Hx as [<-|Hx]; [apply stack_le_rank; by right|]. rewrite List.Forall_forall in Hall. by apply Hall.
      - apply stack_le_rank. right. by apply Hp. }
    rewrite (Hnone slot (or_introl eq_refl)).
    replace (List.filter p rest) with (@nil ksd_wl_toplevel); [done|]. symmetry. apply list_filter_none.
    intros x Hx. apply Hnone. by right.
Qed.

Lemma sort_items_spec items : forall sorted, StronglySorted stack_le sorted ->
  let out := fold_left (fun sorted item => stack_insert item sorted) items sorted in
  StronglySorted stack_le out /\ Permutation (sorted ++ items) out /\
  forall p, (forall a b, p a = true -> p b = true -> stack_rank a = stack_rank b) -> List.filter p out = List.filter p (sorted ++ items).
Proof.
  induction items as [|item items IH]; intros sorted Hs; [cbn; by rewrite app_nil_r|]. cbn [fold_left].
  destruct (IH (stack_insert item sorted)) as (H1 & H2 & H3); [by apply stack_insert_sorted|]. split; [done|]. split.
  - eapply perm_trans; [|exact H2]. rewrite <- stack_insert_perm. by rewrite <- Permutation_middle.
  - intros p Hp. rewrite (H3 p Hp), !List.filter_app, (stack_insert_stable p item sorted Hp Hs). cbn [List.filter].
    destruct (p item); by rewrite <- app_assoc.
Qed.

(** after a refresh the list is what Hyprland reported, joined to the toplevels and
    put in order: every toplevel is there once, none is before one that ranks below it,
    and those that rank the same are in the order they had; a window ranks by being
    known, then shown, then by its layer, then by Hyprland's own order. *)
Theorem hypr_stack_sorted clients c :
  let joined := map (update_item clients) (wl_toplevels c) in
  let stacked := wl_toplevels (ksd_wayland_hypr_windows_update clients c) in
  Permutation joined stacked /\
  StronglySorted (fun a b => rank_lt (stack_rank a) (stack_rank b) \/ stack_rank a = stack_rank b) stacked /\
  (forall item, List.filter (ranks_with item) stacked = List.filter (ranks_with item) joined).
Proof.
  intros joined stacked. destruct (sort_items_spec joined [] ltac:(constructor)) as (H1 & H2 & H3). split; [exact H2|]. split.
  - change stacked with (sort_items joined). unfold sort_items. clear H2 H3. induction H1 as [|a l Hl IH Hall]; [constructor|].
    constructor; [done|]. eapply Forall_impl; [|exact Hall]. intros b. apply stack_le_rank.
  - intros item. apply H3. intros a b Ha Hb. apply ranks_with_rank in Ha, Hb. congruence.
Qed.

(** ** The topmost window *)

Lemma window_at_last x y items : forall found,
  fold_left (fun found item => if covers x y item then Some item else found) items found
  = match list.last (List.filter (covers x y) items) with Some w => Some w | None => found end.
Proof.
  induction items as [|item items IH]; intros found; [done|]. cbn [fold_left List.filter]. rewrite IH.
  destruct (covers x y item); [|done]. rewrite last_cons. by destruct (list.last _).
Qed.

Lemma sorted_last_top l w : StronglySorted stack_le l -> list.last l = Some w -> forall o, In o l -> stack_le o w.
Proof.
  induction 1 as [|a l Hl IH Hall]; [done|]. rewrite last_cons. destruct (list.last l) as [z|] eqn:E.
  - intros [= ->] o [->|Ho]; [|by apply IH]. rewrite List.Forall_forall in Hall. apply Hall. apply list_elem_of_In. by apply last_Some_elem_of.
  - intros [= ->] o [->|Ho]; [apply stack_le_rank; by right|]. apply last_None in E. by rewrite E in Ho.
Qed.

Lemma sorted_filter p l : StronglySorted stack_le l -> StronglySorted stack_le (List.filter p l).
Proof.
  induction 1 as [|a l Hl IH Hall]; [constructor|]. cbn. destruct (p a); [|done]. constructor; [done|].
  apply incl_Forall with (2 := Hall), incl_filter.
Qed.

(** the window at a point is one that is there and on screen, and nothing that is
    there too is stacked above it; when none is found, no window on screen covers the
    point.  Coordinates are added without wrapping. *)
Theorem hypr_point_topmost clients c x y :
  let stacked := wl_toplevels (ksd_wayland_hypr_windows_update clients c) in
  match window_at x y (ksd_wayland_hypr_windows_update clients c) with
  | Some found =>
    In found stacked /\ covers x y found = true /\
    forall other, In other stacked -> covers x y other = true -> ~ rank_lt (stack_rank found) (stack_rank other)
  | None => forall other, In other stacked -> covers x y other = false
  end.
Proof.
  intros stacked. unfold window_at. fold stacked. rewrite window_at_last.
  destruct (sort_items_spec (map (update_item clients) (wl_toplevels c)) [] ltac:(constructor)) as (Hsorted & _ & _).
  assert (Hs : StronglySorted stack_le (List.filter (covers x y) stacked)) by by apply sorted_filter. clear Hsorted.
  destruct (list.last (List.filter (covers x y) stacked)) as [w|] eqn:E.
  - assert (Hin : In w (List.filter (covers x y) stacked)) by by apply list_elem_of_In, last_Some_elem_of.
    apply filter_In in Hin as [Hin Hw]. split; [done|]. split; [done|]. intros o Ho Hc Hlt.
    assert (Hle : stack_le o w) by (apply (sorted_last_top _ w Hs E); by apply filter_In).
    apply stack_le_rank in Hle as [Hle|Hle]; [|rewrite Hle in Hlt; by apply rank_lt_irrefl in Hlt].
    by apply (rank_lt_irrefl (stack_rank w)), (rank_lt_trans _ (stack_rank o)).
  - apply last_None in E. intros o Ho. destruct (covers x y o) eqn:Ec; [|done].
    assert (Hin : In o (List.filter (covers x y) stacked)) by by apply filter_In. by rewrite E in Hin.
Qed.

(** ** Operations a compositor carries out *)

Section carried.
Context (uid session_pid : Z) {AL : Allocator} (world : list (list byte) -> list byte -> exchange) (legacy : bool).

Lemma signed_length v : is_i64 v -> zlen (signed_text v) <= 21.
Proof.
  intros Hv. unfold is_i64, LLONG_MIN, LLONG_MAX in Hv. unfold signed_text. case_if; rewrite ?zlen_app; change (zlen (cstr "-")) with 1.
  - breflect. destruct (unsigned_digits (- v)) as (_ & _ & Hl); [unfold is_u64; lia|lia].
  - breflect. destruct (unsigned_digits v) as (_ & _ & Hl); [unfold is_u64; lia|lia].
Qed.

(** A command in the spelling the compositor speaks is one request. *)
Lemma command_known lua classic w ipc : hy_prefers_legacy ipc = legacy ->
  zlen (lua w) < 256 -> zlen (classic w) < 256 -> speaks uid session_pid world legacy (lua w, classic w) ->
  command uid session_pid world lua classic (w, ipc)
  = (true, (w, mk_hypr legacy (hy_requests ipc ++ [dispatch_command (spelling legacy (lua w, classic w))]))).
Proof.
  intros Hp Hl Hc Hs. unfold command, printed, KSD_HYPR_COMMAND_CAPACITY. apply Z.ltb_lt in Hl, Hc. rewrite Hl, Hc.
  pose proof (dispatch_known uid session_pid world legacy [(lua w, classic w)] ltac:(by constructor) ipc Hp) as H.
  cbn [dispatch_all fst snd] in H. destruct (ksd_wayland_hypr_dispatch _ _ _ _ _ _) as [ok ipc']. cbn [map] in H. by injection H as -> ->.
Qed.

Ltac lengths := rewrite ?zlen_app; repeat match goal with |- context [zlen (cstr ?s)] =>
  let n := eval vm_compute in (zlen (cstr s)) in change (zlen (cstr s)) with n end.

(** Where a window is put back: its workspace by number, or by name. *)
Definition home (w : ksd_wl_toplevel) : spellings :=
  let client := tl_hypr w in
  if 0 <? hc_workspace_id client then (workspace_lua (hc_workspace_id client) w, workspace_legacy (hc_workspace_id client) w)
  else (named_lua (hc_workspace_name client) w, named_legacy (hc_workspace_name client) w).
Definition away (w : ksd_wl_toplevel) : spellings := (minimize_lua w, minimize_legacy w).

Lemma address_length w : client_wf (tl_hypr w) -> zlen (address w) < 32.
Proof. intros [Hm _]. unfold members_wf, fits, KSD_HYPR_ID_CAPACITY in Hm. unfold address. lia. Qed.

(** a window that is minimized and then restored is put back on the workspace it
    was on: after Hyprland has reported it parked, whatever else it reports of it, the
    second request names the workspace by its number when it has one and by its name
    when not; no more than these two requests are made, and the place is forgotten. *)
Theorem hypr_minimize_restores w ipc clients client identifier :
  hy_prefers_legacy ipc = legacy -> client_wf (tl_hypr w) -> minimized w = false -> special_name (hc_workspace_name (tl_hypr w)) = false ->
  0 < hc_workspace_id (tl_hypr w) \/ workspace_name_valid (hc_workspace_name (tl_hypr w)) = true ->
  tl_handle w = true -> tl_identifier w = Some identifier ->
  List.find (fun client => bytes_eqb (hc_stable_id client) identifier) clients = Some client ->
  hc_workspace_name client = KSD_HYPR_MINIMIZED_WORKSPACE -> hc_address client = address w ->
  speaks uid session_pid world legacy (away w) -> speaks uid session_pid world legacy (home w) ->
  exists parked restored,
    minimize uid session_pid world (w, ipc)
    = (true, (parked, mk_hypr legacy (hy_requests ipc ++ [dispatch_command (spelling legacy (away w))]))) /\
    unminimize uid session_pid world (update_item clients parked, mk_hypr legacy (hy_requests ipc ++ [dispatch_command (spelling legacy (away w))]))
    = (true, (restored, mk_hypr legacy (hy_requests ipc ++ [dispatch_command (spelling legacy (away w)); dispatch_command (spelling legacy (home w))]))) /\
    rs_has (tl_restore restored) = false.
Proof.
  intros Hp Hwf Hm Hsp Hplace Hh Hi Hfind Hname Haddr Haway Hhome. pose proof (address_length w Hwf) as Ha.
  exists (remember_place w).
  assert (Hmin : minimize uid session_pid world (w, ipc)
    = (true, (remember_place w, mk_hypr legacy (hy_requests ipc ++ [dispatch_command (spelling legacy (away w))])))).
  { assert (Hl : zlen (minimize_lua w) < 256) by (unfold minimize_lua, to_window, KSD_HYPR_MINIMIZED_WORKSPACE; lengths; lia).
    assert (Hc : zlen (minimize_legacy w) < 256) by (unfold minimize_legacy, KSD_HYPR_MINIMIZED_WORKSPACE; lengths; lia).
    pose proof (command_known minimize_lua minimize_legacy w ipc Hp Hl Hc Haway) as H. unfold command in H. unfold minimize. rewrite Hm.
    destruct (printed _ (minimize_lua w)) as [lua|]; [|done]. destruct (printed _ (minimize_legacy w)) as [classic|]; [|done].
    destruct (ksd_wayland_hypr_dispatch _ _ _ _ _ _) as [ok ipc']. by injection H as -> ->. }
  set (item := update_item clients (remember_place w)).
  assert (Hitem : tl_restore item = tl_restore (remember_place w) /\ minimized item = true /\ address item = address w).
  { unfold item, update_item. cbn [tl_handle tl_with_workspace_fullscreen tl_with_known remember_place tl_with_restore tl_identifier].
    rewrite Hh, Hi, Hfind. set (joined := tl_with_workspace_fullscreen _ _).
    assert (Hj : minimized joined = true) by (unfold joined, minimized; cbn; rewrite Hname; reflexivity).
    rewrite Hj, andb_false_r. split; [done|]. split; [exact Hj|]. exact Haddr. }
  destruct Hitem as (Hr & Hmi & Hadr). exists (forget_restore item).
  split; [exact Hmin|]. split; [|done]. unfold unminimize. rewrite Hmi. cbn [negb]. rewrite Hr. cbn [remember_place tl_with_restore tl_restore rs_has rs_workspace rs_name].
  rewrite Hsp. cbn [negb andb]. unfold home in *.
  change [dispatch_command (spelling legacy (away w)); ?b] with ([dispatch_command (spelling legacy (away w))] ++ [b]).
  destruct Hwf as [(_ & _ & [Hname63 _] & Hid & _) _].
  destruct (Z.ltb_spec 0 (hc_workspace_id (tl_hypr w))) as [Hn|Hn].
  - pose proof (signed_length _ Hid) as Hs.
    assert (El : workspace_lua (hc_workspace_id (tl_hypr w)) item = workspace_lua (hc_workspace_id (tl_hypr w)) w) by (unfold workspace_lua, to_window; by rewrite Hadr).
    assert (Ec : workspace_legacy (hc_workspace_id (tl_hypr w)) item = workspace_legacy (hc_workspace_id (tl_hypr w)) w) by (unfold workspace_legacy; by rewrite Hadr).
    unfold both, to_workspace. rewrite command_known; rewrite ?El, ?Ec; [cbn [change hy_requests]; by rewrite app_assoc|done| | |done].
    + unfold workspace_lua, to_window. lengths. lia.
    + unfold workspace_legacy. lengths. lia.
  - destruct Hplace as [?|Hv]; [lia|]. rewrite Hv.
    assert (El : named_lua (hc_workspace_name (tl_hypr w)) item = named_lua (hc_workspace_name (tl_hypr w)) w) by (unfold named_lua, to_window; by rewrite Hadr).
    assert (Ec : named_legacy (hc_workspace_name (tl_hypr w)) item = named_legacy (hc_workspace_name (tl_hypr w)) w) by (unfold named_legacy; by rewrite Hadr).
    unfold KSD_HYPR_WORKSPACE_CAPACITY in Hname63.
    unfold both, to_named_workspace. rewrite command_known; rewrite ?El, ?Ec; [cbn [change hy_requests]; by rewrite app_assoc|done| | |done].
    + unfold named_lua, to_window. lengths. lia.
    + unfold named_legacy. lengths. lia.
Qed.

(** *** Placing *)

Inductive place_step := StepFloat | StepResize (width height : Z) | StepMove (x y : Z).
Definition step_spelling (w : ksd_wl_toplevel) (step : place_step) : spellings :=
  match step with
  | StepFloat => (float_lua true w, float_legacy true w)
  | StepResize width height => (resize_lua width height w, resize_legacy width height w)
  | StepMove x y => (move_lua x y w, move_legacy x y w)
  end.
(** Where a window is and whether it floats, after a step: a window that is resized or
    starts to float goes wherever the compositor puts it. *)
Record placed := mk_placed { pl_x : Z; pl_y : Z; pl_width : Z; pl_height : Z; pl_floating : bool }.
Definition place_effect (floats : placed -> placed) (corner : placed -> Z -> Z -> Z * Z) (p : placed) (step : place_step) : placed :=
  match step with
  | StepFloat => mk_placed (pl_x (floats p)) (pl_y (floats p)) (pl_width (floats p)) (pl_height (floats p)) true
  | StepResize width height => mk_placed (fst (corner p width height)) (snd (corner p width height)) width height (pl_floating p)
  | StepMove x y => mk_placed x y (pl_width p) (pl_height p) (pl_floating p)
  end.
Definition placed_now (w : ksd_wl_toplevel) : placed :=
  let c := tl_hypr w in mk_placed (hc_x c) (hc_y c) (u32 (hc_width c)) (u32 (hc_height c)) (hc_floating c).
(** What is asked for: [INT32_MIN] and 0 keep what the window has. *)
Definition place_target (w : ksd_wl_toplevel) (x y width height : Z) : placed :=
  let c := tl_hypr w in
  mk_placed (if x =? INT32_MIN then hc_x c else x) (if y =? INT32_MIN then hc_y c else y)
    (if width =? 0 then u32 (hc_width c) else width) (if height =? 0 then u32 (hc_height c) else height) true.

Lemma step_command w step lua classic ipc : client_wf (tl_hypr w) -> hy_prefers_legacy ipc = legacy ->
  (match step with StepFloat => True | StepResize width height => is_u32 width /\ is_u32 height | StepMove x y => is_i32 x /\ is_i32 y end) ->
  (lua w, classic w) = step_spelling w step -> speaks uid session_pid world legacy (step_spelling w step) ->
  command uid session_pid world lua classic (w, ipc)
  = (true, (w, mk_hypr legacy (hy_requests ipc ++ [dispatch_command (spelling legacy (step_spelling w step))]))).
Proof.
  intros Hwf Hp Hb He Hs. pose proof (address_length w Hwf) as Ha. rewrite <- He in *. apply command_known; [done| | |done].
  - assert (El : lua w = fst (step_spelling w step)) by by rewrite <- He. rewrite El.
    destruct step as [|width height|x y]; cbn [step_spelling fst]; [unfold float_lua, to_window; lengths; lia| |].
    + destruct (unsigned_digits width) as (_ & _ & H1); [unfold is_u32, is_u64 in *; lia|].
      destruct (unsigned_digits height) as (_ & _ & H2); [unfold is_u32, is_u64 in *; lia|]. unfold resize_lua, to_window. lengths. lia.
    + pose proof (signed_length x) as H1. pose proof (signed_length y) as H2. unfold is_i32, is_i64, LLONG_MIN, LLONG_MAX in *.
      unfold move_lua, to_window. lengths. lia.
  - assert (Ec : classic w = snd (step_spelling w step)) by by rewrite <- He. rewrite Ec.
    destruct step as [|width height|x y]; cbn [step_spelling snd]; [unfold float_legacy; lengths; lia| |].
    + destruct (unsigned_digits width) as (_ & _ & H1); [unfold is_u32, is_u64 in *; lia|].
      destruct (unsigned_digits height) as (_ & _ & H2); [unfold is_u32, is_u64 in *; lia|]. unfold resize_legacy, blank. lengths. lia.
    + pose proof (signed_length x) as H1. pose proof (signed_length y) as H2. unfold is_i32, is_i64, LLONG_MIN, LLONG_MAX in *.
      unfold move_legacy, blank. lengths. lia.
Qed.

(** a window that is not full screen is placed where it was asked to be, from
    wherever it is and wherever the compositor puts a window that starts to float or is
    resized: the steps sent end at the box asked for, floating; and a window that floats
    there already is sent nothing. *)
Theorem hypr_place_lands floats corner w ipc x y width height :
  hy_prefers_legacy ipc = legacy -> client_wf (tl_hypr w) -> hc_fullscreen (tl_hypr w) = 0 ->
  is_i32 x -> is_i32 y -> is_u32 width -> is_u32 height ->
  let target := place_target w x y width height in
  Forall (fun step => speaks uid session_pid world legacy (step_spelling w step))
    [StepFloat; StepResize (pl_width target) (pl_height target); StepMove (pl_x target) (pl_y target)] ->
  exists steps,
    place_window uid session_pid world x y width height (w, ipc)
    = (true, (w, mk_hypr legacy (hy_requests ipc ++ map (fun step => dispatch_command (spelling legacy (step_spelling w step))) steps))) /\
    fold_left (place_effect floats corner) steps (placed_now w) = target /\
    (placed_now w = target -> steps = []).
Proof.
  intros Hp Hwf Hfs Hx Hy Hwd Hht target Hs. unfold target, place_target in *. clear target. cbn [pl_x pl_y pl_width pl_height] in Hs. unfold place_window. rewrite Hfs. cbn [Z.eqb].
  set (tx := if x =? INT32_MIN then _ else _). set (ty := if y =? INT32_MIN then _ else _).
  set (tw := if width =? 0 then _ else _). set (th := if height =? 0 then _ else _).
  assert (Hb : is_i32 tx /\ is_i32 ty /\ is_u32 tw /\ is_u32 th).
  { destruct Hwf as [(_ & _ & _ & _ & _ & ? & ? & _) _]. pose proof (Z.mod_pos_bound (hc_width (tl_hypr w)) (2 ^ 32) ltac:(lia)).
    pose proof (Z.mod_pos_bound (hc_height (tl_hypr w)) (2 ^ 32) ltac:(lia)). unfold tx, ty, tw, th, is_u32, is_i32, u32 in *. clear Hs. repeat case_if; breflect; lia. }
  destruct Hb as (Htx & Hty & Htw & Hth). fold tx ty tw th in Hs. unfold placed_now. apply Forall_cons_1 in Hs as [Hs1 Hs].
  apply Forall_cons_1 in Hs as [Hs2 Hs]. apply Forall_cons_1 in Hs as [Hs3 _].
  set (resize := _ || _). set (moves := resize || _). unfold both at 1. cbn [done_already].
  exists ((if hc_floating (tl_hypr w) then [] else [StepFloat]) ++ (if resize then [StepResize tw th] else [])
          ++ (if moves then [StepMove tx ty] else [])).
  assert (Hsend : forall (go : bool) step lua classic next out ipc, hy_prefers_legacy ipc = legacy ->
      (match step with StepFloat => True | StepResize width height => is_u32 width /\ is_u32 height | StepMove x y => is_i32 x /\ is_i32 y end) ->
      (lua w, classic w) = step_spelling w step -> speaks uid session_pid world legacy (step_spelling w step) ->
      (forall ipc', hy_prefers_legacy ipc' = legacy ->
         hy_requests ipc' = hy_requests ipc ++ (if go then [dispatch_command (spelling legacy (step_spelling w step))] else []) -> next (w, ipc') = out) ->
      both (if go then command uid session_pid world lua classic else done_already) next (w, ipc) = out).
  { intros go step lua classic next out ipc0 Hp0 Hb He Hs Hn. unfold both. destruct go.
    - rewrite (step_command w step lua classic ipc0 Hwf Hp0 Hb He Hs). by apply Hn.
    - apply Hn; [done|]. by rewrite app_nil_r. }
  split; [|split].
  - apply (Hsend _ StepFloat); [done..|]. intros ipc1 Hp1 Hr1. apply (Hsend _ (StepResize tw th)); [done..|]. intros ipc2 Hp2 Hr2.
    destruct moves.
    + rewrite (step_command w (StepMove tx ty) _ _ ipc2 Hwf Hp2 (conj Htx Hty) eq_refl Hs3), Hr2, Hr1.
      f_equal. f_equal. f_equal. rewrite <- !app_assoc. f_equal. by destruct (hc_floating (tl_hypr w)), resize.
    + unfold done_already. destruct ipc2 as [pl rq]. cbn [hy_prefers_legacy hy_requests] in *. subst pl rq. rewrite Hr1.
      f_equal. f_equal. f_equal. rewrite <- !app_assoc. f_equal. by destruct (hc_floating (tl_hypr w)), resize.
  - unfold moves, resize. destruct (hc_floating (tl_hypr w)) eqn:Ef; cbn [negb orb app fold_left place_effect pl_floating]; [|done].
    destruct (Z.eqb_spec tw (u32 (hc_width (tl_hypr w)))) as [Ew|]; cbn [negb orb app fold_left place_effect pl_floating]; [|done].
    destruct (Z.eqb_spec th (u32 (hc_height (tl_hypr w)))) as [Eh|]; cbn [negb orb app fold_left place_effect pl_floating]; [|done].
    destruct (Z.eqb_spec tx (hc_x (tl_hypr w))) as [Ex|], (Z.eqb_spec ty (hc_y (tl_hypr w))) as [Ey|];
      cbn [negb orb app fold_left place_effect pl_x pl_y pl_width pl_height pl_floating]; congruence.
  - intros [= Ex Ey Ew Eh Ef]. unfold moves, resize. rewrite Ef, <- Ex, <- Ey, <- Ew, <- Eh, !Z.eqb_refl. done.
Qed.
End carried.

(** ** On two windows *)

Definition sample_client (id address workspace_name : string) (workspace x y : Z) (floating : bool) (order : Z) : ksd_hypr_client :=
  mk_client (cstr id) (cstr address) (cstr workspace_name) workspace 4000 order x y 640 480 0 true false true floating false false false.
Definition sample_window (key : Z) (id : string) (client : ksd_hypr_client) : ksd_wl_toplevel :=
  tl_with_known true (tl_with_hypr client (tl_with_identifier (Some (cstr id)) (fresh_toplevel key true false (100 + key)))).
Definition tiled_client : ksd_hypr_client := sample_client "18000002" "0x25e0" "3" 3 0 0 false 1.
Definition floating_client : ksd_hypr_client := sample_client "18000003" "0x25f0" "3" 3 100 100 true 0.
Definition two_windows : ksd_wayland :=
  with_toplevels [sample_window 0 "18000003" floating_client; sample_window 1 "18000002" tiled_client; fresh_toplevel 2 true false 102] sample_session.

Example two_stacked :
  let c := ksd_wayland_hypr_windows_update [floating_client; tiled_client] two_windows in
  map tl_key (wl_toplevels c) = [2; 1; 0] /\ map (fun p => option_map tl_key (window_at (fst p) (snd p) c)) [(50, 50); (100, 100); (739, 579); (740, 100); (-1, 0)]
  = [Some 1; Some 0; Some 0; None; None].
Proof. vm_compute. done. Qed.

(** A compositor that takes the classic spelling of every dispatcher. *)
Definition obliging_world (history : list (list byte)) (command : list byte) : exchange :=
  sample_exchange (cstr (if bytes_eqb (ztake 12 command) (cstr "dispatch hl.") then "Invalid dispatcher" else "ok")).
Definition parked_client : ksd_hypr_client := set_workspace_name KSD_HYPR_MINIMIZED_WORKSPACE (set_workspace_id (-98) tiled_client).
Definition tiled_window : ksd_wl_toplevel := sample_window 1 "18000002" tiled_client.

Lemma sample_client_wf : client_wf tiled_client /\ client_wf floating_client.
Proof.
  unfold client_wf, members_wf, fits, is_i64, is_i32, LLONG_MIN, LLONG_MAX. cbn.
  repeat split; try done; try lia; try (vm_compute; reflexivity); try (repeat constructor; vm_compute; discriminate); by left.
Qed.

Lemma hypr_minimize_restores_witness :
  exists parked restored,
    @minimize 1000 5 infinite_memory obliging_world (tiled_window, mk_hypr true [])
    = (true, (parked, mk_hypr true [dispatch_command (snd (away tiled_window))])) /\
    @unminimize 1000 5 infinite_memory obliging_world (update_item [floating_client; parked_client] parked, mk_hypr true [dispatch_command (snd (away tiled_window))])
    = (true, (restored, mk_hypr true [dispatch_command (snd (away tiled_window)); cstr "dispatch movetoworkspacesilent 3,address:0x25e0"])) /\
    rs_has (tl_restore restored) = false.
Proof.
  apply (@hypr_minimize_restores 1000 5 infinite_memory obliging_world true tiled_window (mk_hypr true []) [floating_client; parked_client] parked_client (cstr "18000002")).
  - reflexivity.
  - apply sample_client_wf.
  - vm_compute. reflexivity.
  - vm_compute. reflexivity.
  - left. vm_compute. reflexivity.
  - reflexivity.
  - reflexivity.
  - vm_compute. reflexivity.
  - reflexivity.
  - reflexivity.
  - split; [vm_compute; reflexivity|]. split; [vm_compute; reflexivity|]. intros history. split; vm_compute; reflexivity.
  - split; [vm_compute; reflexivity|]. split; [vm_compute; reflexivity|]. intros history. split; vm_compute; reflexivity.
Defined.

Lemma hypr_place_lands_witness :
  exists steps,
    @place_window 1000 5 infinite_memory obliging_world (-20) INT32_MIN 0 300 (tiled_window, mk_hypr true [])
    = (true, (tiled_window, mk_hypr true ([] ++ map (fun step => dispatch_command (spelling true (step_spelling tiled_window step))) steps))) /\
    fold_left (place_effect (fun p => p) (fun p width height => (pl_x p + Z.quot (pl_width p - width) 2, pl_y p + Z.quot (pl_height p - height) 2)))
      steps (placed_now tiled_window) = place_target tiled_window (-20) INT32_MIN 0 300 /\
    (placed_now tiled_window = place_target tiled_window (-20) INT32_MIN 0 300 -> steps = []).
Proof.
  apply (@hypr_place_lands 1000 5 infinite_memory obliging_world true _ _ tiled_window (mk_hypr true []) (-20) INT32_MIN 0 300).
  - reflexivity.
  - apply sample_client_wf.
  - reflexivity.
  - vm_compute. split; [discriminate|reflexivity].
  - vm_compute. split; [discriminate|reflexivity].
  - vm_compute. split; [discriminate|reflexivity].
  - vm_compute. split; [discriminate|reflexivity].
  - repeat (apply Forall_cons; [split; [vm_compute; reflexivity|]; split; [vm_compute; reflexivity|]; intros history; split; vm_compute; reflexivity|]).
    constructor.
Defined.
