(* ===== verification/WlWindows.v ===== *)
(** * Windows of a Wayland session (src/wayland/wl_windows.c, with the views and actions of
    wl_wlr_windows.c, wl_cosmic_windows.c and wl_hypr_windows.c)

    Which view of the toplevels a compositor offers, the refresh every operation starts
    with, finding a window by its handle, the lists and queries that are answered as
    JSON, and the actions, as the requests each view sends.

    What the compositor does in a wait is an argument: the events of a round trip and
    whether it was answered, and the events of each turn after it.  The operations give
    the connection, the result with the descriptors it closed, and the requests sent.

    The theorems: every handle that is listed finds its own window; a request is about the
    one window its handle names, or nothing is sent; and a state that is asked for is
    reached by requests none of which is idle. *)
From Stdlib Require Import ZArith Lia Strings.Byte Strings.String.
From stdpp Require Import base list option numbers tactics.
From S2P Require Import Prelude.
From S2P Require Import Protocol.
From S2P Require Import Buffer.
From S2P Require Import Result.
From S2P Require Import KwinTranslate.
From S2P Require Import HyprJson.
From S2P Require Import Hypr.
From S2P Require Import Outputs.
From S2P Require Import Toplevels.
From S2P Require Import HyprWindows.
From S2P Require Import Operations.
Local Open Scope Z_scope.
Local Open Scope ksd_scope.

(** ** Views *)

Inductive ksd_wayland_window_view := HyprView | WlrView | CosmicView | GenericView.
Definition view_eqb (a b : ksd_wayland_window_view) : bool :=
  match a, b with HyprView, HyprView | WlrView, WlrView | CosmicView, CosmicView | GenericView, GenericView => true | _, _ => false end.

Definition generic_usable (item : ksd_wl_toplevel) : bool :=
  tl_handle item && negb (tl_closed item) && bool_decide (is_Some (tl_identifier item)).
Definition wlr_usable (item : ksd_wl_toplevel) : bool := tl_wlr_handle item && tl_ready item.
Definition cosmic_usable (item : ksd_wl_toplevel) : bool :=
  negb (tl_closed item) && tl_cosmic_handle item && tl_ready item && bool_decide (is_Some (tl_identifier item)) && negb (tl_id item =? 0).
Definition view_usable (view : ksd_wayland_window_view) : ksd_wl_toplevel -> bool :=
  match view with HyprView => usable | WlrView => wlr_usable | CosmicView => cosmic_usable | GenericView => generic_usable end.
Definition view_state (view : ksd_wayland_window_view) (item : ksd_wl_toplevel) : Z :=
  match view with HyprView => state item | WlrView | CosmicView => tl_state item | GenericView => 0 end.

Definition window_view (c : ksd_wayland) : option ksd_wayland_window_view :=
  if ksd_wayland_hypr_windows_available c then Some HyprView
  else if wl_wlr_manager c then Some WlrView
  else if ksd_wayland_cosmic_can_list c then Some CosmicView
  else if wl_toplevel_list c then Some GenericView else None.
Definition has_flag (flags mask : Z) : bool := negb (Z.land flags mask =? 0).

(** ** The text of a window *)

Section texts.
Context {AL : Allocator}.
(** [%llu] into 32 bytes. *)
Definition put_id (item : ksd_wl_toplevel) : bufop := fun out =>
  match printed 32 (unsigned_text (tl_id item)) with Some id => ksd_buffer_json_string id false out | None => (false, out) end.
Definition generic_text (item : ksd_wl_toplevel) : bufop :=
  put (json_text "{'id':") ;;; put_id item ;;;
  put (json_text ",'compositorId':") ;;; put_json (tl_identifier item) ;;;
  put (json_text ",'captureId':") ;;; put_json (tl_identifier item) ;;;
  put (json_text ",'title':") ;;; put_json (tl_title item) ;;;
  put (json_text ",'appId':") ;;; put_json (tl_app_id item) ;;;
  put (json_text ",'validFields':['id','compositorId','captureId','title','appId']}").
Definition put_truth (value : bool) : bufop := put (truth_text value).
Definition wlr_text (item : ksd_wl_toplevel) : bufop :=
  put (json_text "{'id':'") ;;; put_printed 32 (unsigned_text (tl_id item)) ;;;
  put (json_text "','title':") ;;; put_json (tl_title item) ;;;
  put (json_text ",'appId':") ;;; put_json (tl_app_id item) ;;;
  put (json_text ",'active':") ;;; put_truth (has_flag (tl_state item) KSD_WL_TOPLEVEL_STATE_ACTIVATED) ;;;
  put (json_text ",'minimized':") ;;; put_truth (has_flag (tl_state item) KSD_WL_TOPLEVEL_STATE_MINIMIZED) ;;;
  put (json_text ",'maximized':") ;;; put_truth (has_flag (tl_state item) KSD_WL_TOPLEVEL_STATE_MAXIMIZED) ;;;
  put (json_text ",'validFields':['id','title','appId','active','minimized','maximized']}").
Definition cosmic_text (item : ksd_wl_toplevel) (outputs : list ksd_wl_output) : bufop :=
  let place := resolve_geometry (tl_geometries item) outputs in
  put (json_text "{'id':'") ;;; put_printed 32 (unsigned_text (tl_id item)) ;;;
  put (json_text "','title':") ;;; put_json (tl_title item) ;;;
  put (json_text ",'appId':") ;;; put_json (tl_app_id item) ;;;
  put (json_text ",'captureId':") ;;; put_json (tl_identifier item) ;;;
  match place with
  | Some a => put_printed 320 (json_text ",'frame':" ++ rect_text a ++ json_text ",'client':" ++ rect_text a)
  | None => nothing
  end ;;;
  put (json_text ",'active':" ++ truth_text (has_flag (tl_state item) KSD_WL_TOPLEVEL_STATE_ACTIVATED)) ;;;
  put (json_text ",'minimized':" ++ truth_text (has_flag (tl_state item) KSD_WL_TOPLEVEL_STATE_MINIMIZED)) ;;;
  put (json_text ",'maximized':" ++ truth_text (has_flag (tl_state item) KSD_WL_TOPLEVEL_STATE_MAXIMIZED)) ;;;
  put (json_text ",'validFields':['id','captureId','title','appId','active','minimized','maximized'") ;;;
  (if bool_decide (is_Some place) then put (json_text ",'frame'") else nothing) ;;;
  put (cstr "]}").
End texts.

(** ** Requests *)

(** What is sent for the toplevel of a key: by its wlroots handle, or by the COSMIC
    manager. *)
Inductive wl_request :=
| Activate (key : Z)
| Close (key : Z)
| SetMinimized (key : Z) (on : bool)
| SetMaximized (key : Z) (on : bool).
Definition request_key (r : wl_request) : Z := match r with Activate k | Close k | SetMinimized k _ | SetMaximized k _ => k end.

Definition wlr_state_requests (key flags value : Z) : list wl_request :=
  let minimized := has_flag flags KSD_WL_TOPLEVEL_STATE_MINIMIZED in
  let maximized := has_flag flags KSD_WL_TOPLEVEL_STATE_MAXIMIZED in
  if value =? 1 then (if minimized then [] else [SetMinimized key true])
  else if value =? 2 then
    (if minimized then [SetMinimized key false] else []) ++ (if maximized then [] else [SetMaximized key true])
  else (if minimized then [SetMinimized key false] else [])
       ++ (if (value =? 0) && maximized then [SetMaximized key false] else []).

Definition requested_state_observed (value : Z) (item : ksd_wl_toplevel) : bool :=
  let flags := tl_state item in
  let both := Z.lor KSD_WL_TOPLEVEL_STATE_MINIMIZED KSD_WL_TOPLEVEL_STATE_MAXIMIZED in
  if tl_closed item then true
  else if value =? 1 then has_flag flags KSD_WL_TOPLEVEL_STATE_MINIMIZED
  else if value =? 2 then Z.land flags both =? KSD_WL_TOPLEVEL_STATE_MAXIMIZED
  else if value =? 3 then negb (has_flag flags KSD_WL_TOPLEVEL_STATE_MINIMIZED)
  else Z.land flags both =? 0.
Definition cosmic_state_requests (key flags value : Z) : list wl_request :=
  let minimized := has_flag flags KSD_WL_TOPLEVEL_STATE_MINIMIZED in
  let maximized := has_flag flags KSD_WL_TOPLEVEL_STATE_MAXIMIZED in
  if value =? 1 then [SetMinimized key true]
  else if value =? 2 then
    (if minimized then [SetMinimized key false] else []) ++ (if maximized then [] else [SetMaximized key true])
  else (if minimized then [SetMinimized key false] else [])
       ++ (if (value =? 0) && maximized then [SetMaximized key false] else []).

(** ** Waiting *)

(** What was delivered in a round trip and whether it was answered, and the turns of a
    wait: the events of each, or its failure. *)
Record roundtrip := mk_roundtrip { rt_events : list wl_event; rt_answered : bool }.
Definition wait_turns := list (option (list wl_event)).
(** What an operation meets: the refresh, the reply to its requests, what follows it, and
    the pidfd of a process that is killed. *)
Record meeting := mk_meeting {
  mt_refresh : roundtrip; mt_ready : wait_turns; mt_reply : roundtrip; mt_settled : wait_turns;
  mt_self : Z; mt_opened : option Z; mt_sent : option Z;
}.

Section windows.
Context (sha256 : list byte -> option (list byte)) (uid session_pid : Z) {AL : Allocator}
  (world : list (list byte) -> list byte -> exchange).

Definition answered := (ksd_operation_result * list Z)%type.
Definition refuse (status : Z) (text : string) (result : ksd_operation_result) : answered :=
  ksd_result_error result status 0 (Some (cstr text)).
(** [ksd_result_copy] of nothing. *)
Definition accept (result : ksd_operation_result) : answered :=
  let '(_, result, closed) := ksd_result_copy result None 0 in (result, closed).
(** [ksd_result_error], or the buffer framed. *)
Definition take_text (ok : bool) (out : ksd_buffer) (diagnostic : string) (result : ksd_operation_result) : answered :=
  framed (fun _ => (ok, out)) (cstr diagnostic) result.

Definition ksd_wayland_roundtrip (r : roundtrip) (c : ksd_wayland) : bool * ksd_wayland :=
  (rt_answered r, wl_events sha256 (rt_events r) c).
(** Turns that run out are a timeout. *)
Fixpoint ksd_wayland_dispatch_until (complete : ksd_wayland -> bool) (turns : wait_turns) (c : ksd_wayland) : bool * ksd_wayland :=
  if complete c then (true, c)
  else match turns with
  | Some events :: turns => ksd_wayland_dispatch_until complete turns (wl_events sha256 events c)
  | _ => (false, c)
  end.

Definition cosmic_ready (c : ksd_wayland) : bool :=
  forallb (fun item => tl_closed item || negb (tl_cosmic_handle item) || tl_ready item) (wl_toplevels c).

(** [Some] is the refusal. *)
Definition ksd_wayland_windows_refresh (view : option ksd_wayland_window_view) (m : meeting) (c : ksd_wayland)
    (result : ksd_operation_result) : option answered * ksd_wayland :=
  match view with
  | None => (Some (refuse KSD_STATUS_UNSUPPORTED "this compositor does not list its windows" result), c)
  | Some view =>
    let '(ok, c) := ksd_wayland_roundtrip (mt_refresh m) c in
    if negb ok then (Some (refuse KSD_STATUS_TIMEOUT "the compositor did not answer" result), c)
    else
      let '(ok, c) := if view_eqb view CosmicView && negb (cosmic_ready c) then ksd_wayland_dispatch_until cosmic_ready (mt_ready m) c else (true, c) in
      if negb ok then (Some (refuse KSD_STATUS_TIMEOUT "the compositor did not finish its window state" result), c)
      else
        let c := sweep_closed c in
        if view_eqb view HyprView then
          let '(ok, c) := ksd_wayland_hypr_windows_refresh uid session_pid world c in
          (if ok then None else Some (refuse KSD_STATUS_UNAVAILABLE "Hyprland did not answer the window query" result), c)
        else (None, c)
  end.

Definition find_window (c : ksd_wayland) (handle : Z) (view : ksd_wayland_window_view) : option ksd_wl_toplevel :=
  List.find (fun item => view_usable view item && (tl_id item =? handle)) (wl_toplevels c).
Definition ksd_wayland_window_for_action (handle : Z) (view : option ksd_wayland_window_view) (m : meeting) (c : ksd_wayland)
    (result : ksd_operation_result) : (answered + ksd_wl_toplevel) * ksd_wayland :=
  let '(refused, c) := ksd_wayland_windows_refresh view m c result in
  match refused, view with
  | Some a, _ => (inl a, c)
  | None, Some view =>
    match find_window c handle view with
    | Some window => (inr window, c)
    | None => (inl (refuse KSD_STATUS_NOT_FOUND "the window no longer exists" result), c)
    end
  | None, None => (inl (result, []), c)
  end.

(** ** Answers *)

Definition append_view (view : ksd_wayland_window_view) (item : ksd_wl_toplevel) (c : ksd_wayland) (out : ksd_buffer)
    : bool * ksd_buffer * ksd_wayland :=
  match view with
  | HyprView => append_window uid session_pid world item c out
  | WlrView => (wlr_text item out, c)
  | CosmicView => (cosmic_text item (wl_outputs c) out, c)
  | GenericView => (generic_text item out, c)
  end.

(** One window, or [null]. *)
Definition answer_window (view : ksd_wayland_window_view) (window : option ksd_wl_toplevel) (diagnostic : string) (c : ksd_wayland)
    (result : ksd_operation_result) : ksd_wayland * answered :=
  let '(ok, out) := put (json_text "{'ok':true,'window':") (ksd_buffer_init KSD_MAX_TEXT_BYTES) in
  let '(ok, out, c) := if ok then match window with Some w => append_view view w c out | None => (put (cstr "null") out, c) end else (false, out, c) in
  let '(ok, out) := if ok then put (cstr "}") out else (false, out) in
  (c, take_text ok out diagnostic result).

Definition ksd_wayland_window_query (handle : Z) (m : meeting) (c : ksd_wayland) (result : ksd_operation_result) : ksd_wayland * answered :=
  let view := window_view c in
  match ksd_wayland_window_for_action handle view m c result with
  | (inl a, c) => (c, a)
  | (inr window, c) => answer_window (default GenericView view) (Some window) "the window result is too large" c result
  end.

(** The key of the toplevel to capture. *)
Definition ksd_wayland_window_capture_handle (identifier : list byte) (m : meeting) (c : ksd_wayland) (result : ksd_operation_result)
    : (answered + Z) * ksd_wayland :=
  let '(refused, c) := ksd_wayland_windows_refresh (if wl_toplevel_list c then Some GenericView else None) m c result in
  match refused with
  | Some a => (inl a, c)
  | None =>
    match List.find (fun w => generic_usable w && bool_decide (tl_identifier w = Some identifier)) (wl_toplevels c) with
    | Some w => (inr (tl_key w), c)
    | None => (inl (refuse KSD_STATUS_NOT_FOUND "the window no longer exists" result), c)
    end
  end.

Fixpoint append_handles (view : ksd_wayland_window_view) (items : list ksd_wl_toplevel) (first : bool) : bufop :=
  match items with
  | [] => nothing
  | item :: items =>
    if negb (view_usable view item) then append_handles view items first
    else (if first then nothing else put (cstr ",")) ;;; put_id item ;;; append_handles view items false
  end.
Definition ksd_wayland_window_handles (m : meeting) (c : ksd_wayland) (result : ksd_operation_result) : ksd_wayland * answered :=
  let view := window_view c in
  let '(refused, c) := ksd_wayland_windows_refresh view m c result in
  match refused with
  | Some a => (c, a)
  | None =>
    (c, framed (put (json_text "{'ok':true,'handles':[") ;;; append_handles (default GenericView view) (wl_toplevels c) true ;;; put (cstr "]}"))
          (cstr "the handle list is too large") result)
  end.

(** Whether a list includes a window. *)
Definition listed (view : ksd_wayland_window_view) (include_hidden : bool) (item : ksd_wl_toplevel) : bool :=
  view_usable view item && (include_hidden || negb (has_flag (view_state view item) KSD_WL_TOPLEVEL_STATE_MINIMIZED)).
Fixpoint append_windows (view : ksd_wayland_window_view) (include_hidden : bool) (items : list ksd_wl_toplevel) (first : bool)
    (c : ksd_wayland) (out : ksd_buffer) : bool * ksd_buffer * ksd_wayland :=
  match items with
  | [] => (true, out, c)
  | item :: items =>
    if negb (listed view include_hidden item) then append_windows view include_hidden items first c out
    else
      let '(ok, out) := if first then (true, out) else put (cstr ",") out in
      if negb ok then (false, out, c)
      else
        let '(ok, out, c) := append_view view item c out in
        if ok then append_windows view include_hidden items false c out else (false, out, c)
  end.
Definition ksd_wayland_window_list (include_hidden : bool) (m : meeting) (c : ksd_wayland) (result : ksd_operation_result) : ksd_wayland * answered :=
  let view := window_view c in
  let '(refused, c) := ksd_wayland_windows_refresh view m c result in
  match refused with
  | Some a => (c, a)
  | None =>
    let '(ok, out) := put (json_text "{'ok':true,'windows':[") (ksd_buffer_init KSD_MAX_TEXT_BYTES) in
    let '(ok, out, c) := if ok then append_windows (default GenericView view) include_hidden (wl_toplevels c) true c out else (false, out, c) in
    let '(ok, out) := if ok then put (cstr "]}") out else (false, out) in
    (c, take_text ok out "the window list is too large" result)
  end.

Definition ksd_wayland_active_window (m : meeting) (c : ksd_wayland) (result : ksd_operation_result) : ksd_wayland * answered :=
  match window_view c with
  | Some GenericView => (c, refuse KSD_STATUS_UNSUPPORTED "this compositor does not expose an active window" result)
  | view =>
    let '(refused, c) := ksd_wayland_windows_refresh view m c result in
    match refused with
    | Some a => (c, a)
    | None =>
      let view := default GenericView view in
      let active := List.find (fun item => view_usable view item && has_flag (view_state view item) KSD_WL_TOPLEVEL_STATE_ACTIVATED) (wl_toplevels c) in
      answer_window view active "the active window result is too large" c result
    end
  end.

(** ** Actions *)

(** The connection, the result and the requests. *)
Definition acted := (ksd_wayland * answered * list wl_request)%type.

Definition ksd_wayland_wlr_window_action (opcode handle value : Z) (m : meeting) (c : ksd_wayland) (result : ksd_operation_result) : acted :=
  match ksd_wayland_window_for_action handle (Some WlrView) m c result with
  | (inl a, c) => (c, a, [])
  | (inr window, c) =>
    let finish (changed : bool) (sent : list wl_request) : acted :=
      if negb changed then (c, accept result, sent)
      else
        let '(ok, c) := ksd_wayland_roundtrip (mt_reply m) c in
        (c, if ok then accept result else refuse KSD_STATUS_TIMEOUT "the compositor did not acknowledge the request" result, sent) in
    if opcode =? KSD_OP_WINDOW_FOCUS then
      if negb (wl_seat c) then (c, refuse KSD_STATUS_UNSUPPORTED "the compositor exposes no seat" result, [])
      else finish true [Activate (tl_key window)]
    else if opcode =? KSD_OP_WINDOW_CLOSE then finish true [Close (tl_key window)]
    else if opcode =? KSD_OP_WINDOW_SET_STATE then
      let sent := wlr_state_requests (tl_key window) (tl_state window) value in
      finish (negb (bool_decide (length sent = 0%nat))) sent
    else (c, refuse KSD_STATUS_INVALID_REQUEST "invalid Wayland window operation" result, [])
  end.

Definition window_now (key : Z) (c : ksd_wayland) (f : ksd_wl_toplevel -> bool) : bool :=
  match find_key key (wl_toplevels c) with Some item => f item | None => false end.
Definition ksd_wayland_cosmic_window_action (opcode handle value : Z) (m : meeting) (c : ksd_wayland) (result : ksd_operation_result) : acted :=
  match ksd_wayland_window_for_action handle (Some CosmicView) m c result with
  | (inl a, c) => (c, a, [])
  | (inr window, c) =>
    let key := tl_key window in
    let finish (sent : list wl_request) : acted :=
      let '(ok, c) := ksd_wayland_roundtrip (mt_reply m) c in
      if negb ok then (c, refuse KSD_STATUS_TIMEOUT "the compositor did not acknowledge the request" result, sent)
      else if opcode =? KSD_OP_WINDOW_SET_STATE then
        let '(ok, c) := ksd_wayland_dispatch_until (fun c => window_now key c (requested_state_observed value)) (mt_settled m) c in
        if negb ok then (c, refuse KSD_STATUS_TIMEOUT "the compositor did not report the requested window state" result, sent)
        else if window_now key c tl_closed then (c, refuse KSD_STATUS_NOT_FOUND "the window no longer exists" result, sent)
        else (c, accept result, sent)
      else (c, accept result, sent) in
    if (opcode =? KSD_OP_WINDOW_FOCUS) && ksd_wayland_cosmic_can_focus c then finish [Activate key]
    else if (opcode =? KSD_OP_WINDOW_CLOSE) && ksd_wayland_cosmic_can_close c then finish [Close key]
    else if (opcode =? KSD_OP_WINDOW_SET_STATE) && ksd_wayland_cosmic_can_set_state c then
      if requested_state_observed value window then (c, accept result, [])
      else finish (cosmic_state_requests key (tl_state window) value)
    else (c, refuse KSD_STATUS_UNSUPPORTED "COSMIC does not advertise this window action" result, [])
  end.

(** What is remembered of the window is put back. *)
Definition on_window (op : winop) (window : ksd_wl_toplevel) (c : ksd_wayland) : bool * ksd_wayland :=
  let '(ok, (w, ipc)) := op (window, wl_ipc c) in
  (ok, with_ipc (wl_opacity_fresh c) ipc (with_toplevels (on_toplevel (tl_key window) (fun _ => w) (wl_toplevels c)) c)).

Definition hypr_operation (opcode value : Z) : option winop :=
  if opcode =? KSD_OP_WINDOW_FOCUS then Some (both (unminimize uid session_pid world) (focus uid session_pid world))
  else if opcode =? KSD_OP_WINDOW_CLOSE then Some (close_window uid session_pid world)
  else if opcode =? KSD_OP_WINDOW_SET_STATE then Some (set_state uid session_pid world value)
  else if opcode =? KSD_OP_WINDOW_RAISE then Some (restack uid session_pid world true)
  else if opcode =? KSD_OP_WINDOW_LOWER then Some (restack uid session_pid world false)
  else if opcode =? KSD_OP_WINDOW_SET_OPACITY then Some (set_opacity uid session_pid world value)
  else if opcode =? KSD_OP_WINDOW_SET_ABOVE then Some (set_above uid session_pid world (negb (value =? 0)))
  else None.
Definition ksd_wayland_hypr_window_action (opcode handle value : Z) (m : meeting) (c : ksd_wayland) (result : ksd_operation_result)
    : ksd_wayland * answered :=
  match ksd_wayland_window_for_action handle (Some HyprView) m c result with
  | (inl a, c) => (c, a)
  | (inr window, c) =>
    let raises := opcode =? KSD_OP_WINDOW_RAISE in
    if (raises || (opcode =? KSD_OP_WINDOW_LOWER)) && negb (ksd_wayland_hypr_can_restack c window raises) then
      (c, refuse KSD_STATUS_UNSUPPORTED
            (if raises then "Hyprland cannot raise a tiled window above the focused tile without changing focus"
             else "Hyprland cannot lower a focused tiled window beneath another tiled window without changing focus") result)
    else if opcode =? KSD_OP_WINDOW_KILL then
      let '(status, _, ipc) := kill_owner uid session_pid world (mt_self m) (mt_opened m) (mt_sent m) window (wl_ipc c) in
      (with_ipc (wl_opacity_fresh c) ipc c,
       if status =? KSD_STATUS_OK then accept result
       else refuse status (if status =? KSD_STATUS_NOT_FOUND then "the window no longer exists"
                           else "Hyprland reports no process for this window") result)
    else
      match hypr_operation opcode value with
      | None => (c, refuse KSD_STATUS_INVALID_REQUEST "invalid Wayland window operation" result)
      | Some op =>
        let '(ok, c) := on_window op window c in
        (c, if ok then accept result else refuse KSD_STATUS_UNAVAILABLE "Hyprland rejected the window request" result)
      end
  end.

Definition ksd_wayland_hypr_window_move_resize (handle x y width height : Z) (m : meeting) (c : ksd_wayland) (result : ksd_operation_result)
    : ksd_wayland * answered :=
  match ksd_wayland_window_for_action handle (Some HyprView) m c result with
  | (inl a, c) => (c, a)
  | (inr window, c) =>
    let '(ok, c) := on_window (place_window uid session_pid world x y width height) window c in
    (c, if ok then accept result else refuse KSD_STATUS_UNAVAILABLE "Hyprland rejected the window geometry" result)
  end.

Definition ksd_wayland_hypr_window_at_point (x y : Z) (m : meeting) (c : ksd_wayland) (result : ksd_operation_result) : ksd_wayland * answered :=
  let '(refused, c) := ksd_wayland_windows_refresh (Some HyprView) m c result in
  match refused with
  | Some a => (c, a)
  | None => answer_window HyprView (window_at x y c) "the window result is too large" c result
  end.

(** ** By the view of the session *)

Definition ksd_wayland_window_action (opcode handle value : Z) (m : meeting) (c : ksd_wayland) (result : ksd_operation_result) : acted :=
  if ksd_wayland_hypr_windows_available c then
    let '(c, a) := ksd_wayland_hypr_window_action opcode handle value m c result in (c, a, [])
  else if wl_wlr_manager c then ksd_wayland_wlr_window_action opcode handle value m c result
  else if ksd_wayland_cosmic_can_list c then ksd_wayland_cosmic_window_action opcode handle value m c result
  else (c, refuse KSD_STATUS_UNSUPPORTED "this compositor does not control foreign windows" result, []).
Definition ksd_wayland_window_move_resize (handle x y width height : Z) (m : meeting) (c : ksd_wayland) (result : ksd_operation_result)
    : ksd_wayland * answered :=
  if ksd_wayland_hypr_windows_available c then ksd_wayland_hypr_window_move_resize handle x y width height m c result
  else (c, refuse KSD_STATUS_UNSUPPORTED "this compositor does not place foreign windows" result).
Definition ksd_wayland_window_at_point (x y : Z) (m : meeting) (c : ksd_wayland) (result : ksd_operation_result) : ksd_wayland * answered :=
  if ksd_wayland_hypr_windows_available c then ksd_wayland_hypr_window_at_point x y m c result
  else (c, refuse KSD_STATUS_UNSUPPORTED "this compositor does not report window geometry" result).
End windows.

(** ** The state that is asked for is reached *)

(** What a request does to the flags. *)
Definition set_flag (mask : Z) (on : bool) (flags : Z) : Z := if on then Z.lor flags mask else Z.land flags (Z.lnot mask).
Definition request_effect (flags : Z) (r : wl_request) : Z :=
  match r with
  | SetMinimized _ on => set_flag KSD_WL_TOPLEVEL_STATE_MINIMIZED on flags
  | SetMaximized _ on => set_flag KSD_WL_TOPLEVEL_STATE_MAXIMIZED on flags
  | _ => flags
  end.
(** Every request changes the flags it finds. *)
Fixpoint each_changes (flags : Z) (requests : list wl_request) : Prop :=
  match requests with
  | [] => True
  | r :: requests => request_effect flags r <> flags /\ each_changes (request_effect flags r) requests
  end.
(** Normal, minimized, maximized and restored, as the client library numbers them. *)
Definition state_met (value flags : Z) : Prop :=
  (value = 0 -> Z.testbit flags 0 = false /\ Z.testbit flags 1 = false) /\
  (value = 1 -> Z.testbit flags 1 = true) /\
  (value = 2 -> Z.testbit flags 0 = true /\ Z.testbit flags 1 = false) /\
  (value = 3 -> Z.testbit flags 1 = false).

Lemma has_flag_bit flags mask k : 0 <= k -> mask = 2 ^ k -> has_flag flags mask = Z.testbit flags k.
Proof.
  intros Hk ->. unfold has_flag. destruct (Z.eqb_spec (Z.land flags (2 ^ k)) 0) as [E|E]; cbn [negb].
  - symmetry. assert (H : Z.testbit (Z.land flags (2 ^ k)) k = false) by (rewrite E; apply Z.bits_0).
    rewrite Z.land_spec, Z.pow2_bits_true, andb_true_r in H by done. done.
  - destruct (Z.testbit flags k) eqn:Eb; [done|]. exfalso. apply E, Z.bits_inj'. intros n Hn.
    rewrite Z.land_spec, Z.bits_0, Z.pow2_bits_eqb by done. destruct (Z.eqb_spec k n) as [->|]; [by rewrite Eb|apply andb_false_r].
Qed.

Lemma set_flag_bit mask k on flags n : 0 <= k -> 0 <= n -> mask = 2 ^ k ->
  Z.testbit (set_flag mask on flags) n = if n =? k then on else Z.testbit flags n.
Proof.
  intros Hk Hn ->. unfold set_flag. destruct on; [rewrite Z.lor_spec|rewrite Z.land_spec, Z.lnot_spec by done]; rewrite Z.pow2_bits_eqb by done;
    rewrite (Z.eqb_sym k n); destruct (n =? k); destruct (Z.testbit flags n); done.
Qed.

Lemma effect_minimized key on flags n : 0 <= n ->
  Z.testbit (request_effect flags (SetMinimized key on)) n = if n =? 1 then on else Z.testbit flags n.
Proof. intros Hn. by apply set_flag_bit. Qed.
Lemma effect_maximized key on flags n : 0 <= n ->
  Z.testbit (request_effect flags (SetMaximized key on)) n = if n =? 0 then on else Z.testbit flags n.
Proof. intros Hn. by apply set_flag_bit. Qed.
Lemma changes_bit n f g : Z.testbit f n <> Z.testbit g n -> f <> g.
Proof. by intros H ->. Qed.

Ltac flag_bits := repeat first [rewrite effect_minimized by lia|rewrite effect_maximized by lia]; cbn [Z.eqb Pos.eqb].

Lemma state_requests_spec requests key flags value : 0 <= value <= 3 ->
  requests = wlr_state_requests key flags value ->
  each_changes flags requests /\ state_met value (fold_left request_effect requests flags) /\
  (forall n, 1 < n -> Z.testbit (fold_left request_effect requests flags) n = Z.testbit flags n) /\
  (state_met value flags -> requests = []).
Proof.
  intros Hv ->. unfold wlr_state_requests.
  rewrite (has_flag_bit flags KSD_WL_TOPLEVEL_STATE_MINIMIZED 1), (has_flag_bit flags KSD_WL_TOPLEVEL_STATE_MAXIMIZED 0) by done.
  assert (Hc : value = 0 \/ value = 1 \/ value = 2 \/ value = 3) by lia. unfold state_met.
  destruct (Z.testbit flags 1) eqn:E1, (Z.testbit flags 0) eqn:E0; destruct Hc as [->|[->|[->| ->]]]; cbn [Z.eqb Pos.eqb app andb fold_left each_changes];
    (split; [repeat split; first [apply (changes_bit 1); flag_bits; congruence|apply (changes_bit 0); flag_bits; congruence]|]);
    (split; [repeat split; intros; try lia; flag_bits; congruence|]);
    (split; [intros n Hn; flag_bits; repeat (case_if; breflect; [lia|]); done|]);
    rewrite ?E0, ?E1; intros (H0 & H1 & H2 & H3); first [reflexivity|destruct (H0 eq_refl); congruence|specialize (H1 eq_refl); congruence|destruct (H2 eq_refl); congruence|specialize (H3 eq_refl); congruence].
Qed.

(** a window whose state is to be set is asked for just what it lacks: the requests
    lead, from whatever flags it has, to the state that is asked for, and touch no other
    flag; none of them is idle; and none is sent when the state is as asked already.  The
    COSMIC view sends the same, once it sees that the state is not as asked. *)
Theorem window_state_reached key item value : 0 <= value <= 3 ->
  let requests := wlr_state_requests key (tl_state item) value in
  each_changes (tl_state item) requests /\
  state_met value (fold_left request_effect requests (tl_state item)) /\
  (forall n, 1 < n -> Z.testbit (fold_left request_effect requests (tl_state item)) n = Z.testbit (tl_state item) n) /\
  (state_met value (tl_state item) -> requests = []) /\
  (requested_state_observed value item = false -> cosmic_state_requests key (tl_state item) value = requests).
Proof.
  intros Hv requests. destruct (state_requests_spec requests key (tl_state item) value Hv eq_refl) as (H1 & H2 & H3 & H4).
  split; [done|]. split; [done|]. split; [done|]. split; [done|].
  unfold requested_state_observed, cosmic_state_requests, requests, wlr_state_requests. destruct (tl_closed item); [done|].
  destruct (Z.eqb_spec value 1) as [->|]; [|done]. by intros ->.
Qed.

(** ** Handles stay distinct *)

Lemma list_filter_perm {A} (p : A -> bool) l k : Permutation l k -> Permutation (List.filter p l) (List.filter p k).
Proof.
  induction 1 as [|x l k _ IH|x y l|l k j _ IH1 _ IH2]; cbn; [done| | |by etransitivity].
  - destruct (p x); [by apply perm_skip|done].
  - destruct (p x), (p y); try done. apply perm_swap.
Qed.

Lemma handles_wf_perm items c : Permutation (wl_toplevels c) items -> handles_wf c -> handles_wf (with_toplevels items c).
Proof.
  intros Hp (Hk & Hn & Hi & Ho). unfold handles_wf in *. cbn [wl_toplevels with_toplevels wl_next_key].
  assert (Hin : forall P : ksd_wl_toplevel -> Prop, Forall P (wl_toplevels c) -> Forall P items).
  { intros P. rewrite !List.Forall_forall. intros H i Hi'. apply H. by apply (Permutation_in _ (Permutation_sym Hp)). }
  split; [by rewrite <- (Permutation_map tl_key Hp)|]. split; [by apply Hin|]. split; [by apply Hin|].
  unfold open_ids in *. rewrite <- (Permutation_map tl_id (list_filter_perm _ _ _ Hp)). done.
Qed.

Lemma update_keeps clients : keeps_handle (update_item clients).
Proof.
  intros item. unfold update_item. destruct (tl_handle _); [|done]. destruct (tl_identifier _); [|done].
  destruct (List.find _ clients) as [client|]; case_if; done.
Qed.

Lemma hypr_update_wf clients c : handles_wf c -> handles_wf (ksd_wayland_hypr_windows_update clients c).
Proof.
  intros H. unfold ksd_wayland_hypr_windows_update, sort_by_stack. set (d := with_ipc _ _ _).
  assert (Hd : handles_wf d) by (apply (wf_same (with_toplevels (map (update_item clients) (wl_toplevels c)) c)); [done..|]; apply wf_map; [apply update_keeps|done]).
  apply handles_wf_perm; [|done]. apply (sort_items_spec (wl_toplevels d) []). constructor.
Qed.

Lemma update_open clients c : Forall (fun item => tl_closed item = false) (wl_toplevels c) ->
  Forall (fun item => tl_closed item = false) (wl_toplevels (ksd_wayland_hypr_windows_update clients c)).
Proof.
  intros H. rewrite List.Forall_forall in *. intros i Hi.
  destruct (sort_items_spec (map (update_item clients) (wl_toplevels c)) [] ltac:(constructor)) as (_ & Hp & _).
  apply (Permutation_in _ (Permutation_sym Hp)), in_map_iff in Hi as (j & <- & Hj). apply H in Hj. revert Hj.
  unfold update_item. destruct (tl_handle _); [|done]. destruct (tl_identifier _); [|done]. destruct (List.find _ clients) as [client|]; case_if; done.
Qed.

Lemma sweep_open c : Forall (fun item => tl_closed item = false) (wl_toplevels (sweep_closed c)).
Proof. apply List.Forall_forall. intros i Hi. apply filter_In in Hi as [_ Hi]. by apply negb_true_iff in Hi. Qed.

Section refreshes.
Context (sha256 : list byte -> option (list byte)) (uid session_pid : Z) {AL : Allocator}
  (world : list (list byte) -> list byte -> exchange).

Lemma events_keep_wf events : forall c, handles_wf c -> handles_wf (wl_events sha256 events c).
Proof. induction events as [|e events IH]; intros c Hc; [done|]. by apply IH, event_wf. Qed.

Lemma dispatch_until_wf complete turns : forall c, handles_wf c -> handles_wf (snd (ksd_wayland_dispatch_until sha256 complete turns c)).
Proof.
  induction turns as [|[events|] turns IH]; intros c Hc; cbn [ksd_wayland_dispatch_until]; case_if; try done. by apply IH, events_keep_wf.
Qed.

(** After a refresh, whatever the compositor did: handles are distinct, and when it was
    not refused no toplevel is closed. *)
Lemma refresh_wf view m c result : handles_wf c ->
  let '(refused, c') := ksd_wayland_windows_refresh sha256 uid session_pid world view m c result in
  handles_wf c' /\ (refused = None -> Forall (fun item => tl_closed item = false) (wl_toplevels c')).
Proof.
  intros Hc. unfold ksd_wayland_windows_refresh. destruct view as [view|]; [|done]. unfold ksd_wayland_roundtrip.
  pose proof (events_keep_wf (rt_events (mt_refresh m)) c Hc) as H1. destruct (rt_answered _); cbn [negb]; [|done].
  set (c1 := wl_events _ _ c) in *. set (waited := if _ && _ then _ else _).
  assert (H2 : handles_wf (snd waited)) by (unfold waited; case_if; [by apply dispatch_until_wf|done]).
  destruct waited as [ok c2]. cbn [snd] in H2. destruct ok; cbn [negb]; [|done]. case_if; [|split; [by apply sweep_wf|intros _; apply sweep_open]].
  unfold ksd_wayland_hypr_windows_refresh. destruct (ksd_wayland_hypr_clients _ _ _ _) as [[clients|] ipc].
  - split; [apply hypr_update_wf, (wf_same (sweep_closed c2)); [done..|by apply sweep_wf]|]. intros _. apply update_open. apply sweep_open.
  - split; [|done]. apply (wf_same (sweep_closed c2)); [done..|by apply sweep_wf].
Qed.

Lemma find_window_some c handle view w : find_window c handle view = Some w ->
  In w (wl_toplevels c) /\ view_usable view w = true /\ tl_id w = handle.
Proof. intros H. apply find_some in H as [Hin H]. by apply andb_true_iff in H as [Hu H%Z.eqb_eq]. Qed.

(** what is listed is what is acted on: after any refresh that was not refused, in
    every view, each window that can be listed is the one its handle finds, and a handle
    that finds a window finds one that is open and that no other open window shares; and
    the handles stay distinct for the next call. *)
Theorem listed_handle_found view m c c' result : handles_wf c ->
  ksd_wayland_windows_refresh sha256 uid session_pid world (Some view) m c result = (None, c') ->
  handles_wf c' /\
  (forall window, In window (wl_toplevels c') -> view_usable view window = true -> find_window c' (tl_id window) view = Some window) /\
  (forall handle window, find_window c' handle view = Some window ->
     tl_id window = handle /\ tl_closed window = false /\
     forall other, In other (wl_toplevels c') -> tl_id other = handle -> other = window).
Proof.
  intros Hc Hr. pose proof (refresh_wf (Some view) m c result Hc) as H. rewrite Hr in H. destruct H as [Hwf Hopen]. specialize (Hopen eq_refl).
  rewrite List.Forall_forall in Hopen. assert (Huniq : forall a b, In a (wl_toplevels c') -> In b (wl_toplevels c') -> tl_id a = tl_id b -> a = b).
  { intros a b Ha Hb E. destruct Hwf as (_ & _ & _ & Ho). by apply (open_unique (wl_toplevels c')); auto. }
  split; [done|]. split.
  - intros w Hw Hu. destruct (find_window c' (tl_id w) view) as [f|] eqn:Ef.
    + apply find_window_some in Ef as (Hf & _ & E). f_equal. by apply Huniq.
    + pose proof (find_none _ _ Ef w Hw) as Hn. cbn in Hn. by rewrite Hu, Z.eqb_refl in Hn.
  - intros handle w Hf. apply find_window_some in Hf as (Hin & _ & E). split; [done|]. split; [by apply Hopen|].
    intros o Ho Eo. apply Huniq; [done..|congruence].
Qed.
End refreshes.

(** *** What an action remembers of a window keeps its handle *)

Definition keeps_window (op : winop) : Prop := forall w ipc,
  let '(_, (w', _)) := op (w, ipc) in tl_key w' = tl_key w /\ tl_id w' = tl_id w /\ tl_closed w' = tl_closed w.

Section keeping.
Context (uid session_pid : Z) {AL : Allocator} (world : list (list byte) -> list byte -> exchange).

Lemma keeps_done : keeps_window done_already.
Proof. done. Qed.
Lemma keeps_both a b : keeps_window a -> keeps_window b -> keeps_window (both a b).
Proof.
  intros Ha Hb w ipc. unfold both. specialize (Ha w ipc). destruct (a (w, ipc)) as [[] [w1 ipc1]]; [|done].
  specialize (Hb w1 ipc1). destruct (b (w1, ipc1)) as [ok [w2 ipc2]]. intuition congruence.
Qed.
Lemma keeps_command lua classic : keeps_window (command uid session_pid world lua classic).
Proof.
  intros w ipc. unfold command. destruct (printed _ _); [|done]. destruct (printed _ _); [|done]. by destruct (ksd_wayland_hypr_dispatch _ _ _ _ _ _).
Qed.
Lemma keeps_forget : keeps_window (change forget_restore).
Proof. done. Qed.
#[local] Hint Resolve keeps_done keeps_both keeps_command keeps_forget : keeps.

Lemma keeps_fullscreen mode : keeps_window (set_fullscreen uid session_pid world mode).
Proof.
  intros w ipc. unfold set_fullscreen. destruct (printed _ _); [|done]. destruct (printed _ _) as [legacy|]; [|done].
  destruct (ksd_wayland_hypr_dispatch _ _ _ _ _ _) as [[] ipc1]; [done|].
  apply keeps_both; [apply keeps_command|]. intros w1 ipc2. by destruct (ksd_wayland_hypr_dispatch _ _ _ _ _ _).
Qed.
Lemma keeps_unminimize : keeps_window (unminimize uid session_pid world).
Proof.
  intros w ipc. unfold unminimize. case_if; [done|]. case_if; [apply keeps_both; eauto with keeps; apply keeps_command|].
  case_if; [apply keeps_both; eauto with keeps; apply keeps_command|].
  destruct (ksd_wayland_hypr_active_workspace _ _ _ _) as [[workspace|] ipc1]; [|done]. case_if; [|done].
  apply keeps_both; eauto with keeps; apply keeps_command.
Qed.
Lemma keeps_minimize : keeps_window (minimize uid session_pid world).
Proof.
  intros w ipc. unfold minimize. case_if; [done|]. destruct (printed _ _); [|done]. destruct (printed _ _); [|done].
  by destruct (ksd_wayland_hypr_dispatch _ _ _ _ _ _) as [[] ipc1].
Qed.
#[local] Hint Resolve keeps_fullscreen keeps_unminimize keeps_minimize : keeps.

Lemma keeps_state value : keeps_window (set_state uid session_pid world value).
Proof.
  unfold set_state. case_if; [apply keeps_minimize|]. case_if; [|case_if; [apply keeps_unminimize|]].
  all: apply keeps_both; [apply keeps_unminimize|]; intros w ipc; destruct (hc_fullscreen (tl_hypr w) =? 0); cbn [negb].
  1, 4: exact (keeps_fullscreen _ w ipc).
  all: exact (keeps_done w ipc).
Qed.
Lemma keeps_above above : keeps_window (set_above uid session_pid world above).
Proof.
  unfold set_above. apply keeps_both; [apply keeps_command|]. apply keeps_both; [done|]. case_if; [apply keeps_command|done].
Qed.
Lemma keeps_opacity opacity : keeps_window (set_opacity uid session_pid world opacity).
Proof.
  intros w ipc. unfold set_opacity. destruct (ksd_wayland_hypr_opacity_text _ _) as [value|]; [|done]. apply keeps_both.
  - cbn [foldr opacity_props]. repeat (apply keeps_both; [apply keeps_command|]). apply keeps_done.
  - intros w1 ipc1. destruct (ksd_wayland_hypr_opacities _ _ _ _ _) as [[[|applied [|]]|] ipc2]; try done. by case_if.
Qed.
Lemma keeps_operation opcode value op : hypr_operation uid session_pid world opcode value = Some op -> keeps_window op.
Proof.
  unfold hypr_operation. repeat (case_if; [intros [= <-]|]); [..|done].
  - apply keeps_both; [apply keeps_unminimize|apply keeps_command].
  - apply keeps_command.
  - apply keeps_state.
  - apply keeps_command.
  - apply keeps_command.
  - apply keeps_opacity.
  - apply keeps_above.
Qed.

End keeping.

Definition handle_of (item : ksd_wl_toplevel) : Z * Z * bool := (tl_key item, tl_id item, tl_closed item).
(** The invariant is about the keys, the handles and whether they are closed. *)
Lemma handles_wf_handles c : handles_wf c <->
  let l := map handle_of (wl_toplevels c) in
  NoDup (map (fun h => fst (fst h)) l) /\ Forall (fun h => fst (fst h) < wl_next_key c) l /\ Forall (fun h => is_handle_id (snd (fst h))) l /\
  NoDup (map (fun h => snd (fst h)) (List.filter (fun h => negb (snd h)) l)).
Proof.
  cbn. unfold handles_wf, open_ids. rewrite map_map, !Forall_map. cbn [handle_of fst snd].
  replace (map (fun h => snd (fst h)) (List.filter (fun h : Z * Z * bool => negb (snd h)) (map handle_of (wl_toplevels c))))
    with (map tl_id (List.filter (fun item => negb (tl_closed item)) (wl_toplevels c))); [done|].
  induction (wl_toplevels c) as [|x l IH]; [done|]. cbn. destruct (tl_closed x); cbn; [done|]. by rewrite <- IH.
Qed.
Lemma handles_wf_agree items c : map handle_of items = map handle_of (wl_toplevels c) -> handles_wf c -> handles_wf (with_toplevels items c).
Proof. intros E. rewrite !handles_wf_handles. cbn [wl_toplevels with_toplevels wl_next_key]. by rewrite E. Qed.

Lemma key_unique c a b : handles_wf c -> In a (wl_toplevels c) -> In b (wl_toplevels c) -> tl_key a = tl_key b -> a = b.
Proof.
  intros (Hk & _). induction (wl_toplevels c) as [|x l IH]; [done|]. cbn in Hk. apply list.NoDup_cons in Hk as [Hx Hk]. rewrite list_elem_of_In in Hx.
  intros [->|Ha] [->|Hb] E; [done| | |by apply IH]; exfalso; apply Hx; [rewrite E|rewrite <- E]; by apply in_map.
Qed.

Lemma on_window_wf op window c : keeps_window op -> handles_wf c -> In window (wl_toplevels c) -> handles_wf (snd (on_window op window c)).
Proof.
  intros Hop Hc Hf. unfold on_window. specialize (Hop window (wl_ipc c)). destruct (op _) as [ok [w ipc]]. destruct Hop as (Hk & Hi & Hcl). cbn [snd].
  eapply (wf_same (with_toplevels (on_toplevel (tl_key window) (fun _ => w) (wl_toplevels c)) c)); [done..|].
  apply handles_wf_agree; [|done]. unfold on_toplevel. rewrite map_map. apply map_ext_in. intros item Hin.
  destruct (Z.eqb_spec (tl_key item) (tl_key window)) as [E|]; [|done]. apply (key_unique c) in E as ->; [|done..].
  unfold handle_of. congruence.
Qed.

Section actions.
Context (sha256 : list byte -> option (list byte)) (uid session_pid : Z) {AL : Allocator}
  (world : list (list byte) -> list byte -> exchange).

Lemma hypr_action_wf opcode handle value m c result : handles_wf c ->
  handles_wf (fst (ksd_wayland_hypr_window_action sha256 uid session_pid world opcode handle value m c result)).
Proof.
  intros Hc. unfold ksd_wayland_hypr_window_action, ksd_wayland_window_for_action.
  pose proof (refresh_wf sha256 uid session_pid world (Some HyprView) m c result Hc) as Hr.
  destruct (ksd_wayland_windows_refresh _ _ _ _ _ _ _ _) as [[a|] c1]; destruct Hr as [H1 _]; [done|].
  destruct (find_window c1 handle HyprView) as [w|] eqn:Ef; [|done]. apply find_window_some in Ef as (Hin & _).
  case_if; [done|]. case_if.
  - by destruct (kill_owner _ _ _ _ _ _ _ _) as [[status events] ipc].
  - destruct (hypr_operation _ _ _ _ _) as [op|] eqn:Eop; [|done]. apply keeps_operation in Eop.
    pose proof (on_window_wf op w c1 Eop H1 Hin) as H2. by destruct (on_window op w c1).
Qed.

Lemma finish_wlr_wf (c1 : ksd_wayland) m : handles_wf c1 -> handles_wf (snd (ksd_wayland_roundtrip sha256 (mt_reply m) c1)).
Proof. apply events_keep_wf. Qed.

Lemma wlr_requests_key key flags value : Forall (fun r => request_key r = key) (wlr_state_requests key flags value).
Proof. unfold wlr_state_requests. destruct (has_flag _ _), (has_flag _ _), (value =? 1), (value =? 2), (value =? 0); cbn; repeat constructor. Qed.
Lemma cosmic_requests_key key flags value : Forall (fun r => request_key r = key) (cosmic_state_requests key flags value).
Proof. unfold cosmic_state_requests. destruct (has_flag _ _), (has_flag _ _), (value =? 1), (value =? 2), (value =? 0); cbn; repeat constructor. Qed.

(** What an action over a protocol promises: the handles stay distinct, and what is sent
    is about the window the refreshed list has for the handle. *)
Definition acts_on (view : ksd_wayland_window_view) (handle : Z) (m : meeting) (c : ksd_wayland) (result : ksd_operation_result) (out : acted) : Prop :=
  let '(c', _, sent) := out in
  handles_wf c' /\
  (sent <> [] -> exists c1 window,
     ksd_wayland_windows_refresh sha256 uid session_pid world (Some view) m c result = (None, c1) /\
     find_window c1 handle view = Some window /\ Forall (fun r => request_key r = tl_key window) sent).

Lemma wlr_action_acts opcode handle value m c result : handles_wf c ->
  acts_on WlrView handle m c result (ksd_wayland_wlr_window_action sha256 uid session_pid world opcode handle value m c result).
Proof.
  intros Hc. unfold ksd_wayland_wlr_window_action, ksd_wayland_window_for_action, acts_on.
  pose proof (refresh_wf sha256 uid session_pid world (Some WlrView) m c result Hc) as Hr.
  destruct (ksd_wayland_windows_refresh _ _ _ _ _ _ _ _) as [[a|] c1]; destruct Hr as [H1 _]; [done|].
  destruct (find_window c1 handle WlrView) as [w|] eqn:Ef; [|done]. pose proof (finish_wlr_wf c1 m H1) as H2.
  destruct (ksd_wayland_roundtrip sha256 (mt_reply m) c1) as [ok c2]. cbn [snd] in H2.
  assert (Hsome : forall sent, Forall (fun r => request_key r = tl_key w) sent -> sent <> [] -> exists c0 window,
      (None (A := answered), c1) = (None, c0) /\ find_window c0 handle WlrView = Some window /\ Forall (fun r => request_key r = tl_key window) sent)
    by (intros sent Hs _; by exists c1, w).
  repeat case_if; (split; [done|]); try done; apply Hsome; first [by repeat constructor|apply wlr_requests_key].
Qed.

Lemma cosmic_action_acts opcode handle value m c result : handles_wf c ->
  acts_on CosmicView handle m c result (ksd_wayland_cosmic_window_action sha256 uid session_pid world opcode handle value m c result).
Proof.
  intros Hc. unfold ksd_wayland_cosmic_window_action, ksd_wayland_window_for_action, acts_on.
  pose proof (refresh_wf sha256 uid session_pid world (Some CosmicView) m c result Hc) as Hr.
  destruct (ksd_wayland_windows_refresh _ _ _ _ _ _ _ _) as [[a|] c1]; destruct Hr as [H1 _]; [done|].
  destruct (find_window c1 handle CosmicView) as [w|] eqn:Ef; [|done]. pose proof (finish_wlr_wf c1 m H1) as H2.
  destruct (ksd_wayland_roundtrip sha256 (mt_reply m) c1) as [ok c2]. cbn [snd] in H2.
  pose proof (dispatch_until_wf sha256 (fun c => window_now (tl_key w) c (requested_state_observed value)) (mt_settled m) c2 H2) as H3.
  destruct (ksd_wayland_dispatch_until _ _ _ c2) as [ok' c3]. cbn [snd] in H3.
  assert (Hsome : forall sent, Forall (fun r => request_key r = tl_key w) sent -> sent <> [] -> exists c0 window,
      (None (A := answered), c1) = (None, c0) /\ find_window c0 handle CosmicView = Some window /\ Forall (fun r => request_key r = tl_key window) sent)
    by (intros sent Hs _; by exists c1, w).
  repeat case_if; (split; [done|]); try done; apply Hsome; first [by repeat constructor|apply cosmic_requests_key].
Qed.

(** an action on a window reaches that window and no other: the requests it sends are
    all about the one window that, after its refresh, has the handle it was given and is
    open, which no other has; it sends none when there is no such window; and
    afterwards, whatever the compositors did meanwhile, handles are still distinct. *)
Theorem window_action_one_window opcode handle value m c result : handles_wf c ->
  let '(c', _, sent) := ksd_wayland_window_action sha256 uid session_pid world opcode handle value m c result in
  handles_wf c' /\
  (sent <> [] -> exists view c1 window,
     window_view c = Some view /\
     ksd_wayland_windows_refresh sha256 uid session_pid world (Some view) m c result = (None, c1) /\
     In window (wl_toplevels c1) /\ view_usable view window = true /\ tl_id window = handle /\ tl_closed window = false /\
     Forall (fun r => request_key r = tl_key window) sent /\
     forall other, In other (wl_toplevels c1) -> tl_id other = handle \/ tl_key other = tl_key window -> other = window).
Proof.
  intros Hc. unfold ksd_wayland_window_action, window_view.
  assert (Hview : forall view (out : acted), acts_on view handle m c result out -> let '(c', _, sent) := out in
    handles_wf c' /\ (sent <> [] -> exists view' c1 window, Some view = Some view' /\
      ksd_wayland_windows_refresh sha256 uid session_pid world (Some view') m c result = (None, c1) /\
      In window (wl_toplevels c1) /\ view_usable view' window = true /\ tl_id window = handle /\ tl_closed window = false /\
      Forall (fun r => request_key r = tl_key window) sent /\
      forall other, In other (wl_toplevels c1) -> tl_id other = handle \/ tl_key other = tl_key window -> other = window)).
  { intros view [[c' a] sent] [Hwf Hs]. split; [done|]. intros Hne. destruct (Hs Hne) as (c1 & w & Hr & Hf & Hk).
    exists view, c1, w. split; [done|]. split; [done|]. pose proof (refresh_wf sha256 uid session_pid world (Some view) m c result Hc) as Hw.
    rewrite Hr in Hw. destruct Hw as [Hwf1 Hopen]. specialize (Hopen eq_refl). rewrite List.Forall_forall in Hopen.
    apply find_window_some in Hf as (Hin & Hu & Hid). repeat (split; [by auto|]). intros o Ho [E|E]; [|by apply (key_unique c1)].
    destruct Hwf1 as (_ & _ & _ & Hd). apply (open_unique (wl_toplevels c1)); auto; congruence. }
  destruct (ksd_wayland_hypr_windows_available c).
  - pose proof (hypr_action_wf opcode handle value m c result Hc) as H. by destruct (ksd_wayland_hypr_window_action _ _ _ _ _ _ _ _ _ _) as [c' a].
  - destruct (wl_wlr_manager c); [by apply Hview, wlr_action_acts|]. destruct (ksd_wayland_cosmic_can_list c); [by apply Hview, cosmic_action_acts|done].
Qed.
End actions.

(** ** A session with COSMIC *)

Definition two_toplevels : list wl_event :=
  [ListToplevel [Some 7] true; OnToplevel 0 (ToplevelIdentifier (Some (cstr "18000002")));
   ListToplevel [Some 12; Some 9] true; OnToplevel 1 (ToplevelIdentifier (Some (cstr "18000003"))); OnToplevel 1 (ToplevelTitle (Some (cstr "two")));
   OnToplevel 1 (CosmicState [0]); OnToplevel 0 (CosmicState [2]); CosmicInfoDone].
Definition cosmic_session : ksd_wayland := with_cosmic true true (state_bits [CAPABILITY_CLOSE; CAPABILITY_MAXIMIZE; CAPABILITY_MINIMIZE]) (mk_wayland [] 0 true true true 0 false true false (Some (cstr "salt")) [] false (mk_hypr false [])).
Definition told_two : meeting := mk_meeting (mk_roundtrip two_toplevels true) [] (mk_roundtrip [] true) [Some [OnToplevel 1 (CosmicState [1; 0])]; Some [OnToplevel 1 (CosmicState [1])]] 5 None None.

Definition sample_action (opcode handle value : Z) : acted :=
  @ksd_wayland_window_action poor_digest 1000 5 infinite_memory obliging_world opcode handle value told_two cosmic_session ksd_result_init.

Example sample_actions :
  map (fun a => (res_status (fst (snd (fst a))), snd a))
    [sample_action KSD_OP_WINDOW_SET_STATE 9 1; sample_action KSD_OP_WINDOW_SET_STATE 9 2; sample_action KSD_OP_WINDOW_SET_STATE 9 0;
     sample_action KSD_OP_WINDOW_CLOSE 12 0; sample_action KSD_OP_WINDOW_CLOSE 10 0; sample_action KSD_OP_WINDOW_FOCUS 9 0]
  = [(KSD_STATUS_OK, [SetMinimized 1 true]); (KSD_STATUS_OK, []); (KSD_STATUS_TIMEOUT, [SetMaximized 1 false]);
     (KSD_STATUS_OK, [Close 0]); (KSD_STATUS_NOT_FOUND, []); (KSD_STATUS_UNSUPPORTED, [])].
Proof. vm_compute. reflexivity. Qed.

Example sample_handles_text :
  option_map (zdrop 4) (res_tail (fst (snd (@ksd_wayland_window_handles poor_digest 1000 5 infinite_memory obliging_world told_two cosmic_session ksd_result_init))))
  = Some (json_text "{'ok':true,'handles':['12','9']}").
Proof. vm_compute. reflexivity. Qed.

Lemma empty_wf c : wl_toplevels c = [] -> handles_wf c.
Proof. intros E. unfold handles_wf. rewrite E. repeat split; constructor. Qed.

Lemma listed_handle_found_witness :
  let c := @wl_events poor_digest infinite_memory two_toplevels cosmic_session in
  handles_wf (sweep_closed c) /\
  (forall window, In window (wl_toplevels (sweep_closed c)) -> view_usable CosmicView window = true ->
     find_window (sweep_closed c) (tl_id window) CosmicView = Some window) /\
  (forall handle window, find_window (sweep_closed c) handle CosmicView = Some window ->
     tl_id window = handle /\ tl_closed window = false /\
     forall other, In other (wl_toplevels (sweep_closed c)) -> tl_id other = handle -> other = window).
Proof.
  apply (@listed_handle_found poor_digest 1000 5 infinite_memory obliging_world CosmicView told_two cosmic_session
    (sweep_closed (@wl_events poor_digest infinite_memory two_toplevels cosmic_session)) ksd_result_init).
  - by apply empty_wf.
  - vm_compute. reflexivity.
Defined.

Lemma window_state_reached_witness :
  let item := tl_with_state 3 (fresh_toplevel 4 true false 9) in
  let requests := wlr_state_requests 4 3 0 in
  requests = [SetMinimized 4 false; SetMaximized 4 false] /\
  each_changes 3 requests /\ state_met 0 (fold_left request_effect requests 3) /\
  (forall n, 1 < n -> Z.testbit (fold_left request_effect requests 3) n = Z.testbit 3 n) /\
  (state_met 0 3 -> requests = []) /\
  (requested_state_observed 0 item = false -> cosmic_state_requests 4 3 0 = requests).
Proof. split; [reflexivity|]. apply (window_state_reached 4 (tl_with_state 3 (fresh_toplevel 4 true false 9)) 0). lia. Defined.

Lemma window_action_one_window_witness :
  let '(c', _, sent) := sample_action KSD_OP_WINDOW_SET_STATE 9 1 in
  handles_wf c' /\
  (sent <> [] -> exists view c1 window,
     window_view cosmic_session = Some view /\
     @ksd_wayland_windows_refresh poor_digest 1000 5 infinite_memory obliging_world (Some view) told_two cosmic_session ksd_result_init = (None, c1) /\
     In window (wl_toplevels c1) /\ view_usable view window = true /\ tl_id window = 9 /\ tl_closed window = false /\
     Forall (fun r => request_key r = tl_key window) sent /\
     forall other, In other (wl_toplevels c1) -> tl_id other = 9 \/ tl_key other = tl_key window -> other = window).
Proof.
  apply (@window_action_one_window poor_digest 1000 5 infinite_memory obliging_world KSD_OP_WINDOW_SET_STATE 9 1 told_two cosmic_session ksd_result_init).
  by apply empty_wf.
Defined.
